(* ===== verification/_CoqProject ===== *)
-Q . S2P
Prelude.v
Bytes.v
Prefix4.v
Prefix6.v
Radix.v
Capability.v
Open.v
Notification.v
Pattr.v
PattrSpec.v
PattrFormat.v
PattrText.v
Update.v
UpdateSpec.v
As4.v
As4Spec.v
PattrHeap.v
PattrHeapList.v
PattrHeapSpec.v
PattrHeapSafe.v
PattrHeapTheorems.v
Packet.v
PacketSpec.v
Sink.v
SinkSpec.v
Filter.v
FilterSpec.v
Event.v
Hashmap.v
HashmapSpec.v
Rib.v
RibTable.v
RibDecision.v
RibIndex.v
RibInv.v
RibRoutes.v
RibSpec.v
RibLookup.v
RibFamilies.v
Rib46.v
RibRefine.v
RibBest.v
RibJournal.v
RibForeach.v
RibTheorems.v
RibSteady.v
RibMoves.v
Fsm.v
FsmUpdate.v
FsmJournal.v
FsmRollback.v
FsmSteps.v
FsmChecks.v
FsmApply.v
FsmUpdateSpec.v
FsmTheorems.v
Out.v
Proc.v
ProcSpec.v
FsmSession.v
FsmForward.v
FsmHandlers.v
FsmObject.v
FsmSample.v
FsmInv.v
FsmKeeps.v
FsmReach.v
FsmRefs.v
FsmRun.v
FsmOpen.v
FsmHandshake.v
FsmReject.v
FsmEnd.v
FsmTimers.v
FsmCollision.v
FsmPrepare.v
FsmPath.v
FsmPrepareSpec.v
FsmAnnounce.v
FsmAnnounce6.v
