(* ===== verification/Prelude.v ===== *)
(** * libbgp: a verification of a BGP-4 library

    libbgp (C11) speaks BGP-4: it frames a TCP byte stream into packets, parses
    and writes the four message types, converts AS numbers between two- and
    four-octet sessions, keeps routing tables, filters routes, and runs the
    session state machine.  This library models these parts as executable
    Gallina definitions with the names of the C functions and proves what they
    promise.

    ** The program and the files that model it

    - [Prelude] (this file): machine integers, error codes
      (include/libbgp/types.h), big-endian accessors (src/internal.h), the
      effect of a C body, the program logic [wp] and its automation, the loop
      shapes the parsers and writers share, growable arrays.
    - [Bytes]: round trips of the byte accessors, bits of addresses.
    - [Prefix4], [Prefix6] (src/prefix4.c, src/prefix6.c): prefixes on the
      wire, masks, inclusion, order.
    - [Radix] (src/radix4.c, src/radix6.c): longest-prefix-match trees, written
      once over the address width and instantiated at 32 and 128 bits.
    - [Capability], [Open] (src/capability.c, src/open.c), [Notification]
      (src/notification.c, src/keepalive.c): the small messages.
    - [Pattr], [PattrSpec] (src/pattr.c): path attributes as values;
      [PattrFormat], [PattrText]: their text.
    - [PattrHeap] (src/pattr.c, src/update.c): path attributes as objects in
      memory, with reference counts, the list of AS_PATH blocks and the two
      layouts of a path.  Its proofs: [PattrHeapList] (the linked list, memory
      without the links, the cells of an attribute), [PattrHeapSpec] and
      [PattrHeapSafe] (what each operation does to them), [PattrHeapTheorems].
    - [Update], [UpdateSpec] (src/update.c): UPDATE messages; [As4], [As4Spec]
      (the same file): prepending and the AS_PATH / AS4_PATH and AGGREGATOR /
      AS4_AGGREGATOR conversions.
    - [Packet], [PacketSpec] (src/packet.c): the 19-octet header, dispatch on
      the message type, and the NOTIFICATION code reported for each error.
    - [Sink], [SinkSpec] (src/sink.c): the byte buffer and packet ring between
      the socket and the state machine.
    - [Filter], [FilterSpec] (src/filter.c, src/attr_view.h): route policy.
    - [Event] (src/event.c): the bus over which sessions and tables announce
      changes.
    - [Hashmap], [HashmapSpec] (src/hashmap.c): the index structure of the
      routing tables; the class [HashKey] is what it asks of its client.
    - The routing tables (src/rib4.c, src/rib6.c), which are the same code for
      two address families and are written once over the class [Family]:
      [Rib] (routes, entries, the decision process) and [RibTable] (the two
      indexes and every table operation); [Rib46] instantiates them and adds
      the insertion of local routes.  Their proofs: [RibDecision] (the
      comparison of routes), [RibIndex] (an index as a partition of the
      entries by a key), [RibInv] (the invariant of the two indexes and the
      radix tree, one lemma per index operation), [RibRoutes] (the buckets of
      the map of routes), [RibSpec] (the operations keep the whole table, or
      undo), [RibLookup] (longest-prefix match), [RibFamilies] (IPv4 and IPv6
      obey [FamilyLaws]), [RibRefine] (the abstract table and the simulation),
      [RibBest] (reported changes of the best route), [RibJournal] (saved
      routes, discarded peers), [RibForeach] (iteration), [RibTheorems] (the
      properties and their witnesses), [RibSteady] (what one refused
      allocation can change), [RibMoves] (the entries an operation moves).
    - Received UPDATEs (src/fsm.c): [Fsm] (the state of a session, the OPEN
      exchange, the checks and the editing of UPDATEs) and [FsmUpdate]
      (applying an UPDATE to both tables with a journal, rolling back).  Their
      proofs: [FsmJournal] (what the journal keeps), [FsmRollback] (undoing),
      [FsmSteps] (recording), [FsmChecks] (what is computed before a table is
      touched), [FsmApply] (the loops), [FsmUpdateSpec] and [FsmTheorems].
    - [Out] (src/out_handler.c): the output handler, whose system calls and
      callbacks are calls to the outside.
    - [Proc], [ProcSpec]: programs that share an object; critical sections,
      calls to the outside, interleaving.
    - The session (src/fsm.c), as such programs: [FsmSession] (the shared
      state, sending, publishing, dispatching), [FsmForward] (routes that are
      sent on, collisions), [FsmHandlers] (start, stop, reset, packets, clock),
      [FsmObject] (creation, destruction, attachments, settings); [FsmSample]
      is a session for examples.  Their proofs: [FsmInv], [FsmKeeps] and
      [FsmReach] (the invariant under any interleaving), [FsmRefs]
      (references), [FsmRun] (sending), [FsmOpen] and [FsmHandshake] (two
      sessions establish), [FsmReject] (refused OPENs), [FsmEnd] (the end of a
      session), [FsmTimers], [FsmCollision]; [FsmPrepare], [FsmPath] and
      [FsmPrepareSpec] (the UPDATE that is edited for a peer), [FsmAnnounce]
      and [FsmAnnounce6] (from the event of a route to the bytes sent).

    A message travels Sink -> Packet -> Open/Update/Notification -> Pattr ->
    Prefix: each parser is given a sub-buffer by its caller and reports how
    much of it was used.  The session takes packets, applies UPDATEs to the
    tables, publishes the changes on the bus, and sends on what it hears there.
    The [*Spec] files hold the specification and the
    proofs of the file they are named after, and each layer's theorems are
    proved from the [writes] and [wp] lemmas of the layer below.

    ** How C is read

    - A body is a computation of type [M]: a value, an error code (an early
      return), or a fault.  Reading or writing outside a buffer, a failed
      [assert] and exhausted fuel are faults, so that "never faults" is memory
      safety and termination.
    - [uintN_t] and [size_t] are [Z] with the wrap-around written where the code
      can wrap; [size_t] has 64 bits.
    - A pair (pointer, count) is a list; out-parameters are results.  An
      [Err] result means that the C function leaves its out-parameters as they
      were; where a function changes its object and then fails (the sink, the
      hash map, subscriptions), object and error code are both returned.
    - The allocator is an oracle, a list of answers; a finished list grants
      every request.  Theorems that do not mention it hold for every oracle.
    - Prefix addresses are [uint32_t] in network order, so their value depends
      on the host: the class [Host] has both byte orders, and every theorem
      holds for either.
    - NULL arguments, which the code refuses first thing, are excluded by the
      types; the [fsm] handle, whose implementation pointer is NULL after
      [libbgp_fsm_destroy], is not.
    - The operations of messages, tables, filters, bus and sink are the
      critical sections of their locks.  The entry points of a session, which
      give their lock back while they call out, are programs of [Proc]: a
      sequence of critical sections and of calls, between which other entry
      points may run.
    - A pointer to a stored route is the route with the address of its block,
      compared by address; the objects of the table's indexes live in a
      memory, and following a freed pointer is a fault.  In [PattrHeap] all of
      memory is a map from addresses; there the allocator answers addresses,
      which it may use again, and an answer that overlaps counts as NULL.

    ** What the theorems show

    - Round trips: what a writer produces, the parser of the same layer reads
      back (prefixes, OPEN, attributes, UPDATE, packets), and [wire_len] is the
      number of bytes written.
    - Parser safety: on any bytes and any allocator the parsers do not fault,
      answer only the listed errors, and accept only well-formed values.
    - Validation: [libbgp_update_validate] is characterised exactly.
    - AS numbers: downgrading then restoring a path is the identity, and
      prepending commutes with restoring.
    - The sink refines a pair (unframed bytes, queued packets); any chunking
      of a stream of encoded packets delivers exactly those packets.
    - Radix trees refine finite maps from prefixes, and lookup returns the
      longest stored prefix that covers the address.
    - The hash map refines a multimap.
    - A routing table refines a list of routes with one route per prefix and
      source: whatever the allocator answers, an operation has its effect on
      all three indexes and the tree or on none.  Lookups answer a most
      preferred route of the longest covering prefix, the reported changes of
      the best route are true, saved routes can be restored, discarding a peer
      reports exactly the lost prefixes.  Preference is an order when the MEDs
      of one prefix can be compared (parameter [cmp]); [rib_med_cycle] shows
      what happens when they cannot.
    - Filters: prefix rules are inclusion of address sets, the last matching
      rule decides, the indexed view of the attributes agrees with the scan.
    - The event bus delivers in order to exactly the subscribers of the type
      other than the publisher, holding a reference around each call.  With
      more than 64 of them it needs an allocation, and delivers to nobody when
      that is refused.
    - A received UPDATE is applied to both tables as a whole or not at all; a
      rollback that runs out of memory can lose only routes of the same peer
      for prefixes that the UPDATE names.
    - A session keeps its invariant under any interleaving of its entry points,
      and every change of its state is an edge of the diagram [fsm_edge], by
      the state it leaves, with one exception that is in the code: a thread
      that comes back from publishing a collision event does not look at the
      state before it enters OPEN_CONFIRM, so that what was done to the session
      meanwhile is lost ([fsm_stop_during_collision_lost]).  Its structure is freed
      exactly once, after the last use; the generation number recognises a
      session that was replaced while the lock was given back.
    - Two sessions that exchange the bytes they send establish and agree on
      what they negotiated; an OPEN that cannot be accepted is answered with
      the NOTIFICATION of its first defect; an established session that ends
      in one of the ways of [ending] (its destruction is not among them)
      withdraws the routes of its peer and says so on the bus; a silent peer
      is dropped when the hold time is over; of two colliding connections one
      survives.
    - A route that is added to a table is announced to the peer, and a route
      that is withdrawn is withdrawn from it, each in one packet that the peer's
      parser reads, exactly when [takes] holds: the session is established, the
      peer is not the source, the family was negotiated; announcements also
      need the outgoing filter ([lets_out]).  The path has the own AS
      number in front for an external peer, also where the peer restores it
      from two-octet attributes.  The announcement fits a message by
      hypothesis, and no allocation or send fails.
    - Attributes in memory: no sequence of operations reads or frees an
      address that is not allocated, memory is the disjoint union of what the
      live attributes own, and the last reference frees all of it.  Copying and
      prepending in memory do what they do to values.
    - The text of an attribute never leaves its buffer, and its length is
      reported whether it fits or not; the text tells attributes apart.

    ** Bounds and fuel

    Parsing loops carry one unit of fuel per byte of input plus one; every
    iteration uses at least a byte, and [wp_parse_loop_pos] shows that the fuel
    is not exhausted.  Doubling loops carry [DOUBLE_FUEL] = 64, the width of
    [size_t].  The sink's loop is given as many units as the buffer has bytes
    plus one, the sending loop of a session as many as the packet has bytes.
    Sizes of in-memory arrays are bounded by 2^40 elements where a theorem
    needs that a capacity computation does not overflow, 2^39 routes for a
    table and a journal that are changed together.  The search of the list of
    AS_PATH blocks has one unit of fuel per cell of memory plus one.  Twenty
    digits are enough for [size_t].  The generation of a session
    repeats after 2^64 changes of state, and the theorem about it says so.

    ** What is not modelled

    src/alloc.c (hooks around malloc; its answers are the oracle), src/log.c,
    src/errcode.c (strings), src/vec.h (a macro that nothing
    instantiates), examples/ and bench/ (programs that use the library).
    Of src/fsm.c: waiting for a dispatch that runs in another thread, an
    overflow of the reference count, and the freeing of what a session owns
    when its structure is freed.  Of the messages: their arrays of attributes
    are lists of values, so that [PattrHeap] is where sharing and freeing are
    studied, with the operations that create, copy, edit and release
    attributes; the growing arrays of MP_REACH_NLRI and MP_UNREACH_NLRI are
    values only.  Reference counts of capabilities, and the destructors that
    only free. *)

From stdpp Require Export prelude.
From Stdlib Require Export ZArith Lia ZifyBool.

#[global] Open Scope Z_scope.

(** ** Machine integers

    A [w]-bit unsigned integer is a [Z] together with the wrap-around the C
    conversion performs.  [size_t] is 64 bits wide. *)

Definition u8 (x : Z) : Z := x mod 2 ^ 8.
Definition u16 (x : Z) : Z := x mod 2 ^ 16.
Definition u32 (x : Z) : Z := x mod 2 ^ 32.
Definition u64 (x : Z) : Z := x mod 2 ^ 64.

Definition UINT32_MAX : Z := 2 ^ 32 - 1.
Definition SIZE_MAX : Z := 2 ^ 64 - 1.

Definition is_u8 (x : Z) : Prop := 0 <= x < 256.
Definition is_u16 (x : Z) : Prop := 0 <= x < 65536.
Definition is_u32 (x : Z) : Prop := 0 <= x < 4294967296.
Definition is_u64 (x : Z) : Prop := 0 <= x < 18446744073709551616.

(** The length of a C array as a [size_t]. *)
Abbreviation zlen l := (Z.of_nat (length l)).

Abbreviation bytes_ok := (Forall is_u8).

(** ** Error codes (include/libbgp/types.h) *)

Inductive libbgp_err_t : Type :=
  | LIBBGP_OK
  | LIBBGP_ERR
  | LIBBGP_ERR_PARSE
  | LIBBGP_ERR_WRITE
  | LIBBGP_ERR_BAD_TYPE
  | LIBBGP_ERR_BAD_LEN
  | LIBBGP_ERR_BUFFER
  | LIBBGP_ERR_INVALID
  | LIBBGP_ERR_EXISTS
  | LIBBGP_ERR_NOT_FOUND
  | LIBBGP_ERR_NOMEM.

#[export] Instance libbgp_err_eq_dec : EqDecision libbgp_err_t.
Proof. solve_decision. Defined.

(** ** The effect of a C function body

    A body either returns a value, returns one of the library's error codes
    (an early [return LIBBGP_ERR_...]), or goes wrong: it touches memory
    outside the object it was given, an [assert] fails, or a loop of the model
    runs out of fuel.
    Every call of the allocator consumes one answer of an oracle, a list of
    booleans; an exhausted oracle always grants the allocation. *)

Inductive fault : Type := OutOfBounds | OutOfFuel | AssertFailed.

Inductive outcome (A : Type) : Type :=
  | Ret (a : A)
  | Err (e : libbgp_err_t)
  | Fault (f : fault).
Arguments Ret {A} a.
Arguments Err {A} e.
Arguments Fault {A} f.

Definition M (A : Type) : Type := list bool -> outcome A * list bool.

#[export] Instance M_ret : MRet M := λ A a s, (Ret a, s).
#[export] Instance M_bind : MBind M := λ A B k m s,
  match m s with
  | (Ret a, s') => k a s'
  | (Err e, s') => (Err e, s')
  | (Fault f, s') => (Fault f, s')
  end.

Definition err {A} (e : libbgp_err_t) : M A := λ s, (Err e, s).
Definition stuck {A} (f : fault) : M A := λ s, (Fault f, s).

(** [if (c) return e;] *)
Definition fail_if (c : bool) (e : libbgp_err_t) : M unit :=
  if c then err e else mret tt.

(** One call of [bgp_malloc], [bgp_calloc] or [bgp_realloc]: does it return
    non-NULL? *)
Definition bgp_alloc : M bool := λ s,
  match s with
  | [] => (Ret true, [])
  | b :: s' => (Ret b, s')
  end.

(** [p = bgp_malloc(n); if (p == NULL) return LIBBGP_ERR_NOMEM;] *)
Definition alloc_or_nomem : M unit :=
  ok ← bgp_alloc; fail_if (negb ok) LIBBGP_ERR_NOMEM.

(** [err = f(...)]: the error code of a call as a value. *)
Definition try_call {A} (m : M A) : M (A + libbgp_err_t) := λ s,
  match m s with
  | (Ret a, s') => (Ret (inl a), s')
  | (Err e, s') => (Ret (inr e), s')
  | (Fault f, s') => (Fault f, s')
  end.

(** ** Buffers

    A C buffer [(p, len)] is the list of its [len] bytes.  Reading, passing a
    sub-buffer [p + pos, n] to a callee, and storing are checked: what would
    be undefined behaviour in C is an [OutOfBounds] fault here. *)

Definition rd (buf : list Z) (i : Z) : M Z :=
  if (0 <=? i) && (i <? zlen buf) then
    match buf !! Z.to_nat i with
    | Some b => mret b
    | None => stuck OutOfBounds
    end
  else stuck OutOfBounds.

Definition slice (buf : list Z) (pos n : Z) : M (list Z) :=
  if (0 <=? pos) && (0 <=? n) && (pos + n <=? zlen buf) then
    mret (take (Z.to_nat n) (drop (Z.to_nat pos) buf))
  else stuck OutOfBounds.

Definition store (buf : list Z) (pos : Z) (bytes : list Z) : M (list Z) :=
  if (0 <=? pos) && (pos + zlen bytes <=? zlen buf) then
    mret (take (Z.to_nat pos) buf ++ bytes ++
          drop (Z.to_nat pos + length bytes) buf)
  else stuck OutOfBounds.

(** Calling a writer on the sub-buffer [buf + pos, n]. *)
Definition in_sub {A} (buf : list Z) (pos n : Z)
    (w : list Z -> M (list Z * A)) : M (list Z * A) :=
  sub ← slice buf pos n;
  '(sub', r) ← w sub;
  buf' ← store buf pos sub';
  mret (buf', r).

(** ** Byte order (src/internal.h) *)

Definition bgp_get_be16 (b0 b1 : Z) : Z :=
  u16 (Z.lor (Z.shiftl b0 8) b1).

Definition bgp_get_be32 (b0 b1 b2 b3 : Z) : Z :=
  Z.lor (Z.lor (Z.lor (u32 (Z.shiftl b0 24)) (u32 (Z.shiftl b1 16)))
               (u32 (Z.shiftl b2 8))) b3.

Definition bgp_put_be16 (v : Z) : list Z := [u8 (Z.shiftr v 8); u8 v].

Definition bgp_put_be32 (v : Z) : list Z :=
  [u8 (Z.shiftr v 24); u8 (Z.shiftr v 16); u8 (Z.shiftr v 8); u8 v].

(** [bgp_get_be16(buf + i)] and [bgp_get_be32(buf + i)]. *)
Definition rd_be16 (buf : list Z) (i : Z) : M Z :=
  b0 ← rd buf i; b1 ← rd buf (i + 1); mret (bgp_get_be16 b0 b1).

Definition rd_be32 (buf : list Z) (i : Z) : M Z :=
  b0 ← rd buf i; b1 ← rd buf (i + 1); b2 ← rd buf (i + 2); b3 ← rd buf (i + 3);
  mret (bgp_get_be32 b0 b1 b2 b3).

(** The byte order of the host: which [uint32_t] value four consecutive bytes
    of memory are ([memcpy] between a [uint32_t] and a byte array). *)
Class Host : Type := { big_endian : bool }.

(** A little-endian host, for concrete runs. *)
Definition little_endian_host : Host := {| big_endian := false |}.

Section HostOrder.
Context {host : Host}.

Definition host_order (bs : list Z) : list Z :=
  if big_endian then bs else reverse bs.

Definition mem_of_u32 (v : Z) : list Z := host_order (bgp_put_be32 v).

Definition u32_of_mem (bs : list Z) : Z :=
  match host_order bs with
  | [b0; b1; b2; b3] => bgp_get_be32 b0 b1 b2 b3
  | _ => 0
  end.
End HostOrder.

(** [memcmp] of two byte arrays of the same length. *)
Fixpoint memcmp (a b : list Z) : Z :=
  match a, b with
  | x :: a', y :: b' => if x =? y then memcmp a' b' else x - y
  | _, _ => 0
  end.

(** ** Growable arrays

    [if (count >= cap) { new_cap = cap == 0 ? 8 : cap * 2; ...realloc...; cap = new_cap; }]
    in front of an append; [size] is the size of an element. *)

Definition array_grow (count cap size : Z) : M Z :=
  if cap <=? count then
    let new_cap := if cap =? 0 then 8 else u64 (cap * 2) in
    fail_if ((new_cap <=? cap) || (SIZE_MAX / size <? new_cap)) LIBBGP_ERR_BAD_LEN;;
    alloc_or_nomem;;
    mret new_cap
  else mret cap.

(** [while (new_cap < required) { if (new_cap > SIZE_MAX / 2) return false; new_cap *= 2; }] *)
Fixpoint double_until (fuel : nat) (new_cap required : Z) : M (option Z) :=
  if new_cap <? required then
    if SIZE_MAX / 2 <? new_cap then mret None
    else
      match fuel with
      | O => stuck OutOfFuel
      | S fuel' => double_until fuel' (new_cap * 2) required
      end
  else mret (Some new_cap).

(** A capacity of 64 bits doubles at most 64 times. *)
Definition DOUBLE_FUEL : nat := 64.

(** [reserve(impl, needed)] of the rule and subscriber arrays: the capacity to
    use from now on, or none when it cannot be had; [size] is the size of an
    element. *)
Definition reserve_cap (cap needed size : Z) : M (option Z) :=
  if needed <=? cap then mret (Some cap)
  else
    new_cap ← double_until DOUBLE_FUEL (if cap =? 0 then 4 else u64 (cap * 2)) needed;
    match new_cap with
    | None => mret None
    | Some new_cap =>
        if SIZE_MAX / size <? new_cap then mret None
        else
          ok ← bgp_alloc;
          mret (if (ok : bool) then Some new_cap else None)
    end.

(** ** Loop shapes of the parsers and writers

    [parse_loop step buf]: [while (pos < len) { ...; pos += used; }], the body
    [step] being given [buf + pos, len - pos] and the accumulated object.
    [write_loop wr xs lim buf pos]:
    [for (i = 0; i < n; i++) { wr(xs[i], buf + pos, lim - pos); pos += one; }],
    [lim] being the total length the caller has computed. *)

Section Loops.
Context {A : Type}.

Fixpoint parse_loop_from (fuel : nat) (step : list Z -> A -> M (A * Z))
    (buf : list Z) (pos : Z) (acc : A) : M A :=
  match fuel with
  | O => stuck OutOfFuel
  | S fuel' =>
      if pos <? zlen buf then
        sub ← slice buf pos (zlen buf - pos);
        '(acc', used) ← step sub acc;
        parse_loop_from fuel' step buf (pos + used) acc'
      else mret acc
  end.

Definition parse_loop (step : list Z -> A -> M (A * Z)) (buf : list Z)
    (acc : A) : M A :=
  parse_loop_from (S (length buf)) step buf 0 acc.

Fixpoint write_loop (wr : A -> list Z -> M (list Z * Z)) (xs : list A)
    (lim : Z) (buf : list Z) (pos : Z) : M (list Z * Z) :=
  match xs with
  | [] => mret (buf, pos)
  | x :: xs' =>
      '(buf', one) ← in_sub buf pos (lim - pos) (wr x);
      write_loop wr xs' lim buf' (pos + one)
  end.
End Loops.

(** ** The program logic

    [wp m Q E]: whatever the allocator answers, [m] does not fault; when it
    returns a value the value satisfies [Q]; when it returns an error code the
    code satisfies [E], or it is [LIBBGP_ERR_NOMEM] and the allocator did
    refuse a request of this very run. *)

Definition wp {A} (m : M A) (Q : A -> Prop) (E : libbgp_err_t -> Prop) : Prop :=
  ∀ s, ∃ used s', s = used ++ s' ∧
    match m s with
    | (Ret a, t) => t = s' ∧ Q a
    | (Err e, t) => t = s' ∧ (E e ∨ e = LIBBGP_ERR_NOMEM ∧ false ∈ used)
    | (Fault _, _) => False
    end.

(** Never an error of its own / never a value. *)
Definition no_err : libbgp_err_t -> Prop := λ _, False.
Definition no_ret {A} : A -> Prop := λ _, False.

Lemma wp_ret {A} a (Q : A -> Prop) E : Q a → wp (mret a) Q E.
Proof. intros HQ s. by exists [], s. Qed.

Lemma wp_err {A} e (Q : A -> Prop) (E : libbgp_err_t -> Prop) : E e → wp (err e) Q E.
Proof. intros HE s. exists [], s. naive_solver. Qed.

Lemma wp_bind {A B} (m : M A) (k : A -> M B) (Q : B -> Prop) E :
  wp m (λ a, wp (k a) Q E) E → wp (m ≫= k) Q E.
Proof.
  intros Hm s. destruct (Hm s) as (u & s1 & -> & Hms).
  unfold mbind, M_bind. destruct (m (u ++ s1)) as [[a|e|f] t]; [| |done].
  - destruct Hms as [-> Hk]. destruct (Hk s1) as (u' & s2 & -> & Hks).
    exists (u ++ u'), s2. split; [by rewrite (assoc_L (++))|].
    destruct (k a (u' ++ s2)) as [[b|e|f] t]; [done| |done].
    set_solver.
  - destruct Hms as [-> HE]. exists u, s1. done.
Qed.

Lemma wp_mono {A} (m : M A) (Q Q' : A -> Prop) (E E' : libbgp_err_t -> Prop) :
  wp m Q E → (∀ a, Q a → Q' a) → (∀ e, E e → E' e) → wp m Q' E'.
Proof.
  intros Hm HQ HE s. destruct (Hm s) as (u & s1 & -> & Hms).
  exists u, s1. split; [done|]. destruct (m (u ++ s1)) as [[a|e|f] t]; naive_solver.
Qed.

Lemma wp_fail_if c e (Q : unit -> Prop) (E : libbgp_err_t -> Prop) :
  (c = true → E e) → (c = false → Q tt) → wp (fail_if c e) Q E.
Proof. destruct c; intros; [apply wp_err|apply wp_ret]; auto. Qed.

Lemma wp_alloc_or_nomem (Q : unit -> Prop) E : Q tt → wp alloc_or_nomem Q E.
Proof.
  intros HQ [|[] s]; [by exists [], []|by exists [true], s|].
  exists [false], s. split; [done|]. simpl. split; [done|]. set_solver.
Qed.

Lemma wp_alloc {A} (k : bool -> M A) (Q : A -> Prop) (E : libbgp_err_t -> Prop) :
  wp (k true) Q E →
  wp (k false) Q (λ e, E e ∨ e = LIBBGP_ERR_NOMEM) →
  wp (bgp_alloc ≫= k) Q E.
Proof.
  intros Ht Hf [|[] s]; unfold mbind, M_bind; simpl; [apply (Ht [])|..].
  - destruct (Ht s) as (u & s' & -> & H). exists (true :: u), s'. split; [done|].
    destruct (k true (u ++ s')) as [[a|e|f] t]; set_solver.
  - destruct (Hf s) as (u & s' & -> & H). exists (false :: u), s'. split; [done|].
    destruct (k false (u ++ s')) as [[a|e|f] t]; set_solver.
Qed.

Lemma wp_try_call {A B} (m : M A) (k : A + libbgp_err_t -> M B) (E0 : libbgp_err_t -> Prop)
    (Q : B -> Prop) (E : libbgp_err_t -> Prop) :
  wp m (λ a, wp (k (inl a)) Q E) E0 →
  (∀ e, E0 e → wp (k (inr e)) Q E) →
  wp (k (inr LIBBGP_ERR_NOMEM)) Q (λ e, E e ∨ e = LIBBGP_ERR_NOMEM) →
  wp (try_call m ≫= k) Q E.
Proof.
  intros Hm He Hn s. destruct (Hm s) as (u & s1 & -> & Hms). unfold mbind, M_bind, try_call.
  assert (∀ (m' : M B) (E' : libbgp_err_t -> Prop), wp m' Q E' → (∀ e, E' e → E e ∨ e = LIBBGP_ERR_NOMEM ∧ false ∈ u) →
    ∃ used s', u ++ s1 = used ++ s' ∧ match m' s1 with
      | (Ret a, t) => t = s' ∧ Q a
      | (Err e, t) => t = s' ∧ (E e ∨ e = LIBBGP_ERR_NOMEM ∧ false ∈ used)
      | (Fault _, _) => False end) as Hgo.
  { intros m' E' H' HE'. destruct (H' s1) as (u' & s2 & -> & Hks). exists (u ++ u'), s2.
    split; [by rewrite (assoc_L (++))|]. destruct (m' (u' ++ s2)) as [[b|e|f] t]; [done| |done].
    destruct Hks as [-> [[?|[-> ?]]%HE'|[-> ?]]]; set_solver. }
  destruct (m (u ++ s1)) as [[a|e|f] t]; [| |done].
  - destruct Hms as [-> Hk]. eapply Hgo; [exact Hk|auto].
  - destruct Hms as [-> [H|[-> Hf]]]; [eapply Hgo; [by apply He|auto]|].
    eapply Hgo; [exact Hn|]. intros e [?| ->]; auto.
Qed.

Lemma wp_if {A} (c : bool) (m1 m2 : M A) (Q : A -> Prop) E :
  (c = true → wp m1 Q E) → (c = false → wp m2 Q E) →
  wp (if c then m1 else m2) Q E.
Proof. destruct c; auto. Qed.

Lemma wp_conj {A} (m : M A) (Q1 Q2 : A -> Prop) (E1 E2 : libbgp_err_t -> Prop) :
  wp m Q1 E1 → wp m Q2 E2 → wp m (λ a, Q1 a ∧ Q2 a) (λ e, E1 e ∨ E2 e).
Proof.
  intros H1 H2 s. destruct (H1 s) as (u & s1 & -> & H1s).
  destruct (H2 (u ++ s1)) as (u' & s1' & _ & H2s).
  exists u, s1. split; [done|]. destruct (m (u ++ s1)) as [[a|e|f] t]; naive_solver.
Qed.

(** With an allocator that never refuses, a computation that has no error of
    its own returns its value. *)
Lemma wp_returns {A} (m : M A) a :
  wp m (λ x, x = a) no_err → m [] = (Ret a, []).
Proof.
  intros Hm. destruct (Hm []) as (u & s' & Hs & H).
  apply eq_sym, app_nil in Hs as [-> ->].
  destruct (m []) as [[x|e|f] t]; [naive_solver| |done].
  destruct H as [_ [[]|[_ Hin]]]. by inversion Hin.
Qed.

Lemma wp_fails {A} (m : M A) e0 :
  wp m no_ret (λ e, e = e0) → m [] = (Err e0, []).
Proof.
  intros Hm. destruct (Hm []) as (u & s' & Hs & H).
  apply eq_sym, app_nil in Hs as [-> ->].
  destruct (m []) as [[x|e|f] t]; [by destruct H as [_ []]| |done].
  destruct H as [-> [->|[_ Hin]]]; [done|by inversion Hin].
Qed.

(** A run with an allocator that never refuses. *)
Lemma wp_run {A} (m : M A) (Q : A -> Prop) (E : libbgp_err_t -> Prop) :
  wp m Q E →
  (∃ a, m [] = (Ret a, []) ∧ Q a) ∨ (∃ e, m [] = (Err e, []) ∧ E e).
Proof.
  intros Hm. destruct (Hm []) as (u & s' & Hs & H).
  apply eq_sym, app_nil in Hs as [-> ->].
  destruct (m []) as [[a|e|f] t]; [left; naive_solver|right|done].
  destruct H as [-> [?|[_ Hin]]]; [by eauto|by inversion Hin].
Qed.

Lemma wp_run_ret {A} (m : M A) (Q : A -> Prop) : wp m Q no_err → ∃ a, m [] = (Ret a, []) ∧ Q a.
Proof. intros [?|(e & _ & [])]%wp_run. done. Qed.

Lemma wp_value {A} (m : M A) (Q : A -> Prop) E s a t : wp m Q E → m s = (Ret a, t) → Q a.
Proof.
  intros Hm Hms. destruct (Hm s) as (u & s' & _ & H). rewrite Hms in H. naive_solver.
Qed.

Lemma wp_no_fault {A} (m : M A) (Q : A -> Prop) E s f t : wp m Q E → m s ≠ (Fault f, t).
Proof. intros Hm Hms. destruct (Hm s) as (u & s' & _ & H). by rewrite Hms in H. Qed.

Lemma wp_rd buf i (Q : Z -> Prop) E :
  0 <= i < zlen buf →
  (∀ b, buf !! Z.to_nat i = Some b → Q b) → wp (rd buf i) Q E.
Proof.
  intros Hi HQ. unfold rd.
  replace ((0 <=? i) && (i <? zlen buf)) with true by lia.
  destruct (buf !! Z.to_nat i) as [b|] eqn:Hb; [by apply wp_ret, HQ|].
  apply lookup_ge_None in Hb. lia.
Qed.

Lemma wp_slice buf pos n (Q : list Z -> Prop) E :
  0 <= pos → 0 <= n → pos + n <= zlen buf →
  Q (take (Z.to_nat n) (drop (Z.to_nat pos) buf)) → wp (slice buf pos n) Q E.
Proof.
  intros Hp Hn Hl HQ. unfold slice.
  replace ((0 <=? pos) && (0 <=? n) && (pos + n <=? zlen buf)) with true by lia.
  by apply wp_ret.
Qed.

Lemma wp_store buf pos bytes (Q : list Z -> Prop) E :
  0 <= pos → pos + zlen bytes <= zlen buf →
  Q (take (Z.to_nat pos) buf ++ bytes ++ drop (Z.to_nat pos + length bytes) buf) →
  wp (store buf pos bytes) Q E.
Proof.
  intros Hp Hl HQ. unfold store.
  replace ((0 <=? pos) && (pos + zlen bytes <=? zlen buf)) with true by lia.
  by apply wp_ret.
Qed.

Lemma length_slice (buf : list Z) pos n :
  0 <= pos → 0 <= n → pos + n <= zlen buf →
  zlen (take (Z.to_nat n) (drop (Z.to_nat pos) buf)) = n.
Proof. intros. rewrite length_take, length_drop. lia. Qed.

Lemma bytes_ok_slice (buf : list Z) a b :
  bytes_ok buf → bytes_ok (take a (drop b buf)).
Proof. intros. by apply Forall_take, Forall_drop. Qed.

(** ** Growable arrays: rules *)

Definition grow_cap (cap n : Z) : Z :=
  if cap <=? n then if cap =? 0 then 8 else u64 (cap * 2) else cap.

(** The capacity stays proportional to what the array holds. *)
Definition cap_inv (n cap : Z) : Prop := n <= cap <= 2 * n + 8.

Lemma grow_cap_inv n cap :
  0 <= n <= 2 ^ 40 → cap_inv n cap → cap_inv (n + 1) (grow_cap cap n).
Proof.
  unfold cap_inv, grow_cap, u64. intros Hn Hi.
  repeat case_match; try lia; rewrite Z.mod_small by lia; lia.
Qed.

Lemma wp_array_grow n cap size (Q : Z -> Prop) E :
  0 <= n <= 2 ^ 40 → cap_inv n cap → 0 < size <= 64 → Q (grow_cap cap n) →
  wp (array_grow n cap size) Q E.
Proof.
  intros Hn Hi Hs HQ. unfold array_grow, grow_cap in *. apply wp_if; intros Hc; rewrite Hc in HQ;
    [|by apply wp_ret].
  assert (Hb : 2 ^ 58 - 1 <= SIZE_MAX / size).
  { etransitivity; [|apply Z.div_le_compat_l; [unfold SIZE_MAX; lia|exact Hs]].
    unfold SIZE_MAX. vm_compute. discriminate. }
  apply wp_bind, wp_fail_if; intros Hf.
  - exfalso. unfold cap_inv, u64 in *. destruct (cap =? 0) eqn:Hz; [lia|].
    rewrite Z.mod_small in Hf by lia. lia.
  - by apply wp_bind, wp_alloc_or_nomem, wp_ret.
Qed.

Lemma wp_array_grow_any n cap size (Q : Z -> Prop) (E : libbgp_err_t -> Prop) :
  E LIBBGP_ERR_BAD_LEN → (∀ cap', Q cap') → wp (array_grow n cap size) Q E.
Proof.
  intros HE HQ. apply wp_if; intros; [|by apply wp_ret].
  apply wp_bind, wp_fail_if; intros; [done|]. by apply wp_bind, wp_alloc_or_nomem, wp_ret.
Qed.

(** Doubling reaches any capacity of the address space. *)
Lemma double_until_run fuel n required s :
  0 < n → required <= n * 2 ^ Z.of_nat fuel → required <= 2 ^ 60 →
  ∃ c, double_until fuel n required s = (Ret (Some c), s) ∧
    required <= c ∧ n <= c ∧ (c = n ∨ c < 2 * required).
Proof.
  assert (Hmax : SIZE_MAX / 2 = 2 ^ 63 - 1) by done.
  revert n. induction fuel as [|fuel IH]; intros n Hn Hr Hb; cbn [double_until].
  - destruct (n <? required) eqn:Hlt; [exfalso; cbn in Hr; lia|].
    exists n. split_and!; [done|lia..].
  - destruct (n <? required) eqn:Hlt; [|exists n; split_and!; [done|lia..]].
    rewrite Hmax. destruct (2 ^ 63 - 1 <? n) eqn:Hs; [lia|].
    destruct (IH (n * 2)) as (c & Hc & ? & ? & ?); [lia| |done|].
    { rewrite Nat2Z.inj_succ, Z.pow_succ_r in Hr by lia. lia. }
    exists c. split_and!; [done|lia..].
Qed.

(** Reserving room for one more element: the allocator decides. *)
Lemma reserve_cap_run cap n size s :
  0 <= n <= cap → n < 2 ^ 40 → cap <= 2 ^ 50 → 0 < size <= 64 →
  ∃ r s', reserve_cap cap (n + 1) size s = (r, s') ∧
    match r with
    | Ret (Some cap') => n < cap' <= 2 ^ 50
    | Ret None => s ≠ []
    | _ => False
    end ∧ (s = [] → s' = []).
Proof.
  intros Hn Hb Hc Hs. unfold reserve_cap. destruct (n + 1 <=? cap) eqn:Hle.
  { eexists _, _. split; [done|]. split; [lia|done]. }
  destruct (double_until_run DOUBLE_FUEL (if cap =? 0 then 4 else u64 (cap * 2)) (n + 1) s)
    as (c & Hd & Hc1 & Hc2 & Hc3).
  1, 2: unfold u64, DOUBLE_FUEL; case_match; rewrite ?Z.mod_small; lia.
  { lia. }
  assert (Hbnd : c <= 2 ^ 42).
  { destruct Hc3 as [-> |?]; [|lia]. unfold u64. case_match; [lia|]. rewrite Z.mod_small; lia. }
  assert (Hsz : 2 ^ 58 - 1 <= SIZE_MAX / size).
  { etransitivity; [|apply Z.div_le_compat_l; [unfold SIZE_MAX; lia|exact Hs]].
    unfold SIZE_MAX. vm_compute. discriminate. }
  unfold mbind, M_bind. rewrite Hd. destruct (SIZE_MAX / size <? c) eqn:Hf; [lia|].
  destruct s as [|[] s]; cbn [bgp_alloc]; eexists _, _; (split; [done|]); cbn; (split; [|done]); done || lia.
Qed.

(** Appending to a growable array. *)
Definition push_grow {A B} (f : A -> B) (acc : list B * Z) (x : A) : list B * Z :=
  (acc.1 ++ [f x], grow_cap acc.2 (zlen acc.1)).

Lemma foldl_push_grow {A B} (f : A -> B) xs acc :
  cap_inv (zlen acc.1) acc.2 → zlen acc.1 + zlen xs <= 2 ^ 40 →
  cap_inv (zlen (foldl (push_grow f) acc xs).1) (foldl (push_grow f) acc xs).2 ∧
  (foldl (push_grow f) acc xs).1 = acc.1 ++ (f <$> xs).
Proof.
  revert acc. induction xs as [|x xs IH]; intros acc Hi Hl.
  { simpl. by rewrite app_nil_r. }
  cbn [length foldl] in *. rewrite fmap_cons. destruct (IH (push_grow f acc x)) as [Hi' He'].
  - cbn [push_grow fst snd]. rewrite length_app, Nat2Z.inj_add. apply grow_cap_inv; [lia|done].
  - cbn [push_grow fst]. rewrite length_app. cbn [length]. lia.
  - split; [done|]. rewrite He'. simpl. by rewrite <-(assoc_L (++)).
Qed.

(** ** Runs

    [runs R m Q]: [m] returns a value, and the value satisfies [Q]; for every
    allocator, or, when [R] is true, for the one that never refuses. *)

Definition runs {A} (R : bool) (m : M A) (Q : A -> Prop) : Prop :=
  ∀ s, (R = true → s = []) → ∃ a s', m s = (Ret a, s') ∧ Q a ∧ (R = true → s' = []).

Lemma runs_ret {A} R (a : A) (Q : A -> Prop) : Q a → runs R (mret a) Q.
Proof. intros HQ s Hs. by exists a, s. Qed.

Lemma runs_bind {A B} R (m : M A) (k : A -> M B) (Q : B -> Prop) :
  runs R m (λ a, runs R (k a) Q) → runs R (m ≫= k) Q.
Proof.
  intros Hm s Hs. destruct (Hm s Hs) as (a & s' & He & Hk & Hs').
  unfold mbind, M_bind. rewrite He. by apply Hk.
Qed.

Lemma runs_mono {A} R (m : M A) (Q Q' : A -> Prop) :
  runs R m Q → (∀ a, Q a → Q' a) → runs R m Q'.
Proof. intros Hm HQ s Hs. destruct (Hm s Hs) as (a & s' & ? & ? & ?). eauto 6. Qed.

Lemma runs_if {A} R (c : bool) (m1 m2 : M A) (Q : A -> Prop) :
  (c = true → runs R m1 Q) → (c = false → runs R m2 Q) → runs R (if c then m1 else m2) Q.
Proof. destruct c; auto. Qed.

(** A computation that leaves the oracle alone. *)
Lemma runs_pure {A} R (m : M A) a (Q : A -> Prop) : (∀ s, m s = (Ret a, s)) → Q a → runs R m Q.
Proof. intros Hm HQ s Hs. exists a, s. by rewrite Hm. Qed.

Lemma runs_alloc {A} R (k : bool -> M A) (Q : A -> Prop) :
  runs R (k true) Q → (R = false → runs R (k false) Q) → runs R (bgp_alloc ≫= k) Q.
Proof.
  intros Ht Hf [|b s] Hs; unfold mbind, M_bind; cbn [bgp_alloc]; [by apply Ht|].
  destruct R; [by specialize (Hs eq_refl)|]. destruct b; [by apply Ht|by apply Hf].
Qed.

(** The error code of a call, with what the call returns when nothing is
    refused. *)
Lemma runs_try {A B} R (m : M A) (k : A + libbgp_err_t -> M B) (P : A -> Prop) E (Q : B -> Prop) :
  wp m P E →
  (∀ a, P a → (R = true → m [] = (Ret a, [])) → runs R (k (inl a)) Q) →
  (∀ e, (R = true → m [] = (Err e, [])) → runs R (k (inr e)) Q) →
  runs R (try_call m ≫= k) Q.
Proof.
  intros Hm Ha He s Hs. destruct (Hm s) as (u & s' & Hu & H). unfold mbind, M_bind, try_call.
  assert (R = true → s' = []) as Hs'.
  { intros HR. rewrite (Hs HR) in Hu. symmetry in Hu. by apply app_nil in Hu as [_ ?]. }
  destruct (m s) as [[a|e|f] t] eqn:Hms; [| |done].
  - destruct H as [-> HP]. apply Ha; [done| |done]. intros HR.
    rewrite (Hs HR) in Hms. by rewrite Hms, (Hs' HR).
  - destruct H as [-> _]. apply He; [|done]. intros HR.
    rewrite (Hs HR) in Hms. by rewrite Hms, (Hs' HR).
Qed.

(** Errors as values. *)
Lemma runs_try_bind {A B} R (m : M A) (k : A -> M B) (Q : B + libbgp_err_t -> Prop) :
  runs R (try_call m) (λ o, match o with inl x => runs R (try_call (k x)) Q | inr e => Q (inr e) end) →
  runs R (try_call (m ≫= k)) Q.
Proof.
  intros Hm s Hs. destruct (Hm s Hs) as (o & s' & He & Hr & Hs'). unfold try_call, mbind, M_bind in *.
  destruct (m s) as [[x|e|f] s1]; try done; unfold mret, M_ret in He; simplify_eq; [by apply Hr|by eauto].
Qed.

Lemma runs_try_alloc R :
  runs R (try_call alloc_or_nomem) (λ o, match o with inl _ => True | inr e => e = LIBBGP_ERR_NOMEM ∧ R = false end).
Proof.
  intros s Hs. destruct s as [|[] s]; cbn; eexists _, _; (split; [done|]); try done.
  - split; [done|]. intros HT. by specialize (Hs HT).
  - destruct R; [by specialize (Hs eq_refl)|]. done.
Qed.

Lemma runs_try_run {A} R (m : M A) (P : A -> Prop) :
  runs R m P → runs R (try_call m) (λ o, match o with inl x => P x | inr _ => False end).
Proof.
  intros Hm s Hs. destruct (Hm s Hs) as (x & s' & He & HP & Hs'). exists (inl x), s'.
  unfold try_call. by rewrite He.
Qed.

Lemma runs_try_ret {A} R (x : A) (Q : A + libbgp_err_t -> Prop) : Q (inl x) → runs R (try_call (mret x)) Q.
Proof. intros HQ s Hs. by exists (inl x), s. Qed.

Lemma runs_ext {A} R (m m' : M A) (Q : A -> Prop) :
  (∀ s, m s = m' s) → runs R m Q → runs R m' Q.
Proof. intros He Hm s Hs. rewrite <-He. by apply Hm. Qed.

Lemma runs_bind_ret {A B} R (m : M A) (g : A -> B) (Q : B -> Prop) :
  runs R (m ≫= λ a, mret (g a)) Q → runs R m (λ a, Q (g a)).
Proof.
  intros Hm s Hs. destruct (Hm s Hs) as (b & s' & He & HQ & Hs'). unfold mbind, M_bind in He.
  destruct (m s) as [[a|e|f] t]; try done. unfold mret, M_ret in He. simplify_eq. eauto.
Qed.

(** ** Automation: one step of symbolic execution *)

(** Lengths of buffers: the rewrite base [len] computes them, [solve_len]
    closes the resulting linear goals. *)
Create Rewrite HintDb len.
Lemma length_put_be16 v : length (bgp_put_be16 v) = 2%nat.
Proof. done. Qed.
Lemma length_put_be32 v : length (bgp_put_be32 v) = 4%nat.
Proof. done. Qed.
#[export] Hint Rewrite length_put_be16 length_put_be32 : len.
#[export] Hint Rewrite @length_app @length_take @length_drop @length_replicate
  @length_reverse @length_fmap : len.

Ltac solve_len :=
  autorewrite with len in *; cbn [length] in *; autorewrite with len in *; lia.

Ltac wp_step :=
  lazymatch goal with
  | |- wp (_ ≫= _) _ _ => apply wp_bind
  | |- wp (mret _) _ _ => apply wp_ret
  | |- wp (err _) _ _ => apply wp_err
  | |- wp (fail_if _ _) _ _ => apply wp_fail_if; intros ?
  | |- wp alloc_or_nomem _ _ => apply wp_alloc_or_nomem
  | |- wp (rd _ _) _ _ => apply wp_rd; [try (simpl length; lia)|intros ? ?]
  | |- wp (slice _ _ _) _ _ => apply wp_slice; [try lia..|]
  | |- wp (store _ _ _) _ _ => apply wp_store; [try (simpl length; lia)..|]
  | |- wp (rd_be16 _ _) _ _ => unfold rd_be16
  | |- wp (rd_be32 _ _) _ _ => unfold rd_be32
  | |- wp (if _ then _ else _) _ _ => apply wp_if; intros ?
  | |- wp (let (_, _) := ?p in _) _ _ => destruct p
  end.
Ltac wp_steps := repeat (wp_step; simpl).

(** Reading a known prefix of a buffer. *)
Lemma wp_rd_at buf i b (Q : Z -> Prop) E :
  0 <= i → buf !! Z.to_nat i = Some b → Q b → wp (rd buf i) Q E.
Proof.
  intros Hi Hb HQ. pose proof (lookup_lt_Some _ _ _ Hb). apply wp_rd; [lia|].
  intros b' Hb'. congruence.
Qed.

Lemma wp_slice_app pre mid post pos n (Q : list Z -> Prop) E :
  pos = zlen pre → n = zlen mid → Q mid → wp (slice (pre ++ mid ++ post) pos n) Q E.
Proof.
  intros -> -> HQ. apply wp_slice; [lia..|rewrite !length_app; lia|].
  rewrite !Nat2Z.id. by rewrite drop_app_length, take_app_length.
Qed.

Lemma wp_slice_rest pre rest pos n (Q : list Z -> Prop) E :
  pos = zlen pre → n = zlen rest → Q rest → wp (slice (pre ++ rest) pos n) Q E.
Proof.
  intros Hp Hn HQ. rewrite <-(app_nil_r rest) at 1. by apply wp_slice_app.
Qed.

Lemma wp_store_app pre mid post pos bytes (Q : list Z -> Prop) E :
  pos = zlen pre → length mid = length bytes →
  Q (pre ++ bytes ++ post) → wp (store (pre ++ mid ++ post) pos bytes) Q E.
Proof.
  intros -> Hl HQ. apply wp_store; [lia|rewrite !length_app; lia|].
  rewrite Nat2Z.id, <-Hl, <-drop_drop, drop_app_length, drop_app_length, take_app_length.
  done.
Qed.

(** Storing over the unwritten rest of a buffer. *)
Lemma wp_store_next pre rest pos bytes (Q : list Z -> Prop) E :
  pos = zlen pre → zlen bytes <= zlen rest →
  Q ((pre ++ bytes) ++ drop (length bytes) rest) →
  wp (store (pre ++ rest) pos bytes) Q E.
Proof.
  intros Hp Hl HQ. rewrite <-(take_drop (length bytes) rest) at 1.
  apply wp_store_app; [done|rewrite length_take; lia|]. by rewrite (assoc_L (++)).
Qed.

Lemma wp_store_front buf bytes (Q : list Z -> Prop) E :
  zlen bytes <= zlen buf → Q (bytes ++ drop (length bytes) buf) →
  wp (store buf 0 bytes) Q E.
Proof. intros Hl HQ. by apply (wp_store_next [] buf). Qed.

(** ** Parsing loops *)

Section LoopRules.
Context {A : Type}.

Lemma wp_parse_loop_from (I : Z -> A -> Prop) E step fuel buf pos acc :
  (∀ i acc', 0 <= i < zlen buf → I i acc' →
    wp (step (drop (Z.to_nat i) buf) acc')
       (λ r, 0 < r.2 <= zlen buf - i ∧ I (i + r.2) r.1) E) →
  0 <= pos <= zlen buf → (length buf - Z.to_nat pos < fuel)%nat → I pos acc →
  wp (parse_loop_from fuel step buf pos acc) (I (zlen buf)) E.
Proof.
  intros Hstep. revert pos acc. induction fuel as [|fuel IH]; intros pos acc Hp Hf HI; [lia|].
  simpl. apply wp_if; intros Hc.
  - apply wp_bind, wp_slice; [lia..|].
    rewrite take_ge by (rewrite length_drop; lia).
    apply wp_bind. eapply wp_mono; [apply Hstep; [lia|done]| |done].
    intros [acc' used]; simpl. intros [Hu HI']. apply IH; [lia..|done].
  - apply wp_ret. by replace (zlen buf) with pos by lia.
Qed.

(** An invariant of the position reached and the object built so far. *)
Lemma wp_parse_loop_pos (I : Z -> A -> Prop) E step buf acc :
  (∀ i acc', 0 <= i < zlen buf → I i acc' →
    wp (step (drop (Z.to_nat i) buf) acc')
       (λ r, 0 < r.2 <= zlen buf - i ∧ I (i + r.2) r.1) E) →
  I 0 acc → wp (parse_loop step buf acc) (I (zlen buf)) E.
Proof. intros Hstep HI. apply wp_parse_loop_from; [done|lia..|done]. Qed.

Lemma wp_parse_loop (I : A -> Prop) E step buf acc :
  (∀ sub acc', sub `suffix_of` buf → sub ≠ [] → I acc' →
    wp (step sub acc') (λ r, 0 < r.2 <= zlen sub ∧ I r.1) E) →
  I acc → wp (parse_loop step buf acc) I E.
Proof.
  intros Hstep HI. apply (wp_parse_loop_pos (λ _, I)); [|done]. intros i acc' Hi HI'.
  eapply wp_mono; [apply (Hstep (drop (Z.to_nat i) buf)); [|..|done]| |done].
  - exists (take (Z.to_nat i) buf). by rewrite take_drop.
  - intros Hd. apply (f_equal length) in Hd. rewrite length_drop in Hd. simpl in Hd. lia.
  - intros r [Hr ?]. rewrite length_drop in Hr. split; [lia|done].
Qed.

(** A loop that reads back a concatenation of encodings. *)
Lemma wp_parse_loop_from_enc {B} (enc : B -> list Z) (upd : A -> B -> A) step
    fuel head xs acc :
  (∀ pre x post, xs = pre ++ x :: post →
    enc x ≠ [] ∧
    wp (step (enc x ++ concat (enc <$> post)) (foldl upd acc pre))
       (λ r, r = (upd (foldl upd acc pre) x, zlen (enc x))) no_err) →
  (length (concat (enc <$> xs)) < fuel)%nat →
  wp (parse_loop_from fuel step (head ++ concat (enc <$> xs)) (zlen head) acc)
     (λ r, r = foldl upd acc xs) no_err.
Proof.
  revert fuel head acc. induction xs as [|x xs IH]; intros [|fuel] head acc Hx Hf;
    [simpl in Hf; lia| |simpl in Hf; lia|].
  - simpl. rewrite app_nil_r. apply wp_if; intros Hc; [exfalso; lia|by apply wp_ret].
  - destruct (Hx [] x xs eq_refl) as [Hne Hstep].
    assert (Hpos : (0 < length (enc x))%nat).
    { destruct (enc x); [done|simpl; lia]. }
    cbn [parse_loop_from fmap list_fmap concat] in Hf |- *. rewrite length_app in Hf.
    apply wp_if; intros Hc; [|exfalso; rewrite !length_app in Hc; lia].
    apply wp_bind, wp_slice_rest; [done|rewrite !length_app; lia|].
    apply wp_bind. eapply wp_mono; [apply Hstep| |done].
    intros [acc' used] [= -> ->]. simpl.
    replace (zlen head + zlen (enc x)) with (zlen (head ++ enc x)) by (rewrite length_app; lia).
    rewrite (assoc_L (++)). apply IH; [|lia].
    intros pre y post ->. apply (Hx (x :: pre) y post eq_refl).
Qed.

Lemma wp_parse_loop_enc {B} (enc : B -> list Z) (upd : A -> B -> A) step xs acc :
  (∀ pre x post, xs = pre ++ x :: post →
    enc x ≠ [] ∧
    wp (step (enc x ++ concat (enc <$> post)) (foldl upd acc pre))
       (λ r, r = (upd (foldl upd acc pre) x, zlen (enc x))) no_err) →
  wp (parse_loop step (concat (enc <$> xs)) acc) (λ r, r = foldl upd acc xs) no_err.
Proof. intros Hx. apply (wp_parse_loop_from_enc _ _ _ _ []); [done|lia]. Qed.
End LoopRules.

(** ** Writers *)

(** A writer's progress: the bytes [out] have been put at the front of [buf]. *)
Definition written (buf out : list Z) : list Z := out ++ drop (length out) buf.

(** [writes w bs]: the writer [w] puts exactly the bytes [bs] at the front of
    any buffer that can hold them and reports their number; on a smaller
    buffer it returns [LIBBGP_ERR_BUFFER]. *)

Definition writes (w : list Z -> M (list Z * Z)) (bs : list Z) : Prop :=
  ∀ buf, wp (w buf)
    (λ r, r = (written buf bs, zlen bs) ∧ zlen bs <= zlen buf)
    (λ e, e = LIBBGP_ERR_BUFFER ∧ zlen buf < zlen bs).

Lemma wp_in_sub w bs pre rest pos n :
  writes w bs → pos = zlen pre → zlen bs <= n <= zlen rest →
  wp (in_sub (pre ++ rest) pos n w)
     (λ r, r = ((pre ++ bs) ++ drop (length bs) rest, zlen bs)) no_err.
Proof.
  intros Hw Hpos Hn. unfold in_sub.
  rewrite <-(take_drop (Z.to_nat n) rest). apply wp_bind, wp_slice_app; [done| |].
  { rewrite length_take. lia. }
  apply wp_bind. eapply wp_mono; [apply Hw| |].
  - intros [sub' one] [[= -> ->] Hle]. unfold written.
    assert (Hlt : length (take (Z.to_nat n) rest) = Z.to_nat n) by (rewrite length_take; lia).
    apply wp_bind, wp_store_app; [done|rewrite length_app, length_drop; lia|].
    apply wp_ret. f_equal. rewrite <-!(assoc_L (++)). do 2 f_equal.
    rewrite drop_app_le by lia. done.
  - intros e [_ Hlt]. rewrite length_take in Hlt. lia.
Qed.

Lemma wp_write_loop {A} (wr : A -> list Z -> M (list Z * Z)) (enc : A -> list Z)
    xs lim pre rest pos :
  (∀ x, x ∈ xs → writes (wr x) (enc x)) → pos = zlen pre →
  pos + zlen (concat (enc <$> xs)) <= lim <= zlen pre + zlen rest →
  wp (write_loop wr xs lim (pre ++ rest) pos)
     (λ r, r = ((pre ++ concat (enc <$> xs)) ++ drop (length (concat (enc <$> xs))) rest,
                pos + zlen (concat (enc <$> xs)))) no_err.
Proof.
  revert pre rest pos. induction xs as [|x xs IH]; intros pre rest pos Hx -> Hl.
  - simpl. apply wp_ret. rewrite app_nil_r, drop_0. f_equal; lia.
  - cbn [write_loop fmap list_fmap concat] in Hl |- *. rewrite length_app in Hl |- *.
    apply wp_bind. eapply wp_mono.
    { apply (wp_in_sub (wr x) (enc x)); [apply Hx; set_solver|done|lia]. }
    2: done.
    intros [buf' one] [= -> ->]. simpl.
    eapply wp_mono; [apply IH| |done].
    + intros y Hy. apply Hx. set_solver.
    + rewrite length_app. lia.
    + rewrite length_app, length_drop. lia.
    + intros r ->. rewrite drop_drop, <-!(assoc_L (++)). f_equal. lia.
Qed.

Lemma written_app buf out bs :
  (out ++ bs) ++ drop (length bs) (drop (length out) buf) = written buf (out ++ bs).
Proof. unfold written. by rewrite drop_drop, length_app. Qed.

Lemma written_nil buf : written buf [] = buf.
Proof. done. Qed.

Lemma written_pair buf a b n : a = b → n = zlen b → (written buf a, n) = (written buf b, zlen b).
Proof. by intros -> ->. Qed.

Lemma length_written buf out : zlen out <= zlen buf → length (written buf out) = length buf.
Proof. intros. unfold written. rewrite length_app, length_drop. lia. Qed.

Lemma wp_put buf out pos bytes (Q : list Z -> Prop) E :
  pos = zlen out → pos + zlen bytes <= zlen buf →
  Q (written buf (out ++ bytes)) → wp (store (written buf out) pos bytes) Q E.
Proof.
  intros Hp Hl HQ. apply wp_store_next; [done|rewrite length_drop; lia|].
  by rewrite written_app.
Qed.

Lemma wp_put_first buf bytes (Q : list Z -> Prop) E :
  zlen bytes <= zlen buf → Q (written buf bytes) → wp (store buf 0 bytes) Q E.
Proof. intros Hl HQ. by apply (wp_put buf []). Qed.

Lemma wp_in_sub_put w bs buf out pos n :
  writes w bs → pos = zlen out → zlen bs <= n → pos + n <= zlen buf →
  wp (in_sub (written buf out) pos n w)
     (λ r, r = (written buf (out ++ bs), zlen bs)) no_err.
Proof.
  intros Hw Hp Hn Hl. rewrite <-written_app. apply wp_in_sub; [done..|].
  rewrite length_drop. lia.
Qed.

Lemma wp_write_loop_put {A} (wr : A -> list Z -> M (list Z * Z)) (enc : A -> list Z)
    xs lim buf out pos :
  (∀ x, x ∈ xs → writes (wr x) (enc x)) → pos = zlen out →
  pos + zlen (concat (enc <$> xs)) <= lim <= zlen buf →
  wp (write_loop wr xs lim (written buf out) pos)
     (λ r, r = (written buf (out ++ concat (enc <$> xs)),
                zlen (out ++ concat (enc <$> xs)))) no_err.
Proof.
  intros Hw Hp Hl. eapply wp_mono; [apply wp_write_loop; [done..|]| |done].
  - rewrite length_drop. lia.
  - intros r ->. rewrite written_app, length_app. f_equal. lia.
Qed.

(** Nothing passes a filter that all elements fail. *)
Lemma filter_none {A} (P : A -> Prop) `{!∀ x, Decision (P x)} l :
  Forall (λ x, ¬ P x) l → filter P l = [].
Proof. induction 1 as [|x l Hx _ IH]; [done|]. by rewrite filter_cons, decide_False. Qed.

(** Filters that agree on the elements of a list. *)
Lemma filter_agree {A} (P Q : A -> Prop) `{!∀ x, Decision (P x), !∀ x, Decision (Q x)} (l : list A) :
  (∀ x, x ∈ l → P x ↔ Q x) → filter P l = filter Q l.
Proof.
  induction l as [|x l IH]; intros Hx; [done|]. rewrite !filter_cons, IH by set_solver.
  pose proof (Hx x ltac:(set_solver)). by destruct (decide (P x)), (decide (Q x)); tauto || done.
Qed.

(** Mapping a function over its fixed points. *)
Lemma fmap_fixed {A} (f : A -> A) l : Forall (λ x, f x = x) l → f <$> l = l.
Proof. induction 1 as [|x l Hx _ IH]; [done|]. by rewrite fmap_cons, Hx, IH. Qed.

Lemma zlen_concat_fmap {A B} (f : A -> list B) xs x :
  x ∈ xs → zlen (f x) <= zlen (concat (f <$> xs)).
Proof.
  induction xs as [|y xs IH]; intros Hx; [by inversion Hx|].
  rewrite fmap_cons. cbn [concat]. rewrite length_app.
  apply elem_of_cons in Hx as [->|Hx]; [|specialize (IH Hx)]; lia.
Qed.

(** One store of a writer, the arithmetic of the offsets being left to
    [solve_len]. *)
Ltac wp_put :=
  apply wp_bind;
  first [apply wp_put_first; [solve_len|]
        |apply wp_put; [solve_len|solve_len|]].

(** The end of a writer: what is written and its length. *)
Ltac wp_written :=
  apply wp_ret; split;
  [apply written_pair; [rewrite <-?(assoc_L (++)); reflexivity|solve_len]|solve_len].
