(* ===== verification/Bytes.v ===== *)
(** * Byte order and address bits

    Round trips of the big-endian accessors of src/internal.h, the two host
    byte orders, and the bits of an address counted from the most significant
    bit of its first byte, which is how prefix lengths count them. *)

From Stdlib Require Import Btauto.
From S2P Require Import Prelude.

Ltac divmod := Z.to_euclidean_division_equations; lia.

Lemma is_u8_u8 x : is_u8 (u8 x).
Proof. unfold is_u8, u8. divmod. Qed.

Lemma u8_id x : is_u8 x → u8 x = x.
Proof. unfold is_u8, u8. intros. divmod. Qed.

Lemma is_u8_land x y : is_u8 x → is_u8 (Z.land x y).
Proof.
  intros Hx. rewrite <-(u8_id x) by done. unfold u8.
  rewrite <-Z.land_ones, <-Z.land_assoc, (Z.land_comm (Z.ones 8)), Z.land_assoc by lia.
  rewrite Z.land_ones by lia. apply is_u8_u8.
Qed.

Lemma lor_shiftl_add a b n : 0 <= n → 0 <= b < 2 ^ n → Z.lor (Z.shiftl a n) b = a * 2 ^ n + b.
Proof.
  intros Hn Hb. rewrite <-Z.add_nocarry_lor; [by rewrite Z.shiftl_mul_pow2 by lia|].
  apply Z.bits_inj'. intros i Hi. rewrite Z.land_spec, Z.shiftl_spec, Z.bits_0 by done.
  destruct (decide (i < n)) as [Hlt|Hge].
  - rewrite (Z.testbit_neg_r a) by lia. done.
  - rewrite <-(Z.mod_small b (2 ^ n)) by done.
    rewrite Z.mod_pow2_bits_high by lia. apply andb_false_r.
Qed.

Lemma get_be16_eq b0 b1 : is_u8 b0 → is_u8 b1 → bgp_get_be16 b0 b1 = b0 * 256 + b1.
Proof.
  unfold is_u8, bgp_get_be16, u16. intros. rewrite lor_shiftl_add by lia.
  rewrite Z.mod_small by lia. done.
Qed.

Lemma get_be32_eq b0 b1 b2 b3 :
  is_u8 b0 → is_u8 b1 → is_u8 b2 → is_u8 b3 →
  bgp_get_be32 b0 b1 b2 b3 = b0 * 16777216 + b1 * 65536 + b2 * 256 + b3.
Proof.
  unfold is_u8, bgp_get_be32, u32. intros.
  assert (Hs : ∀ b n, 0 <= b < 256 → 0 <= n <= 24 → (Z.shiftl b n) mod 2 ^ 32 = Z.shiftl b n).
  { intros b n Hb Hn. rewrite Z.shiftl_mul_pow2 by lia. apply Z.mod_small.
    pose proof (Z.pow_le_mono_r 2 n 24). pose proof (Z.pow_pos_nonneg 2 n). nia. }
  rewrite !Hs by lia.
  replace (Z.shiftl b0 24) with (Z.shiftl (Z.shiftl (Z.shiftl b0 8) 8) 8)
    by (rewrite !Z.shiftl_shiftl by lia; done).
  replace (Z.shiftl b1 16) with (Z.shiftl (Z.shiftl b1 8) 8)
    by (rewrite !Z.shiftl_shiftl by lia; done).
  rewrite <-!Z.shiftl_lor, !lor_shiftl_add by lia. lia.
Qed.

Lemma get_be16_range b0 b1 : is_u8 b0 → is_u8 b1 → is_u16 (bgp_get_be16 b0 b1).
Proof. intros. rewrite get_be16_eq by done. unfold is_u8, is_u16 in *. lia. Qed.

Lemma get_be32_range b0 b1 b2 b3 :
  is_u8 b0 → is_u8 b1 → is_u8 b2 → is_u8 b3 → is_u32 (bgp_get_be32 b0 b1 b2 b3).
Proof. intros. rewrite get_be32_eq by done. unfold is_u8, is_u32 in *. lia. Qed.

Lemma put_be16_ok v : bytes_ok (bgp_put_be16 v).
Proof. unfold bgp_put_be16. eauto using Forall_cons_2, Forall_nil_2, is_u8_u8. Qed.

Lemma put_be32_ok v : bytes_ok (bgp_put_be32 v).
Proof. unfold bgp_put_be32. eauto 6 using Forall_cons_2, Forall_nil_2, is_u8_u8. Qed.

Lemma get_put_be16 v : is_u16 v → bgp_get_be16 (u8 (Z.shiftr v 8)) (u8 v) = v.
Proof.
  intros Hv. rewrite get_be16_eq by apply is_u8_u8.
  unfold u8, is_u16 in *. rewrite Z.shiftr_div_pow2 by lia. divmod.
Qed.

Lemma get_put_be32 v :
  is_u32 v →
  bgp_get_be32 (u8 (Z.shiftr v 24)) (u8 (Z.shiftr v 16)) (u8 (Z.shiftr v 8)) (u8 v) = v.
Proof.
  intros Hv. rewrite get_be32_eq by apply is_u8_u8.
  unfold u8, is_u32 in *. rewrite !Z.shiftr_div_pow2 by lia.
  change (2 ^ 24) with 16777216. change (2 ^ 16) with 65536. change (2 ^ 8) with 256.
  divmod.
Qed.

Lemma put_get_be16 b0 b1 :
  is_u8 b0 → is_u8 b1 → bgp_put_be16 (bgp_get_be16 b0 b1) = [b0; b1].
Proof.
  intros H0 H1. rewrite get_be16_eq by done. unfold bgp_put_be16, u8, is_u8 in *.
  rewrite Z.shiftr_div_pow2 by lia. change (2 ^ 8) with 256. repeat f_equal; divmod.
Qed.

Lemma put_get_be32 b0 b1 b2 b3 :
  is_u8 b0 → is_u8 b1 → is_u8 b2 → is_u8 b3 →
  bgp_put_be32 (bgp_get_be32 b0 b1 b2 b3) = [b0; b1; b2; b3].
Proof.
  intros H0 H1 H2 H3. rewrite get_be32_eq by done. unfold bgp_put_be32, u8, is_u8 in *.
  rewrite !Z.shiftr_div_pow2 by lia.
  change (2 ^ 24) with 16777216. change (2 ^ 16) with 65536. change (2 ^ 8) with 256.
  repeat f_equal; divmod.
Qed.

(** Reading the two encodings back from a buffer. *)
Lemma wp_rd_be16 buf i (Q : Z -> Prop) E :
  bytes_ok buf → 0 <= i → i + 2 <= zlen buf →
  (∀ v, is_u16 v → Q v) → wp (rd_be16 buf i) Q E.
Proof.
  intros Hok Hi Hl HQ. wp_steps.
  apply HQ, get_be16_range; eapply Forall_lookup_1; eauto.
Qed.

Lemma wp_rd_be32 buf i (Q : Z -> Prop) E :
  bytes_ok buf → 0 <= i → i + 4 <= zlen buf →
  (∀ v, is_u32 v → Q v) → wp (rd_be32 buf i) Q E.
Proof.
  intros Hok Hi Hl HQ. wp_steps.
  apply HQ, get_be32_range; eapply Forall_lookup_1; eauto.
Qed.

Lemma wp_rd_be16_put buf i v (Q : Z -> Prop) E :
  0 <= i → is_u16 v → take 2 (drop (Z.to_nat i) buf) = bgp_put_be16 v →
  Q v → wp (rd_be16 buf i) Q E.
Proof.
  intros Hi Hv Hb HQ. unfold rd_be16.
  assert (Hl : ∀ k : nat, (k < 2)%nat → buf !! Z.to_nat (i + Z.of_nat k) = bgp_put_be16 v !! k).
  { intros k Hk. rewrite <-Hb, lookup_take_lt, lookup_drop by done. f_equal. lia. }
  apply wp_bind. eapply wp_rd_at; [done|rewrite <-(Z.add_0_r i); by apply (Hl 0%nat); lia|].
  apply wp_bind. eapply wp_rd_at; [lia|by apply (Hl 1%nat); lia|].
  apply wp_ret. by rewrite get_put_be16.
Qed.

Lemma wp_rd_be32_put buf i v (Q : Z -> Prop) E :
  0 <= i → is_u32 v → take 4 (drop (Z.to_nat i) buf) = bgp_put_be32 v →
  Q v → wp (rd_be32 buf i) Q E.
Proof.
  intros Hi Hv Hb HQ. unfold rd_be32.
  assert (Hl : ∀ k : nat, (k < 4)%nat → buf !! Z.to_nat (i + Z.of_nat k) = bgp_put_be32 v !! k).
  { intros k Hk. rewrite <-Hb, lookup_take_lt, lookup_drop by done. f_equal. lia. }
  apply wp_bind. eapply wp_rd_at; [done|rewrite <-(Z.add_0_r i); by apply (Hl 0%nat); lia|].
  apply wp_bind. eapply wp_rd_at; [lia|by apply (Hl 1%nat); lia|].
  apply wp_bind. eapply wp_rd_at; [lia|by apply (Hl 2%nat); lia|].
  apply wp_bind. eapply wp_rd_at; [lia|by apply (Hl 3%nat); lia|].
  apply wp_ret. by rewrite get_put_be32.
Qed.

(** ** Bits of an address in network order *)

(** Bit [k] of a byte string, the most significant bit of its first byte being
    bit 0. *)
Fixpoint nbit (bs : list Z) (k : nat) : bool :=
  match bs with
  | [] => false
  | b :: bs' => if (k <? 8)%nat then Z.testbit b (7 - Z.of_nat k) else nbit bs' (k - 8)
  end.

(** [0xff << (8 - bits)] truncated to a byte, extended to all [bits]. *)
Definition byte_mask (bits : Z) : Z :=
  if bits <=? 0 then 0
  else if 8 <=? bits then 255
  else u8 (Z.shiftl 255 (8 - bits)).

(** The string with every bit from [n] on cleared. *)
Fixpoint keep_bits (n : Z) (bs : list Z) : list Z :=
  match bs with
  | [] => []
  | b :: bs' => Z.land b (byte_mask n) :: keep_bits (n - 8) bs'
  end.

(** The byte and the byte string with given bits. *)
Definition byte_of_bits (f : nat -> bool) : Z :=
  foldl (λ acc j, 2 * acc + Z.b2z (f j)) 0 (seq 0 8).

Fixpoint bytes_of_bits (len : nat) (f : nat -> bool) : list Z :=
  match len with
  | O => []
  | S len' => byte_of_bits f :: bytes_of_bits len' (λ k, f (8 + k)%nat)
  end.

Lemma testbit_byte_mask m j :
  (j < 8)%nat → Z.testbit (byte_mask m) (7 - Z.of_nat j) = (Z.of_nat j <? m).
Proof.
  intros Hj. unfold byte_mask.
  destruct (m <=? 0) eqn:H0; [rewrite Z.bits_0; lia|].
  destruct (8 <=? m) eqn:H8.
  - change 255 with (Z.ones 8). rewrite Z.ones_spec_low by lia. lia.
  - unfold u8. rewrite Z.mod_pow2_bits_low, Z.shiftl_spec by lia.
    change 255 with (Z.ones 8). destruct (decide (Z.of_nat j < m)).
    + rewrite Z.ones_spec_low by lia. lia.
    + rewrite Z.testbit_neg_r by lia. lia.
Qed.

Lemma is_u8_byte_mask m : is_u8 (byte_mask m).
Proof.
  unfold byte_mask. repeat case_match; try apply is_u8_u8; unfold is_u8; lia.
Qed.

Lemma keep_bits_length n bs : length (keep_bits n bs) = length bs.
Proof. revert n. induction bs; intros; simpl; auto. Qed.

#[export] Hint Rewrite keep_bits_length : len.

Lemma keep_bits_ok n bs : bytes_ok bs → bytes_ok (keep_bits n bs).
Proof.
  intros Hbs. revert n. induction Hbs; intros; simpl; constructor; auto using is_u8_land.
Qed.

Lemma nbit_keep_bits n bs k :
  (k < 8 * length bs)%nat → nbit (keep_bits n bs) k = nbit bs k && (Z.of_nat k <? n).
Proof.
  revert n k. induction bs as [|b bs IH]; intros n k Hk; simpl in Hk |- *; [lia|].
  destruct (k <? 8)%nat eqn:Hk8.
  - rewrite Z.land_spec, testbit_byte_mask by lia. done.
  - rewrite IH by lia. f_equal. lia.
Qed.

Lemma byte_ext x y :
  is_u8 x → is_u8 y →
  (∀ j, (j < 8)%nat → Z.testbit x (7 - Z.of_nat j) = Z.testbit y (7 - Z.of_nat j)) → x = y.
Proof.
  intros Hx Hy Hb. rewrite <-(u8_id x), <-(u8_id y) by done. unfold u8.
  apply Z.bits_inj'. intros i Hi. destruct (decide (i < 8)).
  - rewrite !Z.mod_pow2_bits_low by lia. specialize (Hb (Z.to_nat (7 - i)) ltac:(lia)).
    by replace (7 - Z.of_nat (Z.to_nat (7 - i))) with i in Hb by lia.
  - rewrite !Z.mod_pow2_bits_high by lia. done.
Qed.

Lemma nbit_ext a b :
  length a = length b → bytes_ok a → bytes_ok b →
  (∀ k, (k < 8 * length a)%nat → nbit a k = nbit b k) → a = b.
Proof.
  intros Hl Ha. revert b Hl. induction Ha as [|x a Hx Ha IH]; intros [|y b] Hl Hb Hk;
    try done. apply Forall_cons in Hb as [Hy Hb]. simpl in *. f_equal.
  - apply byte_ext; [done..|]. intros j Hj. specialize (Hk j ltac:(lia)).
    by replace (j <? 8)%nat with true in Hk by lia.
  - apply IH; [lia|done|]. intros k Hk'. specialize (Hk (8 + k)%nat ltac:(lia)).
    replace (8 + k <? 8)%nat with false in Hk by lia.
    by replace (8 + k - 8)%nat with k in Hk by lia.
Qed.

(** Two strings agree after masking iff they agree on the kept bits. *)
Lemma keep_bits_eq n a b :
  length a = length b → bytes_ok a → bytes_ok b →
  keep_bits n a = keep_bits n b ↔
  ∀ k, Z.of_nat k < n → (k < 8 * length a)%nat → nbit a k = nbit b k.
Proof.
  intros Hl Ha Hb. split.
  - intros He k Hkn Hk. pose proof (nbit_keep_bits n a k ltac:(lia)) as H1.
    pose proof (nbit_keep_bits n b k ltac:(lia)) as H2. rewrite He, H2 in H1.
    replace (Z.of_nat k <? n) with true in H1 by lia. by rewrite !andb_true_r in H1.
  - intros Hk. apply nbit_ext; rewrite ?keep_bits_length; auto using keep_bits_ok.
    intros k Hk8. rewrite !nbit_keep_bits by lia.
    destruct (Z.of_nat k <? n) eqn:?; [|by rewrite !andb_false_r].
    rewrite Hk by lia. done.
Qed.

Lemma keep_bits_idemp n bs : bytes_ok bs → keep_bits n (keep_bits n bs) = keep_bits n bs.
Proof.
  intros Hbs. apply keep_bits_eq; rewrite ?keep_bits_length; auto using keep_bits_ok.
  intros k Hkn Hk. rewrite nbit_keep_bits by lia.
  replace (Z.of_nat k <? n) with true by lia. apply andb_true_r.
Qed.

Lemma byte_of_bits_ok f : is_u8 (byte_of_bits f).
Proof.
  unfold byte_of_bits, is_u8. simpl.
  destruct (f 0%nat), (f 1%nat), (f 2%nat), (f 3%nat), (f 4%nat), (f 5%nat), (f 6%nat), (f 7%nat);
    simpl; lia.
Qed.

Lemma testbit_byte_of_bits f j :
  (j < 8)%nat → Z.testbit (byte_of_bits f) (7 - Z.of_nat j) = f j.
Proof.
  intros Hj. unfold byte_of_bits. simpl.
  do 8 (destruct j as [|j]; [
    destruct (f 0%nat), (f 1%nat), (f 2%nat), (f 3%nat), (f 4%nat), (f 5%nat), (f 6%nat), (f 7%nat);
    reflexivity|]). lia.
Qed.

Lemma bytes_of_bits_ok len f : bytes_ok (bytes_of_bits len f).
Proof. revert f. induction len; intros; simpl; constructor; auto using byte_of_bits_ok. Qed.

Lemma bytes_of_bits_length len f : length (bytes_of_bits len f) = len.
Proof. revert f. induction len; intros; simpl; auto. Qed.

Lemma nbit_bytes_of_bits len f k :
  (k < 8 * len)%nat → nbit (bytes_of_bits len f) k = f k.
Proof.
  revert f k. induction len as [|len IH]; intros f k Hk; simpl; [lia|].
  destruct (k <? 8)%nat eqn:Hk8; [apply testbit_byte_of_bits; lia|].
  rewrite IH by lia. f_equal. lia.
Qed.

(** ** Host order *)

Section HostOrderLemmas.
Context {host : Host}.

Lemma host_order_length bs : length (host_order bs) = length bs.
Proof. unfold host_order. destruct big_endian; [done|apply length_reverse]. Qed.

Lemma host_order_ok bs : bytes_ok bs → bytes_ok (host_order bs).
Proof. unfold host_order. destruct big_endian; [done|]. by rewrite Forall_reverse. Qed.

Lemma host_order_involutive bs : host_order (host_order bs) = bs.
Proof. unfold host_order. destruct big_endian; [done|apply reverse_involutive]. Qed.

Lemma mem_of_u32_length v : length (mem_of_u32 v) = 4%nat.
Proof. unfold mem_of_u32. by rewrite host_order_length. Qed.

Lemma mem_of_u32_ok v : bytes_ok (mem_of_u32 v).
Proof. apply host_order_ok, put_be32_ok. Qed.

Lemma u32_of_mem_of_u32 v : is_u32 v → u32_of_mem (mem_of_u32 v) = v.
Proof.
  intros. unfold u32_of_mem, mem_of_u32. rewrite host_order_involutive. simpl.
  by apply get_put_be32.
Qed.

Lemma length_4_inv {A} (l : list A) : length l = 4%nat → ∃ a b c d, l = [a; b; c; d].
Proof. destruct l as [|? [|? [|? [|? [|]]]]]; naive_solver. Qed.

Lemma mem_of_u32_of_mem bs :
  length bs = 4%nat → bytes_ok bs → mem_of_u32 (u32_of_mem bs) = bs.
Proof.
  intros Hl Hok. unfold mem_of_u32, u32_of_mem.
  rewrite <-(host_order_length bs) in Hl. apply host_order_ok in Hok.
  rewrite <-(host_order_involutive bs) at 2. f_equal.
  destruct (length_4_inv _ Hl) as (a & b & c & d & He). rewrite He in Hok |- *.
  rewrite !Forall_cons in Hok. by rewrite put_get_be32 by tauto.
Qed.

Lemma u32_of_mem_range bs : length bs = 4%nat → bytes_ok bs → is_u32 (u32_of_mem bs).
Proof.
  intros Hl Hok. unfold u32_of_mem.
  rewrite <-(host_order_length bs) in Hl. apply host_order_ok in Hok.
  destruct (length_4_inv _ Hl) as (a & b & c & d & He). rewrite He in Hok |- *.
  rewrite !Forall_cons in Hok. apply get_be32_range; tauto.
Qed.

Lemma mem_of_u32_inj v w : is_u32 v → is_u32 w → mem_of_u32 v = mem_of_u32 w → v = w.
Proof.
  intros Hv Hw He. rewrite <-(u32_of_mem_of_u32 v), <-(u32_of_mem_of_u32 w) by done.
  by rewrite He.
Qed.

Lemma u8_land x y : u8 (Z.land x y) = Z.land (u8 x) (u8 y).
Proof.
  unfold u8. rewrite <-!Z.land_ones by lia. apply Z.bits_inj'. intros i Hi.
  rewrite !Z.land_spec. btauto.
Qed.

(** The bitwise operators act bytewise, in either byte order. *)
Lemma mem_of_u32_land v w :
  mem_of_u32 (Z.land v w) = zip_with Z.land (mem_of_u32 v) (mem_of_u32 w).
Proof.
  unfold mem_of_u32, bgp_put_be32, host_order.
  rewrite !Z.shiftr_land, !u8_land. destruct big_endian; reflexivity.
Qed.
End HostOrderLemmas.

#[export] Hint Rewrite @host_order_length @mem_of_u32_length bytes_of_bits_length : len.

(** [memcmp] returns zero exactly on equal strings. *)
Lemma memcmp_eq a b : length a = length b → memcmp a b = 0 ↔ a = b.
Proof.
  revert b. induction a as [|x a IH]; intros [|y b] Hl; simpl in *; try done.
  destruct (x =? y) eqn:Hxy.
  - rewrite IH by lia. apply Z.eqb_eq in Hxy as ->. naive_solver.
  - split; [lia|]. intros [= -> ->]. lia.
Qed.

Lemma memcmp_antisym a b : length a = length b → memcmp a b = - memcmp b a.
Proof.
  revert b. induction a as [|x a IH]; intros [|y b] Hl; simpl in *; try done.
  rewrite (Z.eqb_sym y x). destruct (x =? y); [apply IH|]; lia.
Qed.

Lemma memcmp_trans a b c :
  length a = length b → length b = length c →
  memcmp a b < 0 → memcmp b c < 0 → memcmp a c < 0.
Proof.
  revert b c. induction a as [|x a IH]; intros [|y b] [|z c] Hl1 Hl2; simpl in *; try lia.
  destruct (x =? y) eqn:Hxy, (y =? z) eqn:Hyz, (x =? z) eqn:Hxz; try lia.
  intros. eapply (IH b c); lia.
Qed.

(** ** Masking the way the code does it

    The library masks only the last octet a prefix length reaches and clears
    the octets behind it. *)

Lemma land_255 b : is_u8 b → Z.land b 255 = b.
Proof. intros. change 255 with (Z.ones 8). rewrite Z.land_ones by lia. by apply u8_id. Qed.

Lemma keep_bits_nonpos n bs : n <= 0 → keep_bits n bs = replicate (length bs) 0.
Proof.
  revert n. induction bs as [|b bs IH]; intros n Hn; simpl; [done|].
  rewrite IH by lia. unfold byte_mask. replace (n <=? 0) with true by lia.
  by rewrite Z.land_0_r.
Qed.

Lemma keep_bits_last n bs b :
  bytes_ok bs → 0 < n → bs !! Z.to_nat ((n + 7) / 8 - 1) = Some b →
  keep_bits n bs =
    take (Z.to_nat ((n + 7) / 8 - 1)) bs ++
    [if n mod 8 =? 0 then b else Z.land b (u8 (Z.shiftl 255 (8 - n mod 8)))] ++
    replicate (length bs - Z.to_nat ((n + 7) / 8)) 0.
Proof.
  intros Hok. revert n. induction Hok as [|x bs Hx Hok IH]; intros n Hn Hb; [done|].
  destruct (decide (n <= 8)) as [Hle|Hgt].
  - assert (Ho : (n + 7) / 8 = 1) by divmod. rewrite Ho in *. simpl in Hb |- *.
    injection Hb as ->. rewrite keep_bits_nonpos by lia. rewrite Nat.sub_0_r. f_equal.
    unfold byte_mask. replace (n <=? 0) with false by lia.
    destruct (decide (n = 8)) as [->|]; [by apply land_255|].
    replace (8 <=? n) with false by lia. rewrite Z.mod_small by lia.
    by replace (n =? 0) with false by lia.
  - assert (Ho : (n - 8 + 7) / 8 = (n + 7) / 8 - 1) by divmod.
    assert (Hm : (n - 8) mod 8 = n mod 8) by divmod.
    assert (Hge : 2 <= (n + 7) / 8) by divmod.
    specialize (IH (n - 8) ltac:(lia)). rewrite Ho, Hm in IH.
    replace (Z.to_nat ((n + 7) / 8 - 1)) with (S (Z.to_nat ((n + 7) / 8 - 1 - 1)))
      in Hb |- * by lia.
    simpl in Hb |- *. rewrite IH by done. unfold byte_mask.
    replace (n <=? 0) with false by lia. replace (8 <=? n) with true by lia.
    rewrite land_255 by done. do 4 f_equal. lia.
Qed.

Lemma zip_with_land_keep_bits n bs :
  bytes_ok bs →
  zip_with Z.land bs (keep_bits n (replicate (length bs) 255)) = keep_bits n bs.
Proof.
  intros Hok. revert n. induction Hok; intros n; simpl; [done|]. f_equal; [|done].
  by rewrite (Z.land_comm 255), (land_255 (byte_mask n)) by apply is_u8_byte_mask.
Qed.

Lemma take_keep_bits_app n a b :
  take (length a) (keep_bits n (a ++ b)) = keep_bits n a.
Proof.
  revert n. induction a as [|x a IH]; intros n; simpl; [done|]. by rewrite IH.
Qed.

Lemma keep_bits_all n bs : bytes_ok bs → 8 * zlen bs <= n → keep_bits n bs = bs.
Proof.
  intros Hok. revert n. induction Hok; intros n Hn; simpl in *; [done|].
  rewrite IHHok by lia. unfold byte_mask. replace (n <=? 0) with false by lia.
  replace (8 <=? n) with true by lia. by rewrite land_255.
Qed.

(** Cutting off the octets a prefix length does not reach loses nothing. *)
Lemma keep_bits_cut n bs :
  0 <= n <= 8 * zlen bs →
  take (Z.to_nat ((n + 7) / 8)) (keep_bits n bs) ++
    replicate (length bs - Z.to_nat ((n + 7) / 8)) 0 = keep_bits n bs.
Proof.
  revert n. induction bs as [|b bs IH]; intros n Hn; simpl in *.
  { replace n with 0 by lia. done. }
  destruct (decide (n <= 0)) as [H0|H0].
  { replace n with 0 by lia. simpl. rewrite keep_bits_nonpos by lia. by rewrite Z.land_0_r. }
  replace (Z.to_nat ((n + 7) / 8)) with (S (Z.to_nat ((n - 8 + 7) / 8))) by divmod.
  simpl. f_equal. destruct (decide (n < 8)) as [H8|H8].
  - rewrite keep_bits_nonpos by lia. replace (Z.to_nat ((n - 8 + 7) / 8)) with 0%nat by divmod.
    simpl. by rewrite Nat.sub_0_r.
  - apply IH. lia.
Qed.

(** [if (n % 8) bytes[octets - 1] &= partial_mask(n % 8);] *)
Lemma wp_mask_last bs n (Q : list Z -> Prop) E :
  bytes_ok bs → 0 < n <= 8 * zlen bs →
  (∀ bs', length bs' = length bs →
     take (Z.to_nat ((n + 7) / 8)) bs' = take (Z.to_nat ((n + 7) / 8)) (keep_bits n bs) →
     drop (Z.to_nat ((n + 7) / 8)) bs' = drop (Z.to_nat ((n + 7) / 8)) bs → Q bs') →
  wp (if n mod 8 =? 0 then mret bs
      else b ← rd bs ((n + 7) / 8 - 1);
           store bs ((n + 7) / 8 - 1) [Z.land b (u8 (Z.shiftl 255 (8 - n mod 8)))]) Q E.
Proof.
  intros Hok Hn HQ. set (o := Z.to_nat ((n + 7) / 8)) in *.
  assert (Ho : (0 < o <= length bs)%nat) by (unfold o; divmod).
  assert (Ho1 : Z.to_nat ((n + 7) / 8 - 1) = (o - 1)%nat) by (unfold o; divmod).
  destruct (lookup_lt_is_Some_2 bs (o - 1)) as [b Hb]; [lia|].
  pose proof (keep_bits_last n bs b Hok ltac:(lia)) as Hkeep.
  rewrite Ho1 in Hkeep. fold o in Hkeep. specialize (Hkeep Hb).
  assert (Htl : length (take (o - 1) bs) = (o - 1)%nat) by (rewrite length_take; lia).
  assert (Htake : ∀ x t, take o (take (o - 1) bs ++ [x] ++ t) = take (o - 1) bs ++ [x]).
  { intros x t. rewrite (assoc_L (++)). apply take_app_length'.
    rewrite length_app. simpl. lia. }
  assert (Hsplit : bs = take (o - 1) bs ++ [b] ++ drop o bs).
  { rewrite <-(take_drop_middle bs (o - 1) b) at 1 by done. do 3 f_equal. lia. }
  rewrite Hkeep, Htake in HQ. apply wp_if; intros Hm; rewrite Hm in HQ.
  - apply wp_ret, HQ; [done| |done]. rewrite Hsplit at 1. apply Htake.
  - apply wp_bind. eapply wp_rd_at; [divmod|rewrite Ho1; done|].
    apply wp_store; [divmod|unfold o in Ho; simpl; divmod|].
    rewrite Ho1. replace (o - 1 + length [Z.land b (u8 (255 ≪ (8 - n mod 8)))])%nat with o
      by (simpl; lia).
    apply HQ; [|apply Htake|].
    + rewrite !length_app, length_take, length_drop. simpl. lia.
    + rewrite (assoc_L (++)). apply drop_app_length'. rewrite length_app. simpl. lia.
Qed.
