(* ===== verification/Prefix4.v ===== *)
(** * IPv4 prefixes (src/prefix4.c, include/libbgp/prefix4.h)

    The wire format of a prefix (one length octet and the octets the length
    reaches), masks, containment and ordering.  The address is a [uint32_t]
    whose bytes in memory are in network order, so its numeric value depends on
    the host; every result holds for both byte orders. *)

From S2P Require Import Prelude Bytes.

Record libbgp_prefix4_t : Type := Prefix4 { p4_addr : Z; p4_len : Z }.

#[export] Instance libbgp_prefix4_eq_dec : EqDecision libbgp_prefix4_t.
Proof. solve_decision. Defined.

Definition prefix4_octets (cidr : Z) : Z := (cidr + 7) / 8.

Definition partial_mask (bits : Z) : Z := u8 (Z.shiftl 255 (8 - bits)).

Definition cidr_masks_nbo : list Z := [
  0x00000000;
  0x80000000; 0xc0000000; 0xe0000000; 0xf0000000;
  0xf8000000; 0xfc000000; 0xfe000000; 0xff000000;
  0xff800000; 0xffc00000; 0xffe00000; 0xfff00000;
  0xfff80000; 0xfffc0000; 0xfffe0000; 0xffff0000;
  0xffff8000; 0xffffc000; 0xffffe000; 0xfffff000;
  0xfffff800; 0xfffffc00; 0xfffffe00; 0xffffff00;
  0xffffff80; 0xffffffc0; 0xffffffe0; 0xfffffff0;
  0xfffffff8; 0xfffffffc; 0xfffffffe; 0xffffffff ].

Section Prefix4.
Context {host : Host}.

Definition libbgp_cidr_to_mask (cidr : Z) : Z :=
  if 32 <? cidr then 0
  else
    let hp := cidr_masks_nbo !!! Z.to_nat cidr in
    u32_of_mem [u8 (Z.shiftr hp 24); u8 (Z.shiftr hp 16); u8 (Z.shiftr hp 8); u8 hp].

Definition libbgp_prefix4_parse (buf : list Z) : M (libbgp_prefix4_t * Z) :=
  fail_if (zlen buf <? 1) LIBBGP_ERR_BAD_LEN;;
  cidr ← rd buf 0;
  fail_if (32 <? cidr) LIBBGP_ERR_INVALID;;
  let octets := prefix4_octets cidr in
  fail_if (zlen buf <? 1 + octets) LIBBGP_ERR_BAD_LEN;;
  bytes ←
    (if octets =? 0 then mret [0; 0; 0; 0]
     else
       src ← slice buf 1 octets;
       bytes ← store [0; 0; 0; 0] 0 src;
       if cidr mod 8 =? 0 then mret bytes
       else
         b ← rd bytes (octets - 1);
         store bytes (octets - 1) [Z.land b (partial_mask (cidr mod 8))]);
  mret (Prefix4 (u32_of_mem bytes) cidr, 1 + octets).

Definition libbgp_prefix4_write (p : libbgp_prefix4_t) (buf : list Z) : M (list Z * Z) :=
  fail_if (32 <? p4_len p) LIBBGP_ERR_BAD_LEN;;
  let octets := prefix4_octets (p4_len p) in
  fail_if (zlen buf <? 1 + octets) LIBBGP_ERR_BUFFER;;
  let bytes := mem_of_u32 (p4_addr p) in
  bytes ←
    (if negb (octets =? 0) && negb (p4_len p mod 8 =? 0) then
       b ← rd bytes (octets - 1);
       store bytes (octets - 1) [Z.land b (partial_mask (p4_len p mod 8))]
     else mret bytes);
  buf ← store buf 0 [p4_len p];
  buf ←
    (if octets =? 0 then mret buf
     else src ← slice bytes 0 octets; store buf 1 src);
  mret (buf, 1 + octets).

Definition libbgp_prefix4_eq (a b : libbgp_prefix4_t) : bool :=
  (p4_addr a =? p4_addr b) && (p4_len a =? p4_len b).

Definition libbgp_prefix4_includes (outer inner : libbgp_prefix4_t) : bool :=
  if (32 <? p4_len outer) || (32 <? p4_len inner) then false
  else if p4_len inner <? p4_len outer then false
  else
    let mask := libbgp_cidr_to_mask (p4_len outer) in
    Z.land (p4_addr inner) mask =? Z.land (p4_addr outer) mask.

Definition libbgp_prefix4_cmp (a b : libbgp_prefix4_t) : Z :=
  let cmp := memcmp (mem_of_u32 (p4_addr a)) (mem_of_u32 (p4_addr b)) in
  if negb (cmp =? 0) then cmp
  else if p4_len a <? p4_len b then -1
  else if p4_len b <? p4_len a then 1
  else 0.

(** ** What a prefix denotes *)

(** A [struct libbgp_prefix4] in the documented range. *)
Definition p4_wf (p : libbgp_prefix4_t) : Prop :=
  is_u32 (p4_addr p) ∧ 0 <= p4_len p <= 32.

(** The network-order bytes of the address with the host bits cleared. *)
Definition p4_net (p : libbgp_prefix4_t) : list Z :=
  keep_bits (p4_len p) (mem_of_u32 (p4_addr p)).

Definition p4_normalize (p : libbgp_prefix4_t) : libbgp_prefix4_t :=
  Prefix4 (u32_of_mem (p4_net p)) (p4_len p).

(** The address [a] lies in the network [p]: they agree on the first
    [p4_len p] bits. *)
Definition p4_covers (p : libbgp_prefix4_t) (a : Z) : Prop :=
  ∀ k, Z.of_nat k < p4_len p → (k < 32)%nat →
    nbit (mem_of_u32 a) k = nbit (mem_of_u32 (p4_addr p)) k.

(** The wire encoding of RFC 4271 section 4.3. *)
Definition p4_enc (p : libbgp_prefix4_t) : list Z :=
  p4_len p :: take (Z.to_nat (prefix4_octets (p4_len p))) (p4_net p).

(** ** Masks *)

Lemma mem_cidr_to_mask n :
  0 <= n <= 32 → mem_of_u32 (libbgp_cidr_to_mask n) = keep_bits n (replicate 4 255).
Proof.
  intros Hn. unfold libbgp_cidr_to_mask. replace (32 <? n) with false by lia.
  rewrite mem_of_u32_of_mem; [|done|by repeat constructor; apply is_u8_u8].
  assert (Hall : forallb (λ k, bool_decide
    (let hp := cidr_masks_nbo !!! k in
     [u8 (Z.shiftr hp 24); u8 (Z.shiftr hp 16); u8 (Z.shiftr hp 8); u8 hp] =
     keep_bits (Z.of_nat k) (replicate 4 255))) (seq 0 33) = true) by by vm_compute.
  rewrite forallb_forall in Hall. specialize (Hall (Z.to_nat n)).
  rewrite in_seq, bool_decide_eq_true, Z2Nat.id in Hall by lia. apply Hall. lia.
Qed.

Lemma mem_land_mask a n :
  0 <= n <= 32 → mem_of_u32 (Z.land a (libbgp_cidr_to_mask n)) = keep_bits n (mem_of_u32 a).
Proof.
  intros Hn. rewrite mem_of_u32_land, mem_cidr_to_mask by done.
  rewrite <-(zip_with_land_keep_bits n (mem_of_u32 a)) by apply mem_of_u32_ok.
  by rewrite mem_of_u32_length.
Qed.

Lemma is_u32_land a b : is_u32 a → is_u32 (Z.land a b).
Proof.
  intros Ha. unfold is_u32 in *. rewrite <-(Z.mod_small a (2 ^ 32)) by lia.
  rewrite <-Z.land_ones, <-Z.land_assoc, (Z.land_comm (Z.ones 32)), Z.land_assoc by lia.
  rewrite Z.land_ones by lia. apply Z.mod_pos_bound. lia.
Qed.

Lemma land_mask_eq a b n :
  is_u32 a → is_u32 b → 0 <= n <= 32 →
  Z.land a (libbgp_cidr_to_mask n) = Z.land b (libbgp_cidr_to_mask n) ↔
  keep_bits n (mem_of_u32 a) = keep_bits n (mem_of_u32 b).
Proof.
  intros Ha Hb Hn. rewrite <-!mem_land_mask by done. split; [by intros ->|].
  apply mem_of_u32_inj; by apply is_u32_land.
Qed.

Lemma p4_covers_keep p a :
  p4_covers p a ↔ keep_bits (p4_len p) (mem_of_u32 a) = p4_net p.
Proof.
  unfold p4_covers, p4_net.
  rewrite keep_bits_eq by (rewrite ?mem_of_u32_length; auto using mem_of_u32_ok).
  by rewrite mem_of_u32_length.
Qed.

(** ** Shapes *)

Lemma prefix4_octets_range n : 0 <= n <= 32 → 0 <= prefix4_octets n <= 4.
Proof. unfold prefix4_octets. divmod. Qed.

Lemma prefix4_octets_0 n : 0 <= n → prefix4_octets n = 0 ↔ n = 0.
Proof. unfold prefix4_octets. divmod. Qed.

Lemma p4_net_length p : length (p4_net p) = 4%nat.
Proof. unfold p4_net. by rewrite keep_bits_length, mem_of_u32_length. Qed.

Lemma p4_net_ok p : bytes_ok (p4_net p).
Proof. apply keep_bits_ok, mem_of_u32_ok. Qed.

Lemma p4_enc_length p :
  0 <= p4_len p <= 32 → zlen (p4_enc p) = 1 + prefix4_octets (p4_len p).
Proof.
  intros Hp. pose proof (prefix4_octets_range _ Hp). unfold p4_enc.
  simpl. rewrite length_take, p4_net_length. lia.
Qed.

Lemma p4_enc_ok p : 0 <= p4_len p <= 32 → bytes_ok (p4_enc p).
Proof.
  intros Hp. unfold p4_enc. constructor; [unfold is_u8; lia|].
  apply Forall_take, p4_net_ok.
Qed.

Lemma p4_normalize_net p : p4_net (p4_normalize p) = p4_net p.
Proof.
  unfold p4_net at 1, p4_normalize. simpl.
  rewrite mem_of_u32_of_mem by (apply p4_net_length || apply p4_net_ok).
  unfold p4_net. apply keep_bits_idemp, mem_of_u32_ok.
Qed.

Lemma p4_normalize_wf p : 0 <= p4_len p <= 32 → p4_wf (p4_normalize p).
Proof.
  intros Hp. split; [|done]. apply u32_of_mem_range; [apply p4_net_length|apply p4_net_ok].
Qed.

Lemma p4_normalize_idemp p : p4_normalize (p4_normalize p) = p4_normalize p.
Proof. unfold p4_normalize at 1. by rewrite p4_normalize_net. Qed.

Lemma p4_enc_normalize p : p4_enc (p4_normalize p) = p4_enc p.
Proof. unfold p4_enc. by rewrite p4_normalize_net. Qed.

(** ** Parsing and writing *)

Lemma prefix4_write_spec p : 0 <= p4_len p <= 32 → writes (libbgp_prefix4_write p) (p4_enc p).
Proof.
  intros Hp buf. pose proof (prefix4_octets_range _ Hp) as Ho.
  pose proof (p4_enc_length p Hp) as Hel. unfold libbgp_prefix4_write.
  apply wp_bind, wp_fail_if; intros; [exfalso; lia|].
  apply wp_bind, wp_fail_if; intros Hfit; [split; [done|lia]|].
  destruct (decide (p4_len p = 0)) as [H0|H0].
  - assert (Ho0 : prefix4_octets (p4_len p) = 0) by (apply prefix4_octets_0; lia).
    rewrite Ho0 in *. cbn [negb andb Z.eqb].
    apply wp_bind, wp_ret, wp_bind, wp_store_front; [simpl length; lia|].
    apply wp_bind, wp_ret, wp_ret. unfold p4_enc. rewrite Ho0. simpl. split; [done|lia].
  - assert (Hone : prefix4_octets (p4_len p) ≠ 0) by (rewrite prefix4_octets_0; lia).
    replace (prefix4_octets (p4_len p) =? 0) with false by lia. simpl negb. simpl andb.
    rewrite if_negb. apply wp_bind.
    apply wp_mask_last; [apply mem_of_u32_ok|rewrite mem_of_u32_length; lia|].
    intros bs' Hl Ht Hd. fold (prefix4_octets (p4_len p)) in *.
    apply wp_bind, wp_store_front; [simpl length; lia|].
    apply wp_bind, wp_bind, wp_slice; [lia..|rewrite Hl, mem_of_u32_length; lia|].
    rewrite drop_0, Ht.
    apply wp_store_next; [done| |].
    { solve_len. }
    apply wp_ret. split; [|lia]. f_equal; [|lia]. rewrite drop_drop.
    unfold p4_enc, p4_net. simpl. do 3 f_equal.
Qed.

(** Reading an encoding back yields the normalised prefix, whatever follows
    it in the buffer. *)
Lemma prefix4_parse_enc p rest :
  0 <= p4_len p <= 32 →
  wp (libbgp_prefix4_parse (p4_enc p ++ rest))
     (λ r, r = (p4_normalize p, zlen (p4_enc p))) no_err.
Proof.
  intros Hp. pose proof (prefix4_octets_range _ Hp) as Ho.
  pose proof (p4_enc_length p Hp) as Hel. unfold libbgp_prefix4_parse.
  apply wp_bind, wp_fail_if; intros; [rewrite length_app in *; lia|].
  apply wp_bind. eapply wp_rd_at; [lia|done|].
  apply wp_bind, wp_fail_if; intros; [lia|].
  apply wp_bind, wp_fail_if; intros; [rewrite length_app in *; lia|].
  apply wp_bind. rewrite Hel. destruct (decide (p4_len p = 0)) as [Hz|Hz].
  - assert (Ho0 : prefix4_octets (p4_len p) = 0) by (apply prefix4_octets_0; lia).
    rewrite Ho0. simpl. apply wp_ret, wp_ret. unfold p4_normalize, p4_net.
    by rewrite keep_bits_nonpos, mem_of_u32_length by lia.
  - replace (prefix4_octets (p4_len p) =? 0) with false
      by (symmetry; apply Z.eqb_neq; rewrite prefix4_octets_0; lia).
    set (o := Z.to_nat (prefix4_octets (p4_len p))).
    assert (Hto : length (take o (p4_net p)) = o)
      by (rewrite length_take, p4_net_length; lia).
    apply wp_bind. unfold p4_enc. fold o.
    apply (wp_slice_app [p4_len p]); [done|lia|].
    apply wp_bind, wp_store_front; [rewrite Hto; simpl length; lia|]. rewrite Hto.
    assert (Hcut : take o (p4_net p) ++ drop o [0; 0; 0; 0] = p4_net p).
    { change [0; 0; 0; 0] with (replicate 4 0). rewrite drop_replicate.
      pose proof (keep_bits_cut (p4_len p) (mem_of_u32 (p4_addr p))) as Hk.
      rewrite mem_of_u32_length in Hk. apply Hk. lia. }
    rewrite Hcut. apply wp_mask_last; [apply p4_net_ok|rewrite p4_net_length; lia|].
    intros bs' Hl Ht Hd. fold (prefix4_octets (p4_len p)) in *. fold o in Ht, Hd.
    apply wp_ret. unfold p4_normalize. do 3 f_equal.
    rewrite <-(take_drop o bs'), Ht, Hd. unfold p4_net at 1.
    rewrite keep_bits_idemp by apply mem_of_u32_ok. apply take_drop.
Qed.

(** Whatever the buffer holds, the parser stays inside it and returns a
    well-formed prefix with its host bits cleared. *)
Lemma prefix4_parse_spec buf :
  bytes_ok buf →
  wp (libbgp_prefix4_parse buf)
     (λ r, p4_wf r.1 ∧ p4_normalize r.1 = r.1 ∧ r.2 = zlen (p4_enc r.1) ∧ 0 < r.2 <= zlen buf)
     (λ e, e = LIBBGP_ERR_BAD_LEN ∨ e = LIBBGP_ERR_INVALID).
Proof.
  intros Hok. unfold libbgp_prefix4_parse.
  apply wp_bind, wp_fail_if; intros Hl; [auto|].
  apply wp_bind, wp_rd; [lia|]. intros cidr Hc.
  assert (Hc8 : is_u8 cidr) by (eapply Forall_lookup_1; eauto).
  apply wp_bind, wp_fail_if; intros Hc32; [auto|].
  assert (Hcr : 0 <= cidr <= 32) by (unfold is_u8 in Hc8; lia).
  pose proof (prefix4_octets_range cidr Hcr) as Ho.
  apply wp_bind, wp_fail_if; intros Hfit; [auto|].
  apply wp_bind. eapply (wp_mono _ (λ bs, length bs = 4%nat ∧ bytes_ok bs ∧ keep_bits cidr bs = bs)
    _ no_err); [|intros bs (Hbl & Hbo & Hbk)|done].
  - apply wp_if; intros H0.
    + apply wp_ret. split; [done|]. split; [by repeat constructor|].
      assert (cidr = 0) as -> by (apply prefix4_octets_0; lia). done.
    + assert (Hne : prefix4_octets cidr ≠ 0) by lia.
      rewrite prefix4_octets_0 in Hne by lia.
      apply wp_bind, wp_slice; [lia..|].
      set (src := take _ (drop _ buf)).
      assert (Hsl : zlen src = prefix4_octets cidr) by (apply length_slice; lia).
      assert (Hso : bytes_ok src) by by apply bytes_ok_slice.
      apply wp_bind, wp_store_front; [simpl length; lia|].
      set (bs := src ++ drop (length src) [0; 0; 0; 0]).
      assert (Hbl : length bs = 4%nat) by (unfold bs; rewrite length_app, length_drop; simpl; lia).
      assert (Hbo : bytes_ok bs).
      { unfold bs. apply Forall_app_2; [done|]. apply Forall_drop. by repeat constructor. }
      apply wp_mask_last; [done|lia|]. intros bs' Hl' Ht' Hd'.
      fold (prefix4_octets cidr) in *.
      assert (Hz : bs' = keep_bits cidr bs).
      { rewrite <-(take_drop (Z.to_nat (prefix4_octets cidr)) bs'), Ht', Hd'.
        rewrite <-(keep_bits_cut cidr bs) at 2 by lia. f_equal.
        unfold bs at 1. rewrite drop_app_length' by lia.
        change [0; 0; 0; 0] with (replicate 4 0). rewrite drop_replicate. f_equal.
        rewrite Hbl. unfold prefix4_octets in Hsl. lia. }
      rewrite Hz, keep_bits_length. split; [done|]. split; [by apply keep_bits_ok|].
      by apply keep_bits_idemp.
  - apply wp_ret. cbn [fst snd]. split; [split; [by apply u32_of_mem_range|done]|].
    assert (Hnet : p4_net (Prefix4 (u32_of_mem bs) cidr) = bs).
    { unfold p4_net. simpl. by rewrite mem_of_u32_of_mem. }
    split; [unfold p4_normalize; by rewrite Hnet|]. rewrite p4_enc_length by done.
    cbn [p4_len]. lia.
Qed.

(** ** Containment and order *)

(** An address of the network [p] with a given bit behind its length. *)
Lemma p4_pick p k (b : bool) :
  p4_len p <= Z.of_nat k → (k < 32)%nat →
  ∃ a, is_u32 a ∧ p4_covers p a ∧ nbit (mem_of_u32 a) k = b.
Proof.
  intros Hk Hk32.
  set (f := λ j, if (j =? k)%nat then b else nbit (mem_of_u32 (p4_addr p)) j).
  exists (u32_of_mem (bytes_of_bits 4 f)).
  assert (Hl := bytes_of_bits_length 4 f). assert (Hok := bytes_of_bits_ok 4 f).
  split; [by apply u32_of_mem_range|]. unfold p4_covers. rewrite mem_of_u32_of_mem by done.
  split.
  - intros j Hj Hj32. rewrite nbit_bytes_of_bits by lia. unfold f.
    by replace (j =? k)%nat with false by lia.
  - rewrite nbit_bytes_of_bits by lia. unfold f. by rewrite Nat.eqb_refl.
Qed.

Lemma prefix4_includes_bits o i :
  p4_wf o → p4_wf i →
  libbgp_prefix4_includes o i = true ↔ p4_len o <= p4_len i ∧ p4_covers o (p4_addr i).
Proof.
  intros [Hoa Hol] [Hia Hil]. unfold libbgp_prefix4_includes.
  replace ((32 <? p4_len o) || (32 <? p4_len i)) with false by lia.
  rewrite p4_covers_keep. unfold p4_net.
  destruct (p4_len i <? p4_len o) eqn:Hlt; [split; [done|lia]|].
  rewrite Z.eqb_eq, land_mask_eq by done. split; [split; [lia|done]|tauto].
Qed.

Lemma prefix4_cmp_sign a b :
  libbgp_prefix4_cmp a b < 0 ↔
  memcmp (mem_of_u32 (p4_addr a)) (mem_of_u32 (p4_addr b)) < 0 ∨
  (memcmp (mem_of_u32 (p4_addr a)) (mem_of_u32 (p4_addr b)) = 0 ∧ p4_len a < p4_len b).
Proof. unfold libbgp_prefix4_cmp. simpl. repeat case_match; lia. Qed.
End Prefix4.

#[export] Hint Rewrite @p4_net_length : len.

(** ** Properties *)

Section Prefix4Properties.
Context {host : Host}.

(** Writing any in-range prefix into any large enough buffer and parsing the
    written bytes back (whatever follows them) yields the same prefix with
    its host bits cleared, and consumes exactly what was written. *)
Theorem prefix4_write_parse_roundtrip p buf rest :
  p4_wf p → 5 <= zlen buf →
  ∃ buf' n,
    libbgp_prefix4_write p buf [] = (Ret (buf', n), []) ∧
    libbgp_prefix4_parse (take (Z.to_nat n) buf' ++ rest) [] =
      (Ret (p4_normalize p, n), []).
Proof.
  intros [_ Hp] Hbuf. pose proof (prefix4_octets_range _ Hp).
  exists (p4_enc p ++ drop (length (p4_enc p)) buf), (zlen (p4_enc p)). split.
  - apply wp_returns. eapply wp_mono; [by apply prefix4_write_spec|tauto|].
    intros e [_ Hlt]. rewrite p4_enc_length in Hlt by done. lia.
  - rewrite Nat2Z.id, take_app_length. apply wp_returns. by apply prefix4_parse_enc.
Qed.

(** Containment of prefixes is inclusion of the addresses they cover. *)
Lemma prefix4_includes_subset outer inner :
  p4_wf outer → p4_wf inner →
  libbgp_prefix4_includes outer inner = true ↔
  ∀ a, is_u32 a → p4_covers inner a → p4_covers outer a.
Proof.
  intros Ho Hi. rewrite prefix4_includes_bits by done. split.
  - intros [Hle Hc] a Ha Hia k Hk Hk32. rewrite <-Hc by done. apply Hia; lia.
  - intros Hsub. destruct (decide (p4_len outer <= p4_len inner)) as [Hle|Hgt].
    + split; [done|]. apply Hsub; [apply Hi|]. by intros k ??.
    + destruct Ho as [_ Ho], Hi as [_ Hi].
      set (k := Z.to_nat (p4_len inner)).
      destruct (p4_pick inner k (negb (nbit (mem_of_u32 (p4_addr outer)) k)))
        as (a & Ha & Hc & Hb); [lia..|].
      specialize (Hsub a Ha Hc k ltac:(lia) ltac:(lia)). rewrite Hb in Hsub.
      by destruct (nbit _ k).
Qed.

(** [libbgp_prefix4_includes outer inner] holds exactly when every address of
    [inner] is an address of [outer]. *)
Theorem prefix4_includes_iff_subset outer inner :
  p4_wf outer → p4_wf inner →
  libbgp_prefix4_includes outer inner = true ↔
  ∀ a, is_u32 a → p4_covers inner a → p4_covers outer a.
Proof. apply prefix4_includes_subset. Qed.

(** [libbgp_prefix4_cmp] is a strict total order on well-formed prefixes,
    consistent with [libbgp_prefix4_eq]. *)
Theorem prefix4_cmp_total_order a b c :
  p4_wf a → p4_wf b → p4_wf c →
  (libbgp_prefix4_cmp a b = 0 ↔ libbgp_prefix4_eq a b = true) ∧
  (libbgp_prefix4_cmp a b < 0 ↔ 0 < libbgp_prefix4_cmp b a) ∧
  (libbgp_prefix4_cmp a b < 0 → libbgp_prefix4_cmp b c < 0 → libbgp_prefix4_cmp a c < 0).
Proof.
  intros [Ha _] [Hb _] [Hc _].
  assert (Heq : memcmp (mem_of_u32 (p4_addr a)) (mem_of_u32 (p4_addr b)) = 0 ↔
                p4_addr a = p4_addr b).
  { rewrite memcmp_eq by solve_len. split; [by apply mem_of_u32_inj|congruence]. }
  pose proof (memcmp_antisym (mem_of_u32 (p4_addr a)) (mem_of_u32 (p4_addr b))
    ltac:(solve_len)) as Hanti.
  split; [|split].
  - unfold libbgp_prefix4_eq, libbgp_prefix4_cmp. simpl. repeat case_match; lia.
  - rewrite prefix4_cmp_sign. unfold libbgp_prefix4_cmp. simpl. repeat case_match; lia.
  - rewrite !prefix4_cmp_sign.
    pose proof (memcmp_trans (mem_of_u32 (p4_addr a)) (mem_of_u32 (p4_addr b))
      (mem_of_u32 (p4_addr c)) ltac:(solve_len) ltac:(solve_len)) as Htr.
    assert (Hbc : memcmp (mem_of_u32 (p4_addr b)) (mem_of_u32 (p4_addr c)) = 0 →
                  mem_of_u32 (p4_addr b) = mem_of_u32 (p4_addr c))
      by (intros; apply memcmp_eq; [solve_len|done]).
    assert (Hab : memcmp (mem_of_u32 (p4_addr a)) (mem_of_u32 (p4_addr b)) = 0 →
                  mem_of_u32 (p4_addr a) = mem_of_u32 (p4_addr b))
      by (intros; apply memcmp_eq; [solve_len|done]).
    intros [H1|[H1 Hl1]] [H2|[H2 Hl2]]; [left; auto|left|left|right].
    + by rewrite <-Hbc.
    + by rewrite Hab.
    + rewrite Hab by done. split; [done|lia].
Qed.
End Prefix4Properties.

(** ** Witnesses: 10.1.2.0/23 and 10.0.0.0/8 on a little-endian host *)

#[local] Existing Instance little_endian_host.

Definition p4_10_1_2_0_23 : libbgp_prefix4_t := Prefix4 (10 + 256 * 1 + 65536 * 2) 23.
Definition p4_10_8 : libbgp_prefix4_t := Prefix4 10 8.

Lemma p4_examples_wf : p4_wf p4_10_1_2_0_23 ∧ p4_wf p4_10_8.
Proof. unfold p4_wf, is_u32. simpl. lia. Qed.

Lemma prefix4_write_parse_roundtrip_witness :
  ∃ buf' n,
    libbgp_prefix4_write p4_10_1_2_0_23 (replicate 9 0) [] = (Ret (buf', n), []) ∧
    libbgp_prefix4_parse (take (Z.to_nat n) buf' ++ [1; 2]) [] =
      (Ret (p4_normalize p4_10_1_2_0_23, n), []).
Proof. apply prefix4_write_parse_roundtrip; [apply p4_examples_wf|simpl; lia]. Defined.

Lemma prefix4_includes_iff_subset_witness :
  libbgp_prefix4_includes p4_10_8 p4_10_1_2_0_23 = true ∧
  (∀ a, is_u32 a → p4_covers p4_10_1_2_0_23 a → p4_covers p4_10_8 a).
Proof.
  split; [reflexivity|].
  apply (prefix4_includes_iff_subset p4_10_8 p4_10_1_2_0_23);
    [apply p4_examples_wf..|reflexivity].
Defined.

Lemma prefix4_cmp_total_order_witness :
  (libbgp_prefix4_cmp p4_10_8 p4_10_1_2_0_23 = 0 ↔
     libbgp_prefix4_eq p4_10_8 p4_10_1_2_0_23 = true) ∧
  (libbgp_prefix4_cmp p4_10_8 p4_10_1_2_0_23 < 0 ↔
     0 < libbgp_prefix4_cmp p4_10_1_2_0_23 p4_10_8) ∧
  (libbgp_prefix4_cmp p4_10_8 p4_10_1_2_0_23 < 0 →
     libbgp_prefix4_cmp p4_10_1_2_0_23 p4_10_8 < 0 → libbgp_prefix4_cmp p4_10_8 p4_10_8 < 0).
Proof. apply prefix4_cmp_total_order; apply p4_examples_wf. Defined.
