(* ===== verification/Prefix6.v ===== *)
(** * IPv6 prefixes (src/prefix6.c, include/libbgp/prefix6.h)

    As [Prefix4], the address being an array of 16 bytes. *)

From S2P Require Import Prelude Bytes.

Record libbgp_prefix6_t : Type := Prefix6 { p6_addr : list Z; p6_len : Z }.

#[export] Instance libbgp_prefix6_eq_dec : EqDecision libbgp_prefix6_t.
Proof. solve_decision. Defined.

Definition prefix6_octets (cidr : Z) : Z := (cidr + 7) / 8.

Definition partial_mask6 (bits : Z) : Z := u8 (Z.shiftl 255 (8 - bits)).

(** [addr] is a [uint8_t[16]] and [cidr] at most 128: the updated octet and the
    cleared tail are inside the array. *)
Definition prefix6_mask_addr (addr : list Z) (cidr : Z) : list Z :=
  if cidr =? 0 then replicate 16 0
  else
    let octets := prefix6_octets cidr in
    let addr :=
      if cidr mod 8 =? 0 then addr
      else alter (λ b, Z.land b (partial_mask6 (cidr mod 8))) (Z.to_nat (octets - 1)) addr in
    if octets <? 16 then
      take (Z.to_nat octets) addr ++ replicate (16 - Z.to_nat octets) 0
    else addr.

Definition libbgp_cidr6_to_mask (cidr : Z) : list Z :=
  let out := replicate 16 0 in
  if 128 <? cidr then out
  else
    let full := cidr / 8 in
    let rem := u8 (cidr mod 8) in
    let out := foldl (λ out i, <[i := 255]> out) out (seq 0 (Z.to_nat full)) in
    if rem =? 0 then out else <[Z.to_nat full := partial_mask6 rem]> out.

Definition libbgp_prefix6_parse (buf : list Z) : M (libbgp_prefix6_t * Z) :=
  fail_if (zlen buf <? 1) LIBBGP_ERR_BAD_LEN;;
  cidr ← rd buf 0;
  fail_if (128 <? cidr) LIBBGP_ERR_INVALID;;
  let octets := prefix6_octets cidr in
  fail_if (zlen buf <? 1 + octets) LIBBGP_ERR_BAD_LEN;;
  let addr := replicate 16 0 in
  addr ←
    (if octets =? 0 then mret addr
     else
       src ← slice buf 1 octets;
       addr ← store addr 0 src;
       mret (prefix6_mask_addr addr cidr));
  mret (Prefix6 addr cidr, 1 + octets).

Definition libbgp_prefix6_write (p : libbgp_prefix6_t) (buf : list Z) : M (list Z * Z) :=
  fail_if (128 <? p6_len p) LIBBGP_ERR_BAD_LEN;;
  let octets := prefix6_octets (p6_len p) in
  fail_if (zlen buf <? 1 + octets) LIBBGP_ERR_BUFFER;;
  let addr := prefix6_mask_addr (p6_addr p) (p6_len p) in
  buf ← store buf 0 [p6_len p];
  buf ←
    (if octets =? 0 then mret buf
     else src ← slice addr 0 octets; store buf 1 src);
  mret (buf, 1 + octets).

Definition libbgp_prefix6_eq (a b : libbgp_prefix6_t) : bool :=
  (p6_len a =? p6_len b) && (memcmp (p6_addr a) (p6_addr b) =? 0).

Definition libbgp_prefix6_includes (outer inner : libbgp_prefix6_t) : bool :=
  if (128 <? p6_len outer) || (128 <? p6_len inner) then false
  else if p6_len inner <? p6_len outer then false
  else
    let outer_addr := prefix6_mask_addr (p6_addr outer) (p6_len outer) in
    let inner_addr := prefix6_mask_addr (p6_addr inner) (p6_len outer) in
    memcmp outer_addr inner_addr =? 0.

Definition libbgp_prefix6_cmp (a b : libbgp_prefix6_t) : Z :=
  let cmp := memcmp (p6_addr a) (p6_addr b) in
  if negb (cmp =? 0) then cmp
  else if p6_len a <? p6_len b then -1
  else if p6_len b <? p6_len a then 1
  else 0.

(** ** What a prefix denotes *)

Definition p6_wf (p : libbgp_prefix6_t) : Prop :=
  length (p6_addr p) = 16%nat ∧ bytes_ok (p6_addr p) ∧ 0 <= p6_len p <= 128.

Definition p6_net (p : libbgp_prefix6_t) : list Z := keep_bits (p6_len p) (p6_addr p).

Definition p6_normalize (p : libbgp_prefix6_t) : libbgp_prefix6_t :=
  Prefix6 (p6_net p) (p6_len p).

Definition p6_covers (p : libbgp_prefix6_t) (a : list Z) : Prop :=
  ∀ k, Z.of_nat k < p6_len p → (k < 128)%nat → nbit a k = nbit (p6_addr p) k.

Definition p6_enc (p : libbgp_prefix6_t) : list Z :=
  p6_len p :: take (Z.to_nat (prefix6_octets (p6_len p))) (p6_net p).

Lemma prefix6_octets_range n : 0 <= n <= 128 → 0 <= prefix6_octets n <= 16.
Proof. unfold prefix6_octets. divmod. Qed.

Lemma prefix6_octets_0 n : 0 <= n → prefix6_octets n = 0 ↔ n = 0.
Proof. unfold prefix6_octets. divmod. Qed.

Lemma p6_net_length p : length (p6_net p) = length (p6_addr p).
Proof. apply keep_bits_length. Qed.
#[export] Hint Rewrite p6_net_length : len.

Lemma alter_middle {A} (f : A -> A) i l1 x l2 :
  length l1 = i → alter f i (l1 ++ x :: l2) = l1 ++ f x :: l2.
Proof. intros <-. induction l1 as [|y l1 IH]; [done|]. simpl. by f_equal. Qed.

(** The code's masking is [keep_bits]. *)
Lemma prefix6_mask_addr_spec addr n :
  length addr = 16%nat → bytes_ok addr → 0 <= n <= 128 →
  prefix6_mask_addr addr n = keep_bits n addr.
Proof.
  intros Hl Hok Hn. unfold prefix6_mask_addr.
  destruct (n =? 0) eqn:H0; [by rewrite keep_bits_nonpos, Hl by lia|].
  pose proof (prefix6_octets_range n Hn) as Ho. unfold prefix6_octets in *.
  assert (Hpos : 0 < (n + 7) / 8) by divmod.
  destruct (lookup_lt_is_Some_2 addr (Z.to_nat ((n + 7) / 8 - 1))) as [b Hb]; [lia|].
  rewrite (keep_bits_last n addr b) by (done || lia).
  set (addr' := if _ =? 0 then addr else _).
  assert (Ha' : addr' = take (Z.to_nat ((n + 7) / 8 - 1)) addr ++
    (if n mod 8 =? 0 then b else Z.land b (u8 (255 ≪ (8 - n mod 8)))) ::
    drop (Z.to_nat ((n + 7) / 8)) addr).
  { replace (Z.to_nat ((n + 7) / 8)) with (S (Z.to_nat ((n + 7) / 8 - 1))) by lia.
    unfold addr'. destruct (n mod 8 =? 0); [by rewrite take_drop_middle|].
    rewrite <-(take_drop_middle _ _ _ Hb) at 1.
    by rewrite alter_middle by solve_len. }
  set (x := if n mod 8 =? 0 then b else _) in *. rewrite Ha', Hl.
  assert (Hlt : length (take (Z.to_nat ((n + 7) / 8 - 1)) addr ++ [x]) = Z.to_nat ((n + 7) / 8))
    by solve_len.
  destruct ((n + 7) / 8 <? 16) eqn:H16.
  - rewrite (assoc_L (++)), (cons_middle x), (assoc_L (++)).
    by rewrite take_app_length' by done.
  - replace (Z.to_nat ((n + 7) / 8)) with 16%nat by lia.
    by rewrite drop_ge by lia.
Qed.

Lemma p6_covers_keep p a :
  p6_wf p → length a = 16%nat → bytes_ok a →
  p6_covers p a ↔ keep_bits (p6_len p) a = p6_net p.
Proof.
  intros (Hl & Hok & Hn) Ha Hao. unfold p6_net, p6_covers.
  rewrite keep_bits_eq by (done || congruence). by rewrite Ha.
Qed.

Lemma p6_enc_length p : p6_wf p → zlen (p6_enc p) = 1 + prefix6_octets (p6_len p).
Proof.
  intros (Hl & _ & Hn). pose proof (prefix6_octets_range _ Hn). unfold p6_enc. solve_len.
Qed.

Lemma p6_enc_ok p : p6_wf p → bytes_ok (p6_enc p).
Proof.
  intros (Hl & Hok & Hn). constructor; [unfold is_u8; lia|]. by apply Forall_take, keep_bits_ok.
Qed.

Lemma p6_normalize_wf p : p6_wf p → p6_wf (p6_normalize p).
Proof.
  intros (Hl & Hok & Hn). split; [by rewrite <-Hl; apply p6_net_length|]. split; [by apply keep_bits_ok|done].
Qed.

Lemma p6_normalize_idemp p : p6_wf p → p6_normalize (p6_normalize p) = p6_normalize p.
Proof.
  intros (Hl & Hok & Hn). unfold p6_normalize at 1 3, p6_net. simpl. unfold p6_net.
  by rewrite keep_bits_idemp.
Qed.

Lemma p6_enc_normalize p : p6_wf p → p6_enc (p6_normalize p) = p6_enc p.
Proof.
  intros (Hl & Hok & Hn). unfold p6_enc, p6_net. simpl. unfold p6_net.
  by rewrite keep_bits_idemp.
Qed.

(** ** Parsing and writing *)

Lemma prefix6_write_spec p : p6_wf p → writes (libbgp_prefix6_write p) (p6_enc p).
Proof.
  intros Hwf buf. pose proof (p6_enc_length p Hwf) as Hel. destruct Hwf as (Hl & Hok & Hp).
  pose proof (prefix6_octets_range _ Hp) as Ho. unfold libbgp_prefix6_write.
  apply wp_bind, wp_fail_if; intros; [exfalso; lia|].
  apply wp_bind, wp_fail_if; intros Hfit; [split; [done|lia]|].
  rewrite prefix6_mask_addr_spec by done. fold (p6_net p).
  apply wp_bind, wp_store_front; [simpl length; lia|]. apply wp_bind, wp_if; intros H0.
  - apply wp_ret, wp_ret. assert (Hz : prefix6_octets (p6_len p) = 0) by lia.
    split; [|lia]. rewrite Hel. unfold p6_enc. by rewrite Hz.
  - apply wp_bind, wp_slice; [lia..|solve_len|]. rewrite drop_0.
    apply wp_store_next; [done|solve_len|].
    apply wp_ret. split; [|lia]. f_equal; [|lia]. rewrite drop_drop. done.
Qed.

Lemma prefix6_parse_enc p rest :
  p6_wf p →
  wp (libbgp_prefix6_parse (p6_enc p ++ rest))
     (λ r, r = (p6_normalize p, zlen (p6_enc p))) no_err.
Proof.
  intros Hwf. pose proof (p6_enc_length p Hwf) as Hel. destruct Hwf as (Hl & Hok & Hp).
  pose proof (prefix6_octets_range _ Hp) as Ho. unfold libbgp_prefix6_parse.
  apply wp_bind, wp_fail_if; intros; [rewrite length_app in *; lia|].
  apply wp_bind. eapply wp_rd_at; [lia|done|].
  apply wp_bind, wp_fail_if; intros; [lia|].
  apply wp_bind, wp_fail_if; intros; [rewrite length_app in *; lia|].
  apply wp_bind. rewrite Hel. apply wp_if; intros Hz0.
  - apply wp_ret, wp_ret. assert (Hz : p6_len p = 0) by (apply prefix6_octets_0; lia).
    unfold p6_normalize, p6_net. by rewrite keep_bits_nonpos, Hl by lia.
  - set (o := Z.to_nat (prefix6_octets (p6_len p))).
    assert (Hto : length (take o (p6_net p)) = o) by solve_len.
    apply wp_bind. unfold p6_enc. fold o.
    apply (wp_slice_app [p6_len p]); [done|lia|].
    apply wp_bind, wp_store_front; [rewrite Hto; solve_len|]. rewrite Hto, drop_replicate.
    assert (Hcut : take o (p6_net p) ++ replicate (16 - o) 0 = p6_net p).
    { pose proof (keep_bits_cut (p6_len p) (p6_addr p)) as Hk.
      rewrite Hl in Hk. apply Hk. lia. }
    rewrite Hcut. apply wp_ret, wp_ret. unfold p6_normalize. do 2 f_equal.
    rewrite prefix6_mask_addr_spec by (done || solve_len || by apply keep_bits_ok).
    by apply keep_bits_idemp.
Qed.

Lemma prefix6_parse_spec buf :
  bytes_ok buf →
  wp (libbgp_prefix6_parse buf)
     (λ r, p6_wf r.1 ∧ p6_normalize r.1 = r.1 ∧ r.2 = zlen (p6_enc r.1) ∧ 0 < r.2 <= zlen buf)
     (λ e, e = LIBBGP_ERR_BAD_LEN ∨ e = LIBBGP_ERR_INVALID).
Proof.
  intros Hok. unfold libbgp_prefix6_parse.
  apply wp_bind, wp_fail_if; intros Hl; [auto|].
  apply wp_bind, wp_rd; [lia|]. intros cidr Hc.
  assert (Hc8 : is_u8 cidr) by (eapply Forall_lookup_1; eauto).
  apply wp_bind, wp_fail_if; intros Hc32; [auto|].
  assert (Hcr : 0 <= cidr <= 128) by (unfold is_u8 in Hc8; lia).
  pose proof (prefix6_octets_range cidr Hcr) as Ho.
  apply wp_bind, wp_fail_if; intros Hfit; [auto|].
  apply wp_bind. eapply (wp_mono _ (λ bs, length bs = 16%nat ∧ bytes_ok bs ∧ keep_bits cidr bs = bs)
    _ no_err); [|intros bs (Hbl & Hbo & Hbk)|done].
  - apply wp_if; intros Hz0.
    + apply wp_ret. split; [done|]. split; [by apply Forall_replicate|].
      assert (cidr = 0) as -> by (apply prefix6_octets_0; lia). done.
    + apply wp_bind, wp_slice; [lia..|].
      set (src := take _ (drop _ buf)).
      assert (Hsl : zlen src = prefix6_octets cidr) by (apply length_slice; lia).
      assert (Hso : bytes_ok src) by by apply bytes_ok_slice.
      apply wp_bind, wp_store_front; [solve_len|]. apply wp_ret.
      set (bs := src ++ drop (length src) (replicate 16 0)).
      assert (Hbl : length bs = 16%nat) by (unfold bs; solve_len).
      assert (Hbo : bytes_ok bs).
      { unfold bs. apply Forall_app_2; [done|]. by apply Forall_drop, Forall_replicate. }
      rewrite prefix6_mask_addr_spec by done.
      split; [solve_len|]. split; [by apply keep_bits_ok|by apply keep_bits_idemp].
  - apply wp_ret. cbn [fst snd]. split; [done|].
    split; [unfold p6_normalize, p6_net; simpl; by rewrite Hbk|].
    rewrite p6_enc_length by done. cbn [p6_len]. lia.
Qed.

(** ** Containment *)

Lemma p6_pick p k (b : bool) :
  p6_len p <= Z.of_nat k → (k < 128)%nat →
  ∃ a, length a = 16%nat ∧ bytes_ok a ∧ p6_covers p a ∧ nbit a k = b.
Proof.
  intros Hk Hk128. set (f := λ j, if (j =? k)%nat then b else nbit (p6_addr p) j).
  exists (bytes_of_bits 16 f). rewrite bytes_of_bits_length. split; [done|].
  split; [apply bytes_of_bits_ok|]. split.
  - intros j Hj Hj128. rewrite nbit_bytes_of_bits by lia. unfold f.
    by replace (j =? k)%nat with false by lia.
  - rewrite nbit_bytes_of_bits by lia. unfold f. by rewrite Nat.eqb_refl.
Qed.

Lemma prefix6_includes_bits o i :
  p6_wf o → p6_wf i →
  libbgp_prefix6_includes o i = true ↔ p6_len o <= p6_len i ∧ p6_covers o (p6_addr i).
Proof.
  intros Ho Hi. pose proof Ho as (Hol & Hoo & Hon). pose proof Hi as (Hil & Hio & Hin).
  unfold libbgp_prefix6_includes.
  replace ((128 <? p6_len o) || (128 <? p6_len i)) with false by lia.
  rewrite p6_covers_keep by done. unfold p6_net.
  destruct (p6_len i <? p6_len o) eqn:Hlt; [split; [done|lia]|].
  rewrite !prefix6_mask_addr_spec by done.
  rewrite Z.eqb_eq, memcmp_eq by solve_len. split; [intros ->; split; [lia|done]|intros [_ ->]; done].
Qed.

(** [libbgp_prefix6_includes outer inner] holds exactly when every address of
    [inner] is an address of [outer]. *)
Theorem prefix6_includes_iff_subset outer inner :
  p6_wf outer → p6_wf inner →
  libbgp_prefix6_includes outer inner = true ↔
  ∀ a, length a = 16%nat → bytes_ok a → p6_covers inner a → p6_covers outer a.
Proof.
  intros Ho Hi. rewrite prefix6_includes_bits by done. split.
  - intros [Hle Hc] a _ _ Hia k Hk Hk128. rewrite <-Hc by done. apply Hia; lia.
  - intros Hsub. destruct (decide (p6_len outer <= p6_len inner)) as [Hle|Hgt].
    + split; [done|]. apply Hsub; [apply Hi..|]. by intros k ??.
    + destruct Ho as (_ & _ & Ho), Hi as (_ & _ & Hi).
      set (k := Z.to_nat (p6_len inner)).
      destruct (p6_pick inner k (negb (nbit (p6_addr outer) k)))
        as (a & Ha & Hao & Hc & Hb); [lia..|].
      specialize (Hsub a Ha Hao Hc k ltac:(lia) ltac:(lia)). rewrite Hb in Hsub.
      by destruct (nbit _ k).
Qed.

(** Writing any in-range prefix into any large enough buffer and parsing the
    written bytes back yields the same prefix with its host bits cleared. *)
Theorem prefix6_write_parse_roundtrip p buf rest :
  p6_wf p → 17 <= zlen buf →
  ∃ buf' n,
    libbgp_prefix6_write p buf [] = (Ret (buf', n), []) ∧
    libbgp_prefix6_parse (take (Z.to_nat n) buf' ++ rest) [] = (Ret (p6_normalize p, n), []).
Proof.
  intros Hp Hbuf. pose proof (p6_enc_length p Hp).
  pose proof (prefix6_octets_range (p6_len p) ltac:(apply Hp)).
  exists (p6_enc p ++ drop (length (p6_enc p)) buf), (zlen (p6_enc p)). split.
  - apply wp_returns. eapply wp_mono; [by apply prefix6_write_spec|tauto|].
    intros e [_ Hlt]. lia.
  - rewrite Nat2Z.id, take_app_length. apply wp_returns. by apply prefix6_parse_enc.
Qed.

(** ** Witnesses: 2001:db8:8000::/33 and 2001:db8::/32 *)

Definition p6_2001_db8_33 : libbgp_prefix6_t :=
  Prefix6 ([32; 1; 13; 184; 128] ++ replicate 11 0) 33.
Definition p6_2001_db8_32 : libbgp_prefix6_t := Prefix6 ([32; 1; 13; 184] ++ replicate 12 0) 32.

Lemma p6_examples_wf : p6_wf p6_2001_db8_33 ∧ p6_wf p6_2001_db8_32.
Proof. unfold p6_wf. repeat split; try done; by repeat constructor. Qed.

Lemma prefix6_includes_iff_subset_witness :
  libbgp_prefix6_includes p6_2001_db8_32 p6_2001_db8_33 = true ∧
  (∀ a, length a = 16%nat → bytes_ok a → p6_covers p6_2001_db8_33 a → p6_covers p6_2001_db8_32 a).
Proof.
  split; [reflexivity|].
  apply (prefix6_includes_iff_subset p6_2001_db8_32 p6_2001_db8_33);
    [apply p6_examples_wf..|reflexivity].
Defined.

Lemma prefix6_write_parse_roundtrip_witness :
  ∃ buf' n,
    libbgp_prefix6_write p6_2001_db8_33 (replicate 20 0) [] = (Ret (buf', n), []) ∧
    libbgp_prefix6_parse (take (Z.to_nat n) buf' ++ [1; 2]) [] =
      (Ret (p6_normalize p6_2001_db8_33, n), []).
Proof. apply prefix6_write_parse_roundtrip; [apply p6_examples_wf|simpl; lia]. Defined.
