(* ===== verification/Radix.v ===== *)
(** * Radix trees (src/radix4.c, src/radix6.c)

    The two files are the same code at two address widths, so the operations
    are written once, over the width and the bit function, and instantiated
    twice.  A tree owns its nodes and shares none, so a node pointer is the
    node itself ([NULL] or [Node]); the arrays [path] and [direction] of the
    loops are a stack of parents with the direction taken.

    The specification is a finite map from bit strings to values; the trees
    refine it ([radix_rep]), stay canonical (no valueless leaf survives an
    operation, a failed allocation included), and [lookup_lpm] is the longest
    stored prefix of the address. *)

From Stdlib Require Import Btauto.
From stdpp Require Import gmap.
From S2P Require Import Prelude Bytes Prefix4 Prefix6.

(** A [void *value]: [None] is the null pointer. *)
Inductive radix_node (V : Type) : Type :=
  | NULL
  | Node (child0 child1 : radix_node V) (value : option V) (has_value : bool).
Arguments NULL {V}.
Arguments Node {V} child0 child1 value has_value.

Record radix_tree (V : Type) : Type := RadixTree { rt_root : radix_node V; rt_len : Z }.
Arguments RadixTree {V} rt_root rt_len.
Arguments rt_root {V} r.
Arguments rt_len {V} r.

Section Radix.
Context {V : Type}.
Implicit Types (nd parent : radix_node V) (v : option V) (ds : list bool).

(** [node->child[d]] and [node->child[d] = c]. *)
Definition node_child nd (d : bool) : radix_node V :=
  match nd with
  | NULL => NULL
  | Node c0 c1 _ _ => if d then c1 else c0
  end.

Definition node_set_child nd (d : bool) (c : radix_node V) : radix_node V :=
  match nd with
  | NULL => NULL
  | Node c0 c1 v h => if d then Node c0 c v h else Node c c1 v h
  end.

Definition node_set_value nd v (h : bool) : radix_node V :=
  match nd with
  | NULL => NULL
  | Node c0 c1 _ _ => Node c0 c1 v h
  end.

Definition node_has_value nd : bool :=
  match nd with NULL => false | Node _ _ _ h => h end.

Definition node_value nd : option V :=
  match nd with NULL => None | Node _ _ v _ => v end.

Definition node_is_null nd : bool :=
  match nd with NULL => true | Node _ _ _ _ => false end.

Definition radix_node_new : radix_node V := Node NULL NULL None false.

Definition radix_node_empty nd : bool :=
  negb (node_is_null nd) && negb (node_has_value nd) &&
  node_is_null (node_child nd false) && node_is_null (node_child nd true).

(** [path] with [direction]: the parents of the current node, innermost
    first.  [plug] is the tree they belong to. *)
Definition plug nd (path : list (bool * radix_node V)) : radix_node V :=
  foldl (λ c '(d, parent), node_set_child parent d c) nd path.

(** The loop that frees the empty nodes from the current one upwards. *)
Fixpoint prune nd (path : list (bool * radix_node V)) : radix_node V :=
  match path with
  | [] => nd
  | (d, parent) :: path' =>
      if radix_node_empty nd then prune (node_set_child parent d NULL) path'
      else plug nd path
  end.

(** [if (node_empty(tree->root)) { free(tree->root); tree->root = NULL; }] *)
Definition drop_empty_root nd : radix_node V :=
  if radix_node_empty nd then NULL else nd.

(** The descent of [insert]; the result is the return code, the root and
    whether [len] grows. *)
Fixpoint insert_loop ds nd (path : list (bool * radix_node V)) v
    : M (libbgp_err_t * radix_node V * bool) :=
  match ds with
  | [] => mret (LIBBGP_OK, plug (node_set_value nd v true) path, negb (node_has_value nd))
  | d :: ds' =>
      if node_is_null (node_child nd d) then
        ok ← bgp_alloc;
        if negb ok then mret (LIBBGP_ERR_NOMEM, drop_empty_root (prune nd path), false)
        else insert_loop ds' radix_node_new ((d, nd) :: path) v
      else insert_loop ds' (node_child nd d) ((d, nd) :: path) v
  end.

Fixpoint remove_loop ds nd (path : list (bool * radix_node V))
    : option (radix_node V) :=
  match ds with
  | [] =>
      if negb (node_has_value nd) then None
      else Some (drop_empty_root (prune (node_set_value nd None false) path))
  | d :: ds' =>
      if node_is_null (node_child nd d) then None
      else remove_loop ds' (node_child nd d) ((d, nd) :: path)
  end.

Fixpoint lpm_loop ds nd (best : option V) : option V :=
  match ds with
  | [] => best
  | d :: ds' =>
      let nd' := node_child nd d in
      if node_is_null nd' then best
      else lpm_loop ds' nd' (if node_has_value nd' then node_value nd' else best)
  end.

(** ** The operations, over the width and the bit function *)

Section Operations.
Context {Addr : Type} (width : Z) (bit : Addr -> Z -> bool).

(** [direction[0 .. n-1]] *)
Definition directions (addr : Addr) (n : Z) : list bool := bit addr <$> seqZ 0 n.

Definition radix_init : radix_tree V := RadixTree NULL 0.

Definition radix_insert (tree : radix_tree V) (addr : Addr) (prefix_len : Z) v
    : M (libbgp_err_t * radix_tree V) :=
  if width <? prefix_len then mret (LIBBGP_ERR_INVALID, tree)
  else
    ok ← (if node_is_null (rt_root tree) then bgp_alloc else mret true);
    if negb ok then mret (LIBBGP_ERR_NOMEM, tree)
    else
      let root := if node_is_null (rt_root tree) then radix_node_new else rt_root tree in
      '(e, root, grew) ← insert_loop (directions addr prefix_len) root [] v;
      mret (e, RadixTree root (if (grew : bool) then u64 (rt_len tree + 1) else rt_len tree)).

Definition radix_remove (tree : radix_tree V) (addr : Addr) (prefix_len : Z)
    : libbgp_err_t * radix_tree V :=
  if width <? prefix_len then (LIBBGP_ERR_INVALID, tree)
  else if node_is_null (rt_root tree) then (LIBBGP_ERR_NOT_FOUND, tree)
  else
    match remove_loop (directions addr prefix_len) (rt_root tree) [] with
    | None => (LIBBGP_ERR_NOT_FOUND, tree)
    | Some root => (LIBBGP_OK, RadixTree root (u64 (rt_len tree - 1)))
    end.

Definition radix_lookup_lpm (tree : radix_tree V) (addr : Addr) : option V :=
  if node_is_null (rt_root tree) then None
  else
    let best := if node_has_value (rt_root tree) then node_value (rt_root tree) else None in
    lpm_loop (directions addr width) (rt_root tree) best.
End Operations.
End Radix.

(** ** The two instances *)

Section Instances.
Context {host : Host} {V : Type}.

Definition bgp_radix4_bit (addr : Z) (bit : Z) : bool :=
  Z.land (Z.shiftr (mem_of_u32 addr !!! Z.to_nat (bit / 8)) (7 - bit mod 8)) 1 =? 1.

Definition bgp_radix6_bit (addr : list Z) (bit : Z) : bool :=
  Z.land (Z.shiftr (addr !!! Z.to_nat (bit / 8)) (7 - bit mod 8)) 1 =? 1.

Definition bgp_radix4_insert : radix_tree V -> Z -> Z -> option V -> _ :=
  radix_insert 32 bgp_radix4_bit.
Definition bgp_radix4_remove : radix_tree V -> Z -> Z -> _ :=
  radix_remove 32 bgp_radix4_bit.
Definition bgp_radix4_lookup_lpm : radix_tree V -> Z -> option V :=
  radix_lookup_lpm 32 bgp_radix4_bit.

Definition bgp_radix6_insert : radix_tree V -> list Z -> Z -> option V -> _ :=
  radix_insert 128 bgp_radix6_bit.
Definition bgp_radix6_remove : radix_tree V -> list Z -> Z -> _ :=
  radix_remove 128 bgp_radix6_bit.
Definition bgp_radix6_lookup_lpm : radix_tree V -> list Z -> option V :=
  radix_lookup_lpm 128 bgp_radix6_bit.
End Instances.

(** ** The specification *)

Section Spec.
Context {V : Type}.
Implicit Types (nd parent t : radix_node V) (v : option V) (ds : list bool).

(** The value stored under a bit string. *)
Fixpoint node_get nd ds : option (option V) :=
  match nd, ds with
  | NULL, _ => None
  | Node _ _ v h, [] => if h then Some v else None
  | Node c0 c1 _ _, d :: ds' => node_get (if d then c1 else c0) ds'
  end.

(** No leaf without a value, and no stale value pointer. *)
Fixpoint node_canonical nd : Prop :=
  match nd with
  | NULL => True
  | Node c0 c1 v h =>
      node_canonical c0 ∧ node_canonical c1 ∧ (h = false → v = None) ∧
      radix_node_empty nd = false
  end.

(** The tree [tree] represents the map [m]. *)
Definition radix_rep (tree : radix_tree V) (m : gmap (list bool) (option V)) : Prop :=
  node_canonical (rt_root tree) ∧
  (∀ ds, node_get (rt_root tree) ds = m !! ds) ∧
  rt_len tree = u64 (Z.of_nat (size m)).

(** Recursive reference versions of the two loops. *)
Fixpoint node_ins ds nd v : radix_node V :=
  let nd := if node_is_null nd then radix_node_new else nd in
  match ds with
  | [] => node_set_value nd v true
  | d :: ds' => node_set_child nd d (node_ins ds' (node_child nd d) v)
  end.

Fixpoint node_del ds nd : radix_node V :=
  match ds with
  | [] => drop_empty_root (node_set_value nd None false)
  | d :: ds' => drop_empty_root (node_set_child nd d (node_del ds' (node_child nd d)))
  end.

(** *** Nodes *)

Lemma set_child_child nd d : node_set_child nd d (node_child nd d) = nd.
Proof. by destruct nd, d. Qed.

Lemma set_child_same nd d c c' : node_set_child (node_set_child nd d c') d c = node_set_child nd d c.
Proof. by destruct nd, d. Qed.

Lemma empty_set_child nd d c :
  nd ≠ NULL → c ≠ NULL → radix_node_empty (node_set_child nd d c) = false.
Proof. destruct nd, d, c; try done; intros _ _; unfold radix_node_empty; simpl; btauto. Qed.

Lemma empty_child nd d : node_child nd d ≠ NULL → radix_node_empty nd = false.
Proof.
  intros Hc. rewrite <-(set_child_child nd d). apply empty_set_child; [|done].
  by destruct nd.
Qed.

Lemma canonical_child nd d : node_canonical nd → node_canonical (node_child nd d).
Proof. destruct nd, d; simpl; tauto. Qed.

Lemma canonical_nonempty nd : node_canonical nd → radix_node_empty nd = false.
Proof. destruct nd; simpl; [done|tauto]. Qed.

Lemma get_child nd d ds : node_get nd (d :: ds) = node_get (node_child nd d) ds.
Proof. by destruct nd, d. Qed.

Lemma get_NULL ds : node_get NULL ds = None.
Proof. by destruct ds. Qed.

Lemma get_new ds : node_get radix_node_new ds = None.
Proof. destruct ds as [|[] [|]]; done. Qed.

Lemma get_drop_empty_root nd ds : node_get (drop_empty_root nd) ds = node_get nd ds.
Proof.
  unfold drop_empty_root. destruct (radix_node_empty nd) eqn:He; [|done].
  destruct nd as [|[] [] v []]; try done. rewrite get_NULL. by destruct ds as [|[] [|]].
Qed.

Lemma drop_empty_root_id nd : radix_node_empty nd = false → drop_empty_root nd = nd.
Proof. unfold drop_empty_root. by intros ->. Qed.

(** A canonical subtree stores something. *)
Lemma canonical_inhabited nd : node_canonical nd → nd ≠ NULL → ∃ ds v, node_get nd ds = Some v.
Proof.
  induction nd as [|c0 IH0 c1 IH1 v h]; [done|]. intros (H0 & H1 & _ & He) _.
  destruct h; [by exists [], v|].
  destruct c0 as [|a b w g].
  - destruct c1 as [|a b w g]; [done|].
    destruct IH1 as (ds & v' & Hg); [done..|]. by exists (true :: ds), v'.
  - destruct IH0 as (ds & v' & Hg); [done..|]. by exists (false :: ds), v'.
Qed.

(** Canonical trees with the same content are the same tree: the shape does
    not depend on the history. *)
Lemma canonical_ext t1 t2 :
  node_canonical t1 → node_canonical t2 → (∀ ds, node_get t1 ds = node_get t2 ds) → t1 = t2.
Proof.
  revert t2. induction t1 as [|c0 IH0 c1 IH1 v h]; intros [|c0' c1' v' h'] Hc1 Hc2 Hg.
  - done.
  - destruct (canonical_inhabited _ Hc2) as (ds & w & Hw); [done|]. by rewrite <-Hg, get_NULL in Hw.
  - destruct (canonical_inhabited _ Hc1) as (ds & w & Hw); [done|]. by rewrite Hg, get_NULL in Hw.
  - destruct Hc1 as (? & ? & Hv & _), Hc2 as (? & ? & Hv' & _).
    rewrite (IH0 c0'), (IH1 c1') by
      (done || (intros ds; apply (Hg (false :: ds))) || (intros ds; apply (Hg (true :: ds)))).
    specialize (Hg []). simpl in Hg. destruct h, h'; naive_solver.
Qed.

(** *** The loops against their references *)

Lemma prune_nonempty nd path : radix_node_empty nd = false → prune nd path = plug nd path.
Proof. destruct path as [|[d parent] path]; simpl; [done|]. by intros ->. Qed.

Lemma is_null_spec nd : node_is_null nd = true ↔ nd = NULL.
Proof. by destruct nd. Qed.

Lemma node_ins_NULL ds v : node_ins ds NULL v = node_ins ds radix_node_new v.
Proof. by destruct ds. Qed.

Lemma node_ins_cons d ds nd v :
  nd ≠ NULL →
  node_ins (d :: ds) nd v = node_set_child nd d (node_ins ds (node_child nd d) v).
Proof. by destruct nd. Qed.

(** Whatever the allocator answers: the insertion is the reference one, or a
    request was refused and the nodes created so far are gone again. *)
Lemma insert_loop_spec ds nd path v s :
  nd ≠ NULL → (∀ d, node_canonical (node_child nd d)) →
  ∃ used s', s = used ++ s' ∧
    (insert_loop ds nd path v s =
       (Ret (LIBBGP_OK, plug (node_ins ds nd v) path, bool_decide (node_get nd ds = None)), s') ∨
     false ∈ used ∧
     insert_loop ds nd path v s =
       (Ret (LIBBGP_ERR_NOMEM, drop_empty_root (prune nd path), false), s')).
Proof.
  revert nd path s. induction ds as [|d ds IH]; intros nd path s Hnd Hc.
  - exists [], s. split; [done|]. left. simpl.
    destruct nd as [|c0 c1 w []]; [done|by case_bool_decide..].
  - rewrite node_ins_cons by done. cbn [insert_loop].
    destruct (node_is_null (node_child nd d)) eqn:Hn.
    + apply is_null_spec in Hn.
      assert (Hpr : prune radix_node_new ((d, nd) :: path) = prune nd path).
      { simpl. by rewrite <-Hn, set_child_child. }
      destruct s as [|[] s].
      * destruct (IH radix_node_new ((d, nd) :: path) []) as (u & s' & Hs & H);
          [done|by intros []|]. exists u, s'. split; [done|]. unfold mbind, M_bind. simpl.
        rewrite Hpr, get_new in H. by rewrite get_child, Hn, get_NULL, node_ins_NULL.
      * destruct (IH radix_node_new ((d, nd) :: path) s) as (u & s' & -> & H);
          [done|by intros []|]. exists (true :: u), s'. split; [done|].
        unfold mbind, M_bind. simpl.
        rewrite Hpr, get_new in H. rewrite get_child, Hn, get_NULL, node_ins_NULL. set_solver.
      * exists [false], s. split; [done|]. right. split; [set_solver|done].
    + assert (Hcn : node_child nd d ≠ NULL) by (by rewrite <-is_null_spec, Hn).
      destruct (IH (node_child nd d) ((d, nd) :: path) s) as (u & s' & Hs & H).
      { done. } { intros d'. apply canonical_child, Hc. }
      exists u, s'. split; [done|].
      rewrite (prune_nonempty (node_child nd d)) in H by apply canonical_nonempty, Hc.
      rewrite (prune_nonempty nd) by by eapply empty_child.
      simpl plug in H. rewrite set_child_child in H.
      by rewrite get_child.
Qed.

(** Storing under a key that is present needs no memory. *)
Lemma insert_loop_present ds nd path v s :
  node_get nd ds ≠ None →
  insert_loop ds nd path v s = (Ret (LIBBGP_OK, plug (node_ins ds nd v) path, false), s).
Proof.
  revert nd path. induction ds as [|d ds IH]; intros nd path Hg.
  - destruct nd as [|c0 c1 w []]; done.
  - assert (nd ≠ NULL) by (by intros ->). rewrite get_child in Hg. rewrite node_ins_cons by done.
    cbn [insert_loop]. destruct (node_child nd d) as [|c0 c1 w h] eqn:Hn; [by destruct ds|].
    cbn [node_is_null]. by rewrite IH.
Qed.

Lemma prune_plug nd path :
  Forall (λ f, f.2 ≠ NULL) path → nd ≠ NULL →
  drop_empty_root (prune nd path) =
  foldl (λ c '(d, parent), drop_empty_root (node_set_child parent d c)) (drop_empty_root nd) path.
Proof.
  intros Hp. revert nd. induction Hp as [|[d parent] path Hpar Hp IH]; intros nd Hnd; [done|].
  simpl in Hpar |- *. assert (Hset : ∀ c, node_set_child parent d c ≠ NULL) by by destruct parent, d.
  destruct (radix_node_empty nd) eqn:He.
  - assert (drop_empty_root nd = NULL) as -> by (unfold drop_empty_root; by rewrite He).
    by apply IH.
  - rewrite (drop_empty_root_id nd) by done. simpl plug.
    change (plug nd ((d, parent) :: path)) with (plug (node_set_child parent d nd) path).
    rewrite <-prune_nonempty by by apply empty_set_child.
    by apply IH.
Qed.

Lemma remove_loop_spec ds nd path :
  Forall (λ f, f.2 ≠ NULL) path → nd ≠ NULL →
  remove_loop ds nd path =
  match node_get nd ds with
  | None => None
  | Some _ =>
      Some (foldl (λ c '(d, parent), drop_empty_root (node_set_child parent d c))
              (node_del ds nd) path)
  end.
Proof.
  revert nd path. induction ds as [|d ds IH]; intros nd path Hp Hnd.
  - simpl. destruct nd as [|c0 c1 v []]; [done| |done]. simpl.
    f_equal. by apply (prune_plug (Node c0 c1 None false)).
  - simpl remove_loop. rewrite get_child. destruct (node_is_null (node_child nd d)) eqn:Hn.
    + apply is_null_spec in Hn. by rewrite Hn, get_NULL.
    + assert (node_child nd d ≠ NULL) by (by rewrite <-is_null_spec, Hn).
      rewrite IH; [done|by constructor|done].
Qed.

(** The longest proper, non-empty prefix of [ds] with a value wins over
    [best]. *)
Lemma lpm_loop_spec ds nd best :
  (∃ k, (0 < k <= length ds)%nat ∧ node_get nd (take k ds) = Some (lpm_loop ds nd best) ∧
     ∀ k', (k < k' <= length ds)%nat → node_get nd (take k' ds) = None) ∨
  (lpm_loop ds nd best = best ∧ ∀ k, (0 < k <= length ds)%nat → node_get nd (take k ds) = None).
Proof.
  revert nd best. induction ds as [|d ds IH]; intros nd best.
  { right. split; [done|]. simpl. lia. }
  cbn [lpm_loop length]. destruct (node_is_null (node_child nd d)) eqn:Hn.
  - right. split; [done|]. intros [|k] Hk; [lia|]. apply is_null_spec in Hn.
    simpl take. by rewrite get_child, Hn, get_NULL.
  - set (c := node_child nd d) in *. set (b := if node_has_value c then _ else _).
    destruct (IH c b) as [(k & Hk & Hg & Hmax)|[Hb Hnone]].
    + left. exists (S k). split; [lia|]. simpl take. rewrite get_child. split; [done|].
      intros [|k'] Hk'; [lia|]. simpl take. rewrite get_child. apply Hmax. lia.
    + rewrite Hb. subst b.
      assert (Hrest : ∀ k', (1 < k' <= S (length ds))%nat → node_get nd (take k' (d :: ds)) = None).
      { intros [|k'] Hk'; [lia|]. simpl take. rewrite get_child. apply Hnone. lia. }
      destruct c as [|c0 c1 w h] eqn:Hc; [done|]. simpl. destruct h.
      * left. exists 1%nat. split; [lia|]. split; [|done].
        simpl. rewrite get_child, take_0. subst c. by rewrite Hc.
      * right. split; [done|]. intros k Hk. destruct (decide (k = 1)%nat) as [->|]; [|apply Hrest; lia].
        simpl. rewrite get_child, take_0. subst c. by rewrite Hc.
Qed.

(** *** The references on canonical trees *)

Lemma node_ins_nonnull ds nd v : node_ins ds nd v ≠ NULL.
Proof. destruct ds as [|[] ds], nd; done. Qed.

Lemma get_set_child nd d d' c ds :
  nd ≠ NULL → node_get (node_set_child nd d c) (d' :: ds) =
    if decide (d = d') then node_get c ds else node_get nd (d' :: ds).
Proof. destruct nd, d, d'; try done. Qed.

Lemma get_ins ds nd v ds' :
  node_get (node_ins ds nd v) ds' = if decide (ds = ds') then Some v else node_get nd ds'.
Proof.
  revert nd ds'. induction ds as [|d ds IH]; intros nd ds'.
  - destruct ds' as [|[] ds'], nd; try done; simpl; by rewrite get_NULL.
  - assert (Hnew : ∀ nd, nd ≠ NULL →
      node_get (node_ins (d :: ds) nd v) ds' =
      if decide (d :: ds = ds') then Some v else node_get nd ds').
    { intros nd' Hnd'. rewrite node_ins_cons by done. destruct ds' as [|d' ds'].
      - by destruct nd', d.
      - rewrite get_set_child, IH by done. destruct (decide (d = d')) as [<-|].
        + rewrite get_child. repeat case_decide; naive_solver.
        + rewrite decide_False by naive_solver. done. }
    destruct nd; [|by apply Hnew].
    rewrite node_ins_NULL, Hnew, get_new, get_NULL by done. done.
Qed.

Lemma canonical_ins ds nd v : node_canonical nd → node_canonical (node_ins ds nd v).
Proof.
  revert nd. induction ds as [|d ds IH]; intros nd Hc.
  - destruct nd; simpl in *; [done|]. unfold radix_node_empty. simpl. naive_solver.
  - pose proof (IH _ (canonical_child nd d Hc)) as Hi.
    pose proof (node_ins_nonnull ds (node_child nd d) v) as Hnn.
    assert (He : ∀ nd', nd' ≠ NULL → node_child nd' d = node_child nd d →
      radix_node_empty (node_ins (d :: ds) nd' v) = false).
    { intros nd' Hn Hch. rewrite node_ins_cons, Hch by done. by apply empty_set_child. }
    destruct nd as [|c0 c1 w h].
    + specialize (He radix_node_new). rewrite node_ins_NULL.
      destruct d; simpl in *; naive_solver.
    + specialize (He (Node c0 c1 w h)). destruct d; simpl in *; naive_solver.
Qed.

Lemma canonical_drop_empty nd :
  (∀ d, node_canonical (node_child nd d)) → (node_has_value nd = false → node_value nd = None) →
  node_canonical (drop_empty_root nd).
Proof.
  intros Hc Hv. unfold drop_empty_root. destruct (radix_node_empty nd) eqn:He; [done|].
  destruct nd; [done|]. split; [apply (Hc false)|]. split; [apply (Hc true)|]. done.
Qed.

Lemma child_set_child nd d d' c :
  nd ≠ NULL → node_child (node_set_child nd d c) d' = if decide (d = d') then c else node_child nd d'.
Proof. by destruct nd, d, d'. Qed.

Lemma canonical_del ds nd : node_canonical nd → node_canonical (node_del ds nd).
Proof.
  revert nd. induction ds as [|d ds IH]; intros nd Hc; simpl; apply canonical_drop_empty.
  - intros d. destruct nd, d; simpl in *; tauto.
  - by destruct nd.
  - intros d'. destruct nd as [|c0 c1 w h]; [by destruct d'|].
    rewrite child_set_child by done. case_decide; auto using canonical_child.
  - destruct nd as [|c0 c1 w h], d; simpl in *; tauto.
Qed.

Lemma get_del ds nd ds' :
  node_get (node_del ds nd) ds' = if decide (ds = ds') then None else node_get nd ds'.
Proof.
  revert nd ds'. induction ds as [|d ds IH]; intros nd ds'; simpl; rewrite get_drop_empty_root.
  - destruct nd, ds'; try done; simpl; by case_decide.
  - destruct nd as [|c0 c1 w h]; [simpl; by case_decide|].
    destruct ds' as [|d' ds']; [by destruct d|].
    rewrite get_set_child, IH by done. destruct (decide (d = d')) as [<-|].
    + rewrite get_child. repeat case_decide; naive_solver.
    + by rewrite decide_False by naive_solver.
Qed.
End Spec.

(** ** Refinement of the finite map *)

Section Refinement.
Context {V Addr : Type} (width : Z) (bit : Addr -> Z -> bool).
Implicit Types (tree : radix_tree V) (m : gmap (list bool) (option V)).

Lemma u64_succ x : u64 (u64 x + 1) = u64 (x + 1).
Proof. unfold u64. apply Zplus_mod_idemp_l. Qed.

Lemma u64_pred x : u64 (u64 x - 1) = u64 (x - 1).
Proof. unfold u64. apply Zminus_mod_idemp_l. Qed.

Lemma radix_rep_insert tree m ds v :
  radix_rep tree m →
  radix_rep (RadixTree (node_ins ds (rt_root tree) v)
               (if bool_decide (node_get (rt_root tree) ds = None)
                then u64 (rt_len tree + 1) else rt_len tree))
            (<[ds := v]> m).
Proof.
  intros (Hc & Hg & Hl). split; [by apply canonical_ins|]. split.
  - intros ds'. simpl. rewrite get_ins, Hg. case_decide; simplify_map_eq; done.
  - simpl. rewrite map_size_insert, Hl, Hg. destruct (m !! ds); simpl; [done|].
    rewrite u64_succ. f_equal. lia.
Qed.

Lemma radix_insert_spec tree m addr n v s :
  radix_rep tree m → 0 <= n <= width →
  ∃ tree' used s', s = used ++ s' ∧
    (radix_insert width bit tree addr n v s = (Ret (LIBBGP_OK, tree'), s') ∧
       radix_rep tree' (<[directions bit addr n := v]> m) ∨
     false ∈ used ∧
     radix_insert width bit tree addr n v s = (Ret (LIBBGP_ERR_NOMEM, tree), s')).
Proof.
  intros Hrep Hn. unfold radix_insert. replace (width <? n) with false by lia.
  set (ds := directions bit addr n). pose proof (radix_rep_insert _ _ ds v Hrep) as Hins.
  destruct tree as [root len]. destruct Hrep as (Hc & _ & _). simpl in *.
  destruct root as [|c0 c1 w h].
  - rewrite node_ins_NULL, get_NULL in Hins. unfold mbind, M_bind. simpl.
    destruct s as [|[] s].
    + eexists _, [], []. split; [done|]. left. simpl.
      destruct (insert_loop_spec ds radix_node_new [] v []) as (u & s' & Hs & [->|[Hu _]]);
        [done|by intros []|..]; apply eq_sym, app_nil in Hs as [-> ->]; [|by inversion Hu].
      rewrite get_new. done.
    + simpl. destruct (insert_loop_spec ds radix_node_new [] v s) as (u & s' & -> & [->|[Hu ->]]);
        [done|by intros []|..].
      * eexists _, (true :: u), s'. split; [done|]. left. by rewrite get_new.
      * exists radix_init, (true :: u), s'. split; [done|]. right. split; [set_solver|done].
    + exists radix_init, [false], s. split; [done|]. right. split; [set_solver|done].
  - unfold mbind, M_bind. simpl.
    destruct (insert_loop_spec ds (Node c0 c1 w h) [] v s) as (u & s' & -> & [->|[Hu ->]]);
      [done|by intros []; simpl in Hc; destruct Hc as (?&?&?)|..].
    + eexists _, u, s'. split; [done|]. by left.
    + exists radix_init, u, s'. split; [done|]. right. split; [done|].
      simpl. rewrite drop_empty_root_id by by apply canonical_nonempty. done.
Qed.

Lemma radix_insert_present tree m addr n v s :
  radix_rep tree m → 0 <= n <= width → is_Some (m !! directions bit addr n) →
  ∃ tree', radix_insert width bit tree addr n v s = (Ret (LIBBGP_OK, tree'), s) ∧
    radix_rep tree' (<[directions bit addr n := v]> m).
Proof.
  intros Hrep Hn Hm. unfold radix_insert. replace (width <? n) with false by lia.
  set (ds := directions bit addr n) in *. pose proof (radix_rep_insert _ _ ds v Hrep) as Hins.
  destruct Hrep as (_ & Hg & _). assert (Hget : node_get (rt_root tree) ds ≠ None).
  { rewrite Hg. intros He. rewrite He in Hm. by destruct Hm. }
  rewrite bool_decide_false in Hins by done.
  destruct (rt_root tree) as [|c0 c1 w h] eqn:Hr; [by rewrite get_NULL in Hget|].
  unfold mbind, M_bind. cbn [node_is_null mret M_ret negb]. rewrite insert_loop_present by done.
  eexists. split; [done|]. done.
Qed.

Lemma radix_remove_spec tree m addr n :
  radix_rep tree m → 0 <= n <= width →
  match m !! directions bit addr n with
  | None => radix_remove width bit tree addr n = (LIBBGP_ERR_NOT_FOUND, tree)
  | Some _ => ∃ tree', radix_remove width bit tree addr n = (LIBBGP_OK, tree') ∧
                radix_rep tree' (delete (directions bit addr n) m)
  end.
Proof.
  intros (Hc & Hg & Hl) Hn. unfold radix_remove. replace (width <? n) with false by lia.
  set (ds := directions bit addr n). rewrite <-Hg.
  destruct tree as [root len]. simpl in *. destruct root as [|c0 c1 w h].
  { by rewrite get_NULL. }
  rewrite remove_loop_spec by done. simpl foldl.
  destruct (node_get (Node c0 c1 w h) ds) as [v|] eqn:Hv; [|done].
  eexists. split; [done|]. split; [by apply canonical_del|]. split.
  - intros ds'. cbn [rt_root]. rewrite get_del. case_decide; simplify_map_eq; [done|by rewrite Hg].
  - cbn [rt_len]. rewrite Hg in Hv. rewrite map_size_delete, Hv, Hl, u64_pred. simpl. f_equal.
    assert (size m ≠ 0)%nat by (intros Hz; apply map_size_empty_inv in Hz; by simplify_map_eq). lia.
Qed.

(** [r] is the value of the longest key of [m] that is a prefix of [ds]. *)
Definition longest_match m ds (r : option V) : Prop :=
  (∃ k, (k <= length ds)%nat ∧ m !! take k ds = Some r ∧
     ∀ k', (k < k' <= length ds)%nat → m !! take k' ds = None) ∨
  (r = None ∧ ∀ k, (k <= length ds)%nat → m !! take k ds = None).

Lemma radix_lookup_spec tree m addr :
  radix_rep tree m →
  longest_match m (directions bit addr width) (radix_lookup_lpm width bit tree addr).
Proof.
  intros (Hc & Hg & Hl). unfold radix_lookup_lpm, longest_match.
  set (ds := directions bit addr width). destruct tree as [root len]. simpl in *.
  destruct root as [|c0 c1 w h]; simpl node_is_null; cbn iota.
  { right. split; [done|]. intros k Hk. by rewrite <-Hg, get_NULL. }
  set (b := if node_has_value _ then _ else _).
  destruct (lpm_loop_spec ds (Node c0 c1 w h) b) as [(k & Hk & Hk' & Hmax)|[-> Hnone]].
  - left. exists k. split; [lia|]. rewrite <-Hg. split; [done|]. intros k' ?. rewrite <-Hg. by apply Hmax.
  - assert (Hrest : ∀ k', (0 < k' <= length ds)%nat → m !! take k' ds = None)
      by (intros; rewrite <-Hg; by apply Hnone).
    pose proof (Hg []) as H0. subst b. simpl in H0 |- *. destruct h.
    + left. exists 0%nat. split; [lia|]. by rewrite take_0.
    + right. split; [done|]. intros [|k'] ?; [by rewrite take_0|apply Hrest; lia].
Qed.
End Refinement.

(** ** Keys of the two instances *)

Section Keys.
Context {host : Host}.

Lemma land_shiftr_testbit b j : 0 <= j → (Z.land (Z.shiftr b j) 1 =? 1) = Z.testbit b j.
Proof.
  intros Hj. rewrite (Z.land_ones _ 1), <-Z.bit0_mod, Z.shiftr_spec by lia.
  rewrite Z.add_0_l. by destruct (Z.testbit b j).
Qed.

(** The code's bit of a byte array is the network-order bit. *)
Lemma bit_nbit bs k :
  (k < 8 * length bs)%nat →
  (Z.land (Z.shiftr (bs !!! Z.to_nat (Z.of_nat k / 8)) (7 - Z.of_nat k mod 8)) 1 =? 1) = nbit bs k.
Proof.
  revert k. induction bs as [|b bs IH]; intros k Hk; simpl in Hk; [lia|].
  rewrite land_shiftr_testbit by divmod. simpl. destruct (k <? 8)%nat eqn:Hk8.
  - rewrite Z.div_small, Z.mod_small by lia. done.
  - rewrite <-IH by lia. rewrite land_shiftr_testbit by divmod.
    replace (Z.to_nat (Z.of_nat k / 8)) with (S (Z.to_nat (Z.of_nat (k - 8) / 8))) by divmod.
    simpl. f_equal. divmod.
Qed.

(** The key under which a prefix is stored. *)
Definition p4_key (p : libbgp_prefix4_t) : list bool :=
  directions bgp_radix4_bit (p4_addr p) (p4_len p).
Definition p6_key (p : libbgp_prefix6_t) : list bool :=
  directions bgp_radix6_bit (p6_addr p) (p6_len p).

Lemma directions_nat {A} (bit : A -> Z -> bool) a (n : nat) :
  directions bit a (Z.of_nat n) = (λ k, bit a (Z.of_nat k)) <$> seq 0 n.
Proof.
  unfold directions, seqZ. rewrite Nat2Z.id, <-list_fmap_compose.
  apply list_fmap_ext. intros _ k _. unfold compose. f_equal. lia.
Qed.

(** Two keys agree iff the first bits do. *)
Lemma directions_take {A} (bit : A -> Z -> bool) a b (n w : nat) :
  (n <= w)%nat →
  directions bit a (Z.of_nat n) = take n (directions bit b (Z.of_nat w)) ↔
  ∀ k, (k < n)%nat → bit a (Z.of_nat k) = bit b (Z.of_nat k).
Proof.
  intros Hn. rewrite !directions_nat. rewrite <-fmap_take, take_seq. replace (n `min` w)%nat with n by lia. split.
  - intros He k Hk. apply (f_equal (.!! k)) in He. rewrite !list_lookup_fmap in He.
    rewrite lookup_seq_lt in He by done. simpl in He. congruence.
  - intros Hk. apply list_fmap_ext. intros i x Hx. apply lookup_seq in Hx as [-> ?]. by apply Hk.
Qed.

Lemma p4_key_covers p a :
  p4_wf p → p4_covers p a ↔
  p4_key p = take (Z.to_nat (p4_len p)) (directions bgp_radix4_bit a 32).
Proof.
  intros [_ Hl]. unfold p4_key. rewrite <-(Z2Nat.id (p4_len p)) at 1 by lia.
  rewrite (directions_take _ _ _ _ 32) by lia. unfold p4_covers.
  assert (Hb : ∀ x k, (k < 32)%nat → bgp_radix4_bit x (Z.of_nat k) = nbit (mem_of_u32 x) k)
    by (intros; apply bit_nbit; rewrite mem_of_u32_length; lia).
  split; intros H k; intros.
  - rewrite !Hb by lia. symmetry. apply H; lia.
  - rewrite <-!Hb by lia. symmetry. apply H. lia.
Qed.

Lemma p6_key_covers p a :
  p6_wf p → length a = 16%nat → p6_covers p a ↔
  p6_key p = take (Z.to_nat (p6_len p)) (directions bgp_radix6_bit a 128).
Proof.
  intros (Hpl & _ & Hl) Ha. unfold p6_key. rewrite <-(Z2Nat.id (p6_len p)) at 1 by lia.
  rewrite (directions_take _ _ _ _ 128) by lia. unfold p6_covers.
  assert (Hb : ∀ x k, length x = 16%nat → (k < 128)%nat → bgp_radix6_bit x (Z.of_nat k) = nbit x k)
    by (intros ? ? Hx ?; apply bit_nbit; rewrite Hx; lia).
  split; intros H k; intros.
  - rewrite !Hb by (done || lia). symmetry. apply H; lia.
  - rewrite <-!Hb by (done || lia). symmetry. apply H. lia.
Qed.
End Keys.

(** ** Histories

    [radix_history tree m]: some sequence of insertions and removals, under
    some answers of the allocator, led from the empty tree to [tree], and [m]
    is what the calls that returned [LIBBGP_OK] stored. *)

Section Histories.
Context {V Addr : Type} (width : Z) (bit : Addr -> Z -> bool).

Inductive radix_history : radix_tree V -> gmap (list bool) (option V) -> Prop :=
  | history_init : radix_history radix_init ∅
  | history_insert tree m addr n v s e tree' s' :
      radix_history tree m → 0 <= n →
      radix_insert width bit tree addr n v s = (Ret (e, tree'), s') →
      radix_history tree'
        (if decide (e = LIBBGP_OK) then <[directions bit addr n := v]> m else m)
  | history_remove tree m addr n e tree' :
      radix_history tree m → 0 <= n →
      radix_remove width bit tree addr n = (e, tree') →
      radix_history tree'
        (if decide (e = LIBBGP_OK) then delete (directions bit addr n) m else m).

Lemma radix_rep_init : radix_rep (V := V) radix_init ∅.
Proof. split; [done|]. split; [|done]. intros ds. rewrite lookup_empty. by destruct ds. Qed.

Lemma history_rep tree m : radix_history tree m → radix_rep tree m.
Proof.
  induction 1 as [|tree m addr n v s e tree' s' _ IH Hn Hi|tree m addr n e tree' _ IH Hn Hr].
  - apply radix_rep_init.
  - destruct (decide (width < n)) as [Hw|Hw].
    + unfold radix_insert in Hi. replace (width <? n) with true in Hi by lia.
      unfold mret, M_ret in Hi. by simplify_eq.
    + destruct (radix_insert_spec width bit tree m addr n v s IH) as (t & u & s1 & _ & H); [lia|].
      destruct H as [[He Hrep]|[_ He]]; rewrite He in Hi; by simplify_eq.
  - destruct (decide (width < n)) as [Hw|Hw].
    + unfold radix_remove in Hr. replace (width <? n) with true in Hr by lia. by simplify_eq.
    + pose proof (radix_remove_spec width bit tree m addr n IH ltac:(lia)) as H.
      destruct (m !! _); [destruct H as (t & He & Hrep)|rename H into He];
        rewrite He in Hr; by simplify_eq.
Qed.
End Histories.

(** ** Properties *)

Section RadixProperties.
Context {host : Host} {V : Type}.

(** Insertion refines map update, whatever the allocator answers: it
    stores exactly the one key and keeps [len] the number of keys, or the
    allocator refused a request, the code is [LIBBGP_ERR_NOMEM] and the tree
    is the very tree it was. *)
Theorem radix_insert_refines {Addr} width (bit : Addr -> Z -> bool)
    (tree : radix_tree V) m addr n v s :
  radix_rep tree m → 0 <= n <= width →
  ∃ tree' used s', s = used ++ s' ∧
    (radix_insert width bit tree addr n v s = (Ret (LIBBGP_OK, tree'), s') ∧
       radix_rep tree' (<[directions bit addr n := v]> m) ∨
     false ∈ used ∧
     radix_insert width bit tree addr n v s = (Ret (LIBBGP_ERR_NOMEM, tree), s')).
Proof. apply radix_insert_spec. Qed.

(** Removal refines map deletion: it returns [LIBBGP_ERR_NOT_FOUND] and
    leaves the tree alone exactly when the key is absent; otherwise it
    deletes exactly that key, frees the nodes this leaves empty and keeps
    [len] the number of keys. *)
Theorem radix_remove_refines {Addr} width (bit : Addr -> Z -> bool)
    (tree : radix_tree V) m addr n :
  radix_rep tree m → 0 <= n <= width →
  match m !! directions bit addr n with
  | None => radix_remove width bit tree addr n = (LIBBGP_ERR_NOT_FOUND, tree)
  | Some _ => ∃ tree', radix_remove width bit tree addr n = (LIBBGP_OK, tree') ∧
                radix_rep tree' (delete (directions bit addr n) m)
  end.
Proof. apply radix_remove_spec. Qed.

(** After any history of insertions and removals of the IPv4 tree, failed
    allocations included, [bgp_radix4_lookup_lpm] returns the value of the
    longest stored prefix that covers the address, and the null pointer when
    no stored prefix does. *)
Theorem radix4_lookup_longest_prefix (tree : radix_tree V) m a :
  radix_history 32 bgp_radix4_bit tree m → is_u32 a →
  (∃ p, p4_wf p ∧ p4_covers p a ∧ m !! p4_key p = Some (bgp_radix4_lookup_lpm tree a) ∧
     ∀ q, p4_wf q → p4_covers q a → p4_len p < p4_len q → m !! p4_key q = None) ∨
  (bgp_radix4_lookup_lpm tree a = None ∧
     ∀ q, p4_wf q → p4_covers q a → m !! p4_key q = None).
Proof.
  intros Hh Ha. apply history_rep in Hh.
  pose proof (radix_lookup_spec 32 bgp_radix4_bit tree m a Hh) as Hm.
  assert (Hlen : length (directions bgp_radix4_bit a 32) = 32%nat) by done.
  unfold longest_match in Hm. rewrite Hlen in Hm.
  destruct Hm as [(k & Hk & Hg & Hmax)|[Hr Hnone]]; [left|right].
  - assert (Hwf : p4_wf (Prefix4 a (Z.of_nat k))) by (split; simpl; [done|lia]).
    assert (Hcov : p4_covers (Prefix4 a (Z.of_nat k)) a) by (intros j ??; done).
    exists (Prefix4 a (Z.of_nat k)). split; [done|]. split; [done|].
    split; [by rewrite (proj1 (p4_key_covers _ a Hwf) Hcov); simpl; rewrite Nat2Z.id|].
    intros q Hq Hc Hl. rewrite (proj1 (p4_key_covers _ a Hq) Hc). destruct Hq as [_ Hq].
    simpl in Hl. apply Hmax. lia.
  - split; [done|]. intros q Hq Hc. rewrite (proj1 (p4_key_covers _ a Hq) Hc).
    destruct Hq as [_ Hq]. apply Hnone. lia.
Qed.

(** The same for the IPv6 tree. *)
Theorem radix6_lookup_longest_prefix (tree : radix_tree V) m a :
  radix_history 128 bgp_radix6_bit tree m → length a = 16%nat → bytes_ok a →
  (∃ p, p6_wf p ∧ p6_covers p a ∧ m !! p6_key p = Some (bgp_radix6_lookup_lpm tree a) ∧
     ∀ q, p6_wf q → p6_covers q a → p6_len p < p6_len q → m !! p6_key q = None) ∨
  (bgp_radix6_lookup_lpm tree a = None ∧
     ∀ q, p6_wf q → p6_covers q a → m !! p6_key q = None).
Proof.
  intros Hh Ha Hao. apply history_rep in Hh.
  pose proof (radix_lookup_spec 128 bgp_radix6_bit tree m a Hh) as Hm.
  assert (Hlen : length (directions bgp_radix6_bit a 128) = 128%nat) by done.
  unfold longest_match in Hm. rewrite Hlen in Hm.
  destruct Hm as [(k & Hk & Hg & Hmax)|[Hr Hnone]]; [left|right].
  - assert (Hwf : p6_wf (Prefix6 a (Z.of_nat k))) by (split; [done|]; split; [done|simpl; lia]).
    assert (Hcov : p6_covers (Prefix6 a (Z.of_nat k)) a) by (intros j ??; done).
    exists (Prefix6 a (Z.of_nat k)). split; [done|]. split; [done|].
    split; [by rewrite (proj1 (p6_key_covers _ a Hwf Ha) Hcov); simpl; rewrite Nat2Z.id|].
    intros q Hq Hc Hl. rewrite (proj1 (p6_key_covers _ a Hq Ha) Hc). destruct Hq as (_ & _ & Hq).
    simpl in Hl. apply Hmax. lia.
  - split; [done|]. intros q Hq Hc. rewrite (proj1 (p6_key_covers _ a Hq Ha) Hc).
    destruct Hq as (_ & _ & Hq). apply Hnone. lia.
Qed.
End RadixProperties.

(** ** Witnesses *)

#[local] Existing Instance little_endian_host.

(** 10.0.0.0/8 as stored on a little-endian host is the address 10. *)
Definition tree_10_8 : radix_tree nat :=
  match bgp_radix4_insert radix_init 10 8 (Some 7%nat) [] with
  | (Ret (_, t), _) => t
  | _ => radix_init
  end.

Lemma radix_insert_refines_witness :
  ∃ tree' used s', [true; false] = used ++ s' ∧
    (radix_insert 32 bgp_radix4_bit radix_init 10 8 (Some 7%nat) [true; false] =
       (Ret (LIBBGP_OK, tree'), s') ∧
     radix_rep tree' (<[directions bgp_radix4_bit 10 8 := Some 7%nat]> ∅) ∨
     false ∈ used ∧
     radix_insert 32 bgp_radix4_bit radix_init 10 8 (Some 7%nat) [true; false] =
       (Ret (LIBBGP_ERR_NOMEM, radix_init), s')).
Proof. apply radix_insert_refines; [apply radix_rep_init|lia]. Defined.

Lemma tree_10_8_history :
  radix_history 32 bgp_radix4_bit tree_10_8 {[ p4_key (Prefix4 10 8) := Some 7%nat ]}.
Proof.
  apply (history_insert 32 bgp_radix4_bit radix_init ∅ 10 8 (Some 7%nat) [] LIBBGP_OK tree_10_8 []);
    [constructor|lia|by vm_compute].
Qed.

Lemma radix_remove_refines_witness :
  ∃ tree', radix_remove 32 bgp_radix4_bit tree_10_8 10 8 = (LIBBGP_OK, tree') ∧
    radix_rep tree' (delete (directions bgp_radix4_bit 10 8) {[ p4_key (Prefix4 10 8) := Some 7%nat ]}).
Proof.
  pose proof (radix_remove_refines 32 bgp_radix4_bit tree_10_8 _ 10 8
    (history_rep _ _ _ _ tree_10_8_history) ltac:(lia)) as H.
  unfold p4_key in H. simpl p4_addr in H. simpl p4_len in H. rewrite lookup_singleton_eq in H. exact H.
Defined.

Lemma radix4_lookup_longest_prefix_witness :
  (∃ p, p4_wf p ∧ p4_covers p 10 ∧
     ({[ p4_key (Prefix4 10 8) := Some 7%nat ]} : gmap _ _) !! p4_key p =
       Some (bgp_radix4_lookup_lpm tree_10_8 10) ∧
     ∀ q, p4_wf q → p4_covers q 10 → p4_len p < p4_len q →
       ({[ p4_key (Prefix4 10 8) := Some 7%nat ]} : gmap _ _) !! p4_key q = None) ∨
  (bgp_radix4_lookup_lpm tree_10_8 10 = None ∧
     ∀ q, p4_wf q → p4_covers q 10 →
       ({[ p4_key (Prefix4 10 8) := Some 7%nat ]} : gmap _ _) !! p4_key q = None).
Proof.
  apply radix4_lookup_longest_prefix; [apply tree_10_8_history|unfold is_u32; lia].
Defined.

(** 2001:db8::/32. *)
Definition addr_2001_db8 : list Z := [32; 1; 13; 184] ++ replicate 12 0.
Definition tree_2001_db8 : radix_tree nat :=
  match bgp_radix6_insert radix_init addr_2001_db8 32 (Some 7%nat) [] with
  | (Ret (_, t), _) => t
  | _ => radix_init
  end.

Lemma radix6_lookup_longest_prefix_witness :
  (∃ p, p6_wf p ∧ p6_covers p addr_2001_db8 ∧
     ({[ p6_key (Prefix6 addr_2001_db8 32) := Some 7%nat ]} : gmap _ _) !! p6_key p =
       Some (bgp_radix6_lookup_lpm tree_2001_db8 addr_2001_db8) ∧
     ∀ q, p6_wf q → p6_covers q addr_2001_db8 → p6_len p < p6_len q →
       ({[ p6_key (Prefix6 addr_2001_db8 32) := Some 7%nat ]} : gmap _ _) !! p6_key q = None) ∨
  (bgp_radix6_lookup_lpm tree_2001_db8 addr_2001_db8 = None ∧
     ∀ q, p6_wf q → p6_covers q addr_2001_db8 →
       ({[ p6_key (Prefix6 addr_2001_db8 32) := Some 7%nat ]} : gmap _ _) !! p6_key q = None).
Proof.
  apply radix6_lookup_longest_prefix; [|done|by repeat constructor].
  apply (history_insert 128 bgp_radix6_bit radix_init ∅ addr_2001_db8 32 (Some 7%nat) []
    LIBBGP_OK tree_2001_db8 []); [constructor|lia|by vm_compute].
Defined.
