(* ===== verification/Capability.v ===== *)
(** * OPEN capabilities (src/capability.c, include/libbgp/capability.h)

    The TLVs of the capability optional parameter.  The type tag and the union
    of the C object are one inductive type; the reference count, which no
    parse or write operation reads, is not part of the value. *)

From S2P Require Import Prelude Bytes.

Definition LIBBGP_CAP_CODE_MP_BGP : Z := 1.
Definition LIBBGP_CAP_CODE_4B_ASN : Z := 65.
Definition LIBBGP_CAP_KNOWN_VALUE_LEN : Z := 4.

Inductive libbgp_cap_type_t : Type := LIBBGP_CAP_4B_ASN | LIBBGP_CAP_MP_BGP | LIBBGP_CAP_UNKNOWN.

Inductive libbgp_cap_data : Type :=
  | asn_4b (asn : Z)
  | mp_bgp (afi safi : Z)
  | unknown (value : list Z).

Record libbgp_capability_t : Type := Capability { cap_code : Z; cap_data : libbgp_cap_data }.

#[export] Instance libbgp_cap_data_eq_dec : EqDecision libbgp_cap_data.
Proof. solve_decision. Defined.
#[export] Instance libbgp_capability_eq_dec : EqDecision libbgp_capability_t.
Proof. solve_decision. Defined.

Definition cap_type (cap : libbgp_capability_t) : libbgp_cap_type_t :=
  match cap_data cap with
  | asn_4b _ => LIBBGP_CAP_4B_ASN
  | mp_bgp _ _ => LIBBGP_CAP_MP_BGP
  | unknown _ => LIBBGP_CAP_UNKNOWN
  end.

(** The enumeration has no other value, so the [default] branch of the switch
    is unreachable. *)
Definition capability_type_code (type : libbgp_cap_type_t) : Z :=
  match type with
  | LIBBGP_CAP_4B_ASN => LIBBGP_CAP_CODE_4B_ASN
  | LIBBGP_CAP_MP_BGP => LIBBGP_CAP_CODE_MP_BGP
  | LIBBGP_CAP_UNKNOWN => 0
  end.

(** A zeroed object of the type; [LIBBGP_ERR_NOMEM] stands for the null
    pointer, which every caller in the library turns into that code. *)
Definition libbgp_capability_new (type : libbgp_cap_type_t) : M libbgp_capability_t :=
  let code := capability_type_code type in
  alloc_or_nomem;;
  mret (Capability code
    match type with
    | LIBBGP_CAP_4B_ASN => asn_4b 0
    | LIBBGP_CAP_MP_BGP => mp_bgp 0 0
    | LIBBGP_CAP_UNKNOWN => unknown []
    end).

Definition libbgp_capability_parse (buf : list Z) : M (libbgp_capability_t * Z) :=
  fail_if (zlen buf <? 2) LIBBGP_ERR_BAD_LEN;;
  code ← rd buf 0;
  value_len ← rd buf 1;
  fail_if (zlen buf <? 2 + value_len) LIBBGP_ERR_BAD_LEN;;
  cap ←
    (if code =? LIBBGP_CAP_CODE_4B_ASN then
       fail_if (negb (value_len =? LIBBGP_CAP_KNOWN_VALUE_LEN)) LIBBGP_ERR_BAD_LEN;;
       asn ← rd_be32 buf 2;
       mret (Capability code (asn_4b asn))
     else if code =? LIBBGP_CAP_CODE_MP_BGP then
       fail_if (negb (value_len =? LIBBGP_CAP_KNOWN_VALUE_LEN)) LIBBGP_ERR_BAD_LEN;;
       afi ← rd_be16 buf 2;
       safi ← rd buf (2 + 3);
       mret (Capability code (mp_bgp afi safi))
     else
       copy ←
         (if value_len =? 0 then mret []
          else alloc_or_nomem;; slice buf 2 value_len);
       mret (Capability code (unknown copy)));
  mret (cap, 2 + value_len).

Definition libbgp_capability_write (cap : libbgp_capability_t) (buf : list Z)
    : M (list Z * Z) :=
  match cap_data cap with
  | asn_4b asn =>
      let len := 2 + LIBBGP_CAP_KNOWN_VALUE_LEN in
      fail_if (zlen buf <? len) LIBBGP_ERR_BUFFER;;
      buf ← store buf 0 [LIBBGP_CAP_CODE_4B_ASN];
      buf ← store buf 1 [LIBBGP_CAP_KNOWN_VALUE_LEN];
      buf ← store buf 2 (bgp_put_be32 asn);
      mret (buf, len)
  | mp_bgp afi safi =>
      let len := 2 + LIBBGP_CAP_KNOWN_VALUE_LEN in
      fail_if (zlen buf <? len) LIBBGP_ERR_BUFFER;;
      buf ← store buf 0 [LIBBGP_CAP_CODE_MP_BGP];
      buf ← store buf 1 [LIBBGP_CAP_KNOWN_VALUE_LEN];
      buf ← store buf 2 (bgp_put_be16 afi);
      buf ← store buf 4 [0];
      buf ← store buf 5 [safi];
      mret (buf, len)
  | unknown value =>
      fail_if (255 <? zlen value) LIBBGP_ERR_BAD_LEN;;
      let len := 2 + zlen value in
      fail_if (zlen buf <? len) LIBBGP_ERR_BUFFER;;
      buf ← store buf 0 [cap_code cap];
      buf ← store buf 1 [u8 (zlen value)];
      buf ← (if zlen value =? 0 then mret buf else store buf 2 value);
      mret (buf, len)
  end.

(** ** Specification *)

(** The TLV of a capability. *)
Definition cap_enc (cap : libbgp_capability_t) : list Z :=
  match cap_data cap with
  | asn_4b asn => [LIBBGP_CAP_CODE_4B_ASN; 4] ++ bgp_put_be32 asn
  | mp_bgp afi safi => [LIBBGP_CAP_CODE_MP_BGP; 4] ++ bgp_put_be16 afi ++ [0; safi]
  | unknown value => [cap_code cap; zlen value] ++ value
  end.

(** The fields are in range, and the code is the one the type has. *)
Definition cap_wf (cap : libbgp_capability_t) : Prop :=
  match cap_data cap with
  | asn_4b asn => cap_code cap = LIBBGP_CAP_CODE_4B_ASN ∧ is_u32 asn
  | mp_bgp afi safi => cap_code cap = LIBBGP_CAP_CODE_MP_BGP ∧ is_u16 afi ∧ is_u8 safi
  | unknown value =>
      is_u8 (cap_code cap) ∧
      cap_code cap ≠ LIBBGP_CAP_CODE_4B_ASN ∧ cap_code cap ≠ LIBBGP_CAP_CODE_MP_BGP ∧
      bytes_ok value ∧ zlen value <= 255
  end.

Lemma cap_enc_length cap : cap_wf cap → 2 <= zlen (cap_enc cap) <= 257.
Proof. destruct cap as [code []]; unfold cap_wf, cap_enc; simpl; lia. Qed.

Lemma cap_enc_nonnil cap : cap_enc cap ≠ [].
Proof. by destruct cap as [code []]. Qed.

Lemma cap_enc_ok cap : cap_wf cap → bytes_ok (cap_enc cap).
Proof.
  destruct cap as [code [asn|afi safi|value]]; unfold cap_wf, cap_enc; cbn [cap_code cap_data].
  - intros _. apply Forall_app_2; [by repeat constructor|apply put_be32_ok].
  - intros (_ & _ & Hs). repeat apply Forall_app_2; [by repeat constructor|apply put_be16_ok|].
    by repeat constructor; unfold is_u8 in *; lia.
  - intros (? & _ & _ & ? & ?). apply Forall_app_2; [|done].
    constructor; [done|]. constructor; [unfold is_u8; lia|done].
Qed.

Lemma capability_write_spec cap :
  cap_wf cap → writes (libbgp_capability_write cap) (cap_enc cap).
Proof.
  intros Hwf buf. destruct cap as [code [asn|afi safi|value]];
    unfold libbgp_capability_write, cap_enc, cap_wf, LIBBGP_CAP_KNOWN_VALUE_LEN in *;
    cbn [cap_code cap_data] in *.
  - apply wp_bind, wp_fail_if; intros Hl; [split; [done|]; simpl in *; lia|].
    do 3 wp_put. wp_written.
  - apply wp_bind, wp_fail_if; intros Hl; [split; [done|]; simpl in *; lia|].
    do 5 wp_put. wp_written.
  - destruct Hwf as (_ & _ & _ & _ & Hv).
    apply wp_bind, wp_fail_if; intros; [exfalso; lia|].
    apply wp_bind, wp_fail_if; intros Hl; [split; [done|]; simpl in *; lia|].
    do 2 wp_put. rewrite u8_id by (unfold is_u8; lia).
    apply wp_bind. destruct value as [|b value].
    + apply wp_ret. wp_written.
    + apply wp_if; intros; [simpl in *; exfalso; lia|].
      apply wp_put; [done|solve_len|]. wp_written.
Qed.

Lemma capability_parse_enc cap rest :
  cap_wf cap →
  wp (libbgp_capability_parse (cap_enc cap ++ rest)) (λ r, r = (cap, zlen (cap_enc cap))) no_err.
Proof.
  intros Hwf. pose proof (cap_enc_length cap Hwf) as Hl. unfold libbgp_capability_parse.
  apply wp_bind, wp_fail_if; intros; [exfalso; solve_len|].
  destruct cap as [code [asn|afi safi|value]];
    unfold cap_enc, cap_wf in *; cbn [cap_code cap_data] in *.
  all: apply wp_bind; eapply wp_rd_at; [lia|reflexivity|].
  all: apply wp_bind; eapply wp_rd_at; [lia|reflexivity|].
  all: apply wp_bind, wp_fail_if; intros; [exfalso; solve_len|].
  - destruct Hwf as [-> Hasn]. apply wp_bind. simpl Z.eqb. cbn iota.
    apply wp_bind, wp_fail_if; intros; [done|].
    apply wp_bind. eapply wp_rd_be32_put; [lia|exact Hasn|done|]. apply wp_ret. by apply wp_ret.
  - destruct Hwf as (-> & Hafi & _). apply wp_bind. simpl Z.eqb. cbn iota.
    apply wp_bind, wp_fail_if; intros; [done|].
    apply wp_bind. eapply wp_rd_be16_put; [lia|exact Hafi|done|].
    apply wp_bind. eapply wp_rd_at; [lia|reflexivity|]. apply wp_ret. by apply wp_ret.
  - destruct Hwf as (_ & H65 & H1 & _ & Hv). apply wp_bind.
    replace (code =? LIBBGP_CAP_CODE_4B_ASN) with false by lia.
    replace (code =? LIBBGP_CAP_CODE_MP_BGP) with false by lia.
    apply wp_bind, wp_if; intros Hz.
    + destruct value; [|simpl in Hz; lia]. apply wp_ret, wp_ret. by apply wp_ret.
    + apply wp_bind, wp_alloc_or_nomem.
      rewrite <-(assoc_L (++)). apply wp_slice_app; [done..|].
      apply wp_ret, wp_ret. f_equal. solve_len.
Qed.

(** Whatever the buffer holds, the parser stays inside it, consumes what the
    parsed capability occupies on the wire, and fails with
    [LIBBGP_ERR_BAD_LEN] only. *)
Lemma capability_parse_spec buf :
  bytes_ok buf →
  wp (libbgp_capability_parse buf)
     (λ r, cap_wf r.1 ∧ r.2 = zlen (cap_enc r.1) ∧ 0 < r.2 <= zlen buf)
     (λ e, e = LIBBGP_ERR_BAD_LEN).
Proof.
  intros Hok. unfold libbgp_capability_parse.
  apply wp_bind, wp_fail_if; intros Hl; [done|].
  apply wp_bind, wp_rd; [lia|]. intros code Hc.
  apply wp_bind, wp_rd; [lia|]. intros vl Hvl.
  assert (Hc8 : is_u8 code) by (eapply Forall_lookup_1; eauto).
  assert (Hv8 : is_u8 vl) by (eapply Forall_lookup_1; eauto). unfold is_u8 in Hv8.
  apply wp_bind, wp_fail_if; intros Hfit; [done|].
  apply wp_bind. apply wp_if; intros H4; [|apply wp_if; intros H1].
  - apply wp_bind, wp_fail_if; intros; [done|].
    unfold LIBBGP_CAP_KNOWN_VALUE_LEN in *.
    apply wp_bind, wp_rd_be32; [done|lia..|]. intros asn Hasn.
    apply wp_ret, wp_ret. unfold cap_wf, cap_enc. simpl.
    split; [split; [lia|done]|lia].
  - apply wp_bind, wp_fail_if; intros; [done|].
    unfold LIBBGP_CAP_KNOWN_VALUE_LEN in *.
    apply wp_bind, wp_rd_be16; [done|lia..|]. intros afi Hafi.
    apply wp_bind, wp_rd; [lia|]. intros safi Hsafi.
    apply wp_ret, wp_ret. unfold cap_wf, cap_enc. simpl.
    assert (is_u8 safi) by (eapply Forall_lookup_1; eauto).
    split; [split_and!; [lia|done..]|lia].
  - apply wp_bind. apply (wp_mono _ (λ copy, bytes_ok copy ∧ zlen copy = vl) _ no_err);
      [|intros copy [Hco Hcl]|done].
    + apply wp_if; intros; [apply wp_ret; split; [done|simpl; lia]|].
      apply wp_bind, wp_alloc_or_nomem, wp_slice; [lia..|].
      split; [by apply bytes_ok_slice|apply length_slice; lia].
    + apply wp_ret, wp_ret. unfold cap_wf, cap_enc. simpl.
      split; [split_and!; [done|lia..|done|lia]|lia].
Qed.
