(* ===== verification/Open.v ===== *)
(** * OPEN messages (src/open.c, include/libbgp/open.h)

    Parsing, writing and the capability queries.  The message holds the
    capabilities themselves where the C object holds counted references. *)

From S2P Require Import Prelude Bytes Capability.

Definition LIBBGP_OPEN_FIXED_LEN : Z := 10.
Definition LIBBGP_OPEN_OPT_CAPABILITY : Z := 2.

Record libbgp_open_msg_t : Type := OpenMsg {
  open_version : Z;
  open_my_asn : Z;
  open_hold_time : Z;
  open_bgp_id : Z;
  open_capabilities : list libbgp_capability_t
}.

Definition libbgp_open_init : libbgp_open_msg_t := OpenMsg 0 0 0 0 [].

(** [destroy] releases the capabilities and keeps the scalar fields. *)
Definition libbgp_open_destroy (msg : libbgp_open_msg_t) : libbgp_open_msg_t :=
  OpenMsg (open_version msg) (open_my_asn msg) (open_hold_time msg) (open_bgp_id msg) [].

(** [sizeof(msg->capabilities[0])] is 8, a pointer. *)
Definition libbgp_open_add_capability (msg : libbgp_open_msg_t) (cap : libbgp_capability_t)
    : M libbgp_open_msg_t :=
  fail_if (SIZE_MAX / 8 - 1 <? zlen (open_capabilities msg)) LIBBGP_ERR_BAD_LEN;;
  alloc_or_nomem;;
  mret (OpenMsg (open_version msg) (open_my_asn msg) (open_hold_time msg) (open_bgp_id msg)
          (open_capabilities msg ++ [cap])).

Fixpoint has_4b_asn_from (caps : list libbgp_capability_t) : bool :=
  match caps with
  | [] => false
  | cap :: caps' =>
      match cap_data cap with asn_4b _ => true | _ => has_4b_asn_from caps' end
  end.

Definition libbgp_open_has_4b_asn (msg : libbgp_open_msg_t) : bool :=
  has_4b_asn_from (open_capabilities msg).

Fixpoint get_4b_asn_from (caps : list libbgp_capability_t) (my_asn : Z) : Z :=
  match caps with
  | [] => my_asn
  | cap :: caps' =>
      match cap_data cap with asn_4b asn => asn | _ => get_4b_asn_from caps' my_asn end
  end.

Definition libbgp_open_get_4b_asn (msg : libbgp_open_msg_t) : Z :=
  get_4b_asn_from (open_capabilities msg) (open_my_asn msg).

Definition libbgp_open_has_mpbgp (msg : libbgp_open_msg_t) (afi safi : Z) : bool :=
  existsb (λ cap,
    match cap_data cap with
    | mp_bgp afi' safi' => (afi' =? afi) && (safi' =? safi)
    | _ => false
    end) (open_capabilities msg).

(** One turn of the loop of [open_parse_capabilities] on [buf + pos, len - pos]. *)
Definition open_parse_capability (buf : list Z) (tmp : libbgp_open_msg_t)
    : M (libbgp_open_msg_t * Z) :=
  _ ← libbgp_capability_new LIBBGP_CAP_UNKNOWN;
  '(cap, used) ← libbgp_capability_parse buf;
  tmp ← libbgp_open_add_capability tmp cap;
  fail_if ((used =? 0) || (zlen buf <? used)) LIBBGP_ERR_BAD_LEN;;
  mret (tmp, used).

Definition open_parse_capabilities (tmp : libbgp_open_msg_t) (buf : list Z)
    : M libbgp_open_msg_t :=
  parse_loop open_parse_capability buf tmp.

(** One turn of the loop of [open_parse_optional]. *)
Definition open_parse_param (buf : list Z) (tmp : libbgp_open_msg_t)
    : M (libbgp_open_msg_t * Z) :=
  fail_if (zlen buf <? 2) LIBBGP_ERR_BAD_LEN;;
  param_type ← rd buf 0;
  param_len ← rd buf 1;
  fail_if (zlen buf - 2 <? param_len) LIBBGP_ERR_BAD_LEN;;
  if param_type =? LIBBGP_OPEN_OPT_CAPABILITY then
    caps ← slice buf 2 param_len;
    tmp ← open_parse_capabilities tmp caps;
    mret (tmp, 2 + param_len)
  else err LIBBGP_ERR_BAD_TYPE.

Definition open_parse_optional (tmp : libbgp_open_msg_t) (buf : list Z) : M libbgp_open_msg_t :=
  parse_loop open_parse_param buf tmp.

Definition libbgp_open_parse (buf : list Z) : M (libbgp_open_msg_t * Z) :=
  fail_if (zlen buf <? LIBBGP_OPEN_FIXED_LEN) LIBBGP_ERR_BAD_LEN;;
  opt_len ← rd buf 9;
  fail_if (zlen buf - LIBBGP_OPEN_FIXED_LEN <? opt_len) LIBBGP_ERR_BAD_LEN;;
  version ← rd buf 0;
  my_asn ← rd_be16 buf 1;
  hold_time ← rd_be16 buf 3;
  bgp_id ← rd_be32 buf 5;
  let tmp := OpenMsg version my_asn hold_time bgp_id [] in
  opt ← slice buf LIBBGP_OPEN_FIXED_LEN opt_len;
  tmp ← open_parse_optional tmp opt;
  mret (tmp, LIBBGP_OPEN_FIXED_LEN + opt_len).

(** The measuring pass writes every capability into a 512-byte scratch array. *)
Fixpoint open_capabilities_len (caps : list libbgp_capability_t) (total : Z) : M Z :=
  match caps with
  | [] => mret total
  | cap :: caps' =>
      '(_, one_len) ← libbgp_capability_write cap (replicate 512 0);
      fail_if ((255 <? one_len) || (255 - one_len <? total)) LIBBGP_ERR_BAD_LEN;;
      open_capabilities_len caps' (total + one_len)
  end.

Definition libbgp_open_write (msg : libbgp_open_msg_t) (buf : list Z) : M (list Z * Z) :=
  fail_if (negb (open_version msg =? 4)) LIBBGP_ERR_BAD_LEN;;
  caps_len ← open_capabilities_len (open_capabilities msg) 0;
  fail_if (negb (caps_len =? 0) && (255 <? caps_len)) LIBBGP_ERR_BAD_LEN;;
  let opt_len := if caps_len =? 0 then 0 else 2 + caps_len in
  fail_if (255 <? opt_len) LIBBGP_ERR_BAD_LEN;;
  let total_len := LIBBGP_OPEN_FIXED_LEN + opt_len in
  fail_if (zlen buf <? total_len) LIBBGP_ERR_BUFFER;;
  buf ← store buf 0 [open_version msg];
  buf ← store buf 1 (bgp_put_be16 (open_my_asn msg));
  buf ← store buf 3 (bgp_put_be16 (open_hold_time msg));
  buf ← store buf 5 (bgp_put_be32 (open_bgp_id msg));
  buf ← store buf 9 [u8 opt_len];
  let pos := LIBBGP_OPEN_FIXED_LEN in
  buf ←
    (if caps_len =? 0 then mret buf
     else
       buf ← store buf pos [LIBBGP_OPEN_OPT_CAPABILITY];
       buf ← store buf (pos + 1) [u8 caps_len];
       '(buf, _) ← write_loop libbgp_capability_write (open_capabilities msg) total_len buf (pos + 2);
       mret buf);
  mret (buf, total_len).

(** ** Specification *)

Definition caps_enc (caps : list libbgp_capability_t) : list Z := concat (cap_enc <$> caps).

(** The optional parameters: at most one, holding all capabilities. *)
Definition param_enc (caps : list libbgp_capability_t) : list Z :=
  [LIBBGP_OPEN_OPT_CAPABILITY; zlen (caps_enc caps)] ++ caps_enc caps.

Definition opt_enc (caps : list libbgp_capability_t) : list Z :=
  match caps with [] => [] | _ => param_enc caps end.

Definition open_enc (msg : libbgp_open_msg_t) : list Z :=
  let opt := opt_enc (open_capabilities msg) in
  [open_version msg] ++ bgp_put_be16 (open_my_asn msg) ++ bgp_put_be16 (open_hold_time msg) ++
  bgp_put_be32 (open_bgp_id msg) ++ [zlen opt] ++ opt.

(** The fields are in range and the capabilities fit the one-octet length. *)
Definition open_wf (msg : libbgp_open_msg_t) : Prop :=
  is_u8 (open_version msg) ∧ is_u16 (open_my_asn msg) ∧ is_u16 (open_hold_time msg) ∧
  is_u32 (open_bgp_id msg) ∧ Forall cap_wf (open_capabilities msg) ∧
  zlen (caps_enc (open_capabilities msg)) <= 253.

Lemma caps_enc_app a b : caps_enc (a ++ b) = caps_enc a ++ caps_enc b.
Proof. unfold caps_enc. by rewrite fmap_app, concat_app. Qed.

Lemma caps_enc_cons cap caps : caps_enc (cap :: caps) = cap_enc cap ++ caps_enc caps.
Proof. done. Qed.

Lemma caps_enc_count caps : Forall cap_wf caps → zlen caps <= zlen (caps_enc caps).
Proof.
  induction 1 as [|cap caps Hc _ IH]; [simpl; lia|]. rewrite caps_enc_cons.
  pose proof (cap_enc_length cap Hc). solve_len.
Qed.

Lemma open_capabilities_len_spec caps total :
  Forall cap_wf caps → 0 <= total → total + zlen (caps_enc caps) <= 255 →
  wp (open_capabilities_len caps total) (λ n, n = total + zlen (caps_enc caps)) no_err.
Proof.
  intros Hc. revert total. induction Hc as [|cap caps Hc _ IH]; intros total Ht Hl.
  - apply wp_ret. simpl. lia.
  - rewrite caps_enc_cons, length_app in Hl. pose proof (cap_enc_length cap Hc) as Hcl.
    simpl. apply wp_bind. eapply wp_mono; [by apply capability_write_spec| |].
    + intros [b one] [[= -> ->] _]. apply wp_bind, wp_fail_if; intros; [exfalso; lia|].
      eapply wp_mono; [apply IH; lia| |done]. intros n ->. rewrite caps_enc_cons, length_app. lia.
    + intros e [_ Hlt]. simpl length in Hlt. lia.
Qed.

Lemma caps_enc_nil_iff caps : Forall cap_wf caps → zlen (caps_enc caps) = 0 ↔ caps = [].
Proof.
  intros Hc. pose proof (caps_enc_count caps Hc). split; [|by intros ->].
  destruct caps; [done|]. simpl in *. lia.
Qed.

Lemma open_write_spec msg :
  open_wf msg → open_version msg = 4 → writes (libbgp_open_write msg) (open_enc msg).
Proof.
  intros (_ & Hasn & Hht & Hid & Hcaps & Hfit) Hv buf. unfold libbgp_open_write.
  pose proof (caps_enc_nil_iff _ Hcaps) as Hnil.
  apply wp_bind, wp_fail_if; intros; [exfalso; lia|].
  apply wp_bind. eapply wp_mono; [apply open_capabilities_len_spec; [done|lia..]| |done].
  intros cl ->. rewrite Z.add_0_l.
  apply wp_bind, wp_fail_if; intros; [exfalso; lia|].
  apply wp_bind, wp_fail_if; intros; [exfalso; case_match; lia|].
  unfold open_enc, LIBBGP_OPEN_FIXED_LEN.
  destruct (open_capabilities msg) as [|cap caps] eqn:Hcs.
  - simpl Z.eqb. cbn [opt_enc]. cbn iota. apply wp_bind, wp_fail_if; intros Hl; [split; [done|]; simpl in *; lia|].
    do 5 wp_put. apply wp_bind, wp_ret. wp_written.
  - rewrite <-Hcs in *.
    assert (Ho : opt_enc (open_capabilities msg) = param_enc (open_capabilities msg)) by by rewrite Hcs.
    rewrite Ho. unfold param_enc. assert (zlen (caps_enc (open_capabilities msg)) ≠ 0)
      by (rewrite Hnil, Hcs; done).
    replace (zlen (caps_enc (open_capabilities msg)) =? 0) with false by lia.
    rewrite !u8_id by (unfold is_u8; lia).
    apply wp_bind, wp_fail_if; intros Hl; [split; [done|]; solve_len|].
    do 5 wp_put. apply wp_bind. do 2 wp_put.
    apply wp_bind. eapply wp_mono; [apply (wp_write_loop_put _ cap_enc)| |done].
    + intros c Hc. apply capability_write_spec. by eapply Forall_forall in Hcaps.
    + solve_len.
    + fold (caps_enc (open_capabilities msg)). solve_len.
    + intros r ->. fold (caps_enc (open_capabilities msg)). apply wp_ret.
      assert (Hz : 2 + zlen (caps_enc (open_capabilities msg)) =
        zlen ([LIBBGP_OPEN_OPT_CAPABILITY; zlen (caps_enc (open_capabilities msg))] ++
              caps_enc (open_capabilities msg))) by solve_len.
      rewrite Hz. wp_written.
Qed.

(** Appending the capabilities one by one. *)
Definition open_with (msg : libbgp_open_msg_t) (caps : list libbgp_capability_t) :=
  OpenMsg (open_version msg) (open_my_asn msg) (open_hold_time msg) (open_bgp_id msg) caps.

Definition open_push (msg : libbgp_open_msg_t) (cap : libbgp_capability_t) :=
  open_with msg (open_capabilities msg ++ [cap]).

Lemma foldl_open_push msg caps :
  foldl open_push msg caps = open_with msg (open_capabilities msg ++ caps).
Proof.
  revert msg. induction caps as [|cap caps IH]; intros msg; simpl.
  - rewrite app_nil_r. by destruct msg.
  - rewrite IH. unfold open_push, open_with. simpl. by rewrite <-(assoc_L (++)).
Qed.

Lemma wp_open_add_capability msg cap (Q : libbgp_open_msg_t -> Prop) (E : libbgp_err_t -> Prop) :
  zlen (open_capabilities msg) <= 255 → Q (open_push msg cap) →
  wp (libbgp_open_add_capability msg cap) Q E.
Proof.
  intros Hl HQ. unfold libbgp_open_add_capability.
  apply wp_bind, wp_fail_if; intros Hb; [|by apply wp_bind, wp_alloc_or_nomem, wp_ret].
  exfalso. change (SIZE_MAX / 8 - 1) with 2305843009213693950 in Hb. lia.
Qed.

Lemma open_parse_capabilities_enc msg caps :
  Forall cap_wf caps → zlen (open_capabilities msg ++ caps) <= 255 →
  wp (open_parse_capabilities msg (caps_enc caps)) (λ r, r = foldl open_push msg caps) no_err.
Proof.
  intros Hc Hl. apply wp_parse_loop_enc. intros pre cap post ->.
  split; [apply cap_enc_nonnil|].
  apply Forall_app in Hc as [_ [Hcap _]%Forall_cons].
  unfold open_parse_capability. apply wp_bind, wp_bind, wp_alloc_or_nomem, wp_ret.
  apply wp_bind. eapply wp_mono; [by apply capability_parse_enc| |done].
  intros [c used] [= -> ->].
  apply wp_bind, wp_open_add_capability.
  { rewrite foldl_open_push. simpl. solve_len. }
  pose proof (cap_enc_length cap Hcap).
  apply wp_bind, wp_fail_if; intros; [exfalso; solve_len|]. by apply wp_ret.
Qed.

Lemma open_enc_length msg :
  open_wf msg → 10 <= zlen (open_enc msg) <= 265.
Proof.
  intros (_ & _ & _ & _ & _ & Hfit). unfold open_enc, opt_enc, param_enc.
  destruct (open_capabilities msg); [done|]. solve_len.
Qed.

Lemma open_enc_ok msg : open_wf msg → bytes_ok (open_enc msg).
Proof.
  intros (Hv & Hasn & Hht & Hid & Hcaps & Hfit). unfold open_enc, opt_enc, param_enc.
  assert (Hok : bytes_ok (caps_enc (open_capabilities msg))).
  { unfold caps_enc. apply Forall_concat, Forall_fmap. eapply Forall_impl; [done|].
    apply cap_enc_ok. }
  repeat apply Forall_app_2; auto using put_be16_ok, put_be32_ok.
  - constructor; [|done]. unfold is_u8. destruct (open_capabilities msg); [simpl; lia|solve_len].
  - destruct (open_capabilities msg); [done|]. apply Forall_app_2; [|done].
    constructor; [done|]. constructor; [|done]. unfold is_u8. lia.
Qed.

Lemma open_parse_optional_enc msg caps :
  Forall cap_wf caps → zlen (caps_enc caps) <= 253 →
  wp (open_parse_optional (open_with msg []) (opt_enc caps)) (λ r, r = open_with msg caps) no_err.
Proof.
  intros Hcaps Hfit. pose proof (caps_enc_count _ Hcaps) as Hcnt.
  destruct caps as [|c caps0]; [by apply wp_ret|]. set (caps := c :: caps0) in *.
  replace (opt_enc caps) with (concat (param_enc <$> [caps])) by (simpl; by rewrite app_nil_r).
  eapply wp_mono; [apply (wp_parse_loop_enc param_enc (λ m cs, foldl open_push m cs))| |done].
  - intros pre x post Heq. destruct pre as [|? []]; [|done..]. injection Heq as <- <-.
    split; [done|]. rewrite app_nil_r. unfold open_parse_param.
    assert (Hlen : zlen (param_enc caps) = 2 + zlen (caps_enc caps)) by (unfold param_enc; solve_len).
    apply wp_bind, wp_fail_if; intros; [exfalso; lia|].
    apply wp_bind. eapply wp_rd_at; [lia|reflexivity|].
    apply wp_bind. eapply wp_rd_at; [lia|reflexivity|].
    apply wp_bind, wp_fail_if; intros; [exfalso; lia|]. simpl Z.eqb. cbn iota.
    apply wp_bind, wp_slice_rest; [done..|].
    apply wp_bind. eapply wp_mono; [apply open_parse_capabilities_enc; [done|]| |done].
    + cbn [foldl open_with open_capabilities app]. lia.
    + intros r ->. apply wp_ret. by rewrite Hlen.
  - intros r ->. cbn [foldl]. by rewrite foldl_open_push.
Qed.

(** Reading an encoding back, whatever follows it in the buffer. *)
Lemma open_parse_enc msg rest :
  open_wf msg →
  wp (libbgp_open_parse (open_enc msg ++ rest)) (λ r, r = (msg, zlen (open_enc msg))) no_err.
Proof.
  intros Hwf. pose proof (open_enc_length msg Hwf) as Hl.
  destruct Hwf as (Hv & Hasn & Hht & Hid & Hcaps & Hfit).
  unfold libbgp_open_parse, LIBBGP_OPEN_FIXED_LEN.
  apply wp_bind, wp_fail_if; intros; [exfalso; solve_len|].
  assert (Hopt : zlen (open_enc msg) = 10 + zlen (opt_enc (open_capabilities msg)))
    by (unfold open_enc; solve_len).
  apply wp_bind. eapply wp_rd_at; [lia|reflexivity|].
  apply wp_bind, wp_fail_if; intros; [exfalso; rewrite length_app in *; lia|].
  apply wp_bind. eapply wp_rd_at; [lia|reflexivity|].
  apply wp_bind. eapply wp_rd_be16_put; [lia|exact Hasn|reflexivity|].
  apply wp_bind. eapply wp_rd_be16_put; [lia|exact Hht|reflexivity|].
  apply wp_bind. eapply wp_rd_be32_put; [lia|exact Hid|reflexivity|].
  apply wp_bind. unfold open_enc at 1. rewrite !(assoc_L (++)), <-(assoc_L _ _ _ rest).
  apply wp_slice_app; [done..|].
  apply wp_bind. change (OpenMsg _ _ _ _ []) with (open_with msg []).
  eapply wp_mono; [by apply open_parse_optional_enc| |done].
  intros r ->. apply wp_ret. rewrite Hopt. by destruct msg.
Qed.

(** *** Parsing arbitrary bytes *)

Lemma open_parse_capabilities_spec msg buf :
  bytes_ok buf → zlen (open_capabilities msg) + zlen buf <= 255 →
  wp (open_parse_capabilities msg buf)
     (λ r, ∃ caps, r = open_with msg (open_capabilities msg ++ caps) ∧
        Forall cap_wf caps ∧ zlen (caps_enc caps) = zlen buf)
     (λ e, e = LIBBGP_ERR_BAD_LEN).
Proof.
  intros Hok Hl.
  apply (wp_parse_loop_pos (λ pos r, ∃ caps, r = open_with msg (open_capabilities msg ++ caps) ∧
    Forall cap_wf caps ∧ zlen (caps_enc caps) = pos)).
  - intros i acc Hi (caps & -> & Hc & Hp). pose proof (caps_enc_count _ Hc).
    unfold open_parse_capability. apply wp_bind, wp_bind, wp_alloc_or_nomem, wp_ret.
    apply wp_bind. eapply wp_mono; [by apply capability_parse_spec, Forall_drop| |done].
    intros [cap used]; cbn [fst snd]. intros (Hcap & Hu & Hur). rewrite length_drop in Hur.
    apply wp_bind, wp_open_add_capability; [cbn [open_with open_capabilities]; solve_len|].
    apply wp_bind, wp_fail_if; intros Hb; [rewrite length_drop in Hb; done|].
    apply wp_ret. split; [simpl; lia|]. exists (caps ++ [cap]). split_and!.
    + unfold open_push, open_with. simpl. by rewrite (assoc_L (++)).
    + by apply Forall_app_2; [|constructor].
    + rewrite caps_enc_app, caps_enc_cons. change (caps_enc []) with (@nil Z).
      rewrite app_nil_r, length_app. cbn [snd]. lia.
  - exists []. rewrite app_nil_r. by destruct msg.
Qed.

Lemma open_parse_optional_spec msg buf :
  bytes_ok buf → zlen buf <= 255 →
  wp (open_parse_optional (open_with msg []) buf)
     (λ r, ∃ caps, r = open_with msg caps ∧ Forall cap_wf caps ∧
        zlen (caps_enc caps) <= Z.max 0 (zlen buf - 2))
     (λ e, e = LIBBGP_ERR_BAD_LEN ∨ e = LIBBGP_ERR_BAD_TYPE).
Proof.
  intros Hok Hl.
  apply (wp_parse_loop_pos (λ pos r, ∃ caps, r = open_with msg caps ∧ Forall cap_wf caps ∧
    zlen (caps_enc caps) <= Z.max 0 (pos - 2))).
  - intros i acc Hi (caps & -> & Hc & Hp). pose proof (caps_enc_count _ Hc).
    set (sub := drop _ buf). assert (Hsub : zlen sub = zlen buf - i) by (unfold sub; solve_len).
    assert (Hsok : bytes_ok sub) by by apply Forall_drop.
    unfold open_parse_param. apply wp_bind, wp_fail_if; intros; [auto|].
    apply wp_bind, wp_rd; [lia|]. intros pt Hpt. apply wp_bind, wp_rd; [lia|]. intros pl Hpl.
    assert (Hpl8 : is_u8 pl) by (eapply Forall_lookup_1; eauto). unfold is_u8 in Hpl8.
    apply wp_bind, wp_fail_if; intros; [auto|].
    apply wp_if; intros; [|apply wp_err; auto].
    apply wp_bind, wp_slice; [lia..|]. set (tlvs := take _ _).
    assert (Htl : zlen tlvs = pl) by (apply length_slice; lia).
    apply wp_bind. eapply wp_mono; [apply open_parse_capabilities_spec| |auto].
    + by apply bytes_ok_slice.
    + cbn [open_with open_capabilities]. lia.
    + intros r (caps' & -> & Hc' & Hl'). apply wp_ret. cbn [fst snd]. split; [lia|].
      exists (caps ++ caps'). split; [done|]. split; [by apply Forall_app_2|].
      rewrite caps_enc_app, length_app. lia.
  - exists []. simpl. split_and!; [done..|lia].
Qed.

Lemma open_parse_spec buf :
  bytes_ok buf →
  wp (libbgp_open_parse buf)
     (λ r, open_wf r.1 ∧ 0 < r.2 <= zlen buf)
     (λ e, e = LIBBGP_ERR_BAD_LEN ∨ e = LIBBGP_ERR_BAD_TYPE).
Proof.
  intros Hok. unfold libbgp_open_parse, LIBBGP_OPEN_FIXED_LEN.
  apply wp_bind, wp_fail_if; intros; [auto|].
  apply wp_bind, wp_rd; [lia|]. intros ol Hol.
  assert (Hol8 : is_u8 ol) by (eapply Forall_lookup_1; eauto). unfold is_u8 in Hol8.
  apply wp_bind, wp_fail_if; intros; [auto|].
  apply wp_bind, wp_rd; [lia|]. intros v Hv.
  apply wp_bind, wp_rd_be16; [done|lia..|]. intros asn Hasn.
  apply wp_bind, wp_rd_be16; [done|lia..|]. intros ht Hht.
  apply wp_bind, wp_rd_be32; [done|lia..|]. intros bid Hbid.
  apply wp_bind, wp_slice; [lia..|]. set (opt := take _ _).
  assert (Hopt : zlen opt = ol) by (apply length_slice; lia).
  apply wp_bind. change (OpenMsg _ _ _ _ []) with (open_with (OpenMsg v asn ht bid []) []).
  eapply wp_mono; [apply open_parse_optional_spec; [by apply bytes_ok_slice|lia]| |done].
  intros r (caps & -> & Hc & Hl). apply wp_ret. cbn [fst snd]. split; [|lia].
  unfold open_wf. cbn [open_with open_version open_my_asn open_hold_time open_bgp_id open_capabilities].
  split_and!; try done; [|lia]. eapply Forall_lookup_1; eauto.
Qed.

(** ** Properties *)

(** Every well-formed version-4 OPEN message is written whole into a
    buffer of 265 bytes and the bytes parse back to the same message, whatever
    follows them, with exactly the written length consumed. *)
Theorem open_write_parse_roundtrip msg buf rest :
  open_wf msg → open_version msg = 4 → 265 <= zlen buf →
  ∃ buf' n, libbgp_open_write msg buf [] = (Ret (buf', n), []) ∧
    libbgp_open_parse (take (Z.to_nat n) buf' ++ rest) [] = (Ret (msg, n), []).
Proof.
  intros Hwf Hv Hbuf. pose proof (open_enc_length msg Hwf).
  exists (written buf (open_enc msg)), (zlen (open_enc msg)). split.
  - apply wp_returns. eapply wp_mono; [by apply open_write_spec|tauto|]. intros e [_ ?]. lia.
  - unfold written. rewrite Nat2Z.id, take_app_length. apply wp_returns. by apply open_parse_enc.
Qed.

(** Parsing any bytes as an OPEN message, with any allocator, never
    reads outside the buffer and terminates; an error is
    [LIBBGP_ERR_BAD_LEN], [LIBBGP_ERR_BAD_TYPE] or an allocation failure; and
    an accepted message is well-formed, so that one of version 4 can be
    written again and read back unchanged. *)
Theorem open_parse_accepts_wf buf s :
  bytes_ok buf →
  match (libbgp_open_parse buf s).1 with
  | Ret (msg, n) =>
      open_wf msg ∧ 0 < n <= zlen buf ∧
      (open_version msg = 4 → ∃ buf' n',
         libbgp_open_write msg (replicate 265 0) [] = (Ret (buf', n'), []) ∧
         libbgp_open_parse (take (Z.to_nat n') buf') [] = (Ret (msg, n'), []))
  | Err e => e ∈ [LIBBGP_ERR_BAD_LEN; LIBBGP_ERR_BAD_TYPE; LIBBGP_ERR_NOMEM]
  | Fault _ => False
  end.
Proof.
  intros Hok. destruct (open_parse_spec buf Hok s) as (u & s' & _ & H).
  destruct (libbgp_open_parse buf s) as [[[msg n]|e|f] t]; cbn [fst snd] in *.
  - destruct H as (_ & Hwf & Hn). split; [done|]. split; [done|]. intros Hv.
    pose proof (open_enc_length msg Hwf).
    exists (written (replicate 265 0) (open_enc msg)), (zlen (open_enc msg)). split.
    + apply wp_returns. eapply wp_mono; [by apply open_write_spec|tauto|].
      intros e [_ Hlt]. change (zlen (replicate 265 0)) with 265 in Hlt. lia.
    + unfold written. rewrite Nat2Z.id, take_app_length, <-(app_nil_r (open_enc msg)) at 1.
      apply wp_returns. by apply open_parse_enc.
  - destruct H as [_ [[->| ->]|[-> _]]]; set_solver.
  - done.
Qed.

(** The AS number of the peer: the value of the first 4-octet AS
    capability when there is one, otherwise the 2-octet [my_asn] field (the
    header promises 0 there). *)
Theorem open_get_4b_asn_spec msg :
  (libbgp_open_has_4b_asn msg = false → libbgp_open_get_4b_asn msg = open_my_asn msg) ∧
  ∀ pre cap post asn,
    open_capabilities msg = pre ++ cap :: post → cap_data cap = asn_4b asn →
    has_4b_asn_from pre = false →
    libbgp_open_has_4b_asn msg = true ∧ libbgp_open_get_4b_asn msg = asn.
Proof.
  unfold libbgp_open_has_4b_asn, libbgp_open_get_4b_asn. split.
  - induction (open_capabilities msg) as [|[code []] caps IH]; simpl; auto; done.
  - intros pre cap post asn -> Hcap. induction pre as [|[code []] pre IH]; simpl.
    + by rewrite Hcap.
    + done.
    + apply IH.
    + apply IH.
Qed.

(** ** Witnesses *)

Definition open_example : libbgp_open_msg_t :=
  OpenMsg 4 23456 180 167772161
    [Capability 65 (asn_4b 4200000000); Capability 1 (mp_bgp 2 1); Capability 2 (unknown [])].

Lemma open_example_wf : open_wf open_example.
Proof.
  unfold open_wf, is_u8, is_u16, is_u32, open_example. cbn. split_and!; try lia.
  repeat constructor; simpl; unfold is_u32, is_u16, is_u8; try lia; done.
Qed.

Lemma open_write_parse_roundtrip_witness :
  ∃ buf' n, libbgp_open_write open_example (replicate 300 7) [] = (Ret (buf', n), []) ∧
    libbgp_open_parse (take (Z.to_nat n) buf' ++ [1; 2; 3]) [] = (Ret (open_example, n), []).
Proof.
  apply open_write_parse_roundtrip; [apply open_example_wf|reflexivity|simpl; lia].
Defined.

Lemma open_parse_accepts_wf_witness :
  ∃ msg, (libbgp_open_parse [4; 91; 160; 0; 180; 10; 0; 0; 1; 0] []).1 = Ret (msg, 10) ∧ open_wf msg.
Proof.
  eexists. split; [vm_compute; reflexivity|].
  assert (Hok : bytes_ok [4; 91; 160; 0; 180; 10; 0; 0; 1; 0]) by by repeat constructor.
  exact (proj1 (open_parse_accepts_wf [4; 91; 160; 0; 180; 10; 0; 0; 1; 0] [] Hok)).
Defined.

Lemma open_get_4b_asn_spec_witness : libbgp_open_get_4b_asn open_example = 4200000000.
Proof.
  apply (proj2 (open_get_4b_asn_spec open_example) [] (Capability 65 (asn_4b 4200000000))
    [Capability 1 (mp_bgp 2 1); Capability 2 (unknown [])] 4200000000); reflexivity.
Defined.
