(* ===== verification/Notification.v ===== *)
(** * NOTIFICATION and KEEPALIVE messages (src/notification.c, src/keepalive.c) *)

From S2P Require Import Prelude Bytes.

Record libbgp_notification_msg_t : Type := NotificationMsg {
  ntf_err_code : Z;
  ntf_err_subcode : Z;
  ntf_data : list Z
}.

Definition libbgp_notification_init : libbgp_notification_msg_t := NotificationMsg 0 0 [].

Definition libbgp_notification_destroy (_ : libbgp_notification_msg_t)
    : libbgp_notification_msg_t := NotificationMsg 0 0 [].

Definition libbgp_notification_parse (buf : list Z) : M (libbgp_notification_msg_t * Z) :=
  fail_if (zlen buf <? 2) LIBBGP_ERR_BAD_LEN;;
  let data_len := zlen buf - 2 in
  copy ←
    (if data_len =? 0 then mret []
     else alloc_or_nomem;; slice buf 2 data_len);
  err_code ← rd buf 0;
  err_subcode ← rd buf 1;
  mret (NotificationMsg err_code err_subcode copy, zlen buf).

Definition libbgp_notification_write (msg : libbgp_notification_msg_t) (buf : list Z)
    : M (list Z * Z) :=
  fail_if (SIZE_MAX - 2 <? zlen (ntf_data msg)) LIBBGP_ERR_BAD_LEN;;
  let len := 2 + zlen (ntf_data msg) in
  fail_if (zlen buf <? len) LIBBGP_ERR_BUFFER;;
  buf ← store buf 0 [ntf_err_code msg];
  buf ← store buf 1 [ntf_err_subcode msg];
  buf ← (if zlen (ntf_data msg) =? 0 then mret buf else store buf 2 (ntf_data msg));
  mret (buf, len).

Definition libbgp_keepalive_parse (buf : list Z) : M Z :=
  fail_if (negb (zlen buf =? 0)) LIBBGP_ERR_BAD_LEN;;
  mret 0.

Definition libbgp_keepalive_write (buf : list Z) : M (list Z * Z) := mret (buf, 0).

(** ** Specification *)

Definition ntf_enc (msg : libbgp_notification_msg_t) : list Z :=
  [ntf_err_code msg; ntf_err_subcode msg] ++ ntf_data msg.

(** The fields are in range; the data is an object of the address space. *)
Definition ntf_wf (msg : libbgp_notification_msg_t) : Prop :=
  is_u8 (ntf_err_code msg) ∧ is_u8 (ntf_err_subcode msg) ∧ bytes_ok (ntf_data msg) ∧
  zlen (ntf_data msg) <= SIZE_MAX - 2.

Lemma ntf_enc_ok msg : ntf_wf msg → bytes_ok (ntf_enc msg).
Proof. intros (? & ? & ? & _). unfold ntf_enc. simpl. eauto using Forall_cons_2. Qed.

Lemma notification_write_spec msg : ntf_wf msg → writes (libbgp_notification_write msg) (ntf_enc msg).
Proof.
  intros (_ & _ & _ & Hl) buf. unfold libbgp_notification_write, ntf_enc.
  apply wp_bind, wp_fail_if; intros; [exfalso; lia|].
  apply wp_bind, wp_fail_if; intros; [split; [done|]; simpl in *; lia|].
  do 2 wp_put. apply wp_bind. destruct (ntf_data msg) as [|b data].
  - apply wp_ret. wp_written.
  - apply wp_if; intros; [simpl in *; exfalso; lia|].
    apply wp_put; [done|solve_len|]. wp_written.
Qed.

Lemma notification_parse_enc msg :
  wp (libbgp_notification_parse (ntf_enc msg)) (λ r, r = (msg, zlen (ntf_enc msg))) no_err.
Proof.
  unfold libbgp_notification_parse. apply wp_bind, wp_fail_if; intros; [exfalso; simpl in *; lia|].
  apply wp_bind. apply (wp_mono _ (λ c, c = ntf_data msg) _ no_err); [|intros c ->|done].
  - apply wp_if; intros Hz.
    + apply wp_ret. unfold ntf_enc in Hz. destruct (ntf_data msg); [done|]. simpl in Hz. lia.
    + apply wp_bind, wp_alloc_or_nomem, wp_slice_rest; [done|simpl; lia|done].
  - apply wp_bind. eapply wp_rd_at; [lia|reflexivity|].
    apply wp_bind. eapply wp_rd_at; [lia|reflexivity|]. apply wp_ret. by destruct msg.
Qed.

(** Every byte string of two or more bytes is a notification, and its only
    one. *)
Lemma notification_parse_spec buf :
  bytes_ok buf → zlen buf <= SIZE_MAX →
  wp (libbgp_notification_parse buf)
     (λ r, ntf_wf r.1 ∧ ntf_enc r.1 = buf ∧ r.2 = zlen buf)
     (λ e, e = LIBBGP_ERR_BAD_LEN ∧ zlen buf < 2).
Proof.
  intros Hok Hmax. destruct buf as [|c [|sc data]].
  1, 2: unfold libbgp_notification_parse; apply wp_bind, wp_fail_if; intros;
    [split; [done|simpl; lia]|simpl in *; lia].
  rewrite !Forall_cons in Hok. destruct Hok as (? & ? & ?).
  eapply wp_mono; [apply (notification_parse_enc (NotificationMsg c sc data))| |done].
  intros r ->. split; [|done]. split_and!; try done. simpl in *. lia.
Qed.
