(* ===== verification/Pattr.v ===== *)
(** * Path attributes (src/pattr.c, include/libbgp/pattr.h)

    The tag and the union of the C object are one inductive type with a
    constructor per [libbgp_pattr_type_t]; the flags and the wire type code
    are kept beside it as in the C object.  The reference count and the
    registry of AS_PATH blocks, which only decide what is freed, are not part
    of the value; they are in [PattrHeap]. *)

From S2P Require Import Prelude Bytes Prefix6.

Definition LIBBGP_PATTR_FLAG_OPTIONAL : Z := 0x80.
Definition LIBBGP_PATTR_FLAG_TRANSITIVE : Z := 0x40.
Definition LIBBGP_PATTR_FLAG_PARTIAL : Z := 0x20.
Definition LIBBGP_PATTR_FLAG_EXTENDED_LENGTH : Z := 0x10.

Definition LIBBGP_AFI_IPV6 : Z := 2.
Definition LIBBGP_SAFI_UNICAST : Z := 1.

Inductive libbgp_pattr_type_t : Type :=
  | LIBBGP_PATTR_ORIGIN
  | LIBBGP_PATTR_AS_PATH
  | LIBBGP_PATTR_NEXT_HOP
  | LIBBGP_PATTR_MED
  | LIBBGP_PATTR_LOCAL_PREF
  | LIBBGP_PATTR_ATOMIC_AGGREGATE
  | LIBBGP_PATTR_AGGREGATOR
  | LIBBGP_PATTR_COMMUNITY
  | LIBBGP_PATTR_AS4_PATH
  | LIBBGP_PATTR_AS4_AGGREGATOR
  | LIBBGP_PATTR_MP_REACH_IPV6
  | LIBBGP_PATTR_MP_UNREACH_IPV6
  | LIBBGP_PATTR_UNKNOWN.

#[export] Instance libbgp_pattr_type_eq_dec : EqDecision libbgp_pattr_type_t.
Proof. solve_decision. Defined.

Record libbgp_as_path_segment_t : Type := Segment { seg_type : Z; seg_asns : list Z }.

Inductive libbgp_pattr_data : Type :=
  | d_origin (origin : Z)
  | d_as_path (segments : list libbgp_as_path_segment_t) (is_4b : bool)
  | d_next_hop (next_hop : Z)
  | d_med (value : Z)
  | d_local_pref (value : Z)
  | d_atomic_aggregate
  | d_aggregator (asn router_id : Z) (is_4b : bool)
  | d_community (values : list Z)
  | d_as4_path (segments : list libbgp_as_path_segment_t) (is_4b : bool)
  | d_as4_aggregator (asn router_id : Z) (is_4b : bool)
  | d_mp_reach_ipv6 (nexthop : list Z) (nexthop_len : Z) (nlri : list libbgp_prefix6_t)
  | d_mp_unreach_ipv6 (withdrawn : list libbgp_prefix6_t)
  | d_unknown (value : list Z).

Record libbgp_pattr_t : Type := Pattr {
  pa_flags : Z;
  pa_type_code : Z;
  pa_data : libbgp_pattr_data
}.

#[export] Instance libbgp_as_path_segment_eq_dec : EqDecision libbgp_as_path_segment_t.
Proof. solve_decision. Defined.
#[export] Instance libbgp_pattr_data_eq_dec : EqDecision libbgp_pattr_data.
Proof. solve_decision. Defined.
#[export] Instance libbgp_pattr_eq_dec : EqDecision libbgp_pattr_t.
Proof. solve_decision. Defined.

Definition pa_type (attr : libbgp_pattr_t) : libbgp_pattr_type_t :=
  match pa_data attr with
  | d_origin _ => LIBBGP_PATTR_ORIGIN
  | d_as_path _ _ => LIBBGP_PATTR_AS_PATH
  | d_next_hop _ => LIBBGP_PATTR_NEXT_HOP
  | d_med _ => LIBBGP_PATTR_MED
  | d_local_pref _ => LIBBGP_PATTR_LOCAL_PREF
  | d_atomic_aggregate => LIBBGP_PATTR_ATOMIC_AGGREGATE
  | d_aggregator _ _ _ => LIBBGP_PATTR_AGGREGATOR
  | d_community _ => LIBBGP_PATTR_COMMUNITY
  | d_as4_path _ _ => LIBBGP_PATTR_AS4_PATH
  | d_as4_aggregator _ _ _ => LIBBGP_PATTR_AS4_AGGREGATOR
  | d_mp_reach_ipv6 _ _ _ => LIBBGP_PATTR_MP_REACH_IPV6
  | d_mp_unreach_ipv6 _ => LIBBGP_PATTR_MP_UNREACH_IPV6
  | d_unknown _ => LIBBGP_PATTR_UNKNOWN
  end.

Definition pattr_type_from_code (code : Z) : libbgp_pattr_type_t :=
  if code =? 1 then LIBBGP_PATTR_ORIGIN
  else if code =? 2 then LIBBGP_PATTR_AS_PATH
  else if code =? 3 then LIBBGP_PATTR_NEXT_HOP
  else if code =? 4 then LIBBGP_PATTR_MED
  else if code =? 5 then LIBBGP_PATTR_LOCAL_PREF
  else if code =? 6 then LIBBGP_PATTR_ATOMIC_AGGREGATE
  else if code =? 7 then LIBBGP_PATTR_AGGREGATOR
  else if code =? 8 then LIBBGP_PATTR_COMMUNITY
  else if code =? 17 then LIBBGP_PATTR_AS4_PATH
  else if code =? 18 then LIBBGP_PATTR_AS4_AGGREGATOR
  else if code =? 14 then LIBBGP_PATTR_MP_REACH_IPV6
  else if code =? 15 then LIBBGP_PATTR_MP_UNREACH_IPV6
  else LIBBGP_PATTR_UNKNOWN.

Definition pattr_default_flags (type : libbgp_pattr_type_t) : Z :=
  match type with
  | LIBBGP_PATTR_ORIGIN | LIBBGP_PATTR_AS_PATH | LIBBGP_PATTR_NEXT_HOP
  | LIBBGP_PATTR_LOCAL_PREF | LIBBGP_PATTR_ATOMIC_AGGREGATE =>
      LIBBGP_PATTR_FLAG_TRANSITIVE
  | LIBBGP_PATTR_MED | LIBBGP_PATTR_MP_REACH_IPV6 | LIBBGP_PATTR_MP_UNREACH_IPV6 =>
      LIBBGP_PATTR_FLAG_OPTIONAL
  | LIBBGP_PATTR_AGGREGATOR | LIBBGP_PATTR_COMMUNITY
  | LIBBGP_PATTR_AS4_PATH | LIBBGP_PATTR_AS4_AGGREGATOR =>
      Z.lor LIBBGP_PATTR_FLAG_OPTIONAL LIBBGP_PATTR_FLAG_TRANSITIVE
  | LIBBGP_PATTR_UNKNOWN => 0
  end.

Definition pattr_default_type_code (type : libbgp_pattr_type_t) : Z :=
  match type with
  | LIBBGP_PATTR_ORIGIN => 1
  | LIBBGP_PATTR_AS_PATH => 2
  | LIBBGP_PATTR_NEXT_HOP => 3
  | LIBBGP_PATTR_MED => 4
  | LIBBGP_PATTR_LOCAL_PREF => 5
  | LIBBGP_PATTR_ATOMIC_AGGREGATE => 6
  | LIBBGP_PATTR_AGGREGATOR => 7
  | LIBBGP_PATTR_COMMUNITY => 8
  | LIBBGP_PATTR_AS4_PATH => 17
  | LIBBGP_PATTR_AS4_AGGREGATOR => 18
  | LIBBGP_PATTR_MP_REACH_IPV6 => 14
  | LIBBGP_PATTR_MP_UNREACH_IPV6 => 15
  | LIBBGP_PATTR_UNKNOWN => 0
  end.

(** The zeroed object of a type, with its default flags and code. *)
Definition pattr_zero_data (type : libbgp_pattr_type_t) : libbgp_pattr_data :=
  match type with
  | LIBBGP_PATTR_ORIGIN => d_origin 0
  | LIBBGP_PATTR_AS_PATH => d_as_path [] false
  | LIBBGP_PATTR_NEXT_HOP => d_next_hop 0
  | LIBBGP_PATTR_MED => d_med 0
  | LIBBGP_PATTR_LOCAL_PREF => d_local_pref 0
  | LIBBGP_PATTR_ATOMIC_AGGREGATE => d_atomic_aggregate
  | LIBBGP_PATTR_AGGREGATOR => d_aggregator 0 0 false
  | LIBBGP_PATTR_COMMUNITY => d_community []
  | LIBBGP_PATTR_AS4_PATH => d_as4_path [] true
  | LIBBGP_PATTR_AS4_AGGREGATOR => d_as4_aggregator 0 0 true
  | LIBBGP_PATTR_MP_REACH_IPV6 => d_mp_reach_ipv6 (replicate 32 0) 0 []
  | LIBBGP_PATTR_MP_UNREACH_IPV6 => d_mp_unreach_ipv6 []
  | LIBBGP_PATTR_UNKNOWN => d_unknown []
  end.

Definition pattr_set_defaults (type : libbgp_pattr_type_t) : libbgp_pattr_t :=
  Pattr (pattr_default_flags type) (pattr_default_type_code type) (pattr_zero_data type).

Definition libbgp_pattr_new (type : libbgp_pattr_type_t) : M libbgp_pattr_t :=
  alloc_or_nomem;; mret (pattr_set_defaults type).

Definition pattr_known_flags_valid (type : libbgp_pattr_type_t) (flags : Z) : bool :=
  let allowed :=
    Z.lor (Z.lor (Z.lor LIBBGP_PATTR_FLAG_OPTIONAL LIBBGP_PATTR_FLAG_TRANSITIVE)
                 LIBBGP_PATTR_FLAG_PARTIAL) LIBBGP_PATTR_FLAG_EXTENDED_LENGTH in
  let base := Z.land flags
    (u8 (Z.lnot (Z.lor LIBBGP_PATTR_FLAG_EXTENDED_LENGTH LIBBGP_PATTR_FLAG_PARTIAL))) in
  if negb (Z.land flags (u8 (Z.lnot allowed)) =? 0) then false
  else if decide (type = LIBBGP_PATTR_UNKNOWN) then
    if Z.land flags LIBBGP_PATTR_FLAG_OPTIONAL =? 0 then false
    else if negb (Z.land flags LIBBGP_PATTR_FLAG_PARTIAL =? 0) &&
            (Z.land flags LIBBGP_PATTR_FLAG_TRANSITIVE =? 0) then false
    else true
  else
    let defaults := pattr_default_flags type in
    let both := Z.lor LIBBGP_PATTR_FLAG_OPTIONAL LIBBGP_PATTR_FLAG_TRANSITIVE in
    if negb (base =? defaults) then false
    else if negb (Z.land flags LIBBGP_PATTR_FLAG_PARTIAL =? 0) &&
            negb (Z.land defaults both =? both) then false
    else true.

Definition libbgp_pattr_type_from_buf (buf : list Z) : M libbgp_pattr_type_t :=
  if zlen buf <? 3 then mret LIBBGP_PATTR_UNKNOWN
  else
    flags ← rd buf 0;
    if negb (Z.land flags LIBBGP_PATTR_FLAG_EXTENDED_LENGTH =? 0) && (zlen buf <? 4)
    then mret LIBBGP_PATTR_UNKNOWN
    else code ← rd buf 1; mret (pattr_type_from_code code).

(** ** Parsing *)

(** The block that holds the segments of an AS_PATH and, behind them, all
    their AS numbers.  A segment is 24 bytes, aligned at 8; the block header
    is 24 bytes; an AS number is 4 bytes, aligned at 4. *)
Definition pattr_align_offset (offset align : Z) : option Z :=
  if align =? 0 then None
  else
    let rem := offset mod align in
    if rem =? 0 then Some offset
    else
      let padding := align - rem in
      if SIZE_MAX - padding <? offset then None else Some (offset + padding).

Definition SIZEOF_BLOCK : Z := 24.
Definition SIZEOF_SEGMENT : Z := 24.
Definition SIZEOF_ASN : Z := 4.

Definition pattr_as_path_block_layout (segment_count asn_count : Z) : option (Z * Z * Z) :=
  if (SIZE_MAX / SIZEOF_SEGMENT <? segment_count) || (SIZE_MAX / SIZEOF_ASN <? asn_count) then None
  else
    let seg_bytes := segment_count * SIZEOF_SEGMENT in
    let asn_bytes := asn_count * SIZEOF_ASN in
    match pattr_align_offset SIZEOF_BLOCK 8 with
    | None => None
    | Some segments_offset =>
        if SIZE_MAX - seg_bytes <? segments_offset then None
        else
          match pattr_align_offset (segments_offset + seg_bytes) 4 with
          | None => None
          | Some asn_offset =>
              if SIZE_MAX - asn_bytes <? asn_offset then None
              else Some (segments_offset, asn_offset, asn_offset + asn_bytes)
          end
    end.

(** The counting pass, one segment at [value + pos]; the accumulator is
    [(segment_count, total_asns)]. *)
Definition count_segment (asn_size : Z) (value : list Z) (acc : Z * Z) : M ((Z * Z) * Z) :=
  let '(segment_count, total_asns) := acc in
  fail_if (zlen value <? 2) LIBBGP_ERR_BAD_LEN;;
  type ← rd value 0;
  fail_if ((type <? 1) || (2 <? type)) LIBBGP_ERR_INVALID;;
  count ← rd value 1;
  fail_if (count =? 0) LIBBGP_ERR_BAD_LEN;;
  fail_if ((SIZE_MAX - 2) / asn_size <? count) LIBBGP_ERR_BAD_LEN;;
  let bytes := 2 + count * asn_size in
  fail_if (zlen value <? bytes) LIBBGP_ERR_BAD_LEN;;
  fail_if (SIZE_MAX - count <? total_asns) LIBBGP_ERR_BAD_LEN;;
  mret ((segment_count + 1, total_asns + count), bytes).

(** [for (j = 0; j < count; j++) { asns[j] = bgp_get_be..(value + pos); pos += asn_size; }] *)
Fixpoint read_asns (is_4b : bool) (value : list Z) (pos : Z) (count : nat) : M (list Z * Z) :=
  match count with
  | O => mret ([], pos)
  | S count' =>
      asn ← (if is_4b then rd_be32 value pos else rd_be16 value pos);
      '(asns, pos) ← read_asns is_4b value (pos + (if is_4b then 4 else 2)) count';
      mret (asn :: asns, pos)
  end.

(** The filling pass.  [room] is what is left of the block's AS numbers:
    writing more would leave the block. *)
Fixpoint read_segments (is_4b : bool) (value : list Z) (pos room : Z) (segment_count : nat)
    : M (list libbgp_as_path_segment_t) :=
  match segment_count with
  | O => mret []
  | S n =>
      type ← rd value pos;
      count ← rd value (pos + 1);
      if room <? count then stuck OutOfBounds
      else
        '(asns, pos) ← read_asns is_4b value (pos + 2) (Z.to_nat count);
        segs ← read_segments is_4b value pos (room - count) n;
        mret (Segment type asns :: segs)
  end.

Definition parse_as_path (value : list Z) (is_4b : bool) : M (list libbgp_as_path_segment_t) :=
  let asn_size := if is_4b then 4 else 2 in
  '(segment_count, total_asns) ← parse_loop (count_segment asn_size) value (0, 0);
  if segment_count =? 0 then mret []
  else
    match pattr_as_path_block_layout segment_count total_asns with
    | None => err LIBBGP_ERR_BAD_LEN
    | Some _ =>
        alloc_or_nomem;;
        read_segments is_4b value 0 total_asns (Z.to_nat segment_count)
    end.

Definition parse_unknown (value : list Z) : M libbgp_pattr_data :=
  if zlen value =? 0 then mret (d_unknown [])
  else alloc_or_nomem;; mret (d_unknown value).

Fixpoint read_u32s (value : list Z) (i : Z) (count : nat) : M (list Z) :=
  match count with
  | O => mret []
  | S count' =>
      v ← rd_be32 value (i * 4);
      vs ← read_u32s value (i + 1) count';
      mret (v :: vs)
  end.

Definition parse_community (value : list Z) : M libbgp_pattr_data :=
  fail_if (negb (zlen value mod 4 =? 0)) LIBBGP_ERR_BAD_LEN;;
  let count := zlen value / 4 in
  if count =? 0 then mret (d_community [])
  else
    alloc_or_nomem;;
    vs ← read_u32s value 0 (Z.to_nat count);
    mret (d_community vs).

Definition SIZEOF_PREFIX6 : Z := 17.

(** One prefix of an NLRI list kept in an array that doubles its capacity. *)
Definition parse_prefix6_step (value : list Z) (acc : list libbgp_prefix6_t * Z)
    : M ((list libbgp_prefix6_t * Z) * Z) :=
  let '(ps, cap) := acc in
  '(p, consumed) ← libbgp_prefix6_parse value;
  fail_if ((consumed =? 0) || (zlen value <? consumed)) LIBBGP_ERR_BAD_LEN;;
  cap ← array_grow (zlen ps) cap SIZEOF_PREFIX6;
  mret ((ps ++ [p], cap), consumed).

Definition parse_mp_unreach_ipv6 (value : list Z) : M libbgp_pattr_data :=
  fail_if (zlen value <? 3) LIBBGP_ERR_BAD_LEN;;
  afi ← rd_be16 value 0;
  safi ← rd value 2;
  if negb (afi =? LIBBGP_AFI_IPV6) || negb (safi =? LIBBGP_SAFI_UNICAST) then parse_unknown value
  else
    rest ← slice value 3 (zlen value - 3);
    '(withdrawn, _) ← parse_loop parse_prefix6_step rest ([], 0);
    mret (d_mp_unreach_ipv6 withdrawn).

Definition parse_mp_reach_ipv6 (value : list Z) : M libbgp_pattr_data :=
  fail_if (zlen value <? 5) LIBBGP_ERR_BAD_LEN;;
  afi ← rd_be16 value 0;
  safi ← rd value 2;
  if negb (afi =? LIBBGP_AFI_IPV6) || negb (safi =? LIBBGP_SAFI_UNICAST) then parse_unknown value
  else
    nhl ← rd value 3;
    fail_if (negb (nhl =? 16) && negb (nhl =? 32)) LIBBGP_ERR_INVALID;;
    fail_if (zlen value <? 5 + nhl) LIBBGP_ERR_BAD_LEN;;
    nh ← slice value 4 nhl;
    nexthop ← store (replicate 32 0) 0 nh;
    reserved ← rd value (4 + nhl);
    fail_if (negb (reserved =? 0)) LIBBGP_ERR_INVALID;;
    rest ← slice value (5 + nhl) (zlen value - (5 + nhl));
    '(nlri, _) ← parse_loop parse_prefix6_step rest ([], 0);
    mret (d_mp_reach_ipv6 nexthop nhl nlri).

Section Pattr.
Context {host : Host}.

(** The switch of [libbgp_pattr_parse_as4]. *)
Definition parse_value (type : libbgp_pattr_type_t) (value : list Z) (use_4b_asn : bool)
    : M libbgp_pattr_data :=
  let value_len := zlen value in
  match type with
  | LIBBGP_PATTR_ORIGIN =>
      fail_if (negb (value_len =? 1)) LIBBGP_ERR_BAD_LEN;;
      v ← rd value 0;
      fail_if (2 <? v) LIBBGP_ERR_INVALID;;
      mret (d_origin v)
  | LIBBGP_PATTR_AS_PATH =>
      segs ← parse_as_path value use_4b_asn; mret (d_as_path segs use_4b_asn)
  | LIBBGP_PATTR_NEXT_HOP =>
      fail_if (negb (value_len =? 4)) LIBBGP_ERR_BAD_LEN;;
      bs ← slice value 0 4;
      mret (d_next_hop (u32_of_mem bs))
  | LIBBGP_PATTR_MED =>
      fail_if (negb (value_len =? 4)) LIBBGP_ERR_BAD_LEN;;
      v ← rd_be32 value 0; mret (d_med v)
  | LIBBGP_PATTR_LOCAL_PREF =>
      fail_if (negb (value_len =? 4)) LIBBGP_ERR_BAD_LEN;;
      v ← rd_be32 value 0; mret (d_local_pref v)
  | LIBBGP_PATTR_ATOMIC_AGGREGATE =>
      fail_if (negb (value_len =? 0)) LIBBGP_ERR_BAD_LEN;;
      mret d_atomic_aggregate
  | LIBBGP_PATTR_AGGREGATOR =>
      fail_if (negb (value_len =? (if use_4b_asn then 8 else 6))) LIBBGP_ERR_BAD_LEN;;
      if use_4b_asn then
        asn ← rd_be32 value 0; rid ← rd_be32 value 4; mret (d_aggregator asn rid true)
      else
        asn ← rd_be16 value 0; rid ← rd_be32 value 2; mret (d_aggregator asn rid false)
  | LIBBGP_PATTR_COMMUNITY => parse_community value
  | LIBBGP_PATTR_AS4_PATH =>
      segs ← parse_as_path value true; mret (d_as4_path segs true)
  | LIBBGP_PATTR_AS4_AGGREGATOR =>
      fail_if (negb (value_len =? 8)) LIBBGP_ERR_BAD_LEN;;
      asn ← rd_be32 value 0; rid ← rd_be32 value 4; mret (d_as4_aggregator asn rid true)
  | LIBBGP_PATTR_MP_REACH_IPV6 => parse_mp_reach_ipv6 value
  | LIBBGP_PATTR_MP_UNREACH_IPV6 => parse_mp_unreach_ipv6 value
  | LIBBGP_PATTR_UNKNOWN => parse_unknown value
  end.

Definition libbgp_pattr_parse_as4 (buf : list Z) (use_4b_asn : bool) : M (libbgp_pattr_t * Z) :=
  fail_if (zlen buf <? 3) LIBBGP_ERR_BAD_LEN;;
  flags ← rd buf 0;
  code ← rd buf 1;
  '(header_len, value_len) ←
    (if negb (Z.land flags LIBBGP_PATTR_FLAG_EXTENDED_LENGTH =? 0) then
       fail_if (zlen buf <? 4) LIBBGP_ERR_BAD_LEN;;
       vl ← rd_be16 buf 2; mret (4, vl)
     else vl ← rd buf 2; mret (3, vl));
  fail_if (zlen buf - header_len <? value_len) LIBBGP_ERR_BAD_LEN;;
  let type := pattr_type_from_code code in
  fail_if (negb (pattr_known_flags_valid type flags)) LIBBGP_ERR_INVALID;;
  value ← slice buf header_len value_len;
  data ← parse_value type value use_4b_asn;
  mret (Pattr flags code data, header_len + value_len).

Definition libbgp_pattr_parse (buf : list Z) : M (libbgp_pattr_t * Z) :=
  libbgp_pattr_parse_as4 buf false.
End Pattr.

(** [|=] of the partial bit on a forwarded unknown transitive attribute. *)
Definition libbgp_pattr_prepare_for_ebgp_forward (attr : libbgp_pattr_t) : libbgp_pattr_t :=
  if bool_decide (pa_type attr = LIBBGP_PATTR_UNKNOWN) &&
     negb (Z.land (pa_flags attr) LIBBGP_PATTR_FLAG_OPTIONAL =? 0) &&
     negb (Z.land (pa_flags attr) LIBBGP_PATTR_FLAG_TRANSITIVE =? 0)
  then Pattr (Z.lor (pa_flags attr) LIBBGP_PATTR_FLAG_PARTIAL) (pa_type_code attr) (pa_data attr)
  else attr.

(** ** Writing *)

Definition add_size (acc add : Z) : M Z :=
  fail_if (SIZE_MAX - add <? acc) LIBBGP_ERR_BAD_LEN;;
  mret (acc + add).

Fixpoint segments_value_len (is_4b : bool) (segs : list libbgp_as_path_segment_t) (len : Z) : M Z :=
  match segs with
  | [] => mret len
  | seg :: segs' =>
      let asn_size := if is_4b then 4 else 2 in
      let count := zlen (seg_asns seg) in
      fail_if ((seg_type seg <? 1) || (2 <? seg_type seg) || (255 <? count)) LIBBGP_ERR_BAD_LEN;;
      fail_if ((SIZE_MAX - 2) / asn_size <? count) LIBBGP_ERR_BAD_LEN;;
      len ← add_size len (2 + count * asn_size);
      segments_value_len is_4b segs' len
  end.

Fixpoint prefixes6_value_len (ps : list libbgp_prefix6_t) (len : Z) : M Z :=
  match ps with
  | [] => mret len
  | p :: ps' =>
      let prefix_len := 1 + (p6_len p + 7) / 8 in
      fail_if (128 <? p6_len p) LIBBGP_ERR_BAD_LEN;;
      len ← add_size len prefix_len;
      prefixes6_value_len ps' len
  end.

Definition pattr_value_len (attr : libbgp_pattr_t) : M Z :=
  let type := pa_type attr in
  fail_if (negb (bool_decide (type = LIBBGP_PATTR_UNKNOWN)) &&
           negb (pa_type_code attr =? pattr_default_type_code type)) LIBBGP_ERR_BAD_LEN;;
  fail_if (negb (pattr_known_flags_valid type (pa_flags attr))) LIBBGP_ERR_BAD_LEN;;
  len ←
    match pa_data attr with
    | d_origin _ => mret 1
    | d_as_path segs is_4b => segments_value_len is_4b segs 0
    | d_as4_path segs is_4b =>
        fail_if (negb is_4b) LIBBGP_ERR_BAD_LEN;; segments_value_len is_4b segs 0
    | d_next_hop _ | d_med _ | d_local_pref _ => mret 4
    | d_atomic_aggregate => mret 0
    | d_aggregator asn _ is_4b =>
        fail_if (negb is_4b && (65535 <? asn)) LIBBGP_ERR_BAD_LEN;;
        mret (if (is_4b : bool) then 8 else 6)
    | d_community values =>
        fail_if (SIZE_MAX / 4 <? zlen values) LIBBGP_ERR_BAD_LEN;;
        mret (zlen values * 4)
    | d_as4_aggregator _ _ _ => mret 8
    | d_mp_reach_ipv6 _ nhl nlri =>
        fail_if (negb (nhl =? 16) && negb (nhl =? 32)) LIBBGP_ERR_BAD_LEN;;
        prefixes6_value_len nlri (5 + nhl)
    | d_mp_unreach_ipv6 withdrawn => prefixes6_value_len withdrawn 3
    | d_unknown value =>
        fail_if (65535 <? zlen value) LIBBGP_ERR_BAD_LEN;;
        mret (zlen value)
    end;
  fail_if (65535 <? len) LIBBGP_ERR_BAD_LEN;;
  mret len.

Definition write_header (attr : libbgp_pattr_t) (buf : list Z) (value_len : Z) (extended : bool)
    : M (list Z) :=
  let flags := Z.land (pa_flags attr) (u8 (Z.lnot LIBBGP_PATTR_FLAG_EXTENDED_LENGTH)) in
  let flags := if extended then u8 (Z.lor flags LIBBGP_PATTR_FLAG_EXTENDED_LENGTH) else flags in
  buf ← store buf 0 [flags];
  buf ← store buf 1 [pa_type_code attr];
  if extended then store buf 2 (bgp_put_be16 (u16 value_len))
  else store buf 2 [u8 value_len].

(** [for (...) { put(buf + pos, x); pos += size; }] *)
Fixpoint put_loop {A} (enc : A -> list Z) (xs : list A) (buf : list Z) (pos : Z)
    : M (list Z * Z) :=
  match xs with
  | [] => mret (buf, pos)
  | x :: xs' =>
      buf ← store buf pos (enc x);
      put_loop enc xs' buf (pos + zlen (enc x))
  end.

Definition put_asn (is_4b : bool) (asn : Z) : list Z :=
  if is_4b then bgp_put_be32 asn else bgp_put_be16 (u16 asn).

Fixpoint write_as_path_value (is_4b : bool) (segs : list libbgp_as_path_segment_t)
    (buf : list Z) (pos : Z) : M (list Z * Z) :=
  match segs with
  | [] => mret (buf, pos)
  | seg :: segs' =>
      buf ← store buf pos [seg_type seg];
      buf ← store buf (pos + 1) [u8 (zlen (seg_asns seg))];
      '(buf, pos) ← put_loop (put_asn is_4b) (seg_asns seg) buf (pos + 2);
      write_as_path_value is_4b segs' buf pos
  end.

(** Does some AS number not fit two octets? *)
Definition has_wide_asn (segs : list libbgp_as_path_segment_t) : bool :=
  existsb (λ seg, existsb (λ asn, 65535 <? asn) (seg_asns seg)) segs.

Definition libbgp_pattr_wire_len (attr : libbgp_pattr_t) : M Z :=
  value_len ← pattr_value_len attr;
  match pa_data attr with
  | d_origin origin => fail_if (2 <? origin) LIBBGP_ERR_BAD_LEN
  | d_as_path segs is_4b | d_as4_path segs is_4b =>
      fail_if (negb is_4b && has_wide_asn segs) LIBBGP_ERR_BAD_LEN
  | _ => mret tt
  end;;
  let extended := (255 <? value_len) ||
    negb (Z.land (pa_flags attr) LIBBGP_PATTR_FLAG_EXTENDED_LENGTH =? 0) in
  let header_len := if extended then 4 else 3 in
  fail_if (SIZE_MAX - header_len <? value_len) LIBBGP_ERR_BAD_LEN;;
  mret (header_len + value_len).

Section PattrWrite.
Context {host : Host}.

Definition write_value (attr : libbgp_pattr_t) (buf : list Z) (value_len : Z) : M (list Z) :=
  match pa_data attr with
  | d_origin origin =>
      fail_if (2 <? origin) LIBBGP_ERR_BAD_LEN;;
      store buf 0 [origin]
  | d_as_path segs is_4b | d_as4_path segs is_4b =>
      fail_if (negb is_4b && has_wide_asn segs) LIBBGP_ERR_BAD_LEN;;
      '(buf, _) ← write_as_path_value is_4b segs buf 0;
      mret buf
  | d_next_hop next_hop => store buf 0 (mem_of_u32 next_hop)
  | d_med value => store buf 0 (bgp_put_be32 value)
  | d_local_pref value => store buf 0 (bgp_put_be32 value)
  | d_atomic_aggregate => mret buf
  | d_aggregator asn router_id is_4b =>
      if (is_4b : bool) then
        buf ← store buf 0 (bgp_put_be32 asn); store buf 4 (bgp_put_be32 router_id)
      else
        buf ← store buf 0 (bgp_put_be16 (u16 asn)); store buf 2 (bgp_put_be32 router_id)
  | d_community values =>
      '(buf, _) ← put_loop bgp_put_be32 values buf 0;
      mret buf
  | d_as4_aggregator asn router_id _ =>
      buf ← store buf 0 (bgp_put_be32 asn); store buf 4 (bgp_put_be32 router_id)
  | d_mp_reach_ipv6 nexthop nhl nlri =>
      buf ← store buf 0 (bgp_put_be16 LIBBGP_AFI_IPV6);
      buf ← store buf 2 [LIBBGP_SAFI_UNICAST];
      buf ← store buf 3 [u8 nhl];
      nh ← slice nexthop 0 nhl;
      buf ← store buf 4 nh;
      buf ← store buf (4 + nhl) [0];
      '(buf, _) ← write_loop libbgp_prefix6_write nlri value_len buf (5 + nhl);
      mret buf
  | d_mp_unreach_ipv6 withdrawn =>
      buf ← store buf 0 (bgp_put_be16 LIBBGP_AFI_IPV6);
      buf ← store buf 2 [LIBBGP_SAFI_UNICAST];
      '(buf, _) ← write_loop libbgp_prefix6_write withdrawn value_len buf 3;
      mret buf
  | d_unknown value =>
      if zlen value =? 0 then mret buf else store buf 0 value
  end.

Definition libbgp_pattr_write (attr : libbgp_pattr_t) (buf : list Z) : M (list Z * Z) :=
  value_len ← pattr_value_len attr;
  let extended := (255 <? value_len) ||
    negb (Z.land (pa_flags attr) LIBBGP_PATTR_FLAG_EXTENDED_LENGTH =? 0) in
  let header_len := if extended then 4 else 3 in
  fail_if (zlen buf <? header_len + value_len) LIBBGP_ERR_BUFFER;;
  '(buf, _) ← in_sub buf header_len (zlen buf - header_len)
    (λ sub, sub' ← write_value attr sub value_len; mret (sub', tt));
  buf ← write_header attr buf value_len extended;
  mret (buf, header_len + value_len).
End PattrWrite.
