(* ===== verification/PattrSpec.v ===== *)
(** * Path attributes: encoding, round trip, layout *)

From S2P Require Import Prelude Bytes Prefix6 Pattr.

(** ** The wire format *)

Definition seg_enc (is_4b : bool) (seg : libbgp_as_path_segment_t) : list Z :=
  [seg_type seg; zlen (seg_asns seg)] ++ concat (put_asn is_4b <$> seg_asns seg).

Definition segs_enc (is_4b : bool) (segs : list libbgp_as_path_segment_t) : list Z :=
  concat (seg_enc is_4b <$> segs).

Definition prefixes6_enc (ps : list libbgp_prefix6_t) : list Z := concat (p6_enc <$> ps).

Definition value_enc {host : Host} (data : libbgp_pattr_data) : list Z :=
  match data with
  | d_origin origin => [origin]
  | d_as_path segs is_4b | d_as4_path segs is_4b => segs_enc is_4b segs
  | d_next_hop next_hop => mem_of_u32 next_hop
  | d_med value | d_local_pref value => bgp_put_be32 value
  | d_atomic_aggregate => []
  | d_aggregator asn router_id is_4b => put_asn is_4b asn ++ bgp_put_be32 router_id
  | d_community values => concat (bgp_put_be32 <$> values)
  | d_as4_aggregator asn router_id _ => bgp_put_be32 asn ++ bgp_put_be32 router_id
  | d_mp_reach_ipv6 nexthop nhl nlri =>
      bgp_put_be16 LIBBGP_AFI_IPV6 ++ [LIBBGP_SAFI_UNICAST; nhl] ++
      take (Z.to_nat nhl) nexthop ++ [0] ++ prefixes6_enc nlri
  | d_mp_unreach_ipv6 withdrawn =>
      bgp_put_be16 LIBBGP_AFI_IPV6 ++ [LIBBGP_SAFI_UNICAST] ++ prefixes6_enc withdrawn
  | d_unknown value => value
  end.

(** Is the two-octet length field used? *)
Definition pa_extended {host : Host} (attr : libbgp_pattr_t) : bool :=
  (255 <? zlen (value_enc (pa_data attr))) ||
  negb (Z.land (pa_flags attr) LIBBGP_PATTR_FLAG_EXTENDED_LENGTH =? 0).

(** The attribute with the extended-length flag its encoding carries. *)
Definition pattr_norm {host : Host} (attr : libbgp_pattr_t) : libbgp_pattr_t :=
  Pattr (if pa_extended attr then Z.lor (pa_flags attr) LIBBGP_PATTR_FLAG_EXTENDED_LENGTH
         else pa_flags attr)
        (pa_type_code attr) (pa_data attr).

Definition pattr_enc {host : Host} (attr : libbgp_pattr_t) : list Z :=
  let v := value_enc (pa_data attr) in
  [pa_flags (pattr_norm attr); pa_type_code attr] ++
  (if pa_extended attr then bgp_put_be16 (zlen v) else [zlen v]) ++ v.

(** ** Well-formed attributes *)

Definition asn_ok (is_4b : bool) (asn : Z) : Prop := if is_4b then is_u32 asn else is_u16 asn.

Definition seg_ok (is_4b : bool) (seg : libbgp_as_path_segment_t) : Prop :=
  1 <= seg_type seg <= 2 ∧ zlen (seg_asns seg) <= 255 ∧ Forall (asn_ok is_4b) (seg_asns seg).

(** The values the writer accepts. *)
Definition data_ok (data : libbgp_pattr_data) : Prop :=
  match data with
  | d_origin origin => 0 <= origin <= 2
  | d_as_path segs is_4b => Forall (seg_ok is_4b) segs
  | d_as4_path segs is_4b => is_4b = true ∧ Forall (seg_ok is_4b) segs
  | d_next_hop v | d_med v | d_local_pref v => is_u32 v
  | d_atomic_aggregate => True
  | d_aggregator asn router_id is_4b => asn_ok is_4b asn ∧ is_u32 router_id
  | d_community values => Forall is_u32 values
  | d_as4_aggregator asn router_id _ => is_u32 asn ∧ is_u32 router_id
  | d_mp_reach_ipv6 nexthop nhl nlri =>
      (nhl = 16 ∨ nhl = 32) ∧ length nexthop = 32%nat ∧ bytes_ok nexthop ∧ Forall p6_wf nlri
  | d_mp_unreach_ipv6 withdrawn => Forall p6_wf withdrawn
  | d_unknown value => bytes_ok value
  end.

Section PattrOk.
Context {host : Host}.

Definition pattr_ok (attr : libbgp_pattr_t) : Prop :=
  is_u8 (pa_flags attr) ∧ is_u8 (pa_type_code attr) ∧
  pattr_known_flags_valid (pa_type attr) (pa_flags attr) = true ∧
  (pa_type attr ≠ LIBBGP_PATTR_UNKNOWN →
     pa_type_code attr = pattr_default_type_code (pa_type attr)) ∧
  data_ok (pa_data attr) ∧ zlen (value_enc (pa_data attr)) <= 65535.

(** The values the parser can produce on a session whose AS numbers are
    four octets wide iff [b]: no empty AS_PATH segment, prefixes with their
    host bits cleared, the unused half of a next hop zero, and an attribute
    kept as unknown only when its code is unknown or its address family is
    not IPv6 unicast. *)
Definition not_ipv6_unicast (value : list Z) : Prop :=
  ∃ b0 b1 b2 rest, value = b0 :: b1 :: b2 :: rest ∧
    (bgp_get_be16 b0 b1 ≠ LIBBGP_AFI_IPV6 ∨ b2 ≠ LIBBGP_SAFI_UNICAST).

Definition data_parsed (b : bool) (code : Z) (data : libbgp_pattr_data) : Prop :=
  match data with
  | d_as_path segs is_4b => is_4b = b ∧ Forall (λ seg, seg_asns seg ≠ []) segs
  | d_as4_path segs _ => Forall (λ seg, seg_asns seg ≠ []) segs
  | d_aggregator _ _ is_4b => is_4b = b
  | d_as4_aggregator _ _ is_4b => is_4b = true
  | d_mp_reach_ipv6 nexthop nhl nlri =>
      drop (Z.to_nat nhl) nexthop = replicate (32 - Z.to_nat nhl) 0 ∧
      Forall (λ p, p6_normalize p = p) nlri
  | d_mp_unreach_ipv6 withdrawn => Forall (λ p, p6_normalize p = p) withdrawn
  | d_unknown value =>
      match pattr_type_from_code code with
      | LIBBGP_PATTR_UNKNOWN => True
      | LIBBGP_PATTR_MP_REACH_IPV6 => 5 <= zlen value ∧ not_ipv6_unicast value
      | LIBBGP_PATTR_MP_UNREACH_IPV6 => not_ipv6_unicast value
      | _ => False
      end
  | _ => True
  end.

Definition pattr_wf (b : bool) (attr : libbgp_pattr_t) : Prop :=
  pattr_ok attr ∧
  pattr_known_flags_valid (pattr_type_from_code (pa_type_code attr)) (pa_flags attr) = true ∧
  data_parsed b (pa_type_code attr) (pa_data attr).
End PattrOk.

(** ** Sizes *)

Lemma put_asn_length is_4b asn : zlen (put_asn is_4b asn) = if is_4b then 4 else 2.
Proof. by destruct is_4b. Qed.

Lemma concat_fmap_length {A} (enc : A -> list Z) (k : Z) xs :
  (∀ x, zlen (enc x) = k) → zlen (concat (enc <$> xs)) = zlen xs * k.
Proof.
  intros He. induction xs as [|x xs IH]; [done|].
  rewrite fmap_cons. cbn [concat length]. rewrite length_app. specialize (He x). lia.
Qed.

Lemma seg_enc_length is_4b seg :
  zlen (seg_enc is_4b seg) = 2 + zlen (seg_asns seg) * (if is_4b then 4 else 2).
Proof.
  unfold seg_enc. rewrite length_app, Nat2Z.inj_add, (concat_fmap_length _ (if is_4b then 4 else 2)).
  - done.
  - intros. apply put_asn_length.
Qed.

Lemma segs_enc_cons is_4b seg segs :
  segs_enc is_4b (seg :: segs) = seg_enc is_4b seg ++ segs_enc is_4b segs.
Proof. done. Qed.

Lemma prefixes6_enc_cons p ps : prefixes6_enc (p :: ps) = p6_enc p ++ prefixes6_enc ps.
Proof. done. Qed.

Lemma wp_add_size acc add (Q : Z -> Prop) E :
  acc + add <= SIZE_MAX → Q (acc + add) → wp (add_size acc add) Q E.
Proof. intros Hl HQ. apply wp_bind, wp_fail_if; intros; [exfalso; lia|]. by apply wp_ret. Qed.

Lemma segments_value_len_spec is_4b segs len :
  Forall (seg_ok is_4b) segs → len + zlen (segs_enc is_4b segs) <= 70000 →
  wp (segments_value_len is_4b segs len) (λ n, n = len + zlen (segs_enc is_4b segs)) no_err.
Proof.
  intros Hs. revert len. induction Hs as [|seg segs (Ht & Hc & _) _ IH]; intros len Hl.
  { apply wp_ret. simpl. lia. }
  cbn [segments_value_len].
  rewrite segs_enc_cons, length_app in Hl. pose proof (seg_enc_length is_4b seg) as Hse.
  apply wp_bind, wp_fail_if; intros; [exfalso; lia|].
  apply wp_bind, wp_fail_if; intros Hm.
  { exfalso. destruct is_4b; [change ((SIZE_MAX - 2) / 4) with 4611686018427387903 in Hm|
      change ((SIZE_MAX - 2) / 2) with 9223372036854775806 in Hm]; lia. }
  apply wp_bind, wp_add_size; [unfold SIZE_MAX; lia|].
  eapply wp_mono; [apply IH; lia| |done]. intros n ->. rewrite segs_enc_cons, length_app. lia.
Qed.

Lemma prefixes6_value_len_spec ps len :
  Forall p6_wf ps → len + zlen (prefixes6_enc ps) <= 70000 →
  wp (prefixes6_value_len ps len) (λ n, n = len + zlen (prefixes6_enc ps)) no_err.
Proof.
  intros Hs. revert len. induction Hs as [|p ps Hp _ IH]; intros len Hl.
  { apply wp_ret. simpl. lia. }
  cbn [prefixes6_value_len].
  rewrite prefixes6_enc_cons, length_app in Hl. pose proof (p6_enc_length p Hp) as Hpe.
  unfold prefix6_octets in Hpe. destruct Hp as (_ & _ & Hp).
  apply wp_bind, wp_fail_if; intros; [exfalso; lia|].
  apply wp_bind, wp_add_size; [unfold SIZE_MAX; lia|].
  eapply wp_mono; [apply IH; lia| |done]. intros n ->. rewrite prefixes6_enc_cons, length_app. lia.
Qed.

(** ** Writing *)

Lemma wp_put_loop {A} (enc : A -> list Z) xs buf out pos :
  pos = zlen out → pos + zlen (concat (enc <$> xs)) <= zlen buf →
  wp (put_loop enc xs (written buf out) pos)
     (λ r, r = (written buf (out ++ concat (enc <$> xs)),
                zlen (out ++ concat (enc <$> xs)))) no_err.
Proof.
  revert out pos. induction xs as [|x xs IH]; intros out pos -> Hl.
  { apply wp_ret. simpl. by rewrite app_nil_r. }
  rewrite fmap_cons in *. cbn [put_loop concat] in *. rewrite length_app in Hl.
  apply wp_bind, wp_put; [done|lia|].
  eapply wp_mono; [apply IH; [rewrite length_app; lia|lia]| |done].
  intros r ->. by rewrite <-(assoc_L (++)).
Qed.

Lemma write_as_path_value_spec is_4b segs buf out pos :
  Forall (seg_ok is_4b) segs → pos = zlen out →
  pos + zlen (segs_enc is_4b segs) <= zlen buf →
  wp (write_as_path_value is_4b segs (written buf out) pos)
     (λ r, r = (written buf (out ++ segs_enc is_4b segs),
                zlen (out ++ segs_enc is_4b segs))) no_err.
Proof.
  intros Hs. revert out pos. induction Hs as [|seg segs (Ht & Hc & _) _ IH]; intros out pos -> Hl.
  { apply wp_ret. unfold segs_enc. simpl. by rewrite app_nil_r. }
  rewrite segs_enc_cons in *. rewrite length_app in Hl. cbn [write_as_path_value].
  pose proof (concat_fmap_length (put_asn is_4b) _ (seg_asns seg) (put_asn_length is_4b)) as Hca.
  pose proof (seg_enc_length is_4b seg) as Hse.
  apply wp_bind, wp_put; [done|simpl; lia|].
  apply wp_bind, wp_put; [solve_len|simpl; lia|]. rewrite u8_id by (unfold is_u8; lia).
  apply wp_bind. eapply wp_mono; [apply wp_put_loop; solve_len| |done].
  intros r ->.
  eapply wp_mono; [apply IH; [done|solve_len]| |done].
  intros r ->. unfold seg_enc. simpl. by rewrite <-!(assoc_L (++)).
Qed.

Lemma has_wide_asn_ok segs : Forall (seg_ok false) segs → has_wide_asn segs = false.
Proof.
  intros Hs. unfold has_wide_asn. apply not_true_is_false. intros Hb.
  apply existsb_exists in Hb as (seg & Hin & Hb). apply existsb_exists in Hb as (asn & Ha & Hb).
  apply list_elem_of_In in Hin, Ha. rewrite Forall_forall in Hs.
  destruct (Hs seg Hin) as (_ & _ & Hasn). rewrite Forall_forall in Hasn.
  specialize (Hasn asn Ha). unfold asn_ok, is_u16 in Hasn. lia.
Qed.

Lemma narrow_ok is_4b segs :
  Forall (seg_ok is_4b) segs → negb is_4b && has_wide_asn segs = false.
Proof. destruct is_4b; [done|]. apply has_wide_asn_ok. Qed.

Section PattrWriteSpec.
Context {host : Host}.

Lemma pattr_value_len_spec attr :
  pattr_ok attr →
  wp (pattr_value_len attr) (λ n, n = zlen (value_enc (pa_data attr))) no_err.
Proof.
  intros (_ & _ & Hf & Hc & Hd & Hl). unfold pattr_value_len.
  apply wp_bind, wp_fail_if; intros Hb.
  { exfalso. apply andb_true_iff in Hb as [Hb1 Hb2].
    apply negb_true_iff, bool_decide_eq_false in Hb1. rewrite Hc in Hb2 by done. lia. }
  apply wp_bind, wp_fail_if; intros; [by rewrite Hf in *|].
  apply wp_bind.
  eapply (wp_mono _ (λ n, n = zlen (value_enc (pa_data attr))) _ no_err); [|intros n ->|done].
  2: { apply wp_bind, wp_fail_if; intros; [exfalso; lia|]. by apply wp_ret. }
  destruct (pa_data attr) as [o|segs b|nh|v|v| |asn rid b|vs|segs b|asn rid b|nh nhl ps|ps|v];
    cbn [value_enc data_ok] in *; try by apply wp_ret.
  - apply segments_value_len_spec; [done|lia].
  - apply wp_ret. by rewrite mem_of_u32_length.
  - destruct Hd as [Ha _]. apply wp_bind, wp_fail_if; intros Hw.
    + destruct b; [done|]. unfold asn_ok, is_u16 in Ha. simpl in Hw. exfalso. lia.
    + apply wp_ret. by destruct b.
  - rewrite (concat_fmap_length _ 4) in * by done.
    apply wp_bind, wp_fail_if; intros Hw.
    + exfalso. change (SIZE_MAX / 4) with 4611686018427387903 in Hw. lia.
    + by apply wp_ret.
  - destruct Hd as [-> Hs]. apply wp_bind, wp_fail_if; intros; [done|].
    apply segments_value_len_spec; [done|lia].
  - destruct Hd as (Hn & Hnl & _ & Hps). apply wp_bind, wp_fail_if; intros; [exfalso; lia|].
    rewrite !length_app, length_take in *. simpl length in *.
    eapply wp_mono; [apply prefixes6_value_len_spec; [done|lia]| |done]. intros n ->. lia.
  - rewrite !length_app in *. simpl length in *.
    eapply wp_mono; [apply prefixes6_value_len_spec; [done|lia]| |done]. intros n ->. lia.
  - apply wp_bind, wp_fail_if; intros; [exfalso; lia|]. by apply wp_ret.
Qed.

Lemma u16_id x : is_u16 x → u16 x = x.
Proof. unfold is_u16, u16. intros. apply Z.mod_small. lia. Qed.

Lemma put_asn_narrow asn : is_u16 asn → put_asn false asn = bgp_put_be16 asn.
Proof. intros. unfold put_asn. by rewrite u16_id. Qed.

Lemma write_value_spec attr buf :
  pattr_ok attr → zlen (value_enc (pa_data attr)) <= zlen buf →
  wp (write_value attr buf (zlen (value_enc (pa_data attr))))
     (λ r, r = written buf (value_enc (pa_data attr))) no_err.
Proof.
  intros (_ & _ & _ & _ & Hd & Hl) Hb. unfold write_value.
  destruct (pa_data attr) as [o|segs b|nh|v|v| |asn rid b|vs|segs b|asn rid b|nh nhl ps|ps|v];
    cbn [value_enc data_ok] in *.
  - apply wp_bind, wp_fail_if; intros; [exfalso; lia|]. by apply wp_put_first.
  - apply wp_bind. rewrite narrow_ok by done. apply wp_ret, wp_bind.
    eapply wp_mono; [apply (write_as_path_value_spec b segs buf []); [done|done|lia]| |done].
    intros r ->. by apply wp_ret.
  - by apply wp_put_first.
  - by apply wp_put_first.
  - by apply wp_put_first.
  - by apply wp_ret.
  - unfold put_asn in *. destruct b.
    + wp_put. apply wp_put; [done|solve_len|done].
    + wp_put. apply wp_put; [done|solve_len|done].
  - apply wp_bind. eapply wp_mono; [apply (wp_put_loop _ _ buf []); [done|lia]| |done].
    intros r ->. by apply wp_ret.
  - destruct Hd as [-> Hs]. apply wp_bind, wp_ret, wp_bind.
    eapply wp_mono; [apply (write_as_path_value_spec true segs buf []); [done|done|lia]| |done].
    intros r ->. by apply wp_ret.
  - wp_put. apply wp_put; [done|solve_len|done].
  - destruct Hd as (Hn & Hnl & _ & Hps).
    set (total := zlen (_ ++ _)) in *. assert (Ht : total = 5 + nhl + zlen (prefixes6_enc ps))
      by (unfold total; solve_len).
    assert (Htk : length (take (Z.to_nat nhl) nh) = Z.to_nat nhl) by solve_len.
    do 3 wp_put. rewrite u8_id by (unfold is_u8; lia).
    apply wp_bind, wp_slice; [lia..|]. rewrite drop_0.
    apply wp_bind, wp_put; [done|rewrite Htk; lia|].
    apply wp_bind, wp_put; [solve_len|simpl length; lia|].
    apply wp_bind. eapply wp_mono; [apply (wp_write_loop_put _ p6_enc)| |done].
    + intros p Hp. apply prefix6_write_spec. by eapply Forall_forall in Hps.
    + solve_len.
    + fold (prefixes6_enc ps). lia.
    + intros r ->. apply wp_ret. f_equal. rewrite <-!(assoc_L (++)). done.
  - set (total := zlen (_ ++ _)) in *. assert (Ht : total = 3 + zlen (prefixes6_enc ps))
      by (unfold total; solve_len).
    do 2 wp_put. apply wp_bind. eapply wp_mono; [apply (wp_write_loop_put _ p6_enc)| |done].
    + intros p Hp. apply prefix6_write_spec. by eapply Forall_forall in Hd.
    + solve_len.
    + fold (prefixes6_enc ps). lia.
    + intros r ->. by apply wp_ret.
  - destruct v as [|b v]; [by apply wp_ret|]. apply wp_if; intros; [simpl in *; exfalso; lia|].
    by apply wp_put_first.
Qed.

(** The flags octet of the header. *)
Lemma header_flags flags :
  is_u8 flags →
  u8 (Z.lor (Z.land flags (u8 (Z.lnot LIBBGP_PATTR_FLAG_EXTENDED_LENGTH)))
        LIBBGP_PATTR_FLAG_EXTENDED_LENGTH) = Z.lor flags LIBBGP_PATTR_FLAG_EXTENDED_LENGTH ∧
  is_u8 (Z.lor flags LIBBGP_PATTR_FLAG_EXTENDED_LENGTH) ∧
  (Z.land flags LIBBGP_PATTR_FLAG_EXTENDED_LENGTH = 0 →
     Z.land flags (u8 (Z.lnot LIBBGP_PATTR_FLAG_EXTENDED_LENGTH)) = flags).
Proof.
  intros Hf. unfold is_u8 in Hf.
  assert (Hall : forallb (λ k, let f := Z.of_nat k in
    bool_decide (u8 (Z.lor (Z.land f (u8 (Z.lnot LIBBGP_PATTR_FLAG_EXTENDED_LENGTH)))
        LIBBGP_PATTR_FLAG_EXTENDED_LENGTH) = Z.lor f LIBBGP_PATTR_FLAG_EXTENDED_LENGTH) &&
    (0 <=? Z.lor f LIBBGP_PATTR_FLAG_EXTENDED_LENGTH) &&
    (Z.lor f LIBBGP_PATTR_FLAG_EXTENDED_LENGTH <? 256) &&
    (negb (Z.land f LIBBGP_PATTR_FLAG_EXTENDED_LENGTH =? 0) ||
     (Z.land f (u8 (Z.lnot LIBBGP_PATTR_FLAG_EXTENDED_LENGTH)) =? f))) (seq 0 256) = true)
    by by vm_compute.
  rewrite forallb_forall in Hall. specialize (Hall (Z.to_nat flags)).
  rewrite in_seq, Z2Nat.id in Hall by lia. specialize (Hall ltac:(lia)).
  apply andb_true_iff in Hall as [Hall H4]. apply andb_true_iff in Hall as [Hall H3].
  apply andb_true_iff in Hall as [H1 H2]. apply bool_decide_eq_true in H1.
  split; [done|]. split; [unfold is_u8; lia|]. intros Hz. rewrite Hz in H4. simpl in H4. lia.
Qed.

Definition pattr_header (attr : libbgp_pattr_t) : list Z :=
  [pa_flags (pattr_norm attr); pa_type_code attr] ++
  (if pa_extended attr then bgp_put_be16 (zlen (value_enc (pa_data attr)))
   else [zlen (value_enc (pa_data attr))]).

Lemma pattr_enc_split attr : pattr_enc attr = pattr_header attr ++ value_enc (pa_data attr).
Proof. unfold pattr_enc, pattr_header. by rewrite <-(assoc_L (++)). Qed.

Lemma pattr_header_length attr : zlen (pattr_header attr) = if pa_extended attr then 4 else 3.
Proof. unfold pattr_header. by destruct (pa_extended attr). Qed.

Lemma write_header_spec attr a t :
  pattr_ok attr → length a = length (pattr_header attr) →
  wp (write_header attr (a ++ t) (zlen (value_enc (pa_data attr))) (pa_extended attr))
     (λ r, r = pattr_header attr ++ t) no_err.
Proof.
  intros (Hf & Hc & _ & _ & _ & Hl) Ha. pose proof (pattr_header_length attr) as Hh.
  destruct (header_flags _ Hf) as (Hor & _ & Hand).
  unfold write_header, pattr_header, pattr_norm in *. cbn [pa_flags] in *.
  destruct (pa_extended attr) eqn:He; simpl in Ha; cbn iota.
  - rewrite Hor, u16_id by (unfold is_u16; lia).
    destruct a as [|a0 [|a1 [|a2 [|a3 [|]]]]]; try done.
    do 2 (apply wp_bind, wp_store; [lia|simpl; lia|]). apply wp_store; [lia|simpl; lia|done].
  - unfold pa_extended in He. apply orb_false_iff in He as [Hlen He].
    rewrite negb_false_iff in He. rewrite Hand, u8_id by (unfold is_u8; lia).
    destruct a as [|a0 [|a1 [|a2 [|]]]]; try done.
    do 2 (apply wp_bind, wp_store; [lia|simpl; lia|]). apply wp_store; [lia|simpl; lia|done].
Qed.

Lemma pattr_write_spec attr : pattr_ok attr → writes (libbgp_pattr_write attr) (pattr_enc attr).
Proof.
  intros Hok buf. unfold libbgp_pattr_write.
  apply wp_bind. eapply wp_mono; [by apply pattr_value_len_spec| |done]. intros vl ->.
  fold (pa_extended attr). rewrite pattr_enc_split, length_app, Nat2Z.inj_add.
  pose proof (pattr_header_length attr) as Hh. rewrite <-Hh.
  set (h := pattr_header attr) in *. set (v := value_enc (pa_data attr)).
  apply wp_bind, wp_fail_if; intros Hl; [split; [done|lia]|].
  assert (Hpre : length (take (length h) buf) = length h) by (rewrite length_take; lia).
  rewrite <-(take_drop (length h) buf) at 1 2. unfold in_sub.
  apply wp_bind, wp_bind, wp_slice_rest; [by rewrite Hpre|rewrite length_app, length_drop; lia|].
  apply wp_bind, wp_bind. eapply wp_mono; [apply write_value_spec; [done|]| |done].
  { rewrite length_drop. fold v. lia. }
  intros sub ->. fold v. apply wp_ret.
  rewrite <-(app_nil_r (drop (length h) buf)) at 1.
  apply wp_bind, wp_store_app; [by rewrite Hpre|rewrite length_written; [done|rewrite length_drop; lia]|].
  apply wp_ret. rewrite app_nil_r.
  apply wp_bind. eapply wp_mono; [by apply write_header_spec| |done].
  intros r ->. apply wp_ret. fold h. split; [|lia]. unfold written.
  rewrite drop_drop, length_app, <-(assoc_L (++)). done.
Qed.

Lemma pattr_wire_len_spec attr :
  pattr_ok attr → wp (libbgp_pattr_wire_len attr) (λ n, n = zlen (pattr_enc attr)) no_err.
Proof.
  intros Hok. unfold libbgp_pattr_wire_len.
  apply wp_bind. eapply wp_mono; [by apply pattr_value_len_spec| |done]. intros vl ->.
  destruct Hok as (_ & _ & _ & _ & Hd & Hl). fold (pa_extended attr).
  apply wp_bind. eapply (wp_mono _ (λ _, True) _ no_err); [|intros []|done].
  - destruct (pa_data attr); cbn [data_ok] in Hd; try by apply wp_ret.
    + by apply wp_fail_if; intros; [exfalso; lia|].
    + by rewrite narrow_ok by done; apply wp_ret.
    + by destruct Hd as [-> Hd]; apply wp_ret.
  - intros _. pose proof (pattr_header_length attr) as Hh.
    apply wp_bind, wp_fail_if; intros Hb.
    + exfalso. unfold SIZE_MAX in Hb. destruct (pa_extended attr); lia.
    + apply wp_ret. rewrite pattr_enc_split, length_app. lia.
Qed.
End PattrWriteSpec.

(** ** Parsing: AS_PATH *)

(** All AS numbers of a path. *)
Definition path_asns (segs : list libbgp_as_path_segment_t) : list Z := concat (seg_asns <$> segs).

Lemma path_asns_length is_4b segs : zlen (path_asns segs) <= zlen (segs_enc is_4b segs).
Proof.
  induction segs as [|seg segs IH]; [done|]. rewrite segs_enc_cons.
  change (path_asns (seg :: segs)) with (seg_asns seg ++ path_asns segs).
  rewrite !length_app. pose proof (seg_enc_length is_4b seg). destruct is_4b; lia.
Qed.

Lemma segs_enc_app is_4b a b : segs_enc is_4b (a ++ b) = segs_enc is_4b a ++ segs_enc is_4b b.
Proof. unfold segs_enc. by rewrite fmap_app, concat_app. Qed.

Lemma path_asns_app a b : path_asns (a ++ b) = path_asns a ++ path_asns b.
Proof. unfold path_asns. by rewrite fmap_app, concat_app. Qed.

Lemma segs_count is_4b segs : zlen segs <= zlen (segs_enc is_4b segs).
Proof.
  induction segs as [|seg segs IH]; [done|]. rewrite segs_enc_cons, length_app.
  pose proof (seg_enc_length is_4b seg). simpl length. destruct is_4b; lia.
Qed.

Lemma align_offset_id offset align :
  align ≠ 0 → offset mod align = 0 → pattr_align_offset offset align = Some offset.
Proof.
  intros Ha Hm. unfold pattr_align_offset. rewrite Hm.
  by replace (align =? 0) with false by lia.
Qed.

(** Both alignments are the identity on the offsets that occur. *)
Lemma block_layout_eq n m :
  0 <= n → pattr_as_path_block_layout n m =
  if (SIZE_MAX / SIZEOF_SEGMENT <? n) || (SIZE_MAX / SIZEOF_ASN <? m) then None
  else if SIZE_MAX - n * 24 <? 24 then None
  else if SIZE_MAX - m * 4 <? 24 + n * 24 then None
  else Some (24, 24 + n * 24, 24 + n * 24 + m * 4).
Proof.
  intros Hn. unfold pattr_as_path_block_layout, SIZEOF_BLOCK.
  rewrite (align_offset_id 24 8) by done.
  by rewrite (align_offset_id (24 + n * SIZEOF_SEGMENT) 4) by (done || unfold SIZEOF_SEGMENT; divmod).
Qed.

(** The layout of the block: in range, aligned, the two arrays disjoint. *)
Lemma block_layout_spec n m so ao size :
  0 <= n → 0 <= m → pattr_as_path_block_layout n m = Some (so, ao, size) →
  SIZEOF_BLOCK <= so ∧ so mod 8 = 0 ∧ so + n * SIZEOF_SEGMENT <= ao ∧ ao mod 4 = 0 ∧
  ao + m * SIZEOF_ASN = size ∧ size <= SIZE_MAX.
Proof.
  intros Hn Hm. rewrite block_layout_eq by done. unfold SIZEOF_BLOCK, SIZEOF_SEGMENT, SIZEOF_ASN.
  repeat case_match; intros [= <- <- <-].
  split_and!; [lia|done|lia|divmod|lia|lia].
Qed.

Lemma block_layout_some n m :
  0 <= n <= 70000 → 0 <= m <= 70000 → is_Some (pattr_as_path_block_layout n m).
Proof.
  intros Hn Hm. rewrite block_layout_eq by lia.
  change (SIZE_MAX / SIZEOF_SEGMENT) with 768614336404564650.
  change (SIZE_MAX / SIZEOF_ASN) with 4611686018427387903.
  unfold SIZE_MAX. replace ((768614336404564650 <? n) || (4611686018427387903 <? m)) with false by lia.
  replace (2 ^ 64 - 1 - n * 24 <? 24) with false by lia.
  by replace (2 ^ 64 - 1 - m * 4 <? 24 + n * 24) with false by lia.
Qed.

Lemma take_drop_mid {A} (pre mid post : list A) :
  take (length mid) (drop (length pre) (pre ++ mid ++ post)) = mid.
Proof. by rewrite drop_app_length, take_app_length. Qed.

Lemma wp_read_asn is_4b pre asn post pos (Q : Z -> Prop) E :
  pos = zlen pre → asn_ok is_4b asn → Q asn →
  wp (if is_4b then rd_be32 (pre ++ put_asn is_4b asn ++ post) pos
      else rd_be16 (pre ++ put_asn is_4b asn ++ post) pos) Q E.
Proof.
  intros -> Ha HQ. destruct is_4b.
  - eapply wp_rd_be32_put; [lia|done| |done]. rewrite Nat2Z.id. apply (take_drop_mid pre (bgp_put_be32 asn)).
  - rewrite put_asn_narrow by done.
    eapply wp_rd_be16_put; [lia|done| |done]. rewrite Nat2Z.id. apply (take_drop_mid pre (bgp_put_be16 asn)).
Qed.

Lemma read_asns_enc is_4b asns pre post pos :
  Forall (asn_ok is_4b) asns → pos = zlen pre →
  wp (read_asns is_4b (pre ++ concat (put_asn is_4b <$> asns) ++ post) pos (length asns))
     (λ r, r = (asns, pos + zlen (concat (put_asn is_4b <$> asns)))) no_err.
Proof.
  intros Ha. revert pre pos. induction Ha as [|asn asns Hasn _ IH]; intros pre pos ->.
  { apply wp_ret. simpl. f_equal. lia. }
  rewrite fmap_cons. cbn [concat length read_asns]. rewrite <-(assoc_L (++)).
  apply wp_bind, wp_read_asn; [done..|]. rewrite (assoc_L (++)).
  apply wp_bind. eapply wp_mono; [apply IH| |done].
  - rewrite length_app. pose proof (put_asn_length is_4b asn). lia.
  - intros r ->. apply wp_ret. f_equal. rewrite length_app.
    pose proof (put_asn_length is_4b asn). lia.
Qed.

Lemma read_segments_enc is_4b segs pre pos room :
  Forall (seg_ok is_4b) segs → pos = zlen pre → room = zlen (path_asns segs) →
  wp (read_segments is_4b (pre ++ segs_enc is_4b segs) pos room (length segs))
     (λ r, r = segs) no_err.
Proof.
  intros Hs. revert pre pos room.
  induction Hs as [|seg segs (Ht & Hc & Ha) _ IH]; intros pre pos room -> ->; [by apply wp_ret|].
  rewrite segs_enc_cons. cbn [length read_segments]. unfold seg_enc.
  set (bytes := concat (put_asn is_4b <$> seg_asns seg)).
  change (path_asns (seg :: segs)) with (seg_asns seg ++ path_asns segs).
  set (hdr := [seg_type seg; zlen (seg_asns seg)]).
  assert (Hl : ∀ k : nat, (k < 2)%nat →
    (pre ++ (hdr ++ bytes) ++ segs_enc is_4b segs) !! Z.to_nat (zlen pre + Z.of_nat k) = hdr !! k).
  { intros k Hk. rewrite lookup_app_r by lia. rewrite <-(assoc_L (++)).
    rewrite lookup_app_l by (simpl; lia). f_equal. lia. }
  apply wp_bind. eapply wp_rd_at; [lia|rewrite <-(Z.add_0_r (zlen pre)); by apply (Hl 0%nat); lia|].
  apply wp_bind. eapply wp_rd_at; [lia|by apply (Hl 1%nat); lia|].
  apply wp_if; intros Hroom; [exfalso; rewrite length_app in Hroom; lia|].
  rewrite Nat2Z.id. apply wp_bind.
  assert (Hv : pre ++ (hdr ++ bytes) ++ segs_enc is_4b segs =
               (pre ++ hdr) ++ bytes ++ segs_enc is_4b segs) by by rewrite <-!(assoc_L (++)).
  rewrite Hv. eapply wp_mono; [apply read_asns_enc; [done|rewrite length_app; simpl; lia]| |done].
  intros r ->. fold bytes. rewrite (assoc_L (++) (pre ++ hdr)).
  apply wp_bind. eapply wp_mono; [apply IH| |done].
  - rewrite !length_app. simpl. lia.
  - rewrite length_app. lia.
  - intros r ->. apply wp_ret. by destruct seg.
Qed.

(** One turn of the counting pass on a buffer that starts with a segment. *)
Lemma count_segment_enc is_4b seg post n t :
  seg_ok is_4b seg → seg_asns seg ≠ [] → 0 <= t <= 70000 →
  wp (count_segment (if is_4b then 4 else 2) (seg_enc is_4b seg ++ post) (n, t))
     (λ r, r = ((n + 1, t + zlen (seg_asns seg)), zlen (seg_enc is_4b seg))) no_err.
Proof.
  intros (Ht & Hc & _) Hne Hb. pose proof (seg_enc_length is_4b seg) as Hl.
  assert (Hpos : 1 <= zlen (seg_asns seg)) by (destruct (seg_asns seg); [done|simpl; lia]).
  assert (Hl2 : 2 <= zlen (seg_enc is_4b seg)) by (rewrite Hl; destruct is_4b; lia).
  unfold count_segment. apply wp_bind, wp_fail_if; intros; [exfalso; rewrite length_app in *; lia|].
  apply wp_bind. eapply wp_rd_at; [lia|reflexivity|].
  apply wp_bind, wp_fail_if; intros; [exfalso; lia|].
  apply wp_bind. eapply wp_rd_at; [lia|reflexivity|].
  apply wp_bind, wp_fail_if; intros; [exfalso; lia|].
  apply wp_bind, wp_fail_if; intros Hm.
  { exfalso. destruct is_4b; [change ((SIZE_MAX - 2) / 4) with 4611686018427387903 in Hm|
      change ((SIZE_MAX - 2) / 2) with 9223372036854775806 in Hm]; lia. }
  rewrite <-Hl. apply wp_bind, wp_fail_if; intros; [exfalso; rewrite length_app in *; lia|].
  apply wp_bind, wp_fail_if; intros Hs; [exfalso; unfold SIZE_MAX in Hs; lia|]. by apply wp_ret.
Qed.

Definition count_upd (acc : Z * Z) (seg : libbgp_as_path_segment_t) : Z * Z :=
  (acc.1 + 1, acc.2 + zlen (seg_asns seg)).

Lemma foldl_count segs acc :
  foldl count_upd acc segs = (acc.1 + zlen segs, acc.2 + zlen (path_asns segs)).
Proof.
  revert acc. induction segs as [|seg segs IH]; intros [n t]; simpl foldl.
  { simpl. f_equal; lia. }
  rewrite IH. change (path_asns (seg :: segs)) with (seg_asns seg ++ path_asns segs).
  rewrite length_app. simpl. f_equal; lia.
Qed.

Lemma count_loop_enc (is_4b : bool) segs :
  Forall (seg_ok is_4b) segs → Forall (λ seg, seg_asns seg ≠ []) segs →
  zlen (segs_enc is_4b segs) <= 65535 →
  wp (parse_loop (count_segment (if is_4b then 4 else 2)) (segs_enc is_4b segs) (0, 0))
     (λ r, r = (zlen segs, zlen (path_asns segs))) no_err.
Proof.
  intros Hs Hne Hl. eapply wp_mono; [apply (wp_parse_loop_enc (seg_enc is_4b) count_upd)| |done].
  - intros pre seg post ->. rewrite !Forall_app, !Forall_cons in Hs, Hne.
    split; [done|]. rewrite foldl_count. cbn [fst snd]. apply count_segment_enc; [tauto..|].
    pose proof (path_asns_length is_4b (pre ++ seg :: post)) as Hp.
    rewrite path_asns_app, length_app in Hp. lia.
  - intros r ->. rewrite foldl_count. f_equal.
Qed.

(** The filling pass reads back what the counting pass accepted. *)
Lemma fill_enc is_4b segs :
  Forall (seg_ok is_4b) segs → zlen (segs_enc is_4b segs) <= 65535 →
  wp (if zlen segs =? 0 then mret []
      else match pattr_as_path_block_layout (zlen segs) (zlen (path_asns segs)) with
           | None => err LIBBGP_ERR_BAD_LEN
           | Some _ =>
               alloc_or_nomem;;
               read_segments is_4b (segs_enc is_4b segs) 0 (zlen (path_asns segs))
                 (Z.to_nat (zlen segs))
           end) (λ r, r = segs) no_err.
Proof.
  intros Hs Hl. pose proof (path_asns_length is_4b segs). pose proof (segs_count is_4b segs).
  apply wp_if; intros Hz; [apply wp_ret; by destruct segs; [|simpl in Hz; lia]|].
  destruct (block_layout_some (zlen segs) (zlen (path_asns segs))) as [x ->]; [lia..|].
  apply wp_bind, wp_alloc_or_nomem. rewrite Nat2Z.id.
  by apply (read_segments_enc is_4b segs []).
Qed.

Lemma parse_as_path_enc is_4b segs :
  Forall (seg_ok is_4b) segs → Forall (λ seg, seg_asns seg ≠ []) segs →
  zlen (segs_enc is_4b segs) <= 65535 →
  wp (parse_as_path (segs_enc is_4b segs) is_4b) (λ r, r = segs) no_err.
Proof.
  intros Hs Hne Hl. unfold parse_as_path.
  apply wp_bind. eapply wp_mono; [by apply count_loop_enc| |done].
  intros r ->. by apply fill_enc.
Qed.

(** *** Fixed-width numbers out of any bytes *)

Lemma decode_u32s n bs :
  bytes_ok bs → length bs = (n * 4)%nat →
  ∃ vs, length vs = n ∧ Forall is_u32 vs ∧ concat (bgp_put_be32 <$> vs) = bs.
Proof.
  revert bs. induction n as [|n IH]; intros bs Hok Hl.
  { exists []. destruct bs; [done|simpl in Hl; lia]. }
  destruct bs as [|b0 [|b1 [|b2 [|b3 bs]]]]; simpl in Hl; try lia.
  rewrite !Forall_cons in Hok. destruct Hok as (H0 & H1 & H2 & H3 & Hok).
  destruct (IH bs Hok) as (vs & Hvl & Hv & Hc); [lia|].
  exists (bgp_get_be32 b0 b1 b2 b3 :: vs). split; [simpl; lia|].
  split; [constructor; [by apply get_be32_range|done]|].
  rewrite fmap_cons. cbn [concat]. by rewrite put_get_be32, Hc.
Qed.

Lemma decode_u16s n bs :
  bytes_ok bs → length bs = (n * 2)%nat →
  ∃ vs, length vs = n ∧ Forall is_u16 vs ∧ concat (put_asn false <$> vs) = bs.
Proof.
  revert bs. induction n as [|n IH]; intros bs Hok Hl.
  { exists []. destruct bs; [done|simpl in Hl; lia]. }
  destruct bs as [|b0 [|b1 bs]]; simpl in Hl; try lia.
  rewrite !Forall_cons in Hok. destruct Hok as (H0 & H1 & Hok).
  destruct (IH bs Hok) as (vs & Hvl & Hv & Hc); [lia|].
  exists (bgp_get_be16 b0 b1 :: vs). split; [simpl; lia|].
  split; [constructor; [by apply get_be16_range|done]|].
  rewrite fmap_cons. cbn [concat]. rewrite put_asn_narrow by by apply get_be16_range.
  by rewrite put_get_be16, Hc.
Qed.

Lemma decode_asns (is_4b : bool) n bs :
  bytes_ok bs → length bs = (n * (if is_4b then 4 else 2))%nat →
  ∃ vs, length vs = n ∧ Forall (asn_ok is_4b) vs ∧ concat (put_asn is_4b <$> vs) = bs.
Proof. destruct is_4b; [apply decode_u32s|apply decode_u16s]. Qed.

(** A segment in front of a buffer whose header announces it. *)
Lemma decode_seg (is_4b : bool) type count sub :
  bytes_ok sub → sub !! 0%nat = Some type → sub !! 1%nat = Some count →
  1 <= type <= 2 → 2 + count * (if is_4b then 4 else 2) <= zlen sub →
  ∃ seg rest, sub = seg_enc is_4b seg ++ rest ∧ seg_ok is_4b seg ∧
    seg_type seg = type ∧ zlen (seg_asns seg) = count.
Proof.
  intros Hok H0 H1 Ht Hl. destruct sub as [|t [|c sub]]; [done..|].
  injection H0 as ->. injection H1 as ->. rewrite !Forall_cons in Hok.
  destruct Hok as (_ & Hc & Hok). unfold is_u8 in Hc. simpl length in Hl.
  set (k := (Z.to_nat count * (if is_4b then 4 else 2))%nat).
  assert (Hk : (k <= length sub)%nat) by (unfold k; destruct is_4b; lia).
  destruct (decode_asns is_4b (Z.to_nat count) (take k sub)) as (vs & Hvl & Hv & He).
  { by apply Forall_take. } { rewrite length_take. lia. }
  assert (Hz : zlen vs = count) by lia. exists (Segment type vs), (drop k sub).
  unfold seg_enc, seg_ok. cbn [seg_type seg_asns]. rewrite He, Hz.
  split; [simpl; by rewrite take_drop|]. split; [|done]. split; [done|]. split; [lia|done].
Qed.

Lemma take_add_drop {A} (l : list A) (i j : nat) : take (i + j) l = take i l ++ take j (drop i l).
Proof. revert i. induction l; intros [|i]; simpl; rewrite ?take_nil; try done. by f_equal. Qed.

(** What the counting pass accepts is a sequence of segments. *)
Definition counted (is_4b : bool) (value : list Z) (pos : Z) (acc : Z * Z) : Prop :=
  ∃ segs, take (Z.to_nat pos) value = segs_enc is_4b segs ∧ Forall (seg_ok is_4b) segs ∧
    Forall (λ seg, seg_asns seg ≠ []) segs ∧ acc = (zlen segs, zlen (path_asns segs)).

Lemma counted_step is_4b value i acc seg rest :
  0 <= i → counted is_4b value i acc → drop (Z.to_nat i) value = seg_enc is_4b seg ++ rest →
  seg_ok is_4b seg → seg_asns seg ≠ [] →
  counted is_4b value (i + zlen (seg_enc is_4b seg)) (count_upd acc seg).
Proof.
  intros Hi (segs & Ht & Hs & Hn & ->) Hd Hseg Hne. exists (segs ++ [seg]). split_and!.
  - rewrite Z2Nat.inj_add, Nat2Z.id by lia. rewrite take_add_drop, Ht, Hd, take_app_length, segs_enc_app.
    change (segs_enc is_4b [seg]) with (seg_enc is_4b seg ++ []). by rewrite app_nil_r.
  - by apply Forall_app_2; [|constructor].
  - by apply Forall_app_2; [|constructor].
  - rewrite path_asns_app. change (path_asns [seg]) with (seg_asns seg ++ []).
    unfold count_upd. rewrite app_nil_r, !length_app. simpl. f_equal; lia.
Qed.

Lemma count_loop_spec (is_4b : bool) value :
  bytes_ok value → zlen value <= 65535 →
  wp (parse_loop (count_segment (if is_4b then 4 else 2)) value (0, 0))
     (counted is_4b value (zlen value))
     (λ e, e = LIBBGP_ERR_BAD_LEN ∨ e = LIBBGP_ERR_INVALID).
Proof.
  intros Hok Hmax. apply wp_parse_loop_pos; [|by exists []]. intros i acc Hi Hc.
  set (sub := drop _ value). assert (Hsub : zlen sub = zlen value - i) by (unfold sub; solve_len).
  assert (Hsok : bytes_ok sub) by by apply Forall_drop.
  destruct acc as [n t] eqn:Hacc. unfold count_segment. apply wp_bind, wp_fail_if; intros; [auto|].
  apply wp_bind, wp_rd; [lia|]. intros type Htype. apply wp_bind, wp_fail_if; intros; [auto|].
  apply wp_bind, wp_rd; [lia|]. intros count Hcount. apply wp_bind, wp_fail_if; intros; [auto|].
  assert (Hc8 : is_u8 count) by (eapply Forall_lookup_1; eauto). unfold is_u8 in Hc8.
  apply wp_bind, wp_fail_if; intros; [auto|]. apply wp_bind, wp_fail_if; intros; [auto|].
  apply wp_bind, wp_fail_if; intros; [auto|]. apply wp_ret. cbn [fst snd].
  destruct (decode_seg is_4b type count sub) as (seg & rest & Hd & Hseg & _ & Hlen); [done..|lia|lia|].
  rewrite <-Hlen, <-(seg_enc_length is_4b seg). split.
  - rewrite Hd, length_app in Hsub. pose proof (seg_enc_length is_4b seg).
    destruct is_4b; lia.
  - rewrite <-Hacc in Hc. pose proof (counted_step is_4b value i acc seg rest) as Hst.
    rewrite Hacc in Hst. apply Hst; [lia|by rewrite <-Hacc|done|done|].
    intros Hnil. rewrite Hnil in Hlen. simpl in Hlen. lia.
Qed.

Lemma parse_as_path_spec is_4b value :
  bytes_ok value → zlen value <= 65535 →
  wp (parse_as_path value is_4b)
     (λ segs, segs_enc is_4b segs = value ∧ Forall (seg_ok is_4b) segs ∧
        Forall (λ seg, seg_asns seg ≠ []) segs)
     (λ e, e = LIBBGP_ERR_BAD_LEN ∨ e = LIBBGP_ERR_INVALID).
Proof.
  intros Hok Hmax. unfold parse_as_path.
  apply wp_bind. eapply wp_mono; [by apply count_loop_spec| |done].
  intros acc (segs & Ht & Hs & Hn & ->). rewrite Nat2Z.id, take_ge in Ht by done. subst value.
  eapply wp_mono; [by apply fill_enc| |done]. by intros r ->.
Qed.

(** ** Parsing: communities *)

Lemma read_u32s_enc vs pre i :
  Forall is_u32 vs → zlen pre = i * 4 →
  wp (read_u32s (pre ++ concat (bgp_put_be32 <$> vs)) i (length vs)) (λ r, r = vs) no_err.
Proof.
  intros Hv. revert pre i. induction Hv as [|v vs Hv _ IH]; intros pre i Hp; [by apply wp_ret|].
  rewrite fmap_cons. cbn [concat length read_u32s].
  apply wp_bind. eapply wp_rd_be32_put; [lia|done| |].
  { rewrite <-Hp, Nat2Z.id. apply (take_drop_mid pre (bgp_put_be32 v)). }
  rewrite (assoc_L (++)). apply wp_bind. eapply wp_mono; [apply IH; rewrite length_app; simpl; lia| |done].
  intros r ->. by apply wp_ret.
Qed.

Lemma parse_community_enc vs :
  Forall is_u32 vs →
  wp (parse_community (concat (bgp_put_be32 <$> vs))) (λ r, r = d_community vs) no_err.
Proof.
  intros Hv. unfold parse_community. rewrite (concat_fmap_length _ 4) by done.
  rewrite Z.mod_mul, Z.div_mul by done. apply wp_bind, wp_fail_if; intros; [done|].
  apply wp_if; intros Hz; [apply wp_ret; by destruct vs; [|simpl in Hz; lia]|].
  apply wp_bind, wp_alloc_or_nomem. rewrite Nat2Z.id.
  apply wp_bind. eapply wp_mono; [by apply (read_u32s_enc vs [])| |done].
  intros r ->. by apply wp_ret.
Qed.

Lemma parse_community_spec value :
  bytes_ok value →
  wp (parse_community value)
     (λ r, ∃ vs, r = d_community vs ∧ Forall is_u32 vs ∧ concat (bgp_put_be32 <$> vs) = value)
     (λ e, e = LIBBGP_ERR_BAD_LEN).
Proof.
  intros Hok. destruct (decide (zlen value mod 4 = 0)) as [Hm|Hm].
  - destruct (decode_u32s (Z.to_nat (zlen value / 4)) value) as (vs & _ & Hv & He); [done|divmod|].
    rewrite <-He at 1. eapply wp_mono; [by apply parse_community_enc| |done]. intros r ->. by exists vs.
  - apply wp_bind, wp_fail_if; intros; [done|]. exfalso. lia.
Qed.

(** ** Parsing: NLRI lists *)

Lemma wp_prefix6_step sub ps cap (Q : (list libbgp_prefix6_t * Z) * Z -> Prop) E :
  cap_inv (zlen ps) cap → zlen ps <= 70000 →
  wp (libbgp_prefix6_parse sub)
     (λ r, 0 < r.2 <= zlen sub ∧ Q ((ps ++ [r.1], grow_cap cap (zlen ps)), r.2)) E →
  wp (parse_prefix6_step sub (ps, cap)) Q E.
Proof.
  intros Hi Hl Hp. unfold parse_prefix6_step. apply wp_bind.
  eapply wp_mono; [exact Hp| |done]. intros [p c]; cbn [fst snd]. intros [Hc HQ].
  apply wp_bind, wp_fail_if; intros; [exfalso; lia|].
  apply wp_bind, wp_array_grow; [lia|done|done|]. by apply wp_ret.
Qed.

Lemma prefixes6_count ps : zlen ps <= zlen (prefixes6_enc ps).
Proof.
  induction ps as [|p ps IH]; [done|]. rewrite prefixes6_enc_cons, length_app. simpl length. lia.
Qed.

Lemma parse_prefixes6_enc ps :
  Forall p6_wf ps → Forall (λ p, p6_normalize p = p) ps → zlen (prefixes6_enc ps) <= 65535 →
  wp (parse_loop parse_prefix6_step (prefixes6_enc ps) ([], 0)) (λ r, r.1 = ps) no_err.
Proof.
  intros Hp Hn Hl. pose proof (prefixes6_count ps) as Hcnt.
  assert (H0 : cap_inv 0 0) by (unfold cap_inv; lia).
  eapply wp_mono; [apply (wp_parse_loop_enc p6_enc (push_grow p6_normalize))| |done].
  - intros pre p post ->. split; [done|]. rewrite length_app in Hcnt. simpl length in Hcnt.
    destruct (foldl_push_grow p6_normalize pre ([], 0) H0) as [Hi Hf]; [simpl; lia|].
    destruct (foldl _ _ pre) as [qs cap] eqn:Hq. cbn [fst snd] in Hf, Hi. subst qs.
    rewrite !Forall_app, !Forall_cons in Hp. apply wp_prefix6_step; [done|solve_len|].
    eapply wp_mono; [apply prefix6_parse_enc; tauto| |done]. intros r ->. cbn [fst snd].
    pose proof (p6_enc_length p ltac:(tauto)). pose proof (prefix6_octets_range (p6_len p)).
    split; [|done]. rewrite length_app. assert (0 < length (p6_enc p))%nat by (simpl; lia). lia.
  - intros r ->. destruct (foldl_push_grow p6_normalize ps ([], 0) H0) as [_ Hf]; [simpl; lia|].
    rewrite Hf. by apply fmap_fixed.
Qed.

Lemma parse_prefixes6_spec value :
  bytes_ok value → zlen value <= 65535 →
  wp (parse_loop parse_prefix6_step value ([], 0))
     (λ r, Forall p6_wf r.1 ∧ Forall (λ p, p6_normalize p = p) r.1 ∧
        zlen (prefixes6_enc r.1) = zlen value)
     (λ e, e = LIBBGP_ERR_BAD_LEN ∨ e = LIBBGP_ERR_INVALID).
Proof.
  intros Hok Hmax.
  eapply (wp_mono _ _ _ (λ e, e = LIBBGP_ERR_BAD_LEN ∨ e = LIBBGP_ERR_INVALID));
    [apply (wp_parse_loop_pos (λ pos r, cap_inv (zlen r.1) r.2 ∧ Forall p6_wf r.1 ∧ Forall (λ p, p6_normalize p = p) r.1 ∧
    zlen (prefixes6_enc r.1) = pos))| |done].
  - intros i [ps cap] Hi (Hinv & Hw & Hn & Hl). cbn [fst snd] in *. pose proof (prefixes6_count ps).
    apply wp_prefix6_step; [done|lia|].
    eapply wp_mono; [by apply prefix6_parse_spec, Forall_drop| |done].
    intros [p c]; cbn [fst snd]. intros (Hpw & Hpn & Hc & Hcl).
    split; [done|]. rewrite length_drop in Hcl. split; [lia|].
    split; [rewrite length_app, Nat2Z.inj_add; apply grow_cap_inv; [lia|done]|].
    split; [by apply Forall_app_2; [|constructor]|]. split; [by apply Forall_app_2; [|constructor]|].
    unfold prefixes6_enc in *. rewrite fmap_app, concat_app, length_app.
    change (concat (p6_enc <$> [p])) with (p6_enc p ++ []). rewrite app_nil_r. lia.
  - unfold cap_inv. simpl. split_and!; try done; lia.
  - intros r (_ & ? & ? & ?). done.
Qed.

(** ** Parsing: the value and the whole attribute *)

Lemma parse_unknown_spec value :
  wp (parse_unknown value) (λ r, r = d_unknown value) no_err.
Proof.
  unfold parse_unknown. apply wp_if; intros Hz.
  - apply wp_ret. by destruct value; [|simpl in Hz; lia].
  - by apply wp_bind, wp_alloc_or_nomem, wp_ret.
Qed.

Lemma wp_rd_cons0 b rest (Q : Z -> Prop) E : Q b → wp (rd (b :: rest) 0) Q E.
Proof. by apply wp_rd_at. Qed.

(** An attribute of another address family is kept as unknown. *)
Lemma parse_mp_other value :
  not_ipv6_unicast value →
  (5 <= zlen value → wp (parse_mp_reach_ipv6 value) (λ r, r = d_unknown value) no_err) ∧
  wp (parse_mp_unreach_ipv6 value) (λ r, r = d_unknown value) no_err.
Proof.
  intros (b0 & b1 & b2 & rest & -> & Hne). split; [intros Hl|].
  all: apply wp_bind, wp_fail_if; intros; [exfalso; simpl in *; lia|].
  all: apply wp_bind, wp_bind; eapply wp_rd_at; [lia|reflexivity|].
  all: apply wp_bind; eapply wp_rd_at; [lia|reflexivity|]; apply wp_ret.
  all: apply wp_bind; eapply wp_rd_at; [lia|reflexivity|].
  all: apply wp_if; intros; [apply parse_unknown_spec|exfalso; lia].
Qed.

Lemma parse_mp_unreach_enc ps :
  Forall p6_wf ps → Forall (λ p, p6_normalize p = p) ps → zlen (prefixes6_enc ps) <= 65535 →
  wp (parse_mp_unreach_ipv6
        (bgp_put_be16 LIBBGP_AFI_IPV6 ++ [LIBBGP_SAFI_UNICAST] ++ prefixes6_enc ps))
     (λ r, r = d_mp_unreach_ipv6 ps) no_err.
Proof.
  intros Hw Hn Hl. unfold parse_mp_unreach_ipv6.
  apply wp_bind, wp_fail_if; intros; [exfalso; solve_len|].
  apply wp_bind. eapply (wp_rd_be16_put _ _ LIBBGP_AFI_IPV6); [lia|unfold is_u16, LIBBGP_AFI_IPV6; lia|done|].
  apply wp_bind. eapply wp_rd_at; [lia|reflexivity|]. simpl orb. cbn iota.
  apply wp_bind. rewrite (assoc_L (++)). apply wp_slice_rest; [done|solve_len|].
  apply wp_bind. eapply wp_mono; [by apply parse_prefixes6_enc| |done].
  intros [r cap] He. apply wp_ret. cbn [fst] in He. by subst.
Qed.

Lemma parse_mp_reach_enc nh nhl ps :
  (nhl = 16 ∨ nhl = 32) → length nh = 32%nat →
  drop (Z.to_nat nhl) nh = replicate (32 - Z.to_nat nhl) 0 →
  Forall p6_wf ps → Forall (λ p, p6_normalize p = p) ps → zlen (prefixes6_enc ps) <= 65535 →
  wp (parse_mp_reach_ipv6
        (bgp_put_be16 LIBBGP_AFI_IPV6 ++ [LIBBGP_SAFI_UNICAST; nhl] ++
         take (Z.to_nat nhl) nh ++ [0] ++ prefixes6_enc ps))
     (λ r, r = d_mp_reach_ipv6 nh nhl ps) no_err.
Proof.
  intros Hnh Hnl Hz Hw Hn Hl. unfold parse_mp_reach_ipv6.
  assert (Htk : length (take (Z.to_nat nhl) nh) = Z.to_nat nhl) by solve_len.
  apply wp_bind, wp_fail_if; intros; [exfalso; solve_len|].
  apply wp_bind. eapply (wp_rd_be16_put _ _ LIBBGP_AFI_IPV6); [lia|unfold is_u16, LIBBGP_AFI_IPV6; lia|done|].
  apply wp_bind. eapply wp_rd_at; [lia|reflexivity|]. simpl orb. cbn iota.
  apply wp_bind. eapply wp_rd_at; [lia|reflexivity|].
  apply wp_bind, wp_fail_if; intros; [exfalso; lia|].
  apply wp_bind, wp_fail_if; intros; [exfalso; solve_len|].
  set (hdr := bgp_put_be16 LIBBGP_AFI_IPV6 ++ [LIBBGP_SAFI_UNICAST; nhl]).
  set (nhb := take (Z.to_nat nhl) nh) in *.
  change (bgp_put_be16 LIBBGP_AFI_IPV6 ++ [LIBBGP_SAFI_UNICAST; nhl] ++ nhb ++ [0] ++ prefixes6_enc ps)
    with (hdr ++ nhb ++ [0] ++ prefixes6_enc ps).
  apply wp_bind, wp_slice_app; [done|lia|].
  apply wp_bind, wp_store_front; [rewrite Htk; simpl; lia|].
  rewrite Htk, drop_replicate, <-Hz. unfold nhb at 1. rewrite take_drop.
  apply wp_bind. apply (wp_rd_at _ _ 0); [lia| |].
  { rewrite (assoc_L (++)). apply list_lookup_middle. rewrite length_app. simpl. lia. }
  apply wp_bind, wp_fail_if; intros; [done|].
  apply wp_bind. rewrite !(assoc_L (++)). apply wp_slice_rest;
    [rewrite !length_app; simpl; lia|rewrite !length_app; change (length hdr) with 4%nat; cbn [length]; lia|].
  apply wp_bind. eapply wp_mono; [by apply parse_prefixes6_enc| |done].
  intros [r cap] He. apply wp_ret. cbn [fst] in He. by subst.
Qed.

(** The extended-length bit does not matter to the validity of the flags. *)
Definition all_types : list libbgp_pattr_type_t :=
  [LIBBGP_PATTR_ORIGIN; LIBBGP_PATTR_AS_PATH; LIBBGP_PATTR_NEXT_HOP; LIBBGP_PATTR_MED;
   LIBBGP_PATTR_LOCAL_PREF; LIBBGP_PATTR_ATOMIC_AGGREGATE; LIBBGP_PATTR_AGGREGATOR;
   LIBBGP_PATTR_COMMUNITY; LIBBGP_PATTR_AS4_PATH; LIBBGP_PATTR_AS4_AGGREGATOR;
   LIBBGP_PATTR_MP_REACH_IPV6; LIBBGP_PATTR_MP_UNREACH_IPV6; LIBBGP_PATTR_UNKNOWN].

Lemma flags_ext type flags :
  is_u8 flags →
  pattr_known_flags_valid type (Z.lor flags LIBBGP_PATTR_FLAG_EXTENDED_LENGTH) =
    pattr_known_flags_valid type flags ∧
  Z.land (Z.lor flags LIBBGP_PATTR_FLAG_EXTENDED_LENGTH) LIBBGP_PATTR_FLAG_EXTENDED_LENGTH ≠ 0 ∧
  (Z.land flags LIBBGP_PATTR_FLAG_EXTENDED_LENGTH ≠ 0 →
     Z.lor flags LIBBGP_PATTR_FLAG_EXTENDED_LENGTH = flags).
Proof.
  intros Hf. unfold is_u8 in Hf.
  assert (Hall : forallb (λ k, forallb (λ t, let f := Z.of_nat k in
      let f' := Z.lor f LIBBGP_PATTR_FLAG_EXTENDED_LENGTH in
      Bool.eqb (pattr_known_flags_valid t f') (pattr_known_flags_valid t f) &&
      negb (Z.land f' LIBBGP_PATTR_FLAG_EXTENDED_LENGTH =? 0) &&
      ((Z.land f LIBBGP_PATTR_FLAG_EXTENDED_LENGTH =? 0) || (f' =? f))) all_types) (seq 0 256) = true)
    by by vm_compute.
  rewrite forallb_forall in Hall. specialize (Hall (Z.to_nat flags)).
  rewrite in_seq, Z2Nat.id in Hall by lia. specialize (Hall ltac:(lia)).
  rewrite forallb_forall in Hall. specialize (Hall type).
  assert (Hin : In type all_types) by (destruct type; simpl; tauto).
  specialize (Hall Hin). apply andb_true_iff in Hall as [Hall H3].
  apply andb_true_iff in Hall as [H1 H2]. apply eqb_prop in H1. split_and!; [done|lia|lia].
Qed.

Lemma type_from_default type :
  type ≠ LIBBGP_PATTR_UNKNOWN → pattr_type_from_code (pattr_default_type_code type) = type.
Proof. by destruct type. Qed.

Section PattrParseSpec.
Context {host : Host}.

Lemma parse_value_known_enc b attr :
  data_ok (pa_data attr) → data_parsed b (pa_type_code attr) (pa_data attr) →
  pa_type attr ≠ LIBBGP_PATTR_UNKNOWN → zlen (value_enc (pa_data attr)) <= 65535 →
  wp (parse_value (pa_type attr) (value_enc (pa_data attr)) b) (λ r, r = pa_data attr) no_err.
Proof.
  unfold pa_type. intros Hd Hp Ht Hl.
  destruct (pa_data attr) as [o|segs b'|nh|v|v| |asn rid b'|vs|segs b'|asn rid b'|nh nhl ps|ps|v];
    cbn [value_enc data_ok data_parsed parse_value] in *; try done.
  - apply wp_bind, wp_fail_if; intros; [done|]. apply wp_bind, wp_rd_cons0.
    apply wp_bind, wp_fail_if; intros; [exfalso; lia|]. by apply wp_ret.
  - destruct Hp as [-> Hne]. apply wp_bind. eapply wp_mono; [by apply parse_as_path_enc| |done].
    intros r ->. by apply wp_ret.
  - rewrite mem_of_u32_length. apply wp_bind, wp_fail_if; intros; [done|].
    apply wp_bind, wp_slice; [lia..|rewrite mem_of_u32_length; lia|]. apply wp_ret.
    rewrite drop_0, take_ge by (by rewrite mem_of_u32_length). by rewrite u32_of_mem_of_u32.
  - apply wp_bind, wp_fail_if; intros; [done|].
    apply wp_bind. eapply wp_rd_be32_put; [lia|done..|]. by apply wp_ret.
  - apply wp_bind, wp_fail_if; intros; [done|].
    apply wp_bind. eapply wp_rd_be32_put; [lia|done..|]. by apply wp_ret.
  - apply wp_bind, wp_fail_if; intros; [done|]. by apply wp_ret.
  - destruct Hd as [Ha Hr]. subst b'. destruct b.
    + apply wp_bind, wp_fail_if; intros; [done|].
      apply wp_bind. eapply wp_rd_be32_put; [lia|exact Ha|done|].
      apply wp_bind. eapply wp_rd_be32_put; [lia|exact Hr|done|]. by apply wp_ret.
    + rewrite put_asn_narrow by done. apply wp_bind, wp_fail_if; intros; [done|].
      apply wp_bind. eapply wp_rd_be16_put; [lia|exact Ha|done|].
      apply wp_bind. eapply wp_rd_be32_put; [lia|exact Hr|done|]. by apply wp_ret.
  - by apply parse_community_enc.
  - destruct Hd as [-> Hs]. apply wp_bind. eapply wp_mono; [by apply parse_as_path_enc| |done].
    intros r ->. by apply wp_ret.
  - destruct Hd as [Ha Hr]. subst b'. apply wp_bind, wp_fail_if; intros; [done|].
    apply wp_bind. eapply wp_rd_be32_put; [lia|exact Ha|done|].
    apply wp_bind. eapply wp_rd_be32_put; [lia|exact Hr|done|]. by apply wp_ret.
  - destruct Hd as (? & ? & _ & ?), Hp as [? ?]. apply parse_mp_reach_enc; try done.
    rewrite !length_app in Hl. lia.
  - apply parse_mp_unreach_enc; try done. rewrite !length_app in Hl. lia.
Qed.

Lemma parse_value_enc b attr :
  pattr_wf b attr →
  wp (parse_value (pattr_type_from_code (pa_type_code attr)) (value_enc (pa_data attr)) b)
     (λ r, r = pa_data attr) no_err.
Proof.
  intros ((_ & _ & _ & Hc & Hd & Hl) & _ & Hp).
  destruct (decide (pa_type attr = LIBBGP_PATTR_UNKNOWN)) as [Hu|Hu].
  - unfold pa_type in Hu. destruct (pa_data attr) as [| | | | | | | | | | | |v]; try done.
    cbn [value_enc data_parsed] in *.
    destruct (pattr_type_from_code (pa_type_code attr)); try done; cbn [parse_value].
    + destruct Hp as [Hl5 Hp]. by apply (proj1 (parse_mp_other v Hp)).
    + apply (proj2 (parse_mp_other v Hp)).
    + apply parse_unknown_spec.
  - rewrite Hc, type_from_default by done. by apply parse_value_known_enc.
Qed.

Lemma pattr_norm_ext attr :
  is_u8 (pa_flags attr) →
  (negb (Z.land (pa_flags (pattr_norm attr)) LIBBGP_PATTR_FLAG_EXTENDED_LENGTH =? 0)) =
    pa_extended attr.
Proof.
  intros Hf. unfold pattr_norm. cbn [pa_flags]. destruct (pa_extended attr) eqn:He.
  - destruct (flags_ext LIBBGP_PATTR_UNKNOWN _ Hf) as (_ & ? & _). lia.
  - unfold pa_extended in He. apply orb_false_iff in He as [_ He]. done.
Qed.

Lemma pattr_norm_flags_valid attr type :
  is_u8 (pa_flags attr) →
  pattr_known_flags_valid type (pa_flags (pattr_norm attr)) =
  pattr_known_flags_valid type (pa_flags attr).
Proof.
  intros Hf. unfold pattr_norm. cbn [pa_flags]. destruct (pa_extended attr); [|done].
  by destruct (flags_ext type _ Hf).
Qed.

Lemma pattr_parse_enc b attr rest :
  pattr_wf b attr →
  wp (libbgp_pattr_parse_as4 (pattr_enc attr ++ rest) b)
     (λ r, r = (pattr_norm attr, zlen (pattr_enc attr))) no_err.
Proof.
  intros Hwf. pose proof Hwf as ((Hf & _ & _ & _ & _ & Hl) & Hv & _).
  pose proof (pattr_header_length attr) as Hh. pose proof (pattr_norm_ext attr Hf) as Hext.
  unfold libbgp_pattr_parse_as4. rewrite pattr_enc_split, length_app in *.
  assert (Hrd : ∀ k, (k < length (pattr_header attr))%nat →
    ((pattr_header attr ++ value_enc (pa_data attr)) ++ rest) !! k = pattr_header attr !! k).
  { intros k Hk. rewrite <-(assoc_L (++)). by rewrite lookup_app_l. }
  apply wp_bind, wp_fail_if; intros; [exfalso; rewrite !length_app in *; destruct (pa_extended attr); lia|].
  apply wp_bind. eapply wp_rd_at; [lia|rewrite Hrd; [done|destruct (pa_extended attr); lia]|].
  apply wp_bind. eapply wp_rd_at; [lia|rewrite Hrd; [done|destruct (pa_extended attr); lia]|].
  rewrite Hext. apply wp_bind.
  eapply (wp_mono _ (λ r, r = (zlen (pattr_header attr), zlen (value_enc (pa_data attr)))) _ no_err);
    [|intros r ->|done].
  - rewrite Hh. unfold pattr_header in *. destruct (pa_extended attr) eqn:He.
    + apply wp_bind, wp_fail_if; intros; [exfalso; rewrite !length_app in *; simpl in *; lia|].
      apply wp_bind. eapply wp_rd_be16_put; [lia| |reflexivity|]; [unfold is_u16; lia|]. by apply wp_ret.
    + apply wp_bind. eapply wp_rd_at; [lia|rewrite Hrd; [done|simpl; lia]|]. by apply wp_ret.
  - apply wp_bind, wp_fail_if; intros; [exfalso; rewrite !length_app in *; lia|].
    rewrite pattr_norm_flags_valid, Hv by done. apply wp_bind, wp_fail_if; intros; [done|].
    rewrite <-(assoc_L (++)). apply wp_bind, wp_slice_app; [done..|].
    apply wp_bind. eapply wp_mono; [by apply parse_value_enc| |done].
    intros r ->. apply wp_ret. f_equal. rewrite length_app. lia.
Qed.

(** *** Arbitrary bytes *)

(** What a parsed value satisfies: it is a value of the type, or kept as
    unknown, and has the length of the parsed bytes. *)
Definition value_parsed (b : bool) (code : Z) (value : list Z) (data : libbgp_pattr_data) : Prop :=
  data_ok data ∧ data_parsed b code data ∧ zlen (value_enc data) = zlen value ∧
  (pa_type (Pattr 0 code data) = pattr_type_from_code code ∨
   pa_type (Pattr 0 code data) = LIBBGP_PATTR_UNKNOWN).

Lemma afi_safi_cases b0 b1 b2 rest :
  is_u8 b0 → is_u8 b1 →
  negb (bgp_get_be16 b0 b1 =? LIBBGP_AFI_IPV6) || negb (b2 =? LIBBGP_SAFI_UNICAST) = true →
  not_ipv6_unicast (b0 :: b1 :: b2 :: rest).
Proof. intros ? ? H. exists b0, b1, b2, rest. split; [done|]. lia. Qed.

Lemma parse_mp_unreach_spec b code value :
  bytes_ok value → zlen value <= 65535 →
  pattr_type_from_code code = LIBBGP_PATTR_MP_UNREACH_IPV6 →
  wp (parse_mp_unreach_ipv6 value) (value_parsed b code value)
     (λ e, e = LIBBGP_ERR_BAD_LEN ∨ e = LIBBGP_ERR_INVALID).
Proof.
  intros Hok Hmax Ht. unfold parse_mp_unreach_ipv6. unfold value_parsed.
  apply wp_bind, wp_fail_if; intros Hl; [auto|].
  destruct value as [|b0 [|b1 [|b2 rest]]]; try (exfalso; simpl in Hl; lia).
  rewrite !Forall_cons in Hok. destruct Hok as (H0 & H1 & H2 & Hrest).
  apply wp_bind, wp_bind; eapply wp_rd_at; [lia|reflexivity|].
  apply wp_bind; eapply wp_rd_at; [lia|reflexivity|]; apply wp_ret.
  apply wp_bind; eapply wp_rd_at; [lia|reflexivity|]. apply wp_if; intros Hc.
  - eapply wp_mono; [apply parse_unknown_spec| |done]. intros r ->.
    cbn [data_ok data_parsed value_enc pa_type pa_data]. rewrite Ht.
    split; [by repeat apply Forall_cons_2|]. split; [by apply afi_safi_cases|]. auto.
  - apply wp_bind. apply (wp_slice_rest [b0; b1; b2]); [done|simpl; lia|].
    apply wp_bind. eapply wp_mono; [apply parse_prefixes6_spec; [done|simpl in Hmax; lia]| |done].
    intros [ps cap] (Hw & Hn & Hpl). cbn [fst] in *. apply wp_ret.
    cbn [data_ok data_parsed value_enc pa_type pa_data]. rewrite Ht.
    split; [done|]. split; [done|]. split; [|by left]. rewrite !length_app. simpl length. lia.
Qed.

Lemma parse_mp_reach_spec b code value :
  bytes_ok value → zlen value <= 65535 →
  pattr_type_from_code code = LIBBGP_PATTR_MP_REACH_IPV6 →
  wp (parse_mp_reach_ipv6 value) (value_parsed b code value)
     (λ e, e = LIBBGP_ERR_BAD_LEN ∨ e = LIBBGP_ERR_INVALID).
Proof.
  intros Hok Hmax Ht. unfold parse_mp_reach_ipv6. unfold value_parsed.
  apply wp_bind, wp_fail_if; intros Hl; [auto|].
  destruct value as [|b0 [|b1 [|b2 rest]]]; try (exfalso; simpl in Hl; lia).
  pose proof Hok as Hok'. rewrite !Forall_cons in Hok'. destruct Hok' as (H0 & H1 & H2 & Hrest).
  apply wp_bind, wp_bind; eapply wp_rd_at; [lia|reflexivity|].
  apply wp_bind; eapply wp_rd_at; [lia|reflexivity|]; apply wp_ret.
  apply wp_bind; eapply wp_rd_at; [lia|reflexivity|]. apply wp_if; intros Hc.
  { eapply wp_mono; [apply parse_unknown_spec| |done]. intros r ->.
    cbn [data_ok data_parsed value_enc pa_type pa_data]. rewrite Ht.
    split; [done|]. split; [split; [lia|by apply afi_safi_cases]|]. auto. }
  set (value := b0 :: b1 :: b2 :: rest) in *.
  apply wp_bind, wp_rd; [lia|]. intros nhl Hnhl. apply wp_bind, wp_fail_if; intros Hn16; [auto|].
  apply wp_bind, wp_fail_if; intros Hfit; [auto|].
  apply wp_bind, wp_slice; [lia..|]. set (nh := take _ _).
  assert (Hnh : zlen nh = nhl) by (apply length_slice; lia).
  apply wp_bind, wp_store_front; [simpl length; lia|].
  apply wp_bind, wp_rd; [lia|]. intros rsv Hrsv. apply wp_bind, wp_fail_if; intros Hz; [auto|].
  apply wp_bind, wp_slice; [lia..|]. set (tl := take _ (drop _ value)).
  assert (Htl : zlen tl = zlen value - (5 + nhl)) by (apply length_slice; lia).
  apply wp_bind. eapply wp_mono; [apply parse_prefixes6_spec; [by apply bytes_ok_slice|lia]| |done].
  intros [ps cap] (Hw & Hn & Hpl). cbn [fst] in *. apply wp_ret.
  cbn [data_ok data_parsed value_enc pa_type pa_data]. rewrite Ht, drop_replicate.
  assert (Hlen : length (nh ++ replicate (32 - length nh) 0) = 32%nat) by (rewrite length_app, length_replicate; lia).
  split_and!; try done; [lia| | | |by left].
  - apply Forall_app_2; [by apply bytes_ok_slice|by apply Forall_replicate].
  - rewrite drop_app_length' by lia. f_equal. lia.
  - rewrite !length_app, length_take, Hlen, length_put_be16.
    change (length [LIBBGP_SAFI_UNICAST; nhl]) with 2%nat. change (length [0]) with 1%nat. lia.
Qed.

Lemma parse_value_spec b code value :
  bytes_ok value → zlen value <= 65535 →
  wp (parse_value (pattr_type_from_code code) value b) (value_parsed b code value)
     (λ e, e = LIBBGP_ERR_BAD_LEN ∨ e = LIBBGP_ERR_INVALID).
Proof.
  intros Hok Hmax. destruct (pattr_type_from_code code) eqn:Ht; cbn [parse_value];
    try (by apply parse_mp_reach_spec); try (by apply parse_mp_unreach_spec); unfold value_parsed.
  - apply wp_bind, wp_fail_if; intros; [auto|]. apply wp_bind, wp_rd; [lia|]. intros v Hv.
    assert (is_u8 v) by (eapply Forall_lookup_1; eauto). unfold is_u8 in *.
    apply wp_bind, wp_fail_if; intros; [auto|]. apply wp_ret. simpl. rewrite Ht. split_and!; auto; lia.
  - apply wp_bind. eapply wp_mono; [by apply parse_as_path_spec| |done].
    intros segs (He & Hs & Hn). apply wp_ret. simpl. rewrite Ht, He. auto.
  - apply wp_bind, wp_fail_if; intros; [auto|]. apply wp_bind, wp_slice; [lia..|].
    apply wp_ret. cbn [data_ok data_parsed value_enc pa_type pa_data]. rewrite Ht, mem_of_u32_length.
    split_and!; auto; [|lia]. apply u32_of_mem_range; [rewrite drop_0, length_take; lia|by apply bytes_ok_slice].
  - apply wp_bind, wp_fail_if; intros; [auto|]. apply wp_bind, wp_rd_be32; [done|lia..|]. intros v Hv.
    apply wp_ret. cbn [data_ok data_parsed value_enc pa_type pa_data]. rewrite Ht.
    split_and!; auto. rewrite length_put_be32. lia.
  - apply wp_bind, wp_fail_if; intros; [auto|]. apply wp_bind, wp_rd_be32; [done|lia..|]. intros v Hv.
    apply wp_ret. cbn [data_ok data_parsed value_enc pa_type pa_data]. rewrite Ht.
    split_and!; auto. rewrite length_put_be32. lia.
  - apply wp_bind, wp_fail_if; intros; [auto|]. apply wp_ret. simpl. rewrite Ht. split_and!; auto. lia.
  - apply wp_bind, wp_fail_if; intros Hl; [auto|]. destruct b.
    + apply wp_bind, wp_rd_be32; [done|lia..|]. intros asn Ha.
      apply wp_bind, wp_rd_be32; [done|lia..|]. intros rid Hr.
      apply wp_ret. cbn [data_ok data_parsed value_enc pa_type pa_data]. rewrite Ht.
      split_and!; auto. rewrite length_app. simpl length. lia.
    + apply wp_bind, wp_rd_be16; [done|lia..|]. intros asn Ha.
      apply wp_bind, wp_rd_be32; [done|lia..|]. intros rid Hr.
      apply wp_ret. cbn [data_ok data_parsed value_enc pa_type pa_data]. rewrite Ht.
      split_and!; auto. rewrite length_app. simpl length. lia.
  - eapply wp_mono; [by apply parse_community_spec| |auto].
    intros r (vs & -> & Hv & He). cbn [data_ok data_parsed value_enc pa_type pa_data].
    rewrite Ht, He. auto.
  - apply wp_bind. eapply wp_mono; [by apply parse_as_path_spec| |done].
    intros segs (He & Hs & Hn). apply wp_ret. simpl. rewrite Ht, He. auto.
  - apply wp_bind, wp_fail_if; intros Hl; [auto|].
    apply wp_bind, wp_rd_be32; [done|lia..|]. intros asn Ha.
    apply wp_bind, wp_rd_be32; [done|lia..|]. intros rid Hr.
    apply wp_ret. cbn [data_ok data_parsed value_enc pa_type pa_data]. rewrite Ht.
    split_and!; auto. rewrite length_app. simpl length. lia.
  - eapply wp_mono; [apply parse_unknown_spec| |done]. intros r ->.
    cbn [data_ok data_parsed value_enc pa_type pa_data]. rewrite Ht. auto.
Qed.

Lemma default_of_type code :
  pattr_type_from_code code ≠ LIBBGP_PATTR_UNKNOWN →
  pattr_default_type_code (pattr_type_from_code code) = code.
Proof. unfold pattr_type_from_code. repeat case_match; simpl; intros; try done; lia. Qed.

Lemma mp_flags_unknown flags :
  is_u8 flags →
  pattr_known_flags_valid LIBBGP_PATTR_MP_REACH_IPV6 flags = true ∨
  pattr_known_flags_valid LIBBGP_PATTR_MP_UNREACH_IPV6 flags = true →
  pattr_known_flags_valid LIBBGP_PATTR_UNKNOWN flags = true.
Proof.
  intros Hf. unfold is_u8 in Hf.
  assert (Hall : forallb (λ k, let f := Z.of_nat k in
      negb (pattr_known_flags_valid LIBBGP_PATTR_MP_REACH_IPV6 f ||
            pattr_known_flags_valid LIBBGP_PATTR_MP_UNREACH_IPV6 f) ||
      pattr_known_flags_valid LIBBGP_PATTR_UNKNOWN f) (seq 0 256) = true) by by vm_compute.
  rewrite forallb_forall in Hall. specialize (Hall (Z.to_nat flags)).
  rewrite in_seq, Z2Nat.id in Hall by lia. specialize (Hall ltac:(lia)).
  cbv zeta in Hall. intros [H|H]; rewrite H in Hall; simpl in Hall; rewrite ?orb_true_r in Hall; done.
Qed.

(** A parsed value with valid flags makes a well-formed attribute. *)
Lemma parsed_wf b flags code value data :
  is_u8 flags → is_u8 code → zlen value <= 65535 →
  pattr_known_flags_valid (pattr_type_from_code code) flags = true →
  value_parsed b code value data → pattr_wf b (Pattr flags code data).
Proof.
  intros Hf Hc Hl Hv (Hd & Hp & Hlen & Ht). change (pa_type (Pattr 0 code data)) with
    (pa_type (Pattr flags code data)) in Ht. split; [|done]. split_and!; try done; [| |cbn; lia].
  - destruct Ht as [->|Hu]; [done|]. rewrite Hu. unfold pa_type in Hu. cbn [pa_data] in Hu.
    destruct data; try done. cbn [data_parsed] in Hp.
    destruct (pattr_type_from_code code); try done; apply mp_flags_unknown; auto.
  - intros Hne. destruct Ht as [Ht|]; [|done]. rewrite Ht in *. cbn [pa_type_code].
    by rewrite default_of_type.
Qed.

Lemma pattr_parse_spec b buf :
  bytes_ok buf →
  wp (libbgp_pattr_parse_as4 buf b)
     (λ r, pattr_wf b r.1 ∧ pattr_norm r.1 = r.1 ∧ r.2 = zlen (pattr_enc r.1) ∧
        0 < r.2 <= zlen buf)
     (λ e, e = LIBBGP_ERR_BAD_LEN ∨ e = LIBBGP_ERR_INVALID).
Proof.
  intros Hok. unfold libbgp_pattr_parse_as4. apply wp_bind, wp_fail_if; intros Hl; [auto|].
  apply wp_bind, wp_rd; [lia|]. intros flags Hflags. apply wp_bind, wp_rd; [lia|]. intros code Hcode.
  assert (Hf : is_u8 flags) by (eapply Forall_lookup_1; eauto).
  assert (Hc : is_u8 code) by (eapply Forall_lookup_1; eauto).
  set (ext := negb (Z.land flags LIBBGP_PATTR_FLAG_EXTENDED_LENGTH =? 0)).
  apply wp_bind. eapply (wp_mono _ (λ r, r.1 = (if ext then 4 else 3) ∧ r.1 <= zlen buf ∧
    0 <= r.2 <= 65535 ∧ (ext = false → r.2 <= 255)) _ (λ e, e = LIBBGP_ERR_BAD_LEN));
    [|intros [hl vl]; cbn [fst snd]; intros (-> & Hhl & Hvl & Hshort)|auto].
  { apply wp_if; intros He.
    - apply wp_bind, wp_fail_if; intros; [done|]. apply wp_bind, wp_rd_be16; [done|lia..|].
      intros v Hv. apply wp_ret. unfold is_u16 in Hv. cbn [fst snd]. rewrite He. lia.
    - apply wp_bind, wp_rd; [lia|]. intros v Hv.
      assert (Hv8 : is_u8 v) by (eapply Forall_lookup_1; eauto). unfold is_u8 in Hv8.
      apply wp_ret. cbn [fst snd]. rewrite He. lia. }
  apply wp_bind, wp_fail_if; intros Hfit; [auto|]. apply wp_bind, wp_fail_if; intros Hv; [auto|].
  apply negb_false_iff in Hv. set (hl := if ext then 4 else 3) in *.
  assert (0 < hl) by (unfold hl; destruct ext; lia).
  apply wp_bind, wp_slice; [lia..|]. set (value := take _ _).
  assert (Hval : zlen value = vl) by (apply length_slice; lia).
  apply wp_bind. eapply wp_mono; [apply parse_value_spec; [by apply bytes_ok_slice|lia]| |done].
  intros data Hdata. apply wp_ret. cbn [fst snd].
  pose proof (parsed_wf b flags code value data Hf Hc ltac:(lia) Hv Hdata) as Hwf.
  destruct Hdata as (_ & _ & Hlen & _).
  assert (Hex : pa_extended (Pattr flags code data) = ext).
  { unfold pa_extended. cbn [pa_flags pa_data]. fold ext. rewrite Hlen, Hval.
    destruct ext; [apply orb_true_r|]. rewrite orb_false_r. lia. }
  split; [done|]. split.
  - unfold pattr_norm. rewrite Hex. cbn [pa_flags pa_type_code pa_data]. f_equal.
    destruct ext eqn:He; [|done]. destruct (flags_ext LIBBGP_PATTR_UNKNOWN _ Hf) as (_ & _ & ->); [done|].
    unfold ext in He. lia.
  - rewrite pattr_enc_split, length_app. pose proof (pattr_header_length (Pattr flags code data)) as Hh.
    rewrite Hex in Hh. fold hl in Hh. cbn [pa_data]. lia.
Qed.
End PattrParseSpec.

(** ** Properties *)

Section PattrProperties.
Context {host : Host}.

(** C31: Every well-formed attribute of every type is written whole into a
    large enough buffer, [libbgp_pattr_wire_len] predicts the number of
    bytes, and the bytes parse back (on a session of the same AS-number
    width, whatever follows them) to the same attribute, up to the
    extended-length flag the writer sets when the value is longer than 255
    octets. *)
Theorem pattr_write_parse_roundtrip b attr buf rest :
  pattr_wf b attr → 65539 <= zlen buf →
  ∃ buf' n,
    libbgp_pattr_wire_len attr [] = (Ret n, []) ∧
    libbgp_pattr_write attr buf [] = (Ret (buf', n), []) ∧
    libbgp_pattr_parse_as4 (take (Z.to_nat n) buf' ++ rest) b [] =
      (Ret (pattr_norm attr, n), []).
Proof.
  intros Hwf Hbuf. pose proof Hwf as (Hok & _). pose proof Hok as (_ & _ & _ & _ & _ & Hl).
  exists (written buf (pattr_enc attr)), (zlen (pattr_enc attr)). split_and!.
  - apply wp_returns. by apply pattr_wire_len_spec.
  - apply wp_returns. eapply wp_mono; [by apply pattr_write_spec|by intros ? [? _]|]. intros e [_ Hlt].
    rewrite pattr_enc_split, length_app in Hlt. pose proof (pattr_header_length attr).
    destruct (pa_extended attr); lia.
  - unfold written. rewrite Nat2Z.id, take_app_length. apply wp_returns. by apply pattr_parse_enc.
Qed.

(** Parsing any bytes as a path attribute, with any allocator and
    either AS-number width, terminates without reading outside the buffer or
    writing outside the AS_PATH block; the error codes are those listed; an
    accepted attribute is well-formed, carries the flag of its own encoding
    and occupies exactly the consumed bytes. *)
Theorem pattr_parse_accepts_wf b buf s :
  bytes_ok buf →
  match (libbgp_pattr_parse_as4 buf b s).1 with
  | Ret (attr, n) =>
      pattr_wf b attr ∧ pattr_norm attr = attr ∧ n = zlen (pattr_enc attr) ∧ 0 < n <= zlen buf
  | Err e => e ∈ [LIBBGP_ERR_BAD_LEN; LIBBGP_ERR_INVALID; LIBBGP_ERR_NOMEM]
  | Fault _ => False
  end.
Proof.
  intros Hok. destruct (pattr_parse_spec b buf Hok s) as (u & s' & _ & H).
  destruct (libbgp_pattr_parse_as4 buf b s) as [[[attr n]|e|f] t]; cbn [fst snd] in *.
  - by destruct H as [_ H].
  - destruct H as [_ [[->| ->]|[-> _]]]; set_solver.
  - done.
Qed.
End PattrProperties.

(** The block that receives a parsed AS_PATH: when the layout is
    accepted, the segment array is aligned for segments and lies behind the
    block header, the AS-number pool is aligned, lies behind the segments,
    ends exactly at the block's size, and no computation wrapped around. *)
Theorem as_path_block_layout_sound n m so ao size :
  0 <= n → 0 <= m → pattr_as_path_block_layout n m = Some (so, ao, size) →
  SIZEOF_BLOCK <= so ∧ so mod 8 = 0 ∧ so + n * SIZEOF_SEGMENT <= ao ∧ ao mod 4 = 0 ∧
  ao + m * SIZEOF_ASN = size ∧ size <= SIZE_MAX.
Proof. apply block_layout_spec. Qed.

(** ** Witnesses *)

#[local] Existing Instance little_endian_host.

Definition pattr_example : libbgp_pattr_t :=
  Pattr 0x40 2 (d_as_path [Segment 2 [64512; 4200000000]; Segment 1 [1; 2; 3]] true).

Lemma pattr_example_wf : pattr_wf true pattr_example.
Proof.
  split; [|split; [reflexivity|split; [done|repeat constructor; done]]].
  split_and!; try (unfold is_u8; simpl; lia); try done.
  repeat constructor; simpl; unfold is_u32; lia.
Qed.

Lemma pattr_write_parse_roundtrip_witness :
  ∃ buf' n,
    libbgp_pattr_wire_len pattr_example [] = (Ret n, []) ∧
    libbgp_pattr_write pattr_example (replicate (Z.to_nat 65539) 0) [] = (Ret (buf', n), []) ∧
    libbgp_pattr_parse_as4 (take (Z.to_nat n) buf' ++ [9]) true [] =
      (Ret (pattr_norm pattr_example, n), []).
Proof.
  apply pattr_write_parse_roundtrip; [apply pattr_example_wf|].
  rewrite length_replicate. lia.
Defined.

Lemma pattr_parse_accepts_wf_witness :
  ∃ attr n, (libbgp_pattr_parse_as4 [0x40; 1; 1; 2] false []).1 = Ret (attr, n) ∧
    pattr_wf false attr ∧ n = zlen (pattr_enc attr).
Proof.
  assert (Hok : bytes_ok [0x40; 1; 1; 2]) by by repeat constructor.
  pose proof (pattr_parse_accepts_wf false [0x40; 1; 1; 2] [] Hok) as H.
  eexists _, _. split; [vm_compute; reflexivity|].
  vm_compute in H |- *. tauto.
Defined.

Lemma as_path_block_layout_sound_witness :
  pattr_as_path_block_layout 3 7 = Some (24, 96, 124) ∧ 24 + 3 * SIZEOF_SEGMENT <= 96.
Proof.
  split; [reflexivity|]. by apply (as_path_block_layout_sound 3 7 24 96 124).
Defined.
