(* ===== verification/PattrFormat.v ===== *)
(** * Text of a path attribute (src/pattr.c: libbgp_pattr_format)

    The formatter writes into a buffer of the caller, or only counts when it
    is given none, and reports how long the text is.  The attribute is taken
    the way the C object holds it: an array is a pointer and a count, and the
    pointer may be NULL whatever the count says; the type may be no member of
    the enumeration.  [c_of] is the object of an attribute of [Pattr]. *)

From Stdlib Require Import String Ascii.
From S2P Require Import Prelude Bytes Prefix6 Pattr PattrSpec.

(** ** The object *)

Inductive c_array (A : Type) : Type :=
  | Null (count : Z)
  | Items (items : list A).
Arguments Null {A} count.
Arguments Items {A} items.

Definition ca_count {A} (a : c_array A) : Z :=
  match a with Null count => count | Items items => zlen items end.

(** [count != 0u && items == NULL] *)
Definition ca_missing {A} (a : c_array A) : bool :=
  match a with Null count => negb (count =? 0) | Items _ => false end.

(** What a loop over the indices below the count reads. *)
Definition ca_items {A} (a : c_array A) : list A :=
  match a with Null _ => [] | Items items => items end.

Record c_segment : Type := CSegment { cs_type : Z; cs_asns : c_array Z }.

Inductive c_data : Type :=
  | c_origin (origin : Z)
  | c_as_path (is_4b : bool) (segments : c_array c_segment)
  | c_next_hop (next_hop : Z)
  | c_med (value : Z)
  | c_local_pref (value : Z)
  | c_atomic_aggregate
  | c_aggregator (asn router_id : Z) (is_4b : bool)
  | c_community (values : c_array Z)
  | c_as4_path (is_4b : bool) (segments : c_array c_segment)
  | c_as4_aggregator (asn router_id : Z) (is_4b : bool)
  | c_mp_reach_ipv6 (nexthop_len : Z) (nlri : c_array libbgp_prefix6_t)
  | c_mp_unreach_ipv6 (withdrawn : c_array libbgp_prefix6_t)
  | c_unknown (len : Z)
  | c_invalid.

Record c_pattr : Type := CPattr { cp_flags : Z; cp_type_code : Z; cp_data : c_data }.

(** The type; [None] is a value that is no member of the enumeration. *)
Definition cp_type (attr : c_pattr) : option libbgp_pattr_type_t :=
  match cp_data attr with
  | c_origin _ => Some LIBBGP_PATTR_ORIGIN
  | c_as_path _ _ => Some LIBBGP_PATTR_AS_PATH
  | c_next_hop _ => Some LIBBGP_PATTR_NEXT_HOP
  | c_med _ => Some LIBBGP_PATTR_MED
  | c_local_pref _ => Some LIBBGP_PATTR_LOCAL_PREF
  | c_atomic_aggregate => Some LIBBGP_PATTR_ATOMIC_AGGREGATE
  | c_aggregator _ _ _ => Some LIBBGP_PATTR_AGGREGATOR
  | c_community _ => Some LIBBGP_PATTR_COMMUNITY
  | c_as4_path _ _ => Some LIBBGP_PATTR_AS4_PATH
  | c_as4_aggregator _ _ _ => Some LIBBGP_PATTR_AS4_AGGREGATOR
  | c_mp_reach_ipv6 _ _ => Some LIBBGP_PATTR_MP_REACH_IPV6
  | c_mp_unreach_ipv6 _ => Some LIBBGP_PATTR_MP_UNREACH_IPV6
  | c_unknown _ => Some LIBBGP_PATTR_UNKNOWN
  | c_invalid => None
  end.

Definition libbgp_pattr_type_name (type : option libbgp_pattr_type_t) : string :=
  match type with
  | Some LIBBGP_PATTR_ORIGIN => "ORIGIN"
  | Some LIBBGP_PATTR_AS_PATH => "AS_PATH"
  | Some LIBBGP_PATTR_NEXT_HOP => "NEXT_HOP"
  | Some LIBBGP_PATTR_MED => "MED"
  | Some LIBBGP_PATTR_LOCAL_PREF => "LOCAL_PREF"
  | Some LIBBGP_PATTR_ATOMIC_AGGREGATE => "ATOMIC_AGGREGATE"
  | Some LIBBGP_PATTR_AGGREGATOR => "AGGREGATOR"
  | Some LIBBGP_PATTR_COMMUNITY => "COMMUNITY"
  | Some LIBBGP_PATTR_AS4_PATH => "AS4_PATH"
  | Some LIBBGP_PATTR_AS4_AGGREGATOR => "AS4_AGGREGATOR"
  | Some LIBBGP_PATTR_MP_REACH_IPV6 => "MP_REACH_IPV6"
  | Some LIBBGP_PATTR_MP_UNREACH_IPV6 => "MP_UNREACH_IPV6"
  | Some LIBBGP_PATTR_UNKNOWN | None => "UNKNOWN"
  end%string.

(** ** printf

    A format string with its arguments is the list of its pieces. *)

Definition chars (s : string) : list Z := (λ c, Z.of_nat (nat_of_ascii c)) <$> list_ascii_of_string s.

Definition digit (d : Z) : Z := if d <? 10 then 48 + d else 87 + d.

Fixpoint digits (fuel : nat) (base n : Z) (acc : list Z) : list Z :=
  match fuel with
  | O => acc
  | S fuel =>
      let acc := digit (n mod base) :: acc in
      if n / base =? 0 then acc else digits fuel base (n / base) acc
  end.

(** [%u] and [%zu]; 2^64 has twenty digits. *)
Definition dec (n : Z) : list Z := digits 20 10 n [].

(** [%0<width>x] *)
Definition hex (width : nat) (n : Z) : list Z :=
  let ds := digits 16 16 n [] in replicate (width - length ds) 48 ++ ds.

Inductive piece : Type :=
  | lit (s : string)
  | pct_s (s : string)
  | pct_u (n : Z)
  | pct_x (width : nat) (n : Z).
Coercion lit : string >-> piece.

Definition piece_text (p : piece) : list Z :=
  match p with
  | lit s | pct_s s => chars s
  | pct_u n => dec n
  | pct_x width n => hex width n
  end.

Definition render (fmt : list piece) : list Z := concat (piece_text <$> fmt).

Definition INT_MAX : Z := 2 ^ 31 - 1.

(** [vsnprintf(buf + pos, size, ...)]: at most [size - 1] characters and a
    NUL; nothing when the size is zero.  The result is the length of the whole
    text, negative when that is no [int]. *)
Definition vsnprintf (buf : list Z) (pos size : Z) (text : list Z) : M (list Z * Z) :=
  buf ← (if size =? 0 then mret buf else store buf pos (take (Z.to_nat (size - 1)) text ++ [0]));
  mret (buf, if INT_MAX <? zlen text then -1 else zlen text).

(** ** The formatter *)

(** The buffer, NULL or [buf_len] characters, and [*pos]. *)
Abbreviation fmt_state := (option (list Z) * Z)%type.
Abbreviation formatter := (fmt_state -> M (libbgp_err_t * fmt_state)).

(** [err = p(...); if (err != LIBBGP_OK) return err; q(...)] *)
Definition andthen (p q : formatter) : formatter := λ st,
  '(e, st) ← p st;
  if decide (e = LIBBGP_OK) then q st else mret (e, st).

Definition done_ok : formatter := λ st, mret (LIBBGP_OK, st).

Section Formatter.
Variable buf_len : Z.

Definition pattr_format_append (fmt : list piece) : formatter := λ '(buf, pos),
  let text := render fmt in
  '(buf, wrote) ←
    match buf with
    | Some b =>
        if pos <? buf_len
        then '(b, wrote) ← vsnprintf b pos (buf_len - pos) text; mret (Some b, wrote)
        else '(_, wrote) ← vsnprintf [0] 0 0 text; mret (buf, wrote)
    | None => '(_, wrote) ← vsnprintf [0] 0 0 text; mret (buf, wrote)
    end;
  if wrote <? 0 then mret (LIBBGP_ERR_INVALID, (buf, pos))
  else mret (LIBBGP_OK, (buf, u64 (pos + wrote))).

(** [for (i = 0u; i < count; i++) append("%s%u", i == 0u ? "" : ",", values[i])] *)
Fixpoint format_values (i : Z) (values : list Z) : formatter :=
  match values with
  | [] => done_ok
  | v :: values =>
      andthen (pattr_format_append [pct_s (if i =? 0 then "" else ","); pct_u v])
              (format_values (i + 1) values)
  end.

Fixpoint format_segments (i : Z) (segments : list c_segment) : formatter :=
  match segments with
  | [] => done_ok
  | seg :: segments =>
      andthen (pattr_format_append [lit " segment["; pct_u i; lit "]={type="; pct_u (cs_type seg); lit " asns=["])
     (andthen (if ca_missing (cs_asns seg) then pattr_format_append [lit "malformed"]
               else format_values 0 (ca_items (cs_asns seg)))
     (andthen (pattr_format_append [lit "]}"])
              (format_segments (i + 1) segments)))
  end.

Definition flag (b : bool) : Z := if b then 1 else 0.

Definition pattr_format_as_path (is_4b : bool) (segments : c_array c_segment) : formatter :=
  andthen (pattr_format_append [lit " is_4b="; pct_u (flag is_4b); lit " segments="; pct_u (ca_count segments)])
          (if ca_missing segments then pattr_format_append [lit " malformed"]
           else format_segments 0 (ca_items segments)).

Definition pattr_format_u32_list (values : c_array Z) : formatter :=
  if ca_missing values then pattr_format_append [lit " malformed"]
  else
    andthen (pattr_format_append [lit " values=["])
   (andthen (format_values 0 (ca_items values))
            (pattr_format_append [lit "]"])).

(** The [switch] on the type. *)
Definition format_data (data : c_data) : formatter :=
  match data with
  | c_origin origin => pattr_format_append [lit " origin="; pct_u origin]
  | c_as_path is_4b segments | c_as4_path is_4b segments => pattr_format_as_path is_4b segments
  | c_next_hop next_hop => pattr_format_append [lit " next_hop=0x"; pct_x 8 next_hop]
  | c_med value => pattr_format_append [lit " med="; pct_u value]
  | c_local_pref value => pattr_format_append [lit " local_pref="; pct_u value]
  | c_atomic_aggregate => pattr_format_append [lit " atomic=1"]
  | c_aggregator asn router_id is_4b | c_as4_aggregator asn router_id is_4b =>
      pattr_format_append
        [lit " asn="; pct_u asn; lit " router_id=0x"; pct_x 8 router_id; lit " is_4b="; pct_u (flag is_4b)]
  | c_community values =>
      andthen (pattr_format_append [lit " count="; pct_u (ca_count values)])
              (pattr_format_u32_list values)
  | c_mp_reach_ipv6 nexthop_len nlri =>
      andthen (pattr_format_append
                 [lit " nexthop_len="; pct_u nexthop_len; lit " nlri_count="; pct_u (ca_count nlri)])
              (if ca_missing nlri then pattr_format_append [lit " malformed"] else done_ok)
  | c_mp_unreach_ipv6 withdrawn =>
      andthen (pattr_format_append [lit " withdrawn_count="; pct_u (ca_count withdrawn)])
              (if ca_missing withdrawn then pattr_format_append [lit " malformed"] else done_ok)
  | c_unknown len => pattr_format_append [lit " len="; pct_u len]
  | c_invalid => pattr_format_append [lit " invalid=1"]
  end.

(** The code, the buffer and [*out_len]. *)
Definition libbgp_pattr_format (attr : option c_pattr) (buf : option (list Z))
    : M (libbgp_err_t * option (list Z) * Z) :=
  match attr with
  | None => mret (LIBBGP_ERR_INVALID, buf, 0)
  | Some attr =>
      if bool_decide (buf = None) && negb (buf_len =? 0) then mret (LIBBGP_ERR_INVALID, buf, 0)
      else
        '(e, st) ← pattr_format_append
                     [pct_s (libbgp_pattr_type_name (cp_type attr)); lit " flags=0x"; pct_x 2 (cp_flags attr);
                      lit " code="; pct_u (cp_type_code attr)] (buf, 0);
        if decide (e = LIBBGP_OK) then
          '(e, (buf, pos)) ← format_data (cp_data attr) st;
          if decide (e = LIBBGP_OK) then
            if bool_decide (buf = None) || (buf_len =? 0) || (buf_len <=? pos)
            then mret (LIBBGP_ERR_BUFFER, buf, pos)
            else mret (LIBBGP_OK, buf, pos)
          else mret (e, buf, pos)
        else mret (e, st.1, 0)
  end.
End Formatter.

(** The object of an attribute: every pointer is set where there is something
    to point to. *)
Definition c_segment_of (seg : libbgp_as_path_segment_t) : c_segment := CSegment (seg_type seg) (Items (seg_asns seg)).

Definition c_data_of (data : libbgp_pattr_data) : c_data :=
  match data with
  | d_origin origin => c_origin origin
  | d_as_path segments is_4b => c_as_path is_4b (Items (c_segment_of <$> segments))
  | d_next_hop next_hop => c_next_hop next_hop
  | d_med value => c_med value
  | d_local_pref value => c_local_pref value
  | d_atomic_aggregate => c_atomic_aggregate
  | d_aggregator asn router_id is_4b => c_aggregator asn router_id is_4b
  | d_community values => c_community (Items values)
  | d_as4_path segments is_4b => c_as4_path is_4b (Items (c_segment_of <$> segments))
  | d_as4_aggregator asn router_id is_4b => c_as4_aggregator asn router_id is_4b
  | d_mp_reach_ipv6 _ nexthop_len nlri => c_mp_reach_ipv6 nexthop_len (Items nlri)
  | d_mp_unreach_ipv6 withdrawn => c_mp_unreach_ipv6 (Items withdrawn)
  | d_unknown value => c_unknown (zlen value)
  end.

Definition c_of (attr : libbgp_pattr_t) : c_pattr :=
  CPattr (pa_flags attr) (pa_type_code attr) (c_data_of (pa_data attr)).

(** A communities attribute in a buffer that is too short. *)
Example format_example :
  libbgp_pattr_format 30 (Some (c_of (Pattr 0xc0 8 (d_community [65537; 7])))) (Some (replicate 30 1)) [] =
  (Ret (LIBBGP_ERR_BUFFER, Some (chars "COMMUNITY flags=0xc0 code=8 c" ++ [0]), 52), []).
Proof. vm_compute. reflexivity. Qed.
