(* ===== verification/PattrText.v ===== *)
(** * Theorems about the text of a path attribute

    The text the formatter stands for, what it leaves in the buffer, and that
    the text tells attributes apart. *)

From Stdlib Require Import String Ascii.
From S2P Require Import Prelude Bytes Prefix6 Pattr PattrSpec PattrFormat.

(** ** The text *)

Fixpoint comma_separated (values : list Z) : list Z :=
  match values with
  | [] => []
  | [v] => dec v
  | v :: values => dec v ++ chars "," ++ comma_separated values
  end.

Definition asns_text (asns : c_array Z) : list Z :=
  if ca_missing asns then chars "malformed" else comma_separated (ca_items asns).

Definition segment_text (i : Z) (seg : c_segment) : list Z :=
  chars " segment[" ++ dec i ++ chars "]={type=" ++ dec (cs_type seg) ++ chars " asns=[" ++
  asns_text (cs_asns seg) ++ chars "]}".

Fixpoint segments_text (i : Z) (segments : list c_segment) : list Z :=
  match segments with
  | [] => []
  | seg :: segments => segment_text i seg ++ segments_text (i + 1) segments
  end.

Definition path_text (is_4b : bool) (segments : c_array c_segment) : list Z :=
  chars " is_4b=" ++ dec (flag is_4b) ++ chars " segments=" ++ dec (ca_count segments) ++
  (if ca_missing segments then chars " malformed" else segments_text 0 (ca_items segments)).

Definition missing_text {A} (a : c_array A) : list Z := if ca_missing a then chars " malformed" else [].

Definition data_text (data : c_data) : list Z :=
  match data with
  | c_origin origin => chars " origin=" ++ dec origin
  | c_as_path is_4b segments | c_as4_path is_4b segments => path_text is_4b segments
  | c_next_hop next_hop => chars " next_hop=0x" ++ hex 8 next_hop
  | c_med value => chars " med=" ++ dec value
  | c_local_pref value => chars " local_pref=" ++ dec value
  | c_atomic_aggregate => chars " atomic=1"
  | c_aggregator asn router_id is_4b | c_as4_aggregator asn router_id is_4b =>
      chars " asn=" ++ dec asn ++ chars " router_id=0x" ++ hex 8 router_id ++ chars " is_4b=" ++ dec (flag is_4b)
  | c_community values =>
      chars " count=" ++ dec (ca_count values) ++
      (if ca_missing values then chars " malformed" else chars " values=[" ++ comma_separated (ca_items values) ++ chars "]")
  | c_mp_reach_ipv6 nexthop_len nlri =>
      chars " nexthop_len=" ++ dec nexthop_len ++ chars " nlri_count=" ++ dec (ca_count nlri) ++ missing_text nlri
  | c_mp_unreach_ipv6 withdrawn => chars " withdrawn_count=" ++ dec (ca_count withdrawn) ++ missing_text withdrawn
  | c_unknown len => chars " len=" ++ dec len
  | c_invalid => chars " invalid=1"
  end.

Definition head_text (attr : c_pattr) : list Z :=
  chars (libbgp_pattr_type_name (cp_type attr)) ++ chars " flags=0x" ++ hex 2 (cp_flags attr) ++
  chars " code=" ++ dec (cp_type_code attr).

Definition pattr_text (attr : c_pattr) : list Z := head_text attr ++ data_text (cp_data attr).

(** ** Digits *)

Lemma length_digits fuel base n acc : (length (digits fuel base n acc) <= fuel + length acc)%nat.
Proof.
  revert n acc. induction fuel as [|fuel IH]; intros n acc; cbn [digits]; [lia|].
  case_match; [cbn [length]; lia|]. specialize (IH (n / base) (digit (n mod base) :: acc)). cbn [length] in IH. lia.
Qed.

Lemma length_dec n : zlen (dec n) <= 20.
Proof. pose proof (length_digits 20 10 n []). unfold dec. cbn [length] in *. lia. Qed.

Lemma length_hex width n : (width <= 16)%nat → zlen (hex width n) <= 16.
Proof.
  intros Hw. pose proof (length_digits 16 16 n []). unfold hex. rewrite length_app, length_replicate. cbn [length] in *. lia.
Qed.

(** The value of a numeral. *)
Definition undigit (c : Z) : Z := if c <? 58 then c - 48 else c - 87.
Definition value_of (base : Z) (ds : list Z) : Z := foldl (λ v c, v * base + undigit c) 0 ds.

Lemma undigit_digit d : 0 <= d < 16 → undigit (digit d) = d.
Proof. intros. unfold undigit, digit. repeat case_match; lia. Qed.

Lemma foldl_value base ds v : foldl (λ v c, v * base + undigit c) v ds = v * base ^ zlen ds + value_of base ds.
Proof.
  unfold value_of. revert v. induction ds as [|c ds IH]; intros v; cbn [foldl length]; [simpl Z.of_nat; lia|].
  rewrite IH, (IH (0 * base + undigit c)). rewrite Nat2Z.inj_succ, Z.pow_succ_r by lia. ring.
Qed.

Lemma value_digits fuel base n acc :
  2 <= base <= 16 → 0 <= n < base ^ Z.of_nat fuel →
  value_of base (digits fuel base n acc) = n * base ^ zlen acc + value_of base acc.
Proof.
  intros Hb. revert n acc. induction fuel as [|fuel IH]; intros n acc Hn; cbn [digits].
  { assert (n = 0) as -> by (simpl in Hn; lia). lia. }
  rewrite Nat2Z.inj_succ, Z.pow_succ_r in Hn by lia.
  assert (Hmod : 0 <= n mod base < base) by (apply Z.mod_pos_bound; lia).
  assert (Hcons : value_of base (digit (n mod base) :: acc) = (n mod base) * base ^ zlen acc + value_of base acc).
  { unfold value_of at 1. cbn [foldl]. rewrite foldl_value, undigit_digit by lia. ring. }
  pose proof (Z.div_mod n base ltac:(lia)) as Hdm. case_match.
  - rewrite Hcons. assert (n / base = 0) by lia. f_equal. f_equal. lia.
  - rewrite IH, Hcons.
    + cbn [length]. rewrite Nat2Z.inj_succ, Z.pow_succ_r by lia. rewrite Hdm at 3. ring.
    + split; [apply Z.div_pos; lia|]. apply Z.div_lt_upper_bound; lia.
Qed.

Lemma dec_inj n m : is_u64 n → is_u64 m → dec n = dec m → n = m.
Proof.
  unfold is_u64, dec. intros Hn Hm Heq. apply (f_equal (value_of 10)) in Heq.
  rewrite !value_digits in Heq by (change (10 ^ Z.of_nat 20) with 100000000000000000000; lia). cbn in Heq. lia.
Qed.

Lemma hex_inj width n m : is_u32 n → is_u32 m → hex width n = hex width m → n = m.
Proof.
  unfold is_u32, hex. intros Hn Hm Heq. apply (f_equal (value_of 16)) in Heq.
  assert (Hz : ∀ k ds, value_of 16 (replicate k 48 ++ ds) = value_of 16 ds).
  { intros k ds. unfold value_of. rewrite foldl_app, foldl_value.
    replace (foldl _ 0 (replicate k 48)) with 0; [done|]. induction k as [|k IH]; [done|]. exact IH. }
  rewrite !Hz, !value_digits in Heq by (change (16 ^ Z.of_nat 16) with 18446744073709551616; lia). cbn in Heq. lia.
Qed.

(** The characters of a numeral. *)
Definition is_digit (c : Z) : Prop := 48 <= c <= 57 ∨ 97 <= c <= 102.

Lemma digits_chars fuel base n acc : 2 <= base <= 16 → Forall is_digit acc → Forall is_digit (digits fuel base n acc).
Proof.
  intros Hb. revert n acc. induction fuel as [|fuel IH]; intros n acc Hacc; cbn [digits]; [done|].
  assert (Forall is_digit (digit (n mod base) :: acc)).
  { constructor; [|done]. pose proof (Z.mod_pos_bound n base). unfold digit, is_digit. case_match; lia. }
  case_match; [done|]. by apply IH.
Qed.

Lemma dec_chars n : Forall is_digit (dec n).
Proof. apply digits_chars; [lia|constructor]. Qed.

Lemma hex_chars width n : Forall is_digit (hex width n).
Proof.
  apply Forall_app. split; [|apply digits_chars; [lia|constructor]]. apply Forall_replicate. unfold is_digit. lia.
Qed.

Lemma digits_nonempty fuel base n acc : acc ≠ [] → digits fuel base n acc ≠ [].
Proof.
  revert n acc. induction fuel as [|fuel IH]; intros n acc Ha; cbn [digits]; [done|]. case_match; [done|]. by apply IH.
Qed.

Lemma dec_nonempty n : dec n ≠ [].
Proof.
  unfold dec. change 20%nat with (S 19). generalize 19%nat. intros fuel. cbn [digits].
  case_match; [done|]. by apply digits_nonempty.
Qed.

(** ** The buffer *)

Section Buffer.
Variable buf_len : Z.
Implicit Types (buf : option (list Z)) (text told : list Z).

(** What is left in a buffer: the text cut to size and a NUL. *)
Definition shown (b told : list Z) : list Z :=
  if buf_len =? 0 then b
  else let front := take (Z.to_nat (buf_len - 1)) told ++ [0] in front ++ drop (length front) b.

(** The state once [told], which is not empty, was appended. *)
Definition state_of buf told : fmt_state := ((λ b, shown b told) <$> buf, zlen told).

Definition buf_ok buf : Prop := match buf with Some b => zlen b = buf_len | None => True end.

(** A formatter that appends the text, as far as the buffer goes. *)
Definition prints (p : formatter) text : Prop :=
  ∀ buf told, buf_ok buf → told ≠ [] → zlen (told ++ text) < 2 ^ 64 →
    wp (p (state_of buf told)) (λ r, r = (LIBBGP_OK, state_of buf (told ++ text))) no_err.

Lemma shown_past (b told text : list Z) :
  buf_len <= zlen told → shown b (told ++ text) = shown b told.
Proof. intros Hl. unfold shown. case_match; [done|]. rewrite take_app_le by lia. done. Qed.

(** Storing behind what is there; the buffer holds the text so far. *)
Lemma store_shown (b told text rest : list Z) :
  zlen b = buf_len → zlen told < buf_len → (∀ n, (0 < n)%nat → drop n rest = drop (length told + n) b) → length (told ++ rest) = length b →
  wp (store (told ++ rest) (zlen told) (take (Z.to_nat (buf_len - zlen told - 1)) text ++ [0]))
     (λ r, r = shown b (told ++ text)) no_err.
Proof.
  intros Hb Ht Hrest Hl. rewrite length_app in Hl. apply wp_store.
  - lia.
  - rewrite !length_app, length_take. cbn [length]. lia.
  - unfold shown. replace (buf_len =? 0) with false by lia. rewrite Nat2Z.id, take_app_length.
    replace (Z.to_nat (buf_len - 1)) with (length told + Z.to_nat (buf_len - zlen told - 1))%nat by lia.
    rewrite take_app_add, drop_app_add, !length_app. cbn [length]. rewrite Hrest by lia. rewrite <-!(assoc_L (++)). do 4 f_equal. lia.
Qed.

Lemma wp_append (fmt : list piece) buf st told :
  buf_ok buf → zlen (render fmt) <= INT_MAX → zlen (told ++ render fmt) < 2 ^ 64 →
  (st = state_of buf told ∧ told ≠ [] ∨ st = (buf, 0) ∧ told = []) →
  wp (pattr_format_append buf_len fmt st) (λ r, r = (LIBBGP_OK, state_of buf (told ++ render fmt))) no_err.
Proof.
  intros Hok Hint Hfit Hst. unfold INT_MAX in Hint. set (text := render fmt) in *.
  assert (Hpos : st.2 = zlen told) by (by destruct Hst as [[-> _]|[-> ->]]).
  assert (Hnull : is_Some st.1 ↔ is_Some buf) by (destruct Hst as [[-> _]|[-> _]]; [apply fmap_is_Some|done]).
  assert (Hlen : 0 <= buf_len ∨ buf = None) by (destruct buf; [left; cbn in Hok; lia|by right]).
  unfold pattr_format_append. destruct st as [cur pos]. cbn [fst snd] in *. subst pos. fold text.
  set (out := state_of buf (told ++ text)).
  assert (Htail : ∀ cur', cur' = out.1 →
    wp (if zlen text <? 0 then mret (LIBBGP_ERR_INVALID, (cur', zlen told)) else mret (LIBBGP_OK, (cur', u64 (zlen told + zlen text))))
       (λ r, r = (LIBBGP_OK, out)) no_err).
  { intros cur' ->. replace (zlen text <? 0) with false by lia. apply wp_ret. unfold out, state_of. do 2 f_equal. cbn [snd fst].
    rewrite length_app in *. unfold u64. rewrite Z.mod_small by lia. lia. }
  assert (Hcount : ∀ cur', cur' = out.1 → wp ('(cur', wrote) ← ('(_, wrote) ← vsnprintf [0] 0 0 text; mret (cur', wrote));
    if wrote <? 0 then mret (LIBBGP_ERR_INVALID, (cur', zlen told)) else mret (LIBBGP_OK, (cur', u64 (zlen told + wrote))))
    (λ r, r = (LIBBGP_OK, out)) no_err).
  { intros cur' Hc. apply wp_bind, wp_bind, wp_bind, wp_ret, wp_ret, wp_ret. replace (INT_MAX <? zlen text) with false by (unfold INT_MAX; lia). by apply Htail. }
  destruct buf as [b|].
  2:{ destruct cur; [exfalso; by apply (is_Some_None (A := list Z)), Hnull|]. by apply Hcount. }
  destruct cur as [c|]; [|exfalso; by apply (is_Some_None (A := list Z)), Hnull]. cbn [buf_ok] in Hok.
  destruct (zlen told <? buf_len) eqn:Hroom.
  2:{ destruct Hst as [[Hst Hne]|[[= ->] ->]].
      - injection Hst as ->. apply Hcount. unfold out, state_of. cbn [fst fmap option_fmap option_map]. by rewrite shown_past by lia.
      - apply Hcount. unfold out, state_of, shown. cbn [fst fmap option_fmap option_map length] in *. by replace (buf_len =? 0) with true by lia. }
  apply wp_bind, wp_bind, wp_bind. replace (buf_len - zlen told =? 0) with false by lia.
  assert (∃ rest, c = told ++ rest ∧ (∀ n, (0 < n)%nat → drop n rest = drop (length told + n) b) ∧ length (told ++ rest) = length b) as (rest & -> & Hrest & Hl).
  { destruct Hst as [[Hst Hne]|[[= ->] ->]]; [|by exists b]. injection Hst as ->.
    unfold shown. replace (buf_len =? 0) with false by lia. rewrite take_ge by lia.
    exists ([0] ++ drop (length (told ++ [0])) b). rewrite (assoc_L (++)). split; [done|]. split.
    - intros [|n] Hn; [lia|]. cbn [app drop]. rewrite drop_drop, length_app. cbn [length]. f_equal. lia.
    - rewrite length_app, length_drop, length_app in *. cbn [length] in *. lia. }
  eapply wp_mono; [apply (store_shown b told text rest); [done|lia|done|done]| |done]. intros r ->.
  apply wp_ret, wp_ret. replace (INT_MAX <? zlen text) with false by (unfold INT_MAX; lia). by apply Htail.
Qed.

Lemma prints_append (fmt : list piece) text :
  text = render fmt → zlen (render fmt) <= INT_MAX → prints (pattr_format_append buf_len fmt) text.
Proof. intros -> Hint buf told Hok Hne Hfit. apply wp_append; [done..|]. by left. Qed.

Lemma prints_andthen p q t1 t2 : prints p t1 → prints q t2 → prints (andthen p q) (t1 ++ t2).
Proof.
  intros Hp Hq buf told Hok Hne Hfit. rewrite !length_app in Hfit. unfold andthen. apply wp_bind. eapply wp_mono; [apply Hp; [done..|]| |done].
  { rewrite length_app. lia. }
  intros r ->. rewrite decide_True by done. eapply wp_mono; [apply Hq; [done|by destruct told|]| |done].
  - rewrite !length_app. lia.
  - intros r ->. by rewrite (assoc_L (++)).
Qed.

Lemma prints_done : prints done_ok [].
Proof. intros buf told Hok Hne Hfit. rewrite app_nil_r. by apply wp_ret. Qed.

Lemma prints_if (c : bool) p q t1 t2 :
  (c = true → prints p t1) → (c = false → prints q t2) → prints (if c then p else q) (if c then t1 else t2).
Proof. destruct c; auto. Qed.
End Buffer.

#[local] Opaque dec hex pattr_format_append.

(** The pieces of a format string, and the length of each. *)
Ltac printed :=
  unfold render; cbn [fmap list_fmap concat piece_text]; rewrite ?app_nil_r, <-?(assoc_L (++)); reflexivity.
Ltac short :=
  unfold render; cbn [fmap list_fmap concat piece_text];
  rewrite !length_app, ?Nat2Z.inj_add;
  repeat match goal with
  | |- context [Z.of_nat (length (dec ?n))] => generalize (length_dec n); generalize (zlen (dec n))
  | |- context [Z.of_nat (length (hex ?w ?n))] => generalize (length_hex w n ltac:(lia)); generalize (zlen (hex w n))
  end; intros; unfold INT_MAX; cbn; lia.

Ltac one_append := apply prints_append; [printed|short].

Section Prints.
Variable buf_len : Z.

Lemma prints_values i values :
  0 <= i → prints buf_len (format_values buf_len i values)
    ((if i =? 0 then [] else match values with [] => [] | _ => chars "," end) ++ comma_separated values).
Proof.
  revert i. induction values as [|v values IH]; intros i Hi; cbn [format_values].
  { replace (_ ++ _) with (@nil Z) by by case_match. apply prints_done. }
  replace (_ ++ _) with (((if i =? 0 then [] else chars ",") ++ dec v) ++
    (if i + 1 =? 0 then [] else match values with [] => [] | _ => chars "," end) ++ comma_separated values).
  - apply prints_andthen; [|by apply IH; lia]. apply prints_append; [by destruct (i =? 0); printed|]. destruct (i =? 0); short.
  - replace (i + 1 =? 0) with false by lia. destruct values; cbn [comma_separated]; by rewrite ?app_nil_r, <-?(assoc_L (++)).
Qed.

Lemma prints_all values : prints buf_len (format_values buf_len 0 values) (comma_separated values).
Proof. by apply (prints_values 0). Qed.

Lemma prints_segments i segments : prints buf_len (format_segments buf_len i segments) (segments_text i segments).
Proof.
  revert i. induction segments as [|seg segments IH]; intros i; cbn [format_segments segments_text]; [apply prints_done|].
  replace (segment_text i seg ++ segments_text (i + 1) segments) with
    ((chars " segment[" ++ dec i ++ chars "]={type=" ++ dec (cs_type seg) ++ chars " asns=[") ++
     asns_text (cs_asns seg) ++ chars "]}" ++ segments_text (i + 1) segments)
    by (unfold segment_text; by rewrite <-!(assoc_L (++))).
  apply prints_andthen; [one_append|]. apply prints_andthen.
  { unfold asns_text. apply prints_if; intros _; [one_append|apply prints_all]. }
  apply prints_andthen; [one_append|apply IH].
Qed.

Lemma prints_data data : prints buf_len (format_data buf_len data) (data_text data).
Proof.
  assert (Hpath : ∀ is_4b segments, prints buf_len (pattr_format_as_path buf_len is_4b segments) (path_text is_4b segments)).
  { intros is_4b segments. unfold pattr_format_as_path, path_text.
    rewrite !(assoc_L (++) _ _ (if ca_missing _ then _ else _)). apply prints_andthen.
    - one_append.
    - apply prints_if; intros _; [one_append|apply prints_segments]. }
  assert (Hmissing : ∀ A (a : c_array A), prints buf_len (if ca_missing a then pattr_format_append buf_len [lit " malformed"] else done_ok) (missing_text a)).
  { intros A a. apply prints_if; intros _; [one_append|apply prints_done]. }
  destruct data; cbn [format_data data_text];
    try match goal with
    | |- prints _ (pattr_format_append _ _) _ => one_append
    | |- prints _ (pattr_format_as_path _ _ _) _ => apply Hpath
    end.
  - rewrite (assoc_L (++)). apply prints_andthen; [one_append|]. unfold pattr_format_u32_list.
    apply prints_if; intros _; [one_append|].
    apply prints_andthen; [one_append|]. apply prints_andthen; [apply prints_all|].
    one_append.
  - rewrite !(assoc_L (++) _ _ (missing_text _)). apply prints_andthen; [one_append|apply Hmissing].
  - rewrite !(assoc_L (++) _ _ (missing_text _)). apply prints_andthen; [one_append|apply Hmissing].
Qed.
End Prints.

(** ** The formatter *)

Lemma length_name type : zlen (chars (libbgp_pattr_type_name type)) <= 16.
Proof. destruct type as [[]|]; by vm_compute. Qed.

Lemma length_head attr : zlen (head_text attr) <= INT_MAX.
Proof.
  unfold head_text. rewrite !length_app, !Nat2Z.inj_add. pose proof (length_name (cp_type attr)).
  pose proof (length_hex 2 (cp_flags attr) ltac:(lia)). pose proof (length_dec (cp_type_code attr)).
  unfold INT_MAX. change (zlen (chars " flags=0x")) with 9. change (zlen (chars " code=")) with 6. lia.
Qed.

Lemma head_nonempty attr : head_text attr ≠ [].
Proof. intros H. apply (f_equal length) in H. unfold head_text in H. rewrite !length_app in H. cbn in H. lia. Qed.

Lemma format_run buf_len attr buf :
  match buf with Some b => zlen b = buf_len | None => buf_len = 0 end →
  zlen (pattr_text attr) < 2 ^ 64 →
  libbgp_pattr_format buf_len (Some attr) buf [] =
    (Ret (if bool_decide (is_Some buf) && (zlen (pattr_text attr) <? buf_len) then LIBBGP_OK else LIBBGP_ERR_BUFFER,
          (λ b, shown buf_len b (pattr_text attr)) <$> buf, zlen (pattr_text attr)), []).
Proof.
  intros Hbuf Hfit. assert (Hok : buf_ok buf_len buf) by (by destruct buf). unfold pattr_text in Hfit.
  apply wp_returns. unfold libbgp_pattr_format. replace (bool_decide (buf = None) && _) with false.
  2:{ destruct buf; [done|]. subst buf_len. done. }
  assert (Hhead : head_text attr = render [pct_s (libbgp_pattr_type_name (cp_type attr)); lit " flags=0x"; pct_x 2 (cp_flags attr);
    lit " code="; pct_u (cp_type_code attr)]) by printed.
  apply wp_bind. eapply wp_mono; [apply (wp_append buf_len _ buf (buf, 0) []); rewrite <-?Hhead; [done|apply length_head| |by right]| |done].
  { rewrite length_app in Hfit. cbn [app]. lia. }
  intros r ->. rewrite <-Hhead, decide_True by done. apply wp_bind.
  eapply wp_mono; [apply (prints_data buf_len (cp_data attr) buf _ Hok (head_nonempty attr) Hfit)| |done].
  intros r ->. cbn [app]. fold (pattr_text attr). unfold state_of. cbv beta iota. rewrite decide_True by done.
  pose proof (head_nonempty attr) as Hne. assert (0 < zlen (pattr_text attr)).
  { unfold pattr_text. rewrite length_app. destruct (head_text attr); [done|]. cbn [length]. lia. }
  destruct buf as [b|]; cbn [fmap option_fmap option_map]; [|by apply wp_ret].
  rewrite (bool_decide_eq_true_2 (is_Some _)) by done. cbn [andb]. rewrite bool_decide_eq_false_2 by done. cbn [orb].
  destruct (zlen (pattr_text attr) <? buf_len) eqn:Hl.
  - replace ((buf_len =? 0) || _) with false by lia. by apply wp_ret.
  - replace ((buf_len =? 0) || _) with true by lia. by apply wp_ret.
Qed.

(** C18: Whatever the attribute, the formatter reports the length of its whole text;
    it succeeds exactly when the text and a NUL fit, and leaves in the buffer
    the text cut to what fits, a NUL, and the rest as it was: never a byte
    past the end.  So a call without a buffer tells what the second call
    needs, and that call succeeds with the whole text.  ([pattr.h] calls the
    number the bytes written to the buffer; that is so only when it succeeds,
    the NUL apart.) *)
Theorem pattr_format_text attr :
  zlen (pattr_text attr) < 2 ^ 64 →
  libbgp_pattr_format 0 (Some attr) None [] = (Ret (LIBBGP_ERR_BUFFER, None, zlen (pattr_text attr)), []) ∧
  (∀ b, libbgp_pattr_format (zlen b) (Some attr) (Some b) [] =
     (Ret (if zlen (pattr_text attr) <? zlen b then LIBBGP_OK else LIBBGP_ERR_BUFFER,
           Some (shown (zlen b) b (pattr_text attr)), zlen (pattr_text attr)), [])) ∧
  (∀ b, zlen b = zlen (pattr_text attr) + 1 →
     libbgp_pattr_format (zlen b) (Some attr) (Some b) [] =
     (Ret (LIBBGP_OK, Some (pattr_text attr ++ [0]), zlen (pattr_text attr)), [])).
Proof.
  intros Hfit. split_and!.
  - by rewrite (format_run 0 attr None).
  - intros b. rewrite (format_run (zlen b) attr (Some b)) by done. by rewrite (bool_decide_eq_true_2 (is_Some _)).
  - intros b Hb. rewrite (format_run (zlen b) attr (Some b)) by done. rewrite (bool_decide_eq_true_2 (is_Some _)) by done.
    replace (_ <? zlen b) with true by lia. cbn [andb fmap option_fmap option_map]. do 4 f_equal.
    unfold shown. replace (zlen b =? 0) with false by lia. rewrite take_ge by lia. rewrite drop_ge; [by rewrite app_nil_r|].
    rewrite length_app. cbn [length]. lia.
Qed.

Lemma pattr_format_text_witness :
  libbgp_pattr_format 53 (Some (c_of (Pattr 0xc0 8 (d_community [65537; 7])))) (Some (replicate 53 1)) [] =
  (Ret (LIBBGP_OK, Some (chars "COMMUNITY flags=0xc0 code=8 count=2 values=[65537,7]" ++ [0]), 52), []).
Proof.
  assert (Hfit : zlen (pattr_text (c_of (Pattr 0xc0 8 (d_community [65537; 7])))) < 2 ^ 64) by by vm_compute.
  destruct (pattr_format_text (c_of (Pattr 0xc0 8 (d_community [65537; 7]))) Hfit) as (_ & _ & H).
  exact (H (replicate 53 1) ltac:(vm_compute; reflexivity)).
Defined.

(** ** The text tells attributes apart *)

(** A run of characters ends where a character of another kind follows. *)
Definition stops (P : Z -> Prop) (r : list Z) : Prop := match r with [] => True | c :: _ => ¬ P c end.

Lemma token_split (P : Z -> Prop) x y r r' :
  Forall P x → Forall P y → stops P r → stops P r' → x ++ r = y ++ r' → x = y ∧ r = r'.
Proof.
  revert y. induction x as [|a x IH]; intros y Hx Hy Hr Hr' Heq.
  - destruct y as [|b y]; [done|]. cbn [app] in Heq. subst r. by apply Forall_cons in Hy as [? _].
  - apply Forall_cons in Hx as [Ha Hx]. destruct y as [|b y].
    + cbn [app] in Heq. subst r'. done.
    + injection Heq as -> Heq. apply Forall_cons in Hy as [_ Hy]. by destruct (IH y Hx Hy Hr Hr' Heq) as [-> ->].
Qed.

Lemma dec_split n m r r' :
  is_u64 n → is_u64 m → stops is_digit r → stops is_digit r' → dec n ++ r = dec m ++ r' → n = m ∧ r = r'.
Proof.
  intros Hn Hm Hr Hr' Heq. destruct (token_split is_digit (dec n) (dec m) r r') as [Hd ->]; auto using dec_chars, dec_inj.
Qed.

Lemma hex_split width n m r r' :
  is_u32 n → is_u32 m → stops is_digit r → stops is_digit r' → hex width n ++ r = hex width m ++ r' → n = m ∧ r = r'.
Proof.
  intros Hn Hm Hr Hr' Heq. destruct (token_split is_digit (hex width n) (hex width m) r r') as [Hd ->]; eauto using hex_chars, hex_inj.
Qed.

Definition digitb (c : Z) : bool := ((48 <=? c) && (c <=? 57)) || ((97 <=? c) && (c <=? 102)).

Lemma stops_chars (s : string) r :
  match chars s with [] => false | c :: _ => negb (digitb c) end = true → stops is_digit (chars s ++ r).
Proof. destruct (chars s) as [|c cs]; [done|]. unfold stops, is_digit, digitb. cbn [app]. lia. Qed.

Ltac stop := first [apply stops_chars; vm_compute; reflexivity | unfold stops, is_digit; cbn; lia].

Lemma u32_u64 v : is_u32 v → is_u64 v.
Proof. unfold is_u32, is_u64. lia. Qed.

Lemma comma_cons v values r :
  comma_separated (v :: values) ++ 93 :: r = dec v ++ (match values with [] => 93 :: r | _ => 44 :: comma_separated values ++ 93 :: r end).
Proof. destruct values; cbn [comma_separated]; [done|]. by rewrite <-!(assoc_L (++)). Qed.

Lemma comma_inj l1 l2 r1 r2 :
  Forall is_u32 l1 → Forall is_u32 l2 →
  comma_separated l1 ++ 93 :: r1 = comma_separated l2 ++ 93 :: r2 → l1 = l2 ∧ r1 = r2.
Proof.
  assert (Hhead : ∀ v values r r', comma_separated (v :: values) ++ 93 :: r ≠ 93 :: r').
  { intros v values r r' Heq. rewrite comma_cons in Heq. pose proof (dec_chars v) as Hc. pose proof (dec_nonempty v).
    destruct (dec v) as [|c ds]; [done|]. injection Heq as -> _. apply Forall_cons in Hc as [Hc _]. unfold is_digit in Hc. lia. }
  intros H1. revert l2. induction H1 as [|v l1 Hv H1 IH]; intros l2 H2 Heq.
  - destruct H2 as [|w l2 Hw H2]; [cbn in Heq; by simplify_eq|]. exfalso. by apply (Hhead w l2 r2 r1).
  - destruct H2 as [|w l2 Hw H2]; [exfalso; by apply (Hhead v l1 r1 r2)|].
    rewrite !comma_cons in Heq. apply dec_split in Heq as [-> Heq]; [|by apply u32_u64..|destruct l1; stop|destruct l2; stop].
    destruct l1 as [|v' l1], l2 as [|w' l2]; simplify_eq; [done|].
    by destruct (IH (w' :: l2) H2 Heq) as [-> ->].
Qed.

Definition segment_told (seg : libbgp_as_path_segment_t) : Prop := is_u32 (seg_type seg) ∧ Forall is_u32 (seg_asns seg).

Lemma seg_ok_told is_4b seg : seg_ok is_4b seg → segment_told seg.
Proof.
  intros (Ht & _ & Ha). split; [unfold is_u32; lia|]. eapply Forall_impl; [exact Ha|]. intros asn H.
  unfold asn_ok, is_u16, is_u32 in *. destruct is_4b; lia.
Qed.

Lemma segments_inj i s1 s2 :
  Forall segment_told s1 → Forall segment_told s2 →
  segments_text i (c_segment_of <$> s1) = segments_text i (c_segment_of <$> s2) → s1 = s2.
Proof.
  intros H1. revert i s2. induction H1 as [|[t1 a1] s1 [Ht1 Ha1] H1 IH]; intros i s2 H2 Heq.
  - destruct H2 as [|[t2 a2] s2]; [done|]. discriminate.
  - destruct H2 as [|[t2 a2] s2 [Ht2 Ha2] H2]; [discriminate|]. cbn [fmap list_fmap segments_text seg_type seg_asns] in *.
    unfold segment_text, asns_text in Heq. cbn [c_segment_of cs_type cs_asns ca_missing ca_items seg_type seg_asns] in Heq.
    rewrite <-!(assoc_L (++)) in Heq. do 3 apply app_inv_head in Heq.
    apply dec_split in Heq as [-> Heq]; [|by apply u32_u64..|stop|stop]. apply app_inv_head in Heq.
    apply comma_inj in Heq as [-> Heq]; [|done..]. cbn [chars] in Heq. injection Heq as Heq. f_equal. by apply (IH (i + 1)).
Qed.

(** Every value of the attribute is in its text. *)
Definition told_whole (type : libbgp_pattr_type_t) : Prop :=
  type ∉ [LIBBGP_PATTR_MP_REACH_IPV6; LIBBGP_PATTR_MP_UNREACH_IPV6; LIBBGP_PATTR_UNKNOWN].

Lemma name_inj (t1 t2 : libbgp_pattr_type_t) :
  chars (libbgp_pattr_type_name (Some t1)) = chars (libbgp_pattr_type_name (Some t2)) → t1 = t2.
Proof. destruct t1, t2; intros H; first [reflexivity | exfalso; vm_compute in H; congruence]. Qed.

Lemma name_chars type : Forall (λ c, c ≠ 32) (chars (libbgp_pattr_type_name type)).
Proof. apply (bool_decide_unpack _). destruct type as [[]|]; by vm_compute. Qed.

Lemma cp_type_of attr : cp_type (c_of attr) = Some (pa_type attr).
Proof. destruct attr as [flags code []]; done. Qed.

Lemma flag_inj b1 b2 : dec (flag b1) = dec (flag b2) → b1 = b2.
Proof. intros H. apply dec_inj in H; destruct b1, b2; cbn in *; unfold is_u64; done || lia. Qed.

Lemma flag_split b1 b2 r r' :
  stops is_digit r → stops is_digit r' → dec (flag b1) ++ r = dec (flag b2) ++ r' → b1 = b2 ∧ r = r'.
Proof.
  intros Hr Hr' H. apply (token_split is_digit) in H as [Hd ->]; [|apply dec_chars..|done|done]. by apply flag_inj in Hd.
Qed.

Lemma stops_data attr : stops is_digit (data_text (c_data_of (pa_data attr))).
Proof. destruct (pa_data attr); cbn [c_data_of data_text]; unfold path_text; try stop. rewrite <-(app_nil_r (chars " atomic=1")). stop. Qed.

Lemma path_inj b1 b2 s1 s2 :
  Forall segment_told s1 → Forall segment_told s2 →
  path_text b1 (Items (c_segment_of <$> s1)) = path_text b2 (Items (c_segment_of <$> s2)) → b1 = b2 ∧ s1 = s2.
Proof.
  intros H1 H2 Heq. unfold path_text in Heq. cbn [ca_missing ca_items ca_count] in Heq. apply app_inv_head in Heq.
  apply flag_split in Heq as [-> Heq]; [|stop..]. apply app_inv_head in Heq. split; [done|].
  apply (token_split is_digit) in Heq as [_ Heq]; [|apply dec_chars..| |].
  - by eapply segments_inj.
  - destruct s1; [done|]. cbn [fmap list_fmap segments_text]. unfold segment_text. rewrite <-!(assoc_L (++)). stop.
  - destruct s2; [done|]. cbn [fmap list_fmap segments_text]. unfold segment_text. rewrite <-!(assoc_L (++)). stop.
Qed.

Lemma agg_inj a1 r1 b1 a2 r2 b2 :
  is_u32 a1 → is_u32 r1 → is_u32 a2 → is_u32 r2 →
  data_text (c_aggregator a1 r1 b1) = data_text (c_aggregator a2 r2 b2) → a1 = a2 ∧ r1 = r2 ∧ b1 = b2.
Proof.
  cbn [data_text]. intros Ha1 Hr1 Ha2 Hr2 Heq. apply app_inv_head in Heq.
  apply dec_split in Heq as [-> Heq]; [|by apply u32_u64..|stop|stop]. apply app_inv_head in Heq.
  apply hex_split in Heq as [-> Heq]; [|done..|stop|stop]. by apply app_inv_head, flag_inj in Heq.
Qed.

Lemma asn_ok_u32 b asn : asn_ok b asn → is_u32 asn.
Proof. unfold asn_ok, is_u16, is_u32. destruct b; lia. Qed.

Lemma data_inj d1 d2 flags code :
  data_ok d1 → data_ok d2 → pa_type (Pattr flags code d1) = pa_type (Pattr flags code d2) →
  told_whole (pa_type (Pattr flags code d1)) →
  data_text (c_data_of d1) = data_text (c_data_of d2) → d1 = d2.
Proof.
  intros H1 H2 Ht Hw. unfold pa_type in *.
  destruct d1, d2; cbn [pa_data] in *; try discriminate Ht; cbn [c_data_of data_ok] in *; intros Heq;
    try (exfalso; apply Hw; set_solver); clear Ht Hw; try reflexivity.
  - cbn [data_text] in Heq. apply app_inv_head, dec_inj in Heq; [by subst|unfold is_u64; lia..].
  - apply path_inj in Heq as [-> ->]; [done|eapply Forall_impl; eauto using seg_ok_told..].
  - cbn [data_text] in Heq. apply app_inv_head, hex_inj in Heq; [by subst|done..].
  - cbn [data_text] in Heq. apply app_inv_head, dec_inj in Heq; [by subst|by apply u32_u64..].
  - cbn [data_text] in Heq. apply app_inv_head, dec_inj in Heq; [by subst|by apply u32_u64..].
  - destruct H1 as [Ha1 Hr1], H2 as [Ha2 Hr2]. apply agg_inj in Heq as (-> & -> & ->); [done|eauto using asn_ok_u32..].
  - cbn [data_text ca_missing ca_count ca_items] in Heq. apply app_inv_head in Heq.
    apply (token_split is_digit) in Heq as [_ Heq]; [|apply dec_chars..|stop|stop]. apply app_inv_head in Heq.
    by apply comma_inj in Heq as [-> _].
  - destruct H1 as [-> H1], H2 as [-> H2]. apply path_inj in Heq as [_ ->]; [done|eapply Forall_impl; eauto using seg_ok_told..].
  - destruct H1 as [Ha1 Hr1], H2 as [Ha2 Hr2]. apply agg_inj in Heq as (-> & -> & ->); done.
Qed.

Lemma text_inj {host : Host} a1 a2 :
  pattr_ok a1 → pattr_ok a2 → pattr_text (c_of a1) = pattr_text (c_of a2) →
  pa_type a1 = pa_type a2 ∧ pa_flags a1 = pa_flags a2 ∧ pa_type_code a1 = pa_type_code a2 ∧
  (told_whole (pa_type a1) → a1 = a2).
Proof.
  intros (Hf1 & Hc1 & _ & _ & Hd1 & _) (Hf2 & Hc2 & _ & _ & Hd2 & _) Heq.
  unfold pattr_text, head_text in Heq. rewrite !cp_type_of in Heq. cbn [c_of cp_flags cp_type_code cp_data] in Heq.
  rewrite <-!(assoc_L (++)) in Heq. unfold is_u8 in *.
  apply (token_split (λ c, c ≠ 32)) in Heq as [Hn Heq]; [|apply name_chars..|by intros []|by intros []].
  apply name_inj in Hn. apply app_inv_head in Heq. apply hex_split in Heq as [Hf Heq]; [|unfold is_u32; lia..|stop|stop].
  apply app_inv_head in Heq. apply dec_split in Heq as [Hc Heq]; [|unfold is_u64; lia..|apply stops_data|apply stops_data].
  split_and!; [done..|]. intros Hw. destruct a1 as [f1 c1 d1], a2 as [f2 c2 d2]. cbn [pa_flags pa_type_code pa_data] in *. subst f2 c2.
  f_equal. by eapply (data_inj d1 d2 f1 c1).
Qed.

(** What is in the buffer when the formatter succeeded. *)
Lemma format_text attr b out n :
  zlen (pattr_text attr) < 2 ^ 64 →
  libbgp_pattr_format (zlen b) (Some attr) (Some b) [] = (Ret (LIBBGP_OK, Some out, n), []) →
  n = zlen (pattr_text attr) ∧ take (Z.to_nat n) out = pattr_text attr.
Proof.
  intros Hfit. rewrite (format_run (zlen b) attr (Some b)) by done. rewrite (bool_decide_eq_true_2 (is_Some _)) by done. cbn [andb fmap option_fmap option_map].
  destruct (zlen (pattr_text attr) <? zlen b) eqn:Hl; [|by intros [= ]]. intros [= <- <-]. split; [done|]. unfold shown.
  replace (zlen b =? 0) with false by lia. rewrite (take_ge (pattr_text attr)) by lia. by rewrite Nat2Z.id, <-(assoc_L (++)), take_app_length.
Qed.

(** C19: Two attributes that are printed as the same text have the same type, flags
    and code, and, when their values are in the text (all but MP_REACH_NLRI,
    MP_UNREACH_NLRI and attributes of an unknown type, of which it only tells
    the sizes), are the same attribute. *)
Theorem pattr_text_tells_apart {host : Host} a1 a2 b1 b2 out1 out2 n :
  pattr_ok a1 → pattr_ok a2 → zlen (pattr_text (c_of a1)) < 2 ^ 64 → zlen (pattr_text (c_of a2)) < 2 ^ 64 →
  libbgp_pattr_format (zlen b1) (Some (c_of a1)) (Some b1) [] = (Ret (LIBBGP_OK, Some out1, n), []) →
  libbgp_pattr_format (zlen b2) (Some (c_of a2)) (Some b2) [] = (Ret (LIBBGP_OK, Some out2, n), []) →
  take (Z.to_nat n) out1 = take (Z.to_nat n) out2 →
  pa_type a1 = pa_type a2 ∧ pa_flags a1 = pa_flags a2 ∧ pa_type_code a1 = pa_type_code a2 ∧
  (told_whole (pa_type a1) → a1 = a2).
Proof.
  intros H1 H2 Hf1 Hf2 Hr1 Hr2 Hout. apply format_text in Hr1 as [_ Ht1]; [|done]. apply format_text in Hr2 as [_ Ht2]; [|done].
  apply text_inj; [done|done|]. congruence.
Qed.

(** Of an attribute of an unknown type the text tells the size alone. *)
Lemma pattr_text_tells_apart_witness :
  let a1 := Pattr 0xc0 99 (d_unknown [1]) in
  let a2 := Pattr 0xc0 99 (d_unknown [2]) in
  a1 ≠ a2 ∧ pa_type a1 = pa_type a2 ∧ pa_flags a1 = pa_flags a2 ∧ ¬ told_whole (pa_type a1).
Proof.
  assert (Hok : ∀ v, is_u8 v → pattr_ok (host := little_endian_host) (Pattr 0xc0 99 (d_unknown [v]))).
  { intros v Hv. unfold pattr_ok, is_u8. cbn [pa_flags pa_type_code pa_data data_ok]. rewrite Forall_singleton. split_and!; try done; lia. }
  intros a1 a2. split; [done|].
  destruct (pattr_text_tells_apart (host := little_endian_host) a1 a2 (replicate 64 0) (replicate 64 1)
    (chars "UNKNOWN flags=0xc0 code=99 len=1" ++ replicate 32 0) (chars "UNKNOWN flags=0xc0 code=99 len=1" ++ 0 :: replicate 31 1) 32
    (Hok 1 ltac:(split; lia)) (Hok 2 ltac:(split; lia))
    ltac:(vm_compute; reflexivity) ltac:(vm_compute; reflexivity) ltac:(vm_compute; reflexivity) ltac:(vm_compute; reflexivity) ltac:(vm_compute; reflexivity))
    as (Ht & Hf & _ & _).
  split; [exact Ht|]. split; [exact Hf|]. intros H. apply H. vm_compute. set_solver.
Defined.
