(* ===== verification/Update.v ===== *)
(** * UPDATE messages (src/update.c, include/libbgp/update.h)

    The message, its attribute list, validation, parsing and writing.  The
    message holds the attributes themselves where the C object holds counted
    references to them.  The conversions between two- and four-octet AS
    numbers are in [As4]. *)

From stdpp Require Import gmap.
From S2P Require Import Prelude Bytes Prefix4 Pattr.

Record libbgp_update_msg_t : Type := UpdateMsg {
  upd_withdrawn : list libbgp_prefix4_t;
  upd_attrs : list libbgp_pattr_t;
  upd_nlri : list libbgp_prefix4_t
}.

Definition libbgp_update_init : libbgp_update_msg_t := UpdateMsg [] [] [].
Definition libbgp_update_destroy (_ : libbgp_update_msg_t) : libbgp_update_msg_t :=
  UpdateMsg [] [] [].

Definition with_attrs (msg : libbgp_update_msg_t) (attrs : list libbgp_pattr_t) :=
  UpdateMsg (upd_withdrawn msg) attrs (upd_nlri msg).

Definition update_attrs_same_semantic (a b : libbgp_pattr_t) : bool :=
  pa_type_code a =? pa_type_code b.

(** ** The attribute list *)

Definition update_find_attr_index (msg : libbgp_update_msg_t) (type : libbgp_pattr_type_t)
    : option nat :=
  fst <$> list_find (λ a, pa_type a = type) (upd_attrs msg).

Definition libbgp_update_find_attr (msg : libbgp_update_msg_t) (type : libbgp_pattr_type_t)
    : option libbgp_pattr_t :=
  match update_find_attr_index msg type with
  | None => None
  | Some index => upd_attrs msg !! index
  end.

Definition update_remove_attr_at (msg : libbgp_update_msg_t) (index : nat)
    : libbgp_update_msg_t :=
  if (length (upd_attrs msg) <=? index)%nat then msg
  else with_attrs msg (delete index (upd_attrs msg)).

Definition update_remove_attr_type (msg : libbgp_update_msg_t) (type : libbgp_pattr_type_t)
    : bool * libbgp_update_msg_t :=
  match update_find_attr_index msg type with
  | None => (false, msg)
  | Some index => (true, update_remove_attr_at msg index)
  end.

Definition SIZEOF_PREFIX4 : Z := 8.
Definition SIZEOF_POINTER : Z := 8.

Definition update_add_prefix (array : list libbgp_prefix4_t) (cap : Z) (p : libbgp_prefix4_t)
    : M (list libbgp_prefix4_t * Z) :=
  fail_if (32 <? p4_len p) LIBBGP_ERR_BAD_LEN;;
  cap ← array_grow (zlen array) cap SIZEOF_PREFIX4;
  mret (array ++ [p], cap).

Definition update_add_attr_with_cap (msg : libbgp_update_msg_t) (attr : libbgp_pattr_t) (cap : Z)
    : M (libbgp_update_msg_t * Z) :=
  fail_if (existsb (λ a, update_attrs_same_semantic a attr) (upd_attrs msg)) LIBBGP_ERR_EXISTS;;
  cap ← array_grow (zlen (upd_attrs msg)) cap SIZEOF_POINTER;
  mret (with_attrs msg (upd_attrs msg ++ [attr]), cap).

Definition libbgp_update_add_withdrawn (msg : libbgp_update_msg_t) (p : libbgp_prefix4_t)
    : M libbgp_update_msg_t :=
  '(withdrawn, _) ← update_add_prefix (upd_withdrawn msg) (zlen (upd_withdrawn msg)) p;
  mret (UpdateMsg withdrawn (upd_attrs msg) (upd_nlri msg)).

Definition libbgp_update_add_attr (msg : libbgp_update_msg_t) (attr : libbgp_pattr_t)
    : M libbgp_update_msg_t :=
  '(msg, _) ← update_add_attr_with_cap msg attr (zlen (upd_attrs msg));
  mret msg.

Definition libbgp_update_add_nlri (msg : libbgp_update_msg_t) (p : libbgp_prefix4_t)
    : M libbgp_update_msg_t :=
  '(nlri, _) ← update_add_prefix (upd_nlri msg) (zlen (upd_nlri msg)) p;
  mret (UpdateMsg (upd_withdrawn msg) (upd_attrs msg) nlri).

Definition update_set_attr (msg : libbgp_update_msg_t) (attr : libbgp_pattr_t)
    : M libbgp_update_msg_t :=
  match update_find_attr_index msg (pa_type attr) with
  | Some index => mret (with_attrs msg (<[index := attr]> (upd_attrs msg)))
  | None => libbgp_update_add_attr msg attr
  end.

(** Both attributes are set, or none is: the only allocation comes first. *)
Definition update_set_attr_pair (msg : libbgp_update_msg_t) (first second : libbgp_pattr_t)
    : M libbgp_update_msg_t :=
  fail_if (update_attrs_same_semantic first second) LIBBGP_ERR_BAD_LEN;;
  let first_index := update_find_attr_index msg (pa_type first) in
  let second_index := update_find_attr_index msg (pa_type second) in
  let missing := (if bool_decide (is_Some first_index) then 0 else 1) +
                 (if bool_decide (is_Some second_index) then 0 else 1) in
  (if missing =? 0 then mret tt
   else
     fail_if ((SIZE_MAX - missing <? zlen (upd_attrs msg)) ||
              (SIZE_MAX / SIZEOF_POINTER <? zlen (upd_attrs msg) + missing)) LIBBGP_ERR_BAD_LEN;;
     alloc_or_nomem);;
  let put attrs index attr :=
    match index with
    | Some i => <[i := attr]> attrs
    | None => attrs ++ [attr]
    end in
  mret (with_attrs msg (put (put (upd_attrs msg) first_index first) second_index second)).

(** ** Validation *)

(** Does some segment have an invalid type or count, or (when the width is
    enforced) an AS number that does not fit?  The count of all AS numbers. *)
Fixpoint validate_segments (narrow : bool) (segs : list libbgp_as_path_segment_t) (total : Z)
    : M Z :=
  match segs with
  | [] => mret total
  | seg :: segs' =>
      let asn_count := zlen (seg_asns seg) in
      fail_if ((seg_type seg <? 1) || (2 <? seg_type seg) || (255 <? asn_count)) LIBBGP_ERR_BAD_LEN;;
      fail_if (SIZE_MAX - asn_count <? total) LIBBGP_ERR_BAD_LEN;;
      fail_if (narrow && existsb (λ asn, 65535 <? asn) (seg_asns seg)) LIBBGP_ERR_BAD_LEN;;
      validate_segments narrow segs' (total + asn_count)
  end.

Definition update_validate_as_path_data (path : libbgp_pattr_t) (enforce_asn_width : bool) : M Z :=
  match pa_data path with
  | d_as_path segs is_4b => validate_segments (enforce_asn_width && negb is_4b) segs 0
  | d_as4_path segs is_4b =>
      fail_if (negb is_4b) LIBBGP_ERR_BAD_LEN;;
      validate_segments (enforce_asn_width && negb is_4b) segs 0
  | _ => err LIBBGP_ERR_BAD_LEN
  end.

Definition update_mp_reach_has_nlri (attr : libbgp_pattr_t) : bool :=
  match pa_data attr with
  | d_mp_reach_ipv6 _ _ nlri => negb (zlen nlri =? 0)
  | _ => false
  end.

(** The state of the scan: [first_index] is defined where [view.present] is. *)
Record validate_state : Type := ValidateState {
  v_first_index : gmap Z Z;
  v_first_bad_index : Z;
  v_first_duplicate_index : Z;
  v_has_origin : bool;
  v_has_as_path : bool;
  v_has_next_hop : bool;
  v_has_mp_reach_nlri : bool
}.

(** Does the check fail, whatever the allocator would answer (it is not
    called)? *)
Definition path_data_bad (attr : libbgp_pattr_t) : bool :=
  match update_validate_as_path_data attr true [] with
  | (Ret _, _) => false
  | _ => true
  end.

Definition is_path_type (type : libbgp_pattr_type_t) : bool :=
  match type with LIBBGP_PATTR_AS_PATH | LIBBGP_PATTR_AS4_PATH => true | _ => false end.

Definition validate_attr (attr_count : Z) (i : Z) (attr : libbgp_pattr_t) (v : validate_state)
    : validate_state :=
  let code := pa_type_code attr in
  let '(first_index, first_duplicate_index) :=
    match v_first_index v !! code with
    | Some fi =>
        (v_first_index v,
         if (v_first_duplicate_index v =? attr_count) || (fi <? v_first_duplicate_index v)
         then fi else v_first_duplicate_index v)
    | None => (<[code := i]> (v_first_index v), v_first_duplicate_index v)
    end in
  let first_bad_index :=
    if is_path_type (pa_type attr) && path_data_bad attr && (v_first_bad_index v =? attr_count)
    then i else v_first_bad_index v in
  let has type := bool_decide (pa_type attr = type) in
  ValidateState first_index first_bad_index first_duplicate_index
    (has LIBBGP_PATTR_ORIGIN || v_has_origin v)
    (has LIBBGP_PATTR_AS_PATH || v_has_as_path v)
    (has LIBBGP_PATTR_NEXT_HOP || v_has_next_hop v)
    (update_mp_reach_has_nlri attr || v_has_mp_reach_nlri v).

Fixpoint validate_scan (attr_count i : Z) (attrs : list libbgp_pattr_t) (v : validate_state)
    : validate_state :=
  match attrs with
  | [] => v
  | attr :: attrs' => validate_scan attr_count (i + 1) attrs' (validate_attr attr_count i attr v)
  end.

Definition libbgp_update_validate (msg : libbgp_update_msg_t) : M unit :=
  let attr_count := zlen (upd_attrs msg) in
  let v := validate_scan attr_count 0 (upd_attrs msg)
             (ValidateState ∅ attr_count attr_count false false false false) in
  fail_if (v_first_duplicate_index v <? v_first_bad_index v) LIBBGP_ERR_INVALID;;
  fail_if (negb (v_first_bad_index v =? attr_count)) LIBBGP_ERR_BAD_LEN;;
  fail_if (negb (v_first_duplicate_index v =? attr_count)) LIBBGP_ERR_INVALID;;
  fail_if (negb (zlen (upd_nlri msg) =? 0) &&
           (negb (v_has_origin v) || negb (v_has_as_path v) || negb (v_has_next_hop v)))
    LIBBGP_ERR_INVALID;;
  fail_if (v_has_mp_reach_nlri v && (negb (v_has_origin v) || negb (v_has_as_path v)))
    LIBBGP_ERR_INVALID.

(** ** Parsing *)

Section Update.
Context {host : Host}.

Definition update_parse_prefix (buf : list Z) (acc : list libbgp_prefix4_t * Z)
    : M ((list libbgp_prefix4_t * Z) * Z) :=
  let '(array, cap) := acc in
  '(p, used) ← libbgp_prefix4_parse buf;
  acc ← update_add_prefix array cap p;
  fail_if ((used =? 0) || (zlen buf <? used)) LIBBGP_ERR_BAD_LEN;;
  mret (acc, used).

Definition update_parse_prefixes (array : list libbgp_prefix4_t) (buf : list Z)
    : M (list libbgp_prefix4_t) :=
  '(array, _) ← parse_loop update_parse_prefix buf (array, zlen array);
  mret array.

Definition update_parse_attr (use_4b_asn : bool) (buf : list Z) (acc : libbgp_update_msg_t * Z)
    : M ((libbgp_update_msg_t * Z) * Z) :=
  let '(tmp, cap) := acc in
  _ ← libbgp_pattr_new LIBBGP_PATTR_UNKNOWN;
  '(attr, used) ← libbgp_pattr_parse_as4 buf use_4b_asn;
  acc ← update_add_attr_with_cap tmp attr cap;
  fail_if ((used =? 0) || (zlen buf <? used)) LIBBGP_ERR_BAD_LEN;;
  mret (acc, used).

Definition update_parse_attrs (tmp : libbgp_update_msg_t) (buf : list Z) (use_4b_asn : bool)
    : M libbgp_update_msg_t :=
  '(tmp, _) ← parse_loop (update_parse_attr use_4b_asn) buf (tmp, zlen (upd_attrs tmp));
  mret tmp.

Definition libbgp_update_parse_as4 (buf : list Z) (use_4b_asn : bool)
    : M (libbgp_update_msg_t * Z) :=
  let len := zlen buf in
  fail_if (len <? 4) LIBBGP_ERR_BAD_LEN;;
  withdrawn_len ← rd_be16 buf 0;
  let pos := 2 in
  fail_if (len - pos <? withdrawn_len) LIBBGP_ERR_BAD_LEN;;
  sub ← slice buf pos withdrawn_len;
  withdrawn ← update_parse_prefixes [] sub;
  let pos := pos + withdrawn_len in
  fail_if (len - pos <? 2) LIBBGP_ERR_BAD_LEN;;
  attr_len ← rd_be16 buf pos;
  let pos := pos + 2 in
  fail_if (len - pos <? attr_len) LIBBGP_ERR_BAD_LEN;;
  sub ← slice buf pos attr_len;
  tmp ← update_parse_attrs (UpdateMsg withdrawn [] []) sub use_4b_asn;
  let pos := pos + attr_len in
  sub ← slice buf pos (len - pos);
  nlri ← update_parse_prefixes [] sub;
  let tmp := UpdateMsg (upd_withdrawn tmp) (upd_attrs tmp) nlri in
  libbgp_update_validate tmp;;
  mret (tmp, len).

Definition libbgp_update_parse (buf : list Z) : M (libbgp_update_msg_t * Z) :=
  libbgp_update_parse_as4 buf false.

(** ** Writing *)

Fixpoint update_prefixes_len (prefixes : list libbgp_prefix4_t) (total : Z) : M Z :=
  match prefixes with
  | [] => mret total
  | p :: prefixes' =>
      let one := 1 + (p4_len p + 7) / 8 in
      fail_if ((32 <? p4_len p) || (SIZE_MAX - one <? total)) LIBBGP_ERR_BAD_LEN;;
      update_prefixes_len prefixes' (total + one)
  end.

Fixpoint update_attrs_len (attrs : list libbgp_pattr_t) (total : Z) : M Z :=
  match attrs with
  | [] => mret total
  | attr :: attrs' =>
      one ← libbgp_pattr_wire_len attr;
      fail_if (SIZE_MAX - one <? total) LIBBGP_ERR_BAD_LEN;;
      update_attrs_len attrs' (total + one)
  end.

Definition libbgp_update_write (msg : libbgp_update_msg_t) (buf : list Z) : M (list Z * Z) :=
  libbgp_update_validate msg;;
  withdrawn_len ← update_prefixes_len (upd_withdrawn msg) 0;
  attrs_len ← update_attrs_len (upd_attrs msg) 0;
  nlri_len ← update_prefixes_len (upd_nlri msg) 0;
  fail_if ((65535 <? withdrawn_len) || (65535 <? attrs_len) ||
           (SIZE_MAX - 4 <? withdrawn_len) || (SIZE_MAX - 4 - withdrawn_len <? attrs_len) ||
           (SIZE_MAX - 4 - withdrawn_len - attrs_len <? nlri_len)) LIBBGP_ERR_BAD_LEN;;
  let total_len := 4 + withdrawn_len + attrs_len + nlri_len in
  fail_if (zlen buf <? total_len) LIBBGP_ERR_BUFFER;;
  buf ← store buf 0 (bgp_put_be16 (u16 withdrawn_len));
  '(buf, pos) ← write_loop libbgp_prefix4_write (upd_withdrawn msg) total_len buf 2;
  buf ← store buf pos (bgp_put_be16 (u16 attrs_len));
  '(buf, pos) ← write_loop libbgp_pattr_write (upd_attrs msg) total_len buf (pos + 2);
  '(buf, _) ← write_loop libbgp_prefix4_write (upd_nlri msg) total_len buf pos;
  mret (buf, total_len).
End Update.
