(* ===== verification/UpdateSpec.v ===== *)
(** * UPDATE messages: validation, round trip, safety of the parser *)

From Stdlib Require Import Btauto.
From stdpp Require Import gmap.
From S2P Require Import Prelude Bytes Prefix4 Prefix6 Pattr PattrSpec Update.

(** ** Validation *)

(** Attribute [i] repeats later in the list. *)
Definition dup_at (attrs : list libbgp_pattr_t) (i : nat) : Prop :=
  ∃ a b j, attrs !! i = Some a ∧ (i < j)%nat ∧ attrs !! j = Some b ∧
    pa_type_code a = pa_type_code b.

Definition bad_path (attr : libbgp_pattr_t) : bool :=
  is_path_type (pa_type attr) && path_data_bad attr.

Definition bad_at (attrs : list libbgp_pattr_t) (i : nat) : Prop :=
  ∃ a, attrs !! i = Some a ∧ bad_path a = true.

Definition has_type (type : libbgp_pattr_type_t) (attrs : list libbgp_pattr_t) : bool :=
  existsb (λ a, bool_decide (pa_type a = type)) attrs.

(** The mandatory attributes: ORIGIN, AS_PATH and NEXT_HOP with IPv4 routes,
    ORIGIN and AS_PATH with IPv6 routes. *)
Definition mandatory_ok (msg : libbgp_update_msg_t) : bool :=
  let has t := has_type t (upd_attrs msg) in
  ((zlen (upd_nlri msg) =? 0) ||
   (has LIBBGP_PATTR_ORIGIN && has LIBBGP_PATTR_AS_PATH && has LIBBGP_PATTR_NEXT_HOP)) &&
  (negb (existsb update_mp_reach_has_nlri (upd_attrs msg)) ||
   (has LIBBGP_PATTR_ORIGIN && has LIBBGP_PATTR_AS_PATH)).

(** [d] is the least index with [P], or [n] when there is none. *)
Definition first_at (n : Z) (P : nat -> Prop) (d : Z) : Prop :=
  (d = n ∧ ∀ i, ¬ P i) ∨
  (∃ i : nat, d = Z.of_nat i ∧ d < n ∧ P i ∧ ∀ i', (i' < i)%nat → ¬ P i').

Lemma first_at_least n (P P' : nat -> Prop) d :
  first_at n P d → (∀ i, P i → P' i) → (∀ i, P' i → ∃ i', (i' <= i)%nat ∧ P i') →
  first_at n P' d.
Proof.
  intros [[-> Hn]|(i & -> & Hlt & Hi & Hl)] H1 H2.
  - left. split; [done|]. intros i Hi. destruct (H2 i Hi) as (i' & _ & HP). by apply (Hn i').
  - right. exists i. split_and!; [done..|by apply H1|]. intros i' Hi' HP'.
    destruct (H2 i' HP') as (j & Hj & HP). by apply (Hl j); [lia|].
Qed.

(** Adding one more index to the set. *)
Lemma first_at_or n P d (k : nat) :
  first_at n P d → Z.of_nat k < n →
  first_at n (λ i, P i ∨ i = k) (if (d =? n) || (Z.of_nat k <? d) then Z.of_nat k else d).
Proof.
  intros Hf Hk. destruct ((d =? n) || (Z.of_nat k <? d)) eqn:Hb; right.
  - exists k. split_and!; [done..|by right|]. intros i Hi [HP| ->]; [|lia].
    destruct Hf as [[_ Hn]|(i0 & -> & Hlt & Hi0 & Hl)]; [by apply (Hn i)|].
    apply (Hl i); [lia|done].
  - destruct Hf as [[-> _]|(i0 & -> & Hlt & Hi0 & Hl)]; [lia|].
    exists i0. split_and!; [done..|by left|]. intros i Hi [HP| ->]; [by apply (Hl i)|lia].
Qed.

(** What the scan knows after the attributes [pre]. *)
Definition first_index_ok (pre : list libbgp_pattr_t) (m : gmap Z Z) : Prop :=
  ∀ code fi, m !! code = Some fi ↔
    ∃ (i : nat) a, fi = Z.of_nat i ∧ pre !! i = Some a ∧ pa_type_code a = code ∧
      ∀ j b, (j < i)%nat → pre !! j = Some b → pa_type_code b ≠ code.

Record scanned (n : Z) (pre : list libbgp_pattr_t) (v : validate_state) : Prop := {
  sc_first : first_index_ok pre (v_first_index v);
  sc_dup : first_at n (dup_at pre) (v_first_duplicate_index v);
  sc_bad : first_at n (bad_at pre) (v_first_bad_index v);
  sc_origin : v_has_origin v = has_type LIBBGP_PATTR_ORIGIN pre;
  sc_as_path : v_has_as_path v = has_type LIBBGP_PATTR_AS_PATH pre;
  sc_next_hop : v_has_next_hop v = has_type LIBBGP_PATTR_NEXT_HOP pre;
  sc_mp : v_has_mp_reach_nlri v = existsb update_mp_reach_has_nlri pre
}.

Lemma has_type_snoc type pre a :
  has_type type (pre ++ [a]) = bool_decide (pa_type a = type) || has_type type pre.
Proof. unfold has_type. rewrite existsb_app. simpl. by rewrite orb_false_r, orb_comm. Qed.

Lemma lookup_snoc_Some' {A} (l : list A) x i y :
  (l ++ [x]) !! i = Some y ↔ l !! i = Some y ∨ (i = length l ∧ x = y).
Proof.
  rewrite lookup_snoc_Some. split; [|intros [H|[-> ->]]]; [tauto| |tauto].
  left. split; [by eapply lookup_lt_Some|done].
Qed.

Lemma bad_at_snoc pre a i :
  bad_at (pre ++ [a]) i ↔ bad_at pre i ∨ (i = length pre ∧ bad_path a = true).
Proof. unfold bad_at. setoid_rewrite lookup_snoc_Some'. naive_solver. Qed.

Lemma dup_at_snoc pre a i :
  dup_at (pre ++ [a]) i ↔
  dup_at pre i ∨ ∃ b, pre !! i = Some b ∧ pa_type_code b = pa_type_code a.
Proof.
  unfold dup_at. setoid_rewrite lookup_snoc_Some'. split.
  - intros (x & y & j & [Hx|[-> <-]] & Hij & [Hy|[-> <-]] & Hc).
    + left. by exists x, y, j.
    + right. by exists x.
    + apply lookup_lt_Some in Hy. lia.
    + lia.
  - intros [(x & y & j & Hx & Hij & Hy & Hc)|(b & Hb & Hc)].
    + exists x, y, j. auto.
    + exists b, a, (length pre). pose proof (lookup_lt_Some _ _ _ Hb). split_and!; auto.
Qed.

Lemma first_index_snoc_new pre a m :
  first_index_ok pre m → m !! pa_type_code a = None →
  first_index_ok (pre ++ [a]) (<[pa_type_code a := zlen pre]> m).
Proof.
  intros Hm Hnone code fi. rewrite lookup_insert_Some. setoid_rewrite lookup_snoc_Some'.
  assert (Hfresh : ∀ i b, pre !! i = Some b → pa_type_code b ≠ pa_type_code a).
  { destruct (list_find (λ b, pa_type_code b = pa_type_code a) pre) as [[i b]|] eqn:Hf.
    - apply list_find_Some in Hf as (Hb & Hc & Hmin).
      enough (m !! pa_type_code a = Some (Z.of_nat i)) by congruence.
      apply Hm. exists i, b. split_and!; try done. intros j c Hj Hcj. by eapply Hmin.
    - apply list_find_None in Hf. intros i b Hb. by eapply Forall_lookup_1 in Hf. }
  split.
  - intros [[<- <-]|[Hne Hfi]].
    + exists (length pre), a. split_and!; auto. intros j b Hj [Hb|[-> _]]; [by eapply Hfresh|lia].
    + apply Hm in Hfi as (i & b & -> & Hb & Hc & Hmin). exists i, b. split_and!; auto.
      intros j c Hj [Hcj|[-> <-]]; [by eapply Hmin|]. apply lookup_lt_Some in Hb. lia.
  - intros (i & b & -> & [Hb|[-> <-]] & Hc & Hmin).
    + right. split; [intros <-; by eapply Hfresh|]. apply Hm. exists i, b. split_and!; auto.
      intros j c Hj Hcj. eapply Hmin; eauto.
    + left. auto.
Qed.

Lemma first_index_snoc_old pre a m fi :
  first_index_ok pre m → m !! pa_type_code a = Some fi → first_index_ok (pre ++ [a]) m.
Proof.
  intros Hm Hold code fi'. rewrite (Hm code fi'). setoid_rewrite lookup_snoc_Some'. split.
  - intros (i & b & -> & Hb & Hc & Hmin). exists i, b. split_and!; auto.
    intros j c Hj [Hcj|[-> <-]]; [by eapply Hmin|]. apply lookup_lt_Some in Hb. lia.
  - intros (i & b & -> & [Hb|[-> <-]] & Hc & Hmin).
    + exists i, b. split_and!; auto. intros; eapply Hmin; eauto.
    + apply Hm in Hold as (i0 & b0 & -> & Hb0 & Hc0 & _). exfalso.
      apply (Hmin i0 b0); [by eapply lookup_lt_Some|by left|congruence].
Qed.

Lemma scanned_snoc n pre a v :
  scanned n pre v → zlen pre < n → scanned n (pre ++ [a]) (validate_attr n (zlen pre) a v).
Proof.
  intros [Hf Hd Hb Ho Ha Hh Hm] Hn. unfold validate_attr.
  assert (Hbad : first_at n (bad_at (pre ++ [a]))
    (if is_path_type (pa_type a) && path_data_bad a && (v_first_bad_index v =? n)
     then zlen pre else v_first_bad_index v)).
  { fold (bad_path a). destruct (bad_path a) eqn:Hba; cbn [andb].
    - pose proof (first_at_or _ _ _ (length pre) Hb Hn) as Hor.
      assert (Hlt : (zlen pre <? v_first_bad_index v) = true → (v_first_bad_index v =? n) = true).
      { destruct Hb as [[-> _]|(i & -> & _ & (x & Hx & _) & _)]; [lia|]. apply lookup_lt_Some in Hx. lia. }
      destruct (v_first_bad_index v =? n); [|destruct (zlen pre <? _); [by specialize (Hlt eq_refl)|]];
        eapply first_at_least; try exact Hor; intros i; rewrite bad_at_snoc; [tauto|..|tauto|];
        intros [H|[-> _]]; eauto.
    - eapply first_at_least; [exact Hb|intros i; rewrite bad_at_snoc; tauto|].
      intros i Hi. exists i. split; [done|]. apply bad_at_snoc in Hi as [?|[_ ?]]; [done|congruence]. }
  destruct (v_first_index v !! pa_type_code a) as [fi|] eqn:Hfi;
    (split; cbn [v_first_index v_first_duplicate_index v_first_bad_index v_has_origin v_has_as_path
       v_has_next_hop v_has_mp_reach_nlri];
     [| |exact Hbad|by rewrite has_type_snoc, Ho|by rewrite has_type_snoc, Ha|
      by rewrite has_type_snoc, Hh|rewrite existsb_app, Hm; simpl; by rewrite orb_false_r, orb_comm]).
  - by eapply first_index_snoc_old.
  - pose proof Hfi as Hfi'. apply Hf in Hfi' as (k & b & -> & Hk & Hc & Hmin).
    assert (Z.of_nat k < n) by (apply lookup_lt_Some in Hk; lia).
    eapply first_at_least; [by apply first_at_or| |]; intros i; rewrite dup_at_snoc.
    + intros [?| ->]; eauto.
    + intros [?|(c & Hci & Hcc)]; [eauto|]. exists k. split; [|by right].
      destruct (decide (i < k)%nat) as [Hlt|]; [|lia]. exfalso. by eapply Hmin.
  - by apply first_index_snoc_new.
  - eapply first_at_least; [exact Hd| |]; intros i; rewrite dup_at_snoc; [tauto|].
    intros [?|(b & Hb' & Hc)]; [eauto|]. exfalso.
    pose proof (first_index_snoc_new pre a _ Hf Hfi) as Hnew.
    destruct (Hnew (pa_type_code a) (zlen pre)) as [Hx _]. rewrite lookup_insert_eq in Hx.
    destruct (Hx eq_refl) as (i0 & a0 & Hi0 & _ & _ & Hmin). apply Nat2Z.inj in Hi0 as <-.
    apply (Hmin i b); [by eapply lookup_lt_Some|apply lookup_snoc_Some'; by left|done].
Qed.

Lemma scanned_all n pre attrs v :
  scanned n pre v → zlen pre + zlen attrs <= n →
  scanned n (pre ++ attrs) (validate_scan n (zlen pre) attrs v).
Proof.
  revert pre v. induction attrs as [|a attrs IH]; intros pre v Hs Hn; [by rewrite app_nil_r|].
  cbn [validate_scan]. cbn [length] in Hn.
  replace (zlen pre + 1) with (zlen (pre ++ [a])) by (rewrite length_app; simpl; lia).
  rewrite cons_middle, (assoc_L (++)). apply IH; [apply scanned_snoc; [done|lia]|].
  rewrite length_app. simpl. lia.
Qed.

Lemma scanned_init n : scanned n [] (ValidateState ∅ n n false false false false).
Proof.
  split; try done.
  - intros code fi. cbn [v_first_index]. rewrite lookup_empty. split; [done|]. intros (i & a & _ & Ha & _). done.
  - left. split; [done|]. intros i (a & _ & _ & Ha & _). done.
  - left. split; [done|]. intros i (a & Ha & _). done.
Qed.

Lemma nodup_dup_at attrs : NoDup (pa_type_code <$> attrs) ↔ ∀ i, ¬ dup_at attrs i.
Proof.
  rewrite NoDup_alt. split.
  - intros Hnd i (a & b & j & Ha & Hij & Hb & Hc).
    assert (i = j) by (apply (Hnd i j (pa_type_code a)); rewrite list_lookup_fmap;
      [by rewrite Ha|by rewrite Hb, Hc]). lia.
  - intros Hd i j c Hi Hj. rewrite !list_lookup_fmap in *.
    apply fmap_Some in Hi as (a & Ha & ->). apply fmap_Some in Hj as (b & Hb & Hc).
    destruct (lt_eq_lt_dec i j) as [[Hij|]|Hij]; [|done|]; exfalso.
    + apply (Hd i). by exists a, b, j.
    + apply (Hd j). by exists b, a, i.
Qed.

(** A message that validates. *)
Definition upd_valid (msg : libbgp_update_msg_t) : Prop :=
  NoDup (pa_type_code <$> upd_attrs msg) ∧ Forall (λ a, bad_path a = false) (upd_attrs msg) ∧
  mandatory_ok msg = true.

(** The first defect of the attribute list is a malformed path. *)
Definition upd_bad_first (msg : libbgp_update_msg_t) : Prop :=
  ∃ i, bad_at (upd_attrs msg) i ∧
    ∀ i', (i' < i)%nat → ¬ bad_at (upd_attrs msg) i' ∧ ¬ dup_at (upd_attrs msg) i'.

Lemma no_bad_at attrs : Forall (λ a, bad_path a = false) attrs ↔ ∀ i, ¬ bad_at attrs i.
Proof.
  rewrite Forall_lookup. unfold bad_at. split.
  - intros H i (a & Ha & Hb). rewrite (H i a Ha) in Hb. done.
  - intros H i a Ha. apply not_true_is_false. intros Hb. apply (H i). eauto.
Qed.

Lemma fail_if_bind {A} c e (k : unit -> M A) s :
  (fail_if c e ≫= k) s = if c then (Err e, s) else k tt s.
Proof. by destruct c. Qed.

Lemma update_validate_exact_lemma msg s :
  (upd_valid msg → libbgp_update_validate msg s = (Ret tt, s)) ∧
  (upd_bad_first msg → libbgp_update_validate msg s = (Err LIBBGP_ERR_BAD_LEN, s)) ∧
  (¬ upd_valid msg → ¬ upd_bad_first msg →
     libbgp_update_validate msg s = (Err LIBBGP_ERR_INVALID, s)).
Proof.
  unfold libbgp_update_validate. set (n := zlen (upd_attrs msg)).
  pose proof (scanned_all n [] (upd_attrs msg) _ (scanned_init n) ltac:(simpl; lia)) as Hs.
  simpl app in Hs. change (zlen []) with 0 in Hs. set (v := validate_scan _ _ _ _) in *.
  destruct Hs as [_ Hd Hb Ho Ha Hh Hm]. unfold upd_valid, upd_bad_first, mandatory_ok.
  rewrite nodup_dup_at, no_bad_at, Ho, Ha, Hh, Hm, !fail_if_bind. unfold fail_if.
  set (c1 := negb (zlen (upd_nlri msg) =? 0) && _). set (c2 := existsb _ _ && (_ || _)).
  set (mo := (_ || (has_type _ _ && _ && _)) && _).
  assert (Hmo : mo = negb (c1 || c2)) by (unfold mo, c1, c2; btauto).
  rewrite Hmo. clearbody c1 c2. clear mo Hmo Ho Ha Hh Hm.
  destruct Hd as [[-> Hnd]|(d & -> & Hdlt & Hd & Hdmin)],
    Hb as [[-> Hnb]|(b & -> & Hblt & Hb & Hbmin)].
  - rewrite Z.ltb_irrefl, Z.eqb_refl. simpl. split_and!.
    + intros (_ & _ & Hc). by destruct c1, c2.
    + intros (i & Hi & _). by destruct (Hnb i).
    + intros Hv _. destruct c1, c2; try done. destruct Hv. done.
  - replace (n <? Z.of_nat b) with false by lia. replace (Z.of_nat b =? n) with false by lia.
    simpl. split_and!; [|done|].
    + intros (_ & Hnb & _). by destruct (Hnb b).
    + intros _ Hnf. destruct Hnf. exists b. split; [done|]. intros i' Hi'. split; [by apply Hbmin|apply Hnd].
  - replace (Z.of_nat d <? n) with true by lia. split_and!; [| |done].
    + intros (Hnd & _). by destruct (Hnd d).
    + intros (i & Hi & _). by destruct (Hnb i).
  - destruct (Z.of_nat d <? Z.of_nat b) eqn:Hdb; simpl.
    + split_and!; [|intros (i & Hi & Hmin)|done].
      * intros (Hnd & _). by destruct (Hnd d).
      * destruct (Hmin d) as [_ Hx]; [|done].
        destruct (decide (i < b)%nat) as [Hib|]; [by destruct (Hbmin i Hib)|lia].
    + replace (Z.of_nat b =? n) with false by lia. simpl. split_and!; [|done|].
      * intros (Hnd & _). by destruct (Hnd d).
      * intros _ Hnf. destruct Hnf. exists b. split; [done|]. intros i' Hi'.
        split; [by apply Hbmin|apply Hdmin; lia].
Qed.

Lemma wp_update_validate msg (Q : unit -> Prop) E :
  upd_valid msg → Q tt → wp (libbgp_update_validate msg) Q E.
Proof.
  intros Hv HQ s. exists [], s. split; [done|].
  by rewrite (proj1 (update_validate_exact_lemma msg s)).
Qed.

#[export] Instance upd_valid_dec msg : Decision (upd_valid msg).
Proof. unfold upd_valid. apply _. Defined.

Lemma wp_update_validate_any msg :
  wp (libbgp_update_validate msg) (λ _, upd_valid msg)
     (λ e, e = LIBBGP_ERR_BAD_LEN ∨ e = LIBBGP_ERR_INVALID).
Proof.
  assert (Hwp : wp (libbgp_update_validate msg) (λ _, True)
    (λ e, e = LIBBGP_ERR_BAD_LEN ∨ e = LIBBGP_ERR_INVALID)).
  { unfold libbgp_update_validate. do 4 (apply wp_bind, wp_fail_if; intros; [auto|]).
    apply wp_fail_if; auto. }
  intros s. destruct (Hwp s) as (u & s' & Hs & H). exists u, s'. split; [done|].
  destruct (update_validate_exact_lemma msg s) as (_ & H2 & H3).
  destruct (libbgp_update_validate msg s) as [[[]|e|f] t]; [|done..].
  split; [by destruct H|]. destruct (decide (upd_valid msg)) as [|Hn]; [done|].
  enough (Hnb : ¬ upd_bad_first msg) by (by specialize (H3 Hn Hnb)).
  intros Hb. by specialize (H2 Hb).
Qed.

(** ** The wire format *)

Section Wire.
Context {host : Host}.

Definition prefixes4_enc (ps : list libbgp_prefix4_t) : list Z := concat (p4_enc <$> ps).
Definition attrs_enc (attrs : list libbgp_pattr_t) : list Z := concat (pattr_enc <$> attrs).

Definition upd_enc (msg : libbgp_update_msg_t) : list Z :=
  bgp_put_be16 (zlen (prefixes4_enc (upd_withdrawn msg))) ++ prefixes4_enc (upd_withdrawn msg) ++
  bgp_put_be16 (zlen (attrs_enc (upd_attrs msg))) ++ attrs_enc (upd_attrs msg) ++
  prefixes4_enc (upd_nlri msg).

(** The messages the writer accepts. *)
Definition upd_ok (msg : libbgp_update_msg_t) : Prop :=
  Forall p4_wf (upd_withdrawn msg) ∧ Forall p4_wf (upd_nlri msg) ∧
  Forall pattr_ok (upd_attrs msg) ∧ upd_valid msg ∧
  zlen (prefixes4_enc (upd_withdrawn msg)) <= 65535 ∧ zlen (attrs_enc (upd_attrs msg)) <= 65535 ∧
  zlen (prefixes4_enc (upd_nlri msg)) <= 2 ^ 32.

(** The messages the parser produces on a session of AS-number width [b]. *)
Definition upd_wf (b : bool) (msg : libbgp_update_msg_t) : Prop :=
  upd_ok msg ∧ Forall (λ p, p4_normalize p = p) (upd_withdrawn msg) ∧
  Forall (λ p, p4_normalize p = p) (upd_nlri msg) ∧ Forall (pattr_wf b) (upd_attrs msg).

Definition upd_norm (msg : libbgp_update_msg_t) : libbgp_update_msg_t :=
  with_attrs msg (pattr_norm <$> upd_attrs msg).

Lemma prefixes4_count ps : zlen ps <= zlen (prefixes4_enc ps).
Proof.
  induction ps as [|p ps IH]; [done|].
  change (prefixes4_enc (p :: ps)) with (p4_enc p ++ prefixes4_enc ps). rewrite length_app.
  simpl length. lia.
Qed.

Lemma pattr_enc_length attr : 3 <= zlen (pattr_enc attr).
Proof.
  rewrite pattr_enc_split, length_app. pose proof (pattr_header_length attr).
  destruct (pa_extended attr); lia.
Qed.

Lemma attrs_count attrs : zlen attrs <= zlen (attrs_enc attrs).
Proof.
  induction attrs as [|a attrs IH]; [done|].
  change (attrs_enc (a :: attrs)) with (pattr_enc a ++ attrs_enc attrs). rewrite length_app.
  cbn [length]. pose proof (pattr_enc_length a). lia.
Qed.

Lemma update_prefixes_len_spec ps total :
  Forall p4_wf ps → 0 <= total → total + zlen (prefixes4_enc ps) <= 2 ^ 40 →
  wp (update_prefixes_len ps total) (λ n, n = total + zlen (prefixes4_enc ps)) no_err.
Proof.
  intros Hs. revert total. induction Hs as [|p ps [_ Hp] _ IH]; intros total Ht Hl.
  { apply wp_ret. simpl. lia. }
  change (prefixes4_enc (p :: ps)) with (p4_enc p ++ prefixes4_enc ps) in *. rewrite length_app in *.
  pose proof (p4_enc_length p Hp) as Hpe. unfold prefix4_octets in Hpe. cbn [update_prefixes_len].
  apply wp_bind, wp_fail_if; intros Hf; [exfalso; unfold SIZE_MAX in Hf; lia|].
  eapply wp_mono; [apply IH; lia| |done]. intros n ->. lia.
Qed.

Lemma update_attrs_len_spec attrs total :
  Forall pattr_ok attrs → 0 <= total → total + zlen (attrs_enc attrs) <= 2 ^ 40 →
  wp (update_attrs_len attrs total) (λ n, n = total + zlen (attrs_enc attrs)) no_err.
Proof.
  intros Hs. revert total. induction Hs as [|a attrs Ha _ IH]; intros total Ht Hl.
  { apply wp_ret. simpl. lia. }
  change (attrs_enc (a :: attrs)) with (pattr_enc a ++ attrs_enc attrs) in *. rewrite length_app in *.
  cbn [update_attrs_len]. apply wp_bind. eapply wp_mono; [by apply pattr_wire_len_spec| |done].
  intros one ->. apply wp_bind, wp_fail_if; intros Hf; [exfalso; unfold SIZE_MAX in Hf; lia|].
  eapply wp_mono; [apply IH; lia| |done]. intros n ->. lia.
Qed.

Lemma upd_enc_length msg :
  zlen (upd_enc msg) = 4 + zlen (prefixes4_enc (upd_withdrawn msg)) +
    zlen (attrs_enc (upd_attrs msg)) + zlen (prefixes4_enc (upd_nlri msg)).
Proof. unfold upd_enc. solve_len. Qed.

Lemma update_write_spec msg : upd_ok msg → writes (libbgp_update_write msg) (upd_enc msg).
Proof.
  intros (Hw & Hn & Ha & Hv & Hwl & Hal & Hnl) buf. unfold libbgp_update_write.
  pose proof (upd_enc_length msg) as Hlen.
  apply wp_bind, wp_update_validate; [done|].
  apply wp_bind. eapply wp_mono; [apply update_prefixes_len_spec; [done|lia..]| |done]. intros ? ->.
  apply wp_bind. eapply wp_mono; [apply update_attrs_len_spec; [done|lia..]| |done]. intros ? ->.
  apply wp_bind. eapply wp_mono; [apply update_prefixes_len_spec; [done|lia..]| |done]. intros ? ->.
  set (we := prefixes4_enc (upd_withdrawn msg)) in *.
  set (ae := attrs_enc (upd_attrs msg)) in *. set (ne := prefixes4_enc (upd_nlri msg)) in *.
  rewrite !Z.add_0_l.
  apply wp_bind, wp_fail_if; intros Hf; [exfalso; unfold SIZE_MAX in Hf; lia|].
  apply wp_bind, wp_fail_if; intros Hb; [split; [done|lia]|]. rewrite !u16_id by (unfold is_u16; lia).
  wp_put. apply wp_bind. eapply wp_mono; [apply (wp_write_loop_put _ p4_enc)| |done].
  { intros p Hp. apply prefix4_write_spec. eapply Forall_forall in Hw; [|done]. apply Hw. }
  { done. } { fold (prefixes4_enc (upd_withdrawn msg)). fold we. lia. }
  intros r ->. fold (prefixes4_enc (upd_withdrawn msg)). fold we.
  apply wp_bind, wp_put; [done|solve_len|].
  apply wp_bind. eapply wp_mono; [apply (wp_write_loop_put _ pattr_enc)| |done].
  { intros a Hain. apply pattr_write_spec. by eapply Forall_forall in Ha. }
  { solve_len. } { fold (attrs_enc (upd_attrs msg)). fold ae. solve_len. }
  intros r ->. fold (attrs_enc (upd_attrs msg)). fold ae.
  apply wp_bind. eapply wp_mono; [apply (wp_write_loop_put _ p4_enc)| |done].
  { intros p Hp. apply prefix4_write_spec. eapply Forall_forall in Hn; [|done]. apply Hn. }
  { done. } { fold (prefixes4_enc (upd_nlri msg)). fold ne. solve_len. }
  intros r ->. apply wp_ret. split; [|lia]. apply written_pair; [|lia].
  unfold upd_enc. rewrite <-!(assoc_L (++)). done.
Qed.

(** ** Parsing an encoding *)

Lemma parse_prefixes4_enc ps :
  Forall p4_wf ps → zlen (prefixes4_enc ps) <= 2 ^ 32 →
  wp (update_parse_prefixes [] (prefixes4_enc ps)) (λ r, r = p4_normalize <$> ps) no_err.
Proof.
  intros Hp Hl. pose proof (prefixes4_count ps) as Hcnt.
  assert (H0 : cap_inv 0 0) by (unfold cap_inv; lia).
  unfold update_parse_prefixes. apply wp_bind.
  eapply wp_mono; [apply (wp_parse_loop_enc p4_enc (push_grow p4_normalize))| |done].
  - intros pre p post ->. split; [done|]. rewrite length_app in Hcnt. cbn [length] in Hcnt.
    destruct (foldl_push_grow p4_normalize pre ([], 0) H0) as [Hi Hf]; [simpl; lia|].
    destruct (foldl _ _ pre) as [qs cap] eqn:Hq. cbn [fst snd] in Hf, Hi. subst qs.
    rewrite !Forall_app, !Forall_cons in Hp. destruct Hp as (_ & [_ Hpl] & _).
    pose proof (p4_enc_length p Hpl). pose proof (prefix4_octets_range _ Hpl).
    unfold update_parse_prefix. apply wp_bind.
    eapply wp_mono; [by apply prefix4_parse_enc| |done]. intros r ->.
    apply wp_bind. unfold update_add_prefix. apply wp_bind, wp_fail_if; intros; [simpl in *; exfalso; lia|].
    apply wp_bind, wp_array_grow; [rewrite length_app, length_fmap; simpl; lia|done|done|].
    apply wp_ret. apply wp_bind, wp_fail_if; intros; [exfalso; rewrite length_app in *; lia|].
    by apply wp_ret.
  - intros r ->. destruct (foldl_push_grow p4_normalize ps ([], 0) H0) as [_ Hf]; [simpl; lia|].
    destruct (foldl _ _ ps) as [qs cap]. apply wp_ret. done.
Qed.

Definition attr_push (acc : libbgp_update_msg_t * Z) (a : libbgp_pattr_t) : libbgp_update_msg_t * Z :=
  let r := push_grow pattr_norm (upd_attrs acc.1, acc.2) a in (with_attrs acc.1 r.1, r.2).

Lemma foldl_attr_push xs tmp cap :
  foldl attr_push (tmp, cap) xs =
  let r := foldl (push_grow pattr_norm) (upd_attrs tmp, cap) xs in (with_attrs tmp r.1, r.2).
Proof.
  revert tmp cap. induction xs as [|x xs IH]; intros tmp cap; [by destruct tmp|].
  cbn [foldl]. unfold attr_push at 2. cbn [fst snd]. rewrite IH. done.
Qed.

Lemma parse_attrs_enc b tmp attrs :
  upd_attrs tmp = [] → Forall (pattr_wf b) attrs → NoDup (pa_type_code <$> attrs) →
  zlen (attrs_enc attrs) <= 65535 →
  wp (update_parse_attrs tmp (attrs_enc attrs) b)
     (λ r, r = with_attrs tmp (pattr_norm <$> attrs)) no_err.
Proof.
  intros Htmp Hwf Hnd Hl. pose proof (attrs_count attrs) as Hcnt.
  assert (H0 : cap_inv 0 0) by (unfold cap_inv; lia).
  unfold update_parse_attrs. rewrite Htmp. apply wp_bind.
  eapply wp_mono; [apply (wp_parse_loop_enc pattr_enc attr_push)| |done].
  - intros pre a post ->. pose proof (pattr_enc_length a) as Hal.
    split; [intros He; rewrite He in Hal; simpl in Hal; lia|].
    rewrite length_app in Hcnt. cbn [length] in Hcnt. rewrite foldl_attr_push, Htmp.
    destruct (foldl_push_grow pattr_norm pre ([], 0) H0) as [Hi Hf]; [simpl; lia|].
    destruct (foldl _ _ pre) as [qs cap] eqn:Hq. cbn [fst snd] in Hf, Hi. cbn [fst snd].
    simpl in Hf. subst qs.
    rewrite !Forall_app, !Forall_cons in Hwf. destruct Hwf as (_ & Haw & _).
    unfold update_parse_attr. apply wp_bind, wp_bind, wp_alloc_or_nomem, wp_ret.
    apply wp_bind. eapply wp_mono; [by apply pattr_parse_enc| |done]. intros r ->.
    apply wp_bind. unfold update_add_attr_with_cap. apply wp_bind, wp_fail_if; intros Hex.
    { exfalso. apply existsb_exists in Hex as (x & Hx & Heq). apply list_elem_of_In in Hx.
      apply list_elem_of_fmap in Hx as (y & -> & Hy). rewrite fmap_app, NoDup_app in Hnd.
      destruct Hnd as (_ & Hdis & _). unfold update_attrs_same_semantic in Heq. simpl in Heq.
      apply (Hdis (pa_type_code y)); [by apply list_elem_of_fmap_2|]. rewrite fmap_cons.
      apply Z.eqb_eq in Heq. rewrite Heq. apply list_elem_of_here. }
    cbn [with_attrs upd_attrs].
    apply wp_bind, wp_array_grow; [rewrite length_fmap; lia|done|done|].
    apply wp_ret. apply wp_bind, wp_fail_if; intros; [exfalso; rewrite length_app in *; lia|].
    by apply wp_ret.
  - intros r ->. rewrite foldl_attr_push, Htmp.
    destruct (foldl_push_grow pattr_norm attrs ([], 0) H0) as [_ Hf]; [simpl; lia|].
    cbv zeta. apply wp_ret. cbn [fst] in Hf. change (zlen []) with 0. by rewrite Hf.
Qed.

Lemma existsb_fmap_ext {A} (f : A -> bool) (g : A -> A) l :
  (∀ a, f (g a) = f a) → existsb f (g <$> l) = existsb f l.
Proof. intros Hf. induction l as [|a l IH]; [done|]. simpl. by rewrite Hf, <-IH. Qed.

Lemma upd_valid_norm msg nlri' :
  length nlri' = length (upd_nlri msg) → upd_valid msg →
  upd_valid (UpdateMsg (upd_withdrawn msg) (pattr_norm <$> upd_attrs msg) nlri').
Proof.
  intros Hl (Hnd & Hb & Hm). split_and!.
  - cbn [upd_attrs]. by rewrite <-list_fmap_compose.
  - cbn [upd_attrs]. by apply Forall_fmap.
  - unfold mandatory_ok in *. cbn [upd_attrs upd_nlri]. rewrite Hl.
    assert (Hex : ∀ f : libbgp_pattr_t -> bool, (∀ a, f (pattr_norm a) = f a) →
      existsb f (pattr_norm <$> upd_attrs msg) = existsb f (upd_attrs msg)).
    { intros f Hf. by apply existsb_fmap_ext. }
    unfold has_type in *. by rewrite !Hex.
Qed.

Lemma update_parse_enc b msg :
  upd_ok msg → Forall (pattr_wf b) (upd_attrs msg) →
  wp (libbgp_update_parse_as4 (upd_enc msg) b)
     (λ r, r = (UpdateMsg (p4_normalize <$> upd_withdrawn msg) (pattr_norm <$> upd_attrs msg)
                  (p4_normalize <$> upd_nlri msg), zlen (upd_enc msg))) no_err.
Proof.
  intros (Hw & Hn & Ha & Hv & Hwl & Hal & Hnl) Hwf. unfold libbgp_update_parse_as4.
  pose proof (upd_enc_length msg) as Hlen.
  apply wp_bind, wp_fail_if; intros; [exfalso; lia|].
  apply wp_bind. eapply wp_rd_be16_put; [lia| |reflexivity|]; [unfold is_u16; lia|].
  apply wp_bind, wp_fail_if; intros; [exfalso; lia|].
  set (we := prefixes4_enc (upd_withdrawn msg)) in *.
  set (ae := attrs_enc (upd_attrs msg)) in *. set (ne := prefixes4_enc (upd_nlri msg)) in *.
  assert (Hs1 : upd_enc msg = bgp_put_be16 (zlen we) ++ we ++ (bgp_put_be16 (zlen ae) ++ ae ++ ne)) by done.
  assert (Hs2 : upd_enc msg = (bgp_put_be16 (zlen we) ++ we) ++ bgp_put_be16 (zlen ae) ++ (ae ++ ne))
    by (rewrite Hs1; by rewrite <-!(assoc_L (++))).
  assert (Hs3 : upd_enc msg = ((bgp_put_be16 (zlen we) ++ we) ++ bgp_put_be16 (zlen ae)) ++ ae ++ ne)
    by (rewrite Hs1; by rewrite <-!(assoc_L (++))).
  apply wp_bind. rewrite Hs1 at 1. apply wp_slice_app; [done..|].
  apply wp_bind. eapply wp_mono; [apply parse_prefixes4_enc; [done|unfold we in *; lia]| |done]. intros ? ->.
  apply wp_bind, wp_fail_if; intros; [exfalso; lia|].
  apply wp_bind. apply (wp_rd_be16_put _ _ (zlen ae)); [lia|unfold is_u16; lia| |].
  { rewrite Hs2. replace (Z.to_nat (2 + zlen we)) with (length (bgp_put_be16 (zlen we) ++ we))
      by (rewrite length_app, length_put_be16; lia). apply (take_drop_mid _ (bgp_put_be16 (zlen ae))). }
  apply wp_bind, wp_fail_if; intros; [exfalso; lia|].
  apply wp_bind. rewrite Hs3 at 1. apply wp_slice_app; [solve_len|done|].
  apply wp_bind. eapply wp_mono; [apply parse_attrs_enc; [done|done|apply Hv|done]| |done]. intros ? ->.
  apply wp_bind. rewrite Hs3 at 1. rewrite (assoc_L (++) _ ae ne). apply wp_slice_rest; [solve_len|lia|].
  apply wp_bind. eapply wp_mono; [apply parse_prefixes4_enc; [done|fold ne; lia]| |done]. intros ? ->.
  cbn [with_attrs upd_withdrawn upd_attrs].
  apply wp_bind, wp_update_validate; [|by apply wp_ret].
  apply (upd_valid_norm (UpdateMsg (p4_normalize <$> upd_withdrawn msg) (upd_attrs msg) (upd_nlri msg)));
    [apply length_fmap|exact Hv].
Qed.

(** ** Parsing arbitrary bytes *)

Lemma parse_prefixes4_spec buf :
  bytes_ok buf →
  wp (update_parse_prefixes [] buf)
     (λ ps, Forall p4_wf ps ∧ Forall (λ p, p4_normalize p = p) ps ∧
        zlen (prefixes4_enc ps) = zlen buf)
     (λ e, e = LIBBGP_ERR_BAD_LEN ∨ e = LIBBGP_ERR_INVALID).
Proof.
  intros Hok. unfold update_parse_prefixes. apply wp_bind.
  eapply (wp_mono _ _ _ (λ e, e = LIBBGP_ERR_BAD_LEN ∨ e = LIBBGP_ERR_INVALID));
    [apply (wp_parse_loop_pos (λ pos r, Forall p4_wf r.1 ∧ Forall (λ p, p4_normalize p = p) r.1 ∧
      zlen (prefixes4_enc r.1) = pos))| |done].
  - intros i [ps cap] Hi (Hw & Hn & Hl). cbn [fst] in *. unfold update_parse_prefix.
    apply wp_bind. eapply wp_mono; [by apply prefix4_parse_spec, Forall_drop| |done].
    intros [p used]; cbn [fst snd]. intros (Hpw & Hpn & Hu & Hul). rewrite length_drop in Hul.
    apply wp_bind. unfold update_add_prefix. apply wp_bind, wp_fail_if; intros; [auto|].
    apply wp_bind, wp_array_grow_any; [auto|]. intros cap'. apply wp_ret.
    apply wp_bind, wp_fail_if; intros; [auto|]. apply wp_ret. cbn [fst snd]. split; [lia|].
    split_and!; [by apply Forall_app_2; [|constructor]..|].
    unfold prefixes4_enc in *. rewrite fmap_app, concat_app, length_app.
    change (concat (p4_enc <$> [p])) with (p4_enc p ++ []). rewrite app_nil_r. lia.
  - done.
  - intros [ps cap] H. by apply wp_ret.
Qed.

Definition upd_parse_err (e : libbgp_err_t) : Prop :=
  e = LIBBGP_ERR_BAD_LEN ∨ e = LIBBGP_ERR_INVALID ∨ e = LIBBGP_ERR_EXISTS.

Lemma parse_attrs_spec b tmp buf :
  upd_attrs tmp = [] → bytes_ok buf →
  wp (update_parse_attrs tmp buf b)
     (λ r, ∃ attrs, r = with_attrs tmp attrs ∧ Forall (pattr_wf b) attrs ∧
        Forall (λ a, pattr_norm a = a) attrs ∧ zlen (attrs_enc attrs) = zlen buf) upd_parse_err.
Proof.
  intros Htmp Hok. unfold update_parse_attrs. apply wp_bind.
  eapply (wp_mono _ _ _ upd_parse_err);
    [apply (wp_parse_loop_pos (λ pos r, ∃ attrs, r.1 = with_attrs tmp attrs ∧
      Forall (pattr_wf b) attrs ∧ Forall (λ a, pattr_norm a = a) attrs ∧
      zlen (attrs_enc attrs) = pos))| |done].
  - intros i [t cap] Hi (attrs & Ht & Hw & Hn & Hl). cbn [fst] in *. subst t. unfold update_parse_attr.
    apply wp_bind, wp_bind, wp_alloc_or_nomem, wp_ret.
    apply wp_bind. eapply wp_mono; [by apply pattr_parse_spec, Forall_drop| |].
    2: { unfold upd_parse_err. tauto. }
    intros [a used]; cbn [fst snd]. intros (Haw & Han & Hu & Hul). rewrite length_drop in Hul.
    apply wp_bind. unfold update_add_attr_with_cap. apply wp_bind, wp_fail_if; intros.
    { unfold upd_parse_err. tauto. }
    apply wp_bind, wp_array_grow_any; [unfold upd_parse_err; tauto|]. intros cap'. apply wp_ret.
    apply wp_bind, wp_fail_if; intros; [unfold upd_parse_err; tauto|]. apply wp_ret. cbn [fst snd].
    split; [lia|]. exists (attrs ++ [a]). split; [done|].
    split_and!; [by apply Forall_app_2; [|constructor]..|].
    unfold attrs_enc in *. rewrite fmap_app, concat_app, length_app.
    change (concat (pattr_enc <$> [a])) with (pattr_enc a ++ []). rewrite app_nil_r. lia.
  - exists []. split; [by destruct tmp; simpl in *; subst|done].
  - intros [t cap] (attrs & Ht & ?). cbn [fst] in Ht. subst t. apply wp_ret. by exists attrs.
Qed.

Lemma update_parse_spec b buf :
  bytes_ok buf → zlen buf <= 2 ^ 32 →
  wp (libbgp_update_parse_as4 buf b)
     (λ r, upd_wf b r.1 ∧ upd_norm r.1 = r.1 ∧ zlen (upd_enc r.1) = zlen buf ∧ r.2 = zlen buf)
     upd_parse_err.
Proof.
  intros Hok Hmax. assert (Hbl : upd_parse_err LIBBGP_ERR_BAD_LEN) by by left.
  assert (Hpe : ∀ e, e = LIBBGP_ERR_BAD_LEN ∨ e = LIBBGP_ERR_INVALID → upd_parse_err e)
    by (unfold upd_parse_err; tauto).
  unfold libbgp_update_parse_as4. apply wp_bind, wp_fail_if; intros; [done|].
  apply wp_bind, wp_rd_be16; [done|lia..|]. intros wl Hwl. unfold is_u16 in Hwl.
  apply wp_bind, wp_fail_if; intros; [done|].
  apply wp_bind, wp_slice; [lia..|]. set (wb := take _ _).
  assert (zlen wb = wl) by (apply length_slice; lia).
  apply wp_bind. eapply wp_mono; [by apply parse_prefixes4_spec, bytes_ok_slice| |done].
  intros withdrawn (Hww & Hwn & Hwe). apply wp_bind, wp_fail_if; intros; [done|].
  apply wp_bind, wp_rd_be16; [done|lia..|]. intros al Hal. unfold is_u16 in Hal.
  apply wp_bind, wp_fail_if; intros; [done|].
  apply wp_bind, wp_slice; [lia..|]. set (ab := take _ _).
  assert (zlen ab = al) by (apply length_slice; lia).
  apply wp_bind. eapply wp_mono; [by apply parse_attrs_spec, bytes_ok_slice| |done].
  intros tmp (attrs & -> & Haw & Han & Hae). cbn [with_attrs upd_withdrawn upd_attrs].
  apply wp_bind, wp_slice; [lia..|]. set (nb := take _ _).
  assert (zlen nb = zlen buf - (2 + wl + 2 + al)) by (apply length_slice; lia).
  apply wp_bind. eapply wp_mono; [by apply parse_prefixes4_spec, bytes_ok_slice| |done].
  intros nlri (Hnw & Hnn & Hne). apply wp_bind.
  eapply wp_mono; [apply wp_update_validate_any| |done]. intros [] Hv. apply wp_ret. cbn [fst snd].
  rewrite upd_enc_length. unfold upd_wf, upd_ok, upd_norm. cbn [upd_withdrawn upd_attrs upd_nlri with_attrs].
  split_and!; try done; try lia.
  - eapply Forall_impl; [exact Haw|]. by intros a [Hok' _].
  - unfold with_attrs. cbn [upd_withdrawn upd_nlri]. by rewrite fmap_fixed.
Qed.
End Wire.

(** ** Properties *)

(** C28: Validation, on every message: it succeeds exactly on messages without
    a repeated type code, without a malformed path and with the mandatory
    attributes; it reports [LIBBGP_ERR_BAD_LEN] exactly when a malformed path
    comes before every attribute that is repeated, and [LIBBGP_ERR_INVALID]
    otherwise. *)
Theorem update_validate_exact msg s :
  (upd_valid msg → libbgp_update_validate msg s = (Ret tt, s)) ∧
  (upd_bad_first msg → libbgp_update_validate msg s = (Err LIBBGP_ERR_BAD_LEN, s)) ∧
  (¬ upd_valid msg → ¬ upd_bad_first msg →
     libbgp_update_validate msg s = (Err LIBBGP_ERR_INVALID, s)).
Proof. apply update_validate_exact_lemma. Qed.

Section UpdateProperties.
Context {host : Host}.

(** C23: A well-formed UPDATE message is written whole into any buffer that
    can hold it, and parsing the bytes on a session of the same AS-number
    width yields the same message, each attribute with the extended-length
    flag its encoding carries. *)
Theorem update_write_parse_roundtrip b msg buf :
  upd_wf b msg → zlen (upd_enc msg) <= zlen buf →
  ∃ buf' n, libbgp_update_write msg buf [] = (Ret (buf', n), []) ∧
    libbgp_update_parse_as4 (take (Z.to_nat n) buf') b [] = (Ret (upd_norm msg, n), []).
Proof.
  intros (Hok & Hw & Hn & Ha) Hbuf.
  exists (written buf (upd_enc msg)), (zlen (upd_enc msg)). split.
  - apply wp_returns. eapply wp_mono; [by apply update_write_spec|by intros ? [? _]|].
    intros e [_ ?]. lia.
  - unfold written. rewrite Nat2Z.id, take_app_length. apply wp_returns.
    eapply wp_mono; [by apply update_parse_enc| |done]. intros r ->.
    by rewrite (fmap_fixed p4_normalize (upd_withdrawn msg)), (fmap_fixed p4_normalize (upd_nlri msg)).
Qed.

(** C24: Parsing any bytes as an UPDATE message, with any allocator, never
    leaves the buffer and terminates; the error codes are those listed; an
    accepted message is valid and well-formed, and writing it again takes
    exactly as many bytes as were read. *)
Theorem update_parse_accepts_wf b buf s :
  bytes_ok buf → zlen buf <= 2 ^ 32 →
  match (libbgp_update_parse_as4 buf b s).1 with
  | Ret (msg, n) =>
      upd_wf b msg ∧ upd_norm msg = msg ∧ n = zlen buf ∧
      ∃ buf', libbgp_update_write msg (replicate (length buf) 0) [] = (Ret (buf', n), [])
  | Err e => e ∈ [LIBBGP_ERR_BAD_LEN; LIBBGP_ERR_INVALID; LIBBGP_ERR_EXISTS; LIBBGP_ERR_NOMEM]
  | Fault _ => False
  end.
Proof.
  intros Hok Hmax. destruct (update_parse_spec b buf Hok Hmax s) as (u & s' & _ & H).
  destruct (libbgp_update_parse_as4 buf b s) as [[[msg n]|e|f] t]; cbn [fst snd] in *.
  - destruct H as (_ & Hwf & Hn & He & Hr). split_and!; [done..|].
    exists (written (replicate (length buf) 0) (upd_enc msg)). rewrite Hr, <-He. apply wp_returns.
    eapply wp_mono; [apply update_write_spec, Hwf|by intros ? [? _]|].
    intros e [_ Hlt]. rewrite length_replicate in Hlt. lia.
  - destruct H as [_ [[->|[->| ->]]|[-> _]]]; set_solver.
  - done.
Qed.
End UpdateProperties.

(** ** Witnesses *)

#[local] Existing Instance little_endian_host.

Definition update_example : libbgp_update_msg_t :=
  UpdateMsg [Prefix4 10 8]
    [Pattr 0x40 1 (d_origin 0);
     Pattr 0x40 2 (d_as_path [Segment 2 [64512; 65001]] false);
     Pattr 0x40 3 (d_next_hop 167772161)]
    [Prefix4 (10 + 256 * 1) 16].

Lemma update_example_wf : upd_wf false update_example.
Proof.
  assert (Hp : Forall p4_wf [Prefix4 10 8; Prefix4 (10 + 256 * 1) 16])
    by (repeat constructor; simpl; lia).
  rewrite !Forall_cons in Hp. destruct Hp as (Hp1 & Hp2 & _).
  assert (Ha : Forall (pattr_wf false) (upd_attrs update_example)).
  { repeat constructor; simpl; try lia; try done; unfold is_u16; try lia. }
  assert (Ho : Forall pattr_ok (upd_attrs update_example)).
  { eapply Forall_impl; [exact Ha|]. by intros a [? _]. }
  assert (Hv : upd_valid update_example) by (apply (bool_decide_unpack _); by vm_compute).
  split; [|split; [by repeat constructor|split; [by repeat constructor|done]]].
  split; [by repeat constructor|split; [by repeat constructor|]].
  do 2 (split; [done|]). split_and!; by vm_compute.
Qed.

Lemma update_write_parse_roundtrip_witness :
  ∃ buf' n, libbgp_update_write update_example (replicate 4096 0) [] = (Ret (buf', n), []) ∧
    libbgp_update_parse_as4 (take (Z.to_nat n) buf') false [] = (Ret (upd_norm update_example, n), []).
Proof.
  apply update_write_parse_roundtrip; [apply update_example_wf|]. vm_compute. discriminate.
Defined.

Lemma update_parse_accepts_wf_witness :
  (libbgp_update_parse_as4 [0; 0; 0; 0] false []).1 = Ret (UpdateMsg [] [] [], 4) ∧
  upd_wf false (UpdateMsg [] [] []).
Proof.
  split; [vm_compute; reflexivity|].
  assert (Hok : bytes_ok [0; 0; 0; 0]) by by repeat constructor.
  exact (proj1 (update_parse_accepts_wf false [0; 0; 0; 0] [] Hok ltac:(vm_compute; discriminate))).
Defined.

Lemma update_validate_exact_witness :
  libbgp_update_validate update_example [] = (Ret tt, []).
Proof. apply (proj1 (update_validate_exact update_example [])). apply (bool_decide_unpack _). by vm_compute. Defined.
