(* ===== verification/As4.v ===== *)
(** * Two- and four-octet AS numbers in UPDATE messages (src/update.c)

    Prepending an AS number, and moving a message between a session with
    four-octet AS numbers and one with two-octet ones: AS_PATH with AS4_PATH,
    AGGREGATOR with AS4_AGGREGATOR.  A nested loop over the segments and
    their AS numbers that only reads the numbers is a loop over [path_asns]. *)

From S2P Require Import Prelude Bytes Prefix4 Pattr Update.

Definition LIBBGP_AS_TRANS : Z := 23456.

(** ** AS_PATH objects: [attr->data.as_path] of both path types *)

Definition as_path_segments (attr : libbgp_pattr_t) : list libbgp_as_path_segment_t :=
  match pa_data attr with
  | d_as_path segs _ | d_as4_path segs _ => segs
  | _ => []
  end.

Definition as_path_is_4b (attr : libbgp_pattr_t) : bool :=
  match pa_data attr with
  | d_as_path _ is_4b | d_as4_path _ is_4b => is_4b
  | _ => false
  end.

Definition set_as_path (attr : libbgp_pattr_t) (segs : list libbgp_as_path_segment_t)
    (is_4b : bool) : libbgp_pattr_t :=
  Pattr (pa_flags attr) (pa_type_code attr)
    match pa_data attr with
    | d_as_path _ _ => d_as_path segs is_4b
    | d_as4_path _ _ => d_as4_path segs is_4b
    | data => data
    end.

Definition path_asns (segs : list libbgp_as_path_segment_t) : list Z :=
  concat (seg_asns <$> segs).

(** An attribute of the message changed in place. *)
Definition replace_attr (msg : libbgp_update_msg_t) (attr : libbgp_pattr_t) : libbgp_update_msg_t :=
  match update_find_attr_index msg (pa_type attr) with
  | Some index => with_attrs msg (<[index := attr]> (upd_attrs msg))
  | None => msg
  end.

(** Is [segments[out]] an element of an array of [out_count]? *)
Definition in_array (out out_count : Z) : M unit :=
  if (0 <=? out) && (out <? out_count) then mret tt else stuck OutOfBounds.

(** ** Copying paths *)

Fixpoint copy_segments (segs : list libbgp_as_path_segment_t) : M (list libbgp_as_path_segment_t) :=
  match segs with
  | [] => mret []
  | seg :: segs' =>
      let asn_count := zlen (seg_asns seg) in
      (if asn_count =? 0 then mret tt
       else fail_if (SIZE_MAX / SIZEOF_ASN <? asn_count) LIBBGP_ERR_BAD_LEN;; alloc_or_nomem);;
      rest ← copy_segments segs';
      mret (Segment (seg_type seg) (seg_asns seg) :: rest)
  end.

Definition update_copy_as_path_data (dst src : libbgp_pattr_t) (is_4b : bool) : M libbgp_pattr_t :=
  fail_if (negb (is_path_type (pa_type dst))) LIBBGP_ERR_BAD_LEN;;
  update_validate_as_path_data src false;;
  let segs := as_path_segments src in
  if zlen segs =? 0 then mret (set_as_path dst [] is_4b)
  else
    fail_if (SIZE_MAX / SIZEOF_SEGMENT <? zlen segs) LIBBGP_ERR_BAD_LEN;;
    alloc_or_nomem;;
    segs ← copy_segments segs;
    mret (set_as_path dst segs is_4b).

Definition update_clone_path_as_type (type : libbgp_pattr_type_t) (src : libbgp_pattr_t)
    (is_4b : bool) : M libbgp_pattr_t :=
  clone ← libbgp_pattr_new type;
  update_copy_as_path_data clone src is_4b.

Definition update_count_path_asns (path : libbgp_pattr_t) : M Z :=
  update_validate_as_path_data path false.

Definition update_copy_segment_prefix (src : libbgp_as_path_segment_t) (asn_count : Z)
    : M libbgp_as_path_segment_t :=
  let src_count := zlen (seg_asns src) in
  fail_if ((src_count <? asn_count) || (255 <? asn_count) || (seg_type src <? 1) ||
           (2 <? seg_type src) || (255 <? src_count)) LIBBGP_ERR_BAD_LEN;;
  (if asn_count =? 0 then mret tt
   else fail_if (SIZE_MAX / SIZEOF_ASN <? asn_count) LIBBGP_ERR_BAD_LEN;; alloc_or_nomem);;
  mret (Segment (seg_type src) (take (Z.to_nat asn_count) (seg_asns src))).

(** ** Prepending *)

Definition update_prepend_to_path (path : libbgp_pattr_t) (asn : Z) : M libbgp_pattr_t :=
  fail_if (negb (is_path_type (pa_type path))) LIBBGP_ERR_BAD_LEN;;
  let segs := as_path_segments path in
  let new_segment :=
    fail_if (SIZE_MAX / SIZEOF_SEGMENT - 1 <? zlen segs) LIBBGP_ERR_BAD_LEN;;
    alloc_or_nomem;;
    alloc_or_nomem;;
    mret (set_as_path path (Segment 2 [asn] :: segs) (as_path_is_4b path)) in
  match segs with
  | seg :: segs' =>
      let asn_count := zlen (seg_asns seg) in
      if (seg_type seg =? 2) && (asn_count <? 255) then
        fail_if (SIZE_MAX / SIZEOF_ASN - 1 <? asn_count) LIBBGP_ERR_BAD_LEN;;
        alloc_or_nomem;;
        mret (set_as_path path (Segment (seg_type seg) (asn :: seg_asns seg) :: segs')
                (as_path_is_4b path))
      else new_segment
  | [] => new_segment
  end.

(** ** AS4_PATH: cutting and joining *)

Definition update_path_needs_as4_shadow (path : libbgp_pattr_t) : bool :=
  existsb (λ asn, 65535 <? asn) (path_asns (as_path_segments path)).

(** The first position of an AS number above 65535 within a segment. *)
Fixpoint first_wide (asns : list Z) (j : Z) : option Z :=
  match asns with
  | [] => None
  | asn :: asns' => if 65535 <? asn then Some j else first_wide asns' (j + 1)
  end.

Fixpoint first_shadow_index (segs : list libbgp_as_path_segment_t) (pos : Z) : M Z :=
  match segs with
  | [] => mret pos
  | seg :: segs' =>
      let asn_count := zlen (seg_asns seg) in
      fail_if ((seg_type seg <? 1) || (2 <? seg_type seg) || (255 <? asn_count)) LIBBGP_ERR_BAD_LEN;;
      match first_wide (seg_asns seg) 0 with
      | Some j => mret (pos + j)
      | None =>
          fail_if (SIZE_MAX - asn_count <? pos) LIBBGP_ERR_BAD_LEN;;
          first_shadow_index segs' (pos + asn_count)
      end
  end.

Definition update_first_as4_shadow_index (path : libbgp_pattr_t) : M Z :=
  first_shadow_index (as_path_segments path) 0.

(** The two passes of [update_clone_path_suffix_as_type]: how many segments
    remain, and their copies. *)
Fixpoint suffix_count (segs : list libbgp_as_path_segment_t) (start pos out_count : Z) : M Z :=
  match segs with
  | [] => mret out_count
  | seg :: segs' =>
      let asn_count := zlen (seg_asns seg) in
      if start <? pos + asn_count then
        fail_if ((pos <? start) && (seg_type seg =? 1)) LIBBGP_ERR_INVALID;;
        suffix_count segs' start (pos + asn_count) (out_count + 1)
      else suffix_count segs' start (pos + asn_count) out_count
  end.

Fixpoint suffix_copy (segs : list libbgp_as_path_segment_t) (start pos out_pos out_count : Z)
    : M (list libbgp_as_path_segment_t) :=
  match segs with
  | [] => mret []
  | seg :: segs' =>
      let asn_count := zlen (seg_asns seg) in
      let skip := if pos <? start then start - pos else 0 in
      if pos + asn_count <=? start then suffix_copy segs' start (pos + asn_count) out_pos out_count
      else
        let tmp := Segment (seg_type seg) (drop (Z.to_nat skip) (seg_asns seg)) in
        in_array out_pos out_count;;
        copy ← update_copy_segment_prefix tmp (asn_count - skip);
        rest ← suffix_copy segs' start (pos + asn_count) (out_pos + 1) out_count;
        mret (copy :: rest)
  end.

Definition update_clone_path_suffix_as_type (type : libbgp_pattr_type_t) (src : libbgp_pattr_t)
    (is_4b : bool) (start : Z) : M libbgp_pattr_t :=
  fail_if (negb (is_path_type type)) LIBBGP_ERR_BAD_LEN;;
  src_count ← update_validate_as_path_data src false;
  fail_if (src_count <=? start) LIBBGP_ERR_INVALID;;
  out_count ← suffix_count (as_path_segments src) start 0 0;
  attr ← libbgp_pattr_new type;
  (if out_count =? 0 then mret tt
   else fail_if (SIZE_MAX / SIZEOF_SEGMENT <? out_count) LIBBGP_ERR_BAD_LEN;; alloc_or_nomem);;
  segs ← suffix_copy (as_path_segments src) start 0 0 out_count;
  mret (set_as_path attr segs is_4b).

Definition count_as_trans (segs : list libbgp_as_path_segment_t) : Z :=
  zlen (filter (λ asn, asn = LIBBGP_AS_TRANS) (path_asns segs)).

Definition update_as_path_has_as_trans_count (as_path : libbgp_pattr_t) (expected_count : Z) : bool :=
  count_as_trans (as_path_segments as_path) =? expected_count.

(** The read position in AS4_PATH, [(as4_seg_pos, as4_asn_pos)], moved past
    the segments that are used up. *)
Fixpoint skip_segments (rest : list libbgp_as_path_segment_t) (seg_pos asn_pos : nat) : nat * nat :=
  match rest with
  | [] => (seg_pos, asn_pos)
  | seg :: rest' =>
      if (length (seg_asns seg) <=? asn_pos)%nat then skip_segments rest' (S seg_pos) 0
      else (seg_pos, asn_pos)
  end.

Definition cursor_skip (segs : list libbgp_as_path_segment_t) (cur : nat * nat) : nat * nat :=
  skip_segments (drop cur.1 segs) cur.1 cur.2.

(** [segments[as4_seg_pos].asns[as4_asn_pos]] *)
Definition cursor_get (segs : list libbgp_as_path_segment_t) (cur : nat * nat) : M Z :=
  match segs !! cur.1 with
  | Some seg =>
      match seg_asns seg !! cur.2 with
      | Some asn => mret asn
      | None => stuck OutOfBounds
      end
  | None => stuck OutOfBounds
  end.

Fixpoint suffix_matches (asns : list Z) (as4 : list libbgp_as_path_segment_t) (start pos : Z)
    (cur : nat * nat) : M bool :=
  match asns with
  | [] => mret ((cursor_skip as4 cur).1 =? length as4)%nat
  | asn :: asns' =>
      if pos <? start then suffix_matches asns' as4 start (pos + 1) cur
      else
        let cur := cursor_skip as4 cur in
        if (length as4 <=? cur.1)%nat then mret false
        else
          as4_asn ← cursor_get as4 cur;
          if negb (asn =? LIBBGP_AS_TRANS) && negb (asn =? as4_asn) then mret false
          else suffix_matches asns' as4 start (pos + 1) (cur.1, S cur.2)
  end.

Definition update_as_path_suffix_matches_as4 (as_path as4_path : libbgp_pattr_t) (start : Z)
    : M bool :=
  suffix_matches (path_asns (as_path_segments as_path)) (as_path_segments as4_path) start 0 (0, 0)%nat.

Fixpoint sparse_asns (asns : list Z) (as4 : list libbgp_as_path_segment_t) (cur : nat * nat)
    : M (list Z * (nat * nat)) :=
  match asns with
  | [] => mret ([], cur)
  | asn :: asns' =>
      '(asn', cur) ←
        (if asn =? LIBBGP_AS_TRANS then
           let cur := cursor_skip as4 cur in
           fail_if (length as4 <=? cur.1)%nat LIBBGP_ERR_INVALID;;
           as4_asn ← cursor_get as4 cur;
           mret (as4_asn, (cur.1, S cur.2))
         else mret (asn, cur));
      '(rest, cur) ← sparse_asns asns' as4 cur;
      mret (asn' :: rest, cur)
  end.

Fixpoint sparse_segments (segs as4 : list libbgp_as_path_segment_t) (cur : nat * nat)
    : M (list libbgp_as_path_segment_t) :=
  match segs with
  | [] => mret []
  | seg :: segs' =>
      '(asns, cur) ← sparse_asns (seg_asns seg) as4 cur;
      rest ← sparse_segments segs' as4 cur;
      mret (Segment (seg_type seg) asns :: rest)
  end.

Definition update_restore_as_path_sparse (as_path as4_path : libbgp_pattr_t) : M libbgp_pattr_t :=
  update_validate_as_path_data as_path false;;
  as4_count ← update_validate_as_path_data as4_path false;
  fail_if (negb (count_as_trans (as_path_segments as_path) =? as4_count)) LIBBGP_ERR_INVALID;;
  segs ← sparse_segments (as_path_segments as_path) (as_path_segments as4_path) (0, 0)%nat;
  mret (set_as_path as_path segs true).

(** The passes of [update_rebuild_as_path_from_as4_suffix]: how many segments
    the kept prefix spans, and the copies. *)
Fixpoint rebuild_prefix (segs : list libbgp_as_path_segment_t)
    (replace_start prefix_segments prefix_count : Z) : M (Z * Z) :=
  match segs with
  | [] => mret (prefix_segments, prefix_count)
  | seg :: segs' =>
      let asn_count := zlen (seg_asns seg) in
      if replace_start <=? prefix_count then mret (prefix_segments, prefix_count)
      else
        fail_if ((seg_type seg <? 1) || (2 <? seg_type seg)) LIBBGP_ERR_BAD_LEN;;
        fail_if ((replace_start <? prefix_count + asn_count) && (seg_type seg =? 1))
          LIBBGP_ERR_INVALID;;
        fail_if (SIZE_MAX - asn_count <? prefix_count) LIBBGP_ERR_BAD_LEN;;
        rebuild_prefix segs' replace_start (prefix_segments + 1) (prefix_count + asn_count)
  end.

Fixpoint rebuild_keep (segs : list libbgp_as_path_segment_t)
    (replace_start pos out out_count : Z) : M (list libbgp_as_path_segment_t * Z) :=
  match segs with
  | [] => mret ([], out)
  | seg :: segs' =>
      if pos <? replace_start then
        let asn_count := zlen (seg_asns seg) in
        let keep := if replace_start <? pos + asn_count then replace_start - pos else asn_count in
        '(part, out) ←
          (if keep =? 0 then mret ([], out)
           else
             in_array out out_count;;
             copy ← update_copy_segment_prefix seg keep;
             mret ([copy], out + 1));
        '(rest, out) ← rebuild_keep segs' replace_start (pos + asn_count) out out_count;
        mret (part ++ rest, out)
      else mret ([], out)
  end.

Fixpoint rebuild_suffix (as4 : list libbgp_as_path_segment_t) (out out_count : Z)
    : M (list libbgp_as_path_segment_t) :=
  match as4 with
  | [] => mret []
  | seg :: as4' =>
      in_array out out_count;;
      copy ← update_copy_segment_prefix seg (zlen (seg_asns seg));
      rest ← rebuild_suffix as4' (out + 1) out_count;
      mret (copy :: rest)
  end.

Definition update_rebuild_as_path_from_as4_suffix (as_path as4_path : libbgp_pattr_t)
    (replace_start : Z) : M libbgp_pattr_t :=
  fail_if (negb (is_path_type (pa_type as_path)) ||
           negb (bool_decide (pa_type as4_path = LIBBGP_PATTR_AS4_PATH))) LIBBGP_ERR_BAD_LEN;;
  let segs := as_path_segments as_path in
  let as4 := as_path_segments as4_path in
  '(prefix_segments, prefix_count) ← rebuild_prefix segs replace_start 0 0;
  fail_if (negb (prefix_count =? replace_start) && (prefix_segments =? 0)) LIBBGP_ERR_BAD_LEN;;
  fail_if (SIZE_MAX - zlen as4 <? prefix_segments) LIBBGP_ERR_BAD_LEN;;
  let out_count := prefix_segments + zlen as4 in
  (if out_count =? 0 then mret tt
   else fail_if (SIZE_MAX / SIZEOF_SEGMENT <? out_count) LIBBGP_ERR_BAD_LEN;; alloc_or_nomem);;
  '(kept, out) ← rebuild_keep segs replace_start 0 0 out_count;
  suffix ← rebuild_suffix as4 out out_count;
  mret (set_as_path as_path (kept ++ suffix) true).

(** ** The operations *)

(** [next_as4_path->...segments[0].asns[0] = asn], when there is such a slot. *)
Definition set_first_asn (path : libbgp_pattr_t) (asn : Z) : libbgp_pattr_t :=
  match as_path_segments path with
  | Segment type (_ :: asns) :: segs =>
      set_as_path path (Segment type (asn :: asns) :: segs) (as_path_is_4b path)
  | _ => path
  end.

Definition libbgp_update_prepend_asn (msg : libbgp_update_msg_t) (asn : Z) (use_4b_asn : bool)
    : M libbgp_update_msg_t :=
  let prep_asn := if use_4b_asn || (asn <=? 65535) then asn else LIBBGP_AS_TRANS in
  fail_if (use_4b_asn && bool_decide (is_Some (libbgp_update_find_attr msg LIBBGP_PATTR_AS4_PATH)))
    LIBBGP_ERR_INVALID;;
  '(original_as_path_count, next_as_path) ←
    match libbgp_update_find_attr msg LIBBGP_PATTR_AS_PATH with
    | Some as_path =>
        fail_if (negb (eqb (as_path_is_4b as_path) use_4b_asn)) LIBBGP_ERR_INVALID;;
        original_as_path_count ← update_count_path_asns as_path;
        next ← update_clone_path_as_type LIBBGP_PATTR_AS_PATH as_path use_4b_asn;
        mret (original_as_path_count, next)
    | None =>
        next ← libbgp_pattr_new LIBBGP_PATTR_AS_PATH;
        mret (0, set_as_path next [] use_4b_asn)
    end;
  next_as_path ← update_prepend_to_path next_as_path prep_asn;
  if negb use_4b_asn && (65535 <? asn) then
    as_path_count ← update_count_path_asns next_as_path;
    next_as4_path ←
      match libbgp_update_find_attr msg LIBBGP_PATTR_AS4_PATH with
      | None => update_clone_path_as_type LIBBGP_PATTR_AS4_PATH next_as_path true
      | Some as4_path =>
          as4_count ← update_count_path_asns as4_path;
          fail_if (original_as_path_count <? as4_count) LIBBGP_ERR_INVALID;;
          next ← update_clone_path_as_type LIBBGP_PATTR_AS4_PATH next_as_path true;
          update_rebuild_as_path_from_as4_suffix next as4_path (as_path_count - as4_count)
      end;
    update_set_attr_pair msg next_as_path (set_first_asn next_as4_path asn)
  else update_set_attr msg next_as_path.

Definition libbgp_update_restore_as_path (msg : libbgp_update_msg_t) : M libbgp_update_msg_t :=
  match libbgp_update_find_attr msg LIBBGP_PATTR_AS_PATH with
  | None => mret msg
  | Some as_path =>
      match libbgp_update_find_attr msg LIBBGP_PATTR_AS4_PATH with
      | None =>
          update_validate_as_path_data as_path false;;
          mret (replace_attr msg (set_as_path as_path (as_path_segments as_path) true))
      | Some as4_path =>
          as4_count ← update_count_path_asns as4_path;
          as_path_count ← update_count_path_asns as_path;
          fail_if (as_path_count <? as4_count) LIBBGP_ERR_INVALID;;
          let replace_start := as_path_count - as4_count in
          sparse ←
            (if negb (as4_count =? as_path_count) &&
                update_as_path_has_as_trans_count as_path as4_count then
               matches ← update_as_path_suffix_matches_as4 as_path as4_path replace_start;
               mret (negb matches)
             else mret false);
          as_path ←
            (if (sparse : bool) then update_restore_as_path_sparse as_path as4_path
             else update_rebuild_as_path_from_as4_suffix as_path as4_path replace_start);
          mret (update_remove_attr_type (replace_attr msg as_path) LIBBGP_PATTR_AS4_PATH).2
      end
  end.

Definition narrow_asn (asn : Z) : Z := if 65535 <? asn then LIBBGP_AS_TRANS else asn.
Definition narrow_segment (seg : libbgp_as_path_segment_t) : libbgp_as_path_segment_t :=
  Segment (seg_type seg) (narrow_asn <$> seg_asns seg).

Definition libbgp_update_downgrade_as_path (msg : libbgp_update_msg_t) : M libbgp_update_msg_t :=
  match libbgp_update_find_attr msg LIBBGP_PATTR_AS_PATH with
  | None => mret msg
  | Some as_path =>
      if negb (as_path_is_4b as_path) then mret msg
      else
        update_validate_as_path_data as_path false;;
        next_as_path ← update_clone_path_as_type LIBBGP_PATTR_AS_PATH as_path false;
        let narrowed := set_as_path next_as_path
                          (narrow_segment <$> as_path_segments next_as_path) false in
        if update_path_needs_as4_shadow as_path then
          first_as4_index ← update_first_as4_shadow_index as_path;
          as_path_count ← update_count_path_asns as_path;
          next_as4_path ← update_clone_path_suffix_as_type LIBBGP_PATTR_AS4_PATH as_path true
                            first_as4_index;
          fail_if (as_path_count <=? first_as4_index) LIBBGP_ERR_INVALID;;
          update_set_attr_pair msg narrowed next_as4_path
        else
          msg ← update_set_attr msg narrowed;
          mret (update_remove_attr_type msg LIBBGP_PATTR_AS4_PATH).2
  end.

(** [attr->data.aggregator] of both aggregator types. *)
Definition aggregator_of (attr : libbgp_pattr_t) : Z * Z * bool :=
  match pa_data attr with
  | d_aggregator asn router_id is_4b | d_as4_aggregator asn router_id is_4b =>
      (asn, router_id, is_4b)
  | _ => (0, 0, false)
  end.

Definition set_aggregator (attr : libbgp_pattr_t) (asn router_id : Z) (is_4b : bool)
    : libbgp_pattr_t :=
  Pattr (pa_flags attr) (pa_type_code attr)
    match pa_data attr with
    | d_aggregator _ _ _ => d_aggregator asn router_id is_4b
    | d_as4_aggregator _ _ _ => d_as4_aggregator asn router_id is_4b
    | data => data
    end.

Definition libbgp_update_restore_aggregator (msg : libbgp_update_msg_t) : M libbgp_update_msg_t :=
  let as4_aggregator := libbgp_update_find_attr msg LIBBGP_PATTR_AS4_AGGREGATOR in
  match libbgp_update_find_attr msg LIBBGP_PATTR_AGGREGATOR, as4_aggregator with
  | None, None => mret msg
  | None, Some as4_aggregator =>
      let '(asn, router_id, _) := aggregator_of as4_aggregator in
      aggregator ← libbgp_pattr_new LIBBGP_PATTR_AGGREGATOR;
      msg ← update_set_attr msg (set_aggregator aggregator asn router_id true);
      mret (update_remove_attr_type msg LIBBGP_PATTR_AS4_AGGREGATOR).2
  | Some aggregator, Some as4_aggregator =>
      let '(asn, router_id, _) := aggregator_of as4_aggregator in
      let msg := replace_attr msg (set_aggregator aggregator asn router_id true) in
      mret (update_remove_attr_type msg LIBBGP_PATTR_AS4_AGGREGATOR).2
  | Some aggregator, None =>
      let '(asn, router_id, _) := aggregator_of aggregator in
      mret (replace_attr msg (set_aggregator aggregator asn router_id true))
  end.

Definition libbgp_update_downgrade_aggregator (msg : libbgp_update_msg_t) : M libbgp_update_msg_t :=
  match libbgp_update_find_attr msg LIBBGP_PATTR_AGGREGATOR with
  | None => mret msg
  | Some aggregator =>
      let '(original_asn, original_router_id, is_4b) := aggregator_of aggregator in
      msg ←
        (if is_4b || (65535 <? original_asn) then
           as4_aggregator ← libbgp_pattr_new LIBBGP_PATTR_AS4_AGGREGATOR;
           update_set_attr msg (set_aggregator as4_aggregator original_asn original_router_id true)
         else mret msg);
      mret (replace_attr msg (set_aggregator aggregator (narrow_asn original_asn)
                                original_router_id false))
  end.
