(* ===== verification/As4Spec.v ===== *)
(** * AS-number conversions: cutting paths, round trip, prepending *)

From S2P Require Import Prelude Bytes Prefix4 Pattr PattrSpec Update UpdateSpec As4.

(** ** Paths *)

Definition seg_shape (seg : libbgp_as_path_segment_t) : Prop :=
  1 <= seg_type seg <= 2 ∧ zlen (seg_asns seg) <= 255.

(** A path attribute the conversions accept; the bound excludes the size
    overflows no real machine reaches. *)
Definition path_ok (attr : libbgp_pattr_t) : Prop :=
  is_path_type (pa_type attr) = true ∧
  (pa_type attr = LIBBGP_PATTR_AS4_PATH → as_path_is_4b attr = true) ∧
  Forall seg_shape (as_path_segments attr) ∧ zlen (as_path_segments attr) <= 2 ^ 32.

(** The path as the routing protocol reads it: AS numbers of a sequence one
    by one, a set as one element.  How a sequence is cut into segments, and
    segments without AS numbers, do not matter. *)
Definition seg_units (seg : libbgp_as_path_segment_t) : list (Z + list Z) :=
  if seg_type seg =? 1 then match seg_asns seg with [] => [] | asns => [inr asns] end
  else inl <$> seg_asns seg.
Definition path_units (segs : list libbgp_as_path_segment_t) : list (Z + list Z) :=
  concat (seg_units <$> segs).

(** What is before and after the first [k] AS numbers, and whether the cut is
    inside a set. *)
(** At most one segment: none when there are no AS numbers. *)
Definition opt_seg (ty : Z) (asns : list Z) : list libbgp_as_path_segment_t :=
  match asns with [] => [] | _ => [Segment ty asns] end.

Fixpoint cut_before (k : nat) (segs : list libbgp_as_path_segment_t)
    : list libbgp_as_path_segment_t :=
  match segs with
  | [] => []
  | seg :: segs' =>
      if (k =? 0)%nat then []
      else
        opt_seg (seg_type seg) (take k (seg_asns seg)) ++
        cut_before (k - length (seg_asns seg)) segs'
  end.

Fixpoint cut_after (k : nat) (segs : list libbgp_as_path_segment_t)
    : list libbgp_as_path_segment_t :=
  match segs with
  | [] => []
  | seg :: segs' =>
      if (length (seg_asns seg) <=? k)%nat then cut_after (k - length (seg_asns seg)) segs'
      else Segment (seg_type seg) (drop k (seg_asns seg)) :: segs'
  end.

Fixpoint cuts_set (k : nat) (segs : list libbgp_as_path_segment_t) : bool :=
  match segs with
  | [] => false
  | seg :: segs' =>
      if (length (seg_asns seg) <=? k)%nat then cuts_set (k - length (seg_asns seg)) segs'
      else (0 <? k)%nat && (seg_type seg =? 1)
  end.

Lemma path_asns_cons seg segs : path_asns (seg :: segs) = seg_asns seg ++ path_asns segs.
Proof. done. Qed.

Lemma path_units_app s1 s2 : path_units (s1 ++ s2) = path_units s1 ++ path_units s2.
Proof. unfold path_units. by rewrite fmap_app, concat_app. Qed.

Lemma path_asns_bound segs :
  Forall seg_shape segs → zlen (path_asns segs) <= 255 * zlen segs.
Proof.
  induction 1 as [|seg segs [_ Hc] _ IH]; [done|].
  rewrite path_asns_cons, length_app. cbn [length]. lia.
Qed.

Lemma cut_before_0 segs : cut_before 0 segs = [].
Proof. by destruct segs. Qed.

Lemma cut_before_asns k segs : path_asns (cut_before k segs) = take k (path_asns segs).
Proof.
  revert k. induction segs as [|seg segs IH]; intros k; [by destruct k|].
  cbn [cut_before]. destruct (Nat.eqb_spec k 0) as [->|Hk]; [done|].
  rewrite path_asns_app, IH, path_asns_cons, take_app. f_equal.
  destruct (take k (seg_asns seg)) eqn:Ht; [done|].
  unfold path_asns. cbn. by rewrite app_nil_r.
Qed.

Lemma cut_after_asns k segs : path_asns (cut_after k segs) = drop k (path_asns segs).
Proof.
  revert k. induction segs as [|seg segs IH]; intros k; [by destruct k|].
  cbn [cut_after]. rewrite path_asns_cons, drop_app. destruct (Nat.leb_spec (length (seg_asns seg)) k).
  - rewrite IH, (drop_ge (seg_asns seg)) by lia. done.
  - rewrite path_asns_cons. cbn [seg_asns].
    by replace (k - length (seg_asns seg))%nat with 0%nat by lia.
Qed.

Lemma cut_before_shape k segs : Forall seg_shape segs → Forall seg_shape (cut_before k segs).
Proof.
  intros H. revert k. induction H as [|seg segs [Ht Hc] _ IH]; intros k; [constructor|].
  cbn [cut_before]. case_match; [constructor|]. apply Forall_app. split; [|apply IH].
  destruct (take k (seg_asns seg)) eqn:He; [constructor|]. constructor; [|constructor].
  rewrite <-He. split; [done|]. cbn [seg_asns]. rewrite length_take. lia.
Qed.

Lemma cut_after_shape k segs : Forall seg_shape segs → Forall seg_shape (cut_after k segs).
Proof.
  intros H. revert k. induction H as [|seg segs [Ht Hc] H IH]; intros k; [constructor|].
  cbn [cut_after]. case_match; [apply IH|]. constructor; [|done].
  split; [done|]. cbn [seg_asns]. rewrite length_drop. lia.
Qed.

Lemma cut_before_length k segs : (length (cut_before k segs) <= length segs)%nat.
Proof.
  revert k. induction segs as [|seg segs IH]; intros k; [done|].
  cbn [cut_before]. case_match; [cbn; lia|]. rewrite length_app.
  specialize (IH (k - length (seg_asns seg))%nat). unfold opt_seg. case_match; cbn [length]; lia.
Qed.

Lemma cut_after_length k segs : (length (cut_after k segs) <= length segs)%nat.
Proof.
  revert k. induction segs as [|seg segs IH]; intros k; [done|].
  cbn [cut_after]. specialize (IH (k - length (seg_asns seg))%nat). case_match; cbn [length]; lia.
Qed.

(** A cut that is not inside a set keeps the path. *)
Lemma seg_units_cut ty asns k :
  (ty =? 1) = false →
  seg_units (Segment ty asns) = seg_units (Segment ty (take k asns)) ++ seg_units (Segment ty (drop k asns)).
Proof.
  intros Ht. unfold seg_units. cbn [seg_type seg_asns]. rewrite Ht.
  by rewrite <-fmap_app, take_drop.
Qed.

Lemma path_units_cons seg segs : path_units (seg :: segs) = seg_units seg ++ path_units segs.
Proof. done. Qed.

Lemma seg_units_nil ty : seg_units (Segment ty []) = [].
Proof. unfold seg_units. cbn. by case_match. Qed.

Lemma units_opt ty asns :
  path_units (opt_seg ty asns) = seg_units (Segment ty asns).
Proof.
  destruct asns; [by rewrite seg_units_nil|]. unfold opt_seg, path_units. cbn [fmap list_fmap concat]. apply app_nil_r.
Qed.

Lemma cut_units k segs :
  cuts_set k segs = false →
  path_units (cut_before k segs ++ cut_after k segs) = path_units segs.
Proof.
  revert k. induction segs as [|[ty asns] segs IH]; intros k Hc; [done|].
  cbn [cut_before cut_after cuts_set seg_asns seg_type] in *. destruct (Nat.eqb_spec k 0) as [->|Hk].
  - cbn [app]. destruct (Nat.leb_spec (length asns) 0); [|done].
    destruct asns; [|cbn in *; lia]. cbn [length] in *.
    rewrite path_units_cons, seg_units_nil, <-(IH 0%nat Hc), cut_before_0. done.
  - rewrite !path_units_app, units_opt, path_units_cons.
    destruct (Nat.leb_spec (length asns) k) as [Hle|Hlt].
    + rewrite take_ge by done. rewrite <-(assoc_L (++)), <-path_units_app, IH by done. done.
    + replace (k - length asns)%nat with 0%nat by lia. rewrite cut_before_0, path_units_cons.
      rewrite (seg_units_cut ty asns k); [by rewrite <-!(assoc_L (++))|].
      destruct (ty =? 1); [|done]. destruct k; [lia|done].
Qed.

(** ** Counting and copying *)

Lemma asn_size_bound n : n <= 2 ^ 60 → (SIZE_MAX / SIZEOF_ASN <? n) = false.
Proof. intros. assert (SIZE_MAX / SIZEOF_ASN = 2 ^ 62 - 1) by done. lia. Qed.

Lemma segment_size_bound n : n <= 2 ^ 50 → (SIZE_MAX / SIZEOF_SEGMENT - 1 <? n) = false.
Proof.
  intros. assert (2 ^ 51 <= SIZE_MAX / SIZEOF_SEGMENT) by (vm_compute; discriminate). lia.
Qed.

Lemma wp_fail_never c e (Q : unit -> Prop) E : c = false → Q tt → wp (fail_if c e) Q E.
Proof. intros -> HQ. by apply wp_ret. Qed.

(** A guarded allocation: skipped when there is nothing to hold. *)
Lemma wp_alloc_opt (b c : bool) e (Q : unit -> Prop) E :
  c = false → Q tt → wp (if b then mret tt else fail_if c e;; alloc_or_nomem) Q E.
Proof.
  intros -> HQ. destruct b; [by apply wp_ret|]. by apply wp_bind, wp_ret, wp_alloc_or_nomem.
Qed.

Lemma wp_validate_segments segs total :
  Forall seg_shape segs → 0 <= total → total + 255 * zlen segs <= 2 ^ 60 →
  wp (validate_segments false segs total) (λ n, n = total + zlen (path_asns segs)) no_err.
Proof.
  intros H. revert total. induction H as [|seg segs [Ht Hc] _ IH]; intros total H0 Hb.
  { apply wp_ret. change (path_asns []) with (@nil Z). cbn. lia. }
  cbn [validate_segments length] in *. apply wp_bind, wp_fail_never; [lia|].
  apply wp_bind, wp_fail_never; [unfold SIZE_MAX; lia|]. apply wp_bind, wp_fail_never; [done|].
  eapply wp_mono; [apply IH; lia| |done]. intros n ->. rewrite path_asns_cons, length_app. lia.
Qed.

Lemma wp_validate_path attr :
  path_ok attr →
  wp (update_validate_as_path_data attr false)
     (λ n, n = zlen (path_asns (as_path_segments attr))) no_err.
Proof.
  intros (Ht & H4 & Hs & Hb). unfold update_validate_as_path_data, as_path_segments, pa_type,
    as_path_is_4b in *. destruct (pa_data attr) as [|segs b| | | | | | |segs b| | | |]; try done.
  - eapply wp_mono; [apply wp_validate_segments; [done|lia..]| |done]. intros n ->. lia.
  - rewrite H4 by done. apply wp_bind, wp_fail_never; [done|].
    eapply wp_mono; [apply wp_validate_segments; [done|lia..]| |done]. intros n ->. lia.
Qed.

Lemma wp_copy_segments segs :
  Forall seg_shape segs → wp (copy_segments segs) (λ r, r = segs) no_err.
Proof.
  induction 1 as [|[ty asns] segs [Ht Hc] _ IH]; [by apply wp_ret|]. cbn [copy_segments].
  apply wp_bind, wp_alloc_opt; [apply asn_size_bound; lia|].
  apply wp_bind. eapply wp_mono; [exact IH| |done]. intros r ->. by apply wp_ret.
Qed.

Lemma wp_clone_path type src is_4b :
  path_ok src → is_path_type type = true →
  wp (update_clone_path_as_type type src is_4b)
     (λ r, r = set_as_path (pattr_set_defaults type) (as_path_segments src) is_4b) no_err.
Proof.
  intros Hp Ht. apply wp_bind, wp_bind, wp_alloc_or_nomem, wp_ret.
  apply wp_bind, wp_fail_never; [by destruct type|].
  apply wp_bind. eapply wp_mono; [by apply wp_validate_path| |done]. intros n _.
  destruct Hp as (_ & _ & Hs & Hb). apply wp_if; intros Hz.
  - apply wp_ret. destruct (as_path_segments src); [done|cbn in Hz; lia].
  - pose proof (segment_size_bound (zlen (as_path_segments src))).
    apply wp_bind, wp_fail_never; [lia|]. apply wp_bind, wp_alloc_or_nomem.
    apply wp_bind. eapply wp_mono; [by apply wp_copy_segments| |done]. intros r ->. by apply wp_ret.
Qed.

Lemma wp_copy_segment_prefix seg k :
  seg_shape seg → 0 <= k <= zlen (seg_asns seg) →
  wp (update_copy_segment_prefix seg k)
     (λ r, r = Segment (seg_type seg) (take (Z.to_nat k) (seg_asns seg))) no_err.
Proof.
  intros [Ht Hc] Hk. apply wp_bind, wp_fail_never; [lia|].
  apply wp_bind, wp_alloc_opt; [apply asn_size_bound; lia|]. by apply wp_ret.
Qed.

Lemma wp_in_array out n (Q : unit -> Prop) E : 0 <= out < n → Q tt → wp (in_array out n) Q E.
Proof.
  intros Ho HQ. unfold in_array. replace ((0 <=? out) && (out <? n)) with true by lia. by apply wp_ret.
Qed.

(** Copying all segments of a path. *)
Lemma wp_rebuild_suffix as4 out out_count :
  Forall seg_shape as4 → 0 <= out → out + zlen as4 <= out_count →
  wp (rebuild_suffix as4 out out_count) (λ r, r = as4) no_err.
Proof.
  intros H. revert out. induction H as [|seg as4 Hs _ IH]; intros out H0 Hb; [by apply wp_ret|].
  cbn [rebuild_suffix length] in *. apply wp_bind, wp_in_array; [lia|].
  apply wp_bind. eapply wp_mono; [apply wp_copy_segment_prefix; [done|lia]| |done]. intros r ->.
  rewrite Nat2Z.id, take_ge by done.
  apply wp_bind. eapply wp_mono; [apply IH; lia| |done]. intros r ->. apply wp_ret. by destruct seg.
Qed.

(** ** The suffix with four-octet AS numbers *)

Lemma wp_suffix_count_past segs start pos n :
  start < pos → wp (suffix_count segs start pos n) (λ r, r = n + zlen segs) no_err.
Proof.
  revert pos n. induction segs as [|seg segs IH]; intros pos n Hp; cbn [suffix_count length].
  { apply wp_ret. lia. }
  apply wp_if; intros Hc; [|exfalso; lia]. apply wp_bind, wp_fail_never; [lia|].
  eapply wp_mono; [apply IH; lia| |done]. intros r ->. lia.
Qed.

Lemma wp_suffix_count segs start pos n :
  pos <= start →
  wp (suffix_count segs start pos n)
     (λ r, r = n + zlen (cut_after (Z.to_nat (start - pos)) segs) ∧
           cuts_set (Z.to_nat (start - pos)) segs = false)
     (λ e, e = LIBBGP_ERR_INVALID ∧ cuts_set (Z.to_nat (start - pos)) segs = true).
Proof.
  revert pos n. induction segs as [|seg segs IH]; intros pos n Hp;
    cbn [suffix_count cut_after cuts_set length].
  { apply wp_ret. cbn. split; [lia|done]. }
  apply wp_if; intros Hc; case_match; try lia.
  - apply wp_bind, wp_fail_if; intros Hf; [split; [done|lia]|].
    eapply wp_mono; [apply wp_suffix_count_past; lia| |done]. intros r ->. cbn [length]. lia.
  - replace (Z.to_nat (start - pos) - length (seg_asns seg))%nat
      with (Z.to_nat (start - (pos + zlen (seg_asns seg)))) by lia.
    apply IH. lia.
Qed.

Lemma wp_suffix_copy_past segs start pos out n :
  Forall seg_shape segs → start < pos → 0 <= out → out + zlen segs <= n →
  wp (suffix_copy segs start pos out n) (λ r, r = segs) no_err.
Proof.
  intros H. revert pos out. induction H as [|seg segs Hs _ IH]; intros pos out Hp H0 Hb;
    cbn [suffix_copy length] in *; [by apply wp_ret|].
  apply wp_if; intros Hc; [exfalso; lia|]. apply wp_bind, wp_in_array; [lia|].
  replace (pos <? start) with false by lia. change (Z.to_nat 0) with 0%nat.
  rewrite drop_0, Z.sub_0_r.
  apply wp_bind. eapply wp_mono; [apply wp_copy_segment_prefix; [by destruct seg|]| |done].
  { cbn [seg_asns]. lia. }
  intros r ->. apply wp_bind. eapply wp_mono; [apply IH; lia| |done]. intros r ->.
  apply wp_ret. cbn [seg_asns seg_type]. rewrite Nat2Z.id, take_ge by done. by destruct seg.
Qed.

Lemma wp_suffix_copy segs start pos n :
  Forall seg_shape segs → pos <= start → zlen (cut_after (Z.to_nat (start - pos)) segs) <= n →
  wp (suffix_copy segs start pos 0 n) (λ r, r = cut_after (Z.to_nat (start - pos)) segs) no_err.
Proof.
  intros H. revert pos. induction H as [|seg segs Hs Hss IH]; intros pos Hp Hb;
    cbn [suffix_copy cut_after] in *; [by apply wp_ret|].
  apply wp_if; intros Hc; case_match; try lia.
  - replace (Z.to_nat (start - pos) - length (seg_asns seg))%nat
      with (Z.to_nat (start - (pos + zlen (seg_asns seg)))) in * by lia.
    apply IH; [lia|done].
  - cbn [length] in Hb. apply wp_bind, wp_in_array; [lia|].
    replace (if pos <? start then start - pos else 0) with (start - pos) by (case_match; lia).
    apply wp_bind. eapply wp_mono; [apply wp_copy_segment_prefix| |done].
    + destruct Hs. split; [done|]. cbn [seg_asns]. rewrite length_drop. lia.
    + cbn [seg_asns]. rewrite length_drop. lia.
    + intros r ->. apply wp_bind. eapply wp_mono; [apply wp_suffix_copy_past; [done|lia..]| |done].
      intros r ->. apply wp_ret. cbn [seg_type seg_asns]. f_equal. f_equal.
      apply take_ge. rewrite length_drop. lia.
Qed.

(** The tail of a path as an AS4_PATH: refused exactly when it starts inside
    a set. *)
Lemma wp_clone_path_suffix type src start :
  path_ok src → is_path_type type = true →
  0 <= start < zlen (path_asns (as_path_segments src)) →
  wp (update_clone_path_suffix_as_type type src true start)
     (λ r, r = set_as_path (pattr_set_defaults type)
                 (cut_after (Z.to_nat start) (as_path_segments src)) true ∧
           cuts_set (Z.to_nat start) (as_path_segments src) = false)
     (λ e, e = LIBBGP_ERR_INVALID ∧ cuts_set (Z.to_nat start) (as_path_segments src) = true).
Proof.
  intros Hp Ht Hst. apply wp_bind, wp_fail_never; [by rewrite Ht|].
  apply wp_bind. eapply wp_mono; [by apply wp_validate_path| |done]. intros n ->.
  apply wp_bind, wp_fail_never; [lia|].
  destruct Hp as (_ & _ & Hs & Hb). pose proof (cut_after_length (Z.to_nat start) (as_path_segments src)).
  apply wp_bind. eapply wp_mono; [apply wp_suffix_count; lia| |]; rewrite Z.sub_0_r; [|done].
  intros n [-> Hc]. apply wp_bind, wp_bind, wp_alloc_or_nomem, wp_ret.
  pose proof (segment_size_bound (zlen (cut_after (Z.to_nat start) (as_path_segments src)))).
  apply wp_bind, wp_alloc_opt; [lia|].
  apply wp_bind. eapply wp_mono; [apply wp_suffix_copy; [done|lia|rewrite Z.sub_0_r; lia]| |done].
  rewrite Z.sub_0_r. intros r ->. by apply wp_ret.
Qed.

(** ** The path rebuilt from a kept prefix and AS4_PATH *)

Lemma cuts_set_0 segs : cuts_set 0 segs = false.
Proof. induction segs as [|seg segs IH]; [done|]. cbn [cuts_set]. by case_match. Qed.

Lemma wp_rebuild_prefix segs start ps pc :
  Forall seg_shape segs → 0 <= pc → pc + 255 * zlen segs <= 2 ^ 60 →
  wp (rebuild_prefix segs start ps pc)
     (λ r, cuts_set (Z.to_nat (start - pc)) segs = false ∧
           ps + zlen (cut_before (Z.to_nat (start - pc)) segs) <= r.1 <= ps + zlen segs ∧
           (r = (ps, pc) ∧ (start <= pc ∨ segs = []) ∨ ps < r.1))
     (λ e, e = LIBBGP_ERR_INVALID ∧ cuts_set (Z.to_nat (start - pc)) segs = true).
Proof.
  intros H. revert ps pc. induction H as [|seg segs [Ht Hl] _ IH]; intros ps pc H0 Hb;
    cbn [rebuild_prefix].
  { apply wp_ret. cbn. split_and!; [done|lia..|]. by left; auto. }
  cbn [length] in Hb. apply wp_if; intros Hc.
  { apply wp_ret. replace (Z.to_nat (start - pc)) with 0%nat by lia.
    rewrite cuts_set_0. cbn. split_and!; [done|lia..|]. left. split; [done|lia]. }
  apply wp_bind, wp_fail_never; [lia|]. cbn [cuts_set cut_before].
  replace (Z.to_nat (start - pc) =? 0)%nat with false by lia.
  replace (Z.to_nat (start - pc) - length (seg_asns seg))%nat
    with (Z.to_nat (start - (pc + zlen (seg_asns seg)))) by lia.
  set (k := Z.to_nat (start - (pc + zlen (seg_asns seg)))).
  assert (Hopt : zlen (opt_seg (seg_type seg) (take (Z.to_nat (start - pc)) (seg_asns seg))) <= 1)
    by (unfold opt_seg; case_match; cbn; lia).
  apply wp_bind, wp_fail_if; intros Hf.
  { split; [done|]. case_match; lia. }
  apply wp_bind, wp_fail_never; [unfold SIZE_MAX; lia|].
  eapply wp_mono; [apply IH; lia| |]; fold k.
  - intros r (Hcs & Hr & _). rewrite length_app. cbn [length]. split_and!; [|lia..].
    case_match; [done|]. destruct (seg_type seg =? 1) eqn:Hty; [|by rewrite andb_comm]. lia.
  - intros e [-> He]. split; [done|]. case_match; [done|].
    unfold k in He. rewrite Z2Nat.nonpos, cuts_set_0 in He by lia. done.
Qed.

Lemma wp_rebuild_keep segs start pos out n :
  Forall seg_shape segs → 0 <= out →
  out + zlen (cut_before (Z.to_nat (start - pos)) segs) <= n →
  wp (rebuild_keep segs start pos out n)
     (λ r, r = (cut_before (Z.to_nat (start - pos)) segs,
                out + zlen (cut_before (Z.to_nat (start - pos)) segs))) no_err.
Proof.
  intros H. revert pos out. induction H as [|seg segs Hs _ IH]; intros pos out H0 Hb;
    cbn [rebuild_keep cut_before].
  { apply wp_ret. cbn. f_equal. lia. }
  cbn [cut_before] in Hb. apply wp_if; intros Hc.
  2:{ replace (Z.to_nat (start - pos) =? 0)%nat with true by lia. apply wp_ret. cbn. f_equal. lia. }
  replace (Z.to_nat (start - pos) =? 0)%nat with false in * by lia.
  replace (Z.to_nat (start - pos) - length (seg_asns seg))%nat
    with (Z.to_nat (start - (pos + zlen (seg_asns seg)))) in * by lia.
  rewrite length_app in *.
  set (keep := if start <? pos + zlen (seg_asns seg) then _ else _).
  assert (Hk : take (Z.to_nat keep) (seg_asns seg) = take (Z.to_nat (start - pos)) (seg_asns seg) ∧
               0 <= keep <= zlen (seg_asns seg)).
  { unfold keep. case_match; (split; [|lia]); [done|]. rewrite !take_ge by lia. done. }
  clearbody keep. destruct Hk as [Hkt Hk]. rewrite <-Hkt in *. clear Hkt. apply wp_bind.
  eapply (wp_mono _ (λ r, r = (opt_seg (seg_type seg) (take (Z.to_nat keep) (seg_asns seg)),
    out + zlen (opt_seg (seg_type seg) (take (Z.to_nat keep) (seg_asns seg)))))); [| |done].
  - apply wp_if; intros Hz.
    + apply wp_ret. replace keep with 0 by lia. change (Z.to_nat 0) with 0%nat. rewrite take_0.
      cbn [opt_seg length]. f_equal. lia.
    + assert (take (Z.to_nat keep) (seg_asns seg) ≠ []) as Hne.
      { intros He. apply (f_equal length) in He. rewrite length_take in He. cbn in He. lia. }
      unfold opt_seg in *. destruct (take (Z.to_nat keep) (seg_asns seg)) eqn:He; [done|].
      cbn [length] in Hb. apply wp_bind, wp_in_array; [lia|].
      apply wp_bind. eapply wp_mono; [by apply wp_copy_segment_prefix| |done]. intros r ->.
      rewrite He. by apply wp_ret.
  - intros r ->. apply wp_bind. eapply wp_mono; [apply IH; lia| |done]. intros r ->.
    apply wp_ret. f_equal. lia.
Qed.

Lemma wp_rebuild as_path as4_path start :
  path_ok as_path → pa_type as4_path = LIBBGP_PATTR_AS4_PATH → path_ok as4_path →
  0 <= start <= zlen (path_asns (as_path_segments as_path)) →
  wp (update_rebuild_as_path_from_as4_suffix as_path as4_path start)
     (λ r, r = set_as_path as_path (cut_before (Z.to_nat start) (as_path_segments as_path) ++
                                    as_path_segments as4_path) true ∧
           cuts_set (Z.to_nat start) (as_path_segments as_path) = false)
     (λ e, e = LIBBGP_ERR_INVALID ∧ cuts_set (Z.to_nat start) (as_path_segments as_path) = true).
Proof.
  intros (Ht & _ & Hs & Hb) Ht4 (_ & _ & Hs4 & Hb4) Hst.
  apply wp_bind, wp_fail_never. { by rewrite Ht, bool_decide_true. }
  apply wp_bind. eapply wp_mono; [apply wp_rebuild_prefix; [done|lia..]| |]; rewrite Z.sub_0_r; [|done].
  intros [ps pc] (Hc & Hr & Hz). cbn [fst] in *. apply wp_bind, wp_fail_never.
  { destruct Hz as [[[= -> ->] [?|Hn]]|?]; [lia| |lia].
    rewrite Hn in Hst. cbn in Hst. lia. }
  apply wp_bind, wp_fail_never; [unfold SIZE_MAX; lia|].
  pose proof (segment_size_bound (ps + zlen (as_path_segments as4_path))).
  apply wp_bind, wp_alloc_opt; [lia|].
  apply wp_bind. eapply wp_mono; [apply wp_rebuild_keep; [done|lia|rewrite Z.sub_0_r; lia]| |done].
  rewrite Z.sub_0_r. intros r ->. apply wp_bind. eapply wp_mono; [apply wp_rebuild_suffix; [done|lia..]| |done].
  intros r ->. by apply wp_ret.
Qed.

(** ** The first AS number that needs four octets *)

Fixpoint wide_index (asns : list Z) : nat :=
  match asns with
  | [] => 0
  | asn :: asns' => if 65535 <? asn then 0 else S (wide_index asns')
  end.

Lemma wide_index_app l1 l2 :
  wide_index (l1 ++ l2) =
    if existsb (λ asn, 65535 <? asn) l1 then wide_index l1 else (length l1 + wide_index l2)%nat.
Proof.
  induction l1 as [|asn l1 IH]; [done|]. cbn. destruct (65535 <? asn); [done|].
  cbn. rewrite IH. by case_match.
Qed.

Lemma wide_index_le asns : (wide_index asns <= length asns)%nat.
Proof. induction asns; cbn; [done|]. case_match; lia. Qed.

Lemma wide_index_lt asns :
  existsb (λ asn, 65535 <? asn) asns = true → (wide_index asns < length asns)%nat.
Proof.
  induction asns as [|asn asns IH]; [done|]. cbn. case_match; cbn; intros H'; [lia|].
  specialize (IH H'). lia.
Qed.

Lemma wide_index_narrow asns : narrow_asn <$> take (wide_index asns) asns = take (wide_index asns) asns.
Proof.
  induction asns as [|asn asns IH]; [done|]. cbn. case_match eqn:Hw; [done|].
  cbn. unfold narrow_asn at 1. by rewrite Hw, IH.
Qed.

Lemma no_wide_narrow asns : existsb (λ asn, 65535 <? asn) asns = false → narrow_asn <$> asns = asns.
Proof.
  induction asns as [|asn asns IH]; [done|]. cbn. intros [Hw H]%orb_false_iff.
  unfold narrow_asn at 1. by rewrite Hw, IH.
Qed.

Lemma first_wide_spec asns j :
  first_wide asns j =
    if existsb (λ asn, 65535 <? asn) asns then Some (j + Z.of_nat (wide_index asns)) else None.
Proof.
  revert j. induction asns as [|asn asns IH]; intros j; [done|]. cbn.
  destruct (65535 <? asn); cbn; [f_equal; lia|]. rewrite IH. case_match; [f_equal; lia|done].
Qed.

Lemma wp_first_shadow_index segs pos :
  Forall seg_shape segs → 0 <= pos → pos + 255 * zlen segs <= 2 ^ 60 →
  wp (first_shadow_index segs pos) (λ i, i = pos + Z.of_nat (wide_index (path_asns segs))) no_err.
Proof.
  intros H. revert pos. induction H as [|seg segs [Ht Hl] _ IH]; intros pos H0 Hb;
    cbn [first_shadow_index].
  { apply wp_ret. cbn. lia. }
  cbn [length] in Hb. apply wp_bind, wp_fail_never; [lia|].
  rewrite path_asns_cons, wide_index_app, first_wide_spec. destruct (existsb _ _); [apply wp_ret; lia|].
  apply wp_bind, wp_fail_never; [unfold SIZE_MAX; lia|].
  eapply wp_mono; [apply IH; lia| |done]. intros i ->. lia.
Qed.

(** ** Reading AS4_PATH number by number *)

(** What a read position has not consumed. *)
Definition cursor_rest (segs : list libbgp_as_path_segment_t) (cur : nat * nat) : list Z :=
  match drop cur.1 segs with
  | [] => []
  | seg :: segs' => drop cur.2 (seg_asns seg) ++ path_asns segs'
  end.

Definition rest_of (rest : list libbgp_as_path_segment_t) (asn_pos : nat) : list Z :=
  match rest with
  | [] => []
  | seg :: segs' => drop asn_pos (seg_asns seg) ++ path_asns segs'
  end.

Lemma rest_of_0 rest : rest_of rest 0 = path_asns rest.
Proof. by destruct rest. Qed.

(** After the used-up segments are skipped, the position is at the end of the
    path or at its next AS number. *)
Lemma skip_segments_spec segs rest seg_pos asn_pos :
  drop seg_pos segs = rest → (seg_pos <= length segs)%nat →
  let cur := skip_segments rest seg_pos asn_pos in
  (cur.1 <= length segs)%nat ∧ cursor_rest segs cur = rest_of rest asn_pos ∧
  (cur.1 = length segs ∧ rest_of rest asn_pos = [] ∨
   ∃ seg asn, segs !! cur.1 = Some seg ∧ seg_asns seg !! cur.2 = Some asn ∧
     rest_of rest asn_pos = asn :: cursor_rest segs (cur.1, S cur.2)).
Proof.
  revert seg_pos asn_pos. induction rest as [|seg rest IH]; intros sp ap Hd Hl; cbn [skip_segments].
  - split; [done|]. unfold cursor_rest. cbn [fst snd]. rewrite Hd. split; [done|]. left.
    apply (f_equal length) in Hd. rewrite length_drop in Hd. cbn in Hd. split; [lia|done].
  - assert (Hd' : drop (S sp) segs = rest).
    { rewrite <-Nat.add_1_r, <-drop_drop, Hd. done. }
    assert (Hsp : (sp < length segs)%nat).
    { apply (f_equal length) in Hd. rewrite length_drop in Hd. cbn in Hd. lia. }
    destruct (Nat.leb_spec (length (seg_asns seg)) ap) as [Hle|Hlt].
    + destruct (IH (S sp) 0%nat Hd') as (H1 & H2 & H3); [lia|].
      cbn [rest_of]. rewrite (drop_ge (seg_asns seg)) by done. rewrite rest_of_0 in *. done.
    + cbn [fst snd]. unfold cursor_rest. cbn [fst snd]. rewrite Hd. split; [done|]. split; [done|].
      right. destruct (lookup_lt_is_Some_2 (seg_asns seg) ap Hlt) as [asn Hasn].
      exists seg, asn. split_and!; [|done|].
      * rewrite <-(Nat.add_0_r sp), <-lookup_drop, Hd. done.
      * cbn [rest_of]. by rewrite (drop_S _ _ _ Hasn).
Qed.

Lemma cursor_skip_spec segs cur :
  (cur.1 <= length segs)%nat →
  (cursor_skip segs cur).1 = length segs ∧ cursor_rest segs cur = [] ∨
  ∃ asn, ((cursor_skip segs cur).1 < length segs)%nat ∧
    (∀ (Q : Z -> Prop) E, Q asn → wp (cursor_get segs (cursor_skip segs cur)) Q E) ∧
    cursor_rest segs cur =
      asn :: cursor_rest segs ((cursor_skip segs cur).1, S (cursor_skip segs cur).2).
Proof.
  intros Hl. destruct (skip_segments_spec segs _ cur.1 cur.2 eq_refl Hl) as (H1 & H2 & H3).
  change (skip_segments _ _ _) with (cursor_skip segs cur) in *.
  change (rest_of _ _) with (cursor_rest segs cur) in *.
  destruct H3 as [?|(seg & asn & Hs & Ha & Hr)]; [by left|]. right. exists asn.
  split; [by apply lookup_lt_Some in Hs|]. split; [|done].
  intros Q E HQ. unfold cursor_get. rewrite Hs, Ha. by apply wp_ret.
Qed.

(** Does a tail of AS_PATH agree with AS4_PATH where it is not AS_TRANS? *)
Fixpoint asns_match (l as4 : list Z) : bool :=
  match l, as4 with
  | [], [] => true
  | a :: l', b :: as4' => ((a =? LIBBGP_AS_TRANS) || (a =? b)) && asns_match l' as4'
  | _, _ => false
  end.

Lemma wp_suffix_matches asns as4 start pos cur :
  (cur.1 <= length as4)%nat →
  wp (suffix_matches asns as4 start pos cur)
     (λ b, b = asns_match (drop (Z.to_nat (start - pos)) asns) (cursor_rest as4 cur)) no_err.
Proof.
  revert pos cur. induction asns as [|asn asns IH]; intros pos cur Hl; cbn [suffix_matches].
  - rewrite drop_nil. apply wp_ret. destruct (cursor_skip_spec as4 cur Hl) as [[H1 ->]|(a & H1 & _ & ->)].
    + by rewrite H1, Nat.eqb_refl.
    + destruct (Nat.eqb_spec (cursor_skip as4 cur).1 (length as4)); [lia|done].
  - apply wp_if; intros Hc.
    + eapply wp_mono; [by apply IH| |done]. intros b ->.
      replace (Z.to_nat (start - pos)) with (S (Z.to_nat (start - (pos + 1)))) by lia. done.
    + replace (Z.to_nat (start - pos)) with 0%nat by lia.
      destruct (cursor_skip_spec as4 cur Hl) as [[H1 ->]|(a & H1 & Hg & ->)].
      { rewrite H1, Nat.leb_refl. by apply wp_ret. }
      destruct (Nat.leb_spec (length as4) (cursor_skip as4 cur).1); [lia|].
      apply wp_bind, Hg. cbn [drop asns_match]. apply wp_if; intros Ha.
      * apply wp_ret. by destruct (asn =? LIBBGP_AS_TRANS), (asn =? a).
      * eapply wp_mono; [apply IH; cbn; lia| |done]. intros b ->.
        replace (Z.to_nat (start - (pos + 1))) with 0%nat by lia. rewrite drop_0.
        by destruct (asn =? LIBBGP_AS_TRANS), (asn =? a).
Qed.

(** AS_TRANS replaced, from left to right, by the numbers of AS4_PATH. *)
Fixpoint fill (asns as4 : list Z) : list Z :=
  match asns with
  | [] => []
  | asn :: asns' =>
      if asn =? LIBBGP_AS_TRANS then
        match as4 with
        | [] => asn :: fill asns' []
        | b :: as4' => b :: fill asns' as4'
        end
      else asn :: fill asns' as4
  end.

Definition trans_in (asns : list Z) : nat := length (filter (λ asn, asn = LIBBGP_AS_TRANS) asns).

Lemma wp_sparse_asns asns as4 cur :
  (cur.1 <= length as4)%nat → (trans_in asns <= length (cursor_rest as4 cur))%nat →
  wp (sparse_asns asns as4 cur)
     (λ r, r.1 = fill asns (cursor_rest as4 cur) ∧ (r.2.1 <= length as4)%nat ∧
           cursor_rest as4 r.2 = drop (trans_in asns) (cursor_rest as4 cur)) no_err.
Proof.
  unfold trans_in. revert cur. induction asns as [|asn asns IH]; intros cur Hl Ht;
    cbn [sparse_asns fill]; [by apply wp_ret|].
  rewrite filter_cons in *. destruct (Z.eqb_spec asn LIBBGP_AS_TRANS) as [Ha|Ha].
  - rewrite decide_True in * by done. cbn [length] in Ht.
    destruct (cursor_skip_spec as4 cur Hl) as [[_ Hr]|(a & H1 & Hg & Hr)]; rewrite Hr in *;
      cbn [length] in Ht; [lia|].
    apply wp_bind, wp_bind, wp_fail_never; [lia|]. apply wp_bind, Hg, wp_ret.
    apply wp_bind. eapply wp_mono; [apply IH; [cbn; lia|lia]| |done].
    intros [r cur'] (Hr1 & Hr2 & Hr3). apply wp_ret. cbn [fst snd] in *. by subst r.
  - rewrite decide_False in * by done. apply wp_bind, wp_ret.
    apply wp_bind. eapply wp_mono; [by apply IH| |done].
    intros [r cur'] (Hr1 & Hr2 & Hr3). apply wp_ret. cbn [fst snd] in *. by subst r.
Qed.

Fixpoint fill_segs (segs : list libbgp_as_path_segment_t) (as4 : list Z)
    : list libbgp_as_path_segment_t :=
  match segs with
  | [] => []
  | seg :: segs' =>
      Segment (seg_type seg) (fill (seg_asns seg) as4) ::
      fill_segs segs' (drop (trans_in (seg_asns seg)) as4)
  end.

Lemma trans_in_app l1 l2 : trans_in (l1 ++ l2) = (trans_in l1 + trans_in l2)%nat.
Proof. unfold trans_in. by rewrite filter_app, length_app. Qed.

Lemma wp_sparse_segments segs as4 cur :
  (cur.1 <= length as4)%nat → (trans_in (path_asns segs) <= length (cursor_rest as4 cur))%nat →
  wp (sparse_segments segs as4 cur) (λ r, r = fill_segs segs (cursor_rest as4 cur)) no_err.
Proof.
  revert cur. induction segs as [|seg segs IH]; intros cur Hl Ht; cbn [sparse_segments fill_segs].
  { by apply wp_ret. }
  rewrite path_asns_cons, trans_in_app in Ht.
  apply wp_bind. eapply wp_mono; [apply wp_sparse_asns; [done|lia]| |done].
  intros [asns cur'] (Ha & Hl' & Hr'). cbn [fst snd] in *. subst asns.
  apply wp_bind. eapply wp_mono; [apply IH; [done|rewrite Hr', length_drop; lia]| |done].
  intros r ->. apply wp_ret. by rewrite Hr'.
Qed.

Lemma cursor_rest_start as4 : cursor_rest as4 (0, 0)%nat = path_asns as4.
Proof. by destruct as4. Qed.

Lemma wp_sparse as_path as4_path :
  path_ok as_path → path_ok as4_path →
  count_as_trans (as_path_segments as_path) = zlen (path_asns (as_path_segments as4_path)) →
  wp (update_restore_as_path_sparse as_path as4_path)
     (λ r, r = set_as_path as_path (fill_segs (as_path_segments as_path)
                 (path_asns (as_path_segments as4_path))) true) no_err.
Proof.
  intros H1 H2 Ht. apply wp_bind. eapply wp_mono; [by apply wp_validate_path| |done]. intros _ _.
  apply wp_bind. eapply wp_mono; [by apply wp_validate_path| |done]. intros n ->.
  apply wp_bind, wp_fail_never; [by rewrite Ht, Z.eqb_refl|].
  apply wp_bind. eapply wp_mono; [apply wp_sparse_segments; [cbn; lia|]| |done].
  - rewrite cursor_rest_start. unfold count_as_trans in Ht. unfold trans_in. lia.
  - intros segs ->. rewrite cursor_rest_start. by apply wp_ret.
Qed.

(** ** Attributes of a message by type *)

Definition attrs_of (T : libbgp_pattr_type_t) (attrs : list libbgp_pattr_t) : list libbgp_pattr_t :=
  filter (λ a, pa_type a = T) attrs.

Lemma attrs_of_none T attrs : Forall (λ a, pa_type a ≠ T) attrs → attrs_of T attrs = [].
Proof.
  induction 1 as [|a attrs Ha _ IH]; [done|]. unfold attrs_of in *. by rewrite filter_cons_False.
Qed.

(** At most one attribute of each of the types the conversions touch, and it
    is the one that carries the type's code. *)
Definition as4_types : list libbgp_pattr_type_t :=
  [LIBBGP_PATTR_AS_PATH; LIBBGP_PATTR_AGGREGATOR; LIBBGP_PATTR_AS4_PATH; LIBBGP_PATTR_AS4_AGGREGATOR].

Definition attrs_coherent (msg : libbgp_update_msg_t) : Prop :=
  NoDup (pa_type_code <$> upd_attrs msg) ∧
  Forall (λ a, ∀ T, T ∈ as4_types → pa_type a = T ↔ pa_type_code a = pattr_default_type_code T)
    (upd_attrs msg) ∧ zlen (upd_attrs msg) <= 2 ^ 32.

Lemma find_index_split msg T i :
  update_find_attr_index msg T = Some i →
  ∃ pre a post, upd_attrs msg = pre ++ a :: post ∧ length pre = i ∧ pa_type a = T ∧
    attrs_of T pre = [].
Proof.
  unfold update_find_attr_index. intros ([j a] & Hf & ->)%fmap_Some.
  apply list_find_Some in Hf as (Hi & Ha & Hj). cbn.
  exists (take j (upd_attrs msg)), a, (drop (S j) (upd_attrs msg)).
  split_and!; [by rewrite take_drop_middle| |done|].
  - rewrite length_take. apply lookup_lt_Some in Hi. lia.
  - apply attrs_of_none, Forall_lookup. intros k y Hy.
    apply lookup_take_Some in Hy as [Hy Hlt]. by apply (Hj k y).
Qed.

Lemma find_index_None msg T : update_find_attr_index msg T = None → attrs_of T (upd_attrs msg) = [].
Proof.
  unfold update_find_attr_index. intros Hf%fmap_None. apply list_find_None in Hf.
  by apply attrs_of_none.
Qed.

Lemma attrs_of_app T l1 l2 : attrs_of T (l1 ++ l2) = attrs_of T l1 ++ attrs_of T l2.
Proof. apply filter_app. Qed.

Lemma attrs_of_cons T a l :
  attrs_of T (a :: l) = if decide (pa_type a = T) then a :: attrs_of T l else attrs_of T l.
Proof. unfold attrs_of. rewrite filter_cons. by repeat case_decide. Qed.

Lemma find_attr_head msg T : libbgp_update_find_attr msg T = head (attrs_of T (upd_attrs msg)).
Proof.
  unfold libbgp_update_find_attr. destruct (update_find_attr_index msg T) as [i|] eqn:Hi.
  - apply find_index_split in Hi as (pre & a & post & -> & <- & Ha & Hn).
    rewrite attrs_of_app, Hn, attrs_of_cons, decide_True by done.
    by rewrite list_lookup_middle.
  - by rewrite find_index_None.
Qed.

(** Putting an attribute in the place of the one of its type, or at the end. *)
Definition put_attr (msg : libbgp_update_msg_t) (a : libbgp_pattr_t) : libbgp_update_msg_t :=
  match update_find_attr_index msg (pa_type a) with
  | Some i => with_attrs msg (<[i := a]> (upd_attrs msg))
  | None => with_attrs msg (upd_attrs msg ++ [a])
  end.

Lemma attrs_of_put T msg a :
  attrs_of T (upd_attrs (put_attr msg a)) =
    if decide (pa_type a = T) then a :: tail (attrs_of T (upd_attrs msg))
    else attrs_of T (upd_attrs msg).
Proof.
  unfold put_attr. destruct (update_find_attr_index msg (pa_type a)) as [i|] eqn:Hi;
    cbn [upd_attrs with_attrs].
  - apply find_index_split in Hi as (pre & b & post & -> & <- & Hb & Hn).
    rewrite insert_app_r_alt, Nat.sub_diag by done. cbn [insert list_insert].
    rewrite !attrs_of_app, !attrs_of_cons, Hb.
    case_decide as Hd; [|done]. by rewrite <-Hd, Hn.
  - rewrite attrs_of_app, attrs_of_cons. case_decide as Hd; [|apply app_nil_r].
    by rewrite <-Hd, (find_index_None _ _ Hi).
Qed.

Lemma attrs_of_remove T T0 msg :
  attrs_of T (upd_attrs (update_remove_attr_type msg T0).2) =
    if decide (T0 = T) then tail (attrs_of T (upd_attrs msg)) else attrs_of T (upd_attrs msg).
Proof.
  unfold update_remove_attr_type. destruct (update_find_attr_index msg T0) as [i|] eqn:Hi; cbn [snd].
  - apply find_index_split in Hi as (pre & b & post & He & <- & Hb & Hn).
    unfold update_remove_attr_at. rewrite He, length_app. cbn [length].
    destruct (Nat.leb_spec (length pre + S (length post)) (length pre)); [lia|].
    cbn [upd_attrs with_attrs]. rewrite delete_middle, !attrs_of_app, attrs_of_cons, Hb.
    case_decide as Hd; [|done]. by rewrite <-Hd, Hn.
  - case_decide as Hd; [|done]. by rewrite <-Hd, (find_index_None _ _ Hi).
Qed.

Lemma replace_put msg a :
  is_Some (libbgp_update_find_attr msg (pa_type a)) → replace_attr msg a = put_attr msg a.
Proof.
  rewrite find_attr_head. unfold replace_attr, put_attr. intros Hs.
  destruct (update_find_attr_index msg (pa_type a)) eqn:Hi; [done|].
  rewrite (find_index_None _ _ Hi) in Hs. by destruct Hs.
Qed.

Lemma attrs_of_single T msg :
  attrs_coherent msg → T ∈ as4_types → tail (attrs_of T (upd_attrs msg)) = [].
Proof.
  intros (Hn & Hc & _) HT. induction (upd_attrs msg) as [|a attrs IH]; [done|].
  rewrite fmap_cons in Hn. apply NoDup_cons in Hn as [Hna Hn]. apply Forall_cons in Hc as [Ha Hc].
  rewrite attrs_of_cons. case_decide as Hd; [|by apply IH]. cbn [tail].
  apply attrs_of_none, Forall_forall. intros b Hb Hbt. apply Hna, list_elem_of_fmap.
  exists b. split; [|done]. rewrite Forall_forall in Hc.
  transitivity (pattr_default_type_code T); [by apply Ha|symmetry; by apply (Hc b Hb T HT)].
Qed.

Lemma find_single T msg a :
  attrs_coherent msg → T ∈ as4_types →
  libbgp_update_find_attr msg T = Some a → attrs_of T (upd_attrs msg) = [a].
Proof.
  intros Hc HT. rewrite find_attr_head. pose proof (attrs_of_single T msg Hc HT).
  destruct (attrs_of T (upd_attrs msg)); [done|]. cbn in *. by subst; intros [= ->].
Qed.

Lemma wp_set_attr msg a :
  attrs_coherent msg → pa_type a ∈ as4_types →
  pa_type_code a = pattr_default_type_code (pa_type a) →
  wp (update_set_attr msg a) (λ r, r = put_attr msg a) no_err.
Proof.
  intros (_ & Hc & Hb) HT Hcode. unfold update_set_attr, put_attr.
  destruct (update_find_attr_index msg (pa_type a)) as [i|] eqn:Hi; [by apply wp_ret|].
  apply wp_bind, wp_bind, wp_fail_never.
  { apply not_true_is_false. intros (b & Hbin & Hbc)%existsb_exists.
    apply list_elem_of_In in Hbin. unfold update_attrs_same_semantic in Hbc.
    apply find_index_None in Hi. apply Z.eqb_eq in Hbc.
    rewrite Forall_forall in Hc. assert (pa_type b = pa_type a) as Hbt.
    { apply (Hc b Hbin _ HT). congruence. }
    by apply (filter_nil_not_elem_of (λ a', pa_type a' = pa_type a) _ b Hi Hbt). }
  apply wp_bind, wp_array_grow; [lia|unfold cap_inv; lia|unfold SIZEOF_POINTER; lia|].
  by apply wp_ret, wp_ret.
Qed.

Lemma put_attr_index msg a T :
  pa_type a ≠ T → update_find_attr_index (put_attr msg a) T = update_find_attr_index msg T.
Proof.
  intros Ha. unfold put_attr. destruct (update_find_attr_index msg (pa_type a)) as [i|] eqn:Hi.
  - apply find_index_split in Hi as (pre & b & post & He & <- & Hb & _).
    unfold update_find_attr_index, with_attrs. cbn [upd_attrs].
    rewrite He, insert_app_r_alt, Nat.sub_diag by done. cbn [insert list_insert].
    induction pre as [|c pre IH] in |- *; cbn.
    + rewrite !decide_False by congruence. done.
    + case_decide; [done|]. rewrite <-!option_fmap_compose. cbn.
      destruct (list_find _ (pre ++ a :: post)) as [[]|], (list_find _ (pre ++ b :: post)) as [[]|];
        cbn in *; congruence.
  - unfold update_find_attr_index, with_attrs. cbn [upd_attrs].
    destruct (list_find (λ a0, pa_type a0 = T) (upd_attrs msg)) as [[j b]|] eqn:Hj.
    + by rewrite (list_find_app_l _ _ _ _ _ Hj).
    + rewrite list_find_app_r by done. cbn. by rewrite decide_False.
Qed.

Lemma wp_set_attr_pair msg a b :
  pa_type a ≠ pa_type b → pa_type_code a ≠ pa_type_code b → zlen (upd_attrs msg) <= 2 ^ 32 →
  wp (update_set_attr_pair msg a b) (λ r, r = put_attr (put_attr msg a) b) no_err.
Proof.
  intros Ht Hc Hb. apply wp_bind, wp_fail_never.
  { unfold update_attrs_same_semantic. lia. }
  cbv zeta. set (missing := (if bool_decide _ then 0 else 1) + (if bool_decide _ then 0 else 1)).
  assert (Hm : 0 <= missing <= 2) by (unfold missing; repeat case_match; lia).
  clearbody missing. assert (SIZE_MAX / SIZEOF_POINTER = 2 ^ 61 - 1) by done.
  apply wp_bind, (wp_if (missing =? 0)); intros Hz.
  2: apply wp_bind, wp_fail_never; [unfold SIZE_MAX in *; lia|apply wp_alloc_or_nomem].
  1: apply wp_ret.
  all: apply wp_ret; unfold put_attr at 1; rewrite put_attr_index by done; unfold put_attr;
    by destruct (update_find_attr_index msg (pa_type a)), (update_find_attr_index msg (pa_type b)).
Qed.

(** ** Restoring *)

(** The path [update_restore_as_path] computes from the segments of AS_PATH
    and AS4_PATH; none when they do not fit together. *)
Definition restore_segs (segs as4 : list libbgp_as_path_segment_t)
    : option (list libbgp_as_path_segment_t) :=
  let n := length (path_asns segs) in
  let c := length (path_asns as4) in
  if (n <? c)%nat then None
  else if negb (c =? n)%nat && (trans_in (path_asns segs) =? c)%nat &&
          negb (asns_match (drop (n - c) (path_asns segs)) (path_asns as4))
  then Some (fill_segs segs (path_asns as4))
  else if cuts_set (n - c) segs then None
  else Some (cut_before (n - c) segs ++ as4).

Lemma set_as_path_type attr segs b : pa_type (set_as_path attr segs b) = pa_type attr.
Proof. unfold pa_type. destruct attr as [? ? []]; done. Qed.

Lemma find_attr_type msg T a : libbgp_update_find_attr msg T = Some a → pa_type a = T.
Proof.
  rewrite find_attr_head. intros Ha%head_Some_elem_of. by apply list_elem_of_filter in Ha as [? _].
Qed.

Lemma wp_restore msg as_path as4_path :
  libbgp_update_find_attr msg LIBBGP_PATTR_AS_PATH = Some as_path → path_ok as_path →
  libbgp_update_find_attr msg LIBBGP_PATTR_AS4_PATH = Some as4_path → path_ok as4_path →
  wp (libbgp_update_restore_as_path msg)
    (λ r, ∃ segs, restore_segs (as_path_segments as_path) (as_path_segments as4_path) = Some segs ∧
       r = (update_remove_attr_type (put_attr msg (set_as_path as_path segs true))
              LIBBGP_PATTR_AS4_PATH).2)
    (λ e, e = LIBBGP_ERR_INVALID ∧
       restore_segs (as_path_segments as_path) (as_path_segments as4_path) = None).
Proof.
  intros Hf Hp Hf4 Hp4. unfold libbgp_update_restore_as_path. rewrite Hf, Hf4.
  pose proof (find_attr_type _ _ _ Hf) as Ht. pose proof (find_attr_type _ _ _ Hf4) as Ht4.
  assert (Hrep : ∀ segs, replace_attr msg (set_as_path as_path segs true) =
                         put_attr msg (set_as_path as_path segs true)).
  { intros segs. apply replace_put. rewrite set_as_path_type, Ht, Hf. eauto. }
  apply wp_bind. eapply wp_mono; [by apply wp_validate_path| |done]. intros c Hc.
  apply wp_bind. eapply wp_mono; [by apply wp_validate_path| |done]. intros n Hn.
  cbn beta in *. unfold restore_segs. remember (as_path_segments as_path) as segs eqn:Hsegs.
  remember (as_path_segments as4_path) as as4 eqn:Has4.
  apply wp_bind, wp_fail_if; intros Hlt.
  { split; [done|]. by replace (length (path_asns segs) <? length (path_asns as4))%nat with true by lia. }
  replace (length (path_asns segs) <? length (path_asns as4))%nat with false by lia.
  assert (Hk : (length (path_asns segs) - length (path_asns as4))%nat = Z.to_nat (n - c)) by lia.
  rewrite Hk. match goal with |- context [if ?b then Some (fill_segs _ _) else _] => set (sp := b) end. apply wp_bind.
  eapply (wp_mono _ (λ b, b = sp) _ no_err); [| |done].
  - apply wp_if; intros Hi.
    + apply wp_bind. eapply wp_mono; [apply wp_suffix_matches; cbn; lia| |done].
      intros b ->. apply wp_ret. rewrite cursor_rest_start, Z.sub_0_r. rewrite <-?Hsegs, <-?Has4.
      unfold update_as_path_has_as_trans_count, count_as_trans in Hi. rewrite <-Hsegs in Hi.
      unfold sp, trans_in. destruct (asns_match _ _); lia.
    + apply wp_ret. unfold update_as_path_has_as_trans_count, count_as_trans in Hi. rewrite <-Hsegs in Hi.
      unfold sp, trans_in. lia.
  - intros b ->. apply wp_bind. destruct sp eqn:Hsp.
    + eapply wp_mono; [apply wp_sparse; [done..|]| |done].
      { unfold count_as_trans. rewrite <-?Hsegs, <-?Has4. unfold sp, trans_in in Hsp. lia. }
      intros r ->. rewrite <-Hsegs, <-Has4. apply wp_ret. exists (fill_segs segs (path_asns as4)). by rewrite Hrep.
    + eapply wp_mono; [apply wp_rebuild; [done..|rewrite <-Hsegs; lia]| |].
      * intros r [-> Hcut]. rewrite <-?Hsegs, <-?Has4 in *. apply wp_ret. rewrite Hcut. eexists. by rewrite Hrep.
      * intros e [-> Hcut]. rewrite <-?Hsegs, <-?Has4 in *. by rewrite Hcut.
Qed.

(** ** Downgrading *)

Lemma path_asns_narrow segs : path_asns (narrow_segment <$> segs) = narrow_asn <$> path_asns segs.
Proof.
  induction segs as [|seg segs IH]; [done|]. rewrite fmap_cons, !path_asns_cons, fmap_app. by f_equal.
Qed.

Lemma narrow_segs_fixed segs :
  narrow_asn <$> path_asns segs = path_asns segs → narrow_segment <$> segs = segs.
Proof.
  induction segs as [|[ty asns] segs IH]; [done|]. rewrite path_asns_cons, fmap_app. cbn [seg_asns].
  intros [H1 H2]%app_inj_1; [|by rewrite length_fmap]. rewrite fmap_cons, IH by done.
  unfold narrow_segment. cbn. by rewrite H1.
Qed.

Lemma cut_before_narrow k segs :
  cut_before k (narrow_segment <$> segs) = narrow_segment <$> cut_before k segs.
Proof.
  revert k. induction segs as [|[ty asns] segs IH]; intros k; [done|].
  rewrite fmap_cons. cbn [cut_before narrow_segment seg_asns seg_type]. case_match; [done|].
  rewrite length_fmap, IH, fmap_app, <-fmap_take. f_equal. by destruct (take k asns).
Qed.

Lemma cuts_set_narrow k segs : cuts_set k (narrow_segment <$> segs) = cuts_set k segs.
Proof.
  revert k. induction segs as [|[ty asns] segs IH]; intros k; [done|].
  rewrite fmap_cons. cbn [cuts_set narrow_segment seg_asns seg_type]. by rewrite length_fmap, IH.
Qed.

Lemma narrow_shape segs : Forall seg_shape segs → Forall seg_shape (narrow_segment <$> segs).
Proof.
  intros H. apply Forall_fmap. eapply Forall_impl; [exact H|]. intros seg [? ?].
  split; [done|]. cbn. by rewrite length_fmap.
Qed.

Lemma asns_match_narrow l : asns_match (narrow_asn <$> l) l = true.
Proof.
  induction l as [|asn l IH]; [done|]. rewrite fmap_cons. cbn [asns_match]. rewrite IH, andb_true_r.
  unfold narrow_asn. case_match; [done|]. by rewrite Z.eqb_refl, orb_true_r.
Qed.

(** The two attributes a downgrade leaves. *)
Definition narrowed_path (segs : list libbgp_as_path_segment_t) : libbgp_pattr_t :=
  set_as_path (pattr_set_defaults LIBBGP_PATTR_AS_PATH) (narrow_segment <$> segs) false.
Definition shadow_path (segs : list libbgp_as_path_segment_t) : libbgp_pattr_t :=
  set_as_path (pattr_set_defaults LIBBGP_PATTR_AS4_PATH)
    (cut_after (wide_index (path_asns segs)) segs) true.
Definition has_wide (segs : list libbgp_as_path_segment_t) : bool :=
  existsb (λ asn, 65535 <? asn) (path_asns segs).

Lemma wp_downgrade msg as_path :
  attrs_coherent msg → libbgp_update_find_attr msg LIBBGP_PATTR_AS_PATH = Some as_path →
  path_ok as_path → as_path_is_4b as_path = true →
  let segs := as_path_segments as_path in
  wp (libbgp_update_downgrade_as_path msg)
    (λ r, if has_wide segs then
            r = put_attr (put_attr msg (narrowed_path segs)) (shadow_path segs) ∧
            cuts_set (wide_index (path_asns segs)) segs = false
          else r = (update_remove_attr_type (put_attr msg (narrowed_path segs))
                      LIBBGP_PATTR_AS4_PATH).2)
    (λ e, e = LIBBGP_ERR_INVALID ∧ has_wide segs = true ∧
          cuts_set (wide_index (path_asns segs)) segs = true).
Proof.
  intros Hc Hf Hp H4 segs. unfold libbgp_update_downgrade_as_path. rewrite Hf, H4. cbn [negb].
  apply wp_bind. eapply wp_mono; [by apply wp_validate_path| |done]. intros _ _.
  apply wp_bind. eapply wp_mono; [by apply wp_clone_path| |done]. intros next ->.
  assert (Hw : update_path_needs_as4_shadow as_path = has_wide segs) by done. rewrite Hw.
  destruct (has_wide segs) eqn:Hwide.
  - pose proof (wide_index_lt _ Hwide). destruct Hp as (Hp1 & Hp2 & Hp3 & Hp4).
    apply wp_bind. eapply wp_mono; [apply wp_first_shadow_index; [done|lia..]| |done].
    intros i ->. fold segs. rewrite Z.add_0_l.
    apply wp_bind. eapply wp_mono; [by apply wp_validate_path| |done]. intros n ->. fold segs.
    apply wp_bind. eapply wp_mono; [apply wp_clone_path_suffix; [done|done|fold segs; lia]| |];
      fold segs; rewrite Nat2Z.id; [|by intros e [-> ?]].
    intros as4 [-> Hcut]. apply wp_bind, wp_fail_never; [lia|].
    eapply wp_mono; [apply wp_set_attr_pair; [done|done|apply Hc]| |done]. by intros r ->.
  - apply wp_bind. eapply wp_mono; [apply wp_set_attr; [done| |done]| |done].
    + set_solver.
    + intros r ->. by apply wp_ret.
Qed.

Lemma restore_downgraded segs :
  has_wide segs = true → cuts_set (wide_index (path_asns segs)) segs = false →
  restore_segs (narrow_segment <$> segs) (cut_after (wide_index (path_asns segs)) segs) =
    Some (cut_before (wide_index (path_asns segs)) segs ++ cut_after (wide_index (path_asns segs)) segs).
Proof.
  intros Hw%wide_index_lt Hc. unfold restore_segs.
  rewrite path_asns_narrow, cut_after_asns, length_fmap, length_drop.
  set (asns := path_asns segs) in *. set (k := wide_index asns) in *.
  destruct (Nat.ltb_spec (length asns) (length asns - k)); [lia|].
  replace (length asns - (length asns - k))%nat with k by lia.
  rewrite <-fmap_drop, asns_match_narrow, andb_false_r, cuts_set_narrow, Hc.
  rewrite cut_before_narrow, narrow_segs_fixed; [done|].
  rewrite cut_before_asns. apply wide_index_narrow.
Qed.

(** ** Prepending *)

Definition prepend_segs (segs : list libbgp_as_path_segment_t) (asn : Z)
    : list libbgp_as_path_segment_t :=
  match segs with
  | seg :: segs' =>
      if (seg_type seg =? 2) && (zlen (seg_asns seg) <? 255)
      then Segment (seg_type seg) (asn :: seg_asns seg) :: segs'
      else Segment 2 [asn] :: segs
  | [] => [Segment 2 [asn]]
  end.

Lemma wp_prepend_to_path path asn :
  path_ok path →
  wp (update_prepend_to_path path asn)
     (λ r, r = set_as_path path (prepend_segs (as_path_segments path) asn) (as_path_is_4b path)) no_err.
Proof.
  intros (Ht & _ & Hs & Hb). apply wp_bind, wp_fail_never; [by rewrite Ht|].
  assert (∀ segs, zlen segs <= 2 ^ 32 → wp (fail_if (SIZE_MAX / SIZEOF_SEGMENT - 1 <? zlen segs)
    LIBBGP_ERR_BAD_LEN;; alloc_or_nomem;; alloc_or_nomem;;
    mret (set_as_path path (Segment 2 [asn] :: segs) (as_path_is_4b path)))
    (λ r, r = set_as_path path (Segment 2 [asn] :: segs) (as_path_is_4b path)) no_err) as Hnew.
  { intros segs Hl. apply wp_bind, wp_fail_never; [apply segment_size_bound; lia|].
    by apply wp_bind, wp_alloc_or_nomem, wp_bind, wp_alloc_or_nomem, wp_ret. }
  destruct (as_path_segments path) as [|seg segs]; [by apply (Hnew [])|]. unfold prepend_segs.
  apply wp_if; intros Hc; rewrite Hc; [|by apply Hnew].
  apply Forall_cons in Hs as [[_ Hl] _]. assert (SIZE_MAX / SIZEOF_ASN = 2 ^ 62 - 1) by done.
  apply wp_bind, wp_fail_never; [lia|]. by apply wp_bind, wp_alloc_or_nomem, wp_ret.
Qed.

Lemma prepend_asns segs asn : path_asns (prepend_segs segs asn) = asn :: path_asns segs.
Proof. destruct segs as [|seg segs]; [done|]. cbn. by case_match. Qed.

Lemma prepend_units segs asn : path_units (prepend_segs segs asn) = inl asn :: path_units segs.
Proof.
  destruct segs as [|seg segs]; [done|]. cbn [prepend_segs]. case_match eqn:Hc; [|done].
  rewrite !path_units_cons. unfold seg_units. cbn [seg_type seg_asns].
  by replace (seg_type seg =? 1) with false by lia.
Qed.

Lemma prepend_shape segs asn : Forall seg_shape segs → Forall seg_shape (prepend_segs segs asn).
Proof.
  intros H. destruct H as [|seg segs [Ht Hl] Hss]; cbn [prepend_segs].
  - constructor; [|constructor]. split; cbn; lia.
  - case_match; (constructor; [split; cbn [seg_type seg_asns length]; lia|]); [done|].
    by constructor.
Qed.

Lemma prepend_length segs asn : zlen (prepend_segs segs asn) <= zlen segs + 1.
Proof. destruct segs; cbn [prepend_segs]; [done|]. case_match; cbn [length]; lia. Qed.

Lemma prepend_cuts k segs asn : cuts_set (S k) (prepend_segs segs asn) = cuts_set k segs.
Proof.
  destruct segs as [|seg segs]; [done|]. cbn [prepend_segs]. case_match eqn:Hc.
  - cbn [cuts_set seg_asns seg_type length]. replace (seg_type seg =? 1) with false by lia.
    rewrite !andb_false_r. replace (S k - S (length (seg_asns seg)))%nat
      with (k - length (seg_asns seg))%nat by lia.
    destruct (Nat.leb_spec (length (seg_asns seg)) k), (Nat.leb_spec (S (length (seg_asns seg))) (S k));
      done || lia.
  - cbn [cuts_set seg_asns length]. by rewrite Nat.sub_succ, Nat.sub_0_r.
Qed.

Lemma set_first_prepended k asn a b segs as4 :
  path_asns (as_path_segments (set_first_asn (set_as_path (pattr_set_defaults LIBBGP_PATTR_AS4_PATH)
    (cut_before (S k) (prepend_segs segs a) ++ as4) b) asn)) =
  asn :: take k (path_asns segs) ++ path_asns as4.
Proof.
  assert (path_asns (cut_before (S k) (prepend_segs segs a) ++ as4) =
          a :: take k (path_asns segs) ++ path_asns as4) as He.
  { by rewrite path_asns_app, cut_before_asns, prepend_asns. }
  assert (∃ ty asns rest, cut_before (S k) (prepend_segs segs a) = Segment ty (a :: asns) :: rest) as Hs.
  { destruct segs as [|seg segs]; cbn [prepend_segs]; [|case_match]; cbn [cut_before Nat.eqb take seg_asns opt_seg app];
      eauto. }
  destruct Hs as (ty & asns & rest & Hs). rewrite Hs in *. cbn [app] in He.
  rewrite path_asns_cons in He. cbn [seg_asns app] in He. injection He as He.
  unfold set_first_asn, set_as_path, as_path_segments. cbn. by rewrite <-He.
Qed.

(** The AS_PATH of a message on a session of AS-number width [b]; a message
    without one counts as having the empty path. *)
Definition session_path (msg : libbgp_update_msg_t) (b : bool)
    (segs : list libbgp_as_path_segment_t) : Prop :=
  match libbgp_update_find_attr msg LIBBGP_PATTR_AS_PATH with
  | None => segs = []
  | Some p => path_ok p ∧ as_path_is_4b p = b ∧ as_path_segments p = segs
  end ∧ zlen segs <= 2 ^ 30.

Definition session_as4 (msg : libbgp_update_msg_t) : Prop :=
  match libbgp_update_find_attr msg LIBBGP_PATTR_AS4_PATH with
  | None => True
  | Some q => path_ok q ∧ zlen (as_path_segments q) <= 2 ^ 30
  end.

Definition as_path_attr (segs : list libbgp_as_path_segment_t) (b : bool) : libbgp_pattr_t :=
  set_as_path (pattr_set_defaults LIBBGP_PATTR_AS_PATH) segs b.
Definition as4_path_attr (segs : list libbgp_as_path_segment_t) : libbgp_pattr_t :=
  set_as_path (pattr_set_defaults LIBBGP_PATTR_AS4_PATH) segs true.

Lemma path_ok_as_path segs b :
  Forall seg_shape segs → zlen segs <= 2 ^ 32 → path_ok (as_path_attr segs b).
Proof. by repeat split. Qed.

Lemma path_ok_as4_path segs :
  Forall seg_shape segs → zlen segs <= 2 ^ 32 → path_ok (as4_path_attr segs).
Proof. by repeat split. Qed.

Lemma session_path_shape msg b segs : session_path msg b segs → Forall seg_shape segs.
Proof.
  unfold session_path. intros [H _]. case_match; [|by subst; constructor].
  destruct H as ((_ & _ & H & _) & _ & <-). done.
Qed.

(** The AS4_PATH that goes with a wide AS number on a two-octet session. *)
Definition next_shadow (msg : libbgp_update_msg_t) (segs : list libbgp_as_path_segment_t) (asn : Z)
    : option libbgp_pattr_t :=
  match libbgp_update_find_attr msg LIBBGP_PATTR_AS4_PATH with
  | None => Some (set_first_asn (as4_path_attr (prepend_segs segs LIBBGP_AS_TRANS)) asn)
  | Some q =>
      let n := length (path_asns segs) in
      let c := length (path_asns (as_path_segments q)) in
      if (n <? c)%nat || cuts_set (n - c) segs then None
      else Some (set_first_asn (as4_path_attr
        (cut_before (S (n - c)) (prepend_segs segs LIBBGP_AS_TRANS) ++ as_path_segments q)) asn)
  end.

Lemma set_first_asn_type p asn :
  pa_type (set_first_asn p asn) = pa_type p ∧ pa_type_code (set_first_asn p asn) = pa_type_code p.
Proof. unfold set_first_asn. repeat case_match; [done..|]. by rewrite set_as_path_type. Qed.

Lemma wp_next_shadow msg segs asn :
  session_as4 msg → Forall seg_shape segs → zlen segs <= 2 ^ 30 →
  let next_as_path := as_path_attr (prepend_segs segs LIBBGP_AS_TRANS) false in
  wp (as_path_count ← update_count_path_asns next_as_path;
      match libbgp_update_find_attr msg LIBBGP_PATTR_AS4_PATH with
      | None => update_clone_path_as_type LIBBGP_PATTR_AS4_PATH next_as_path true
      | Some as4_path =>
          as4_count ← update_count_path_asns as4_path;
          fail_if (zlen (path_asns segs) <? as4_count) LIBBGP_ERR_INVALID;;
          next ← update_clone_path_as_type LIBBGP_PATTR_AS4_PATH next_as_path true;
          update_rebuild_as_path_from_as4_suffix next as4_path (as_path_count - as4_count)
      end)
     (λ r, next_shadow msg segs asn = Some (set_first_asn r asn) ∧
           pa_type r = LIBBGP_PATTR_AS4_PATH ∧ pa_type_code r = 17)
     (λ e, e = LIBBGP_ERR_INVALID ∧ next_shadow msg segs asn = None).
Proof.
  intros H4 Hs Hb next. pose proof (prepend_length segs LIBBGP_AS_TRANS) as Hpl.
  assert (Hnext : path_ok next).
  { apply path_ok_as_path; [by apply prepend_shape|lia]. }
  apply wp_bind. eapply wp_mono; [by apply wp_validate_path| |done].
  intros n ->. unfold next_shadow, session_as4 in *.
  change (as_path_segments next) with (prepend_segs segs LIBBGP_AS_TRANS) in *.
  rewrite prepend_asns. destruct (libbgp_update_find_attr msg LIBBGP_PATTR_AS4_PATH) as [q|] eqn:Hq.
  2:{ eapply wp_mono; [by apply wp_clone_path| |done]. by intros r ->. }
  destruct H4 as [Hq4 Hqb]. apply wp_bind. eapply wp_mono; [by apply wp_validate_path| |done].
  intros c ->. cbn [length]. apply wp_bind, wp_fail_if; intros Hlt.
  { split; [done|]. destruct (Nat.ltb_spec (length (path_asns segs)) (length (path_asns (as_path_segments q))));
      [done|lia]. }
  destruct (Nat.ltb_spec (length (path_asns segs)) (length (path_asns (as_path_segments q)))); [lia|].
  apply wp_bind. eapply wp_mono; [by apply wp_clone_path| |done]. intros r ->.
  change (set_as_path _ _ true) with (as4_path_attr (prepend_segs segs LIBBGP_AS_TRANS)).
  eapply wp_mono.
  { apply wp_rebuild; [apply path_ok_as4_path; [by apply prepend_shape|lia]|by eapply find_attr_type|done|].
    change (as_path_segments (as4_path_attr ?s)) with s. rewrite prepend_asns. cbn [length]. lia. }
  all: change (as_path_segments (as4_path_attr ?s)) with s;
    replace (Z.to_nat _) with (S (length (path_asns segs) - length (path_asns (as_path_segments q)))) by lia;
    rewrite prepend_cuts.
  - intros r [-> ->]. by split.
  - by intros e [-> ->].
Qed.

Lemma wp_bind_assoc {A B C} (m : M A) (f : A -> M B) (g : B -> M C) Q E :
  wp (x ← m; f x) (λ y, wp (g y) Q E) E → wp (x ← m; y ← f x; g y) Q E.
Proof.
  intros H s. destruct (wp_bind (x ← m; f x) g Q E H s) as (u & s' & Hu & Hr).
  exists u, s'. split; [done|]. revert Hr. unfold mbind, M_bind. by destruct (m s) as [[a|e|f'] t].
Qed.

Lemma wp_prepend msg asn b segs :
  attrs_coherent msg → session_path msg b segs → session_as4 msg →
  (b = true → libbgp_update_find_attr msg LIBBGP_PATTR_AS4_PATH = None) →
  let wide := negb b && (65535 <? asn) in
  let prep := if wide then LIBBGP_AS_TRANS else asn in
  wp (libbgp_update_prepend_asn msg asn b)
     (λ r, if wide then ∃ q, next_shadow msg segs asn = Some q ∧ pa_type q = LIBBGP_PATTR_AS4_PATH ∧
             r = put_attr (put_attr msg (as_path_attr (prepend_segs segs prep) b)) q
           else r = put_attr msg (as_path_attr (prepend_segs segs prep) b))
     (λ e, e = LIBBGP_ERR_INVALID ∧ wide = true ∧ next_shadow msg segs asn = None).
Proof.
  intros Hc Hp H4 Hb wide prep. pose proof (session_path_shape _ _ _ Hp) as Hs.
  assert (Hprep : (if b || (asn <=? 65535) then asn else LIBBGP_AS_TRANS) = prep).
  { unfold prep, wide. destruct b; [done|]. cbn. repeat case_match; done || lia. }
  unfold libbgp_update_prepend_asn. rewrite Hprep. apply wp_bind, wp_fail_never.
  { destruct b; [|done]. rewrite Hb by done. done. }
  apply wp_bind. eapply (wp_mono _ (λ r, r = (zlen (path_asns segs), as_path_attr segs b)) _ no_err); [| |done].
  { destruct Hp as [Hp Hl]. destruct (libbgp_update_find_attr msg LIBBGP_PATTR_AS_PATH) as [p|].
    - destruct Hp as (Hok & Hb4 & Hsegs). apply wp_bind, wp_fail_never; [by rewrite Hb4, eqb_reflx|].
      apply wp_bind. eapply wp_mono; [by apply wp_validate_path| |done]. intros n ->.
      apply wp_bind. eapply wp_mono; [by apply wp_clone_path| |done]. intros r ->.
      rewrite Hsegs. by apply wp_ret.
    - subst segs. by apply wp_bind, wp_bind, wp_alloc_or_nomem, wp_ret, wp_ret. }
  destruct Hp as [_ Hl]. intros r ->. apply wp_bind.
  eapply wp_mono; [apply wp_prepend_to_path, path_ok_as_path; [done|lia]| |done]. intros r ->.
  change (set_as_path _ _ _) with (as_path_attr (prepend_segs segs prep) b). fold wide.
  apply wp_if; intros Hw; rewrite Hw.
  - unfold prep. rewrite Hw. assert (b = false) as -> by (unfold wide in Hw; by destruct b).
    pose proof (wp_next_shadow msg segs asn H4 Hs Hl) as Hn. cbv zeta in Hn.
    apply wp_bind_assoc. eapply wp_mono; [exact Hn| |by intros e [-> ->]].
    intros q (Hq & Hqt & Hqc). destruct (set_first_asn_type q asn) as [Hft Hfc].
    eapply wp_mono; [apply wp_set_attr_pair; [|by rewrite Hfc, Hqc|apply Hc]| |done].
    { by rewrite Hft, Hqt. }
    intros r ->. eexists. split; [exact Hq|]. by rewrite Hft.
  - eapply wp_mono; [apply wp_set_attr; [done|set_solver|done]| |done]. by intros r ->.
Qed.

(** ** Properties *)

Lemma as4_type_in : LIBBGP_PATTR_AS_PATH ∈ as4_types ∧ LIBBGP_PATTR_AS4_PATH ∈ as4_types ∧
  LIBBGP_PATTR_AGGREGATOR ∈ as4_types ∧ LIBBGP_PATTR_AS4_AGGREGATOR ∈ as4_types.
Proof. unfold as4_types. set_solver. Qed.

Lemma wp_restore_plain msg p :
  libbgp_update_find_attr msg LIBBGP_PATTR_AS_PATH = Some p → path_ok p →
  libbgp_update_find_attr msg LIBBGP_PATTR_AS4_PATH = None →
  wp (libbgp_update_restore_as_path msg)
     (λ r, r = put_attr msg (set_as_path p (as_path_segments p) true)) no_err.
Proof.
  intros Hf Hp Hf4. unfold libbgp_update_restore_as_path. rewrite Hf, Hf4.
  apply wp_bind. eapply wp_mono; [by apply wp_validate_path| |done]. intros _ _.
  apply wp_ret, replace_put. rewrite set_as_path_type, (find_attr_type _ _ _ Hf), Hf. eauto.
Qed.

Lemma as_path_segments_set attr segs b :
  is_path_type (pa_type attr) = true →
  as_path_segments (set_as_path attr segs b) = segs ∧ as_path_is_4b (set_as_path attr segs b) = b.
Proof. unfold pa_type. by destruct attr as [? ? []]. Qed.

Create Rewrite HintDb attr_type.
Lemma narrowed_path_type segs : pa_type (narrowed_path segs) = LIBBGP_PATTR_AS_PATH.
Proof. done. Qed.
Lemma shadow_path_type segs : pa_type (shadow_path segs) = LIBBGP_PATTR_AS4_PATH.
Proof. done. Qed.
Lemma as_path_attr_type segs b : pa_type (as_path_attr segs b) = LIBBGP_PATTR_AS_PATH.
Proof. done. Qed.
#[export] Hint Rewrite set_as_path_type narrowed_path_type shadow_path_type as_path_attr_type : attr_type.

(** Simplify what the attribute list holds of each type after updates. *)
Ltac attrs_simpl :=
  rewrite ?find_attr_head; repeat (rewrite attrs_of_remove || rewrite attrs_of_put);
  autorewrite with attr_type;
  repeat match goal with
    | |- context [decide (?a = ?b)] =>
        let H := fresh in destruct (decide (a = b)) as [H|H]; [|]; try congruence
    end; cbn [head tail].

(** Restoring four-octet AS numbers is exact: on a message with AS_PATH
    and AS4_PATH the call computes the path [restore_segs] describes (the
    leading AS numbers of AS_PATH followed by AS4_PATH, or AS_TRANS replaced
    number by number when AS4_PATH lists only those), marks it four octets
    wide, removes AS4_PATH and leaves the other attributes alone; when the
    two do not fit together it returns INVALID. *)
Theorem update_restore_as_path_exact msg as_path as4_path :
  attrs_coherent msg →
  libbgp_update_find_attr msg LIBBGP_PATTR_AS_PATH = Some as_path → path_ok as_path →
  libbgp_update_find_attr msg LIBBGP_PATTR_AS4_PATH = Some as4_path → path_ok as4_path →
  match restore_segs (as_path_segments as_path) (as_path_segments as4_path) with
  | None => libbgp_update_restore_as_path msg [] = (Err LIBBGP_ERR_INVALID, [])
  | Some segs =>
      ∃ msg', libbgp_update_restore_as_path msg [] = (Ret msg', []) ∧
        libbgp_update_find_attr msg' LIBBGP_PATTR_AS_PATH = Some (set_as_path as_path segs true) ∧
        libbgp_update_find_attr msg' LIBBGP_PATTR_AS4_PATH = None ∧
        ∀ T, T ≠ LIBBGP_PATTR_AS_PATH → T ≠ LIBBGP_PATTR_AS4_PATH →
          libbgp_update_find_attr msg' T = libbgp_update_find_attr msg T
  end.
Proof.
  intros Hc Hf Hp Hf4 Hp4. pose proof (find_attr_type _ _ _ Hf) as Ht.
  destruct (wp_run _ _ _ (wp_restore msg as_path as4_path Hf Hp Hf4 Hp4))
    as [(msg' & Hr & segs & -> & ->)|(e & Hr & -> & ->)]; [|done].
  eexists. split; [exact Hr|].
  assert (∀ T, libbgp_update_find_attr (put_attr msg (set_as_path as_path segs true)) T =
    if decide (LIBBGP_PATTR_AS_PATH = T) then Some (set_as_path as_path segs true)
    else libbgp_update_find_attr msg T) as Hput.
  { intros T. rewrite !find_attr_head, attrs_of_put, set_as_path_type, Ht. by case_decide. }
  split_and!.
  - rewrite find_attr_head, attrs_of_remove, decide_False, <-find_attr_head, Hput by done. done.
  - rewrite find_attr_head, attrs_of_remove, decide_True, attrs_of_put by done.
    rewrite set_as_path_type, Ht, decide_False by done.
    by rewrite (find_single _ _ _ Hc (proj1 (proj2 as4_type_in)) Hf4).
  - intros T H1 H2. rewrite find_attr_head, attrs_of_remove, decide_False, <-find_attr_head, Hput by done.
    by rewrite decide_False.
Qed.

(** C27: Downgrading a four-octet AS_PATH to two octets and restoring it gives
    the path back, read as a sequence of AS numbers and sets, whatever its
    segments; in between, every AS number fits two octets; no other attribute
    changes.  The only path that cannot be downgraded is one whose first wide
    AS number is inside a set after another member: INVALID. *)
Theorem update_downgrade_restore_roundtrip msg as_path :
  attrs_coherent msg →
  libbgp_update_find_attr msg LIBBGP_PATTR_AS_PATH = Some as_path → path_ok as_path →
  as_path_is_4b as_path = true →
  let segs := as_path_segments as_path in
  if has_wide segs && cuts_set (wide_index (path_asns segs)) segs
  then libbgp_update_downgrade_as_path msg [] = (Err LIBBGP_ERR_INVALID, [])
  else ∃ msg1 p1 msg2 p2,
    libbgp_update_downgrade_as_path msg [] = (Ret msg1, []) ∧
    libbgp_update_find_attr msg1 LIBBGP_PATTR_AS_PATH = Some p1 ∧ as_path_is_4b p1 = false ∧
    path_asns (as_path_segments p1) = narrow_asn <$> path_asns segs ∧
    libbgp_update_restore_as_path msg1 [] = (Ret msg2, []) ∧
    libbgp_update_find_attr msg2 LIBBGP_PATTR_AS_PATH = Some p2 ∧ as_path_is_4b p2 = true ∧
    path_units (as_path_segments p2) = path_units segs ∧
    libbgp_update_find_attr msg2 LIBBGP_PATTR_AS4_PATH = None ∧
    ∀ T, T ≠ LIBBGP_PATTR_AS_PATH → T ≠ LIBBGP_PATTR_AS4_PATH →
      libbgp_update_find_attr msg2 T = libbgp_update_find_attr msg T.
Proof.
  intros Hc Hf Hp H4 segs. destruct as4_type_in as (Hin & Hin4 & _).
  pose proof (attrs_of_single _ _ Hc Hin) as Hs1. pose proof (attrs_of_single _ _ Hc Hin4) as Hs4.
  destruct (wp_run _ _ _ (wp_downgrade msg as_path Hc Hf Hp H4)) as [(msg1 & Hd & Hm)|(e & Hd & -> & Hw & Hcut)];
    [|fold segs in Hw, Hcut; by rewrite Hw, Hcut]. fold segs in Hm. destruct Hp as (_ & _ & Hsh & Hb). fold segs in Hsh, Hb.
  assert (Hnok : path_ok (narrowed_path segs)).
  { split_and!; [done|done|by apply narrow_shape|]. cbn. by rewrite length_fmap. }
  destruct (has_wide segs) eqn:Hw.
  - destruct Hm as [-> Hcut]. rewrite Hcut. cbn [andb].
    assert (path_ok (shadow_path segs)) as Hsok.
    { split_and!; [done|done|by apply cut_after_shape|]. cbn.
      pose proof (cut_after_length (wide_index (path_asns segs)) segs). lia. }
    set (msg1 := put_attr _ _) in *.
    assert (libbgp_update_find_attr msg1 LIBBGP_PATTR_AS_PATH = Some (narrowed_path segs)) as Hf1
      by (unfold msg1; attrs_simpl; done).
    assert (libbgp_update_find_attr msg1 LIBBGP_PATTR_AS4_PATH = Some (shadow_path segs)) as Hf2
      by (unfold msg1; attrs_simpl; done).
    destruct (wp_run _ _ _ (wp_restore msg1 _ _ Hf1 Hnok Hf2 Hsok)) as [(msg2 & Hr & rs & Hrs & ->)|(e & _ & _ & He)];
      [|by pose proof (eq_trans (eq_sym (restore_downgraded segs Hw Hcut)) He)].
    pose proof (eq_trans (eq_sym (restore_downgraded segs Hw Hcut)) Hrs) as Heq. injection Heq as <-.
    eexists _, _, _, _. split; [exact Hd|]. split; [exact Hf1|]. split; [done|].
    split; [apply path_asns_narrow|]. split; [exact Hr|]. split; [by unfold msg1; attrs_simpl|].
    split; [done|]. split; [by apply cut_units|]. split.
    + unfold msg1. attrs_simpl. by rewrite Hs4.
    + intros T H1 H2. unfold msg1. attrs_simpl.
  - subst msg1. cbn [andb]. set (msg1 := (update_remove_attr_type _ _).2) in *.
    assert (libbgp_update_find_attr msg1 LIBBGP_PATTR_AS_PATH = Some (narrowed_path segs)) as Hf1
      by (unfold msg1; attrs_simpl; done).
    assert (libbgp_update_find_attr msg1 LIBBGP_PATTR_AS4_PATH = None) as Hf2
      by (unfold msg1; attrs_simpl; by rewrite Hs4).
    destruct (wp_run_ret _ _ (wp_restore_plain msg1 _ Hf1 Hnok Hf2)) as (msg2 & Hr & ->).
    eexists _, _, _, _. split; [exact Hd|]. split; [exact Hf1|]. split; [done|].
    split; [apply path_asns_narrow|]. split; [exact Hr|].
    split; [attrs_simpl; done|]. split; [done|]. split.
    { cbn. by rewrite narrow_segs_fixed by by apply no_wide_narrow. }
    split; [by rewrite find_attr_head, attrs_of_put, set_as_path_type, decide_False, <-find_attr_head|].
    intros T H1 H2. unfold msg1. attrs_simpl.
Qed.

(** The AS numbers of the route as both attributes tell them together, and
    when they agree. *)
Definition real_asns (asns : list Z) (as4 : option (list Z)) : list Z :=
  match as4 with
  | None => asns
  | Some q => take (length asns - length q) asns ++ q
  end.

Definition as4_agrees (segs : list libbgp_as_path_segment_t) (as4 : option (list Z)) : Prop :=
  match as4 with
  | None => True
  | Some q =>
      (length q <= length (path_asns segs))%nat ∧
      cuts_set (length (path_asns segs) - length q) segs = false ∧
      asns_match (drop (length (path_asns segs) - length q) (path_asns segs)) q = true
  end.

Definition as4_asns (msg : libbgp_update_msg_t) : option (list Z) :=
  (λ q, path_asns (as_path_segments q)) <$> libbgp_update_find_attr msg LIBBGP_PATTR_AS4_PATH.

Lemma restore_agreeing segs as4 :
  as4_agrees segs (Some (path_asns as4)) →
  restore_segs segs as4 =
    Some (cut_before (length (path_asns segs) - length (path_asns as4)) segs ++ as4).
Proof.
  intros (Hl & Hc & Hm). unfold restore_segs. rewrite Hm, Hc, andb_false_r.
  destruct (Nat.ltb_spec (length (path_asns segs)) (length (path_asns as4))); [lia|done].
Qed.

(** Restoring a message whose attributes agree gives the real path. *)
Lemma restore_real msg p :
  libbgp_update_find_attr msg LIBBGP_PATTR_AS_PATH = Some p → path_ok p →
  (∀ q, libbgp_update_find_attr msg LIBBGP_PATTR_AS4_PATH = Some q → path_ok q) →
  as4_agrees (as_path_segments p) (as4_asns msg) →
  ∃ msg' p', libbgp_update_restore_as_path msg [] = (Ret msg', []) ∧
    libbgp_update_find_attr msg' LIBBGP_PATTR_AS_PATH = Some p' ∧
    path_asns (as_path_segments p') = real_asns (path_asns (as_path_segments p)) (as4_asns msg).
Proof.
  intros Hf Hp Hq Ha. unfold as4_asns in *. pose proof (find_attr_type _ _ _ Hf) as Ht.
  destruct (libbgp_update_find_attr msg LIBBGP_PATTR_AS4_PATH) as [q|] eqn:Hf4; cbn [fmap option_fmap option_map] in *.
  - destruct (wp_run _ _ _ (wp_restore msg p q Hf Hp Hf4 (Hq q eq_refl)))
      as [(msg' & Hr & segs & Hs & ->)|(e & _ & _ & Hn)];
      rewrite restore_agreeing in * by done; [|done].
    injection Hs as <-. eexists _, _. split; [exact Hr|]. split.
    { rewrite find_attr_head, attrs_of_remove, decide_False, attrs_of_put by done.
      rewrite set_as_path_type, Ht, decide_True by done. done. }
    destruct (as_path_segments_set p (cut_before (length (path_asns (as_path_segments p)) -
      length (path_asns (as_path_segments q))) (as_path_segments p) ++ as_path_segments q) true)
      as [-> _]; [by rewrite Ht|]. by rewrite path_asns_app, cut_before_asns.
  - destruct (wp_run_ret _ _ (wp_restore_plain msg p Hf Hp Hf4)) as (msg' & Hr & ->).
    eexists _, _. split; [exact Hr|]. split.
    { rewrite find_attr_head, attrs_of_put, set_as_path_type, Ht, decide_True by done. done. }
    by destruct (as_path_segments_set p (as_path_segments p) true) as [-> _]; [rewrite Ht|].
Qed.

Lemma next_shadow_agrees msg segs asn q :
  as4_agrees segs (as4_asns msg) → next_shadow msg segs asn = Some q →
  path_asns (as_path_segments q) = asn :: real_asns (path_asns segs) (as4_asns msg).
Proof.
  unfold next_shadow, as4_asns. intros Ha.
  destruct (libbgp_update_find_attr msg LIBBGP_PATTR_AS4_PATH) as [q0|]; cbn [fmap option_fmap option_map real_asns] in *.
  - case_match; [done|]. intros [= <-]. apply set_first_prepended.
  - intros [= <-]. destruct segs as [|[ty asns] segs]; [done|]. cbn [prepend_segs]. by case_match.
Qed.

Lemma next_shadow_ok msg segs asn q :
  session_as4 msg → Forall seg_shape segs → zlen segs <= 2 ^ 30 →
  next_shadow msg segs asn = Some q → path_ok q.
Proof.
  assert (∀ segs a, Forall seg_shape segs → zlen segs <= 2 ^ 32 →
    path_ok (set_first_asn (as4_path_attr segs) a)) as Hfirst.
  { intros ss a Hs Hl. unfold set_first_asn. change (as_path_segments (as4_path_attr ?s)) with s.
    destruct ss as [|[ty [|x asns]] ss]; try by apply path_ok_as4_path.
    apply Forall_cons in Hs as [Hs Hss]. split_and!; [done|done| |done]. by constructor. }
  pose proof (prepend_length segs LIBBGP_AS_TRANS) as Hpl.
  intros H4 Hs Hl. unfold next_shadow, session_as4 in *.
  destruct (libbgp_update_find_attr msg LIBBGP_PATTR_AS4_PATH) as [q0|].
  - case_match; [done|]. intros [= <-]. destruct H4 as [(_ & _ & Hq & _) Hql].
    set (k := S _). pose proof (cut_before_length k (prepend_segs segs LIBBGP_AS_TRANS)).
    apply Hfirst; [|rewrite length_app; lia].
    apply Forall_app. split; [|done]. by apply cut_before_shape, prepend_shape.
  - intros [= <-]. apply Hfirst; [by apply prepend_shape|lia].
Qed.

Lemma length_real_asns segs as4 :
  as4_agrees segs as4 → length (real_asns (path_asns segs) as4) = length (path_asns segs).
Proof.
  destruct as4 as [q|]; [|done]. intros (Hl & _ & _). cbn. rewrite length_app, length_take. lia.
Qed.

Lemma asns_match_app l k q :
  asns_match (drop k l) q = true → asns_match l (take k l ++ q) = true.
Proof.
  revert k. induction l as [|a l IH]; intros k Hm; [by destruct k|].
  destruct k as [|k]; [done|]. cbn [drop take app asns_match] in *. rewrite Z.eqb_refl, orb_true_r.
  by apply IH.
Qed.

Lemma real_asns_match segs as4 :
  as4_agrees segs as4 → asns_match (path_asns segs) (real_asns (path_asns segs) as4) = true.
Proof.
  destruct as4 as [q|]; cbn [real_asns].
  - intros (_ & _ & Hm). by apply asns_match_app.
  - intros _. rewrite <-(app_nil_r (path_asns segs)) at 2.
    rewrite <-(take_ge (path_asns segs) (length (path_asns segs))) at 2 by done.
    apply asns_match_app. by rewrite drop_all.
Qed.

(** The attributes still agree after an AS number has been put in front. *)
Lemma agrees_prepend_narrow segs as4 asn :
  as4_agrees segs as4 → as4_agrees (prepend_segs segs asn) as4.
Proof.
  destruct as4 as [q|]; [|done]. intros (Hl & Hc & Hm). cbn [as4_agrees]. rewrite prepend_asns.
  cbn [length]. replace (S (length (path_asns segs)) - length q)%nat
    with (S (length (path_asns segs) - length q)) by lia.
  rewrite prepend_cuts. split_and!; [lia|done..].
Qed.

Lemma agrees_prepend_wide segs as4 asn :
  as4_agrees segs as4 →
  as4_agrees (prepend_segs segs LIBBGP_AS_TRANS) (Some (asn :: real_asns (path_asns segs) as4)).
Proof.
  intros Ha. cbn [as4_agrees]. rewrite prepend_asns. cbn [length]. rewrite length_real_asns by done.
  rewrite Nat.sub_diag, cuts_set_0, drop_0. cbn [asns_match].
  rewrite real_asns_match by done. done.
Qed.

Lemma real_prepend_narrow asns as4 asn :
  (∀ q, as4 = Some q → (length q <= length asns)%nat) →
  real_asns (asn :: asns) as4 = asn :: real_asns asns as4.
Proof.
  destruct as4 as [q|]; [|done]. intros Hl. specialize (Hl q eq_refl). cbn [real_asns length].
  by replace (S (length asns) - length q)%nat with (S (length asns - length q)) by lia.
Qed.

(** [msg1] is [msg] with [asn] prepended on a two-octet session, and restores to
    [asn] in front of what [msg] restores to. *)
Definition prepended_restores (msg : libbgp_update_msg_t) (asn : Z)
    (segs : list libbgp_as_path_segment_t) (msg1 : libbgp_update_msg_t) : Prop :=
  ∃ p1 msg2 p2,
    libbgp_update_find_attr msg1 LIBBGP_PATTR_AS_PATH = Some p1 ∧ as_path_is_4b p1 = false ∧
    path_asns (as_path_segments p1) = narrow_asn asn :: path_asns segs ∧
    (∀ T, T ≠ LIBBGP_PATTR_AS_PATH → T ≠ LIBBGP_PATTR_AS4_PATH →
       libbgp_update_find_attr msg1 T = libbgp_update_find_attr msg T) ∧
    libbgp_update_restore_as_path msg1 [] = (Ret msg2, []) ∧
    libbgp_update_find_attr msg2 LIBBGP_PATTR_AS_PATH = Some p2 ∧
    path_asns (as_path_segments p2) = asn :: real_asns (path_asns segs) (as4_asns msg).

Lemma prepended_path_ok segs a :
  Forall seg_shape segs → zlen segs <= 2 ^ 30 → path_ok (as_path_attr (prepend_segs segs a) false).
Proof.
  intros Hs Hl. pose proof (prepend_length segs a).
  apply path_ok_as_path; [by apply prepend_shape|lia].
Qed.

(** A wide AS number goes into AS4_PATH. *)
Lemma prepend_wide_restores msg asn segs q :
  session_as4 msg → Forall seg_shape segs → zlen segs <= 2 ^ 30 → as4_agrees segs (as4_asns msg) →
  65535 < asn → next_shadow msg segs asn = Some q → pa_type q = LIBBGP_PATTR_AS4_PATH →
  prepended_restores msg asn segs
    (put_attr (put_attr msg (as_path_attr (prepend_segs segs LIBBGP_AS_TRANS) false)) q).
Proof.
  intros H4 Hs Hl Ha Hw Hq Hqt. set (p := as_path_attr _ false). set (msg1 := put_attr _ q).
  assert (Hf1 : libbgp_update_find_attr msg1 LIBBGP_PATTR_AS_PATH = Some p).
  { unfold msg1. rewrite find_attr_head, !attrs_of_put, Hqt. done. }
  assert (Hf4 : libbgp_update_find_attr msg1 LIBBGP_PATTR_AS4_PATH = Some q).
  { unfold msg1. rewrite find_attr_head, !attrs_of_put, Hqt. done. }
  assert (H41 : as4_asns msg1 = Some (asn :: real_asns (path_asns segs) (as4_asns msg))).
  { unfold as4_asns at 1. rewrite Hf4. cbn. f_equal. by apply next_shadow_agrees. }
  destruct (restore_real msg1 p Hf1 (prepended_path_ok _ _ Hs Hl)) as (msg2 & p2 & Hr2 & Hp2 & He2).
  { intros q' Hq'. rewrite Hf4 in Hq'. injection Hq' as <-. by eapply next_shadow_ok. }
  { rewrite H41. by apply agrees_prepend_wide. }
  exists p, msg2, p2. split_and!; [done|done| | |done|done|].
  - unfold narrow_asn. replace (65535 <? asn) with true by lia. apply prepend_asns.
  - intros T H1 H2. unfold msg1. rewrite !find_attr_head, !attrs_of_put, Hqt.
    unfold p. autorewrite with attr_type. by rewrite !decide_False by done.
  - rewrite He2, H41. change (as_path_segments p) with (prepend_segs segs LIBBGP_AS_TRANS).
    rewrite prepend_asns. cbn [real_asns length]. by rewrite length_real_asns, Nat.sub_diag.
Qed.

(** A narrow one leaves AS4_PATH alone. *)
Lemma prepend_narrow_restores msg asn segs :
  session_as4 msg → Forall seg_shape segs → zlen segs <= 2 ^ 30 → as4_agrees segs (as4_asns msg) →
  asn <= 65535 →
  prepended_restores msg asn segs (put_attr msg (as_path_attr (prepend_segs segs asn) false)).
Proof.
  intros H4 Hs Hl Ha Hn. set (p := as_path_attr _ false). set (msg1 := put_attr _ p).
  assert (Hf1 : libbgp_update_find_attr msg1 LIBBGP_PATTR_AS_PATH = Some p).
  { unfold msg1. rewrite find_attr_head, !attrs_of_put. done. }
  assert (Hother : ∀ T, T ≠ LIBBGP_PATTR_AS_PATH →
    libbgp_update_find_attr msg1 T = libbgp_update_find_attr msg T).
  { intros T HT. unfold msg1. rewrite !find_attr_head, attrs_of_put. unfold p.
    autorewrite with attr_type. by rewrite decide_False by done. }
  assert (H41 : as4_asns msg1 = as4_asns msg) by (unfold as4_asns; by rewrite Hother).
  destruct (restore_real msg1 p Hf1 (prepended_path_ok _ _ Hs Hl)) as (msg2 & p2 & Hr2 & Hp2 & He2).
  { intros q' Hq'. rewrite Hother in Hq' by done. unfold session_as4 in H4.
    rewrite Hq' in H4. apply H4. }
  { rewrite H41. by apply agrees_prepend_narrow. }
  exists p, msg2, p2. split_and!; [done|done| |by auto|done|done|].
  - unfold narrow_asn. replace (65535 <? asn) with false by lia. apply prepend_asns.
  - rewrite He2, H41. change (as_path_segments p) with (prepend_segs segs asn).
    rewrite prepend_asns. apply real_prepend_narrow. intros q Hq. rewrite Hq in Ha. apply Ha.
Qed.

Lemma next_shadow_agreeing msg segs asn :
  as4_agrees segs (as4_asns msg) → next_shadow msg segs asn ≠ None.
Proof.
  unfold next_shadow, as4_asns. destruct (libbgp_update_find_attr msg LIBBGP_PATTR_AS4_PATH) as [q|]; [|done].
  cbn [fmap option_fmap option_map as4_agrees]. intros (Hlq & Hcut & _).
  by rewrite Hcut, (proj2 (Nat.ltb_ge _ _) Hlq).
Qed.

(** Prepending on a two-octet session keeps AS_PATH and AS4_PATH telling
    one path: the AS number, or AS_TRANS when it does not fit, is put in front
    of AS_PATH, and the path a four-octet speaker restores from the message is
    the prepended AS number followed by the path it would have restored
    before.  Attributes of other types do not change. *)
Theorem update_prepend_asn_restores msg asn segs :
  attrs_coherent msg → session_path msg false segs → session_as4 msg →
  as4_agrees segs (as4_asns msg) →
  ∃ msg1 p1 msg2 p2,
    libbgp_update_prepend_asn msg asn false [] = (Ret msg1, []) ∧
    libbgp_update_find_attr msg1 LIBBGP_PATTR_AS_PATH = Some p1 ∧ as_path_is_4b p1 = false ∧
    path_asns (as_path_segments p1) = narrow_asn asn :: path_asns segs ∧
    (∀ T, T ≠ LIBBGP_PATTR_AS_PATH → T ≠ LIBBGP_PATTR_AS4_PATH →
       libbgp_update_find_attr msg1 T = libbgp_update_find_attr msg T) ∧
    libbgp_update_restore_as_path msg1 [] = (Ret msg2, []) ∧
    libbgp_update_find_attr msg2 LIBBGP_PATTR_AS_PATH = Some p2 ∧
    path_asns (as_path_segments p2) = asn :: real_asns (path_asns segs) (as4_asns msg).
Proof.
  intros Hc Hp H4 Ha. pose proof (session_path_shape _ _ _ Hp) as Hs.
  assert (Hl : zlen segs <= 2 ^ 30) by apply Hp.
  pose proof (wp_run _ _ _ (wp_prepend msg asn false segs Hc Hp H4 ltac:(done))) as Hrun.
  assert (∃ msg1, libbgp_update_prepend_asn msg asn false [] = (Ret msg1, []) ∧
    prepended_restores msg asn segs msg1) as (msg1 & Hr & p1 & msg2 & p2 & ?); [|by exists msg1, p1, msg2, p2].
  cbn [negb andb] in Hrun. destruct (65535 <? asn) eqn:Hw.
  - destruct Hrun as [(msg1 & Hr & q & Hq & Hqt & ->)|(e & _ & _ & _ & Hn)].
    + eexists. split; [done|]. apply prepend_wide_restores; done || lia.
    + by apply next_shadow_agreeing in Hn.
  - destruct Hrun as [(msg1 & Hr & ->)|(e & _ & _ & ? & _)]; [|done].
    eexists. split; [done|]. apply prepend_narrow_restores; done || lia.
Qed.

(** Prepending on a four-octet session puts exactly that AS number in
    front of the path, whatever the first segment is or holds, and changes no
    other attribute; a message that still carries an AS4_PATH is refused. *)
Theorem update_prepend_asn_4b msg asn segs :
  attrs_coherent msg → session_path msg true segs →
  match libbgp_update_find_attr msg LIBBGP_PATTR_AS4_PATH with
  | Some _ => libbgp_update_prepend_asn msg asn true [] = (Err LIBBGP_ERR_INVALID, [])
  | None =>
      ∃ msg' p, libbgp_update_prepend_asn msg asn true [] = (Ret msg', []) ∧
        libbgp_update_find_attr msg' LIBBGP_PATTR_AS_PATH = Some p ∧ as_path_is_4b p = true ∧
        Forall seg_shape (as_path_segments p) ∧
        path_units (as_path_segments p) = inl asn :: path_units segs ∧
        ∀ T, T ≠ LIBBGP_PATTR_AS_PATH → libbgp_update_find_attr msg' T = libbgp_update_find_attr msg T
  end.
Proof.
  intros Hc Hp. destruct (libbgp_update_find_attr msg LIBBGP_PATTR_AS4_PATH) eqn:Hf4.
  { unfold libbgp_update_prepend_asn. by rewrite Hf4. }
  assert (H4 : session_as4 msg) by (unfold session_as4; by rewrite Hf4).
  destruct (wp_run _ _ _ (wp_prepend msg asn true segs Hc Hp H4 ltac:(done)))
    as [(msg' & Hr & ->)|(e & _ & _ & ? & _)]; [|done]. cbn [negb andb] in *.
  eexists _, _. split; [exact Hr|]. split; [by attrs_simpl|]. split; [done|].
  split; [apply prepend_shape; by eapply session_path_shape|]. split; [apply prepend_units|].
  intros T HT. attrs_simpl.
Qed.

Lemma set_aggregator_type attr asn rid b : pa_type (set_aggregator attr asn rid b) = pa_type attr.
Proof. unfold pa_type. by destruct attr as [? ? []]. Qed.
#[export] Hint Rewrite set_aggregator_type : attr_type.

(** What downgrading an aggregator leaves. *)
Definition agg_shadow (asn router_id : Z) : libbgp_pattr_t :=
  set_aggregator (pattr_set_defaults LIBBGP_PATTR_AS4_AGGREGATOR) asn router_id true.
Definition agg_downgraded (msg : libbgp_update_msg_t) (asn router_id : Z) (is_4b : bool) :=
  if is_4b || (65535 <? asn) then put_attr msg (agg_shadow asn router_id) else msg.

Lemma agg_shadow_type asn rid : pa_type (agg_shadow asn rid) = LIBBGP_PATTR_AS4_AGGREGATOR.
Proof. done. Qed.
#[export] Hint Rewrite agg_shadow_type : attr_type.

Lemma pa_data_set_aggregator a asn rid b asn' rid' b' :
  pa_data a = d_aggregator asn rid b →
  pa_data (set_aggregator a asn' rid' b') = d_aggregator asn' rid' b'.
Proof. intros Hd. unfold set_aggregator. cbn. by rewrite Hd. Qed.

Lemma downgrade_aggregator_run msg a asn rid b :
  attrs_coherent msg → libbgp_update_find_attr msg LIBBGP_PATTR_AGGREGATOR = Some a →
  pa_data a = d_aggregator asn rid b →
  libbgp_update_downgrade_aggregator msg [] =
    (Ret (put_attr (agg_downgraded msg asn rid b) (set_aggregator a (narrow_asn asn) rid false)), []).
Proof.
  intros Hc Hf Hd. pose proof (find_attr_type _ _ _ Hf) as Ht. apply wp_returns.
  unfold libbgp_update_downgrade_aggregator. rewrite Hf. unfold aggregator_of. rewrite Hd.
  apply wp_bind. eapply (wp_mono _ (λ r, r = agg_downgraded msg asn rid b) _ no_err); [| |done].
  - unfold agg_downgraded. destruct (b || (65535 <? asn)); [|by apply wp_ret].
    apply wp_bind, wp_bind, wp_alloc_or_nomem, wp_ret. apply wp_set_attr; [done|set_solver|done].
  - intros r ->. apply wp_ret, replace_put. rewrite set_aggregator_type, Ht. unfold agg_downgraded.
    case_match; [|by rewrite Hf].
    rewrite find_attr_head, attrs_of_put, decide_False, <-find_attr_head, Hf by done. eauto.
Qed.

Lemma restore_aggregator_run msg a asn rid b q :
  libbgp_update_find_attr msg LIBBGP_PATTR_AGGREGATOR = Some a →
  pa_data a = d_aggregator asn rid b →
  libbgp_update_find_attr msg LIBBGP_PATTR_AS4_AGGREGATOR = q →
  libbgp_update_restore_aggregator msg [] =
    (Ret match q with
         | Some q => (update_remove_attr_type
             (put_attr msg (set_aggregator a (aggregator_of q).1.1 (aggregator_of q).1.2 true))
             LIBBGP_PATTR_AS4_AGGREGATOR).2
         | None => put_attr msg (set_aggregator a asn rid true)
         end, []).
Proof.
  intros Hf Hd Hq. pose proof (find_attr_type _ _ _ Hf) as Ht.
  assert (Hr : ∀ x y z, replace_attr msg (set_aggregator a x y z) = put_attr msg (set_aggregator a x y z)).
  { intros. apply replace_put. rewrite set_aggregator_type, Ht, Hf. eauto. }
  unfold libbgp_update_restore_aggregator. rewrite Hf, Hq. destruct q as [q|].
  - destruct (aggregator_of q) as [[x y] z]. by rewrite Hr.
  - unfold aggregator_of. by rewrite Hd, Hr.
Qed.

(** Downgrading AGGREGATOR to two octets and restoring it gives the
    aggregator's AS number and router id back; in between, the AS number fits
    two octets.  No other attribute changes and no AS4_AGGREGATOR is left. *)
Theorem update_aggregator_roundtrip msg a asn router_id is_4b :
  attrs_coherent msg →
  libbgp_update_find_attr msg LIBBGP_PATTR_AGGREGATOR = Some a →
  pa_data a = d_aggregator asn router_id is_4b →
  is_4b = true ∨ 65535 < asn ∨ libbgp_update_find_attr msg LIBBGP_PATTR_AS4_AGGREGATOR = None →
  ∃ msg1 a1 msg2 a2,
    libbgp_update_downgrade_aggregator msg [] = (Ret msg1, []) ∧
    libbgp_update_find_attr msg1 LIBBGP_PATTR_AGGREGATOR = Some a1 ∧
    pa_data a1 = d_aggregator (narrow_asn asn) router_id false ∧
    libbgp_update_restore_aggregator msg1 [] = (Ret msg2, []) ∧
    libbgp_update_find_attr msg2 LIBBGP_PATTR_AGGREGATOR = Some a2 ∧
    pa_data a2 = d_aggregator asn router_id true ∧
    libbgp_update_find_attr msg2 LIBBGP_PATTR_AS4_AGGREGATOR = None ∧
    ∀ T, T ≠ LIBBGP_PATTR_AGGREGATOR → T ≠ LIBBGP_PATTR_AS4_AGGREGATOR →
      libbgp_update_find_attr msg2 T = libbgp_update_find_attr msg T.
Proof.
  intros Hc Hf Hd Hor. pose proof (find_attr_type _ _ _ Hf) as Ht.
  destruct as4_type_in as (_ & _ & Hin & Hin4). pose proof (attrs_of_single _ _ Hc Hin4) as Hs4.
  pose proof (downgrade_aggregator_run msg a asn router_id is_4b Hc Hf Hd) as Hrun1.
  pose proof (pa_data_set_aggregator _ _ _ _ (narrow_asn asn) router_id false Hd) as Hd1.
  set (a1 := set_aggregator a _ _ _) in *. set (msg1 := put_attr _ a1) in *.
  assert (Ht1 : pa_type a1 = LIBBGP_PATTR_AGGREGATOR) by (unfold pa_type; by rewrite Hd1).
  assert (Hf1 : libbgp_update_find_attr msg1 LIBBGP_PATTR_AGGREGATOR = Some a1).
  { unfold msg1. by rewrite find_attr_head, attrs_of_put, Ht1. }
  assert (Hother : ∀ T, T ≠ LIBBGP_PATTR_AGGREGATOR → T ≠ LIBBGP_PATTR_AS4_AGGREGATOR →
    libbgp_update_find_attr msg1 T = libbgp_update_find_attr msg T).
  { intros T H1 H2. unfold msg1, agg_downgraded. rewrite !find_attr_head, attrs_of_put, Ht1, decide_False by done.
    case_match; [|done]. by rewrite attrs_of_put, agg_shadow_type, decide_False. }
  exists msg1, a1. unfold agg_downgraded in *. destruct (is_4b || (65535 <? asn)) eqn:Hsh.
  - assert (Hf14 : attrs_of LIBBGP_PATTR_AS4_AGGREGATOR (upd_attrs msg1) = [agg_shadow asn router_id]).
    { unfold msg1. rewrite attrs_of_put, Ht1, decide_False, attrs_of_put, agg_shadow_type, decide_True by done.
      by rewrite Hs4. }
    pose proof (restore_aggregator_run _ _ _ _ _ (Some (agg_shadow asn router_id)) Hf1 Hd1) as Hrun2.
    rewrite find_attr_head, Hf14 in Hrun2. specialize (Hrun2 eq_refl). cbn [aggregator_of agg_shadow] in Hrun2.
    eexists _, _. split; [done|]. split; [done|]. split; [done|]. split; [exact Hrun2|].
    split; [by rewrite find_attr_head, attrs_of_remove, decide_False, attrs_of_put, set_aggregator_type, Ht1|].
    split; [by eapply pa_data_set_aggregator|]. split.
    + by rewrite find_attr_head, attrs_of_remove, decide_True, attrs_of_put, set_aggregator_type, Ht1, decide_False, Hf14.
    + intros T H1 H2. rewrite <-Hother by done.
      by rewrite !find_attr_head, attrs_of_remove, decide_False, attrs_of_put, set_aggregator_type, Ht1, decide_False.
  - assert (Hf14 : libbgp_update_find_attr msg1 LIBBGP_PATTR_AS4_AGGREGATOR = None).
    { unfold msg1. rewrite find_attr_head, attrs_of_put, Ht1, decide_False, <-find_attr_head by done.
      destruct Hor as [-> |[?|?]]; [done|lia|done]. }
    assert (narrow_asn asn = asn) as Hn by (unfold narrow_asn; by destruct (65535 <? asn), is_4b).
    pose proof (restore_aggregator_run _ _ _ _ _ None Hf1 Hd1 Hf14) as Hrun2. rewrite Hn in Hrun2.
    eexists _, _. split; [done|]. split; [done|]. split; [done|]. split; [exact Hrun2|].
    split; [by rewrite find_attr_head, attrs_of_put, set_aggregator_type, Ht1|].
    split; [by eapply pa_data_set_aggregator|]. split.
    + by rewrite find_attr_head, attrs_of_put, set_aggregator_type, Ht1, decide_False, <-find_attr_head.
    + intros T H1 H2. rewrite <-Hother by done.
      by rewrite !find_attr_head, attrs_of_put, set_aggregator_type, Ht1, decide_False.
Qed.

(** ** Parsed messages satisfy the hypotheses *)

Lemma pattr_wf_coherent {host : Host} b a T :
  pattr_wf b a → T ∈ as4_types → pa_type a = T ↔ pa_type_code a = pattr_default_type_code T.
Proof.
  intros ((_ & _ & _ & Hcode & _) & _ & Hd) HT. split.
  - intros <-. apply Hcode. intros Hu. rewrite Hu in HT. unfold as4_types in HT. set_solver.
  - intros Hc. destruct (decide (pa_type a = LIBBGP_PATTR_UNKNOWN)) as [Hu|Hu].
    + exfalso. unfold pa_type in Hu. destruct (pa_data a) eqn:He; try done. cbn in Hd.
      rewrite Hc in Hd. unfold as4_types in HT. rewrite !elem_of_cons in HT.
      by destruct HT as [-> |[-> |[-> |[-> |HT%not_elem_of_nil]]]].
    + specialize (Hcode Hu). rewrite Hc in Hcode. unfold as4_types in HT. rewrite !elem_of_cons in HT.
      destruct HT as [-> |[-> |[-> |[-> |HT%not_elem_of_nil]]]]; [..|done];
        by destruct (pa_type a).
Qed.

Lemma upd_wf_coherent {host : Host} b msg : upd_wf b msg → attrs_coherent msg.
Proof.
  intros ((_ & _ & _ & (Hn & _ & _) & _ & Hl & _) & _ & _ & Ha). split; [done|]. split.
  - eapply Forall_impl; [exact Ha|]. intros a Hwf T HT. by eapply pattr_wf_coherent.
  - pose proof (attrs_count (upd_attrs msg)). lia.
Qed.

(** ** Witnesses *)

#[local] Existing Instance little_endian_host.

Definition as4_example (segs : list libbgp_as_path_segment_t) (is_4b : bool)
    (rest : list libbgp_pattr_t) : libbgp_update_msg_t :=
  UpdateMsg [] (Pattr 0x40 1 (d_origin 0) :: Pattr 0x40 2 (d_as_path segs is_4b) :: rest) [].

(** Three AS numbers, the second of which needs four octets, and a set. *)
Definition wide_example : libbgp_update_msg_t :=
  as4_example [Segment 2 [64512; 70000; 65001]; Segment 1 [65002; 80000]] true
    [Pattr 0xc0 7 (d_aggregator 70000 167772161 true)].

(** The same route on a two-octet session. *)
Definition narrow_example : libbgp_update_msg_t :=
  as4_example [Segment 2 [64512; 23456; 65001]] false
    [Pattr 0xc0 17 (d_as4_path [Segment 2 [70000; 65001]] true)].

Lemma as4_examples_coherent : attrs_coherent wide_example ∧ attrs_coherent narrow_example.
Proof.
  assert (∀ attrs, bool_decide (NoDup (pa_type_code <$> attrs)) = true →
    forallb (λ a, forallb (λ T, eqb (bool_decide (pa_type a = T))
      (pa_type_code a =? pattr_default_type_code T)) as4_types) attrs = true →
    zlen attrs <= 2 ^ 32 → attrs_coherent (UpdateMsg [] attrs [])) as H.
  { intros attrs Hn Hf Hl. split; [by eapply bool_decide_eq_true_1|]. split; [|done].
    apply Forall_forall. intros a Ha T HT. rewrite forallb_forall in Hf.
    apply list_elem_of_In in Ha. specialize (Hf a Ha). cbv beta in Hf.
    rewrite forallb_forall in Hf. apply list_elem_of_In in HT. specialize (Hf T HT).
    apply eqb_prop in Hf. rewrite <-Z.eqb_eq, <-Hf. by rewrite bool_decide_eq_true. }
  split; apply H; vm_compute; done.
Qed.

Lemma wide_path_ok : path_ok (Pattr 0x40 2 (d_as_path
  [Segment 2 [64512; 70000; 65001]; Segment 1 [65002; 80000]] true)).
Proof. split_and!; [done|done| |vm_compute; done]. repeat constructor; cbn; lia. Qed.

Lemma narrow_path_ok :
  path_ok (Pattr 0x40 2 (d_as_path [Segment 2 [64512; 23456; 65001]] false)) ∧
  path_ok (Pattr 0xc0 17 (d_as4_path [Segment 2 [70000; 65001]] true)).
Proof. split; (split_and!; [done|done| |vm_compute; done]); repeat constructor; cbn; lia. Qed.

Lemma update_restore_as_path_exact_witness :
  ∃ msg', libbgp_update_restore_as_path narrow_example [] = (Ret msg', []) ∧
    libbgp_update_find_attr msg' LIBBGP_PATTR_AS_PATH =
      Some (Pattr 0x40 2 (d_as_path [Segment 2 [64512]; Segment 2 [70000; 65001]] true)).
Proof.
  destruct (update_restore_as_path_exact narrow_example _ _ (proj2 as4_examples_coherent) eq_refl
    (proj1 narrow_path_ok) eq_refl (proj2 narrow_path_ok)) as (msg' & Hr & Hf & _).
  by exists msg'.
Defined.

Lemma update_downgrade_restore_roundtrip_witness :
  ∃ msg1 msg2 p2, libbgp_update_downgrade_as_path wide_example [] = (Ret msg1, []) ∧
    libbgp_update_restore_as_path msg1 [] = (Ret msg2, []) ∧
    libbgp_update_find_attr msg2 LIBBGP_PATTR_AS_PATH = Some p2 ∧
    path_units (as_path_segments p2) = [inl 64512; inl 70000; inl 65001; inr [65002; 80000]].
Proof.
  destruct (update_downgrade_restore_roundtrip wide_example _ (proj1 as4_examples_coherent) eq_refl
    wide_path_ok eq_refl) as (msg1 & p1 & msg2 & p2 & H1 & _ & _ & _ & H2 & H3 & _ & H4 & _).
  by exists msg1, msg2, p2.
Defined.

Lemma update_prepend_asn_restores_witness :
  ∃ msg1 msg2 p2, libbgp_update_prepend_asn narrow_example 90000 false [] = (Ret msg1, []) ∧
    libbgp_update_restore_as_path msg1 [] = (Ret msg2, []) ∧
    libbgp_update_find_attr msg2 LIBBGP_PATTR_AS_PATH = Some p2 ∧
    path_asns (as_path_segments p2) = [90000; 64512; 70000; 65001].
Proof.
  destruct (update_prepend_asn_restores narrow_example 90000 [Segment 2 [64512; 23456; 65001]]
    (proj2 as4_examples_coherent)) as (msg1 & p1 & msg2 & p2 & H1 & _ & _ & _ & _ & H2 & H3 & H4).
  - split; [|vm_compute; done]. split; [apply narrow_path_ok|done].
  - split; [apply narrow_path_ok|vm_compute; done].
  - split_and!; [cbn; lia|done..].
  - by exists msg1, msg2, p2.
Defined.

Lemma update_prepend_asn_4b_witness :
  ∃ msg' p, libbgp_update_prepend_asn wide_example 90000 true [] = (Ret msg', []) ∧
    libbgp_update_find_attr msg' LIBBGP_PATTR_AS_PATH = Some p ∧
    path_units (as_path_segments p) =
      [inl 90000; inl 64512; inl 70000; inl 65001; inr [65002; 80000]].
Proof.
  destruct (update_prepend_asn_4b wide_example 90000
    [Segment 2 [64512; 70000; 65001]; Segment 1 [65002; 80000]] (proj1 as4_examples_coherent))
    as (msg' & p & H1 & H2 & _ & _ & H3 & _).
  - split; [|vm_compute; done]. split; [apply wide_path_ok|done].
  - by exists msg', p.
Defined.

Lemma update_aggregator_roundtrip_witness :
  ∃ msg1 msg2 a2, libbgp_update_downgrade_aggregator wide_example [] = (Ret msg1, []) ∧
    libbgp_update_restore_aggregator msg1 [] = (Ret msg2, []) ∧
    libbgp_update_find_attr msg2 LIBBGP_PATTR_AGGREGATOR = Some a2 ∧
    pa_data a2 = d_aggregator 70000 167772161 true.
Proof.
  destruct (update_aggregator_roundtrip wide_example _ 70000 167772161 true
    (proj1 as4_examples_coherent) eq_refl eq_refl (or_introl eq_refl))
    as (msg1 & a1 & msg2 & a2 & H1 & _ & _ & H2 & H3 & H4 & _).
  by exists msg1, msg2, a2.
Defined.
