(* ===== verification/PattrHeap.v ===== *)
(** * Path attributes in memory (src/pattr.c, src/update.c)

    [Pattr] describes attributes as values.  Here they are objects in memory:
    reference counts, arrays behind pointers, and the two layouts of an
    AS_PATH.  A path that was parsed lives in one block, segments and AS
    numbers behind a header that is linked into a list of all such blocks; a
    path that was copied is an array of segments with an array of AS numbers
    each.  Which of the two a pointer means is found out by searching the list.

    Memory is a finite map from the addresses the allocator returned to what
    is there.  Whatever C leaves undefined, such as freeing or reading an
    address that is not allocated, is [None].  The lock around the list makes
    each search and each change of it one step. *)

From stdpp Require Import gmap.
From S2P Require Import Prelude Bytes Pattr Update.

(** ** Memory *)

(** [libbgp_as_path_segment_t] of the layout in pieces. *)
Record c_seg : Type := CSeg { sg_type : Z; sg_count : Z; sg_asns : Z }.

(** [libbgp_pattr_t]: the pointer and the count of the member of the union
    that the type selects; the scalars own nothing and are left out. *)
Record attr_obj : Type := AttrObj {
  ao_refcount : Z;
  ao_type : libbgp_pattr_type_t;
  ao_data : Z;
  ao_count : Z;
  ao_is_4b : bool
}.

Inductive obj : Type :=
  | o_attr (attr : attr_obj)
  | o_block (prev next segments : Z) (segs : list libbgp_as_path_segment_t)
  | o_segs (segs : list c_seg)
  | o_words (words : list Z).

Record cell : Type := Cell { c_size : Z; c_obj : obj }.

(** The heap, [pattr_as_path_blocks], and what the allocator will answer. *)
Record mem : Type := Mem { m_heap : gmap Z cell; m_blocks : Z; m_answers : list Z }.

Definition HM (A : Type) : Type := mem -> option (A * mem).

#[export] Instance HM_ret : MRet HM := λ A a m, Some (a, m).
#[export] Instance HM_bind : MBind HM := λ A B k p m,
  match p m with Some (a, m') => k a m' | None => None end.

Definition undefined {A} : HM A := λ _, None.
Definition on_heap (f : gmap Z cell -> gmap Z cell) : HM unit := λ m,
  Some (tt, Mem (f (m_heap m)) (m_blocks m) (m_answers m)).

Definition load (p : Z) : HM obj := λ m,
  match m_heap m !! p with Some c => Some (c_obj c, m) | None => None end.

Definition put (p : Z) (o : obj) : HM unit := λ m,
  match m_heap m !! p with
  | Some c => on_heap <[p := Cell (c_size c) o]> m
  | None => None
  end.

(** The range overlaps nothing that is allocated. *)
Definition free_range (h : gmap Z cell) (p size : Z) : bool :=
  (0 <? p) && bool_decide (map_Forall (λ q c, q + c_size c <= p ∨ p + size <= q) h).

(** The allocator answers an address, or NULL; an answer that would overlap
    counts as NULL. *)
Definition bgp_malloc (size : Z) (o : obj) : HM Z := λ m,
  match m_answers m with
  | [] => Some (0, m)
  | p :: rest =>
      if free_range (m_heap m) p size
      then Some (p, Mem (<[p := Cell size o]> (m_heap m)) (m_blocks m) rest)
      else Some (0, Mem (m_heap m) (m_blocks m) rest)
  end.

Definition bgp_free (p : Z) : HM unit :=
  if p =? 0 then mret tt
  else λ m, match m_heap m !! p with Some _ => on_heap (delete p) m | None => None end.

(** The array moves, or stays, with the new contents; on NULL it is as it was. *)
Definition bgp_realloc (p size : Z) (o : obj) : HM Z :=
  if p =? 0 then bgp_malloc size o
  else λ m,
    match m_heap m !! p, m_answers m with
    | None, _ => None
    | Some _, [] => Some (0, m)
    | Some _, q :: rest =>
        if free_range (delete p (m_heap m)) q size
        then Some (q, Mem (<[q := Cell size o]> (delete p (m_heap m))) (m_blocks m) rest)
        else Some (0, Mem (m_heap m) (m_blocks m) rest)
    end.

(** ** The list of blocks *)

Definition load_block (b : Z) : HM (Z * Z * Z * list libbgp_as_path_segment_t) :=
  o ← load b;
  match o with
  | o_block prev next segments segs => mret (prev, next, segments, segs)
  | _ => undefined
  end.

Definition set_prev (b prev : Z) : HM unit :=
  '(_, next, segments, segs) ← load_block b; put b (o_block prev next segments segs).

Definition set_next (b next : Z) : HM unit :=
  '(prev, _, segments, segs) ← load_block b; put b (o_block prev next segments segs).

Definition set_segments (b segments : Z) : HM unit :=
  '(prev, next, _, segs) ← load_block b; put b (o_block prev next segments segs).

Definition get_blocks : HM Z := λ m, Some (m_blocks m, m).
Definition set_blocks (b : Z) : HM unit := λ m, Some (tt, Mem (m_heap m) b (m_answers m)).

Definition pattr_as_path_block_register (block segments : Z) : HM unit :=
  set_segments block segments;;
  head ← get_blocks;
  set_prev block 0;;
  set_next block head;;
  (if head =? 0 then mret tt else set_prev head block);;
  set_blocks block.

Definition unlink_block (block : Z) : HM unit :=
  '(prev, next, _, _) ← load_block block;
  (if prev =? 0 then set_blocks next else set_next prev next);;
  (if next =? 0 then mret tt else set_prev next prev);;
  set_prev block 0;;
  set_next block 0.

(** The search; one unit of fuel per block. *)
Fixpoint take_loop (fuel : nat) (segments block : Z) : HM Z :=
  match fuel with
  | O => undefined
  | S fuel =>
      if block =? 0 then mret 0
      else
        '(_, next, block_segments, _) ← load_block block;
        if block_segments =? segments then unlink_block block;; mret block
        else take_loop fuel segments next
  end.

Definition pattr_as_path_block_take (segments : Z) : HM Z := λ m,
  take_loop (S (size (m_heap m))) segments (m_blocks m) m.

(** ** Freeing *)

Fixpoint free_all (ps : list Z) : HM unit :=
  match ps with
  | [] => mret tt
  | p :: ps => bgp_free p;; free_all ps
  end.

Definition bgp_as_path_segments_free (segments segment_count : Z) : HM unit :=
  if segments =? 0 then mret tt
  else
    block ← pattr_as_path_block_take segments;
    if negb (block =? 0) then bgp_free block
    else
      o ← load segments;
      match o with
      | o_segs segs =>
          if segment_count <=? zlen segs
          then free_all (sg_asns <$> take (Z.to_nat segment_count) segs);; bgp_free segments
          else undefined
      | _ => undefined
      end.

(** [pattr_free_data] on the members of the object; the caller clears them. *)
Definition pattr_free_data (attr : attr_obj) : HM unit :=
  match ao_type attr with
  | LIBBGP_PATTR_AS_PATH | LIBBGP_PATTR_AS4_PATH => bgp_as_path_segments_free (ao_data attr) (ao_count attr)
  | LIBBGP_PATTR_COMMUNITY | LIBBGP_PATTR_MP_REACH_IPV6 | LIBBGP_PATTR_MP_UNREACH_IPV6
  | LIBBGP_PATTR_UNKNOWN => bgp_free (ao_data attr)
  | _ => mret tt
  end.

Definition load_attr (a : Z) : HM attr_obj :=
  o ← load a;
  match o with o_attr attr => mret attr | _ => undefined end.

Definition cleared (attr : attr_obj) : attr_obj := AttrObj (ao_refcount attr) (ao_type attr) 0 0 false.

Definition with_refcount (attr : attr_obj) (n : Z) : attr_obj :=
  AttrObj n (ao_type attr) (ao_data attr) (ao_count attr) (ao_is_4b attr).

(** ** Reference counts *)

(** The size of [libbgp_pattr_t]. *)
Definition SIZEOF_PATTR : Z := 72.

Definition mem_pattr_new (type : libbgp_pattr_type_t) : HM Z :=
  bgp_malloc SIZEOF_PATTR (o_attr (AttrObj 1 type 0 0 (bool_decide (type = LIBBGP_PATTR_AS4_PATH)))).

Definition libbgp_pattr_ref (a : Z) : HM Z :=
  if a =? 0 then mret 0
  else
    attr ← load_attr a;
    (if ao_refcount attr <? UINT32_MAX then put a (o_attr (with_refcount attr (ao_refcount attr + 1))) else mret tt);;
    mret a.

Definition libbgp_pattr_unref (a : Z) : HM unit :=
  if a =? 0 then mret tt
  else
    attr ← load_attr a;
    if ao_refcount attr =? 0 then mret tt
    else
      let attr := with_refcount attr (ao_refcount attr - 1) in
      put a (o_attr attr);;
      if negb (ao_refcount attr =? 0) then mret tt
      else
        pattr_free_data attr;;
        put a (o_attr (cleared attr));;
        bgp_free a.

(** ** Parsing

    What [libbgp_pattr_parse_as4] allocates for a value that was read: the
    block of a path, the array of communities or of bytes of an unknown type. *)

Definition asn_total (segs : list libbgp_as_path_segment_t) : Z := zlen (concat (seg_asns <$> segs)).

Definition parse_as_path_block (segs : list libbgp_as_path_segment_t) : HM (Z + libbgp_err_t) :=
  if zlen segs =? 0 then mret (inl 0)
  else
    match pattr_as_path_block_layout (zlen segs) (asn_total segs) with
    | None => mret (inr LIBBGP_ERR_BAD_LEN)
    | Some (segments_offset, _, block_size) =>
        block ← bgp_malloc block_size (o_block 0 0 0 segs);
        if block =? 0 then mret (inr LIBBGP_ERR_NOMEM)
        else
          pattr_as_path_block_register block (block + segments_offset);;
          mret (inl (block + segments_offset))
    end.

Definition parse_array (words : list Z) (elem_size : Z) : HM (Z + libbgp_err_t) :=
  if zlen words =? 0 then mret (inl 0)
  else
    p ← bgp_malloc (zlen words * elem_size) (o_words words);
    if p =? 0 then mret (inr LIBBGP_ERR_NOMEM) else mret (inl p).

(** The value that was read, by the member it is stored in. *)
Inductive wire_value : Type :=
  | v_as_path (type : libbgp_pattr_type_t) (is_4b : bool) (segs : list libbgp_as_path_segment_t)
  | v_community (values : list Z)
  | v_unknown (value : list Z)
  | v_scalar (type : libbgp_pattr_type_t).

(** The members of [tmp]. *)
Definition parse_tmp (value : wire_value) : HM (attr_obj + libbgp_err_t) :=
  let store type count is_4b (r : Z + libbgp_err_t) :=
    match r with inl p => inl (AttrObj 0 type p count is_4b) | inr e => inr e end in
  match value with
  | v_as_path type is_4b segs => r ← parse_as_path_block segs; mret (store type (zlen segs) is_4b r)
  | v_community values => r ← parse_array values 4; mret (store LIBBGP_PATTR_COMMUNITY (zlen values) false r)
  | v_unknown bytes => r ← parse_array bytes 1; mret (store LIBBGP_PATTR_UNKNOWN (zlen bytes) false r)
  | v_scalar type => mret (inl (AttrObj 0 type 0 0 false))
  end.

(** The end of [libbgp_pattr_parse_as4]: the object gives up what it had. *)
Definition mem_pattr_parse (a : Z) (value : wire_value) : HM libbgp_err_t :=
  r ← parse_tmp value;
  match r with
  | inr e => mret e
  | inl tmp =>
      attr ← load_attr a;
      pattr_free_data attr;;
      put a (o_attr (with_refcount tmp (ao_refcount attr)));;
      mret LIBBGP_OK
  end.

(** ** Copying and prepending *)

Definition read_seg (seg : c_seg) : HM libbgp_as_path_segment_t :=
  if sg_count seg =? 0 then mret (Segment (sg_type seg) [])
  else
    o ← load (sg_asns seg);
    match o with
    | o_words words => if zlen words =? sg_count seg then mret (Segment (sg_type seg) words) else undefined
    | _ => undefined
    end.

Fixpoint read_segs (segs : list c_seg) : HM (list libbgp_as_path_segment_t) :=
  match segs with
  | [] => mret []
  | seg :: segs => x ← read_seg seg; xs ← read_segs segs; mret (x :: xs)
  end.

(** The segments behind a pointer: an array of its own, or the inside of a
    block. *)
Definition read_path (attr : attr_obj) : HM (list libbgp_as_path_segment_t) := λ m,
  if ao_data attr =? 0 then Some ([], m)
  else
    match m_heap m !! ao_data attr with
    | Some (Cell _ (o_segs segs)) => if zlen segs =? ao_count attr then read_segs segs m else None
    | _ =>
        match load_block (ao_data attr - SIZEOF_BLOCK) m with
        | Some ((_, _, segments, segs), _) =>
            if (segments =? ao_data attr) && (zlen segs =? ao_count attr) then Some (segs, m) else None
        | None => None
        end
    end.

(** [update_validate_as_path_data(src, false, NULL)] *)
Definition path_defect (attr : attr_obj) (segs : list libbgp_as_path_segment_t) : option libbgp_err_t :=
  if negb (ao_count attr =? 0) && (ao_data attr =? 0) then Some LIBBGP_ERR_BAD_LEN
  else
    let data :=
      match ao_type attr with
      | LIBBGP_PATTR_AS_PATH => d_as_path segs (ao_is_4b attr)
      | LIBBGP_PATTR_AS4_PATH => d_as4_path segs (ao_is_4b attr)
      | _ => d_atomic_aggregate
      end in
    match update_validate_as_path_data (Pattr 0 0 data) false [] with
    | (Err e, _) => Some e
    | _ => None
    end.

(** The loop over the segments of the source; [dst_segs] is the array, the
    first [i] segments of it are written. *)
Fixpoint copy_loop (dst_segs : Z) (i : nat) (src : list libbgp_as_path_segment_t) : HM (option libbgp_err_t) :=
  match src with
  | [] => mret None
  | seg :: src =>
      let count := zlen (seg_asns seg) in
      o ← load dst_segs;
      match o with
      | o_segs segs =>
          put dst_segs (o_segs (<[i := CSeg (seg_type seg) count 0]> segs));;
          if count =? 0 then copy_loop dst_segs (S i) src
          else if SIZE_MAX / SIZEOF_ASN <? count then mret (Some LIBBGP_ERR_BAD_LEN)
          else
            asns ← bgp_malloc (count * SIZEOF_ASN) (o_words (seg_asns seg));
            if asns =? 0 then mret (Some LIBBGP_ERR_NOMEM)
            else
              put dst_segs (o_segs (<[i := CSeg (seg_type seg) count asns]> segs));;
              copy_loop dst_segs (S i) src
      | _ => undefined
      end
  end.

Definition set_path (a data count : Z) (is_4b : bool) : HM unit :=
  attr ← load_attr a;
  put a (o_attr (AttrObj (ao_refcount attr) (ao_type attr) data count is_4b)).

Definition is_path (type : libbgp_pattr_type_t) : bool :=
  match type with LIBBGP_PATTR_AS_PATH | LIBBGP_PATTR_AS4_PATH => true | _ => false end.

Definition mem_copy_as_path_data (dst src : Z) (is_4b : bool) : HM libbgp_err_t :=
  d ← load_attr dst;
  if negb (is_path (ao_type d)) then mret LIBBGP_ERR_BAD_LEN
  else
    s ← load_attr src;
    if negb (is_path (ao_type s)) then mret LIBBGP_ERR_BAD_LEN
    else
      segs ← read_path s;
      match path_defect s segs with
      | Some e => mret e
      | None =>
          let count := ao_count s in
          set_path dst (ao_data d) count is_4b;;
          if count =? 0 then mret LIBBGP_OK
          else if SIZE_MAX / SIZEOF_SEGMENT <? count then mret LIBBGP_ERR_BAD_LEN
          else
            p ← bgp_malloc (count * SIZEOF_SEGMENT) (o_segs (replicate (Z.to_nat count) (CSeg 0 0 0)));
            set_path dst p count is_4b;;
            if p =? 0 then mret LIBBGP_ERR_NOMEM
            else
              r ← copy_loop p 0 segs;
              match r with
              | None => mret LIBBGP_OK
              | Some e =>
                  bgp_as_path_segments_free p count;;
                  set_path dst 0 0 is_4b;;
                  mret e
              end
      end.

Definition mem_clone_path_as_type (type : libbgp_pattr_type_t) (src : Z) (is_4b : bool) : HM (Z + libbgp_err_t) :=
  clone ← mem_pattr_new type;
  if clone =? 0 then mret (inr LIBBGP_ERR_NOMEM)
  else
    e ← mem_copy_as_path_data clone src is_4b;
    if decide (e = LIBBGP_OK) then mret (inl clone)
    else libbgp_pattr_unref clone;; mret (inr e).

(** A new segment in front. *)
Definition prepend_segment (a asn : Z) (attr : attr_obj) (segs : list c_seg) : HM libbgp_err_t :=
  if SIZE_MAX / SIZEOF_SEGMENT - 1 <? ao_count attr then mret LIBBGP_ERR_BAD_LEN
  else
    asns ← bgp_malloc SIZEOF_ASN (o_words [asn]);
    if asns =? 0 then mret LIBBGP_ERR_NOMEM
    else
      next ← bgp_realloc (ao_data attr) ((ao_count attr + 1) * SIZEOF_SEGMENT) (o_segs (CSeg 2 1 asns :: segs));
      if next =? 0 then bgp_free asns;; mret LIBBGP_ERR_NOMEM
      else
        set_path a next (ao_count attr + 1) (ao_is_4b attr);;
        mret LIBBGP_OK.

(** An AS number in front of the first segment. *)
Definition prepend_asn (a asn : Z) (attr : attr_obj) (seg : c_seg) (segs : list c_seg) : HM libbgp_err_t :=
  if negb (sg_count seg =? 0) && (sg_asns seg =? 0) then mret LIBBGP_ERR_BAD_LEN
  else if SIZE_MAX / SIZEOF_ASN - 1 <? sg_count seg then mret LIBBGP_ERR_BAD_LEN
  else
    old ← read_seg seg;
    next ← bgp_realloc (sg_asns seg) ((sg_count seg + 1) * SIZEOF_ASN) (o_words (asn :: seg_asns old));
    if next =? 0 then mret LIBBGP_ERR_NOMEM
    else
      put (ao_data attr) (o_segs (CSeg (sg_type seg) (sg_count seg + 1) next :: segs));;
      mret LIBBGP_OK.

(** On a path in a block either array would be reallocated in the middle of
    the block, which is undefined. *)
Definition mem_prepend_to_path (a asn : Z) : HM libbgp_err_t :=
  attr ← load_attr a;
  if negb (is_path (ao_type attr)) then mret LIBBGP_ERR_BAD_LEN
  else if negb (ao_count attr =? 0) && (ao_data attr =? 0) then mret LIBBGP_ERR_BAD_LEN
  else if ao_count attr =? 0 then prepend_segment a asn attr []
  else
    o ← load (ao_data attr);
    match o with
    | o_segs (seg :: segs) =>
        if (sg_type seg =? 2) && (sg_count seg <? 255) then prepend_asn a asn attr seg segs
        else prepend_segment a asn attr (seg :: segs)
    | _ => undefined
    end.
