(* ===== verification/PattrHeapList.v ===== *)
(** * The list of AS_PATH blocks

    The doubly linked list of [PattrHeap] as a list of addresses, and what the
    operations on memory do to the heap when the links are left out of it;
    which cells of memory belong to an attribute, for each layout, and what
    freeing its data does. *)

From stdpp Require Import gmap.
From S2P Require Import Prelude Bytes Pattr Update PattrHeap.

Implicit Types (m : mem) (h H : gmap Z cell) (l : list Z) (o : obj) (b p q : Z).

Definition with_cells m h : mem := Mem h (m_blocks m) (m_answers m).

(** ** Running *)

Lemma hbind {A B} (x : HM A) (k : A -> HM B) m a m' : x m = Some (a, m') → (x ≫= k) m = k a m'.
Proof. intros Hx. unfold mbind, HM_bind. by rewrite Hx. Qed.

Lemma load_run m p c : m_heap m !! p = Some c → load p m = Some (c_obj c, m).
Proof. intros Hp. unfold load. by rewrite Hp. Qed.

Lemma put_run m p c o : m_heap m !! p = Some c → put p o m = Some (tt, with_cells m (<[p := Cell (c_size c) o]> (m_heap m))).
Proof. intros Hp. unfold put. by rewrite Hp. Qed.

Definition is_block h b prev next : Prop := ∃ sz s segs, h !! b = Some (Cell sz (o_block prev next s segs)).

Lemma load_block_run m b sz prev next s segs :
  m_heap m !! b = Some (Cell sz (o_block prev next s segs)) → load_block b m = Some ((prev, next, s, segs), m).
Proof. intros Hb. unfold load_block. by rewrite (hbind _ _ _ _ _ (load_run _ _ _ Hb)). Qed.

Lemma set_prev_run m b sz prev next s segs prev' :
  m_heap m !! b = Some (Cell sz (o_block prev next s segs)) →
  set_prev b prev' m = Some (tt, with_cells m (<[b := Cell sz (o_block prev' next s segs)]> (m_heap m))).
Proof. intros Hb. unfold set_prev. rewrite (hbind _ _ _ _ _ (load_block_run _ _ _ _ _ _ _ Hb)). by rewrite (put_run _ _ _ _ Hb). Qed.

Lemma set_next_run m b sz prev next s segs next' :
  m_heap m !! b = Some (Cell sz (o_block prev next s segs)) →
  set_next b next' m = Some (tt, with_cells m (<[b := Cell sz (o_block prev next' s segs)]> (m_heap m))).
Proof. intros Hb. unfold set_next. rewrite (hbind _ _ _ _ _ (load_block_run _ _ _ _ _ _ _ Hb)). by rewrite (put_run _ _ _ _ Hb). Qed.

Lemma get_blocks_run m : get_blocks m = Some (m_blocks m, m).
Proof. done. Qed.

(** ** List segments *)

(** From [b], whose predecessor is [prev], to just before [e]. *)
Fixpoint dlseg h (prev : Z) l b (e : Z) : Prop :=
  match l with
  | [] => b = e
  | x :: l => b = x ∧ ∃ sz next s segs, h !! x = Some (Cell sz (o_block prev next s segs)) ∧ dlseg h x l next e
  end.

Definition last_or (prev : Z) l : Z := default prev (last l).

Lemma last_or_cons prev x l : last_or prev (x :: l) = last_or x l.
Proof. unfold last_or. rewrite last_cons. by destruct (last l). Qed.

Lemma dlseg_app h prev l1 l2 b e :
  dlseg h prev (l1 ++ l2) b e ↔ ∃ mid, dlseg h prev l1 b mid ∧ dlseg h (last_or prev l1) l2 mid e.
Proof.
  revert prev b. induction l1 as [|x l1 IH]; intros prev b; cbn [app dlseg].
  - unfold last_or. split; [intros Hd; by exists b|]. by intros (mid & -> & Hd).
  - rewrite last_or_cons. split.
    + intros (-> & sz & next & s & segs & Hx & Hd). apply IH in Hd as (mid & H1 & H2). exists mid. eauto 10.
    + intros (mid & (-> & sz & next & s & segs & Hx & Hd) & H2). split; [done|]. exists sz, next, s, segs. split; [done|].
      apply IH. eauto.
Qed.

Lemma dlseg_frame h h' prev l b e : (∀ x, x ∈ l → h' !! x = h !! x) → dlseg h prev l b e → dlseg h' prev l b e.
Proof.
  revert prev b. induction l as [|x l IH]; intros prev b Hf Hd; [done|]. cbn [dlseg] in *.
  destruct Hd as (-> & sz & next & s & segs & Hx & Hd). split; [done|]. exists sz, next, s, segs.
  rewrite Hf by set_solver. split; [done|]. apply IH; set_solver.
Qed.

Lemma dlseg_insert_other h prev l b e p c : p ∉ l → dlseg h prev l b e → dlseg (<[p := c]> h) prev l b e.
Proof. intros Hp. apply dlseg_frame. intros x Hx. apply lookup_insert_ne. by intros ->. Qed.

(** Another predecessor for the first block, another successor for the last. *)
Lemma dlseg_first_prev h prev prev' x l b e sz p0 next s segs :
  x ∉ l → dlseg h prev (x :: l) b e → h !! x = Some (Cell sz (o_block p0 next s segs)) →
  dlseg (<[x := Cell sz (o_block prev' next s segs)]> h) prev' (x :: l) b e.
Proof.
  intros Hx (-> & ? & ? & ? & ? & Hb & Hd) Hl. rewrite Hl in Hb. simplify_eq. split; [done|].
  eexists _, _, _, _. rewrite lookup_insert_eq. split; [done|]. by apply dlseg_insert_other.
Qed.

Lemma dlseg_last_next h prev l x b e e' sz p0 next s segs :
  NoDup (l ++ [x]) → dlseg h prev (l ++ [x]) b e → h !! x = Some (Cell sz (o_block p0 next s segs)) →
  dlseg (<[x := Cell sz (o_block p0 e' s segs)]> h) prev (l ++ [x]) b e'.
Proof.
  intros Hnd Hd Hx. apply dlseg_app in Hd as (mid & H1 & (-> & ? & ? & ? & ? & Hb & Hd)). rewrite Hx in Hb. simplify_eq.
  apply dlseg_app. exists x. split.
  - apply dlseg_insert_other; [|done]. apply NoDup_app in Hnd as (_ & Hnd & _). set_solver.
  - split; [done|]. eexists _, _, _, _. by rewrite lookup_insert_eq.
Qed.

Lemma dlseg_head h prev l b e : dlseg h prev l b e → b = default e (head l).
Proof. destruct l; [done|]. by intros [-> _]. Qed.

Lemma dlseg_lookup h prev l b e x : dlseg h prev l b e → x ∈ l → ∃ p0 next, is_block h x p0 next.
Proof.
  revert prev b. induction l as [|y l IH]; intros prev b Hd Hx; [by apply elem_of_nil in Hx|].
  destruct Hd as (-> & sz & next & s & segs & Hy & Hd). apply elem_of_cons in Hx as [->|Hx]; [|by eapply IH].
  exists prev, next. unfold is_block. eauto.
Qed.

Lemma last_or_last prev l x : last_or prev (l ++ [x]) = x.
Proof. unfold last_or. by rewrite last_snoc. Qed.

(** ** Memory without the links *)

Definition erase_obj o : obj :=
  match o with o_block _ _ s segs => o_block 0 0 s segs | _ => o end.
Definition erase (c : cell) : cell := Cell (c_size c) (erase_obj (c_obj c)).

Record good m H l : Prop := {
  g_heap : erase <$> m_heap m = H;
  g_list : dlseg (m_heap m) 0 l (m_blocks m) 0;
  g_nodup : NoDup l;
  g_reg : ∀ b, b ∈ l → ∃ sz segs, H !! b = Some (Cell sz (o_block 0 0 (b + SIZEOF_BLOCK) segs)) ∧ SIZEOF_BLOCK < sz;
  g_pos : ∀ p c, H !! p = Some c → 0 < p ∧ 0 < c_size c;
  g_spread : ∀ p q c d, p ≠ q → H !! p = Some c → H !! q = Some d → p + c_size c <= q ∨ q + c_size d <= p
}.

Lemma good_lookup m H l p c : good m H l → H !! p = Some c → ∃ c', m_heap m !! p = Some c' ∧ c = erase c'.
Proof. intros Hg Hp. rewrite <-(g_heap _ _ _ Hg), lookup_fmap in Hp. apply fmap_Some in Hp as (c' & Hc & ->). eauto. Qed.

(** A cell that is no block is seen as it is. *)
Lemma good_plain m H l p sz o :
  good m H l → H !! p = Some (Cell sz o) → (∀ s segs, o ≠ o_block 0 0 s segs) → m_heap m !! p = Some (Cell sz o).
Proof.
  intros Hg Hp Ho. destruct (good_lookup _ _ _ _ _ Hg Hp) as ([sz' o'] & Hc & He). unfold erase in He. cbn in He. simplify_eq.
  destruct o'; cbn in *; [done| |done|done]. by destruct (Ho segments segs).
Qed.

(** Changes that keep the erased heap. *)
Lemma erase_insert_same h p c c' : h !! p = Some c → erase c' = erase c → erase <$> <[p := c']> h = erase <$> h.
Proof.
  intros Hp He. rewrite fmap_insert, He. apply insert_id. by rewrite lookup_fmap, Hp.
Qed.

Lemma registered_live m H l b : good m H l → b ∈ l → ∃ sz p0 next segs, m_heap m !! b = Some (Cell sz (o_block p0 next (b + SIZEOF_BLOCK) segs)).
Proof.
  intros Hg Hb. destruct (g_reg _ _ _ Hg b Hb) as (sz & segs & HH & _).
  destruct (good_lookup _ _ _ _ _ Hg HH) as ([sz' o'] & Hc & He). unfold erase in He. cbn in He. destruct o'; cbn in He; simplify_eq. eauto.
Qed.

Lemma registered_pos m H l b : good m H l → b ∈ l → 0 < b.
Proof. intros Hg Hb. destruct (g_reg _ _ _ Hg b Hb) as (sz & segs & HH & _). by apply (g_pos _ _ _ Hg) in HH as [? _]. Qed.

(** The links change, nothing else. *)
Lemma good_relink m H l h' b' l' ans :
  good m H l → erase <$> h' = H → dlseg h' 0 l' b' 0 → NoDup l' → (∀ x, x ∈ l' → x ∈ l) → good (Mem h' b' ans) H l'.
Proof. intros [? ? ? Hr ? ?] He Hd Hnd Hin. constructor; auto. Qed.

(** ** Allocating and freeing *)

Definition plain o : Prop := erase_obj o = o.

Lemma free_range_spec h p sz :
  free_range h p sz = true → 0 < p ∧ ∀ q c, h !! q = Some c → q + c_size c <= p ∨ p + sz <= q.
Proof.
  unfold free_range. intros [Hp Hf]%andb_prop. apply bool_decide_eq_true in Hf. split; [lia|]. intros q c Hq. by apply (Hf q c).
Qed.

(** A fresh cell. *)
Lemma good_fresh m H l p sz o ans :
  good m H l → plain o → 0 < sz → 0 < p →
  (∀ q c, H !! q = Some c → q + c_size c <= p ∨ p + sz <= q) →
  H !! p = None ∧ good (Mem (<[p := Cell sz o]> (m_heap m)) (m_blocks m) ans) (<[p := Cell sz o]> H) l.
Proof.
  intros Hg Ho Hsz Hp Hf.
  assert (Hn : H !! p = None).
  { destruct (H !! p) as [c|] eqn:Hc; [|done]. pose proof (g_pos _ _ _ Hg _ _ Hc). destruct (Hf _ _ Hc); lia. }
  assert (Hl : ∀ b, b ∈ l → b ≠ p).
  { intros b Hb ->. destruct (g_reg _ _ _ Hg p Hb) as (? & ? & HH & _). congruence. }
  split; [done|]. destruct Hg as [Hh Hd Hnd Hr Hpos Hsp]. constructor; cbn [m_heap m_blocks]; [| |done|..].
  - rewrite fmap_insert, Hh. unfold erase. cbn [c_size c_obj]. by rewrite Ho.
  - apply dlseg_insert_other; [|done]. intros Hb. by apply (Hl p).
  - intros b Hb. rewrite lookup_insert_ne by (intros ->; by apply (Hl b)). auto.
  - intros q c Hq. apply lookup_insert_Some in Hq as [[<- <-]|[_ Hq]]; [done|eauto].
  - intros q r c d Hne Hq Hr'. apply lookup_insert_Some in Hq as [[<- <-]|[_ Hq]]; apply lookup_insert_Some in Hr' as [[<- <-]|[_ Hr']]; cbn [c_size]; [done| | |eauto].
    + destruct (Hf _ _ Hr'); lia.
    + destruct (Hf _ _ Hq); lia.
Qed.

Lemma good_answers m H l ans : good m H l → good (Mem (m_heap m) (m_blocks m) ans) H l.
Proof. by intros [? ? ? ? ? ?]; constructor. Qed.

Lemma erased_ranges m H l (P : Z -> Z -> Prop) :
  good m H l → (∀ q c, m_heap m !! q = Some c → P q (c_size c)) → ∀ q c, H !! q = Some c → P q (c_size c).
Proof. intros Hg HP q c Hq. destruct (good_lookup _ _ _ _ _ Hg Hq) as (c' & Hc & ->). exact (HP q c' Hc). Qed.

Lemma malloc_ok m H l sz o :
  good m H l → plain o → 0 < sz →
  ∃ p m', bgp_malloc sz o m = Some (p, m') ∧
    (p = 0 ∧ good m' H l ∨ 0 < p ∧ H !! p = None ∧ good m' (<[p := Cell sz o]> H) l).
Proof.
  intros Hg Ho Hsz. unfold bgp_malloc. destruct (m_answers m) as [|p rest]; [eexists _, _; split; [done|]; by left|].
  destruct (free_range (m_heap m) p sz) eqn:Hf.
  - apply free_range_spec in Hf as [Hp Hf]. eexists _, _. split; [done|]. right. split; [done|].
    apply good_fresh; try done. exact (erased_ranges _ _ _ (λ q s, q + s <= p ∨ p + sz <= q) Hg Hf).
  - eexists _, _. split; [done|]. left. split; [done|]. by apply good_answers.
Qed.

(** Removing a cell that is not in the list. *)
Lemma good_delete m H l p ans : good m H l → p ∉ l → good (Mem (delete p (m_heap m)) (m_blocks m) ans) (delete p H) l.
Proof.
  intros [Hh Hd Hnd Hr Hpos Hsp] Hp. constructor; cbn [m_heap m_blocks]; [| |done|..].
  - by rewrite fmap_delete, Hh.
  - eapply dlseg_frame; [|exact Hd]. intros x Hx. apply lookup_delete_ne. by intros ->.
  - intros b Hb. rewrite lookup_delete_ne by (by intros ->). auto.
  - intros q c Hq. apply lookup_delete_Some in Hq as [_ Hq]. eauto.
  - intros q r c d Hne Hq Hr'. apply lookup_delete_Some in Hq as [_ Hq]. apply lookup_delete_Some in Hr' as [_ Hr']. eauto.
Qed.

Lemma free_ok m H l p :
  good m H l → is_Some (H !! p) → p ∉ l → ∃ m', bgp_free p m = Some (tt, m') ∧ good m' (delete p H) l.
Proof.
  intros Hg [c Hp] Hl. destruct (good_lookup _ _ _ _ _ Hg Hp) as (c' & Hc & _). pose proof (g_pos _ _ _ Hg _ _ Hp).
  unfold bgp_free. replace (p =? 0) with false by lia. rewrite Hc. eexists. split; [done|]. by apply good_delete.
Qed.

Lemma free_null m : bgp_free 0 m = Some (tt, m).
Proof. done. Qed.

Lemma good_write m H l p sz o o' :
  good m H l → H !! p = Some (Cell sz o) → p ∉ l → plain o' →
  good (with_cells m (<[p := Cell sz o']> (m_heap m))) (<[p := Cell sz o']> H) l.
Proof.
  intros [Hh Hd Hnd Hr Hpos Hsp] Hp Hl Ho. constructor; cbn [with_cells m_heap m_blocks]; [| |done|..].
  - rewrite fmap_insert, Hh. unfold erase. cbn [c_size c_obj]. by rewrite Ho.
  - by apply dlseg_insert_other.
  - intros b Hb. rewrite lookup_insert_ne by (by intros ->). auto.
  - intros q c Hq. apply lookup_insert_Some in Hq as [[<- <-]|[_ Hq]]; [exact (Hpos _ _ Hp)|eauto].
  - intros q r c d Hne Hq Hr'. apply lookup_insert_Some in Hq as [[<- <-]|[Hn1 Hq]]; apply lookup_insert_Some in Hr' as [[<- <-]|[Hn2 Hr']]; cbn [c_size];
      [done|exact (Hsp _ _ _ _ Hne Hp Hr')|exact (Hsp _ _ _ _ Hne Hq Hp)|eauto].
Qed.

Lemma put_ok m H l p sz o o' :
  good m H l → H !! p = Some (Cell sz o) → p ∉ l → plain o' →
  ∃ m', put p o' m = Some (tt, m') ∧ good m' (<[p := Cell sz o']> H) l.
Proof.
  intros Hg Hp Hl Ho. destruct (good_lookup _ _ _ _ _ Hg Hp) as ([sz' c'] & Hc & He). unfold erase in He. cbn in He. simplify_eq.
  eexists. rewrite (put_run _ _ _ _ Hc). split; [done|]. by eapply good_write.
Qed.

Lemma load_ok m H l p sz o :
  good m H l → H !! p = Some (Cell sz o) → (∀ s segs, o ≠ o_block 0 0 s segs) → load p m = Some (o, m).
Proof. intros Hg Hp Ho. by rewrite (load_run _ _ _ (good_plain _ _ _ _ _ _ Hg Hp Ho)). Qed.

Lemma realloc_ok m H l p sz o sz0 o0 :
  good m H l → H !! p = Some (Cell sz0 o0) → p ∉ l → plain o → 0 < sz →
  ∃ q m', bgp_realloc p sz o m = Some (q, m') ∧
    (q = 0 ∧ good m' H l ∨ 0 < q ∧ delete p H !! q = None ∧ good m' (<[q := Cell sz o]> (delete p H)) l).
Proof.
  intros Hg Hp Hl Ho Hsz. pose proof (g_pos _ _ _ Hg _ _ Hp) as [Hpos _]. destruct (good_lookup _ _ _ _ _ Hg Hp) as (c' & Hc & _).
  unfold bgp_realloc. replace (p =? 0) with false by lia. rewrite Hc.
  destruct (m_answers m) as [|q rest]; [eexists _, _; split; [done|]; by left|].
  destruct (free_range (delete p (m_heap m)) q sz) eqn:Hf.
  - apply free_range_spec in Hf as [Hq Hf]. eexists _, _. split; [done|]. right. split; [done|].
    pose proof (good_delete _ _ _ p rest Hg Hl) as Hg'.
    apply (good_fresh _ _ _ q sz o rest Hg'); try done. exact (erased_ranges _ _ _ (λ r s, r + s <= q ∨ q + sz <= r) Hg' Hf).
  - eexists _, _. split; [done|]. left. split; [done|]. by apply good_answers.
Qed.

(** ** Registering a block *)

Lemma set_segments_run m b sz prev next s segs s' :
  m_heap m !! b = Some (Cell sz (o_block prev next s segs)) →
  set_segments b s' m = Some (tt, with_cells m (<[b := Cell sz (o_block prev next s' segs)]> (m_heap m))).
Proof. intros Hb. unfold set_segments. rewrite (hbind _ _ _ _ _ (load_block_run _ _ _ _ _ _ _ Hb)). by rewrite (put_run _ _ _ _ Hb). Qed.

Lemma good_head m H l : good m H l → m_blocks m = default 0 (head l).
Proof. intros Hg. exact (dlseg_head _ _ _ _ _ (g_list _ _ _ Hg)). Qed.

(** The erased heap after the field [segments] of an unlisted block was set. *)
Lemma good_segments m H l b sz p0 n0 s0 segs :
  good m H l → m_heap m !! b = Some (Cell sz (o_block p0 n0 s0 segs)) → b ∉ l →
  ∀ p1 n1 s1, good (with_cells m (<[b := Cell sz (o_block p1 n1 s1 segs)]> (m_heap m))) (<[b := Cell sz (o_block 0 0 s1 segs)]> H) l.
Proof.
  intros Hg Hb Hl p1 n1 s1. assert (HH : H !! b = Some (Cell sz (o_block 0 0 s0 segs))).
  { by rewrite <-(g_heap _ _ _ Hg), lookup_fmap, Hb. }
  pose proof (good_write _ _ _ _ _ _ (o_block 0 0 s1 segs) Hg HH Hl eq_refl) as Hg'.
  assert (Hlook : m_heap (with_cells m (<[b := Cell sz (o_block 0 0 s1 segs)]> (m_heap m))) !! b = Some (Cell sz (o_block 0 0 s1 segs)))
    by (cbn; by rewrite lookup_insert_eq).
  eapply (good_relink _ _ _ (<[b := Cell sz (o_block p1 n1 s1 segs)]> (m_heap m)) (m_blocks m) l) in Hg'; [exact Hg'| | | |done].
  - rewrite !fmap_insert, (g_heap _ _ _ Hg). done.
  - apply dlseg_insert_other; [done|]. apply (g_list _ _ _ Hg).
  - apply (g_nodup _ _ _ Hg).
Qed.

Lemma register_ok m H l b sz s0 segs :
  good m H l → H !! b = Some (Cell sz (o_block 0 0 s0 segs)) → b ∉ l → SIZEOF_BLOCK < sz →
  ∃ m', pattr_as_path_block_register b (b + SIZEOF_BLOCK) m = Some (tt, m') ∧
    good m' (<[b := Cell sz (o_block 0 0 (b + SIZEOF_BLOCK) segs)]> H) (b :: l).
Proof.
  intros Hg HH Hl Hsz.
  destruct (good_lookup _ _ _ _ _ Hg HH) as ([sz' o'] & Hb & He). unfold erase in He. cbn in He. destruct o' as [|p0 n0 s1 segs'| |]; cbn in He; simplify_eq.
  set (s := b + SIZEOF_BLOCK). pose proof (good_head _ _ _ Hg) as Hhead. set (first := m_blocks m) in *.
  set (h1 := <[b := Cell sz' (o_block 0 first s segs')]> (m_heap m)).
  assert (Hrun : pattr_as_path_block_register b s m =
    ((if first =? 0 then mret tt else set_prev first b);; set_blocks b) (with_cells m h1)).
  { unfold pattr_as_path_block_register. rewrite (hbind _ _ _ _ _ (set_segments_run _ _ _ _ _ _ _ s Hb)).
    rewrite (hbind _ _ _ _ _ (get_blocks_run _)). cbn [m_blocks with_cells]. fold first.
    erewrite hbind; [|eapply set_prev_run; cbn; by rewrite lookup_insert_eq].
    cbn [m_heap with_cells m_blocks m_answers]. rewrite insert_insert_eq.
    erewrite hbind; [|eapply set_next_run; cbn; by rewrite lookup_insert_eq].
    cbn [m_heap with_cells m_blocks m_answers]. by rewrite insert_insert_eq. }
  rewrite Hrun.
  pose proof (good_segments _ _ _ _ _ _ _ _ _ Hg Hb Hl 0 first s) as Hg1. fold h1 in Hg1.
  set (H1 := <[b := Cell sz' (o_block 0 0 s segs')]> H) in *.
  assert (Hreg : ∀ m', good m' H1 l → ∀ hh, erase <$> hh = H1 → dlseg hh 0 (b :: l) b 0 → good (Mem hh b (m_answers m)) H1 (b :: l)).
  { intros m' [? ? ? Hr ? ?] hh He Hd. constructor; cbn [m_heap m_blocks]; try done; [by constructor|].
    intros x [->|Hx]%elem_of_cons; [|auto]. exists sz', segs'. unfold H1. by rewrite lookup_insert_eq. }
  destruct l as [|x l].
  - cbn in Hhead. rewrite Hhead in *. eexists. split; [done|]. apply (Hreg _ Hg1); [exact (g_heap _ _ _ Hg1)|].
    split; [done|]. eexists _, _, _, _. cbn [m_heap with_cells]. unfold h1. rewrite lookup_insert_eq. split; [done|]. exact Hhead.
  - cbn in Hhead. rewrite Hhead in *. pose proof (registered_pos _ _ _ x Hg1 ltac:(set_solver)) as Hx0.
    replace (x =? 0) with false by lia.
    destruct (registered_live _ _ _ x Hg1 ltac:(set_solver)) as (szx & px & nx & sx & Hx).
    rewrite (hbind _ _ _ _ _ (set_prev_run _ _ _ _ _ _ _ b Hx)). eexists. split; [done|].
    cbn [m_heap with_cells m_blocks m_answers] in *. apply (Hreg _ Hg1).
    + rewrite (erase_insert_same _ _ _ _ Hx) by done. exact (g_heap _ _ _ Hg1).
    + pose proof (g_nodup _ _ _ Hg) as Hnd. apply NoDup_cons in Hnd as [Hnx Hnd].
      assert (b ≠ x) by set_solver. split; [done|]. eexists _, first, s, segs'. rewrite lookup_insert_ne by done. unfold h1 at 1. rewrite lookup_insert_eq.
      split; [done|]. eapply dlseg_first_prev; [done| |exact Hx]. pose proof (g_list _ _ _ Hg1) as Hd. cbn [m_heap with_cells m_blocks] in Hd.
      fold first in Hd. exact Hd.
Qed.

(** ** Taking a block out of the list *)

Lemma last_or_inv prev l : l = [] ∨ ∃ l' x, l = l' ++ [x] ∧ last_or prev l = x.
Proof. destruct l as [|x l _] using rev_ind; [by left|]. right. exists l, x. by rewrite last_or_last. Qed.

Lemma unlink_ok m H l1 b l2 :
  good m H (l1 ++ b :: l2) → ∃ m', unlink_block b m = Some (tt, m') ∧ good m' H (l1 ++ l2).
Proof.
  intros Hg. pose proof (g_nodup _ _ _ Hg) as Hnd. pose proof (g_list _ _ _ Hg) as Hd.
  apply NoDup_app in Hnd as (Hn1 & Hn12 & Hn2). apply NoDup_cons in Hn2 as [Hb2 Hn2].
  assert (Hb1 : b ∉ l1) by (intros Hin; apply (Hn12 b Hin); set_solver).
  assert (Hdisj : ∀ x, x ∈ l1 → x ∉ l2) by (intros x Hx Hx'; apply (Hn12 x Hx); set_solver).
  apply dlseg_app in Hd as (mid & Hd1 & (-> & sz & next & s & segs & Hb & Hd2)). set (prev := last_or 0 l1) in *.
  unfold unlink_block. rewrite (hbind _ _ _ _ _ (load_block_run _ _ _ _ _ _ _ Hb)).
  (* the predecessor *)
  assert (∃ m1 sz1 segs1, (if prev =? 0 then set_blocks next else set_next prev next) m = Some (tt, m1) ∧
    erase <$> m_heap m1 = H ∧ dlseg (m_heap m1) 0 l1 (m_blocks m1) next ∧
    dlseg (m_heap m1) b l2 next 0 ∧ m_heap m1 !! b = Some (Cell sz1 (o_block prev next s segs1)) ∧ sz1 = sz ∧ segs1 = segs) as (m1 & ? & ? & Hrun1 & He1 & Hl1 & Hl2 & Hb' & -> & ->).
  { destruct (last_or_inv 0 l1) as [->|(l & x & -> & Hx)].
    - unfold prev, last_or. cbn. eexists _, _, _. split; [done|]. cbn [m_heap m_blocks]. split_and!; try done. apply (g_heap _ _ _ Hg).
    - unfold prev in *. rewrite Hx in *. assert (Hxl : x ∈ (l ++ [x]) ++ b :: l2) by set_solver.
      pose proof (registered_pos _ _ _ x Hg Hxl). replace (x =? 0) with false by lia.
      destruct (registered_live _ _ _ x Hg Hxl) as (szx & px & nx & sx & Hlook).
      eexists _, _, _. rewrite (set_next_run _ _ _ _ _ _ _ next Hlook). split; [done|]. cbn [m_heap m_blocks with_cells].
      assert (b ≠ x) by set_solver. rewrite lookup_insert_ne by done. split_and!; try done.
      + rewrite (erase_insert_same _ _ _ _ Hlook) by done. apply (g_heap _ _ _ Hg).
      + eapply dlseg_last_next; [done|exact Hd1|exact Hlook].
      + apply dlseg_insert_other; [|done]. apply Hdisj. set_solver. }
  rewrite (hbind _ _ _ _ _ Hrun1).
  (* the successor *)
  assert (∃ m2, (if next =? 0 then mret tt else set_prev next prev) m1 = Some (tt, m2) ∧ erase <$> m_heap m2 = H ∧
    m_blocks m2 = m_blocks m1 ∧ dlseg (m_heap m2) 0 l1 (m_blocks m2) next ∧ dlseg (m_heap m2) prev l2 next 0 ∧
    m_heap m2 !! b = Some (Cell sz (o_block prev next s segs))) as (m2 & Hrun2 & He2 & Hbl & Hl1' & Hl2' & Hb2').
  { destruct l2 as [|x l2].
    - cbn [dlseg] in Hl2. subst next. eexists. split; [done|]. done.
    - pose proof Hl2 as (-> & szx & nx & sx & segx & Hx & _). assert (Hxl : x ∈ l1 ++ b :: x :: l2) by set_solver.
      pose proof (registered_pos _ _ _ x Hg Hxl). replace (x =? 0) with false by lia. apply NoDup_cons in Hn2 as [Hnx Hn2].
      eexists. rewrite (set_prev_run _ _ _ _ _ _ _ prev Hx). split; [done|]. cbn [m_heap m_blocks with_cells].
      assert (b ≠ x) by set_solver. rewrite lookup_insert_ne by done. split_and!; try done.
      + by rewrite (erase_insert_same _ _ _ _ Hx).
      + apply dlseg_insert_other; [|done]. intros Hin. apply (Hdisj x Hin). set_solver.
      + eapply dlseg_first_prev; [done|exact Hl2|exact Hx]. }
  rewrite (hbind _ _ _ _ _ Hrun2), (hbind _ _ _ _ _ (set_prev_run _ _ _ _ _ _ _ 0 Hb2')).
  rewrite (set_next_run _ b sz 0 next s segs 0) by (cbn; by rewrite lookup_insert_eq).
  eexists. split; [done|]. cbn [m_heap m_blocks m_answers with_cells]. rewrite insert_insert_eq.
  eapply (good_relink m H (l1 ++ b :: l2)); [done| | |apply NoDup_app; split_and!; try done|set_solver].
  - by rewrite (erase_insert_same _ _ _ _ Hb2').
  - apply dlseg_insert_other; [set_solver|]. apply dlseg_app. by exists next.
Qed.

Lemma take_loop_ok m H s fuel l1 l2 b :
  good m H (l1 ++ l2) → dlseg (m_heap m) (last_or 0 l1) l2 b 0 → (length l2 < fuel)%nat →
  (∃ la x lb m', l1 ++ l2 = la ++ x :: lb ∧ x + SIZEOF_BLOCK = s ∧ take_loop fuel s b m = Some (x, m') ∧ good m' H (la ++ lb)) ∨
  ((∀ x, x ∈ l2 → x + SIZEOF_BLOCK ≠ s) ∧ take_loop fuel s b m = Some (0, m)).
Proof.
  revert l1 l2 b. induction fuel as [|fuel IH]; intros l1 l2 b Hg Hd Hf; [lia|]. cbn [take_loop]. destruct l2 as [|x l2].
  { cbn [dlseg] in Hd. subst b. right. split; [|done]. intros x Hx. by apply elem_of_nil in Hx. }
  destruct Hd as (-> & sz & next & s0 & segs & Hx & Hd). assert (Hin : x ∈ l1 ++ x :: l2) by set_solver.
  pose proof (registered_pos _ _ _ x Hg Hin). replace (x =? 0) with false by lia.
  destruct (registered_live _ _ _ x Hg Hin) as (sz' & p' & n' & segs' & Hx'). rewrite Hx in Hx'. simplify_eq.
  rewrite (hbind _ _ _ _ _ (load_block_run _ _ _ _ _ _ _ Hx)). destruct (x + SIZEOF_BLOCK =? s) eqn:Heq.
  - left. destruct (unlink_ok _ _ _ _ _ Hg) as (m' & Hrun & Hg'). exists l1, x, l2, m'. rewrite (hbind _ _ _ _ _ Hrun).
    split_and!; try done. lia.
  - rewrite (cons_middle x l1 l2), (assoc_L (++)) in Hg. cbn [length] in Hf.
    destruct (IH (l1 ++ [x]) l2 n' Hg) as [(la & y & lb & m' & Hl & ?)|[Hno Hrun]]; [by rewrite last_or_last|lia| |].
    + left. exists la, y, lb, m'. split; [|done]. by rewrite <-Hl, <-(assoc_L (++)).
    + right. split; [|done]. intros y [->|Hy]%elem_of_cons; [lia|auto].
Qed.

Lemma list_in_heap m H l : good m H l → (length l <= size (m_heap m))%nat.
Proof.
  intros Hg. rewrite <-(size_dom (D := gset Z)). transitivity (size (list_to_set l : gset Z)).
  - rewrite size_list_to_set; [done|apply (g_nodup _ _ _ Hg)].
  - apply subseteq_size. intros b Hb. apply elem_of_list_to_set in Hb. apply elem_of_dom.
    destruct (registered_live _ _ _ _ Hg Hb) as (? & ? & ? & ? & ->). eauto.
Qed.

(** The search finds the block of the segments, if there is one, and takes it
    out of the list; nothing else changes. *)
Lemma take_ok m H l s :
  good m H l →
  (∃ la x lb m', l = la ++ x :: lb ∧ x + SIZEOF_BLOCK = s ∧ pattr_as_path_block_take s m = Some (x, m') ∧ good m' H (la ++ lb)) ∨
  ((∀ x, x ∈ l → x + SIZEOF_BLOCK ≠ s) ∧ pattr_as_path_block_take s m = Some (0, m)).
Proof.
  intros Hg. pose proof (list_in_heap _ _ _ Hg). apply (take_loop_ok m H s _ [] l); [done|apply (g_list _ _ _ Hg)|lia].
Qed.

(** An address the allocator returned is no address inside a block. *)
Lemma outside_blocks m H l p : good m H l → is_Some (H !! p) → ∀ x, x ∈ l → x + SIZEOF_BLOCK ≠ p.
Proof.
  intros Hg [c Hp] x Hx. destruct (g_reg _ _ _ Hg x Hx) as (sz & segs & HH & Hsz). unfold SIZEOF_BLOCK in *.
  destruct (decide (x = p)) as [->|Hne]; [lia|]. pose proof (g_pos _ _ _ Hg _ _ Hp).
  destruct (g_spread _ _ _ Hg _ _ _ _ Hne HH Hp); cbn [c_size] in *; lia.
Qed.

Implicit Types (P : gmap Z cell) (a : Z).

(** ** Abstract attributes *)

(** A path in one block, or in pieces; the other arrays; no array. *)
Inductive content : Type :=
  | k_none
  | k_array
  | k_block (segs : list libbgp_as_path_segment_t)
  | k_path (segs : list libbgp_as_path_segment_t).

Record held : Type := Held {
  he_type : libbgp_pattr_type_t;
  he_refs : Z;
  he_is_4b : bool;
  he_content : content
}.

Definition is_array (type : libbgp_pattr_type_t) : bool :=
  match type with
  | LIBBGP_PATTR_COMMUNITY | LIBBGP_PATTR_MP_REACH_IPV6 | LIBBGP_PATTR_MP_UNREACH_IPV6 | LIBBGP_PATTR_UNKNOWN => true
  | _ => false
  end.

Definition empty_content (type : libbgp_pattr_type_t) : content :=
  if is_path type then k_path [] else if is_array type then k_array else k_none.

(** ** Cells *)

(** The arrays behind pointers, some of which are NULL. *)
Inductive ptr_cells : list Z -> gmap Z cell -> Prop :=
  | ptr_nil : ptr_cells [] ∅
  | ptr_null ps P : ptr_cells ps P -> ptr_cells (0 :: ps) P
  | ptr_cons q sz words ps P :
      P !! q = None -> ptr_cells ps P -> ptr_cells (q :: ps) (<[q := Cell sz (o_words words)]> P).

(** The segments of a path in pieces. *)
Inductive path_cells : list c_seg -> list libbgp_as_path_segment_t -> gmap Z cell -> Prop :=
  | path_nil : path_cells [] [] ∅
  | path_null t cs segs P : path_cells cs segs P -> path_cells (CSeg t 0 0 :: cs) (Segment t [] :: segs) P
  | path_cons t q sz words cs segs P :
      words ≠ [] -> P !! q = None -> path_cells cs segs P ->
      path_cells (CSeg t (zlen words) q :: cs) (Segment t words :: segs) (<[q := Cell sz (o_words words)]> P).

Inductive content_cells (type : libbgp_pattr_type_t) : Z -> Z -> content -> gmap Z cell -> Prop :=
  | cc_none data count : is_path type = false -> is_array type = false -> content_cells type data count k_none ∅
  | cc_array_null count : is_array type = true -> content_cells type 0 count k_array ∅
  | cc_array p count sz words :
      is_array type = true -> content_cells type p count k_array {[p := Cell sz (o_words words)]}
  | cc_block b sz segs :
      is_path type = true -> segs ≠ [] ->
      content_cells type (b + SIZEOF_BLOCK) (zlen segs) (k_block segs) {[b := Cell sz (o_block 0 0 (b + SIZEOF_BLOCK) segs)]}
  | cc_null : is_path type = true -> content_cells type 0 0 (k_path []) ∅
  | cc_path p sz cs segs P :
      is_path type = true -> cs ≠ [] -> path_cells cs segs P -> P !! p = None ->
      content_cells type p (zlen cs) (k_path segs) (<[p := Cell sz (o_segs cs)]> P).

(** An attribute: its object and what that points to. *)
Inductive attr_cells (a : Z) (he : held) : gmap Z cell -> Prop :=
  | ac_intro data count P :
      content_cells (he_type he) data count (he_content he) P -> P !! a = None ->
      1 <= he_refs he <= UINT32_MAX ->
      attr_cells a he (<[a := Cell SIZEOF_PATTR (o_attr (AttrObj (he_refs he) (he_type he) data count (he_is_4b he)))]> P).

Lemma path_ptr_cells cs segs P : path_cells cs segs P → ptr_cells (sg_asns <$> cs) P.
Proof. induction 1; cbn [fmap list_fmap sg_asns]; by constructor. Qed.

Lemma path_length cs segs P : path_cells cs segs P → length cs = length segs.
Proof. induction 1; cbn [length]; congruence. Qed.

Lemma ptr_cells_nulls ps P k : ptr_cells ps P → ptr_cells (ps ++ replicate k 0) P.
Proof. induction 1; cbn [app]; [|by constructor..]. induction k; cbn [replicate]; by constructor. Qed.

Lemma path_cells_null_snoc cs segs P t : path_cells cs segs P → path_cells (cs ++ [CSeg t 0 0]) (segs ++ [Segment t []]) P.
Proof. induction 1; cbn [app]; repeat constructor; done. Qed.

Lemma path_cells_snoc cs segs P t q sz words :
  path_cells cs segs P → words ≠ [] → P !! q = None →
  path_cells (cs ++ [CSeg t (zlen words) q]) (segs ++ [Segment t words]) (<[q := Cell sz (o_words words)]> P).
Proof.
  intros Hc Hw. induction Hc as [|t' cs segs P Hc IH|t' q' sz' words' cs segs P Hw' Hq' Hc IH]; intros Hq; cbn [app].
  - constructor; [done|done|constructor].
  - constructor. auto.
  - apply lookup_insert_None in Hq as [Hq Hne]. rewrite insert_insert_ne by done. constructor; [done| |auto].
    by rewrite lookup_insert_ne.
Qed.

(** ** Freeing *)

(** A cell that is no block is not in the list. *)
Lemma plain_unlisted m H l p sz o : good m H l → H !! p = Some (Cell sz o) → (∀ s segs, o ≠ o_block 0 0 s segs) → p ∉ l.
Proof. intros Hg Hp Ho Hl. destruct (g_reg _ _ _ Hg p Hl) as (? & ? & HH & _). rewrite Hp in HH. simplify_eq. by destruct (Ho (p + SIZEOF_BLOCK) x0). Qed.

Lemma difference_delete H P q c : (H ∖ P : gmap Z cell) !! q = Some c → P !! q = None → delete q (H ∖ P) = H ∖ <[q := c]> P.
Proof.
  intros Hq Hn. apply map_eq. intros i. rewrite lookup_difference. destruct (decide (i = q)) as [->|Hne].
  - by rewrite lookup_delete_eq, lookup_insert_eq.
  - by rewrite lookup_delete_ne, lookup_insert_ne, lookup_difference by done.
Qed.

Lemma difference_none H P i : P !! i = None → (H ∖ P) !! i = H !! i.
Proof. intros Hn. by rewrite lookup_difference, Hn. Qed.

Lemma free_all_ok ps P m H l :
  ptr_cells ps P → good m H l → P ⊆ H → ∃ m', free_all ps m = Some (tt, m') ∧ good m' (H ∖ P) l.
Proof.
  intros Hp. revert m H. induction Hp as [|ps P Hp IH|q sz words ps P Hq Hp IH]; intros m H Hg Hsub; cbn [free_all].
  - eexists. split; [done|]. by rewrite map_difference_empty.
  - rewrite (hbind _ _ _ _ _ (free_null m)). by apply IH.
  - assert (HH : H !! q = Some (Cell sz (o_words words))) by (eapply lookup_weaken; [apply lookup_insert_eq|done]).
    destruct (free_ok m H l q Hg) as (m1 & Hrun & Hg1); [by rewrite HH|by eapply plain_unlisted|].
    rewrite (hbind _ _ _ _ _ Hrun). destruct (IH m1 (delete q H) Hg1) as (m2 & Hrun2 & Hg2).
    { apply map_subseteq_spec. intros i c Hi. assert (i ≠ q) by (intros ->; congruence). rewrite lookup_delete_ne by done.
      eapply lookup_weaken; [|exact Hsub]. by rewrite lookup_insert_ne. }
    eexists. split; [exact Hrun2|]. replace (H ∖ _) with (delete q H ∖ P); [done|]. apply map_eq. intros i. rewrite !lookup_difference.
    destruct (decide (i = q)) as [->|Hne].
    + rewrite lookup_insert_eq, Hq. by rewrite lookup_delete_eq.
    + by rewrite lookup_insert_ne, lookup_delete_ne.
Qed.

(** The segments of a path in pieces. *)
Lemma segments_free_pieces m H l p sz cs ps P count :
  good m H l → H !! p = Some (Cell sz (o_segs cs)) → ptr_cells ps P → ps = sg_asns <$> cs → count = zlen cs →
  P ⊆ H → P !! p = None →
  ∃ m', bgp_as_path_segments_free p count m = Some (tt, m') ∧ good m' (H ∖ <[p := Cell sz (o_segs cs)]> P) l.
Proof.
  intros Hg Hp Hps -> -> Hsub Hn. pose proof (g_pos _ _ _ Hg _ _ Hp) as [Hpos _]. unfold bgp_as_path_segments_free.
  replace (p =? 0) with false by lia. assert (Hl : p ∉ l) by by eapply plain_unlisted.
  destruct (take_ok _ _ _ p Hg) as [(la & x & lb & m' & -> & Hx & _)|[_ Hrun]].
  { exfalso. eapply (outside_blocks _ _ _ p Hg); [by rewrite Hp| |exact Hx]. set_solver. }
  rewrite (hbind _ _ _ _ _ Hrun). cbn [Z.eqb negb]. rewrite (hbind _ _ _ _ _ (load_ok _ _ _ _ _ _ Hg Hp ltac:(done))).
  replace (zlen cs <=? zlen cs) with true by lia. rewrite take_ge by lia.
  destruct (free_all_ok _ _ _ _ _ Hps Hg Hsub) as (m1 & Hrun1 & Hg1). rewrite (hbind _ _ _ _ _ Hrun1).
  assert (Hp1 : (H ∖ P) !! p = Some (Cell sz (o_segs cs))) by by rewrite difference_none.
  destruct (free_ok m1 _ l p Hg1) as (m2 & Hrun2 & Hg2); [by rewrite Hp1|done|]. exists m2. split; [done|].
  by rewrite <-(difference_delete H P p _ Hp1 Hn).
Qed.

(** The list without the blocks of the cells. *)
Definition without l P : list Z := filter (λ b, P !! b = None) l.

Lemma without_none l P : (∀ b, b ∈ l → P !! b = None) → without l P = l.
Proof.
  unfold without. induction l as [|b l IH]; intros Hn; [done|]. rewrite filter_cons, decide_True by (apply Hn; set_solver).
  f_equal. apply IH. set_solver.
Qed.

(** Freeing the data of an attribute frees exactly the cells of the data. *)
Lemma free_data_ok m H l attr k P :
  good m H l → content_cells (ao_type attr) (ao_data attr) (ao_count attr) k P → P ⊆ H →
  (∀ b sz s segs, P !! b = Some (Cell sz (o_block 0 0 s segs)) → b ∈ l) →
  ∃ m', pattr_free_data attr m = Some (tt, m') ∧ good m' (H ∖ P) (without l P).
Proof.
  intros Hg Hc Hsub Hlist. unfold pattr_free_data. destruct attr as [rc type data count is_4b]. cbn [ao_type ao_data ao_count] in *.
  assert (Hempty : good m (H ∖ ∅) (without l ∅)) by (rewrite map_difference_empty, without_none by done; done).
  destruct Hc as [data count Hp Ha|count Ha|p count sz words Ha|b sz segs Hp Hne|Hp|p sz cs segs P Hp Hne Hc Hn].
  - exists m. split; [by destruct type|done].
  - exists m. split; [by destruct type|done].
  - assert (HH : H !! p = Some (Cell sz (o_words words))) by (eapply lookup_weaken; [apply lookup_singleton_eq|done]).
    assert (Hl : p ∉ l) by by eapply plain_unlisted. destruct (free_ok m H l p Hg) as (m' & Hrun & Hg'); [by rewrite HH|done|].
    exists m'. split; [by destruct type|]. rewrite without_none.
    + replace (H ∖ _) with (delete p H); [done|]. rewrite <-(map_difference_empty H) at 1.
      rewrite (difference_delete H ∅ p (Cell sz (o_words words))); [done|by rewrite difference_none|done].
    + intros b Hb. apply lookup_singleton_None. by intros ->.
  - assert (HH : H !! b = Some (Cell sz (o_block 0 0 (b + SIZEOF_BLOCK) segs))) by (eapply lookup_weaken; [apply lookup_singleton_eq|done]).
    assert (Hl : b ∈ l) by (eapply Hlist; apply lookup_singleton_eq).
    pose proof (registered_pos _ _ _ _ Hg Hl) as Hpos. pose proof (g_nodup _ _ _ Hg) as Hnd.
    assert (Hrun : ∃ m', bgp_as_path_segments_free (b + SIZEOF_BLOCK) (zlen segs) m = Some (tt, m') ∧
      good m' (delete b H) (without l {[b := Cell sz (o_block 0 0 (b + SIZEOF_BLOCK) segs)]})).
    { unfold bgp_as_path_segments_free. replace (b + SIZEOF_BLOCK =? 0) with false by (unfold SIZEOF_BLOCK; lia).
      destruct (take_ok _ _ _ (b + SIZEOF_BLOCK) Hg) as [(la & x & lb & m1 & -> & Hx & Hrun & Hg1)|[Hno _]]; [|exfalso; by eapply Hno].
      assert (x = b) as -> by lia. rewrite (hbind _ _ _ _ _ Hrun). replace (b =? 0) with false by lia. cbn [negb].
      apply NoDup_app in Hnd as (_ & Hn1 & Hn2). apply NoDup_cons in Hn2 as [Hn2 _].
      assert (Hout : b ∉ la ++ lb) by (rewrite elem_of_app; intros [Hin|Hin]; [apply (Hn1 b Hin); set_solver|done]).
      destruct (free_ok m1 H (la ++ lb) b Hg1) as (m2 & Hrun2 & Hg2); [by rewrite HH|done|]. exists m2. split; [done|].
      replace (without _ _) with (la ++ lb); [done|]. unfold without. rewrite filter_app, filter_cons, decide_False.
      - rewrite <-filter_app. symmetry. apply without_none. intros y Hy. apply lookup_singleton_None. by intros ->.
      - by rewrite lookup_singleton_eq. }
    destruct Hrun as (m' & Hrun & Hg'). exists m'. split; [by destruct type|].
    replace (H ∖ _) with (delete b H); [done|]. rewrite <-(map_difference_empty H) at 1.
    rewrite (difference_delete H ∅ b (Cell sz (o_block 0 0 (b + SIZEOF_BLOCK) segs))); [done|by rewrite difference_none|done].
  - exists m. split; [by destruct type|done].
  - assert (HH : H !! p = Some (Cell sz (o_segs cs))) by (eapply lookup_weaken; [apply lookup_insert_eq|done]).
    destruct (segments_free_pieces m H l p sz cs _ P _ Hg HH (path_ptr_cells _ _ _ Hc) eq_refl eq_refl) as (m' & Hrun & Hg'); [|done|].
    { etrans; [by apply insert_subseteq|done]. }
    exists m'. split; [by destruct type|]. rewrite without_none; [done|]. intros b Hb.
    destruct (g_reg _ _ _ Hg b Hb) as (szb & sb & Hblk & _). destruct (<[p:=Cell sz (o_segs cs)]> P !! b) as [c|] eqn:Hbc; [|done]. exfalso.
    pose proof (lookup_weaken _ _ _ _ Hbc Hsub) as HHb. rewrite Hblk in HHb. simplify_eq.
    apply lookup_insert_Some in Hbc as [[_ Hbc]|[_ Hbc]]; [done|]. clear -Hc Hbc. induction Hc as [|? ? ? ? ? IH|? ? ? ? ? ? ? ? ? ? IH]; [done|auto|].
    apply lookup_insert_Some in Hbc as [[_ ?]|[_ ?]]; [done|auto].
Qed.
