(* ===== verification/PattrHeapSpec.v ===== *)
(** * Theorems about attributes in memory

    Memory is at any time the disjoint union of what the live attributes own,
    and every operation does to it what the abstract operation on a table of
    attributes says. *)

From stdpp Require Import gmap.
From S2P Require Import Prelude Bytes Pattr Update As4 PattrHeap PattrHeapList.

Implicit Types (m : mem) (h H P Q F : gmap Z cell) (l : list Z) (o : obj) (a b p q : Z).
Implicit Types (R : gmap Z held) (parts : gmap Z (gmap Z cell)) (he : held).

(** ** The parts of memory *)

Record owned H parts : Prop := {
  ow_apart : ∀ a b P Q, a ≠ b → parts !! a = Some P → parts !! b = Some Q → P ##ₘ Q;
  ow_all : ∀ p c, H !! p = Some c ↔ ∃ a P, parts !! a = Some P ∧ P !! p = Some c
}.

Lemma owned_sub H parts a P : owned H parts → parts !! a = Some P → P ⊆ H.
Proof. intros Ho Ha. apply map_subseteq_spec. intros p c Hp. apply (ow_all _ _ Ho). eauto. Qed.

Lemma owned_delete H parts a P : owned H parts → parts !! a = Some P → owned (H ∖ P) (delete a parts).
Proof.
  intros Ho Ha. constructor.
  - intros x y X Y Hne Hx Hy. apply lookup_delete_Some in Hx as [_ Hx]. apply lookup_delete_Some in Hy as [_ Hy]. by eapply (ow_apart _ _ Ho).
  - intros p c. rewrite lookup_difference_Some, (ow_all _ _ Ho). split.
    + intros [(x & X & Hx & Hp) Hn]. exists x, X. rewrite lookup_delete_ne by (intros <-; congruence). done.
    + intros (x & X & Hx & Hp). apply lookup_delete_Some in Hx as [Hne Hx]. split; [eauto|].
      pose proof (ow_apart _ _ Ho a x P X Hne Ha Hx) as Hd. rewrite map_disjoint_spec in Hd.
      destruct (P !! p) eqn:HP; [|done]. by destruct (Hd p _ _ HP Hp).
Qed.

Lemma owned_insert H parts a P : owned H parts → parts !! a = None → P ##ₘ H → owned (P ∪ H) (<[a := P]> parts).
Proof.
  intros Ho Ha Hd. assert (Hsub : ∀ x X, parts !! x = Some X → P ##ₘ X).
  { intros x X Hx. eapply map_disjoint_weaken_r; [exact Hd|]. by eapply owned_sub. }
  constructor.
  - intros x y X Y Hne Hx Hy. apply lookup_insert_Some in Hx as [[<- <-]|[_ Hx]]; apply lookup_insert_Some in Hy as [[<- <-]|[_ Hy]].
    + done.
    + by eapply Hsub.
    + symmetry. by eapply Hsub.
    + by eapply (ow_apart _ _ Ho).
  - intros p c. rewrite lookup_union_Some, (ow_all _ _ Ho) by done. split.
    + intros [Hp|(x & X & Hx & Hp)]; [exists a, P|exists x, X]; rewrite ?lookup_insert_eq; [done|].
      rewrite lookup_insert_ne by (intros ->; congruence). done.
    + intros (x & X & Hx & Hp). apply lookup_insert_Some in Hx as [[<- <-]|[_ Hx]]; [by left|right; eauto].
Qed.

Definition listed H l : Prop := ∀ b sz s segs, H !! b = Some (Cell sz (o_block 0 0 s segs)) → b ∈ l.

Record world_at m R H l parts : Prop := {
  w_good : good m H l;
  w_owned : owned H parts;
  w_listed : listed H l;
  w_dom : ∀ a, R !! a = None ↔ parts !! a = None;
  w_cells : ∀ a he P, R !! a = Some he → parts !! a = Some P → attr_cells a he P
}.

Definition world m R : Prop := ∃ H l parts, world_at m R H l parts.

Lemma world_part m R H l parts a he :
  world_at m R H l parts → R !! a = Some he → ∃ P, parts !! a = Some P ∧ attr_cells a he P ∧ P ⊆ H.
Proof.
  intros Hw Ha. destruct (parts !! a) as [P|] eqn:HP; [|apply (w_dom _ _ _ _ _ Hw) in HP; congruence].
  exists P. split; [done|]. split; [by eapply (w_cells _ _ _ _ _ Hw)|]. eapply owned_sub; [apply (w_owned _ _ _ _ _ Hw)|done].
Qed.

(** An attribute changes, and with it its part. *)
Lemma world_replace m R H l parts a he P he' P' m' l' :
  world_at m R H l parts → R !! a = Some he → parts !! a = Some P → attr_cells a he' P' → P' ##ₘ H ∖ P →
  good m' (P' ∪ H ∖ P) l' → listed (P' ∪ H ∖ P) l' → world m' (<[a := he']> R).
Proof.
  intros Hw Ha HP Hc Hd Hg Hl. exists (P' ∪ H ∖ P), l', (<[a := P']> (delete a parts)). constructor; [done| |done|..].
  - apply owned_insert; [|by rewrite lookup_delete_eq|done]. apply owned_delete; [apply (w_owned _ _ _ _ _ Hw)|done].
  - intros x. rewrite insert_delete_eq, !lookup_insert_None. pose proof (w_dom _ _ _ _ _ Hw x). tauto.
  - intros x hx X Hx HX. rewrite insert_delete_eq in HX.
    apply lookup_insert_Some in Hx as [[<- <-]|[Hne Hx]]; [rewrite lookup_insert_eq in HX; by simplify_eq|].
    rewrite lookup_insert_ne in HX by done. by eapply (w_cells _ _ _ _ _ Hw).
Qed.

(** A new attribute. *)
Lemma world_add m R H l parts a he P m' l' :
  world_at m R H l parts → R !! a = None → attr_cells a he P → P ##ₘ H →
  good m' (P ∪ H) l' → listed (P ∪ H) l' → world m' (<[a := he]> R).
Proof.
  intros Hw Ha Hc Hd Hg Hl. exists (P ∪ H), l', (<[a := P]> parts). constructor; [done| |done|..].
  - apply owned_insert; [apply (w_owned _ _ _ _ _ Hw)| |done]. by apply (w_dom _ _ _ _ _ Hw).
  - intros x. rewrite !lookup_insert_None. pose proof (w_dom _ _ _ _ _ Hw x). tauto.
  - intros x hx X Hx HX. apply lookup_insert_Some in Hx as [[<- <-]|[Hne Hx]]; [rewrite lookup_insert_eq in HX; by simplify_eq|].
    rewrite lookup_insert_ne in HX by done. by eapply (w_cells _ _ _ _ _ Hw).
Qed.

(** An attribute that is gone. *)
Lemma world_remove m R H l parts a P m' l' :
  world_at m R H l parts → parts !! a = Some P → good m' (H ∖ P) l' → listed (H ∖ P) l' → world m' (delete a R).
Proof.
  intros Hw HP Hg Hl. exists (H ∖ P), l', (delete a parts). constructor; [done| |done|..].
  - apply owned_delete; [apply (w_owned _ _ _ _ _ Hw)|done].
  - intros x. rewrite !lookup_delete_None. pose proof (w_dom _ _ _ _ _ Hw x). tauto.
  - intros x hx X Hx HX. apply lookup_delete_Some in Hx as [Hne Hx]. apply lookup_delete_Some in HX as [_ HX]. by eapply (w_cells _ _ _ _ _ Hw).
Qed.

Lemma world_same m R H l parts m' : world_at m R H l parts → good m' H l → world m' R.
Proof. intros Hw Hg. exists H, l, parts. destruct Hw. by constructor. Qed.

Lemma listed_sub H H' l : listed H l → H' ⊆ H → listed H' l.
Proof. intros Hl Hs b sz s segs Hb. eapply Hl, lookup_weaken; done. Qed.

Lemma listed_insert_plain H l p sz o : listed H l → (∀ s segs, o ≠ o_block 0 0 s segs) → listed (<[p := Cell sz o]> H) l.
Proof. intros Hl Ho b sz' s segs Hb. apply lookup_insert_Some in Hb as [[_ Hb]|[_ Hb]]; [simplify_eq; by destruct (Ho s segs)|by eapply Hl]. Qed.

Lemma listed_without H l P : listed H l → listed (H ∖ P) (without l P).
Proof.
  intros Hl b sz s segs Hb. apply lookup_difference_Some in Hb as [Hb Hn]. apply list_elem_of_filter. split; [done|]. by eapply Hl.
Qed.

(** The object of an attribute. *)
Definition attr_of he data count : attr_obj := AttrObj (he_refs he) (he_type he) data count (he_is_4b he).

Lemma attr_cells_object a he P :
  attr_cells a he P → ∃ data count P0, content_cells (he_type he) data count (he_content he) P0 ∧ P0 !! a = None ∧
    1 <= he_refs he <= UINT32_MAX ∧ P = <[a := Cell SIZEOF_PATTR (o_attr (attr_of he data count))]> P0.
Proof. intros [data count P0 Hc Hn Hr]. eauto 10. Qed.

Lemma load_attr_ok m H l a sz attr : good m H l → H !! a = Some (Cell sz (o_attr attr)) → load_attr a m = Some (attr, m).
Proof. intros Hg Ha. unfold load_attr. by rewrite (hbind _ _ _ _ _ (load_ok _ _ _ _ _ _ Hg Ha ltac:(done))). Qed.

(** The heap with the object of [a] replaced, by parts. *)
Lemma insert_part H P0 a c c' :
  P0 !! a = None → <[a := c]> P0 ⊆ H →
  <[a := c']> P0 ##ₘ H ∖ <[a := c]> P0 ∧ <[a := c']> H = <[a := c']> P0 ∪ H ∖ <[a := c]> P0.
Proof.
  intros Hn Hs. split.
  - apply map_disjoint_spec. intros i x y Hi Hy. apply lookup_difference_Some in Hy as [_ Hy]. apply lookup_insert_None in Hy as [Hy Hne].
    rewrite lookup_insert_ne in Hi by done. congruence.
  - apply map_eq. intros i. destruct (decide (i = a)) as [->|Hne].
    + by rewrite lookup_union, !lookup_insert_eq, union_Some_l.
    + rewrite lookup_union, !lookup_insert_ne by done. rewrite lookup_difference, lookup_insert_ne by done.
      destruct (P0 !! i) as [x|] eqn:Hi; [|by rewrite (left_id_L None _)]. rewrite union_Some_l. eapply lookup_weaken; [|exact Hs]. by rewrite lookup_insert_ne.
Qed.

(** ** Objects *)

Definition fresh_held (type : libbgp_pattr_type_t) : held :=
  Held type 1 (bool_decide (type = LIBBGP_PATTR_AS4_PATH)) (empty_content type).

Lemma fresh_cells type : content_cells type 0 0 (empty_content type) ∅.
Proof. unfold empty_content. destruct type; cbn; by constructor. Qed.

Lemma not_held m R H l parts a : world_at m R H l parts → H !! a = None → R !! a = None.
Proof.
  intros Hw Ha. destruct (R !! a) as [he|] eqn:HR; [|done]. destruct (world_part _ _ _ _ _ _ _ Hw HR) as (P & _ & Hc & Hs).
  apply attr_cells_object in Hc as (data & count & P0 & _ & _ & _ & ->). pose proof (lookup_weaken _ _ a _ (lookup_insert_eq _ _ _) Hs). congruence.
Qed.

Lemma new_at m R H l parts type :
  world_at m R H l parts →
  ∃ p m', mem_pattr_new type m = Some (p, m') ∧
    (p = 0 ∧ good m' H l ∨
     0 < p ∧ H !! p = None ∧ good m' (<[p := Cell SIZEOF_PATTR (o_attr (attr_of (fresh_held type) 0 0))]> H) l).
Proof. intros Hw. unfold mem_pattr_new. by apply malloc_ok; [apply (w_good _ _ _ _ _ Hw)| |]. Qed.

Lemma fresh_attr_cells p type : attr_cells p (fresh_held type) {[p := Cell SIZEOF_PATTR (o_attr (attr_of (fresh_held type) 0 0))]}.
Proof.
  rewrite <-insert_empty. constructor; [apply fresh_cells|done|]. unfold UINT32_MAX. cbn. lia.
Qed.

Lemma new_ok m R type :
  world m R →
  ∃ p m', mem_pattr_new type m = Some (p, m') ∧
    (p = 0 ∧ world m' R ∨ 0 < p ∧ R !! p = None ∧ world m' (<[p := fresh_held type]> R)).
Proof.
  intros (H & l & parts & Hw). destruct (new_at _ _ _ _ _ type Hw) as (p & m' & Hrun & Hp). exists p, m'. split; [done|].
  destruct Hp as [[-> Hg]|(Hpos & Hn & Hg)]; [left; split; [done|by eapply world_same]|right].
  pose proof (not_held _ _ _ _ _ _ Hw Hn) as HR. split; [done|]. split; [done|].
  rewrite insert_union_singleton_l in Hg. eapply world_add; [done|done|apply fresh_attr_cells| |exact Hg|].
  - by apply map_disjoint_singleton_l.
  - rewrite <-insert_union_singleton_l. apply listed_insert_plain; [apply (w_listed _ _ _ _ _ Hw)|done].
Qed.

(** The object is written; what it owns stays. *)
Lemma rewrite_object m R H l parts a he data count P0 he' :
  world_at m R H l parts → R !! a = Some he → parts !! a = Some (<[a := Cell SIZEOF_PATTR (o_attr (attr_of he data count))]> P0) →
  P0 !! a = None → content_cells (he_type he) data count (he_content he) P0 → he_type he' = he_type he → he_content he' = he_content he →
  1 <= he_refs he' <= UINT32_MAX →
  ∃ m', put a (o_attr (attr_of he' data count)) m = Some (tt, m') ∧ world m' (<[a := he']> R).
Proof.
  intros Hw Ha HP Hn Hc Ht Hk Hr. pose proof (w_good _ _ _ _ _ Hw) as Hg. pose proof (owned_sub _ _ _ _ (w_owned _ _ _ _ _ Hw) HP) as Hs.
  assert (HH : H !! a = Some (Cell SIZEOF_PATTR (o_attr (attr_of he data count)))) by (eapply lookup_weaken; [apply lookup_insert_eq|done]).
  destruct (put_ok _ _ _ a _ _ (o_attr (attr_of he' data count)) Hg HH) as (m' & Hrun & Hg'); [by eapply plain_unlisted|done|].
  exists m'. split; [done|]. destruct (insert_part H P0 a _ (Cell SIZEOF_PATTR (o_attr (attr_of he' data count))) Hn Hs) as [Hd He].
  rewrite He in Hg'. eapply world_replace; [done|done|exact HP| |exact Hd|exact Hg'|].
  - constructor; [by rewrite Ht, Hk|done|done].
  - rewrite <-He. apply listed_insert_plain; [apply (w_listed _ _ _ _ _ Hw)|done].
Qed.

Definition with_refs he (n : Z) : held := Held (he_type he) n (he_is_4b he) (he_content he).

Lemma world_object m R H l parts a he :
  world_at m R H l parts → R !! a = Some he →
  ∃ data count P0, parts !! a = Some (<[a := Cell SIZEOF_PATTR (o_attr (attr_of he data count))]> P0) ∧ P0 !! a = None ∧
    content_cells (he_type he) data count (he_content he) P0 ∧ 1 <= he_refs he <= UINT32_MAX ∧ 0 < a ∧
    <[a := Cell SIZEOF_PATTR (o_attr (attr_of he data count))]> P0 ⊆ H ∧
    load_attr a m = Some (attr_of he data count, m).
Proof.
  intros Hw Ha. destruct (world_part _ _ _ _ _ _ _ Hw Ha) as (P & HP & Hc & Hs).
  apply attr_cells_object in Hc as (data & count & P0 & Hc & Hn & Hr & ->).
  assert (HH : H !! a = Some (Cell SIZEOF_PATTR (o_attr (attr_of he data count)))) by (eapply lookup_weaken; [apply lookup_insert_eq|done]).
  pose proof (g_pos _ _ _ (w_good _ _ _ _ _ Hw) _ _ HH) as [Hpos _].
  exists data, count, P0. split_and!; try done; [lia..|]. eapply load_attr_ok; [apply (w_good _ _ _ _ _ Hw)|done].
Qed.

Lemma ref_ok m R a he :
  world m R → R !! a = Some he → he_refs he < UINT32_MAX →
  ∃ m', libbgp_pattr_ref a m = Some (a, m') ∧ world m' (<[a := with_refs he (he_refs he + 1)]> R).
Proof.
  intros (H & l & parts & Hw) Ha Hlt. destruct (world_object _ _ _ _ _ _ _ Hw Ha) as (data & count & P0 & HP & Hn & Hc & Hr & Hpos & Hs & Hload).
  unfold libbgp_pattr_ref. replace (a =? 0) with false by lia. rewrite (hbind _ _ _ _ _ Hload). cbn [attr_of ao_refcount].
  replace (he_refs he <? UINT32_MAX) with true by lia.
  destruct (rewrite_object _ _ _ _ _ _ _ _ _ _ (with_refs he (he_refs he + 1)) Hw Ha HP Hn Hc) as (m' & Hrun & Hw'); [done|done|cbn; lia|].
  exists m'. split; [|done]. change (with_refcount _ _) with (attr_of (with_refs he (he_refs he + 1)) data count).
  by rewrite (hbind _ _ _ _ _ Hrun).
Qed.

(** The last reference: object and data are freed, and nothing else. *)
Lemma release_part m H l a attr k P0 :
  good m H l → content_cells (ao_type attr) (ao_data attr) (ao_count attr) k P0 → P0 !! a = None →
  <[a := Cell SIZEOF_PATTR (o_attr attr)]> P0 ⊆ H → listed H l →
  ∃ m', (pattr_free_data attr;; put a (o_attr (cleared attr));; bgp_free a) m = Some (tt, m') ∧
    good m' (H ∖ <[a := Cell SIZEOF_PATTR (o_attr attr)]> P0) (without l P0) ∧
    listed (H ∖ <[a := Cell SIZEOF_PATTR (o_attr attr)]> P0) (without l P0).
Proof.
  intros Hg Hc Hn Hs Hl.
  assert (Hs0 : P0 ⊆ H) by (etrans; [by apply insert_subseteq|done]).
  destruct (free_data_ok _ _ _ _ _ _ Hg Hc Hs0) as (m1 & Hrun1 & Hg1).
  { intros b sz s segs Hb. eapply Hl, lookup_weaken; done. }
  assert (Ha1 : (H ∖ P0) !! a = Some (Cell SIZEOF_PATTR (o_attr attr))).
  { rewrite difference_none by done. eapply lookup_weaken; [apply lookup_insert_eq|done]. }
  assert (Hout : a ∉ without l P0) by by eapply plain_unlisted.
  destruct (put_ok _ _ _ a _ _ (o_attr (cleared attr)) Hg1 Ha1 Hout) as (m2 & Hrun2 & Hg2); [done|].
  destruct (free_ok m2 _ _ a Hg2) as (m3 & Hrun3 & Hg3); [by rewrite lookup_insert_eq|done|].
  rewrite (hbind _ _ _ _ _ Hrun1), (hbind _ _ _ _ _ Hrun2). exists m3. split; [done|]. rewrite delete_insert_eq in Hg3.
  rewrite (difference_delete _ _ _ _ Ha1 Hn) in Hg3. split; [done|].
  eapply listed_sub; [by apply (listed_without H l P0)|]. rewrite <-(difference_delete _ _ _ _ Ha1 Hn). apply delete_subseteq.
Qed.

Lemma unref_last m R H l parts a he P :
  world_at m R H l parts → R !! a = Some he → parts !! a = Some P → he_refs he = 1 →
  ∃ m' l', libbgp_pattr_unref a m = Some (tt, m') ∧ good m' (H ∖ P) l' ∧ listed (H ∖ P) l'.
Proof.
  intros Hw Ha HPa H1. destruct (world_object _ _ _ _ _ _ _ Hw Ha) as (data & count & P0 & HP & Hn & Hc & Hr & Hpos & Hs & Hload).
  rewrite HP in HPa. injection HPa as <-. unfold libbgp_pattr_unref. replace (a =? 0) with false by lia. rewrite (hbind _ _ _ _ _ Hload). cbn [attr_of ao_refcount].
  replace (he_refs he =? 0) with false by lia. set (he' := with_refs he (he_refs he - 1)).
  change (with_refcount _ _) with (attr_of he' data count). cbn [attr_of ao_refcount he' with_refs he_refs].
  replace (he_refs he - 1 =? 0) with true by lia. cbn [negb]. pose proof (w_good _ _ _ _ _ Hw) as Hg.
  assert (HH : H !! a = Some (Cell SIZEOF_PATTR (o_attr (attr_of he data count)))) by (eapply lookup_weaken; [apply lookup_insert_eq|done]).
  destruct (put_ok _ _ _ a _ _ (o_attr (attr_of he' data count)) Hg HH) as (m1 & Hrun1 & Hg1); [by eapply plain_unlisted|done|].
  rewrite (hbind _ _ _ _ _ Hrun1). set (H1' := <[a := Cell SIZEOF_PATTR (o_attr (attr_of he' data count))]> H) in *.
  destruct (release_part m1 H1' l a (attr_of he' data count) (he_content he) P0) as (m2 & Hrun2 & Hg2 & Hl2); [done|done|done| |..].
  { apply insert_mono. etrans; [by apply insert_subseteq|done]. }
  { apply listed_insert_plain; [apply (w_listed _ _ _ _ _ Hw)|done]. }
  assert (Hdiff : H1' ∖ <[a := Cell SIZEOF_PATTR (o_attr (attr_of he' data count))]> P0 =
    H ∖ <[a := Cell SIZEOF_PATTR (o_attr (attr_of he data count))]> P0).
  { apply map_eq. intros i. rewrite !lookup_difference. unfold H1'. destruct (decide (i = a)) as [->|Hne]; [by rewrite !lookup_insert_eq|by rewrite !lookup_insert_ne]. }
  rewrite Hdiff in *. by exists m2, (without l P0).
Qed.

Lemma unref_ok m R a he :
  world m R → R !! a = Some he →
  ∃ m', libbgp_pattr_unref a m = Some (tt, m') ∧
    world m' (if he_refs he =? 1 then delete a R else <[a := with_refs he (he_refs he - 1)]> R).
Proof.
  intros (H & l & parts & Hw) Ha. destruct (he_refs he =? 1) eqn:H1.
  { destruct (world_part _ _ _ _ _ _ _ Hw Ha) as (P & HP & _). destruct (unref_last _ _ _ _ _ _ _ _ Hw Ha HP ltac:(lia)) as (m' & l' & Hrun & Hg & Hl).
    exists m'. split; [done|]. by eapply world_remove. }
  destruct (world_object _ _ _ _ _ _ _ Hw Ha) as (data & count & P0 & HP & Hn & Hc & Hr & Hpos & Hs & Hload).
  unfold libbgp_pattr_unref. replace (a =? 0) with false by lia. rewrite (hbind _ _ _ _ _ Hload). cbn [attr_of ao_refcount].
  replace (he_refs he =? 0) with false by lia. set (he' := with_refs he (he_refs he - 1)).
  change (with_refcount _ _) with (attr_of he' data count). cbn [attr_of ao_refcount he' with_refs he_refs].
  destruct (rewrite_object _ _ _ _ _ _ _ _ _ _ he' Hw Ha HP Hn Hc) as (m' & Hrun & Hw'); [done|done|cbn; lia|].
  rewrite (hbind _ _ _ _ _ Hrun). replace (he_refs he - 1 =? 0) with false by lia. by exists m'.
Qed.

(** ** Parsing *)

Definition value_type (v : wire_value) : libbgp_pattr_type_t :=
  match v with
  | v_as_path type _ _ | v_scalar type => type
  | v_community _ => LIBBGP_PATTR_COMMUNITY
  | v_unknown _ => LIBBGP_PATTR_UNKNOWN
  end.

Definition value_content (v : wire_value) : content :=
  match v with
  | v_as_path _ _ [] => k_path []
  | v_as_path _ _ segs => k_block segs
  | v_community _ | v_unknown _ => k_array
  | v_scalar _ => k_none
  end.

Definition value_is_4b (v : wire_value) : bool := match v with v_as_path _ is_4b _ => is_4b | _ => false end.

Definition value_ok (v : wire_value) : Prop :=
  match v with
  | v_as_path type _ _ => is_path type = true
  | v_scalar type => is_path type = false ∧ is_array type = false
  | _ => True
  end.

Lemma layout_block n k so ao bs :
  1 <= n → 0 <= k → pattr_as_path_block_layout n k = Some (so, ao, bs) → so = SIZEOF_BLOCK ∧ SIZEOF_BLOCK < bs.
Proof.
  intros Hn Hk. unfold pattr_as_path_block_layout. case_match; [done|]. change (pattr_align_offset SIZEOF_BLOCK 8) with (Some 24). cbv iota beta.
  case_match; [done|]. destruct (pattr_align_offset (24 + n * SIZEOF_SEGMENT) 4) as [off|] eqn:Hoff; [|done].
  assert (24 + n * 24 <= off).
  { unfold pattr_align_offset, SIZEOF_SEGMENT in Hoff. change (4 =? 0) with false in Hoff. cbv iota in Hoff.
    pose proof (Z.mod_pos_bound (24 + n * 24) 4 ltac:(lia)). repeat case_match; simplify_eq; lia. }
  case_match; [done|]. intros [= <- <- <-]. unfold SIZEOF_BLOCK, SIZEOF_ASN in *. lia.
Qed.

(** The new cells beside the heap. *)
Definition allocated (r : attr_obj + libbgp_err_t) (v : wire_value) m H l : Prop :=
  (∃ e, r = inr e ∧ e ≠ LIBBGP_OK ∧ good m H l ∧ listed H l) ∨
  (∃ data count P l', r = inl (AttrObj 0 (value_type v) data count (value_is_4b v)) ∧
    content_cells (value_type v) data count (value_content v) P ∧ P ##ₘ H ∧ good m (P ∪ H) l' ∧ listed (P ∪ H) l').

Lemma parse_array_ok m H l words size (v : wire_value) :
  good m H l → listed H l → 0 < size → is_array (value_type v) = true → value_content v = k_array →
  ∃ r m', parse_array words size m = Some (r, m') ∧
    allocated (match r with inl p => inl (AttrObj 0 (value_type v) p (zlen words) (value_is_4b v)) | inr e => inr e end) v m' H l.
Proof.
  intros Hg Hl Hsz Ht Hk. unfold parse_array. destruct (zlen words =? 0) eqn:Hz.
  { exists (inl 0), m. split; [done|]. right. exists 0, (zlen words), ∅, l. rewrite Hk, (left_id_L ∅ (∪)). split_and!; try done; [by constructor|apply map_disjoint_empty_l]. }
  destruct (malloc_ok m H l (zlen words * size) (o_words words) Hg) as (p & m' & Hrun & Hp); [done|lia|].
  rewrite (hbind _ _ _ _ _ Hrun). destruct Hp as [[-> Hg']|(Hpos & Hn & Hg')].
  - exists (inr LIBBGP_ERR_NOMEM), m'. split; [done|]. left. by exists LIBBGP_ERR_NOMEM.
  - replace (p =? 0) with false by lia. exists (inl p), m'. split; [done|]. right. exists p, (zlen words), {[p := Cell (zlen words * size) (o_words words)]}, l.
    rewrite Hk, <-insert_union_singleton_l. split_and!; try done; [by constructor|by apply map_disjoint_singleton_l|by apply listed_insert_plain].
Qed.

Lemma parse_block_ok m H l type is_4b segs :
  good m H l → listed H l → is_path type = true →
  ∃ r m', parse_as_path_block segs m = Some (r, m') ∧
    allocated (match r with inl p => inl (AttrObj 0 type p (zlen segs) is_4b) | inr e => inr e end) (v_as_path type is_4b segs) m' H l.
Proof.
  intros Hg Hl Ht. unfold parse_as_path_block. destruct segs as [|seg segs].
  { eexists _, m. split; [done|]. right. exists 0, 0, ∅, l. rewrite (left_id_L ∅ (∪)). split_and!; try done; [by constructor|apply map_disjoint_empty_l]. }
  set (path := seg :: segs) in *. replace (zlen path =? 0) with false by (unfold path; cbn [length]; lia).
  destruct (pattr_as_path_block_layout (zlen path) (asn_total path)) as [[[so ao] bs]|] eqn:Hlay.
  2:{ eexists _, m. split; [done|]. left. by exists LIBBGP_ERR_BAD_LEN. }
  apply layout_block in Hlay as [-> Hbs]; [|unfold path; cbn [length]; lia|unfold asn_total; lia].
  destruct (malloc_ok m H l bs (o_block 0 0 0 path) Hg) as (b & m1 & Hrun & Hb); [done|unfold SIZEOF_BLOCK in Hbs; lia|].
  rewrite (hbind _ _ _ _ _ Hrun). destruct Hb as [[-> Hg1]|(Hpos & Hn & Hg1)].
  { eexists _, m1. split; [done|]. left. by exists LIBBGP_ERR_NOMEM. }
  replace (b =? 0) with false by lia.
  assert (Hout : b ∉ l) by (intros Hin; destruct (g_reg _ _ _ Hg b Hin) as (? & ? & HH & _); congruence).
  destruct (register_ok _ _ _ b bs 0 path Hg1 ltac:(apply lookup_insert_eq) Hout Hbs) as (m2 & Hrun2 & Hg2).
  rewrite insert_insert_eq in Hg2. eexists _, m2. rewrite (hbind _ _ _ _ _ Hrun2). split; [done|]. right.
  exists (b + SIZEOF_BLOCK), (zlen path), {[b := Cell bs (o_block 0 0 (b + SIZEOF_BLOCK) path)]}, (b :: l). cbn [value_type value_is_4b].
  rewrite <-insert_union_singleton_l. split_and!; try done; [by constructor|by apply map_disjoint_singleton_l|].
  intros x sz s sg Hx. apply lookup_insert_Some in Hx as [[<- _]|[_ Hx]]; [set_solver|]. apply elem_of_cons. right. by eapply Hl.
Qed.

Lemma parse_tmp_ok m H l v :
  good m H l → listed H l → value_ok v → ∃ r m', parse_tmp v m = Some (r, m') ∧ allocated r v m' H l.
Proof.
  intros Hg Hl Hv. destruct v as [type is_4b segs|values|bytes|type]; cbn [parse_tmp].
  - destruct (parse_block_ok m H l type is_4b segs Hg Hl Hv) as (r & m' & Hrun & Ha).
    rewrite (hbind _ _ _ _ _ Hrun). eexists _, m'. split; [done|]. exact Ha.
  - destruct (parse_array_ok m H l values 4 (v_community values) Hg Hl) as (r & m' & Hrun & Ha); [lia|done|done|].
    rewrite (hbind _ _ _ _ _ Hrun). eexists _, m'. split; [done|]. exact Ha.
  - destruct (parse_array_ok m H l bytes 1 (v_unknown bytes) Hg Hl) as (r & m' & Hrun & Ha); [lia|done|done|].
    rewrite (hbind _ _ _ _ _ Hrun). eexists _, m'. split; [done|]. exact Ha.
  - destruct Hv. eexists _, m. split; [done|]. right. exists 0, 0, ∅, l. rewrite (left_id_L ∅ (∪)). split_and!; try done; [by constructor|apply map_disjoint_empty_l].
Qed.

Definition parsed_held he (v : wire_value) : held := Held (value_type v) (he_refs he) (value_is_4b v) (value_content v).

(** The heap after the old data was freed and the object was written. *)
Lemma exchange_part H P0 P1 a c c' :
  P0 !! a = None → <[a := c]> P0 ⊆ H → P1 ##ₘ H →
  <[a := c']> P1 ##ₘ H ∖ <[a := c]> P0 ∧ <[a := c']> ((P1 ∪ H) ∖ P0) = <[a := c']> P1 ∪ H ∖ <[a := c]> P0 ∧ P1 !! a = None.
Proof.
  intros Hn Hs Hd. rewrite map_disjoint_spec in Hd. assert (HH : ∀ i x, P0 !! i = Some x → H !! i = Some x).
  { intros i x Hi. eapply lookup_weaken; [|exact Hs]. rewrite lookup_insert_ne; [done|]. intros ->. congruence. }
  assert (Ha : H !! a = Some c) by (eapply lookup_weaken; [apply lookup_insert_eq|done]).
  assert (H1 : P1 !! a = None) by (destruct (P1 !! a) eqn:HP; [|done]; by destruct (Hd _ _ _ HP Ha)). split_and!; [| |done].
  - apply map_disjoint_spec. intros i x y Hi Hy. apply lookup_difference_Some in Hy as [Hy Hno]. apply lookup_insert_None in Hno as [_ Hne].
    rewrite lookup_insert_ne in Hi by done. by eapply Hd.
  - apply map_eq. intros i. destruct (decide (i = a)) as [->|Hne].
    + by rewrite lookup_union, !lookup_insert_eq, union_Some_l.
    + rewrite lookup_union, !lookup_insert_ne by done. rewrite !lookup_difference, lookup_insert_ne, lookup_union by done.
      destruct (P0 !! i) as [x|] eqn:Hi; [|done]. apply HH in Hi. destruct (P1 !! i) as [y|] eqn:Hi1; [by destruct (Hd _ _ _ Hi1 Hi)|done].
Qed.

Lemma parse_ok m R a he v :
  world m R → R !! a = Some he → value_ok v →
  ∃ e m', mem_pattr_parse a v m = Some (e, m') ∧
    world m' (if decide (e = LIBBGP_OK) then <[a := parsed_held he v]> R else R).
Proof.
  intros (H & l & parts & Hw) Ha Hv. destruct (world_object _ _ _ _ _ _ _ Hw Ha) as (data & count & P0 & HP & Hn & Hc & Hr & Hpos & Hs & _).
  pose proof (w_good _ _ _ _ _ Hw) as Hg. pose proof (w_listed _ _ _ _ _ Hw) as Hl.
  destruct (parse_tmp_ok _ _ _ v Hg Hl Hv) as (r & m1 & Hrun & Halloc). unfold mem_pattr_parse. rewrite (hbind _ _ _ _ _ Hrun).
  destruct Halloc as [(e & -> & He & Hg1 & _)|(data' & count' & P1 & l' & -> & Hc' & Hd & Hg1 & Hl1)].
  { exists e, m1. split; [done|]. rewrite decide_False by done. by eapply world_same. }
  assert (Hs1 : <[a := Cell SIZEOF_PATTR (o_attr (attr_of he data count))]> P0 ⊆ P1 ∪ H) by (etrans; [exact Hs|by apply map_union_subseteq_r]).
  assert (HH : (P1 ∪ H) !! a = Some (Cell SIZEOF_PATTR (o_attr (attr_of he data count)))) by (eapply lookup_weaken; [apply lookup_insert_eq|done]).
  rewrite (hbind _ _ _ _ _ (load_attr_ok _ _ _ _ _ _ Hg1 HH)).
  destruct (free_data_ok _ _ _ (attr_of he data count) (he_content he) P0 Hg1) as (m2 & Hrun2 & Hg2); [done|etrans; [by apply insert_subseteq|done]| |].
  { intros b sz s segs Hb. eapply Hl1, lookup_weaken; [exact Hb|]. etrans; [by apply insert_subseteq|done]. }
  rewrite (hbind _ _ _ _ _ Hrun2).
  assert (Ha2 : ((P1 ∪ H) ∖ P0) !! a = Some (Cell SIZEOF_PATTR (o_attr (attr_of he data count)))) by by rewrite difference_none.
  set (he' := parsed_held he v). change (with_refcount _ _) with (attr_of he' data' count').
  destruct (put_ok _ _ _ a _ _ (o_attr (attr_of he' data' count')) Hg2 Ha2) as (m3 & Hrun3 & Hg3); [by eapply plain_unlisted|done|].
  rewrite (hbind _ _ _ _ _ Hrun3). exists LIBBGP_OK, m3. split; [done|]. rewrite decide_True by done.
  destruct (exchange_part H P0 P1 a _ (Cell SIZEOF_PATTR (o_attr (attr_of he' data' count'))) Hn Hs Hd) as (Hd' & Heq & Hn1). rewrite Heq in Hg3.
  eapply world_replace; [done|done|exact HP| |exact Hd'|exact Hg3|].
  - constructor; done.
  - rewrite <-Heq. apply listed_insert_plain; [by apply listed_without|done].
Qed.

(** ** Reading a path *)

Definition content_segs (k : content) : option (list libbgp_as_path_segment_t) :=
  match k with k_block segs | k_path segs => Some segs | _ => None end.

Lemma read_segs_ok m H l cs segs P : good m H l → path_cells cs segs P → P ⊆ H → read_segs cs m = Some (segs, m).
Proof.
  intros Hg Hc Hs. induction Hc as [|t cs segs P Hc IH|t q sz words cs segs P Hw Hq Hc IH]; cbn [read_segs]; [done|..].
  - rewrite (hbind _ _ _ (Segment t []) m eq_refl). by rewrite (hbind _ _ _ _ _ (IH Hs)).
  - assert (HH : H !! q = Some (Cell sz (o_words words))) by (eapply lookup_weaken; [apply lookup_insert_eq|done]).
    assert (Hread : read_seg (CSeg t (zlen words) q) m = Some (Segment t words, m)).
    { unfold read_seg. cbn [sg_count sg_asns sg_type]. replace (zlen words =? 0) with false by (destruct words; [done|cbn [length]; lia]).
      rewrite (hbind _ _ _ _ _ (load_ok _ _ _ _ _ _ Hg HH ltac:(done))). by rewrite Z.eqb_refl. }
    rewrite (hbind _ _ _ _ _ Hread), (hbind _ _ _ segs m); [done|]. apply IH. etrans; [by apply insert_subseteq|done].
Qed.

Lemma inside_block m H l b : good m H l → b ∈ l → H !! (b + SIZEOF_BLOCK) = None.
Proof.
  intros Hg Hb. destruct (H !! (b + SIZEOF_BLOCK)) eqn:HH; [|done]. exfalso. by eapply (outside_blocks _ _ _ (b + SIZEOF_BLOCK) Hg).
Qed.

Lemma read_path_ok m H l attr k segs P :
  good m H l → listed H l → content_cells (ao_type attr) (ao_data attr) (ao_count attr) k P → P ⊆ H → content_segs k = Some segs →
  read_path attr m = Some (segs, m) ∧ zlen segs = ao_count attr ∧ (ao_count attr = 0 → ao_data attr = 0) ∧ is_path (ao_type attr) = true.
Proof.
  intros Hg Hl Hc Hs Hk. destruct attr as [rc type data count is_4b]. unfold read_path. cbn [ao_type ao_data ao_count] in *.
  destruct Hc as [? ? ? ?|? ?|? ? ? ? ?|b sz sg Hp Hne|Hp|p sz cs sg P Hp Hne Hc Hn]; cbn in Hk; simplify_eq.
  - assert (HH : H !! b = Some (Cell sz (o_block 0 0 (b + SIZEOF_BLOCK) segs))) by (eapply lookup_weaken; [apply lookup_singleton_eq|done]).
    pose proof (Hl _ _ _ _ HH) as Hb. pose proof (registered_pos _ _ _ _ Hg Hb).
    replace (b + SIZEOF_BLOCK =? 0) with false by (unfold SIZEOF_BLOCK; lia).
    pose proof (inside_block _ _ _ _ Hg Hb) as Hin. rewrite <-(g_heap _ _ _ Hg), lookup_fmap, fmap_None in Hin. rewrite Hin.
    replace (b + SIZEOF_BLOCK - SIZEOF_BLOCK) with b by lia.
    destruct (good_lookup _ _ _ _ _ Hg HH) as ([sz' o'] & Hbl & He). unfold erase in He. cbn in He. destruct o' as [|p0 n0 s1 sg'| |]; cbn in He; simplify_eq.
    rewrite (load_block_run _ _ _ _ _ _ _ Hbl). rewrite !Z.eqb_refl. split_and!; try done. destruct sg'; [done|]. cbn [length]. lia.
  - done.
  - assert (HH : H !! p = Some (Cell sz (o_segs cs))) by (eapply lookup_weaken; [apply lookup_insert_eq|done]).
    pose proof (g_pos _ _ _ Hg _ _ HH) as [Hpos _]. replace (p =? 0) with false by lia.
    rewrite (good_plain _ _ _ _ _ _ Hg HH) by done. rewrite Z.eqb_refl. rewrite (path_length _ _ _ Hc). split_and!; try done.
    + eapply read_segs_ok; [done|done|]. etrans; [by apply insert_subseteq|done].
    + apply path_length in Hc. destruct cs; [done|]. cbn [length] in *. lia.
Qed.

(** ** Copying *)

Definition zero_seg : c_seg := CSeg 0 0 0.

(** The array with its first segments written. *)
Lemma copy_loop_ok src m H0 l p sz cs segs P :
  good m (P ∪ <[p := Cell sz (o_segs (cs ++ replicate (length src) zero_seg))]> H0) l →
  path_cells cs segs P → P ##ₘ H0 → P !! p = None → H0 !! p = None →
  ∃ r m' cs' P', copy_loop p (length cs) src m = Some (r, m') ∧ P' ##ₘ H0 ∧ P' !! p = None ∧
    good m' (P' ∪ <[p := Cell sz (o_segs cs')]> H0) l ∧ length cs' = (length cs + length src)%nat ∧
    match r with
    | None => path_cells cs' (segs ++ src) P'
    | Some e => e ≠ LIBBGP_OK ∧ ptr_cells (sg_asns <$> cs') P'
    end.
Proof.
  revert m cs segs P. induction src as [|[t words] src IH]; intros m cs segs P Hg Hc Hd Hp Hp0; cbn [copy_loop length replicate] in *.
  { rewrite app_nil_r in *. exists None, m, cs, P. split_and!; try done. }
  set (arr := λ cs, Cell sz (o_segs cs)) in *. cbn [seg_type seg_asns].
  assert (Hins : ∀ c c', <[p := c']> (P ∪ <[p := c]> H0) = P ∪ <[p := c']> H0) by (intros c c'; rewrite insert_union_r by done; by rewrite insert_insert_eq).
  assert (Hlook : ∀ c, (P ∪ <[p := c]> H0) !! p = Some c).
  { intros c. rewrite lookup_union_r by done. apply lookup_insert_eq. }
  rewrite (hbind _ _ _ _ _ (load_ok _ _ _ _ _ _ Hg (Hlook _) ltac:(done))).
  assert (Hout : p ∉ l) by (eapply plain_unlisted; [exact Hg|apply Hlook|done]).
  assert (Hupd : ∀ x, <[length cs := x]> (cs ++ zero_seg :: replicate (length src) zero_seg) = (cs ++ [x]) ++ replicate (length src) zero_seg).
  { intros x. rewrite <-(Nat.add_0_r (length cs)) at 1. rewrite insert_app_r. cbn. by rewrite <-(assoc_L (++)). }
  rewrite Hupd. destruct (put_ok _ _ _ p _ _ (o_segs ((cs ++ [CSeg t (zlen words) 0]) ++ replicate (length src) zero_seg)) Hg (Hlook _) Hout) as (m1 & Hrun1 & Hg1); [done|].
  rewrite (hbind _ _ _ _ _ Hrun1). rewrite Hins in Hg1.
  assert (Hnext : ∀ x, length (cs ++ [x]) = S (length cs)) by (intros; rewrite length_app; cbn; lia).
  assert (Hstop : ∀ e m', e ≠ LIBBGP_OK → good m' (P ∪ <[p := arr ((cs ++ [CSeg t (zlen words) 0]) ++ replicate (length src) zero_seg)]> H0) l →
    ∃ cs' P', P' ##ₘ H0 ∧ P' !! p = None ∧ good m' (P' ∪ <[p := arr cs']> H0) l ∧ length cs' = (length cs + S (length src))%nat ∧
      (e ≠ LIBBGP_OK ∧ ptr_cells (sg_asns <$> cs') P')).
  { intros e m' He Hg'. eexists _, P. split_and!; [done|done|exact Hg'| |done|].
    - rewrite !length_app, length_replicate. cbn [length]. lia.
    - rewrite !fmap_app, fmap_replicate, <-(assoc_L (++)). change (0 :: replicate (length src) 0) with (replicate (S (length src)) 0).
      exact (ptr_cells_nulls _ _ (S (length src)) (path_ptr_cells _ _ _ Hc)). }
  destruct (zlen words =? 0) eqn:Hz.
  { assert (words = []) as -> by (destruct words; [done|cbn [length] in Hz; lia]).
    destruct (IH m1 (cs ++ [CSeg t 0 0]) (segs ++ [Segment t []]) P Hg1) as (r & m' & cs' & P' & Hrun & ? & ? & ? & Hlen & Hr); [by apply path_cells_null_snoc|done..|].
    rewrite Hnext in *. exists r, m', cs', P'. split_and!; try done; [lia|]. destruct r; [done|]. by rewrite <-(assoc_L (++)) in Hr. }
  destruct (SIZE_MAX / SIZEOF_ASN <? zlen words).
  { destruct (Hstop LIBBGP_ERR_BAD_LEN m1) as (cs' & P' & ?); try done. by exists (Some LIBBGP_ERR_BAD_LEN), m1, cs', P'. }
  destruct (malloc_ok _ _ _ (zlen words * SIZEOF_ASN) (o_words words) Hg1) as (q & m2 & Hrun2 & Hq); [done|unfold SIZEOF_ASN; lia|].
  rewrite (hbind _ _ _ _ _ Hrun2). destruct Hq as [[-> Hg2]|(Hpos & Hn & Hg2)].
  { destruct (Hstop LIBBGP_ERR_NOMEM m2) as (cs' & P' & ?); try done. by exists (Some LIBBGP_ERR_NOMEM), m2, cs', P'. }
  replace (q =? 0) with false by lia. apply lookup_union_None in Hn as [HnP Hn0]. apply lookup_insert_None in Hn0 as [Hn0 Hpq].
  rewrite insert_union_l in Hg2. set (P2 := <[q := Cell (zlen words * SIZEOF_ASN) (o_words words)]> P) in *.
  assert (HP2 : P2 !! p = None) by (unfold P2; by rewrite lookup_insert_ne).
  assert (Hlook2 : ∀ c, (P2 ∪ <[p := c]> H0) !! p = Some c) by (intros c; rewrite lookup_union_r by done; apply lookup_insert_eq).
  rewrite Hupd. destruct (put_ok _ _ _ p _ _ (o_segs ((cs ++ [CSeg t (zlen words) q]) ++ replicate (length src) zero_seg)) Hg2 (Hlook2 _) Hout) as (m3 & Hrun3 & Hg3); [done|].
  rewrite (hbind _ _ _ _ _ Hrun3). rewrite insert_union_r, insert_insert_eq in Hg3 by done.
  destruct (IH m3 (cs ++ [CSeg t (zlen words) q]) (segs ++ [Segment t words]) P2 Hg3) as (r & m' & cs' & P' & Hrun & ? & ? & ? & Hlen & Hr); [|by apply map_disjoint_insert_l|done|done|].
  { apply path_cells_snoc; [done| |done]. intros ->. cbn in Hz. lia. }
  rewrite Hnext in *. exists r, m', cs', P'. split_and!; try done; [lia|]. destruct r; [done|]. by rewrite <-(assoc_L (++)) in Hr.
Qed.

Lemma validate_bad_len narrow segs total e t : validate_segments narrow segs total [] = (Err e, t) → e = LIBBGP_ERR_BAD_LEN.
Proof.
  assert (Hwp : ∀ total, wp (validate_segments narrow segs total) (λ _, True) (λ e, e = LIBBGP_ERR_BAD_LEN)).
  { induction segs as [|seg segs IH]; intros n; cbn [validate_segments]; [by apply wp_ret|].
    do 3 (apply wp_bind, wp_fail_if; intros; [done|]). apply IH. }
  intros Hv. destruct (wp_run _ _ _ (Hwp total)) as [(x & Hr & _)|(e' & Hr & He)]; rewrite Hr in Hv; by simplify_eq.
Qed.

Lemma path_defect_code attr segs e : path_defect attr segs = Some e → e = LIBBGP_ERR_BAD_LEN.
Proof.
  unfold path_defect. case_match; [by intros [= <-]|]. destruct (ao_type attr); cbn; try by intros [= <-].
  - destruct (validate_segments false segs 0 []) as [[] ?] eqn:Hv; try done. intros [= <-]. by eapply validate_bad_len.
  - destruct (ao_is_4b attr); cbn; [|by intros [= <-]]. unfold mbind, M_bind, fail_if, mret, M_ret. cbn.
    destruct (validate_segments false segs 0 []) as [[] ?] eqn:Hv; try done. intros [= <-]. by eapply validate_bad_len.
Qed.

Definition object (attr : attr_obj) : cell := Cell SIZEOF_PATTR (o_attr attr).

Lemma set_path_ok m K l c attr data count is_4b :
  good m (<[c := object attr]> K) l →
  ∃ m', set_path c data count is_4b m = Some (tt, m') ∧
    good m' (<[c := object (AttrObj (ao_refcount attr) (ao_type attr) data count is_4b)]> K) l.
Proof.
  intros Hg. unfold set_path. assert (Hc : <[c := object attr]> K !! c = Some (object attr)) by apply lookup_insert_eq.
  rewrite (hbind _ _ _ _ _ (load_attr_ok _ _ _ _ _ _ Hg Hc)).
  destruct (put_ok _ _ _ c _ _ (o_attr (AttrObj (ao_refcount attr) (ao_type attr) data count is_4b)) Hg Hc) as (m' & Hrun & Hg'); [by eapply plain_unlisted|done|].
  exists m'. split; [done|]. by rewrite insert_insert_eq in Hg'.
Qed.

(** The outcome of a copy: a copy that fails leaves an object without data, one
    that succeeds the path in pieces; the rest of memory is as it was. *)
Definition copied (e : libbgp_err_t) m H l c (type : libbgp_pattr_type_t) (is_4b : bool) (segs : list libbgp_as_path_segment_t) : Prop :=
  if decide (e = LIBBGP_OK)
  then ∃ data count P, content_cells type data count (k_path segs) P ∧
    P ##ₘ H ∧ P !! c = None ∧ good m (<[c := object (AttrObj 1 type data count is_4b)]> P ∪ H) l ∧
    listed (<[c := object (AttrObj 1 type data count is_4b)]> P ∪ H) l
  else ∃ count wide, good m (<[c := object (AttrObj 1 type 0 count wide)]> H) l.

Lemma path_blockless cs segs P b sz s sg : path_cells cs segs P → P !! b ≠ Some (Cell sz (o_block 0 0 s sg)).
Proof.
  induction 1 as [|? ? ? ? ? IH|? ? ? ? ? ? ? ? ? ? IH]; [done|done|]. intros Hb.
  by apply lookup_insert_Some in Hb as [[_ ?]|[_ ?]].
Qed.

(** The array and its pieces, taken away again. *)
Lemma pieces_gone P p c H0 :
  P ##ₘ H0 → H0 !! p = None → (P ∪ <[p := c]> H0) ∖ <[p := c]> P = H0.
Proof.
  intros Hd Hp. apply map_eq. intros i. rewrite lookup_difference. destruct (decide (i = p)) as [->|Hip].
  - by rewrite lookup_insert_eq.
  - rewrite lookup_insert_ne by done. destruct (P !! i) as [x|] eqn:Hi.
    + destruct (H0 !! i) eqn:H0i; [|done]. rewrite map_disjoint_spec in Hd. by destruct (Hd _ _ _ Hi H0i).
    + rewrite lookup_union_r by done. by rewrite lookup_insert_ne.
Qed.

(** The second half of the copy: the array is allocated, the object points to
    it. *)
Lemma copy_segments_at m H l c p type is_4b segs :
  let A1 := AttrObj 1 type p (zlen segs) is_4b in
  let arr := λ cs, Cell (zlen segs * SIZEOF_SEGMENT) (o_segs cs) in
  good m (<[p := arr (replicate (length segs) zero_seg)]> (<[c := object A1]> H)) l →
  listed H l → is_path type = true → segs ≠ [] → H !! c = None → H !! p = None → c ≠ p →
  ∃ e m', (r ← copy_loop p 0 segs;
           match r with
           | None => mret LIBBGP_OK
           | Some e => bgp_as_path_segments_free p (zlen segs);; set_path c 0 0 is_4b;; mret e
           end) m = Some (e, m') ∧ copied e m' H l c type is_4b segs.
Proof.
  intros A1 arr Hg Hl Ht Hne Hc Hnp Hcp. subst arr. cbv beta in Hg. set (H0 := <[c := object A1]> H) in *. unfold copied.
  assert (Hp0 : H0 !! p = None) by (unfold H0; by rewrite lookup_insert_ne).
  destruct (copy_loop_ok segs m H0 l p (zlen segs * SIZEOF_SEGMENT) [] [] ∅) as (r & m4 & cs & P & Hrun4 & Hd & HPp & Hg4 & Hlcs & Hr); [|constructor|apply map_disjoint_empty_l|done|done|].
  { by rewrite (left_id_L ∅ (∪)). }
  cbn [length Nat.add app] in *. rewrite (hbind _ _ _ _ _ Hrun4). pose proof Hd as [HPc HdH]%map_disjoint_insert_r. destruct r as [e|].
  - destruct Hr as [He Hptr].
    assert (HKp : (P ∪ <[p := Cell (zlen segs * SIZEOF_SEGMENT) (o_segs cs)]> H0) !! p = Some (Cell (zlen segs * SIZEOF_SEGMENT) (o_segs cs))) by (rewrite lookup_union_r by done; apply lookup_insert_eq).
    destruct (segments_free_pieces m4 _ l p _ cs _ P (zlen segs) Hg4 HKp Hptr eq_refl) as (m5 & Hrun5 & Hg5); [lia|apply map_union_subseteq_l|done|].
    rewrite (hbind _ _ _ _ _ Hrun5). rewrite (pieces_gone P p (Cell (zlen segs * SIZEOF_SEGMENT) (o_segs cs)) H0 Hd Hp0) in Hg5.
    destruct (set_path_ok _ _ _ c _ 0 0 is_4b Hg5) as (m6 & Hrun6 & Hg6). rewrite (hbind _ _ _ _ _ Hrun6).
    exists e, m6. split; [done|]. rewrite decide_False by done. eauto.
  - exists LIBBGP_OK, m4. split; [done|]. rewrite decide_True by done. exists p, (zlen segs), (<[p := Cell (zlen segs * SIZEOF_SEGMENT) (o_segs cs)]> P).
    assert (Heq : <[c := object A1]> (<[p := Cell (zlen segs * SIZEOF_SEGMENT) (o_segs cs)]> P) ∪ H = P ∪ <[p := Cell (zlen segs * SIZEOF_SEGMENT) (o_segs cs)]> H0).
    { unfold H0. rewrite insert_insert_ne by done. rewrite <-insert_union_l, <-insert_union_r by done.
      f_equal. by rewrite <-insert_union_l, insert_union_r. }
    fold A1. rewrite Heq. split_and!; [|by apply map_disjoint_insert_l|by rewrite lookup_insert_ne|done|].
    + rewrite <-Hlcs at 1. constructor; [done|by destruct cs; [destruct segs|]|done|done].
    + intros b sz sb sg Hb. apply lookup_union_Some_raw in Hb as [Hb|[_ Hb]]; [by eapply path_blockless in Hb|].
      apply lookup_insert_Some in Hb as [[_ Hb]|[_ Hb]]; [done|]. apply lookup_insert_Some in Hb as [[_ Hb]|[_ Hb]]; [done|]. by eapply Hl.
Qed.

Lemma copy_at m H l c src type is_4b s k P0 :
  let A0 := AttrObj 1 type 0 0 (bool_decide (type = LIBBGP_PATTR_AS4_PATH)) in
  good m (<[c := object A0]> H) l → listed H l → H !! c = None → is_path type = true →
  <[src := object s]> P0 ⊆ H → P0 !! src = None → content_cells (ao_type s) (ao_data s) (ao_count s) k P0 →
  (is_path (ao_type s) = true → ∃ segs, content_segs k = Some segs) →
  ∃ e m' segs, mem_copy_as_path_data c src is_4b m = Some (e, m') ∧
    (e = LIBBGP_OK → content_segs k = Some segs) ∧ copied e m' H l c type is_4b segs.
Proof.
  intros A0 Hg Hl Hc Ht Hs Hn Hcc Hsegs. unfold mem_copy_as_path_data.
  assert (Hc1 : <[c := object A0]> H !! c = Some (object A0)) by apply lookup_insert_eq.
  assert (Hfail : ∀ e m' (count : Z) (wide : bool) segs, e ≠ LIBBGP_OK → good m' (<[c := object (AttrObj 1 type 0 count wide)]> H) l →
    (e = LIBBGP_OK → content_segs k = Some segs) ∧ copied e m' H l c type is_4b segs).
  { intros e m' count wide segs He Hg'. split; [done|]. unfold copied. rewrite decide_False by done. eauto. }
  rewrite (hbind _ _ _ _ _ (load_attr_ok _ _ _ _ _ _ Hg Hc1)). cbn [ao_type A0]. rewrite Ht. cbn [negb].
  assert (Hsrc : H !! src = Some (object s)) by (eapply lookup_weaken; [apply lookup_insert_eq|done]).
  assert (Hne : c ≠ src) by (intros ->; congruence).
  assert (Hsub : <[src := object s]> P0 ⊆ <[c := object A0]> H) by (etrans; [exact Hs|by apply insert_subseteq]).
  assert (Hsrc1 : <[c := object A0]> H !! src = Some (object s)) by by rewrite lookup_insert_ne.
  rewrite (hbind _ _ _ _ _ (load_attr_ok _ _ _ _ _ _ Hg Hsrc1)).
  destruct (is_path (ao_type s)) eqn:Hst; cbn [negb]; [|exists LIBBGP_ERR_BAD_LEN, m, []; split; [done|by eapply Hfail]].
  destruct (Hsegs eq_refl) as [segs Hk].
  assert (Hl1 : listed (<[c := object A0]> H) l) by by apply listed_insert_plain.
  destruct (read_path_ok _ _ _ s k segs P0 Hg Hl1 Hcc) as (Hread & Hlen & Hzero & _); [etrans; [by apply insert_subseteq|done]|done|].
  rewrite (hbind _ _ _ _ _ Hread). destruct (path_defect s segs) as [e|] eqn:Hdef.
  { apply path_defect_code in Hdef as ->. exists LIBBGP_ERR_BAD_LEN, m, []. split; [done|by eapply Hfail]. }
  destruct (set_path_ok _ _ _ c A0 (ao_data A0) (ao_count s) is_4b Hg) as (m1 & Hrun1 & Hg1). rewrite (hbind _ _ _ _ _ Hrun1).
  cbn [A0 ao_data ao_refcount ao_type] in Hg1. rewrite <-Hlen in *. destruct (zlen segs =? 0) eqn:Hz.
  { assert (segs = []) as -> by (destruct segs; [done|cbn [length] in Hz; lia]). exists LIBBGP_OK, m1, []. split; [done|]. split; [done|].
    unfold copied. rewrite decide_True by done. exists 0, 0, ∅. rewrite insert_empty, <-insert_union_singleton_l.
    split_and!; try done; [by constructor|apply map_disjoint_empty_l|by apply listed_insert_plain]. }
  destruct (SIZE_MAX / SIZEOF_SEGMENT <? zlen segs); [exists LIBBGP_ERR_BAD_LEN, m1, []; split; [done|by eapply Hfail]|].
  rewrite Nat2Z.id.
  destruct (malloc_ok _ _ _ (zlen segs * SIZEOF_SEGMENT) (o_segs (replicate (length segs) zero_seg)) Hg1) as (p & m2 & Hrun2 & Hp); [done|unfold SIZEOF_SEGMENT; lia|].
  rewrite (hbind _ _ _ _ _ Hrun2). destruct Hp as [[-> Hg2]|(Hpos & Hnp & Hg2)].
  { destruct (set_path_ok _ _ _ c _ 0 (zlen segs) is_4b Hg2) as (m3 & Hrun3 & Hg3). rewrite (hbind _ _ _ _ _ Hrun3).
    exists LIBBGP_ERR_NOMEM, m3, []. split; [done|by eapply Hfail]. }
  apply lookup_insert_None in Hnp as [Hnp Hcp]. rewrite insert_insert_ne in Hg2 by done.
  destruct (set_path_ok _ _ _ c _ p (zlen segs) is_4b Hg2) as (m3 & Hrun3 & Hg3). rewrite (hbind _ _ _ _ _ Hrun3).
  cbn [ao_refcount ao_type] in Hg3. replace (p =? 0) with false by lia. rewrite insert_insert_ne in Hg3 by done.
  destruct (copy_segments_at m3 H l c p type is_4b segs Hg3) as (e & m' & Hrun & Hcop); try done; [by intros ->|].
  by exists e, m', segs.
Qed.
