(* ===== verification/PattrHeapSafe.v ===== *)
(** * Attributes in memory: the operations together

    Cloning and prepending, and every sequence of operations from an empty
    memory on. *)

From stdpp Require Import gmap.
From S2P Require Import Prelude Bytes Pattr Update As4 PattrHeap PattrHeapList PattrHeapSpec.

Implicit Types (m : mem) (h H P Q F X : gmap Z cell) (l : list Z) (o : obj) (a b p q : Z).
Implicit Types (R : gmap Z held) (parts : gmap Z (gmap Z cell)) (he : held).

(** ** Cloning *)

Lemma unref_bare m H l c type count wide :
  good m (<[c := object (AttrObj 1 type 0 count wide)]> H) l → H !! c = None → is_path type = true →
  ∃ m', libbgp_pattr_unref c m = Some (tt, m') ∧ good m' H l.
Proof.
  intros Hg Hn Ht. set (A := AttrObj 1 type 0 count wide) in *.
  assert (Hc : <[c := object A]> H !! c = Some (object A)) by apply lookup_insert_eq.
  pose proof (g_pos _ _ _ Hg _ _ Hc) as [Hpos _]. unfold libbgp_pattr_unref. replace (c =? 0) with false by lia.
  rewrite (hbind _ _ _ _ _ (load_attr_ok _ _ _ _ _ _ Hg Hc)). cbn [A ao_refcount Z.eqb Pos.eqb]. set (A1 := with_refcount _ _).
  destruct (put_ok _ _ _ c _ _ (o_attr A1) Hg Hc) as (m1 & Hrun1 & Hg1); [by eapply plain_unlisted|done|].
  rewrite (hbind _ _ _ _ _ Hrun1). cbn [A1 with_refcount ao_refcount Z.sub Z.eqb negb]. change (1 - 1 =? 0) with true. cbn [negb].
  assert (Hfree : pattr_free_data A1 m1 = Some (tt, m1)) by (unfold A1, pattr_free_data; cbn; by destruct type).
  rewrite insert_insert_eq in Hg1. rewrite (hbind _ _ _ _ _ Hfree).
  assert (Hc1 : <[c := Cell SIZEOF_PATTR (o_attr A1)]> H !! c = Some (Cell SIZEOF_PATTR (o_attr A1))) by apply lookup_insert_eq.
  destruct (put_ok _ _ _ c _ _ (o_attr (cleared A1)) Hg1 Hc1) as (m2 & Hrun2 & Hg2); [by eapply plain_unlisted|done|].
  rewrite (hbind _ _ _ _ _ Hrun2). destruct (free_ok _ _ _ c Hg2) as (m3 & Hrun3 & Hg3); [by rewrite lookup_insert_eq|eapply plain_unlisted; [exact Hg2|apply lookup_insert_eq|done]|].
  exists m3. split; [done|]. by rewrite insert_insert_eq, delete_insert_id in Hg3.
Qed.

Lemma path_content he data count P :
  content_cells (he_type he) data count (he_content he) P → is_path (he_type he) = true → ∃ segs, content_segs (he_content he) = Some segs.
Proof. intros Hc Ht. destruct Hc; cbn; eauto; try congruence; destruct (he_type he); done. Qed.

Lemma clone_ok m R src he type is_4b :
  world m R → R !! src = Some he → is_path type = true →
  ∃ r m', mem_clone_path_as_type type src is_4b m = Some (r, m') ∧
    match r with
    | inl c => 0 < c ∧ R !! c = None ∧ ∃ segs, content_segs (he_content he) = Some segs ∧
        world m' (<[c := Held type 1 is_4b (k_path segs)]> R)
    | inr _ => world m' R
    end.
Proof.
  intros (H & l & parts & Hw) Hsrc Ht. destruct (world_object _ _ _ _ _ _ _ Hw Hsrc) as (data & count & P0 & HP & Hn & Hc & Hr & Hpos & Hs & _).
  unfold mem_clone_path_as_type. destruct (new_at _ _ _ _ _ type Hw) as (c & m1 & Hrun1 & Hcase). rewrite (hbind _ _ _ _ _ Hrun1).
  destruct Hcase as [[-> Hg1]|(Hc0 & Hcn & Hg1)]; [eexists _, m1; split; [done|]; by eapply world_same|].
  replace (c =? 0) with false by lia. pose proof (not_held _ _ _ _ _ _ Hw Hcn) as HRc.
  destruct (copy_at m1 H l c src type is_4b (attr_of he data count) (he_content he) P0) as (e & m2 & segs & Hrun2 & Hk & He); [|apply (w_listed _ _ _ _ _ Hw)|done|done|done|done|done| |].
  { unfold empty_content, attr_of, fresh_held in Hg1. exact Hg1. }
  { intros Hp. by eapply path_content. }
  rewrite (hbind _ _ _ _ _ Hrun2). unfold copied in He. destruct (decide (e = LIBBGP_OK)) as [Heok|].
  - destruct He as (data' & count' & P & Hcc & Hd & HPc & Hg2 & Hl2). specialize (Hk Heok). exists (inl c), m2. split; [done|]. split; [done|]. split; [done|].
    exists segs. split; [done|]. eapply world_add; [done|done| | |exact Hg2|exact Hl2].
    + apply (ac_intro c (Held type 1 is_4b (k_path segs)) data' count' P); [done|done|]. unfold UINT32_MAX. cbn. lia.
    + apply map_disjoint_insert_l. done.
  - destruct He as (count' & wide & Hg2). destruct (unref_bare _ _ _ _ _ _ _ Hg2 Hcn Ht) as (m3 & Hrun3 & Hg3).
    rewrite (hbind _ _ _ _ _ Hrun3). exists (inr e), m3. split; [done|]. by eapply world_same.
Qed.

(** ** Memory beside a frame *)

Lemma malloc_frame m X F l sz o :
  good m (X ∪ F) l → plain o → 0 < sz →
  ∃ p m', bgp_malloc sz o m = Some (p, m') ∧
    (p = 0 ∧ good m' (X ∪ F) l ∨ 0 < p ∧ X !! p = None ∧ F !! p = None ∧ good m' (<[p := Cell sz o]> X ∪ F) l).
Proof.
  intros Hg Ho Hsz. destruct (malloc_ok _ _ _ _ _ Hg Ho Hsz) as (p & m' & Hrun & [Hz|(Hpos & Hn & Hg')]); exists p, m'; (split; [done|]); [by left|].
  right. apply lookup_union_None in Hn as [? ?]. by rewrite insert_union_l in Hg'.
Qed.

Lemma delete_frame X F p : F !! p = None → delete p (X ∪ F) = delete p X ∪ F.
Proof. intros Hn. by rewrite delete_union, (delete_id F). Qed.

Lemma realloc_frame m X F l p sz o sz0 o0 :
  good m (X ∪ F) l → X !! p = Some (Cell sz0 o0) → F !! p = None → (∀ s segs, o0 ≠ o_block 0 0 s segs) → plain o → 0 < sz →
  ∃ q m', bgp_realloc p sz o m = Some (q, m') ∧
    (q = 0 ∧ good m' (X ∪ F) l ∨ 0 < q ∧ delete p X !! q = None ∧ F !! q = None ∧ good m' (<[q := Cell sz o]> (delete p X) ∪ F) l).
Proof.
  intros Hg Hp HF Ho0 Ho Hsz. assert (HXF : (X ∪ F) !! p = Some (Cell sz0 o0)) by by apply lookup_union_Some_l.
  destruct (realloc_ok _ _ _ _ sz o _ _ Hg HXF) as (q & m' & Hrun & [Hz|(Hpos & Hn & Hg')]); [by eapply plain_unlisted|done|done|exists q, m'; (split; [done|]); by left|].
  exists q, m'. split; [done|]. right. rewrite delete_frame in * by done. apply lookup_union_None in Hn as [? ?]. by rewrite insert_union_l in Hg'.
Qed.

Lemma put_frame m X F l p sz o o' :
  good m (X ∪ F) l → X !! p = Some (Cell sz o) → (∀ s segs, o ≠ o_block 0 0 s segs) → plain o' →
  ∃ m', put p o' m = Some (tt, m') ∧ good m' (<[p := Cell sz o']> X ∪ F) l.
Proof.
  intros Hg Hp Ho Ho'. assert (HXF : (X ∪ F) !! p = Some (Cell sz o)) by by apply lookup_union_Some_l.
  destruct (put_ok _ _ _ p _ _ o' Hg HXF) as (m' & Hrun & Hg'); [by eapply plain_unlisted|done|]. exists m'. split; [done|]. by rewrite insert_union_l in Hg'.
Qed.

Lemma free_frame m X F l p sz o :
  good m (X ∪ F) l → X !! p = Some (Cell sz o) → F !! p = None → (∀ s segs, o ≠ o_block 0 0 s segs) →
  ∃ m', bgp_free p m = Some (tt, m') ∧ good m' (delete p X ∪ F) l.
Proof.
  intros Hg Hp HF Ho. assert (HXF : (X ∪ F) !! p = Some (Cell sz o)) by by apply lookup_union_Some_l.
  destruct (free_ok _ _ _ p Hg) as (m' & Hrun & Hg'); [by rewrite HXF|by eapply plain_unlisted|]. exists m'. split; [done|]. by rewrite delete_frame in Hg'.
Qed.

(** No block among the cells. *)
Definition blockless X : Prop := ∀ b sz s segs, X !! b ≠ Some (Cell sz (o_block 0 0 s segs)).

Lemma blockless_insert X p sz o : blockless X → (∀ s segs, o ≠ o_block 0 0 s segs) → blockless (<[p := Cell sz o]> X).
Proof. intros HX Ho b sz' s segs Hb. apply lookup_insert_Some in Hb as [[_ Hb]|[_ Hb]]; [simplify_eq; by destruct (Ho s segs)|by eapply HX]. Qed.

Lemma blockless_path cs segs P : path_cells cs segs P → blockless P.
Proof. intros Hc b sz s sg. by eapply path_blockless. Qed.

Lemma listed_frame X F H l : listed H l → blockless X → F ⊆ H → listed (X ∪ F) l.
Proof.
  intros Hl HX HF b sz s segs Hb. apply lookup_union_Some_raw in Hb as [Hb|[_ Hb]]; [by destruct (HX b sz s segs)|]. eapply Hl, lookup_weaken; done.
Qed.

(** ** Prepending *)

Definition prepend_value (asn : Z) (segs : list libbgp_as_path_segment_t) : list libbgp_as_path_segment_t :=
  match segs with
  | Segment t asns :: rest =>
      if (t =? 2) && (zlen asns <? 255) then Segment t (asn :: asns) :: rest else Segment 2 [asn] :: segs
  | [] => [Segment 2 [asn]]
  end.

(** The path of [a] in pieces, its array of segments at [p]. *)
Definition pieces a (attr : attr_obj) p sz cs P : gmap Z cell :=
  <[a := object (AttrObj (ao_refcount attr) (ao_type attr) p (zlen cs) (ao_is_4b attr))]> (<[p := Cell sz (o_segs cs)]> P).

(** The outcome of prepending: the path is the given one, or memory is as it
    was. *)
Definition prepended (e : libbgp_err_t) m a (attr : attr_obj) X F l (segs : list libbgp_as_path_segment_t) : Prop :=
  if decide (e = LIBBGP_OK)
  then ∃ p sz cs P, path_cells cs segs P ∧ cs ≠ [] ∧ P !! p = None ∧ P !! a = None ∧ p ≠ a ∧
    pieces a attr p sz cs P ##ₘ F ∧ good m (pieces a attr p sz cs P ∪ F) l
  else good m (X ∪ F) l.

Lemma set_path_frame m X F l a attr data count is_4b :
  good m (X ∪ F) l → X !! a = Some (object attr) →
  ∃ m', set_path a data count is_4b m = Some (tt, m') ∧
    good m' (<[a := object (AttrObj (ao_refcount attr) (ao_type attr) data count is_4b)]> X ∪ F) l.
Proof.
  intros Hg Ha. unfold set_path. assert (HXF : (X ∪ F) !! a = Some (object attr)) by by apply lookup_union_Some_l.
  rewrite (hbind _ _ _ _ _ (load_attr_ok _ _ _ _ _ _ Hg HXF)). by apply (put_frame m X F l a _ (o_attr attr)).
Qed.

(** A segment in front.  [X] is the part of the attribute, with or without an
    array of segments. *)
Lemma prepend_segment_ok m X F l a asn attr cs segs P :
  good m (X ∪ F) l → X ##ₘ F → path_cells cs segs P → P !! a = None → ao_count attr = zlen cs →
  (ao_data attr = 0 ∧ X = <[a := object attr]> P ∨
   ∃ sz, 0 < ao_data attr ∧ ao_data attr ≠ a ∧ P !! ao_data attr = None ∧ X = <[a := object attr]> (<[ao_data attr := Cell sz (o_segs cs)]> P)) →
  ∃ e m', prepend_segment a asn attr cs m = Some (e, m') ∧ prepended e m' a attr X F l (Segment 2 [asn] :: segs).
Proof.
  intros Hg Hd Hc Ha Hcount Hdata. unfold prepend_segment, prepended. destruct (_ <? ao_count attr).
  { exists LIBBGP_ERR_BAD_LEN, m. split; [done|]. by rewrite decide_False. }
  destruct (malloc_frame m X F l SIZEOF_ASN (o_words [asn]) Hg) as (q & m1 & Hrun1 & Hq); [done|done|]. rewrite (hbind _ _ _ _ _ Hrun1).
  destruct Hq as [[-> Hg1]|(Hq0 & HqX & HqF & Hg1)].
  { exists LIBBGP_ERR_NOMEM, m1. split; [done|]. by rewrite decide_False. }
  replace (q =? 0) with false by lia. set (W := Cell SIZEOF_ASN (o_words [asn])) in *. set (size := (ao_count attr + 1) * SIZEOF_SEGMENT).
  set (cs' := CSeg 2 1 q :: cs). set (arr := Cell size (o_segs cs')).
  assert (Hqa : q ≠ a) by (intros ->; destruct Hdata as [[_ ->]|(? & _ & _ & _ & ->)]; by rewrite lookup_insert_eq in HqX).
  assert (Hcell : X !! a = Some (object attr)) by (destruct Hdata as [[_ ->]|(? & _ & _ & _ & ->)]; apply lookup_insert_eq).
  assert (HFa : F !! a = None) by (rewrite map_disjoint_spec in Hd; destruct (F !! a) eqn:HF; [by destruct (Hd _ _ _ Hcell HF)|done]).
  assert (HPq : P !! q = None).
  { destruct Hdata as [[_ ->]|(? & _ & _ & _ & ->)]; apply lookup_insert_None in HqX as [HqX _]; [done|]. by apply lookup_insert_None in HqX as [? _]. }
  (* the new array, wherever the old one was *)
  assert (∃ p m2, bgp_realloc (ao_data attr) size (o_segs cs') m1 = Some (p, m2) ∧
    (p = 0 ∧ good m2 (<[q := W]> X ∪ F) l ∨ 0 < p ∧ (<[q := W]> (<[a := object attr]> P)) !! p = None ∧ F !! p = None ∧
     good m2 (<[p := arr]> (<[q := W]> (<[a := object attr]> P)) ∪ F) l)) as (p & m2 & Hrun2 & Hp).
  { destruct Hdata as [[Hz ->]|(sz & Hpos & Hne & HPd & ->)].
    - rewrite Hz. unfold bgp_realloc. cbn [Z.eqb]. apply malloc_frame; [done|done|unfold size, SIZEOF_SEGMENT; lia].
    - set (p0 := ao_data attr) in *.
      assert (Hpq : q ≠ p0) by (intros ->; rewrite lookup_insert_ne, lookup_insert_eq in HqX by done; done).
      assert (HF0 : F !! p0 = None).
      { rewrite map_disjoint_spec in Hd. destruct (F !! p0) eqn:HF; [|done]. exfalso. eapply (Hd p0); [|exact HF]. rewrite lookup_insert_ne by done. apply lookup_insert_eq. }
      destruct (realloc_frame m1 _ F l p0 size (o_segs cs') sz (o_segs cs) Hg1) as (p & m2 & Hrun2 & Hp); [|done|done|done|unfold size, SIZEOF_SEGMENT; lia|].
      { rewrite lookup_insert_ne by done. rewrite lookup_insert_ne by done. apply lookup_insert_eq. }
      exists p, m2. split; [done|]. rewrite delete_insert_ne, delete_insert_ne, delete_insert_id in Hp by done. exact Hp. }
  rewrite (hbind _ _ _ _ _ Hrun2). destruct Hp as [[-> Hg2]|(Hp0 & Hpn & HpF & Hg2)].
  { destruct (free_frame m2 (<[q := W]> X) F l q SIZEOF_ASN (o_words [asn]) Hg2) as (m3 & Hrun3 & Hg3); [apply lookup_insert_eq|done|done|].
    change (0 =? 0) with true. cbv iota. rewrite (hbind _ _ _ _ _ Hrun3). exists LIBBGP_ERR_NOMEM, m3. split; [done|]. rewrite decide_False by done. by rewrite delete_insert_id in Hg3. }
  replace (p =? 0) with false by lia. apply lookup_insert_None in Hpn as [Hpn Hqp]. apply lookup_insert_None in Hpn as [HPp Hap].
  destruct (set_path_frame m2 _ F l a attr p (ao_count attr + 1) (ao_is_4b attr) Hg2) as (m3 & Hrun3 & Hg3).
  { rewrite lookup_insert_ne by done. rewrite lookup_insert_ne by done. apply lookup_insert_eq. }
  rewrite (hbind _ _ _ _ _ Hrun3). exists LIBBGP_OK, m3. split; [done|]. rewrite decide_True by done.
  exists p, size, cs', (<[q := W]> P).
  assert (Hpieces : pieces a attr p size cs' (<[q := W]> P) =
    <[a := object (AttrObj (ao_refcount attr) (ao_type attr) p (ao_count attr + 1) (ao_is_4b attr))]> (<[p := arr]> (<[q := W]> (<[a := object attr]> P)))).
  { unfold pieces. rewrite (insert_insert_ne P q a), (insert_insert_ne _ p a), insert_insert_eq by done. f_equal. f_equal. f_equal. unfold cs'. cbn [length]. lia. }
  split_and!; [|done|by rewrite lookup_insert_ne|by rewrite lookup_insert_ne|done| |by rewrite Hpieces].
  - apply (path_cons 2 q SIZEOF_ASN [asn]); done.
  - rewrite Hpieces. repeat (apply map_disjoint_insert_l; split; [done|]). eapply map_disjoint_weaken_l; [exact Hd|].
    destruct Hdata as [[_ ->]|(sz & _ & Hne & HPd & ->)]; [by apply insert_subseteq|].
    transitivity (<[ao_data attr := Cell sz (o_segs cs)]> P); apply insert_subseteq; [done|]. by rewrite lookup_insert_ne.
Qed.

(** The first segment and the array of its numbers, [rest] the cells of the
    other segments. *)
Definition first_numbers (seg : c_seg) words P rest : Prop :=
  words = [] ∧ sg_asns seg = 0 ∧ P = rest ∨
  words ≠ [] ∧ rest !! sg_asns seg = None ∧ ∃ sz, P = <[sg_asns seg := Cell sz (o_words words)]> rest.

Lemma path_first seg cs segs P :
  path_cells (seg :: cs) segs P →
  ∃ words rest segs1, segs = Segment (sg_type seg) words :: segs1 ∧ path_cells cs segs1 rest ∧ zlen words = sg_count seg ∧
    first_numbers seg words P rest ∧ rest ⊆ P.
Proof.
  intros Hc. inversion Hc as [|t cs0 sg0 P0 Hc0|t q sz0 ws cs0 sg0 P0 Hws Hq Hc0]; subst; cbn [sg_type sg_count sg_asns].
  - exists [], P, sg0. split_and!; try done. by left.
  - exists ws, P0, sg0. split_and!; try done; [|by apply insert_subseteq]. right. eauto.
Qed.

Lemma read_first m X F l seg words P rest :
  good m (X ∪ F) l → first_numbers seg words P rest → zlen words = sg_count seg → P ⊆ X →
  read_seg seg m = Some (Segment (sg_type seg) words, m) ∧ negb (sg_count seg =? 0) && (sg_asns seg =? 0) = false.
Proof.
  intros Hg Hold Hw HX. unfold read_seg. destruct Hold as [(-> & _ & _)|(Hne0 & Hq & sz & ->)]; [by rewrite <-Hw|].
  replace (sg_count seg =? 0) with false by (destruct words; [done|cbn [length] in Hw; lia]).
  assert (HXq : (X ∪ F) !! sg_asns seg = Some (Cell sz (o_words words))).
  { apply lookup_union_Some_l. eapply lookup_weaken; [apply lookup_insert_eq|done]. }
  pose proof (g_pos _ _ _ Hg _ _ HXq) as [Hq0 _].
  rewrite (hbind _ _ _ _ _ (load_ok _ _ _ _ _ _ Hg HXq ltac:(done))). replace (zlen words =? sg_count seg) with true by lia. split; [done|]. cbn. lia.
Qed.

(** The numbers move to their new array. *)
Lemma grow_first m F l a p seg words P rest A B size o :
  let X := λ P : gmap Z cell, <[a := A]> (<[p := B]> P) in
  good m (X P ∪ F) l → X P ##ₘ F → first_numbers seg words P rest → P !! a = None → P !! p = None → plain o → 0 < size →
  ∃ q m', bgp_realloc (sg_asns seg) size o m = Some (q, m') ∧
    (q = 0 ∧ good m' (X P ∪ F) l ∨ 0 < q ∧ X rest !! q = None ∧ F !! q = None ∧ good m' (<[q := Cell size o]> (X rest) ∪ F) l).
Proof.
  intros X Hg Hd Hold Ha Hp Ho Hsz. destruct Hold as [(-> & Hz & ->)|(Hne0 & Hq & sz & ->)].
  - rewrite Hz. unfold bgp_realloc. change (0 =? 0) with true. cbv iota. by apply malloc_frame.
  - apply lookup_insert_None in Ha as [_ Ha]. apply lookup_insert_None in Hp as [_ Hp].
    assert (HXq : X (<[sg_asns seg := Cell sz (o_words words)]> rest) !! sg_asns seg = Some (Cell sz (o_words words))).
    { unfold X. rewrite lookup_insert_ne, lookup_insert_ne by done. apply lookup_insert_eq. }
    assert (HF : F !! sg_asns seg = None).
    { rewrite map_disjoint_spec in Hd. destruct (F !! sg_asns seg) eqn:HFq; [by destruct (Hd _ _ _ HXq HFq)|done]. }
    destruct (realloc_frame m _ F l (sg_asns seg) size o _ _ Hg HXq HF) as (q & m' & Hrun & Hq'); [done|done|done|].
    exists q, m'. split; [done|]. unfold X in Hq' at 2 3.
    rewrite (delete_insert_ne _ (sg_asns seg) a), (delete_insert_ne _ (sg_asns seg) p), delete_insert_id in Hq' by done. exact Hq'.
Qed.

(** An AS number in front of the first segment. *)
Lemma prepend_asn_ok m F l a asn attr seg cs segs sz P :
  let X := pieces a attr (ao_data attr) sz (seg :: cs) P in
  good m (X ∪ F) l → X ##ₘ F → path_cells (seg :: cs) segs P → P !! a = None → ao_count attr = zlen (seg :: cs) →
  0 < ao_data attr → ao_data attr ≠ a → P !! ao_data attr = None → sg_type seg = 2 → sg_count seg < 255 →
  ∃ e m', prepend_asn a asn attr seg cs m = Some (e, m') ∧ prepended e m' a attr X F l (prepend_value asn segs).
Proof.
  intros X Hg Hd Hc Ha Hcount Hpos Hne HP Ht Hlt. set (p := ao_data attr) in *. unfold prepend_asn, prepended.
  set (A := object (AttrObj (ao_refcount attr) (ao_type attr) p (zlen (seg :: cs)) (ao_is_4b attr))).
  destruct (path_first _ _ _ _ Hc) as (words & P1 & segs1 & -> & Hc1 & Hw & Hold & HP1). rewrite Ht.
  assert (HPX : P ⊆ X).
  { unfold X, pieces. transitivity (<[p := Cell sz (o_segs (seg :: cs))]> P); apply insert_subseteq; [done|]. by rewrite lookup_insert_ne. }
  destruct (read_first m X F l seg words P P1 Hg Hold Hw HPX) as [Hread ->]. cbv iota. destruct (_ <? sg_count seg).
  { exists LIBBGP_ERR_BAD_LEN, m. split; [done|]. by rewrite decide_False. }
  rewrite (hbind _ _ _ _ _ Hread). cbn [seg_asns]. set (size := (sg_count seg + 1) * SIZEOF_ASN). set (W := Cell size (o_words (asn :: words))).
  assert (HP1a : P1 !! a = None) by (eapply lookup_weaken_None; done). assert (HP1p : P1 !! p = None) by (eapply lookup_weaken_None; done).
  destruct (grow_first m F l a p seg words P P1 A (Cell sz (o_segs (seg :: cs))) size (o_words (asn :: words)) Hg Hd Hold Ha HP)
    as (q & m1 & Hrun1 & Hq); [done|unfold size, SIZEOF_ASN; lia|].
  rewrite (hbind _ _ _ _ _ Hrun1). destruct Hq as [[-> Hg1]|(Hq0 & Hqn & HqF & Hg1)].
  { exists LIBBGP_ERR_NOMEM, m1. split; [done|]. by rewrite decide_False. }
  replace (q =? 0) with false by lia. apply lookup_insert_None in Hqn as [Hqn Haq]. apply lookup_insert_None in Hqn as [Hqn Hpq].
  set (seg' := CSeg 2 (sg_count seg + 1) q).
  destruct (put_frame m1 _ F l p sz (o_segs (seg :: cs)) (o_segs (seg' :: cs)) Hg1) as (m2 & Hrun2 & Hg2); [|done|done|].
  { rewrite lookup_insert_ne by done. rewrite lookup_insert_ne by done. apply lookup_insert_eq. }
  rewrite (hbind _ _ _ _ _ Hrun2). exists LIBBGP_OK, m2. split; [done|]. rewrite decide_True by done. exists p, sz, (seg' :: cs), (<[q := W]> P1).
  assert (Hpieces : pieces a attr p sz (seg' :: cs) (<[q := W]> P1) =
    <[p := Cell sz (o_segs (seg' :: cs))]> (<[q := W]> (<[a := A]> (<[p := Cell sz (o_segs (seg :: cs))]> P1)))).
  { unfold pieces. change (zlen (seg' :: cs)) with (zlen (seg :: cs)). fold A.
    rewrite (insert_insert_ne _ q a), (insert_insert_ne _ q p), (insert_insert_ne _ p a), insert_insert_eq by done. done. }
  split_and!; [|done|by rewrite lookup_insert_ne|by rewrite lookup_insert_ne|done| |by rewrite Hpieces].
  - cbn [prepend_value]. replace ((2 =? 2) && (zlen words <? 255)) with true by lia. unfold seg'. rewrite <-Hw.
    replace (zlen words + 1) with (zlen (asn :: words)) by (cbn [length]; lia). by apply path_cons.
  - unfold X, pieces in Hd. apply map_disjoint_insert_l in Hd as [HFa [HFp HPF]%map_disjoint_insert_l].
    unfold pieces. repeat (apply map_disjoint_insert_l; split; [done|]). eapply map_disjoint_weaken_l; done.
Qed.

Definition prepended_held he (asn : Z) : held :=
  Held (he_type he) (he_refs he) (he_is_4b he)
    match he_content he with k_path segs => k_path (prepend_value asn segs) | k => k end.

Lemma prepended_world m R H l parts a he data count P0 e m' asn segs :
  world_at m R H l parts → R !! a = Some he → he_content he = k_path segs → is_path (he_type he) = true →
  parts !! a = Some (<[a := object (attr_of he data count)]> P0) → blockless P0 →
  prepended e m' a (attr_of he data count) (<[a := object (attr_of he data count)]> P0) (H ∖ <[a := object (attr_of he data count)]> P0) l (prepend_value asn segs) →
  world m' (if decide (e = LIBBGP_OK) then <[a := prepended_held he asn]> R else R).
Proof.
  intros Hw Ha Hk Ht HP Hbl Hpre. set (X := <[a := object (attr_of he data count)]> P0) in *.
  pose proof (owned_sub _ _ _ _ (w_owned _ _ _ _ _ Hw) HP) as Hs. unfold prepended in Hpre. destruct (decide (e = LIBBGP_OK)).
  - destruct Hpre as (p & sz & cs & P & Hc & Hne & Hp & HPa & Hpa & Hd & Hg).
    eapply world_replace; [done|done|exact HP| |exact Hd|exact Hg|].
    + unfold pieces. apply (ac_intro a (prepended_held he asn) p (zlen cs)).
      * cbn [prepended_held he_type he_content]. rewrite Hk. by constructor.
      * by rewrite lookup_insert_ne.
      * destruct (world_object _ _ _ _ _ _ _ Hw Ha) as (? & ? & ? & _ & _ & _ & Hr & _). done.
    + apply (listed_frame _ _ H); [apply (w_listed _ _ _ _ _ Hw)| |apply map_subseteq_difference_l; done].
      unfold pieces. repeat apply blockless_insert; [by eapply blockless_path|done|done].
  - eapply world_same; [done|]. by rewrite map_difference_union in Hpre.
Qed.

Lemma prepend_ok m R a he asn :
  world m R → R !! a = Some he → (∀ segs, he_content he ≠ k_block segs) →
  ∃ e m', mem_prepend_to_path a asn m = Some (e, m') ∧ world m' (if decide (e = LIBBGP_OK) then <[a := prepended_held he asn]> R else R).
Proof.
  intros (H & l & parts & Hw) Ha Hnb. destruct (world_object _ _ _ _ _ _ _ Hw Ha) as (data & count & P0 & HP & Hn & Hc & Hr & Hpos & Hs & Hload).
  unfold mem_prepend_to_path. rewrite (hbind _ _ _ _ _ Hload). cbn [attr_of ao_type]. destruct (is_path (he_type he)) eqn:Ht; cbn [negb].
  2:{ exists LIBBGP_ERR_BAD_LEN, m. split; [done|]. rewrite decide_False by done. by exists H, l, parts. }
  set (attr := attr_of he data count) in *. fold (object attr) in *. set (X := <[a := object attr]> P0) in *.
  pose proof (w_good _ _ _ _ _ Hw) as Hg. rewrite <-(map_difference_union X H Hs) in Hg.
  assert (Hd : X ##ₘ H ∖ X) by by apply map_disjoint_difference_r1.
  remember (he_content he) as k eqn:Hk. symmetry in Hk.
  destruct Hc as [? ? Hp|? Hp|? ? ? ? Hp|b sz sg Hp Hne|Hp|p sz cs segs P Hp Hne Hc HPp];
    [congruence|by destruct (he_type he)|by destruct (he_type he)|by destruct (Hnb sg)|..].
  - cbn [attr attr_of ao_count ao_data Z.eqb negb andb].
    destruct (prepend_segment_ok m X (H ∖ X) l a asn attr [] [] ∅ Hg Hd) as (e & m' & Hrun & Hpre); [constructor|done|done|by left|].
    exists e, m'. split; [done|]. by eapply prepended_world.
  - assert (HXp : X !! p = Some (Cell sz (o_segs cs))).
    { unfold X. apply lookup_insert_None in Hn as [_ Hne']. rewrite lookup_insert_ne by done. apply lookup_insert_eq. }
    assert (HXF : (X ∪ H ∖ X) !! p = Some (Cell sz (o_segs cs))) by by apply lookup_union_Some_l.
    pose proof (g_pos _ _ _ Hg _ _ HXF) as [Hp0 _]. apply lookup_insert_None in Hn as [HPa Hpa].
    destruct cs as [|seg cs]; [done|]. cbn [attr attr_of ao_count ao_data].
    replace (negb (zlen (seg :: cs) =? 0) && (p =? 0)) with false by lia. replace (zlen (seg :: cs) =? 0) with false by (cbn [length]; lia).
    rewrite (hbind _ _ _ _ _ (load_ok _ _ _ _ _ _ Hg HXF ltac:(done))).
    assert (Hbl : blockless (<[p := Cell sz (o_segs (seg :: cs))]> P)) by (apply blockless_insert; [by eapply blockless_path|done]).
    destruct ((sg_type seg =? 2) && (sg_count seg <? 255)) eqn:Hfirst.
    + destruct (prepend_asn_ok m (H ∖ X) l a asn attr seg cs segs sz P Hg Hd Hc HPa eq_refl) as (e & m' & Hrun & Hpre); try done; [lia..|].
      exists e, m'. split; [done|]. by eapply prepended_world.
    + destruct (prepend_segment_ok m X (H ∖ X) l a asn attr (seg :: cs) segs P Hg Hd Hc HPa eq_refl) as (e & m' & Hrun & Hpre).
      { right. exists sz. split_and!; done. }
      exists e, m'. split; [done|]. eapply prepended_world; [done|done|exact Hk|done|exact HP|done|].
      replace (prepend_value asn segs) with (Segment 2 [asn] :: segs); [done|].
      inversion Hc as [|t cs0 sg0 P1 Hc0|t q sz0 ws cs0 sg0 P1 Hws Hq Hc0]; subst; cbn [prepend_value sg_type sg_count] in *;
        [change (zlen (@nil Z)) with 0|]; by rewrite Hfirst.
Qed.

(** ** The operations *)

Inductive heap_op : Type :=
  | op_new (type : libbgp_pattr_type_t)
  | op_parse (a : Z) (value : wire_value)
  | op_clone (type : libbgp_pattr_type_t) (src : Z) (is_4b : bool)
  | op_prepend (a asn : Z)
  | op_ref (a : Z)
  | op_unref (a : Z).

Definition run_op (op : heap_op) : HM (Z + libbgp_err_t) :=
  match op with
  | op_new type => p ← mem_pattr_new type; mret (inl p)
  | op_parse a value => e ← mem_pattr_parse a value; mret (inr e)
  | op_clone type src is_4b => mem_clone_path_as_type type src is_4b
  | op_prepend a asn => e ← mem_prepend_to_path a asn; mret (inr e)
  | op_ref a => p ← libbgp_pattr_ref a; mret (inl p)
  | op_unref a => libbgp_pattr_unref a;; mret (inl 0)
  end.

(** What the operations mean for a table of attributes, by their answers. *)
Definition spec_op R (op : heap_op) (answer : Z + libbgp_err_t) : gmap Z held :=
  match op, answer with
  | op_new type, inl p => if p =? 0 then R else <[p := fresh_held type]> R
  | op_parse a value, inr e =>
      if decide (e = LIBBGP_OK) then alter (λ he, parsed_held he value) a R else R
  | op_clone type src is_4b, inl c =>
      match R !! src ≫= λ he, content_segs (he_content he) with
      | Some segs => <[c := Held type 1 is_4b (k_path segs)]> R
      | None => R
      end
  | op_prepend a asn, inr e => if decide (e = LIBBGP_OK) then alter (λ he, prepended_held he asn) a R else R
  | op_ref a, _ => alter (λ he, with_refs he (he_refs he + 1)) a R
  | op_unref a, _ =>
      match R !! a with
      | Some he => if he_refs he =? 1 then delete a R else <[a := with_refs he (he_refs he - 1)]> R
      | None => R
      end
  | _, _ => R
  end.

(** What the caller must see to: the attribute is one it holds, a parsed value
    has the type it is stored as, only paths in pieces are prepended to, and
    there are fewer than 2^32 - 1 references. *)
Definition op_ok R (op : heap_op) : Prop :=
  match op with
  | op_new _ => True
  | op_parse a value => is_Some (R !! a) ∧ value_ok value
  | op_clone type src _ => is_path type = true ∧ is_Some (R !! src)
  | op_prepend a _ => ∃ he, R !! a = Some he ∧ ∀ segs, he_content he ≠ k_block segs
  | op_ref a => ∃ he, R !! a = Some he ∧ he_refs he < UINT32_MAX
  | op_unref a => is_Some (R !! a)
  end.

Lemma alter_held R a he f : R !! a = Some he → alter f a R = <[a := f he]> R.
Proof. intros Ha. apply map_eq. intros i. destruct (decide (i = a)) as [->|Hne]; [by rewrite lookup_alter_eq, lookup_insert_eq, Ha|by rewrite lookup_alter_ne, lookup_insert_ne]. Qed.

Lemma op_simulates m R op : world m R → op_ok R op → ∃ answer m', run_op op m = Some (answer, m') ∧ world m' (spec_op R op answer).
Proof.
  intros Hw Hok. destruct op as [type|a v|type src is_4b|a asn|a|a]; cbn [run_op op_ok] in *.
  - destruct (new_ok m R type Hw) as (p & m' & Hrun & Hp). rewrite (hbind _ _ _ _ _ Hrun). eexists _, m'. split; [done|]. cbn [spec_op].
    destruct Hp as [[-> ?]|(? & _ & ?)]; [done|]. by replace (p =? 0) with false by lia.
  - destruct Hok as [[he Ha] Hv]. destruct (parse_ok m R a he v Hw Ha Hv) as (e & m' & Hrun & Hw'). rewrite (hbind _ _ _ _ _ Hrun).
    eexists _, m'. split; [done|]. cbn [spec_op]. by rewrite (alter_held _ _ _ _ Ha).
  - destruct Hok as [Ht [he Hsrc]]. destruct (clone_ok m R src he type is_4b Hw Hsrc Ht) as (r & m' & Hrun & Hr). exists r, m'. split; [done|].
    destruct r as [c|e]; cbn [spec_op]; [|done]. destruct Hr as (_ & _ & segs & Hk & Hw'). rewrite Hsrc. cbn. by rewrite Hk.
  - destruct Hok as (he & Ha & Hnb). destruct (prepend_ok m R a he asn Hw Ha Hnb) as (e & m' & Hrun & Hw'). rewrite (hbind _ _ _ _ _ Hrun).
    eexists _, m'. split; [done|]. cbn [spec_op]. by rewrite (alter_held _ _ _ _ Ha).
  - destruct Hok as (he & Ha & Hlt). destruct (ref_ok m R a he Hw Ha Hlt) as (m' & Hrun & Hw'). rewrite (hbind _ _ _ _ _ Hrun).
    eexists _, m'. split; [done|]. cbn [spec_op]. by rewrite (alter_held _ _ _ _ Ha).
  - destruct Hok as [he Ha]. destruct (unref_ok m R a he Hw Ha) as (m' & Hrun & Hw'). rewrite (hbind _ _ _ _ _ Hrun).
    eexists _, m'. split; [done|]. cbn [spec_op]. by rewrite Ha.
Qed.
