(* ===== verification/PattrHeapTheorems.v ===== *)
(** * Attributes in memory: theorems

    From an empty memory, whatever the allocator answers, no sequence of
    operations reads or frees an address that is not allocated, and memory
    holds exactly what the live attributes own. *)

From stdpp Require Import gmap.
From S2P Require Import Prelude Bytes Pattr Update As4 PattrHeap PattrHeapList PattrHeapSpec PattrHeapSafe.

Implicit Types (m : mem) (H P Q : gmap Z cell) (l : list Z) (a b p q : Z).
Implicit Types (R : gmap Z held) (he : held).

(** ** The cells of an attribute, read off memory *)

Definition data_cells m (attr : attr_obj) : gset Z :=
  if ao_data attr =? 0 then ∅
  else if is_path (ao_type attr) then
    match m_heap m !! ao_data attr with
    | Some (Cell _ (o_segs segs)) => {[ao_data attr]} ∪ list_to_set (filter (λ q, q ≠ 0) (sg_asns <$> segs))
    | _ => {[ao_data attr - SIZEOF_BLOCK]}
    end
  else if is_array (ao_type attr) then {[ao_data attr]} else ∅.

Definition footprint m a : gset Z :=
  match m_heap m !! a with
  | Some (Cell _ (o_attr attr)) => {[a]} ∪ data_cells m attr
  | _ => ∅
  end.

Lemma path_pointers cs segs P H m l :
  path_cells cs segs P → good m H l → P ⊆ H → list_to_set (filter (λ q, q ≠ 0) (sg_asns <$> cs)) = (dom P : gset Z).
Proof.
  intros Hc Hg. induction Hc as [|t cs segs P Hc IH|t q sz words cs segs P Hw Hq Hc IH]; intros Hs; cbn [fmap list_fmap sg_asns].
  - by rewrite dom_empty_L.
  - rewrite filter_cons, decide_False by auto. by apply IH.
  - assert (HH : H !! q = Some (Cell sz (o_words words))) by (eapply lookup_weaken; [apply lookup_insert_eq|done]).
    pose proof (g_pos _ _ _ Hg _ _ HH) as [Hpos _]. rewrite filter_cons, decide_True by lia. cbn [list_to_set].
    rewrite dom_insert_L, IH; [done|]. etrans; [by apply insert_subseteq|done].
Qed.

Lemma content_footprint m H l attr k P :
  good m H l → listed H l → content_cells (ao_type attr) (ao_data attr) (ao_count attr) k P → P ⊆ H → data_cells m attr = dom P.
Proof.
  intros Hg Hl Hc Hs. destruct attr as [rc type data count is_4b]. unfold data_cells. cbn [ao_type ao_data ao_count] in *.
  destruct Hc as [data count Hp Ha|count Ha|p count sz words Ha|b sz segs Hp Hne|Hp|p sz cs segs P Hp Hne Hc Hn].
  - rewrite Hp, Ha, dom_empty_L. by destruct (data =? 0).
  - by rewrite dom_empty_L.
  - assert (HH : H !! p = Some (Cell sz (o_words words))) by (eapply lookup_weaken; [apply lookup_singleton_eq|done]).
    pose proof (g_pos _ _ _ Hg _ _ HH) as [Hpos _]. replace (p =? 0) with false by lia. rewrite Ha, dom_singleton_L. by destruct type.
  - assert (HH : H !! b = Some (Cell sz (o_block 0 0 (b + SIZEOF_BLOCK) segs))) by (eapply lookup_weaken; [apply lookup_singleton_eq|done]).
    pose proof (Hl _ _ _ _ HH) as Hb. pose proof (registered_pos _ _ _ _ Hg Hb). replace (b + SIZEOF_BLOCK =? 0) with false by (unfold SIZEOF_BLOCK; lia).
    pose proof (inside_block _ _ _ _ Hg Hb) as Hin. rewrite <-(g_heap _ _ _ Hg), lookup_fmap, fmap_None in Hin. rewrite Hp, Hin, dom_singleton_L. f_equal. lia.
  - by rewrite dom_empty_L.
  - assert (HH : H !! p = Some (Cell sz (o_segs cs))) by (eapply lookup_weaken; [apply lookup_insert_eq|done]).
    pose proof (g_pos _ _ _ Hg _ _ HH) as [Hpos _]. replace (p =? 0) with false by lia. rewrite Hp, (good_plain _ _ _ _ _ _ Hg HH) by done.
    rewrite dom_insert_L. f_equal. eapply path_pointers; [done|done|]. etrans; [by apply insert_subseteq|done].
Qed.

Lemma footprint_part m R H l parts a he P :
  world_at m R H l parts → R !! a = Some he → parts !! a = Some P → footprint m a = dom P.
Proof.
  intros Hw Ha HPa. destruct (world_object _ _ _ _ _ _ _ Hw Ha) as (data & count & P0 & HP & Hn & Hc & _ & _ & Hs & _).
  rewrite HP in HPa. injection HPa as <-. pose proof (w_good _ _ _ _ _ Hw) as Hg.
  assert (HH : H !! a = Some (Cell SIZEOF_PATTR (o_attr (attr_of he data count)))) by (eapply lookup_weaken; [apply lookup_insert_eq|done]).
  unfold footprint. rewrite (good_plain _ _ _ _ _ _ Hg HH), dom_insert_L by done. f_equal.
  apply (content_footprint m H l (attr_of he data count) (he_content he) P0); [done|apply (w_listed _ _ _ _ _ Hw)|done|]. etrans; [by apply insert_subseteq|done].
Qed.

(** ** Reachable memories *)

Inductive reach : mem -> gmap Z held -> Prop :=
  | reach_empty answers : reach (Mem ∅ 0 answers) ∅
  | reach_step m R op answer m' :
      reach m R -> op_ok R op -> run_op op m = Some (answer, m') -> reach m' (spec_op R op answer).

Lemma world_empty answers : world (Mem ∅ 0 answers) ∅.
Proof.
  exists ∅, [], ∅. constructor; [|constructor|..].
  - constructor; cbn [m_heap m_blocks]; try done; [constructor|intros b Hb; by apply elem_of_nil in Hb].
  - done.
  - intros p c. rewrite lookup_empty. split; [done|]. by intros (a & P & Ha & _).
  - intros b sz s segs Hb. by rewrite lookup_empty in Hb.
  - intros a. by rewrite !lookup_empty.
  - intros a he P Ha. by rewrite lookup_empty in Ha.
Qed.

Lemma reach_world m R : reach m R → world m R.
Proof.
  induction 1 as [answers|m R op answer m' Hr IH Hok Hrun]; [apply world_empty|].
  destruct (op_simulates m R op IH Hok) as (answer' & m'' & Hrun' & Hw). rewrite Hrun in Hrun'. by simplify_eq.
Qed.

Lemma heap_lookup m H l p : good m H l → is_Some (m_heap m !! p) ↔ is_Some (H !! p).
Proof. intros Hg. rewrite <-(g_heap _ _ _ Hg), lookup_fmap. by rewrite fmap_is_Some. Qed.

(** The allocated addresses are those of the live attributes, each of one of
    them. *)
Definition exactly_owned m R : Prop :=
  (∀ p, is_Some (m_heap m !! p) ↔ ∃ a, is_Some (R !! a) ∧ p ∈ footprint m a) ∧
  (∀ a b, is_Some (R !! a) → is_Some (R !! b) → a ≠ b → footprint m a ## footprint m b).

Lemma world_exact m R : world m R → exactly_owned m R.
Proof.
  intros (H & l & parts & Hw). pose proof (w_owned _ _ _ _ _ Hw) as Ho. split.
  - intros p. rewrite (heap_lookup _ _ _ _ (w_good _ _ _ _ _ Hw)). split.
    + intros [c Hp]. apply (ow_all _ _ Ho) in Hp as (a & P & Ha & Hp).
      destruct (R !! a) as [he|] eqn:HR; [|apply (w_dom _ _ _ _ _ Hw) in HR; congruence]. exists a. split; [by rewrite HR|].
      rewrite (footprint_part _ _ _ _ _ _ _ _ Hw HR Ha). by eapply elem_of_dom_2.
    + intros (a & [he Ha] & Hp). destruct (world_part _ _ _ _ _ _ _ Hw Ha) as (P & HP & _ & Hs).
      rewrite (footprint_part _ _ _ _ _ _ _ _ Hw Ha HP) in Hp. apply elem_of_dom in Hp as [c Hp]. exists c. by eapply lookup_weaken.
  - intros a b [he Ha] [hb Hb] Hne. destruct (world_part _ _ _ _ _ _ _ Hw Ha) as (P & HP & _). destruct (world_part _ _ _ _ _ _ _ Hw Hb) as (Q & HQ & _).
    rewrite (footprint_part _ _ _ _ _ _ _ _ Hw Ha HP), (footprint_part _ _ _ _ _ _ _ _ Hw Hb HQ).
    apply map_disjoint_dom_1. by eapply (ow_apart _ _ Ho).
Qed.

(** The object says of the attribute what the table says. *)
Definition shows m a he : Prop :=
  ∃ attr, load_attr a m = Some (attr, m) ∧ ao_type attr = he_type he ∧ ao_refcount attr = he_refs he ∧
    ∀ segs, content_segs (he_content he) = Some segs → read_path attr m = Some (segs, m).

Lemma world_shows m R a he : world m R → R !! a = Some he → shows m a he.
Proof.
  intros (H & l & parts & Hw) Ha. destruct (world_object _ _ _ _ _ _ _ Hw Ha) as (data & count & P0 & _ & Hn & Hc & _ & _ & Hs & Hload).
  exists (attr_of he data count). split_and!; try done. intros segs Hk.
  destruct (read_path_ok m H l (attr_of he data count) (he_content he) segs P0) as [? _]; try done;
    [apply (w_good _ _ _ _ _ Hw)|apply (w_listed _ _ _ _ _ Hw)|etrans; [by apply insert_subseteq|done]].
Qed.

(** C9: Whatever the allocator answers and whatever operations were carried out
    on attributes that were held (creating, parsing into, cloning and
    prepending to paths, taking and dropping references), the next one is
    carried out too: nothing that is not allocated is read, written or freed.
    Each attribute has the references and the path the operations gave it,
    every allocated address belongs to one live attribute, and when the last
    is gone memory is empty and so is the list of blocks. *)
Theorem pattr_heap_safe m R :
  reach m R →
  (∀ op, op_ok R op → ∃ answer m', run_op op m = Some (answer, m') ∧ reach m' (spec_op R op answer)) ∧
  (∀ a he, R !! a = Some he → shows m a he) ∧
  exactly_owned m R ∧
  (R = ∅ → m_heap m = ∅ ∧ m_blocks m = 0).
Proof.
  intros Hr. pose proof (reach_world _ _ Hr) as Hw. split_and!.
  - intros op Hok. destruct (op_simulates _ _ _ Hw Hok) as (answer & m' & Hrun & _). exists answer, m'. split; [done|]. by eapply reach_step.
  - intros a he Ha. by eapply world_shows.
  - by apply world_exact.
  - intros ->. destruct (world_exact _ _ Hw) as [Hex _].
    assert (He : m_heap m = ∅).
    { apply map_eq. intros p. rewrite lookup_empty. destruct (m_heap m !! p) eqn:Hp; [|done].
      destruct (proj1 (Hex p) ltac:(by rewrite Hp)) as (a & [he Ha] & _). by rewrite lookup_empty in Ha. }
    split; [done|]. destruct Hw as (H & l & parts & Hw). pose proof (w_good _ _ _ _ _ Hw) as Hg. rewrite (good_head _ _ _ Hg).
    destruct l as [|b l]; [done|]. destruct (registered_live _ _ _ b Hg ltac:(set_solver)) as (? & ? & ? & ? & Hb). by rewrite He, lookup_empty in Hb.
Qed.

(** C17: Dropping the last reference frees the attribute, the block or every piece
    of its path, each once, and changes nothing else but the links of the
    list. *)
Theorem pattr_last_unref_frees m R a he :
  reach m R → R !! a = Some he → he_refs he = 1 →
  ∃ m', libbgp_pattr_unref a m = Some (tt, m') ∧
    ∀ p, erase <$> m_heap m' !! p = if decide (p ∈ footprint m a) then None else erase <$> m_heap m !! p.
Proof.
  intros Hr Ha H1. destruct (reach_world _ _ Hr) as (H & l & parts & Hw). destruct (world_part _ _ _ _ _ _ _ Hw Ha) as (P & HP & _ & Hs).
  destruct (unref_last _ _ _ _ _ _ _ _ Hw Ha HP H1) as (m' & l' & Hrun & Hg & _). exists m'. split; [done|]. intros p.
  rewrite (footprint_part _ _ _ _ _ _ _ _ Hw Ha HP). rewrite <-!lookup_fmap, (g_heap _ _ _ Hg), (g_heap _ _ _ (w_good _ _ _ _ _ Hw)), lookup_difference.
  destruct (P !! p) as [c|] eqn:Hp.
  - by rewrite decide_True by by eapply elem_of_dom_2.
  - by rewrite decide_False by by apply not_elem_of_dom.
Qed.

(** Prepending in memory is prepending to the value. *)
Lemma prepend_value_exact flags code segs is_4b asn :
  zlen segs <= SIZE_MAX / SIZEOF_SEGMENT - 1 →
  update_prepend_to_path (Pattr flags code (d_as_path segs is_4b)) asn [] =
    (Ret (Pattr flags code (d_as_path (prepend_value asn segs) is_4b)), []).
Proof.
  intros Hl. unfold update_prepend_to_path. cbn [pa_type pa_data is_path_type negb as_path_segments].
  change (fail_if false LIBBGP_ERR_BAD_LEN) with (mret (M := M) tt). unfold mbind, M_bind, mret, M_ret.
  assert (Hnew : (SIZE_MAX / SIZEOF_SEGMENT - 1 <? zlen segs) = false) by lia.
  destruct segs as [|[t asns] segs]; cbn [prepend_value seg_type seg_asns]; [by rewrite Hnew|].
  destruct ((t =? 2) && (zlen asns <? 255)) eqn:Hf; [|by rewrite Hnew].
  assert ((SIZE_MAX / SIZEOF_ASN - 1 <? zlen asns) = false) as -> by (assert (255 < SIZE_MAX / SIZEOF_ASN - 1) by done; lia). done.
Qed.

(** A reference that is taken when the counter is at its maximum is not
    counted; the object does not remember that, so one of the holders is left
    with an object that was freed. *)
Theorem pattr_ref_uncounted m a attr :
  a ≠ 0 → load_attr a m = Some (attr, m) → ao_refcount attr = UINT32_MAX →
  libbgp_pattr_ref a m = Some (a, m) ∧
  libbgp_pattr_unref a m = put a (o_attr (with_refcount attr (UINT32_MAX - 1))) m.
Proof.
  intros Ha Hload Hr. unfold libbgp_pattr_ref, libbgp_pattr_unref. replace (a =? 0) with false by lia.
  rewrite !(hbind _ _ _ _ _ Hload), Hr. split; [done|].
  assert (∃ c, m_heap m !! a = Some c) as [c Hc].
  { unfold load_attr, mbind, HM_bind, load in Hload. destruct (m_heap m !! a) as [c|]; [by exists c|done]. }
  change (UINT32_MAX =? 0) with false. cbv iota zeta. by rewrite (hbind _ _ _ _ _ (put_run _ _ _ _ Hc)), (put_run _ _ _ _ Hc).
Qed.

(** ** An example *)

Fixpoint run_ops (ops : list heap_op) m R : option (mem * gmap Z held) :=
  match ops with
  | [] => Some (m, R)
  | op :: ops => match run_op op m with Some (answer, m') => run_ops ops m' (spec_op R op answer) | None => None end
  end.

(** [op_ok], decided. *)
Definition op_allowed R (op : heap_op) : bool :=
  match op with
  | op_new _ => true
  | op_parse a value =>
      bool_decide (is_Some (R !! a)) &&
      match value with
      | v_as_path type _ _ => is_path type
      | v_scalar type => negb (is_path type) && negb (is_array type)
      | _ => true
      end
  | op_clone type src _ => is_path type && bool_decide (is_Some (R !! src))
  | op_prepend a _ =>
      match R !! a with
      | Some (Held _ _ _ (k_block _)) | None => false
      | Some _ => true
      end
  | op_ref a => match R !! a with Some he => he_refs he <? UINT32_MAX | None => false end
  | op_unref a => bool_decide (is_Some (R !! a))
  end.

Lemma op_allowed_ok R op : op_allowed R op = true → op_ok R op.
Proof.
  destruct op as [type|a v|type src is_4b|a asn|a|a]; cbn [op_allowed op_ok].
  - done.
  - intros [Ha%bool_decide_eq_true Hv]%andb_prop. split; [done|]. destruct v; cbn in *; try done. by destruct (is_path type), (is_array type).
  - by intros [? ?%bool_decide_eq_true]%andb_prop.
  - destruct (R !! a) as [[type refs wide k]|] eqn:Ha; [|done]. intros Hk. eexists. split; [done|]. intros segs. cbn. by destruct k.
  - destruct (R !! a) as [he|] eqn:Ha; [|done]. intros Hl. exists he. split; [done|]. lia.
  - by intros ?%bool_decide_eq_true.
Qed.

Fixpoint ops_allowed (ops : list heap_op) m R : bool :=
  match ops with
  | [] => true
  | op :: ops =>
      op_allowed R op && match run_op op m with Some (answer, m') => ops_allowed ops m' (spec_op R op answer) | None => true end
  end.

Lemma run_ops_reach ops m R m' R' : reach m R → ops_allowed ops m R = true → run_ops ops m R = Some (m', R') → reach m' R'.
Proof.
  revert m R. induction ops as [|op ops IH]; intros m R Hr Hok Hrun; cbn [ops_allowed run_ops] in *; [by simplify_eq|].
  apply andb_prop in Hok as [Hop%op_allowed_ok Hok]. destruct (run_op op m) as [[answer m1]|] eqn:Hop1; [|done].
  eapply IH; [|done|done]. by eapply reach_step.
Qed.

(** A path is parsed and cloned, the clone is prepended to. *)
Definition demo_ops : list heap_op :=
  [op_new LIBBGP_PATTR_AS_PATH;
   op_parse 100 (v_as_path LIBBGP_PATTR_AS_PATH false [Segment 2 [65001; 65002]]);
   op_clone LIBBGP_PATTR_AS_PATH 100 true;
   op_prepend 300 64512;
   op_ref 100;
   op_unref 100].

Definition demo_held : gmap Z held :=
  <[100 := Held LIBBGP_PATTR_AS_PATH 1 false (k_block [Segment 2 [65001; 65002]])]>
  {[300 := Held LIBBGP_PATTR_AS_PATH 1 true (k_path [Segment 2 [64512; 65001; 65002]])]}.

Definition demo_memory : mem := Mem ∅ 0 [100; 200; 300; 400; 500; 600; 0; 700].

(** What is left of it, and of the list of blocks. *)
Definition demo_final : mem := default demo_memory (fst <$> run_ops demo_ops demo_memory ∅).

Lemma demo_reach : reach demo_final demo_held.
Proof.
  apply (run_ops_reach demo_ops demo_memory ∅); [apply reach_empty|by vm_compute|]. unfold demo_final, demo_held.
  destruct (run_ops demo_ops demo_memory ∅) as [[m R]|] eqn:Hrun; [|by vm_compute in Hrun]. cbn.
  assert (HR : (snd <$> run_ops demo_ops demo_memory ∅) = Some demo_held) by (vm_compute; reflexivity). rewrite Hrun in HR. cbn in HR. by injection HR as ->.
Qed.

Lemma pattr_heap_safe_witness :
  (∃ answer m', run_op (op_unref 300) demo_final = Some (answer, m')) ∧
  shows demo_final 300 (Held LIBBGP_PATTR_AS_PATH 1 true (k_path [Segment 2 [64512; 65001; 65002]])) ∧
  is_Some (m_heap demo_final !! 200).
Proof.
  destruct (pattr_heap_safe demo_final demo_held demo_reach) as (Hnext & Hshows & Hex & _). split_and!.
  - destruct (Hnext (op_unref 300) ltac:(apply op_allowed_ok; vm_compute; reflexivity)) as (answer & m' & Hrun & _). by exists answer, m'.
  - apply Hshows. vm_compute. reflexivity.
  - apply (proj1 Hex). exists 100. split; [by exists (Held LIBBGP_PATTR_AS_PATH 1 false (k_block [Segment 2 [65001; 65002]]))|].
    apply (bool_decide_unpack _). vm_compute. exact I.
Defined.

Lemma pattr_last_unref_frees_witness :
  ∃ m', libbgp_pattr_unref 100 demo_final = Some (tt, m') ∧ m_heap m' !! 200 = None ∧ is_Some (m_heap m' !! 300).
Proof.
  destruct (pattr_last_unref_frees demo_final demo_held 100 (Held LIBBGP_PATTR_AS_PATH 1 false (k_block [Segment 2 [65001; 65002]])) demo_reach
    ltac:(vm_compute; reflexivity) ltac:(reflexivity)) as (m' & Hrun & Hp).
  exists m'. split; [exact Hrun|]. split.
  - apply (fmap_None erase). rewrite Hp. vm_compute. reflexivity.
  - apply (fmap_is_Some erase). rewrite Hp. vm_compute. eauto.
Defined.

Lemma pattr_ref_uncounted_witness :
  ∃ m, libbgp_pattr_ref 100 m = Some (100, m).
Proof.
  set (attr := AttrObj UINT32_MAX LIBBGP_PATTR_MED 0 0 false).
  exists (Mem {[100 := Cell SIZEOF_PATTR (o_attr attr)]} 0 []).
  apply (pattr_ref_uncounted (Mem {[100 := Cell SIZEOF_PATTR (o_attr attr)]} 0 []) 100 attr); [discriminate|reflexivity|reflexivity].
Defined.
