(* ===== verification/Packet.v ===== *)
(** * Packets: the common header and the four message types (src/packet.c)

    A packet is parsed from a buffer that holds at least its wire length;
    what follows is left alone.  The error detail that the parser can fill in
    (the NOTIFICATION code and subcode to send) is part of its result. *)

From S2P Require Import Prelude Bytes Open Notification Update.

Definition LIBBGP_BGP_MARKER_LEN : Z := 16.
Definition LIBBGP_BGP_HEADER_LEN : Z := 19.
Definition LIBBGP_BGP_MIN_PACKET_LEN : Z := 19.
Definition LIBBGP_BGP_MAX_PACKET_LEN : Z := 4096.

Inductive libbgp_packet_type_t : Type :=
  | LIBBGP_PACKET_OPEN
  | LIBBGP_PACKET_UPDATE
  | LIBBGP_PACKET_NOTIFICATION
  | LIBBGP_PACKET_KEEPALIVE
  | LIBBGP_PACKET_UNKNOWN.

#[export] Instance libbgp_packet_type_eq_dec : EqDecision libbgp_packet_type_t.
Proof. solve_decision. Defined.

(** The tag with the member of the union it selects; only an unknown packet
    has a raw body. *)
Inductive libbgp_packet_data : Type :=
  | p_open (msg : libbgp_open_msg_t)
  | p_update (msg : libbgp_update_msg_t)
  | p_notification (msg : libbgp_notification_msg_t)
  | p_keepalive
  | p_unknown (raw_body : list Z).

Record libbgp_packet_t : Type := Packet {
  pkt_data : libbgp_packet_data;
  pkt_raw_type : Z
}.

Definition pkt_type (pkt : libbgp_packet_t) : libbgp_packet_type_t :=
  match pkt_data pkt with
  | p_open _ => LIBBGP_PACKET_OPEN
  | p_update _ => LIBBGP_PACKET_UPDATE
  | p_notification _ => LIBBGP_PACKET_NOTIFICATION
  | p_keepalive => LIBBGP_PACKET_KEEPALIVE
  | p_unknown _ => LIBBGP_PACKET_UNKNOWN
  end.

Definition libbgp_packet_init : libbgp_packet_t := Packet (p_unknown []) 255.
Definition libbgp_packet_destroy (_ : libbgp_packet_t) : libbgp_packet_t := Packet (p_unknown []) 255.

Definition bgp_marker_expected : list Z := replicate 16 255.

Definition packet_marker_valid (buf : list Z) : M bool :=
  marker ← slice buf 0 LIBBGP_BGP_MARKER_LEN;
  mret (memcmp marker bgp_marker_expected =? 0).

Definition packet_type_from_raw (raw_type : Z) : libbgp_packet_type_t :=
  if raw_type =? 1 then LIBBGP_PACKET_OPEN
  else if raw_type =? 2 then LIBBGP_PACKET_UPDATE
  else if raw_type =? 3 then LIBBGP_PACKET_NOTIFICATION
  else if raw_type =? 4 then LIBBGP_PACKET_KEEPALIVE
  else LIBBGP_PACKET_UNKNOWN.

(** ** Error details *)

Record bgp_parse_error_detail_t : Type := ParseErrorDetail {
  det_err : libbgp_err_t;
  det_notify_code : Z;
  det_notify_subcode : Z
}.

Definition packet_parse_map_body_error (type : libbgp_packet_type_t) (err : libbgp_err_t)
    : bgp_parse_error_detail_t :=
  if decide (err = LIBBGP_ERR_NOMEM) then ParseErrorDetail err 0 0
  else
    match type with
    | LIBBGP_PACKET_UPDATE =>
        ParseErrorDetail err 3 (if decide (err = LIBBGP_ERR_INVALID) then 3 else 1)
    | LIBBGP_PACKET_OPEN =>
        ParseErrorDetail err 2 (if decide (err = LIBBGP_ERR_BAD_TYPE) then 4 else 0)
    | LIBBGP_PACKET_NOTIFICATION | LIBBGP_PACKET_KEEPALIVE => ParseErrorDetail err 1 2
    | LIBBGP_PACKET_UNKNOWN => ParseErrorDetail err 0 0
    end.

(** What the parser returns: the packet and the length consumed, or the error
    code with the detail. *)
Definition parse_result : Type := (libbgp_packet_t * Z) + (libbgp_err_t * bgp_parse_error_detail_t).

Section Packet.
Context {host : Host}.

(** ** Parsing *)

(** The [switch] of the parser: the packet's data and the length used. *)
Definition packet_parse_body (type : libbgp_packet_type_t) (body : list Z) (use_4b_asn : bool)
    : M (libbgp_packet_data * Z) :=
  match type with
  | LIBBGP_PACKET_OPEN => '(msg, used) ← libbgp_open_parse body; mret (p_open msg, used)
  | LIBBGP_PACKET_UPDATE =>
      '(msg, used) ← libbgp_update_parse_as4 body use_4b_asn; mret (p_update msg, used)
  | LIBBGP_PACKET_NOTIFICATION =>
      '(msg, used) ← libbgp_notification_parse body; mret (p_notification msg, used)
  | LIBBGP_PACKET_KEEPALIVE => used ← libbgp_keepalive_parse body; mret (p_keepalive, used)
  | LIBBGP_PACKET_UNKNOWN =>
      (if zlen body =? 0 then mret tt else alloc_or_nomem);;
      mret (p_unknown body, zlen body)
  end.

(** [has_detail]: the caller passed a detail to fill in.  Without one, a
    packet of unknown type is kept with its raw body. *)
Definition bgp_packet_parse_as4_detail (buf : list Z) (use_4b_asn has_detail : bool)
    : M parse_result :=
  let len := zlen buf in
  let fails e code subcode : M parse_result := mret (inr (e, ParseErrorDetail e code subcode)) in
  if len <? LIBBGP_BGP_HEADER_LEN then fails LIBBGP_ERR_BAD_LEN 1 2
  else
    valid ← packet_marker_valid buf;
    if negb valid then fails LIBBGP_ERR_BAD_LEN 1 1
    else
      wire_len ← rd_be16 buf 16;
      if (wire_len <? LIBBGP_BGP_MIN_PACKET_LEN) || (LIBBGP_BGP_MAX_PACKET_LEN <? wire_len) ||
         (len <? wire_len)
      then fails LIBBGP_ERR_BAD_LEN 1 2
      else
        raw_type ← rd buf 18;
        let body_len := wire_len - LIBBGP_BGP_HEADER_LEN in
        body ← slice buf LIBBGP_BGP_HEADER_LEN body_len;
        let type := packet_type_from_raw raw_type in
        if has_detail && bool_decide (type = LIBBGP_PACKET_UNKNOWN)
        then fails LIBBGP_ERR_BAD_TYPE 1 3
        else
          r ← try_call (packet_parse_body type body use_4b_asn);
          match r with
          | inr err => mret (inr (err, packet_parse_map_body_error type err))
          | inl (data, used) =>
              if negb (used =? body_len) then
                mret (inr (LIBBGP_ERR_BAD_LEN, packet_parse_map_body_error type LIBBGP_ERR_BAD_LEN))
              else mret (inl (Packet data raw_type, wire_len))
          end.

Definition libbgp_packet_parse_as4 (buf : list Z) (use_4b_asn : bool) : M (libbgp_packet_t * Z) :=
  r ← bgp_packet_parse_as4_detail buf use_4b_asn false;
  match r with
  | inl r => mret r
  | inr (e, _) => err e
  end.

Definition libbgp_packet_parse (buf : list Z) : M (libbgp_packet_t * Z) :=
  libbgp_packet_parse_as4 buf false.

(** ** Writing *)

Definition packet_write_body (pkt : libbgp_packet_t) (body : list Z) : M (list Z * (Z * Z)) :=
  match pkt_data pkt with
  | p_open msg => '(body, len) ← libbgp_open_write msg body; mret (body, (1, len))
  | p_update msg => '(body, len) ← libbgp_update_write msg body; mret (body, (2, len))
  | p_notification msg => '(body, len) ← libbgp_notification_write msg body; mret (body, (3, len))
  | p_keepalive => '(body, len) ← libbgp_keepalive_write body; mret (body, (4, len))
  | p_unknown raw_body =>
      fail_if (zlen body <? zlen raw_body) LIBBGP_ERR_BUFFER;;
      body ← (if zlen raw_body =? 0 then mret body else store body 0 raw_body);
      mret (body, (pkt_raw_type pkt, zlen raw_body))
  end.

Definition libbgp_packet_write (pkt : libbgp_packet_t) (buf : list Z) : M (list Z * Z) :=
  let max_body_len := LIBBGP_BGP_MAX_PACKET_LEN - LIBBGP_BGP_HEADER_LEN in
  match pkt_data pkt with
  | p_unknown raw_body =>
      fail_if (max_body_len <? zlen raw_body) LIBBGP_ERR_BAD_LEN;;
      fail_if (zlen buf <? LIBBGP_BGP_HEADER_LEN + zlen raw_body) LIBBGP_ERR_BUFFER
  | _ =>
      if zlen buf <? LIBBGP_BGP_HEADER_LEN then
        _ ← packet_write_body pkt [];
        err LIBBGP_ERR_BUFFER
      else mret tt
  end;;
  let body_cap := zlen buf - LIBBGP_BGP_HEADER_LEN in
  let body_cap := if max_body_len <? body_cap then max_body_len else body_cap in
  '(buf, (raw_type, body_len)) ← in_sub buf LIBBGP_BGP_HEADER_LEN body_cap (packet_write_body pkt);
  fail_if (max_body_len <? body_len) LIBBGP_ERR_BAD_LEN;;
  let total_len := LIBBGP_BGP_HEADER_LEN + body_len in
  buf ← store buf 0 (replicate 16 255);
  buf ← store buf 16 (bgp_put_be16 (u16 total_len));
  buf ← store buf 18 [raw_type];
  mret (buf, total_len).
End Packet.
