(* ===== verification/PacketSpec.v ===== *)
(** * Packets: encoding, round trip, error details *)

From S2P Require Import Prelude Bytes Prefix4 Capability Open Notification Pattr PattrSpec.
From S2P Require Import Update UpdateSpec Packet.

Section PacketSpec.
Context {host : Host}.

(** ** The wire format *)

Definition pkt_body_enc (data : libbgp_packet_data) : list Z :=
  match data with
  | p_open msg => open_enc msg
  | p_update msg => upd_enc msg
  | p_notification msg => ntf_enc msg
  | p_keepalive => []
  | p_unknown raw_body => raw_body
  end.

(** The type octet on the wire: the stored one counts for an unknown packet
    only. *)
Definition pkt_code (pkt : libbgp_packet_t) : Z :=
  match pkt_type pkt with
  | LIBBGP_PACKET_OPEN => 1
  | LIBBGP_PACKET_UPDATE => 2
  | LIBBGP_PACKET_NOTIFICATION => 3
  | LIBBGP_PACKET_KEEPALIVE => 4
  | LIBBGP_PACKET_UNKNOWN => pkt_raw_type pkt
  end.

Definition pkt_header (wire_len code : Z) : list Z :=
  bgp_marker_expected ++ bgp_put_be16 wire_len ++ [code].

Definition pkt_enc (pkt : libbgp_packet_t) : list Z :=
  pkt_header (19 + zlen (pkt_body_enc (pkt_data pkt))) (pkt_code pkt) ++ pkt_body_enc (pkt_data pkt).

(** ** Well-formed packets *)

(** The packets the writer accepts. *)
Definition pkt_ok (pkt : libbgp_packet_t) : Prop :=
  match pkt_data pkt with
  | p_open msg => open_wf msg ∧ open_version msg = 4
  | p_update msg => upd_ok msg
  | p_notification msg => ntf_wf msg
  | p_keepalive => True
  | p_unknown raw_body => bytes_ok raw_body ∧ is_u8 (pkt_raw_type pkt)
  end ∧ zlen (pkt_body_enc (pkt_data pkt)) <= 4077.

(** The packets the parser returns on a session of AS-number width [b]. *)
Definition pkt_wf (b : bool) (pkt : libbgp_packet_t) : Prop :=
  match pkt_data pkt with
  | p_open msg => open_wf msg
  | p_update msg => upd_wf b msg
  | p_notification msg => ntf_wf msg
  | p_keepalive => True
  | p_unknown raw_body => bytes_ok raw_body
  end ∧ is_u8 (pkt_raw_type pkt) ∧ packet_type_from_raw (pkt_raw_type pkt) = pkt_type pkt ∧
  zlen (pkt_body_enc (pkt_data pkt)) <= 4077.

(** The packet as its encoding reads: attributes with their length flag. *)
Definition pkt_norm (pkt : libbgp_packet_t) : libbgp_packet_t :=
  match pkt_data pkt with
  | p_update msg => Packet (p_update (upd_norm msg)) (pkt_raw_type pkt)
  | _ => pkt
  end.

Lemma pkt_code_wf b pkt : pkt_wf b pkt → pkt_code pkt = pkt_raw_type pkt.
Proof.
  intros (_ & _ & Ht & _). unfold pkt_code. rewrite <-Ht. unfold packet_type_from_raw.
  repeat case_match; try done; lia.
Qed.

Lemma pkt_header_length n code : length (pkt_header n code) = 19%nat.
Proof. done. Qed.

Lemma pkt_enc_length pkt : zlen (pkt_enc pkt) = 19 + zlen (pkt_body_enc (pkt_data pkt)).
Proof. unfold pkt_enc. rewrite length_app, pkt_header_length. lia. Qed.

(** ** Writing *)

Lemma packet_write_body_spec pkt body :
  pkt_ok pkt →
  let enc := pkt_body_enc (pkt_data pkt) in
  wp (packet_write_body pkt body)
     (λ r, r = (written body enc, (pkt_code pkt, zlen enc)) ∧ zlen enc <= zlen body)
     (λ e, e = LIBBGP_ERR_BUFFER ∧ zlen body < zlen enc).
Proof.
  intros [Hok Hl]. unfold packet_write_body, pkt_code, pkt_type.
  destruct (pkt_data pkt) as [msg|msg|msg| |raw]; cbn [pkt_body_enc] in *.
  - apply wp_bind. eapply wp_mono; [apply open_write_spec; apply Hok| |done].
    intros [? ?] [[= -> ->] ?]. by apply wp_ret.
  - apply wp_bind. eapply wp_mono; [by apply update_write_spec| |done].
    intros [? ?] [[= -> ->] ?]. by apply wp_ret.
  - apply wp_bind. eapply wp_mono; [by apply notification_write_spec| |done].
    intros [? ?] [[= -> ->] ?]. by apply wp_ret.
  - apply wp_bind, wp_ret, wp_ret. split; [done|cbn; lia].
  - apply wp_bind, wp_fail_if; intros Hf; [split; [done|lia]|].
    apply wp_bind. eapply (wp_mono _ (λ b, b = written body raw) _ no_err); [| |done].
    + apply wp_if; intros Hz; [|apply wp_put_first; [lia|done]].
      apply wp_ret. by destruct raw; [|cbn in Hz; lia].
    + intros b ->. apply wp_ret. split; [done|lia].
Qed.

(** The header goes in front of the body that is already in place. *)
Lemma wp_put_header buf body code n :
  19 + zlen body <= zlen buf → n = 19 + zlen body →
  wp (buf ← store (take 19 buf ++ body ++ drop (19 + length body) buf) 0 (replicate 16 255);
      buf ← store buf 16 (bgp_put_be16 (u16 n));
      buf ← store buf 18 [code];
      mret (buf, n))
     (λ r, r = (written buf (pkt_header (u16 n) code ++ body), n)) no_err.
Proof.
  intros Hl ->. set (n := 19 + zlen body).
  rewrite <-(take_drop 16 (take 19 buf)), take_take, <-(assoc_L (++)).
  rewrite <-(take_drop 2 (drop 16 (take 19 buf))), <-(assoc_L (++)).
  assert (∃ c, drop 2 (drop 16 (take 19 buf)) = [c]) as [c Hc].
  { assert (length (drop 2 (drop 16 (take 19 buf))) = 1%nat) as H
      by (rewrite !length_drop, length_take; lia).
    destruct (drop 2 (drop 16 (take 19 buf))) as [|c [|]]; try done. by exists c. }
  rewrite Hc. set (a := take (16 `min` 19) buf). set (b := take 2 _).
  assert (Ha : length a = 16%nat) by (unfold a; rewrite length_take; lia).
  assert (Hb : length b = 2%nat) by (unfold b; rewrite length_take, length_drop, length_take; lia).
  apply wp_bind. eapply (wp_store_app [] a); [done|by rewrite Ha|]. cbn [app].
  apply wp_bind. eapply (wp_store_app (replicate 16 255) b); [done|by rewrite Hb|].
  apply wp_bind. rewrite (assoc_L (++) (replicate 16 255)).
  eapply (wp_store_app (replicate 16 255 ++ bgp_put_be16 (u16 n)) [c]); [done|done|].
  by apply wp_ret.
Qed.

Lemma packet_write_spec pkt : pkt_ok pkt → writes (libbgp_packet_write pkt) (pkt_enc pkt).
Proof.
  intros Hok buf. pose proof (pkt_enc_length pkt) as Hlen. pose proof (proj2 Hok) as Hmax.
  unfold libbgp_packet_write, LIBBGP_BGP_MAX_PACKET_LEN, LIBBGP_BGP_HEADER_LEN.
  set (enc := pkt_body_enc (pkt_data pkt)) in *.
  apply wp_bind. eapply (wp_mono _ (λ _, 19 <= zlen buf)
    _ (λ e, e = LIBBGP_ERR_BUFFER ∧ zlen buf < zlen (pkt_enc pkt))); [| |done].
  - assert (Hsmall : wp (if zlen buf <? 19 then packet_write_body pkt [] ≫= λ _, err LIBBGP_ERR_BUFFER
      else mret tt) (λ _, 19 <= zlen buf) (λ e, e = LIBBGP_ERR_BUFFER ∧ zlen buf < zlen (pkt_enc pkt))).
    { apply wp_if; intros Hs; [|apply wp_ret; lia]. apply wp_bind.
      eapply wp_mono; [by apply packet_write_body_spec| |].
      - intros r _. apply wp_err. split; [done|lia].
      - intros e [-> _]. split; [done|lia]. }
    destruct (pkt_data pkt) as [| | | |raw] eqn:Hd; try exact Hsmall.
    apply wp_bind, wp_fail_if; intros; [exfalso; unfold enc in *; cbn in *; lia|].
    apply wp_fail_if; intros; [split; [done|]|]; unfold enc in *; cbn in *; lia.
  - intros _ H19. cbv zeta. set (cap := if 4096 - 19 <? zlen buf - 19 then _ else _).
    assert (Hcap : 0 <= cap <= 4077 ∧ 19 + cap <= zlen buf ∧ (zlen enc <= cap ∨ zlen buf < 19 + zlen enc))
      by (unfold cap; case_match; lia).
    clearbody cap. apply wp_bind. unfold in_sub. apply wp_bind, wp_slice; [lia..|].
    apply wp_bind. eapply wp_mono; [by apply packet_write_body_spec| |]; fold enc.
    + intros [sub' [code n]] [[= -> -> ->] Hfit]. rewrite length_take, length_drop in Hfit.
      apply wp_bind, wp_store; [lia|rewrite length_written; rewrite length_take, length_drop; lia|].
      apply wp_ret. cbv beta iota. apply wp_bind, wp_fail_if; intros; [exfalso; lia|].
      rewrite length_written by (rewrite length_take, length_drop; lia).
      assert (take (Z.to_nat 19) buf ++ written (take (Z.to_nat cap) (drop (Z.to_nat 19) buf)) enc ++
        drop (Z.to_nat 19 + length (take (Z.to_nat cap) (drop (Z.to_nat 19) buf))) buf =
        take 19 buf ++ enc ++ drop (19 + length enc) buf) as ->.
      { change (Z.to_nat 19) with 19%nat. unfold written. rewrite <-(assoc_L (++)). do 2 f_equal.
        rewrite skipn_firstn_comm, length_take, length_drop, drop_drop.
        rewrite <-(take_drop (Z.to_nat cap - length enc) (drop (19 + length enc) buf)) at 2.
        f_equal. rewrite drop_drop. f_equal. lia. }
      eapply wp_mono; [apply wp_put_header; [lia|done]| |done].
      intros r ->. rewrite Hlen. split; [|lia]. unfold pkt_enc. fold enc.
      by replace (u16 (19 + zlen enc)) with (19 + zlen enc) by (unfold u16; rewrite Z.mod_small; lia).
    + intros e [-> Hlt]. rewrite length_take, length_drop in Hlt. split; [done|lia].
Qed.

(** ** Parsing: the header decides, then the body is parsed *)

Definition wire_len_of (buf : list Z) : Z := bgp_get_be16 (buf !!! 16%nat) (buf !!! 17%nat).
Definition raw_type_of (buf : list Z) : Z := buf !!! 18%nat.
Definition frame_body (buf : list Z) : list Z := take (Z.to_nat (wire_len_of buf - 19)) (drop 19 buf).

(** The subcode of the header's defect, if it has one. *)
Definition header_error (buf : list Z) : option Z :=
  if zlen buf <? 19 then Some 2
  else if negb (bool_decide (take 16 buf = bgp_marker_expected)) then Some 1
  else if (wire_len_of buf <? 19) || (4096 <? wire_len_of buf) || (zlen buf <? wire_len_of buf) then Some 2
  else None.

Lemma rd_run buf i s : 0 <= i < zlen buf → rd buf i s = (Ret (buf !!! Z.to_nat i), s).
Proof.
  intros Hi. unfold rd. replace ((0 <=? i) && (i <? zlen buf)) with true by lia.
  destruct (buf !! Z.to_nat i) eqn:Hb; [|apply lookup_ge_None in Hb; lia].
  by rewrite (list_lookup_total_correct _ _ _ Hb).
Qed.

Lemma rd_be16_run buf i s :
  0 <= i → i + 1 < zlen buf →
  rd_be16 buf i s = (Ret (bgp_get_be16 (buf !!! Z.to_nat i) (buf !!! Z.to_nat (i + 1))), s).
Proof.
  intros H0 H1. unfold rd_be16, mbind, M_bind. by rewrite !rd_run by lia.
Qed.

Lemma slice_run buf pos n s :
  0 <= pos → 0 <= n → pos + n <= zlen buf →
  slice buf pos n s = (Ret (take (Z.to_nat n) (drop (Z.to_nat pos) buf)), s).
Proof.
  intros. unfold slice. by replace ((0 <=? pos) && (0 <=? n) && (pos + n <=? zlen buf)) with true by lia.
Qed.

Lemma bind_ret_run {A B} (m : M A) (k : A -> M B) a s s' :
  m s = (Ret a, s') → (m ≫= k) s = k a s'.
Proof. intros Hm. unfold mbind, M_bind. by rewrite Hm. Qed.

Lemma marker_valid_run buf s :
  16 <= zlen buf →
  packet_marker_valid buf s = (Ret (bool_decide (take 16 buf = bgp_marker_expected)), s).
Proof.
  intros Hl. unfold packet_marker_valid. erewrite bind_ret_run by (apply slice_run; unfold LIBBGP_BGP_MARKER_LEN; lia).
  unfold mret, M_ret. rewrite drop_0. change (Z.to_nat LIBBGP_BGP_MARKER_LEN) with 16%nat. do 2 f_equal.
  apply eq_true_iff_eq. rewrite Z.eqb_eq, bool_decide_eq_true. apply memcmp_eq.
  rewrite length_take. change (length bgp_marker_expected) with 16%nat. lia.
Qed.

(** The parser as a decision on the header followed by the body's parser. *)
Lemma parse_detail_run buf b d s :
  bgp_packet_parse_as4_detail buf b d s =
  match header_error buf with
  | Some subcode => (Ret (inr (LIBBGP_ERR_BAD_LEN, ParseErrorDetail LIBBGP_ERR_BAD_LEN 1 subcode)), s)
  | None =>
      let type := packet_type_from_raw (raw_type_of buf) in
      if d && bool_decide (type = LIBBGP_PACKET_UNKNOWN)
      then (Ret (inr (LIBBGP_ERR_BAD_TYPE, ParseErrorDetail LIBBGP_ERR_BAD_TYPE 1 3)), s)
      else
        match packet_parse_body type (frame_body buf) b s with
        | (Ret (data, used), s') =>
            if used =? wire_len_of buf - 19
            then (Ret (inl (Packet data (raw_type_of buf), wire_len_of buf)), s')
            else (Ret (inr (LIBBGP_ERR_BAD_LEN, packet_parse_map_body_error type LIBBGP_ERR_BAD_LEN)), s')
        | (Err e, s') => (Ret (inr (e, packet_parse_map_body_error type e)), s')
        | (Fault f, s') => (Fault f, s')
        end
  end.
Proof.
  unfold bgp_packet_parse_as4_detail, header_error, LIBBGP_BGP_HEADER_LEN, LIBBGP_BGP_MIN_PACKET_LEN,
    LIBBGP_BGP_MAX_PACKET_LEN. destruct (zlen buf <? 19) eqn:H19; [done|].
  erewrite bind_ret_run by (apply marker_valid_run; lia).
  destruct (negb (bool_decide (take 16 buf = bgp_marker_expected))); [done|].
  erewrite bind_ret_run by (apply rd_be16_run; lia). change (Z.to_nat 16) with 16%nat.
  change (Z.to_nat (16 + 1)) with 17%nat. change (bgp_get_be16 _ _) with (wire_len_of buf).
  destruct ((wire_len_of buf <? 19) || (4096 <? wire_len_of buf) || (zlen buf <? wire_len_of buf)) eqn:Hw; [done|].
  erewrite bind_ret_run by (apply rd_run; lia).
  erewrite bind_ret_run by (apply slice_run; lia). change (buf !!! Z.to_nat 18) with (raw_type_of buf).
  change (take _ (drop (Z.to_nat 19) buf)) with (frame_body buf). cbv zeta.
  destruct (d && _); [done|]. unfold try_call. unfold mbind at 1, M_bind.
  destruct (packet_parse_body _ _ _ s) as [[[data used]|e|f] t]; [|done|done].
  by destruct (used =? wire_len_of buf - 19).
Qed.

Lemma parse_as4_run buf b s :
  libbgp_packet_parse_as4 buf b s =
  match header_error buf with
  | Some _ => (Err LIBBGP_ERR_BAD_LEN, s)
  | None =>
      ('(data, used) ← packet_parse_body (packet_type_from_raw (raw_type_of buf)) (frame_body buf) b;
       fail_if (negb (used =? wire_len_of buf - 19)) LIBBGP_ERR_BAD_LEN;;
       mret (Packet data (raw_type_of buf), wire_len_of buf)) s
  end.
Proof.
  unfold libbgp_packet_parse_as4. unfold mbind at 1, M_bind at 1. rewrite parse_detail_run.
  destruct (header_error buf); [done|]. cbn [andb].
  unfold mbind, M_bind. destruct (packet_parse_body _ _ _ s) as [[[data used]|e|f] t]; [|done|done].
  by destruct (used =? wire_len_of buf - 19).
Qed.

(** ** Reading back what was written *)

Lemma packet_parse_body_enc b pkt :
  pkt_wf b pkt →
  wp (packet_parse_body (pkt_type pkt) (pkt_body_enc (pkt_data pkt)) b)
     (λ r, r = (pkt_data (pkt_norm pkt), zlen (pkt_body_enc (pkt_data pkt)))) no_err.
Proof.
  intros [Hwf _]. unfold pkt_type, pkt_norm. destruct (pkt_data pkt) as [msg|msg|msg| |raw] eqn:Hd;
    cbn [packet_parse_body pkt_body_enc pkt_data]; rewrite ?Hd.
  - apply wp_bind. rewrite <-(app_nil_r (open_enc msg)) at 1.
    eapply wp_mono; [by apply open_parse_enc| |done]. intros r ->. by apply wp_ret.
  - apply wp_bind. destruct Hwf as (Hok & Hw & Hn & Ha).
    eapply wp_mono; [by apply update_parse_enc| |done]. intros r ->. apply wp_ret.
    by rewrite (fmap_fixed p4_normalize (upd_withdrawn msg)), (fmap_fixed p4_normalize (upd_nlri msg)).
  - apply wp_bind. eapply wp_mono; [apply notification_parse_enc| |done]. intros r ->. by apply wp_ret.
  - apply wp_bind, wp_bind, wp_fail_if; intros; [done|]. by apply wp_ret, wp_ret.
  - apply wp_bind, (wp_if (zlen raw =? 0)); intros; [|apply wp_alloc_or_nomem]; apply wp_ret; [|done].
    by apply wp_ret.
Qed.

Lemma enc_header b pkt rest :
  pkt_wf b pkt →
  wire_len_of (pkt_enc pkt ++ rest) = zlen (pkt_enc pkt) ∧
  raw_type_of (pkt_enc pkt ++ rest) = pkt_raw_type pkt ∧
  frame_body (pkt_enc pkt ++ rest) = pkt_body_enc (pkt_data pkt) ∧
  header_error (pkt_enc pkt ++ rest) = None.
Proof.
  intros Hwf. pose proof (pkt_code_wf _ _ Hwf) as Hcode. destruct Hwf as (_ & _ & _ & Hl).
  pose proof (pkt_enc_length pkt) as Hlen. set (body := pkt_body_enc (pkt_data pkt)) in *.
  assert (Hw : wire_len_of (pkt_enc pkt ++ rest) = zlen (pkt_enc pkt)).
  { rewrite Hlen. change (wire_len_of _) with (bgp_get_be16 (u8 (Z.shiftr (19 + zlen body) 8)) (u8 (19 + zlen body))).
    apply get_put_be16. unfold is_u16. lia. }
  split; [done|]. split; [by rewrite <-Hcode|]. split.
  - unfold frame_body. rewrite Hw, Hlen. change (drop 19 _) with (body ++ rest).
    replace (Z.to_nat (19 + zlen body - 19)) with (length body) by lia. by rewrite take_app_length.
  - unfold header_error. rewrite Hw, length_app, Hlen.
    replace (Z.of_nat (length (pkt_enc pkt) + length rest) <? 19) with false by lia.
    rewrite bool_decide_true by done. cbn [negb].
    by replace ((19 + zlen body <? 19) || (4096 <? 19 + zlen body) ||
      (Z.of_nat (length (pkt_enc pkt) + length rest) <? 19 + zlen body)) with false by lia.
Qed.

Lemma packet_parse_enc b pkt rest :
  pkt_wf b pkt →
  wp (libbgp_packet_parse_as4 (pkt_enc pkt ++ rest) b)
     (λ r, r = (pkt_norm pkt, zlen (pkt_enc pkt))) no_err.
Proof.
  intros Hwf s. rewrite parse_as4_run. destruct (enc_header b pkt rest Hwf) as (Hw & Ht & Hb & He).
  rewrite He, Hw, Ht, Hb. pose proof Hwf as (_ & _ & Htype & _). rewrite Htype. revert s.
  change (wp (packet_parse_body (pkt_type pkt) (pkt_body_enc (pkt_data pkt)) b ≫= λ '(data, used),
    fail_if (negb (used =? zlen (pkt_enc pkt) - 19)) LIBBGP_ERR_BAD_LEN;;
    mret (Packet data (pkt_raw_type pkt), zlen (pkt_enc pkt)))
    (λ r, r = (pkt_norm pkt, zlen (pkt_enc pkt))) no_err).
  apply wp_bind. eapply wp_mono; [by apply packet_parse_body_enc| |done]. intros r ->.
  apply wp_bind, wp_fail_if; intros Hf; [rewrite pkt_enc_length in Hf; exfalso; lia|].
  apply wp_ret. unfold pkt_norm. by destruct pkt as [[]].
Qed.

(** ** What the parser accepts *)

Definition pkt_parse_err (e : libbgp_err_t) : Prop :=
  e ∈ [LIBBGP_ERR_BAD_LEN; LIBBGP_ERR_BAD_TYPE; LIBBGP_ERR_INVALID; LIBBGP_ERR_EXISTS].

Definition data_wf (b : bool) (data : libbgp_packet_data) : Prop :=
  match data with
  | p_open msg => open_wf msg
  | p_update msg => upd_wf b msg ∧ upd_norm msg = msg
  | p_notification msg => ntf_wf msg
  | p_keepalive => True
  | p_unknown raw_body => bytes_ok raw_body
  end ∧ zlen (pkt_body_enc data) <= 4077.

Lemma packet_parse_body_spec b type body :
  bytes_ok body → zlen body <= 4077 →
  wp (packet_parse_body type body b)
     (λ r, data_wf b r.1 ∧ ∀ code, pkt_type (Packet r.1 code) = type) pkt_parse_err.
Proof.
  intros Hok Hl. unfold pkt_parse_err, data_wf.
  destruct type; cbn [packet_parse_body]; apply wp_bind.
  - eapply wp_mono; [by apply open_parse_spec| |]; [|intros e [-> | ->]; set_solver].
    intros [msg used] [Hwf _]. apply wp_ret. split; [|done]. split; [done|].
    pose proof (open_enc_length msg Hwf). cbn in *. lia.
  - eapply wp_mono; [apply update_parse_spec; [done|lia]| |].
    + intros [msg used] (Hwf & Hn & He & _). apply wp_ret. split; [|done]. split; [done|].
      cbn in *. lia.
    + intros e He. unfold upd_parse_err in He. set_solver.
  - eapply wp_mono; [apply notification_parse_spec; [done|unfold SIZE_MAX; lia]| |];
      [|intros e [-> _]; set_solver].
    intros [msg used] (Hwf & He & _). apply wp_ret. split; [|done]. split; [done|]. cbn [fst pkt_body_enc] in *. by rewrite He.
  - apply wp_bind, wp_fail_if; intros; [set_solver|]. apply wp_ret, wp_ret. by cbn.
  - apply (wp_if (zlen body =? 0)); intros; [|apply wp_alloc_or_nomem]; apply wp_ret; [|by cbn].
    by apply wp_ret.
Qed.

Lemma header_ok_bounds buf :
  header_error buf = None →
  19 <= wire_len_of buf <= 4096 ∧ wire_len_of buf <= zlen buf ∧
  zlen (frame_body buf) = wire_len_of buf - 19.
Proof.
  unfold header_error, frame_body. repeat case_match; try done. intros _.
  rewrite length_take, length_drop. lia.
Qed.

Lemma packet_parse_spec b buf :
  bytes_ok buf →
  wp (libbgp_packet_parse_as4 buf b)
     (λ r, pkt_wf b r.1 ∧ pkt_norm r.1 = r.1 ∧ r.2 = wire_len_of buf ∧ header_error buf = None)
     pkt_parse_err.
Proof.
  intros Hok s. rewrite parse_as4_run. destruct (header_error buf) eqn:He.
  { exists [], s. split; [done|]. split; [done|]. left. unfold pkt_parse_err. set_solver. }
  revert s. match goal with |- ∀ s, ∃ used s', _ ∧ match ?m s with _ => _ end =>
    change (wp m (λ r, pkt_wf b r.1 ∧ pkt_norm r.1 = r.1 ∧ r.2 = wire_len_of buf ∧ @None Z = None)
              pkt_parse_err) end.
  destruct (header_ok_bounds buf He) as (Hw & Hl & Hbl).
  apply wp_bind. eapply wp_mono; [apply packet_parse_body_spec; [by apply bytes_ok_slice|lia]| |done].
  intros [data used] [[Hwf Hmax] Ht]. apply wp_bind, wp_fail_if; intros; [unfold pkt_parse_err; set_solver|].
  apply wp_ret. cbn [fst snd] in *. split; [|split; [|done]].
  - split; [cbn [pkt_data]; destruct data; first [done|by destruct Hwf]|]. cbn [pkt_raw_type pkt_data]. split; [|by rewrite Ht].
    unfold raw_type_of. destruct (lookup_lt_is_Some_2 buf 18) as [x Hx]; [lia|].
    rewrite (list_lookup_total_correct _ _ _ Hx). eapply Forall_lookup_1; eauto.
  - unfold pkt_norm. destruct data as [|msg| | |]; try done. destruct Hwf as [_ Hn]. cbn. by rewrite Hn.
Qed.

(** ** Properties *)

(** C29: A packet the writer accepts is written whole when the buffer can hold
    it (BUFFER otherwise, nothing else), and the bytes, whatever follows them,
    parse back to the packet with exactly its length consumed. *)
Theorem packet_write_parse_roundtrip b pkt buf rest :
  pkt_wf b pkt → (∀ msg, pkt_data pkt = p_open msg → open_version msg = 4) →
  if zlen buf <? zlen (pkt_enc pkt)
  then libbgp_packet_write pkt buf [] = (Err LIBBGP_ERR_BUFFER, [])
  else ∃ buf' n, libbgp_packet_write pkt buf [] = (Ret (buf', n), []) ∧
    19 <= n <= 4096 ∧ drop (Z.to_nat n) buf' = drop (Z.to_nat n) buf ∧
    libbgp_packet_parse_as4 (take (Z.to_nat n) buf' ++ rest) b [] = (Ret (pkt_norm pkt, n), []).
Proof.
  intros Hwf Hv. assert (Hok : pkt_ok pkt).
  { destruct Hwf as (Hd & Hc & _ & Hl). split; [|done].
    destruct (pkt_data pkt); try done; [split; [done|by apply Hv]|by destruct Hd]. }
  pose proof (pkt_enc_length pkt). pose proof (proj2 Hok).
  destruct (zlen buf <? zlen (pkt_enc pkt)) eqn:Hlt.
  - apply wp_fails. eapply wp_mono; [by apply packet_write_spec| |].
    + intros ? [_ ?]. lia.
    + by intros e [-> _].
  - exists (written buf (pkt_enc pkt)), (zlen (pkt_enc pkt)). split_and!; [|lia..| |].
    + apply wp_returns. eapply wp_mono; [by apply packet_write_spec|by intros ? [? _]|].
      intros e [_ ?]. lia.
    + unfold written. by rewrite Nat2Z.id, drop_app_length.
    + unfold written. rewrite Nat2Z.id, take_app_length. apply wp_returns. by apply packet_parse_enc.
Qed.

(** C30: Parsing any bytes as a packet, with any allocator, never leaves the
    buffer and terminates; it fails only with the codes listed; an accepted
    packet is well-formed, the length consumed is the header's length field,
    and the packet, unless it is an OPEN of another version, is written and
    parsed back unchanged. *)
Theorem packet_parse_accepts_wf b buf s :
  bytes_ok buf →
  match (libbgp_packet_parse_as4 buf b s).1 with
  | Ret (pkt, n) =>
      pkt_wf b pkt ∧ n = wire_len_of buf ∧ 19 <= n <= 4096 ∧ n <= zlen buf ∧
      ((∀ msg, pkt_data pkt = p_open msg → open_version msg = 4) →
       ∃ buf' n', libbgp_packet_write pkt (replicate 4096 0) [] = (Ret (buf', n'), []) ∧
         libbgp_packet_parse_as4 (take (Z.to_nat n') buf') b [] = (Ret (pkt, n'), []))
  | Err e => pkt_parse_err e ∨ e = LIBBGP_ERR_NOMEM
  | Fault _ => False
  end.
Proof.
  intros Hok. destruct (packet_parse_spec b buf Hok s) as (u & s' & _ & H).
  destruct (libbgp_packet_parse_as4 buf b s) as [[[pkt n]|e|f] t]; cbn [fst snd] in *; [| |done].
  2:{ destruct H as [_ [?|[? _]]]; auto. }
  destruct H as (_ & Hwf & Hnorm & -> & He). destruct (header_ok_bounds buf He) as (Hw & Hl & _).
  split_and!; [done|done|lia..|]. intros Hv. pose proof (pkt_enc_length pkt).
  assert (Hok' : pkt_ok pkt).
  { destruct Hwf as (Hd & Hc & _ & ?). split; [|done].
    destruct (pkt_data pkt); try done; [split; [done|by apply Hv]|by destruct Hd]. }
  exists (written (replicate 4096 0) (pkt_enc pkt)), (zlen (pkt_enc pkt)). split.
  - apply wp_returns. eapply wp_mono; [by apply packet_write_spec|by intros ? [? _]|].
    intros e [_ Hlt]. rewrite length_replicate in Hlt. destruct Hok'. lia.
  - unfold written. rewrite Nat2Z.id, take_app_length, <-(app_nil_r (pkt_enc pkt)) at 1.
    apply wp_returns. eapply wp_mono; [by apply packet_parse_enc| |done]. intros r ->. by rewrite Hnorm.
Qed.

(** C36: The error detail is exact: with a detail the parser accepts the same
    packets as without, those of unknown type apart; the detail names the
    error returned; and its NOTIFICATION code and subcode are, for a defect
    of the header, (1, 1) on a bad marker and (1, 2) on a bad length, and
    otherwise those of the message type. *)
Theorem packet_parse_detail_exact b buf s :
  bytes_ok buf →
  let type := packet_type_from_raw (raw_type_of buf) in
  match (bgp_packet_parse_as4_detail buf b true s).1 with
  | Ret (inl r) =>
      libbgp_packet_parse_as4 buf b s = (Ret r, (bgp_packet_parse_as4_detail buf b true s).2) ∧
      pkt_type r.1 ≠ LIBBGP_PACKET_UNKNOWN
  | Ret (inr (e, d)) =>
      det_err d = e ∧
      ((libbgp_packet_parse_as4 buf b s).1 = Err e ∨
       header_error buf = None ∧ type = LIBBGP_PACKET_UNKNOWN ∧ e = LIBBGP_ERR_BAD_TYPE) ∧
      (det_notify_code d, det_notify_subcode d) =
        match header_error buf with
        | Some subcode => (1, subcode)
        | None =>
            if decide (e = LIBBGP_ERR_NOMEM) then (0, 0)
            else match type with
            | LIBBGP_PACKET_UNKNOWN => (1, 3)
            | LIBBGP_PACKET_OPEN => (2, if decide (e = LIBBGP_ERR_BAD_TYPE) then 4 else 0)
            | LIBBGP_PACKET_UPDATE => (3, if decide (e = LIBBGP_ERR_INVALID) then 3 else 1)
            | LIBBGP_PACKET_NOTIFICATION | LIBBGP_PACKET_KEEPALIVE => (1, 2)
            end
        end
  | _ => False
  end.
Proof.
  intros Hok type. rewrite parse_detail_run, parse_as4_run. fold type.
  destruct (header_error buf) as [sub|] eqn:He; [by split_and!; [|left|]|].
  destruct (header_ok_bounds buf He) as (Hw & Hl & Hbl).
  pose proof (packet_parse_body_spec b type (frame_body buf)) as Hspec.
  destruct (Hspec ltac:(by apply bytes_ok_slice) ltac:(lia) s) as (u & s' & _ & Hbody).
  cbn [andb]. case_bool_decide as Hu; [by split_and!; [|right|rewrite Hu]|].
  unfold mbind, M_bind. destruct (packet_parse_body type (frame_body buf) b s) as [[[data used]|e|f] t];
    [| |done].
  - destruct Hbody as (_ & _ & Ht). destruct (used =? wire_len_of buf - 19); cbn [negb fst snd fail_if mret M_ret].
    + split; [done|]. by rewrite Ht.
    + unfold packet_parse_map_body_error. rewrite decide_False by done. by destruct type; split_and!; try (by left).
  - cbn [fst]. unfold packet_parse_map_body_error. repeat case_decide; subst; destruct type; split_and!; by try left.
Qed.
End PacketSpec.

(** ** Witnesses *)

#[local] Existing Instance little_endian_host.

Definition packet_example : libbgp_packet_t := Packet (p_update update_example) 2.

Lemma packet_example_wf : pkt_wf false packet_example.
Proof.
  split; [apply update_example_wf|]. split; [by compute|]. split; [done|]. vm_compute. discriminate.
Qed.

Lemma packet_write_parse_roundtrip_witness :
  ∃ buf' n, libbgp_packet_write packet_example (replicate 4096 0) [] = (Ret (buf', n), []) ∧
    libbgp_packet_parse_as4 (take (Z.to_nat n) buf' ++ [1; 2; 3]) false [] =
      (Ret (pkt_norm packet_example, n), []).
Proof.
  destruct (packet_write_parse_roundtrip false packet_example (replicate 4096 0) [1; 2; 3]
    packet_example_wf ltac:(done)) as (buf' & n & H1 & _ & _ & H2).
  exists buf', n. exact (conj H1 H2).
Defined.

Definition keepalive_bytes : list Z := replicate 16 255 ++ [0; 19; 4].

Lemma packet_parse_accepts_wf_witness :
  libbgp_packet_parse_as4 keepalive_bytes false [] = (Ret (Packet p_keepalive 4, 19), []) ∧
  pkt_wf false (Packet p_keepalive 4).
Proof.
  assert (Hok : bytes_ok keepalive_bytes) by (unfold keepalive_bytes; repeat constructor; lia).
  split; [vm_compute; reflexivity|].
  exact (proj1 (packet_parse_accepts_wf false keepalive_bytes [] Hok)).
Defined.

(** An unknown message type, with and without a detail. *)
Lemma packet_parse_detail_exact_witness :
  bgp_packet_parse_as4_detail (replicate 16 255 ++ [0; 19; 9]) false true [] =
    (Ret (inr (LIBBGP_ERR_BAD_TYPE, ParseErrorDetail LIBBGP_ERR_BAD_TYPE 1 3)), []) ∧
  (1, 3) = match header_error (replicate 16 255 ++ [0; 19; 9]) with Some c => (1, c) | None => (1, 3) end.
Proof.
  assert (Hok : bytes_ok (replicate 16 255 ++ [0; 19; 9])) by (repeat constructor; lia).
  split; [vm_compute; reflexivity|].
  exact (proj2 (proj2 (packet_parse_detail_exact false _ [] Hok))).
Defined.
