(* ===== verification/Sink.v ===== *)
(** * Stream framing and the packet queue (src/sink.c)

    The byte buffer [buf] of capacity [buf_cap = zlen buf] holds its unread
    bytes at [buf_off, buf_off + buf_len); the packet queue is a ring of
    [packet_cap = zlen packets] slots.  A slot is [None] when it has been
    zeroed after its packet was moved out.  Memory a reallocation adds is
    shown as zero bytes; nothing reads it before it is written.  The object is
    used under its lock, so every operation is a function on the state; a call
    on a destroyed sink, which only compares a pointer, is not modelled. *)

From S2P Require Import Prelude Bytes Packet.

Record sink_impl_t : Type := SinkImpl {
  s_buf : list Z;
  s_buf_off : Z;
  s_buf_len : Z;
  s_packets : list (option libbgp_packet_t);
  s_packet_head : Z;
  s_packet_count : Z;
  s_use_4b_asn : bool
}.

Definition with_buf (impl : sink_impl_t) (buf : list Z) (off len : Z) : sink_impl_t :=
  SinkImpl buf off len (s_packets impl) (s_packet_head impl) (s_packet_count impl)
    (s_use_4b_asn impl).

Definition with_packets (impl : sink_impl_t) (packets : list (option libbgp_packet_t))
    (head count : Z) : sink_impl_t :=
  SinkImpl (s_buf impl) (s_buf_off impl) (s_buf_len impl) packets head count (s_use_4b_asn impl).

Definition libbgp_sink_init_as4 (use_4b_asn : bool) : M sink_impl_t :=
  alloc_or_nomem;; mret (SinkImpl [] 0 0 [] 0 0 use_4b_asn).

Definition libbgp_sink_init : M sink_impl_t := libbgp_sink_init_as4 false.

(** ** The byte buffer *)

Definition sink_compact_buf (impl : sink_impl_t) : M sink_impl_t :=
  if s_buf_off impl =? 0 then mret impl
  else
    buf ←
      (if s_buf_len impl =? 0 then mret (s_buf impl)
       else
         bytes ← slice (s_buf impl) (s_buf_off impl) (s_buf_len impl);
         store (s_buf impl) 0 bytes);
    mret (with_buf impl buf 0 (s_buf_len impl)).

Definition sink_reserve_buf (impl : sink_impl_t) (len : Z) : M (sink_impl_t * bool) :=
  let buf_cap := zlen (s_buf impl) in
  if SIZE_MAX - s_buf_len impl <? len then mret (impl, false)
  else
    let needed := s_buf_len impl + len in
    if (buf_cap <? s_buf_off impl) || (buf_cap - s_buf_off impl <? s_buf_len impl)
    then mret (impl, false)
    else
      let available_at_tail := buf_cap - s_buf_off impl - s_buf_len impl in
      if len <=? available_at_tail then mret (impl, true)
      else
        '(impl, done) ←
          (if (0 <? s_buf_off impl) && (buf_cap / 2 <=? s_buf_off impl) then
             impl ← sink_compact_buf impl;
             mret (impl, len <=? buf_cap - s_buf_len impl)
           else if (0 <? s_buf_off impl) && (needed <=? buf_cap) then
             impl ← sink_compact_buf impl;
             mret (impl, true)
           else mret (impl, false));
        if (done : bool) then mret (impl, true)
        else if (0 <? s_buf_off impl) && (SIZE_MAX - s_buf_off impl <? needed) then mret (impl, false)
        else
          let required_cap := if 0 <? s_buf_off impl then s_buf_off impl + needed else needed in
          let new_cap :=
            if buf_cap =? 0 then LIBBGP_BGP_HEADER_LEN
            else if SIZE_MAX / 2 <? buf_cap then required_cap
            else buf_cap * 2 in
          cap ← double_until DOUBLE_FUEL new_cap required_cap;
          match cap with
          | None => mret (impl, false)
          | Some new_cap =>
              ok ← bgp_alloc;
              if negb ok then mret (impl, false)
              else
                mret (with_buf impl (s_buf impl ++ replicate (Z.to_nat (new_cap - buf_cap)) 0)
                        (s_buf_off impl) (s_buf_len impl), true)
          end.

Definition sink_drop_buffer_prefix (impl : sink_impl_t) (len : Z) : sink_impl_t :=
  if s_buf_len impl <=? len then with_buf impl (s_buf impl) 0 0
  else with_buf impl (s_buf impl) (s_buf_off impl + len) (s_buf_len impl - len).

(** ** The packet queue *)

Definition SIZEOF_PACKET : Z := 80.

(** The ring index [(packet_head + i) % packet_cap]. *)
Definition ring_index (impl : sink_impl_t) (i : Z) : Z :=
  (s_packet_head impl + i) mod zlen (s_packets impl).

Definition rd_slot (packets : list (option libbgp_packet_t)) (i : Z) : M (option libbgp_packet_t) :=
  match packets !! Z.to_nat i with
  | Some slot => mret slot
  | None => stuck OutOfBounds
  end.

(** [for (i = 0; i < packet_count; i++) packets[i] = impl->packets[(head + i) % cap];] *)
Fixpoint copy_ring (impl : sink_impl_t) (i : Z) (n : nat) : M (list (option libbgp_packet_t)) :=
  match n with
  | O => mret []
  | S n' =>
      slot ← rd_slot (s_packets impl) (ring_index impl i);
      rest ← copy_ring impl (i + 1) n';
      mret (slot :: rest)
  end.

Definition sink_reserve_packets (impl : sink_impl_t) (needed : Z) : M (sink_impl_t * bool) :=
  let packet_cap := zlen (s_packets impl) in
  if needed <=? packet_cap then mret (impl, true)
  else
    cap ← double_until DOUBLE_FUEL (if packet_cap =? 0 then 4 else u64 (packet_cap * 2)) needed;
    match cap with
    | None => mret (impl, false)
    | Some new_cap =>
        if SIZE_MAX / SIZEOF_PACKET <? new_cap then mret (impl, false)
        else
          ok ← bgp_alloc;
          if negb ok then mret (impl, false)
          else
            slots ← copy_ring impl 0 (Z.to_nat (s_packet_count impl));
            let packets := slots ++
              replicate (Z.to_nat (new_cap - s_packet_count impl)) (Some libbgp_packet_init) in
            mret (with_packets impl packets 0 (s_packet_count impl), true)
    end.

Definition sink_clear_locked (impl : sink_impl_t) : sink_impl_t :=
  SinkImpl (s_buf impl) 0 0 (s_packets impl) 0 0 (s_use_4b_asn impl).

Definition libbgp_sink_clear (impl : sink_impl_t) : sink_impl_t := sink_clear_locked impl.

Definition libbgp_sink_packet_count (impl : sink_impl_t) : Z := s_packet_count impl.
Definition libbgp_sink_buffered_len (impl : sink_impl_t) : Z := s_buf_len impl.

Definition libbgp_sink_pop (impl : sink_impl_t) : M (libbgp_packet_t * sink_impl_t) :=
  fail_if (s_packet_count impl =? 0) LIBBGP_ERR_NOT_FOUND;;
  slot ← rd_slot (s_packets impl) (s_packet_head impl);
  match slot with
  | None => stuck OutOfBounds
  | Some out_packet =>
      let packets := <[Z.to_nat (s_packet_head impl) := None]> (s_packets impl) in
      let count := s_packet_count impl - 1 in
      let head := if count =? 0 then 0 else (s_packet_head impl + 1) mod zlen (s_packets impl) in
      mret (out_packet, with_packets impl packets head count)
  end.

(** ** Framing *)

Section Sink.
Context {host : Host}.

Definition sink_marker_valid (buf : list Z) (off : Z) : M bool :=
  marker ← slice buf off LIBBGP_BGP_MARKER_LEN;
  mret (forallb (λ b, b =? 255) marker).

(** The loop over complete frames; the state is changed on errors too. *)
Fixpoint sink_process_loop (fuel : nat) (impl : sink_impl_t) : M (sink_impl_t * libbgp_err_t) :=
  match fuel with
  | O => stuck OutOfFuel
  | S fuel' =>
      if s_buf_len impl <? LIBBGP_BGP_HEADER_LEN then mret (impl, LIBBGP_OK)
      else
        let off := s_buf_off impl in
        valid ← sink_marker_valid (s_buf impl) off;
        if negb valid then mret (with_buf impl (s_buf impl) 0 0, LIBBGP_ERR_BAD_LEN)
        else
          wire_len ← rd_be16 (s_buf impl) (off + 16);
          if (wire_len <? LIBBGP_BGP_MIN_PACKET_LEN) || (LIBBGP_BGP_MAX_PACKET_LEN <? wire_len)
          then mret (with_buf impl (s_buf impl) 0 0, LIBBGP_ERR_BAD_LEN)
          else if s_buf_len impl <? wire_len then mret (impl, LIBBGP_OK)
          else
            '(impl, ok) ← sink_reserve_packets impl (s_packet_count impl + 1);
            if negb ok then mret (impl, LIBBGP_ERR_NOMEM)
            else
              frame ← slice (s_buf impl) off wire_len;
              r ← try_call (libbgp_packet_parse_as4 frame (s_use_4b_asn impl));
              match r with
              | inr err => mret (sink_drop_buffer_prefix impl wire_len, err)
              | inl (pkt, consumed) =>
                  if negb (consumed =? wire_len)
                  then mret (sink_drop_buffer_prefix impl wire_len, LIBBGP_ERR_BAD_LEN)
                  else
                    let tail := ring_index impl (s_packet_count impl) in
                    _ ← rd_slot (s_packets impl) tail;
                    let impl := with_packets impl (<[Z.to_nat tail := Some pkt]> (s_packets impl))
                                  (s_packet_head impl) (s_packet_count impl + 1) in
                    sink_process_loop fuel' (sink_drop_buffer_prefix impl wire_len)
              end
  end.

(** A turn consumes at least a header. *)
Definition sink_process_locked (impl : sink_impl_t) : M (sink_impl_t * libbgp_err_t) :=
  sink_process_loop (S (Z.to_nat (s_buf_len impl))) impl.

Definition libbgp_sink_feed (impl : sink_impl_t) (data : list Z) : M (sink_impl_t * libbgp_err_t) :=
  if zlen data =? 0 then mret (impl, LIBBGP_OK)
  else
    '(impl, ok) ← sink_reserve_buf impl (zlen data);
    if negb ok then mret (impl, LIBBGP_ERR_NOMEM)
    else
      buf ← store (s_buf impl) (s_buf_off impl + s_buf_len impl) data;
      sink_process_locked (with_buf impl buf (s_buf_off impl) (s_buf_len impl + zlen data)).
End Sink.
