(* ===== verification/SinkSpec.v ===== *)
(** * Stream framing: refinement to a byte queue and a packet queue

    The sink refines the pair (bytes not yet framed, packets not yet popped);
    [drain] is what feeding does to the pair. *)

From S2P Require Import Prelude Bytes Open Notification Update UpdateSpec Packet PacketSpec Sink.

Lemma runs_slice R buf pos n (Q : list Z -> Prop) :
  0 <= pos → 0 <= n → pos + n <= zlen buf →
  Q (take (Z.to_nat n) (drop (Z.to_nat pos) buf)) → runs R (slice buf pos n) Q.
Proof. intros. eapply runs_pure; [|done]. intros s. by rewrite slice_run. Qed.

Lemma runs_store R buf pos bytes (Q : list Z -> Prop) :
  0 <= pos → pos + zlen bytes <= zlen buf →
  Q (take (Z.to_nat pos) buf ++ bytes ++ drop (Z.to_nat pos + length bytes) buf) →
  runs R (store buf pos bytes) Q.
Proof.
  intros Hp Hl HQ. eapply runs_pure; [|done]. intros s. unfold store.
  by replace ((0 <=? pos) && (pos + zlen bytes <=? zlen buf)) with true by lia.
Qed.

(** ** The abstract sink *)

Section SinkSpec.
Context {host : Host}.

Definition bad_header (pend : list Z) : bool :=
  negb (bool_decide (take 16 pend = bgp_marker_expected)) ||
  (wire_len_of pend <? 19) || (4096 <? wire_len_of pend).

(** The packets framed from a byte string, the bytes left, and the code
    returned: a broken header drops everything, a frame that does not parse
    is dropped alone. *)
Fixpoint drain_fuel (fuel : nat) (b : bool) (pend : list Z)
    : list libbgp_packet_t * list Z * libbgp_err_t :=
  match fuel with
  | O => ([], pend, LIBBGP_OK)
  | S fuel' =>
      if zlen pend <? 19 then ([], pend, LIBBGP_OK)
      else if bad_header pend then ([], [], LIBBGP_ERR_BAD_LEN)
      else if zlen pend <? wire_len_of pend then ([], pend, LIBBGP_OK)
      else
        let n := Z.to_nat (wire_len_of pend) in
        match (libbgp_packet_parse_as4 (take n pend) b []).1 with
        | Ret (pkt, _) =>
            let '(ps, rest, e) := drain_fuel fuel' b (drop n pend) in (pkt :: ps, rest, e)
        | Err e => ([], drop n pend, e)
        | Fault _ => ([], pend, LIBBGP_ERR)
        end
  end.

Definition drain (b : bool) (pend : list Z) := drain_fuel (S (length pend)) b pend.

Lemma drain_fuel_enough b f1 f2 pend :
  (length pend < f1)%nat → (length pend < f2)%nat → drain_fuel f1 b pend = drain_fuel f2 b pend.
Proof.
  revert f2 pend. induction f1 as [|f1 IH]; intros [|f2] pend H1 H2; [lia..|].
  cbn [drain_fuel]. repeat (case_match; [done|]). case_match; try done. destruct a as [pkt n].
  unfold bad_header in *. rewrite (IH f2); [done|rewrite length_drop; lia..].
Qed.

(** One frame of [drain]. *)
Lemma drain_eq b pend :
  drain b pend =
    if zlen pend <? 19 then ([], pend, LIBBGP_OK)
    else if bad_header pend then ([], [], LIBBGP_ERR_BAD_LEN)
    else if zlen pend <? wire_len_of pend then ([], pend, LIBBGP_OK)
    else
      let n := Z.to_nat (wire_len_of pend) in
      match (libbgp_packet_parse_as4 (take n pend) b []).1 with
      | Ret (pkt, _) => let '(ps, rest, e) := drain b (drop n pend) in (pkt :: ps, rest, e)
      | Err e => ([], drop n pend, e)
      | Fault _ => ([], pend, LIBBGP_ERR)
      end.
Proof.
  unfold drain at 1. cbn [drain_fuel]. repeat (case_match; [done|]). case_match; try done.
  destruct a as [pkt n]. unfold drain, bad_header in *.
  rewrite (drain_fuel_enough b (length pend) (S (length (drop (Z.to_nat (wire_len_of pend)) pend))));
    [done|rewrite length_drop; lia|lia].
Qed.

(** A frame's header is in its first nineteen bytes. *)
Lemma header_app pend d :
  19 <= zlen pend →
  bad_header (pend ++ d) = bad_header pend ∧ wire_len_of (pend ++ d) = wire_len_of pend.
Proof.
  intros Hl. assert (Hw : wire_len_of (pend ++ d) = wire_len_of pend).
  { unfold wire_len_of. by rewrite !lookup_total_app_l by lia. }
  split; [|done]. unfold bad_header. by rewrite Hw, take_app_le by lia.
Qed.

Lemma bad_header_false pend :
  bad_header pend = false → 19 <= wire_len_of pend <= 4096.
Proof. unfold bad_header. intros [[_ H1]%orb_false_iff H2]%orb_false_iff. lia. Qed.

(** Parsing one frame with an allocator that never refuses. *)
Lemma frame_parse b pend :
  bytes_ok pend → 19 <= zlen pend → bad_header pend = false → wire_len_of pend <= zlen pend →
  let frame := take (Z.to_nat (wire_len_of pend)) pend in
  (∃ pkt, libbgp_packet_parse_as4 frame b [] = (Ret (pkt, wire_len_of pend), []) ∧ pkt_wf b pkt) ∨
  (∃ e, libbgp_packet_parse_as4 frame b [] = (Err e, []) ∧ e ≠ LIBBGP_OK).
Proof.
  intros Hok Hl Hb Hw frame. apply bad_header_false in Hb.
  assert (Hf : 19 <= zlen frame) by (unfold frame; rewrite length_take; lia).
  assert (Hwf : wire_len_of frame = wire_len_of pend).
  { destruct (header_app frame (drop (Z.to_nat (wire_len_of pend)) pend) Hf) as [_ Hwe].
    unfold frame in Hwe at 1. by rewrite take_drop in Hwe. }
  destruct (wp_run _ _ _ (packet_parse_spec b frame ltac:(by apply Forall_take)))
    as [([pkt n] & Hr & Hpw & _ & Hn & _)|(e & Hr & He)].
  - left. exists pkt. cbn [fst snd] in *. by rewrite Hr, Hn, Hwf.
  - right. exists e. split; [done|]. intros ->. unfold pkt_parse_err in He. set_solver.
Qed.

(** Induction over the frames of a byte string. *)
Lemma frames_ind (P : list Z -> Prop) :
  (∀ pend, (∀ n, (0 < n)%nat → 19 <= zlen pend → P (drop n pend)) → P pend) → ∀ pend, P pend.
Proof.
  intros Hstep pend. remember (length pend) as m eqn:Hm. revert pend Hm.
  induction m as [m IH] using (well_founded_induction Nat.lt_wf_0). intros pend ->.
  apply Hstep. intros n Hn Hl. eapply IH; [|done]. rewrite length_drop. lia.
Qed.

(** What follows does not change what has been framed. *)
Lemma drain_app b pend d :
  bytes_ok pend →
  match drain b pend with
  | (ps, rest, LIBBGP_OK) =>
      drain b (pend ++ d) = let '(ps', rest', e) := drain b (rest ++ d) in (ps ++ ps', rest', e)
  | (ps, _, e) => (drain b (pend ++ d)).1.1 = ps ∧ (drain b (pend ++ d)).2 = e
  end.
Proof.
  induction pend as [pend IH] using frames_ind. intros Hok.
  rewrite (drain_eq b pend). destruct (zlen pend <? 19) eqn:H19; [by destruct (drain b (pend ++ d)) as [[? ?] ?]|].
  destruct (header_app pend d) as [Hbh Hwl]; [lia|].
  destruct (bad_header pend) eqn:Hb.
  { rewrite (drain_eq b (pend ++ d)), Hbh, length_app.
    by replace (Z.of_nat (length pend + length d) <? 19) with false by lia. }
  destruct (zlen pend <? wire_len_of pend) eqn:Hlt; [by destruct (drain b (pend ++ d)) as [[? ?] ?]|].
  cbv zeta. pose proof (bad_header_false pend Hb) as Hw.
  assert (Hd : drain b (pend ++ d) =
    match (libbgp_packet_parse_as4 (take (Z.to_nat (wire_len_of pend)) pend) b []).1 with
    | Ret (pkt, _) =>
        let '(ps, rest, e) := drain b (drop (Z.to_nat (wire_len_of pend)) pend ++ d) in (pkt :: ps, rest, e)
    | Err e => ([], drop (Z.to_nat (wire_len_of pend)) pend ++ d, e)
    | Fault _ => ([], pend ++ d, LIBBGP_ERR)
    end).
  { rewrite (drain_eq b (pend ++ d)), Hbh, Hwl, length_app.
    replace (Z.of_nat (length pend + length d) <? 19) with false by lia.
    replace (Z.of_nat (length pend + length d) <? wire_len_of pend) with false by lia.
    cbv zeta. by rewrite take_app_le, drop_app_le by lia. }
  rewrite Hd. destruct (frame_parse b pend Hok) as [(pkt & Hr & _)|(e & Hr & He)]; [lia|done|lia|..];
    rewrite Hr; cbn [fst].
  - specialize (IH (Z.to_nat (wire_len_of pend)) ltac:(lia) ltac:(lia) ltac:(by apply Forall_drop)).
    destruct (drain b (drop (Z.to_nat (wire_len_of pend)) pend)) as [[ps rest] e].
    destruct (drain b (drop (Z.to_nat (wire_len_of pend)) pend ++ d)) as [[ps2 rest2] e2].
    destruct (drain b (rest ++ d)) as [[ps1 rest1] e1].
    destruct e; cbn [fst snd] in *; try (destruct IH; by subst). by simplify_eq.
  - by destruct e.
Qed.

(** What is left is part of what was there. *)
Lemma drain_rest b pend : bytes_ok pend → (drain b pend).1.2 `suffix_of` pend ∨ (drain b pend).1.2 = [].
Proof.
  induction pend as [pend IH] using frames_ind. intros Hok. rewrite (drain_eq b pend).
  destruct (zlen pend <? 19) eqn:H19; [by left|]. destruct (bad_header pend) eqn:Hb; [by right|].
  destruct (zlen pend <? wire_len_of pend) eqn:Hlt; [by left|].
  cbv zeta. pose proof (bad_header_false pend Hb) as Hw.
  assert (Hs : drop (Z.to_nat (wire_len_of pend)) pend `suffix_of` pend) by apply suffix_drop.
  destruct (frame_parse b pend Hok) as [(pkt & Hr & _)|(e & Hr & He)]; [lia|done|lia|..];
    rewrite Hr; cbn [fst snd].
  - specialize (IH (Z.to_nat (wire_len_of pend)) ltac:(lia) ltac:(lia) ltac:(by apply Forall_drop)).
    destruct (drain b (drop (Z.to_nat (wire_len_of pend)) pend)) as [[ps rest] e]. cbn [fst snd] in *.
    destruct IH as [?| ->]; [left; by etransitivity|by right].
  - by left.
Qed.

(** A stream of encoded packets is framed into these packets. *)
Lemma drain_encoded b pkts :
  Forall (pkt_wf b) pkts → drain b (concat (pkt_enc <$> pkts)) = (pkt_norm <$> pkts, [], LIBBGP_OK).
Proof.
  induction 1 as [|pkt pkts Hwf Hall IH]; [done|]. rewrite fmap_cons. cbn [concat].
  destruct (enc_header b pkt (concat (pkt_enc <$> pkts)) Hwf) as (Hw & _ & _ & He).
  pose proof (pkt_enc_length pkt) as Hlen.
  rewrite drain_eq, length_app, Hw.
  replace (Z.of_nat (length (pkt_enc pkt) + length (concat (pkt_enc <$> pkts))) <? 19) with false by lia.
  assert (Hb : bad_header (pkt_enc pkt ++ concat (pkt_enc <$> pkts)) = false).
  { unfold bad_header. revert He. unfold header_error. repeat case_match; try done. intros _.
    destruct (bool_decide _); [|done]. cbn [negb orb] in *. lia. }
  rewrite Hb.
  replace (Z.of_nat (length (pkt_enc pkt) + length (concat (pkt_enc <$> pkts))) <? zlen (pkt_enc pkt))
    with false by lia.
  cbv zeta. rewrite Nat2Z.id, take_app_length, drop_app_length, IH.
  pose proof (packet_parse_enc b pkt [] Hwf) as Hp. rewrite app_nil_r in Hp.
  by rewrite (wp_returns _ _ Hp).
Qed.

(** ** The representation *)

(** The sink holds the bytes [pend] and the packets [q], oldest first.  The
    bounds on the capacities are those an address space imposes. *)
Record sink_rep (impl : sink_impl_t) (pend : list Z) (q : list libbgp_packet_t) : Prop := {
  rep_off : 0 <= s_buf_off impl;
  rep_len : s_buf_len impl = zlen pend;
  rep_room : s_buf_off impl + zlen pend <= zlen (s_buf impl);
  rep_pend : take (length pend) (drop (Z.to_nat (s_buf_off impl)) (s_buf impl)) = pend;
  rep_buf_cap : zlen (s_buf impl) <= 2 ^ 50;
  rep_bytes : bytes_ok pend;
  rep_count : s_packet_count impl = zlen q;
  rep_fits : zlen q <= zlen (s_packets impl);
  rep_packet_cap : zlen (s_packets impl) <= 2 ^ 50;
  rep_head : 0 <= s_packet_head impl < Z.max 1 (zlen (s_packets impl));
  rep_slots : ∀ i p, q !! i = Some p →
    s_packets impl !! Z.to_nat (ring_index impl (Z.of_nat i)) = Some (Some p)
}.

Lemma rep_init b : sink_rep (SinkImpl [] 0 0 [] 0 0 b) [] [].
Proof. by split. Qed.

(** ** Growing the buffer *)

Lemma runs_double_until R fuel n required :
  0 < n → required <= n * 2 ^ Z.of_nat fuel → required <= 2 ^ 60 →
  runs R (double_until fuel n required)
    (λ r, ∃ c, r = Some c ∧ required <= c ∧ n <= c ∧ (c = n ∨ c < 2 * required)).
Proof.
  intros Hn Hr Hb s Hs. destruct (double_until_run fuel n required s Hn Hr Hb) as (c & Hc & ?).
  exists (Some c), s. split; [done|]. split; [by exists c|done].
Qed.

Lemma runs_compact R impl pend q :
  sink_rep impl pend q →
  runs R (sink_compact_buf impl)
    (λ r, sink_rep r pend q ∧ s_buf_off r = 0 ∧ length (s_buf r) = length (s_buf impl) ∧
          s_use_4b_asn r = s_use_4b_asn impl).
Proof.
  intros H. destruct H as [Ho Hl Hroom Hp Hbc Hok Hc Hf Hpc Hh Hs]. unfold sink_compact_buf.
  apply runs_if; intros Hz.
  { apply runs_ret. split; [by split|]. split; [lia|done]. }
  apply runs_bind. eapply (runs_mono _ _ (λ buf, take (length pend) buf = pend ∧
    length buf = length (s_buf impl))).
  - apply runs_if; intros Hn.
    + apply runs_ret. assert (length pend = 0%nat) as Hn0 by lia. apply length_zero_iff_nil in Hn0.
      by subst pend.
    + apply runs_bind, runs_slice; [lia..|]. rewrite Hl, Nat2Z.id, Hp.
      apply runs_store; [lia..|]. change (Z.to_nat 0) with 0%nat. rewrite take_0. cbn [app].
      rewrite take_app_length. split; [done|]. rewrite length_app, length_drop. lia.
  - intros buf [Hb Hlen]. apply runs_ret. split; [|done].
    split; cbn [with_buf s_buf s_buf_off s_buf_len s_packets s_packet_head s_packet_count]; try done; try lia.
Qed.

Lemma rep_grow impl pend q n :
  sink_rep impl pend q → zlen (s_buf impl) + Z.of_nat n <= 2 ^ 50 →
  sink_rep (with_buf impl (s_buf impl ++ replicate n 0) (s_buf_off impl) (s_buf_len impl)) pend q.
Proof.
  intros [Ho Hl Hroom Hp Hbc Hok Hc Hf Hpc Hh Hs] Hn.
  split; cbn [with_buf s_buf s_buf_off s_buf_len s_packets s_packet_head s_packet_count]; try done.
  - rewrite length_app. lia.
  - rewrite drop_app_le by lia. rewrite take_app_le by (rewrite length_drop; lia). done.
  - rewrite length_app, length_replicate. lia.
Qed.

(** Room for [len] more bytes; the contents stay.  With an allocator that
    never refuses, the call succeeds. *)
Lemma runs_reserve_buf R impl pend q len :
  sink_rep impl pend q → 0 < len → zlen pend + len <= 2 ^ 40 →
  runs R (sink_reserve_buf impl len)
    (λ r, sink_rep r.1 pend q ∧ s_use_4b_asn r.1 = s_use_4b_asn impl ∧
          (r.2 = true → s_buf_off r.1 + zlen pend + len <= zlen (s_buf r.1)) ∧
          (R = true → r.2 = true)).
Proof.
  intros Hrep Hlen Hb. pose proof Hrep as [Ho Hl Hroom Hp Hbc Hok _ _ _ _ _].
  unfold sink_reserve_buf. rewrite Hl.
  apply runs_if; intros; [exfalso; unfold SIZE_MAX in *; lia|].
  apply runs_if; intros; [exfalso; lia|].
  apply runs_if; intros Havail. { apply runs_ret. cbn. split_and!; try done. lia. }
  apply runs_bind. eapply (runs_mono _ _ (λ r, sink_rep r.1 pend q ∧
    s_use_4b_asn r.1 = s_use_4b_asn impl ∧ length (s_buf r.1) = length (s_buf impl) ∧
    if (r.2 : bool) then s_buf_off r.1 + zlen pend + len <= zlen (s_buf r.1)
    else zlen (s_buf impl) < zlen pend + len ∧ s_buf_off r.1 <= zlen pend + len)).
  - apply runs_if; intros Hc1; [|apply runs_if; intros Hc2].
    + apply runs_bind. eapply runs_mono; [by apply runs_compact|]. intros r (Hr & Hz & Hlr & H4).
      apply runs_ret. cbn [fst snd]. rewrite (rep_len _ _ _ Hr). split_and!; try done.
      destruct (len <=? zlen (s_buf impl) - zlen pend) eqn:Hd; lia.
    + apply runs_bind. eapply runs_mono; [by apply runs_compact|]. intros r (Hr & Hz & Hlr & H4).
      apply runs_ret. cbn [fst snd]. split_and!; try done. lia.
    + apply runs_ret. cbn [fst snd]. split_and!; try done; [|lia].
      destruct (0 <? s_buf_off impl) eqn:Hpos; [|lia].
      pose proof (Z.div_le_upper_bound (zlen (s_buf impl)) 2 (zlen (s_buf impl))). lia.
  - intros [impl' dn] (Hr & H4 & Hlb & Hd). cbn [fst snd] in *. destruct dn.
    { apply runs_ret. cbn. by split_and!. }
    pose proof Hr as [Ho' _ Hroom' _ _ _ _ _ _ _ _].
    apply runs_if; intros; [exfalso; unfold SIZE_MAX in *; lia|].
    set (required := if 0 <? s_buf_off impl' then _ else _).
    assert (Hreq : s_buf_off impl' + zlen pend + len = required) by (unfold required; case_match; lia).
    assert (SIZE_MAX / 2 = 2 ^ 63 - 1) as -> by done. rewrite <-Hlb in *.
    set (n := if zlen (s_buf impl') =? 0 then _ else _).
    assert (Hn : 0 < n <= 2 ^ 51 ∧ (zlen (s_buf impl') <= n)).
    { unfold n, LIBBGP_BGP_HEADER_LEN. repeat case_match; lia. }
    assert (Hn2 : n <= 19 ∨ n <= 2 * required).
    { unfold n, LIBBGP_BGP_HEADER_LEN. repeat case_match; lia. }
    clearbody n required. apply runs_bind.
    eapply runs_mono; [apply runs_double_until; unfold DOUBLE_FUEL; lia|].
    intros r (c & -> & Hc1 & Hc2 & Hc3). apply runs_alloc; cbn [negb].
    + apply runs_ret. cbn [fst snd]. split; [|split_and!; try done].
      * apply rep_grow; [done|]. lia.
      * cbn [with_buf s_buf s_buf_off]. rewrite length_app, length_replicate. lia.
    + intros HR. apply runs_ret. cbn [fst snd]. split_and!; try done. by subst R.
Qed.

(** ** The ring *)

Lemma ring_distinct h i j c : 0 <= i < j → j < c → (h + i) mod c ≠ (h + j) mod c.
Proof.
  intros Hi Hj He. assert (Hd : (h + j - (h + i)) mod c = 0) by (rewrite Zminus_mod, He, Z.sub_diag; done).
  replace (h + j - (h + i)) with (j - i) in Hd by lia. rewrite Z.mod_small in Hd by lia. lia.
Qed.

Lemma runs_rd_slot R packets i slot (Q : option libbgp_packet_t -> Prop) :
  packets !! Z.to_nat i = Some slot → Q slot → runs R (rd_slot packets i) Q.
Proof. intros Hs HQ. unfold rd_slot. rewrite Hs. by apply runs_ret. Qed.

Lemma runs_copy_ring R impl q i :
  (∀ j p, q !! j = Some p →
     s_packets impl !! Z.to_nat (ring_index impl (i + Z.of_nat j)) = Some (Some p)) →
  runs R (copy_ring impl i (length q)) (λ r, r = Some <$> q).
Proof.
  revert i. induction q as [|p q IH]; intros i Hs; cbn [copy_ring length]; [by apply runs_ret|].
  apply runs_bind. eapply runs_rd_slot; [rewrite <-(Z.add_0_r i); by apply (Hs 0%nat)|].
  apply runs_bind. eapply runs_mono; [apply IH|].
  - intros j p' Hj. replace (i + 1 + Z.of_nat j) with (i + Z.of_nat (S j)) by lia. by apply Hs.
  - intros r ->. by apply runs_ret.
Qed.

(** Room for one more packet; the queue stays. *)
Lemma runs_reserve_packets R impl pend q :
  sink_rep impl pend q → zlen q < 2 ^ 40 →
  runs R (sink_reserve_packets impl (s_packet_count impl + 1))
    (λ r, sink_rep r.1 pend q ∧ s_use_4b_asn r.1 = s_use_4b_asn impl ∧
          s_buf r.1 = s_buf impl ∧ s_buf_off r.1 = s_buf_off impl ∧ s_buf_len r.1 = s_buf_len impl ∧
          (r.2 = true → zlen q < zlen (s_packets r.1)) ∧ (R = true → r.2 = true)).
Proof.
  intros Hrep Hb. pose proof Hrep as [Ho Hl Hroom Hp Hbc Hok Hc Hf Hpc Hh Hs].
  unfold sink_reserve_packets. rewrite Hc.
  apply runs_if; intros Hn. { apply runs_ret. cbn. split_and!; try done. lia. }
  set (n := if zlen (s_packets impl) =? 0 then 4 else u64 (zlen (s_packets impl) * 2)).
  assert (Hn4 : zlen q + 1 <= n <= 2 ^ 41 + 4).
  { unfold n, u64. case_match; [lia|]. rewrite Z.mod_small; lia. }
  clearbody n. apply runs_bind. eapply runs_mono; [apply runs_double_until; unfold DOUBLE_FUEL; lia|].
  intros r (c & -> & Hc1 & Hc2 & Hc3).
  assert (2 ^ 50 <= SIZE_MAX / SIZEOF_PACKET) by (vm_compute; discriminate).
  apply runs_if; intros; [exfalso; lia|]. apply runs_alloc; cbn [negb].
  - apply runs_bind. rewrite Nat2Z.id. eapply runs_mono; [by apply (runs_copy_ring R impl q 0)|].
    intros slots ->. apply runs_ret. cbn [fst snd].
    assert (Hlen : zlen ((Some <$> q) ++ replicate (Z.to_nat (c - zlen q)) (Some libbgp_packet_init)) = c).
    { rewrite length_app, length_fmap, length_replicate. lia. }
    split; [|cbn [with_packets s_packets s_use_4b_asn s_buf s_buf_off s_buf_len]; split_and!; try done; lia].
    split; cbn [with_packets s_packets s_packet_head s_packet_count s_buf s_buf_off s_buf_len];
      try done; try lia.
    intros i p Hi. unfold ring_index. cbn [with_packets s_packet_head s_packets]. rewrite Hlen.
    pose proof (lookup_lt_Some _ _ _ Hi). rewrite Z.mod_small, Z.add_0_l, Nat2Z.id by lia.
    rewrite lookup_app_l by (rewrite length_fmap; lia). by rewrite list_lookup_fmap, Hi.
  - intros HR. apply runs_ret. cbn [fst snd]. split_and!; try done. by subst R.
Qed.

Lemma rep_push impl pend q pkt :
  sink_rep impl pend q → zlen q < zlen (s_packets impl) →
  is_Some (s_packets impl !! Z.to_nat (ring_index impl (zlen q))) ∧
  sink_rep (with_packets impl (<[Z.to_nat (ring_index impl (zlen q)) := Some pkt]> (s_packets impl))
              (s_packet_head impl) (zlen q + 1)) pend (q ++ [pkt]).
Proof.
  intros [Ho Hl Hroom Hp Hbc Hok Hc Hf Hpc Hh Hs] Hlt.
  assert (Hm : ∀ i, 0 <= ring_index impl i < zlen (s_packets impl)).
  { intros i. apply Z.mod_pos_bound. lia. }
  split. { apply lookup_lt_is_Some_2. specialize (Hm (zlen q)). lia. }
  split; cbn [with_packets s_packets s_packet_head s_packet_count s_buf s_buf_off s_buf_len];
    rewrite ?length_insert, ?length_app; cbn [length]; try done; try lia.
  intros i p Hi. unfold ring_index in *. cbn [with_packets s_packet_head s_packets]. rewrite length_insert.
  apply lookup_snoc_Some in Hi as [[Hi Hq]|[-> ->]].
  - rewrite list_lookup_insert_ne; [by apply Hs|].
    pose proof (ring_distinct (s_packet_head impl) (Z.of_nat i) (zlen q) (zlen (s_packets impl))).
    pose proof (Hm (Z.of_nat i)). pose proof (Hm (zlen q)). lia.
  - rewrite list_lookup_insert_eq; [done|]. pose proof (Hm (zlen q)). lia.
Qed.

(** ** Framing *)

Lemma rep_drop impl pend q n :
  sink_rep impl pend q → 0 <= n →
  sink_rep (sink_drop_buffer_prefix impl n) (drop (Z.to_nat n) pend) q ∧
  s_use_4b_asn (sink_drop_buffer_prefix impl n) = s_use_4b_asn impl.
Proof.
  intros [Ho Hl Hroom Hp Hbc Hok Hc Hf Hpc Hh Hs] Hn. unfold sink_drop_buffer_prefix. rewrite Hl.
  split; [|by case_match]. case_match.
  - rewrite drop_ge by lia. split; cbn; try done; try lia.
  - split; cbn [with_buf s_buf s_buf_off s_buf_len s_packets s_packet_head s_packet_count]; try done; try lia.
    + rewrite length_drop. lia.
    + rewrite length_drop. lia.
    + rewrite <-Hp at 2. rewrite length_drop, skipn_firstn_comm, drop_drop. f_equal. f_equal. lia.
    + by apply Forall_drop.
Qed.

Lemma rep_clear_buf impl pend q :
  sink_rep impl pend q → sink_rep (with_buf impl (s_buf impl) 0 0) [] q.
Proof.
  intros [Ho Hl Hroom Hp Hbc Hok Hc Hf Hpc Hh Hs]. split; cbn; try done; lia.
Qed.

(** Reading the buffer at the frame is reading the pending bytes. *)
Lemma rep_slice impl pend q n :
  sink_rep impl pend q → 0 <= n <= zlen pend →
  take (Z.to_nat n) (drop (Z.to_nat (s_buf_off impl)) (s_buf impl)) = take (Z.to_nat n) pend.
Proof.
  intros H Hn. etransitivity; [|exact (f_equal (take (Z.to_nat n)) (rep_pend _ _ _ H))].
  rewrite take_take. f_equal. lia.
Qed.

Lemma rep_lookup impl pend q (i : nat) :
  sink_rep impl pend q → (i < length pend)%nat →
  s_buf impl !!! Z.to_nat (s_buf_off impl + Z.of_nat i) = pend !!! i.
Proof.
  intros H Hi. pose proof (rep_off _ _ _ H). pose proof (rep_room _ _ _ H).
  transitivity (take (length pend) (drop (Z.to_nat (s_buf_off impl)) (s_buf impl)) !!! i);
    [|by rewrite (rep_pend _ _ _ H)].
  rewrite lookup_total_take_lt by done. rewrite lookup_total_drop. f_equal. lia.
Qed.

Lemma forallb_marker l :
  length l = 16%nat → forallb (λ b, b =? 255) l = bool_decide (l = bgp_marker_expected).
Proof.
  intros Hl. apply eq_true_iff_eq. rewrite bool_decide_eq_true, forallb_forall. split.
  - intros H. apply list_eq_same_length with 16%nat; [done|done|].
    intros i x y _ Hx Hy. apply lookup_replicate_1 in Hy as [-> _].
    apply Z.eqb_eq, H, list_elem_of_In. by eapply list_elem_of_lookup_2.
  - intros -> x Hx. apply list_elem_of_In, elem_of_replicate in Hx as [-> _]. done.
Qed.

Lemma runs_marker R impl pend q (Q : bool -> Prop) :
  sink_rep impl pend q → 19 <= zlen pend →
  Q (bool_decide (take 16 pend = bgp_marker_expected)) →
  runs R (sink_marker_valid (s_buf impl) (s_buf_off impl)) Q.
Proof.
  intros H Hl HQ. pose proof (rep_off _ _ _ H). pose proof (rep_room _ _ _ H).
  apply runs_bind, runs_slice; unfold LIBBGP_BGP_MARKER_LEN; [lia..|].
  rewrite (rep_slice _ _ _ _ H) by lia. apply runs_ret. change (Z.to_nat 16) with 16%nat.
  rewrite forallb_marker; [done|]. rewrite length_take. lia.
Qed.

Lemma runs_wire_len R impl pend q (Q : Z -> Prop) :
  sink_rep impl pend q → 19 <= zlen pend → Q (wire_len_of pend) →
  runs R (rd_be16 (s_buf impl) (s_buf_off impl + 16)) Q.
Proof.
  intros H Hl HQ. pose proof (rep_off _ _ _ H). pose proof (rep_room _ _ _ H).
  eapply runs_pure; [intros s; apply rd_be16_run; lia|].
  replace (s_buf_off impl + 16) with (s_buf_off impl + Z.of_nat 16) by lia.
  rewrite (rep_lookup _ _ _ 16 H) by lia.
  replace (s_buf_off impl + Z.of_nat 16 + 1) with (s_buf_off impl + Z.of_nat 17) by lia.
  by rewrite (rep_lookup _ _ _ 17 H) by lia.
Qed.

(** The state a run of the framing loop ends in. *)
Definition drained (R : bool) (impl : sink_impl_t) (pend : list Z) (q : list libbgp_packet_t)
    (r : sink_impl_t * libbgp_err_t) : Prop :=
  ∃ pend' ps, sink_rep r.1 pend' (q ++ ps) ∧ s_use_4b_asn r.1 = s_use_4b_asn impl ∧
    zlen pend' + zlen (q ++ ps) <= zlen pend + zlen q ∧
    (R = true → drain (s_use_4b_asn impl) pend = (ps, pend', r.2)).

(** The loop stops without framing anything. *)
Lemma drained_stop R impl impl' pend pend' q e :
  sink_rep impl' pend' q → s_use_4b_asn impl' = s_use_4b_asn impl → zlen pend' <= zlen pend →
  (R = true → drain (s_use_4b_asn impl) pend = ([], pend', e)) →
  drained R impl pend q (impl', e).
Proof. intros Hr H4 Hl Hd. exists pend', []. rewrite app_nil_r. split_and!; [done|done|lia|done]. Qed.

Lemma runs_process R fuel impl pend q :
  sink_rep impl pend q → (length pend < fuel)%nat → zlen pend + zlen q <= 2 ^ 40 →
  runs R (sink_process_loop fuel impl) (drained R impl pend q).
Proof.
  revert impl pend q. induction fuel as [|fuel IH]; intros impl pend q Hrep Hfuel Hb; [lia|].
  cbn [sink_process_loop]. rewrite (rep_len _ _ _ Hrep).
  pose proof (drain_eq (s_use_4b_asn impl) pend) as Hd.
  unfold LIBBGP_BGP_HEADER_LEN, LIBBGP_BGP_MIN_PACKET_LEN, LIBBGP_BGP_MAX_PACKET_LEN.
  apply runs_if; intros H19; rewrite H19 in Hd.
  { apply runs_ret. by apply (drained_stop _ _ _ _ pend). }
  apply runs_bind. eapply runs_marker; [done|lia|]. unfold bad_header in Hd.
  apply runs_if; intros Hm; rewrite Hm in Hd.
  { apply runs_ret. apply (drained_stop _ _ _ _ []); [by eapply rep_clear_buf|done|cbn; lia|done]. }
  apply runs_bind. eapply runs_wire_len; [done|lia|]. cbn [orb] in Hd.
  apply runs_if; intros Hw; rewrite Hw in Hd.
  { apply runs_ret. apply (drained_stop _ _ _ _ []); [by eapply rep_clear_buf|done|cbn; lia|done]. }
  apply runs_if; intros Hlt; rewrite Hlt in Hd.
  { apply runs_ret. by apply (drained_stop _ _ _ _ pend). }
  apply runs_bind. eapply runs_mono; [apply runs_reserve_packets; [done|lia]|].
  intros [impl1 ok] (Hrep1 & H4 & Hbuf & Hoff & Hbl & Hroom & Hok). cbn [fst snd] in *. cbv beta iota zeta.
  apply runs_if; intros Hn.
  { apply runs_ret. destruct ok; [done|]. apply (drained_stop _ _ _ _ pend); try done.
    intros HR. by specialize (Hok HR). }
  destruct ok; [|done]. specialize (Hroom eq_refl).
  pose proof (rep_off _ _ _ Hrep1). pose proof (rep_room _ _ _ Hrep1).
  apply runs_bind. rewrite <-Hoff. apply runs_slice; [lia..|].
  rewrite (rep_slice _ _ _ _ Hrep1) by lia. cbv zeta in Hd.
  set (n := Z.to_nat (wire_len_of pend)) in *.
  destruct (rep_drop impl1 pend q (wire_len_of pend) Hrep1) as [Hdrop Hd4]; [lia|]. fold n in Hdrop.
  assert (Hfw : wire_len_of (take n pend) = wire_len_of pend).
  { destruct (header_app (take n pend) (drop n pend)) as [_ Hwe]; [rewrite length_take; lia|].
    by rewrite take_drop in Hwe. }
  rewrite H4. eapply (runs_try _ _ _ _ _ _ (packet_parse_spec _ (take n pend)
    ltac:(apply Forall_take, (rep_bytes _ _ _ Hrep)))).
  - intros [pkt consumed] (_ & _ & Hc & _) Hrun. cbn [snd] in Hc. rewrite Hfw in Hc. subst consumed.
    apply runs_if; intros Hne; [exfalso; lia|].
    rewrite (rep_count _ _ _ Hrep1). destruct (rep_push impl1 pend q pkt Hrep1 Hroom) as [[slot Hslot] Hpush].
    apply runs_bind. eapply runs_rd_slot; [exact Hslot|].
    destruct (rep_drop _ _ _ (wire_len_of pend) Hpush) as [Hdrop2 Hd42]; [lia|]. fold n in Hdrop2.
    eapply runs_mono; [apply (IH _ _ _ Hdrop2); rewrite ?length_drop, ?length_app; cbn [length]; lia|].
    intros r (pend' & ps & Hr & Hr4 & Hl & Hdr). cbn [with_packets s_use_4b_asn] in *.
    rewrite Hd42, H4 in Hdr, Hr4. exists pend', (pkt :: ps).
    rewrite <-(assoc_L (++)) in *. cbn [app] in *. split_and!; [done|done| |].
    + rewrite length_drop, (length_app q [pkt]) in Hl. cbn [length] in Hl. lia.
    + intros HR. rewrite Hd, (Hrun HR). cbn [fst]. by rewrite (Hdr HR).
  - intros e Hrun. apply runs_ret. eapply drained_stop; [exact Hdrop|by rewrite Hd4|rewrite length_drop; lia|].
    intros HR. by rewrite Hd, (Hrun HR).
Qed.

Lemma rep_append impl pend q data :
  sink_rep impl pend q → bytes_ok data →
  s_buf_off impl + zlen pend + zlen data <= zlen (s_buf impl) →
  let pos := (Z.to_nat (s_buf_off impl + s_buf_len impl))%nat in
  sink_rep (with_buf impl (take pos (s_buf impl) ++ data ++ drop (pos + length data) (s_buf impl))
              (s_buf_off impl) (s_buf_len impl + zlen data)) (pend ++ data) q.
Proof.
  intros [Ho Hl Hroom Hp Hbc Hok Hc Hf Hpc Hh Hs] Hdata Hr pos.
  assert (Hpos : pos = (Z.to_nat (s_buf_off impl) + length pend)%nat) by (unfold pos; lia).
  assert (Hlt : length (take pos (s_buf impl)) = pos) by (rewrite length_take; lia).
  split; cbn [with_buf s_buf s_buf_off s_buf_len s_packets s_packet_head s_packet_count]; try done.
  - rewrite length_app. lia.
  - rewrite !length_app, length_drop, Hlt. lia.
  - rewrite drop_app_le by lia. rewrite skipn_firstn_comm.
    replace (pos - Z.to_nat (s_buf_off impl))%nat with (length pend) by lia.
    rewrite Hp, (assoc_L (++)). by rewrite take_app_length.
  - rewrite !length_app, length_drop, Hlt. lia.
  - by apply Forall_app.
Qed.

(** What feeding does to the pair: nothing for no bytes, otherwise [drain]. *)
Definition feed_spec (b : bool) (pend data : list Z) : list libbgp_packet_t * list Z * libbgp_err_t :=
  match data with [] => ([], pend, LIBBGP_OK) | _ => drain b (pend ++ data) end.

Lemma runs_feed R impl pend q data :
  sink_rep impl pend q → bytes_ok data → zlen pend + zlen data + zlen q <= 2 ^ 40 →
  runs R (libbgp_sink_feed impl data)
    (λ r, ∃ pend' ps, sink_rep r.1 pend' (q ++ ps) ∧ s_use_4b_asn r.1 = s_use_4b_asn impl ∧
       zlen pend' + zlen (q ++ ps) <= zlen pend + zlen data + zlen q ∧
       (R = true → feed_spec (s_use_4b_asn impl) pend data = (ps, pend', r.2))).
Proof.
  intros Hrep Hdata Hb. unfold libbgp_sink_feed. apply runs_if; intros Hz.
  { apply runs_ret. exists pend, []. rewrite app_nil_r. destruct data; [|cbn in Hz; lia].
    split_and!; [done|done|cbn; lia|done]. }
  apply runs_bind. eapply runs_mono; [apply runs_reserve_buf; [done|lia..]|].
  intros [impl1 ok] (Hrep1 & H4 & Hroom & Hok). cbn [fst snd] in *. cbv beta iota.
  apply runs_if; intros Hn.
  { apply runs_ret. exists pend, []. rewrite app_nil_r. split_and!; [done|done|lia|].
    intros HR. rewrite (Hok HR) in Hn. done. }
  assert (ok = true) as -> by by destruct ok. specialize (Hroom eq_refl).
  pose proof (rep_off _ _ _ Hrep1). pose proof (rep_len _ _ _ Hrep1) as Hlen.
  apply runs_bind, runs_store; [lia|lia|].
  eapply runs_mono; [apply (runs_process R _ _ _ _ (rep_append _ _ _ _ Hrep1 Hdata Hroom))|].
  - cbn [with_buf s_buf_len]. rewrite length_app. lia.
  - rewrite length_app. lia.
  - intros r (pend' & ps & Hr & Hr4 & Hl & Hd). cbn [with_buf s_use_4b_asn] in *.
    exists pend', ps. rewrite H4 in *. rewrite (length_app pend) in Hl.
    split_and!; [done|done|lia|]. unfold feed_spec. destruct data; [done|exact Hd].
Qed.

Lemma pop_rep impl pend p q :
  sink_rep impl pend (p :: q) →
  ∃ impl', (∀ s, libbgp_sink_pop impl s = (Ret (p, impl'), s)) ∧ sink_rep impl' pend q ∧
    s_use_4b_asn impl' = s_use_4b_asn impl.
Proof.
  intros [Ho Hl Hroom Hp Hbc Hok Hc Hf Hpc Hh Hs]. cbn [length] in Hf, Hc.
  assert (Hslot : s_packets impl !! Z.to_nat (s_packet_head impl) = Some (Some p)).
  { specialize (Hs 0%nat p eq_refl). unfold ring_index in Hs. rewrite Z.add_0_r, Z.mod_small in Hs by lia. done. }
  unfold libbgp_sink_pop. eexists. split; [|split].
  - intros s. rewrite bind_ret_run with (a := tt) (s' := s) by by replace (s_packet_count impl =? 0) with false by lia.
    unfold rd_slot. by rewrite Hslot.
  - split; cbn [with_packets s_packets s_packet_head s_packet_count s_buf s_buf_off s_buf_len];
      rewrite ?length_insert; try done; try lia.
    + case_match; [lia|]. pose proof (Z.mod_pos_bound (s_packet_head impl + 1) (zlen (s_packets impl))). lia.
    + intros i x Hi. pose proof (lookup_lt_Some _ _ _ Hi). unfold ring_index.
      cbn [with_packets s_packet_head s_packets]. rewrite length_insert.
      replace (s_packet_count impl - 1 =? 0) with false by lia.
      rewrite Z.add_mod_idemp_l by lia.
      replace (s_packet_head impl + 1 + Z.of_nat i) with (s_packet_head impl + Z.of_nat (S i)) by lia.
      rewrite list_lookup_insert_ne; [by apply (Hs (S i) x)|].
      pose proof (ring_distinct (s_packet_head impl) 0 (Z.of_nat (S i)) (zlen (s_packets impl))) as Hd.
      rewrite Z.add_0_r, Z.mod_small in Hd by lia.
      pose proof (Z.mod_pos_bound (s_packet_head impl + Z.of_nat (S i)) (zlen (s_packets impl))). lia.
  - done.
Qed.

(** Feeding chunk after chunk until one is refused. *)
Fixpoint feed_all (impl : sink_impl_t) (chunks : list (list Z)) : M (sink_impl_t * libbgp_err_t) :=
  match chunks with
  | [] => mret (impl, LIBBGP_OK)
  | data :: chunks' =>
      '(impl, e) ← libbgp_sink_feed impl data;
      if decide (e = LIBBGP_OK) then feed_all impl chunks' else mret (impl, e)
  end.

(** Popping [n] packets. *)
Fixpoint pop_all (n : nat) (impl : sink_impl_t) : M (list libbgp_packet_t * sink_impl_t) :=
  match n with
  | O => mret ([], impl)
  | S n' =>
      '(p, impl) ← libbgp_sink_pop impl;
      '(ps, impl) ← pop_all n' impl;
      mret (p :: ps, impl)
  end.

Lemma pop_all_rep impl pend q s :
  sink_rep impl pend q →
  ∃ impl', pop_all (length q) impl s = (Ret (q, impl'), s) ∧ sink_rep impl' pend [].
Proof.
  revert impl. induction q as [|p q IH]; intros impl Hrep; [by exists impl|].
  destruct (pop_rep _ _ _ _ Hrep) as (impl1 & Hpop & Hrep1 & _).
  destruct (IH _ Hrep1) as (impl2 & Hall & Hrep2). exists impl2. split; [|done].
  cbn [length pop_all]. erewrite bind_ret_run by apply Hpop. cbv beta iota.
  by erewrite bind_ret_run by apply Hall.
Qed.

(** The bytes fed so far decide the state, not how they were cut. *)
Lemma feed_all_drain b impl pre pend q chunks :
  sink_rep impl pend q → s_use_4b_asn impl = b → drain b pre = (q, pend, LIBBGP_OK) →
  zlen pend + zlen q <= zlen pre → bytes_ok (pre ++ concat chunks) →
  zlen (pre ++ concat chunks) <= 2 ^ 40 →
  (drain b (pre ++ concat chunks)).2 = LIBBGP_OK →
  ∃ impl' pend' q', feed_all impl chunks [] = (Ret (impl', LIBBGP_OK), []) ∧
    sink_rep impl' pend' q' ∧ drain b (pre ++ concat chunks) = (q', pend', LIBBGP_OK).
Proof.
  revert impl pre pend q. induction chunks as [|data chunks IH];
    intros impl pre pend q Hrep H4 Hd Hl Hok Hmax Hend; cbn [concat] in *.
  { rewrite app_nil_r in *. by exists impl, pend, q. }
  rewrite (assoc_L (++)) in Hok, Hmax, Hend |- *.
  assert (Hpd : bytes_ok (pre ++ data)) by by apply Forall_app in Hok as [? _].
  assert (Hdata : bytes_ok data) by by apply Forall_app in Hpd as [_ ?].
  rewrite !length_app in Hmax.
  destruct (runs_feed true impl pend q data Hrep Hdata ltac:(lia) [] ltac:(done))
    as ([impl1 e] & s' & Hf & (pend1 & ps & Hrep1 & H41 & Hl1 & Hspec) & Hs'). cbn [fst snd] in *.
  specialize (Hs' eq_refl). subst s'. specialize (Hspec eq_refl). rewrite H4 in Hspec.
  assert (Hdd : drain b (pre ++ data) = (q ++ ps, pend1, e)).
  { pose proof (drain_app b pre data ltac:(by apply Forall_app in Hpd as [? _])) as Ha. rewrite Hd in Ha.
    unfold feed_spec in Hspec. destruct data as [|x data].
    - rewrite app_nil_r in *. injection Hspec as <- <- <-. by rewrite app_nil_r.
    - by rewrite Hspec in Ha. }
  assert (e = LIBBGP_OK) as ->.
  { pose proof (drain_app b (pre ++ data) (concat chunks) Hpd) as Ha. rewrite Hdd in Ha.
    destruct e; try done; destruct Ha as [_ Ha]; rewrite Hend in Ha; done. }
  destruct (IH impl1 (pre ++ data) pend1 (q ++ ps)) as (impl2 & pend2 & q2 & Hfa & Hr2 & Hd2); try done.
  - congruence.
  - rewrite (length_app pre data). lia.
  - rewrite !length_app. lia.
  - exists impl2, pend2, q2. split; [|done]. cbn [feed_all]. by erewrite bind_ret_run by exact Hf.
Qed.

(** ** Properties *)

(** C26: Feeding refines [drain]: with an allocator that never refuses, feeding
    bytes to a sink that holds [pend] and [q] queues exactly the packets
    framed from [pend ++ data], behind those already queued, keeps the bytes
    [drain] leaves and returns its code. *)
Theorem sink_feed_refines impl pend q data :
  sink_rep impl pend q → bytes_ok data → zlen pend + zlen data + zlen q <= 2 ^ 40 →
  let '(ps, pend', e) := feed_spec (s_use_4b_asn impl) pend data in
  ∃ impl', libbgp_sink_feed impl data [] = (Ret (impl', e), []) ∧
    sink_rep impl' pend' (q ++ ps) ∧ s_use_4b_asn impl' = s_use_4b_asn impl.
Proof.
  intros Hrep Hdata Hb.
  destruct (runs_feed true impl pend q data Hrep Hdata Hb [] ltac:(done))
    as ([impl1 e] & s' & Hf & (pend1 & ps & Hrep1 & H41 & _ & Hspec) & Hs').
  specialize (Hs' eq_refl). subst s'. rewrite (Hspec eq_refl). by exists impl1.
Qed.

(** Whatever the allocator answers, feeding any bytes terminates without a
    memory error, keeps the buffer and the ring consistent and loses no packet
    that was already queued. *)
Theorem sink_feed_safe impl pend q data s :
  sink_rep impl pend q → bytes_ok data → zlen pend + zlen data + zlen q <= 2 ^ 40 →
  ∃ impl' e s' pend' ps, libbgp_sink_feed impl data s = (Ret (impl', e), s') ∧
    sink_rep impl' pend' (q ++ ps) ∧ zlen pend' + zlen (q ++ ps) <= zlen pend + zlen data + zlen q.
Proof.
  intros Hrep Hdata Hb.
  destruct (runs_feed false impl pend q data Hrep Hdata Hb s ltac:(done))
    as ([impl1 e] & s' & Hf & (pend1 & ps & Hrep1 & _ & Hl & _) & _).
  by exists impl1, e, s', pend1, ps.
Qed.

(** Popping takes the oldest packet and leaves the rest in order; an empty
    queue answers NOT_FOUND and the state stays. *)
Theorem sink_pop_fifo impl pend q s :
  sink_rep impl pend q →
  match q with
  | [] => libbgp_sink_pop impl s = (Err LIBBGP_ERR_NOT_FOUND, s)
  | p :: q' => ∃ impl', libbgp_sink_pop impl s = (Ret (p, impl'), s) ∧ sink_rep impl' pend q'
  end ∧ libbgp_sink_packet_count impl = zlen q ∧ libbgp_sink_buffered_len impl = zlen pend ∧
  sink_rep (libbgp_sink_clear impl) [] [].
Proof.
  intros Hrep. pose proof Hrep as [Ho Hl Hroom Hp Hbc Hok Hc Hf Hpc Hh Hs]. split_and!; [|done|done|].
  - destruct q as [|p q].
    + unfold libbgp_sink_pop. by rewrite Hc.
    + destruct (pop_rep _ _ _ _ Hrep) as (impl' & Hpop & Hrep' & _). by exists impl'.
  - split; cbn; try done; lia.
Qed.

(** How a stream is cut into chunks does not matter: when the whole stream
    frames without error, feeding it chunk by chunk never fails and ends with
    the same packets queued and the same bytes left as [drain] gives for the
    whole. *)
Theorem sink_chunking_irrelevant b chunks impl ps rest :
  sink_rep impl [] [] → s_use_4b_asn impl = b →
  bytes_ok (concat chunks) → zlen (concat chunks) <= 2 ^ 40 →
  drain b (concat chunks) = (ps, rest, LIBBGP_OK) →
  ∃ impl', feed_all impl chunks [] = (Ret (impl', LIBBGP_OK), []) ∧ sink_rep impl' rest ps.
Proof.
  intros Hrep H4 Hok Hmax Hd.
  destruct (feed_all_drain b impl [] [] [] chunks) as (impl' & pend' & q' & Hf & Hr & Hd');
    cbn [app]; try done.
  - by rewrite Hd.
  - cbn [app] in Hd'. rewrite Hd in Hd'. injection Hd' as -> ->. by exists impl'.
Qed.

(** C25: A stream of encoded packets, fed to a fresh sink in chunks of any
    sizes, is delivered: every feed succeeds, popping returns exactly these
    packets in order, and then both the queue and the byte buffer are empty. *)
Theorem sink_delivers_stream b pkts chunks :
  Forall (pkt_wf b) pkts → concat chunks = concat (pkt_enc <$> pkts) →
  bytes_ok (concat chunks) → zlen (concat chunks) <= 2 ^ 40 →
  ∃ impl impl',
    (sink ← libbgp_sink_init_as4 b; feed_all sink chunks) [] = (Ret (impl, LIBBGP_OK), []) ∧
    libbgp_sink_packet_count impl = zlen pkts ∧ libbgp_sink_buffered_len impl = 0 ∧
    pop_all (length pkts) impl [] = (Ret (pkt_norm <$> pkts, impl'), []) ∧
    libbgp_sink_pop impl' [] = (Err LIBBGP_ERR_NOT_FOUND, []).
Proof.
  intros Hwf Hc Hok Hmax. pose proof (drain_encoded b pkts Hwf) as Hd. rewrite <-Hc in Hd.
  destruct (feed_all_drain b (SinkImpl [] 0 0 [] 0 0 b) [] [] [] chunks)
    as (impl & pend & q & Hf & Hr & Hd'); cbn [app]; try done.
  { by rewrite Hd. }
  cbn [app] in Hd'. rewrite Hd in Hd'. injection Hd' as <- <-.
  destruct (pop_all_rep impl [] _ [] Hr) as (impl' & Hpop & Hr'). exists impl, impl'.
  split; [exact Hf|]. split; [unfold libbgp_sink_packet_count; by rewrite (rep_count _ _ _ Hr), length_fmap|].
  split; [apply (rep_len _ _ _ Hr)|]. rewrite length_fmap in Hpop. split; [done|].
  unfold libbgp_sink_pop. by rewrite (rep_count _ _ _ Hr').
Qed.
End SinkSpec.

(** ** Witnesses *)

#[local] Existing Instance little_endian_host.

Definition keepalive_packet : libbgp_packet_t := Packet p_keepalive 4.

Lemma keepalive_packet_wf : pkt_wf false keepalive_packet.
Proof. by repeat split. Qed.

Lemma bytes_ok_check l : forallb (λ x, (0 <=? x) && (x <? 256)) l = true → bytes_ok l.
Proof.
  intros H. apply Forall_forall. intros x Hx. rewrite forallb_forall in H.
  apply list_elem_of_In in Hx. specialize (H x Hx). unfold is_u8. lia.
Qed.

(** Half a KEEPALIVE, then the other half and a whole one. *)
Lemma sink_delivers_stream_witness :
  ∃ impl impl',
    (sink ← libbgp_sink_init_as4 false;
     feed_all sink [take 7 keepalive_bytes; drop 7 keepalive_bytes ++ keepalive_bytes]) [] =
       (Ret (impl, LIBBGP_OK), []) ∧
    pop_all 2 impl [] = (Ret ([keepalive_packet; keepalive_packet], impl'), []).
Proof.
  destruct (sink_delivers_stream false [keepalive_packet; keepalive_packet]
    [take 7 keepalive_bytes; drop 7 keepalive_bytes ++ keepalive_bytes])
    as (impl & impl' & H1 & _ & _ & H2 & _).
  - by repeat constructor.
  - vm_compute. reflexivity.
  - apply bytes_ok_check. vm_compute. reflexivity.
  - vm_compute. discriminate.
  - exists impl, impl'. exact (conj H1 H2).
Defined.

Lemma sink_chunking_irrelevant_witness :
  ∃ impl', feed_all (SinkImpl [] 0 0 [] 0 0 false)
      [take 7 keepalive_bytes; drop 7 keepalive_bytes ++ [255]] [] = (Ret (impl', LIBBGP_OK), []) ∧
    sink_rep impl' [255] [keepalive_packet].
Proof.
  apply (sink_chunking_irrelevant false); [apply rep_init|done| | |].
  - apply bytes_ok_check. vm_compute. reflexivity.
  - vm_compute. discriminate.
  - vm_compute. reflexivity.
Defined.

Lemma sink_feed_refines_witness :
  ∃ impl', libbgp_sink_feed (SinkImpl [] 0 0 [] 0 0 false) keepalive_bytes [] =
      (Ret (impl', LIBBGP_OK), []) ∧ sink_rep impl' [] [keepalive_packet].
Proof.
  destruct (sink_feed_refines (SinkImpl [] 0 0 [] 0 0 false) [] [] keepalive_bytes (rep_init false))
    as (impl' & H1 & H2 & _).
  - apply bytes_ok_check. vm_compute. reflexivity.
  - vm_compute. discriminate.
  - exists impl'. exact (conj H1 H2).
Defined.

Lemma sink_feed_safe_witness :
  ∃ impl' e s' pend' ps, libbgp_sink_feed (SinkImpl [] 0 0 [] 0 0 false) keepalive_bytes [true; false] =
      (Ret (impl', e), s') ∧ sink_rep impl' pend' ([] ++ ps).
Proof.
  destruct (sink_feed_safe (SinkImpl [] 0 0 [] 0 0 false) [] [] keepalive_bytes [true; false] (rep_init false))
    as (impl' & e & s' & pend' & ps & H1 & H2 & _).
  - apply bytes_ok_check. vm_compute. reflexivity.
  - vm_compute. discriminate.
  - exists impl', e, s', pend', ps. exact (conj H1 H2).
Defined.

Lemma sink_pop_fifo_witness :
  libbgp_sink_pop (SinkImpl [] 0 0 [] 0 0 false) [] = (Err LIBBGP_ERR_NOT_FOUND, []).
Proof. exact (proj1 (sink_pop_fifo (SinkImpl [] 0 0 [] 0 0 false) [] [] [] (rep_init false))). Defined.
