(* ===== verification/Filter.v ===== *)
(** * Route filters (src/filter.c, src/attr_view.h)

    An ordered list of permit/deny rules that is searched from the rule added
    last to the one added first.  The rules are matched against the prefix and
    the path attributes of a route, which are the arguments here.  The
    attributes are indexed by type code in a view; where the view could
    mislead, the code scans the attribute list instead. *)

From stdpp Require Import gmap.
From S2P Require Import Prelude Bytes Prefix4 Prefix6 Pattr As4.

Inductive libbgp_filter_decision_t : Type := LIBBGP_FILTER_DENY | LIBBGP_FILTER_PERMIT.

#[export] Instance libbgp_filter_decision_eq_dec : EqDecision libbgp_filter_decision_t.
Proof. solve_decision. Defined.

(** The match type with the member of the union it selects. *)
Inductive libbgp_filter_match : Type :=
  | LIBBGP_FILTER_MATCH_PREFIX4 (prefix4 : libbgp_prefix4_t)
  | LIBBGP_FILTER_MATCH_AS_PATH_CONTAINS (asn : Z)
  | LIBBGP_FILTER_MATCH_COMMUNITY_CONTAINS (community : Z)
  | LIBBGP_FILTER_MATCH_ANY
  | LIBBGP_FILTER_MATCH_PREFIX4_EXACT (prefix4 : libbgp_prefix4_t)
  | LIBBGP_FILTER_MATCH_PREFIX4_MORE_SPECIFIC (prefix4 : libbgp_prefix4_t)
  | LIBBGP_FILTER_MATCH_PREFIX4_MORE_OR_EQUAL (prefix4 : libbgp_prefix4_t)
  | LIBBGP_FILTER_MATCH_PREFIX4_LESS_SPECIFIC (prefix4 : libbgp_prefix4_t)
  | LIBBGP_FILTER_MATCH_PREFIX4_LESS_OR_EQUAL (prefix4 : libbgp_prefix4_t)
  | LIBBGP_FILTER_MATCH_AS_PATH_NOT_CONTAINS (asn : Z)
  | LIBBGP_FILTER_MATCH_AS_PATH_ORIGIN (asn : Z)
  | LIBBGP_FILTER_MATCH_AS_PATH_NOT_ORIGIN (asn : Z)
  | LIBBGP_FILTER_MATCH_COMMUNITY_NOT_CONTAINS (community : Z)
  | LIBBGP_FILTER_MATCH_PREFIX6 (prefix6 : libbgp_prefix6_t)
  | LIBBGP_FILTER_MATCH_PREFIX6_EXACT (prefix6 : libbgp_prefix6_t)
  | LIBBGP_FILTER_MATCH_PREFIX6_MORE_SPECIFIC (prefix6 : libbgp_prefix6_t)
  | LIBBGP_FILTER_MATCH_PREFIX6_MORE_OR_EQUAL (prefix6 : libbgp_prefix6_t)
  | LIBBGP_FILTER_MATCH_PREFIX6_LESS_SPECIFIC (prefix6 : libbgp_prefix6_t)
  | LIBBGP_FILTER_MATCH_PREFIX6_LESS_OR_EQUAL (prefix6 : libbgp_prefix6_t).

Record libbgp_filter_rule_t : Type := FilterRule {
  rule_match : libbgp_filter_match;
  rule_decision : libbgp_filter_decision_t
}.

(** ** The attribute view *)

(** [present[code]] is whether [by_type] has the code. *)
Record bgp_attr_view_t : Type := AttrView {
  view_by_type : gmap Z libbgp_pattr_t;
  view_duplicate_found : bool
}.

Definition bgp_attr_view_init : bgp_attr_view_t := AttrView ∅ false.

Definition bgp_attr_view_add (view : bgp_attr_view_t) (attr : libbgp_pattr_t)
    : bool * bgp_attr_view_t :=
  let code := pa_type_code attr in
  match view_by_type view !! code with
  | Some _ => (false, AttrView (view_by_type view) true)
  | None => (true, AttrView (<[code := attr]> (view_by_type view)) (view_duplicate_found view))
  end.

Definition bgp_attr_view_get (view : bgp_attr_view_t) (type_code : Z) : option libbgp_pattr_t :=
  view_by_type view !! type_code.

Definition bgp_attr_view_build (attrs : list libbgp_pattr_t) : bgp_attr_view_t :=
  foldl (λ view attr, (bgp_attr_view_add view attr).2) bgp_attr_view_init attrs.

(** ** Matching attributes; a NULL attribute is [None] *)

Definition as_path_contains (attr : option libbgp_pattr_t) (asn : Z) : bool :=
  match attr with
  | Some attr =>
      match pa_data attr with
      | d_as_path segs _ | d_as4_path segs _ => existsb (λ a, a =? asn) (path_asns segs)
      | _ => false
      end
  | None => false
  end.

(** The loop keeps the last AS number of the last non-empty sequence. *)
Fixpoint origin_loop (segs : list libbgp_as_path_segment_t) (found : option Z) : option Z :=
  match segs with
  | [] => found
  | seg :: segs' =>
      if negb (seg_type seg =? 2) then origin_loop segs' found
      else
        match last (seg_asns seg) with
        | None => origin_loop segs' found
        | Some asn => origin_loop segs' (Some asn)
        end
  end.

Definition as_path_origin_asn (attr : option libbgp_pattr_t) : option Z :=
  match attr with
  | Some attr =>
      match pa_data attr with
      | d_as_path segs _ | d_as4_path segs _ => origin_loop segs None
      | _ => None
      end
  | None => None
  end.

Definition community_contains (attr : option libbgp_pattr_t) (community : Z) : bool :=
  match attr with
  | Some attr =>
      match pa_data attr with
      | d_community values => existsb (λ v, v =? community) values
      | _ => false
      end
  | None => false
  end.

Definition filter_expected_type_code (type : libbgp_pattr_type_t) : Z :=
  match type with
  | LIBBGP_PATTR_AS_PATH => 2
  | LIBBGP_PATTR_AS4_PATH => 17
  | LIBBGP_PATTR_COMMUNITY => 8
  | _ => 0
  end.

Record filter_attr_state_t : Type := FilterAttrState {
  fas_view : bgp_attr_view_t;
  fas_type_code_mismatch : bool;
  fas_has_as_path_by_type : bool;
  fas_has_as4_path_by_type : bool
}.

Definition filter_attr_state_add (state : filter_attr_state_t) (attr : libbgp_pattr_t)
    : filter_attr_state_t :=
  let expected_code := filter_expected_type_code (pa_type attr) in
  FilterAttrState
    (bgp_attr_view_add (fas_view state) attr).2
    ((negb (expected_code =? 0) && negb (pa_type_code attr =? expected_code)) ||
     fas_type_code_mismatch state)
    (bool_decide (pa_type attr = LIBBGP_PATTR_AS_PATH) || fas_has_as_path_by_type state)
    (bool_decide (pa_type attr = LIBBGP_PATTR_AS4_PATH) || fas_has_as4_path_by_type state).

Definition filter_attr_state_build (attrs : list libbgp_pattr_t) : filter_attr_state_t :=
  foldl filter_attr_state_add (FilterAttrState bgp_attr_view_init false false false) attrs.

Definition attrs_have_asn (attrs : list libbgp_pattr_t) (asn : Z) : bool :=
  existsb (λ attr, as_path_contains (Some attr) asn) attrs.

Definition attrs_have_community (attrs : list libbgp_pattr_t) (community : Z) : bool :=
  existsb (λ attr, community_contains (Some attr) community) attrs.

Fixpoint attrs_origin_asn (attrs : list libbgp_pattr_t) : option Z :=
  match attrs with
  | [] => None
  | attr :: attrs' =>
      match as_path_origin_asn (Some attr) with
      | Some asn => Some asn
      | None => attrs_origin_asn attrs'
      end
  end.

Definition attr_view_has_asn (attr_state : filter_attr_state_t) (attrs : list libbgp_pattr_t)
    (asn : Z) : bool :=
  let view := fas_view attr_state in
  let as_path_attr := bgp_attr_view_get view 2 in
  let as4_path_attr := bgp_attr_view_get view 17 in
  if view_duplicate_found view || fas_type_code_mismatch attr_state then attrs_have_asn attrs asn
  else as_path_contains as_path_attr asn || as_path_contains as4_path_attr asn.

Definition attr_view_has_community (attr_state : filter_attr_state_t)
    (attrs : list libbgp_pattr_t) (community : Z) : bool :=
  let view := fas_view attr_state in
  let community_attr := bgp_attr_view_get view 8 in
  if view_duplicate_found view || fas_type_code_mismatch attr_state
  then attrs_have_community attrs community
  else community_contains community_attr community.

Definition attr_view_origin_asn (attr_state : filter_attr_state_t) (attrs : list libbgp_pattr_t)
    : option Z :=
  let view := fas_view attr_state in
  let as_path_attr := bgp_attr_view_get view 2 in
  let as4_path_attr := bgp_attr_view_get view 17 in
  if view_duplicate_found view || fas_type_code_mismatch attr_state ||
     (fas_has_as_path_by_type attr_state && fas_has_as4_path_by_type attr_state)
  then attrs_origin_asn attrs
  else
    match as_path_origin_asn as_path_attr with
    | Some asn => Some asn
    | None => as_path_origin_asn as4_path_attr
    end.

(** ** Rules *)

Section Filter.
Context {host : Host}.

Definition prefix4_more_specific (rule route : libbgp_prefix4_t) : bool :=
  (p4_len rule <? p4_len route) && libbgp_prefix4_includes rule route.
Definition prefix4_less_specific (rule route : libbgp_prefix4_t) : bool :=
  (p4_len route <? p4_len rule) && libbgp_prefix4_includes route rule.
Definition prefix6_more_specific (rule route : libbgp_prefix6_t) : bool :=
  (p6_len rule <? p6_len route) && libbgp_prefix6_includes rule route.
Definition prefix6_less_specific (rule route : libbgp_prefix6_t) : bool :=
  (p6_len route <? p6_len rule) && libbgp_prefix6_includes route rule.

Definition filter_rule_matches (rule : libbgp_filter_rule_t) (prefix : libbgp_prefix4_t)
    (attr_state : filter_attr_state_t) (attrs : list libbgp_pattr_t) : bool :=
  match rule_match rule with
  | LIBBGP_FILTER_MATCH_PREFIX4 p | LIBBGP_FILTER_MATCH_PREFIX4_MORE_OR_EQUAL p =>
      libbgp_prefix4_includes p prefix
  | LIBBGP_FILTER_MATCH_PREFIX4_EXACT p => libbgp_prefix4_eq p prefix
  | LIBBGP_FILTER_MATCH_PREFIX4_MORE_SPECIFIC p => prefix4_more_specific p prefix
  | LIBBGP_FILTER_MATCH_PREFIX4_LESS_SPECIFIC p => prefix4_less_specific p prefix
  | LIBBGP_FILTER_MATCH_PREFIX4_LESS_OR_EQUAL p => libbgp_prefix4_includes prefix p
  | LIBBGP_FILTER_MATCH_AS_PATH_CONTAINS asn => attr_view_has_asn attr_state attrs asn
  | LIBBGP_FILTER_MATCH_AS_PATH_NOT_CONTAINS asn => negb (attr_view_has_asn attr_state attrs asn)
  | LIBBGP_FILTER_MATCH_AS_PATH_ORIGIN asn =>
      match attr_view_origin_asn attr_state attrs with
      | Some origin_asn => origin_asn =? asn
      | None => false
      end
  | LIBBGP_FILTER_MATCH_AS_PATH_NOT_ORIGIN asn =>
      match attr_view_origin_asn attr_state attrs with
      | Some origin_asn => negb (origin_asn =? asn)
      | None => false
      end
  | LIBBGP_FILTER_MATCH_COMMUNITY_CONTAINS community =>
      attr_view_has_community attr_state attrs community
  | LIBBGP_FILTER_MATCH_COMMUNITY_NOT_CONTAINS community =>
      negb (attr_view_has_community attr_state attrs community)
  | LIBBGP_FILTER_MATCH_ANY => true
  | _ => false
  end.

Definition filter_rule_matches6 (rule : libbgp_filter_rule_t) (prefix : libbgp_prefix6_t)
    (attr_state : filter_attr_state_t) (attrs : list libbgp_pattr_t) : bool :=
  match rule_match rule with
  | LIBBGP_FILTER_MATCH_PREFIX6 p | LIBBGP_FILTER_MATCH_PREFIX6_MORE_OR_EQUAL p =>
      libbgp_prefix6_includes p prefix
  | LIBBGP_FILTER_MATCH_PREFIX6_EXACT p => libbgp_prefix6_eq p prefix
  | LIBBGP_FILTER_MATCH_PREFIX6_MORE_SPECIFIC p => prefix6_more_specific p prefix
  | LIBBGP_FILTER_MATCH_PREFIX6_LESS_SPECIFIC p => prefix6_less_specific p prefix
  | LIBBGP_FILTER_MATCH_PREFIX6_LESS_OR_EQUAL p => libbgp_prefix6_includes prefix p
  | LIBBGP_FILTER_MATCH_AS_PATH_CONTAINS asn => attr_view_has_asn attr_state attrs asn
  | LIBBGP_FILTER_MATCH_AS_PATH_NOT_CONTAINS asn => negb (attr_view_has_asn attr_state attrs asn)
  | LIBBGP_FILTER_MATCH_AS_PATH_ORIGIN asn =>
      match attr_view_origin_asn attr_state attrs with
      | Some origin_asn => origin_asn =? asn
      | None => false
      end
  | LIBBGP_FILTER_MATCH_AS_PATH_NOT_ORIGIN asn =>
      match attr_view_origin_asn attr_state attrs with
      | Some origin_asn => negb (origin_asn =? asn)
      | None => false
      end
  | LIBBGP_FILTER_MATCH_COMMUNITY_CONTAINS community =>
      attr_view_has_community attr_state attrs community
  | LIBBGP_FILTER_MATCH_COMMUNITY_NOT_CONTAINS community =>
      negb (attr_view_has_community attr_state attrs community)
  | LIBBGP_FILTER_MATCH_ANY => true
  | _ => false
  end.

(** ** The filter *)

Record filter_impl_t : Type := FilterImpl {
  f_rules : list libbgp_filter_rule_t;
  f_cap : Z
}.

Definition libbgp_filter_init : M filter_impl_t := alloc_or_nomem;; mret (FilterImpl [] 0).

Definition SIZEOF_RULE : Z := 28.

(** [filter_reserve(impl, needed)]: the new capacity, if there is one. *)
Definition filter_reserve (impl : filter_impl_t) (needed : Z) : M (option Z) :=
  reserve_cap (f_cap impl) needed SIZEOF_RULE.

Definition libbgp_filter_add_rule (impl : filter_impl_t) (rule : libbgp_filter_rule_t)
    : M filter_impl_t :=
  cap ← filter_reserve impl (zlen (f_rules impl) + 1);
  match cap with
  | None => err LIBBGP_ERR_NOMEM
  | Some cap => mret (FilterImpl (f_rules impl ++ [rule]) cap)
  end.

Definition libbgp_filter_clear (impl : filter_impl_t) : filter_impl_t := FilterImpl [] (f_cap impl).

Definition libbgp_filter_rule_count (impl : filter_impl_t) : Z := zlen (f_rules impl).

(** [for (i = count; i > 0; i--) if (matches(rules[i - 1])) { decision = ...; break; }] *)
Fixpoint apply_loop (matches : libbgp_filter_rule_t -> bool) (rules : list libbgp_filter_rule_t)
    (i : nat) (default_decision : libbgp_filter_decision_t) : M libbgp_filter_decision_t :=
  match i with
  | O => mret default_decision
  | S i' =>
      match rules !! i' with
      | None => stuck OutOfBounds
      | Some rule =>
          if matches rule then mret (rule_decision rule)
          else apply_loop matches rules i' default_decision
      end
  end.

Definition libbgp_filter_apply_route (impl : filter_impl_t) (prefix : libbgp_prefix4_t)
    (attrs : list libbgp_pattr_t) (default_decision : libbgp_filter_decision_t)
    : M libbgp_filter_decision_t :=
  let attr_state := filter_attr_state_build attrs in
  apply_loop (λ rule, filter_rule_matches rule prefix attr_state attrs)
    (f_rules impl) (length (f_rules impl)) default_decision.

Definition libbgp_filter_apply_route6 (impl : filter_impl_t) (prefix : libbgp_prefix6_t)
    (attrs : list libbgp_pattr_t) (default_decision : libbgp_filter_decision_t)
    : M libbgp_filter_decision_t :=
  let attr_state := filter_attr_state_build attrs in
  apply_loop (λ rule, filter_rule_matches6 rule prefix attr_state attrs)
    (f_rules impl) (length (f_rules impl)) default_decision.
End Filter.
