(* ===== verification/FilterSpec.v ===== *)
(** * Route filters: the view agrees with the scan, the last match wins *)

From stdpp Require Import gmap.
From S2P Require Import Prelude Bytes Prefix4 Prefix6 Pattr As4 Filter.

(** ** The attribute view *)

(** The first attribute with a type code. *)
Definition first_with (code : Z) (attrs : list libbgp_pattr_t) : option libbgp_pattr_t :=
  head (filter (λ a, pa_type_code a = code) attrs).

Definition code_mismatch (a : libbgp_pattr_t) : bool :=
  negb (filter_expected_type_code (pa_type a) =? 0) &&
  negb (pa_type_code a =? filter_expected_type_code (pa_type a)).

Definition of_type (T : libbgp_pattr_type_t) (attrs : list libbgp_pattr_t) : bool :=
  existsb (λ a, bool_decide (pa_type a = T)) attrs.

Record state_of (attrs : list libbgp_pattr_t) (st : filter_attr_state_t) : Prop := {
  st_view : ∀ code, bgp_attr_view_get (fas_view st) code = first_with code attrs;
  st_dup : view_duplicate_found (fas_view st) = false ↔ NoDup (pa_type_code <$> attrs);
  st_mismatch : fas_type_code_mismatch st = existsb code_mismatch attrs;
  st_as_path : fas_has_as_path_by_type st = of_type LIBBGP_PATTR_AS_PATH attrs;
  st_as4_path : fas_has_as4_path_by_type st = of_type LIBBGP_PATTR_AS4_PATH attrs
}.

Lemma first_with_snoc code attrs a :
  first_with code (attrs ++ [a]) =
    match first_with code attrs with
    | Some b => Some b
    | None => if decide (pa_type_code a = code) then Some a else None
    end.
Proof.
  unfold first_with. rewrite filter_app, filter_cons, filter_nil.
  by case_decide; destruct (filter _ attrs).
Qed.

Lemma first_with_None code attrs :
  first_with code attrs = None ↔ code ∉ pa_type_code <$> attrs.
Proof.
  unfold first_with. induction attrs as [|a attrs IH]; [set_solver|].
  rewrite filter_cons, fmap_cons. case_decide as Hd; cbn [head].
  - split; [done|]. intros H. exfalso. apply H. set_solver.
  - rewrite IH, not_elem_of_cons. naive_solver.
Qed.

Lemma view_add_spec attrs view a :
  (∀ code, bgp_attr_view_get view code = first_with code attrs) →
  (view_duplicate_found view = false ↔ NoDup (pa_type_code <$> attrs)) →
  let view' := (bgp_attr_view_add view a).2 in
  (∀ code, bgp_attr_view_get view' code = first_with code (attrs ++ [a])) ∧
  (view_duplicate_found view' = false ↔ NoDup (pa_type_code <$> attrs ++ [a])).
Proof.
  intros Hv Hd view'. unfold view', bgp_attr_view_add, bgp_attr_view_get in *.
  pose proof (Hv (pa_type_code a)) as Ha. rewrite fmap_app, NoDup_app.
  destruct (view_by_type view !! pa_type_code a) as [b|] eqn:Hb; cbn [view_by_type view_duplicate_found snd].
  - split.
    + intros code. rewrite first_with_snoc, Hv. destruct (first_with code attrs) eqn:Hf; [done|].
      rewrite decide_False; [done|]. intros <-. congruence.
    + split; [done|]. intros (_ & Hn & _).
      destruct (decide (pa_type_code a ∈ pa_type_code <$> attrs)) as [Hin|Hin].
      * exfalso. apply (Hn _ Hin). set_solver.
      * apply first_with_None in Hin. congruence.
  - assert (Hin : pa_type_code a ∉ pa_type_code <$> attrs) by by apply first_with_None.
    split.
    + intros code. rewrite first_with_snoc. destruct (decide (pa_type_code a = code)) as [<-|Hne].
      * by rewrite lookup_insert_eq, <-Ha.
      * rewrite lookup_insert_ne by done. rewrite Hv. by destruct (first_with code attrs).
    + rewrite Hd. split; [|tauto]. intros Hnd. split; [done|]. split; [|apply NoDup_singleton].
      intros x Hx Hxa. apply list_elem_of_singleton in Hxa. congruence.
Qed.

Lemma existsb_snoc {A} (f : A -> bool) l x : existsb f (l ++ [x]) = f x || existsb f l.
Proof. rewrite existsb_app. cbn. by rewrite orb_false_r, orb_comm. Qed.

Lemma state_build attrs : state_of attrs (filter_attr_state_build attrs).
Proof.
  unfold filter_attr_state_build. induction attrs as [|a attrs IH] using rev_ind.
  { split; try done. split; [intros; apply NoDup_nil_2|done]. }
  rewrite foldl_app. cbn [foldl]. destruct IH as [Hv Hd Hm H2 H17].
  destruct (view_add_spec attrs _ a Hv Hd) as [Hv' Hd'].
  split; cbn [filter_attr_state_add fas_view fas_type_code_mismatch fas_has_as_path_by_type
    fas_has_as4_path_by_type]; [done|done|..].
  - by rewrite existsb_snoc, Hm.
  - unfold of_type in *. by rewrite existsb_snoc, H2.
  - unfold of_type in *. by rewrite existsb_snoc, H17.
Qed.

Lemma first_with_elem code attrs a :
  first_with code attrs = Some a → a ∈ attrs ∧ pa_type_code a = code.
Proof.
  unfold first_with. intros H%head_Some_elem_of. by apply list_elem_of_filter in H as [? ?].
Qed.

(** Without duplicates the view holds every attribute under its code. *)
Lemma first_with_nodup attrs a :
  NoDup (pa_type_code <$> attrs) → a ∈ attrs → first_with (pa_type_code a) attrs = Some a.
Proof.
  unfold first_with. induction attrs as [|b attrs IH]; [set_solver|].
  rewrite fmap_cons, NoDup_cons, filter_cons. intros [Hn Hnd] [->|Ha]%elem_of_cons.
  - by rewrite decide_True.
  - rewrite decide_False; [by apply IH|]. intros He. apply Hn. rewrite He. by apply list_elem_of_fmap_2.
Qed.

(** ** The fast paths *)

Lemma existsb_false_elem {A} (f : A -> bool) l x : existsb f l = false → x ∈ l → f x = false.
Proof.
  intros H Hx. apply not_true_is_false. intros Hf. apply list_elem_of_In in Hx.
  assert (existsb f l = true) by (apply existsb_exists; eauto). congruence.
Qed.

(** An attribute of a type with an expected code is the one in the view. *)
Lemma view_of_type attrs a T :
  NoDup (pa_type_code <$> attrs) → existsb code_mismatch attrs = false → a ∈ attrs →
  pa_type a = T → filter_expected_type_code T ≠ 0 →
  first_with (filter_expected_type_code T) attrs = Some a.
Proof.
  intros Hnd Hm Ha HT H0. pose proof (existsb_false_elem _ _ _ Hm Ha) as Hc.
  unfold code_mismatch in Hc. rewrite HT in Hc.
  assert (Hcode : pa_type_code a = filter_expected_type_code T) by lia.
  rewrite <-Hcode. by apply first_with_nodup.
Qed.

Lemma contains_type a asn :
  as_path_contains (Some a) asn = true →
  pa_type a = LIBBGP_PATTR_AS_PATH ∨ pa_type a = LIBBGP_PATTR_AS4_PATH.
Proof. unfold as_path_contains, pa_type. destruct (pa_data a); auto; done. Qed.

Lemma view_contains code attrs asn :
  as_path_contains (first_with code attrs) asn = true → attrs_have_asn attrs asn = true.
Proof.
  destruct (first_with code attrs) as [a|] eqn:Hf; [|done]. intros Hc.
  apply first_with_elem in Hf as [Ha _]. apply existsb_exists. exists a.
  split; [by apply list_elem_of_In|done].
Qed.

Lemma has_asn_scan attrs asn :
  attr_view_has_asn (filter_attr_state_build attrs) attrs asn = attrs_have_asn attrs asn.
Proof.
  destruct (state_build attrs) as [Hv Hd Hm _ _]. unfold attr_view_has_asn. rewrite !Hv, Hm.
  destruct (view_duplicate_found _) eqn:Hdup; [done|].
  destruct (existsb code_mismatch attrs) eqn:Hmm; [done|]. cbn [orb].
  assert (Hnd : NoDup (pa_type_code <$> attrs)) by by apply Hd.
  apply eq_true_iff_eq. rewrite orb_true_iff. split.
  - intros [H|H]; by eapply view_contains.
  - intros (a & Ha & Hc)%existsb_exists. apply list_elem_of_In in Ha.
    destruct (contains_type _ _ Hc) as [HT|HT]; [left|right].
    + change 2 with (filter_expected_type_code LIBBGP_PATTR_AS_PATH).
      by rewrite (view_of_type attrs a _ Hnd Hmm Ha HT).
    + change 17 with (filter_expected_type_code LIBBGP_PATTR_AS4_PATH).
      by rewrite (view_of_type attrs a _ Hnd Hmm Ha HT).
Qed.

Lemma has_community_scan attrs c :
  attr_view_has_community (filter_attr_state_build attrs) attrs c = attrs_have_community attrs c.
Proof.
  destruct (state_build attrs) as [Hv Hd Hm _ _]. unfold attr_view_has_community. rewrite Hv, Hm.
  destruct (view_duplicate_found _) eqn:Hdup; [done|].
  destruct (existsb code_mismatch attrs) eqn:Hmm; [done|]. cbn [orb].
  assert (Hnd : NoDup (pa_type_code <$> attrs)) by by apply Hd.
  apply eq_true_iff_eq. split.
  - destruct (first_with 8 attrs) as [a|] eqn:Hf; [|done]. intros Hc.
    apply first_with_elem in Hf as [Ha _]. apply existsb_exists. exists a.
    split; [by apply list_elem_of_In|done].
  - intros (a & Ha & Hc)%existsb_exists. apply list_elem_of_In in Ha.
    assert (HT : pa_type a = LIBBGP_PATTR_COMMUNITY).
    { unfold community_contains, pa_type in *. by destruct (pa_data a). }
    change 8 with (filter_expected_type_code LIBBGP_PATTR_COMMUNITY).
    by rewrite (view_of_type attrs a _ Hnd Hmm Ha HT).
Qed.

Lemma origin_type a asn :
  as_path_origin_asn (Some a) = Some asn →
  pa_type a = LIBBGP_PATTR_AS_PATH ∨ pa_type a = LIBBGP_PATTR_AS4_PATH.
Proof. unfold as_path_origin_asn, pa_type. destruct (pa_data a); auto; done. Qed.

Lemma origin_none a :
  pa_type a ≠ LIBBGP_PATTR_AS_PATH → pa_type a ≠ LIBBGP_PATTR_AS4_PATH →
  as_path_origin_asn (Some a) = None.
Proof.
  intros H1 H2. destruct (as_path_origin_asn (Some a)) eqn:Ho; [|done].
  by destruct (origin_type _ _ Ho).
Qed.

(** When only one attribute can have an origin, the scan finds that one. *)
Lemma origin_single attrs a :
  a ∈ attrs → (∀ b, b ∈ attrs → b ≠ a → as_path_origin_asn (Some b) = None) →
  attrs_origin_asn attrs = as_path_origin_asn (Some a).
Proof.
  induction attrs as [|b attrs IH]; [set_solver|]. intros Ha Hb. cbn [attrs_origin_asn].
  destruct (decide (b = a)) as [->|Hne].
  - destruct (as_path_origin_asn (Some a)) eqn:Ho; [done|].
    destruct (decide (a ∈ attrs)) as [Hin|Hin]; [apply IH; set_solver|].
    clear IH Ha. induction attrs as [|c attrs IH]; [done|]. cbn [attrs_origin_asn].
    rewrite Hb by set_solver. apply IH; set_solver.
  - rewrite Hb by set_solver. apply IH; set_solver.
Qed.

Lemma origin_all_none attrs :
  (∀ b, b ∈ attrs → as_path_origin_asn (Some b) = None) → attrs_origin_asn attrs = None.
Proof.
  induction attrs as [|b attrs IH]; [done|]. intros Hb. cbn [attrs_origin_asn].
  rewrite Hb by set_solver. apply IH. set_solver.
Qed.

Lemma of_type_false T attrs a : of_type T attrs = false → a ∈ attrs → pa_type a ≠ T.
Proof. intros H Ha HT. pose proof (existsb_false_elem _ _ _ H Ha) as Hb. by apply bool_decide_eq_false in Hb. Qed.

Lemma of_type_true T attrs : of_type T attrs = true → ∃ a, a ∈ attrs ∧ pa_type a = T.
Proof.
  intros (a & Ha & Hb)%existsb_exists. apply list_elem_of_In in Ha. apply bool_decide_eq_true in Hb. by exists a.
Qed.

(** The only attribute of a path type, when the other path type is absent. *)
Lemma origin_one_type attrs a T T' :
  NoDup (pa_type_code <$> attrs) → existsb code_mismatch attrs = false → a ∈ attrs →
  pa_type a = T → of_type T' attrs = false →
  (T = LIBBGP_PATTR_AS_PATH ∧ T' = LIBBGP_PATTR_AS4_PATH ∨
   T = LIBBGP_PATTR_AS4_PATH ∧ T' = LIBBGP_PATTR_AS_PATH) →
  attrs_origin_asn attrs = as_path_origin_asn (Some a) ∧
  first_with (filter_expected_type_code T) attrs = Some a ∧
  as_path_origin_asn (first_with (filter_expected_type_code T') attrs) = None.
Proof.
  intros Hnd Hm Ha HT HT' Hor.
  assert (H0 : filter_expected_type_code T ≠ 0) by (by destruct Hor as [[-> _]|[-> _]]).
  assert (Hcodes : filter_expected_type_code T ≠ filter_expected_type_code T')
    by (by destruct Hor as [[-> ->]|[-> ->]]).
  pose proof (view_of_type attrs a T Hnd Hm Ha HT H0) as Hview.
  split; [|split; [done|]].
  - apply origin_single; [done|]. intros b Hb Hne.
    assert (pa_type b ≠ T) as HbT.
    { intros HbT. pose proof (view_of_type attrs b T Hnd Hm Hb HbT H0). congruence. }
    pose proof (of_type_false _ _ _ HT' Hb).
    destruct Hor as [[-> ->]|[-> ->]]; by apply origin_none.
  - destruct (first_with (filter_expected_type_code T') attrs) as [b|] eqn:Hb; [|done].
    apply first_with_elem in Hb as [Hb Hcode]. pose proof (of_type_false _ _ _ HT' Hb) as HbT'.
    assert (pa_type b ≠ T) as HbT.
    { intros HbT. pose proof (view_of_type attrs b T Hnd Hm Hb HbT H0) as Hvb.
      apply first_with_elem in Hvb as [_ Hvb]. congruence. }
    destruct Hor as [[-> ->]|[-> ->]]; by apply origin_none.
Qed.

Lemma origin_scan attrs :
  attr_view_origin_asn (filter_attr_state_build attrs) attrs = attrs_origin_asn attrs.
Proof.
  destruct (state_build attrs) as [Hv Hd Hm H2 H17]. unfold attr_view_origin_asn.
  rewrite !Hv, Hm, H2, H17. destruct (view_duplicate_found _) eqn:Hdup; [done|].
  destruct (existsb code_mismatch attrs) eqn:Hmm; [done|]. cbn [orb].
  assert (Hnd : NoDup (pa_type_code <$> attrs)) by by apply Hd.
  change 2 with (filter_expected_type_code LIBBGP_PATTR_AS_PATH).
  change 17 with (filter_expected_type_code LIBBGP_PATTR_AS4_PATH).
  destruct (of_type LIBBGP_PATTR_AS_PATH attrs) eqn:Ht2, (of_type LIBBGP_PATTR_AS4_PATH attrs) eqn:Ht17;
    cbn [andb]; [done|..].
  - destruct (of_type_true _ _ Ht2) as (a & Ha & HT).
    destruct (origin_one_type attrs a _ _ Hnd Hmm Ha HT Ht17) as (-> & -> & ->); [by left|].
    by destruct (as_path_origin_asn (Some a)).
  - destruct (of_type_true _ _ Ht17) as (a & Ha & HT).
    by destruct (origin_one_type attrs a _ _ Hnd Hmm Ha HT Ht2) as (-> & -> & ->); [right|].
  - assert (Hnone : ∀ b, b ∈ attrs → as_path_origin_asn (Some b) = None).
    { intros b Hb. apply origin_none; by eapply of_type_false. }
    rewrite (origin_all_none attrs Hnone).
    assert (∀ code, as_path_origin_asn (first_with code attrs) = None) as Hf.
    { intros code. destruct (first_with code attrs) as [b|] eqn:Hb; [|done].
      apply first_with_elem in Hb as [Hb _]. by apply Hnone. }
    by rewrite !Hf.
Qed.

(** ** Reference semantics of the rules *)

Section FilterSpec.
Context {host : Host}.

(** The conditions on the attributes, by scanning them. *)
Definition attrs_match (m : libbgp_filter_match) (attrs : list libbgp_pattr_t) : bool :=
  match m with
  | LIBBGP_FILTER_MATCH_AS_PATH_CONTAINS asn => attrs_have_asn attrs asn
  | LIBBGP_FILTER_MATCH_AS_PATH_NOT_CONTAINS asn => negb (attrs_have_asn attrs asn)
  | LIBBGP_FILTER_MATCH_AS_PATH_ORIGIN asn =>
      bool_decide (attrs_origin_asn attrs = Some asn)
  | LIBBGP_FILTER_MATCH_AS_PATH_NOT_ORIGIN asn =>
      bool_decide (is_Some (attrs_origin_asn attrs)) &&
      negb (bool_decide (attrs_origin_asn attrs = Some asn))
  | LIBBGP_FILTER_MATCH_COMMUNITY_CONTAINS c => attrs_have_community attrs c
  | LIBBGP_FILTER_MATCH_COMMUNITY_NOT_CONTAINS c => negb (attrs_have_community attrs c)
  | LIBBGP_FILTER_MATCH_ANY => true
  | _ => false
  end.

Definition match4 (m : libbgp_filter_match) (route : libbgp_prefix4_t) (attrs : list libbgp_pattr_t) : bool :=
  match m with
  | LIBBGP_FILTER_MATCH_PREFIX4 p | LIBBGP_FILTER_MATCH_PREFIX4_MORE_OR_EQUAL p =>
      libbgp_prefix4_includes p route
  | LIBBGP_FILTER_MATCH_PREFIX4_EXACT p => libbgp_prefix4_eq p route
  | LIBBGP_FILTER_MATCH_PREFIX4_MORE_SPECIFIC p => prefix4_more_specific p route
  | LIBBGP_FILTER_MATCH_PREFIX4_LESS_SPECIFIC p => prefix4_less_specific p route
  | LIBBGP_FILTER_MATCH_PREFIX4_LESS_OR_EQUAL p => libbgp_prefix4_includes route p
  | m => attrs_match m attrs
  end.

Definition match6 (m : libbgp_filter_match) (route : libbgp_prefix6_t) (attrs : list libbgp_pattr_t) : bool :=
  match m with
  | LIBBGP_FILTER_MATCH_PREFIX6 p | LIBBGP_FILTER_MATCH_PREFIX6_MORE_OR_EQUAL p =>
      libbgp_prefix6_includes p route
  | LIBBGP_FILTER_MATCH_PREFIX6_EXACT p => libbgp_prefix6_eq p route
  | LIBBGP_FILTER_MATCH_PREFIX6_MORE_SPECIFIC p => prefix6_more_specific p route
  | LIBBGP_FILTER_MATCH_PREFIX6_LESS_SPECIFIC p => prefix6_less_specific p route
  | LIBBGP_FILTER_MATCH_PREFIX6_LESS_OR_EQUAL p => libbgp_prefix6_includes route p
  | m => attrs_match m attrs
  end.

Lemma origin_eq (o : option Z) asn :
  match o with Some a => a =? asn | None => false end = bool_decide (o = Some asn).
Proof.
  destruct o as [a|]; [|done]. apply eq_true_iff_eq. rewrite Z.eqb_eq, bool_decide_eq_true. naive_solver.
Qed.

Lemma origin_ne (o : option Z) asn :
  match o with Some a => negb (a =? asn) | None => false end =
    bool_decide (is_Some o) && negb (bool_decide (o = Some asn)).
Proof. rewrite <-origin_eq. destruct o as [a|]; [|done]. by rewrite bool_decide_true by eauto. Qed.

Lemma rule_matches_scan rule route attrs :
  filter_rule_matches rule route (filter_attr_state_build attrs) attrs = match4 (rule_match rule) route attrs.
Proof.
  unfold filter_rule_matches, match4, attrs_match.
  destruct (rule_match rule); rewrite ?has_asn_scan, ?has_community_scan, ?origin_scan; try done.
  - apply origin_eq.
  - apply origin_ne.
Qed.

Lemma rule_matches6_scan rule route attrs :
  filter_rule_matches6 rule route (filter_attr_state_build attrs) attrs = match6 (rule_match rule) route attrs.
Proof.
  unfold filter_rule_matches6, match6, attrs_match.
  destruct (rule_match rule); rewrite ?has_asn_scan, ?has_community_scan, ?origin_scan; try done.
  - apply origin_eq.
  - apply origin_ne.
Qed.

(** The decision of the last rule that matches. *)
Definition last_match (matches : libbgp_filter_rule_t -> bool) (rules : list libbgp_filter_rule_t)
    (default : libbgp_filter_decision_t) : libbgp_filter_decision_t :=
  match last (filter (λ r, matches r = true) rules) with
  | Some rule => rule_decision rule
  | None => default
  end.

Lemma last_match_snoc matches rules rule d :
  last_match matches (rules ++ [rule]) d =
    if matches rule then rule_decision rule else last_match matches rules d.
Proof.
  unfold last_match. rewrite filter_app, filter_cons, filter_nil. case_decide as Hm.
  - by rewrite Hm, last_snoc.
  - rewrite app_nil_r. by destruct (matches rule).
Qed.

Lemma apply_loop_run matches matches' rules d s :
  (∀ r, matches r = matches' r) →
  apply_loop matches rules (length rules) d s = (Ret (last_match matches' rules d), s).
Proof.
  intros Hext.
  assert (∀ rest, apply_loop matches (rules ++ rest) (length rules) d s =
    (Ret (last_match matches' rules d), s)) as Hgo; [|by rewrite <-(Hgo []), app_nil_r].
  induction rules as [|rule rules IH] using rev_ind; intros rest; [done|].
  rewrite length_app, last_match_snoc, <-Hext. cbn [length]. rewrite Nat.add_1_r. cbn [apply_loop].
  rewrite <-(assoc_L (++)). cbn [app]. rewrite list_lookup_middle by done.
  destruct (matches rule); [done|]. apply IH.
Qed.

(** ** Properties *)

(** C37: The attribute view never changes an answer: whatever the attribute
    list (duplicate codes, attributes whose code does not fit their type,
    both kinds of path), searching through the view for an AS number, a
    community or the origin gives what scanning the list gives. *)
Theorem filter_view_agrees_with_scan attrs :
  let state := filter_attr_state_build attrs in
  (∀ asn, attr_view_has_asn state attrs asn = attrs_have_asn attrs asn) ∧
  (∀ c, attr_view_has_community state attrs c = attrs_have_community attrs c) ∧
  attr_view_origin_asn state attrs = attrs_origin_asn attrs.
Proof.
  split; [|split]; intros; [apply has_asn_scan|apply has_community_scan|apply origin_scan].
Qed.

(** C38: Applying a filter terminates, reads only its rules, and returns the
    decision of the rule added last among those that match the route, or the
    default when none does; for IPv4 and IPv6 routes. *)
Theorem filter_last_match_wins impl d attrs s :
  (∀ route, libbgp_filter_apply_route impl route attrs d s =
     (Ret (last_match (λ r, match4 (rule_match r) route attrs) (f_rules impl) d), s)) ∧
  (∀ route, libbgp_filter_apply_route6 impl route attrs d s =
     (Ret (last_match (λ r, match6 (rule_match r) route attrs) (f_rules impl) d), s)).
Proof.
  split; intros route; apply apply_loop_run; intros r; [apply rule_matches_scan|apply rule_matches6_scan].
Qed.

(** The capacity covers the rules; sizes are those of an address space. *)
Definition filter_inv (impl : filter_impl_t) : Prop :=
  zlen (f_rules impl) <= f_cap impl <= 2 ^ 50.

Lemma add_rule_run impl rule s :
  filter_inv impl → zlen (f_rules impl) < 2 ^ 40 →
  (∃ impl' s', libbgp_filter_add_rule impl rule s = (Ret impl', s') ∧
     f_rules impl' = f_rules impl ++ [rule] ∧ filter_inv impl') ∨
  (∃ s', libbgp_filter_add_rule impl rule s = (Err LIBBGP_ERR_NOMEM, s') ∧ s ≠ []).
Proof.
  intros Hi Hb. unfold filter_inv in *. unfold libbgp_filter_add_rule, filter_reserve.
  destruct (reserve_cap_run (f_cap impl) (zlen (f_rules impl)) SIZEOF_RULE s) as (r & s' & Hr & Hm & _);
    [lia|done|lia|unfold SIZEOF_RULE; lia|].
  unfold mbind, M_bind. rewrite Hr. destruct r as [[cap|]| |]; try done.
  - left. eexists _, _. split; [done|]. split; [done|]. cbn. rewrite length_app. cbn. lia.
  - right. by exists s'.
Qed.

(** Adding a rule puts it in front of all others: when the new rule
    matches, its decision is the filter's, and otherwise nothing changes; the
    only failure is a refused allocation, which leaves the filter as it was.
    Clearing makes the default apply. *)
Theorem filter_add_rule_overrides impl rule s :
  filter_inv impl → zlen (f_rules impl) < 2 ^ 40 →
  match (libbgp_filter_add_rule impl rule s).1 with
  | Ret impl' =>
      filter_inv impl' ∧ libbgp_filter_rule_count impl' = libbgp_filter_rule_count impl + 1 ∧
      (∀ route attrs d t, libbgp_filter_apply_route impl' route attrs d t =
         if match4 (rule_match rule) route attrs then (Ret (rule_decision rule), t)
         else libbgp_filter_apply_route impl route attrs d t) ∧
      (∀ route attrs d t, libbgp_filter_apply_route (libbgp_filter_clear impl') route attrs d t = (Ret d, t))
  | Err e => e = LIBBGP_ERR_NOMEM ∧ s ≠ []
  | Fault _ => False
  end.
Proof.
  intros Hi Hb. destruct (add_rule_run impl rule s Hi Hb) as [(impl' & s' & -> & Hr & Hi')|(s' & -> & Hs)];
    cbn [fst]; [|done].
  split; [done|]. split; [unfold libbgp_filter_rule_count; rewrite Hr, length_app; cbn; lia|]. split; [|done].
  intros route attrs d t. unfold libbgp_filter_apply_route.
  rewrite (apply_loop_run _ (λ r, match4 (rule_match r) route attrs)) by (intros; apply rule_matches_scan).
  rewrite (apply_loop_run _ (λ r, match4 (rule_match r) route attrs)) by (intros; apply rule_matches_scan).
  rewrite Hr, last_match_snoc. by case_match.
Qed.

(** [covers4 p q]: every address of [q] is an address of [p]. *)
Definition covers4 (p q : libbgp_prefix4_t) : Prop := ∀ a, is_u32 a → p4_covers q a → p4_covers p a.

Lemma more_specific_strict p route :
  p4_wf p → p4_wf route → prefix4_more_specific p route = true ↔ covers4 p route ∧ ¬ covers4 route p.
Proof.
  intros Hp Hr. unfold covers4, prefix4_more_specific.
  rewrite andb_true_iff, <-!prefix4_includes_subset by done. rewrite Z.ltb_lt.
  rewrite !prefix4_includes_bits by done. split.
  - intros [Hlt [Hle Hc]]. split; [done|]. intros [? _]. lia.
  - intros [[Hle Hc] Hn]. split; [|done]. destruct (decide (p4_len p = p4_len route)) as [He|]; [|lia].
    exfalso. apply Hn. split; [lia|]. intros k Hk Hk32. symmetry. apply Hc; lia.
Qed.

(** What a prefix rule matches, in addresses: MORE_OR_EQUAL the routes
    inside the rule's prefix, LESS_OR_EQUAL those around it, MORE_SPECIFIC and
    LESS_SPECIFIC the strict versions of these, EXACT only the prefix
    itself. *)
Theorem filter_prefix4_semantics p route attrs s :
  p4_wf p → p4_wf route →
  let permits m := libbgp_filter_apply_route
    (FilterImpl [FilterRule m LIBBGP_FILTER_PERMIT] 1) route attrs LIBBGP_FILTER_DENY s =
      (Ret LIBBGP_FILTER_PERMIT, s) in
  (permits (LIBBGP_FILTER_MATCH_PREFIX4_MORE_OR_EQUAL p) ↔ covers4 p route) ∧
  (permits (LIBBGP_FILTER_MATCH_PREFIX4_LESS_OR_EQUAL p) ↔ covers4 route p) ∧
  (permits (LIBBGP_FILTER_MATCH_PREFIX4_MORE_SPECIFIC p) ↔ covers4 p route ∧ ¬ covers4 route p) ∧
  (permits (LIBBGP_FILTER_MATCH_PREFIX4_LESS_SPECIFIC p) ↔ covers4 route p ∧ ¬ covers4 p route) ∧
  (permits (LIBBGP_FILTER_MATCH_PREFIX4_EXACT p) ↔ p = route).
Proof.
  intros Hp Hr permits.
  assert (Hperm : ∀ m, permits m ↔ match4 m route attrs = true).
  { intros m. unfold permits, libbgp_filter_apply_route.
    rewrite (apply_loop_run _ (λ r, match4 (rule_match r) route attrs)) by (intros; apply rule_matches_scan).
    cbn [f_rules]. change [FilterRule m LIBBGP_FILTER_PERMIT] with ([] ++ [FilterRule m LIBBGP_FILTER_PERMIT]).
    rewrite last_match_snoc. cbn [rule_match rule_decision]. by destruct (match4 m route attrs). }
  split_and!; rewrite Hperm; cbn [match4].
  - by apply prefix4_includes_subset.
  - by apply prefix4_includes_subset.
  - by apply more_specific_strict.
  - change (prefix4_less_specific p route) with (prefix4_more_specific route p). by apply more_specific_strict.
  - unfold libbgp_prefix4_eq. rewrite andb_true_iff, !Z.eqb_eq. destruct p, route. cbn. naive_solver.
Qed.
End FilterSpec.

(** ** Witnesses *)

#[local] Existing Instance little_endian_host.

Lemma filter_add_rule_overrides_witness :
  ∃ impl', libbgp_filter_add_rule (FilterImpl [FilterRule LIBBGP_FILTER_MATCH_ANY LIBBGP_FILTER_PERMIT] 4)
      (FilterRule (LIBBGP_FILTER_MATCH_PREFIX4 (Prefix4 10 8)) LIBBGP_FILTER_DENY) [] = (Ret impl', []) ∧
    libbgp_filter_apply_route impl' (Prefix4 (10 + 256) 16) [] LIBBGP_FILTER_PERMIT [] =
      (Ret LIBBGP_FILTER_DENY, []) ∧
    libbgp_filter_apply_route impl' (Prefix4 11 8) [] LIBBGP_FILTER_DENY [] =
      (Ret LIBBGP_FILTER_PERMIT, []).
Proof.
  pose proof (filter_add_rule_overrides
    (FilterImpl [FilterRule LIBBGP_FILTER_MATCH_ANY LIBBGP_FILTER_PERMIT] 4)
    (FilterRule (LIBBGP_FILTER_MATCH_PREFIX4 (Prefix4 10 8)) LIBBGP_FILTER_DENY) []
    ltac:(unfold filter_inv; cbn; lia) ltac:(cbn; lia)) as H.
  eexists. split; [vm_compute; reflexivity|]. cbn [fst] in H.
  destruct H as (_ & _ & H & _). split.
  - rewrite H. vm_compute. reflexivity.
  - rewrite H. vm_compute. reflexivity.
Defined.

Lemma filter_prefix4_semantics_witness :
  libbgp_filter_apply_route (FilterImpl [FilterRule (LIBBGP_FILTER_MATCH_PREFIX4_EXACT (Prefix4 10 8))
    LIBBGP_FILTER_PERMIT] 1) (Prefix4 10 8) [] LIBBGP_FILTER_DENY [] = (Ret LIBBGP_FILTER_PERMIT, []).
Proof.
  assert (Hp : p4_wf (Prefix4 10 8)) by (split; cbn; [unfold is_u32|]; lia).
  apply (filter_prefix4_semantics (Prefix4 10 8) (Prefix4 10 8) [] [] Hp Hp).
  reflexivity.
Defined.
