(* ===== verification/Event.v ===== *)
(** * The event bus (src/event.c)

    Subscribers are called in subscription order, from a snapshot taken under
    the lock.  Callbacks, [retain] and [release] are code of the caller: they
    act on a state [World] of their own, which the bus threads through its
    calls in the order it makes them.  A callback that calls back into the bus
    it is called from is outside this model; the snapshot is complete before
    the first callback runs. *)

From S2P Require Import Prelude.

Inductive libbgp_event_type_t : Type :=
  | LIBBGP_EVENT_ROUTE_ADDED
  | LIBBGP_EVENT_ROUTE_WITHDRAWN
  | LIBBGP_EVENT_SESSION_UP
  | LIBBGP_EVENT_SESSION_DOWN
  | LIBBGP_EVENT_COLLISION
  | LIBBGP_EVENT_CUSTOM.

#[export] Instance libbgp_event_type_eq_dec : EqDecision libbgp_event_type_t.
Proof. solve_decision. Defined.

Section Event.
Context {Payload Ctx World : Type}.

(** [Payload] stands for the fields of the event the bus only hands on. *)
Record libbgp_event_t : Type := EventOf {
  ev_type : libbgp_event_type_t;
  ev_payload : Payload
}.

Definition libbgp_event_cb : Type := libbgp_event_t -> Ctx -> World -> World.
Definition bgp_event_ctx_retain_fn : Type := Ctx -> World -> bool * World.
Definition bgp_event_ctx_release_fn : Type := Ctx -> World -> World.

Record event_subscriber_t : Type := Subscriber {
  sub_id : Z;
  sub_type : libbgp_event_type_t;
  sub_cb : libbgp_event_cb;
  sub_ctx : Ctx;
  sub_retain : option bgp_event_ctx_retain_fn;
  sub_release : option bgp_event_ctx_release_fn
}.

Record event_bus_impl_t : Type := EventBus {
  bus_subs : list event_subscriber_t;
  bus_cap : Z;
  bus_next_id : Z
}.

Definition BGP_EVENT_STACK_SNAPSHOT : Z := 64.
Definition SIZEOF_SUBSCRIBER : Z := 48.
Definition SIZEOF_SNAPSHOT : Z := 24.

Definition libbgp_event_bus_init : M event_bus_impl_t :=
  alloc_or_nomem;; mret (EventBus [] 0 0).

Definition event_reserve (impl : event_bus_impl_t) (needed : Z) : M (option Z) :=
  reserve_cap (bus_cap impl) needed SIZEOF_SUBSCRIBER.

Definition event_next_id (next_id : Z) : Z :=
  let next_id := u64 (next_id + 1) in
  if next_id =? 0 then u64 (next_id + 1) else next_id.

Definition call_retain (retain : option bgp_event_ctx_retain_fn) (ctx : Ctx) (w : World)
    : bool * World :=
  match retain with Some f => f ctx w | None => (true, w) end.

Definition call_release (release : option bgp_event_ctx_release_fn) (ctx : Ctx) (w : World) : World :=
  match release with Some f => f ctx w | None => w end.

Definition event_subscriber_release (sub : event_subscriber_t) (w : World) : World :=
  call_release (sub_release sub) (sub_ctx sub) w.

(** [while (count != 0) { count--; event_subscriber_release(&subs[count]); }] *)
Definition libbgp_event_bus_destroy (impl : event_bus_impl_t) (w : World) : World :=
  foldr event_subscriber_release w (bus_subs impl).

(** The id of the new subscription, or the error code; the world has changed
    in both cases. *)
Definition bgp_event_bus_subscribe_retained (impl : event_bus_impl_t)
    (type : libbgp_event_type_t) (cb : libbgp_event_cb) (ctx : Ctx)
    (retain : option bgp_event_ctx_retain_fn) (release : option bgp_event_ctx_release_fn)
    (w : World) : M (event_bus_impl_t * World * (Z + libbgp_err_t)) :=
  let '(retained, w) := call_retain retain ctx w in
  if negb retained then mret (impl, w, inr LIBBGP_ERR_BAD_LEN)
  else
    cap ← event_reserve impl (zlen (bus_subs impl) + 1);
    match cap with
    | None => mret (impl, call_release release ctx w, inr LIBBGP_ERR_NOMEM)
    | Some cap =>
        let id := event_next_id (bus_next_id impl) in
        mret (EventBus (bus_subs impl ++ [Subscriber id type cb ctx retain release]) cap id,
              w, inl id)
    end.

Definition libbgp_event_bus_subscribe (impl : event_bus_impl_t) (type : libbgp_event_type_t)
    (cb : libbgp_event_cb) (ctx : Ctx) (w : World)
    : M (event_bus_impl_t * World * (Z + libbgp_err_t)) :=
  bgp_event_bus_subscribe_retained impl type cb ctx None None w.

(** The search for the id; the subscribers after it move down by one. *)
Fixpoint unsubscribe_loop (subs : list event_subscriber_t) (id : Z)
    : option (event_subscriber_t * list event_subscriber_t) :=
  match subs with
  | [] => None
  | sub :: subs' =>
      if sub_id sub =? id then Some (sub, subs')
      else
        match unsubscribe_loop subs' id with
        | None => None
        | Some (found, rest) => Some (found, sub :: rest)
        end
  end.

Definition libbgp_event_bus_unsubscribe (impl : event_bus_impl_t) (id : Z) (w : World)
    : event_bus_impl_t * World * libbgp_err_t :=
  match unsubscribe_loop (bus_subs impl) id with
  | None => (impl, w, LIBBGP_ERR_NOT_FOUND)
  | Some (sub, subs) =>
      (EventBus subs (bus_cap impl) (bus_next_id impl), event_subscriber_release sub w, LIBBGP_OK)
  end.

Definition event_matches (publisher_id : Z) (event : libbgp_event_t) (sub : event_subscriber_t) : bool :=
  bool_decide (sub_type sub = ev_type event) &&
  ((publisher_id =? 0) || negb (sub_id sub =? publisher_id)).

(** The second pass: the subscribers that match and could be retained.  [room]
    is what is left of the snapshot array. *)
Fixpoint snapshot_loop (publisher_id : Z) (event : libbgp_event_t)
    (subs : list event_subscriber_t) (room : Z) (w : World)
    : M (list event_subscriber_t * World) :=
  match subs with
  | [] => mret ([], w)
  | sub :: subs' =>
      if event_matches publisher_id event sub then
        let '(retained, w) := call_retain (sub_retain sub) (sub_ctx sub) w in
        if negb retained then snapshot_loop publisher_id event subs' room w
        else if room <=? 0 then stuck OutOfBounds
        else
          '(rest, w) ← snapshot_loop publisher_id event subs' (room - 1) w;
          mret (sub :: rest, w)
      else snapshot_loop publisher_id event subs' room w
  end.

(** [snapshot[i].cb(event, ctx); if (release) release(ctx);] *)
Definition deliver (event : libbgp_event_t) (w : World) (sub : event_subscriber_t) : World :=
  event_subscriber_release sub (sub_cb sub event (sub_ctx sub) w).

Definition libbgp_event_bus_publish_from (impl : event_bus_impl_t) (publisher_id : Z)
    (event : libbgp_event_t) (w : World) : M (Z * World) :=
  let match_count := zlen (filter (λ sub, event_matches publisher_id event sub = true) (bus_subs impl)) in
  if match_count =? 0 then mret (0, w)
  else
    ok ←
      (if BGP_EVENT_STACK_SNAPSHOT <? match_count then
         if SIZE_MAX / SIZEOF_SNAPSHOT <? match_count then mret false else bgp_alloc
       else mret true);
    if negb ok then mret (0, w)
    else
      let room := if BGP_EVENT_STACK_SNAPSHOT <? match_count then match_count
                  else BGP_EVENT_STACK_SNAPSHOT in
      '(snapshot, w) ← snapshot_loop publisher_id event (bus_subs impl) room w;
      mret (zlen snapshot, foldl (deliver event) w snapshot).

Definition libbgp_event_bus_publish (impl : event_bus_impl_t) (event : libbgp_event_t) (w : World)
    : M (Z * World) :=
  libbgp_event_bus_publish_from impl 0 event w.

Definition libbgp_event_bus_subscriber_count (impl : event_bus_impl_t) : Z := zlen (bus_subs impl).

(** ** Specification *)

(** Ids are nonzero, distinct, and none is above the last one given out. *)
Definition bus_inv (impl : event_bus_impl_t) : Prop :=
  NoDup (sub_id <$> bus_subs impl) ∧
  Forall (λ sub, 0 < sub_id sub <= bus_next_id impl) (bus_subs impl) ∧
  0 <= bus_next_id impl ∧ zlen (bus_subs impl) <= bus_cap impl <= 2 ^ 50.

Lemma next_id_fresh impl :
  bus_inv impl → bus_next_id impl < 2 ^ 64 - 1 →
  event_next_id (bus_next_id impl) = bus_next_id impl + 1 ∧
  event_next_id (bus_next_id impl) ∉ (sub_id <$> bus_subs impl).
Proof.
  intros (_ & Hf & H0 & _) Hlt. unfold event_next_id, u64.
  rewrite (Z.mod_small (bus_next_id impl + 1)) by lia.
  replace (bus_next_id impl + 1 =? 0) with false by lia. split; [done|].
  intros (sub & Heq & Hin)%list_elem_of_fmap. rewrite Forall_forall in Hf. specialize (Hf sub Hin). lia.
Qed.

Lemma subscribe_run impl type cb ctx retain release w s :
  bus_inv impl → bus_next_id impl < 2 ^ 64 - 1 → zlen (bus_subs impl) < 2 ^ 40 →
  let '(retained, w1) := call_retain retain ctx w in
  let id := bus_next_id impl + 1 in
  if retained then
    (∃ cap s', bgp_event_bus_subscribe_retained impl type cb ctx retain release w s =
       (Ret (EventBus (bus_subs impl ++ [Subscriber id type cb ctx retain release]) cap id, w1, inl id), s') ∧
       bus_inv (EventBus (bus_subs impl ++ [Subscriber id type cb ctx retain release]) cap id)) ∨
    (∃ s', bgp_event_bus_subscribe_retained impl type cb ctx retain release w s =
       (Ret (impl, call_release release ctx w1, inr LIBBGP_ERR_NOMEM), s') ∧ s ≠ [])
  else bgp_event_bus_subscribe_retained impl type cb ctx retain release w s =
    (Ret (impl, w1, inr LIBBGP_ERR_BAD_LEN), s).
Proof.
  intros Hi Hn Hb. unfold bgp_event_bus_subscribe_retained, event_reserve.
  destruct (call_retain retain ctx w) as [[] w1]; [|done]. cbn [negb].
  destruct (next_id_fresh impl Hi Hn) as [Hid Hfresh]. rewrite Hid in *.
  destruct Hi as (Hnd & Hf & H0 & Hcap).
  destruct (reserve_cap_run (bus_cap impl) (zlen (bus_subs impl)) SIZEOF_SUBSCRIBER s)
    as (r & s' & Hr & Hm & _); [lia|done|lia|unfold SIZEOF_SUBSCRIBER; lia|].
  unfold mbind, M_bind. rewrite Hr. destruct r as [[cap|]| |]; try done.
  - left. exists cap, s'. split; [done|]. unfold bus_inv. cbn [bus_subs bus_cap bus_next_id].
    rewrite fmap_app, length_app. split_and!; [| |lia|cbn; lia|lia].
    + apply NoDup_app. split; [done|]. split; [|apply NoDup_singleton].
      intros x Hx Hx'. apply list_elem_of_singleton in Hx'. cbn in Hx'. by subst x.
    + apply Forall_app. split; [|by repeat constructor; cbn; lia].
      eapply Forall_impl; [exact Hf|]. cbn. lia.
  - right. by exists s'.
Qed.

(** *** Who is called

    Said without the functions of the bus: a subscriber wants an event of its
    type unless it has itself published it (a publisher 0 is nobody). *)
Definition wants (publisher_id : Z) (event : libbgp_event_t) (sub : event_subscriber_t) : Prop :=
  sub_type sub = ev_type event ∧ (publisher_id ≠ 0 → sub_id sub ≠ publisher_id).

#[export] Instance wants_dec publisher_id event sub : Decision (wants publisher_id event sub).
Proof. unfold wants. apply _. Defined.

(** The contexts are retained in order; who has no [retain] takes part, who
    refuses does not. *)
Fixpoint retained_of (subs : list event_subscriber_t) (w : World) : list event_subscriber_t * World :=
  match subs with
  | [] => ([], w)
  | sub :: subs' =>
      match sub_retain sub with
      | None => let '(rest, w1) := retained_of subs' w in (sub :: rest, w1)
      | Some retain =>
          match retain (sub_ctx sub) w with
          | (true, w1) => let '(rest, w2) := retained_of subs' w1 in (sub :: rest, w2)
          | (false, w1) => retained_of subs' w1
          end
      end
  end.

(** Then each is called with its own context, which is released before the
    next one is called. *)
Fixpoint served (event : libbgp_event_t) (subs : list event_subscriber_t) (w : World) : World :=
  match subs with
  | [] => w
  | sub :: subs' =>
      let w1 := sub_cb sub event (sub_ctx sub) w in
      match sub_release sub with
      | Some release => served event subs' (release (sub_ctx sub) w1)
      | None => served event subs' w1
      end
  end.

Lemma event_matches_wants pid event sub : event_matches pid event sub = true ↔ wants pid event sub.
Proof.
  unfold event_matches, wants. rewrite andb_true_iff, bool_decide_eq_true, orb_true_iff, negb_true_iff.
  rewrite Z.eqb_eq, Z.eqb_neq. destruct (decide (pid = 0)); tauto.
Qed.

Lemma filter_wants pid event (subs : list event_subscriber_t) :
  filter (λ sub, event_matches pid event sub = true) subs = filter (wants pid event) subs.
Proof. apply list_filter_iff. intros sub. apply event_matches_wants. Qed.

Lemma snapshot_run pid event subs room w s :
  zlen (filter (wants pid event) subs) <= room →
  snapshot_loop pid event subs room w s = (Ret (retained_of (filter (wants pid event) subs) w), s).
Proof.
  revert room w. induction subs as [|sub subs IH]; intros room w Hr; [done|].
  cbn [snapshot_loop]. rewrite filter_cons in *. pose proof (event_matches_wants pid event sub) as Hm.
  destruct (event_matches pid event sub).
  - rewrite decide_True in * by by apply Hm. cbn [retained_of length] in *. unfold call_retain.
    destruct (sub_retain sub) as [retain|]; [destruct (retain (sub_ctx sub) w) as [[] w1]|]; cbn [negb].
    2:{ by rewrite IH by lia. }
    all: replace (room <=? 0) with false by lia; unfold mbind, M_bind; rewrite IH by lia.
    all: by destruct (retained_of _ _).
  - rewrite decide_False in * by (intros Hw; by apply Hm in Hw). by apply IH.
Qed.

Lemma deliver_served event subs w : foldl (deliver event) w subs = served event subs w.
Proof.
  revert w. induction subs as [|sub subs IH]; intros w; [done|]. cbn [foldl served]. rewrite IH.
  unfold deliver, event_subscriber_release, call_release. by destruct (sub_release sub).
Qed.

(** What a publication comes to: more than 64 subscribers take one allocation. *)
Lemma publish_run impl pid event w s :
  zlen (bus_subs impl) <= 2 ^ 40 →
  let subs := filter (wants pid event) (bus_subs impl) in
  let '(kept, w1) := retained_of subs w in
  libbgp_event_bus_publish_from impl pid event w s =
    if decide (zlen subs <= 64) then (Ret (zlen kept, served event kept w1), s)
    else match s with
         | false :: s' => (Ret (0, w), s')
         | _ => (Ret (zlen kept, served event kept w1), tail s)
         end.
Proof.
  intros Hb subs. unfold libbgp_event_bus_publish_from, BGP_EVENT_STACK_SNAPSHOT. rewrite filter_wants. fold subs.
  assert (Hl : zlen subs <= zlen (bus_subs impl)).
  { unfold subs. pose proof (length_filter (wants pid event) (bus_subs impl)). lia. }
  assert (Hsz : 2 ^ 50 <= SIZE_MAX / SIZEOF_SNAPSHOT) by (vm_compute; discriminate).
  destruct (zlen subs =? 0) eqn:Hz.
  { destruct subs as [|] eqn:Hs; [|cbn in Hz; lia]. cbn. by rewrite decide_True by lia. }
  replace (SIZE_MAX / SIZEOF_SNAPSHOT <? zlen subs) with false by lia.
  destruct (retained_of subs w) as [kept w1] eqn:Hk.
  destruct (64 <? zlen subs) eqn:H64; unfold mbind, M_bind.
  - rewrite decide_False by lia. destruct s as [|[] s]; cbn [bgp_alloc negb tail]; [| |done].
    all: rewrite snapshot_run by done; fold subs; by rewrite Hk, deliver_served.
  - rewrite decide_True by lia. unfold mret, M_ret. cbn [negb]. rewrite snapshot_run by (fold subs; lia). fold subs.
    by rewrite Hk, deliver_served.
Qed.

(** ** Properties *)

(** C39: Publishing an event retains, in subscription order, the context of every
    subscriber of the event's type but the publisher, then calls those that
    could be retained in that order, each once with its own context and
    releases it before the next is called, and returns how many it called.
    More than 64 such subscribers take one allocation: refused, nobody is
    retained or called and the answer is 0; granted, all are served. *)
Theorem event_publish_delivers impl publisher_id event w s :
  zlen (bus_subs impl) <= 2 ^ 40 →
  let subs := filter (wants publisher_id event) (bus_subs impl) in
  let '(kept, w1) := retained_of subs w in
  libbgp_event_bus_publish_from impl publisher_id event w s =
    if decide (zlen subs <= 64) then (Ret (zlen kept, served event kept w1), s)
    else match s with
         | false :: s' => (Ret (0, w), s')
         | _ => (Ret (zlen kept, served event kept w1), tail s)
         end.
Proof. apply publish_run. Qed.

(** A subscription gets an id that is nonzero and that no other subscriber
    has, as long as fewer than 2^64 - 1 ids have been given out; it is added
    behind the others.  A refused retain or allocation adds nothing; after a
    refused allocation the context is released again. *)
Theorem event_subscribe_fresh impl type cb ctx retain release w s :
  bus_inv impl → bus_next_id impl < 2 ^ 64 - 1 → zlen (bus_subs impl) < 2 ^ 40 →
  let '(retained, w1) := call_retain retain ctx w in
  match (bgp_event_bus_subscribe_retained impl type cb ctx retain release w s).1 with
  | Ret (impl', w', inl id) =>
      retained = true ∧ w' = w1 ∧ 0 < id ∧ (id ∉ sub_id <$> bus_subs impl) ∧ bus_inv impl' ∧
      bus_subs impl' = bus_subs impl ++ [Subscriber id type cb ctx retain release]
  | Ret (impl', w', inr e) =>
      impl' = impl ∧
      (retained = false ∧ e = LIBBGP_ERR_BAD_LEN ∧ w' = w1 ∨
       retained = true ∧ e = LIBBGP_ERR_NOMEM ∧ w' = call_release release ctx w1 ∧ s ≠ [])
  | _ => False
  end.
Proof.
  intros Hi Hn Hb. pose proof (subscribe_run impl type cb ctx retain release w s Hi Hn Hb) as H.
  destruct (next_id_fresh impl Hi Hn) as [Hid Hfresh]. rewrite Hid in Hfresh.
  destruct (call_retain retain ctx w) as [[] w1].
  - destruct H as [(cap & s' & -> & Hinv)|(s' & -> & Hs)]; cbn [fst].
    + split_and!; try done. destruct Hi as (_ & _ & ? & _). lia.
    + split; [done|]. by right.
  - rewrite H. cbn [fst]. split; [done|]. by left.
Qed.

Lemma unsubscribe_loop_spec subs id :
  match unsubscribe_loop subs id with
  | None => id ∉ (sub_id <$> subs)
  | Some (sub, rest) =>
      ∃ pre post, subs = pre ++ sub :: post ∧ rest = pre ++ post ∧ sub_id sub = id ∧
        id ∉ (sub_id <$> pre)
  end.
Proof.
  induction subs as [|sub subs IH]; [set_solver|]. cbn [unsubscribe_loop].
  destruct (Z.eqb_spec (sub_id sub) id) as [He|Hne]; [exists [], subs; set_solver|].
  destruct (unsubscribe_loop subs id) as [[found rest]|].
  - destruct IH as (pre & post & -> & -> & ? & ?). exists (sub :: pre), post. set_solver.
  - set_solver.
Qed.

(** Unsubscribing removes exactly the subscriber with that id, keeps the
    order of the others, releases its context, and leaves the id unknown; an
    unknown id answers NOT_FOUND and changes nothing. *)
Theorem event_unsubscribe_exact impl id w :
  bus_inv impl →
  let '(impl', w', e) := libbgp_event_bus_unsubscribe impl id w in
  bus_inv impl' ∧ (id ∉ sub_id <$> bus_subs impl') ∧
  match e with
  | LIBBGP_OK => ∃ pre sub post, bus_subs impl = pre ++ sub :: post ∧ bus_subs impl' = pre ++ post ∧
      sub_id sub = id ∧ w' = event_subscriber_release sub w
  | _ => e = LIBBGP_ERR_NOT_FOUND ∧ impl' = impl ∧ w' = w ∧ id ∉ (sub_id <$> bus_subs impl)
  end.
Proof.
  intros Hi. unfold libbgp_event_bus_unsubscribe. pose proof (unsubscribe_loop_spec (bus_subs impl) id) as H.
  destruct (unsubscribe_loop (bus_subs impl) id) as [[sub rest]|]; [|done].
  destruct H as (pre & post & He & -> & Hid & Hpre). destruct Hi as (Hnd & Hf & H0 & Hcap).
  rewrite He in *. rewrite fmap_app, fmap_cons in Hnd. rewrite length_app in Hcap.
  apply NoDup_app in Hnd as (Hn1 & Hn2 & [Hn3 Hn4]%NoDup_cons).
  apply Forall_app in Hf as [Hf1 [_ Hf2]%Forall_cons]. cbn [length] in Hcap.
  split; [|split].
  - unfold bus_inv. cbn [bus_subs bus_cap bus_next_id]. rewrite fmap_app, length_app.
    split_and!; [|by apply Forall_app|done|lia|lia].
    apply NoDup_app. split_and!; [done| |done]. intros x Hx Hx'. apply (Hn2 x Hx). set_solver.
  - cbn [bus_subs]. rewrite fmap_app, elem_of_app. subst id. tauto.
  - exists pre, sub, post. done.
Qed.

(** ** Reference counts *)

Section Refs.
Context (refs : World -> Z).

(** [retain] and [release] count references, the callbacks do not; they come
    together. *)
Definition counted (sub : event_subscriber_t) : Prop :=
  match sub_retain sub, sub_release sub with
  | Some retain, Some release =>
      (∀ w, refs (retain (sub_ctx sub) w).2 =
            refs w + if (retain (sub_ctx sub) w).1 then 1 else 0) ∧
      (∀ w, refs (release (sub_ctx sub) w) = refs w - 1)
  | None, None => True
  | _, _ => False
  end ∧ ∀ event w, refs (sub_cb sub event (sub_ctx sub) w) = refs w.

Definition holds_ref (sub : event_subscriber_t) : bool := bool_decide (is_Some (sub_release sub)).

Lemma retained_refs subs w :
  Forall counted subs →
  Forall counted (retained_of subs w).1 ∧
  refs (retained_of subs w).2 =
    refs w + zlen (filter (λ sub, holds_ref sub = true) (retained_of subs w).1).
Proof.
  intros H. revert w. induction H as [|sub subs Hc _ IH]; intros w; cbn [retained_of].
  { cbn. split; [constructor|lia]. }
  pose proof Hc as [Hrr _]. destruct (sub_retain sub) as [retain|], (sub_release sub) as [release|] eqn:Hrel; try done.
  - destruct Hrr as [Hrr _]. specialize (Hrr w). destruct (retain (sub_ctx sub) w) as [ok w1]. cbn [fst snd] in Hrr.
    specialize (IH w1). destruct (retained_of subs w1) as [rest w2]. cbn [fst snd] in IH. destruct IH as [IH1 IH2].
    destruct ok; cbn [fst snd]; [|split; [done|lia]]. split; [by constructor|].
    rewrite filter_cons, decide_True by by (unfold holds_ref; rewrite Hrel, bool_decide_true). cbn [length]. lia.
  - specialize (IH w). destruct (retained_of subs w) as [rest w1]. cbn [fst snd] in *. destruct IH as [IH1 IH2].
    split; [by constructor|]. rewrite filter_cons, decide_False; [done|].
    unfold holds_ref. rewrite Hrel, bool_decide_false; [done|]. by intros [? ?].
Qed.

Lemma served_refs event subs w :
  Forall counted subs →
  refs (served event subs w) = refs w - zlen (filter (λ sub, holds_ref sub = true) subs).
Proof.
  intros H. revert w. induction H as [|sub subs [Hrr Hcb] _ IH]; intros w; cbn [served]; [cbn; lia|].
  rewrite filter_cons.
  destruct (sub_retain sub) as [retain|], (sub_release sub) as [release|] eqn:Hrel; try done.
  - destruct Hrr as [_ Hrr]. rewrite IH, Hrr, Hcb.
    rewrite decide_True by by (unfold holds_ref; rewrite Hrel, bool_decide_true). cbn [length]. lia.
  - rewrite IH, Hcb, decide_False; [lia|]. unfold holds_ref. rewrite Hrel, bool_decide_false; [done|]. by intros [? ?].
Qed.

(** Publishing balances references: when every subscriber's retain takes a
    reference (or none, when it refuses) and its release gives one back, the
    count after publishing is the count before, whoever was called and
    whatever the allocator answered. *)
Theorem event_publish_balances_refs impl publisher_id event w s :
  Forall counted (bus_subs impl) → zlen (bus_subs impl) <= 2 ^ 40 →
  ∃ n w' s', libbgp_event_bus_publish_from impl publisher_id event w s = (Ret (n, w'), s') ∧
    refs w' = refs w.
Proof.
  intros Hc Hb. pose proof (publish_run impl publisher_id event w s Hb) as H. cbv zeta in H.
  assert (Hm : Forall counted (filter (wants publisher_id event) (bus_subs impl))).
  { apply Forall_forall. intros sub [_ Hsub]%list_elem_of_filter. rewrite Forall_forall in Hc. by apply Hc. }
  pose proof (retained_refs _ w Hm) as [Hs Hr].
  destruct (retained_of (filter (wants publisher_id event) (bus_subs impl)) w) as [kept w1]. cbn [fst snd] in *.
  pose proof (served_refs event kept w1 Hs) as Hserved. rewrite H.
  destruct (decide _); [|destruct s as [|[] s]]; eexists _, _, _; (split; [done|]); lia.
Qed.
End Refs.
End Event.

(** ** Witnesses *)

(** A subscriber that logs its context; one that also counts references. *)
Definition log_cb : @libbgp_event_cb unit Z (list Z) := λ _ ctx w, w ++ [ctx].

Definition log_sub (id : Z) (type : libbgp_event_type_t) (ctx : Z) : @event_subscriber_t unit Z (list Z) :=
  Subscriber id type log_cb ctx None None.

Definition log_bus : @event_bus_impl_t unit Z (list Z) :=
  EventBus [log_sub 1 LIBBGP_EVENT_ROUTE_ADDED 10; log_sub 2 LIBBGP_EVENT_SESSION_UP 20;
            log_sub 3 LIBBGP_EVENT_ROUTE_ADDED 30] 4 3.

(** Context 30 may not be retained, 40 is released after its call; the
    publisher 1 is not called although it has the type of the event. *)
Definition publish_bus : @event_bus_impl_t unit Z (list Z) :=
  EventBus [log_sub 1 LIBBGP_EVENT_ROUTE_ADDED 10; log_sub 2 LIBBGP_EVENT_SESSION_UP 20;
            Subscriber 3 LIBBGP_EVENT_ROUTE_ADDED log_cb 30 (Some (λ ctx w, (false, w ++ [ctx + 1]))) None;
            Subscriber 4 LIBBGP_EVENT_ROUTE_ADDED log_cb 40 (Some (λ ctx w, (true, w ++ [ctx + 1])))
              (Some (λ ctx w, w ++ [ctx + 2]));
            log_sub 5 LIBBGP_EVENT_ROUTE_ADDED 50] 8 5.

Lemma event_publish_delivers_witness :
  libbgp_event_bus_publish_from publish_bus 1 (EventOf LIBBGP_EVENT_ROUTE_ADDED tt) [] [] =
    (Ret (2, [31; 41; 40; 42; 50]), []).
Proof.
  refine (event_publish_delivers publish_bus 1 (EventOf LIBBGP_EVENT_ROUTE_ADDED tt) [] [] _).
  vm_compute. discriminate.
Defined.

Lemma log_bus_inv : bus_inv log_bus.
Proof.
  split; [|split; [|split]].
  - apply (bool_decide_unpack _). by vm_compute.
  - repeat constructor; cbn; lia.
  - cbn. lia.
  - cbn. lia.
Qed.

Lemma event_subscribe_fresh_witness :
  ∃ impl', bgp_event_bus_subscribe_retained log_bus LIBBGP_EVENT_CUSTOM log_cb 40 None None [] [] =
      (Ret (impl', [], inl 4), []) ∧ bus_inv impl'.
Proof.
  pose proof (event_subscribe_fresh log_bus LIBBGP_EVENT_CUSTOM log_cb 40 None None [] []
    log_bus_inv ltac:(cbn; lia) ltac:(cbn; lia)) as H.
  eexists. split; [vm_compute; reflexivity|]. cbn [call_retain] in H. apply H.
Defined.

Lemma event_unsubscribe_exact_witness :
  (libbgp_event_bus_unsubscribe log_bus 2 []).2 = LIBBGP_OK ∧
  bus_inv (libbgp_event_bus_unsubscribe log_bus 2 []).1.1.
Proof. split; [reflexivity|]. exact (proj1 (event_unsubscribe_exact log_bus 2 [] log_bus_inv)). Defined.

Definition ref_sub : @event_subscriber_t unit Z Z :=
  Subscriber 1 LIBBGP_EVENT_CUSTOM (λ _ _ w, w) 0 (Some (λ _ w, (true, w + 1))) (Some (λ _ w, w - 1)).

Lemma event_publish_balances_refs_witness :
  ∃ n w' s', libbgp_event_bus_publish_from (EventBus [ref_sub] 4 1) 0 (EventOf LIBBGP_EVENT_CUSTOM tt) 5 [] =
      (Ret (n, w'), s') ∧ w' = 5.
Proof.
  apply (event_publish_balances_refs (λ w, w) (EventBus [ref_sub] 4 1)).
  - by repeat constructor.
  - vm_compute. discriminate.
Defined.
