(* ===== verification/Hashmap.v ===== *)
(** * The chained hash map (src/hashmap.c, src/hashmap.h)

    The index structure of the routing tables.  Several entries may have the
    same key.  Keys and values are pointers of the client; the hash and the
    comparison of keys are its callbacks, given here by the class [HashKey]
    with the law [HashKeyLaws] the map relies on, for the keys [key_ok] the
    client uses; [Pointer] is the comparison of value pointers.  The calls of the client's
    [free_entry] are the trace of freed entries an operation returns.  A chain
    of entries is a list, its head being the entry [buckets[i]] points to. *)

From S2P Require Import Prelude.

Class HashKey (Key : Type) : Type := {
  hash : Key -> Z;
  key_eq : Key -> Key -> bool
}.

Class HashKeyLaws (Key : Type) `{HashKey Key} (key_ok : Key -> Prop) : Prop :=
  key_eq_hash k k' : key_ok k → key_ok k' → key_eq k k' = true → hash k = hash k'.

(** [p == q] on pointers to the client's objects. *)
Class Pointer (Value : Type) : Type := same_ptr : Value -> Value -> bool.

(** ** The operations *)

Section Hashmap.
Context {Key Value : Type} `{!HashKey Key, !Pointer Value}.

Record bgp_hashmap_entry_t : Type := HashEntry {
  e_key : Key;
  e_value : Value;
  e_hash : Z
}.

Record bgp_hashmap_t : Type := HashMap {
  buckets : list (list bgp_hashmap_entry_t);
  bucket_count : Z;
  hm_len : Z
}.

Definition BGP_HASHMAP_INITIAL_BUCKETS : Z := 16.

Definition hashmap_is_power_of_two (value : Z) : bool :=
  negb (value =? 0) && (Z.land value (u64 (value - 1)) =? 0).

(** The [assert] is live in builds without [NDEBUG]. *)
Definition bucket_index (hash bucket_count : Z) : M Z :=
  if hashmap_is_power_of_two bucket_count
  then mret (Z.land hash (u64 (bucket_count - 1)))
  else stuck AssertFailed.

Definition hashmap_resize_threshold (bucket_count : Z) : Z := bucket_count - bucket_count / 4.

Definition SIZEOF_POINTER : Z := 8.

Definition hashmap_alloc_buckets (count : Z) : M (list (list bgp_hashmap_entry_t)) :=
  fail_if (SIZE_MAX / SIZEOF_POINTER <? count) LIBBGP_ERR_NOMEM;;
  alloc_or_nomem;;
  mret (replicate (Z.to_nat count) []).

(** [buckets[i]] *)
Definition bucket_at (bs : list (list bgp_hashmap_entry_t)) (i : Z)
    : M (list bgp_hashmap_entry_t) :=
  match bs !! Z.to_nat i with
  | Some chain => if 0 <=? i then mret chain else stuck OutOfBounds
  | None => stuck OutOfBounds
  end.

(** [entry->next = buckets[idx]; buckets[idx] = entry;] *)
Definition push_entry (bs : list (list bgp_hashmap_entry_t)) (count : Z)
    (entry : bgp_hashmap_entry_t) : M (list (list bgp_hashmap_entry_t)) :=
  idx ← bucket_index (e_hash entry) count;
  chain ← bucket_at bs idx;
  mret (<[Z.to_nat idx := entry :: chain]> bs).

Fixpoint rehash_chain (new_buckets : list (list bgp_hashmap_entry_t)) (new_count : Z)
    (chain : list bgp_hashmap_entry_t) : M (list (list bgp_hashmap_entry_t)) :=
  match chain with
  | [] => mret new_buckets
  | entry :: next =>
      new_buckets' ← push_entry new_buckets new_count entry;
      rehash_chain new_buckets' new_count next
  end.

Fixpoint rehash_buckets (new_buckets : list (list bgp_hashmap_entry_t)) (new_count : Z)
    (old : list (list bgp_hashmap_entry_t)) : M (list (list bgp_hashmap_entry_t)) :=
  match old with
  | [] => mret new_buckets
  | chain :: old' =>
      new_buckets' ← rehash_chain new_buckets new_count chain;
      rehash_buckets new_buckets' new_count old'
  end.

(** An error leaves the map as it was. *)
Definition hashmap_resize (map : bgp_hashmap_t) (new_count : Z) : M bgp_hashmap_t :=
  fail_if (negb (hashmap_is_power_of_two new_count)) LIBBGP_ERR_INVALID;;
  new_buckets ← hashmap_alloc_buckets new_count;
  new_buckets' ← rehash_buckets new_buckets new_count (buckets map);
  mret (HashMap new_buckets' new_count (hm_len map)).

Definition bgp_hashmap_init : M bgp_hashmap_t :=
  fail_if (negb (hashmap_is_power_of_two BGP_HASHMAP_INITIAL_BUCKETS)) LIBBGP_ERR_INVALID;;
  bs ← hashmap_alloc_buckets BGP_HASHMAP_INITIAL_BUCKETS;
  mret (HashMap bs BGP_HASHMAP_INITIAL_BUCKETS 0).

(** The entries handed to [free_entry], in the order of the calls. *)
Definition bgp_hashmap_destroy (map : bgp_hashmap_t) : list (Key * Value) :=
  flat_map (fmap (M:=list) (λ entry, (e_key entry, e_value entry))) (buckets map).

Fixpoint reserve_loop (fuel : nat) (target count : Z) : M Z :=
  if hashmap_resize_threshold target <? count then
    if SIZE_MAX / 2 <? target then err LIBBGP_ERR_NOMEM
    else
      match fuel with
      | O => stuck OutOfFuel
      | S fuel' => reserve_loop fuel' (target * 2) count
      end
  else mret target.

Definition bgp_hashmap_reserve (map : bgp_hashmap_t) (count : Z) : M bgp_hashmap_t :=
  fail_if (negb (hashmap_is_power_of_two (bucket_count map))) LIBBGP_ERR_INVALID;;
  if count <=? hashmap_resize_threshold (bucket_count map) then mret map
  else
    target ← reserve_loop DOUBLE_FUEL (bucket_count map) count;
    hashmap_resize map target.

(** The map after the call and the error code: the table may have grown when
    the entry itself cannot be allocated. *)
Definition bgp_hashmap_insert (map : bgp_hashmap_t) (key : Key) (value : Value)
    : M (bgp_hashmap_t * libbgp_err_t) :=
  r ← try_call
    (if hashmap_resize_threshold (bucket_count map) <=? hm_len map then
       fail_if (SIZE_MAX / 2 <? bucket_count map) LIBBGP_ERR_NOMEM;;
       hashmap_resize map (bucket_count map * 2)
     else mret map);
  match r with
  | inr e => mret (map, e)
  | inl map1 =>
      ok ← bgp_alloc;
      if negb ok then mret (map1, LIBBGP_ERR_NOMEM)
      else
        bs ← push_entry (buckets map1) (bucket_count map1) (HashEntry key value (hash key));
        mret (HashMap bs (bucket_count map1) (u64 (hm_len map1 + 1)), LIBBGP_OK)
  end.

(** The test of the lookup loops. *)
Definition entry_matches (h : Z) (key : Key) (entry : bgp_hashmap_entry_t) : bool :=
  (e_hash entry =? h) && key_eq (e_key entry) key.

(** [value == NULL || entry->value == value] *)
Definition value_matches (value : option Value) (v : Value) : bool :=
  match value with
  | None => true
  | Some value => same_ptr v value
  end.

(** The chain without its first match, and that entry. *)
Fixpoint unlink (chain : list bgp_hashmap_entry_t) (h : Z) (key : Key) (value : option Value)
    : option (bgp_hashmap_entry_t * list bgp_hashmap_entry_t) :=
  match chain with
  | [] => None
  | entry :: next =>
      if entry_matches h key entry && value_matches value (e_value entry) then Some (entry, next)
      else
        match unlink next h key value with
        | Some (found, next') => Some (found, entry :: next')
        | None => None
        end
  end.

(** The map, the error code, and the entry handed to [free_entry]. *)
Definition bgp_hashmap_remove_one (map : bgp_hashmap_t) (key : Key) (value : option Value)
    : M (bgp_hashmap_t * libbgp_err_t * list (Key * Value)) :=
  idx ← bucket_index (hash key) (bucket_count map);
  chain ← bucket_at (buckets map) idx;
  match unlink chain (hash key) key value with
  | Some (entry, chain') =>
      mret (HashMap (<[Z.to_nat idx := chain']> (buckets map)) (bucket_count map)
              (u64 (hm_len map - 1)), LIBBGP_OK, [(e_key entry, e_value entry)])
  | None => mret (map, LIBBGP_ERR_NOT_FOUND, [])
  end.

Fixpoint find_in_chain (chain : list bgp_hashmap_entry_t) (h : Z) (key : Key) : option Value :=
  match chain with
  | [] => None
  | entry :: next =>
      if entry_matches h key entry then Some (e_value entry) else find_in_chain next h key
  end.

(** [None] is the NULL of a missing key. *)
Definition bgp_hashmap_find_first (map : bgp_hashmap_t) (key : Key) : M (option Value) :=
  idx ← bucket_index (hash key) (bucket_count map);
  chain ← bucket_at (buckets map) idx;
  mret (find_in_chain chain (hash key) key).

Fixpoint count_in_chain (chain : list bgp_hashmap_entry_t) (h : Z) (key : Key) (count : Z) : Z :=
  match chain with
  | [] => count
  | entry :: next =>
      count_in_chain next h key (if entry_matches h key entry then count + 1 else count)
  end.

Definition bgp_hashmap_count_key (map : bgp_hashmap_t) (key : Key) : M Z :=
  idx ← bucket_index (hash key) (bucket_count map);
  chain ← bucket_at (buckets map) idx;
  mret (count_in_chain chain (hash key) key 0).

Definition bgp_hashmap_len (map : bgp_hashmap_t) : Z := hm_len map.

(** The visitor [fn] acts on its context [ctx] and says whether to go on. *)
Section Foreach.
Context {Ctx : Type} (fn : Key -> Value -> Ctx -> bool * Ctx).

Fixpoint foreach_chain (chain : list bgp_hashmap_entry_t) (ctx : Ctx) : bool * Ctx :=
  match chain with
  | [] => (true, ctx)
  | entry :: next =>
      let '(go, ctx') := fn (e_key entry) (e_value entry) ctx in
      if go then foreach_chain next ctx' else (false, ctx')
  end.

Fixpoint foreach_buckets (bs : list (list bgp_hashmap_entry_t)) (ctx : Ctx) : bool * Ctx :=
  match bs with
  | [] => (true, ctx)
  | chain :: bs' =>
      let '(go, ctx') := foreach_chain chain ctx in
      if go then foreach_buckets bs' ctx' else (false, ctx')
  end.

Definition bgp_hashmap_foreach (map : bgp_hashmap_t) (ctx : Ctx) : Ctx :=
  (foreach_buckets (buckets map) ctx).2.
End Foreach.
End Hashmap.
Arguments bgp_hashmap_entry_t : clear implicits.
Arguments bgp_hashmap_t : clear implicits.
