(* ===== verification/HashmapSpec.v ===== *)
(** * The hash map: refinement to a multimap

    The abstract state is the multiset of the (key, value) pairs, a list up to
    permutation; [multimap_step] is what an operation may do to it. *)

From S2P Require Import Prelude Hashmap.

Section Spec.
Context {Key Value : Type} `{!HashKey Key, !Pointer Value} (key_ok : Key -> Prop) `{!HashKeyLaws Key key_ok}.

Implicit Types (map : bgp_hashmap_t Key Value) (entry : bgp_hashmap_entry_t Key Value)
  (chain : list (bgp_hashmap_entry_t Key Value)) (bs : list (list (bgp_hashmap_entry_t Key Value))).

Definition pair_of entry : Key * Value := (e_key entry, e_value entry).

(** What the map holds, in the order of the buckets and chains. *)
Definition contents map : list (Key * Value) := pair_of <$> concat (buckets map).

(** ** The abstract multimap *)

Inductive hm_op : Type :=
  | OpInsert (k : Key) (v : Value)
  | OpRemove (k : Key) (v : option Value)
  | OpFind (k : Key)
  | OpCount (k : Key)
  | OpReserve (n : Z).

Inductive hm_answer : Type :=
  | AErr (e : libbgp_err_t) (freed : list (Key * Value))
  | AFind (v : option Value)
  | ACount (n : Z).

Definition key_is (k : Key) (p : Key * Value) : bool := key_eq p.1 k.
Definition pair_is (k : Key) (v : option Value) (p : Key * Value) : bool :=
  key_eq p.1 k && value_matches v p.2.

Inductive multimap_step (m : list (Key * Value)) : hm_op -> hm_answer -> list (Key * Value) -> Prop :=
  | step_insert k v m' :
      m' ≡ₚ (k, v) :: m → multimap_step m (OpInsert k v) (AErr LIBBGP_OK []) m'
  | step_insert_nomem k v m' :
      m' ≡ₚ m → multimap_step m (OpInsert k v) (AErr LIBBGP_ERR_NOMEM []) m'
  | step_remove k v p m' :
      pair_is k v p = true → m ≡ₚ p :: m' →
      multimap_step m (OpRemove k v) (AErr LIBBGP_OK [p]) m'
  | step_remove_missing k v :
      Forall (λ p, pair_is k v p = false) m →
      multimap_step m (OpRemove k v) (AErr LIBBGP_ERR_NOT_FOUND []) m
  | step_find k p :
      p ∈ m → key_is k p = true → multimap_step m (OpFind k) (AFind (Some p.2)) m
  | step_find_missing k :
      Forall (λ p, key_is k p = false) m → multimap_step m (OpFind k) (AFind None) m
  | step_count k :
      multimap_step m (OpCount k) (ACount (zlen (filter (λ p, key_is k p = true) m))) m
  | step_reserve n m' :
      m' ≡ₚ m → multimap_step m (OpReserve n) (AErr LIBBGP_OK []) m'
  | step_reserve_nomem n m' :
      m' ≡ₚ m → multimap_step m (OpReserve n) (AErr LIBBGP_ERR_NOMEM []) m'.

(** One call on the concrete map. *)
Definition hm_run map (op : hm_op) : M (bgp_hashmap_t Key Value * hm_answer) :=
  match op with
  | OpInsert k v => '(map', e) ← bgp_hashmap_insert map k v; mret (map', AErr e [])
  | OpRemove k v => '(map', e, freed) ← bgp_hashmap_remove_one map k v; mret (map', AErr e freed)
  | OpFind k => r ← bgp_hashmap_find_first map k; mret (map, AFind r)
  | OpCount k => n ← bgp_hashmap_count_key map k; mret (map, ACount n)
  | OpReserve n =>
      r ← try_call (bgp_hashmap_reserve map n);
      mret (match r with inl map' => (map', AErr LIBBGP_OK []) | inr e => (map, AErr e []) end)
  end.

(** ** The invariant *)

(** Every entry carries the hash of its key and is in the bucket it selects. *)
Definition hashed entry : Prop := key_ok (e_key entry) ∧ e_hash entry = hash (e_key entry).

Definition placed (count : Z) bs : Prop :=
  length bs = Z.to_nat count ∧
  ∀ i chain entry, bs !! i = Some chain → entry ∈ chain →
    hashed entry ∧ Z.of_nat i = e_hash entry mod count.

Definition pow2 (n : Z) : Prop := ∃ k, 4 <= k <= 60 ∧ n = 2 ^ k.

Record hm_inv map : Prop := {
  inv_pow2 : pow2 (bucket_count map);
  inv_placed : placed (bucket_count map) (buckets map);
  inv_len : hm_len map = zlen (concat (buckets map));
  inv_small : hm_len map < 2 ^ 62
}.

(** At most three entries for four buckets.  The operations of this file keep
    it; a client that links entries into the buckets itself may not. *)
Definition hm_load map : Prop := hm_len map <= hashmap_resize_threshold (bucket_count map).

Lemma pow2_bounds n : pow2 n → 16 <= n <= 2 ^ 60.
Proof.
  intros (k & Hk & ->). change 16 with (2 ^ 4). split; apply Z.pow_le_mono_r; lia.
Qed.

Lemma pow2_mod4 n : pow2 n → n mod 4 = 0.
Proof.
  intros (k & Hk & ->). replace k with (2 + (k - 2)) by lia. rewrite Z.pow_add_r by lia.
  rewrite Z.mul_comm. by apply Z_mod_mult.
Qed.

Lemma threshold_bounds n : pow2 n → 12 <= hashmap_resize_threshold n < n.
Proof.
  intros Hn. pose proof (pow2_bounds n Hn). unfold hashmap_resize_threshold.
  pose proof (Z_div_mod_eq_full n 4). pose proof (pow2_mod4 n Hn). lia.
Qed.

Lemma load_small map : hm_inv map → hm_load map → hm_len map < 2 ^ 61.
Proof.
  intros [Hc _ _ _] Hl. pose proof (threshold_bounds _ Hc). pose proof (pow2_bounds _ Hc).
  unfold hm_load in Hl. lia.
Qed.

Lemma is_power_of_two_pow2 n : pow2 n → hashmap_is_power_of_two n = true.
Proof.
  intros Hn. pose proof (pow2_bounds n Hn). unfold hashmap_is_power_of_two, u64.
  rewrite Z.mod_small by lia. destruct Hn as (k & Hk & ->).
  replace (2 ^ k - 1) with (Z.ones k) by (rewrite Z.ones_equiv; lia).
  rewrite Z.land_ones, Z_mod_same_full by lia.
  replace (2 ^ k =? 0) with false by lia. done.
Qed.

Lemma bucket_index_run h n s :
  pow2 n → bucket_index h n s = (Ret (h mod n), s).
Proof.
  intros Hn. unfold bucket_index. rewrite is_power_of_two_pow2 by done.
  pose proof (pow2_bounds n Hn). unfold u64. rewrite Z.mod_small by lia.
  destruct Hn as (k & Hk & ->).
  replace (2 ^ k - 1) with (Z.ones k) by (rewrite Z.ones_equiv; lia).
  by rewrite Z.land_ones by lia.
Qed.

Lemma bucket_at_run bs i chain s :
  0 <= i → bs !! Z.to_nat i = Some chain → bucket_at bs i s = (Ret chain, s).
Proof.
  intros Hi Hc. unfold bucket_at. rewrite Hc. by replace (0 <=? i) with true by lia.
Qed.

(** The bucket a key belongs to. *)
Lemma placed_bucket count bs h :
  pow2 count → placed count bs → ∃ chain, bs !! Z.to_nat (h mod count) = Some chain.
Proof.
  intros Hc [Hl _]. pose proof (pow2_bounds count Hc).
  pose proof (Z.mod_pos_bound h count ltac:(lia)).
  destruct (bs !! Z.to_nat (h mod count)) eqn:Hb; [by eauto|].
  apply lookup_ge_None in Hb. lia.
Qed.

(** One chain and the others. *)
Lemma concat_split bs i chain :
  bs !! i = Some chain →
  concat bs ≡ₚ chain ++ (concat (take i bs) ++ concat (drop (S i) bs)).
Proof.
  intros Hi. rewrite <-(take_drop_middle bs i chain Hi) at 1. rewrite concat_app. cbn [concat].
  by rewrite (Permutation_app_comm (concat _)), <-!(assoc_L (++)),
    (Permutation_app_comm (concat (drop _ _))).
Qed.

(** Replacing one chain of the table. *)
Lemma concat_insert bs i chain chain' :
  bs !! i = Some chain →
  ∃ rest, concat bs ≡ₚ chain ++ rest ∧ concat (<[i := chain']> bs) ≡ₚ chain' ++ rest.
Proof.
  intros Hi. pose proof (lookup_lt_Some _ _ _ Hi) as Hlt.
  exists (concat (take i bs) ++ concat (drop (S i) bs)). split; [by apply concat_split|].
  rewrite (concat_split _ i chain') by by apply list_lookup_insert_eq.
  by rewrite take_insert_ge, drop_insert_lt by lia.
Qed.

(** ** The operations on a well-formed table *)

Lemma placed_hashed count bs : placed count bs → Forall hashed (concat bs).
Proof.
  intros [_ Hp]. apply Forall_forall. intros entry (chain & Hc & He)%list_elem_of_In%in_concat.
  apply list_elem_of_In in Hc, He. apply list_elem_of_lookup in Hc as [i Hi].
  by destruct (Hp i chain entry Hi He).
Qed.

Lemma placed_insert count bs i chain chain' :
  placed count bs → bs !! i = Some chain →
  (∀ entry, entry ∈ chain' → entry ∈ chain ∨ hashed entry ∧ Z.of_nat i = e_hash entry mod count) →
  placed count (<[i := chain']> bs).
Proof.
  intros [Hl Hp] Hi Hc. split; [by rewrite length_insert|].
  intros j chain1 entry Hj He. destruct (decide (i = j)) as [<-|Hne].
  - rewrite list_lookup_insert_eq in Hj by by eapply lookup_lt_Some.
    injection Hj as <-. destruct (Hc entry He) as [H|H]; [by apply (Hp i chain)|done].
  - rewrite list_lookup_insert_ne in Hj by done. by apply (Hp j chain1).
Qed.

Lemma push_entry_run count bs entry s :
  pow2 count → placed count bs → hashed entry →
  ∃ bs', push_entry bs count entry s = (Ret bs', s) ∧ placed count bs' ∧
    concat bs' ≡ₚ entry :: concat bs.
Proof.
  intros Hc Hp He. pose proof (pow2_bounds count Hc).
  pose proof (Z.mod_pos_bound (e_hash entry) count ltac:(lia)) as Hm.
  destruct (placed_bucket count bs (e_hash entry) Hc Hp) as [chain Hb].
  unfold push_entry, mbind, M_bind. rewrite bucket_index_run, (bucket_at_run _ _ chain) by (done || lia).
  eexists. split; [done|]. split.
  - eapply placed_insert; [done..|]. intros e [->|?]%elem_of_cons; [|by left].
    right. split; [done|lia].
  - destruct (concat_insert bs _ chain (entry :: chain) Hb) as (rest & -> & ->). done.
Qed.

Lemma rehash_chain_run count bs chain s :
  pow2 count → placed count bs → Forall hashed chain →
  ∃ bs', rehash_chain bs count chain s = (Ret bs', s) ∧ placed count bs' ∧
    concat bs' ≡ₚ chain ++ concat bs.
Proof.
  intros Hc Hp Hh. revert bs Hp. induction Hh as [|entry chain He _ IH]; intros bs Hp; [by eexists|].
  cbn [rehash_chain]. unfold mbind, M_bind.
  destruct (push_entry_run count bs entry s Hc Hp He) as (bs1 & -> & Hp1 & Hperm).
  destruct (IH bs1 Hp1) as (bs2 & -> & Hp2 & Hperm2). eexists. split_and!; [done..|].
  rewrite Hperm2, Hperm. symmetry. apply Permutation_middle.
Qed.

Lemma rehash_buckets_run count bs old s :
  pow2 count → placed count bs → Forall hashed (concat old) →
  ∃ bs', rehash_buckets bs count old s = (Ret bs', s) ∧ placed count bs' ∧
    concat bs' ≡ₚ concat old ++ concat bs.
Proof.
  intros Hc. revert bs. induction old as [|chain old IH]; intros bs Hp Hh; [by eexists|].
  cbn [rehash_buckets concat] in *. apply Forall_app in Hh as [Hh1 Hh2]. unfold mbind, M_bind.
  destruct (rehash_chain_run count bs chain s Hc Hp Hh1) as (bs1 & -> & Hp1 & Hperm).
  destruct (IH bs1 Hp1 Hh2) as (bs2 & -> & Hp2 & Hperm2). eexists. split_and!; [done..|].
  by rewrite Hperm2, Hperm, !(assoc_L (++)), (Permutation_app_comm (concat old) chain).
Qed.

Lemma placed_fresh count : placed count (replicate (Z.to_nat count) []).
Proof.
  split; [by rewrite length_replicate|]. intros i chain entry Hi He.
  apply lookup_replicate in Hi as [-> _]. by apply elem_of_nil in He.
Qed.

Lemma concat_replicate_nil n : concat (replicate n (@nil (bgp_hashmap_entry_t Key Value))) = [].
Proof. by induction n. Qed.

Lemma alloc_buckets_run count s :
  0 <= count →
  let r := hashmap_alloc_buckets (Key := Key) (Value := Value) count s in
  (∃ s', r = (Ret (replicate (Z.to_nat count) []), s') ∧ count < 2 ^ 61 ∧ (s = [] → s' = [])) ∨
  (∃ s', r = (Err LIBBGP_ERR_NOMEM, s') ∧ (s ≠ [] ∨ 2 ^ 61 <= count) ∧ (s = [] → s' = [])).
Proof.
  intros Hc. cbv zeta. unfold hashmap_alloc_buckets.
  assert (Hm : SIZE_MAX / SIZEOF_POINTER = 2 ^ 61 - 1) by done. rewrite Hm.
  destruct (2 ^ 61 - 1 <? count) eqn:Hlt; unfold mbind, M_bind; cbn [fail_if].
  - right. eexists. split; [done|]. split; [lia|done].
  - destruct s as [|[] s]; cbn; [left|left|right]; eexists; (split; [done|]); (split; [lia|done]) || (split; [by left|done]).
Qed.

(** Growing the table keeps what it holds. *)
Lemma resize_run map k s :
  placed (bucket_count map) (buckets map) → 4 <= k <= 63 →
  let r := hashmap_resize map (2 ^ k) s in
  (∃ bs s', r = (Ret (HashMap bs (2 ^ k) (hm_len map)), s') ∧ pow2 (2 ^ k) ∧ placed (2 ^ k) bs ∧
     concat bs ≡ₚ concat (buckets map) ∧ (s = [] → s' = [])) ∨
  (∃ s', r = (Err LIBBGP_ERR_NOMEM, s') ∧ (s ≠ [] ∨ 61 <= k) ∧ (s = [] → s' = [])).
Proof.
  intros Hp Hk. cbv zeta. unfold hashmap_resize.
  assert (Hpos : 0 <= 2 ^ k) by (apply Z.pow_nonneg; lia).
  assert (Hpow : hashmap_is_power_of_two (2 ^ k) = true).
  { destruct (decide (k <= 60)); [apply is_power_of_two_pow2; exists k; lia|].
    assert (k = 61 ∨ k = 62 ∨ k = 63) as [->|[->| ->]] by lia; done. }
  rewrite Hpow. unfold mbind, M_bind. cbn [negb fail_if mret M_ret].
  destruct (alloc_buckets_run (2 ^ k) s Hpos) as [(s' & -> & Hlt & Hs)|(s' & -> & Hs & Hs')].
  - left. assert (Hk' : k < 61) by (apply (Z.pow_lt_mono_r_iff 2); lia).
    assert (Hp2 : pow2 (2 ^ k)) by (exists k; lia).
    destruct (rehash_buckets_run (2 ^ k) _ (buckets map) s' Hp2 (placed_fresh _))
      as (bs & Hr & Hpl & Hperm); [by eapply placed_hashed|].
    rewrite Hr. eexists _, _. split_and!; try done.
    by rewrite Hperm, concat_replicate_nil, app_nil_r.
  - right. eexists. split; [done|]. split; [|done]. destruct Hs as [?|Hge]; [by left|right].
    apply (Z.pow_le_mono_r_iff 2); lia.
Qed.

Lemma threshold_pow2 k : 2 <= k → hashmap_resize_threshold (2 ^ k) = 3 * 2 ^ (k - 2).
Proof.
  intros Hk. unfold hashmap_resize_threshold. replace k with (2 + (k - 2)) at 1 2 by lia.
  rewrite Z.pow_add_r by lia. change (2 ^ 2) with 4. rewrite Z.mul_comm, Z.div_mul by lia. lia.
Qed.

Lemma threshold_mono j k :
  2 <= j <= k → hashmap_resize_threshold (2 ^ j) <= hashmap_resize_threshold (2 ^ k).
Proof.
  intros H. rewrite !threshold_pow2 by lia. apply Z.mul_le_mono_nonneg_l; [lia|].
  apply Z.pow_le_mono_r; lia.
Qed.

(** The loop of [bgp_hashmap_reserve] finds the least table that is large
    enough, or there is none of 64 bits. *)
Lemma reserve_loop_run fuel k count s :
  4 <= k <= 63 → 63 <= k + Z.of_nat fuel →
  (∃ j, reserve_loop fuel (2 ^ k) count s = (Ret (2 ^ j), s) ∧ k <= j <= 63 ∧
     count <= hashmap_resize_threshold (2 ^ j) ∧
     (j = k ∨ hashmap_resize_threshold (2 ^ (j - 1)) < count)) ∨
  (reserve_loop fuel (2 ^ k) count s = (Err LIBBGP_ERR_NOMEM, s) ∧
     hashmap_resize_threshold (2 ^ 63) < count).
Proof.
  assert (Hmax : SIZE_MAX / 2 = 2 ^ 63 - 1) by done.
  revert k. induction fuel as [|fuel IH]; intros k Hk Hf; cbn [reserve_loop]; rewrite Hmax.
  - replace k with 63 by lia.
    destruct (hashmap_resize_threshold (2 ^ 63) <? count) eqn:Hlt; [right|left].
    + split; [done|lia].
    + exists 63. split_and!; [done|lia..].
  - destruct (hashmap_resize_threshold (2 ^ k) <? count) eqn:Hlt; [|left; exists k; split_and!; [done|lia..]].
    destruct (decide (k = 63)) as [->|Hne]; [right; split; [done|lia]|].
    assert (2 ^ k <= 2 ^ 62) by (apply Z.pow_le_mono_r; lia).
    replace (2 ^ 63 - 1 <? 2 ^ k) with false by lia.
    replace (2 ^ k * 2) with (2 ^ (k + 1)) by (rewrite Z.pow_add_r; lia).
    destruct (IH (k + 1)) as [(j & -> & Hj & Hc & Hmin)|[-> Hc]]; [lia..| |by right].
    left. exists j. split_and!; [done|lia|lia|done|]. right. destruct Hmin as [->|?]; [|done].
    replace (k + 1 - 1) with k by lia. lia.
Qed.

(** *** Lookups see the whole map in one chain *)

Lemma bucket_complete count bs k chain :
  key_ok k → pow2 count → placed count bs → bs !! Z.to_nat (hash k mod count) = Some chain →
  ∃ rest, concat bs ≡ₚ chain ++ rest ∧ Forall (λ entry, key_eq (e_key entry) k = false) rest.
Proof.
  intros Hk Hc [Hl Hp] Hb. pose proof (pow2_bounds count Hc).
  pose proof (Z.mod_pos_bound (hash k) count ltac:(lia)) as Hm. set (i := Z.to_nat _) in Hb.
  exists (concat (take i bs) ++ concat (drop (S i) bs)). split.
  - by apply concat_split.
  - assert (Hother : ∀ j chain' entry, j ≠ i → bs !! j = Some chain' → entry ∈ chain' →
      key_eq (e_key entry) k = false).
    { intros j chain' entry Hne Hj He. destruct (Hp j chain' entry Hj He) as [[Hok Hh] Hi].
      apply not_true_is_false. intros Heq%(key_eq_hash _ _ Hok Hk). apply Hne. unfold i. rewrite <-Heq, <-Hh, <-Hi.
      lia. }
    rewrite <-concat_app. apply Forall_forall.
    intros entry (chain' & Hin & He)%list_elem_of_In%in_concat. apply list_elem_of_In in Hin, He.
    apply elem_of_app in Hin as [Hin|Hin]; apply list_elem_of_lookup in Hin as [j Hj].
    + apply lookup_take_Some in Hj as [Hj Hlt]. eapply (Hother j); [lia|done..].
    + rewrite lookup_drop in Hj. eapply (Hother (S i + j)%nat); [lia|done..].
Qed.

Lemma entry_matches_key k entry :
  key_ok k → hashed entry → entry_matches (hash k) k entry = key_is k (pair_of entry).
Proof.
  intros Hk [Hok Hh]. unfold entry_matches, key_is, pair_of. cbn [fst].
  destruct (key_eq (e_key entry) k) eqn:Heq; [|by rewrite andb_false_r].
  rewrite Hh, (key_eq_hash _ _ Hok Hk Heq), Z.eqb_refl. done.
Qed.

Lemma find_in_chain_spec k chain :
  key_ok k → Forall hashed chain →
  match find_in_chain chain (hash k) k with
  | Some v => ∃ entry, entry ∈ chain ∧ key_is k (pair_of entry) = true ∧ e_value entry = v
  | None => Forall (λ entry, key_is k (pair_of entry) = false) chain
  end.
Proof.
  intros Hk. induction 1 as [|entry chain Hh _ IH]; cbn [find_in_chain]; [done|].
  rewrite entry_matches_key by done. destruct (key_is k (pair_of entry)) eqn:Heq.
  - exists entry. set_solver.
  - destruct (find_in_chain chain (hash k) k); [set_solver|by constructor].
Qed.

Lemma unlink_spec k v chain :
  key_ok k → Forall hashed chain →
  match unlink chain (hash k) k v with
  | Some (entry, chain') => chain ≡ₚ entry :: chain' ∧ pair_is k v (pair_of entry) = true
  | None => Forall (λ entry, pair_is k v (pair_of entry) = false) chain
  end.
Proof.
  intros Hk. induction 1 as [|entry chain Hh _ IH]; cbn [unlink]; [done|].
  rewrite entry_matches_key by done. change (_ && _) with (pair_is k v (pair_of entry)).
  destruct (pair_is k v (pair_of entry)) eqn:Heq; [done|].
  destruct (unlink chain (hash k) k v) as [[found chain']|]; [|by constructor].
  destruct IH as [-> ?]. split; [|done]. apply Permutation_swap.
Qed.

Lemma count_in_chain_spec k chain n :
  key_ok k → Forall hashed chain →
  count_in_chain chain (hash k) k n =
    n + zlen (filter (λ p, key_is k p = true) (pair_of <$> chain)).
Proof.
  intros Hk Hh. revert n. induction Hh as [|entry chain He _ IH]; intros n; [cbn; lia|].
  cbn [count_in_chain]. rewrite IH, entry_matches_key, fmap_cons, filter_cons by done.
  destruct (key_is k (pair_of entry)).
  - rewrite decide_True by done. cbn [length]. lia.
  - by rewrite decide_False.
Qed.

(** *** The invariant *)

Lemma init_run s :
  match bgp_hashmap_init (Key := Key) (Value := Value) s with
  | (Ret map, _) => hm_inv map ∧ hm_load map ∧ contents map = []
  | (Err e, _) => e = LIBBGP_ERR_NOMEM ∧ s ≠ []
  | _ => False
  end.
Proof.
  unfold bgp_hashmap_init, mbind, M_bind, BGP_HASHMAP_INITIAL_BUCKETS.
  change (hashmap_is_power_of_two 16) with true. cbn [negb fail_if mret M_ret].
  assert (Hp : pow2 16) by (exists 4; lia).
  destruct (alloc_buckets_run 16 s) as [(s' & -> & _ & _)|(s' & -> & [?|?] & _)]; [lia| |done|lia].
  cbn [mret M_ret]. split; [|split; [done|by unfold contents; cbn [buckets]; rewrite concat_replicate_nil]].
  split; cbn [bucket_count buckets hm_len]; [done|apply placed_fresh| |done].
  by rewrite concat_replicate_nil.
Qed.

Lemma inv_lookup map k :
  key_ok k → hm_inv map →
  ∃ chain rest, Forall hashed chain ∧
    buckets map !! Z.to_nat (hash k mod bucket_count map) = Some chain ∧
    concat (buckets map) ≡ₚ chain ++ rest ∧
    Forall (λ entry, key_eq (e_key entry) k = false) rest ∧
    ∀ s, bucket_index (hash k) (bucket_count map) s = (Ret (hash k mod bucket_count map), s) ∧
         bucket_at (buckets map) (hash k mod bucket_count map) s = (Ret chain, s).
Proof.
  intros Hk [Hc Hp _ _]. destruct (placed_bucket _ _ (hash k) Hc Hp) as [chain Hb].
  destruct (bucket_complete _ _ _ _ Hk Hc Hp Hb) as (rest & Hperm & Hrest).
  pose proof (pow2_bounds _ Hc). pose proof (Z.mod_pos_bound (hash k) (bucket_count map) ltac:(lia)).
  exists chain, rest. split_and!; try done.
  - apply placed_hashed in Hp. rewrite Hperm in Hp. by apply Forall_app in Hp as [? _].
  - intros s. by rewrite bucket_index_run, (bucket_at_run _ _ chain) by (done || lia).
Qed.

(** The key an operation is given. *)
Definition op_ok (op : hm_op) : Prop :=
  match op with
  | OpInsert k _ | OpRemove k _ | OpFind k | OpCount k => key_ok k
  | OpReserve _ => True
  end.

(** The requests the largest table can serve. *)
Definition hm_fits map (op : hm_op) : Prop :=
  match op with
  | OpInsert _ _ => hm_len map < hashmap_resize_threshold (2 ^ 60)
  | OpReserve n => n <= hashmap_resize_threshold (2 ^ 60)
  | _ => True
  end.

(** The map may take one more entry. *)
Definition hm_room map (op : hm_op) : Prop :=
  match op with OpInsert _ _ => hm_len map < 2 ^ 61 | _ => True end.

(** What every operation is proved to do. *)
Definition refines_step map (op : hm_op) (s : list bool) : Prop :=
  ∃ map' a s', hm_run map op s = (Ret (map', a), s') ∧ hm_inv map' ∧
    (hm_load map → hm_load map') ∧ multimap_step (contents map) op a (contents map') ∧
    (a = AErr LIBBGP_ERR_NOMEM [] → hm_fits map op → s ≠ []) ∧ (s = [] → s' = []).

(** A lookup allocates nothing. *)
Lemma find_run map k :
  key_ok k → hm_inv map → ∃ r, ∀ s, bgp_hashmap_find_first map k s = (Ret r, s).
Proof.
  intros Hk Hi. destruct (inv_lookup map k Hk Hi) as (chain & rest & _ & _ & _ & _ & Hrun).
  exists (find_in_chain chain (hash k) k). intros s. destruct (Hrun s) as [H1 H2].
  unfold bgp_hashmap_find_first, mbind, M_bind. by rewrite H1, H2.
Qed.

Lemma find_refines map k s : key_ok k → hm_inv map → refines_step map (OpFind k) s.
Proof.
  intros Hk Hi. destruct (inv_lookup map k Hk Hi) as (chain & rest & Hh & _ & Hperm & Hrest & Hrun).
  destruct (Hrun s) as [H1 H2]. pose proof (find_in_chain_spec k chain Hk Hh) as Hf.
  unfold refines_step. cbn [hm_run]. unfold bgp_hashmap_find_first, mbind, M_bind. rewrite H1, H2.
  eexists _, _, _. split; [done|]. split; [done|]. split; [done|]. split; [|done].
  destruct (find_in_chain chain (hash k) k) as [v|].
  - destruct Hf as (entry & Hin & Hm & <-). apply (step_find _ k (pair_of entry)); [|done].
    apply list_elem_of_fmap. exists entry. split; [done|]. rewrite Hperm. set_solver.
  - apply step_find_missing, Forall_fmap. rewrite Hperm. by apply Forall_app.
Qed.

Lemma count_refines map k s : key_ok k → hm_inv map → refines_step map (OpCount k) s.
Proof.
  intros Hk Hi. destruct (inv_lookup map k Hk Hi) as (chain & rest & Hh & _ & Hperm & Hrest & Hrun).
  destruct (Hrun s) as [H1 H2].
  unfold refines_step. cbn [hm_run]. unfold bgp_hashmap_count_key, mbind, M_bind. rewrite H1, H2.
  eexists _, _, _. split; [done|]. split; [done|]. split; [done|]. split; [|done].
  rewrite count_in_chain_spec, Z.add_0_l by done.
  replace (length (filter _ (pair_of <$> chain)))
    with (length (filter (λ p, key_is k p = true) (contents map))); [constructor|].
  apply Permutation_length. unfold contents. rewrite Hperm, fmap_app, filter_app.
  rewrite (filter_none _ (pair_of <$> rest)), app_nil_r; [done|].
  apply Forall_fmap. eapply Forall_impl; [exact Hrest|]. intros entry He. cbn.
  unfold key_is, pair_of. cbn [fst]. by rewrite He.
Qed.

Lemma remove_refines map k v s : key_ok k → hm_inv map → refines_step map (OpRemove k v) s.
Proof.
  intros Hk Hi. destruct (inv_lookup map k Hk Hi) as (chain & rest & Hh & Hb & Hperm & Hrest & Hrun).
  destruct (Hrun s) as [H1 H2]. pose proof (unlink_spec k v chain Hk Hh) as Hu.
  unfold refines_step. cbn [hm_run]. unfold bgp_hashmap_remove_one, mbind, M_bind. rewrite H1, H2.
  destruct (unlink chain (hash k) k v) as [[entry chain']|]; cbn [mret M_ret];
    eexists _, _, _; (split; [done|]).
  - destruct Hu as [Hu Hm]. destruct Hi as [Hc Hp Hl Hld]. pose proof (threshold_bounds _ Hc).
    pose proof (pow2_bounds _ Hc).
    destruct (concat_insert _ _ chain chain' Hb) as (rest' & Hperm1 & Hperm2).
    assert (Hconcat : concat (buckets map) ≡ₚ
      entry :: concat (<[Z.to_nat (hash k mod bucket_count map) := chain']> (buckets map))).
    { by rewrite Hperm1, Hperm2, Hu. }
    assert (Hlen : u64 (hm_len map - 1) =
      zlen (concat (<[Z.to_nat (hash k mod bucket_count map) := chain']> (buckets map)))).
    { rewrite Hl. apply Permutation_length in Hconcat. cbn [length] in Hconcat. unfold u64.
      rewrite Z.mod_small; lia. }
    split; [split; cbn [bucket_count buckets hm_len]; try done|].
    + eapply placed_insert; [done..|]. intros e He. left. rewrite Hu. set_solver.
    + rewrite Hlen. apply Permutation_length in Hconcat. cbn [length] in Hconcat. lia.
    + split; [unfold hm_load; cbn [bucket_count hm_len]; apply Permutation_length in Hconcat; cbn [length] in Hconcat; lia|].
      split; [|done]. apply (step_remove _ k v (pair_of entry)); [done|]. unfold contents. cbn [buckets].
      by rewrite Hconcat.
  - split; [done|]. split; [done|]. split; [|done]. apply step_remove_missing, Forall_fmap. rewrite Hperm.
    apply Forall_app. split; [done|]. eapply Forall_impl; [exact Hrest|]. intros e He. cbn.
    unfold pair_is, pair_of. cbn [fst]. by rewrite He.
Qed.

(** Room for one more entry: the table as it is, or one of twice the size. *)
Definition insert_room map : M (bgp_hashmap_t Key Value) :=
  if hashmap_resize_threshold (bucket_count map) <=? hm_len map then
    fail_if (SIZE_MAX / 2 <? bucket_count map) LIBBGP_ERR_NOMEM;;
    hashmap_resize map (bucket_count map * 2)
  else mret map.

Lemma insert_room_run map s :
  hm_inv map →
  (∃ map1 s', insert_room map s = (Ret map1, s') ∧ hm_inv map1 ∧ contents map1 ≡ₚ contents map ∧
     hm_len map1 = hm_len map ∧
     (hm_load map → hm_len map1 < hashmap_resize_threshold (bucket_count map1)) ∧ (s = [] → s' = [])) ∨
  (∃ s', insert_room map s = (Err LIBBGP_ERR_NOMEM, s') ∧
     (s ≠ [] ∨ hashmap_resize_threshold (2 ^ 60) <= hm_len map) ∧ (s = [] → s' = [])).
Proof.
  intros Hi. pose proof Hi as [(k & Hk & Hc) Hp Hl Hld]. unfold insert_room.
  destruct (_ <=? _) eqn:Hle; [|left; eexists _, _; split_and!; [done..|unfold hm_load; lia|done]].
  assert (2 ^ k <= 2 ^ 60) by (apply Z.pow_le_mono_r; lia).
  assert (Hmax : SIZE_MAX / 2 = 2 ^ 63 - 1) by done. rewrite Hmax.
  replace (2 ^ 63 - 1 <? bucket_count map) with false by lia.
  unfold mbind, M_bind, hm_load. cbn [fail_if mret M_ret]. rewrite Hc in Hle |- *.
  replace (2 ^ k * 2) with (2 ^ (k + 1)) by (rewrite Z.pow_add_r; lia).
  destruct (resize_run map (k + 1) s Hp) as [(bs & s' & -> & Hp2 & Hpl & Hperm & Hs)|(s' & -> & Hs & Hs')]; [lia|left|right].
  - eexists _, _. split; [done|]. split_and!; try done.
    + split; cbn [bucket_count buckets hm_len]; [done..| |done]. by rewrite Hperm.
    + unfold contents. cbn [buckets]. by rewrite Hperm.
    + cbn [bucket_count hm_len]. rewrite !threshold_pow2 by lia.
      replace (k + 1 - 2) with (k - 2 + 1) by lia. rewrite Z.pow_add_r by lia. lia.
  - eexists. split; [done|]. split; [|done]. destruct Hs as [?|Hs]; [by left|right].
    replace k with 60 in * by lia. lia.
Qed.

Lemma insert_refines map k v s : key_ok k → hm_inv map → hm_len map < 2 ^ 61 → refines_step map (OpInsert k v) s.
Proof.
  intros Hk Hi Hroom. unfold refines_step. cbn [hm_run]. unfold bgp_hashmap_insert.
  change (if hashmap_resize_threshold _ <=? _ then _ else _) with (insert_room map).
  unfold mbind, M_bind, try_call.
  destruct (insert_room_run map s Hi) as [(map1 & s1 & -> & Hi1 & Hperm & Hsame & Hlt & Hs)|(s1 & -> & Hs & Hs1)].
  - assert (Hload : hm_load map → hm_load map1) by (intros Hl; specialize (Hlt Hl); unfold hm_load; lia).
    assert (Hgo : ∀ s2, ∃ bs, push_entry (buckets map1) (bucket_count map1) (HashEntry k v (hash k)) s2
        = (Ret bs, s2) ∧
      hm_inv (HashMap bs (bucket_count map1) (u64 (hm_len map1 + 1))) ∧
      (hm_load map → hm_load (HashMap bs (bucket_count map1) (u64 (hm_len map1 + 1)))) ∧
      contents (HashMap bs (bucket_count map1) (u64 (hm_len map1 + 1))) ≡ₚ (k, v) :: contents map).
    { intros s2. destruct Hi1 as [Hc1 Hp1 Hl1 Hld1].
      destruct (push_entry_run _ _ (HashEntry k v (hash k)) s2 Hc1 Hp1 (conj Hk eq_refl)) as (bs & -> & Hpb & Hb).
      pose proof (threshold_bounds _ Hc1). pose proof (pow2_bounds _ Hc1).
      assert (Hlen : u64 (hm_len map1 + 1) = zlen (concat bs)).
      { rewrite (Permutation_length Hb), Hl1. cbn [length]. unfold u64. rewrite Z.mod_small; lia. }
      exists bs. split; [done|]. split.
      - split; cbn [bucket_count buckets hm_len]; try done.
        rewrite Hlen, (Permutation_length Hb). cbn [length]. lia.
      - split; [intros Hl; specialize (Hlt Hl); unfold hm_load; cbn [bucket_count hm_len]; unfold u64; rewrite Z.mod_small; lia|].
        unfold contents at 1. cbn [buckets]. rewrite Hb, <-Hperm. done. }
    destruct (bgp_alloc s1) as [[[] | |] s2] eqn:Ha; cbn [negb]; try by destruct s1 as [|[]].
    + destruct (Hgo s2) as (bs & -> & Hinv & Hld & Hcon). eexists _, _, _. split; [done|].
      split_and!; [done|done|by apply step_insert|done|]. intros ->. rewrite Hs in Ha by done.
      by injection Ha.
    + eexists _, _, _. split; [done|]. split_and!; [done|done|by apply step_insert_nomem|..].
      * intros _ _ ->. rewrite Hs in Ha by done. done.
      * intros ->. rewrite Hs in Ha by done. by injection Ha.
  - eexists _, _, _. split; [done|]. split_and!; [done|done|by apply step_insert_nomem| |done].
    cbn [hm_fits]. intros _ Hf. destruct Hs; [done|lia].
Qed.

Lemma reserve_refines map n s : hm_inv map → refines_step map (OpReserve n) s.
Proof.
  intros Hi. pose proof Hi as [Hc Hp Hl Hld]. unfold refines_step. cbn [hm_run].
  unfold bgp_hashmap_reserve, try_call, mbind, M_bind. rewrite is_power_of_two_pow2 by done.
  cbn [negb fail_if mret M_ret].
  destruct (n <=? hashmap_resize_threshold (bucket_count map)) eqn:Hle.
  { eexists _, _, _. split; [done|]. split_and!; [done|done|by apply step_reserve|done..]. }
  destruct Hc as (k & Hk & Hc). unfold hm_load. rewrite Hc in Hle |- *.
  destruct (reserve_loop_run DOUBLE_FUEL k n s) as [(j & -> & Hj & Hn & Hmin)|[-> Hn]].
  1, 2: unfold DOUBLE_FUEL; lia.
  - destruct (resize_run map j s Hp) as [(bs & s' & -> & Hp2 & Hpl & Hperm & Hs)|(s' & -> & Hs & Hs')]; [lia|..];
      eexists _, _, _; (split; [done|]).
    + split_and!; [split; cbn [bucket_count buckets hm_len]; try done| |apply step_reserve|done..].
      * by rewrite Hperm.
      * cbn [bucket_count hm_len]. pose proof (threshold_mono k j). lia.
      * unfold contents. cbn [buckets]. by rewrite Hperm.
    + split_and!; [done|by rewrite Hc|by apply step_reserve_nomem| |done]. cbn [hm_fits]. intros _ Hf.
      destruct Hs as [?|Hs]; [done|]. destruct Hmin as [->|Hmin]; [lia|].
      pose proof (threshold_mono 60 (j - 1)). lia.
  - eexists _, _, _. split; [done|]. split_and!; [done|by rewrite Hc|by apply step_reserve_nomem| |done].
    cbn [hm_fits]. intros _ Hf. pose proof (threshold_mono 60 63). lia.
Qed.

(** Destroying the map hands every entry to [free_entry] once; a visitor that
    never stops sees every entry once. *)
Lemma destroy_contents map : bgp_hashmap_destroy map = contents map.
Proof.
  unfold bgp_hashmap_destroy, contents. induction (buckets map) as [|chain bs IH]; [done|].
  cbn [flat_map concat]. by rewrite IH, fmap_app.
Qed.

Lemma foreach_contents {Ctx} (fn : Key -> Value -> Ctx -> Ctx) map ctx :
  bgp_hashmap_foreach (λ k v ctx, (true, fn k v ctx)) map ctx =
    foldl (λ ctx p, fn p.1 p.2 ctx) ctx (contents map).
Proof.
  unfold bgp_hashmap_foreach, contents. revert ctx.
  induction (buckets map) as [|chain bs IH]; intros ctx; [done|].
  assert (Hc : ∀ ctx, foreach_chain (λ k v ctx, (true, fn k v ctx)) chain ctx =
    (true, foldl (λ ctx p, fn p.1 p.2 ctx) ctx (pair_of <$> chain))).
  { clear. induction chain as [|entry chain IH]; intros ctx; [done|]. cbn. apply IH. }
  cbn [foreach_buckets concat]. rewrite Hc, fmap_app, foldl_app. apply IH.
Qed.

Lemma all_refine map op s : op_ok op → hm_inv map → hm_room map op → refines_step map op s.
Proof.
  destruct op; intros Hk Hi Hr; auto using insert_refines, remove_refines, find_refines,
    count_refines, reserve_refines.
Qed.

(** *** The operations as their clients see them *)

Lemma runs_hm R map op :
  op_ok op → hm_inv map → hm_room map op →
  runs R (hm_run map op) (λ r, hm_inv r.1 ∧ multimap_step (contents map) op r.2 (contents r.1) ∧
    (r.2 = AErr LIBBGP_ERR_NOMEM [] → hm_fits map op → R = false)).
Proof.
  intros Hk Hi Hr s Hs. destruct (all_refine map op s Hk Hi Hr) as (map' & a & s' & He & Hi' & _ & Hm & Hn & Hs').
  exists (map', a), s'. split; [done|]. split; [|by auto]. split_and!; [done..|].
  intros Ha Hf. destruct R; [|done]. specialize (Hs eq_refl). specialize (Hn Ha Hf). done.
Qed.

Lemma runs_find R map k :
  key_ok k → hm_inv map →
  runs R (bgp_hashmap_find_first map k) (λ r,
    match r with
    | Some v => ∃ k', (k', v) ∈ contents map ∧ key_eq k' k = true
    | None => Forall (λ p, key_is k p = false) (contents map)
    end).
Proof.
  intros Hk Hi. eapply runs_mono; [apply (runs_bind_ret _ _ (λ r, (map, AFind r)) _ (runs_hm R map (OpFind k) Hk Hi I))|].
  cbn beta. intros r (_ & Hm & _). cbn [fst snd] in Hm. inversion Hm; subst; [|done].
  destruct p as [k' v]. eauto.
Qed.

Lemma runs_insert R map k v :
  key_ok k → hm_inv map → zlen (contents map) < 2 ^ 59 →
  runs R (bgp_hashmap_insert map k v) (λ r, hm_inv r.1 ∧
    (r.2 = LIBBGP_OK ∧ contents r.1 ≡ₚ (k, v) :: contents map ∨
     r.2 = LIBBGP_ERR_NOMEM ∧ contents r.1 ≡ₚ contents map ∧
       R = false)).
Proof.
  intros Hk Hi Hf. assert (Hl : hm_len map = zlen (contents map)).
  { unfold contents. rewrite length_fmap. apply Hi. }
  eapply runs_mono; [apply (runs_bind_ret _ _ (λ r, (r.1, AErr r.2 [])))|].
  { eapply runs_ext; [|exact (runs_hm R map (OpInsert k v) Hk Hi ltac:(cbn [hm_room]; lia))]. intros s. cbn [hm_run].
    unfold mbind, M_bind. by destruct (bgp_hashmap_insert map k v s) as [[[]| |] ?]. }
  cbn beta. intros [map' e] (Hi' & Hm & Hn). cbn [fst snd] in *. split; [done|].
  inversion Hm; subst; [by left|right]. split_and!; [done..|]. apply Hn; [done|].
  cbn [hm_fits]. rewrite Hl. assert (2 ^ 59 < hashmap_resize_threshold (2 ^ 60)) by done. lia.
Qed.

Lemma runs_remove R map k v :
  key_ok k → hm_inv map →
  runs R (bgp_hashmap_remove_one map k v) (λ r, hm_inv r.1.1 ∧
    ((∃ p, r.1.2 = LIBBGP_OK ∧ r.2 = [p] ∧ pair_is k v p = true ∧
        contents map ≡ₚ p :: contents r.1.1) ∨
     r.1.2 = LIBBGP_ERR_NOT_FOUND ∧ r.2 = [] ∧ contents r.1.1 = contents map ∧
       Forall (λ p, pair_is k v p = false) (contents map))).
Proof.
  intros Hk Hi. eapply runs_mono; [apply (runs_bind_ret _ _ (λ r, (r.1.1, AErr r.1.2 r.2)))|].
  { eapply runs_ext; [|exact (runs_hm R map (OpRemove k v) Hk Hi I)]. intros s. cbn [hm_run].
    unfold mbind, M_bind. by destruct (bgp_hashmap_remove_one map k v s) as [[[[]]| |] ?]. }
  cbn beta. intros [[map' e] freed] (Hi' & Hm & Hn). cbn [fst snd] in *. split; [done|].
  inversion Hm; subst; [left; eauto|by right].
Qed.

Lemma runs_init R :
  runs R (try_call (bgp_hashmap_init (Key := Key) (Value := Value))) (λ r,
    match r with
    | inl map => hm_inv map ∧ hm_load map ∧ contents map = []
    | inr e => e = LIBBGP_ERR_NOMEM ∧ R = false
    end).
Proof.
  intros s Hs. pose proof (init_run s) as H. unfold try_call.
  destruct (bgp_hashmap_init s) as [[map|e|f] t] eqn:He; [| |done].
  - eexists _, _. split; [done|]. split; [done|]. intros HR. rewrite (Hs HR) in He.
    vm_compute in He. by injection He.
  - eexists _, _. split; [done|]. destruct H as [-> Hn]. destruct R; [by rewrite Hs in Hn|].
    split; done.
Qed.

(** Every entry that is stored has a key the client may use. *)
Lemma contents_ok map k v : hm_inv map → (k, v) ∈ contents map → key_ok k.
Proof.
  intros [_ Hp _ _] Hin. apply placed_hashed in Hp. rewrite Forall_forall in Hp.
  apply list_elem_of_fmap in Hin as (entry & [= -> ->] & He). by apply Hp.
Qed.

(** ** Properties *)

(** C35: The hash map is a multimap.  A fresh map is empty; on a well-formed map
    every operation terminates without a fault, keeps the map well-formed
    (every entry in the bucket of its hash, a power of two of buckets, at most
    three quarters as many entries as buckets), and answers as the operation
    on the multiset of pairs does: insertion adds the pair, removal takes out
    one matching pair and hands exactly it to [free_entry], lookups and counts
    see all pairs with an equal key, growing changes nothing.  NOMEM is
    answered only when the allocator refused or the table would exceed 2^60
    buckets; destroying the map frees each of its pairs once. *)
Theorem hashmap_refines_multimap :
  (∀ s, match bgp_hashmap_init (Key := Key) (Value := Value) s with
        | (Ret map, _) => hm_inv map ∧ hm_load map ∧ contents map = []
        | (Err e, _) => e = LIBBGP_ERR_NOMEM ∧ s ≠ []
        | _ => False
        end) ∧
  (∀ map op s, op_ok op → hm_inv map → hm_load map → refines_step map op s) ∧
  (∀ map, bgp_hashmap_destroy map = contents map).
Proof.
  split_and!; [exact init_run| |exact destroy_contents].
  intros map op s Hk Hi Hl. apply all_refine; [done..|]. destruct op; try done. by apply load_small.
Qed.
End Spec.

(** ** Witness *)

#[local] Instance int_key : HashKey Z := {| hash k := u64 (k * 2654435761); key_eq := Z.eqb |}.
#[local] Instance int_key_laws : HashKeyLaws Z (λ _, True).
Proof. intros k k' _ _ ->%Z.eqb_eq. done. Qed.
#[local] Instance int_pointer : Pointer Z := Z.eqb.

(** Thirteen insertions grow the table of 16 buckets; the later lookups and the
    removal see all of them. *)
Lemma hashmap_refines_multimap_witness :
  ∃ map map', 
    ((bgp_hashmap_init ≫= λ map0, foldl (λ m k, map ← m; r ← bgp_hashmap_insert map k (k * 10); mret r.1)
        (mret map0) [1; 2; 3; 4; 5; 6; 7; 8; 9; 10; 11; 12; 12]) [] = (Ret map, [])) ∧
    bucket_count map = 32 ∧ hm_run map (OpRemove 12 None) [] = (Ret (map', AErr LIBBGP_OK [(12, 120)]), []) ∧
    hm_run map' (OpCount 12) [] = (Ret (map', ACount 1), []) ∧
    refines_step (λ _, True) map' (OpFind 12) [].
Proof.
  eexists _, _. split; [vm_compute; reflexivity|]. split; [reflexivity|].
  split; [vm_compute; reflexivity|]. split; [vm_compute; reflexivity|].
  apply (proj1 (proj2 (hashmap_refines_multimap (Key := Z) (Value := Z) (λ _, True)))); [done| |vm_compute; discriminate].
  split.
  - exists 5. split; [lia|reflexivity].
  - split; [reflexivity|]. intros i chain entry Hi He.
    repeat (destruct i as [|i]; [injection Hi as <-; repeat (apply elem_of_cons in He as [->|He];
      [split; [by split|reflexivity]|]); by apply elem_of_nil in He|]). done.
  - reflexivity.
  - reflexivity.
Defined.
