(* ===== verification/Rib.v ===== *)
(** * Routing tables: data, decision process, indexes (src/rib4.c, src/rib6.c)

    The two files are the same code for two address families, so the operations
    are written once over the class [Family] and instantiated twice.

    A table keeps every route in the hash map [routes], keyed by its prefix, and
    two indexes of it: [sources] lists the routes of a peer, [lpm_groups] the
    routes of a (normalised) prefix with the best of them, which is also the
    value of that prefix in the radix tree [lpm_tree].

    Pointers.  A stored route never changes, so a route pointer is the route
    together with the address of its block, and pointers are compared by
    address; a hash map entry holds one route for its whole life, so entries are
    compared by the address of their route.  The objects of the two indexes do
    change: they live in the memories [src_mem] and [grp_mem], and following a
    pointer that is not allocated is a fault. *)

From stdpp Require Import gmap.
From S2P Require Import Prelude Bytes Prefix4 Prefix6 Radix Pattr As4 Hashmap.

(** ** Address families *)

Class Family : Type := {
  Prefix : Type;
  Addr : Type;
  NextHop : Type;
  prefix_addr : Prefix -> Addr;
  prefix_len : Prefix -> Z;
  sizeof_prefix : Z;
  sizeof_route : Z;
  width : Z;
  radix_bit : Addr -> Z -> bool;
  prefix_eq : Prefix -> Prefix -> bool;
  rib_hash : Prefix -> Z;
  rib_lpm_normalize_prefix : Prefix -> Prefix;
  rib_addr_matches : Prefix -> Addr -> bool
}.

Definition hash_u64_mix (x : Z) : Z :=
  let x := Z.lxor x (Z.shiftr x 33) in
  let x := u64 (x * 0xff51afd7ed558ccd) in
  let x := Z.lxor x (Z.shiftr x 33) in
  let x := u64 (x * 0xc4ceb9fe1a85ec53) in
  Z.lxor x (Z.shiftr x 33).

Definition rib_source_hash (source_router_id : Z) : Z := hash_u64_mix source_router_id.

Section Families.
Context {host : Host}.

Definition rib4_hash (p : libbgp_prefix4_t) : Z :=
  hash_u64_mix (Z.lxor (p4_addr p) (u64 (Z.shiftl (p4_len p) 32))).

Definition rib4_lpm_normalize_prefix (p : libbgp_prefix4_t) : libbgp_prefix4_t :=
  if 32 <? p4_len p then Prefix4 0 0
  else Prefix4 (Z.land (p4_addr p) (libbgp_cidr_to_mask (p4_len p))) (p4_len p).

Definition rib4_addr_matches (p : libbgp_prefix4_t) (dest : Z) : bool :=
  if 32 <? p4_len p then false
  else
    let mask := libbgp_cidr_to_mask (p4_len p) in
    Z.land dest mask =? Z.land (p4_addr p) mask.

Definition rib6_hash (p : libbgp_prefix6_t) : Z :=
  hash_u64_mix (foldl (λ h b, u64 (Z.lxor h b * 1099511628211)) (p6_len p) (p6_addr p)).

Definition rib6_lpm_normalize_prefix (p : libbgp_prefix6_t) : libbgp_prefix6_t :=
  if 128 <? p6_len p then Prefix6 (replicate 16 0) 0
  else Prefix6 (zip_with Z.land (p6_addr p) (libbgp_cidr6_to_mask (p6_len p))) (p6_len p).

Definition rib6_addr_matches (p : libbgp_prefix6_t) (dest : list Z) : bool :=
  if 128 <? p6_len p then false
  else
    let mask := libbgp_cidr6_to_mask (p6_len p) in
    forallb (λ '(a, d, m), Z.land a m =? Z.land d m) (zip (zip (p6_addr p) dest) mask).

Definition family4 : Family := {|
  Prefix := libbgp_prefix4_t;
  Addr := Z;
  NextHop := Z;
  prefix_addr := p4_addr;
  prefix_len := p4_len;
  sizeof_prefix := 8;
  sizeof_route := 80;
  width := 32;
  radix_bit := bgp_radix4_bit;
  prefix_eq := libbgp_prefix4_eq;
  rib_hash := rib4_hash;
  rib_lpm_normalize_prefix := rib4_lpm_normalize_prefix;
  rib_addr_matches := rib4_addr_matches
|}.

(** The next hop of an IPv6 route: the global and the link-local address. *)
Definition family6 : Family := {|
  Prefix := libbgp_prefix6_t;
  Addr := list Z;
  NextHop := list Z * list Z;
  prefix_addr := p6_addr;
  prefix_len := p6_len;
  sizeof_prefix := 17;
  sizeof_route := 120;
  width := 128;
  radix_bit := bgp_radix6_bit;
  prefix_eq := libbgp_prefix6_eq;
  rib_hash := rib6_hash;
  rib_lpm_normalize_prefix := rib6_lpm_normalize_prefix;
  rib_addr_matches := rib6_addr_matches
|}.
End Families.

(** Keys of the three maps. *)
#[export] Instance rib_key `{Family} : HashKey Prefix := {| hash := rib_hash; key_eq := prefix_eq |}.
#[export] Instance rib_source_key : HashKey Z := {| hash := rib_source_hash; key_eq := Z.eqb |}.

(** ** Data *)

Section Rib.
Context `{family : Family} {host : Host}.

Record libbgp_rib_route_t : Type := RibRoute {
  rr_prefix : Prefix;
  rr_source_router_id : Z;
  rr_next_hop : NextHop;
  rr_weight : Z;
  rr_is_ibgp : bool;
  rr_local_pref : Z;
  rr_med : Z;
  rr_origin : Z;
  rr_as_path_len : Z;
  rr_origin_as : Z;
  rr_update_id : Z;
  rr_attrs : list libbgp_pattr_t
}.

(** A pointer to a stored route. *)
Record route_ptr : Type := RoutePtr { ro_addr : Z; ro_route : libbgp_rib_route_t }.

#[export] Instance route_pointer : Pointer route_ptr := λ p q, ro_addr p =? ro_addr q.
#[export] Instance object_pointer : Pointer Z := Z.eqb.

Abbreviation entry_ptr := (bgp_hashmap_entry_t Prefix route_ptr).

(** [entry == entry'] *)
Definition same_entry (e e' : entry_ptr) : bool := same_ptr (e_value e) (e_value e').

(** [count] is the length of [entries]. *)
Record rib_source_entry_t : Type := SourceEntry {
  se_source_router_id : Z;
  se_entries : list entry_ptr;
  se_cap : Z
}.

Record rib_lpm_entry_t : Type := LpmEntry {
  ge_prefix : Prefix;
  ge_entries : list entry_ptr;
  ge_cap : Z;
  ge_best : option route_ptr
}.

Record rib_impl_t : Type := RibImpl {
  ri_routes : bgp_hashmap_t Prefix route_ptr;
  ri_sources : bgp_hashmap_t Z Z;
  ri_lpm_groups : bgp_hashmap_t Prefix Z;
  ri_lpm_tree : radix_tree route_ptr;
  ri_next_update_id : Z;
  ri_src_mem : gmap Z rib_source_entry_t;
  ri_grp_mem : gmap Z rib_lpm_entry_t;
  ri_next_addr : Z
}.

Definition set_routes (impl : rib_impl_t) routes : rib_impl_t :=
  RibImpl routes (ri_sources impl) (ri_lpm_groups impl) (ri_lpm_tree impl)
    (ri_next_update_id impl) (ri_src_mem impl) (ri_grp_mem impl) (ri_next_addr impl).
Definition set_sources (impl : rib_impl_t) sources src_mem : rib_impl_t :=
  RibImpl (ri_routes impl) sources (ri_lpm_groups impl) (ri_lpm_tree impl)
    (ri_next_update_id impl) src_mem (ri_grp_mem impl) (ri_next_addr impl).
Definition set_groups (impl : rib_impl_t) groups grp_mem tree : rib_impl_t :=
  RibImpl (ri_routes impl) (ri_sources impl) groups tree
    (ri_next_update_id impl) (ri_src_mem impl) grp_mem (ri_next_addr impl).
Definition set_next_update_id (impl : rib_impl_t) id : rib_impl_t :=
  RibImpl (ri_routes impl) (ri_sources impl) (ri_lpm_groups impl) (ri_lpm_tree impl)
    id (ri_src_mem impl) (ri_grp_mem impl) (ri_next_addr impl).

(** The address of a new object. *)
Definition take_addr (impl : rib_impl_t) : Z * rib_impl_t :=
  (ri_next_addr impl,
   RibImpl (ri_routes impl) (ri_sources impl) (ri_lpm_groups impl) (ri_lpm_tree impl)
     (ri_next_update_id impl) (ri_src_mem impl) (ri_grp_mem impl) (ri_next_addr impl + 1)).

Definition deref {A} (mem : gmap Z A) (p : Z) : M A :=
  match mem !! p with
  | Some a => mret a
  | None => stuck OutOfBounds
  end.

(** What [free_entry] does to the objects of an index. *)
Definition free_objects {A K} (mem : gmap Z A) (freed : list (K * Z)) : gmap Z A :=
  foldl (λ mem kv, delete kv.2 mem) mem freed.

(** ** The decision process *)

(** The first AS number of the first non-empty AS_SEQUENCE of the first AS_PATH. *)
Fixpoint neighbor_in_segments (segs : list libbgp_as_path_segment_t) : option Z :=
  match segs with
  | [] => None
  | seg :: segs' =>
      if seg_type seg =? 2 then
        match seg_asns seg with
        | asn :: _ => Some asn
        | [] => neighbor_in_segments segs'
        end
      else neighbor_in_segments segs'
  end.

Fixpoint neighbor_in_attrs (attrs : list libbgp_pattr_t) : option Z :=
  match attrs with
  | [] => None
  | attr :: attrs' =>
      if bool_decide (pa_type attr = LIBBGP_PATTR_AS_PATH)
      then neighbor_in_segments (as_path_segments attr)
      else neighbor_in_attrs attrs'
  end.

Definition rib_neighbor_as (route : libbgp_rib_route_t) : option Z :=
  neighbor_in_attrs (rr_attrs route).

Record rib_neighbor_as_cache_t : Type := NeighborCache {
  nc_value : Z;
  nc_ready : bool;
  nc_valid : bool
}.

Definition empty_cache : rib_neighbor_as_cache_t := NeighborCache 0 false false.

Definition rib_neighbor_as_cached (route : libbgp_rib_route_t) (cache : rib_neighbor_as_cache_t)
    : bool * rib_neighbor_as_cache_t :=
  if nc_ready cache then (nc_valid cache, cache)
  else
    let cache :=
      match rib_neighbor_as route with
      | Some asn => NeighborCache asn true true
      | None => NeighborCache 0 true false
      end in
    (nc_valid cache, cache).

Definition bgp_router_id_cmp (a b : Z) : Z := memcmp (mem_of_u32 a) (mem_of_u32 b).

(** The two caches are returned with the answer; [b] is not null. *)
Definition rib_better_cached (a : libbgp_rib_route_t) (a_cache : rib_neighbor_as_cache_t)
    (b : libbgp_rib_route_t) (b_cache : rib_neighbor_as_cache_t)
    : bool * rib_neighbor_as_cache_t * rib_neighbor_as_cache_t :=
  let last a_cache b_cache :=
    (if negb (Bool.eqb (rr_is_ibgp a) (rr_is_ibgp b)) then negb (rr_is_ibgp a)
     else if negb (rr_update_id a =? rr_update_id b) then rr_update_id a <? rr_update_id b
     else bgp_router_id_cmp (rr_source_router_id a) (rr_source_router_id b) <? 0,
     a_cache, b_cache) in
  if negb (rr_weight a =? rr_weight b) then (rr_weight b <? rr_weight a, a_cache, b_cache)
  else
    let a_lp := if rr_local_pref a =? 0 then 100 else rr_local_pref a in
    let b_lp := if rr_local_pref b =? 0 then 100 else rr_local_pref b in
    if negb (a_lp =? b_lp) then (b_lp <? a_lp, a_cache, b_cache)
    else if negb (rr_as_path_len a =? rr_as_path_len b) then
      (rr_as_path_len a <? rr_as_path_len b, a_cache, b_cache)
    else if negb (rr_origin a =? rr_origin b) then
      (rr_origin a <? rr_origin b, a_cache, b_cache)
    else if negb (rr_med a =? rr_med b) then
      let '(a_valid, a_cache) := rib_neighbor_as_cached a a_cache in
      if a_valid then
        let '(b_valid, b_cache) := rib_neighbor_as_cached b b_cache in
        if b_valid && (nc_value a_cache =? nc_value b_cache) then
          (rr_med a <? rr_med b, a_cache, b_cache)
        else last a_cache b_cache
      else last a_cache b_cache
    else last a_cache b_cache.

(** [best == NULL || rib_better_cached(route, &route_cache, best, &best_cache)]
    and the assignments under it; [best_cache] may be filled either way. *)
Definition consider (route : route_ptr) (best : option (route_ptr * rib_neighbor_as_cache_t))
    : option (route_ptr * rib_neighbor_as_cache_t) :=
  match best with
  | None => Some (route, empty_cache)
  | Some (b, best_cache) =>
      let '(better, route_cache, best_cache) :=
        rib_better_cached (ro_route route) empty_cache (ro_route b) best_cache in
      if better then Some (route, route_cache) else Some (b, best_cache)
  end.
End Rib.
Arguments libbgp_rib_route_t : clear implicits.
Arguments libbgp_rib_route_t {family}.
Arguments route_ptr : clear implicits.
Arguments route_ptr {family}.
Arguments rib_impl_t : clear implicits.
Arguments rib_impl_t {family}.
Arguments rib_source_entry_t : clear implicits.
Arguments rib_source_entry_t {family}.
Arguments rib_lpm_entry_t : clear implicits.
Arguments rib_lpm_entry_t {family}.
Abbreviation entry_ptr := (bgp_hashmap_entry_t Prefix route_ptr).
