(* ===== verification/RibTable.v ===== *)
(** * Routing tables: the indexes and the table operations (src/rib4.c, src/rib6.c)

    The operations on a table of either address family, below the lock.  A
    function that changes the table and can fail returns the table and the
    error code; one that only reads it returns what it found. *)

From stdpp Require Import gmap.
From S2P Require Import Prelude Bytes Prefix4 Prefix6 Radix Pattr As4 Hashmap Rib.

Section RibTable.
Context `{family : Family} {host : Host}.

(** ** Loops over chains and arrays *)

(** [for (entry = buckets[idx]; entry != NULL; entry = entry->next) if (cond) ...] *)
Fixpoint chain_find (cond : entry_ptr -> bool) (chain : list entry_ptr) : option entry_ptr :=
  match chain with
  | [] => None
  | entry :: next => if cond entry then Some entry else chain_find cond next
  end.

(** The loop over the links of a chain that takes the first matching entry out. *)
Fixpoint chain_unlink (cond : entry_ptr -> bool) (chain : list entry_ptr)
    : option (entry_ptr * list entry_ptr) :=
  match chain with
  | [] => None
  | entry :: next =>
      if cond entry then Some (entry, next)
      else
        match chain_unlink cond next with
        | Some (found, next') => Some (found, entry :: next')
        | None => None
        end
  end.

(** [for (i = 0; i < count; i++) if (entries[i] == entry)] *)
Fixpoint array_find (entries : list entry_ptr) (entry : entry_ptr) : option nat :=
  match entries with
  | [] => None
  | e :: entries' => if same_entry e entry then Some 0%nat else S <$> array_find entries' entry
  end.

(** [count--; entries[i] = entries[count];] *)
Definition swap_remove (entries : list entry_ptr) (i : nat) : list entry_ptr :=
  match last entries with
  | Some l => take (length entries - 1) (<[i := l]> entries)
  | None => entries
  end.

(** [if (count >= cap) { next_cap = cap == 0 ? 1 : cap * 2; ...realloc... }] in
    front of a store to an array of pointers: the capacity, or no memory. *)
Definition grow_pointers (count cap : Z) : M (option Z) :=
  if cap <=? count then
    let next_cap := if cap =? 0 then 1 else u64 (cap * 2) in
    if (SIZE_MAX / 2 <? cap) || (SIZE_MAX / SIZEOF_POINTER <? next_cap) then mret None
    else
      ok ← bgp_alloc;
      mret (if (ok : bool) then Some next_cap else None)
  else mret (Some cap).

(** ** The index by source *)

Definition rib_next_update_id (impl : rib_impl_t) : Z * rib_impl_t :=
  let id := u64 (ri_next_update_id impl + 1) in
  let id := if id =? 0 then u64 (id + 1) else id in
  (id, set_next_update_id impl id).

Definition rib_source_index_find (impl : rib_impl_t) (source_router_id : Z) : M (option Z) :=
  bgp_hashmap_find_first (ri_sources impl) source_router_id.

Definition rib_source_index_add (impl : rib_impl_t) (route_entry : entry_ptr)
    : M (rib_impl_t * libbgp_err_t) :=
  let id := rr_source_router_id (ro_route (e_value route_entry)) in
  source ← rib_source_index_find impl id;
  match source with
  | None =>
      ok ← bgp_alloc;
      if negb ok then mret (impl, LIBBGP_ERR_NOMEM)
      else
        ok ← bgp_alloc;
        if negb ok then mret (impl, LIBBGP_ERR_NOMEM)
        else
          ok ← bgp_alloc;
          if negb ok then mret (impl, LIBBGP_ERR_NOMEM)
          else
            let '(p, impl) := take_addr impl in
            '(sources, e) ← bgp_hashmap_insert (ri_sources impl) id p;
            if decide (e = LIBBGP_OK) then
              mret (set_sources impl sources
                      (<[p := SourceEntry id [route_entry] 1]> (ri_src_mem impl)), LIBBGP_OK)
            else mret (set_sources impl sources (ri_src_mem impl), LIBBGP_ERR_NOMEM)
  | Some p =>
      source ← deref (ri_src_mem impl) p;
      cap ← grow_pointers (zlen (se_entries source)) (se_cap source);
      match cap with
      | None => mret (impl, LIBBGP_ERR_NOMEM)
      | Some cap =>
          mret (set_sources impl (ri_sources impl)
                  (<[p := SourceEntry (se_source_router_id source)
                            (se_entries source ++ [route_entry]) cap]> (ri_src_mem impl)),
                LIBBGP_OK)
      end
  end.

Definition rib_source_index_remove (impl : rib_impl_t) (route_entry : entry_ptr) : M rib_impl_t :=
  let id := rr_source_router_id (ro_route (e_value route_entry)) in
  source ← rib_source_index_find impl id;
  match source with
  | None => mret impl
  | Some p =>
      source ← deref (ri_src_mem impl) p;
      match array_find (se_entries source) route_entry with
      | None => mret impl
      | Some i =>
          let entries := swap_remove (se_entries source) i in
          let mem := <[p := SourceEntry (se_source_router_id source) entries (se_cap source)]>
                       (ri_src_mem impl) in
          if zlen entries =? 0 then
            '(sources, _, freed) ← bgp_hashmap_remove_one (ri_sources impl) id (Some p);
            mret (set_sources impl sources (free_objects mem freed))
          else mret (set_sources impl (ri_sources impl) mem)
      end
  end.

(** ** Routes *)

Definition SIZEOF_ROUTE_POINTER : Z := SIZEOF_POINTER.

(** [local_pref == 0 ? 100], [update_id == 0 ? next]: what is stored of a route. *)
Definition with_defaults (route : libbgp_rib_route_t) (local_pref update_id : Z)
    : libbgp_rib_route_t :=
  RibRoute (rr_prefix route) (rr_source_router_id route) (rr_next_hop route) (rr_weight route)
    (rr_is_ibgp route) local_pref (rr_med route) (rr_origin route) (rr_as_path_len route)
    (rr_origin_as route) update_id (rr_attrs route).

(** The new route, or the error.  The update id is taken before the later
    allocations, so a failed clone uses it up. *)
Definition rib_route_clone (impl : rib_impl_t) (src : libbgp_rib_route_t)
    : M (rib_impl_t * (route_ptr + libbgp_err_t)) :=
  if width <? prefix_len (rr_prefix src) then mret (impl, inr LIBBGP_ERR_INVALID)
  else
    ok ← bgp_alloc;
    if negb ok then mret (impl, inr LIBBGP_ERR_NOMEM)
    else
      let local_pref := if rr_local_pref src =? 0 then 100 else rr_local_pref src in
      let '(update_id, impl) :=
        if rr_update_id src =? 0 then rib_next_update_id impl else (rr_update_id src, impl) in
      ok ← (if zlen (rr_attrs src) =? 0 then mret true
            else if SIZE_MAX / SIZEOF_ROUTE_POINTER <? zlen (rr_attrs src) then mret false
            else bgp_alloc);
      if negb ok then mret (impl, inr LIBBGP_ERR_NOMEM)
      else
        ok ← bgp_alloc;
        if negb ok then mret (impl, inr LIBBGP_ERR_NOMEM)
        else
          let '(p, impl) := take_addr impl in
          mret (impl, inl (RoutePtr p (with_defaults src local_pref update_id))).

(** ** Access to the buckets of [routes] *)

(** [buckets[hash % bucket_count]] *)
Definition routes_bucket (impl : rib_impl_t) (h : Z) : M (Z * list entry_ptr) :=
  let idx := h mod bucket_count (ri_routes impl) in
  chain ← bucket_at (buckets (ri_routes impl)) idx;
  mret (idx, chain).

(** [*link = ...; impl->routes.len += delta;] *)
Definition set_bucket (impl : rib_impl_t) (idx : Z) (chain : list entry_ptr) (delta : Z) : rib_impl_t :=
  set_routes impl
    (HashMap (<[Z.to_nat idx := chain]> (buckets (ri_routes impl)))
       (bucket_count (ri_routes impl)) (u64 (hm_len (ri_routes impl) + delta))).

(** The tests of the loops. *)
Definition entry_has_prefix (prefix : Prefix) (entry : entry_ptr) : bool :=
  (e_hash entry =? rib_hash prefix) && prefix_eq (e_key entry) prefix.

Definition entry_is_from (source_router_id : Z) (prefix : Prefix) (entry : entry_ptr) : bool :=
  entry_has_prefix prefix entry &&
  (rr_source_router_id (ro_route (e_value entry)) =? source_router_id).

Definition rib_route_entry_unlink_locked (impl : rib_impl_t) (entry : entry_ptr)
    : M (rib_impl_t * bool) :=
  if bucket_count (ri_routes impl) =? 0 then mret (impl, false)
  else
    '(idx, chain) ← routes_bucket impl (e_hash entry);
    match chain_unlink (λ e, same_entry e entry) chain with
    | Some (_, chain') => mret (set_bucket impl idx chain' (-1), true)
    | None => mret (impl, false)
    end.

Definition rib_entry_find_value_locked (impl : rib_impl_t) (prefix : Prefix) (value : route_ptr)
    : M (option entry_ptr) :=
  '(_, chain) ← routes_bucket impl (rib_hash prefix);
  mret (chain_find (λ e, entry_has_prefix prefix e && same_ptr (e_value e) value) chain).

Definition rib_find_locked (impl : rib_impl_t) (source_router_id : Z) (prefix : Prefix)
    : M (option route_ptr) :=
  '(_, chain) ← routes_bucket impl (rib_hash prefix);
  mret (e_value <$> chain_find (entry_is_from source_router_id prefix) chain).

Fixpoint best_exact_loop (prefix : Prefix) (chain : list entry_ptr)
    (best : option (route_ptr * rib_neighbor_as_cache_t)) : option route_ptr :=
  match chain with
  | [] => fst <$> best
  | entry :: next =>
      let route := e_value entry in
      if entry_has_prefix prefix entry && prefix_eq (rr_prefix (ro_route route)) prefix
      then best_exact_loop prefix next (consider route best)
      else best_exact_loop prefix next best
  end.

Definition rib_best_exact_locked (impl : rib_impl_t) (prefix : Prefix) : M (option route_ptr) :=
  '(_, chain) ← routes_bucket impl (rib_hash prefix);
  mret (best_exact_loop prefix chain None).

(** ** The index by prefix *)

Definition rib_lpm_group_find_locked (impl : rib_impl_t) (prefix : Prefix) : M (option Z) :=
  if width <? prefix_len prefix then mret None
  else bgp_hashmap_find_first (ri_lpm_groups impl) (rib_lpm_normalize_prefix prefix).

Definition rib_lpm_group_best_locked (group : rib_lpm_entry_t) : option route_ptr :=
  fst <$> foldl (λ best entry, consider (e_value entry) best) None (ge_entries group).

Definition rib_lpm_group_remove_locked (impl : rib_impl_t) (p : Z) : M rib_impl_t :=
  group ← deref (ri_grp_mem impl) p;
  '(groups, _, freed) ← bgp_hashmap_remove_one (ri_lpm_groups impl) (ge_prefix group) (Some p);
  mret (set_groups impl groups (free_objects (ri_grp_mem impl) freed) (ri_lpm_tree impl)).

Definition tree_insert (impl : rib_impl_t) (prefix : Prefix) (route : route_ptr)
    : M (libbgp_err_t * rib_impl_t) :=
  '(e, tree) ← radix_insert width radix_bit (ri_lpm_tree impl) (prefix_addr prefix)
                 (prefix_len prefix) (Some route);
  mret (e, set_groups impl (ri_lpm_groups impl) (ri_grp_mem impl) tree).

Definition set_group (impl : rib_impl_t) (p : Z) (group : rib_lpm_entry_t) : rib_impl_t :=
  set_groups impl (ri_lpm_groups impl) (<[p := group]> (ri_grp_mem impl)) (ri_lpm_tree impl).

Definition rib_lpm_index_remove_locked (impl : rib_impl_t) (route_entry : entry_ptr) : M rib_impl_t :=
  found ← rib_lpm_group_find_locked impl (e_key route_entry);
  match found with
  | None => mret impl
  | Some p =>
      group ← deref (ri_grp_mem impl) p;
      match array_find (ge_entries group) route_entry with
      | None => mret impl
      | Some i =>
          let removed_best :=
            match ge_best group with Some b => same_ptr b (e_value route_entry) | None => false end in
          let entries := swap_remove (ge_entries group) i in
          let group' := LpmEntry (ge_prefix group) entries (ge_cap group) (ge_best group) in
          let impl := set_group impl p group' in
          if zlen entries =? 0 then
            let tree := (radix_remove width radix_bit (ri_lpm_tree impl)
                           (prefix_addr (ge_prefix group)) (prefix_len (ge_prefix group))).2 in
            rib_lpm_group_remove_locked
              (set_groups impl (ri_lpm_groups impl) (ri_grp_mem impl) tree) p
          else if removed_best || bool_decide (ge_best group = None) then
            let best := rib_lpm_group_best_locked group' in
            let impl := set_group impl p (LpmEntry (ge_prefix group) entries (ge_cap group) best) in
            match best with
            | Some best => r ← tree_insert impl (ge_prefix group) best; mret r.2
            | None => mret impl
            end
          else mret impl
      end
  end.

(** The common tail of [rib_lpm_index_add_locked]: the group at [p] has room,
    [created] says whether it is new. *)
Definition lpm_group_push (impl : rib_impl_t) (p : Z) (group : rib_lpm_entry_t) (created : bool)
    (route_entry : entry_ptr) : M (rib_impl_t * libbgp_err_t) :=
  let route := e_value route_entry in
  let pushed best :=
    LpmEntry (ge_prefix group) (ge_entries group ++ [route_entry]) (ge_cap group) best in
  let better :=
    match ge_best group with
    | None => true
    | Some best => (rib_better_cached (ro_route route) empty_cache (ro_route best) empty_cache).1.1
    end in
  if better then
    '(e, impl) ← tree_insert (set_group impl p (pushed (ge_best group))) (ge_prefix group) route;
    if decide (e = LIBBGP_OK) then mret (set_group impl p (pushed (Some route)), LIBBGP_OK)
    else
      let impl := set_group impl p group in
      if created then
        impl ← rib_lpm_group_remove_locked impl p;
        mret (impl, e)
      else mret (impl, e)
  else mret (set_group impl p (pushed (ge_best group)), LIBBGP_OK).

Definition rib_lpm_index_add_locked (impl : rib_impl_t) (route_entry : entry_ptr)
    : M (rib_impl_t * libbgp_err_t) :=
  let prefix := rib_lpm_normalize_prefix (rr_prefix (ro_route (e_value route_entry))) in
  found ← bgp_hashmap_find_first (ri_lpm_groups impl) prefix;
  match found with
  | None =>
      ok ← bgp_alloc;
      if negb ok then mret (impl, LIBBGP_ERR_NOMEM)
      else
        ok ← bgp_alloc;
        if negb ok then mret (impl, LIBBGP_ERR_NOMEM)
        else
          ok ← bgp_alloc;
          if negb ok then mret (impl, LIBBGP_ERR_NOMEM)
          else
            let '(p, impl) := take_addr impl in
            '(groups, e) ← bgp_hashmap_insert (ri_lpm_groups impl) prefix p;
            if decide (e = LIBBGP_OK) then
              let group := LpmEntry prefix [] 1 None in
              lpm_group_push
                (set_groups impl groups (<[p := group]> (ri_grp_mem impl)) (ri_lpm_tree impl))
                p group true route_entry
            else
              mret (set_groups impl groups (ri_grp_mem impl) (ri_lpm_tree impl), LIBBGP_ERR_NOMEM)
  | Some p =>
      group ← deref (ri_grp_mem impl) p;
      cap ← grow_pointers (zlen (ge_entries group)) (ge_cap group);
      match cap with
      | None => mret (impl, LIBBGP_ERR_NOMEM)
      | Some cap =>
          let group := LpmEntry (ge_prefix group) (ge_entries group) cap (ge_best group) in
          lpm_group_push (set_group impl p group) p group false route_entry
      end
  end.

(** ** Taking routes out *)

(** [impl->routes.free_entry] frees the key and the route; nothing in the table
    refers to them any more. *)
Fixpoint remove_source_loop (impl : rib_impl_t) (entries : list entry_ptr) (removed : Z)
    : M (rib_impl_t * Z) :=
  match entries with
  | [] => mret (impl, removed)
  | entry :: entries' =>
      '(impl, unlinked) ← rib_route_entry_unlink_locked impl entry;
      if (unlinked : bool) then
        impl ← rib_lpm_index_remove_locked impl entry;
        remove_source_loop impl entries' (removed + 1)
      else remove_source_loop impl entries' removed
  end.

Definition rib_remove_source_locked (impl : rib_impl_t) (source_router_id : Z)
    : M (rib_impl_t * Z) :=
  source ← bgp_hashmap_find_first (ri_sources impl) source_router_id;
  match source with
  | None => mret (impl, 0)
  | Some p =>
      source ← deref (ri_src_mem impl) p;
      '(impl, removed) ← remove_source_loop impl (se_entries source) 0;
      '(sources, _, freed) ← bgp_hashmap_remove_one (ri_sources impl) source_router_id (Some p);
      mret (set_sources impl sources (free_objects (ri_src_mem impl) freed), removed)
  end.

Definition rib_withdraw_locked (impl : rib_impl_t) (source_router_id : Z) (prefix : Prefix)
    : M (rib_impl_t * libbgp_err_t) :=
  '(_, chain) ← routes_bucket impl (rib_hash prefix);
  match chain_find (entry_is_from source_router_id prefix) chain with
  | None => mret (impl, LIBBGP_ERR_NOT_FOUND)
  | Some entry =>
      impl ← rib_source_index_remove impl entry;
      impl ← rib_lpm_index_remove_locked impl entry;
      '(routes, e, _) ← bgp_hashmap_remove_one (ri_routes impl) prefix (Some (e_value entry));
      mret (set_routes impl routes,
            if decide (e = LIBBGP_OK) then LIBBGP_OK else LIBBGP_ERR_NOT_FOUND)
  end.

(** The loop of the two [detach] functions; [None] is [LIBBGP_ERR_NOT_FOUND]. *)
Definition detach_matching (impl : rib_impl_t) (prefix : Prefix) (cond : entry_ptr -> bool)
    : M (rib_impl_t * option entry_ptr) :=
  '(idx, chain) ← routes_bucket impl (rib_hash prefix);
  match chain_unlink cond chain with
  | None => mret (impl, None)
  | Some (entry, chain') =>
      impl ← rib_source_index_remove (set_bucket impl idx chain' (-1)) entry;
      impl ← rib_lpm_index_remove_locked impl entry;
      mret (impl, Some entry)
  end.

Definition rib_detach_locked (impl : rib_impl_t) (source_router_id : Z) (prefix : Prefix)
    : M (rib_impl_t * option entry_ptr) :=
  detach_matching impl prefix (entry_is_from source_router_id prefix).

Definition rib_detach_value_locked (impl : rib_impl_t) (prefix : Prefix) (value : route_ptr)
    : M (rib_impl_t * option entry_ptr) :=
  detach_matching impl prefix (λ e, entry_has_prefix prefix e && same_ptr (e_value e) value).

Definition rib_attach_detached_locked (impl : rib_impl_t) (entry : entry_ptr)
    : M (rib_impl_t * libbgp_err_t) :=
  let route := ro_route (e_value entry) in
  old ← rib_find_locked impl (rr_source_router_id route) (rr_prefix route);
  match old with
  | Some _ => mret (impl, LIBBGP_ERR_EXISTS)
  | None =>
      let entry := HashEntry (e_key entry) (e_value entry) (rib_hash (e_key entry)) in
      '(idx, chain) ← routes_bucket impl (e_hash entry);
      let impl := set_bucket impl idx (entry :: chain) 1 in
      '(impl, e) ← rib_source_index_add impl entry;
      if decide (e = LIBBGP_OK) then
        '(impl, e) ← rib_lpm_index_add_locked impl entry;
        if decide (e = LIBBGP_OK) then mret (impl, LIBBGP_OK)
        else
          impl ← rib_source_index_remove impl entry;
          '(impl, _) ← rib_route_entry_unlink_locked impl entry;
          mret (impl, LIBBGP_ERR_NOMEM)
      else
        '(impl, _) ← rib_route_entry_unlink_locked impl entry;
        mret (impl, LIBBGP_ERR_NOMEM)
  end.

(** ** Result arrays and snapshots *)

(** [if (count >= cap) { new_cap = cap == 0 ? 64 : cap * 2; ...realloc... }] *)
Definition result_grow (count cap size : Z) : M Z :=
  if cap <=? count then
    fail_if ((negb (cap =? 0)) && (SIZE_MAX / 2 <? cap)) LIBBGP_ERR_NOMEM;;
    let new_cap := if cap =? 0 then 64 else cap * 2 in
    fail_if ((new_cap <=? count) || (SIZE_MAX / size <? new_cap)) LIBBGP_ERR_NOMEM;;
    alloc_or_nomem;;
    mret new_cap
  else mret cap.

Definition rib_prefix_array_push (items : list Prefix) (cap : Z) (prefix : Prefix)
    : M (list Prefix * Z) :=
  cap ← result_grow (zlen items) cap sizeof_prefix;
  mret (items ++ [prefix], cap).

Definition bgp_rib_route_snapshot_clone (src : libbgp_rib_route_t) : M libbgp_rib_route_t :=
  if zlen (rr_attrs src) =? 0 then mret src
  else
    fail_if (SIZE_MAX / SIZEOF_ROUTE_POINTER <? zlen (rr_attrs src)) LIBBGP_ERR_NOMEM;;
    alloc_or_nomem;;
    mret src.

Definition rib_result_add_replacement (replacements : list libbgp_rib_route_t) (cap : Z)
    (route : libbgp_rib_route_t) : M (list libbgp_rib_route_t * Z) :=
  cap ← result_grow (zlen replacements) cap sizeof_route;
  snapshot ← bgp_rib_route_snapshot_clone route;
  mret (replacements ++ [snapshot], cap).

(** ** The table operations *)

Definition libbgp_rib_init : M rib_impl_t :=
  alloc_or_nomem;;
  routes ← bgp_hashmap_init;
  sources ← bgp_hashmap_init;
  groups ← bgp_hashmap_init;
  mret (RibImpl routes sources groups radix_init 0 ∅ ∅ 1).

(** What the three maps hand to their [free_entry], in the order of the code;
    the radix tree holds no objects of its own. *)
Definition libbgp_rib_destroy (impl : rib_impl_t)
    : list (Prefix * Z) * list (Z * Z) * list (Prefix * route_ptr) :=
  (bgp_hashmap_destroy (ri_lpm_groups impl), bgp_hashmap_destroy (ri_sources impl),
   bgp_hashmap_destroy (ri_routes impl)).

(** What an insertion reports: the error code, the route it took out, which is
    handed to the caller or freed, and the update id of the new route. *)
Record insert_result : Type := InsertResult {
  ir_err : libbgp_err_t;
  ir_replaced : option entry_ptr;
  ir_update_id : Z
}.

(** The part of [rib_insert_save_replaced_locked] after the clone: put the
    route into the map and the two indexes, or undo. *)
Definition link_route (impl : rib_impl_t) (copy : route_ptr) : M (rib_impl_t * libbgp_err_t) :=
  let prefix := rr_prefix (ro_route copy) in
  '(routes, e) ← bgp_hashmap_insert (ri_routes impl) prefix copy;
  let impl := set_routes impl routes in
  if decide (e = LIBBGP_OK) then
    new_entry ← rib_entry_find_value_locked impl prefix copy;
    match new_entry with
    | None =>
        '(routes, _, _) ← bgp_hashmap_remove_one (ri_routes impl) prefix (Some copy);
        mret (set_routes impl routes, LIBBGP_ERR_NOT_FOUND)
    | Some new_entry =>
        '(impl, e) ← rib_source_index_add impl new_entry;
        if decide (e = LIBBGP_OK) then
          '(impl, e) ← rib_lpm_index_add_locked impl new_entry;
          if decide (e = LIBBGP_OK) then mret (impl, LIBBGP_OK)
          else
            impl ← rib_source_index_remove impl new_entry;
            '(impl, _) ← rib_route_entry_unlink_locked impl new_entry;
            mret (impl, e)
        else
          '(impl, unlinked) ← rib_route_entry_unlink_locked impl new_entry;
          if (unlinked : bool) then mret (impl, e)
          else
            '(routes, _, _) ← bgp_hashmap_remove_one (ri_routes impl) prefix (Some copy);
            mret (set_routes impl routes, e)
    end
  else mret (impl, e).

(** [plain]: the caller passes none of [replaced], [had_replaced] and
    [update_id]. *)
Definition rib_insert_save_replaced_locked (impl : rib_impl_t) (route : libbgp_rib_route_t)
    (plain : bool) : M (rib_impl_t * insert_result) :=
  old ← rib_find_locked impl (rr_source_router_id route) (rr_prefix route);
  if (rr_source_router_id route =? 0) && bool_decide (is_Some old) && plain
  then mret (impl, InsertResult LIBBGP_ERR_EXISTS None 0)
  else
    '(impl, r) ← rib_route_clone impl route;
    match r with
    | inr e => mret (impl, InsertResult e None 0)
    | inl copy =>
        '(impl, e) ← link_route impl copy;
        if decide (e = LIBBGP_OK) then
          '(impl, replaced) ←
            match old with
            | Some old => rib_detach_value_locked impl (rr_prefix (ro_route copy)) old
            | None => mret (impl, None)
            end;
          mret (impl, InsertResult LIBBGP_OK replaced (rr_update_id (ro_route copy)))
        else mret (impl, InsertResult e None 0)
    end.

Definition libbgp_rib_insert (impl : rib_impl_t) (route : libbgp_rib_route_t)
    : M (rib_impl_t * libbgp_err_t) :=
  '(impl, r) ← rib_insert_save_replaced_locked impl route true;
  mret (impl, ir_err r).

Definition bgp_rib_insert_save_replaced (impl : rib_impl_t) (route : libbgp_rib_route_t)
    (plain : bool) : M (rib_impl_t * insert_result) :=
  rib_insert_save_replaced_locked impl route plain.

(** *** Changes of the best route *)

Inductive bgp_rib_change_kind_t : Type :=
  | BGP_RIB_CHANGE_NO_BEST_CHANGE
  | BGP_RIB_CHANGE_NEW_BEST
  | BGP_RIB_CHANGE_REPLACEMENT_BEST
  | BGP_RIB_CHANGE_UNREACHABLE.

Record bgp_rib_change_t : Type := RibChange {
  ch_kind : bgp_rib_change_kind_t;
  ch_best : option libbgp_rib_route_t
}.

Definition no_change : bgp_rib_change_t := RibChange BGP_RIB_CHANGE_NO_BEST_CHANGE None.

(** [snapshot]: the caller wants a copy of the best route. *)
Definition set_best_change (kind : bgp_rib_change_kind_t) (after : route_ptr) (snapshot : bool)
    : M (libbgp_err_t * bgp_rib_change_t) :=
  if snapshot then
    r ← try_call (bgp_rib_route_snapshot_clone (ro_route after));
    mret match r with
         | inl route => (LIBBGP_OK, RibChange kind (Some route))
         | inr e => (e, no_change)
         end
  else mret (LIBBGP_OK, RibChange kind (Some (ro_route after))).

Definition bgp_rib_insert_track_best_save_replaced (impl : rib_impl_t)
    (route : libbgp_rib_route_t) (plain snapshot : bool)
    : M (rib_impl_t * insert_result * bgp_rib_change_t) :=
  before ← rib_best_exact_locked impl (rr_prefix route);
  '(impl, r) ← rib_insert_save_replaced_locked impl route plain;
  if decide (ir_err r = LIBBGP_OK) then
    after ← rib_best_exact_locked impl (rr_prefix route);
    match after with
    | None =>
        mret (impl, InsertResult LIBBGP_ERR_NOT_FOUND (ir_replaced r) (ir_update_id r), no_change)
    | Some after =>
        '(e, change) ←
          match before with
          | None => set_best_change BGP_RIB_CHANGE_NEW_BEST after snapshot
          | Some before =>
              if same_ptr before after
              then set_best_change BGP_RIB_CHANGE_NO_BEST_CHANGE after false
              else set_best_change BGP_RIB_CHANGE_REPLACEMENT_BEST after snapshot
          end;
        mret (impl, InsertResult e (ir_replaced r) (ir_update_id r), change)
    end
  else mret (impl, r, no_change).

Definition bgp_rib_insert_track_best (impl : rib_impl_t) (route : libbgp_rib_route_t) (plain : bool)
    : M (rib_impl_t * insert_result * bgp_rib_change_t) :=
  bgp_rib_insert_track_best_save_replaced impl route plain false.

(** The change a withdrawal from [source_router_id] reports. *)
Definition withdraw_change (source_router_id : Z) (before after : option route_ptr) (snapshot : bool)
    : M (libbgp_err_t * bgp_rib_change_t) :=
  let withdrew_best :=
    match before with
    | Some b => rr_source_router_id (ro_route b) =? source_router_id
    | None => false
    end in
  if negb withdrew_best then
    mret (LIBBGP_OK, RibChange BGP_RIB_CHANGE_NO_BEST_CHANGE (ro_route <$> after))
  else
    match after with
    | None => mret (LIBBGP_OK, RibChange BGP_RIB_CHANGE_UNREACHABLE None)
    | Some after => set_best_change BGP_RIB_CHANGE_REPLACEMENT_BEST after snapshot
    end.

Definition bgp_rib_withdraw_track_best (impl : rib_impl_t) (source_router_id : Z) (prefix : Prefix)
    : M (rib_impl_t * libbgp_err_t * bgp_rib_change_t) :=
  before ← rib_best_exact_locked impl prefix;
  '(impl, e) ← rib_withdraw_locked impl source_router_id prefix;
  if decide (e = LIBBGP_OK) then
    after ← rib_best_exact_locked impl prefix;
    '(e, change) ← withdraw_change source_router_id before after false;
    mret (impl, e, change)
  else mret (impl, e, no_change).

Definition bgp_rib_withdraw_track_best_save (impl : rib_impl_t) (source_router_id : Z)
    (prefix : Prefix) (snapshot : bool)
    : M (rib_impl_t * libbgp_err_t * option entry_ptr * bgp_rib_change_t) :=
  before ← rib_best_exact_locked impl prefix;
  '(impl, saved) ← rib_detach_locked impl source_router_id prefix;
  match saved with
  | None => mret (impl, LIBBGP_OK, None, no_change)
  | Some entry =>
      after ← rib_best_exact_locked impl prefix;
      '(e, change) ← withdraw_change source_router_id before after snapshot;
      mret (impl, e, Some entry, change)
  end.

Definition libbgp_rib_withdraw (impl : rib_impl_t) (source_router_id : Z) (prefix : Prefix)
    : M (rib_impl_t * libbgp_err_t) :=
  rib_withdraw_locked impl source_router_id prefix.

Definition libbgp_rib_discard (impl : rib_impl_t) (source_router_id : Z) : M rib_impl_t :=
  '(impl, _) ← rib_remove_source_locked impl source_router_id;
  mret impl.

(** *** Lookups *)

Fixpoint lookup_scoped_loop (dest_addr : Addr) (entries : list entry_ptr)
    (best : option (route_ptr * rib_neighbor_as_cache_t)) : option route_ptr :=
  match entries with
  | [] => fst <$> best
  | entry :: entries' =>
      let route := e_value entry in
      let len := prefix_len (rr_prefix (ro_route route)) in
      if negb (rib_addr_matches (rr_prefix (ro_route route)) dest_addr)
      then lookup_scoped_loop dest_addr entries' best
      else
        let best :=
          match best with
          | None => Some (route, empty_cache)
          | Some (b, best_cache) =>
              let best_len := prefix_len (rr_prefix (ro_route b)) in
              if best_len <? len then Some (route, empty_cache)
              else if len =? best_len then consider route best
              else best
          end in
        lookup_scoped_loop dest_addr entries' best
  end.

Definition libbgp_rib_lookup_scoped (impl : rib_impl_t) (source_router_id : Z) (dest_addr : Addr)
    : M libbgp_rib_route_t :=
  source ← rib_source_index_find impl source_router_id;
  match source with
  | None => err LIBBGP_ERR_NOT_FOUND
  | Some p =>
      source ← deref (ri_src_mem impl) p;
      match lookup_scoped_loop dest_addr (se_entries source) None with
      | None => err LIBBGP_ERR_NOT_FOUND
      | Some best => mret (ro_route best)
      end
  end.

Definition libbgp_rib_lookup (impl : rib_impl_t) (dest_addr : Addr) : M libbgp_rib_route_t :=
  match radix_lookup_lpm width radix_bit (ri_lpm_tree impl) dest_addr with
  | None => err LIBBGP_ERR_NOT_FOUND
  | Some best =>
      if rib_addr_matches (rr_prefix (ro_route best)) dest_addr then mret (ro_route best)
      else err LIBBGP_ERR_NOT_FOUND
  end.

Definition libbgp_rib_route_count (impl : rib_impl_t) : Z := bgp_hashmap_len (ri_routes impl).

(** *** Iteration *)

Section Foreach.
Context {Ctx : Type} (fn : libbgp_rib_route_t -> Ctx -> bool * Ctx).

Definition bgp_rib_foreach_route (impl : rib_impl_t) (ctx : Ctx) : Ctx :=
  bgp_hashmap_foreach (λ _ route, fn (ro_route route)) (ri_routes impl) ctx.

(** The snapshots taken under the lock, and the error that stopped it. *)
Fixpoint best_snapshots (impl : rib_impl_t) (groups : list (bgp_hashmap_entry_t Prefix Z))
    (snapshots : list libbgp_rib_route_t) (cap : Z) : M (list libbgp_rib_route_t * libbgp_err_t) :=
  match groups with
  | [] => mret (snapshots, LIBBGP_OK)
  | entry :: groups' =>
      group ← deref (ri_grp_mem impl) (e_value entry);
      match ge_best group with
      | None => best_snapshots impl groups' snapshots cap
      | Some best =>
          r ← try_call
            (cap ← (if cap <=? zlen snapshots then
                      let next_cap := if cap =? 0 then 64 else u64 (cap * 2) in
                      fail_if ((SIZE_MAX / 2 <? cap) || (SIZE_MAX / sizeof_route <? next_cap))
                        LIBBGP_ERR_NOMEM;;
                      alloc_or_nomem;;
                      mret next_cap
                    else mret cap);
             snapshot ← bgp_rib_route_snapshot_clone (ro_route best);
             mret (snapshot, cap));
          match r with
          | inl (snapshot, cap) => best_snapshots impl groups' (snapshots ++ [snapshot]) cap
          | inr e => mret (snapshots, e)
          end
      end
  end.

Fixpoint visit_snapshots (snapshots : list libbgp_rib_route_t) (ctx : Ctx) : Ctx :=
  match snapshots with
  | [] => ctx
  | route :: snapshots' =>
      let '(keep_going, ctx) := fn route ctx in
      if keep_going then visit_snapshots snapshots' ctx else ctx
  end.

(** The visitor runs on what was collected, also after an error. *)
Definition bgp_rib_foreach_best_route (impl : rib_impl_t) (ctx : Ctx) : M (Ctx * libbgp_err_t) :=
  '(snapshots, e) ← best_snapshots impl (concat (buckets (ri_lpm_groups impl))) [] 0;
  mret (visit_snapshots snapshots ctx, e).
End Foreach.

Definition bgp_rib_best_exact_clone (impl : rib_impl_t) (prefix : Prefix)
    : M (option libbgp_rib_route_t) :=
  best ← rib_best_exact_locked impl prefix;
  match best with
  | None => mret None
  | Some best => route ← bgp_rib_route_snapshot_clone (ro_route best); mret (Some route)
  end.

(** *** Discarding a peer *)

Record bgp_rib_discard_result_t : Type := DiscardResult {
  dr_withdrawn : list Prefix;
  dr_replacements : list libbgp_rib_route_t
}.

(** The prefixes whose best route is from the source. *)
Fixpoint active_loop (impl : rib_impl_t) (source_router_id : Z) (entries : list entry_ptr)
    (active : list Prefix) (cap : Z) : M (list Prefix) :=
  match entries with
  | [] => mret active
  | entry :: entries' =>
      let route := e_value entry in
      best ← rib_best_exact_locked impl (rr_prefix (ro_route route));
      if (rr_source_router_id (ro_route route) =? source_router_id) &&
         match best with Some best => same_ptr best route | None => false end
      then
        '(active, cap) ← rib_prefix_array_push active cap (rr_prefix (ro_route route));
        active_loop impl source_router_id entries' active cap
      else active_loop impl source_router_id entries' active cap
  end.

Fixpoint collect_loop (impl : rib_impl_t) (active : list Prefix)
    (withdrawn : list Prefix) (withdrawn_cap : Z)
    (replacements : list libbgp_rib_route_t) (replacement_cap : Z) : M bgp_rib_discard_result_t :=
  match active with
  | [] => mret (DiscardResult withdrawn replacements)
  | prefix :: active' =>
      replacement ← rib_best_exact_locked impl prefix;
      match replacement with
      | None =>
          '(withdrawn, withdrawn_cap) ← rib_prefix_array_push withdrawn withdrawn_cap prefix;
          collect_loop impl active' withdrawn withdrawn_cap replacements replacement_cap
      | Some route =>
          '(replacements, replacement_cap) ←
            rib_result_add_replacement replacements replacement_cap (ro_route route);
          collect_loop impl active' withdrawn withdrawn_cap replacements replacement_cap
      end
  end.

(** The source is removed even when the result cannot be built. *)
Definition bgp_rib_discard_collect (impl : rib_impl_t) (source_router_id : Z)
    : M (rib_impl_t * (bgp_rib_discard_result_t + libbgp_err_t)) :=
  source ← rib_source_index_find impl source_router_id;
  active ← try_call
    match source with
    | None => mret []
    | Some p =>
        source ← deref (ri_src_mem impl) p;
        active_loop impl source_router_id (se_entries source) [] 0
    end;
  match active with
  | inr e => mret (impl, inr e)
  | inl active =>
      '(impl, _) ← rib_remove_source_locked impl source_router_id;
      r ← try_call (collect_loop impl active [] 0 [] 0);
      mret (impl, r)
  end.

(** *** Saved routes *)

Definition bgp_rib_saved_route_update_id (saved : option entry_ptr) : M Z :=
  match saved with
  | None => err LIBBGP_ERR_NOT_FOUND
  | Some entry => mret (rr_update_id (ro_route (e_value entry)))
  end.

Definition bgp_rib_exact_update_id (impl : rib_impl_t) (source_router_id : Z) (prefix : Prefix) : M Z :=
  route ← rib_find_locked impl source_router_id prefix;
  match route with
  | None => err LIBBGP_ERR_NOT_FOUND
  | Some route => mret (rr_update_id (ro_route route))
  end.

Definition bgp_rib_withdraw_exact_if_update_id (impl : rib_impl_t) (source_router_id : Z)
    (prefix : Prefix) (update_id : Z) : M (rib_impl_t * libbgp_err_t) :=
  if update_id =? 0 then mret (impl, LIBBGP_ERR_INVALID)
  else
    route ← rib_find_locked impl source_router_id prefix;
    match route with
    | None => mret (impl, LIBBGP_ERR_NOT_FOUND)
    | Some route =>
        if rr_update_id (ro_route route) =? update_id
        then rib_withdraw_locked impl source_router_id prefix
        else mret (impl, LIBBGP_OK)
    end.

Definition bgp_rib_withdraw_exact_save (impl : rib_impl_t) (source_router_id : Z) (prefix : Prefix)
    : M (rib_impl_t * option entry_ptr) :=
  rib_detach_locked impl source_router_id prefix.

(** The table, the error code and what [saved] holds afterwards. *)
Definition bgp_rib_restore_saved_if_absent (impl : rib_impl_t) (source_router_id : Z)
    (saved : option entry_ptr) : M (rib_impl_t * libbgp_err_t * option entry_ptr) :=
  match saved with
  | None => mret (impl, LIBBGP_OK, saved)
  | Some entry =>
      let route := ro_route (e_value entry) in
      if negb (rr_source_router_id route =? source_router_id)
      then mret (impl, LIBBGP_ERR_INVALID, saved)
      else
        found ← rib_find_locked impl source_router_id (rr_prefix route);
        match found with
        | Some _ => mret (impl, LIBBGP_OK, saved)
        | None =>
            '(impl, e) ← rib_attach_detached_locked impl entry;
            mret (impl, e, if decide (e = LIBBGP_OK) then None else saved)
        end
  end.
End RibTable.
