(* ===== verification/RibDecision.v ===== *)
(** * The decision process of the routing tables

    The comparison of two routes without the caches, when it is an order, and
    what the scans for the best route compute. *)

From stdpp Require Import gmap.
From S2P Require Import Prelude Bytes Pattr As4 Hashmap Rib RibTable.

Section Decision.
Context `{family : Family} {host : Host}.
Implicit Types (a b c r : libbgp_rib_route_t) (p q : route_ptr).

(** ** The comparison *)

Definition pref_of r : Z := if rr_local_pref r =? 0 then 100 else rr_local_pref r.

(** Both routes come through the same neighbouring AS, so that their MEDs can
    be compared. *)
Definition same_neighbor a b : bool :=
  match rib_neighbor_as a, rib_neighbor_as b with
  | Some x, Some y => x =? y
  | _, _ => false
  end.

(** RFC 4271 section 9.1: highest weight and LOCAL_PREF, shortest AS_PATH,
    lowest origin, lowest MED from the same neighbour, eBGP over iBGP, the
    older route, the lowest router id. *)
Definition rib_better a b : bool :=
  if negb (rr_weight a =? rr_weight b) then rr_weight b <? rr_weight a
  else if negb (pref_of a =? pref_of b) then pref_of b <? pref_of a
  else if negb (rr_as_path_len a =? rr_as_path_len b) then rr_as_path_len a <? rr_as_path_len b
  else if negb (rr_origin a =? rr_origin b) then rr_origin a <? rr_origin b
  else if negb (rr_med a =? rr_med b) && same_neighbor a b then rr_med a <? rr_med b
  else if negb (Bool.eqb (rr_is_ibgp a) (rr_is_ibgp b)) then negb (rr_is_ibgp a)
  else if negb (rr_update_id a =? rr_update_id b) then rr_update_id a <? rr_update_id b
  else bgp_router_id_cmp (rr_source_router_id a) (rr_source_router_id b) <? 0.

(** A filled cache holds the neighbour of its route. *)
Definition cache_ok r (c : rib_neighbor_as_cache_t) : Prop :=
  nc_ready c = true →
  match rib_neighbor_as r with
  | Some x => nc_valid c = true ∧ nc_value c = x
  | None => nc_valid c = false
  end.

Lemma cached_spec r (c : rib_neighbor_as_cache_t) :
  cache_ok r c →
  cache_ok r (rib_neighbor_as_cached r c).2 ∧
  (rib_neighbor_as_cached r c).1 = bool_decide (is_Some (rib_neighbor_as r)) ∧
  (∀ x, rib_neighbor_as r = Some x → nc_value (rib_neighbor_as_cached r c).2 = x).
Proof.
  unfold rib_neighbor_as_cached, cache_ok. intros Hc. destruct (nc_ready c) eqn:Hr.
  - specialize (Hc eq_refl). cbn [fst snd]. split; [done|].
    destruct (rib_neighbor_as r) as [x|]; [destruct Hc as [-> ->]|rewrite Hc]; split; try done; naive_solver.
  - destruct (rib_neighbor_as r); cbn; split_and!; try done; naive_solver.
Qed.

(** The caches do not change the answer. *)
Lemma better_cached_spec a ca b cb :
  cache_ok a ca → cache_ok b cb →
  (rib_better_cached a ca b cb).1.1 = rib_better a b ∧
  cache_ok a (rib_better_cached a ca b cb).1.2 ∧ cache_ok b (rib_better_cached a ca b cb).2.
Proof.
  intros Ha Hb. unfold rib_better_cached, rib_better. fold (pref_of a) (pref_of b).
  destruct (cached_spec a ca Ha) as (Hca & Hva & Hxa), (cached_spec b cb Hb) as (Hcb & Hvb & Hxb).
  destruct (negb (rr_weight a =? rr_weight b)); [done|]. destruct (negb (pref_of a =? pref_of b)); [done|].
  destruct (negb (rr_as_path_len a =? rr_as_path_len b)); [done|].
  destruct (negb (rr_origin a =? rr_origin b)); [done|].
  destruct (negb (rr_med a =? rr_med b)); cbn [andb]; [|done]. unfold same_neighbor.
  destruct (rib_neighbor_as_cached a ca) as [va ca'], (rib_neighbor_as_cached b cb) as [vb cb'].
  cbn [fst snd] in *. subst va vb. destruct (rib_neighbor_as a) as [x|]; [|done].
  rewrite (Hxa x eq_refl). cbn. destruct (rib_neighbor_as b) as [y|]; [|done].
  rewrite (Hxb y eq_refl). cbn. by destruct (x =? y).
Qed.

(** ** Scans *)

Definition pick p (best : option route_ptr) : option route_ptr :=
  match best with
  | None => Some p
  | Some q => if rib_better (ro_route p) (ro_route q) then Some p else Some q
  end.

Definition best_of (ps : list route_ptr) : option route_ptr :=
  foldl (λ best p, pick p best) None ps.

Definition scan_ok (best : option (route_ptr * rib_neighbor_as_cache_t)) : Prop :=
  match best with Some (q, c) => cache_ok (ro_route q) c | None => True end.

Lemma consider_spec p best :
  scan_ok best → scan_ok (consider p best) ∧ fst <$> consider p best = pick p (fst <$> best).
Proof.
  destruct best as [[q c]|]; intros Hok; [|by split].
  destruct (better_cached_spec (ro_route p) empty_cache (ro_route q) c) as (Hb & Hp & Hq); [done..|].
  unfold consider. cbn. destruct (rib_better_cached _ _ _ _) as [[better cp] cq]. cbn [fst snd] in *.
  subst better. by destruct (rib_better _ _).
Qed.

Lemma consider_foldl ps best :
  scan_ok best →
  fst <$> foldl (λ best p, consider p best) best ps = foldl (λ best p, pick p best) (fst <$> best) ps.
Proof.
  revert best. induction ps as [|p ps IH]; intros best Hok; [done|].
  cbn [foldl]. destruct (consider_spec p best Hok) as [Hok' He]. by rewrite IH, He.
Qed.

Lemma group_best_spec (group : rib_lpm_entry_t) :
  rib_lpm_group_best_locked group = best_of (e_value <$> ge_entries group).
Proof.
  unfold rib_lpm_group_best_locked, best_of. rewrite <-(consider_foldl _ None) by done.
  f_equal. generalize (@None (route_ptr * rib_neighbor_as_cache_t)).
  induction (ge_entries group) as [|e es IH]; intros best; [done|]. cbn [foldl fmap list_fmap]. apply IH.
Qed.

(** The entries the scan for an exact prefix looks at. *)
Definition exact_entry (prefix : Prefix) (e : entry_ptr) : bool :=
  entry_has_prefix prefix e && prefix_eq (rr_prefix (ro_route (e_value e))) prefix.

Lemma best_exact_loop_spec prefix chain :
  best_exact_loop prefix chain None =
  best_of (e_value <$> filter (λ e, exact_entry prefix e = true) chain).
Proof.
  unfold best_of. assert (∀ best, scan_ok best → best_exact_loop prefix chain best =
    foldl (λ best p, pick p best) (fst <$> best)
      (e_value <$> filter (λ e, exact_entry prefix e = true) chain)) as H; [|by apply (H None)].
  induction chain as [|e chain IH]; intros best Hok; [done|]. cbn [best_exact_loop].
  rewrite filter_cons. fold (exact_entry prefix e). destruct (exact_entry prefix e).
  - destruct (consider_spec (e_value e) best Hok) as [Hok' He]. cbn. by rewrite IH, He.
  - by apply IH.
Qed.

Lemma best_of_snoc ps p : best_of (ps ++ [p]) = pick p (best_of ps).
Proof. unfold best_of. by rewrite foldl_app. Qed.

Lemma pick_some p best : is_Some (pick p best).
Proof. destruct best; [|by eauto]. cbn. case_match; eauto. Qed.

Lemma best_of_None ps : best_of ps = None ↔ ps = [].
Proof.
  split; [|by intros ->]. destruct ps as [|p ps _] using rev_ind; [done|].
  rewrite best_of_snoc. intros He. destruct (pick_some p (best_of ps)). congruence.
Qed.

Lemma best_of_elem ps q : best_of ps = Some q → q ∈ ps.
Proof.
  revert q. induction ps as [|p ps IH] using rev_ind; intros q; [done|].
  rewrite best_of_snoc. unfold pick. destruct (best_of ps) as [q'|]; [|set_solver].
  specialize (IH q' eq_refl). case_match; set_solver.
Qed.

(** ** When the comparison is an order *)

(** MEDs that differ can be compared. *)
Definition comparable a b : Prop := rr_med a = rr_med b ∨ same_neighbor a b = true.

Definition all_comparable (ps : list route_ptr) : Prop :=
  ∀ p q, p ∈ ps → q ∈ ps → comparable (ro_route p) (ro_route q).

(** What is compared, in the order in which it is compared. *)
Definition rank r : list Z :=
  [- rr_weight r; - pref_of r; rr_as_path_len r; rr_origin r; rr_med r;
   if rr_is_ibgp r then 1 else 0; rr_update_id r] ++ mem_of_u32 (rr_source_router_id r).

#[global] Arguments rank : simpl never.

Lemma rank_length r : length (rank r) = 11%nat.
Proof. unfold rank. by rewrite length_app, mem_of_u32_length. Qed.

Lemma better_rank a b : comparable a b → rib_better a b = (memcmp (rank a) (rank b) <? 0).
Proof.
  intros Hm. unfold rib_better, rank. cbn [app memcmp].
  destruct (Z.eqb_spec (rr_weight a) (rr_weight b)) as [->|?]; cbn [negb].
  2:{ replace (- rr_weight a =? - rr_weight b) with false by lia. lia. }
  rewrite Z.eqb_refl. destruct (Z.eqb_spec (pref_of a) (pref_of b)) as [->|?]; cbn [negb].
  2:{ replace (- pref_of a =? - pref_of b) with false by lia. lia. }
  rewrite Z.eqb_refl. destruct (Z.eqb_spec (rr_as_path_len a) (rr_as_path_len b)); cbn [negb]; [|lia].
  destruct (Z.eqb_spec (rr_origin a) (rr_origin b)); cbn [negb]; [|lia].
  destruct (Z.eqb_spec (rr_med a) (rr_med b)); cbn [negb andb].
  2:{ destruct Hm as [?|Hm]; [done|]. rewrite Hm. lia. }
  destruct (rr_is_ibgp a), (rr_is_ibgp b); cbn; try done;
    (destruct (Z.eqb_spec (rr_update_id a) (rr_update_id b)); cbn [negb]; [done|lia]).
Qed.

Lemma rank_trans a b c :
  memcmp (rank a) (rank b) < 0 → memcmp (rank b) (rank c) < 0 → memcmp (rank a) (rank c) < 0.
Proof. apply memcmp_trans; by rewrite !rank_length. Qed.

Lemma rank_antisym a b : memcmp (rank a) (rank b) = - memcmp (rank b) (rank a).
Proof. apply memcmp_antisym. by rewrite !rank_length. Qed.

Lemma rank_eq a b : memcmp (rank a) (rank b) = 0 ↔ rank a = rank b.
Proof. apply memcmp_eq. by rewrite !rank_length. Qed.

Lemma rank_le_trans a b c :
  memcmp (rank a) (rank b) <= 0 → memcmp (rank b) (rank c) <= 0 → memcmp (rank a) (rank c) <= 0.
Proof.
  intros H1 H2. destruct (decide (memcmp (rank a) (rank b) = 0)) as [He|?].
  { apply rank_eq in He. by rewrite He. }
  destruct (decide (memcmp (rank b) (rank c) = 0)) as [He|?]; [apply rank_eq in He; by rewrite <-He|].
  pose proof (rank_trans a b c). lia.
Qed.

Lemma best_of_optimal ps q :
  all_comparable ps → best_of ps = Some q →
  ∀ p, p ∈ ps → memcmp (rank (ro_route q)) (rank (ro_route p)) <= 0.
Proof.
  revert q. induction ps as [|x ps IH] using rev_ind; intros q Hc; [done|].
  rewrite best_of_snoc. assert (Hc' : all_comparable ps).
  { intros ????. apply Hc; set_solver. }
  unfold pick. destruct (best_of ps) as [q'|] eqn:Hq'.
  - pose proof (best_of_elem _ _ Hq') as Hin. specialize (IH q' Hc' eq_refl).
    rewrite better_rank by (apply Hc; set_solver).
    pose proof (rank_antisym (ro_route x) (ro_route q')).
    assert (Hrefl : memcmp (rank (ro_route x)) (rank (ro_route x)) = 0) by by apply rank_eq.
    destruct (_ <? 0) eqn:Hlt; intros [= <-] p [Hp| ->%list_elem_of_singleton]%elem_of_app; [|lia|by apply IH|lia].
    eapply rank_le_trans; [|by apply IH]. lia.
  - intros [= <-] p. apply best_of_None in Hq' as ->. intros ->%list_elem_of_singleton.
    assert (memcmp (rank (ro_route x)) (rank (ro_route x)) = 0) by by apply rank_eq. lia.
Qed.
End Decision.
