(* ===== verification/RibIndex.v ===== *)
(** * Indexes of the routing table

    The two indexes of a routing table have one shape: a hash map from a key of
    an entry to the object that lists the entries with this key.  [index_rep]
    says that such an index is exactly the partition of the entries [R] of the
    table by their key; the lemmas are the ways the table operations change it. *)

From stdpp Require Import gmap.
From S2P Require Import Prelude Hashmap HashmapSpec Rib RibTable.

Section Drop.
Context {K : Type} `{!HashKey K} (kok : K -> Prop) `{!HashKeyLaws K kok}.
Context (key_eq_ok : ∀ k k', kok k → kok k' → key_eq k k' = true ↔ k = k').

(** Removing the object of a key. *)
Lemma runs_index_drop (T : bool) (map : bgp_hashmap_t K Z) k p :
  hm_inv kok map → kok k → (k, p) ∈ contents map →
  runs T (bgp_hashmap_remove_one map k (Some p)) (λ r,
    hm_inv kok r.1.1 ∧ r.2 = [(k, p)] ∧ contents map ≡ₚ (k, p) :: contents r.1.1).
Proof.
  intros Hm Hk Hin. eapply runs_mono; [by apply (runs_remove kok)|].
  intros [[map' e0] freed]. cbn [fst snd].
  intros (Hm' & [([k' q] & _ & -> & Hp & Hc)|(_ & _ & _ & Hnone)]).
  - unfold pair_is in Hp. cbn [fst snd value_matches] in Hp. apply andb_true_iff in Hp as [Hke Hq].
    apply Z.eqb_eq in Hq as ->. apply key_eq_ok in Hke as ->; [done| |done].
    apply (contents_ok kok map k' p Hm). rewrite Hc. set_solver.
  - exfalso. rewrite Forall_forall in Hnone. specialize (Hnone _ Hin). unfold pair_is in Hnone.
    cbn [fst snd value_matches] in Hnone. rewrite (proj2 (key_eq_ok _ _ Hk Hk) eq_refl) in Hnone.
    unfold same_ptr, object_pointer in Hnone. lia.
Qed.
End Drop.

Section Index.
Context {K A E : Type} `{!HashKey K} (kok : K -> Prop) `{!HashKeyLaws K kok}.
Context (key_eq_ok : ∀ k k', kok k → kok k' → key_eq k k' = true ↔ k = k').
Context (f : E -> K) (ents : A -> list E) (good : K -> A -> Prop).
Implicit Types (map : bgp_hashmap_t K Z) (mem : gmap Z A) (R : list E) (e : E) (o : A) (k : K) (b p : Z).

(** The entries with key [k]. *)
Definition with_key k R : list E := filter (λ e, key_eq (f e) k = true) R.

Record index_rep map mem b R : Prop := {
  ix_hm : hm_inv kok map;
  ix_keys : NoDup (contents map).*1;
  ix_ptrs : NoDup (contents map).*2;
  ix_obj k p : (k, p) ∈ contents map →
    p < b ∧ ∃ o, mem !! p = Some o ∧ good k o ∧ ents o ≠ [] ∧ ents o ≡ₚ with_key k R;
  ix_complete e : e ∈ R → kok (f e) ∧ f e ∈ (contents map).*1
}.

#[export] Instance with_key_proper k : Proper ((≡ₚ) ==> (≡ₚ)) (with_key k).
Proof. intros R R' HR. unfold with_key. by rewrite HR. Qed.

Lemma with_key_same k e R : kok k → f e = k → with_key k (e :: R) = e :: with_key k R.
Proof.
  intros Hk <-. unfold with_key. rewrite filter_cons, decide_True; [done|]. by apply key_eq_ok.
Qed.

Lemma with_key_other k e R : kok k → kok (f e) → f e ≠ k → with_key k (e :: R) = with_key k R.
Proof.
  intros Hk He Hne. unfold with_key. rewrite filter_cons, decide_False; [done|].
  by intros ?%key_eq_ok.
Qed.

Lemma elem_of_with_key k e R : e ∈ with_key k R ↔ key_eq (f e) k = true ∧ e ∈ R.
Proof. unfold with_key. by rewrite list_elem_of_filter. Qed.

Lemma index_key_ok map mem b R k p : index_rep map mem b R → (k, p) ∈ contents map → kok k.
Proof. intros Hi. apply contents_ok, Hi. Qed.

Lemma index_ptr_inj map mem b R k k' p :
  index_rep map mem b R → (k, p) ∈ contents map → (k', p) ∈ contents map → k = k'.
Proof.
  intros Hi [i Hk]%list_elem_of_lookup [j Hk']%list_elem_of_lookup.
  pose proof (NoDup_lookup _ i j p (ix_ptrs _ _ _ _ Hi)) as H.
  rewrite !list_lookup_fmap, Hk, Hk' in H. specialize (H eq_refl eq_refl). congruence.
Qed.

Lemma index_key_inj map mem b R k p p' :
  index_rep map mem b R → (k, p) ∈ contents map → (k, p') ∈ contents map → p = p'.
Proof.
  intros Hi [i Hk]%list_elem_of_lookup [j Hk']%list_elem_of_lookup.
  pose proof (NoDup_lookup _ i j k (ix_keys _ _ _ _ Hi)) as H.
  rewrite !list_lookup_fmap, Hk, Hk' in H. specialize (H eq_refl eq_refl). congruence.
Qed.

Lemma index_init map : hm_inv kok map → contents map = [] → index_rep map ∅ 1 [].
Proof.
  intros Hm Hc. split; rewrite ?Hc; try done; [by constructor..| |]; intros ? Hin; set_solver.
Qed.

(** A key without an object has no entries. *)
Lemma index_absent map mem b R k :
  index_rep map mem b R → kok k → k ∉ (contents map).*1 → with_key k R = [].
Proof.
  intros Hi Hk Hn. apply filter_none, Forall_forall. intros e He Heq.
  destruct (ix_complete _ _ _ _ Hi e He) as [Hfe Hin]. apply key_eq_ok in Heq as <-; done.
Qed.

Lemma runs_index_find (T : bool) map mem b R k :
  index_rep map mem b R → kok k →
  runs T (bgp_hashmap_find_first map k) (λ r,
    match r with
    | Some p => ∃ o, (k, p) ∈ contents map ∧ mem !! p = Some o ∧ p < b ∧ good k o ∧
                  ents o ≠ [] ∧ ents o ≡ₚ with_key k R
    | None => (k ∉ (contents map).*1) ∧ with_key k R = []
    end).
Proof.
  intros Hi Hk. eapply runs_mono; [apply (runs_find kok); [done|apply Hi]|]. intros [p|].
  - intros (k' & Hin & Heq). apply key_eq_ok in Heq as ->; [|by eapply index_key_ok|done].
    destruct (ix_obj _ _ _ _ Hi k p Hin) as (? & o & ? & ? & ? & ?). eauto 10.
  - intros Hn. assert (k ∉ (contents map).*1) as Hk'.
    { intros ([k' p] & -> & Hin)%list_elem_of_fmap. rewrite Forall_forall in Hn.
      specialize (Hn _ Hin). unfold key_is in Hn. cbn in Hn.
      assert (key_eq k' k' = true) by by apply key_eq_ok. congruence. }
    split; [done|]. by eapply index_absent.
Qed.

(** *** Changes *)

Lemma index_perm map mem b R R' : R ≡ₚ R' → index_rep map mem b R → index_rep map mem b R'.
Proof.
  intros HR [H1 H2 H3 H4 H5]. split; try done.
  - intros k p Hin. destruct (H4 k p Hin) as (? & o & ? & ? & ? & He). split; [done|].
    exists o. split_and!; try done. by rewrite He, HR.
  - intros e. rewrite <-HR. apply H5.
Qed.

#[export] Instance index_proper map mem b : Proper ((≡ₚ) ==> iff) (index_rep map mem b).
Proof. intros R R' HR. split; apply index_perm; done. Qed.

(** The table was resized, or more addresses were taken. *)
Lemma index_rehash map map' mem b b' R :
  index_rep map mem b R → hm_inv kok map' → contents map' ≡ₚ contents map → b <= b' →
  index_rep map' mem b' R.
Proof.
  intros [H1 H2 H3 H4 H5] Hm Hc Hb. split; [done| | | |].
  - by rewrite Hc.
  - by rewrite Hc.
  - intros k p. rewrite Hc. intros Hin. destruct (H4 k p Hin) as [? ?]. split; [lia|done].
  - intros e He. destruct (H5 e He). split; [done|]. by rewrite Hc.
Qed.

(** The object of a key changes, and with it the entries of the table that
    have this key. *)
Lemma index_update map mem b R R' k p o' :
  index_rep map mem b R → (k, p) ∈ contents map → good k o' → ents o' ≠ [] →
  ents o' ≡ₚ with_key k R' →
  (∀ k', kok k' → k' ≠ k → with_key k' R' ≡ₚ with_key k' R) →
  (∀ e, e ∈ R' → e ∈ R ∨ f e = k) →
  index_rep map (<[p := o']> mem) b R'.
Proof.
  intros Hi Hin Hg Hne He Hother Hsub. pose proof (index_key_ok _ _ _ _ _ _ Hi Hin) as Hk.
  pose proof Hi as [H1 H2 H3 H4 H5]. split; try done.
  - intros k' p' Hin'. destruct (H4 k' p' Hin') as (Hb & o & Ho & ? & ? & ?). split; [done|].
    destruct (decide (p = p')) as [<-|Hp].
    + rewrite lookup_insert_eq. assert (k' = k) as -> by (by eapply index_ptr_inj). eauto.
    + rewrite lookup_insert_ne by done. exists o. split_and!; try done.
      rewrite Hother; [done| |]; [by eapply index_key_ok|]. intros ->. apply Hp.
      by eapply index_key_inj.
  - intros e [HR| <-]%Hsub; [by apply H5|]. split; [done|]. apply list_elem_of_fmap. by exists (f e, p).
Qed.

Lemma index_add_old map mem b R p o o' e :
  index_rep map mem b R → (f e, p) ∈ contents map → mem !! p = Some o →
  good (f e) o' → ents o' ≡ₚ e :: ents o → index_rep map (<[p := o']> mem) b (e :: R).
Proof.
  intros Hi Hin Ho Hg He. pose proof (index_key_ok _ _ _ _ _ _ Hi Hin) as Hk.
  destruct (ix_obj _ _ _ _ Hi _ _ Hin) as (_ & o1 & Ho1 & _ & _ & Hents). simplify_eq.
  eapply index_update; try done.
  - intros Hn. rewrite Hn in He. by apply Permutation_nil_cons in He.
  - by rewrite with_key_same, He, Hents.
  - intros k' Hk' Hne. by rewrite with_key_other.
  - intros e' [->|?]%elem_of_cons; auto.
Qed.

Lemma index_add_new map map' mem b b' R p o e :
  index_rep map mem b R → hm_inv kok map' → contents map' ≡ₚ (f e, p) :: contents map →
  kok (f e) → f e ∉ (contents map).*1 → b <= p < b' → good (f e) o → ents o = [e] →
  index_rep map' (<[p := o]> mem) b' (e :: R).
Proof.
  intros Hi Hm Hc Hk Hn Hp Hg He. pose proof (index_absent _ _ _ _ _ Hi Hk Hn) as Habs.
  pose proof Hi as [H1 H2 H3 H4 H5].
  assert (Hfresh : ∀ k' p', (k', p') ∈ contents map → p' ≠ p ∧ k' ≠ f e).
  { intros k' p' Hin. split; [destruct (H4 _ _ Hin); lia|]. intros ->. apply Hn.
    apply list_elem_of_fmap. by exists (f e, p'). }
  split; [done| | | |].
  - rewrite Hc. by constructor.
  - rewrite Hc. constructor; [|done]. intros ([k' p'] & Hp' & Hin)%list_elem_of_fmap.
    destruct (Hfresh _ _ Hin). cbn in Hp'. congruence.
  - intros k' p'. rewrite Hc. intros [[= -> ->]|Hin]%elem_of_cons.
    + split; [lia|]. exists o. rewrite lookup_insert_eq, He, with_key_same, Habs by done. done.
    + destruct (Hfresh _ _ Hin). destruct (H4 _ _ Hin) as (? & o' & ? & ? & ? & ?). split; [lia|].
      exists o'. rewrite lookup_insert_ne, with_key_other by (done || by eapply contents_ok). done.
  - intros e'. rewrite Hc. intros [->|Hin]%elem_of_cons; [set_solver|].
    destruct (H5 _ Hin). set_solver.
Qed.

Lemma index_remove_some map mem b R R' p o o' e :
  index_rep map mem b R → R ≡ₚ e :: R' → (f e, p) ∈ contents map → mem !! p = Some o →
  good (f e) o' → ents o ≡ₚ e :: ents o' → ents o' ≠ [] → index_rep map (<[p := o']> mem) b R'.
Proof.
  intros Hi HR Hin Ho Hg He Hne. pose proof (index_key_ok _ _ _ _ _ _ Hi Hin) as Hk.
  destruct (ix_obj _ _ _ _ Hi _ _ Hin) as (_ & o1 & Ho1 & _ & _ & Hents). simplify_eq.
  eapply index_update; try done.
  - rewrite HR, with_key_same, He in Hents by done. by apply Permutation_cons_inv in Hents.
  - intros k' Hk' Hne'. by rewrite HR, with_key_other.
  - intros e' He'. left. rewrite HR. set_solver.
Qed.

(** The last entry of a key leaves, and its object with it. *)
Lemma index_remove_last map map' mem mem' b R R' p o e :
  index_rep map mem b R → R ≡ₚ e :: R' → mem !! p = Some o → ents o ≡ₚ [e] →
  hm_inv kok map' → contents map ≡ₚ (f e, p) :: contents map' →
  (∀ q, q ≠ p → mem' !! q = mem !! q) → index_rep map' mem' b R'.
Proof.
  intros Hi HR Ho He Hm Hc Hmem. pose proof Hi as [H1 H2 H3 H4 H5].
  assert (Hin : (f e, p) ∈ contents map) by (rewrite Hc; set_solver).
  pose proof (index_key_ok _ _ _ _ _ _ Hi Hin) as Hk. rewrite Hc in H2, H3.
  apply NoDup_cons in H2 as [H2 H2'], H3 as [H3 H3'].
  destruct (ix_obj _ _ _ _ Hi _ _ Hin) as (_ & o1 & Ho1 & _ & _ & Hents). simplify_eq.
  rewrite HR, with_key_same, He in Hents by done. apply Permutation_cons_inv, Permutation_nil_l in Hents.
  assert (Hsub : ∀ k' p', (k', p') ∈ contents map' → (k', p') ∈ contents map ∧ p' ≠ p ∧ k' ≠ f e).
  { intros k' p' Hin'. split; [rewrite Hc; set_solver|]. split; intros ->; [apply H3|apply H2];
      apply list_elem_of_fmap; (eexists; split; [|exact Hin']; done). }
  split; try done.
  - intros k' p' (Hin' & Hp & Hkne)%Hsub. destruct (H4 _ _ Hin') as (? & o' & ? & ? & ? & Ho').
    split; [done|]. exists o'. rewrite Hmem by done. split_and!; try done.
    rewrite Ho', HR, with_key_other; [done|by eapply contents_ok|done|done].
  - intros e' He'. destruct (H5 e') as [Hk' Hin']; [rewrite HR; set_solver|]. split; [done|].
    rewrite Hc in Hin'. cbn in Hin'. apply elem_of_cons in Hin' as [Heq|?]; [|done].
    assert (e' ∈ with_key (f e) R') as Hw; [|rewrite <-Hents in Hw; by apply elem_of_nil in Hw].
    apply elem_of_with_key. split; [|done]. by apply key_eq_ok.
Qed.

(** The entries with another key. *)
Definition without_key k R : list E := filter (λ e, ¬ key_eq (f e) k = true) R.

Lemma with_without k R : R ≡ₚ with_key k R ++ without_key k R.
Proof. symmetry. apply filter_app_complement. Qed.

Lemma with_key_without k k' R :
  (∀ e, e ∈ R → kok (f e)) → kok k → kok k' → k' ≠ k → with_key k' (without_key k R) = with_key k' R.
Proof.
  intros HR Hk Hk' Hne. unfold with_key, without_key. rewrite list_filter_filter. apply filter_agree.
  intros e He. split; [naive_solver|]. intros Heq. split; [done|]. rewrite key_eq_ok in Heq |- *; auto. congruence.
Qed.

(** A key leaves with all its entries. *)
Lemma index_remove_key map map' mem mem' b R k p :
  index_rep map mem b R → kok k → hm_inv kok map' → contents map ≡ₚ (k, p) :: contents map' →
  (∀ q, q ≠ p → mem' !! q = mem !! q) → index_rep map' mem' b (without_key k R).
Proof.
  intros Hi Hk Hm Hc Hmem. pose proof Hi as [H1 H2 H3 H4 H5].
  rewrite Hc in H2, H3. apply NoDup_cons in H2 as [H2 H2'], H3 as [H3 H3'].
  assert (Hsub : ∀ k' p', (k', p') ∈ contents map' → (k', p') ∈ contents map ∧ p' ≠ p ∧ k' ≠ k).
  { intros k' p' Hin'. split; [rewrite Hc; set_solver|]. split; intros ->; [apply H3|apply H2];
      apply list_elem_of_fmap; (eexists; split; [|exact Hin']; done). }
  split; try done.
  - intros k' p' (Hin' & Hp & Hkne)%Hsub. destruct (H4 _ _ Hin') as (? & o' & ? & ? & ? & Ho').
    split; [done|]. exists o'. rewrite Hmem by done. split_and!; try done.
    rewrite with_key_without; [done| |done| |done]; [by intros e He; apply H5|by eapply index_key_ok].
  - intros e [Hne HR]%list_elem_of_filter. destruct (H5 e HR) as [Hke Hin]. split; [done|].
    rewrite Hc in Hin. apply elem_of_cons in Hin as [Heq|?]; [|done]. cbn in Heq. by rewrite key_eq_ok in Hne.
Qed.
End Index.
