(* ===== verification/RibInv.v ===== *)
(** * The invariant of the routing tables

    What a table of entries [R] looks like in memory: the map of routes, the
    index by source, the index by prefix and the radix tree.  Each index
    operation is proved to move its part of the invariant from one list of
    entries to another. *)

From stdpp Require Import gmap.
From S2P Require Import Prelude Bytes Radix Pattr As4 Hashmap HashmapSpec Rib RibTable RibDecision RibIndex.

(** ** What the code asks of an address family *)

Definition prefix_bits `{Family} (p : Prefix) : list bool :=
  directions radix_bit (prefix_addr p) (prefix_len p).

Class FamilyLaws `{Family} (prefix_ok : Prefix -> Prop) (addr_ok : Addr -> Prop) : Prop := {
  fam_width : 0 <= width;
  fam_sizes : 0 < sizeof_prefix <= 1024 ∧ 0 < sizeof_route <= 1024;
  fam_len p : prefix_ok p → 0 <= prefix_len p <= width;
  fam_eq p q : prefix_ok p → prefix_ok q → prefix_eq p q = true ↔ p = q;
  fam_norm_ok p : prefix_ok p → prefix_ok (rib_lpm_normalize_prefix p);
  fam_norm_len p : prefix_ok p → prefix_len (rib_lpm_normalize_prefix p) = prefix_len p;
  fam_norm_idemp p : prefix_ok p →
    rib_lpm_normalize_prefix (rib_lpm_normalize_prefix p) = rib_lpm_normalize_prefix p;
  fam_norm_inj p q : prefix_ok p → prefix_ok q →
    prefix_bits (rib_lpm_normalize_prefix p) = prefix_bits (rib_lpm_normalize_prefix q) →
    rib_lpm_normalize_prefix p = rib_lpm_normalize_prefix q;
  fam_matches p a : prefix_ok p → addr_ok a →
    rib_addr_matches p a = true ↔
    prefix_bits (rib_lpm_normalize_prefix p) =
      take (Z.to_nat (prefix_len p)) (directions radix_bit a width)
}.

Section Inv.
Context `{family : Family} {host : Host}.
Context (prefix_ok : Prefix -> Prop) (addr_ok : Addr -> Prop) `{!FamilyLaws prefix_ok addr_ok}.

#[export] Instance prefix_key_laws : HashKeyLaws Prefix prefix_ok.
Proof. intros k k' Hk Hk' He. apply fam_eq in He as ->; done. Qed.

#[export] Instance source_key_laws : HashKeyLaws Z (λ _, True).
Proof. by intros k k' _ _ ->%Z.eqb_eq. Qed.

Lemma source_eq_ok (k k' : Z) : True → True → key_eq k k' = true ↔ k = k'.
Proof. intros _ _. apply Z.eqb_eq. Qed.

Lemma prefix_eq_ok (k k' : Prefix) : prefix_ok k → prefix_ok k' → key_eq k k' = true ↔ k = k'.
Proof. apply fam_eq. Qed.

(** ** Entries *)

Implicit Types (e : entry_ptr) (R : list entry_ptr) (impl : rib_impl_t).

Definition addr_of e : Z := ro_addr (e_value e).
Definition route_of e : libbgp_rib_route_t := ro_route (e_value e).
Definition src_of e : Z := rr_source_router_id (route_of e).
Definition group_of e : Prefix := rib_lpm_normalize_prefix (rr_prefix (route_of e)).

Record entry_ok (bound : Z) e : Prop := {
  eo_key : e_key e = rr_prefix (route_of e);
  eo_prefix : prefix_ok (e_key e);
  eo_hash : e_hash e = rib_hash (e_key e);
  eo_addr : addr_of e < bound
}.

(** Distinct entries are distinct objects. *)
Definition entries_ok (bound : Z) R : Prop := Forall (entry_ok bound) R ∧ NoDup (addr_of <$> R).

Lemma same_entry_addr e e' : same_entry e e' = true ↔ addr_of e = addr_of e'.
Proof. apply Z.eqb_eq. Qed.

Lemma entries_ok_inj b R e e' :
  entries_ok b R → e ∈ R → e' ∈ R → same_entry e e' = true → e = e'.
Proof.
  intros [_ Hn] [i Hi]%list_elem_of_lookup [j Hj]%list_elem_of_lookup Ha%same_entry_addr.
  pose proof (NoDup_lookup _ i j (addr_of e) Hn) as H. rewrite !list_lookup_fmap, Hi, Hj in H.
  cbn in H. rewrite Ha in H. specialize (H eq_refl eq_refl). congruence.
Qed.

#[export] Instance entries_ok_proper b : Proper ((≡ₚ) ==> iff) (entries_ok b).
Proof. intros R R' HR. unfold entries_ok. by rewrite HR. Qed.

Lemma entries_ok_cons b e R : entries_ok b (e :: R) → entries_ok b R.
Proof. intros [Hf Hn]. apply Forall_cons in Hf as [_ ?]. apply NoDup_cons in Hn as [_ ?]. by split. Qed.

Lemma entries_ok_mono b b' R : b <= b' → entries_ok b R → entries_ok b' R.
Proof.
  intros Hb [Hf Hn]. split; [|done]. eapply Forall_impl; [exact Hf|]. intros e []. split; [done..|lia].
Qed.

(** *** Arrays *)

Lemma swap_remove_perm (entries : list entry_ptr) i e :
  entries !! i = Some e → entries ≡ₚ e :: swap_remove entries i.
Proof.
  intros Hi. unfold swap_remove. destruct entries as [|l entries _] using rev_ind; [done|].
  rewrite last_snoc. rewrite length_app. cbn [length].
  replace (length entries + 1 - 1)%nat with (length entries) by lia.
  apply lookup_app_Some in Hi as [Hi|[Hge Hi]].
  - pose proof (lookup_lt_Some _ _ _ Hi) as Hlt.
    rewrite insert_app_l, take_app_le, take_ge by (rewrite ?length_insert; lia).
    rewrite insert_take_drop by done. rewrite <-(take_drop_middle entries i e Hi) at 1.
    rewrite (Permutation_app_comm _ [l]). cbn [app]. rewrite <-!Permutation_middle.
    apply Permutation_swap.
  - apply list_lookup_singleton_Some in Hi as [Hi <-].
    replace i with (length entries + 0)%nat by lia.
    rewrite insert_app_r, take_app_length. cbn. by rewrite Permutation_app_comm.
Qed.

Lemma array_find_spec (entries : list entry_ptr) e :
  match array_find entries e with
  | Some i => ∃ e', entries !! i = Some e' ∧ same_entry e' e = true
  | None => e ∉ entries
  end.
Proof.
  induction entries as [|e' entries IH]; [apply not_elem_of_nil|]. cbn [array_find].
  destruct (same_entry e' e) eqn:Hs; [by exists e'|]. destruct (array_find entries e); [done|].
  cbn. apply not_elem_of_cons. split; [|done]. intros ->.
  assert (same_entry e' e' = true) by by apply same_entry_addr. congruence.
Qed.

(** Taking an entry out of an array that holds it. *)
Lemma array_remove b R (entries : list entry_ptr) e :
  entries_ok b R → e ∈ R → e ∈ entries → (∀ e', e' ∈ entries → e' ∈ R) →
  ∃ i, array_find entries e = Some i ∧ entries ≡ₚ e :: swap_remove entries i.
Proof.
  intros Hok Hin He Hsub. pose proof (array_find_spec entries e) as H.
  destruct (array_find entries e) as [i|]; [|done]. destruct H as (e' & Hi & Hs).
  assert (e' = e) as -> by (eapply entries_ok_inj; try done; apply Hsub; by eapply list_elem_of_lookup_2).
  exists i. split; [done|]. by apply swap_remove_perm.
Qed.

(** The pointer arrays grow; the bound on the table keeps the capacity small. *)
Lemma runs_grow_pointers T n cap (Q : option Z -> Prop) :
  0 <= n < 2 ^ 40 → n <= cap <= 2 ^ 41 →
  (∀ cap', n < cap' <= 2 ^ 41 → Q (Some cap')) → (T = false → Q None) →
  runs T (grow_pointers n cap) Q.
Proof.
  intros Hn Hc Hs Hf. unfold grow_pointers. destruct (cap <=? n) eqn:Hle; [|apply runs_ret, Hs; lia].
  assert (Hmax : SIZE_MAX / 2 = 2 ^ 63 - 1) by done.
  assert (Hptr : SIZE_MAX / SIZEOF_POINTER = 2 ^ 61 - 1) by done. rewrite Hmax, Hptr.
  assert (Hcap : n < (if cap =? 0 then 1 else u64 (cap * 2)) <= 2 ^ 41).
  { unfold u64. destruct (cap =? 0) eqn:Hz; [lia|]. rewrite Z.mod_small; lia. }
  replace (_ || _) with false by lia. apply runs_alloc; [apply runs_ret, Hs; lia|].
  intros HT. by apply runs_ret, Hf.
Qed.

(** ** The parts of the invariant *)

Definition good_source (id : Z) (o : rib_source_entry_t) : Prop :=
  se_source_router_id o = id ∧ zlen (se_entries o) <= se_cap o <= 2 ^ 41.

Definition src_rep := index_rep (λ _ : Z, True) src_of se_entries good_source.

Definition src_inv impl R : Prop :=
  src_rep (ri_sources impl) (ri_src_mem impl) (ri_next_addr impl) R.

(** The best route of a group is one of its routes; when the comparison is an
    order on the table ([cmp]), it is the most preferred. *)
Definition good_group (cmp : bool) (k : Prefix) (g : rib_lpm_entry_t) : Prop :=
  ge_prefix g = k ∧ rib_lpm_normalize_prefix k = k ∧
  zlen (ge_entries g) <= ge_cap g <= 2 ^ 41 ∧
  ∃ best, ge_best g = Some best ∧ best ∈ e_value <$> ge_entries g ∧
    (cmp = true → ∀ e, e ∈ ge_entries g → memcmp (rank (ro_route best)) (rank (route_of e)) <= 0).

Definition grp_rep (cmp : bool) := index_rep prefix_ok group_of ge_entries (good_group cmp).

(** The tree maps the bits of every group to its best route. *)
Definition tree_rep (groups : bgp_hashmap_t Prefix Z) (mem : gmap Z rib_lpm_entry_t)
    (tree : radix_tree route_ptr) : Prop :=
  ∃ m, radix_rep tree m ∧
    ∀ ds v, m !! ds = Some v ↔
      ∃ k p g, (k, p) ∈ contents groups ∧ mem !! p = Some g ∧ ds = prefix_bits k ∧ v = ge_best g.

Definition grp_inv (cmp : bool) impl R : Prop :=
  grp_rep cmp (ri_lpm_groups impl) (ri_grp_mem impl) (ri_next_addr impl) R ∧
  tree_rep (ri_lpm_groups impl) (ri_grp_mem impl) (ri_lpm_tree impl).

Definition routes_inv impl R : Prop :=
  hm_inv prefix_ok (ri_routes impl) ∧ concat (buckets (ri_routes impl)) ≡ₚ R ∧
  entries_ok (ri_next_addr impl) R.

(** Frames: what an operation on one part leaves alone. *)
Definition src_frame impl impl' : Prop :=
  ri_routes impl' = ri_routes impl ∧ ri_lpm_groups impl' = ri_lpm_groups impl ∧
  ri_grp_mem impl' = ri_grp_mem impl ∧ ri_lpm_tree impl' = ri_lpm_tree impl ∧
  ri_next_update_id impl' = ri_next_update_id impl ∧ ri_next_addr impl <= ri_next_addr impl'.

Definition grp_frame impl impl' : Prop :=
  ri_routes impl' = ri_routes impl ∧ ri_sources impl' = ri_sources impl ∧
  ri_src_mem impl' = ri_src_mem impl ∧
  ri_next_update_id impl' = ri_next_update_id impl ∧ ri_next_addr impl <= ri_next_addr impl'.

Lemma src_rep_mono sources mem b b' R : b <= b' → src_rep sources mem b R → src_rep sources mem b' R.
Proof. intros Hb Hi. eapply index_rehash; [exact Hi|apply Hi|done|done]. Qed.

(** *** The index by source *)

Lemma index_small {K A} `{!HashKey K} (kok : K -> Prop) `{!HashKeyLaws K kok}
    (key_eq_ok : ∀ k k', kok k → kok k' → key_eq k k' = true ↔ k = k')
    (f : entry_ptr -> K) (ents : A -> list entry_ptr) good map mem b R :
  index_rep kok f ents good map mem b R → (length (contents map) <= length R)%nat.
Proof.
  intros Hi. rewrite <-(length_fmap fst), <-(length_fmap f R).
  apply submseteq_length, NoDup_submseteq; [apply Hi|]. intros k ([k' p] & -> & Hin)%list_elem_of_fmap.
  destruct (ix_obj _ _ _ _ _ _ _ _ Hi k' p Hin) as (_ & o & _ & _ & Hne & He).
  destruct (ents o) as [|e es]; [done|]. assert (e ∈ with_key f k' R) as Hw by (rewrite <-He; set_solver).
  apply (elem_of_with_key f) in Hw as [Hk HR]. apply list_elem_of_fmap. exists e. split; [|done].
  cbn. symmetry. apply key_eq_ok; [|by eapply index_key_ok|done].
  by destruct (ix_complete _ _ _ _ _ _ _ _ Hi e HR).
Qed.

Lemma runs_deref {A} T (mem : gmap Z A) p a (Q : A -> Prop) :
  mem !! p = Some a → Q a → runs T (deref mem p) Q.
Proof. intros Hp HQ. apply (runs_pure _ _ a); [|done]. intros s. unfold deref. by rewrite Hp. Qed.

Lemma runs_source_find T impl R id :
  src_inv impl R →
  runs T (rib_source_index_find impl id) (λ r,
    match r with
    | Some p => ∃ o, (id, p) ∈ contents (ri_sources impl) ∧ ri_src_mem impl !! p = Some o ∧
                  good_source id o ∧ se_entries o ≠ [] ∧ se_entries o ≡ₚ with_key src_of id R
    | None => (id ∉ (contents (ri_sources impl)).*1) ∧ with_key src_of id R = []
    end).
Proof.
  intros Hi. eapply runs_mono; [by eapply (runs_index_find _ source_eq_ok)|].
  intros [p|]; [|done]. intros (o & ? & ? & _ & ? & ? & ?). eauto 10.
Qed.

Lemma runs_source_add T impl R e :
  src_inv impl R → zlen R < 2 ^ 40 →
  runs T (rib_source_index_add impl e) (λ r, src_frame impl r.1 ∧
    (r.2 = LIBBGP_OK ∧ src_inv r.1 (e :: R) ∨
     r.2 = LIBBGP_ERR_NOMEM ∧ src_inv r.1 R ∧ T = false)).
Proof.
  intros Hi HR. unfold rib_source_index_add. fold (route_of e) (src_of e).
  assert (Hfr : src_frame impl impl) by (unfold src_frame; split_and!; done).
  apply runs_bind. eapply runs_mono; [by apply runs_source_find|]. intros [p|].
  - intros (o & Hin & Ho & [Hid Hcap] & Hne & He). apply runs_bind. eapply runs_deref; [done|].
    assert (Hlen : zlen (se_entries o) <= zlen R).
    { rewrite He. unfold with_key. pose proof (length_filter (λ e', key_eq (src_of e') (src_of e) = true) R). lia. }
    apply runs_bind, runs_grow_pointers; [lia..| |].
    + intros cap Hc. apply runs_ret. split; [done|]. left. split; [done|].
      eapply (index_add_old _ source_eq_ok); [exact Hi|done|done| |].
      * split; [done|]. cbn [se_entries se_cap]. rewrite length_app. cbn [length]. lia.
      * cbn [se_entries]. by rewrite Permutation_app_comm.
    + intros HT. apply runs_ret. split; [done|]. by right.
  - intros [Hn Hnone]. assert (Hfail : T = false →
      runs T (mret (impl, LIBBGP_ERR_NOMEM)) (λ r, src_frame impl r.1 ∧
        (r.2 = LIBBGP_OK ∧ src_inv r.1 (e :: R) ∨ r.2 = LIBBGP_ERR_NOMEM ∧ src_inv r.1 R ∧ T = false))).
    { intros HT. apply runs_ret. split; [done|]. by right. }
    apply runs_alloc; [|exact Hfail]. apply runs_alloc; [|exact Hfail]. apply runs_alloc; [|exact Hfail].
    cbn [negb take_addr ri_sources ri_src_mem ri_next_addr]. apply runs_bind.
    eapply runs_mono; [apply (runs_insert (λ _, True)); [done|apply Hi|pose proof (index_small _ source_eq_ok _ _ _ _ _ _ _ Hi); lia]|].
    intros [sources e0]. cbn [fst snd]. intros (Hm & [[-> Hc]|(-> & Hc & HT)]); cbn; apply runs_ret.
    + split; [unfold src_frame; cbn; split_and!; done || lia|]. left. split; [done|].
      eapply (index_add_new _ source_eq_ok); [exact Hi|done|exact Hc|done|done| | |done]; cbn; [lia|].
      split; [done|]. cbn. lia.
    + split; [unfold src_frame; cbn; split_and!; done || lia|]. right. split; [done|]. split; [|done].
      eapply index_rehash; [exact Hi|done|done|cbn; lia].
Qed.

Lemma runs_source_remove T impl b R R' e :
  src_inv impl R → entries_ok b R → R ≡ₚ e :: R' →
  runs T (rib_source_index_remove impl e) (λ impl', src_frame impl impl' ∧ src_inv impl' R').
Proof.
  intros Hi Hok HR. unfold rib_source_index_remove. fold (route_of e) (src_of e).
  assert (He : e ∈ R) by (rewrite HR; set_solver).
  assert (Hw : e ∈ with_key src_of (src_of e) R) by (apply (elem_of_with_key src_of); split; [apply Z.eqb_refl|done]).
  apply runs_bind. eapply runs_mono; [by apply runs_source_find|]. intros [p|].
  2:{ intros [_ Hnone]. rewrite Hnone in Hw. by apply elem_of_nil in Hw. }
  intros (o & Hin & Ho & [Hid Hcap] & Hne & Hents). apply runs_bind. eapply runs_deref; [done|].
  assert (Heo : e ∈ se_entries o) by by rewrite Hents.
  destruct (array_remove b R (se_entries o) e Hok He Heo) as (i & -> & Hperm).
  { intros e' He'. rewrite Hents in He'. by apply (elem_of_with_key src_of) in He' as [_ ?]. }
  pose proof (Permutation_length Hperm) as Hlen. cbn [length] in Hlen.
  destruct (zlen (swap_remove (se_entries o) i) =? 0) eqn:Hz.
  - apply runs_bind. eapply runs_mono; [by apply (runs_index_drop _ source_eq_ok); [apply Hi|..]|].
    intros [[sources e0] freed]. cbn [fst snd]. intros (Hm & -> & Hc).
    apply runs_ret. split; [unfold src_frame; cbn; split_and!; done || lia|].
    eapply (index_remove_last _ source_eq_ok); [exact Hi|exact HR|exact Ho| |done|exact Hc|].
    + rewrite Hperm. destruct (swap_remove (se_entries o) i); [done|cbn in Hz; lia].
    + intros q Hq. cbn. by rewrite lookup_delete_ne, lookup_insert_ne by done.
  - apply runs_ret. split; [unfold src_frame; cbn; split_and!; done || lia|].
    eapply (index_remove_some _ source_eq_ok); [exact Hi|exact HR|exact Hin|exact Ho| |exact Hperm|].
    + split; [done|]. cbn. lia.
    + cbn. intros Hnil. by rewrite Hnil in Hz.
Qed.

(** *** The radix tree *)

Lemma grp_bits_inj cmp groups mem b R k p k' p' :
  grp_rep cmp groups mem b R → (k, p) ∈ contents groups → (k', p') ∈ contents groups →
  prefix_bits k = prefix_bits k' → k = k' ∧ p = p'.
Proof.
  intros Hi Hin Hin' Hb.
  pose proof (index_key_ok _ _ _ _ _ _ _ _ _ _ Hi Hin) as Hk.
  pose proof (index_key_ok _ _ _ _ _ _ _ _ _ _ Hi Hin') as Hk'.
  destruct (ix_obj _ _ _ _ _ _ _ _ Hi _ _ Hin) as (_ & g & _ & (_ & Hn & _) & _).
  destruct (ix_obj _ _ _ _ _ _ _ _ Hi _ _ Hin') as (_ & g' & _ & (_ & Hn' & _) & _).
  assert (k = k') as <-.
  { rewrite <-Hn, <-Hn'. apply fam_norm_inj; [done..|]. by rewrite Hn, Hn'. }
  split; [done|]. exact (index_key_inj _ _ _ _ _ _ _ _ _ _ _ Hi Hin Hin').
Qed.

(** The entries of the tree. *)
Definition tree_maps (groups : bgp_hashmap_t Prefix Z) (mem : gmap Z rib_lpm_entry_t)
    (ds : list bool) (v : option route_ptr) : Prop :=
  ∃ k p g, (k, p) ∈ contents groups ∧ mem !! p = Some g ∧ ds = prefix_bits k ∧ v = ge_best g.

Lemma tree_maps_insert (groups groups' : bgp_hashmap_t Prefix Z) (mem mem' : gmap Z rib_lpm_entry_t) (m : gmap (list bool) (option route_ptr))
    k p g :
  (∀ ds v, m !! ds = Some v ↔ tree_maps groups mem ds v) →
  (k, p) ∈ contents groups' → mem' !! p = Some g →
  (∀ k' p', (k', p') ∈ contents groups' → (k', p') = (k, p) ∨
     (k', p') ∈ contents groups ∧ mem' !! p' = mem !! p' ∧ prefix_bits k' ≠ prefix_bits k) →
  (∀ k' p', (k', p') ∈ contents groups → (k', p') = (k, p) ∨ (k', p') ∈ contents groups') →
  ∀ ds v, <[prefix_bits k := ge_best g]> m !! ds = Some v ↔ tree_maps groups' mem' ds v.
Proof.
  intros Hm Hin Hg Hsub Hsup ds v. destruct (decide (ds = prefix_bits k)) as [->|Hne].
  - rewrite lookup_insert_eq. split; [intros [= <-]; by exists k, p, g|].
    intros (k' & p' & g' & Hin' & Hg' & Hb & ->).
    destruct (Hsub _ _ Hin') as [[= -> ->]|(_ & _ & ?)]; [|done]. congruence.
  - rewrite lookup_insert_ne, Hm by done. split; intros (k' & p' & g' & Hin' & Hg' & -> & ->).
    + destruct (Hsup _ _ Hin') as [[= -> ->]|Hin2]; [done|].
      destruct (Hsub _ _ Hin2) as [[= -> ->]|(_ & He & _)]; [done|].
      exists k', p', g'. by rewrite He.
    + destruct (Hsub _ _ Hin') as [[= -> ->]|(Hin2 & He & _)]; [done|].
      exists k', p', g'. by rewrite <-He.
Qed.

Lemma tree_maps_delete (groups groups' : bgp_hashmap_t Prefix Z) (mem mem' : gmap Z rib_lpm_entry_t) (m : gmap (list bool) (option route_ptr))
    k p :
  (∀ ds v, m !! ds = Some v ↔ tree_maps groups mem ds v) →
  (∀ k' p', (k', p') ∈ contents groups' →
     (k', p') ∈ contents groups ∧ mem' !! p' = mem !! p' ∧ prefix_bits k' ≠ prefix_bits k) →
  (∀ k' p', (k', p') ∈ contents groups → (k', p') = (k, p) ∨ (k', p') ∈ contents groups') →
  ∀ ds v, delete (prefix_bits k) m !! ds = Some v ↔ tree_maps groups' mem' ds v.
Proof.
  intros Hm Hsub Hsup ds v. destruct (decide (ds = prefix_bits k)) as [->|Hne].
  - rewrite lookup_delete_eq. split; [done|]. intros (k' & p' & g' & Hin' & _ & Hb & _).
    by destruct (Hsub _ _ Hin') as (_ & _ & []).
  - rewrite lookup_delete_ne, Hm by done. split; intros (k' & p' & g' & Hin' & Hg' & -> & ->).
    + destruct (Hsup _ _ Hin') as [[= -> ->]|Hin2]; [done|].
      destruct (Hsub _ _ Hin2) as (_ & He & _). exists k', p', g'. by rewrite He.
    + destruct (Hsub _ _ Hin') as (Hin2 & He & _). exists k', p', g'. by rewrite <-He.
Qed.

(** The best route of a group is replaced, in memory and in the tree. *)
Lemma tree_replace T cmp impl groups mem b R k p g g' best :
  grp_rep cmp groups mem b R → tree_rep groups mem (ri_lpm_tree impl) →
  (k, p) ∈ contents groups → mem !! p = Some g → ge_best g' = Some best →
  runs T (tree_insert impl k best) (λ r, r.1 = LIBBGP_OK ∧
    ∃ tree, r.2 = set_groups impl (ri_lpm_groups impl) (ri_grp_mem impl) tree ∧
      tree_rep groups (<[p := g']> mem) tree).
Proof.
  intros Hi (m & Hrep & Hm) Hin Hg Hbest s Hs.
  pose proof (index_key_ok _ _ _ _ _ _ _ _ _ _ Hi Hin) as Hk.
  destruct (radix_insert_present width radix_bit (ri_lpm_tree impl) m (prefix_addr k) (prefix_len k)
    (Some best) s Hrep) as (tree & Hins & Hrep'); [by apply fam_len| |].
  { exists (ge_best g). apply Hm. by exists k, p, g. }
  exists (LIBBGP_OK, set_groups impl (ri_lpm_groups impl) (ri_grp_mem impl) tree), s.
  unfold tree_insert, mbind, M_bind. rewrite Hins. split; [done|]. split; [|done]. split; [done|].
  exists tree. split; [done|]. eexists. split; [exact Hrep'|]. rewrite <-Hbest.
  eapply tree_maps_insert; [exact Hm|exact Hin|apply lookup_insert_eq| |by auto].
  intros k' p' Hin'. destruct (decide (p = p')) as [<-|Hne].
  - left. f_equal. exact (index_ptr_inj _ _ _ _ _ _ _ _ _ _ _ Hi Hin' Hin).
  - right. split; [done|]. split; [by rewrite lookup_insert_ne|]. intros Hb.
    by destruct (grp_bits_inj _ _ _ _ _ _ _ _ _ Hi Hin Hin' (eq_sym Hb)).
Qed.

(** Objects that are not in the index do not matter. *)
Lemma grp_rep_agree cmp groups groups' mem mem' b b' R :
  grp_rep cmp groups mem b R → hm_inv prefix_ok groups' → contents groups' ≡ₚ contents groups →
  (∀ p, p < b → mem' !! p = mem !! p) → b <= b' → grp_rep cmp groups' mem' b' R.
Proof.
  intros [H1 H2 H3 H4 H5] Hm Hc Hmem Hb. split; [done|by rewrite Hc|by rewrite Hc| |].
  - intros k p. rewrite Hc. intros Hin. destruct (H4 k p Hin) as (? & o & ? & ? & ? & ?).
    split; [lia|]. exists o. by rewrite Hmem.
  - intros e He. destruct (H5 e He). split; [done|]. by rewrite Hc.
Qed.

Lemma tree_rep_agree cmp groups groups' mem mem' b R tree :
  grp_rep cmp groups mem b R → contents groups' ≡ₚ contents groups →
  (∀ p, p < b → mem' !! p = mem !! p) → tree_rep groups mem tree → tree_rep groups' mem' tree.
Proof.
  intros Hi Hc Hmem (m & Hrep & Hm). exists m. split; [done|]. intros ds v. rewrite Hm.
  split; intros (k & p & g & Hin & Hg & -> & ->); exists k, p, g.
  - rewrite Hc, Hmem; [done|]. by destruct (ix_obj _ _ _ _ _ _ _ _ Hi _ _ Hin).
  - rewrite Hc in Hin. rewrite <-Hmem; [done|]. by destruct (ix_obj _ _ _ _ _ _ _ _ Hi _ _ Hin).
Qed.

Lemma group_ok b e : entry_ok b e → prefix_ok (group_of e).
Proof. intros [Hk Hp _ _]. unfold group_of. rewrite <-Hk. by apply fam_norm_ok. Qed.

(** *** The index by prefix *)

Lemma runs_group_find T cmp impl R k :
  grp_inv cmp impl R → prefix_ok k →
  runs T (bgp_hashmap_find_first (ri_lpm_groups impl) k) (λ r,
    match r with
    | Some p => ∃ g, (k, p) ∈ contents (ri_lpm_groups impl) ∧ ri_grp_mem impl !! p = Some g ∧
                  p < ri_next_addr impl ∧ good_group cmp k g ∧
                  ge_entries g ≠ [] ∧ ge_entries g ≡ₚ with_key group_of k R
    | None => (k ∉ (contents (ri_lpm_groups impl)).*1) ∧ with_key group_of k R = []
    end).
Proof. intros [Hi _] Hk. by eapply (runs_index_find prefix_ok prefix_eq_ok). Qed.

(** The entries of a group as the scans see them. *)
Lemma elem_of_group (k : Prefix) R e :
  prefix_ok k → prefix_ok (group_of e) → e ∈ with_key group_of k R ↔ group_of e = k ∧ e ∈ R.
Proof.
  intros Hk He. by rewrite (elem_of_with_key group_of), prefix_eq_ok.
Qed.

(** The new best route after an entry was appended. *)
Lemma pushed_best (cmp better : bool) (entries : list entry_ptr) best e :
  best ∈ e_value <$> entries →
  (cmp = true → ∀ e', e' ∈ entries → memcmp (rank (ro_route best)) (rank (route_of e')) <= 0) →
  (cmp = true → ∀ e', e' ∈ entries → comparable (route_of e) (route_of e')) →
  better = rib_better (route_of e) (ro_route best) →
  let best' := if better then e_value e else best in
  best' ∈ e_value <$> (entries ++ [e]) ∧
  (cmp = true → ∀ e', e' ∈ entries ++ [e] → memcmp (rank (ro_route best')) (rank (route_of e')) <= 0).
Proof.
  intros Hin Hopt Hcmp -> best'. split.
  - unfold best'. rewrite fmap_app. case_match; set_solver.
  - intros Hc. specialize (Hopt Hc). specialize (Hcmp Hc).
    assert (Hbe : comparable (route_of e) (ro_route best)).
    { apply list_elem_of_fmap in Hin as (e' & -> & He'). by apply Hcmp. }
    assert (Hrefl : memcmp (rank (route_of e)) (rank (route_of e)) = 0) by by apply rank_eq.
    pose proof (rank_antisym (route_of e) (ro_route best)) as Has.
    unfold best'. rewrite better_rank by done.
    destruct (_ <? 0) eqn:Hlt; intros e' [He'| ->%list_elem_of_singleton]%elem_of_app.
    + eapply rank_le_trans; [|by apply Hopt]. change (ro_route (e_value e)) with (route_of e). lia.
    + change (ro_route (e_value e)) with (route_of e). lia.
    + by apply Hopt.
    + lia.
Qed.

Lemma set_groups_id impl : set_groups impl (ri_lpm_groups impl) (ri_grp_mem impl) (ri_lpm_tree impl) = impl.
Proof. by destruct impl. Qed.

(** The tree does not see changes of a group that leave its best route. *)
Lemma tree_rep_same (groups : bgp_hashmap_t Prefix Z) (mem : gmap Z rib_lpm_entry_t) tree p g g' :
  mem !! p = Some g → ge_best g' = ge_best g → tree_rep groups mem tree →
  tree_rep groups (<[p := g']> mem) tree.
Proof.
  intros Hg Hbest (m & Hm & Hmaps). exists m. split; [done|]. intros ds v. rewrite Hmaps.
  split; intros (k & q & g1 & Hk & Hq & -> & ->); (destruct (decide (q = p)) as [->|?];
    [rewrite ?lookup_insert_eq in Hq|rewrite ?lookup_insert_ne in Hq by done]).
  - simplify_eq. exists k, p, g'. by rewrite lookup_insert_eq.
  - exists k, q, g1. by rewrite lookup_insert_ne.
  - simplify_eq. by exists k, p, g.
  - by exists k, q, g1.
Qed.

(** [lpm_group_push] on a group that was there. *)
Lemma runs_push_old T cmp impl R p g cap e :
  grp_inv cmp impl R → (group_of e, p) ∈ contents (ri_lpm_groups impl) →
  ri_grp_mem impl !! p = Some g → good_group cmp (group_of e) g → ge_entries g ≠ [] →
  zlen (ge_entries g) < cap <= 2 ^ 41 →
  (cmp = true → ∀ e', e' ∈ ge_entries g → comparable (route_of e) (route_of e')) →
  let g1 := LpmEntry (ge_prefix g) (ge_entries g) cap (ge_best g) in
  runs T (lpm_group_push (set_group impl p g1) p g1 false e) (λ r, grp_frame impl r.1 ∧
    r.2 = LIBBGP_OK ∧ grp_inv cmp r.1 (e :: R)).
Proof.
  intros [Hi Ht] Hin Hg (Hpre & Hnorm & Hcap & best & Hbest & Hbin & Hopt) Hne Hcap' Hcmp g1.
  unfold lpm_group_push. cbn [g1 ge_best]. rewrite Hbest.
  destruct (better_cached_spec (ro_route (e_value e)) empty_cache (ro_route best) empty_cache)
    as (Hbetter & _); [done..|]. rewrite Hbetter. fold (route_of e).
  pose proof (pushed_best cmp _ (ge_entries g) best e Hbin Hopt Hcmp eq_refl) as [Hin' Hopt'].
  set (better := rib_better (route_of e) (ro_route best)) in *.
  set (g2 := LpmEntry (ge_prefix g) (ge_entries g ++ [e]) cap (Some (if better then e_value e else best))).
  assert (Hrep : grp_rep cmp (ri_lpm_groups impl) (<[p := g2]> (ri_grp_mem impl)) (ri_next_addr impl) (e :: R)).
  { eapply (index_add_old prefix_ok prefix_eq_ok); [exact Hi|exact Hin|exact Hg| |].
    - unfold g2. split; [done|]. split; [done|]. cbn. rewrite length_app. cbn [length].
      split; [lia|]. eexists. split; [done|]. split; [done|]. done.
    - unfold g2. cbn. by rewrite Permutation_app_comm. }
  cbn [g1 ge_prefix ge_entries ge_cap ge_best]. rewrite Hpre. destruct better.
  - apply runs_bind. eapply runs_mono.
    { eapply (tree_replace T cmp _ (ri_lpm_groups impl) (ri_grp_mem impl) _ R (group_of e) p g g2);
        [exact Hi|exact Ht|done..]. }
    intros [e0 impl2]. cbn [fst snd]. intros (-> & tree & -> & Htree). cbn. apply runs_ret.
    split; [unfold grp_frame; cbn; split_and!; done || lia|]. split; [done|].
    unfold grp_inv. cbn. rewrite !insert_insert_eq, <-Hpre. done.
  - apply runs_ret. split; [unfold grp_frame; cbn; split_and!; done || lia|]. split; [done|].
    unfold grp_inv. cbn. rewrite !insert_insert_eq, <-Hpre. split; [done|].
    by eapply tree_rep_same.
Qed.

(** Storing in the tree in general. *)
Lemma runs_tree_insert T impl k best m :
  radix_rep (ri_lpm_tree impl) m → prefix_ok k →
  runs T (tree_insert impl k best) (λ r,
    (r.1 = LIBBGP_OK ∧ ∃ tree, r.2 = set_groups impl (ri_lpm_groups impl) (ri_grp_mem impl) tree ∧
       radix_rep tree (<[prefix_bits k := Some best]> m)) ∨
    r.1 = LIBBGP_ERR_NOMEM ∧ r.2 = impl ∧ T = false).
Proof.
  intros Hrep Hk s Hs. unfold tree_insert, mbind, M_bind.
  destruct (radix_insert_spec width radix_bit (ri_lpm_tree impl) m (prefix_addr k)
    (prefix_len k) (Some best) s Hrep) as (tree & used & s' & Hu & Hres); [by apply fam_len|].
  assert (Hs' : T = true → used = [] ∧ s' = []).
  { intros HT. rewrite (Hs HT) in Hu. by apply eq_sym, app_nil in Hu. }
  destruct Hres as [[Hins Hrep']|[Hused Hins]]; rewrite Hins; (eexists _, _; split; [done|]).
  - split; [left; eauto|]. intros HT. by apply Hs'.
  - split; [|by intros HT; apply Hs']. right. split; [done|]. split; [apply set_groups_id|].
    destruct T; [|done]. destruct (Hs' eq_refl) as [-> _]. by apply elem_of_nil in Hused.
Qed.

(** [lpm_group_push] on a group that was just created: with the tree it is
    taken back when the tree cannot grow. *)
Lemma runs_push_new T cmp impl groups R p e b :
  grp_inv cmp impl R → entry_ok b e → hm_inv prefix_ok groups →
  contents groups ≡ₚ (group_of e, p) :: contents (ri_lpm_groups impl) →
  group_of e ∉ (contents (ri_lpm_groups impl)).*1 → p = ri_next_addr impl →
  let g := LpmEntry (group_of e) [] 1 None in
  let impl1 := set_groups (take_addr impl).2 groups (<[p := g]> (ri_grp_mem impl)) (ri_lpm_tree impl) in
  runs T (lpm_group_push impl1 p g true e) (λ r, grp_frame impl r.1 ∧
    (r.2 = LIBBGP_OK ∧ grp_inv cmp r.1 (e :: R) ∨
     r.2 = LIBBGP_ERR_NOMEM ∧ grp_inv cmp r.1 R ∧ T = false)).
Proof.
  intros [Hi Ht] Hok Hm Hc Hn -> g impl1. set (p := ri_next_addr impl) in *.
  pose proof (group_ok _ _ Hok) as Hk. pose proof Ht as (m & Hrep & Hmaps).
  set (g2 := LpmEntry (group_of e) [e] 1 (Some (e_value e))).
  assert (Hin : (group_of e, p) ∈ contents groups) by (rewrite Hc; set_solver).
  assert (Hgood : good_group cmp (group_of e) g2).
  { split; [done|]. split; [|split; [done|]].
    - destruct Hok as [Hke Hpk _ _]. unfold group_of. apply fam_norm_idemp. by rewrite <-Hke.
    - eexists. split; [done|]. cbn [g2 ge_entries]. split; [set_solver|]. intros _ e' ->%list_elem_of_singleton.
      assert (memcmp (rank (route_of e)) (rank (route_of e)) = 0) by by apply rank_eq.
      change (ro_route (e_value e)) with (route_of e). lia. }
  assert (Hrep2 : grp_rep cmp groups (<[p := g2]> (ri_grp_mem impl)) (p + 1) (e :: R)).
  { eapply (index_add_new prefix_ok prefix_eq_ok); [exact Hi|done|exact Hc|done|done|unfold p; lia|done|done]. }
  unfold lpm_group_push. cbn [g ge_prefix ge_entries ge_cap ge_best app]. apply runs_bind.
  eapply runs_mono; [by apply runs_tree_insert|]. intros [e0 impl2]. cbn [fst snd].
  assert (Hfresh : ∀ k' p', (k', p') ∈ contents (ri_lpm_groups impl) → p' < p).
  { intros k' p' Hin'. by destruct (ix_obj _ _ _ _ _ _ _ _ Hi _ _ Hin'). }
  intros [(-> & tree & -> & Hrep')|(-> & -> & HT)]; cbn.
  - apply runs_ret. split; [unfold grp_frame; cbn; split_and!; done || lia|]. left. split; [done|].
    unfold grp_inv. cbn. rewrite !insert_insert_eq. split; [done|]. eexists. split; [exact Hrep'|].
    eapply (tree_maps_insert _ _ _ _ _ (group_of e) p g2); [exact Hmaps|done|apply lookup_insert_eq| |].
    + intros k' p' Hin'. pose proof Hin' as Hin2. rewrite Hc in Hin2.
      apply elem_of_cons in Hin2 as [?|Hin2]; [by left|right]. split; [done|].
      split; [rewrite lookup_insert_ne; [done|]; specialize (Hfresh _ _ Hin2); lia|].
      intros Hb. destruct (grp_bits_inj _ _ _ _ _ _ _ _ _ Hrep2 Hin' Hin Hb) as [-> ->].
      specialize (Hfresh _ _ Hin2). lia.
    + intros k' p' Hin'. right. rewrite Hc. set_solver.
  - unfold rib_lpm_group_remove_locked. cbn. apply runs_bind, runs_bind.
    eapply runs_deref; [apply lookup_insert_eq|]. apply runs_bind.
    eapply runs_mono; [by apply (runs_index_drop prefix_ok prefix_eq_ok)|].
    intros [[groups' e1] freed]. cbn [fst snd]. intros (Hm' & -> & Hc'). rewrite Hc in Hc'. apply Permutation_cons_inv in Hc'.
    apply runs_ret, runs_ret. split; [unfold grp_frame; cbn; split_and!; done || lia|]. right.
    split; [done|]. split; [|done].
    assert (Hagree : ∀ q, q < p → delete p (<[p := g]> (<[p := LpmEntry (group_of e) [e] 1 None]>
      (<[p := g]> (ri_grp_mem impl)))) !! q = ri_grp_mem impl !! q).
    { intros q Hq. by rewrite lookup_delete_ne, !lookup_insert_ne by lia. }
    unfold grp_inv. cbn. split.
    + eapply grp_rep_agree; [exact Hi|done|done|done|lia].
    + eapply tree_rep_agree; [exact Hi|done|done|done].
Qed.

Lemma runs_group_add T cmp impl b R e :
  grp_inv cmp impl R → entry_ok b e → zlen R < 2 ^ 40 →
  (cmp = true → ∀ e', e' ∈ R → group_of e' = group_of e → comparable (route_of e) (route_of e')) →
  runs T (rib_lpm_index_add_locked impl e) (λ r, grp_frame impl r.1 ∧
    (r.2 = LIBBGP_OK ∧ grp_inv cmp r.1 (e :: R) ∨
     r.2 = LIBBGP_ERR_NOMEM ∧ grp_inv cmp r.1 R ∧ T = false)).
Proof.
  intros Hg Hok HR Hcmp. pose proof (group_ok _ _ Hok) as Hk. pose proof Hg as [Hi Ht].
  assert (Hfr : grp_frame impl impl) by (unfold grp_frame; split_and!; done || lia).
  assert (Hfail : T = false →
    runs T (mret (impl, LIBBGP_ERR_NOMEM)) (λ r, grp_frame impl r.1 ∧
      (r.2 = LIBBGP_OK ∧ grp_inv cmp r.1 (e :: R) ∨ r.2 = LIBBGP_ERR_NOMEM ∧ grp_inv cmp r.1 R ∧ T = false))).
  { intros HT. apply runs_ret. split; [done|]. by right. }
  unfold rib_lpm_index_add_locked. fold (route_of e) (group_of e).
  apply runs_bind. eapply runs_mono; [by eapply runs_group_find|]. intros [p|].
  - intros (g & Hin & Hgm & Hp & Hgood & Hne & He). apply runs_bind. eapply runs_deref; [done|].
    assert (Hlen : zlen (ge_entries g) <= zlen R).
    { rewrite He. unfold with_key.
      pose proof (length_filter (λ e', key_eq (group_of e') (group_of e) = true) R). lia. }
    pose proof Hgood as (_ & _ & Hcap & _).
    apply runs_bind, runs_grow_pointers; [lia..| |exact Hfail]. intros cap Hcap'.
    eapply runs_mono; [apply (runs_push_old T cmp impl R p g cap e Hg Hin Hgm Hgood Hne); [lia|]|].
    + intros Hc e' He'. rewrite He in He'. apply (elem_of_with_key group_of) in He' as [Hke He'].
      apply prefix_eq_ok in Hke; [|by destruct (ix_complete _ _ _ _ _ _ _ _ Hi e' He')|done]. by apply Hcmp.
    + intros [impl' e0]. cbn [fst snd]. naive_solver.
  - intros [Hn Hnone]. apply runs_alloc; [|exact Hfail]. apply runs_alloc; [|exact Hfail].
    apply runs_alloc; [|exact Hfail]. cbn [negb take_addr]. apply runs_bind.
    eapply runs_mono; [apply (runs_insert prefix_ok); [done|apply Hi|]|].
    { pose proof (index_small _ prefix_eq_ok _ _ _ _ _ _ _ Hi). cbn [ri_lpm_groups]. lia. }
    intros [groups e0]. cbn [fst snd]. intros (Hm & [[-> Hc]|(-> & Hc & HT)]).
    + eapply (runs_push_new T cmp impl groups R (ri_next_addr impl) e b); done.
    + apply runs_ret. split; [unfold grp_frame; cbn; split_and!; done || lia|]. right. split; [done|].
      split; [|done].
      unfold grp_inv. cbn. split.
      * eapply grp_rep_agree; [exact Hi|done|done|done|lia].
      * eapply tree_rep_agree; [exact Hi|done|done|done].
Qed.

(** The best route after a removal: the old one, or a rescan. *)
Lemma remaining_best cmp (rest : list entry_ptr) e best :
  rest ≠ [] → best ∈ e_value <$> e :: rest →
  (cmp = true → ∀ e', e' ∈ e :: rest → memcmp (rank (ro_route best)) (rank (route_of e')) <= 0) →
  (cmp = true → ∀ e1 e2, e1 ∈ rest → e2 ∈ rest → comparable (route_of e1) (route_of e2)) →
  ∃ best', (if same_ptr best (e_value e) then best_of (e_value <$> rest) else Some best) = Some best' ∧
    best' ∈ e_value <$> rest ∧
    (cmp = true → ∀ e', e' ∈ rest → memcmp (rank (ro_route best')) (rank (route_of e')) <= 0).
Proof.
  intros Hne Hin Hopt Hcmp. destruct (same_ptr best (e_value e)) eqn:Hs.
  - destruct (best_of (e_value <$> rest)) as [best'|] eqn:Hb.
    2:{ apply best_of_None in Hb. by apply fmap_nil_inv in Hb. }
    exists best'. split; [done|]. split; [by apply best_of_elem|]. intros Hc e' He'.
    eapply (best_of_optimal (e_value <$> rest)); [|done|by apply list_elem_of_fmap_2].
    intros p q (e1 & -> & He1)%list_elem_of_fmap (e2 & -> & He2)%list_elem_of_fmap. by apply Hcmp.
  - exists best. split; [done|]. split.
    + rewrite fmap_cons in Hin. apply elem_of_cons in Hin as [->|?]; [|done].
      exfalso. exact (eq_true_false_abs _ (proj2 (same_entry_addr e e) eq_refl) Hs).
    + intros Hc e' He'. apply Hopt; [done|]. set_solver.
Qed.

(** The last entry of a group leaves: the group is freed and its prefix leaves
    the tree. *)
Lemma runs_group_emptied T cmp impl R R' e p g :
  grp_inv cmp impl R → R ≡ₚ e :: R' → prefix_ok (group_of e) →
  (group_of e, p) ∈ contents (ri_lpm_groups impl) → ri_grp_mem impl !! p = Some g →
  ge_prefix g = group_of e → ge_entries g ≡ₚ [e] →
  let impl1 := set_group impl p (LpmEntry (group_of e) [] (ge_cap g) (ge_best g)) in
  let tree := (radix_remove width radix_bit (ri_lpm_tree impl) (prefix_addr (group_of e))
                 (prefix_len (group_of e))).2 in
  runs T (rib_lpm_group_remove_locked (set_groups impl1 (ri_lpm_groups impl1) (ri_grp_mem impl1) tree) p)
    (λ impl', grp_frame impl impl' ∧ grp_inv cmp impl' R').
Proof.
  intros [Hi (m & Hm & Hmaps)] HR Hk Hin Hg Hpre Hents impl1 tree.
  pose proof (radix_remove_spec width radix_bit (ri_lpm_tree impl) m (prefix_addr (group_of e))
    (prefix_len (group_of e)) Hm (fam_len _ Hk)) as Hrem.
  assert (m !! prefix_bits (group_of e) = Some (ge_best g)) as Hmk by (apply Hmaps; by exists (group_of e), p, g).
  unfold prefix_bits in Hmk. rewrite Hmk in Hrem. destruct Hrem as (tree' & Hrem & Hm').
  unfold tree. rewrite Hrem. cbn [snd].
  unfold rib_lpm_group_remove_locked. apply runs_bind. eapply runs_deref; [cbn; apply lookup_insert_eq|].
  cbn. apply runs_bind.
  eapply runs_mono; [apply (runs_index_drop prefix_ok prefix_eq_ok _ _ (group_of e) p); [apply Hi|done|done]|].
  intros [[groups e1] freed]. cbn [fst snd]. intros (Hgm & -> & Hc). apply runs_ret.
  split; [unfold grp_frame; cbn; split_and!; done || lia|].
  assert (Hagree : ∀ q, q ≠ p → delete p (<[p := LpmEntry (group_of e) [] (ge_cap g) (ge_best g)]>
    (ri_grp_mem impl)) !! q = ri_grp_mem impl !! q).
  { intros q Hq. by rewrite lookup_delete_ne, lookup_insert_ne by done. }
  unfold grp_inv. cbn. split.
  - eapply (index_remove_last prefix_ok prefix_eq_ok); [exact Hi|exact HR|exact Hg|done|done|exact Hc|done].
  - eexists. split; [exact Hm'|]. eapply (tree_maps_delete _ _ _ _ _ (group_of e) p); [exact Hmaps|..].
    + intros k' p' Hin'. assert (Hin2 : (k', p') ∈ contents (ri_lpm_groups impl)) by (rewrite Hc; set_solver).
      assert (p' ≠ p).
      { intros ->. pose proof (ix_ptrs _ _ _ _ _ _ _ _ Hi) as Hnd. rewrite Hc in Hnd.
        apply NoDup_cons in Hnd as [Hnd _]. apply Hnd, list_elem_of_fmap. by exists (k', p). }
      split; [done|]. split; [by apply Hagree|]. intros Hb.
      by destruct (grp_bits_inj _ _ _ _ _ _ _ _ _ Hi Hin2 Hin Hb).
    + intros k' p'. rewrite Hc. intros [?|?]%elem_of_cons; auto.
Qed.

(** The entries of a group are those of the table with its prefix. *)
Lemma group_entries cmp impl b R e k (entries : list entry_ptr) :
  grp_inv cmp impl R → entries_ok b R → prefix_ok k → entries ≡ₚ with_key group_of k R →
  e ∈ entries → e ∈ R ∧ group_of e = k.
Proof.
  intros [Hi _] Hok Hk Hents He. rewrite Hents in He. apply (elem_of_with_key group_of) in He as [Hke He].
  split; [done|]. apply prefix_eq_ok; [|done..]. by destruct (ix_complete _ _ _ _ _ _ _ _ Hi e He).
Qed.

(** Other entries of the group are left: the best is kept or searched again. *)
Lemma runs_group_shrunk T cmp impl b R R' e p g rest best :
  grp_inv cmp impl R → entries_ok b R → R ≡ₚ e :: R' → prefix_ok (group_of e) →
  (group_of e, p) ∈ contents (ri_lpm_groups impl) → ri_grp_mem impl !! p = Some g →
  good_group cmp (group_of e) g → ge_best g = Some best → ge_entries g ≡ₚ with_key group_of (group_of e) R →
  ge_entries g ≡ₚ e :: rest → rest ≠ [] →
  (cmp = true → ∀ e1 e2, e1 ∈ R' → e2 ∈ R' → group_of e1 = group_of e2 →
     comparable (route_of e1) (route_of e2)) →
  let impl1 := set_group impl p (LpmEntry (group_of e) rest (ge_cap g) (Some best)) in
  runs T
    (if same_ptr best (e_value e) then
       let best' := best_of (e_value <$> rest) in
       let impl2 := set_group impl1 p (LpmEntry (group_of e) rest (ge_cap g) best') in
       match best' with
       | Some best' => r ← tree_insert impl2 (group_of e) best'; mret r.2
       | None => mret impl2
       end
     else mret impl1)
    (λ impl', grp_frame impl impl' ∧ grp_inv cmp impl' R').
Proof.
  intros Hinv Hok HR Hk Hin Hg (Hpre & Hnorm & Hcap & best0 & Hbest0 & Hbin & Hopt) Hbest Hents Hperm Hne Hcmp impl1.
  rewrite Hbest in Hbest0. injection Hbest0 as <-. pose proof Hinv as [Hi Ht].
  assert (Hr : ∀ x, x ∈ rest → x ∈ R' ∧ group_of x = group_of e).
  { intros x Hx. split.
    - assert (x ∈ with_key group_of (group_of e) R') as Hx'.
      { rewrite HR, (with_key_same prefix_ok prefix_eq_ok), Hperm in Hents by done.
        apply Permutation_cons_inv in Hents. by rewrite <-Hents. }
      by apply (elem_of_with_key group_of) in Hx' as [_ ?].
    - eapply (group_entries cmp impl b R); try done. rewrite Hperm. set_solver. }
  destruct (remaining_best cmp rest e best Hne) as (best' & Hb' & Hbin' & Hopt').
  { by rewrite <-Hperm. }
  { intros Hc e'. rewrite <-Hperm. by apply Hopt. }
  { intros Hc e1 e2 He1 He2. destruct (Hr e1 He1), (Hr e2 He2). apply Hcmp; [done..|congruence]. }
  pose proof (Permutation_length Hperm) as Hlen. cbn [length] in Hlen.
  set (g2 := LpmEntry (group_of e) rest (ge_cap g) (Some best')).
  assert (Hrep : grp_rep cmp (ri_lpm_groups impl) (<[p := g2]> (ri_grp_mem impl)) (ri_next_addr impl) R').
  { eapply (index_remove_some prefix_ok prefix_eq_ok); [exact Hi|exact HR|exact Hin|exact Hg| |exact Hperm|done].
    unfold g2. split_and!; [done|done|cbn; lia..|]. eexists. split; [done|]. done. }
  destruct (same_ptr best (e_value e)).
  - cbv zeta. rewrite Hb'. apply runs_bind. eapply runs_mono.
    { eapply (tree_replace T cmp _ (ri_lpm_groups impl) (ri_grp_mem impl) _ R (group_of e) p g g2);
        [exact Hi|exact Ht|done..]. }
    intros [e0 impl2]. cbn [fst snd]. intros (_ & tree & -> & Htree). apply runs_ret.
    split; [unfold grp_frame; cbn; split_and!; done || lia|]. unfold grp_inv. cbn.
    by rewrite insert_insert_eq.
  - injection Hb' as <-. apply runs_ret. split; [unfold grp_frame; cbn; split_and!; done || lia|].
    split; [done|]. cbn. by eapply tree_rep_same.
Qed.

Lemma runs_group_remove T cmp impl b R R' e :
  grp_inv cmp impl R → entries_ok b R → R ≡ₚ e :: R' →
  (cmp = true → ∀ e1 e2, e1 ∈ R' → e2 ∈ R' → group_of e1 = group_of e2 →
     comparable (route_of e1) (route_of e2)) →
  runs T (rib_lpm_index_remove_locked impl e) (λ impl', grp_frame impl impl' ∧ grp_inv cmp impl' R').
Proof.
  intros Hinv Hok HR Hcmp. pose proof Hinv as [Hi Ht].
  assert (He : e ∈ R) by (rewrite HR; set_solver).
  assert (Heok : entry_ok b e) by (destruct Hok as [Hf _]; rewrite Forall_forall in Hf; by apply Hf).
  pose proof (group_ok _ _ Heok) as Hk. pose proof Heok as [Hkey Hpok _ _].
  unfold rib_lpm_index_remove_locked, rib_lpm_group_find_locked.
  replace (width <? prefix_len (e_key e)) with false by (pose proof (fam_len _ Hpok); lia).
  rewrite Hkey. fold (group_of e). apply runs_bind. eapply runs_mono; [by eapply runs_group_find|].
  assert (Hw : e ∈ with_key group_of (group_of e) R) by by apply elem_of_group.
  intros [p|]; [|intros [_ Hnone]; rewrite Hnone in Hw; by apply elem_of_nil in Hw].
  intros (g & Hin & Hg & Hp & Hgood & Hne & Hents). pose proof Hgood as (Hpre & _ & _ & best & Hbest & _).
  apply runs_bind. eapply runs_deref; [done|].
  destruct (array_remove b R (ge_entries g) e Hok He) as (i & -> & Hperm); [by rewrite Hents| |].
  { intros e' He'. by eapply (group_entries cmp impl b R e' (group_of e)). }
  set (rest := swap_remove (ge_entries g) i) in *. rewrite Hbest, Hpre.
  destruct (zlen rest =? 0) eqn:Hz.
  - assert (rest = []) as Hnil by (destruct rest; [done|cbn in Hz; lia]). rewrite Hnil in *.
    rewrite <-Hbest. by eapply (runs_group_emptied T cmp impl R R' e p g).
  - assert (Hne' : rest ≠ []) by (by intros Hnil; rewrite Hnil in Hz).
    rewrite bool_decide_false, orb_false_r by done. rewrite group_best_spec.
    by eapply (runs_group_shrunk T cmp impl b R R' e p g rest best).
Qed.
End Inv.
