(* ===== verification/RibRoutes.v ===== *)
(** * The routes of a routing table

    The map of routes under the loops that walk and relink its buckets, and the
    invariant of a whole table, [rib_rep]: the map, the index by source and the
    index by prefix hold the same entries [R]. *)

From stdpp Require Import gmap.
From S2P Require Import Prelude Bytes Radix Pattr As4 Hashmap HashmapSpec Rib RibTable RibDecision RibIndex RibInv.

(** ** Chains *)

Section Chains.
Context `{family : Family}.
Implicit Types (e : entry_ptr) (chain : list entry_ptr).

Lemma chain_find_spec (cond : entry_ptr -> bool) chain :
  match chain_find cond chain with
  | Some e => e ∈ chain ∧ cond e = true
  | None => Forall (λ e, cond e = false) chain
  end.
Proof.
  induction chain as [|e chain IH]; cbn [chain_find]; [done|].
  destruct (cond e) eqn:Hc; [set_solver|]. destruct (chain_find cond chain); [set_solver|by constructor].
Qed.

Lemma chain_unlink_spec (cond : entry_ptr -> bool) chain :
  match chain_unlink cond chain with
  | Some (e, chain') => chain ≡ₚ e :: chain' ∧ cond e = true
  | None => Forall (λ e, cond e = false) chain
  end.
Proof.
  induction chain as [|e chain IH]; cbn [chain_unlink]; [done|].
  destruct (cond e) eqn:Hc; [done|]. destruct (chain_unlink cond chain) as [[e' chain']|]; [|by constructor].
  destruct IH as [-> ?]. split; [apply Permutation_swap|done].
Qed.
End Chains.

Section Routes.
Context `{family : Family} {host : Host}.
Context (prefix_ok : Prefix -> Prop) (addr_ok : Addr -> Prop) `{!FamilyLaws prefix_ok addr_ok}.
Implicit Types (e : entry_ptr) (R chain : list entry_ptr) (impl : rib_impl_t) (k : Prefix).

Abbreviation entry_ok := (entry_ok prefix_ok).
Abbreviation entries_ok := (entries_ok prefix_ok).
Abbreviation routes_inv := (routes_inv prefix_ok).
Abbreviation grp_inv := (grp_inv prefix_ok).

(** ** Entries *)

Lemma entry_has_prefix_spec b e k :
  entry_ok b e → prefix_ok k → entry_has_prefix k e = true ↔ e_key e = k.
Proof.
  intros [_ Hp Hh _] Hk. unfold entry_has_prefix. rewrite Hh, andb_true_iff, Z.eqb_eq.
  rewrite (fam_eq _ _ Hp Hk). naive_solver.
Qed.

Lemma entry_is_from_spec b e src k :
  entry_ok b e → prefix_ok k → entry_is_from src k e = true ↔ e_key e = k ∧ src_of e = src.
Proof.
  intros He Hk. unfold entry_is_from. rewrite andb_true_iff, (entry_has_prefix_spec b) by done.
  by rewrite Z.eqb_eq.
Qed.

Lemma entries_ok_elem b R e : entries_ok b R → e ∈ R → entry_ok b e.
Proof. intros [Hf _]. rewrite Forall_forall in Hf. apply Hf. Qed.

#[export] Instance entries_ok_proper b : Proper ((≡ₚ) ==> iff) (entries_ok b).
Proof. intros R R' HR. unfold RibInv.entries_ok. by rewrite HR. Qed.

#[export] Instance routes_inv_proper impl : Proper ((≡ₚ) ==> iff) (routes_inv impl).
Proof. intros R R' HR. unfold RibInv.routes_inv. by rewrite HR. Qed.

#[export] Instance src_inv_proper impl : Proper ((≡ₚ) ==> iff) (src_inv impl).
Proof. intros R R' HR. split; apply index_perm; done. Qed.

#[export] Instance grp_inv_proper cmp impl : Proper ((≡ₚ) ==> iff) (grp_inv cmp impl).
Proof. intros R R' HR. unfold RibInv.grp_inv. split; intros [? ?]; (split; [|done]); by eapply index_perm. Qed.

(** The bucket of a prefix holds every entry that has this prefix. *)
Lemma runs_bucket T impl R k (Q : Z * list entry_ptr -> Prop) :
  routes_inv impl R → prefix_ok k →
  (∀ idx chain rest, 0 <= idx → idx = rib_hash k mod bucket_count (ri_routes impl) →
     buckets (ri_routes impl) !! Z.to_nat idx = Some chain →
     R ≡ₚ chain ++ rest → Forall (λ e, e_key e ≠ k) rest → Q (idx, chain)) →
  runs T (routes_bucket impl (rib_hash k)) Q.
Proof.
  intros (Hm & HR & Hok) Hk HQ. pose proof (pow2_bounds _ (inv_pow2 _ _ Hm)) as Hpos.
  destruct (inv_lookup prefix_ok (ri_routes impl) k Hk Hm) as (chain & rest & _ & Hb & Hperm & Hrest & Hrun).
  apply (runs_pure _ _ (rib_hash k mod bucket_count (ri_routes impl), chain)).
  - intros s. destruct (Hrun s) as [_ H2]. unfold routes_bucket, mbind, M_bind.
    change (rib_hash k) with (hash k). by rewrite H2.
  - eapply HQ; [apply Z.mod_pos_bound; lia|done|exact Hb|by rewrite <-HR|].
    eapply Forall_impl; [exact Hrest|]. intros e He <-.
    assert (key_eq (e_key e) (e_key e) = true) as Hrefl by by apply fam_eq. congruence.
Qed.

(** ** Relinking a bucket *)

(** The parts of the table other than the map of routes. *)
Definition routes_frame impl impl' : Prop :=
  ri_sources impl' = ri_sources impl ∧ ri_src_mem impl' = ri_src_mem impl ∧
  ri_lpm_groups impl' = ri_lpm_groups impl ∧ ri_grp_mem impl' = ri_grp_mem impl ∧
  ri_lpm_tree impl' = ri_lpm_tree impl ∧ ri_next_update_id impl' = ri_next_update_id impl ∧
  ri_next_addr impl' = ri_next_addr impl.

Lemma routes_len impl R : routes_inv impl R → hm_len (ri_routes impl) = zlen R.
Proof. intros (Hm & HR & _). by rewrite (inv_len _ _ Hm), HR. Qed.

Lemma routes_unlinked impl R idx chain chain' e :
  routes_inv impl R → buckets (ri_routes impl) !! Z.to_nat idx = Some chain → chain ≡ₚ e :: chain' →
  ∃ R', R ≡ₚ e :: R' ∧ routes_inv (set_bucket impl idx chain' (-1)) R'.
Proof.
  intros Hinv Hb Hc. pose proof (routes_len _ _ Hinv) as Hlen. destruct Hinv as (Hm & HR & Hok).
  destruct (concat_insert _ _ chain chain' Hb) as (rest & H1 & H2).
  assert (Hperm : R ≡ₚ e :: (chain' ++ rest)) by by rewrite <-HR, H1, Hc.
  exists (chain' ++ rest). split; [done|]. pose proof (Permutation_length Hperm) as Hl. cbn [length] in Hl.
  rewrite Hperm in Hok. apply entries_ok_cons in Hok. split; [|split; [exact H2|exact Hok]].
  destruct Hm as [Hp2 Hpl Hln Hsm]. unfold set_bucket. cbn [ri_routes set_routes].
  assert (Hu : u64 (hm_len (ri_routes impl) + -1) = zlen (chain' ++ rest)).
  { unfold u64. rewrite Z.mod_small; lia. }
  split; cbn [bucket_count buckets hm_len]; rewrite ?Hu; [done| |by rewrite H2|lia].
  eapply placed_insert; [done..|]. intros e' He'. left. rewrite Hc. set_solver.
Qed.

Lemma routes_linked impl R e chain idx :
  routes_inv impl R → entry_ok (ri_next_addr impl) e → addr_of e ∉ addr_of <$> R → zlen R < 2 ^ 40 →
  0 <= idx → idx = rib_hash (e_key e) mod bucket_count (ri_routes impl) →
  buckets (ri_routes impl) !! Z.to_nat idx = Some chain →
  routes_inv (set_bucket impl idx (e :: chain) 1) (e :: R).
Proof.
  intros Hinv He Hn HR40 H0 Hidx Hb. pose proof (routes_len _ _ Hinv) as Hlen.
  destruct Hinv as ([Hp2 Hpl Hln Hsm] & HR & [Hf Hnd]).
  destruct (concat_insert _ _ chain (e :: chain) Hb) as (rest & H1 & H2).
  assert (Hperm : concat (<[Z.to_nat idx := e :: chain]> (buckets (ri_routes impl))) ≡ₚ e :: R).
  { by rewrite H2, <-HR, H1. }
  assert (Hu : u64 (hm_len (ri_routes impl) + 1) = zlen (e :: R)).
  { cbn [length]. unfold u64. rewrite Z.mod_small; lia. }
  split; [|split; [exact Hperm|split; [by constructor|by constructor]]].
  unfold set_bucket. cbn [ri_routes set_routes].
  split; cbn [bucket_count buckets hm_len]; rewrite ?Hu; [done| |by rewrite Hperm|cbn [length]; lia].
  eapply placed_insert; [done..|]. intros e' [->|?]%elem_of_cons; [right|by left].
  destruct He as [_ Hp Hh _]. split; [done|]. rewrite Hh. lia.
Qed.

(** *** The unlinking and lookup functions *)

Lemma runs_unlink T impl R R' e :
  routes_inv impl R → R ≡ₚ e :: R' →
  runs T (rib_route_entry_unlink_locked impl e) (λ r,
    r.2 = true ∧ routes_frame impl r.1 ∧ routes_inv r.1 R').
Proof.
  intros Hinv HR. pose proof Hinv as (Hm & _ & Hok). assert (He : e ∈ R) by (rewrite HR; set_solver).
  pose proof (entries_ok_elem _ _ _ Hok He) as [_ Hp Hh _].
  pose proof (pow2_bounds _ (inv_pow2 _ _ Hm)). unfold rib_route_entry_unlink_locked.
  replace (bucket_count (ri_routes impl) =? 0) with false by lia. rewrite Hh. apply runs_bind.
  eapply runs_bucket; [done..|]. intros idx chain rest _ _ Hb Hperm Hrest. cbn beta iota.
  assert (Hin : e ∈ chain).
  { rewrite Hperm in He. apply elem_of_app in He as [?|He]; [done|].
    rewrite Forall_forall in Hrest. by destruct (Hrest _ He). }
  pose proof (chain_unlink_spec (λ e', same_entry e' e) chain) as Hu.
  destruct (chain_unlink _ chain) as [[e' chain']|].
  - destruct Hu as [Hc Hs]. assert (e' = e) as ->.
    { eapply entries_ok_inj; [exact Hok| |done|done]. rewrite Hperm, Hc. set_solver. }
    destruct (routes_unlinked impl R idx chain chain' e Hinv Hb Hc) as (R1 & HR1 & Hinv1).
    apply runs_ret. split; [done|]. split; [done|]. rewrite HR in HR1.
    apply Permutation_cons_inv in HR1. cbn [fst]. by rewrite HR1.
  - exfalso. rewrite Forall_forall in Hu. specialize (Hu e Hin).
    assert (same_entry e e = true) by by apply same_entry_addr. congruence.
Qed.

Lemma runs_find_locked T impl R src k :
  routes_inv impl R → prefix_ok k →
  runs T (rib_find_locked impl src k) (λ r,
    match r with
    | Some v => ∃ e, e ∈ R ∧ e_value e = v ∧ e_key e = k ∧ src_of e = src
    | None => ∀ e, e ∈ R → ¬ (e_key e = k ∧ src_of e = src)
    end).
Proof.
  intros Hinv Hk. pose proof Hinv as (_ & _ & Hok). unfold rib_find_locked. apply runs_bind.
  eapply runs_bucket; [done..|]. intros idx chain rest _ _ _ Hperm Hrest. apply runs_ret.
  pose proof (chain_find_spec (entry_is_from src k) chain) as Hf.
  destruct (chain_find _ chain) as [e|]; cbn.
  - destruct Hf as [Hin Hc]. assert (e ∈ R) by (rewrite Hperm; set_solver).
    exists e. apply (entry_is_from_spec (ri_next_addr impl)) in Hc; [naive_solver|by eapply entries_ok_elem|done].
  - intros e HeR Hm. pose proof (entries_ok_elem _ _ _ Hok HeR) as Heok.
    rewrite Hperm in HeR. rewrite Forall_forall in Hf, Hrest.
    apply elem_of_app in HeR as [He|He]; [|by apply (Hrest _ He), Hm].
    specialize (Hf _ He). apply (entry_is_from_spec _ e src k Heok Hk) in Hm. congruence.
Qed.

(** The chain of a prefix, as the scan for the best route sees it. *)
Lemma runs_best_exact T impl R k :
  routes_inv impl R → prefix_ok k →
  runs T (rib_best_exact_locked impl k) (λ r, ∃ es,
    es ≡ₚ filter (λ e, prefix_eq (e_key e) k = true) R ∧ r = best_of (e_value <$> es)).
Proof.
  intros Hinv Hk. pose proof Hinv as (_ & _ & Hok). unfold rib_best_exact_locked. apply runs_bind.
  eapply runs_bucket; [done..|]. intros idx chain rest _ _ _ Hperm Hrest. apply runs_ret.
  exists (filter (λ e, exact_entry k e = true) chain). split; [|apply best_exact_loop_spec].
  assert (Hel : ∀ e, e ∈ R → prefix_eq (e_key e) k = true ↔ e_key e = k).
  { intros e He. apply fam_eq; [|done]. by apply (entries_ok_elem _ _ _ Hok He). }
  rewrite Hperm, filter_app, (filter_none _ rest), app_nil_r.
  2:{ apply Forall_forall. intros e He. rewrite Hel by (rewrite Hperm; set_solver).
      rewrite Forall_forall in Hrest. by apply Hrest. }
  erewrite (filter_agree _ (λ e, prefix_eq (e_key e) k = true)); [done|]. intros e He.
  assert (HeR : e ∈ R) by (rewrite Hperm; set_solver). pose proof (entries_ok_elem _ _ _ Hok HeR) as Heok.
  rewrite Hel by done. unfold exact_entry. rewrite andb_true_iff, (entry_has_prefix_spec (ri_next_addr impl)) by done.
  pose proof Heok as [Hkey Hp _ _]. unfold route_of in Hkey. rewrite <-Hkey, (fam_eq _ _ Hp Hk). naive_solver.
Qed.
End Routes.
