(* ===== verification/RibSpec.v ===== *)
(** * Routing tables: the operations keep the table whole

    [rib_rep cmp impl R]: the map of routes, the index by source, the index by
    prefix and the radix tree of [impl] describe the same entries [R].  Every
    operation moves it to the entries it should, or undoes what it began. *)

From stdpp Require Import gmap.
From S2P Require Import Prelude Bytes Radix Pattr As4 Hashmap HashmapSpec Rib RibTable RibDecision RibIndex RibInv RibRoutes.

Section RibSpec.
Context `{family : Family} {host : Host}.
Context (prefix_ok : Prefix -> Prop) (addr_ok : Addr -> Prop) `{!FamilyLaws prefix_ok addr_ok}.
Implicit Types (e : entry_ptr) (R chain : list entry_ptr) (impl : rib_impl_t) (k : Prefix) (cmp T : bool).

Abbreviation entry_ok := (entry_ok prefix_ok).
Abbreviation entries_ok := (entries_ok prefix_ok).
Abbreviation routes_inv := (routes_inv prefix_ok).
Abbreviation grp_inv := (grp_inv prefix_ok).

(** ** The parts together *)

(** The three parts may hold different entries in the middle of an operation. *)
Definition parts cmp impl Rr Rs Rg : Prop :=
  routes_inv impl Rr ∧ src_inv impl Rs ∧ grp_inv cmp impl Rg.

(** When [cmp] holds, the routes of one prefix have comparable MEDs. *)
Definition cmp_ok cmp R : Prop :=
  cmp = true → ∀ e1 e2, e1 ∈ R → e2 ∈ R → group_of e1 = group_of e2 →
    comparable (route_of e1) (route_of e2).

Definition rib_rep cmp impl R : Prop := parts cmp impl R R R ∧ cmp_ok cmp R.

(** Addresses are not used twice, and no update id is used up. *)
Definition later impl impl' : Prop :=
  ri_next_addr impl <= ri_next_addr impl' ∧ ri_next_update_id impl' = ri_next_update_id impl.

#[export] Instance later_preorder : PreOrder later.
Proof.
  split.
  - intros impl. by split.
  - intros i1 i2 i3 [H1 H2] [H3 H4]. split; [lia|congruence].
Qed.

#[export] Instance cmp_ok_proper cmp : Proper ((≡ₚ) ==> iff) (cmp_ok cmp).
Proof. intros R R' HR. unfold cmp_ok. by setoid_rewrite HR. Qed.

#[export] Instance rib_rep_proper cmp impl : Proper ((≡ₚ) ==> iff) (rib_rep cmp impl).
Proof. intros R R' HR. unfold rib_rep, parts. by rewrite HR. Qed.

Lemma cmp_ok_cons cmp e R : cmp_ok cmp (e :: R) → cmp_ok cmp R.
Proof. intros H Hc e1 e2 H1 H2. apply H; [done|set_solver..]. Qed.

Lemma rep_entries cmp impl R : rib_rep cmp impl R → entries_ok (ri_next_addr impl) R.
Proof. intros [((_ & _ & H) & _) _]. exact H. Qed.

(** *** The parts under the index operations *)

Lemma routes_inv_later impl impl' R :
  ri_routes impl' = ri_routes impl → ri_next_addr impl <= ri_next_addr impl' →
  routes_inv impl R → routes_inv impl' R.
Proof.
  intros Hr Hl (Hm & HR & Hok). unfold RibInv.routes_inv. rewrite Hr. split_and!; [done..|].
  by eapply entries_ok_mono.
Qed.

Lemma src_inv_later impl impl' R :
  ri_sources impl' = ri_sources impl → ri_src_mem impl' = ri_src_mem impl →
  ri_next_addr impl <= ri_next_addr impl' → src_inv impl R → src_inv impl' R.
Proof. unfold src_inv. intros -> -> Hl. by apply src_rep_mono. Qed.

Lemma grp_inv_later cmp impl impl' R :
  ri_lpm_groups impl' = ri_lpm_groups impl → ri_grp_mem impl' = ri_grp_mem impl →
  ri_lpm_tree impl' = ri_lpm_tree impl → ri_next_addr impl <= ri_next_addr impl' →
  grp_inv cmp impl R → grp_inv cmp impl' R.
Proof.
  unfold RibInv.grp_inv. intros -> -> -> Hl [Hi Ht]. split; [|done].
  eapply grp_rep_agree; [exact Hi|apply Hi|done|done|done].
Qed.

Lemma parts_src_frame cmp impl impl' Rr Rs Rs' Rg :
  parts cmp impl Rr Rs Rg → src_frame impl impl' → src_inv impl' Rs' →
  parts cmp impl' Rr Rs' Rg ∧ later impl impl'.
Proof.
  intros (Hr & _ & Hg) (H1 & H2 & H3 & H4 & H5 & H6) Hs. split; [|by split].
  split; [by eapply routes_inv_later|]. split; [done|by eapply grp_inv_later].
Qed.

Lemma parts_grp_frame cmp impl impl' Rr Rs Rg Rg' :
  parts cmp impl Rr Rs Rg → grp_frame impl impl' → grp_inv cmp impl' Rg' →
  parts cmp impl' Rr Rs Rg' ∧ later impl impl'.
Proof.
  intros (Hr & Hs & _) (H1 & H2 & H3 & H4 & H5) Hg. split; [|by split].
  split; [by eapply routes_inv_later|]. split; [by eapply src_inv_later|done].
Qed.

Lemma parts_routes_frame cmp impl impl' Rr Rr' Rs Rg :
  parts cmp impl Rr Rs Rg → routes_frame impl impl' → routes_inv impl' Rr' →
  parts cmp impl' Rr' Rs Rg ∧ later impl impl'.
Proof.
  intros (_ & Hs & Hg) (H1 & H2 & H3 & H4 & H5 & H6 & H7) Hr. split; [|split; [lia|done]].
  split; [done|]. split; [eapply src_inv_later|eapply grp_inv_later]; done || lia.
Qed.

Lemma parts_source_add T cmp impl Rr Rs Rg e :
  parts cmp impl Rr Rs Rg → zlen Rs < 2 ^ 40 →
  runs T (rib_source_index_add impl e) (λ r, later impl r.1 ∧
    (r.2 = LIBBGP_OK ∧ parts cmp r.1 Rr (e :: Rs) Rg ∨
     r.2 = LIBBGP_ERR_NOMEM ∧ parts cmp r.1 Rr Rs Rg ∧ T = false)).
Proof.
  intros Hp Hlen. pose proof Hp as (_ & Hs & _).
  eapply runs_mono; [by eapply runs_source_add|]. intros [impl' e0]. cbn [fst snd].
  intros (Hf & [[-> H]|(-> & H & HT)]); destruct (parts_src_frame _ _ _ _ _ _ _ Hp Hf H); auto.
Qed.

Lemma parts_source_remove T cmp impl Rr Rs Rs' Rg b e :
  parts cmp impl Rr Rs Rg → entries_ok b Rs → Rs ≡ₚ e :: Rs' →
  runs T (rib_source_index_remove impl e) (λ impl', later impl impl' ∧ parts cmp impl' Rr Rs' Rg).
Proof.
  intros Hp Hok HR. pose proof Hp as (_ & Hs & _).
  eapply runs_mono; [by eapply runs_source_remove|]. cbn beta. intros impl' (Hf & H).
  destruct (parts_src_frame _ _ _ _ _ _ _ Hp Hf H). auto.
Qed.

Lemma parts_group_add T cmp impl Rr Rs Rg b e :
  parts cmp impl Rr Rs Rg → entry_ok b e → zlen Rg < 2 ^ 40 → cmp_ok cmp (e :: Rg) →
  runs T (rib_lpm_index_add_locked impl e) (λ r, later impl r.1 ∧
    (r.2 = LIBBGP_OK ∧ parts cmp r.1 Rr Rs (e :: Rg) ∨
     r.2 = LIBBGP_ERR_NOMEM ∧ parts cmp r.1 Rr Rs Rg ∧ T = false)).
Proof.
  intros Hp Hok Hlen Hc. pose proof Hp as (_ & _ & Hg).
  eapply runs_mono; [eapply runs_group_add; [done..|]|].
  { intros HT e' He' Hge. apply Hc; [done|set_solver..|done]. }
  intros [impl' e0]. cbn [fst snd].
  intros (Hf & [[-> H]|(-> & H & HT)]); destruct (parts_grp_frame _ _ _ _ _ _ _ Hp Hf H); auto.
Qed.

Lemma parts_group_remove T cmp impl Rr Rs Rg Rg' b e :
  parts cmp impl Rr Rs Rg → entries_ok b Rg → Rg ≡ₚ e :: Rg' → cmp_ok cmp Rg' →
  runs T (rib_lpm_index_remove_locked impl e) (λ impl', later impl impl' ∧ parts cmp impl' Rr Rs Rg' ∧
    ri_sources impl' = ri_sources impl).
Proof.
  intros Hp Hok HR Hc. pose proof Hp as (_ & _ & Hg).
  eapply runs_mono; [by eapply runs_group_remove|]. cbn beta. intros impl' (Hf & H).
  destruct (parts_grp_frame _ _ _ _ _ _ _ Hp Hf H). destruct Hf as (_ & ? & _). auto.
Qed.

Lemma parts_unlink T cmp impl Rr Rr' Rs Rg e :
  parts cmp impl Rr Rs Rg → Rr ≡ₚ e :: Rr' →
  runs T (rib_route_entry_unlink_locked impl e) (λ r,
    r.2 = true ∧ later impl r.1 ∧ parts cmp r.1 Rr' Rs Rg ∧ ri_sources r.1 = ri_sources impl).
Proof.
  intros Hp HR. pose proof Hp as (Hr & _ & _).
  eapply runs_mono; [by eapply runs_unlink|]. cbn beta. intros [impl' b]. cbn [fst snd].
  intros (-> & Hf & H). destruct (parts_routes_frame _ _ _ _ _ _ _ Hp Hf H).
  destruct Hf as (? & _). auto.
Qed.

(** ** Linking an entry *)

(** The map of routes has the entry [e]; it is added to the two indexes.  [k1]
    is what follows when both additions succeed, [k2] and [k3] undo. *)
Lemma runs_index_both {B} T cmp impl R b e (k1 k2 k3 : rib_impl_t -> libbgp_err_t -> M B) Q :
  parts cmp impl (e :: R) R R → entry_ok b e → zlen R < 2 ^ 40 → cmp_ok cmp (e :: R) →
  (∀ impl', later impl impl' → rib_rep cmp impl' (e :: R) → runs T (k1 impl' LIBBGP_OK) Q) →
  (∀ impl', later impl impl' → parts cmp impl' (e :: R) (e :: R) R → T = false →
     runs T (k2 impl' LIBBGP_ERR_NOMEM) Q) →
  (∀ impl', later impl impl' → parts cmp impl' (e :: R) R R → T = false →
     runs T (k3 impl' LIBBGP_ERR_NOMEM) Q) →
  runs T
    ('(impl, e0) ← rib_source_index_add impl e;
     if decide (e0 = LIBBGP_OK) then
       '(impl, e0) ← rib_lpm_index_add_locked impl e;
       if decide (e0 = LIBBGP_OK) then k1 impl e0 else k2 impl e0
     else k3 impl e0) Q.
Proof.
  intros Hp Hok Hlen Hc H1 H2 H3. apply runs_bind. eapply runs_mono; [by eapply parts_source_add|].
  cbn beta. intros [impl1 e1]. cbn [fst snd]. intros (Hl1 & [[-> Hp1]|(-> & Hp1 & HT)]); cbn.
  2:{ by apply H3. }
  apply runs_bind. eapply runs_mono; [by eapply parts_group_add|].
  cbn beta. intros [impl2 e2]. cbn [fst snd]. intros (Hl2 & [[-> Hp2]|(-> & Hp2 & HT)]); cbn.
  - apply H1; [by etrans|by split].
  - apply H2; [by etrans|done|done].
Qed.

(** Undoing after the first or after the second index. *)
Lemma runs_undo_source {B} T cmp impl R b e (k : rib_impl_t * bool -> M B) Q :
  parts cmp impl (e :: R) (e :: R) R → entries_ok b (e :: R) → cmp_ok cmp R →
  (∀ impl', later impl impl' → rib_rep cmp impl' R → runs T (k (impl', true)) Q) →
  runs T (impl ← rib_source_index_remove impl e; rib_route_entry_unlink_locked impl e ≫= k) Q.
Proof.
  intros Hp Hok Hc HQ. apply runs_bind. eapply runs_mono; [by eapply parts_source_remove|].
  cbn beta. intros impl1 (Hl1 & Hp1). apply runs_bind. eapply runs_mono; [by eapply parts_unlink|].
  cbn beta. intros [impl2 u]. cbn [fst snd]. intros (-> & Hl2 & Hp2 & _).
  apply HQ; [by etrans|]. by split.
Qed.

Lemma runs_undo_routes {B} T cmp impl R e (k : rib_impl_t * bool -> M B) Q :
  parts cmp impl (e :: R) R R → cmp_ok cmp R →
  (∀ impl', later impl impl' → rib_rep cmp impl' R → runs T (k (impl', true)) Q) →
  runs T (rib_route_entry_unlink_locked impl e ≫= k) Q.
Proof.
  intros Hp Hc HQ. apply runs_bind. eapply runs_mono; [by eapply parts_unlink|].
  cbn beta. intros [impl2 u]. cbn [fst snd]. intros (-> & Hl2 & Hp2 & _). apply HQ; [done|]. by split.
Qed.

(** What a table promises when an entry [e] is put into it. *)
Definition linked T cmp impl R e (r : rib_impl_t * libbgp_err_t) : Prop :=
  later impl r.1 ∧
  (r.2 = LIBBGP_OK ∧ rib_rep cmp r.1 (e :: R) ∨
   r.2 = LIBBGP_ERR_NOMEM ∧ rib_rep cmp r.1 R ∧ T = false).

Definition same_slot e e' : Prop := e_key e = e_key e' ∧ src_of e = src_of e'.

Lemma runs_attach T cmp impl R e :
  rib_rep cmp impl R → entry_ok (ri_next_addr impl) e → addr_of e ∉ addr_of <$> R →
  zlen R < 2 ^ 40 → cmp_ok cmp (e :: R) →
  runs T (rib_attach_detached_locked impl e) (λ r,
    (r = (impl, LIBBGP_ERR_EXISTS) ∧ ∃ e', e' ∈ R ∧ same_slot e' e) ∨
    linked T cmp impl R e r ∧ ∀ e', e' ∈ R → ¬ same_slot e' e).
Proof.
  intros [Hp Hc0] Hok Hn Hlen Hc. pose proof Hp as (Hr & _ & _). pose proof Hok as [Hkey Hpk Hh _].
  unfold rib_attach_detached_locked. fold (route_of e). rewrite <-Hkey. apply runs_bind.
  eapply runs_mono; [by eapply runs_find_locked|]. cbn beta. intros [v|].
  { intros (e' & He' & _ & Hk & Hs). apply runs_ret. left. split; [done|]. by exists e'. }
  intros Hnone. cbn [e_hash]. rewrite <-Hh.
  replace (HashEntry (e_key e) (e_value e) (e_hash e)) with e by by destruct e.
  rewrite Hh. apply runs_bind. eapply runs_bucket; [done..|]. intros idx chain rest H0 Hidx Hb _ _.
  cbn beta iota. pose proof (routes_linked prefix_ok impl R e chain idx Hr Hok Hn Hlen H0 Hidx Hb) as Hr1.
  set (impl1 := set_bucket impl idx (e :: chain) 1) in *.
  destruct (parts_routes_frame cmp impl impl1 R (e :: R) R R Hp) as [Hp1 Hl1]; [done..|].
  assert (Hex : ∀ r, linked T cmp impl R e r →
    r = (impl, LIBBGP_ERR_EXISTS) ∧ (∃ e', e' ∈ R ∧ same_slot e' e) ∨
    linked T cmp impl R e r ∧ ∀ e', e' ∈ R → ¬ same_slot e' e) by auto.
  pose proof Hr1 as (_ & _ & Hoks).
  eapply runs_index_both; [exact Hp1|exact Hok|done|done|..]; cbn beta.
  - intros impl' Hl Hrep. apply runs_ret, Hex. split; [by etrans|]. by left.
  - intros impl' Hl Hpp HT. eapply runs_undo_source; [done|exact Hoks|done|]. intros impl2 Hl2 Hrep. apply runs_ret, Hex.
    split; [by do 2 (etrans; [done|])|]. by right.
  - intros impl' Hl Hpp HT. eapply runs_undo_routes; [done..|]. intros impl2 Hl2 Hrep. apply runs_ret, Hex.
    split; [by do 2 (etrans; [done|])|]. by right.
Qed.

(** *** Through the operations of the hash map *)

(** An entry is determined by its pair. *)
Lemma routes_of_contents (map : bgp_hashmap_t Prefix route_ptr) b R :
  hm_inv prefix_ok map → entries_ok b R → contents map ≡ₚ pair_of <$> R → concat (buckets map) ≡ₚ R.
Proof.
  intros [_ Hpl _ _] [Hf _] Hc.
  assert (Hback : ∀ es : list entry_ptr, Forall (λ e, e_hash e = rib_hash (e_key e)) es →
    (λ p, HashEntry p.1 p.2 (rib_hash p.1)) <$> (pair_of <$> es) = es).
  { induction 1 as [|[k' v' h'] es He _ IH]; [done|]. cbn in *. by rewrite IH, He. }
  rewrite <-(Hback (concat (buckets map))), <-(Hback R).
  - fold (contents map). by rewrite Hc.
  - eapply Forall_impl; [exact Hf|]. by intros e' [].
  - eapply Forall_impl; [by eapply placed_hashed|]. by intros e' [_ ?].
Qed.

Lemma contents_of_routes impl R : routes_inv impl R → contents (ri_routes impl) ≡ₚ pair_of <$> R.
Proof. intros (_ & HR & _). unfold contents. by rewrite HR. Qed.

Lemma routes_replaced impl R' (routes : bgp_hashmap_t Prefix route_ptr) :
  hm_inv prefix_ok routes → entries_ok (ri_next_addr impl) R' → contents routes ≡ₚ pair_of <$> R' →
  routes_inv (set_routes impl routes) R'.
Proof. intros Hm Hok Hc. split_and!; [done|by eapply routes_of_contents|done]. Qed.

Lemma runs_find_value T impl R e :
  routes_inv impl R → e ∈ R →
  runs T (rib_entry_find_value_locked impl (e_key e) (e_value e)) (λ r, r = Some e).
Proof.
  intros Hinv He. pose proof Hinv as (_ & _ & Hok). pose proof (entries_ok_elem _ _ _ _ Hok He) as Heok.
  assert (Hk : prefix_ok (e_key e)) by apply Heok. unfold rib_entry_find_value_locked. apply runs_bind.
  eapply runs_bucket; [done..|]. intros idx chain rest _ _ _ Hperm Hrest. apply runs_ret.
  set (cond := λ e', entry_has_prefix (e_key e) e' && same_ptr (e_value e') (e_value e)).
  assert (Hce : cond e = true).
  { unfold cond. apply andb_true_iff. split; [|by apply same_entry_addr].
    by eapply entry_has_prefix_spec. }
  pose proof (chain_find_spec cond chain) as Hf. destruct (chain_find cond chain) as [e'|].
  - destruct Hf as [Hin [_ Hs]%andb_true_iff]. f_equal. eapply entries_ok_inj; [exact Hok| |done|exact Hs].
    rewrite Hperm. set_solver.
  - exfalso. rewrite Forall_forall in Hf, Hrest. rewrite Hperm in He.
    apply elem_of_app in He as [He|He]; [|by destruct (Hrest _ He)].
    specialize (Hf _ He). congruence.
Qed.

(** A new route, at an address no entry has. *)
Definition entry_of (copy : route_ptr) : entry_ptr :=
  HashEntry (rr_prefix (ro_route copy)) copy (rib_hash (rr_prefix (ro_route copy))).

Lemma runs_link_route T cmp impl R copy :
  rib_rep cmp impl R → prefix_ok (rr_prefix (ro_route copy)) → ro_addr copy < ri_next_addr impl →
  ro_addr copy ∉ addr_of <$> R → zlen R < 2 ^ 40 → cmp_ok cmp (entry_of copy :: R) →
  runs T (link_route impl copy) (linked T cmp impl R (entry_of copy)).
Proof.
  intros [Hp Hc0] Hk Ha Hn Hlen Hc. pose proof Hp as (Hr & _ & _). pose proof Hr as (Hm & _ & Hok).
  pose proof (contents_of_routes _ _ Hr) as Hcon. set (e := entry_of copy) in *.
  assert (Heok : entry_ok (ri_next_addr impl) e) by done.
  assert (Hoks : entries_ok (ri_next_addr impl) (e :: R)).
  { destruct Hok. split; by constructor. }
  unfold link_route. apply runs_bind. eapply runs_mono; [apply (runs_insert prefix_ok); [done|done|]|].
  { rewrite Hcon, length_fmap. lia. }
  intros [routes e0]. cbn [fst snd]. intros (Hm' & [[-> Hc']|(-> & Hc' & HT)]); cbn [decide].
  2:{ destruct (parts_routes_frame cmp impl (set_routes impl routes) R R R R Hp) as [Hp1 Hl1]; [done| |].
      { apply routes_replaced; [done|done|]. by rewrite Hc'. }
      apply runs_ret. split; [done|]. by right. }
  rewrite Hcon in Hc'.
  destruct (parts_routes_frame cmp impl (set_routes impl routes) R (e :: R) R R Hp) as [Hp1 Hl1]; [done| |].
  { apply routes_replaced; [done..|]. by rewrite Hc'. }
  cbn. apply runs_bind. eapply runs_mono.
  { apply (runs_find_value T _ (e :: R) e); [apply Hp1|set_solver]. }
  cbn beta. intros r ->. eapply runs_index_both; [exact Hp1|exact Heok|done|done|..]; cbn beta.
  - intros impl' Hl Hrep. apply runs_ret. split; [by etrans|]. by left.
  - intros impl' Hl Hpp HT. eapply runs_undo_source; [done|exact Hoks|done|]. intros impl2 Hl2 Hrep. apply runs_ret.
    split; [by do 2 (etrans; [done|])|]. by right.
  - intros impl' Hl Hpp HT. eapply runs_undo_routes; [done..|]. intros impl2 Hl2 Hrep. apply runs_ret.
    split; [by do 2 (etrans; [done|])|]. by right.
Qed.

(** ** Taking an entry out *)

Lemma runs_detach_matching T cmp impl R k (cond : entry_ptr -> bool) :
  rib_rep cmp impl R → prefix_ok k → (∀ e, e ∈ R → cond e = true → e_key e = k) →
  runs T (detach_matching impl k cond) (λ r, later impl r.1 ∧
    match r.2 with
    | Some e => cond e = true ∧ ∃ R', R ≡ₚ e :: R' ∧ rib_rep cmp r.1 R'
    | None => r.1 = impl ∧ ∀ e, e ∈ R → cond e = false
    end).
Proof.
  intros [Hp Hc] Hk Hcond. pose proof Hp as (Hr & _ & _). pose proof Hr as (_ & _ & Hok).
  unfold detach_matching. apply runs_bind. eapply runs_bucket; [done..|].
  intros idx chain rest _ _ Hb Hperm Hrest. cbn beta iota.
  pose proof (chain_unlink_spec cond chain) as Hu. destruct (chain_unlink cond chain) as [[e chain']|].
  - destruct Hu as [Hch Hce]. destruct (routes_unlinked prefix_ok addr_ok impl R idx chain chain' e Hr Hb Hch) as (R' & HR & Hr1).
    destruct (parts_routes_frame cmp impl (set_bucket impl idx chain' (-1)) R R' R R Hp) as [Hp1 Hl1]; [done..|].
    assert (Hc' : cmp_ok cmp R') by (eapply (cmp_ok_cons _ e); by rewrite <-HR).
    apply runs_bind. eapply runs_mono; [by eapply parts_source_remove|]. cbn beta. intros impl2 (Hl2 & Hp2).
    apply runs_bind. eapply runs_mono; [by eapply parts_group_remove|]. cbn beta. intros impl3 (Hl3 & Hp3 & _).
    apply runs_ret. cbn [fst snd]. split; [by do 2 (etrans; [done|])|]. split; [done|]. exists R'. split; [done|]. by split.
  - apply runs_ret. split; [done|]. split; [done|]. intros e He. pose proof He as HeR. rewrite Hperm in He.
    rewrite Forall_forall in Hu, Hrest. apply elem_of_app in He as [He|He]; [by apply Hu|].
    apply not_true_is_false. intros Ht. by apply (Hrest _ He), Hcond.
Qed.

Lemma runs_detach T cmp impl R src k :
  rib_rep cmp impl R → prefix_ok k →
  runs T (rib_detach_locked impl src k) (λ r, later impl r.1 ∧
    match r.2 with
    | Some e => e_key e = k ∧ src_of e = src ∧ ∃ R', R ≡ₚ e :: R' ∧ rib_rep cmp r.1 R'
    | None => r.1 = impl ∧ ∀ e, e ∈ R → ¬ (e_key e = k ∧ src_of e = src)
    end).
Proof.
  intros Hrep Hk. pose proof (rep_entries _ _ _ Hrep) as Hok.
  assert (Hfrom : ∀ e, e ∈ R → entry_is_from src k e = true ↔ e_key e = k ∧ src_of e = src).
  { intros e He. pose proof (entries_ok_elem _ _ _ _ Hok He). by eapply entry_is_from_spec. }
  eapply runs_mono; [eapply runs_detach_matching; [done|done|]|].
  { intros e He Hf. by apply Hfrom in Hf as [? _]. }
  cbn beta. intros [impl' [e|]]; cbn [fst snd]; intros (Hl & H1 & H2).
  - destruct H2 as (R' & HR & Hrep'). apply Hfrom in H1 as [? ?]; [|rewrite HR; set_solver]. eauto 10.
  - split; [done|]. split; [done|]. intros e He Hf. apply (Hfrom e He) in Hf. rewrite (H2 e He) in Hf. done.
Qed.

Lemma runs_detach_value T cmp impl R e :
  rib_rep cmp impl R → e ∈ R →
  runs T (rib_detach_value_locked impl (e_key e) (e_value e)) (λ r, later impl r.1 ∧
    r.2 = Some e ∧ ∃ R', R ≡ₚ e :: R' ∧ rib_rep cmp r.1 R').
Proof.
  intros Hrep He. pose proof (rep_entries _ _ _ Hrep) as Hok. pose proof (entries_ok_elem _ _ _ _ Hok He) as Heok.
  assert (Hk : prefix_ok (e_key e)) by apply Heok.
  assert (Hhas : ∀ e', e' ∈ R → entry_has_prefix (e_key e) e' = true ↔ e_key e' = e_key e).
  { intros e' He'. pose proof (entries_ok_elem _ _ _ _ Hok He'). by eapply entry_has_prefix_spec. }
  eapply runs_mono; [eapply runs_detach_matching; [done|done|]|].
  { cbn beta. intros e' He' [Hf _]%andb_true_iff. by apply Hhas. }
  cbn beta. intros [impl' [e'|]]; cbn [fst snd]; intros (Hl & H1 & H2).
  - split; [done|]. destruct H2 as (R' & HR & Hrep'). apply andb_true_iff in H1 as [_ Hs].
    assert (e' = e) as ->; [|by eauto]. eapply entries_ok_inj; [exact Hok|rewrite HR; set_solver|done|exact Hs].
  - exfalso. specialize (H2 e He). apply andb_false_iff in H2 as [H2|H2].
    + assert (entry_has_prefix (e_key e) e = true) as Ht by by apply Hhas. exact (eq_true_false_abs _ Ht H2).
    + exact (eq_true_false_abs _ (proj2 (same_entry_addr e e) eq_refl) H2).
Qed.
(** *** Withdrawing *)

(** [bgp_hashmap_remove_one] on an entry that is stored takes out that entry. *)
Lemma runs_remove_entry T impl R R' e :
  routes_inv impl R → R ≡ₚ e :: R' →
  runs T (bgp_hashmap_remove_one (ri_routes impl) (e_key e) (Some (e_value e))) (λ r,
    r.1.2 = LIBBGP_OK ∧ routes_inv (set_routes impl r.1.1) R').
Proof.
  intros Hr HR. pose proof Hr as (Hm & _ & Hok). pose proof (contents_of_routes _ _ Hr) as Hcon.
  assert (He : e ∈ R) by (rewrite HR; set_solver). pose proof (entries_ok_elem _ _ _ _ Hok He) as [_ Hk _ _].
  eapply runs_mono; [by apply (runs_remove prefix_ok)|]. intros [[routes e1] freed]. cbn [fst snd].
  intros (Hm' & [([k v] & -> & _ & Hpi & Hc)|(_ & _ & _ & Hnone)]).
  - split; [done|]. rewrite Hcon in Hc. unfold pair_is in Hpi. cbn [fst snd value_matches] in Hpi.
    apply andb_true_iff in Hpi as [_ Hs].
    assert (∃ e', e' ∈ R ∧ (k, v) = pair_of e') as (e' & He' & Hkv).
    { assert ((k, v) ∈ pair_of <$> R) as (e' & ? & ?)%list_elem_of_fmap by (rewrite Hc; set_solver). eauto. }
    rewrite Hkv in Hc. injection Hkv as -> ->.
    rewrite (entries_ok_inj _ _ _ _ _ Hok He' He Hs), HR, fmap_cons in Hc.
    apply Permutation_cons_inv in Hc.
    apply routes_replaced; [done| |done]. rewrite HR in Hok. by eapply entries_ok_cons.
  - exfalso. rewrite Hcon in Hnone. rewrite Forall_forall in Hnone.
    specialize (Hnone (pair_of e) (list_elem_of_fmap_2 _ _ _ He)).
    unfold pair_is, pair_of in Hnone. cbn [fst snd value_matches] in Hnone. apply andb_false_iff in Hnone as [H|H].
    + assert (key_eq (e_key e) (e_key e) = true) as Ht by by apply fam_eq. exact (eq_true_false_abs _ Ht H).
    + exact (eq_true_false_abs _ (proj2 (same_entry_addr e e) eq_refl) H).
Qed.

Lemma runs_withdraw T cmp impl R src k :
  rib_rep cmp impl R → prefix_ok k →
  runs T (rib_withdraw_locked impl src k) (λ r, later impl r.1 ∧
    (r.2 = LIBBGP_OK ∧ (∃ e R', e_key e = k ∧ src_of e = src ∧ R ≡ₚ e :: R' ∧ rib_rep cmp r.1 R') ∨
     r = (impl, LIBBGP_ERR_NOT_FOUND) ∧ ∀ e, e ∈ R → ¬ (e_key e = k ∧ src_of e = src))).
Proof.
  intros [Hp Hc] Hk. pose proof Hp as (Hr & _ & _). pose proof Hr as (_ & _ & Hok).
  assert (Hfrom : ∀ e, e ∈ R → entry_is_from src k e = true ↔ e_key e = k ∧ src_of e = src).
  { intros e He. pose proof (entries_ok_elem _ _ _ _ Hok He). by eapply entry_is_from_spec. }
  unfold rib_withdraw_locked. apply runs_bind. eapply runs_bucket; [done..|].
  intros idx chain rest _ _ _ Hperm Hrest. cbn beta iota.
  pose proof (chain_find_spec (entry_is_from src k) chain) as Hf. destruct (chain_find _ chain) as [e|].
  - destruct Hf as [Hin Hce]. assert (He : e ∈ R) by (rewrite Hperm; set_solver).
    apply Hfrom in Hce as [<- <-]; [|done].
    apply list_elem_of_In, Add_inv in He as [R' HR%Permutation_Add]. symmetry in HR.
    assert (Hc' : cmp_ok cmp R') by (eapply (cmp_ok_cons _ e); by rewrite <-HR).
    apply runs_bind. eapply runs_mono; [by eapply parts_source_remove|]. cbn beta. intros impl1 (Hl1 & Hp1).
    apply runs_bind. eapply runs_mono; [by eapply parts_group_remove|]. cbn beta. intros impl2 (Hl2 & Hp2 & _).
    pose proof Hp2 as (Hr2 & _ & _).
    apply runs_bind. eapply runs_mono; [by apply (runs_remove_entry T _ R R')|].
    intros [[routes e1] freed]. cbn [fst snd]. intros (-> & Hr3). apply runs_ret. cbn [fst snd].
    destruct (parts_routes_frame cmp impl2 (set_routes impl2 routes) R R' R' R' Hp2) as [Hp3 Hl3]; [done..|].
    split; [by do 2 (etrans; [done|])|]. left. split; [done|]. exists e, R'. split_and!; try done.
  - apply runs_ret. split; [done|]. right. split; [done|]. intros e He Hm. pose proof (proj2 (Hfrom e He) Hm) as Ht.
    rewrite Hperm in He. rewrite Forall_forall in Hf, Hrest. apply elem_of_app in He as [He|He].
    + exact (eq_true_false_abs _ Ht (Hf _ He)).
    + by apply (Hrest _ He), Hm.
Qed.
(** *** Removing a source *)

(** The loop empties the map and the index by prefix; the object it walks over
    stays in the index by source until the end. *)
Lemma runs_remove_loop T cmp es : ∀ impl R Rs n,
  parts cmp impl (es ++ R) Rs (es ++ R) → cmp_ok cmp (es ++ R) →
  runs T (remove_source_loop impl es n) (λ r,
    later impl r.1 ∧ parts cmp r.1 R Rs R ∧ ri_sources r.1 = ri_sources impl ∧ r.2 = n + zlen es).
Proof.
  induction es as [|e es IH]; intros impl R Rs n Hp Hc; cbn [remove_source_loop app] in *.
  { apply runs_ret. cbn. split_and!; done || lia. }
  pose proof Hp as ((_ & _ & Hok) & _ & _). pose proof (cmp_ok_cons _ _ _ Hc) as Hc'.
  apply runs_bind. eapply runs_mono; [by eapply parts_unlink|].
  intros [impl1 u]. cbn [fst snd]. intros (-> & Hl1 & Hp1 & Hs1).
  apply runs_bind. eapply runs_mono; [by eapply parts_group_remove|]. cbn beta. intros impl2 (Hl2 & Hp2 & Hs2).
  eapply runs_mono; [by apply IH|]. intros [impl3 m]. cbn [fst snd length]. intros (Hl3 & Hp3 & Hs3 & ->).
  split; [by do 2 (etrans; [done|])|]. split; [done|]. split; [congruence|lia].
Qed.

Lemma runs_remove_source T cmp impl R id :
  rib_rep cmp impl R →
  runs T (rib_remove_source_locked impl id) (λ r, later impl r.1 ∧
    rib_rep cmp r.1 (without_key src_of id R) ∧ r.2 = zlen (with_key src_of id R)).
Proof.
  intros [Hp Hc]. pose proof Hp as (_ & Hs & _). unfold rib_remove_source_locked. apply runs_bind.
  pose proof (with_without src_of id R) as HR. set (R' := without_key src_of id R) in *.
  eapply runs_mono; [by apply (runs_source_find T impl R id)|]. intros [p|].
  - intros (o & Hin & Ho & _ & _ & He). apply runs_bind. eapply runs_deref; [done|].
    rewrite <-He in HR. assert (Hc' : cmp_ok cmp R').
    { intros HT e1 e2 H1 H2. apply Hc; [done|rewrite HR; set_solver..]. }
    apply runs_bind. eapply runs_mono.
    { apply (runs_remove_loop T cmp (se_entries o) impl R' R 0); [unfold parts|]; by rewrite <-HR. }
    intros [impl1 n]. cbn [fst snd]. intros (Hl1 & Hp1 & Hsrc & ->). pose proof Hp1 as (_ & Hs1 & _).
    apply runs_bind. eapply runs_mono; [apply (runs_index_drop _ source_eq_ok _ _ id p); [apply Hs1|done|by rewrite Hsrc]|].
    intros [[sources e0] freed]. cbn [fst snd]. intros (Hm & -> & Hcon). apply runs_ret. cbn [fst snd].
    destruct (parts_src_frame cmp impl1 (set_sources impl1 sources (free_objects (ri_src_mem impl1) [(id, p)]))
      R' R R' R' Hp1) as [Hp2 Hl2]; [done| |].
    { eapply (index_remove_key _ source_eq_ok); [exact Hs1|done|done|exact Hcon|].
      intros q Hq. cbn. by rewrite lookup_delete_ne. }
    split; [by etrans|]. split; [by split|]. by rewrite <-He.
  - intros [_ Hnone]. apply runs_ret. cbn [fst snd]. rewrite Hnone in HR |- *. split; [done|]. split; [|done].
    rewrite <-HR. by split.
Qed.
(** ** Inserting *)

(** What is stored of a route. *)
Definition stored_id impl (route : libbgp_rib_route_t) : Z :=
  if rr_update_id route =? 0 then (rib_next_update_id impl).1 else rr_update_id route.

Definition stored_route impl (route : libbgp_rib_route_t) : libbgp_rib_route_t :=
  with_defaults route (pref_of route) (stored_id impl route).

(** The same table, with more addresses or update ids used up. *)
Definition bumped impl impl' : Prop :=
  ri_routes impl' = ri_routes impl ∧ ri_sources impl' = ri_sources impl ∧
  ri_src_mem impl' = ri_src_mem impl ∧ ri_lpm_groups impl' = ri_lpm_groups impl ∧
  ri_grp_mem impl' = ri_grp_mem impl ∧ ri_lpm_tree impl' = ri_lpm_tree impl ∧
  ri_next_addr impl <= ri_next_addr impl'.

Lemma rib_rep_bumped cmp impl impl' R : bumped impl impl' → rib_rep cmp impl R → rib_rep cmp impl' R.
Proof.
  intros (H1 & H2 & H3 & H4 & H5 & H6 & H7) [(Hr & Hs & Hg) Hc]. split; [|done].
  split; [by eapply routes_inv_later|]. split; [by eapply src_inv_later|by eapply grp_inv_later].
Qed.

Lemma runs_clone T impl (route : libbgp_rib_route_t) :
  prefix_ok (rr_prefix route) → zlen (rr_attrs route) < 2 ^ 60 →
  runs T (rib_route_clone impl route) (λ r, bumped impl r.1 ∧
    match r.2 with
    | inl copy => ro_route copy = stored_route impl route ∧
                  ri_next_addr impl <= ro_addr copy < ri_next_addr r.1
    | inr e => e = LIBBGP_ERR_NOMEM ∧ T = false
    end).
Proof.
  intros Hk Hattrs. unfold rib_route_clone. pose proof (fam_len _ Hk) as Hlen.
  replace (width <? prefix_len (rr_prefix route)) with false by lia.
  assert (Hb : bumped impl impl) by by unfold bumped.
  apply runs_alloc; [|intros HT; by apply runs_ret]. cbn [negb].
  replace (if rr_update_id route =? 0 then rib_next_update_id impl else (rr_update_id route, impl))
    with (stored_id impl route, if rr_update_id route =? 0 then (rib_next_update_id impl).2 else impl)
    by (unfold stored_id; by destruct (rr_update_id route =? 0)).
  set (impl1 := if _ =? 0 then (rib_next_update_id impl).2 else impl).
  assert (Hb1 : bumped impl impl1) by (unfold impl1; by destruct (_ =? 0)).
  assert (Hn : ri_next_addr impl1 = ri_next_addr impl) by (unfold impl1; by destruct (_ =? 0)).
  cbn beta iota. apply runs_bind.
  apply (runs_mono _ _ (λ ok : bool, ok = true ∨ T = false)).
  { apply runs_if; intros Hz; [apply runs_ret; by left|].
    assert (Hmax : SIZE_MAX / SIZEOF_ROUTE_POINTER = 2 ^ 61 - 1) by done. rewrite Hmax.
    replace (_ <? _) with false by lia. apply runs_bind_ret, runs_alloc; [apply runs_ret; by left|].
    intros HT. apply runs_ret. by right. }
  intros [] Hok; cbn [negb]; [|apply runs_ret; split; [done|]; split; [done|by destruct Hok]].
  apply runs_alloc; [|intros HT; by apply runs_ret]. cbn [negb take_addr]. apply runs_ret.
  cbn [fst snd ro_route ro_addr]. split.
  - destruct Hb1 as (H1 & H2 & H3 & H4 & H5 & H6 & H7). unfold bumped. cbn. split_and!; done || lia.
  - split; [done|]. cbn. lia.
Qed.

(** What an insertion into the entries [R] may do. *)
Definition inserted T cmp impl R (route : libbgp_rib_route_t) (plain : bool)
    (r : rib_impl_t * insert_result) : Prop :=
  let slot e := e_key e = rr_prefix route ∧ src_of e = rr_source_router_id route in
  (r = (impl, InsertResult LIBBGP_ERR_EXISTS None 0) ∧ plain = true ∧
     rr_source_router_id route = 0 ∧ ∃ e, e ∈ R ∧ slot e) ∨
  (r.2 = InsertResult LIBBGP_ERR_NOMEM None 0 ∧ rib_rep cmp r.1 R ∧ T = false ∧
     ri_next_addr impl <= ri_next_addr r.1) ∨
  (∃ new, route_of new = stored_route impl route ∧ ri_next_addr impl <= addr_of new ∧
     ir_err r.2 = LIBBGP_OK ∧
     ir_update_id r.2 = stored_id impl route ∧
     match ir_replaced r.2 with
     | None => (∀ e, e ∈ R → ¬ slot e) ∧ rib_rep cmp r.1 (new :: R)
     | Some old => slot old ∧ (plain = true → rr_source_router_id route ≠ 0) ∧
                   ∃ R', R ≡ₚ old :: R' ∧ rib_rep cmp r.1 (new :: R')
     end).

(** The new route can be compared with those of its prefix. *)
Definition new_comparable cmp R (route : libbgp_rib_route_t) : Prop :=
  cmp = true → ∀ e, e ∈ R → group_of e = rib_lpm_normalize_prefix (rr_prefix route) →
    comparable route (route_of e).

Lemma comparable_sym a b : comparable a b → comparable b a.
Proof.
  intros [H|H]; [by left|]. right. unfold same_neighbor in *.
  destruct (rib_neighbor_as a), (rib_neighbor_as b); try done. lia.
Qed.

Lemma cmp_ok_new cmp impl R (route : libbgp_rib_route_t) copy :
  cmp_ok cmp R → new_comparable cmp R route → ro_route copy = stored_route impl route →
  cmp_ok cmp (entry_of copy :: R).
Proof.
  intros Hc Hn Hr HT e1 e2 H1 H2 Hg.
  assert (Hnew : ∀ e, e ∈ R → group_of (entry_of copy) = group_of e →
    comparable (route_of (entry_of copy)) (route_of e)).
  { unfold group_of, route_of. cbn [entry_of e_value]. rewrite Hr. intros e He Hge. by apply Hn. }
  apply elem_of_cons in H1 as [->|H1], H2 as [->|H2]; [by left| |apply comparable_sym|]; auto.
Qed.

Lemma runs_insert_route T cmp impl R route plain :
  rib_rep cmp impl R → prefix_ok (rr_prefix route) → zlen (rr_attrs route) < 2 ^ 60 →
  zlen R < 2 ^ 40 → new_comparable cmp R route →
  runs T (rib_insert_save_replaced_locked impl route plain) (inserted T cmp impl R route plain).
Proof.
  intros Hrep Hk Hattrs Hlen Hn. pose proof Hrep as [(Hr & _ & _) Hc].
  unfold rib_insert_save_replaced_locked. apply runs_bind.
  eapply runs_mono; [by eapply runs_find_locked|]. cbn beta. intros old Hold.
  apply runs_if; intros Hcond.
  { apply runs_ret. left. apply andb_true_iff in Hcond as [[H0 Hsome%bool_decide_eq_true]%andb_true_iff ->].
    destruct Hsome as [v ->]. destruct Hold as (e & He & _ & ? & ?). split_and!; [done|done|lia|by exists e]. }
  apply runs_bind. eapply runs_mono; [by apply runs_clone|]. intros [impl1 r]. cbn [fst snd].
  intros (Hb & Hcopy). pose proof (rib_rep_bumped _ _ _ _ Hb Hrep) as Hrep1.
  destruct r as [copy|e]; [|destruct Hcopy as [-> HT]; apply runs_ret; right; left; split_and!; try done; apply Hb].
  destruct Hcopy as [Hroute Haddr]. pose proof (rep_entries _ _ _ Hrep) as [Hf _].
  assert (Hfresh : ro_addr copy ∉ addr_of <$> R).
  { intros (e & Hae & He)%list_elem_of_fmap. rewrite Forall_forall in Hf. destruct (Hf e He). lia. }
  apply runs_bind. eapply runs_mono; [apply (runs_link_route T cmp impl1 R copy)|]; try done.
  { by rewrite Hroute. }
  { lia. }
  { by eapply cmp_ok_new. }
  intros [impl2 e]. intros (Hl2 & [[He Hrep2]|(He & Hrep2 & HT)]); cbn [fst snd] in *; subst e; cbn.
  2:{ apply runs_ret. right. left. split_and!; try done. destruct Hl2. cbn [fst snd] in *. lia. }
  rewrite Hroute. change (rr_prefix (stored_route impl route)) with (rr_prefix route).
  apply runs_bind. destruct old as [v|].
  - destruct Hold as (e & He & <- & Hkey & Hsrc). rewrite <-Hkey.
    eapply runs_mono; [apply (runs_detach_value T cmp impl2 (entry_of copy :: R) e Hrep2); set_solver|].
    intros [impl3 rep]. cbn [fst snd]. intros (Hl3 & -> & R3 & HR3 & Hrep3).
    apply runs_ret. right. right. exists (entry_of copy). split_and!; [exact Hroute|apply Haddr|done|done|].
    cbn [ir_replaced snd fst]. split; [done|]. split.
    { intros Hpl. rewrite Hpl in Hcond. cbn in Hcond. lia. }
    apply list_elem_of_In, Add_inv in He as [R' HR%Permutation_Add]. symmetry in HR. exists R'. split; [done|].
    rewrite HR, Permutation_swap in HR3. apply Permutation_cons_inv in HR3. by rewrite HR3.
  - apply runs_ret, runs_ret. right. right. exists (entry_of copy). split_and!; [exact Hroute|apply Haddr|done|done|]. by split.
Qed.
End RibSpec.
