(* ===== verification/RibLookup.v ===== *)
(** * Routing tables: lookups

    Longest-prefix match through the radix tree and through the routes of one
    source, both as statements about the entries of the table. *)

From stdpp Require Import gmap.
From S2P Require Import Prelude Bytes Radix Pattr As4 Hashmap HashmapSpec Rib RibTable RibDecision RibIndex RibInv RibRoutes RibSpec.

Section RibLookup.
Context `{family : Family} {host : Host}.
Context (prefix_ok : Prefix -> Prop) (addr_ok : Addr -> Prop) `{!FamilyLaws prefix_ok addr_ok}.
Implicit Types (e : entry_ptr) (R : list entry_ptr) (impl : rib_impl_t) (k : Prefix) (cmp T : bool) (a : Addr).
Implicit Types (t : list libbgp_rib_route_t) (r : libbgp_rib_route_t).

Abbreviation entry_ok := (entry_ok prefix_ok).
Abbreviation entries_ok := (entries_ok prefix_ok).
Abbreviation rib_rep := (rib_rep prefix_ok).

(** ** Coverage *)

Definition covers a r : Prop := rib_addr_matches (rr_prefix r) a = true.

(** [r] is among the routes of [t], covers [a], and no covering route of [t]
    has a longer prefix; with [cmp] it is also a most preferred one of those
    with the same length. *)
Definition longest_route cmp t a r : Prop :=
  r ∈ t ∧ covers a r ∧
  ∀ r', r' ∈ t → covers a r' →
    prefix_len (rr_prefix r') <= prefix_len (rr_prefix r) ∧
    (cmp = true → prefix_len (rr_prefix r') = prefix_len (rr_prefix r) →
       memcmp (rank r) (rank r') <= 0).

Definition route_len e : Z := prefix_len (rr_prefix (route_of e)).

Lemma prefix_bits_length k : prefix_ok k → length (prefix_bits k) = Z.to_nat (prefix_len k).
Proof. intros Hk. unfold prefix_bits, directions. by rewrite length_fmap, length_seqZ. Qed.

Lemma group_bits_length b e :
  entry_ok b e → length (prefix_bits (group_of e)) = Z.to_nat (route_len e).
Proof.
  intros He. pose proof He as [Hk Hp _ _]. rewrite prefix_bits_length by by eapply group_ok.
  unfold group_of, route_len. rewrite <-Hk. by rewrite fam_norm_len.
Qed.

Lemma covers_bits b e a :
  entry_ok b e → addr_ok a →
  covers a (route_of e) ↔
    prefix_bits (group_of e) = take (Z.to_nat (route_len e)) (directions radix_bit a width).
Proof. intros [Hk Hp _ _] Ha. unfold covers, group_of, route_len. rewrite Hk in Hp. by apply fam_matches. Qed.

(** Covering prefixes of the same length are the same group. *)
Lemma covers_group b b' e e' a :
  entry_ok b e → entry_ok b' e' → addr_ok a → covers a (route_of e) → covers a (route_of e') →
  route_len e' = route_len e → group_of e' = group_of e.
Proof.
  intros He He' Ha Hc Hc' Hl. rewrite (covers_bits _ _ _ He Ha) in Hc. rewrite (covers_bits _ _ _ He' Ha) in Hc'.
  destruct He as [Hk Hp _ _], He' as [Hk' Hp' _ _]. apply fam_norm_inj; [congruence..|].
  unfold group_of in *. by rewrite Hc, Hc', Hl.
Qed.

Lemma directions_length a : length (directions radix_bit a width) = Z.to_nat width.
Proof. unfold directions. by rewrite length_fmap, length_seqZ. Qed.

(** ** The radix tree *)

Lemma tree_lookup cmp impl R a :
  rib_rep cmp impl R → addr_ok a →
  match radix_lookup_lpm width radix_bit (ri_lpm_tree impl) a with
  | Some best => longest_route cmp (route_of <$> R) a (ro_route best)
  | None => ∀ r, r ∈ route_of <$> R → ¬ covers a r
  end.
Proof.
  intros Hrep Ha. pose proof (rep_entries _ _ _ _ Hrep) as Hok.
  destruct Hrep as [(_ & _ & Hi & m & Hm & Hmaps) _].
  set (ds := directions radix_bit a width).
  assert (Hel : ∀ e, e ∈ R → entry_ok (ri_next_addr impl) e) by (intros e; by apply entries_ok_elem).
  assert (Hget : ∀ e, e ∈ R → covers a (route_of e) →
    (Z.to_nat (route_len e) <= length ds)%nat ∧ m !! take (Z.to_nat (route_len e)) ds ≠ None).
  { intros e He Hc. pose proof (Hel e He) as Heok. rewrite (covers_bits _ _ _ Heok Ha) in Hc. fold ds in Hc. split.
    - unfold ds. rewrite directions_length. destruct Heok as [Hk Hp _ _]. pose proof (fam_len _ Hp).
      unfold route_len. rewrite <-Hk. lia.
    - destruct (ix_complete _ _ _ _ _ _ _ _ Hi e He) as [Hko Hin].
      apply list_elem_of_fmap in Hin as ([k p] & Hk & Hin). cbn in Hk. subst k.
      destruct (ix_obj _ _ _ _ _ _ _ _ Hi _ _ Hin) as (_ & g & Hg & _).
      rewrite <-Hc, (proj2 (Hmaps _ (ge_best g))); [done|]. by exists (group_of e), p, g. }
  pose proof (radix_lookup_spec width radix_bit (ri_lpm_tree impl) m a Hm) as Hlpm.
  change (directions radix_bit a width) with ds in Hlpm.
  destruct Hlpm as [(n & Hn & Hget' & Hmax)|[-> Hnone]].
  2:{ intros r (e & -> & He)%list_elem_of_fmap Hc. destruct (Hget e He Hc) as [Hl Hne].
      by rewrite Hnone in Hne. }
  apply Hmaps in Hget' as (k & p & g & Hin & Hg & Hbits & ->).
  destruct (ix_obj _ _ _ _ _ _ _ _ Hi _ _ Hin) as (_ & g' & Hg' & (_ & _ & _ & best & Hbest & Hbin & Hopt) & _ & Hents).
  simplify_eq. rewrite Hbest. apply list_elem_of_fmap in Hbin as (e & -> & He).
  pose proof (index_key_ok _ _ _ _ _ _ _ _ _ _ Hi Hin) as Hkok.
  assert (Hgrp : ∀ e', e' ∈ R → e' ∈ ge_entries g ↔ group_of e' = k).
  { intros e' He'. rewrite Hents, (elem_of_group prefix_ok addr_ok) by (done || by eapply group_ok, Hel). naive_solver. }
  assert (HeR : e ∈ R) by (rewrite Hents in He; by apply (elem_of_with_key group_of) in He as [_ ?]).
  pose proof (proj1 (Hgrp e HeR) He) as Hek. pose proof (Hel e HeR) as Heok.
  assert (Hlen : Z.to_nat (route_len e) = n).
  { rewrite <-(group_bits_length _ _ Heok), Hek, <-Hbits, length_take. lia. }
  assert (Hcov : covers a (route_of e)).
  { apply (covers_bits _ _ _ Heok Ha). fold ds. by rewrite Hlen, Hek, Hbits. }
  change (ro_route (e_value e)) with (route_of e) in *.
  split; [by apply list_elem_of_fmap_2|]. split; [done|].
  intros r (e' & -> & He')%list_elem_of_fmap Hc'. destruct (Hget e' He' Hc') as [Hl' Hne'].
  pose proof (Hel e' He') as Heok'. fold (route_len e) (route_len e').
  assert (0 <= route_len e).
  { destruct Heok as [Hk Hp _ _]. unfold route_len. rewrite <-Hk. by apply fam_len. }
  split.
  - destruct (decide (Z.to_nat (route_len e') <= n)%nat); [lia|]. destruct Hne'. apply Hmax. lia.
  - intros HT Hlen'. apply Hopt; [done|]. apply (Hgrp e' He'). rewrite <-Hek.
    by apply (covers_group _ _ e e' a Heok Heok').
Qed.
(** ** The routes of one source *)

(** A route that is longer, or as long and at least as preferred, takes over. *)
Lemma longest_route_cons cmp t a r0 r :
  longest_route cmp t a r0 → covers a r → prefix_len (rr_prefix r0) <= prefix_len (rr_prefix r) →
  (cmp = true → prefix_len (rr_prefix r0) = prefix_len (rr_prefix r) → memcmp (rank r) (rank r0) <= 0) →
  longest_route cmp (r :: t) a r.
Proof.
  intros (Hin & Hc0 & Hmax) Hc Hlen Hrank. split; [set_solver|]. split; [done|].
  assert (memcmp (rank r) (rank r) = 0) by by apply rank_eq.
  intros r' [->|Hin']%elem_of_cons Hc'; [split; [lia|]; intros; lia|].
  destruct (Hmax r' Hin' Hc') as [Hl Hr]. split; [lia|]. intros HT Heq.
  eapply rank_le_trans; [apply Hrank|apply Hr]; done || lia.
Qed.

Lemma longest_route_keep cmp t a r0 r :
  longest_route cmp t a r0 →
  (covers a r → prefix_len (rr_prefix r) <= prefix_len (rr_prefix r0) ∧
    (cmp = true → prefix_len (rr_prefix r) = prefix_len (rr_prefix r0) → memcmp (rank r0) (rank r) <= 0)) →
  longest_route cmp (r :: t) a r0.
Proof.
  intros (Hin & Hc0 & Hmax) Hr. split; [set_solver|]. split; [done|].
  intros r' [->|Hin']%elem_of_cons Hc'; auto.
Qed.

Lemma longest_route_first cmp t a r :
  (∀ r', r' ∈ t → ¬ covers a r') → covers a r → longest_route cmp (r :: t) a r.
Proof.
  intros Hnone Hc. split; [set_solver|]. split; [done|].
  assert (memcmp (rank r) (rank r) = 0) by by apply rank_eq.
  intros r' [->|Hin']%elem_of_cons Hc'; [split; [lia|]; intros; lia|by destruct (Hnone r')].
Qed.

#[export] Instance longest_route_proper cmp : Proper ((≡ₚ) ==> eq ==> eq ==> iff) (longest_route cmp).
Proof. intros t t' Ht a _ <- r _ <-. unfold longest_route. by setoid_rewrite Ht. Qed.

(** What the loop knows after the entries [P]. *)
Definition scoped_ok cmp P a (best : option (route_ptr * rib_neighbor_as_cache_t)) : Prop :=
  scan_ok best ∧
  match best with
  | Some (b, _) => longest_route cmp (route_of <$> P) a (ro_route b)
  | None => ∀ r, r ∈ route_of <$> P → ¬ covers a r
  end.

(** One equally long route. *)
Lemma scoped_consider cmp P a e b c :
  scoped_ok cmp P a (Some (b, c)) → covers a (route_of e) → route_len e = prefix_len (rr_prefix (ro_route b)) →
  (cmp = true → comparable (route_of e) (ro_route b)) →
  scoped_ok cmp (e :: P) a (consider (e_value e) (Some (b, c))).
Proof.
  intros [Hc Hl] Hcov Hlen Hcmp. destruct (consider_spec (e_value e) (Some (b, c)) Hc) as [Hc' He].
  split; [done|]. rewrite fmap_cons. cbn [fmap option_fmap option_map fst pick] in He.
  change (ro_route (e_value e)) with (route_of e) in He.
  assert (Hrank : cmp = true → rib_better (route_of e) (ro_route b) = (memcmp (rank (route_of e)) (rank (ro_route b)) <? 0)).
  { intros HT. by apply better_rank, Hcmp. }
  pose proof (rank_antisym (route_of e) (ro_route b)) as Hanti.
  destruct (consider _ _) as [[q cq]|]; [|by destruct (rib_better _ _)].
  destruct (rib_better (route_of e) (ro_route b)) eqn:Hbet; injection He as ->.
  - change (ro_route (e_value e)) with (route_of e). unfold route_len in Hlen.
    eapply longest_route_cons; [exact Hl|done|lia|]. intros HT _. specialize (Hrank HT). lia.
  - apply longest_route_keep; [done|]. intros _. unfold route_len in Hlen. split; [lia|]. intros HT _. specialize (Hrank HT). lia.
Qed.

Lemma scoped_loop cmp a b es : ∀ P best,
  addr_ok a → Forall (entry_ok b) (es ++ P) → cmp_ok cmp (es ++ P) → scoped_ok cmp P a best →
  match lookup_scoped_loop a es best with
  | Some p => longest_route cmp (route_of <$> es ++ P) a (ro_route p)
  | None => ∀ r, r ∈ route_of <$> es ++ P → ¬ covers a r
  end.
Proof.
  induction es as [|e es IH]; intros P best Ha Hok Hc Hbest; cbn [lookup_scoped_loop app].
  { destruct best as [[q c]|]; destruct Hbest as [_ Hbest]; exact Hbest. }
  assert (Hperm : e :: es ++ P ≡ₚ es ++ e :: P) by by rewrite Permutation_middle.
  cbn [app] in Hok, Hc. rewrite Hperm in Hok, Hc.
  assert (Hstep : ∀ best', scoped_ok cmp (e :: P) a best' →
    match lookup_scoped_loop a es best' with
    | Some p => longest_route cmp (route_of <$> e :: es ++ P) a (ro_route p)
    | None => ∀ r, r ∈ route_of <$> e :: es ++ P → ¬ covers a r
    end).
  { intros best' Hb'. specialize (IH (e :: P) best' Ha Hok Hc Hb').
    destruct (lookup_scoped_loop a es best'); [by rewrite Hperm|]. intros r. rewrite Hperm. apply IH. }
  fold (route_of e). destruct (rib_addr_matches (rr_prefix (route_of e)) a) eqn:Hm; cbn [negb].
  2:{ apply Hstep. assert (Hn : ¬ covers a (route_of e)) by (unfold covers; congruence).
      destruct best as [[q c]|]; destruct Hbest as [Hs Hbest]; (split; [done|]); rewrite fmap_cons.
      - apply longest_route_keep; naive_solver.
      - intros r [->|Hr]%elem_of_cons; auto. }
  apply Hstep. destruct best as [[q c]|].
  2:{ destruct Hbest as [_ Hbest]. split; [done|]. by apply longest_route_first. }
  pose proof Hbest as [Hs Hl]. fold (route_len e). set (best_len := prefix_len _).
  destruct (best_len <? route_len e) eqn:Hlt; [|destruct (route_len e =? best_len) eqn:Heq].
  - split; [done|]. unfold best_len, route_len in *. eapply longest_route_cons; [exact Hl|done|..].
    + change (ro_route (e_value e)) with (route_of e). lia.
    + change (ro_route (e_value e)) with (route_of e). intros _ ?. lia.
  - apply scoped_consider; [done|done|unfold best_len in *; lia|]. intros HT.
    destruct Hl as (Hin & Hcq & _). apply list_elem_of_fmap in Hin as (e' & Hq & He').
    rewrite Hq in *. apply Hc; [done|set_solver..|]. rewrite Forall_forall in Hok.
    eapply (covers_group b b); [apply Hok; set_solver..|done|done|done|].
    unfold best_len, route_len in *. rewrite ?Hq in Heq. lia.
  - split; [done|]. apply longest_route_keep; [done|]. intros _. unfold best_len, route_len in *. split; [lia|]. intros _ ?. lia.
Qed.

(** *** The two lookups *)

(** Both read the table and never fault. *)
Definition answers {A} (m : M A) (found : A -> Prop) (missing : Prop) : Prop :=
  ∀ s, match m s with
       | (Ret r, s') => s' = s ∧ found r
       | (Err e, s') => s' = s ∧ e = LIBBGP_ERR_NOT_FOUND ∧ missing
       | (Fault _, _) => False
       end.

Lemma lookup_answers cmp impl R a :
  rib_rep cmp impl R → addr_ok a →
  answers (libbgp_rib_lookup impl a) (longest_route cmp (route_of <$> R) a)
    (∀ r, r ∈ route_of <$> R → ¬ covers a r).
Proof.
  intros Hrep Ha s. pose proof (tree_lookup cmp impl R a Hrep Ha) as H. unfold libbgp_rib_lookup.
  destruct (radix_lookup_lpm _ _ _ _) as [best|]; [|done].
  pose proof H as (_ & Hc & _). unfold covers in Hc. by rewrite Hc.
Qed.

Lemma lookup_scoped_answers cmp impl R src a :
  rib_rep cmp impl R → addr_ok a →
  answers (libbgp_rib_lookup_scoped impl src a)
    (longest_route cmp (route_of <$> with_key src_of src R) a)
    (∀ r, r ∈ route_of <$> with_key src_of src R → ¬ covers a r).
Proof.
  intros Hrep Ha s. pose proof (rep_entries _ _ _ _ Hrep) as [Hf _]. pose proof Hrep as [(_ & Hs & _) Hc].
  destruct (find_run (λ _ : Z, True) (ri_sources impl) src I (ix_hm _ _ _ _ _ _ _ _ Hs)) as [found Hrun].
  destruct (runs_source_find false impl R src Hs s) as (r & s' & Hfind & Hr & _); [done|].
  unfold rib_source_index_find in Hfind. rewrite Hrun in Hfind. injection Hfind as -> ->.
  unfold libbgp_rib_lookup_scoped, rib_source_index_find, mbind, M_bind. rewrite Hrun.
  destruct r as [p|]; [|destruct Hr as [_ ->]; by split_and!; [..|set_solver]].
  destruct Hr as (o & _ & Ho & _ & _ & He). unfold deref. rewrite Ho. cbn [mret M_ret].
  assert (Hsub : ∀ e, e ∈ se_entries o → e ∈ R).
  { intros e He'. rewrite He in He'. by apply (elem_of_with_key src_of) in He' as [_ ?]. }
  pose proof (scoped_loop cmp a (ri_next_addr impl) (se_entries o) [] None Ha) as Hloop.
  rewrite app_nil_r in Hloop.
  assert (Hloop' := Hloop ltac:(apply Forall_forall; rewrite Forall_forall in Hf; auto)
    ltac:(intros HT ????; apply Hc; auto) ltac:(split; [done|set_solver])). clear Hloop.
  destruct (lookup_scoped_loop a (se_entries o) None); [split; [done|by rewrite <-He]|].
  split_and!; [done..|]. intros r. rewrite <-He. apply Hloop'.
Qed.
End RibLookup.
