(* ===== verification/RibFamilies.v ===== *)
(** * The two address families of the routing tables

    IPv4 (src/rib4.c) and IPv6 (src/rib6.c) prefixes obey what the table
    operations ask of a family, so every theorem about the tables holds of
    both. *)

From stdpp Require Import gmap.
From S2P Require Import Prelude Bytes Prefix4 Prefix6 Radix Hashmap Rib RibTable RibInv.

Section Families.
Context {host : Host}.

(** ** IPv4 *)

Lemma rib4_normalize_spec p : p4_wf p → rib4_lpm_normalize_prefix p = p4_normalize p.
Proof.
  intros [Ha Hn]. unfold rib4_lpm_normalize_prefix, p4_normalize. replace (32 <? p4_len p) with false by lia.
  unfold p4_net. by rewrite <-mem_land_mask, u32_of_mem_of_u32 by (done || by apply is_u32_land).
Qed.

Lemma p4_key_length p : 0 <= p4_len p → zlen (p4_key p) = p4_len p.
Proof. intros Hp. unfold p4_key, directions. rewrite length_fmap, length_seqZ. lia. Qed.

(** A normalised prefix is determined by its bits. *)
Lemma p4_key_inj p q :
  p4_wf p → p4_wf q → p4_key (p4_normalize p) = p4_key (p4_normalize q) → p4_normalize p = p4_normalize q.
Proof.
  intros [Hpa Hp] [Hqa Hq] Hkey. pose proof (p4_normalize_wf p Hp) as Hpw. pose proof (p4_normalize_wf q Hq) as Hqw.
  assert (Hlen : p4_len p = p4_len q).
  { change (p4_len (p4_normalize p) = p4_len (p4_normalize q)). rewrite <-!p4_key_length by (apply Hpw || apply Hqw).
    by rewrite Hkey. }
  assert (Hcov : p4_covers (p4_normalize p) (p4_addr (p4_normalize q))).
  { apply p4_key_covers; [done|]. rewrite Hkey. change (p4_len (p4_normalize p)) with (p4_len p). rewrite Hlen.
    by apply (p4_key_covers (p4_normalize q)). }
  apply p4_covers_keep in Hcov. change (p4_len (p4_normalize p)) with (p4_len p) in Hcov. rewrite Hlen in Hcov.
  change (p4_net (p4_normalize q) = p4_net (p4_normalize p)) in Hcov. rewrite !p4_normalize_net in Hcov.
  unfold p4_normalize. by rewrite Hcov, Hlen.
Qed.

#[export] Instance family4_laws : FamilyLaws (H := family4) p4_wf is_u32.
Proof.
  split; cbn [width prefix_len prefix_eq rib_lpm_normalize_prefix rib_addr_matches radix_bit family4
    Prefix Addr prefix_addr sizeof_prefix sizeof_route].
  - lia.
  - lia.
  - by intros p [_ ?].
  - intros p q _ _. unfold libbgp_prefix4_eq. destruct p, q. cbn. rewrite andb_true_iff, !Z.eqb_eq. naive_solver.
  - intros p Hp. rewrite rib4_normalize_spec by done. apply p4_normalize_wf, Hp.
  - intros p Hp. by rewrite rib4_normalize_spec.
  - intros p Hp. rewrite (rib4_normalize_spec p), rib4_normalize_spec by (done || apply p4_normalize_wf, Hp).
    apply p4_normalize_idemp.
  - intros p q Hp Hq. rewrite !rib4_normalize_spec by done. by apply p4_key_inj.
  - intros p a Hp Ha. rewrite rib4_normalize_spec by done. pose proof Hp as [Hpa Hn].
    change (prefix_bits (H := family4) (p4_normalize p)) with (p4_key (p4_normalize p)).
    change (p4_len p) with (p4_len (p4_normalize p)).
    rewrite <-p4_key_covers, p4_covers_keep, p4_normalize_net by by apply p4_normalize_wf.
    unfold rib4_addr_matches. replace (32 <? p4_len p) with false by lia. cbn [p4_len p4_normalize].
    by rewrite Z.eqb_eq, land_mask_eq.
Qed.

(** ** IPv6 *)

Lemma cidr6_to_mask_spec n : 0 <= n <= 128 → libbgp_cidr6_to_mask n = keep_bits n (replicate 16 255).
Proof.
  intros Hn.
  assert (Hall : forallb (λ k, bool_decide
    (libbgp_cidr6_to_mask (Z.of_nat k) = keep_bits (Z.of_nat k) (replicate 16 255))) (seq 0 129) = true) by by vm_compute.
  rewrite forallb_forall in Hall. specialize (Hall (Z.to_nat n)).
  rewrite in_seq, bool_decide_eq_true, Z2Nat.id in Hall by lia. apply Hall. lia.
Qed.

Lemma land_mask6 a n : length a = 16%nat → bytes_ok a → 0 <= n <= 128 →
  zip_with Z.land a (libbgp_cidr6_to_mask n) = keep_bits n a.
Proof. intros Hl Ha Hn. by rewrite cidr6_to_mask_spec, <-Hl, zip_with_land_keep_bits. Qed.

Lemma rib6_normalize_spec p : p6_wf p → rib6_lpm_normalize_prefix p = p6_normalize p.
Proof.
  intros (Hl & Ha & Hn). unfold rib6_lpm_normalize_prefix. replace (128 <? p6_len p) with false by lia.
  by rewrite land_mask6.
Qed.

Lemma matches_zip (a d m : list Z) :
  length a = length m → length d = length m →
  forallb (λ '(x, y, z), Z.land x z =? Z.land y z) (zip (zip a d) m) = true ↔
  zip_with Z.land a m = zip_with Z.land d m.
Proof.
  revert a d. induction m as [|z m IH]; intros [|x a] [|y d] Ha Hd; try done; cbn in *.
  rewrite andb_true_iff, Z.eqb_eq, IH by lia. split; [by intros [-> ->]|by intros [= H1 H2]].
Qed.

Lemma p6_key_length p : 0 <= p6_len p → zlen (p6_key p) = p6_len p.
Proof. intros Hp. unfold p6_key, directions. rewrite length_fmap, length_seqZ. lia. Qed.

Lemma p6_normalize_net p : p6_wf p → p6_net (p6_normalize p) = p6_net p.
Proof. intros (_ & Ha & _). by apply keep_bits_idemp. Qed.

Lemma p6_key_inj p q :
  p6_wf p → p6_wf q → p6_key (p6_normalize p) = p6_key (p6_normalize q) → p6_normalize p = p6_normalize q.
Proof.
  intros Hp Hq Hkey. pose proof (p6_normalize_wf p Hp) as Hpw. pose proof (p6_normalize_wf q Hq) as Hqw.
  assert (Hlen : p6_len p = p6_len q).
  { change (p6_len (p6_normalize p) = p6_len (p6_normalize q)). rewrite <-!p6_key_length by (apply Hpw || apply Hqw).
    by rewrite Hkey. }
  assert (Hcov : p6_covers (p6_normalize p) (p6_addr (p6_normalize q))).
  { apply p6_key_covers; [done|apply Hqw|]. rewrite Hkey. change (p6_len (p6_normalize p)) with (p6_len p). rewrite Hlen.
    by apply (p6_key_covers (p6_normalize q)); [|apply Hqw|]. }
  apply p6_covers_keep in Hcov; [|done|apply Hqw..]. change (p6_len (p6_normalize p)) with (p6_len p) in Hcov. rewrite Hlen in Hcov.
  change (p6_net (p6_normalize q) = p6_net (p6_normalize p)) in Hcov. rewrite !p6_normalize_net in Hcov by done.
  unfold p6_normalize. by rewrite Hcov, Hlen.
Qed.

Definition addr6_ok (a : list Z) : Prop := length a = 16%nat ∧ bytes_ok a.

#[export] Instance family6_laws : FamilyLaws (H := family6) p6_wf addr6_ok.
Proof.
  split; cbn [width prefix_len prefix_eq rib_lpm_normalize_prefix rib_addr_matches radix_bit family6
    Prefix Addr prefix_addr sizeof_prefix sizeof_route].
  - lia.
  - lia.
  - by intros p (_ & _ & ?).
  - intros p q (Hp & _) (Hq & _). unfold libbgp_prefix6_eq. destruct p, q. cbn in *.
    rewrite andb_true_iff, !Z.eqb_eq, memcmp_eq by congruence. naive_solver.
  - intros p Hp. rewrite rib6_normalize_spec by done. by apply p6_normalize_wf.
  - intros p Hp. by rewrite rib6_normalize_spec.
  - intros p Hp. rewrite (rib6_normalize_spec p), rib6_normalize_spec by (done || by apply p6_normalize_wf).
    by apply p6_normalize_idemp.
  - intros p q Hp Hq. rewrite !rib6_normalize_spec by done. by apply p6_key_inj.
  - intros p a Hp (Hl & Ha). rewrite rib6_normalize_spec by done. pose proof Hp as (Hpl & Hpa & Hn).
    change (prefix_bits (H := family6) (p6_normalize p)) with (p6_key (p6_normalize p)).
    change (p6_len p) with (p6_len (p6_normalize p)).
    rewrite <-p6_key_covers, p6_covers_keep, p6_normalize_net by (done || by apply p6_normalize_wf).
    unfold rib6_addr_matches. replace (128 <? p6_len p) with false by lia. cbn [p6_len p6_normalize].
    assert (Hm : length (libbgp_cidr6_to_mask (p6_len p)) = 16%nat).
    { by rewrite cidr6_to_mask_spec, keep_bits_length. }
    rewrite matches_zip, !land_mask6 by (done || congruence). unfold p6_net. naive_solver.
Qed.
End Families.
