(* ===== verification/Rib46.v ===== *)
(** * The IPv4 and the IPv6 routing table (src/rib4.c, src/rib6.c)

    The operations of [RibTable] at the two address families, under the names
    of the two files, and the insertion of local routes, which differs. *)

From stdpp Require Import gmap.
From S2P Require Import Prelude Bytes Prefix4 Prefix6 Radix Pattr As4 Hashmap Rib RibTable.

Section Rib46.
Context {host : Host}.

Definition libbgp_rib4_route_t : Type := libbgp_rib_route_t (family := family4).
Definition libbgp_rib6_route_t : Type := libbgp_rib_route_t (family := family6).
Definition rib4_impl_t : Type := rib_impl_t (family := family4).
Definition rib6_impl_t : Type := rib_impl_t (family := family6).

(** ** The IPv4 table *)

Definition rib4_next_update_id := rib_next_update_id (family := family4).
Definition rib4_source_index_find := rib_source_index_find (family := family4).
Definition rib4_source_index_add := rib_source_index_add (family := family4).
Definition rib4_source_index_remove := rib_source_index_remove (family := family4).
Definition rib4_route_clone := rib_route_clone (family := family4).
Definition rib4_neighbor_as := rib_neighbor_as (family := family4).
Definition rib4_neighbor_as_cached := rib_neighbor_as_cached (family := family4).
Definition rib4_better_cached := rib_better_cached (family := family4).
Definition rib4_route_entry_unlink_locked := rib_route_entry_unlink_locked (family := family4).
Definition rib4_entry_find_value_locked := rib_entry_find_value_locked (family := family4).
Definition rib4_remove_source_locked := rib_remove_source_locked (family := family4).
Definition rib4_withdraw_locked := rib_withdraw_locked (family := family4).
Definition rib4_detach_locked := rib_detach_locked (family := family4).
Definition rib4_detach_value_locked := rib_detach_value_locked (family := family4).
Definition rib4_attach_detached_locked := rib_attach_detached_locked (family := family4).
Definition rib4_find_locked := rib_find_locked (family := family4).
Definition rib4_best_exact_locked := rib_best_exact_locked (family := family4).
Definition rib4_lpm_group_find_locked := rib_lpm_group_find_locked (family := family4).
Definition rib4_lpm_group_best_locked := rib_lpm_group_best_locked (family := family4).
Definition rib4_lpm_group_remove_locked := rib_lpm_group_remove_locked (family := family4).
Definition rib4_lpm_index_remove_locked := rib_lpm_index_remove_locked (family := family4).
Definition rib4_lpm_index_add_locked := rib_lpm_index_add_locked (family := family4).
Definition rib4_prefix_array_push := rib_prefix_array_push (family := family4).
Definition rib4_result_add_replacement := rib_result_add_replacement (family := family4).
Definition bgp_rib4_route_snapshot_clone := bgp_rib_route_snapshot_clone (family := family4).
Definition libbgp_rib4_init := libbgp_rib_init (family := family4).
Definition libbgp_rib4_destroy := libbgp_rib_destroy (family := family4).
Definition rib4_insert_save_replaced_locked := rib_insert_save_replaced_locked (family := family4).
Definition libbgp_rib4_insert := libbgp_rib_insert (family := family4).
Definition bgp_rib4_insert_save_replaced := bgp_rib_insert_save_replaced (family := family4).
Definition bgp_rib4_insert_track_best_save_replaced := bgp_rib_insert_track_best_save_replaced (family := family4).
Definition bgp_rib4_insert_track_best := bgp_rib_insert_track_best (family := family4).
Definition bgp_rib4_withdraw_track_best := bgp_rib_withdraw_track_best (family := family4).
Definition bgp_rib4_withdraw_track_best_save := bgp_rib_withdraw_track_best_save (family := family4).
Definition libbgp_rib4_withdraw := libbgp_rib_withdraw (family := family4).
Definition libbgp_rib4_discard := libbgp_rib_discard (family := family4).
Definition libbgp_rib4_lookup := libbgp_rib_lookup (family := family4).
Definition libbgp_rib4_lookup_scoped := libbgp_rib_lookup_scoped (family := family4).
Definition libbgp_rib4_route_count := libbgp_rib_route_count (family := family4).
Definition bgp_rib4_best_exact_clone := bgp_rib_best_exact_clone (family := family4).
Definition bgp_rib4_discard_collect := bgp_rib_discard_collect (family := family4).
Definition bgp_rib4_saved_route_update_id := bgp_rib_saved_route_update_id (family := family4).
Definition bgp_rib4_exact_update_id := bgp_rib_exact_update_id (family := family4).
Definition bgp_rib4_withdraw_exact_if_update_id := bgp_rib_withdraw_exact_if_update_id (family := family4).
Definition bgp_rib4_withdraw_exact_save := bgp_rib_withdraw_exact_save (family := family4).
Definition bgp_rib4_restore_saved_if_absent := bgp_rib_restore_saved_if_absent (family := family4).

(** ** The IPv6 table *)

Definition rib6_next_update_id := rib_next_update_id (family := family6).
Definition rib6_source_index_find := rib_source_index_find (family := family6).
Definition rib6_source_index_add := rib_source_index_add (family := family6).
Definition rib6_source_index_remove := rib_source_index_remove (family := family6).
Definition rib6_route_clone := rib_route_clone (family := family6).
Definition rib6_neighbor_as := rib_neighbor_as (family := family6).
Definition rib6_neighbor_as_cached := rib_neighbor_as_cached (family := family6).
Definition rib6_better_cached := rib_better_cached (family := family6).
Definition rib6_route_entry_unlink_locked := rib_route_entry_unlink_locked (family := family6).
Definition rib6_entry_find_value_locked := rib_entry_find_value_locked (family := family6).
Definition rib6_remove_source_locked := rib_remove_source_locked (family := family6).
Definition rib6_withdraw_locked := rib_withdraw_locked (family := family6).
Definition rib6_detach_locked := rib_detach_locked (family := family6).
Definition rib6_detach_value_locked := rib_detach_value_locked (family := family6).
Definition rib6_attach_detached_locked := rib_attach_detached_locked (family := family6).
Definition rib6_find_locked := rib_find_locked (family := family6).
Definition rib6_best_exact_locked := rib_best_exact_locked (family := family6).
Definition rib6_lpm_group_find_locked := rib_lpm_group_find_locked (family := family6).
Definition rib6_lpm_group_best_locked := rib_lpm_group_best_locked (family := family6).
Definition rib6_lpm_group_remove_locked := rib_lpm_group_remove_locked (family := family6).
Definition rib6_lpm_index_remove_locked := rib_lpm_index_remove_locked (family := family6).
Definition rib6_lpm_index_add_locked := rib_lpm_index_add_locked (family := family6).
Definition rib6_prefix_array_push := rib_prefix_array_push (family := family6).
Definition rib6_result_add_replacement := rib_result_add_replacement (family := family6).
Definition bgp_rib6_route_snapshot_clone := bgp_rib_route_snapshot_clone (family := family6).
Definition libbgp_rib6_init := libbgp_rib_init (family := family6).
Definition libbgp_rib6_destroy := libbgp_rib_destroy (family := family6).
Definition rib6_insert_save_replaced_locked := rib_insert_save_replaced_locked (family := family6).
Definition libbgp_rib6_insert := libbgp_rib_insert (family := family6).
Definition bgp_rib6_insert_save_replaced := bgp_rib_insert_save_replaced (family := family6).
Definition bgp_rib6_insert_track_best_save_replaced := bgp_rib_insert_track_best_save_replaced (family := family6).
Definition bgp_rib6_insert_track_best := bgp_rib_insert_track_best (family := family6).
Definition bgp_rib6_withdraw_track_best := bgp_rib_withdraw_track_best (family := family6).
Definition bgp_rib6_withdraw_track_best_save := bgp_rib_withdraw_track_best_save (family := family6).
Definition libbgp_rib6_withdraw := libbgp_rib_withdraw (family := family6).
Definition libbgp_rib6_discard := libbgp_rib_discard (family := family6).
Definition libbgp_rib6_lookup := libbgp_rib_lookup (family := family6).
Definition libbgp_rib6_lookup_scoped := libbgp_rib_lookup_scoped (family := family6).
Definition libbgp_rib6_route_count := libbgp_rib_route_count (family := family6).
Definition bgp_rib6_best_exact_clone := bgp_rib_best_exact_clone (family := family6).
Definition bgp_rib6_discard_collect := bgp_rib_discard_collect (family := family6).
Definition bgp_rib6_saved_route_update_id := bgp_rib_saved_route_update_id (family := family6).
Definition bgp_rib6_exact_update_id := bgp_rib_exact_update_id (family := family6).
Definition bgp_rib6_withdraw_exact_if_update_id := bgp_rib_withdraw_exact_if_update_id (family := family6).
Definition bgp_rib6_withdraw_exact_save := bgp_rib_withdraw_exact_save (family := family6).
Definition bgp_rib6_restore_saved_if_absent := bgp_rib_restore_saved_if_absent (family := family6).

(** ** Iteration *)

Section Foreach46.
Context {Ctx : Type}.

Definition bgp_rib4_foreach_route := bgp_rib_foreach_route (family := family4) (Ctx := Ctx).
Definition bgp_rib4_foreach_best_route := bgp_rib_foreach_best_route (family := family4) (Ctx := Ctx).
Definition bgp_rib6_foreach_route := bgp_rib_foreach_route (family := family6) (Ctx := Ctx).
Definition bgp_rib6_foreach_best_route := bgp_rib_foreach_best_route (family := family6) (Ctx := Ctx).
End Foreach46.

(** ** Local routes *)

(** [libbgp_pattr_new] three times, or twice: every call is made, and any null
    pointer is [LIBBGP_ERR_NOMEM]. *)
Definition libbgp_rib4_insert_local (rib : rib4_impl_t) (prefix : libbgp_prefix4_t)
    (next_hop weight : Z) : M (rib4_impl_t * libbgp_err_t) :=
  a0 ← try_call (libbgp_pattr_new LIBBGP_PATTR_ORIGIN);
  a1 ← try_call (libbgp_pattr_new LIBBGP_PATTR_AS_PATH);
  a2 ← try_call (libbgp_pattr_new LIBBGP_PATTR_NEXT_HOP);
  match a0, a1, a2 with
  | inl a0, inl a1, inl a2 =>
      let attrs := [Pattr (pa_flags a0) (pa_type_code a0) (d_origin 0);
                    Pattr (pa_flags a1) (pa_type_code a1) (d_as_path [] true);
                    Pattr (pa_flags a2) (pa_type_code a2) (d_next_hop next_hop)] in
      libbgp_rib4_insert rib
        (RibRoute (family := family4) prefix 0 next_hop weight false 100 0 0 0 0 0 attrs)
  | _, _, _ => mret (rib, LIBBGP_ERR_NOMEM)
  end.

(** The link-local next hop stays zero. *)
Definition libbgp_rib6_insert_local (rib : rib6_impl_t) (prefix : libbgp_prefix6_t)
    (next_hop : list Z) (weight : Z) : M (rib6_impl_t * libbgp_err_t) :=
  a0 ← try_call (libbgp_pattr_new LIBBGP_PATTR_ORIGIN);
  a1 ← try_call (libbgp_pattr_new LIBBGP_PATTR_AS_PATH);
  match a0, a1 with
  | inl a0, inl a1 =>
      let attrs := [Pattr (pa_flags a0) (pa_type_code a0) (d_origin 0);
                    Pattr (pa_flags a1) (pa_type_code a1) (d_as_path [] true)] in
      libbgp_rib6_insert rib
        (RibRoute (family := family6) prefix 0 (next_hop, replicate 16 0) weight false 100 0 0 0 0 0 attrs)
  | _, _ => mret (rib, LIBBGP_ERR_NOMEM)
  end.
End Rib46.
