(* ===== verification/RibRefine.v ===== *)
(** * Routing tables: refinement to a list of routes

    The abstract table is a list of routes up to permutation with at most one
    route for each prefix and source; [table_step] is what an operation may do
    to it and answer.  The concrete operations are simulated by it. *)

From stdpp Require Import gmap.
From S2P Require Import Prelude Bytes Radix Pattr As4 Hashmap HashmapSpec Rib RibTable RibDecision RibIndex RibInv RibRoutes RibSpec RibLookup.

(** ** The abstract table *)

Section Abstract.
Context `{family : Family} {host : Host}.
Implicit Types (t : list libbgp_rib_route_t) (r route new old : libbgp_rib_route_t) (k : Prefix) (src : Z) (a : Addr).

Definition slot r : Prefix * Z := (rr_prefix r, rr_source_router_id r).

(** What is stored of a route: a missing LOCAL_PREF is 100, a missing update id
    is a new one. *)
Definition stored_as route new : Prop :=
  new = with_defaults route (pref_of route) (rr_update_id new) ∧ rr_update_id new ≠ 0 ∧
  (rr_update_id route ≠ 0 → rr_update_id new = rr_update_id route).

(** A successful insertion: the new route takes the place of the route from the
    same source for the same prefix, if there is one. *)
Definition insert_effect t route t' : Prop :=
  ∃ new, stored_as route new ∧
    ((∀ r, r ∈ t → slot r ≠ slot route) ∧ t' ≡ₚ new :: t ∨
     ∃ old t0, slot old = slot route ∧ t ≡ₚ old :: t0 ∧ t' ≡ₚ new :: t0).

Inductive rib_op : Type :=
  | RibInsert (route : libbgp_rib_route_t)
  | RibWithdraw (src : Z) (k : Prefix)
  | RibDiscard (src : Z)
  | RibCount
  | RibLookup (a : Addr)
  | RibLookupScoped (src : Z) (a : Addr).

Inductive rib_answer : Type :=
  | RErr (e : libbgp_err_t)
  | RCount (n : Z)
  | RRoute (r : option libbgp_rib_route_t).

Definition from src r : Prop := rr_source_router_id r = src.
#[export] Instance from_dec src r : Decision (from src r) := decide (rr_source_router_id r = src).

Inductive table_step (cmp : bool) t : rib_op -> rib_answer -> list libbgp_rib_route_t -> Prop :=
  | step_insert_route route t' :
      insert_effect t route t' →
      (rr_source_router_id route = 0 → ∀ r, r ∈ t → slot r ≠ slot route) →
      table_step cmp t (RibInsert route) (RErr LIBBGP_OK) t'
  | step_insert_exists route old :
      rr_source_router_id route = 0 → old ∈ t → slot old = slot route →
      table_step cmp t (RibInsert route) (RErr LIBBGP_ERR_EXISTS) t
  | step_insert_route_nomem route t' :
      t' ≡ₚ t → table_step cmp t (RibInsert route) (RErr LIBBGP_ERR_NOMEM) t'
  | step_withdraw src k old t' :
      slot old = (k, src) → t ≡ₚ old :: t' →
      table_step cmp t (RibWithdraw src k) (RErr LIBBGP_OK) t'
  | step_withdraw_missing src k :
      (∀ r, r ∈ t → slot r ≠ (k, src)) →
      table_step cmp t (RibWithdraw src k) (RErr LIBBGP_ERR_NOT_FOUND) t
  | step_discard src t' :
      t' ≡ₚ filter (λ r, ¬ from src r) t → table_step cmp t (RibDiscard src) (RErr LIBBGP_OK) t'
  | step_route_count : table_step cmp t RibCount (RCount (zlen t)) t
  | step_lookup a r :
      longest_route cmp t a r → table_step cmp t (RibLookup a) (RRoute (Some r)) t
  | step_lookup_missing a :
      (∀ r, r ∈ t → ¬ covers a r) → table_step cmp t (RibLookup a) (RRoute None) t
  | step_scoped src a r :
      longest_route cmp (filter (from src) t) a r →
      table_step cmp t (RibLookupScoped src a) (RRoute (Some r)) t
  | step_scoped_missing src a :
      (∀ r, r ∈ t → from src r → ¬ covers a r) →
      table_step cmp t (RibLookupScoped src a) (RRoute None) t.

(** One call on the table. *)
Definition lookup_answer (m : M libbgp_rib_route_t) : M rib_answer :=
  r ← try_call m;
  match r with
  | inl route => mret (RRoute (Some route))
  | inr e => if decide (e = LIBBGP_ERR_NOT_FOUND) then mret (RRoute None) else mret (RErr e)
  end.

Definition rib_run (impl : rib_impl_t) (op : rib_op) : M (rib_impl_t * rib_answer) :=
  match op with
  | RibInsert route => '(impl, e) ← libbgp_rib_insert impl route; mret (impl, RErr e)
  | RibWithdraw src k => '(impl, e) ← libbgp_rib_withdraw impl src k; mret (impl, RErr e)
  | RibDiscard src => impl ← libbgp_rib_discard impl src; mret (impl, RErr LIBBGP_OK)
  | RibCount => mret (impl, RCount (libbgp_rib_route_count impl))
  | RibLookup a => r ← lookup_answer (libbgp_rib_lookup impl a); mret (impl, r)
  | RibLookupScoped src a => r ← lookup_answer (libbgp_rib_lookup_scoped impl src a); mret (impl, r)
  end.

(** A route id is a [uint32_t]; a pointer array holds the attributes. *)
Definition route_wf r : Prop := is_u32 (rr_source_router_id r) ∧ zlen (rr_attrs r) < 2 ^ 60.

(** One route for a slot. *)
Definition table_wf t : Prop := NoDup (slot <$> t) ∧ Forall route_wf t.

#[export] Instance table_wf_proper : Proper ((≡ₚ) ==> iff) table_wf.
Proof. intros t t' Ht. unfold table_wf. by rewrite Ht. Qed.

Lemma table_wf_sublist t t' : t' `sublist_of` t → table_wf t → table_wf t'.
Proof.
  intros Hs [Hn Hf]. split.
  - eapply sublist_NoDup; [exact Hn|]. by apply fmap_sublist.
  - rewrite Forall_forall in Hf |- *. intros r Hr. apply Hf. by eapply elem_of_sublist.
Qed.

Lemma table_wf_cons r t :
  table_wf (r :: t) ↔ (∀ r', r' ∈ t → slot r' ≠ slot r) ∧ route_wf r ∧ table_wf t.
Proof.
  unfold table_wf. rewrite fmap_cons, NoDup_cons, Forall_cons. split.
  - intros [[Hn ?] [? ?]]. split_and!; try done. intros r' Hr' Heq. apply Hn. rewrite <-Heq. by apply list_elem_of_fmap_2.
  - intros (Hn & ? & ? & ?). split_and!; try done. intros (r' & Heq & Hr')%list_elem_of_fmap. by apply (Hn r').
Qed.

(** A table that holds the routes [t]. *)
Definition rib_ok (prefix_ok : Prefix -> Prop) (cmp : bool) (impl : rib_impl_t) t : Prop :=
  table_wf t ∧ ∃ R, rib_rep prefix_ok cmp impl R ∧ route_of <$> R ≡ₚ t.

(** What the caller has to respect.  [cmp] is a promise about the MEDs of the
    routes of one prefix; without it the order of preference is not an order. *)
Definition rib_op_ok (prefix_ok : Prefix -> Prop) (addr_ok : Addr -> Prop) (cmp : bool) t (op : rib_op) : Prop :=
  match op with
  | RibInsert route =>
      prefix_ok (rr_prefix route) ∧ route_wf route ∧ zlen t < 2 ^ 40 ∧
      (cmp = true → ∀ r, r ∈ t →
         rib_lpm_normalize_prefix (rr_prefix r) = rib_lpm_normalize_prefix (rr_prefix route) →
         comparable route r)
  | RibWithdraw _ k => prefix_ok k
  | RibLookup a | RibLookupScoped _ a => addr_ok a
  | RibDiscard _ | RibCount => True
  end.
End Abstract.

(** ** The simulation *)

Section Refine.
Context `{family : Family} {host : Host}.
Context (prefix_ok : Prefix -> Prop) (addr_ok : Addr -> Prop) `{!FamilyLaws prefix_ok addr_ok}.
Implicit Types (e : entry_ptr) (R : list entry_ptr) (impl : rib_impl_t) (cmp T : bool).
Implicit Types (t : list libbgp_rib_route_t) (r route : libbgp_rib_route_t) (op : rib_op).

Abbreviation rib_rep := (rib_rep prefix_ok).
Abbreviation rib_ok := (rib_ok prefix_ok).

(** The keys of the entries are the slots of the routes. *)
Lemma entry_slot b e : entry_ok prefix_ok b e → slot (route_of e) = (e_key e, src_of e).
Proof. intros [-> _ _ _]. done. Qed.

Lemma rep_slot cmp impl R e : rib_rep cmp impl R → e ∈ R → slot (route_of e) = (e_key e, src_of e).
Proof. intros Hrep He. eapply entry_slot, entries_ok_elem; [by eapply rep_entries|done]. Qed.

Lemma rep_elem R t r : route_of <$> R ≡ₚ t → r ∈ t ↔ ∃ e, r = route_of e ∧ e ∈ R.
Proof. intros <-. apply list_elem_of_fmap. Qed.

Lemma stored_as_route impl route : stored_as route (stored_route impl route).
Proof.
  split; [done|]. unfold stored_route, stored_id. cbn [with_defaults rr_update_id].
  destruct (rr_update_id route =? 0) eqn:H0; [|split; lia]. split; [|lia].
  unfold rib_next_update_id. cbn [fst]. destruct (u64 _ =? 0) eqn:Hz; [|lia].
  apply Z.eqb_eq in Hz. rewrite Hz. done.
Qed.

(** What an operation is proved to do. *)
Definition refined T cmp t op (r : rib_impl_t * rib_answer) : Prop :=
  ∃ t', rib_ok cmp r.1 t' ∧ table_step cmp t op r.2 t' ∧ (r.2 = RErr LIBBGP_ERR_NOMEM → T = false).

(** An insertion that succeeded, seen on the routes. *)
Lemma inserted_effect cmp impl impl' R t route new (replaced : option entry_ptr) :
  rib_rep cmp impl R → table_wf t → route_of <$> R ≡ₚ t → route_wf route →
  route_of new = stored_route impl route →
  match replaced with
  | None => (∀ e, e ∈ R → ¬ (e_key e = rr_prefix route ∧ src_of e = rr_source_router_id route)) ∧
            rib_rep cmp impl' (new :: R)
  | Some old => (e_key old = rr_prefix route ∧ src_of old = rr_source_router_id route) ∧
                ∃ R', R ≡ₚ old :: R' ∧ rib_rep cmp impl' (new :: R')
  end →
  ∃ R', rib_rep cmp impl' (new :: R') ∧ (∀ e, e ∈ R' → e ∈ R) ∧
    rib_ok cmp impl' (route_of <$> new :: R') ∧ insert_effect t route (route_of <$> new :: R').
Proof.
  intros Hrep Hnd HR Hattrs Hnew Hrest. pose proof (stored_as_route impl route) as Hst. rewrite <-Hnew in Hst.
  assert (Hslot : ∀ e, e ∈ R → slot (route_of e) = slot route ↔
    e_key e = rr_prefix route ∧ src_of e = rr_source_router_id route).
  { intros e He. rewrite (rep_slot _ _ _ _ Hrep He). unfold slot. split; [by intros [=]|by intros [-> ->]]. }
  assert (Hsn : slot (route_of new) = slot route) by by rewrite Hnew.
  assert (Han : route_wf (route_of new)) by by rewrite Hnew.
  destruct replaced as [old|].
  - destruct Hrest as (Hs & R' & HR' & Hrep'). assert (Hold : old ∈ R) by (rewrite HR'; set_solver).
    assert (Ht : t ≡ₚ route_of old :: (route_of <$> R')) by (by rewrite <-HR, HR').
    pose proof (proj2 (Hslot old Hold) Hs) as Hso. exists R'. split_and!; [done| | |].
    + intros e He. rewrite HR'. set_solver.
    + split; [|by eauto]. rewrite Ht in Hnd. rewrite fmap_cons. rewrite table_wf_cons in Hnd |- *.
      rewrite Hsn. rewrite Hso in Hnd. by destruct Hnd as (? & _ & ?).
    + exists (route_of new). split; [done|]. right. by exists (route_of old), (route_of <$> R').
  - destruct Hrest as [Hno Hrep'].
    assert (Hfree : ∀ r, r ∈ t → slot r ≠ slot route).
    { intros r (e & -> & He)%(rep_elem _ _ _ HR) Hs. by apply (Hno e He), Hslot. }
    exists R. split_and!; [done|done| |].
    + split; [|by eauto]. rewrite fmap_cons, table_wf_cons, Hsn. split_and!; [|done|by rewrite HR]. intros r. rewrite HR. apply Hfree.
    + exists (route_of new). split; [done|]. left. split; [done|]. cbn. by rewrite HR.
Qed.

Lemma refine_insert T cmp impl t route :
  rib_ok cmp impl t → rib_op_ok prefix_ok addr_ok cmp t (RibInsert route) →
  runs T (rib_run impl (RibInsert route)) (refined T cmp t (RibInsert route)).
Proof.
  intros (Hnd & R & Hrep & HR) (Hk & Hattrs & Hlen & Hcmp). pose proof Hattrs as [_ Hat]. cbn [rib_run]. unfold libbgp_rib_insert.
  assert (Hzlen : zlen R < 2 ^ 40) by (rewrite <-HR, length_fmap in Hlen; lia).
  apply runs_bind, runs_bind. eapply runs_mono; [apply (runs_insert_route prefix_ok addr_ok T cmp impl R route true)|]; try done.
  { intros HT e He Hg. apply Hcmp; [done| |done]. rewrite <-HR. by apply list_elem_of_fmap_2. }
  intros [impl' res] Hins. apply runs_ret, runs_ret. cbn [fst snd].
  destruct Hins as [(Heq & _ & H0 & e & He & Hs)|[(Hres & Hrep' & HT & _)|(new & Hnew & _ & He & _ & Hrest)]].
  - injection Heq as -> ->. exists t. split; [by split; eauto|]. split; [|done].
    apply (step_insert_exists _ _ _ (route_of e)); [done|by apply (rep_elem _ _ _ HR); eauto|].
    rewrite (rep_slot _ _ _ _ Hrep He). unfold slot. by destruct Hs as [-> ->].
  - cbn in Hres. subst res. exists t. split; [by split; eauto|]. split; [by apply step_insert_route_nomem|done].
  - cbn [fst snd] in *. rewrite He.
    destruct (inserted_effect cmp impl impl' R t route new (ir_replaced res) Hrep Hnd HR Hattrs Hnew) as (R' & _ & _ & Hok & Heff).
    { destruct (ir_replaced res); naive_solver. }
    exists (route_of <$> new :: R'). split; [done|]. split; [|done]. apply step_insert_route; [done|].
    intros H0 r (e & -> & He')%(rep_elem _ _ _ HR). rewrite (rep_slot _ _ _ _ Hrep He').
    destruct (ir_replaced res) as [old|]; [by destruct Hrest as (_ & Hsrc & _), (Hsrc eq_refl)|].
    destruct Hrest as [Hno _]. intros [=]. by apply (Hno e He').
Qed.

Lemma refine_withdraw T cmp impl t src k :
  rib_ok cmp impl t → prefix_ok k →
  runs T (rib_run impl (RibWithdraw src k)) (refined T cmp t (RibWithdraw src k)).
Proof.
  intros (Hnd & R & Hrep & HR) Hk. cbn [rib_run]. unfold libbgp_rib_withdraw. apply runs_bind.
  eapply runs_mono; [by apply (runs_withdraw prefix_ok addr_ok T cmp impl R src k)|].
  intros [impl' e]. cbn [fst snd].
  intros (_ & [(-> & e0 & R' & Hke & Hsrc & HR' & Hrep')|(Heq & Hno)]); apply runs_ret; cbn [fst snd].
  - assert (He : e0 ∈ R) by (rewrite HR'; set_solver).
    assert (Ht : t ≡ₚ route_of e0 :: (route_of <$> R')) by (by rewrite <-HR, HR').
    exists (route_of <$> R'). split_and!; [|eapply (step_withdraw _ _ _ _ (route_of e0)); [|done]|done].
    + split; [|by exists R']. rewrite Ht, table_wf_cons in Hnd. by destruct Hnd as (_ & _ & ?).
    + rewrite (rep_slot _ _ _ _ Hrep He). congruence.
  - injection Heq as -> ->. exists t. split_and!; [by split; eauto|apply step_withdraw_missing|done].
    intros r (e0 & -> & He)%(rep_elem _ _ _ HR). rewrite (rep_slot _ _ _ _ Hrep He). intros [=]. by apply (Hno e0 He).
Qed.

Lemma filter_from src R :
  filter (from src) (route_of <$> R) = route_of <$> with_key src_of src R ∧
  filter (λ r, ¬ from src r) (route_of <$> R) = route_of <$> without_key src_of src R.
Proof.
  induction R as [|e R [IH1 IH2]]; [done|]. unfold with_key, without_key in *. cbn [fmap list_fmap] in *.
  rewrite !filter_cons, IH1, IH2.
  assert (Hk : key_eq (src_of e) src = true ↔ from src (route_of e)) by apply Z.eqb_eq.
  destruct (decide (from src (route_of e))) as [Hf|Hf].
  - rewrite (decide_True _ _ (proj2 Hk Hf)), (decide_False _ _ (P := ¬ from src (route_of e))) by tauto.
    by rewrite decide_False by tauto.
  - rewrite (decide_False _ _ (P := key_eq (src_of e) src = true)) by tauto.
    by rewrite !decide_True by tauto.
Qed.

Lemma refine_discard T cmp impl t src :
  rib_ok cmp impl t → runs T (rib_run impl (RibDiscard src)) (refined T cmp t (RibDiscard src)).
Proof.
  intros (Hnd & R & Hrep & HR). cbn [rib_run]. unfold libbgp_rib_discard. apply runs_bind, runs_bind.
  eapply runs_mono; [by apply (runs_remove_source prefix_ok addr_ok T cmp impl R src)|].
  intros [impl' n]. cbn [fst snd]. intros (_ & Hrep' & _). apply runs_ret, runs_ret. cbn [fst snd].
  destruct (filter_from src R) as [_ Hf].
  exists (route_of <$> without_key src_of src R). split_and!; [split; [|by eauto]|apply step_discard|done].
  - rewrite <-HR in Hnd. rewrite <-Hf. eapply table_wf_sublist; [apply sublist_filter|done].
  - by rewrite <-HR, Hf.
Qed.

Lemma runs_answer T (m : M libbgp_rib_route_t) (found : libbgp_rib_route_t -> Prop) (missing : Prop) :
  answers m found missing →
  runs T (lookup_answer m) (λ ans,
    (∃ r, ans = RRoute (Some r) ∧ found r) ∨ ans = RRoute None ∧ missing).
Proof.
  intros Hm s Hs. unfold lookup_answer, try_call, mbind, M_bind. specialize (Hm s).
  destruct (m s) as [[r|e|f] s'] eqn:Hms; [| |done].
  - destruct Hm as [-> Hf]. eexists _, _. split; [done|]. split; [left; eauto|done].
  - destruct Hm as (-> & -> & Hn). eexists _, _. split; [done|]. split; [by right|done].
Qed.

Lemma refine_lookup T cmp impl t a :
  rib_ok cmp impl t → addr_ok a → runs T (rib_run impl (RibLookup a)) (refined T cmp t (RibLookup a)).
Proof.
  intros (Hnd & R & Hrep & HR) Ha. cbn [rib_run]. apply runs_bind.
  eapply runs_mono; [by apply runs_answer, (lookup_answers prefix_ok addr_ok cmp impl R)|].
  cbn beta. intros ans Hans. apply runs_ret. exists t. split; [by split; eauto|]. cbn [fst snd].
  destruct Hans as [(r & -> & Hr)|[-> Hno]]; (split; [|done]).
  - apply step_lookup. by rewrite <-HR.
  - apply step_lookup_missing. intros r. rewrite <-HR. apply Hno.
Qed.

Lemma refine_scoped T cmp impl t src a :
  rib_ok cmp impl t → addr_ok a →
  runs T (rib_run impl (RibLookupScoped src a)) (refined T cmp t (RibLookupScoped src a)).
Proof.
  intros (Hnd & R & Hrep & HR) Ha. cbn [rib_run]. apply runs_bind.
  eapply runs_mono; [by apply runs_answer, (lookup_scoped_answers prefix_ok addr_ok cmp impl R)|].
  cbn beta. intros ans Hans. apply runs_ret. exists t. split; [by split; eauto|]. cbn [fst snd].
  destruct (filter_from src R) as [Hf _].
  destruct Hans as [(r & -> & Hr)|[-> Hno]]; (split; [|done]).
  - apply step_scoped. by rewrite <-HR, Hf.
  - apply step_scoped_missing. intros r Hr Hfr. apply Hno. rewrite <-Hf. apply list_elem_of_filter. by rewrite HR.
Qed.

Lemma refine_all T cmp impl t op :
  rib_ok cmp impl t → rib_op_ok prefix_ok addr_ok cmp t op → runs T (rib_run impl op) (refined T cmp t op).
Proof.
  destruct op; intros Hok Hop.
  - by apply refine_insert.
  - by apply refine_withdraw.
  - by apply refine_discard.
  - apply runs_ret. exists t. split; [done|]. split; [|done]. destruct Hok as (_ & R & [(Hr & _ & _) _] & HR).
    cbn [snd]. unfold libbgp_rib_route_count, bgp_hashmap_len.
    rewrite (routes_len prefix_ok _ _ Hr), <-(length_fmap route_of), HR. constructor.
  - by apply refine_lookup.
  - by apply refine_scoped.
Qed.

(** ** Initialisation *)

(** The empty table. *)
Lemma rib_rep_empty cmp routes sources groups :
  hm_inv prefix_ok routes → contents routes = [] → hm_inv (λ _ : Z, True) sources → contents sources = [] →
  hm_inv prefix_ok groups → contents groups = [] →
  rib_rep cmp (RibImpl routes sources groups radix_init 0 ∅ ∅ 1) [].
Proof.
  intros Hr Hrc Hs Hsc Hg Hgc. split; [|intros ???; set_solver]. split; [|split].
  - split; [done|]. split; [|by split; constructor].
    cbn [ri_routes]. unfold contents in Hrc. apply fmap_nil_inv in Hrc. by rewrite Hrc.
  - by apply (index_init _ source_eq_ok).
  - split; [by apply (index_init _ (prefix_eq_ok prefix_ok addr_ok))|]. exists ∅. split; [apply radix_rep_init|].
    intros ds v. rewrite lookup_empty. split; [done|]. intros (k & p & g & Hin & _). cbn in Hin. rewrite Hgc in Hin. set_solver.
Qed.

Lemma refine_init T cmp :
  runs T (try_call libbgp_rib_init) (λ o,
    match o with
    | inl impl => rib_ok cmp impl []
    | inr e => e = LIBBGP_ERR_NOMEM ∧ T = false
    end).
Proof.
  unfold libbgp_rib_init. apply runs_try_bind. eapply runs_mono; [apply runs_try_alloc|].
  cbn beta. intros [_|e] H; [|done].
  apply runs_try_bind. eapply runs_mono; [apply (runs_init prefix_ok)|]. cbn beta. intros [routes|e] Hr; [|done].
  apply runs_try_bind. eapply runs_mono; [apply (runs_init (λ _ : Z, True))|]. cbn beta. intros [sources|e] Hs; [|done].
  apply runs_try_bind. eapply runs_mono; [apply (runs_init prefix_ok)|]. cbn beta. intros [groups|e] Hg; [|done].
  intros s Hst. eexists _, _. split; [done|]. split; [|done].
  destruct Hr as (? & _ & ?), Hs as (? & _ & ?), Hg as (? & _ & ?).
  split; [by split; constructor|]. exists []. split; [by apply rib_rep_empty|done].
Qed.

(** The statement of the simulation, for a table and an operation. *)
Definition simulates cmp impl t op (s : list bool) : Prop :=
  ∃ impl' a s' t', rib_run impl op s = (Ret (impl', a), s') ∧ rib_ok cmp impl' t' ∧
    table_step cmp t op a t' ∧ (a = RErr LIBBGP_ERR_NOMEM → s ≠ []).

Lemma simulation cmp impl t op s :
  rib_ok cmp impl t → rib_op_ok prefix_ok addr_ok cmp t op → simulates cmp impl t op s.
Proof.
  intros Hok Hop. destruct (refine_all (bool_decide (s = [])) cmp impl t op Hok Hop s)
    as ([impl' a] & s' & Hrun & (t' & Hok' & Hstep & Hn) & _); [by intros ?%bool_decide_eq_true|].
  exists impl', a, s', t'. split_and!; [done..|]. intros Ha. specialize (Hn Ha). by apply bool_decide_eq_false in Hn.
Qed.
End Refine.
