(* ===== verification/RibBest.v ===== *)
(** * Routing tables: the best route of a prefix and its changes

    What the operations that track the best route report to the session, what
    discarding a peer collects, and that a saved route can be put back. *)

From stdpp Require Import gmap.
From S2P Require Import Prelude Bytes Radix Pattr As4 Hashmap HashmapSpec Rib RibTable RibDecision RibIndex RibInv RibRoutes RibSpec RibLookup RibRefine.

Section RibBest.
Context `{family : Family} {host : Host}.
Context (prefix_ok : Prefix -> Prop) (addr_ok : Addr -> Prop) `{!FamilyLaws prefix_ok addr_ok}.
Implicit Types (e : entry_ptr) (R : list entry_ptr) (impl : rib_impl_t) (cmp T : bool) (k : Prefix).
Implicit Types (t : list libbgp_rib_route_t) (r route : libbgp_rib_route_t).

Abbreviation rib_rep := (rib_rep prefix_ok).
Abbreviation rib_ok := (rib_ok prefix_ok).

(** ** The best route of a prefix *)

(** [r] is a route for [k]; with [cmp] it is a most preferred one. *)
Definition best_route cmp t k r : Prop :=
  r ∈ t ∧ rr_prefix r = k ∧
  (cmp = true → ∀ r', r' ∈ t → rr_prefix r' = k → memcmp (rank r) (rank r') <= 0).

Definition no_route t k : Prop := ∀ r, r ∈ t → rr_prefix r ≠ k.

#[export] Instance best_route_proper cmp : Proper ((≡ₚ) ==> eq ==> eq ==> iff) (best_route cmp).
Proof. intros t t' Ht k _ <- r _ <-. unfold best_route. by setoid_rewrite Ht. Qed.

#[export] Instance no_route_proper : Proper ((≡ₚ) ==> eq ==> iff) no_route.
Proof. intros t t' Ht k _ <-. unfold no_route. by setoid_rewrite Ht. Qed.

Lemma runs_best T cmp impl R k :
  rib_rep cmp impl R → prefix_ok k →
  runs T (rib_best_exact_locked impl k) (λ o,
    match o with
    | Some p => ∃ e, e ∈ R ∧ p = e_value e ∧ best_route cmp (route_of <$> R) k (route_of e)
    | None => no_route (route_of <$> R) k
    end).
Proof.
  intros Hrep Hk. pose proof (rep_entries _ _ _ _ Hrep) as Hok. pose proof Hrep as [(Hr & _ & _) Hc].
  assert (Hkey : ∀ e, e ∈ R → rr_prefix (route_of e) = k ↔ prefix_eq (e_key e) k = true).
  { intros e He. pose proof (entries_ok_elem _ _ _ _ Hok He) as [<- Hp _ _]. by rewrite fam_eq. }
  eapply runs_mono; [by apply (runs_best_exact prefix_ok addr_ok T impl R k)|]. cbn beta.
  intros o (es & Hes & ->). assert (Hel : ∀ e, e ∈ es ↔ e ∈ R ∧ rr_prefix (route_of e) = k).
  { intros e. rewrite Hes, list_elem_of_filter. split; [intros [? He]|intros [He ?]]; (split; [|]); try done; by apply Hkey. }
  destruct (best_of (e_value <$> es)) as [p|] eqn:Hb.
  - pose proof (best_of_elem _ _ Hb) as (e & -> & He)%list_elem_of_fmap. apply Hel in He as [He Hpe].
    exists e. split_and!; [done|done|]. split; [by apply list_elem_of_fmap_2|]. split; [done|].
    intros HT r (e' & -> & He')%list_elem_of_fmap Hpe'.
    eapply (best_of_optimal (e_value <$> es)); [|exact Hb|apply list_elem_of_fmap_2, Hel; done].
    intros p q (e1 & -> & He1)%list_elem_of_fmap (e2 & -> & He2)%list_elem_of_fmap.
    apply Hel in He1 as [? H1], He2 as [? H2]. apply Hc; [done..|]. unfold group_of. by rewrite H1, H2.
  - apply best_of_None, fmap_nil_inv in Hb. intros r (e & -> & He)%list_elem_of_fmap Hpe.
    assert (e ∈ es) as Hin by by apply Hel. rewrite Hb in Hin. by apply elem_of_nil in Hin.
Qed.

(** ** Reports *)

(** What a change says about the best route of [k] before ([t]) and after
    ([t']) an operation on the route of the peer [src] for [k].  A replacement
    means that the best route is another one, or the route the peer has just
    put in; no change, that it is the same route of some other peer. *)
Definition reports cmp t t' src k (change : bgp_rib_change_t) : Prop :=
  match ch_kind change with
  | BGP_RIB_CHANGE_NEW_BEST => no_route t k ∧ ∃ r, ch_best change = Some r ∧ best_route cmp t' k r
  | BGP_RIB_CHANGE_REPLACEMENT_BEST =>
      ∃ r0 r, best_route cmp t k r0 ∧ ch_best change = Some r ∧ best_route cmp t' k r ∧
        (r ≠ r0 ∨ from src r)
  | BGP_RIB_CHANGE_NO_BEST_CHANGE =>
      ∃ r, ch_best change = Some r ∧ best_route cmp t k r ∧ best_route cmp t' k r ∧ ¬ from src r
  | BGP_RIB_CHANGE_UNREACHABLE => (∃ r, best_route cmp t k r) ∧ no_route t' k ∧ ch_best change = None
  end.

Lemma runs_snapshot T route :
  zlen (rr_attrs route) < 2 ^ 60 →
  runs T (try_call (bgp_rib_route_snapshot_clone route)) (λ o,
    o = inl route ∨ o = inr LIBBGP_ERR_NOMEM ∧ T = false).
Proof.
  intros Hlen. unfold bgp_rib_route_snapshot_clone.
  destruct (_ =? 0); [intros s Hs; eexists _, _; split; [done|]; split; [by left|done]|].
  assert (Hmax : SIZE_MAX / SIZEOF_ROUTE_POINTER = 2 ^ 61 - 1) by done. rewrite Hmax.
  replace (_ <? _) with false by lia. apply runs_try_bind. cbn [fail_if].
  intros s Hs. eexists _, _. split; [done|]. split; [|done]. apply runs_try_bind.
  eapply runs_mono; [apply runs_try_alloc|]. cbn beta. intros [_|e] H; [|by destruct H as [-> ->]; right].
  intros s' Hs'. eexists _, _. split; [done|]. split; [by left|done].
Qed.

Lemma runs_set_best_change T kind (after : route_ptr) snapshot :
  zlen (rr_attrs (ro_route after)) < 2 ^ 60 →
  runs T (set_best_change kind after snapshot) (λ o,
    o = (LIBBGP_OK, RibChange kind (Some (ro_route after))) ∨ o = (LIBBGP_ERR_NOMEM, no_change) ∧ T = false).
Proof.
  intros Hlen. unfold set_best_change. apply runs_if; intros _; [|apply runs_ret; by left].
  apply runs_bind. eapply runs_mono; [by apply runs_snapshot|].
  intros o [->|[-> HT]]; apply runs_ret; [by left|by right].
Qed.

(** *** Insertions *)

Definition tracked_insert T cmp t route (o : rib_impl_t * insert_result * bgp_rib_change_t) : Prop :=
  let '(impl', res, change) := o in
  (ir_err res = LIBBGP_OK ∧ ∃ t', rib_ok cmp impl' t' ∧ insert_effect t route t' ∧
     reports cmp t t' (rr_source_router_id route) (rr_prefix route) change) ∨
  (ir_err res = LIBBGP_ERR_EXISTS ∧ change = no_change ∧ rib_ok cmp impl' t) ∨
  (ir_err res = LIBBGP_ERR_NOMEM ∧ change = no_change ∧ T = false ∧
     (rib_ok cmp impl' t ∨ ∃ t', rib_ok cmp impl' t' ∧ insert_effect t route t')).

(** The change that is reported once the route is in the table. *)
Lemma runs_insert_change T cmp R R' new k (before : option route_ptr) (after : entry_ptr) snapshot b :
  entries_ok prefix_ok b R → b <= addr_of new → (∀ e, e ∈ R' → e ∈ R) →
  (∀ e e', e ∈ R → e' ∈ R → route_of e = route_of e' → e = e') →
  (∀ e, e ∈ R' → rr_prefix (route_of e) = k → src_of e ≠ src_of new) →
  match before with
  | Some p => ∃ e, e ∈ R ∧ p = e_value e ∧ best_route cmp (route_of <$> R) k (route_of e)
  | None => no_route (route_of <$> R) k
  end →
  after ∈ new :: R' → best_route cmp (route_of <$> new :: R') k (route_of after) →
  zlen (rr_attrs (route_of after)) < 2 ^ 60 →
  runs T
    match before with
    | None => set_best_change BGP_RIB_CHANGE_NEW_BEST (e_value after) snapshot
    | Some before =>
        if same_ptr before (e_value after)
        then set_best_change BGP_RIB_CHANGE_NO_BEST_CHANGE (e_value after) false
        else set_best_change BGP_RIB_CHANGE_REPLACEMENT_BEST (e_value after) snapshot
    end
    (λ o, (o.1 = LIBBGP_OK ∧ reports cmp (route_of <$> R) (route_of <$> new :: R') (src_of new) k o.2) ∨
          o = (LIBBGP_ERR_NOMEM, no_change) ∧ T = false).
Proof.
  intros Hok Haddr Hsub Hone Hother Hbefore Hin Hafter Hlen. destruct before as [p|].
  - destruct Hbefore as (e & He & -> & Hbest). apply runs_if; intros Hs.
    + eapply runs_mono; [by apply runs_set_best_change|]. intros o [->|?]; [left|by right]. split; [done|].
      assert (after ∈ R') as HaR'.
      { apply elem_of_cons in Hin as [->|?]; [|done].
        pose proof (entries_ok_elem _ _ _ _ Hok He) as [_ _ _ Hlt]. apply Z.eqb_eq in Hs. unfold addr_of in *. lia. }
      rewrite (entries_ok_inj _ _ _ _ _ Hok He (Hsub _ HaR') Hs) in Hbest. exists (route_of after).
      split_and!; try done. apply (Hother after HaR'). by destruct Hafter as (_ & ? & _).
    + eapply runs_mono; [by apply runs_set_best_change|]. intros o [->|?]; [left|by right]. split; [done|].
      exists (route_of e), (route_of after). split_and!; try done.
      apply elem_of_cons in Hin as [->|HaR']; [by right|]. left. intros Heq.
      rewrite (Hone after e (Hsub _ HaR') He Heq) in Hs. unfold same_ptr, route_pointer in Hs. lia.
  - eapply runs_mono; [by apply runs_set_best_change|]. intros o [->|?]; [left|by right]. split; [done|].
    split; [done|]. by exists (route_of after).
Qed.

Lemma reports_proper cmp t t1 t' t1' src k change :
  t ≡ₚ t1 → t' ≡ₚ t1' → reports cmp t t' src k change → reports cmp t1 t1' src k change.
Proof. intros Ht Ht'. unfold reports. destruct (ch_kind change); setoid_rewrite Ht; by setoid_rewrite Ht'. Qed.

(** Distinct entries hold distinct routes, and for one prefix routes of
    distinct peers. *)
Lemma route_of_inj R t e e' :
  table_wf t → route_of <$> R ≡ₚ t → e ∈ R → e' ∈ R → route_of e = route_of e' → e = e'.
Proof.
  intros [Hnd _] HR [i Hi]%list_elem_of_lookup [j Hj]%list_elem_of_lookup Heq. rewrite <-HR in Hnd.
  assert (i = j) as ->; [|congruence].
  apply (NoDup_lookup _ i j (slot (route_of e)) Hnd); rewrite !list_lookup_fmap; [by rewrite Hi|by rewrite Hj, Heq].
Qed.

Lemma new_sources new R' e :
  table_wf (route_of <$> new :: R') → e ∈ R' → rr_prefix (route_of e) = rr_prefix (route_of new) →
  src_of e ≠ src_of new.
Proof.
  rewrite fmap_cons, table_wf_cons. intros (Hn & _) He Hk Hs.
  apply (Hn (route_of e)); [by apply list_elem_of_fmap_2|]. unfold slot. rewrite Hk. by unfold src_of in *; rewrite Hs.
Qed.

Lemma insert_track_spec T cmp impl t route plain snapshot :
  rib_ok cmp impl t → rib_op_ok prefix_ok addr_ok cmp t (RibInsert route) →
  runs T (bgp_rib_insert_track_best_save_replaced impl route plain snapshot) (tracked_insert T cmp t route).
Proof.
  intros (Hwf & R & Hrep & HR) (Hk & Hattrs & Hlen & Hcmp). pose proof Hattrs as [_ Hat].
  assert (Hzlen : zlen R < 2 ^ 40) by (rewrite <-HR, length_fmap in Hlen; lia).
  unfold bgp_rib_insert_track_best_save_replaced. apply runs_bind.
  eapply runs_mono; [by apply (runs_best T cmp impl R (rr_prefix route))|]. cbn beta. intros before Hbefore.
  apply runs_bind. eapply runs_mono; [apply (runs_insert_route prefix_ok addr_ok T cmp impl R route plain)|]; try done.
  { intros HT e He Hg. apply Hcmp; [done| |done]. rewrite <-HR. by apply list_elem_of_fmap_2. }
  intros [impl' res] Hins. cbn beta iota.
  destruct Hins as [(Heq & _)|[(Hres & Hrep' & HT & _)|(new & Hnew & Haddr & He & _ & Hrest)]]; cbn [fst snd] in *.
  { injection Heq as -> ->. apply runs_ret. right. left. split_and!; [done|done|]. by split; eauto. }
  { subst res. apply runs_ret. right. right. split_and!; [done..|]. left. by split; eauto. }
  rewrite He. cbn. destruct (inserted_effect prefix_ok addr_ok cmp impl impl' R t route new (ir_replaced res) Hrep Hwf HR Hattrs Hnew)
    as (R' & Hrep' & Hsub & Hok & Heff).
  { destruct (ir_replaced res); naive_solver. }
  apply runs_bind. eapply runs_mono; [by apply (runs_best T cmp impl' (new :: R') (rr_prefix route))|].
  cbn beta. intros [p|] Hafter.
  2:{ exfalso. apply (Hafter (route_of new)); [cbn; set_solver|]. by rewrite Hnew. }
  destruct Hafter as (e & Hine & -> & Hbest). pose proof Hok as [[_ Hsmall] _]. rewrite Forall_forall in Hsmall.
  apply runs_bind. eapply runs_mono.
  { apply (runs_insert_change T cmp R R' new (rr_prefix route) before e snapshot (ri_next_addr impl)); try done.
    - by apply (rep_entries _ _ _ _ Hrep).
    - intros e1 e2. by apply (route_of_inj R t).
    - intros e' He' Hke'. eapply new_sources; [by apply Hok|done|]. by rewrite Hnew.
    - apply Hsmall. by apply list_elem_of_fmap_2. }
  cbn beta. assert (Hsn : src_of new = rr_source_router_id route) by by unfold src_of; rewrite Hnew.
  rewrite Hsn. intros [e0 change]. cbn [fst snd]. intros [[-> Hrp]|[Heq HT]]; apply runs_ret.
  - left. split; [done|]. exists (route_of <$> new :: R'). split_and!; [done|done|]. by eapply reports_proper.
  - injection Heq as -> ->. right. right. split_and!; [done..|]. right. by eauto.
Qed.

(** *** Withdrawals *)

Lemma small_attrs R t :
  table_wf t → route_of <$> R ≡ₚ t → Forall (λ e, zlen (rr_attrs (route_of e)) < 2 ^ 60) R.
Proof. intros [_ Hs] HR. rewrite <-HR, Forall_fmap in Hs. eapply Forall_impl; [exact Hs|]. by intros e [_ ?]. Qed.


Lemma runs_withdraw_change T cmp R R' old src k (before after : option route_ptr) snapshot :
  R ≡ₚ old :: R' → rr_prefix (route_of old) = k → src_of old = src →
  (∀ e, e ∈ R' → rr_prefix (route_of e) = k → src_of e ≠ src) →
  Forall (λ e, zlen (rr_attrs (route_of e)) < 2 ^ 60) R →
  match before with
  | Some p => ∃ e, e ∈ R ∧ p = e_value e ∧ best_route cmp (route_of <$> R) k (route_of e)
  | None => no_route (route_of <$> R) k
  end →
  match after with
  | Some p => ∃ e, e ∈ R' ∧ p = e_value e ∧ best_route cmp (route_of <$> R') k (route_of e)
  | None => no_route (route_of <$> R') k
  end →
  runs T (withdraw_change src before after snapshot) (λ o,
    (o.1 = LIBBGP_OK ∧ reports cmp (route_of <$> R) (route_of <$> R') src k o.2) ∨
    o = (LIBBGP_ERR_NOMEM, no_change) ∧ T = false ∧ snapshot = true).
Proof.
  intros HR Hold Hsrc Hother Hsmall Hbefore Hafter.
  destruct before as [p|].
  2:{ exfalso. apply (Hbefore (route_of old)); [|done]. rewrite HR. cbn. set_solver. }
  destruct Hbefore as (e & He & -> & Hbest). unfold withdraw_change. fold (route_of e) (src_of e).
  apply runs_if; intros Hw.
  - assert (HeR : e ∈ R').
    { rewrite HR in He. apply elem_of_cons in He as [->|?]; [|done]. lia. }
    apply runs_ret. left. split; [done|]. destruct after as [p|].
    2:{ exfalso. apply (Hafter (route_of e)); [by apply list_elem_of_fmap_2|]. apply Hbest. }
    destruct Hafter as (e' & He' & -> & Hbest'). exists (route_of e').
    split_and!; [done| |done|by apply (Hother e' He'); destruct Hbest' as (_ & ? & _)].
    destruct Hbest as (_ & Hke & Hopt), Hbest' as (Hin' & Hke' & Hopt').
    split; [rewrite HR; cbn; set_solver|]. split; [done|]. intros HT r Hr Hkr.
    eapply rank_le_trans; [apply (Hopt' HT (route_of e)); [by apply list_elem_of_fmap_2|done]|]. by apply Hopt.
  - destruct after as [p|].
    + destruct Hafter as (e' & He' & -> & Hbest'). rewrite Forall_forall in Hsmall.
      assert (Hs' : zlen (rr_attrs (route_of e')) < 2 ^ 60) by (apply Hsmall; rewrite HR; set_solver).
      assert (Hdiff : route_of e' ≠ route_of e ∨ from src (route_of e')).
      { left. intros Heq. apply (Hother e' He'); [by destruct Hbest' as (_ & ? & _)|].
        unfold src_of. rewrite Heq. fold (src_of e). lia. }
      destruct snapshot.
      * eapply runs_mono; [by apply runs_set_best_change|]. intros o [->|[-> ->]]; [left|by right]. split; [done|].
        by exists (route_of e), (route_of e').
      * apply runs_ret. left. split; [done|]. by exists (route_of e), (route_of e').
    + apply runs_ret. left. split; [done|]. split; [by eauto|]. by split.
Qed.

(** A withdrawal that took out [old]: the rest of the table, and the report. *)
Lemma withdrawn_table cmp impl' R R' t old :
  table_wf t → route_of <$> R ≡ₚ t → R ≡ₚ old :: R' → rib_rep cmp impl' R' →
  rib_ok cmp impl' (route_of <$> R') ∧ t ≡ₚ route_of old :: (route_of <$> R').
Proof.
  intros Hwf HR HR' Hrep. assert (Ht : t ≡ₚ route_of old :: (route_of <$> R')) by by rewrite <-HR, HR'.
  split; [|done]. split; [|by eauto]. rewrite Ht, table_wf_cons in Hwf. by destruct Hwf as (_ & _ & ?).
Qed.

(** The other routes for the prefix are from other sources. *)
Lemma other_sources cmp impl R R' t old :
  table_wf t → route_of <$> R ≡ₚ t → R ≡ₚ old :: R' → rib_rep cmp impl R →
  ∀ e, e ∈ R' → rr_prefix (route_of e) = e_key old → src_of e ≠ src_of old.
Proof.
  intros Hwf HR HR' Hrep e He Hk Hs. assert (Hold : old ∈ R) by (rewrite HR'; set_solver).
  rewrite <-HR, HR', fmap_cons, table_wf_cons in Hwf. destruct Hwf as (Hn & _).
  apply (Hn (route_of e)); [by apply list_elem_of_fmap_2|].
  rewrite (rep_slot _ _ _ _ _ Hrep Hold). unfold slot. rewrite Hk. unfold src_of in *. congruence.
Qed.

Definition tracked_withdraw cmp impl t src k (o : rib_impl_t * libbgp_err_t * bgp_rib_change_t) : Prop :=
  let '(impl', e, change) := o in
  (e = LIBBGP_OK ∧ ∃ old t', rib_ok cmp impl' t' ∧ slot old = (k, src) ∧ t ≡ₚ old :: t' ∧
     reports cmp t t' src k change) ∨
  (e = LIBBGP_ERR_NOT_FOUND ∧ impl' = impl ∧ change = no_change ∧ ∀ r, r ∈ t → slot r ≠ (k, src)).

Lemma withdraw_track_spec T cmp impl t src k :
  rib_ok cmp impl t → prefix_ok k →
  runs T (bgp_rib_withdraw_track_best impl src k) (tracked_withdraw cmp impl t src k).
Proof.
  intros (Hwf & R & Hrep & HR) Hk. unfold bgp_rib_withdraw_track_best. apply runs_bind.
  eapply runs_mono; [by apply (runs_best T cmp impl R k)|]. cbn beta. intros before Hbefore.
  apply runs_bind. eapply runs_mono; [by apply (runs_withdraw prefix_ok addr_ok T cmp impl R src k)|].
  intros [impl' e]. cbn [fst snd]. intros (_ & [(-> & old & R' & Hke & Hsrc & HR' & Hrep')|(Heq & Hno)]); cbn.
  2:{ injection Heq as -> ->. apply runs_ret. right. split_and!; [done..|].
      intros r (e & -> & He)%(rep_elem _ _ _ HR). rewrite (rep_slot _ _ _ _ _ Hrep He). intros [=]. by apply (Hno e He). }
  assert (Hold : old ∈ R) by (rewrite HR'; set_solver).
  pose proof (rep_slot _ _ _ _ _ Hrep Hold) as Hslot. rewrite Hke, Hsrc in Hslot.
  destruct (withdrawn_table cmp impl' R R' t old Hwf HR HR' Hrep') as [Hok Ht].
  apply runs_bind. eapply runs_mono; [by apply (runs_best T cmp impl' R' k)|]. cbn beta. intros after Hafter.
  apply runs_bind. eapply runs_mono.
  { apply (runs_withdraw_change T cmp R R' old src k before after false); try done.
    - by injection Hslot.
    - intros e He Hke'. rewrite <-Hsrc. eapply other_sources; try done. congruence.
    - by eapply small_attrs. }
  intros [e0 change]. cbn [fst snd]. intros [[-> Hrp]|(_ & _ & ?)]; [|done]. apply runs_ret. left. split; [done|].
  exists (route_of old), (route_of <$> R'). split_and!; try done. by eapply reports_proper.
Qed.
End RibBest.
