(* ===== verification/RibJournal.v ===== *)
(** * Routing tables: saved routes and discarded peers

    A withdrawn or replaced route can be kept and put back, so that a session
    can undo an UPDATE it could not finish; discarding a peer reports every
    prefix whose best route it was. *)

From stdpp Require Import gmap.
From S2P Require Import Prelude Bytes Radix Pattr As4 Hashmap HashmapSpec Rib RibTable RibDecision RibIndex RibInv RibRoutes RibSpec RibLookup RibRefine RibBest.

Section RibJournal.
Context `{family : Family} {host : Host}.
Context (prefix_ok : Prefix -> Prop) (addr_ok : Addr -> Prop) `{!FamilyLaws prefix_ok addr_ok}.
Implicit Types (e : entry_ptr) (R : list entry_ptr) (impl : rib_impl_t) (cmp T : bool) (k : Prefix).
Implicit Types (t : list libbgp_rib_route_t) (r route : libbgp_rib_route_t).

Abbreviation rib_rep := (rib_rep prefix_ok).
Abbreviation rib_ok := (rib_ok prefix_ok).

(** ** Saved routes *)

(** An entry that was taken out of a table of routes [t] and can go back. *)
Definition saved_ok cmp impl t e : Prop :=
  ∃ R, rib_rep cmp impl R ∧ route_of <$> R ≡ₚ t ∧ table_wf (route_of e :: t) ∧
    entry_ok prefix_ok (ri_next_addr impl) e ∧ (addr_of e ∉ addr_of <$> R) ∧ cmp_ok cmp (e :: R).

Lemma saved_rib_ok cmp impl t e : saved_ok cmp impl t e → rib_ok cmp impl t.
Proof. intros (R & Hrep & HR & Hwf & _). apply table_wf_cons in Hwf as (_ & _ & ?). split; eauto. Qed.

(** What [bgp_rib_withdraw_exact_save] leaves. *)
Definition saved_route cmp impl t src k (o : rib_impl_t * option entry_ptr) : Prop :=
  match o.2 with
  | Some e => ∃ t', slot (route_of e) = (k, src) ∧ t ≡ₚ route_of e :: t' ∧ saved_ok cmp o.1 t' e
  | None => o.1 = impl ∧ ∀ r, r ∈ t → slot r ≠ (k, src)
  end.

Lemma withdraw_save_spec T cmp impl t src k :
  rib_ok cmp impl t → prefix_ok k →
  runs T (bgp_rib_withdraw_exact_save impl src k) (saved_route cmp impl t src k).
Proof.
  intros (Hwf & R & Hrep & HR) Hk. unfold bgp_rib_withdraw_exact_save.
  eapply runs_mono; [by apply (runs_detach prefix_ok addr_ok T cmp impl R src k)|].
  intros [impl' [e|]]; cbn [fst snd]; intros ([Hl _] & Hrest).
  - destruct Hrest as (Hke & Hsrc & R' & HR' & Hrep'). assert (He : e ∈ R) by (rewrite HR'; set_solver).
    pose proof (rep_entries _ _ _ _ Hrep) as Hok. pose proof Hrep as [_ Hc].
    exists (route_of <$> R'). cbn [fst snd]. split; [rewrite (rep_slot _ _ _ _ _ Hrep He); congruence|].
    split; [by rewrite <-HR, HR'|]. exists R'. split_and!; [done|done|by rewrite <-fmap_cons, <-HR', HR| | |by rewrite <-HR'].
    + pose proof (entries_ok_elem _ _ _ _ Hok He) as [? ? ? ?]. split; [done..|lia].
    + rewrite HR' in Hok. destruct Hok as [_ Hnd]. by apply NoDup_cons in Hnd as [? _].
  - destruct Hrest as [-> Hno]. split; [done|]. intros r (e & -> & He)%(rep_elem _ _ _ HR).
    rewrite (rep_slot _ _ _ _ _ Hrep He). intros [=]. by apply (Hno e He).
Qed.

Lemma restore_spec T cmp impl t e :
  saved_ok cmp impl t e → zlen t < 2 ^ 40 →
  runs T (bgp_rib_restore_saved_if_absent impl (src_of e) (Some e)) (λ o,
    (o.1.2 = LIBBGP_OK ∧ o.2 = None ∧ rib_ok cmp o.1.1 (route_of e :: t)) ∨
    (o.1.2 = LIBBGP_ERR_NOMEM ∧ T = false ∧ o.2 = Some e ∧ rib_ok cmp o.1.1 t)).
Proof.
  intros (R & Hrep & HR & Hwf & Heok & Hfresh & Hcmp) Hlen. pose proof Hrep as [(Hr & _ & _) _].
  assert (Hzlen : zlen R < 2 ^ 40) by (rewrite <-HR, length_fmap in Hlen; lia).
  assert (Hfree : ∀ e', e' ∈ R → ¬ same_slot e' e).
  { intros e' He' [Hk Hs]. apply table_wf_cons in Hwf as (Hn & _). apply (Hn (route_of e')).
    - rewrite <-HR. by apply list_elem_of_fmap_2.
    - rewrite (rep_slot _ _ _ _ _ Hrep He'), (entry_slot _ _ _ Heok). congruence. }
  assert (Hk : prefix_ok (rr_prefix (route_of e))) by (destruct Heok as [<- ? _ _]; done).
  unfold bgp_rib_restore_saved_if_absent. fold (route_of e) (src_of e). rewrite Z.eqb_refl. cbn [negb].
  apply runs_bind. eapply runs_mono; [by apply (runs_find_locked prefix_ok addr_ok T impl R)|].
  cbn beta. intros [v|].
  { intros (e' & He' & _ & Hke & Hse). destruct (Hfree e' He'). split; [|done]. destruct Heok as [-> _ _ _]. done. }
  intros _. apply runs_bind. eapply runs_mono; [by apply (runs_attach prefix_ok addr_ok T cmp impl R e)|].
  intros [impl' err]. cbn [fst snd]. intros [[_ (e' & He' & Hs)]|((_ & Hlink) & _)]; [by destruct (Hfree e' He')|].
  cbn [fst snd] in Hlink. destruct Hlink as [[-> Hrep']|(-> & Hrep' & HT)]; apply runs_ret; cbn [fst snd]; [left|right].
  - split_and!; [done|done|]. split; [done|]. exists (e :: R). split; [done|]. cbn. by rewrite HR.
  - split_and!; [done..|]. split; [by apply table_wf_cons in Hwf as (_ & _ & ?)|eauto].
Qed.
(** ** Discarding a peer *)

(** With comparable MEDs the best route of a prefix is unique. *)
Lemma best_route_unique t k r r' :
  table_wf t → best_route true t k r → best_route true t k r' → r = r'.
Proof.
  intros [Hnd Hwf] (Hr & Hk & Hopt) (Hr' & Hk' & Hopt').
  assert (Hrank : memcmp (rank r) (rank r') = 0).
  { specialize (Hopt eq_refl r' Hr' Hk'). specialize (Hopt' eq_refl r Hr Hk).
    pose proof (rank_antisym r r'). lia. }
  apply rank_eq in Hrank. unfold rank in Hrank. apply app_inj_1 in Hrank as [_ Hsrc]; [|done].
  rewrite Forall_forall in Hwf. apply mem_of_u32_inj in Hsrc; [|apply Hwf; done..].
  apply list_elem_of_lookup in Hr as [i Hi], Hr' as [j Hj].
  pose proof (NoDup_lookup _ i j (slot r) Hnd) as H. rewrite !list_lookup_fmap, Hi, Hj in H. cbn in H.
  rewrite H in Hi; [congruence|done|]. unfold slot. congruence.
Qed.

(** The best route of [k] in [t] is from [src]. *)
Definition lost t src k : Prop := ∃ r, best_route true t k r ∧ from src r.

(** What is reported of a discarded peer: [t'] are the routes that are left. *)
Record collected t t' src (d : bgp_rib_discard_result_t) : Prop := {
  col_withdrawn k : k ∈ dr_withdrawn d ↔ lost t src k ∧ no_route t' k;
  col_once : NoDup (dr_withdrawn d);
  col_replaced r : r ∈ dr_replacements d ↔ ∃ k, lost t src k ∧ best_route true t' k r
}.

(** The capacities of the result arrays. *)
Definition cap_ok (n cap : Z) : Prop := (cap = 0 ∨ 64 <= cap) ∧ n <= cap <= 2 ^ 41.

Lemma runs_result_grow T n cap size :
  0 <= n < 2 ^ 40 → cap_ok n cap → 0 < size <= 1024 →
  runs T (try_call (result_grow n cap size)) (λ o,
    match o with inl cap' => cap_ok (n + 1) cap' | inr e => e = LIBBGP_ERR_NOMEM ∧ T = false end).
Proof.
  intros Hn [Hc0 Hc] Hsize. unfold result_grow. destruct (cap <=? n) eqn:Hle; [|apply runs_try_ret; split; lia].
  assert (Hmax : SIZE_MAX / 2 = 2 ^ 63 - 1) by done. rewrite Hmax.
  assert (Hbig : 2 ^ 53 <= SIZE_MAX / size).
  { apply Z.div_le_lower_bound; [lia|]. change SIZE_MAX with (2 ^ 64 - 1). nia. }
  replace (negb (cap =? 0) && (2 ^ 63 - 1 <? cap)) with false by lia.
  set (new_cap := if cap =? 0 then 64 else cap * 2).
  assert (Hnew : n < new_cap <= 2 ^ 42 ∧ 64 <= new_cap ∧ new_cap <= 2 ^ 41).
  { unfold new_cap. destruct (cap =? 0) eqn:Hz; lia. }
  replace ((new_cap <=? n) || (SIZE_MAX / size <? new_cap)) with false by lia.
  apply runs_try_bind. eapply runs_mono; [by apply (runs_try_ret _ tt (λ o, o = inl tt))|]. cbn beta. intros o ->.
  apply runs_try_bind. eapply runs_mono; [by apply (runs_try_ret _ tt (λ o, o = inl tt))|]. cbn beta. intros o ->.
  apply runs_try_bind. eapply runs_mono; [apply runs_try_alloc|]. cbn beta. intros [_|e] H; [|done].
  apply runs_try_ret. split; lia.
Qed.
Definition prefix_of e : Prefix := rr_prefix (route_of e).

(** Distinct entries have distinct slots. *)
Lemma slot_inj R t e e' :
  table_wf t → route_of <$> R ≡ₚ t → e ∈ R → e' ∈ R → slot (route_of e) = slot (route_of e') → e = e'.
Proof.
  intros [Hnd _] HR [i Hi]%list_elem_of_lookup [j Hj]%list_elem_of_lookup Hs. rewrite <-HR in Hnd.
  pose proof (NoDup_lookup _ i j (slot (route_of e)) Hnd) as H.
  rewrite !list_lookup_fmap, Hi, Hj in H. cbn in H. rewrite Hs in H. specialize (H eq_refl eq_refl). congruence.
Qed.

(** The test of the first loop. *)
Lemma best_is_entry R t e (best : option route_ptr) b :
  entries_ok prefix_ok b R → table_wf t → route_of <$> R ≡ₚ t → e ∈ R →
  match best with
  | Some p => ∃ e', e' ∈ R ∧ p = e_value e' ∧ best_route true (route_of <$> R) (prefix_of e) (route_of e')
  | None => no_route (route_of <$> R) (prefix_of e)
  end →
  match best with Some best => same_ptr best (e_value e) | None => false end = true ↔
  best_route true t (prefix_of e) (route_of e).
Proof.
  intros Hok Hwf HR He Hbest. destruct best as [p|].
  - destruct Hbest as (e' & He' & -> & Hbest). rewrite HR in Hbest. split.
    + intros Hs. by rewrite (entries_ok_inj _ _ _ _ _ Hok He' He Hs) in Hbest.
    + intros Hb. pose proof (best_route_unique _ _ _ _ Hwf Hbest Hb) as Heq.
      assert (e' = e) as -> by (eapply slot_inj; try done; by rewrite Heq). by apply same_entry_addr.
  - split; [done|]. intros (Hin & Hk & _). exfalso. rewrite <-HR in Hin. by apply (Hbest (route_of e)).
Qed.

Lemma runs_active T impl R t src es : ∀ acc cap,
  rib_rep true impl R → table_wf t → route_of <$> R ≡ₚ t → (∀ e, e ∈ es → e ∈ R ∧ src_of e = src) →
  zlen acc + zlen es < 2 ^ 40 → cap_ok (zlen acc) cap →
  runs T (try_call (active_loop impl src es acc cap)) (λ o,
    match o with
    | inl active => ∃ es', es' `sublist_of` es ∧ active = acc ++ (prefix_of <$> es') ∧
        ∀ e, e ∈ es → e ∈ es' ↔ best_route true t (prefix_of e) (route_of e)
    | inr e => e = LIBBGP_ERR_NOMEM ∧ T = false
    end).
Proof.
  induction es as [|e es IH]; intros acc cap Hrep Hwf HR Hes Hlen Hcap; cbn [active_loop].
  { apply runs_try_ret. exists []. split_and!; [done|by rewrite app_nil_r|]. intros e He. by apply elem_of_nil in He. }
  pose proof (rep_entries _ _ _ _ Hrep) as Hok. destruct (Hes e ltac:(set_solver)) as [He Hsrc].
  pose proof (entries_ok_elem _ _ _ _ Hok He) as [Hkey Hpk _ _]. fold (route_of e) (prefix_of e) (src_of e).
  assert (Hk : prefix_ok (prefix_of e)) by (unfold prefix_of; by rewrite <-Hkey).
  cbn [length] in Hlen. apply runs_try_bind. eapply runs_mono; [by apply runs_try_run, (runs_best prefix_ok addr_ok T true impl R)|].
  cbn beta. intros [best|]; [|done]. intros Hbest.
  pose proof (best_is_entry R t e best _ Hok Hwf HR He Hbest) as Hiff.
  assert (Htail : ∀ e', e' ∈ es → e' ∈ R ∧ src_of e' = src) by (intros; apply Hes; set_solver).
  rewrite Hsrc, Z.eqb_refl. cbn [andb]. destruct (match best with Some _ => _ | None => false end) eqn:Hb.
  - assert (Hbr : best_route true t (prefix_of e) (route_of e)) by by apply Hiff.
    unfold rib_prefix_array_push. apply runs_try_bind, runs_try_bind.
    eapply runs_mono; [apply runs_result_grow; [lia|done|apply fam_sizes]|]. cbn beta. intros [cap'|err]; [|done].
    intros Hcap'. apply runs_try_ret. cbn beta iota. eapply runs_mono; [apply IH; try done|].
    + rewrite length_app. cbn [length]. lia.
    + rewrite length_app. cbn [length]. by replace (Z.of_nat (length acc + 1)) with (zlen acc + 1) by lia.
    + cbn beta. intros [active|err]; [|done]. intros (es' & Hsub & -> & Hel). exists (e :: es').
      split_and!; [by constructor|by rewrite <-(assoc_L (++))|].
      intros e' [->|He']%elem_of_cons; [set_solver|]. rewrite elem_of_cons, Hel by done.
      split; [intros [->|?]; done|by right].
  - eapply runs_mono; [by apply IH; try done; lia|]. cbn beta. intros [active|err]; [|done].
    intros (es' & Hsub & -> & Hel). exists es'. split_and!; [by constructor|done|].
    intros e' [->|He']%elem_of_cons; [|by apply Hel]. split; [|intros Hbr; by apply Hiff in Hbr].
    intros Hin. apply Hel; [|done]. by eapply elem_of_sublist.
Qed.

Lemma runs_collect T impl R t active : ∀ wd wcap rp rcap,
  rib_rep true impl R → table_wf t → route_of <$> R ≡ₚ t → Forall prefix_ok active →
  zlen wd + zlen active < 2 ^ 40 → zlen rp + zlen active < 2 ^ 40 → cap_ok (zlen wd) wcap → cap_ok (zlen rp) rcap →
  runs T (try_call (collect_loop impl active wd wcap rp rcap)) (λ o,
    match o with
    | inl d => ∃ wl rl, d = DiscardResult (wd ++ wl) (rp ++ rl) ∧ wl `sublist_of` active ∧
        (∀ k, k ∈ active → k ∈ wl ↔ no_route t k) ∧
        (∀ r, r ∈ rl ↔ ∃ k, k ∈ active ∧ best_route true t k r)
    | inr e => e = LIBBGP_ERR_NOMEM ∧ T = false
    end).
Proof.
  induction active as [|k active IH]; intros wd wcap rp rcap Hrep Hwf HR Hok Hw Hr Hwc Hrc; cbn [collect_loop].
  { apply runs_try_ret. exists [], []. split_and!; [by rewrite !app_nil_r|done|set_solver|set_solver]. }
  apply Forall_cons in Hok as [Hk Hok]. cbn [length] in Hw, Hr.
  apply runs_try_bind. eapply runs_mono; [by apply runs_try_run, (runs_best prefix_ok addr_ok T true impl R k)|].
  cbn beta. intros [[p|]|]; [| |done].
  - intros (e & He & -> & Hbest). fold (route_of e). rewrite HR in Hbest.
    assert (Hattrs : zlen (rr_attrs (route_of e)) < 2 ^ 60).
    { pose proof (small_attrs _ _ Hwf HR) as Hs. rewrite Forall_forall in Hs. by apply Hs. }
    unfold rib_result_add_replacement. apply runs_try_bind, runs_try_bind.
    eapply runs_mono; [apply runs_result_grow; [lia|done|apply fam_sizes]|]. cbn beta. intros [cap'|err]; [|done].
    intros Hcap'. apply runs_try_bind. eapply runs_mono; [by apply runs_snapshot|]. cbn beta. intros o [->|[-> HT]]; [|done].
    apply runs_try_ret. cbn beta iota. eapply runs_mono; [apply IH; try done|].
    + lia.
    + rewrite length_app. cbn [length]. lia.
    + rewrite length_app. cbn [length]. by replace (Z.of_nat (length rp + 1)) with (zlen rp + 1) by lia.
    + cbn beta. intros [d|err]; [|done]. intros (wl & rl & -> & Hsub & Hwl & Hrl). exists wl, (route_of e :: rl).
      split_and!; [by rewrite <-(assoc_L (++))|by constructor| |].
      * intros k' [->|Hk']%elem_of_cons; [|by apply Hwl]. split.
        -- intros Hin. apply Hwl; [by eapply elem_of_sublist|done].
        -- intros Hno. destruct Hbest as (Hin & Hpk & _). by destruct (Hno _ Hin).
      * intros r. rewrite elem_of_cons, Hrl. split.
        -- intros [->|(k' & Hk' & Hb)]; [exists k|exists k']; (split; [set_solver|done]).
        -- intros (k' & [->|Hk']%elem_of_cons & Hb); [left|right; by eauto]. by eapply best_route_unique.
  - intros Hno. unfold rib_prefix_array_push. apply runs_try_bind, runs_try_bind.
    eapply runs_mono; [apply runs_result_grow; [lia|done|apply fam_sizes]|]. cbn beta. intros [cap'|err]; [|done].
    intros Hcap'. apply runs_try_ret. cbn beta iota. rewrite HR in Hno. eapply runs_mono; [apply IH; try done|].
    + rewrite length_app. cbn [length]. lia.
    + lia.
    + rewrite length_app. cbn [length]. by replace (Z.of_nat (length wd + 1)) with (zlen wd + 1) by lia.
    + cbn beta. intros [d|err]; [|done]. intros (wl & rl & -> & Hsub & Hwl & Hrl). exists (k :: wl), rl.
      split_and!; [by rewrite <-(assoc_L (++))|by constructor| |].
      * intros k' [->|Hk']%elem_of_cons; [set_solver|]. rewrite elem_of_cons, Hwl by done. split; [intros [->|?]; done|by right].
      * intros r. rewrite Hrl. split; intros (k' & Hk' & Hb); exists k'; (split; [|done]); [set_solver|].
        apply elem_of_cons in Hk' as [->|?]; [|done]. destruct Hb as (Hin & Hpk & _). by destruct (Hno _ Hin).
Qed.
(** The lost prefixes are those of the entries of the source that are best. *)
Lemma lost_active R t src k :
  table_wf t → route_of <$> R ≡ₚ t →
  lost t src k ↔ ∃ e, e ∈ R ∧ src_of e = src ∧ prefix_of e = k ∧ best_route true t (prefix_of e) (route_of e).
Proof.
  intros Hwf HR. split.
  - intros (r & Hb & Hf). pose proof Hb as (Hin & Hk & _).
    apply (rep_elem _ _ _ HR) in Hin as (e & -> & He). exists e. unfold prefix_of. by rewrite Hk.
  - intros (e & He & Hsrc & <- & Hb). by exists (route_of e).
Qed.

(** From the two loops to the report. *)
Lemma collected_intro R t t' src es es' wl rl :
  table_wf t → route_of <$> R ≡ₚ t → (∀ e, e ∈ es ↔ e ∈ R ∧ src_of e = src) → NoDup (slot <$> (route_of <$> es)) →
  es' `sublist_of` es → (∀ e, e ∈ es → e ∈ es' ↔ best_route true t (prefix_of e) (route_of e)) →
  wl `sublist_of` (prefix_of <$> es') → (∀ k, k ∈ prefix_of <$> es' → k ∈ wl ↔ no_route t' k) →
  (∀ r, r ∈ rl ↔ ∃ k, k ∈ prefix_of <$> es' ∧ best_route true t' k r) →
  collected t t' src (DiscardResult wl rl).
Proof.
  intros Hwf HR Hes Hnd Hsub Hes' Hwl Hwk Hrl.
  assert (Hlost : ∀ k, k ∈ prefix_of <$> es' ↔ lost t src k).
  { intros k. rewrite (lost_active R t src k Hwf HR), list_elem_of_fmap. split.
    - intros (e & -> & He). assert (e ∈ es) as Hin by by eapply elem_of_sublist. exists e.
      destruct (proj1 (Hes e) Hin). split_and!; [done..|]. by apply Hes'.
    - intros (e & He & Hsrc & <- & Hb). exists e. split; [done|]. apply Hes'; [by apply Hes|done]. }
  split; cbn [dr_withdrawn dr_replacements].
  - intros k. split.
    + intros Hin. assert (k ∈ prefix_of <$> es') as Hk by by eapply elem_of_sublist.
      split; [by apply Hlost|by apply Hwk].
    + intros [Hl Hno]. apply Hlost in Hl. by apply Hwk.
  - eapply sublist_NoDup; [|exact Hwl]. eapply (sublist_NoDup _ (prefix_of <$> es)); [|by apply fmap_sublist].
    rewrite <-list_fmap_compose in Hnd. apply NoDup_fmap_fst with (l := slot ∘ route_of <$> es) in Hnd.
    + by rewrite <-list_fmap_compose in Hnd.
    + intros k s1 s2 (e1 & [= _ ->] & He1)%list_elem_of_fmap (e2 & [= _ ->] & He2)%list_elem_of_fmap.
      apply Hes in He1 as [_ H1], He2 as [_ H2]. unfold src_of in *. congruence.
  - intros r. rewrite Hrl. split; intros (k & Hk & Hb); exists k; (split; [by apply Hlost|done]).
Qed.

Lemma discard_collect_spec T impl t src :
  rib_ok true impl t → zlen t < 2 ^ 40 →
  let t' := filter (λ r, ¬ from src r) t in
  runs T (bgp_rib_discard_collect impl src) (λ o,
    match o.2 with
    | inl d => rib_ok true o.1 t' ∧ collected t t' src d
    | inr e => e = LIBBGP_ERR_NOMEM ∧ T = false ∧ (o.1 = impl ∨ rib_ok true o.1 t')
    end).
Proof.
  intros (Hwf & R & Hrep & HR) Hlen t'. unfold bgp_rib_discard_collect.
  assert (Hzlen : zlen R < 2 ^ 40) by (rewrite <-HR, length_fmap in Hlen; lia).
  destruct (filter_from src R) as [_ Hf]. set (R' := without_key src_of src R) in *.
  assert (HR' : route_of <$> R' ≡ₚ t') by (unfold t'; by rewrite <-HR, Hf).
  assert (Hwf' : table_wf t') by (eapply table_wf_sublist; [apply sublist_filter|done]).
  pose proof Hrep as [(_ & Hs & _) _]. apply runs_bind.
  apply (runs_mono _ _ (λ found : option Z, ∃ es, es ≡ₚ with_key src_of src R ∧
    match found with
    | None => es = []
    | Some p => ∃ source, ri_src_mem impl !! p = Some source ∧ se_entries source = es
    end)).
  { eapply runs_mono; [by apply (runs_source_find T impl R src)|]. intros [p|].
    - intros (o & _ & Ho & _ & _ & He). exists (se_entries o). eauto.
    - intros [_ Hnone]. exists []. by rewrite Hnone. }
  intros found (es & Hes & Hfound).
  assert (Hel : ∀ e, e ∈ es ↔ e ∈ R ∧ src_of e = src).
  { intros e. rewrite Hes, elem_of_with_key. rewrite (source_eq_ok (src_of e) src I I). naive_solver. }
  assert (Hnd : NoDup (slot <$> (route_of <$> es))).
  { destruct Hwf as [Hnd _]. rewrite <-HR in Hnd. rewrite Hes. eapply sublist_NoDup; [exact Hnd|].
    do 2 apply fmap_sublist. apply sublist_filter. }
  assert (Hlen_es : zlen es <= zlen R).
  { rewrite Hes. unfold with_key. pose proof (length_filter (λ e, key_eq (src_of e) src = true) R). lia. }
  assert (Hactive := runs_active T impl R t src es [] 0 Hrep Hwf HR ltac:(intros e; apply Hel)
    ltac:(cbn; lia) ltac:(split; [by left|cbn; lia])).
  apply runs_bind. eapply runs_mono.
  { destruct found as [p|]; [|subst es; exact Hactive]. destruct Hfound as (source & Hsrc & <-).
    apply runs_try_bind. eapply runs_mono; [by apply runs_try_run; eapply (runs_deref T _ p source (λ o, o = source))|].
    cbn beta. intros [o|]; [|done]. intros ->. exact Hactive. }
  cbn beta. intros [active|err].
  2:{ intros [-> HT]. apply runs_ret. cbn [fst snd]. split_and!; [done..|by left]. }
  intros (es' & Hsub & -> & Hes'). cbn [app].
  apply runs_bind. eapply runs_mono; [by apply (runs_remove_source prefix_ok addr_ok T true impl R src)|].
  intros [impl' n]. cbn [fst snd]. intros (_ & Hrep' & _).
  assert (Hlen' : (length es' <= length es)%nat) by by apply sublist_length.
  apply runs_bind. eapply runs_mono.
  { apply (runs_collect T impl' R' t' (prefix_of <$> es') [] 0 [] 0); try done; rewrite ?length_fmap; cbn; try lia.
    - apply Forall_fmap, Forall_forall. intros e He. assert (Hin : e ∈ es) by by eapply elem_of_sublist.
      apply Hel in Hin as [Hin _]. pose proof (rep_entries _ _ _ _ Hrep) as Hok.
      pose proof (entries_ok_elem _ _ _ _ Hok Hin) as [Hkey Hpk _ _]. cbn. unfold prefix_of. by rewrite <-Hkey.
    - split; [by left|lia].
    - split; [by left|lia]. }
  cbn beta. intros [d|err].
  2:{ intros [-> HT]. apply runs_ret. cbn [fst snd]. split_and!; [done..|right]. split; [done|by eauto]. }
  intros (wl & rl & -> & Hwl & Hwk & Hrl). apply runs_ret. cbn [fst snd app]. split; [split; [done|by eauto]|].
  by eapply (collected_intro R t t' src es es').
Qed.
End RibJournal.
