(* ===== verification/RibForeach.v ===== *)
(** * Routing tables: iteration *)

From stdpp Require Import gmap.
From S2P Require Import Prelude Bytes Radix Pattr As4 Hashmap HashmapSpec Rib RibTable RibDecision RibIndex RibInv RibRoutes RibSpec RibLookup RibRefine RibBest.

Section RibForeach.
Context `{family : Family} {host : Host}.
Context (prefix_ok : Prefix -> Prop) (addr_ok : Addr -> Prop) `{!FamilyLaws prefix_ok addr_ok}.
Implicit Types (e : entry_ptr) (R : list entry_ptr) (impl : rib_impl_t) (cmp T : bool) (k : Prefix).
Implicit Types (t : list libbgp_rib_route_t) (r route : libbgp_rib_route_t).

Abbreviation rib_rep := (rib_rep prefix_ok).
Abbreviation rib_ok := (rib_ok prefix_ok).

(** A visitor that notes every route it is given. *)
Definition note r (seen : list libbgp_rib_route_t) : bool * list libbgp_rib_route_t := (true, seen ++ [r]).

Lemma foreach_route_spec cmp impl t : rib_ok cmp impl t → bgp_rib_foreach_route note impl [] ≡ₚ t.
Proof.
  intros (_ & R & [((_ & HR & _) & _) _] & Ht). unfold bgp_rib_foreach_route, note.
  rewrite (foreach_contents (λ _ (v : route_ptr) seen, seen ++ [ro_route v])).
  assert (Hfold : ∀ l seen, foldl (λ seen (p : Prefix * route_ptr), seen ++ [ro_route p.2]) seen l =
    seen ++ (ro_route ∘ snd <$> l)).
  { induction l as [|p l IH]; intros seen; cbn [foldl]; [by rewrite app_nil_r|]. by rewrite IH, <-(assoc_L (++)). }
  rewrite Hfold. cbn [app]. rewrite <-Ht, <-HR. unfold contents. by rewrite <-list_fmap_compose.
Qed.

(** Destroying the table frees every route once. *)
Lemma destroy_routes cmp impl t :
  rib_ok cmp impl t → ro_route ∘ snd <$> (libbgp_rib_destroy impl).2 ≡ₚ t.
Proof.
  intros (_ & R & [((_ & HR & _) & _) _] & Ht). cbn [libbgp_rib_destroy snd].
  rewrite destroy_contents, <-Ht, <-HR. unfold contents. by rewrite <-list_fmap_compose.
Qed.

(** ** Best routes *)

Definition norm_of r : Prefix := rib_lpm_normalize_prefix (rr_prefix r).

(** One most preferred route for every normalised prefix of the table. *)
Record best_routes cmp t (l : list libbgp_rib_route_t) : Prop := {
  br_once : NoDup (norm_of <$> l);
  br_all r : r ∈ t → norm_of r ∈ norm_of <$> l;
  br_best r : r ∈ l → r ∈ t ∧
    (cmp = true → ∀ r', r' ∈ t → norm_of r' = norm_of r → memcmp (rank r) (rank r') <= 0)
}.

Lemma visit_note l seen : visit_snapshots note l seen = seen ++ l.
Proof.
  revert seen. induction l as [|r l IH]; intros seen; cbn [visit_snapshots note]; [by rewrite app_nil_r|].
  by rewrite IH, <-(assoc_L (++)).
Qed.

(** The best route of a group. *)
Definition group_best impl (g : bgp_hashmap_entry_t Prefix Z) r : Prop :=
  ∃ o best, ri_grp_mem impl !! e_value g = Some o ∧ ge_best o = Some best ∧ ro_route best = r.

Lemma runs_best_snapshots T impl gs : ∀ acc cap,
  Forall (λ g, ∃ r, group_best impl g r ∧ zlen (rr_attrs r) < 2 ^ 60) gs →
  zlen acc + zlen gs < 2 ^ 40 → (cap = 0 ∨ 64 <= cap) → zlen acc <= cap <= 2 ^ 41 →
  runs T (best_snapshots impl gs acc cap) (λ o,
    (o.2 = LIBBGP_OK ∧ ∃ l, o.1 = acc ++ l ∧ Forall2 (group_best impl) gs l) ∨
    (o.2 = LIBBGP_ERR_NOMEM ∧ T = false)).
Proof.
  induction gs as [|g gs IH]; intros acc cap Hgs Hlen Hc0 Hcap; cbn [best_snapshots].
  { apply runs_ret. left. split; [done|]. exists []. split; [by rewrite app_nil_r|constructor]. }
  apply Forall_cons in Hgs as [(r & (o & best & Ho & Hb & <-) & Hattrs) Hgs]. cbn [length] in Hlen.
  apply runs_bind. eapply runs_deref; [exact Ho|]. rewrite Hb. apply runs_bind.
  apply (runs_mono _ _ (λ x, match x with
    | inl (s, cap') => s = ro_route best ∧ (cap' = 0 ∨ 64 <= cap') ∧ zlen acc + 1 <= cap' <= 2 ^ 41
    | inr e => e = LIBBGP_ERR_NOMEM ∧ T = false end)).
  - apply runs_try_bind.
    apply (runs_mono _ _ (λ x, match x with
      | inl cap' => (cap' = 0 ∨ 64 <= cap') ∧ zlen acc + 1 <= cap' <= 2 ^ 41
      | inr e => e = LIBBGP_ERR_NOMEM ∧ T = false end)).
    + destruct (cap <=? zlen acc) eqn:Hle; [|intros s Hs; eexists _, _; split; [done|]; split; [split; lia|done]].
      destruct (fam_sizes (prefix_ok := prefix_ok) (addr_ok := addr_ok)) as [_ Hsz].
      assert (Hmax : SIZE_MAX / 2 = 2 ^ 63 - 1) by done. rewrite Hmax.
      assert (Hbig : 2 ^ 53 <= SIZE_MAX / sizeof_route).
      { apply Z.div_le_lower_bound; [lia|]. change SIZE_MAX with (2 ^ 64 - 1). nia. }
      set (next_cap := if cap =? 0 then 64 else u64 (cap * 2)).
      assert (Hnew : zlen acc + 1 <= next_cap <= 2 ^ 41 ∧ 64 <= next_cap).
      { unfold next_cap, u64. destruct (cap =? 0) eqn:Hz; [lia|]. rewrite Z.mod_small; lia. }
      replace (_ || _) with false by lia. apply runs_try_bind. cbn [fail_if].
      intros s Hs. eexists _, _. split; [done|]. split; [|done]. apply runs_try_bind.
      eapply runs_mono; [apply runs_try_alloc|]. cbn beta. intros [_|e] H; [|done].
      intros s' Hs'. eexists _, _. split; [done|]. split; [split; lia|done].
    + intros [cap'|e] H; [|done]. apply runs_try_bind. eapply runs_mono; [by apply runs_snapshot|].
      cbn beta. intros x [->|[-> HT]]; [|done]. intros s Hs. eexists _, _. split; [done|]. split; [|done]. by split.
  - intros [[s cap']|e] H; [|apply runs_ret; right; by destruct H as [-> ?]].
    destruct H as (-> & Hc' & Hcap'). eapply runs_mono; [apply (IH (acc ++ [ro_route best]) cap'); try done|].
    + rewrite length_app. cbn [length]. lia.
    + rewrite length_app. cbn [length]. lia.
    + intros [l e]. cbn [fst snd]. intros [(-> & l' & -> & Hl)|H]; [left|by right]. split; [done|].
      exists (ro_route best :: l'). split; [by rewrite <-(assoc_L (++))|]. constructor; [|done]. by exists o, best.
Qed.
(** What the index by prefix says of a group. *)
Lemma group_best_entry cmp impl R g :
  rib_rep cmp impl R → g ∈ concat (buckets (ri_lpm_groups impl)) →
  ∃ e, e ∈ R ∧ group_best impl g (route_of e) ∧ group_of e = e_key g ∧
    (cmp = true → ∀ e', e' ∈ R → group_of e' = e_key g → memcmp (rank (route_of e)) (rank (route_of e')) <= 0).
Proof.
  intros Hrep Hg. pose proof (rep_entries _ _ _ _ Hrep) as Hok. pose proof Hrep as [(_ & _ & Hi & _) _].
  assert (Hin : (e_key g, e_value g) ∈ contents (ri_lpm_groups impl)) by by apply (list_elem_of_fmap_2 pair_of).
  destruct (ix_obj _ _ _ _ _ _ _ _ Hi _ _ Hin) as (_ & o & Ho & (_ & _ & _ & best & Hb & Hbin & Hopt) & _ & Hents).
  pose proof (index_key_ok _ _ _ _ _ _ _ _ _ _ Hi Hin) as Hkok.
  assert (Hel : ∀ e, e ∈ ge_entries o ↔ e ∈ R ∧ group_of e = e_key g).
  { intros e. rewrite Hents. split.
    - intros [Hke He]%(elem_of_with_key group_of). split; [done|].
      apply (prefix_eq_ok prefix_ok addr_ok); [|done..]. by eapply group_ok, entries_ok_elem.
    - intros [He Hke]. apply (elem_of_group prefix_ok addr_ok); [done| |done]. by eapply group_ok, entries_ok_elem. }
  apply list_elem_of_fmap in Hbin as (e & -> & He). apply Hel in He as [He Hke]. exists e. split_and!; [done| |done|].
  - by exists o, (e_value e).
  - intros HT e' He' Hke'. apply (Hopt HT e'). by apply Hel.
Qed.

Lemma foreach_best_spec T cmp impl t :
  rib_ok cmp impl t → zlen t < 2 ^ 40 →
  runs T (bgp_rib_foreach_best_route note impl []) (λ o,
    (o.2 = LIBBGP_OK ∧ best_routes cmp t o.1) ∨ (o.2 = LIBBGP_ERR_NOMEM ∧ T = false)).
Proof.
  intros (Hwf & R & Hrep & HR) Hlen. pose proof (small_attrs _ _ Hwf HR) as Hsmall. rewrite Forall_forall in Hsmall.
  pose proof Hrep as [(_ & _ & Hi & _) _]. set (gs := concat (buckets (ri_lpm_groups impl))).
  assert (Hspec := λ g (Hg : g ∈ gs), group_best_entry cmp impl R g Hrep Hg).
  assert (Hkeys : e_key <$> gs = (contents (ri_lpm_groups impl)).*1) by (unfold contents; by rewrite <-list_fmap_compose).
  pose proof (index_small _ _ _ (prefix_eq_ok prefix_ok addr_ok) _ _ _ _ _ _ _ Hi) as Hn.
  assert (Hgl : zlen gs <= zlen t) by (rewrite <-HR, length_fmap; unfold contents in Hn; rewrite length_fmap in Hn; unfold gs; lia).
  unfold bgp_rib_foreach_best_route. apply runs_bind. eapply runs_mono.
  { apply (runs_best_snapshots T impl gs [] 0); cbn; [|lia|by left|lia].
    apply Forall_forall. intros g Hg. destruct (Hspec g Hg) as (e & He & Hb & _). exists (route_of e). split; [done|by apply Hsmall]. }
  intros [l e0]. cbn [fst snd]. intros [(-> & l' & -> & Hl)|[-> HT]]; apply runs_ret; [left|by right].
  cbn [fst snd app]. split; [done|]. rewrite visit_note. cbn [app].
  assert (Hbest : ∀ g r, g ∈ gs → group_best impl g r → norm_of r = e_key g ∧ r ∈ t ∧
    (cmp = true → ∀ r', r' ∈ t → norm_of r' = e_key g → memcmp (rank r) (rank r') <= 0)).
  { intros g r Hg (o & best & Ho & Hb & <-). destruct (Hspec g Hg) as (e & He & (o' & best' & Ho' & Hb' & Heq) & Hk & Hopt).
    simplify_eq. rewrite Heq. split; [exact Hk|]. split; [rewrite <-HR; by apply list_elem_of_fmap_2|].
    intros HT r' (e' & -> & He')%(rep_elem _ _ _ HR). by apply Hopt. }
  assert (Hnorm : norm_of <$> l' = e_key <$> gs).
  { clear -Hl Hbest. induction Hl as [|g r gs l Hg Hl IH]; [done|]. cbn.
    rewrite IH by (intros; apply Hbest; set_solver). f_equal. apply Hbest; [set_solver|done]. }
  split.
  - rewrite Hnorm, Hkeys. apply Hi.
  - intros r (e & -> & He)%(rep_elem _ _ _ HR). rewrite Hnorm, Hkeys.
    by destruct (ix_complete _ _ _ _ _ _ _ _ Hi e He).
  - intros r [i Hr]%list_elem_of_lookup. destruct (Forall2_lookup_r _ _ _ _ _ Hl Hr) as (g & Hg & Hgb).
    apply list_elem_of_lookup_2 in Hg. destruct (Hbest g r Hg Hgb) as (Hk & Hin & Hopt). split; [done|].
    intros HT r' Hr' Hke. apply Hopt; [done..|congruence].
Qed.
End RibForeach.
