(* ===== verification/RibTheorems.v ===== *)
(** * Routing tables: properties

    The properties of the routing tables for any address family that obeys
    [FamilyLaws]; [RibFamilies] shows that IPv4 and IPv6 do. *)

From stdpp Require Import gmap.
From S2P Require Import Prelude Bytes Prefix4 Prefix6 Radix Pattr As4 Hashmap HashmapSpec Rib RibTable RibDecision RibIndex RibInv RibRoutes RibSpec RibLookup RibFamilies Rib46 RibRefine RibBest RibJournal RibForeach.

Section Properties.
Context `{family : Family} {host : Host}.
Context (prefix_ok : Prefix -> Prop) (addr_ok : Addr -> Prop) `{!FamilyLaws prefix_ok addr_ok}.

(** C20: A routing table refines a list of routes with at most one route for a
    prefix and source.  A fresh table is empty.  On a table that holds the
    routes [t], and whatever the allocator answers, inserting a route replaces
    the one from the same source and prefix (a local route is refused
    instead), withdrawing takes out exactly that route, discarding a peer
    takes out exactly its routes, and the count and both longest-prefix
    lookups answer for [t]; the three indexes and the radix tree stay
    consistent, an operation that runs out of memory leaves the routes as they
    were, and it does so only when the allocator refused a request. *)
Theorem rib_refines_table (cmp : bool) :
  (∀ s, match libbgp_rib_init s with
        | (Ret impl, _) => rib_ok prefix_ok cmp impl []
        | (Err e, _) => e = LIBBGP_ERR_NOMEM ∧ s ≠ []
        | _ => False
        end) ∧
  (∀ impl t op s, rib_ok prefix_ok cmp impl t → rib_op_ok prefix_ok addr_ok cmp t op →
     ∃ impl' a s' t', rib_run impl op s = (Ret (impl', a), s') ∧ rib_ok prefix_ok cmp impl' t' ∧
       table_step cmp t op a t' ∧ (a = RErr LIBBGP_ERR_NOMEM → s ≠ [])).
Proof.
  split; [|intros; by apply (simulation prefix_ok addr_ok)].
  intros s. destruct (refine_init prefix_ok addr_ok (bool_decide (s = [])) cmp s) as (o & s' & He & Ho & _).
  { by intros ?%bool_decide_eq_true. }
  unfold try_call in He. destruct (libbgp_rib_init s) as [[impl|e|f] s1]; simplify_eq; [done|].
  destruct Ho as [-> Hb]. split; [done|]. by apply bool_decide_eq_false in Hb.
Qed.

(** C21: Longest-prefix match.  [libbgp_rib_lookup] answers a route of the
    longest prefix that covers the address, and NOT_FOUND exactly when no
    route does; when the MEDs of the routes of one prefix are comparable, no
    other route of that prefix is preferred to it.  It never faults and
    allocates nothing. *)
Theorem rib_lookup_longest (cmp : bool) impl t a s :
  rib_ok prefix_ok cmp impl t → addr_ok a →
  match libbgp_rib_lookup impl a s with
  | (Ret r, s') => s' = s ∧ r ∈ t ∧ covers a r ∧
      ∀ r', r' ∈ t → covers a r' →
        prefix_len (rr_prefix r') <= prefix_len (rr_prefix r) ∧
        (cmp = true → prefix_len (rr_prefix r') = prefix_len (rr_prefix r) → rib_better r' r = false)
  | (Err e, s') => s' = s ∧ e = LIBBGP_ERR_NOT_FOUND ∧ ∀ r, r ∈ t → ¬ covers a r
  | (Fault _, _) => False
  end.
Proof.
  intros (_ & R & Hrep & HR) Ha. pose proof (lookup_answers prefix_ok addr_ok cmp impl R a Hrep Ha s) as Hl.
  destruct (libbgp_rib_lookup impl a s) as [[r|e|f] s']; [| |done].
  2:{ destruct Hl as (-> & -> & Hno). split_and!; [done..|]. intros r. rewrite <-HR. apply Hno. }
  destruct Hl as (-> & Hin & Hc & Hmax). split_and!; [done|by rewrite <-HR|done|].
  intros r' Hr' Hc'. rewrite <-HR in Hr'. destruct (Hmax r' Hr' Hc') as [Hlen Hrank]. split; [done|].
  intros HT Heq. specialize (Hrank HT Heq). rewrite better_rank.
  - pose proof (rank_antisym r r'). lia.
  - apply list_elem_of_fmap in Hin as (e & -> & He), Hr' as (e' & -> & He').
    pose proof (rep_entries _ _ _ _ Hrep) as Hok. destruct Hrep as [_ Hcmp]. apply Hcmp; [done..|].
    by eapply (covers_group prefix_ok addr_ok _ _ e e' a); first [eapply entries_ok_elem|done].
Qed.

(** C22: The report of a tracked insertion.  When it succeeds, the table is the
    table with the route inserted and the change tells what happened to the
    best route of the prefix: a first route, a new best route, or the same
    best route as before.  A failure reports no change. *)
Theorem rib_insert_reports_change T cmp impl t route plain snapshot :
  rib_ok prefix_ok cmp impl t → rib_op_ok prefix_ok addr_ok cmp t (RibInsert route) →
  runs T (bgp_rib_insert_track_best_save_replaced impl route plain snapshot)
    (tracked_insert prefix_ok T cmp t route).
Proof. apply (insert_track_spec prefix_ok addr_ok). Qed.

(** The report of a tracked withdrawal: unreachable when no route for the
    prefix is left, a replacement when the best route was withdrawn, and
    otherwise no change of the best route. *)
Theorem rib_withdraw_reports_change T cmp impl t src k :
  rib_ok prefix_ok cmp impl t → prefix_ok k →
  runs T (bgp_rib_withdraw_track_best impl src k) (tracked_withdraw prefix_ok cmp impl t src k).
Proof. apply (withdraw_track_spec prefix_ok addr_ok). Qed.

(** Saving and restoring.  Withdrawing a route with
    [bgp_rib_withdraw_exact_save] and putting it back with
    [bgp_rib_restore_saved_if_absent] gives back the table, unless the
    allocator refuses, in which case the caller keeps the route and the table
    is the one without it. *)
Theorem rib_save_restore_roundtrip T cmp impl t src k :
  rib_ok prefix_ok cmp impl t → prefix_ok k → zlen t < 2 ^ 40 →
  runs T ('(impl1, saved) ← bgp_rib_withdraw_exact_save impl src k;
          '(impl2, e, kept) ← bgp_rib_restore_saved_if_absent impl1 src saved;
          mret (impl2, e, saved, kept))
    (λ '(impl2, e, saved, kept),
       match saved with
       | None => impl2 = impl ∧ e = LIBBGP_OK ∧ kept = None ∧ ∀ r, r ∈ t → slot r ≠ (k, src)
       | Some entry => slot (route_of entry) = (k, src) ∧
           ((e = LIBBGP_OK ∧ kept = None ∧ rib_ok prefix_ok cmp impl2 t) ∨
            (e = LIBBGP_ERR_NOMEM ∧ T = false ∧ kept = saved ∧
               ∃ t', t ≡ₚ route_of entry :: t' ∧ rib_ok prefix_ok cmp impl2 t'))
       end).
Proof.
  intros Hok Hk Hlen. apply runs_bind. eapply runs_mono; [by apply (withdraw_save_spec prefix_ok addr_ok T cmp impl t)|].
  intros [impl1 [entry|]]; unfold saved_route; cbn [fst snd].
  - intros (t' & Hslot & Ht & Hsaved). assert (Hsrc : src = src_of entry) by by injection Hslot.
    assert (Hlen' : zlen t' < 2 ^ 40) by (rewrite Ht in Hlen; cbn in Hlen; lia).
    rewrite Hsrc. apply runs_bind. eapply runs_mono; [by apply (restore_spec prefix_ok addr_ok T cmp impl1 t')|].
    intros [[impl2 e] kept]. cbn [fst snd]. intros [(-> & -> & Hok2)|(-> & HT & -> & Hok2)]; apply runs_ret.
    + split; [by rewrite <-Hsrc|]. left. split_and!; [done|done|]. destruct Hok2 as (Hwf & R & Hrep & HR).
      split; [by rewrite Ht|]. exists R. split; [done|]. by rewrite Ht.
    + split; [by rewrite <-Hsrc|]. right. split_and!; [done..|]. by eauto.
  - intros [-> Hno]. apply runs_bind. apply runs_ret. by apply runs_ret.
Qed.

(** C32: Discarding a peer.  The routes of the peer leave the table, and of the
    prefixes whose best route was from the peer exactly those without another
    route are reported withdrawn, each once, and exactly the best routes of
    the others are reported as replacements. *)
Theorem rib_discard_reports_lost T impl t src :
  rib_ok prefix_ok true impl t → zlen t < 2 ^ 40 →
  runs T (bgp_rib_discard_collect impl src) (λ o,
    let t' := filter (λ r, ¬ from src r) t in
    match o.2 with
    | inl d => rib_ok prefix_ok true o.1 t' ∧ collected t t' src d
    | inr e => e = LIBBGP_ERR_NOMEM ∧ T = false ∧ (o.1 = impl ∨ rib_ok prefix_ok true o.1 t')
    end).
Proof. apply (discard_collect_spec prefix_ok addr_ok). Qed.

(** C33: Iteration.  [bgp_rib_foreach_route] visits every route of the table
    once, and destroying the table frees every route once;
    [bgp_rib_foreach_best_route] visits, for every normalised prefix, one route
    of it that, with comparable MEDs, no other is preferred to. *)
Theorem rib_foreach_complete T cmp impl t :
  rib_ok prefix_ok cmp impl t → zlen t < 2 ^ 40 →
  bgp_rib_foreach_route note impl [] ≡ₚ t ∧ ro_route ∘ snd <$> (libbgp_rib_destroy impl).2 ≡ₚ t ∧
  runs T (bgp_rib_foreach_best_route note impl []) (λ o,
    (o.2 = LIBBGP_OK ∧ best_routes cmp t o.1) ∨ (o.2 = LIBBGP_ERR_NOMEM ∧ T = false)).
Proof. intros Hok Hlen. split_and!; [by eapply foreach_route_spec|by eapply destroy_routes|by apply (foreach_best_spec prefix_ok addr_ok)]. Qed.

(** C34: The decision process is a strict total preference on routes with
    comparable MEDs, whatever the caches of the neighbour AS hold: it compares
    weight, LOCAL_PREF, AS_PATH length, origin, MED, eBGP over iBGP, age and
    router id in this order. *)
Theorem rib_better_is_order a ca b cb :
  cache_ok a ca → cache_ok b cb → comparable a b →
  (rib_better_cached a ca b cb).1.1 = (memcmp (rank a) (rank b) <? 0).
Proof. intros Ha Hb Hc. by rewrite (proj1 (better_cached_spec a ca b cb Ha Hb)), better_rank. Qed.
End Properties.

(** ** Incomparable MEDs *)

#[local] Existing Instance little_endian_host.

(** A route for 10.0.0.0/8 through the neighbouring AS [asn]. *)
Definition route4 (k : libbgp_prefix4_t) (src : Z) (is_ibgp : bool) (med update_id asn : Z) : libbgp_rib4_route_t :=
  RibRoute (family := family4) k src 0 0 is_ibgp 100 med 0 1 asn update_id
    [Pattr 64 2 (d_as_path [Segment 2 [asn]] true)].

Definition med_a : libbgp_rib4_route_t := route4 p4_10_8 1 true 1 3 65001.
Definition med_b : libbgp_rib4_route_t := route4 p4_10_8 2 false 2 2 65001.
Definition med_c : libbgp_rib4_route_t := route4 p4_10_8 3 true 0 1 65002.

Definition med_table : M rib4_impl_t :=
  rib ← libbgp_rib4_init;
  '(rib, _) ← libbgp_rib4_insert rib med_c;
  '(rib, _) ← libbgp_rib4_insert rib med_b;
  '(rib, _) ← libbgp_rib4_insert rib med_a;
  mret rib.

(** Without comparable MEDs the preference has cycles, and the two ways in
    which the table selects a best route disagree: of three routes for one
    prefix, each preferred to the next, the lookup answers the first while the
    exact selection, which drives the announcements, answers the third. *)
Theorem rib_med_cycle :
  rib_better (family := family4) med_a med_b = true ∧ rib_better (family := family4) med_b med_c = true ∧
  rib_better (family := family4) med_c med_a = true ∧
  ((rib ← med_table; r ← libbgp_rib4_lookup rib 10; mret (rr_source_router_id r)) [] =
     (Ret (rr_source_router_id med_a), [])) ∧
  ((rib ← med_table; r ← bgp_rib4_best_exact_clone rib p4_10_8; mret (rr_source_router_id <$> r)) [] =
     (Ret (Some (rr_source_router_id med_c)), [])).
Proof. split_and!; vm_compute; reflexivity. Qed.

(** ** Witnesses *)

Section Demo.
Context `{family : Family}.
Context (prefix_ok : Prefix -> Prop) (addr_ok : Addr -> Prop) `{!FamilyLaws prefix_ok addr_ok}.

(** With memory to spare, inserting into a free slot adds the route. *)
Lemma insert_free_slot cmp impl t route :
  rib_ok prefix_ok cmp impl t → rib_op_ok prefix_ok addr_ok cmp t (RibInsert route) →
  (∀ r, r ∈ t → slot r ≠ slot route) →
  ∃ impl', libbgp_rib_insert impl route [] = (Ret (impl', LIBBGP_OK), []) ∧
    rib_ok prefix_ok cmp impl' (stored_route impl route :: t).
Proof.
  intros (Hwf & R & Hrep & HR) (Hk & Hrt & Hlen & Hcmp) Hfree.
  destruct (runs_insert_route prefix_ok addr_ok true cmp impl R route true Hrep Hk) with (s := @nil bool)
    as ([impl' res] & s' & Hrun & Hins & Hs'); [apply Hrt| | |done|].
  { rewrite <-HR, length_fmap in Hlen. lia. }
  { intros HT e He Hg. apply Hcmp; [done| |done]. rewrite <-HR. by apply list_elem_of_fmap_2. }
  exists impl'. unfold libbgp_rib_insert, mbind, M_bind. rewrite Hrun.
  assert (Hno : ∀ e, e ∈ R → ¬ (e_key e = rr_prefix route ∧ src_of e = rr_source_router_id route)).
  { intros e He [H1 H2]. apply (Hfree (route_of e)); [rewrite <-HR; by apply list_elem_of_fmap_2|].
    rewrite (rep_slot _ _ _ _ _ Hrep He). unfold slot. congruence. }
  destruct Hins as [(_ & _ & _ & e & He & Hs)|[(_ & _ & ? & _)|(new & Hnew & _ & He & _ & Hrest)]]; [by destruct (Hno e He)|done|].
  cbn [fst snd] in *. rewrite He, Hs' by done. split; [done|]. destruct (ir_replaced res) as [old|].
  - destruct Hrest as (Hs & _ & R' & HR' & _). destruct (Hno old); [rewrite HR'; set_solver|done].
  - destruct Hrest as [_ Hrep']. split; [|exists (new :: R); split; [done|]; cbn; by rewrite Hnew, HR].
    apply table_wf_cons. split_and!; [exact Hfree|exact Hrt|done].
Qed.

Lemma empty_table cmp : ∃ impl, libbgp_rib_init [] = (Ret impl, []) ∧ rib_ok prefix_ok cmp impl [].
Proof.
  destruct (refine_init prefix_ok addr_ok true cmp []) as (o & s' & He & Ho & Hs'); [done|].
  unfold try_call in He. destruct (libbgp_rib_init []) as [[impl|e|f] s1]; simplify_eq; [|by destruct Ho].
  exists impl. by rewrite Hs'.
Qed.
End Demo.

(** 10.0.0.0/8 from two peers and 10.1.2.0/23 from the first. *)
Definition demo_a : libbgp_rib4_route_t := route4 p4_10_8 1 false 0 1 65001.
Definition demo_b : libbgp_rib4_route_t := route4 p4_10_8 2 false 0 2 65002.
Definition demo_c : libbgp_rib4_route_t := route4 p4_10_1_2_0_23 1 false 0 3 65001.

Definition demo4 : M rib4_impl_t :=
  rib ← libbgp_rib4_init;
  '(rib, _) ← libbgp_rib4_insert rib demo_a;
  '(rib, _) ← libbgp_rib4_insert rib demo_b;
  '(rib, _) ← libbgp_rib4_insert rib demo_c;
  mret rib.

(** The demonstration routes may be inserted into one another's tables. *)
Ltac demo_op :=
  split; [apply p4_examples_wf|]; split; [split; [unfold is_u32; vm_compute; split; [discriminate|reflexivity]|vm_compute; reflexivity]|];
  split; [vm_compute; reflexivity|];
  let r := fresh "r" in let H := fresh "H" in
  intros _ r H _; left; repeat (apply elem_of_cons in H as [->|H]; [reflexivity|]); by apply elem_of_nil in H.

Ltac demo_free :=
  let r := fresh "r" in let H := fresh "H" in
  intros r H; repeat (apply elem_of_cons in H as [->|H]; [discriminate|]); by apply elem_of_nil in H.

Lemma demo4_ok : ∃ rib, demo4 [] = (Ret rib, []) ∧ rib_ok (family := family4) p4_wf true rib [demo_c; demo_b; demo_a].
Proof.
  destruct (empty_table (family := family4) p4_wf is_u32 true) as (i0 & H0 & Hok0).
  destruct (insert_free_slot (family := family4) p4_wf is_u32 true i0 [] demo_a Hok0) as (i1 & H1 & Hok1); [demo_op|demo_free|].
  destruct (insert_free_slot (family := family4) p4_wf is_u32 true i1 [demo_a] demo_b Hok1) as (i2 & H2 & Hok2); [demo_op|demo_free|].
  destruct (insert_free_slot (family := family4) p4_wf is_u32 true i2 [demo_b; demo_a] demo_c Hok2) as (i3 & H3 & Hok3); [demo_op|demo_free|].
  exists i3. split; [|exact Hok3]. unfold demo4, libbgp_rib4_init, libbgp_rib4_insert, mbind, M_bind. by rewrite H0, H1, H2, H3.
Qed.

Lemma rib_refines_table_witness :
  ∃ rib rib' a s' t', demo4 [] = (Ret rib, []) ∧
    rib_run (family := family4) rib (RibWithdraw (family := family4) 1 p4_10_8) [] = (Ret (rib', a), s') ∧
    rib_ok (family := family4) p4_wf true rib' t' ∧
    table_step (family := family4) true [demo_c; demo_b; demo_a] (RibWithdraw (family := family4) 1 p4_10_8) a t'.
Proof.
  destruct demo4_ok as (rib & Hrun & Hok).
  destruct (proj2 (rib_refines_table (family := family4) p4_wf is_u32 true) rib _ (RibWithdraw (family := family4) 1 p4_10_8) [] Hok)
    as (rib' & a & s' & t' & H1 & H2 & H3 & _); [apply p4_examples_wf|].
  exists rib, rib', a, s', t'. split_and!; assumption.
Defined.

(** 10.1.2.0 is covered by both prefixes. *)
Lemma rib_lookup_longest_witness :
  ∃ rib, demo4 [] = (Ret rib, []) ∧
    match libbgp_rib_lookup (family := family4) rib (10 + 256 + 65536 * 2) [] with
    | (Ret r, s') => s' = [] ∧ r ∈ [demo_c; demo_b; demo_a] ∧ 23 <= prefix_len (rr_prefix r)
    | _ => False
    end.
Proof.
  destruct demo4_ok as (rib & Hrun & Hok). exists rib. split; [exact Hrun|].
  assert (Hc : demo_c ∈ [demo_c; demo_b; demo_a]) by apply list_elem_of_here.
  assert (Hcov : covers (family := family4) (10 + 256 + 65536 * 2) demo_c) by (vm_compute; reflexivity).
  pose proof (rib_lookup_longest (family := family4) p4_wf is_u32 true rib _ (10 + 256 + 65536 * 2) [] Hok) as H.
  destruct (libbgp_rib_lookup rib _ []) as [[r|e|f] s']; cbn beta iota in H.
  - destruct H as (-> & Hin & _ & Hmax); [unfold is_u32; lia|]. destruct (Hmax demo_c Hc Hcov) as [Hlen _].
    exact (conj eq_refl (conj Hin Hlen)).
  - destruct H as (_ & _ & Hno); [unfold is_u32; lia|]. exact (Hno demo_c Hc Hcov).
  - apply H. unfold is_u32. lia.
Defined.

Definition demo_d : libbgp_rib4_route_t := route4 p4_10_8 3 false 0 4 65003.

Lemma demo_d_ok :
  rib_op_ok (family := family4) p4_wf is_u32 true [demo_c; demo_b; demo_a] (RibInsert (family := family4) demo_d).
Proof. demo_op. Qed.

Lemma rib_insert_reports_change_witness :
  ∃ rib, demo4 [] = (Ret rib, []) ∧
    runs true (bgp_rib_insert_track_best_save_replaced (family := family4) rib demo_d false true)
      (tracked_insert (family := family4) p4_wf true true [demo_c; demo_b; demo_a] demo_d).
Proof.
  destruct demo4_ok as (rib & Hrun & Hok). exists rib. split; [exact Hrun|].
  exact (rib_insert_reports_change (family := family4) p4_wf is_u32 true true rib _ demo_d false true Hok demo_d_ok).
Defined.

Lemma rib_withdraw_reports_change_witness :
  ∃ rib, demo4 [] = (Ret rib, []) ∧
    runs true (bgp_rib_withdraw_track_best (family := family4) rib 1 p4_10_8)
      (tracked_withdraw (family := family4) p4_wf true rib [demo_c; demo_b; demo_a] 1 p4_10_8).
Proof.
  destruct demo4_ok as (rib & Hrun & Hok). exists rib. split; [exact Hrun|].
  exact (rib_withdraw_reports_change (family := family4) p4_wf is_u32 true true rib _ 1 p4_10_8 Hok (proj2 p4_examples_wf)).
Defined.

(** With memory to spare the route is taken out and put back. *)
Lemma rib_save_restore_roundtrip_witness :
  ∃ rib rib' saved, demo4 [] = (Ret rib, []) ∧
    ('(impl1, saved) ← bgp_rib_withdraw_exact_save (family := family4) rib 1 p4_10_8;
     '(impl2, e, kept) ← bgp_rib_restore_saved_if_absent impl1 1 saved;
     mret (impl2, e, saved, kept)) [] = (Ret (rib', LIBBGP_OK, Some saved, None), []) ∧
    rib_ok (family := family4) p4_wf true rib' [demo_c; demo_b; demo_a].
Proof.
  destruct demo4_ok as (rib & Hrun & Hok).
  destruct (rib_save_restore_roundtrip (family := family4) p4_wf is_u32 true true rib _ 1 p4_10_8 Hok) with (s := @nil bool)
    as ([[[rib' e] [saved|]] kept] & s' & He & H & Hs'); [apply p4_examples_wf|vm_compute; reflexivity|done| |].
  - exists rib, rib', saved. rewrite He, Hs' by done. destruct H as (_ & [(-> & -> & Hok')|(_ & ? & _)]); [|done].
    split_and!; [exact Hrun|done|exact Hok'].
  - exfalso. destruct H as (_ & _ & _ & Hno). apply (Hno demo_a); [|reflexivity]. do 2 right. left.
Defined.

Lemma rib_discard_reports_lost_witness :
  ∃ rib, demo4 [] = (Ret rib, []) ∧
    runs true (bgp_rib_discard_collect (family := family4) rib 1) (λ o,
      match o.2 with
      | inl d => collected (family := family4) [demo_c; demo_b; demo_a] (filter (λ r, ¬ from 1 r) [demo_c; demo_b; demo_a]) 1 d
      | inr _ => False
      end).
Proof.
  destruct demo4_ok as (rib & Hrun & Hok). exists rib. split; [exact Hrun|].
  eapply runs_mono; [apply (rib_discard_reports_lost (family := family4) p4_wf is_u32 true rib _ 1 Hok); vm_compute; reflexivity|].
  cbn beta zeta. intros [rib' [d|e]]; cbn [snd]; [by intros [_ ?]|by intros (_ & ? & _)].
Defined.

Lemma rib_foreach_complete_witness :
  ∃ rib, demo4 [] = (Ret rib, []) ∧
    bgp_rib_foreach_route (family := family4) note rib [] ≡ₚ [demo_c; demo_b; demo_a].
Proof.
  destruct demo4_ok as (rib & Hrun & Hok). exists rib. split; [exact Hrun|].
  apply (rib_foreach_complete (family := family4) p4_wf is_u32 true true rib _ Hok). vm_compute. reflexivity.
Defined.

Lemma rib_better_is_order_witness :
  (rib_better_cached (family := family4) demo_a (NeighborCache 65001 true true) demo_b empty_cache).1.1 = true ∧
  (memcmp (rank (family := family4) demo_a) (rank (family := family4) demo_b) <? 0) = true.
Proof.
  split; [|vm_compute; reflexivity].
  rewrite (rib_better_is_order (family := family4) demo_a (NeighborCache 65001 true true) demo_b empty_cache).
  - vm_compute. reflexivity.
  - intros _. vm_compute. split; reflexivity.
  - intros H. discriminate H.
  - left. reflexivity.
Defined.
