(* ===== verification/RibSteady.v ===== *)
(** * One refused allocation

    An allocator that refuses once: what a computation does after the refusal
    is what it does when memory is there.  [steady] says that a computation
    notices a refusal only by being refused: as long as its requests are
    granted it behaves as if all of them were.  Every table operation is
    steady, so what holds with a generous allocator and what holds with every
    allocator also give what holds with one that refuses once ([under]). *)

From stdpp Require Import gmap.
From S2P Require Import Prelude Bytes Radix Pattr Update As4 Hashmap Rib RibTable.

(** [n] requests are granted and the next one is not; all later ones are. *)
Definition refuse_at (n : nat) : list bool := replicate n true ++ [false].

Definition once (s : list bool) : Prop := s = [] ∨ ∃ n, s = refuse_at n.

Definition steady {A} (m : M A) : Prop :=
  (m []).2 = [] ∧
  ∀ n, (m (refuse_at n)).2 = [] ∨
       (∃ k, (m (refuse_at n)).2 = refuse_at k) ∧ (m (refuse_at n)).1 = (m []).1.

Lemma steady_pure {A} (m : M A) o : (∀ s, m s = (o, s)) → steady m.
Proof. intros Hm. split; [by rewrite Hm|]. intros n. right. rewrite !Hm. split; [by eexists|done]. Qed.

Lemma steady_ret {A} (a : A) : steady (mret a).
Proof. by eapply steady_pure. Qed.
Lemma steady_err {A} e : steady (A := A) (err e).
Proof. by eapply steady_pure. Qed.
Lemma steady_stuck {A} f : steady (A := A) (stuck f).
Proof. by eapply steady_pure. Qed.
Lemma steady_fail_if c e : steady (fail_if c e).
Proof. destruct c; by eapply steady_pure. Qed.

Lemma steady_alloc : steady bgp_alloc.
Proof.
  split; [done|]. intros [|n]; [by left|]. right. split; [by exists n|done].
Qed.

Lemma steady_bind {A B} (m : M A) (k : A -> M B) : steady m → (∀ a, steady (k a)) → steady (m ≫= k).
Proof.
  intros [Hm0 Hm] Hk. unfold steady, mbind, M_bind. destruct (m []) as [o t]. cbn [fst snd] in *. subst t.
  split; [destruct o; [apply Hk|done..]|]. intros n. specialize (Hm n).
  destruct (m (refuse_at n)) as [o' s']. cbn [fst snd] in Hm.
  destruct Hm as [->|[[j ->] ->]].
  - left. destruct o'; [apply Hk|done..].
  - destruct o; [apply Hk|right; split; [by exists j|done]..].
Qed.

Lemma steady_alloc_or_nomem : steady alloc_or_nomem.
Proof.
  unfold alloc_or_nomem. apply steady_bind; [apply steady_alloc|]. intros []; [apply steady_ret|apply steady_err].
Qed.

Lemma steady_try {A} (m : M A) : steady m → steady (try_call m).
Proof.
  intros [Hm0 Hm]. unfold steady, try_call. destruct (m []) as [o t]. cbn [fst snd] in *. subst t.
  split; [by destruct o|]. intros n. specialize (Hm n). destruct (m (refuse_at n)) as [o' s']. cbn [fst snd] in Hm.
  destruct Hm as [->|[[j ->] ->]]; [left; by destruct o'|]. right. destruct o; (split; [by exists j|done]).
Qed.

Create HintDb steady.
#[export] Hint Resolve steady_ret steady_err steady_stuck steady_fail_if steady_alloc steady_alloc_or_nomem
  steady_try : steady.

(** A body built from steady parts. *)
Ltac steady :=
  repeat first
    [ solve [eauto 2 with steady]
    | progress intros
    | apply steady_bind
    | apply steady_try
    | case_match
    | progress cbn beta iota ].

(** ** Three allocators *)

Inductive allocator : Type := Generous | RefusesOnce | Arbitrary.

Definition allows (al : allocator) (s : list bool) : Prop :=
  match al with
  | Generous => s = []
  | RefusesOnce => once s
  | Arbitrary => True
  end.

(** What is left of it after a refusal. *)
Definition refused (al : allocator) : option allocator :=
  match al with
  | Generous => None
  | RefusesOnce => Some Generous
  | Arbitrary => Some Arbitrary
  end.

(** [m] returns a value that, with the allocator left, satisfies [Q]. *)
Definition under {A} (al : allocator) (m : M A) (Q : allocator -> A -> Prop) : Prop :=
  ∀ s, allows al s → ∃ a s' al', m s = (Ret a, s') ∧ allows al' s' ∧ Q al' a.

Lemma under_ret {A} al (a : A) (Q : allocator -> A -> Prop) : Q al a → under al (mret a) Q.
Proof. intros HQ s Hs. by exists a, s, al. Qed.

Lemma under_bind {A B} al (m : M A) (k : A -> M B) (Q : allocator -> B -> Prop) :
  under al m (λ al' a, under al' (k a) Q) → under al (m ≫= k) Q.
Proof.
  intros Hm s Hs. destruct (Hm s Hs) as (a & s' & al' & He & Hs' & Hk).
  unfold mbind, M_bind. rewrite He. by apply Hk.
Qed.

Lemma under_mono {A} al (m : M A) (Q Q' : allocator -> A -> Prop) :
  under al m Q → (∀ al' a, Q al' a → Q' al' a) → under al m Q'.
Proof. intros Hm HQ s Hs. destruct (Hm s Hs) as (a & s' & al' & ? & ? & ?). exists a, s', al'. auto. Qed.

Lemma under_if {A} al (c : bool) (m1 m2 : M A) (Q : allocator -> A -> Prop) :
  (c = true → under al m1 Q) → (c = false → under al m2 Q) → under al (if c then m1 else m2) Q.
Proof. destruct c; auto. Qed.

Lemma under_pure {A} al (m : M A) a (Q : allocator -> A -> Prop) : (∀ s, m s = (Ret a, s)) → Q al a → under al m Q.
Proof. intros Hm HQ s Hs. exists a, s, al. by rewrite Hm. Qed.

(** What holds with the generous allocator and what holds with every one give
    what holds with each of the three. *)
Lemma under_steady {A} al (m : M A) (Q : bool -> A -> Prop) :
  steady m → (∀ T, runs T m (Q T)) →
  under al m (λ al' a, (al' = al ∧ Q true a) ∨ (refused al = Some al' ∧ Q false a)).
Proof.
  intros [Hs0 Hs] HQ s Hal. destruct al; cbn [allows refused] in *.
  - subst s. destruct (HQ true [] (λ _, eq_refl)) as (a & s' & He & Ha & Hs'). exists a, s', Generous. rewrite Hs'; [|done].
    split; [by rewrite He, Hs'|]. split; [done|by left].
  - destruct Hal as [->|[n ->]].
    + destruct (HQ true [] (λ _, eq_refl)) as (a & s' & He & Ha & Hs'). exists a, s', RefusesOnce. rewrite Hs'; [|done].
      split; [by rewrite He, Hs'|]. split; [by left|by left].
    + destruct (HQ false (refuse_at n)) as (a & s' & He & Ha & _); [done|]. specialize (Hs n). rewrite He in Hs. cbn [fst snd] in Hs.
      destruct Hs as [->|[[k ->] Ho]]; [exists a, [], Generous; split_and!; [done|done|by right]|].
      destruct (HQ true [] (λ _, eq_refl)) as (a' & s1 & He' & Ha' & _). rewrite He' in Ho. simplify_eq/=.
      exists a', (refuse_at k), RefusesOnce. split; [done|]. split; [right; by exists k|by left].
  - destruct (HQ false s) as (a & s' & He & Ha & _); [done|]. exists a, s', Arbitrary. split_and!; [done|done|by right].
Qed.

(** ** The operations are steady *)

Section Steady.
Context `{family : Family} {host : Host}.

Lemma steady_deref {A} (mem : gmap Z A) p : steady (deref mem p).
Proof. unfold deref. steady. Qed.
#[local] Hint Resolve steady_deref : steady.

Section SteadyMap.
Context {Key Value : Type} `{HashKey Key} `{Pointer Value}.
Implicit Types (map : bgp_hashmap_t Key Value) (bs : list (list (bgp_hashmap_entry_t Key Value))).

Lemma steady_bucket_index h n : steady (bucket_index h n).
Proof. unfold bucket_index. steady. Qed.
Lemma steady_bucket_at bs i : steady (bucket_at bs i).
Proof. unfold bucket_at. steady. Qed.
#[local] Hint Resolve steady_bucket_index steady_bucket_at : steady.
Lemma steady_push_entry bs n (e : bgp_hashmap_entry_t Key Value) : steady (push_entry bs n e).
Proof. unfold push_entry. steady. Qed.
#[local] Hint Resolve steady_push_entry : steady.
Lemma steady_rehash_chain bs n (chain : list (bgp_hashmap_entry_t Key Value)) : steady (rehash_chain bs n chain).
Proof. revert bs. induction chain; intros bs; cbn [rehash_chain]; steady. Qed.
#[local] Hint Resolve steady_rehash_chain : steady.
Lemma steady_rehash_buckets bs n old : steady (rehash_buckets bs n old).
Proof. revert bs. induction old; intros bs; cbn [rehash_buckets]; steady. Qed.
#[local] Hint Resolve steady_rehash_buckets : steady.
Lemma steady_resize map n : steady (hashmap_resize map n).
Proof. unfold hashmap_resize, hashmap_alloc_buckets. steady. Qed.
#[local] Hint Resolve steady_resize : steady.
Lemma steady_insert map k v : steady (bgp_hashmap_insert map k v).
Proof. unfold bgp_hashmap_insert. steady. Qed.
Lemma steady_remove map k v : steady (bgp_hashmap_remove_one map k v).
Proof. unfold bgp_hashmap_remove_one. steady. Qed.
Lemma steady_find map k : steady (bgp_hashmap_find_first map k).
Proof. unfold bgp_hashmap_find_first. steady. Qed.
End SteadyMap.
#[local] Hint Resolve steady_bucket_index steady_bucket_at steady_insert steady_remove steady_find : steady.

Lemma steady_radix_loop ds nd path (v : option route_ptr) : steady (insert_loop ds nd path v).
Proof. revert nd path. induction ds; intros nd path; cbn [insert_loop]; steady. Qed.
#[local] Hint Resolve steady_radix_loop : steady.
Lemma steady_radix_insert tree (addr : Addr) len (v : option route_ptr) :
  steady (radix_insert (V := route_ptr) width radix_bit tree addr len v).
Proof. unfold radix_insert. steady. Qed.
#[local] Hint Resolve steady_radix_insert : steady.

Lemma steady_grow count cap : steady (grow_pointers count cap).
Proof. unfold grow_pointers. steady. Qed.
Lemma steady_source_find impl id : steady (rib_source_index_find impl id).
Proof. unfold rib_source_index_find. steady. Qed.
#[local] Hint Resolve steady_grow steady_source_find : steady.
Lemma steady_source_add impl e : steady (rib_source_index_add impl e).
Proof. unfold rib_source_index_add. steady. Qed.
Lemma steady_source_remove impl e : steady (rib_source_index_remove impl e).
Proof. unfold rib_source_index_remove. steady. Qed.
Lemma steady_clone impl route : steady (rib_route_clone impl route).
Proof. unfold rib_route_clone. steady. Qed.
Lemma steady_routes_bucket impl h : steady (routes_bucket impl h).
Proof. unfold routes_bucket. steady. Qed.
#[local] Hint Resolve steady_source_add steady_source_remove steady_clone steady_routes_bucket : steady.
Lemma steady_unlink impl e : steady (rib_route_entry_unlink_locked impl e).
Proof. unfold rib_route_entry_unlink_locked. steady. Qed.
Lemma steady_find_value impl k v : steady (rib_entry_find_value_locked impl k v).
Proof. unfold rib_entry_find_value_locked. steady. Qed.
Lemma steady_find_locked impl src k : steady (rib_find_locked impl src k).
Proof. unfold rib_find_locked. steady. Qed.
Lemma steady_best_exact impl k : steady (rib_best_exact_locked impl k).
Proof. unfold rib_best_exact_locked. steady. Qed.
Lemma steady_group_find impl k : steady (rib_lpm_group_find_locked impl k).
Proof. unfold rib_lpm_group_find_locked. steady. Qed.
Lemma steady_group_remove impl p : steady (rib_lpm_group_remove_locked impl p).
Proof. unfold rib_lpm_group_remove_locked. steady. Qed.
Lemma steady_tree_insert impl k v : steady (tree_insert impl k v).
Proof. unfold tree_insert. steady. Qed.
#[local] Hint Resolve steady_unlink steady_find_value steady_find_locked steady_best_exact steady_group_find
  steady_group_remove steady_tree_insert : steady.
Lemma steady_lpm_remove impl e : steady (rib_lpm_index_remove_locked impl e).
Proof. unfold rib_lpm_index_remove_locked. steady. Qed.
Lemma steady_group_push impl p g c e : steady (lpm_group_push impl p g c e).
Proof. unfold lpm_group_push. steady. Qed.
#[local] Hint Resolve steady_lpm_remove steady_group_push : steady.
Lemma steady_lpm_add impl e : steady (rib_lpm_index_add_locked impl e).
Proof. unfold rib_lpm_index_add_locked. steady. Qed.
#[local] Hint Resolve steady_lpm_add : steady.
Lemma steady_withdraw_locked impl src k : steady (rib_withdraw_locked impl src k).
Proof. unfold rib_withdraw_locked. steady. Qed.
Lemma steady_detach_matching impl k c : steady (detach_matching impl k c).
Proof. unfold detach_matching. steady. Qed.
#[local] Hint Resolve steady_withdraw_locked steady_detach_matching : steady.
Lemma steady_attach impl e : steady (rib_attach_detached_locked impl e).
Proof. unfold rib_attach_detached_locked. steady. Qed.
Lemma steady_link impl copy : steady (link_route impl copy).
Proof. unfold link_route. steady. Qed.
#[local] Hint Resolve steady_attach steady_link : steady.
Lemma steady_insert_locked impl route plain : steady (rib_insert_save_replaced_locked impl route plain).
Proof. unfold rib_insert_save_replaced_locked, rib_detach_value_locked. steady. Qed.
Lemma steady_snapshot route : steady (bgp_rib_route_snapshot_clone route).
Proof. unfold bgp_rib_route_snapshot_clone. steady. Qed.
#[local] Hint Resolve steady_insert_locked steady_snapshot : steady.
Lemma steady_best_change kind after snapshot : steady (set_best_change kind after snapshot).
Proof. unfold set_best_change. steady. Qed.
#[local] Hint Resolve steady_best_change : steady.

Lemma steady_insert_track impl route plain snapshot :
  steady (bgp_rib_insert_track_best_save_replaced impl route plain snapshot).
Proof. unfold bgp_rib_insert_track_best_save_replaced. steady. Qed.

Lemma steady_withdraw_track_save impl src k snapshot :
  steady (bgp_rib_withdraw_track_best_save impl src k snapshot).
Proof. unfold bgp_rib_withdraw_track_best_save, rib_detach_locked, withdraw_change. steady. Qed.

Lemma steady_withdraw_exact impl src k id : steady (bgp_rib_withdraw_exact_if_update_id impl src k id).
Proof. unfold bgp_rib_withdraw_exact_if_update_id. steady. Qed.

Lemma steady_restore impl src saved : steady (bgp_rib_restore_saved_if_absent impl src saved).
Proof. unfold bgp_rib_restore_saved_if_absent. steady. Qed.
End Steady.

#[export] Hint Resolve steady_insert_track steady_withdraw_track_save steady_withdraw_exact steady_restore : steady.
