(* ===== verification/RibMoves.v ===== *)
(** * Routing tables: the entries an operation moves

    The operations a session undoes, told by the entries themselves: which
    entry goes into the table, which one comes out and is kept.  [RibBest] and
    [RibJournal] say the same of routes. *)

From stdpp Require Import gmap.
From S2P Require Import Prelude Bytes Radix Pattr As4 Hashmap HashmapSpec Rib RibTable RibDecision RibIndex RibInv RibRoutes RibSpec RibLookup RibRefine RibBest.

Section RibMoves.
Context `{family : Family} {host : Host}.
Context (prefix_ok : Prefix -> Prop) (addr_ok : Addr -> Prop) `{!FamilyLaws prefix_ok addr_ok}.
Implicit Types (e : entry_ptr) (R : list entry_ptr) (impl : rib_impl_t) (cmp T : bool) (k : Prefix).
Implicit Types (route : libbgp_rib_route_t).

Abbreviation rib_rep := (rib_rep prefix_ok).

Definition slot_of e : Prefix * Z := (e_key e, src_of e).

Definition grows impl impl' : Prop := ri_next_addr impl <= ri_next_addr impl'.

#[export] Instance grows_preorder : PreOrder grows.
Proof. unfold grows. split; [intros ?; lia|intros ? ? ?; lia]. Qed.

(** The table of entries [R] has no two routes for one slot and is small. *)
Definition entries_wf R : Prop :=
  NoDup (slot_of <$> R) ∧ Forall (λ e, zlen (rr_attrs (route_of e)) < 2 ^ 60) R.

#[export] Instance entries_wf_proper : Proper ((≡ₚ) ==> iff) entries_wf.
Proof. intros R R' HR. unfold entries_wf. by rewrite HR. Qed.

(** [new] is in the table; the entry that was in its place, if there was one,
    is out. *)
Definition placed cmp impl R route impl' (replaced : option entry_ptr) new R' : Prop :=
  route_of new = stored_route impl route ∧ ri_next_addr impl <= addr_of new ∧
  rib_rep cmp impl' (new :: R') ∧
  match replaced with
  | None => R' = R ∧ ∀ e, e ∈ R → slot_of e ≠ (rr_prefix route, rr_source_router_id route)
  | Some old => slot_of old = (rr_prefix route, rr_source_router_id route) ∧ R ≡ₚ old :: R'
  end.

Lemma slot_of_inj R e e' : NoDup (slot_of <$> R) → e ∈ R → e' ∈ R → slot_of e = slot_of e' → e = e'.
Proof.
  intros Hnd [i Hi]%list_elem_of_lookup [j Hj]%list_elem_of_lookup Hs.
  assert (i = j) as ->; [|congruence].
  apply (NoDup_lookup _ i j (slot_of e) Hnd); rewrite list_lookup_fmap; [by rewrite Hi|by rewrite Hj, Hs].
Qed.

(** The entries that stay are in other slots than the new one. *)
Lemma placed_other cmp impl R route impl' replaced new R' e :
  NoDup (slot_of <$> R) → placed cmp impl R route impl' replaced new R' → e ∈ R' →
  slot_of e ≠ (rr_prefix route, rr_source_router_id route).
Proof.
  intros Hnd (_ & _ & _ & Hrest) He. destruct replaced as [old|].
  - destruct Hrest as [Hs HR]. rewrite HR, fmap_cons in Hnd. apply NoDup_cons in Hnd as [Hn _].
    intros Heq. apply Hn. rewrite Hs, <-Heq. by apply list_elem_of_fmap_2.
  - destruct Hrest as [-> Hno]. by apply Hno.
Qed.

Lemma runs_place T cmp impl R route snapshot :
  rib_rep cmp impl R → entries_wf R → prefix_ok (rr_prefix route) → zlen (rr_attrs route) < 2 ^ 60 →
  zlen R < 2 ^ 40 → new_comparable cmp R route →
  runs T (bgp_rib_insert_track_best_save_replaced impl route false snapshot) (λ o,
    grows impl o.1.1 ∧
    ((o.1.2 = InsertResult LIBBGP_ERR_NOMEM None 0 ∧ rib_rep cmp o.1.1 R ∧ T = false) ∨
     ∃ new R', placed cmp impl R route o.1.1 (ir_replaced o.1.2) new R' ∧
       ir_update_id o.1.2 = stored_id impl route ∧
       (ir_err o.1.2 = LIBBGP_OK ∧
          reports cmp (route_of <$> R) (route_of <$> new :: R') (rr_source_router_id route) (rr_prefix route) o.2 ∨
        ir_err o.1.2 = LIBBGP_ERR_NOMEM ∧ T = false))).
Proof.
  intros Hrep [Hnd Hsmall] Hk Hattrs Hlen Hn. unfold bgp_rib_insert_track_best_save_replaced. apply runs_bind.
  eapply runs_mono; [by apply (runs_best prefix_ok addr_ok T cmp impl R)|]. cbn beta. intros before Hbefore.
  apply runs_bind. eapply runs_mono; [by apply (runs_insert_route prefix_ok addr_ok T cmp impl R route false)|].
  intros [impl' res] [(_ & ? & _)|[(Hres & Hrep' & HT & Hg)|(new & Hnew & Haddr & He & Hid & Hrest)]];
    [done|cbn [fst snd] in *..].
  { subst res. apply runs_ret. cbn [fst snd]. split; [done|]. by left. }
  rewrite He. cbn.
  assert (∃ R', placed cmp impl R route impl' (ir_replaced res) new R' ∧ (∀ e, e ∈ R' → e ∈ R)) as (R' & Hp & Hsub).
  { unfold placed, slot_of. destruct (ir_replaced res) as [old|].
    - destruct Hrest as ([? ?] & _ & R' & HR & Hrep'). exists R'. split; [split_and!; try done; congruence|].
      intros e ?. rewrite HR. set_solver.
    - destruct Hrest as [Hno Hrep']. exists R. split; [|done]. split_and!; try done.
      intros e Hin [=]. by apply (Hno e Hin). }
  assert (Hslot : ∀ e, e ∈ R → slot (route_of e) = slot_of e) by (intros e He'; by apply (rep_slot prefix_ok cmp impl R e)).
  pose proof Hp as (_ & _ & Hrep' & _). pose proof (rep_entries _ _ _ _ Hrep') as Hok'.
  assert (Hg : grows impl impl').
  { unfold grows. assert (new ∈ new :: R') as Hin by set_solver.
    pose proof (entries_ok_elem _ _ _ _ Hok' Hin) as [_ _ _ ?]. lia. }
  apply runs_bind. eapply runs_mono; [by apply (runs_best prefix_ok addr_ok T cmp impl' (new :: R'))|].
  cbn beta. intros [p|] Hafter.
  2:{ exfalso. apply (Hafter (route_of new)); [cbn; set_solver|]. by rewrite Hnew. }
  destruct Hafter as (e & Hine & -> & Hbest).
  apply runs_bind. eapply runs_mono.
  { apply (runs_insert_change prefix_ok T cmp R R' new (rr_prefix route) before e snapshot (ri_next_addr impl)); try done.
    - by apply (rep_entries _ _ _ _ Hrep).
    - intros e1 e2 H1 H2 Heq. eapply slot_of_inj; [done..|]. rewrite <-(Hslot e1 H1), <-(Hslot e2 H2). by rewrite Heq.
    - intros e' He' Hke' Hs. apply (placed_other _ _ _ _ _ _ _ _ e' Hnd Hp He').
      rewrite <-(Hslot e' (Hsub _ He')). unfold slot. rewrite Hke'. fold (src_of e'). rewrite Hs. by unfold src_of; rewrite Hnew.
    - rewrite Forall_forall in Hsmall. apply elem_of_cons in Hine as [->|?]; [by rewrite Hnew|]. by apply Hsmall, Hsub. }
  cbn beta. replace (src_of new) with (rr_source_router_id route) by by unfold src_of; rewrite Hnew.
  intros [e0 change]. cbn [fst snd]. intros H. apply runs_ret. cbn [fst snd ir_replaced ir_update_id ir_err].
  split; [done|]. right. exists new, R'. split; [done|]. split; [done|].
  destruct H as [[-> ?]|[[= -> ->] ?]]; [by left|by right].
Qed.

(** The table without the entry of a slot, which is handed out. *)
Lemma runs_take T cmp impl R src k snapshot :
  rib_rep cmp impl R → entries_wf R → prefix_ok k →
  runs T (bgp_rib_withdraw_track_best_save impl src k snapshot) (λ o,
    grows impl o.1.1.1 ∧
    match o.1.2 with
    | None => o.1.1.2 = LIBBGP_OK ∧ rib_rep cmp o.1.1.1 R ∧ o.2 = no_change ∧ ∀ e, e ∈ R → slot_of e ≠ (k, src)
    | Some e => slot_of e = (k, src) ∧ ∃ R', R ≡ₚ e :: R' ∧ rib_rep cmp o.1.1.1 R' ∧
        (o.1.1.2 = LIBBGP_OK ∧ reports cmp (route_of <$> R) (route_of <$> R') src k o.2 ∨
         o.1.1.2 = LIBBGP_ERR_NOMEM ∧ T = false)
    end).
Proof.
  intros Hrep [Hnd Hsmall] Hk. unfold bgp_rib_withdraw_track_best_save. apply runs_bind.
  eapply runs_mono; [by apply (runs_best prefix_ok addr_ok T cmp impl R k)|]. cbn beta. intros before Hbefore.
  apply runs_bind. eapply runs_mono; [by apply (runs_detach prefix_ok addr_ok T cmp impl R src k)|].
  intros [impl' [old|]]; cbn [fst snd]; intros ([Hg _] & Hrest).
  2:{ destruct Hrest as [-> Hno]. apply runs_ret. cbn [fst snd]. split; [done|]. split_and!; try done.
      intros e Hin [=]. by apply (Hno e Hin). }
  destruct Hrest as (Hke & Hsrc & R' & HR & Hrep'). assert (Hold : old ∈ R) by (rewrite HR; set_solver).
  pose proof (rep_slot _ _ _ _ _ Hrep Hold) as Hslot.
  apply runs_bind. eapply runs_mono; [by apply (runs_best prefix_ok addr_ok T cmp impl' R' k)|]. cbn beta. intros after Hafter.
  apply runs_bind. eapply runs_mono.
  { apply (runs_withdraw_change prefix_ok addr_ok T cmp R R' old src k before after snapshot); try done.
    - injection Hslot. congruence.
    - intros e He Hke' Hse. rewrite HR in Hnd. apply NoDup_cons in Hnd as [Hn _]. apply Hn.
      apply list_elem_of_fmap. exists e. split; [|done].
      assert (e ∈ R) as HeR by (rewrite HR; set_solver).
      pose proof (rep_entries _ _ _ _ Hrep) as Hok. pose proof (entries_ok_elem _ _ _ _ Hok HeR) as [Hkk _ _ _].
      unfold slot_of. rewrite Hke, Hsrc, Hkk. fold (route_of e). congruence. }
  intros [e0 change]. cbn [fst snd]. intros H. apply runs_ret. cbn [fst snd]. split; [done|].
  split; [by unfold slot_of; rewrite Hke, Hsrc|]. exists R'. split_and!; try done.
  destruct H as [[-> ?]|([= -> ->] & ? & _)]; [by left|by right].
Qed.

(** The entry of a slot goes if it has the given update id. *)
Lemma runs_take_exact T cmp impl R src k id :
  rib_rep cmp impl R → entries_wf R → prefix_ok k → id ≠ 0 →
  runs T (bgp_rib_withdraw_exact_if_update_id impl src k id) (λ o,
    grows impl o.1 ∧
    ((∃ e R', slot_of e = (k, src) ∧ rr_update_id (route_of e) = id ∧ R ≡ₚ e :: R' ∧ rib_rep cmp o.1 R') ∨
     rib_rep cmp o.1 R ∧ ∀ e, e ∈ R → slot_of e = (k, src) → rr_update_id (route_of e) ≠ id)).
Proof.
  intros Hrep [Hnd _] Hk Hid. unfold bgp_rib_withdraw_exact_if_update_id.
  replace (id =? 0) with false by lia. pose proof Hrep as [(Hr & _ & _) _]. apply runs_bind.
  eapply runs_mono; [by apply (runs_find_locked prefix_ok addr_ok T impl R)|]. cbn beta. intros [v|].
  2:{ intros Hno. apply runs_ret. split; [by cbn|]. right. split; [done|]. intros e He [= H1 H2]. by destruct (Hno e He). }
  intros (e & He & <- & Hke & Hse). fold (route_of e). assert (Hs : slot_of e = (k, src)) by (unfold slot_of; congruence).
  assert (Hone : ∀ e', e' ∈ R → slot_of e' = (k, src) → e' = e).
  { intros e' He' Hs'. eapply slot_of_inj; [done..|congruence]. }
  apply runs_if; intros Hu.
  - eapply runs_mono; [by apply (runs_withdraw prefix_ok addr_ok T cmp impl R src k)|].
    intros o ([Hg _] & [(_ & e' & R' & Hk' & Hs' & HR & Hrep')|(_ & Hno)]); [|by destruct (Hno e He)].
    split; [done|]. left. exists e', R'. assert (Hsl : slot_of e' = (k, src)) by (unfold slot_of; congruence).
    split_and!; try done. rewrite (Hone e'); [lia|rewrite HR; set_solver|done].
  - apply runs_ret. split; [by cbn|]. right. split; [done|]. intros e' He' Hs'. rewrite (Hone e' He' Hs'). lia.
Qed.

(** A kept entry whose slot is free goes back. *)
Lemma runs_put_back T cmp impl R e :
  rib_rep cmp impl R → entry_ok prefix_ok (ri_next_addr impl) e → addr_of e ∉ addr_of <$> R →
  zlen R < 2 ^ 40 → cmp_ok cmp (e :: R) → (∀ e', e' ∈ R → slot_of e' ≠ slot_of e) →
  runs T (bgp_rib_restore_saved_if_absent impl (src_of e) (Some e)) (λ o,
    grows impl o.1.1 ∧ (rib_rep cmp o.1.1 (e :: R) ∨ rib_rep cmp o.1.1 R ∧ T = false)).
Proof.
  intros Hrep Hok Hfresh Hlen Hcmp Hfree. pose proof Hrep as [(Hr & _ & _) _]. pose proof Hok as [Hkey Hk _ _].
  unfold bgp_rib_restore_saved_if_absent. fold (route_of e) (src_of e). rewrite Z.eqb_refl. cbn [negb].
  rewrite <-Hkey. apply runs_bind. eapply runs_mono; [by apply (runs_find_locked prefix_ok addr_ok T impl R)|].
  cbn beta. intros [v|].
  { intros (e' & He' & _ & Hke & Hse). destruct (Hfree e' He'). unfold slot_of. congruence. }
  intros _. apply runs_bind. eapply runs_mono; [by apply (runs_attach prefix_ok addr_ok T cmp impl R e)|].
  intros [impl' err]. cbn [fst snd]. intros [[_ (e' & He' & Hs)]|(([Hg _] & Hlink) & _)].
  { destruct (Hfree e' He'). unfold slot_of. destruct Hs. congruence. }
  cbn [fst snd] in Hlink. apply runs_ret. cbn [fst snd]. split; [done|]. destruct Hlink as [[_ ?]|(_ & ? & ?)]; auto.
Qed.
End RibMoves.
