(* ===== verification/Fsm.v ===== *)
(** * The session state machine: data and helpers (src/fsm.c)

    The state of a session, the OPEN exchange, the checks on a received UPDATE
    and the editing of updates that are sent on.  [FsmUpdate] applies updates
    to the routing tables.

    The C structure is one flat record; here its fields are grouped by what
    sets them: the configuration, the policy the user sets, what was
    negotiated with the peer, the clock, the marks of half-done sends, the
    attached objects and the queue of state changes. *)

From stdpp Require Import gmap.
From S2P Require Import Prelude Bytes Prefix4 Prefix6 Capability Open Notification Pattr Update As4 Packet Filter Hashmap Rib RibTable Rib46.

Definition FSM_NOTIFY_MESSAGE_HEADER_ERROR : Z := 1.
Definition FSM_NOTIFY_OPEN_MESSAGE_ERROR : Z := 2.
Definition FSM_NOTIFY_UPDATE_MESSAGE_ERROR : Z := 3.
Definition FSM_NOTIFY_HOLD_TIMER_EXPIRED : Z := 4.
Definition FSM_NOTIFY_FSM_ERROR : Z := 5.
Definition FSM_NOTIFY_CEASE : Z := 6.
Definition FSM_CEASE_ERR_ADMIN_SHUTDOWN : Z := 2.
Definition FSM_CEASE_ERR_ADMIN_RESET : Z := 4.
Definition FSM_CEASE_ERR_COLLISION : Z := 7.
Definition FSM_OPEN_ERR_UNSUPPORTED_VERSION : Z := 1.
Definition FSM_OPEN_ERR_BAD_PEER_AS : Z := 2.
Definition FSM_OPEN_ERR_BAD_BGP_ID : Z := 3.
Definition FSM_OPEN_ERR_UNACCEPTABLE_HOLD_TIME : Z := 6.
Definition FSM_UPDATE_ERR_MALFORMED_ATTR_LIST : Z := 1.
Definition FSM_UPDATE_ERR_MISSING_WELL_KNOWN : Z := 3.
Definition FSM_UPDATE_ERR_ATTR_LEN : Z := 5.
Definition FSM_ERR_OPEN_SENT : Z := 1.
Definition FSM_ERR_OPEN_CONFIRM : Z := 2.
Definition FSM_ERR_ESTABLISHED : Z := 3.
Definition FSM_STATE_CHANGE_QUEUE_CAP : Z := 32.
Definition LIBBGP_AFI_IPV4 : Z := 1.

Inductive libbgp_fsm_state_t : Type :=
  | LIBBGP_FSM_IDLE
  | LIBBGP_FSM_CONNECT
  | LIBBGP_FSM_ACTIVE
  | LIBBGP_FSM_OPEN_SENT
  | LIBBGP_FSM_OPEN_CONFIRM
  | LIBBGP_FSM_ESTABLISHED.

#[export] Instance libbgp_fsm_state_eq_dec : EqDecision libbgp_fsm_state_t.
Proof. solve_decision. Defined.

(** ** Data *)

Record libbgp_fsm_config : Type := FsmConfig {
  cfg_local_asn : Z;
  cfg_local_bgp_id : Z;
  cfg_hold_time : Z;
  cfg_keepalive_time : Z;
  cfg_enable_4byte_asn : bool;
  cfg_enable_mpbgp_ipv6 : bool
}.

(** What the setters set.  The filters are the objects the pointers of the
    structure lead to. *)
Record fsm_policy : Type := FsmPolicy {
  po_expected_peer_asn : Z;
  po_allow_local_as : Z;
  po_route_weight : Z;
  po_enable_mpbgp_ipv4 : bool;
  po_no_collision_detection : bool;
  po_in_filter4 : option filter_impl_t;
  po_out_filter4 : option filter_impl_t;
  po_in_filter6 : option filter_impl_t;
  po_out_filter6 : option filter_impl_t;
  po_peering_lan4 : libbgp_prefix4_t;
  po_peering_lan6 : libbgp_prefix6_t;
  po_default_nexthop4 : Z;
  po_default_nexthop6 : list Z;
  po_default_nexthop6_linklocal : list Z;
  po_no_nexthop_check4 : bool;
  po_force_default_nexthop4 : bool;
  po_no_nexthop_check6 : bool;
  po_force_default_nexthop6 : bool;
  po_ibgp_alter_nexthop : bool
}.

(** What the OPEN messages settled. *)
Record fsm_peer : Type := FsmPeer {
  pe_asn : Z;
  pe_bgp_id : Z;
  pe_hold_time : Z;
  pe_send_ipv4_routes : bool;
  pe_send_ipv6_routes : bool;
  pe_mpbgp_ipv6 : bool;
  pe_4byte_asn : bool;
  pe_can_send_as4_path : bool
}.

Definition no_peer : fsm_peer := FsmPeer 0 0 0 false false false false false.

Record fsm_clock : Type := FsmClock {
  ck_current_ms : Z;
  ck_last_rx_ms : Z;
  ck_last_keepalive_ms : Z;
  ck_initialized : bool
}.

Definition clock_reset (ck : fsm_clock) : fsm_clock :=
  FsmClock (ck_current_ms ck) (ck_last_rx_ms ck) (ck_last_keepalive_ms ck) false.

(** The marks of sends in progress and of KEEPALIVEs that overtook them. *)
Record fsm_pending : Type := FsmPending {
  pd_local_keepalive_send : bool;
  pd_local_keepalive : bool;
  pd_passive_open_send : bool;
  pd_passive_keepalive : bool
}.

Definition no_pending : fsm_pending := FsmPending false false false false.

(** The attached objects, by address. *)
Record fsm_links : Type := FsmLinks {
  ln_rib4 : option Z;
  ln_rib6 : option Z;
  ln_bus : option Z;
  ln_out : option Z;
  ln_route_added_sub_id : Z;
  ln_route_withdrawn_sub_id : Z;
  ln_collision_sub_id : Z
}.

Record fsm_state_change_t : Type := StateChange {
  sc_old_state : libbgp_fsm_state_t;
  sc_new_state : libbgp_fsm_state_t
}.

#[export] Instance fsm_state_change_eq_dec : EqDecision fsm_state_change_t.
Proof. solve_decision. Defined.

(** The callback with its context, if there is one, and the queue. *)
Record fsm_notify : Type := FsmNotify {
  nt_cb : option Z;
  nt_changes : list fsm_state_change_t;
  nt_dispatch_count : Z
}.

Record fsm_impl_t : Type := FsmImpl {
  fs_config : libbgp_fsm_config;
  fs_policy : fsm_policy;
  fs_state : libbgp_fsm_state_t;
  fs_peer : fsm_peer;
  fs_clock : fsm_clock;
  fs_links : fsm_links;
  fs_session_generation : Z;
  fs_pending : fsm_pending;
  fs_notify : fsm_notify
}.

Definition fsm_default_config : libbgp_fsm_config :=
  FsmConfig LIBBGP_AS_TRANS 0 120 40 true false.

(** ** The state and the queue of changes *)

(** A full queue keeps its last entry's [old_state]. *)
Fixpoint merge_last (changes : list fsm_state_change_t) (state : libbgp_fsm_state_t)
    : list fsm_state_change_t :=
  match changes with
  | [] => []
  | [c] => [StateChange (sc_old_state c) state]
  | c :: changes' => c :: merge_last changes' state
  end.

Definition queue_change (nt : fsm_notify) (old_state state : libbgp_fsm_state_t) : fsm_notify :=
  match nt_cb nt with
  | None => nt
  | Some _ =>
      if FSM_STATE_CHANGE_QUEUE_CAP <=? zlen (nt_changes nt)
      then FsmNotify (nt_cb nt) (merge_last (nt_changes nt) state) (nt_dispatch_count nt)
      else FsmNotify (nt_cb nt) (nt_changes nt ++ [StateChange old_state state]) (nt_dispatch_count nt)
  end.

Definition fsm_set_state (impl : fsm_impl_t) (state : libbgp_fsm_state_t) : fsm_impl_t :=
  if decide (fs_state impl = state) then impl
  else
    FsmImpl (fs_config impl) (fs_policy impl) state (fs_peer impl) (fs_clock impl) (fs_links impl)
      (fs_session_generation impl) (fs_pending impl)
      (queue_change (fs_notify impl) (fs_state impl) state).

(** The changes taken out of the queue and the callback they are for. *)
Definition fsm_drain_state_changes (impl : fsm_impl_t)
    : fsm_impl_t * option Z * list fsm_state_change_t :=
  let nt := fs_notify impl in
  let dispatch_count :=
    if zlen (nt_changes nt) =? 0 then nt_dispatch_count nt else nt_dispatch_count nt + 1 in
  (FsmImpl (fs_config impl) (fs_policy impl) (fs_state impl) (fs_peer impl) (fs_clock impl)
     (fs_links impl) (fs_session_generation impl) (fs_pending impl)
     (FsmNotify (nt_cb nt) [] dispatch_count),
   nt_cb nt, nt_changes nt).

Definition fsm_state_hold_timer_active (state : libbgp_fsm_state_t) : bool :=
  bool_decide (state = LIBBGP_FSM_OPEN_CONFIRM) || bool_decide (state = LIBBGP_FSM_ESTABLISHED).

Definition fsm_state_pre_open (state : libbgp_fsm_state_t) : bool :=
  bool_decide (state = LIBBGP_FSM_IDLE) || bool_decide (state = LIBBGP_FSM_CONNECT) ||
  bool_decide (state = LIBBGP_FSM_ACTIVE).

Definition fsm_update_session_current (impl : fsm_impl_t) (session_generation : Z) : bool :=
  bool_decide (fs_state impl = LIBBGP_FSM_ESTABLISHED) &&
  (fs_session_generation impl =? session_generation).

(** The fields every path back to a fresh session resets. *)
Definition forget_peer (impl : fsm_impl_t) : fsm_impl_t :=
  FsmImpl (fs_config impl) (fs_policy impl) (fs_state impl) no_peer (clock_reset (fs_clock impl))
    (fs_links impl) (u64 (fs_session_generation impl + 1)) no_pending (fs_notify impl).

(** The session ends; the caller keeps what [fs_links] and [fs_peer] held. *)
Definition fsm_snapshot_teardown (impl : fsm_impl_t) : fsm_impl_t :=
  forget_peer (fsm_set_state impl LIBBGP_FSM_IDLE).

Definition fsm_mark_rx_current (impl : fsm_impl_t) : fsm_impl_t :=
  let ck := fs_clock impl in
  if ck_initialized ck then
    FsmImpl (fs_config impl) (fs_policy impl) (fs_state impl) (fs_peer impl)
      (FsmClock (ck_current_ms ck) (ck_current_ms ck) (ck_last_keepalive_ms ck) true)
      (fs_links impl) (fs_session_generation impl) (fs_pending impl) (fs_notify impl)
  else impl.

(** [uint16_t] arithmetic; the quotient of a 16-bit value fits. *)
Definition fsm_effective_keepalive_time (impl : fsm_impl_t) : Z :=
  let hold := pe_hold_time (fs_peer impl) in
  if hold =? 0 then 0
  else
    let hold_third := if hold / 3 =? 0 then 1 else hold / 3 in
    let interval := cfg_keepalive_time (fs_config impl) in
    if interval =? 0 then hold_third
    else if hold_third <? interval then hold_third else interval.

(** ** The OPEN exchange *)

Definition fsm_local_open_config_valid (config : libbgp_fsm_config) : bool :=
  if cfg_local_bgp_id config =? 0 then false
  else if negb (cfg_hold_time config =? 0) && (cfg_hold_time config <? 3) then false
  else if negb (cfg_enable_4byte_asn config) && (65535 <? cfg_local_asn config) then false
  else true.

Definition fsm_valid_peer_bgp_id (peer_id local_id : Z) : bool :=
  let first := u8 (Z.shiftr peer_id 24) in
  if (peer_id =? 0) || (peer_id =? local_id) then false
  else if (first =? 0) || (first =? 127) || (224 <=? first) then false
  else true.

Definition fsm_add_mpbgp_cap (open : libbgp_open_msg_t) (afi : Z) : M libbgp_open_msg_t :=
  cap ← libbgp_capability_new LIBBGP_CAP_MP_BGP;
  libbgp_open_add_capability open (Capability (cap_code cap) (mp_bgp afi LIBBGP_SAFI_UNICAST)).

(** The packet [fsm_send_open] hands to [fsm_send_packet]. *)
Definition fsm_open_packet (config : libbgp_fsm_config) (enable_mpbgp_ipv4 : bool) : M libbgp_packet_t :=
  fail_if (negb (fsm_local_open_config_valid config)) LIBBGP_ERR_INVALID;;
  let my_asn :=
    if cfg_enable_4byte_asn config && (65535 <? cfg_local_asn config)
    then LIBBGP_AS_TRANS else u16 (cfg_local_asn config) in
  let open := OpenMsg 4 my_asn (cfg_hold_time config) (cfg_local_bgp_id config) [] in
  open ←
    (if cfg_enable_4byte_asn config then
       cap ← libbgp_capability_new LIBBGP_CAP_4B_ASN;
       libbgp_open_add_capability open (Capability (cap_code cap) (asn_4b (cfg_local_asn config)))
     else mret open);
  open ← (if enable_mpbgp_ipv4 then fsm_add_mpbgp_cap open LIBBGP_AFI_IPV4 else mret open);
  open ← (if cfg_enable_mpbgp_ipv6 config then fsm_add_mpbgp_cap open LIBBGP_AFI_IPV6 else mret open);
  mret (Packet (p_open open) (pkt_raw_type libbgp_packet_init)).

Definition fsm_open_has_any_mpbgp (open : libbgp_open_msg_t) : bool :=
  existsb (λ cap, match cap_data cap with mp_bgp _ _ => true | _ => false end) (open_capabilities open).

(** [(send_ipv4_routes, send_ipv6_routes)] *)
Definition fsm_negotiate_route_families (impl : fsm_impl_t) (open : libbgp_open_msg_t) : bool * bool :=
  let local_mp4 := po_enable_mpbgp_ipv4 (fs_policy impl) in
  let local_mp6 := cfg_enable_mpbgp_ipv6 (fs_config impl) in
  let peer_has_mpbgp := fsm_open_has_any_mpbgp open in
  let peer_mp4 := libbgp_open_has_mpbgp open LIBBGP_AFI_IPV4 LIBBGP_SAFI_UNICAST in
  let peer_mp6 := libbgp_open_has_mpbgp open LIBBGP_AFI_IPV6 LIBBGP_SAFI_UNICAST in
  if peer_has_mpbgp && (local_mp4 || local_mp6) then
    (if local_mp4 && peer_mp4 then true else negb (local_mp6 && negb local_mp4),
     local_mp6 && peer_mp6)
  else (negb (local_mp6 && negb local_mp4), false).

(** ** AS paths and next hops *)

(** [attr->data.<member>] when the tag may not say that this is the member. *)
Definition member {A} (f : libbgp_pattr_data -> option A) (attr : libbgp_pattr_t) : M A :=
  match f (pa_data attr) with
  | Some a => mret a
  | None => stuck AssertFailed
  end.

Definition data_next_hop (d : libbgp_pattr_data) : option Z :=
  match d with d_next_hop v => Some v | _ => None end.
Definition data_local_pref (d : libbgp_pattr_data) : option Z :=
  match d with d_local_pref v => Some v | _ => None end.
Definition data_origin (d : libbgp_pattr_data) : option Z :=
  match d with d_origin v => Some v | _ => None end.
Definition data_med (d : libbgp_pattr_data) : option Z :=
  match d with d_med v => Some v | _ => None end.

(** The number of hops and the last AS of the last AS_SEQUENCE: [(len, origin_as)].
    The lengths are those of arrays in memory, so their sum does not wrap. *)
Fixpoint as_path_len_loop (segs : list libbgp_as_path_segment_t) (len origin_as : Z) : Z * Z :=
  match segs with
  | [] => (len, origin_as)
  | seg :: segs' =>
      if seg_type seg =? 2 then
        as_path_len_loop segs' (len + zlen (seg_asns seg)) (List.last (seg_asns seg) origin_as)
      else if seg_type seg =? 1 then as_path_len_loop segs' (len + 1) origin_as
      else as_path_len_loop segs' len origin_as
  end.

Definition fsm_as_path_len_and_origin_as (attr : option libbgp_pattr_t) : Z * Z :=
  match attr with
  | Some attr =>
      match pa_data attr with
      | d_as_path segs _ => as_path_len_loop segs 0 0
      | _ => (0, 0)
      end
  | None => (0, 0)
  end.

Definition fsm_update_has_advertisements (update : libbgp_update_msg_t) : bool :=
  if negb (zlen (upd_nlri update) =? 0) then true
  else existsb update_mp_reach_has_nlri (upd_attrs update).

Definition fsm_zero_addr6 (addr : list Z) : bool := memcmp addr (replicate 16 0) =? 0.

Definition fsm_linklocal_addr6 (addr : list Z) : M bool :=
  a0 ← rd addr 0;
  a1 ← rd addr 1;
  mret ((a0 =? 0xfe) && (Z.land a1 0xc0 =? 0x80)).

Definition fsm_valid_addr6 (addr : list Z) : M bool :=
  if fsm_zero_addr6 addr then mret false
  else
    a0 ← rd addr 0;
    linklocal ← fsm_linklocal_addr6 addr;
    mret (negb ((a0 =? 0xff) || linklocal)).

Definition fsm_prefix6_contains_addr (prefix : libbgp_prefix6_t) (addr : list Z) : bool :=
  libbgp_prefix6_includes prefix (Prefix6 addr 128).

(** The numbers in network byte order, compared from the first octet on. *)
Definition fsm_router_id_cmp (a b : Z) : Z := memcmp (bgp_put_be32 a) (bgp_put_be32 b).

Definition fsm_ipv6_next_hop_acceptable (policy : fsm_policy) (next_hop : list Z) (next_hop_len : Z)
    (is_ibgp : bool) : M bool :=
  if negb (next_hop_len =? 16) && negb (next_hop_len =? 32) then mret false
  else
    global ← slice next_hop 0 16;
    local ← slice next_hop 16 16;
    valid ← fsm_valid_addr6 global;
    linklocal ← fsm_linklocal_addr6 local;
    mret (if negb valid then false
          else if (next_hop_len =? 32) && negb (fsm_zero_addr6 local) && negb linklocal then false
          else if negb (po_no_nexthop_check6 policy) && negb is_ibgp &&
                  negb (fsm_prefix6_contains_addr (po_peering_lan6 policy) global) then false
          else true).

Definition fsm_as_path_exceeds_local_as (attr : option libbgp_pattr_t) (local_asn allow_local_as : Z)
    : bool :=
  match attr with
  | Some attr =>
      match pa_data attr with
      | d_as_path segs _ =>
          existsb (λ seg, allow_local_as <? zlen (filter (λ asn, asn = local_asn) (seg_asns seg))) segs
      | _ => false
      end
  | None => false
  end.

Section FsmHost.
Context {host : Host}.

Definition fsm_prefix4_contains_addr (prefix : libbgp_prefix4_t) (addr : Z) : bool :=
  libbgp_prefix4_includes prefix (Prefix4 addr 32).

(** [addr] is kept as it came from the wire; [local_bgp_id] is turned round
    to be compared with it.  [None]: the caller passes no [impl]. *)
Definition fsm_valid_addr4 (impl : option (libbgp_fsm_config * fsm_policy)) (addr : Z) : M bool :=
  let own :=
    match impl with
    | Some (config, policy) =>
        (addr =? po_default_nexthop4 policy) ||
        (addr =? u32_of_mem (bgp_put_be32 (cfg_local_bgp_id config)))
    | None => false
    end in
  if own then mret false
  else
    first ← rd (mem_of_u32 addr) 0;
    mret (negb ((first =? 0) || (first =? 127) || (224 <=? first))).

Definition fsm_ipv4_next_hop_acceptable (config : libbgp_fsm_config) (policy : fsm_policy)
    (next_hop : Z) (is_ibgp : bool) : M bool :=
  valid ← fsm_valid_addr4 (Some (config, policy)) next_hop;
  mret (if negb valid then false
        else if negb (po_no_nexthop_check4 policy) && negb is_ibgp &&
                negb (fsm_prefix4_contains_addr (po_peering_lan4 policy) next_hop) then false
        else true).

(** ** Editing updates *)

(** The update is this session's own list, but the attribute it finds may be
    shared with the route it came from: see [fsm_update_from_route4]. *)
Definition fsm_update_set_next_hop4 (update : libbgp_update_msg_t) (next_hop : Z)
    : M libbgp_update_msg_t :=
  match libbgp_update_find_attr update LIBBGP_PATTR_NEXT_HOP with
  | Some attr => mret (replace_attr update (Pattr (pa_flags attr) (pa_type_code attr) (d_next_hop next_hop)))
  | None =>
      attr ← libbgp_pattr_new LIBBGP_PATTR_NEXT_HOP;
      libbgp_update_add_attr update (Pattr (pa_flags attr) (pa_type_code attr) (d_next_hop next_hop))
  end.

Definition fsm_update_ensure_origin (update : libbgp_update_msg_t) (origin : Z) : M libbgp_update_msg_t :=
  match libbgp_update_find_attr update LIBBGP_PATTR_ORIGIN with
  | Some _ => mret update
  | None =>
      attr ← libbgp_pattr_new LIBBGP_PATTR_ORIGIN;
      libbgp_update_add_attr update (Pattr (pa_flags attr) (pa_type_code attr) (d_origin origin))
  end.

Definition fsm_update_ensure_empty_as_path (update : libbgp_update_msg_t) : M libbgp_update_msg_t :=
  match libbgp_update_find_attr update LIBBGP_PATTR_AS_PATH with
  | Some _ => mret update
  | None =>
      attr ← libbgp_pattr_new LIBBGP_PATTR_AS_PATH;
      libbgp_update_add_attr update (Pattr (pa_flags attr) (pa_type_code attr) (d_as_path [] true))
  end.

Definition fsm_alter_nexthop4 (update : libbgp_update_msg_t) (peering_lan4 : libbgp_prefix4_t)
    (default_nexthop4 : Z) (force_default_nexthop4 is_ibgp ibgp_alter_nexthop : bool)
    : M libbgp_update_msg_t :=
  if zlen (upd_nlri update) =? 0 then mret update
  else if is_ibgp && negb ibgp_alter_nexthop then mret update
  else
    let use_default :=
      valid ← fsm_valid_addr4 None default_nexthop4;
      fail_if (negb valid) LIBBGP_ERR_INVALID;;
      fsm_update_set_next_hop4 update default_nexthop4 in
    match libbgp_update_find_attr update LIBBGP_PATTR_NEXT_HOP with
    | None => use_default
    | Some next_hop =>
        if force_default_nexthop4 then use_default
        else
          v ← member data_next_hop next_hop;
          if fsm_prefix4_contains_addr peering_lan4 v then mret update else use_default
    end.

(** One attribute of the loop of [fsm_alter_nexthop6]. *)
Definition alter_mp_reach (peering_lan6 : libbgp_prefix6_t)
    (default_nexthop6 default_nexthop6_linklocal : list Z) (force_default_nexthop6 : bool)
    (attr : libbgp_pattr_t) : M libbgp_pattr_t :=
  match pa_data attr with
  | d_mp_reach_ipv6 nexthop nexthop_len nlri =>
      global ← slice nexthop 0 16;
      if (zlen nlri =? 0) ||
         negb (force_default_nexthop6 || negb (fsm_prefix6_contains_addr peering_lan6 global))
      then mret attr
      else
        valid ← fsm_valid_addr6 default_nexthop6;
        fail_if (negb valid) LIBBGP_ERR_INVALID;;
        linklocal ← fsm_linklocal_addr6 default_nexthop6_linklocal;
        let zero := fsm_zero_addr6 default_nexthop6_linklocal in
        fail_if (negb zero && negb linklocal) LIBBGP_ERR_INVALID;;
        mret (Pattr (pa_flags attr) (pa_type_code attr)
                (if negb zero
                 then d_mp_reach_ipv6 (default_nexthop6 ++ default_nexthop6_linklocal) 32 nlri
                 else d_mp_reach_ipv6 (default_nexthop6 ++ replicate 16 0) 16 nlri))
  | _ => mret attr
  end.

Fixpoint map_attrs (f : libbgp_pattr_t -> M libbgp_pattr_t) (attrs : list libbgp_pattr_t)
    : M (list libbgp_pattr_t) :=
  match attrs with
  | [] => mret []
  | attr :: attrs' => attr ← f attr; attrs' ← map_attrs f attrs'; mret (attr :: attrs')
  end.

(** On an error the update is given up, so the attributes already changed are
    not kept. *)
Definition fsm_alter_nexthop6 (update : libbgp_update_msg_t) (peering_lan6 : libbgp_prefix6_t)
    (default_nexthop6 default_nexthop6_linklocal : list Z)
    (force_default_nexthop6 is_ibgp ibgp_alter_nexthop : bool) : M libbgp_update_msg_t :=
  if is_ibgp && negb ibgp_alter_nexthop then mret update
  else
    attrs ← map_attrs (alter_mp_reach peering_lan6 default_nexthop6 default_nexthop6_linklocal
                         force_default_nexthop6) (upd_attrs update);
    mret (with_attrs update attrs).

(** *** Copies through the wire format *)

Definition fsm_pattr_parse_as4_context (attr : libbgp_pattr_t) : bool :=
  match pa_data attr with
  | d_as_path _ is_4b => is_4b
  | d_aggregator _ _ is_4b => is_4b
  | d_as4_path _ _ | d_as4_aggregator _ _ _ => true
  | _ => false
  end.

Definition fsm_clone_pattr (attr : libbgp_pattr_t) : M libbgp_pattr_t :=
  '(buf, len) ← libbgp_pattr_write attr (replicate (Z.to_nat LIBBGP_BGP_MAX_PACKET_LEN) 0);
  _ ← libbgp_pattr_new LIBBGP_PATTR_UNKNOWN;
  wire ← slice buf 0 len;
  '(copy, used) ← libbgp_pattr_parse_as4 wire (fsm_pattr_parse_as4_context attr);
  fail_if (negb (used =? len)) LIBBGP_ERR_BAD_LEN;;
  mret copy.

Fixpoint clone_withdrawn (ps : list libbgp_prefix4_t) (dst : libbgp_update_msg_t) : M libbgp_update_msg_t :=
  match ps with
  | [] => mret dst
  | p :: ps' => dst ← libbgp_update_add_withdrawn dst p; clone_withdrawn ps' dst
  end.

Fixpoint clone_attrs (attrs : list libbgp_pattr_t) (dst : libbgp_update_msg_t) : M libbgp_update_msg_t :=
  match attrs with
  | [] => mret dst
  | attr :: attrs' =>
      copy ← fsm_clone_pattr attr;
      dst ← libbgp_update_add_attr dst copy;
      clone_attrs attrs' dst
  end.

Fixpoint clone_nlri (ps : list libbgp_prefix4_t) (dst : libbgp_update_msg_t) : M libbgp_update_msg_t :=
  match ps with
  | [] => mret dst
  | p :: ps' => dst ← libbgp_update_add_nlri dst p; clone_nlri ps' dst
  end.

Definition fsm_clone_update (src : libbgp_update_msg_t) : M libbgp_update_msg_t :=
  dst ← clone_withdrawn (upd_withdrawn src) libbgp_update_init;
  dst ← clone_attrs (upd_attrs src) dst;
  clone_nlri (upd_nlri src) dst.

Definition forward_keeps (is_ibgp : bool) (attr : libbgp_pattr_t) : bool :=
  let keep := negb (Z.land (pa_flags attr) LIBBGP_PATTR_FLAG_TRANSITIVE =? 0) ||
    bool_decide (pa_type attr = LIBBGP_PATTR_MP_REACH_IPV6) ||
    bool_decide (pa_type attr = LIBBGP_PATTR_MP_UNREACH_IPV6) in
  if negb is_ibgp && bool_decide (pa_type attr = LIBBGP_PATTR_LOCAL_PREF) then false else keep.

(** The first loop marks what is kept, the second drops the rest. *)
Definition fsm_update_prepare_forward_attrs (update : libbgp_update_msg_t) (is_ibgp : bool)
    : libbgp_update_msg_t :=
  let marked :=
    (λ attr, if forward_keeps is_ibgp attr && negb is_ibgp
             then libbgp_pattr_prepare_for_ebgp_forward attr else attr) <$> upd_attrs update in
  with_attrs update (filter (λ attr, forward_keeps is_ibgp attr = true) marked).

Definition fsm_update_exceeds_local_as (update : libbgp_update_msg_t) (local_asn allow_local_as : Z)
    (restore_as4_path : bool) : M bool :=
  if negb (fsm_update_has_advertisements update) then mret false
  else if negb restore_as4_path ||
          bool_decide (libbgp_update_find_attr update LIBBGP_PATTR_AS4_PATH = None) then
    mret (fsm_as_path_exceeds_local_as (libbgp_update_find_attr update LIBBGP_PATTR_AS_PATH)
            local_asn allow_local_as)
  else
    restored ← fsm_clone_update update;
    restored ← libbgp_update_restore_as_path restored;
    mret (fsm_as_path_exceeds_local_as (libbgp_update_find_attr restored LIBBGP_PATTR_AS_PATH)
            local_asn allow_local_as).

(** ** Routes from updates *)

Definition view_member {A} (f : libbgp_pattr_data -> option A) (view : bgp_attr_view_t) (code : Z)
    (default : A) : M A :=
  match bgp_attr_view_get view code with
  | Some attr => member f attr
  | None => mret default
  end.

(** What [fsm_fill_route_attrs] and [fsm_fill_route6_attrs] read in the same
    way: [(local_pref, origin, med, as_path_len, origin_as)]. *)
Definition route_scalars (view : bgp_attr_view_t) (is_ibgp : bool) : M (Z * Z * Z * Z * Z) :=
  local_pref ← (if is_ibgp then view_member data_local_pref view 5 100 else mret 100);
  origin ← view_member data_origin view 1 0;
  med ← view_member data_med view 4 0;
  let '(as_path_len, origin_as) := fsm_as_path_len_and_origin_as (bgp_attr_view_get view 2) in
  mret (local_pref, origin, med, as_path_len, origin_as).

(** The route of [prefix] with the fields the caller has set and those of
    [fsm_fill_route_attrs]; a zeroed structure otherwise. *)
Definition fsm_fill_route_attrs (prefix : libbgp_prefix4_t) (source_router_id : Z) (route_is_ibgp : bool)
    (update : libbgp_update_msg_t) (weight : Z) (is_ibgp : bool) : M libbgp_rib4_route_t :=
  let view := bgp_attr_view_build (upd_attrs update) in
  next_hop ← view_member data_next_hop view 3 0;
  '(local_pref, origin, med, as_path_len, origin_as) ← route_scalars view is_ibgp;
  mret (RibRoute (family := family4) prefix source_router_id next_hop weight route_is_ibgp local_pref
          med origin as_path_len origin_as 0 (upd_attrs update)).

Definition fsm_ipv4_route_attr (attr : libbgp_pattr_t) : bool :=
  negb (bool_decide (pa_type attr = LIBBGP_PATTR_MP_REACH_IPV6)) &&
  negb (bool_decide (pa_type attr = LIBBGP_PATTR_MP_UNREACH_IPV6)).

Definition fsm_ipv6_route_attr (attr : libbgp_pattr_t) : bool :=
  negb (bool_decide (pa_type attr = LIBBGP_PATTR_NEXT_HOP)) &&
  negb (bool_decide (pa_type attr = LIBBGP_PATTR_MP_REACH_IPV6)) &&
  negb (bool_decide (pa_type attr = LIBBGP_PATTR_MP_UNREACH_IPV6)).

(** [attr->data.mp_reach_ipv6]: [(nexthop, nexthop_len, nlri)] *)
Definition data_mp_reach (d : libbgp_pattr_data) : option (list Z * Z * list libbgp_prefix6_t) :=
  match d with d_mp_reach_ipv6 nh nhl nlri => Some (nh, nhl, nlri) | _ => None end.

(** The scalars of the route and its next hops: [fsm_fill_route6_attrs]. *)
Definition fsm_fill_route6_attrs (update : libbgp_update_msg_t) (mp_reach : libbgp_pattr_t) (is_ibgp : bool)
    : M ((list Z * list Z) * (Z * Z * Z * Z * Z)) :=
  '(nexthop, nexthop_len, _) ← member data_mp_reach mp_reach;
  next_hop ← slice nexthop 0 16;
  linklocal ← (if nexthop_len =? 32 then slice nexthop 16 16 else mret (replicate 16 0));
  scalars ← route_scalars (bgp_attr_view_build (upd_attrs update)) is_ibgp;
  mret ((next_hop, linklocal), scalars).

Definition fsm_make_route6 (peer_bgp_id : Z) (update : libbgp_update_msg_t) (mp_reach : libbgp_pattr_t)
    (prefix : libbgp_prefix6_t) (weight : Z) (is_ibgp : bool) : M libbgp_rib6_route_t :=
  '(_, nexthop_len, _) ← member data_mp_reach mp_reach;
  fail_if (negb (nexthop_len =? 16) && negb (nexthop_len =? 32)) LIBBGP_ERR_INVALID;;
  '(hops, (local_pref, origin, med, as_path_len, origin_as)) ←
    fsm_fill_route6_attrs update mp_reach is_ibgp;
  let filtered := filter (λ attr, fsm_ipv6_route_attr attr = true) (upd_attrs update) in
  (if zlen filtered =? 0 then mret tt
   else
     fail_if (SIZE_MAX / SIZEOF_POINTER <? zlen filtered) LIBBGP_ERR_NOMEM;;
     alloc_or_nomem);;
  mret (RibRoute (family := family6) prefix peer_bgp_id hops weight is_ibgp local_pref med origin
          as_path_len origin_as 0 filtered).

(** ** The checks on a received UPDATE *)

(** The NOTIFICATION subcode of the first defect. *)
Definition fsm_validate_update_mp_attr (attr : libbgp_pattr_t) : option Z :=
  match pa_data attr with
  | d_mp_reach_ipv6 _ nexthop_len nlri =>
      if negb (nexthop_len =? 16) && negb (nexthop_len =? 32) then Some FSM_UPDATE_ERR_ATTR_LEN
      else if existsb (λ p, 128 <? p6_len p) nlri then Some FSM_UPDATE_ERR_MALFORMED_ATTR_LIST
      else None
  | d_mp_unreach_ipv6 withdrawn =>
      if existsb (λ p, 128 <? p6_len p) withdrawn then Some FSM_UPDATE_ERR_MALFORMED_ATTR_LIST else None
  | _ => None
  end.

Definition fsm_semantic_duplicate_attr (type : libbgp_pattr_type_t) : bool :=
  match type with LIBBGP_PATTR_UNKNOWN => false | _ => true end.

(** An empty array of AS numbers is a null pointer. *)
Definition fsm_valid_as_path_attr (attr : libbgp_pattr_t) : bool :=
  match pa_data attr with
  | d_as_path segs _ | d_as4_path segs _ =>
      forallb (λ seg, ((seg_type seg =? 1) || (seg_type seg =? 2)) &&
                      negb ((zlen (seg_asns seg) =? 0) || (255 <? zlen (seg_asns seg)))) segs
  | _ => true
  end.

(** The counters of the loop; [attr_counts] is indexed by the type. *)
Record fsm_validate_state : Type := FsmValidate {
  fv_view : bgp_attr_view_t;
  fv_attr_counts : libbgp_pattr_type_t -> Z;
  fv_origin_count : Z;
  fv_as_path_count : Z;
  fv_next_hop_count : Z;
  fv_ipv6_advertise : bool
}.

Definition count_type (counts : libbgp_pattr_type_t -> Z) (type : libbgp_pattr_type_t)
    : libbgp_pattr_type_t -> Z :=
  λ t, if decide (t = type) then counts t + 1 else counts t.

(** One attribute: the subcode of its defect, or the new counters. *)
Definition fsm_validate_attr (v : fsm_validate_state) (attr : libbgp_pattr_t) : fsm_validate_state + Z :=
  let '(added, view) := bgp_attr_view_add (fv_view v) attr in
  let type := pa_type attr in
  let counts := count_type (fv_attr_counts v) type in
  if negb added then inr FSM_UPDATE_ERR_MALFORMED_ATTR_LIST
  else if negb (fsm_valid_as_path_attr attr) then inr FSM_UPDATE_ERR_MALFORMED_ATTR_LIST
  else if fsm_semantic_duplicate_attr type && (1 <? counts type)
  then inr FSM_UPDATE_ERR_MALFORMED_ATTR_LIST
  else
    let one t := if decide (type = t) then 1 else 0 in
    match fsm_validate_update_mp_attr attr with
    | Some subcode => inr subcode
    | None =>
        inl (FsmValidate view counts
               (fv_origin_count v + one LIBBGP_PATTR_ORIGIN)
               (fv_as_path_count v + one LIBBGP_PATTR_AS_PATH)
               (fv_next_hop_count v + one LIBBGP_PATTR_NEXT_HOP)
               (fv_ipv6_advertise v || update_mp_reach_has_nlri attr))
    end.

Fixpoint fsm_validate_attrs (v : fsm_validate_state) (attrs : list libbgp_pattr_t) : fsm_validate_state + Z :=
  match attrs with
  | [] => inl v
  | attr :: attrs' =>
      match fsm_validate_attr v attr with
      | inl v => fsm_validate_attrs v attrs'
      | inr subcode => inr subcode
      end
  end.

(** [None]: the update is accepted; [Some subcode]: [LIBBGP_ERR_INVALID] with
    that NOTIFICATION subcode. *)
Definition fsm_validate_update (update : libbgp_update_msg_t) : option Z :=
  if existsb (λ p, 32 <? p4_len p) (upd_withdrawn update) then Some FSM_UPDATE_ERR_MALFORMED_ATTR_LIST
  else if existsb (λ p, 32 <? p4_len p) (upd_nlri update) then Some FSM_UPDATE_ERR_MALFORMED_ATTR_LIST
  else
    match fsm_validate_attrs (FsmValidate bgp_attr_view_init (λ _, 0) 0 0 0 false) (upd_attrs update) with
    | inr subcode => Some subcode
    | inl v =>
        if negb (zlen (upd_nlri update) =? 0) &&
           (negb (fv_origin_count v =? 1) || negb (fv_as_path_count v =? 1) ||
            negb (fv_next_hop_count v =? 1))
        then Some FSM_UPDATE_ERR_MISSING_WELL_KNOWN
        else if fv_ipv6_advertise v &&
                (negb (fv_origin_count v =? 1) || negb (fv_as_path_count v =? 1))
        then Some FSM_UPDATE_ERR_MISSING_WELL_KNOWN
        else None
    end.

(** ** Updates from routes *)

(** [if (err != LIBBGP_OK && err != LIBBGP_ERR_EXISTS) return err] around
    [libbgp_update_add_attr]. *)
Fixpoint add_route_attrs (keep : libbgp_pattr_t -> bool) (attrs : list libbgp_pattr_t)
    (update : libbgp_update_msg_t) : M libbgp_update_msg_t :=
  match attrs with
  | [] => mret update
  | attr :: attrs' =>
      if keep attr then
        r ← try_call (libbgp_update_add_attr update attr);
        match r with
        | inl update => add_route_attrs keep attrs' update
        | inr e =>
            if decide (e = LIBBGP_ERR_EXISTS) then add_route_attrs keep attrs' update else err e
        end
      else add_route_attrs keep attrs' update
  end.

(** The update takes references to the attributes of the route, so the next
    hop it sets in place is written into the route's own NEXT_HOP.  They agree
    for every route [fsm_fill_route_attrs] and [libbgp_rib4_insert_local]
    make, and the model keeps the route as it is. *)
Definition fsm_update_from_route4 (route : libbgp_rib4_route_t) : M libbgp_update_msg_t :=
  fail_if (32 <? p4_len (rr_prefix (family := family4) route)) LIBBGP_ERR_INVALID;;
  update ← add_route_attrs fsm_ipv4_route_attr (rr_attrs (family := family4) route) libbgp_update_init;
  update ← fsm_update_ensure_origin update (rr_origin (family := family4) route);
  update ← fsm_update_ensure_empty_as_path update;
  update ← fsm_update_set_next_hop4 update (rr_next_hop (family := family4) route);
  libbgp_update_add_nlri update (rr_prefix (family := family4) route).

Definition fsm_update_add_mp_reach6 (update : libbgp_update_msg_t) (prefix : libbgp_prefix6_t)
    (next_hop next_hop_linklocal : list Z) : M libbgp_update_msg_t :=
  mp ← libbgp_pattr_new LIBBGP_PATTR_MP_REACH_IPV6;
  let '(nexthop, nexthop_len) :=
    if fsm_zero_addr6 next_hop_linklocal then (next_hop ++ replicate 16 0, 16)
    else (next_hop ++ next_hop_linklocal, 32) in
  alloc_or_nomem;;
  libbgp_update_add_attr update
    (Pattr (pa_flags mp) (pa_type_code mp) (d_mp_reach_ipv6 nexthop nexthop_len [prefix])).

Definition fsm_update_from_route6 (route : libbgp_rib6_route_t) : M libbgp_update_msg_t :=
  fail_if (128 <? p6_len (rr_prefix (family := family6) route)) LIBBGP_ERR_INVALID;;
  update ← add_route_attrs fsm_ipv6_route_attr (rr_attrs (family := family6) route) libbgp_update_init;
  update ← fsm_update_ensure_origin update (rr_origin (family := family6) route);
  update ← fsm_update_ensure_empty_as_path update;
  fsm_update_add_mp_reach6 update (rr_prefix (family := family6) route)
    (rr_next_hop (family := family6) route).1 (rr_next_hop (family := family6) route).2.

(** ** Updates for a peer *)

(** The update [fsm_send_prepared_update] hands to [fsm_send_borrowed_update]. *)
Definition fsm_prepared_update (update : libbgp_update_msg_t) (local_asn : Z) (use_4b_asn is_ibgp : bool)
    (policy : fsm_policy) : M libbgp_update_msg_t :=
  copy ← fsm_clone_update update;
  if fsm_update_has_advertisements copy then
    let copy := fsm_update_prepare_forward_attrs copy is_ibgp in
    copy ← fsm_alter_nexthop4 copy (po_peering_lan4 policy) (po_default_nexthop4 policy)
             (po_force_default_nexthop4 policy) is_ibgp (po_ibgp_alter_nexthop policy);
    copy ← fsm_alter_nexthop6 copy (po_peering_lan6 policy) (po_default_nexthop6 policy)
             (po_default_nexthop6_linklocal policy) (po_force_default_nexthop6 policy) is_ibgp
             (po_ibgp_alter_nexthop policy);
    copy ← (if use_4b_asn then libbgp_update_restore_as_path copy
            else libbgp_update_downgrade_as_path copy);
    copy ← (if use_4b_asn then libbgp_update_restore_aggregator copy
            else libbgp_update_downgrade_aggregator copy);
    if is_ibgp then mret copy else libbgp_update_prepend_asn copy local_asn use_4b_asn
  else mret copy.
End FsmHost.
