(* ===== verification/FsmUpdate.v ===== *)
(** * Applying a received UPDATE to the routing tables (src/fsm.c)

    Every change is recorded in a journal: the routes inserted, the routes
    they replaced and the routes withdrawn.  When a later step fails the
    journal is rolled back; otherwise the changes of best routes it lists are
    published.  The journal has the same two halves for IPv4 and IPv6, which
    are written once over the class [Family]. *)

From stdpp Require Import gmap.
From S2P Require Import Prelude Bytes Prefix4 Prefix6 Pattr Update As4 Filter Hashmap Rib RibTable Rib46 Fsm.

Inductive fsm_update_event_kind_t : Type :=
  | FSM_UPDATE_EVENT_ROUTE4
  | FSM_UPDATE_EVENT_ROUTE6
  | FSM_UPDATE_EVENT_WITHDRAWN4
  | FSM_UPDATE_EVENT_WITHDRAWN6.

Record fsm_update_event_ref_t : Type := EventRef { er_kind : fsm_update_event_kind_t; er_index : Z }.

(** The part of the journal both families share. *)
Record fsm_journal_events : Type := JournalEvents {
  je_seq : Z;
  je_events : list fsm_update_event_ref_t;
  je_cap : Z
}.

(** [fsm_update_journal_reserve_events_to] and its four siblings: the capacity
    from now on, or [LIBBGP_ERR_NOMEM]; [size] is the size of an element. *)
Fixpoint journal_double (fuel : nat) (cap needed : Z) : M Z :=
  if cap <? needed then
    let next_cap := u64 (cap * 2) in
    if next_cap <? cap then err LIBBGP_ERR_NOMEM
    else
      match fuel with
      | O => stuck OutOfFuel
      | S fuel' => journal_double fuel' next_cap needed
      end
  else mret cap.

Definition journal_reserve_to (cap needed size : Z) : M Z :=
  if needed <=? cap then mret cap
  else
    cap ← journal_double DOUBLE_FUEL (if cap =? 0 then 4 else cap) needed;
    fail_if (SIZE_MAX / size <? cap) LIBBGP_ERR_NOMEM;;
    alloc_or_nomem;;
    mret cap.

Definition SIZEOF_EVENT_REF : Z := 16.
Definition SIZEOF_APPLIED4 : Z := 120.
Definition SIZEOF_APPLIED6 : Z := 176.
Definition SIZEOF_WITHDRAWN4 : Z := 112.
Definition SIZEOF_WITHDRAWN6 : Z := 160.

Definition fsm_update_journal_reserve_events_to (ev : fsm_journal_events) (needed : Z)
    : M fsm_journal_events :=
  cap ← journal_reserve_to (je_cap ev) needed SIZEOF_EVENT_REF;
  mret (JournalEvents (je_seq ev) (je_events ev) cap).

Definition fsm_update_journal_append_event (ev : fsm_journal_events) (kind : fsm_update_event_kind_t)
    (index : Z) : M fsm_journal_events :=
  fail_if (zlen (je_events ev) =? SIZE_MAX) LIBBGP_ERR_NOMEM;;
  ev ← fsm_update_journal_reserve_events_to ev (zlen (je_events ev) + 1);
  mret (JournalEvents (je_seq ev) (je_events ev ++ [EventRef kind index]) (je_cap ev)).

(** [seq = journal->event_seq++] *)
Definition next_seq (ev : fsm_journal_events) : fsm_journal_events :=
  JournalEvents (u64 (je_seq ev + 1)) (je_events ev) (je_cap ev).

(** ** One half of the journal *)

Section Half.
Context `{family : Family} {host : Host}.

Record fsm_applied_route_t : Type := AppliedRoute {
  ap_seq : Z;
  ap_prefix : Prefix;
  ap_update_id : Z;
  ap_restore_replaced : bool;
  ap_change_kind : bgp_rib_change_kind_t;
  ap_best_route : option libbgp_rib_route_t;
  ap_replaced : option entry_ptr
}.

Record fsm_withdrawn_route_t : Type := WithdrawnRoute {
  wd_seq : Z;
  wd_prefix : Prefix;
  wd_publish_withdrawn : bool;
  wd_publish_replacement : bool;
  wd_replacement_route : option libbgp_rib_route_t;
  wd_saved : option entry_ptr
}.

Record fsm_journal_half : Type := JournalHalf {
  jh_routes : list fsm_applied_route_t;
  jh_routes_cap : Z;
  jh_withdrawn : list fsm_withdrawn_route_t;
  jh_withdrawn_cap : Z
}.

(** What tells the two halves apart: the sizes and the kinds of events. *)
Context (sizeof_applied sizeof_withdrawn : Z) (kind_route kind_withdrawn : fsm_update_event_kind_t).

Definition fsm_update_journal_reserve_routes_to (h : fsm_journal_half) (needed : Z) : M fsm_journal_half :=
  cap ← journal_reserve_to (jh_routes_cap h) needed sizeof_applied;
  mret (JournalHalf (jh_routes h) cap (jh_withdrawn h) (jh_withdrawn_cap h)).

Definition fsm_update_journal_reserve_withdrawn_to (h : fsm_journal_half) (needed : Z)
    : M fsm_journal_half :=
  cap ← journal_reserve_to (jh_withdrawn_cap h) needed sizeof_withdrawn;
  mret (JournalHalf (jh_routes h) (jh_routes_cap h) (jh_withdrawn h) cap).

Definition fsm_update_journal_reserve_route (h : fsm_journal_half) : M fsm_journal_half :=
  fail_if (zlen (jh_routes h) =? SIZE_MAX) LIBBGP_ERR_NOMEM;;
  fsm_update_journal_reserve_routes_to h (zlen (jh_routes h) + 1).

Definition fsm_update_journal_reserve_withdrawal (h : fsm_journal_half) : M fsm_journal_half :=
  fail_if (zlen (jh_withdrawn h) =? SIZE_MAX) LIBBGP_ERR_NOMEM;;
  fsm_update_journal_reserve_withdrawn_to h (zlen (jh_withdrawn h) + 1).

Definition best_changed (kind : bgp_rib_change_kind_t) : bool :=
  match kind with
  | BGP_RIB_CHANGE_NEW_BEST | BGP_RIB_CHANGE_REPLACEMENT_BEST => true
  | _ => false
  end.

(** The caller passes the change and the copy of the best route, which is
    moved into the entry.  The journal and the error code. *)
Definition fsm_update_journal_record (ev : fsm_journal_events) (h : fsm_journal_half)
    (prefix : Prefix) (update_id : Z) (restore_replaced : bool) (replaced : option entry_ptr)
    (change : bgp_rib_change_t) : M (fsm_journal_events * fsm_journal_half * libbgp_err_t) :=
  if update_id =? 0 then mret (ev, h, LIBBGP_OK)
  else
    r ← try_call (fsm_update_journal_reserve_route h);
    match r with
    | inr e => mret (ev, h, e)
    | inl h =>
        let seq := je_seq ev in
        let ev := next_seq ev in
        let changed := best_changed (ch_kind change) in
        let best := if changed then ch_best change else None in
        let entry := AppliedRoute seq prefix update_id restore_replaced (ch_kind change) best replaced in
        r ← try_call (if changed
                      then fsm_update_journal_append_event ev kind_route (zlen (jh_routes h))
                      else mret ev);
        match r with
        | inr e => mret (ev, h, e)
        | inl ev =>
            mret (ev, JournalHalf (jh_routes h ++ [entry]) (jh_routes_cap h) (jh_withdrawn h)
                        (jh_withdrawn_cap h), LIBBGP_OK)
        end
    end.

Definition fsm_update_journal_has_route (h : fsm_journal_half) (prefix : Prefix) (update_id : Z) : bool :=
  if update_id =? 0 then false
  else existsb (λ r, (ap_update_id r =? update_id) && prefix_eq (ap_prefix r) prefix) (jh_routes h).

(** What a withdrawal publishes: [(publish_withdrawn, publish_replacement, replacement_route)]. *)
Definition withdrawal_event (change : bgp_rib_change_t) : bool * bool * option libbgp_rib_route_t :=
  match ch_kind change, ch_best change with
  | BGP_RIB_CHANGE_REPLACEMENT_BEST, Some best => (false, true, Some best)
  | BGP_RIB_CHANGE_UNREACHABLE, _ => (true, false, None)
  | _, _ => (false, false, None)
  end.

(** An error after the withdrawal puts the route back. *)
Definition fsm_update_journal_record_withdraw (ev : fsm_journal_events) (h : fsm_journal_half)
    (rib : rib_impl_t) (peer_bgp_id : Z) (prefix : Prefix)
    : M (fsm_journal_events * fsm_journal_half * rib_impl_t * libbgp_err_t) :=
  r ← try_call (fsm_update_journal_reserve_withdrawal h);
  match r with
  | inr e => mret (ev, h, rib, e)
  | inl h =>
      '(rib, e, saved, change) ← bgp_rib_withdraw_track_best_save rib peer_bgp_id prefix true;
      match saved with
      | None => mret (ev, h, rib, e)
      | Some entry =>
          if decide (e = LIBBGP_OK) then
            let '(publish_withdrawn, publish_replacement, replacement) := withdrawal_event change in
            let publishes := publish_replacement || publish_withdrawn in
            let seq := if publishes then je_seq ev else 0 in
            let ev := if publishes then next_seq ev else ev in
            r ← try_call (if publishes
                          then fsm_update_journal_append_event ev kind_withdrawn (zlen (jh_withdrawn h))
                          else mret ev);
            match r with
            | inr e =>
                '(rib, _, _) ← bgp_rib_restore_saved_if_absent rib peer_bgp_id (Some entry);
                mret (ev, h, rib, e)
            | inl ev =>
                let w := WithdrawnRoute seq prefix publish_withdrawn publish_replacement replacement
                           (Some entry) in
                mret (ev, JournalHalf (jh_routes h) (jh_routes_cap h) (jh_withdrawn h ++ [w])
                            (jh_withdrawn_cap h), rib, LIBBGP_OK)
            end
          else
            '(rib, _, _) ← bgp_rib_restore_saved_if_absent rib peer_bgp_id (Some entry);
            mret (ev, h, rib, e)
      end
  end.

(** The body of the insertion loops, from the route on: insert it and record
    it, or undo. *)
Definition insert_and_record (ev : fsm_journal_events) (h : fsm_journal_half) (rib : rib_impl_t)
    (peer_bgp_id : Z) (route : libbgp_rib_route_t)
    : M (fsm_journal_events * fsm_journal_half * rib_impl_t * libbgp_err_t) :=
  '(rib, r, change) ← bgp_rib_insert_track_best_save_replaced rib route false true;
  let replaced := ir_replaced r in
  let update_id := ir_update_id r in
  '(e, restore_replaced) ←
    (if decide (ir_err r = LIBBGP_OK) then
       match replaced with
       | None => mret (LIBBGP_OK, false)
       | Some _ =>
           id ← try_call (bgp_rib_saved_route_update_id replaced);
           match id with
           | inl replaced_update_id =>
               mret (LIBBGP_OK, negb (fsm_update_journal_has_route h (rr_prefix route) replaced_update_id))
           | inr e => mret (e, false)
           end
       end
     else mret (ir_err r, false));
  '(ev, h, e) ←
    (if decide (e = LIBBGP_OK)
     then fsm_update_journal_record ev h (rr_prefix route) update_id restore_replaced replaced change
     else mret (ev, h, e));
  if decide (e = LIBBGP_OK) then mret (ev, h, rib, LIBBGP_OK)
  else
    '(rib, _) ← bgp_rib_withdraw_exact_if_update_id rib peer_bgp_id (rr_prefix route) update_id;
    '(rib, _, _) ← bgp_rib_restore_saved_if_absent rib peer_bgp_id replaced;
    mret (ev, h, rib, e).

(** *** Rolling back *)

(** [for (i = count; i > 0; i--)]: the caller passes the reversed list. *)
Fixpoint remove_insertions (rib : rib_impl_t) (peer_bgp_id : Z) (routes : list fsm_applied_route_t)
    : M rib_impl_t :=
  match routes with
  | [] => mret rib
  | r :: routes' =>
      '(rib, _) ← bgp_rib_withdraw_exact_if_update_id rib peer_bgp_id (ap_prefix r) (ap_update_id r);
      remove_insertions rib peer_bgp_id routes'
  end.

(** A restored entry is moved back into the table; one that is not is freed
    with the journal. *)
Fixpoint restore_replacements (rib : rib_impl_t) (peer_bgp_id : Z) (routes : list fsm_applied_route_t)
    : M rib_impl_t :=
  match routes with
  | [] => mret rib
  | r :: routes' =>
      if ap_restore_replaced r then
        '(rib, _, _) ← bgp_rib_restore_saved_if_absent rib peer_bgp_id (ap_replaced r);
        restore_replacements rib peer_bgp_id routes'
      else restore_replacements rib peer_bgp_id routes'
  end.

Fixpoint restore_withdrawals (rib : rib_impl_t) (peer_bgp_id : Z) (withdrawn : list fsm_withdrawn_route_t)
    : M rib_impl_t :=
  match withdrawn with
  | [] => mret rib
  | w :: withdrawn' =>
      '(rib, _, _) ← bgp_rib_restore_saved_if_absent rib peer_bgp_id (wd_saved w);
      restore_withdrawals rib peer_bgp_id withdrawn'
  end.
End Half.

(** ** The journal and its two halves *)

Section Apply.
Context {host : Host}.

Definition fsm_applied_route4_t : Type := fsm_applied_route_t (family := family4).
Definition fsm_applied_route6_t : Type := fsm_applied_route_t (family := family6).
Definition fsm_withdrawn_route4_t : Type := fsm_withdrawn_route_t (family := family4).
Definition fsm_withdrawn_route6_t : Type := fsm_withdrawn_route_t (family := family6).
Definition fsm_journal_half4 : Type := fsm_journal_half (family := family4).
Definition fsm_journal_half6 : Type := fsm_journal_half (family := family6).

Record fsm_update_journal_t : Type := UpdateJournal {
  uj_events : fsm_journal_events;
  uj_4 : fsm_journal_half4;
  uj_6 : fsm_journal_half6
}.

(** The zeroed journal; [fsm_update_journal_destroy] frees what it holds and
    leaves this one. *)
Definition fsm_update_journal_empty : fsm_update_journal_t :=
  UpdateJournal (JournalEvents 0 [] 0) (JournalHalf (family := family4) [] 0 [] 0)
    (JournalHalf (family := family6) [] 0 [] 0).

Definition fsm_update_journal_destroy (_ : fsm_update_journal_t) : fsm_update_journal_t :=
  fsm_update_journal_empty.

Definition fsm_update_journal_reserve4_to :=
  fsm_update_journal_reserve_routes_to (family := family4) SIZEOF_APPLIED4.
Definition fsm_update_journal_reserve6_to :=
  fsm_update_journal_reserve_routes_to (family := family6) SIZEOF_APPLIED6.
Definition fsm_update_journal_reserve_withdrawn4_to :=
  fsm_update_journal_reserve_withdrawn_to (family := family4) SIZEOF_WITHDRAWN4.
Definition fsm_update_journal_reserve_withdrawn6_to :=
  fsm_update_journal_reserve_withdrawn_to (family := family6) SIZEOF_WITHDRAWN6.
Definition fsm_update_journal_reserve4 :=
  fsm_update_journal_reserve_route (family := family4) SIZEOF_APPLIED4.
Definition fsm_update_journal_reserve6 :=
  fsm_update_journal_reserve_route (family := family6) SIZEOF_APPLIED6.
Definition fsm_update_journal_reserve_withdrawn4 :=
  fsm_update_journal_reserve_withdrawal (family := family4) SIZEOF_WITHDRAWN4.
Definition fsm_update_journal_reserve_withdrawn6 :=
  fsm_update_journal_reserve_withdrawal (family := family6) SIZEOF_WITHDRAWN6.
Definition fsm_update_journal_record4 :=
  fsm_update_journal_record (family := family4) SIZEOF_APPLIED4 FSM_UPDATE_EVENT_ROUTE4.
Definition fsm_update_journal_record6 :=
  fsm_update_journal_record (family := family6) SIZEOF_APPLIED6 FSM_UPDATE_EVENT_ROUTE6.
Definition fsm_update_journal_has_route4 := fsm_update_journal_has_route (family := family4).
Definition fsm_update_journal_has_route6 := fsm_update_journal_has_route (family := family6).
Definition fsm_update_journal_record_withdraw4 :=
  fsm_update_journal_record_withdraw (family := family4) SIZEOF_WITHDRAWN4 FSM_UPDATE_EVENT_WITHDRAWN4.
Definition fsm_update_journal_record_withdraw6 :=
  fsm_update_journal_record_withdraw (family := family6) SIZEOF_WITHDRAWN6 FSM_UPDATE_EVENT_WITHDRAWN6.
Definition insert_and_record4 :=
  insert_and_record (family := family4) SIZEOF_APPLIED4 FSM_UPDATE_EVENT_ROUTE4.
Definition insert_and_record6 :=
  insert_and_record (family := family6) SIZEOF_APPLIED6 FSM_UPDATE_EVENT_ROUTE6.

(** The prefixes of the MP_REACH and the MP_UNREACH attributes. *)
Definition mp_reach_nlri (attr : libbgp_pattr_t) : list libbgp_prefix6_t :=
  match pa_data attr with d_mp_reach_ipv6 _ _ nlri => nlri | _ => [] end.
Definition mp_unreach_withdrawn (attr : libbgp_pattr_t) : list libbgp_prefix6_t :=
  match pa_data attr with d_mp_unreach_ipv6 withdrawn => withdrawn | _ => [] end.

Fixpoint count_needed (f : libbgp_pattr_t -> list libbgp_prefix6_t) (attrs : list libbgp_pattr_t)
    (needed : Z) : M Z :=
  match attrs with
  | [] => mret needed
  | attr :: attrs' =>
      fail_if (SIZE_MAX - needed <? zlen (f attr)) LIBBGP_ERR_NOMEM;;
      count_needed f attrs' (needed + zlen (f attr))
  end.

(** [has4], [has6]: there is a table of the family.  Capacities grown before
    an error are not kept; the journal is given up then. *)
Definition fsm_update_journal_reserve_update (journal : fsm_update_journal_t) (has4 has6 : bool)
    (update : libbgp_update_msg_t) : M fsm_update_journal_t :=
  let h4 := uj_4 journal in
  let h6 := uj_6 journal in
  '(routes4_needed, withdrawn4_needed) ←
    (if has4 then
       fail_if (SIZE_MAX - zlen (jh_routes h4) <? zlen (upd_nlri update)) LIBBGP_ERR_NOMEM;;
       fail_if (SIZE_MAX - zlen (jh_withdrawn h4) <? zlen (upd_withdrawn update)) LIBBGP_ERR_NOMEM;;
       mret (zlen (jh_routes h4) + zlen (upd_nlri update),
             zlen (jh_withdrawn h4) + zlen (upd_withdrawn update))
     else mret (0, 0));
  '(routes6_needed, withdrawn6_needed) ←
    (if has6 then
       routes6 ← count_needed mp_reach_nlri (upd_attrs update) (zlen (jh_routes h6));
       withdrawn6 ← count_needed mp_unreach_withdrawn (upd_attrs update) (zlen (jh_withdrawn h6));
       mret (routes6, withdrawn6)
     else mret (0, 0));
  h4 ← fsm_update_journal_reserve4_to h4 routes4_needed;
  h6 ← fsm_update_journal_reserve6_to h6 routes6_needed;
  h4 ← fsm_update_journal_reserve_withdrawn4_to h4 withdrawn4_needed;
  h6 ← fsm_update_journal_reserve_withdrawn6_to h6 withdrawn6_needed;
  fail_if ((SIZE_MAX - routes6_needed <? routes4_needed) ||
           (SIZE_MAX - withdrawn4_needed <? routes4_needed + routes6_needed) ||
           (SIZE_MAX - withdrawn6_needed <? routes4_needed + routes6_needed + withdrawn4_needed))
    LIBBGP_ERR_NOMEM;;
  ev ← fsm_update_journal_reserve_events_to (uj_events journal)
         (routes4_needed + routes6_needed + withdrawn4_needed + withdrawn6_needed);
  mret (UpdateJournal ev h4 h6).

(** ** The loops *)

(** What the loops change: the two tables behind the pointers, the journal and
    [*advertisements_ignored]. *)
Record apply_state : Type := ApplyState {
  as_rib4 : option rib4_impl_t;
  as_rib6 : option rib6_impl_t;
  as_journal : fsm_update_journal_t;
  as_ignored : bool
}.

Definition with_half4 (st : apply_state) ev h4 rib4 : apply_state :=
  ApplyState (Some rib4) (as_rib6 st) (UpdateJournal ev h4 (uj_6 (as_journal st))) (as_ignored st).
Definition with_half6 (st : apply_state) ev h6 rib6 : apply_state :=
  ApplyState (as_rib4 st) (Some rib6) (UpdateJournal ev (uj_4 (as_journal st)) h6) (as_ignored st).
Definition ignore (st : apply_state) : apply_state :=
  ApplyState (as_rib4 st) (as_rib6 st) (as_journal st) true.

(** [None]: go on; [Some e]: [return e]. *)
Definition flow : Type := option libbgp_err_t.

Definition flow_of (e : libbgp_err_t) : flow := if decide (e = LIBBGP_OK) then None else Some e.

(** One loop over prefixes; every turn first asks whether the session is
    still the one that received the update. *)
Fixpoint prefix_loop {P} (current : bool) (body : apply_state -> P -> M (apply_state * flow))
    (ps : list P) (st : apply_state) : M (apply_state * flow) :=
  match ps with
  | [] => mret (st, None)
  | p :: ps' =>
      if negb current then mret (st, Some LIBBGP_OK)
      else
        '(st, f) ← body st p;
        match f with
        | None => prefix_loop current body ps' st
        | Some e => mret (st, Some e)
        end
  end.

Definition then_loop (r : apply_state * flow) (k : apply_state -> M (apply_state * flow))
    : M (apply_state * flow) :=
  match r.2 with
  | None => k r.1
  | Some _ => mret r
  end.

Definition withdraw_body4 (peer_bgp_id : Z) (st : apply_state) (p : libbgp_prefix4_t)
    : M (apply_state * flow) :=
  match as_rib4 st with
  | None => mret (st, None)
  | Some rib4 =>
      '(ev, h4, rib4, e) ← fsm_update_journal_record_withdraw4 (uj_events (as_journal st))
                             (uj_4 (as_journal st)) rib4 peer_bgp_id p;
      mret (with_half4 st ev h4 rib4, flow_of e)
  end.

Definition withdraw_body6 (peer_bgp_id : Z) (st : apply_state) (p : libbgp_prefix6_t)
    : M (apply_state * flow) :=
  match as_rib6 st with
  | None => mret (st, None)
  | Some rib6 =>
      '(ev, h6, rib6, e) ← fsm_update_journal_record_withdraw6 (uj_events (as_journal st))
                             (uj_6 (as_journal st)) rib6 peer_bgp_id p;
      mret (with_half6 st ev h6 rib6, flow_of e)
  end.

Definition insert_body4 (policy : fsm_policy) (peer_bgp_id : Z) (update : libbgp_update_msg_t)
    (is_ibgp : bool) (st : apply_state) (p : libbgp_prefix4_t) : M (apply_state * flow) :=
  route ← fsm_fill_route_attrs p peer_bgp_id is_ibgp update (po_route_weight policy) is_ibgp;
  decision ←
    match po_in_filter4 policy with
    | Some f => libbgp_filter_apply_route f p (rr_attrs (family := family4) route) LIBBGP_FILTER_PERMIT
    | None => mret LIBBGP_FILTER_PERMIT
    end;
  if decide (decision = LIBBGP_FILTER_PERMIT) then
    match as_rib4 st with
    | None => mret (st, None)
    | Some rib4 =>
        '(ev, h4, rib4, e) ← insert_and_record4 (uj_events (as_journal st)) (uj_4 (as_journal st)) rib4
                               peer_bgp_id route;
        mret (with_half4 st ev h4 rib4, flow_of e)
    end
  else mret (ignore st, None).

Definition insert_body6 (policy : fsm_policy) (peer_bgp_id : Z) (update : libbgp_update_msg_t)
    (is_ibgp : bool) (attr : libbgp_pattr_t) (st : apply_state) (p : libbgp_prefix6_t)
    : M (apply_state * flow) :=
  if bool_decide (as_rib6 st = None) && bool_decide (po_in_filter6 policy = None) then mret (st, None)
  else
    r ← try_call (fsm_make_route6 peer_bgp_id update attr p (po_route_weight policy) is_ibgp);
    match r with
    | inr e => mret (st, Some e)
    | inl route =>
        decision ←
          match po_in_filter6 policy with
          | Some f =>
              libbgp_filter_apply_route6 f p (rr_attrs (family := family6) route) LIBBGP_FILTER_PERMIT
          | None => mret LIBBGP_FILTER_PERMIT
          end;
        if decide (decision = LIBBGP_FILTER_PERMIT) then
          match as_rib6 st with
          | None => mret (st, None)
          | Some rib6 =>
              '(ev, h6, rib6, e) ← insert_and_record6 (uj_events (as_journal st))
                                     (uj_6 (as_journal st)) rib6 peer_bgp_id route;
              mret (with_half6 st ev h6 rib6, flow_of e)
          end
        else mret (ignore st, None)
    end.

(** [for (i = 0; i < attr_count; i++) for (j ...)] *)
Fixpoint attr_loop (body : libbgp_pattr_t -> apply_state -> M (apply_state * flow))
    (attrs : list libbgp_pattr_t) (st : apply_state) : M (apply_state * flow) :=
  match attrs with
  | [] => mret (st, None)
  | attr :: attrs' => r ← body attr st; then_loop r (attr_loop body attrs')
  end.

(** The advertisements are left out when a next hop of a negotiated family is
    not acceptable. *)
Fixpoint mp_next_hops_acceptable (policy : fsm_policy) (is_ibgp : bool) (attrs : list libbgp_pattr_t)
    : M bool :=
  match attrs with
  | [] => mret true
  | attr :: attrs' =>
      match pa_data attr with
      | d_mp_reach_ipv6 nexthop nexthop_len nlri =>
          if zlen nlri =? 0 then mp_next_hops_acceptable policy is_ibgp attrs'
          else
            ok ← fsm_ipv6_next_hop_acceptable policy nexthop nexthop_len is_ibgp;
            if (ok : bool) then mp_next_hops_acceptable policy is_ibgp attrs' else mret false
      | _ => mp_next_hops_acceptable policy is_ibgp attrs'
      end
  end.

Definition ignore_advertisements (impl : fsm_impl_t) (update : libbgp_update_msg_t) (is_ibgp exceeds : bool)
    : M bool :=
  let policy := fs_policy impl in
  ignored ←
    (if pe_send_ipv4_routes (fs_peer impl) && negb exceeds && negb (zlen (upd_nlri update) =? 0) then
       match libbgp_update_find_attr update LIBBGP_PATTR_NEXT_HOP with
       | None => mret true
       | Some next_hop =>
           v ← member data_next_hop next_hop;
           ok ← fsm_ipv4_next_hop_acceptable (fs_config impl) policy v is_ibgp;
           mret (negb ok)
       end
     else mret exceeds);
  if pe_send_ipv6_routes (fs_peer impl) && negb ignored then
    ok ← mp_next_hops_acceptable policy is_ibgp (upd_attrs update);
    mret (negb ok)
  else mret ignored.

(** The four loops. *)
Definition apply_routes (impl : fsm_impl_t) (session_generation peer_bgp_id : Z)
    (update : libbgp_update_msg_t) (is_ibgp ignored : bool) (st : apply_state) : M (apply_state * flow) :=
  let policy := fs_policy impl in
  let current := fsm_update_session_current impl session_generation in
  let send4 := pe_send_ipv4_routes (fs_peer impl) in
  let send6 := pe_send_ipv6_routes (fs_peer impl) in
  r ← (if send4 then prefix_loop current (withdraw_body4 peer_bgp_id) (upd_withdrawn update) st
       else mret (st, None));
  r ← then_loop r (λ st,
        if send4 && negb ignored
        then prefix_loop current (insert_body4 policy peer_bgp_id update is_ibgp) (upd_nlri update) st
        else mret (st, None));
  r ← then_loop r (attr_loop (λ attr st,
        if send6 then prefix_loop current (withdraw_body6 peer_bgp_id) (mp_unreach_withdrawn attr) st
        else mret (st, None)) (upd_attrs update));
  then_loop r (attr_loop (λ attr st,
    if send6 && negb ignored
    then prefix_loop current (insert_body6 policy peer_bgp_id update is_ibgp attr) (mp_reach_nlri attr) st
    else mret (st, None)) (upd_attrs update)).

(** The tables, the journal, whether advertisements were ignored, the
    NOTIFICATION subcode and the error code. *)
Definition fsm_apply_update (impl : fsm_impl_t) (session_generation : Z) (rib4 : option rib4_impl_t)
    (rib6 : option rib6_impl_t) (peer_bgp_id : Z) (update : libbgp_update_msg_t)
    (journal : fsm_update_journal_t) (notify_subcode : Z) : M (apply_state * Z * libbgp_err_t) :=
  let st := ApplyState rib4 rib6 journal false in
  match fsm_validate_update update with
  | Some subcode => mret (st, subcode, LIBBGP_ERR_INVALID)
  | None =>
      let is_ibgp := pe_asn (fs_peer impl) =? cfg_local_asn (fs_config impl) in
      exceeds ← try_call (fsm_update_exceeds_local_as update (cfg_local_asn (fs_config impl))
                            (po_allow_local_as (fs_policy impl)) (pe_can_send_as4_path (fs_peer impl)));
      match exceeds with
      | inr e => mret (st, FSM_UPDATE_ERR_MALFORMED_ATTR_LIST, e)
      | inl exceeds =>
          ignored ← ignore_advertisements impl update is_ibgp exceeds;
          let st := ApplyState rib4 rib6 journal ignored in
          r ← try_call (fsm_update_journal_reserve_update journal (bool_decide (is_Some rib4))
                          (bool_decide (is_Some rib6)) update);
          match r with
          | inr e => mret (st, notify_subcode, e)
          | inl journal =>
              '(st, f) ← apply_routes impl session_generation peer_bgp_id update is_ibgp ignored
                           (ApplyState rib4 rib6 journal ignored);
              mret (st, notify_subcode, default LIBBGP_OK f)
          end
      end
  end.

(** ** Rolling back *)

Definition on_rib {R} (rib : option R) (f : R -> M R) : M (option R) :=
  match rib with
  | None => mret None
  | Some rib => rib ← f rib; mret (Some rib)
  end.

Definition fsm_remove_journaled_insertions (journal : fsm_update_journal_t) (rib4 : option rib4_impl_t)
    (rib6 : option rib6_impl_t) (peer_bgp_id : Z) : M (option rib4_impl_t * option rib6_impl_t) :=
  rib4 ← on_rib rib4 (λ rib, remove_insertions (family := family4) rib peer_bgp_id
                               (rev (jh_routes (uj_4 journal))));
  rib6 ← on_rib rib6 (λ rib, remove_insertions (family := family6) rib peer_bgp_id
                               (rev (jh_routes (uj_6 journal))));
  mret (rib4, rib6).

Definition fsm_restore_journaled_replacements (journal : fsm_update_journal_t) (rib4 : option rib4_impl_t)
    (rib6 : option rib6_impl_t) (peer_bgp_id : Z) : M (option rib4_impl_t * option rib6_impl_t) :=
  rib4 ← on_rib rib4 (λ rib, restore_replacements (family := family4) rib peer_bgp_id
                               (jh_routes (uj_4 journal)));
  rib6 ← on_rib rib6 (λ rib, restore_replacements (family := family6) rib peer_bgp_id
                               (jh_routes (uj_6 journal)));
  mret (rib4, rib6).

Definition fsm_restore_journaled_withdrawals (journal : fsm_update_journal_t) (rib4 : option rib4_impl_t)
    (rib6 : option rib6_impl_t) (peer_bgp_id : Z) : M (option rib4_impl_t * option rib6_impl_t) :=
  rib4 ← on_rib rib4 (λ rib, restore_withdrawals (family := family4) rib peer_bgp_id
                               (jh_withdrawn (uj_4 journal)));
  rib6 ← on_rib rib6 (λ rib, restore_withdrawals (family := family6) rib peer_bgp_id
                               (jh_withdrawn (uj_6 journal)));
  mret (rib4, rib6).

Definition fsm_rollback_update_journal (journal : fsm_update_journal_t) (rib4 : option rib4_impl_t)
    (rib6 : option rib6_impl_t) (peer_bgp_id : Z) : M (option rib4_impl_t * option rib6_impl_t) :=
  '(rib4, rib6) ← fsm_remove_journaled_insertions journal rib4 rib6 peer_bgp_id;
  '(rib4, rib6) ← fsm_restore_journaled_replacements journal rib4 rib6 peer_bgp_id;
  fsm_restore_journaled_withdrawals journal rib4 rib6 peer_bgp_id.

Definition fsm_cleanup_stale_update_journal (journal : fsm_update_journal_t) (rib4 : option rib4_impl_t)
    (rib6 : option rib6_impl_t) (peer_bgp_id : Z) : M (option rib4_impl_t * option rib6_impl_t) :=
  fsm_remove_journaled_insertions journal rib4 rib6 peer_bgp_id.
End Apply.
