(* ===== verification/FsmJournal.v ===== *)
(** * The journal of an UPDATE: what it keeps and what a rollback restores

    One half of the journal of [FsmUpdate] against the entries of its table.
    [journaled]: the table holds what is left of the entries [R0] it had before
    the update and the new entries the journal lists; the rest of [R0] is in
    the journal, or lost because an undo was refused memory.  The steps of the
    update keep this, and the rollback ends with [R0] less what was lost. *)

From stdpp Require Import gmap.
From S2P Require Import Prelude Bytes Radix Pattr As4 Hashmap HashmapSpec Rib RibTable RibDecision RibIndex RibInv RibRoutes RibSpec RibLookup RibRefine RibBest RibSteady RibMoves Fsm FsmUpdate.

(** ** Allocators along a run *)

(** [al] is what may be left of [al0]. *)
Definition uses (al0 al : allocator) : Prop := al = al0 ∨ refused al0 = Some al.

Lemma uses_refused al0 al al' : uses al0 al → refused al = Some al' → refused al0 = Some al'.
Proof. intros [->|H]; [done|]. by destruct al0; simplify_eq/=. Qed.

Lemma uses_next al0 al al' : uses al0 al → al' = al ∨ refused al = Some al' → uses al0 al'.
Proof. intros Hu [->|H]; [done|]. right. by eapply uses_refused. Qed.

Lemma refused_twice al0 al al' : refused al0 = Some al → refused al = Some al' → al0 = Arbitrary.
Proof. by destruct al0, al. Qed.

(** A steady computation that goes well or was refused memory. *)
Lemma under_call {A} al0 al (m : M A) (good bad : A -> Prop) :
  steady m → uses al0 al → (∀ T, runs T m (λ a, good a ∨ bad a ∧ T = false)) →
  under al m (λ al' a, uses al0 al' ∧ (al' = al ∨ refused al = Some al') ∧
                       (good a ∨ bad a ∧ refused al = Some al' ∧ refused al0 = Some al')).
Proof.
  intros Hm Hu HQ. eapply under_mono; [by apply (under_steady al m (λ T a, good a ∨ bad a ∧ T = false))|]. cbn beta.
  intros al' a [[-> [?|[_ [=]]]]|[Hr [?|[? _]]]].
  - split_and!; [done|by left|by left].
  - split; [eapply uses_next; by eauto|]. by split; [right|left].
  - split; [eapply uses_next; by eauto|]. split; [by right|]. right. split_and!; [done..|by eapply uses_refused].
Qed.

(** ** Capacities *)

Definition jcap_ok (cap : Z) : Prop := 0 <= cap <= 2 ^ 43.

Lemma journal_double_run fuel cap needed s :
  1 <= cap → needed <= 2 ^ 42 → needed <= cap * 2 ^ Z.of_nat fuel →
  ∃ cap', journal_double fuel cap needed s = (Ret cap', s) ∧ needed <= cap' ∧ (cap' = cap ∨ cap' <= 2 * needed).
Proof.
  revert cap. induction fuel as [|fuel IH]; intros cap H1 H3 H4.
  - cbn [journal_double]. replace (cap <? needed) with false by lia. exists cap. split; [done|]. split; [lia|by left].
  - cbn [journal_double]. destruct (cap <? needed) eqn:Hc; [|exists cap; split; [done|]; split; [lia|by left]].
    assert (Hw : u64 (cap * 2) = cap * 2) by (unfold u64; apply Z.mod_small; lia). rewrite Hw.
    replace (cap * 2 <? cap) with false by lia.
    destruct (IH (cap * 2)) as (cap' & He & Hn & Hor); [lia..| |exists cap'; split; [done|]; split; [done|lia]].
    rewrite Nat2Z.inj_succ, Z.pow_succ_r in H4 by lia. lia.
Qed.

Lemma steady_journal_double fuel cap needed : steady (journal_double fuel cap needed).
Proof. revert cap. induction fuel; intros cap; cbn [journal_double]; steady. Qed.
#[export] Hint Resolve steady_journal_double : steady.

Lemma steady_reserve_to cap needed size : steady (journal_reserve_to cap needed size).
Proof. unfold journal_reserve_to. steady. Qed.
#[export] Hint Resolve steady_reserve_to : steady.

Lemma runs_reserve_to T cap needed size :
  jcap_ok cap → needed <= 2 ^ 42 → 0 < size <= 256 →
  runs T (try_call (journal_reserve_to cap needed size)) (λ o,
    match o with inl cap' => jcap_ok cap' | inr e => e = LIBBGP_ERR_NOMEM ∧ T = false end).
Proof.
  intros [H0 Hc] Hn Hsize. unfold journal_reserve_to. destruct (needed <=? cap) eqn:Hle.
  { by apply runs_try_ret. }
  set (cap0 := if cap =? 0 then 4 else cap).
  assert (Hcap0 : 1 <= cap0 ∧ (cap0 = 4 ∨ cap0 < needed)) by (unfold cap0; destruct (cap =? 0) eqn:?; lia).
  apply runs_try_bind. intros s Hs.
  destruct (journal_double_run DOUBLE_FUEL cap0 needed s) as (cap' & He & Hn' & Hor); [lia|lia| |].
  { unfold DOUBLE_FUEL. change (2 ^ Z.of_nat 64) with (2 ^ 64). lia. }
  eexists (inl cap'), s. unfold try_call at 1. rewrite He. split; [done|]. split; [|done]. cbn beta iota.
  assert (Hj : jcap_ok cap') by (unfold jcap_ok; lia).
  assert (Hmax : 2 ^ 43 <= SIZE_MAX / size).
  { transitivity (SIZE_MAX / 256); [done|]. apply Z.div_le_compat_l; [done|lia]. }
  replace (SIZE_MAX / size <? cap') with false by (unfold jcap_ok in Hj; lia).
  apply runs_try_bind. apply runs_try_ret. apply runs_try_bind.
  eapply runs_mono; [apply runs_try_alloc|]. intros [[]|e] H; [by apply runs_try_ret|done].
Qed.

Definition ev_ok (ev : fsm_journal_events) (n : Z) : Prop :=
  jcap_ok (je_cap ev) ∧ zlen (je_events ev) + n <= 2 ^ 41.

Lemma ev_ok_le ev n m : ev_ok ev n → m <= n → ev_ok ev m.
Proof. intros [? ?] ?. split; [done|lia]. Qed.

Lemma steady_append ev kind index : steady (fsm_update_journal_append_event ev kind index).
Proof. unfold fsm_update_journal_append_event, fsm_update_journal_reserve_events_to. steady. Qed.
#[export] Hint Resolve steady_append : steady.

Lemma runs_append T ev kind index n :
  ev_ok ev (n + 1) → 0 <= n →
  runs T (try_call (fsm_update_journal_append_event ev kind index)) (λ o,
    match o with
    | inl ev' => ev_ok ev' n ∧ je_events ev' = je_events ev ++ [EventRef kind index]
    | inr e => e = LIBBGP_ERR_NOMEM ∧ T = false
    end).
Proof.
  intros [Hc Hl] Hn. unfold fsm_update_journal_append_event, fsm_update_journal_reserve_events_to.
  assert (Hmax : SIZE_MAX = 2 ^ 64 - 1) by done.
  replace (zlen (je_events ev) =? SIZE_MAX) with false by lia. apply runs_try_bind, runs_try_ret.
  apply runs_try_bind, runs_try_bind. eapply runs_mono; [apply runs_reserve_to; [done|lia|done]|].
  intros [cap|e] H; [|done]. apply runs_try_ret, runs_try_ret. cbn [je_events je_cap]. split; [|done].
  split; [done|]. cbn [je_events]. rewrite length_app. cbn [length]. lia.
Qed.

(** The prefixes the update names; nothing else may be touched. *)
Class Named `{family : Family} : Type := named : Prefix -> Prop.

Section Recording.
Context `{family : Family} {host : Host}.
Context (sizeof_applied sizeof_withdrawn : Z) (kind_route kind_withdrawn : fsm_update_event_kind_t).
Context (Hsize_a : 0 < sizeof_applied <= 256) (Hsize_w : 0 < sizeof_withdrawn <= 256).
Implicit Types (h : fsm_journal_half).

Definition half_ok h (n : Z) : Prop :=
  jcap_ok (jh_routes_cap h) ∧ jcap_ok (jh_withdrawn_cap h) ∧
  zlen (jh_routes h) + n <= 2 ^ 39 ∧ zlen (jh_withdrawn h) + n <= 2 ^ 39.

Lemma half_ok_le h n m : half_ok h n → m <= n → half_ok h m.
Proof. intros (? & ? & ? & ?) ?. split_and!; done || lia. Qed.

(** *** Recording an insertion *)

Lemma steady_record ev h prefix id restore replaced change :
  steady (fsm_update_journal_record sizeof_applied kind_route ev h prefix id restore replaced change).
Proof.
  unfold fsm_update_journal_record, fsm_update_journal_reserve_route, fsm_update_journal_reserve_routes_to. steady.
Qed.

Lemma runs_record T ev h prefix id restore replaced change n :
  id ≠ 0 → ev_ok ev (n + 1) → half_ok h (n + 1) → 0 <= n →
  runs T (fsm_update_journal_record sizeof_applied kind_route ev h prefix id restore replaced change) (λ o,
    ev_ok o.1.1 n ∧ half_ok o.1.2 n ∧ jh_withdrawn o.1.2 = jh_withdrawn h ∧
    ((o.2 = LIBBGP_OK ∧ ∃ a, ap_prefix a = prefix ∧ ap_update_id a = id ∧ ap_restore_replaced a = restore ∧
        ap_replaced a = replaced ∧ jh_routes o.1.2 = jh_routes h ++ [a]) ∨
     o.2 = LIBBGP_ERR_NOMEM ∧ T = false ∧ jh_routes o.1.2 = jh_routes h)).
Proof.
  intros Hid Hev Hh Hn. pose proof Hh as (Hc1 & Hc2 & Hl1 & Hl2). unfold fsm_update_journal_record.
  assert (Hev' : ev_ok ev n) by (eapply ev_ok_le; [exact Hev|lia]).
  replace (id =? 0) with false by lia. apply runs_bind.
  assert (Hmax : SIZE_MAX = 2 ^ 64 - 1) by done.
  apply (runs_mono _ _ (λ o, match o with
    | inl h' => ∃ cap, jcap_ok cap ∧ h' = JournalHalf (jh_routes h) cap (jh_withdrawn h) (jh_withdrawn_cap h)
    | inr e => e = LIBBGP_ERR_NOMEM ∧ T = false end)).
  { unfold fsm_update_journal_reserve_route, fsm_update_journal_reserve_routes_to.
    replace (zlen (jh_routes h) =? SIZE_MAX) with false by lia. apply runs_try_bind, runs_try_ret, runs_try_bind.
    eapply runs_mono; [apply runs_reserve_to; [done|lia|done]|]. intros [cap|e] H; [|done]. apply runs_try_ret. by eauto. }
  intros [h'|e].
  2:{ intros [-> HT]. apply runs_ret. cbn [fst snd]. split; [done|].
      split; [eapply half_ok_le; [exact Hh|lia]|]. split; [done|by right]. }
  intros (cap & Hcap & ->). apply runs_bind.
  apply (runs_mono _ _ (λ o, match o with
    | inl ev' => ev_ok ev' n
    | inr e => e = LIBBGP_ERR_NOMEM ∧ T = false end)).
  { destruct (best_changed _).
    - eapply runs_mono; [apply (runs_append T _ _ _ n); [exact Hev|done]|]. intros [ev'|e] H; [apply H|done].
    - by apply runs_try_ret. }
  intros [ev'|e]; cbn [jh_routes jh_routes_cap jh_withdrawn jh_withdrawn_cap].
  - intros Hev1. apply runs_ret. cbn [fst snd]. split; [done|]. split.
    { unfold half_ok. cbn. rewrite length_app. cbn [length]. split_and!; done || lia. }
    split; [done|]. left. split; [done|]. eexists. split_and!; [..|done]; done.
  - intros [-> HT]. apply runs_ret. cbn [fst snd]. split; [done|]. split; [unfold half_ok; cbn; split_and!; done || lia|].
    split; [done|by right].
Qed.

End Recording.

(** ** The invariant *)

Section HalfSpec.
Context `{family : Family} {host : Host}.
Context (prefix_ok : Prefix -> Prop) (addr_ok : Addr -> Prop) `{!FamilyLaws prefix_ok addr_ok}.
Implicit Types (e : entry_ptr) (R K N L S : list entry_ptr) (impl : rib_impl_t) (k : Prefix) (h : fsm_journal_half).
Implicit Types (A : list fsm_applied_route_t) (W : list fsm_withdrawn_route_t) (route : libbgp_rib_route_t).

(** What the journal will put back. *)
Definition to_restore A W : list entry_ptr :=
  omap (λ a, if ap_restore_replaced a then ap_replaced a else None) A ++ omap wd_saved W.

Lemma to_restore_applied A W a :
  to_restore (A ++ [a]) W ≡ₚ
  (if ap_restore_replaced a then option_list (ap_replaced a) else []) ++ to_restore A W.
Proof.
  unfold to_restore. rewrite omap_app. cbn [omap list_omap].
  destruct (ap_restore_replaced a); [destruct (ap_replaced a) as [e|]|]; cbn [option_list app]; rewrite ?app_nil_r; [|done..].
  rewrite (Permutation_app_comm _ [e]). done.
Qed.

Lemma to_restore_withdrawn A W w e : wd_saved w = Some e → to_restore A (W ++ [w]) ≡ₚ e :: to_restore A W.
Proof.
  intros Hw. unfold to_restore. rewrite omap_app. cbn [omap list_omap]. rewrite Hw, (assoc_L (++)).
  by rewrite (Permutation_app_comm _ [e]).
Qed.

(** *** A new entry *)

Lemma entries_wf_sub R e R' : R ≡ₚ e :: R' → entries_wf R → entries_wf R' ∧ ∀ e', e' ∈ R' → slot_of e' ≠ slot_of e.
Proof.
  intros HR. rewrite HR. intros [Hnd Hs]. apply NoDup_cons in Hnd as [Hn Hnd]. apply Forall_cons in Hs as [_ Hs].
  split; [done|]. intros e' He' Heq. apply Hn. change (slot_of e ∈ slot_of <$> R'). rewrite <-Heq. by apply list_elem_of_fmap_2.
Qed.

Lemma placed_slot (cmp : bool) impl R route impl' replaced new R' :
  placed prefix_ok cmp impl R route impl' replaced new R' →
  slot_of new = (rr_prefix route, rr_source_router_id route) ∧
  rr_update_id (route_of new) = stored_id impl route ∧ stored_id impl route ≠ 0 ∧ grows impl impl'.
Proof.
  intros (Hnew & Haddr & Hrep & _). assert (Hin : new ∈ new :: R') by set_solver.
  pose proof (entries_ok_elem _ _ _ _ (rep_entries _ _ _ _ Hrep) Hin) as [Hkey _ _ Hlt].
  split; [|split; [by rewrite Hnew|split]].
  - unfold slot_of, src_of. by rewrite Hkey, Hnew.
  - by destruct (stored_as_route impl route) as (_ & ? & _).
  - unfold grows. lia.
Qed.

(** The table with the new entry, as the journal does not list it yet. *)
Lemma placed_wf (cmp : bool) impl R route impl' replaced new R' :
  placed prefix_ok cmp impl R route impl' replaced new R' → entries_wf R → zlen (rr_attrs route) < 2 ^ 60 →
  entries_wf (new :: R') ∧ (∀ e, e ∈ R' → e ∈ R ∧ slot_of e ≠ slot_of new).
Proof.
  intros Hp Hwf Hattrs. destruct (placed_slot _ _ _ _ _ _ _ _ Hp) as (Hslot & _). destruct Hp as (Hnew & _ & _ & Hr).
  assert (Hsub : entries_wf R' ∧ ∀ e, e ∈ R' → e ∈ R ∧ slot_of e ≠ slot_of new).
  { rewrite Hslot. destruct replaced as [old|].
    - destruct Hr as [Hs HR]. destruct (entries_wf_sub _ _ _ HR Hwf) as [Hwf' Hfree]. split; [done|]. intros e He.
      split; [rewrite HR; set_solver|]. rewrite <-Hs. by apply Hfree.
    - destruct Hr as [-> Hfree]. split; [done|]. intros e He. by split; [|apply Hfree]. }
  destruct Hsub as [[Hnd Hs] Hfree]. split; [|done]. split.
  - cbn. apply NoDup_cons. split; [|done]. intros (e & Heq & He)%list_elem_of_fmap. by destruct (Hfree e He).
  - apply Forall_cons. split; [by rewrite Hnew|done].
Qed.

Lemma has_route_spec h k id :
  prefix_ok k → Forall (λ a, ap_update_id a ≠ 0 ∧ prefix_ok (ap_prefix a)) (jh_routes h) →
  fsm_update_journal_has_route h k id = true ↔ ∃ a, a ∈ jh_routes h ∧ ap_update_id a = id ∧ ap_prefix a = k.
Proof.
  intros Hk Hids. rewrite Forall_forall in Hids. unfold fsm_update_journal_has_route.
  destruct (id =? 0) eqn:Hz.
  { split; [done|]. intros (a & Ha & Hid & _). destruct (Hids a Ha). lia. }
  rewrite existsb_exists. split.
  - intros (a & Ha%list_elem_of_In & [Hid Heq]%andb_true_iff). exists a. split_and!; [done|lia|].
    apply fam_eq in Heq; [done| |done]. by apply Hids.
  - intros (a & Ha & Hid & Heq). exists a. split; [by apply list_elem_of_In|]. apply andb_true_iff. split; [lia|].
    apply fam_eq; [by apply Hids|done..].
Qed.

Section Journaled.
Context `{Hnamed : !Named} (peer : Z) (cmp : bool) (pool : libbgp_rib_route_t -> Prop) (R0 : list entry_ptr).

(** [pool] holds of the routes of the table and of the update; with [cmp] its
    routes for one prefix are comparable. *)
Context (Hpool : cmp = true → ∀ r r', pool r → pool r' →
  rib_lpm_normalize_prefix (rr_prefix r) = rib_lpm_normalize_prefix (rr_prefix r') → comparable r r').
Context (Hstored : ∀ r pref id, pool r → pool (with_defaults r pref id)).

(** An entry an undo may touch: of the peer, for a prefix of the update. *)
Definition mine e : Prop := src_of e = peer ∧ named (e_key e).

Lemma mine_slot e k : slot_of e = (k, peer) → named k → mine e.
Proof. intros [= <- ?] ?. by split. Qed.

(** The table holds [R], which are the entries [K] of [R0] that are left and
    the new entries [N]; the journal holds the rest of [R0] but for [L]. *)
Record journaled impl R A W L K N : Prop := {
  jn_rep : rib_rep prefix_ok cmp impl R;
  jn_now : R ≡ₚ K ++ N;
  jn_before : R0 ≡ₚ K ++ to_restore A W ++ L;
  jn_wf : entries_wf R;
  jn_entries : entries_ok prefix_ok (ri_next_addr impl) (R ++ to_restore A W);
  jn_pool : Forall (λ e, pool (route_of e)) R;
  jn_peer : Forall mine (to_restore A W ++ L ++ N);
  jn_listed : Forall (λ e, ∃ a, a ∈ A ∧ slot_of e = (ap_prefix a, peer) ∧
                rr_update_id (route_of e) = ap_update_id a) N;
  jn_free : ∀ a e, a ∈ A → e ∈ K → slot_of e ≠ (ap_prefix a, peer);
  jn_ids : Forall (λ a, ap_update_id a ≠ 0 ∧ prefix_ok (ap_prefix a)) A;
  jn_count : zlen N <= zlen A
}.

Lemma pool_cmp_ok R : Forall (λ e, pool (route_of e)) R → cmp_ok cmp R.
Proof. rewrite Forall_forall. intros H Hc e1 e2 H1 H2 Hg. apply Hpool; auto. Qed.

Lemma journaled_init impl :
  rib_rep prefix_ok cmp impl R0 → entries_wf R0 → Forall (λ e, pool (route_of e)) R0 →
  journaled impl R0 [] [] [] R0 [].
Proof.
  intros Hrep Hwf Hp. pose proof (rep_entries _ _ _ _ Hrep) as Hok.
  split; cbn [to_restore omap list_omap app]; rewrite ?app_nil_r; try done.
  intros a e Ha. by apply elem_of_nil in Ha.
Qed.

(** The same entries in a later table. *)
Lemma journaled_same impl impl' R R' A W L K N :
  journaled impl R A W L K N → R' ≡ₚ R → rib_rep prefix_ok cmp impl' R' → grows impl impl' →
  journaled impl' R' A W L K N.
Proof.
  intros [] HR Hrep Hg. split; try done; try by rewrite HR.
  rewrite HR. by eapply entries_ok_mono.
Qed.

(** An entry of [K] is taken out of the table, and kept or lost. *)
Lemma journaled_take impl impl' R R' A W W' L L' K N e :
  journaled impl R A W L K N → e ∈ K → R ≡ₚ e :: R' → rib_rep prefix_ok cmp impl' R' → grows impl impl' →
  mine e →
  (∃ w, wd_saved w = Some e ∧ W' = W ++ [w] ∧ L' = L) ∨ (W' = W ∧ L' = e :: L) →
  ∃ K', journaled impl' R' A W' L' K' N.
Proof.
  intros [] He HR Hrep Hg Hsrc Hkept. destruct (entries_wf_sub _ _ _ HR jn_wf0) as [Hwf' _].
  apply list_elem_of_In, Add_inv in He as [K' HK%Permutation_Add]. symmetry in HK. exists K'.
  assert (Hmoved : to_restore A W' ++ L' ≡ₚ e :: to_restore A W ++ L).
  { destruct Hkept as [(w & Hw & -> & ->)|[-> ->]]; [by rewrite (to_restore_withdrawn _ _ _ _ Hw)|].
    by rewrite Permutation_middle. }
  assert (HR' : R' ≡ₚ K' ++ N).
  { apply (Permutation_cons_inv (a := e)). rewrite <-HR, jn_now0, HK. done. }
  assert (Hent : entries_ok prefix_ok (ri_next_addr impl') (R' ++ to_restore A W')).
  { apply (entries_ok_mono _ _ (ri_next_addr impl')) in jn_entries0; [|done]. rewrite HR in jn_entries0.
    destruct Hkept as [(w & Hw & -> & ->)|[-> ->]].
    - by rewrite (to_restore_withdrawn _ _ _ _ Hw), <-Permutation_middle.
    - by eapply entries_ok_cons. }
  split; try done.
  - by rewrite Hmoved, <-Permutation_middle, jn_before0, HK.
  - rewrite HR in jn_pool0. by apply Forall_cons in jn_pool0 as [_ ?].
  - rewrite (assoc_L (++)), Hmoved. cbn [app]. apply Forall_cons. split; [done|]. by rewrite <-(assoc_L (++)).
  - intros a e' Ha He'. apply jn_free0; [done|]. rewrite HK. set_solver.
Qed.

(** A new entry is dropped. *)
Lemma journaled_drop impl impl' R R' A W L K N e :
  journaled impl R A W L K N → e ∈ N → R ≡ₚ e :: R' → rib_rep prefix_ok cmp impl' R' → grows impl impl' →
  ∃ N', N ≡ₚ e :: N' ∧ journaled impl' R' A W L K N'.
Proof.
  intros [] He HR Hrep Hg. destruct (entries_wf_sub _ _ _ HR jn_wf0) as [Hwf' _].
  apply list_elem_of_In, Add_inv in He as [N' HN%Permutation_Add]. symmetry in HN. exists N'. split; [done|].
  assert (HR' : R' ≡ₚ K ++ N').
  { apply (Permutation_cons_inv (a := e)). rewrite <-HR, jn_now0, HN. by rewrite Permutation_middle. }
  split; try done.
  - apply (entries_ok_mono _ _ (ri_next_addr impl')) in jn_entries0; [|done]. rewrite HR in jn_entries0.
    by eapply entries_ok_cons.
  - rewrite HR in jn_pool0. by apply Forall_cons in jn_pool0 as [_ ?].
  - rewrite !Forall_app in *. destruct jn_peer0 as (? & ? & Hn). rewrite HN in Hn. by apply Forall_cons in Hn as [_ ?].
  - rewrite HN in jn_listed0. by apply Forall_cons in jn_listed0 as [_ ?].
  - rewrite HN in jn_count0. cbn [length] in jn_count0. lia.
Qed.

(** The flag the journal keeps with a replaced entry. *)
Definition restores h route (replaced : option entry_ptr) : bool :=
  match replaced with
  | None => false
  | Some old => negb (fsm_update_journal_has_route h (rr_prefix route) (rr_update_id (route_of old)))
  end.

Lemma journaled_new impl R h W L K N route impl' replaced new R' a :
  journaled impl R (jh_routes h) W L K N → placed prefix_ok cmp impl R route impl' replaced new R' →
  rr_source_router_id route = peer → named (rr_prefix route) → prefix_ok (rr_prefix route) →
  zlen (rr_attrs route) < 2 ^ 60 → pool route → ap_prefix a = rr_prefix route → ap_update_id a = stored_id impl route → ap_replaced a = replaced →
  ap_restore_replaced a = restores h route replaced →
  ∃ K' N', journaled impl' (new :: R') (jh_routes h ++ [a]) W L K' N'.
Proof.
  intros Hj Hp Hsrc Hname Hk Hattrs Hpr Ha1 Ha2 Ha3 Ha4. pose proof Hj as [].
  destruct (placed_slot _ _ _ _ _ _ _ _ Hp) as (Hslot & Huid & Hid & Hg). rewrite Hsrc in Hslot.
  destruct (placed_wf _ _ _ _ _ _ _ _ Hp jn_wf0 Hattrs) as [Hwf' Hsub].
  pose proof Hp as (Hnew & Haddr & Hrep & Hr).
  pose proof (to_restore_applied (jh_routes h) W a) as Htr. rewrite Ha3, Ha4 in Htr.
  set (A := jh_routes h) in *.
  (** The part every case shares. *)
  assert (Hall : ∀ K' N', R' ≡ₚ K' ++ N' →
    R0 ≡ₚ K' ++ to_restore (A ++ [a]) W ++ L →
    to_restore (A ++ [a]) W ⊆ to_restore A W ++ R →
    entries_ok prefix_ok (ri_next_addr impl) (R' ++ to_restore (A ++ [a]) W) →
    (∀ e, e ∈ to_restore (A ++ [a]) W → mine e) →
    (∀ e, e ∈ K' → e ∈ K) → (∀ e, e ∈ N' → e ∈ N) → zlen N' <= zlen N →
    journaled impl' (new :: R') (A ++ [a]) W L K' (new :: N')).
  { intros K' N' HR' Hb _ Hent Hpeer' HKs HNs Hn. rewrite !Forall_app in jn_peer0. destruct jn_peer0 as (_ & HpL & HpN).
    rewrite Forall_forall in HpN, jn_listed0, jn_pool0. split; try done.
    - rewrite HR'. apply Permutation_middle.
    - cbn [app]. destruct Hent as [Hf Hnd]. pose proof (rep_entries _ _ _ _ Hrep) as [Hf' _].
      split; [|].
      + apply Forall_cons in Hf' as [? _]. apply Forall_cons. split; [done|].
        eapply Forall_impl; [exact Hf|]. intros e []. split; [done..|]. unfold grows in Hg. lia.
      + cbn. apply NoDup_cons. split; [|done]. intros (e & Heq & He)%list_elem_of_fmap.
        rewrite Forall_forall in Hf. destruct (Hf e He). lia.
    - apply Forall_cons. split; [rewrite Hnew; by apply Hstored|]. rewrite Forall_forall.
      intros e He. by apply jn_pool0, Hsub.
    - rewrite !Forall_app, Forall_cons. split; [by rewrite Forall_forall|]. split; [done|]. split; [by eapply mine_slot|].
      rewrite Forall_forall. auto.
    - apply Forall_cons. split.
      + exists a. split; [set_solver|]. split; [by rewrite Ha1|congruence].
      + rewrite Forall_forall. intros e He. destruct (jn_listed0 e (HNs e He)) as (a' & ? & ? & ?). exists a'. set_solver.
    - intros a' e [Ha'|Ha']%elem_of_app He; [apply jn_free0; auto|]. apply list_elem_of_singleton in Ha' as ->.
      rewrite Ha1, <-Hslot. assert (e ∈ R') as HeR by (rewrite HR'; set_solver). by destruct (Hsub e HeR).
    - rewrite Forall_app, Forall_singleton. split; [done|]. rewrite Ha1, Ha2. done.
    - rewrite length_app. cbn [length]. lia. }
  assert (HpS : ∀ e, e ∈ to_restore A W → mine e).
  { rewrite !Forall_app in jn_peer0. destruct jn_peer0 as (HpS & _). by rewrite Forall_forall in HpS. }
  destruct replaced as [old|]; cbn [restores option_list] in Htr.
  2:{ destruct Hr as [-> _]. cbn [app] in Htr. exists K, (new :: N).
      apply Hall; rewrite ?Htr; try done; [set_solver|]. intros e. rewrite Htr. apply HpS. }
  destruct Hr as [Hs HR]. rewrite Hsrc in Hs. assert (Hold : old ∈ R) by (rewrite HR; set_solver).
  pose proof Hold as Hold'. rewrite jn_now0 in Hold'. apply elem_of_app in Hold' as [HK|HN].
  - assert (Hf : fsm_update_journal_has_route h (rr_prefix route) (rr_update_id (route_of old)) = false).
    { apply not_true_is_false. rewrite has_route_spec by done. intros (a' & Ha' & _ & Hpa).
      apply (jn_free0 a' old Ha' HK). by rewrite Hpa. }
    rewrite Hf in Htr. change (to_restore (A ++ [a]) W ≡ₚ old :: to_restore A W) in Htr.
    pose proof HK as HK'. apply list_elem_of_In, Add_inv in HK' as [K' HKp%Permutation_Add]. symmetry in HKp.
    assert (HR' : R' ≡ₚ K' ++ N).
    { apply (Permutation_cons_inv (a := old)). rewrite <-HR, jn_now0, HKp. done. }
    exists K', (new :: N). apply Hall; try done.
    + rewrite Htr, jn_before0, HKp. cbn [app]. apply Permutation_middle.
    + rewrite Htr. set_solver.
    + rewrite Htr. cbn [app]. rewrite <-Permutation_middle.
      change (old :: R' ++ to_restore A W) with ((old :: R') ++ to_restore A W). by rewrite <-HR.
    + intros e. rewrite Htr. intros [->|?]%elem_of_cons; [by eapply mine_slot|auto].
    + intros e He. rewrite HKp. set_solver.
  - rewrite Forall_forall in jn_listed0. destruct (jn_listed0 old HN) as (a' & Ha' & Hsl & Hu).
    assert (Ht : fsm_update_journal_has_route h (rr_prefix route) (rr_update_id (route_of old)) = true).
    { rewrite has_route_spec by done. exists a'. split_and!; [done|done|congruence]. }
    rewrite Ht in Htr. cbn [negb app] in Htr.
    pose proof HN as HN'. apply list_elem_of_In, Add_inv in HN' as [N' HNp%Permutation_Add]. symmetry in HNp.
    assert (HR' : R' ≡ₚ K ++ N').
    { apply (Permutation_cons_inv (a := old)). rewrite <-HR, jn_now0, HNp. by rewrite Permutation_middle. }
    exists K, (new :: N'). apply Hall; try done.
    + by rewrite Htr.
    + rewrite Htr. set_solver.
    + rewrite Htr. rewrite HR in jn_entries0. by eapply entries_ok_cons.
    + intros e. rewrite Htr. auto.
    + intros e He. rewrite HNp. set_solver.
    + rewrite HNp. cbn [length]. lia.
Qed.
End Journaled.
End HalfSpec.
