(* ===== verification/FsmRollback.v ===== *)
(** * The journal of an UPDATE: undoing

    Putting an entry back into its table, and the three passes of a rollback
    over one table.  When an undo finds memory nothing is lost: the rollback
    ends with the entries the table had before the update. *)

From stdpp Require Import gmap.
From S2P Require Import Prelude Bytes Radix Pattr As4 Hashmap HashmapSpec Rib RibTable RibDecision RibIndex RibInv RibRoutes RibSpec RibLookup RibRefine RibBest RibSteady RibMoves Fsm FsmUpdate FsmJournal.

Section Rollback.
Context `{family : Family} {host : Host}.
Context (prefix_ok : Prefix -> Prop) (addr_ok : Addr -> Prop) `{!FamilyLaws prefix_ok addr_ok}.
Context `{Hnamed : !Named} (peer : Z) (cmp : bool) (pool : libbgp_rib_route_t -> Prop) (R0 : list entry_ptr).
Context (Hpool : cmp = true → ∀ r r', pool r → pool r' →
  rib_lpm_normalize_prefix (rr_prefix r) = rib_lpm_normalize_prefix (rr_prefix r') → comparable r r').
Context (Hstored : ∀ r pref id, pool r → pool (with_defaults r pref id)).
Context (Hlen0 : zlen R0 < 2 ^ 39) (Hwf0 : entries_wf R0) (Hpool0 : Forall (λ e, pool (route_of e)) R0).
Implicit Types (e : entry_ptr) (R K N L S : list entry_ptr) (impl : rib_impl_t) (k : Prefix) (h : fsm_journal_half).
Implicit Types (A : list fsm_applied_route_t) (W : list fsm_withdrawn_route_t) (route : libbgp_rib_route_t).

Abbreviation rib_rep := (rib_rep prefix_ok cmp).
Abbreviation journaled := (journaled prefix_ok peer cmp pool R0).
Abbreviation mine := (mine peer).

Lemma rep_cmp_ok R : Forall (λ e, pool (route_of e)) R → cmp_ok cmp R.
Proof. by apply pool_cmp_ok. Qed.

Lemma journaled_len impl R A W L K N : journaled impl R A W L K N → zlen A <= 2 ^ 39 → zlen R < 2 ^ 40.
Proof.
  intros [] HA. rewrite jn_now, length_app. rewrite jn_before, !length_app in Hlen0. lia.
Qed.

(** ** Putting an entry back *)

(** [e] is out of the table and its slot is free. *)
Lemma under_put_back al0 al impl R e :
  uses al0 al → rib_rep impl R → entries_ok prefix_ok (ri_next_addr impl) (e :: R) → zlen R < 2 ^ 40 →
  Forall (λ e, pool (route_of e)) (e :: R) → src_of e = peer → (∀ e', e' ∈ R → slot_of e' ≠ slot_of e) →
  under al (bgp_rib_restore_saved_if_absent impl peer (Some e)) (λ al' o,
    uses al0 al' ∧ (al' = al ∨ refused al = Some al') ∧ grows impl o.1.1 ∧
    (rib_rep o.1.1 (e :: R) ∨ rib_rep o.1.1 R ∧ refused al = Some al')).
Proof.
  intros Hu Hrep Hent Hlen Hp <- Hfree. eapply under_mono.
  - apply (under_call al0 al _ (λ o, grows impl o.1.1 ∧ rib_rep o.1.1 (e :: R)) (λ o, grows impl o.1.1 ∧ rib_rep o.1.1 R));
      [apply steady_restore|done|].
    intros T. eapply runs_mono; [apply (runs_put_back prefix_ok addr_ok T cmp impl R e); try done|].
    + eapply entries_ok_elem; [exact Hent|set_solver].
    + destruct Hent as [_ Hnd]. by apply NoDup_cons in Hnd as [? _].
    + by apply rep_cmp_ok.
    + cbn beta. intros o [? [?|[? ?]]]; auto.
  - cbn beta. intros al' o (? & ? & [[? ?]|([? ?] & ? & _)]); auto 8.
Qed.

(** ** The invariant of one half *)

(** The table holds the routes [t].  Routes are lost only when the allocator
    may refuse more than once. *)
Definition half_inv al0 impl h (t : list libbgp_rib_route_t) : Prop :=
  ∃ R L K N, journaled impl R (jh_routes h) (jh_withdrawn h) L K N ∧ (al0 = Arbitrary ∨ L = []) ∧ route_of <$> R ≡ₚ t.

(** The entry [e] was taken out of the table and has to go back. *)
Lemma under_undo al0 al impl R h L K N impl1 e R' :
  journaled impl R (jh_routes h) (jh_withdrawn h) L K N → (al0 = Arbitrary ∨ L = []) → refused al0 = Some al →
  zlen (jh_routes h) <= 2 ^ 39 → R ≡ₚ e :: R' → rib_rep impl1 R' → grows impl impl1 → mine e →
  under al (bgp_rib_restore_saved_if_absent impl1 peer (Some e)) (λ al' o,
    refused al0 = Some al' ∧ ∃ t, half_inv al0 o.1.1 h t).
Proof.
  intros Hj HL Hr Hlen HR Hrep Hg Hmine. pose proof (proj1 Hmine) as Hsrc. pose proof Hj as []. pose proof (journaled_len _ _ _ _ _ _ _ Hj Hlen) as HRlen.
  assert (Hent : entries_ok prefix_ok (ri_next_addr impl1) (e :: R')).
  { rewrite <-HR. eapply entries_ok_mono; [exact Hg|]. by eapply rep_entries. }
  eapply under_mono.
  { apply (under_put_back al0 al impl1 R' e); try done; [by right| | |].
    - rewrite HR in HRlen. cbn [length] in HRlen. lia.
    - by rewrite <-HR.
    - by apply (entries_wf_sub R). }
  cbn beta. intros al' o (Hu & Hor & Hg' & Hres).
  assert (Hr' : refused al0 = Some al') by (destruct Hor as [->|?]; [done|by eapply uses_refused; [right|]]).
  split; [done|]. assert (Hgg : grows impl o.1.1) by by transitivity impl1. destruct Hres as [Hrep'|[Hrep' Hagain]].
  - exists (route_of <$> R). exists (e :: R'), L, K, N. split_and!; [|done|by rewrite HR].
    by eapply journaled_same.
  - pose proof (refused_twice _ _ _ Hr Hagain) as Harb. exists (route_of <$> R').
    assert (He : e ∈ K ++ N) by (rewrite <-jn_now, HR; set_solver). apply elem_of_app in He as [He|He].
    + edestruct (journaled_take prefix_ok addr_ok peer) with (impl' := o.1.1) (e := e) (W' := jh_withdrawn h) (L' := e :: L)
        as [K' Hj']; eauto.
      exists R', (e :: L), K', N. auto 6.
    + edestruct (journaled_drop prefix_ok peer) with (impl' := o.1.1) (e := e) as (N' & _ & Hj'); eauto.
      exists R', L, K, N'. auto 6.
Qed.

(** ** Rolling back *)

(** The routes the update inserted leave the table. *)
Lemma under_remove_insertions al impl R A W L K N l :
  journaled impl R A W L K N → (∀ a, a ∈ l → a ∈ A) →
  Forall (λ e, ∃ a, a ∈ l ∧ slot_of e = (ap_prefix a, peer) ∧ rr_update_id (route_of e) = ap_update_id a) N →
  under al (remove_insertions impl peer l) (λ al' impl',
    uses al al' ∧ ∃ R', journaled impl' R' A W L K []).
Proof.
  revert al impl R N. induction l as [|a l IH]; intros al impl R N Hj Hsub Hlist.
  { cbn [remove_insertions]. apply under_ret. split; [by left|]. exists R. destruct N as [|e N]; [done|].
    apply Forall_cons in Hlist as [(a & Ha & _) _]. by apply elem_of_nil in Ha. }
  cbn [remove_insertions]. assert (Ha : a ∈ A) by (apply Hsub; set_solver).
  pose proof Hj as [Hrep Hnow _ Hwf _ _ _ _ Hfree Hids _]. rewrite Forall_forall in Hids.
  destruct (Hids a Ha) as [Hid Hpa]. rewrite Forall_forall in Hlist.
  apply under_bind. eapply under_mono.
  { apply (under_call al al _ (λ o, ∃ R' N', journaled o.1 R' A W L K N' ∧ Forall (λ e, ∃ a, a ∈ l ∧
      slot_of e = (ap_prefix a, peer) ∧ rr_update_id (route_of e) = ap_update_id a) N') (λ _, False));
      [apply steady_withdraw_exact|by left|].
    intros T. eapply runs_mono; [by apply (runs_take_exact prefix_ok addr_ok T cmp impl R peer (ap_prefix a))|].
    cbn beta. intros o [Hgo Ho]. left. destruct Ho as [(e & R' & Hs & Hu & HR & Hrep')|[Hrep' Hno]].
    - assert (He : e ∈ K ++ N) by (rewrite <-Hnow, HR; set_solver). apply elem_of_app in He as [He|He]; [by destruct (Hfree a e)|].
      destruct (journaled_drop prefix_ok peer cmp pool R0 Hpool impl o.1 R R' A W L K N e) as (N' & HN & Hj'); try done.
      exists R', N'. split; [done|]. rewrite Forall_forall. intros e' He'.
      destruct (Hlist e') as (a' & Ha' & Hs' & Hu'); [rewrite HN; set_solver|].
      apply elem_of_cons in Ha' as [->|Ha']; [|by eauto].
      destruct (entries_wf_sub _ _ _ HR Hwf) as [_ Hn]. destruct (Hn e'); [|congruence].
      destruct Hj' as [_ HR' _ _ _ _ _ _ _ _ _]. rewrite HR'. apply elem_of_app. by right.
    - exists R, N. split; [by eapply journaled_same|]. rewrite Forall_forall. intros e' He'.
      destruct (Hlist e' He') as (a' & Ha' & Hs' & Hu'). apply elem_of_cons in Ha' as [->|Ha']; [|by eauto].
      destruct (Hno e'); [rewrite Hnow; set_solver|done..]. }
  cbn beta. intros al1 [impl1 e1] (Hu1 & _ & [(R1 & N1 & Hj1 & Hl1)|([] & _)]). cbn [fst snd] in *.
  eapply under_mono; [apply (IH al1 impl1 R1 N1); [done|set_solver|done]|].
  cbn beta. intros al2 impl2 [Hu2 ?]. split; [|done]. eapply uses_next; [exact Hu1|exact Hu2].
Qed.

(** The entries [S] go back; [L] are lost. *)
Definition restoring impl R S L : Prop :=
  rib_rep impl R ∧ R0 ≡ₚ R ++ S ++ L ∧ entries_ok prefix_ok (ri_next_addr impl) (R ++ S) ∧
  Forall mine (S ++ L).

#[local] Instance restoring_proper impl R : Proper ((≡ₚ) ==> (=) ==> iff) (restoring impl R).
Proof. intros S S' HS L ? <-. unfold restoring. by rewrite HS. Qed.

Lemma restoring_wf impl R S L e : restoring impl R (e :: S) L →
  (∀ e', e' ∈ R → slot_of e' ≠ slot_of e) ∧ Forall (λ e, pool (route_of e)) (e :: R) ∧ zlen R < 2 ^ 40.
Proof.
  intros (_ & HR0 & _). assert (HR : R0 ≡ₚ e :: R ++ S ++ L) by (rewrite HR0; symmetry; apply Permutation_middle).
  destruct (entries_wf_sub _ _ _ HR Hwf0) as [_ Hfree]. split; [intros e' He'; apply Hfree; set_solver|]. split.
  - rewrite HR in Hpool0. rewrite Forall_forall in Hpool0 |- *. intros e' He'. apply Hpool0. set_solver.
  - rewrite HR in Hlen0. cbn [length] in Hlen0. rewrite length_app in Hlen0. lia.
Qed.

Lemma under_restore_one al impl R S L e :
  restoring impl R (e :: S) L →
  under al (bgp_rib_restore_saved_if_absent impl peer (Some e)) (λ al' o,
    uses al al' ∧ ∃ R' L', restoring o.1.1 R' S L' ∧ (L' = L ∨ refused al = Some al')).
Proof.
  intros Hres. destruct (restoring_wf _ _ _ _ _ Hres) as (Hfree & Hp & Hlen). destruct Hres as (Hrep & HR0 & Hent & Hsrc).
  assert (Hent' : entries_ok prefix_ok (ri_next_addr impl) (e :: R ++ S)).
  { by rewrite <-Permutation_middle in Hent. }
  assert (He : src_of e = peer) by by apply Forall_cons in Hsrc as [[? _] _].
  eapply under_mono.
  { apply (under_put_back al al impl R e); try done; [by left|].
    destruct Hent' as [Hf Hnd]. split.
    - rewrite Forall_forall in Hf |- *. intros e' He'. apply Hf. set_solver.
    - cbn in Hnd |- *. rewrite fmap_app in Hnd. apply NoDup_cons in Hnd as [Hn Hnd]. apply NoDup_app in Hnd as [? _].
      apply NoDup_cons. split; [|done]. intros ?. apply Hn, elem_of_app. by left. }
  cbn beta. intros al' o (Hu & _ & Hg & [Hrep'|[Hrep' Hr]]); (split; [done|]).
  - exists (e :: R), L. split; [|by left]. split_and!; [done| | |by apply Forall_cons in Hsrc as [_ ?]].
    + rewrite HR0. cbn [app]. by rewrite <-Permutation_middle.
    + by eapply entries_ok_mono.
  - exists R, (e :: L). split; [|by right]. split_and!; [done| | |].
    + rewrite HR0. cbn [app]. by rewrite <-(Permutation_middle S).
    + eapply entries_ok_mono; [exact Hg|]. by eapply entries_ok_cons.
    + cbn [app] in Hsrc. by rewrite <-Permutation_middle.
Qed.

(** What a restoration does for the rest of the list. *)
Lemma uses_restored al al1 al2 L L1 L2 :
  uses al al1 → (L1 = L ∨ refused al = Some al1) → uses al1 al2 → (L2 = L1 ∨ ∃ al', refused al1 = Some al') →
  uses al al2 ∧ (L2 = L ∨ ∃ al', refused al = Some al').
Proof.
  intros Hu1 H1 Hu2 H2. split; [by eapply uses_next|].
  destruct H1 as [->|H1]; [|right; by eauto]. destruct H2 as [->|[al' H2]]; [by left|]. right. exists al'. by eapply uses_refused.
Qed.

Lemma under_restore_withdrawals al impl R W L :
  restoring impl R (omap wd_saved W) L →
  under al (restore_withdrawals impl peer W) (λ al' impl',
    uses al al' ∧ ∃ R' L', restoring impl' R' [] L' ∧ (L' = L ∨ ∃ al', refused al = Some al')).
Proof.
  revert al impl R L. induction W as [|w W IH]; intros al impl R L Hres; cbn [restore_withdrawals].
  { apply under_ret. split; [by left|]. exists R, L. by split; [|left]. }
  cbn [omap list_omap] in Hres. destruct (wd_saved w) as [e|].
  - apply under_bind. eapply under_mono; [by apply (under_restore_one al impl R (omap wd_saved W) L e)|].
    cbn beta. intros al1 [[impl1 ?] ?] (Hu1 & R1 & L1 & Hres1 & H1). cbn [fst snd] in *.
    eapply under_mono; [by apply (IH al1 impl1 R1 L1)|]. cbn beta. intros al2 impl2 (Hu2 & R2 & L2 & Hres2 & H2).
    destruct (uses_restored al al1 al2 L L1 L2) as [? ?]; try done. split; [done|]. by exists R2, L2.
  - apply under_bind, under_ret. by apply (IH al impl R L).
Qed.

Lemma under_restore_replacements al impl R A S L :
  restoring impl R (omap (λ a, if ap_restore_replaced a then ap_replaced a else None) A ++ S) L →
  under al (restore_replacements impl peer A) (λ al' impl',
    uses al al' ∧ ∃ R' L', restoring impl' R' S L' ∧ (L' = L ∨ ∃ al', refused al = Some al')).
Proof.
  revert al impl R L. induction A as [|a A IH]; intros al impl R L Hres; cbn [restore_replacements].
  { apply under_ret. split; [by left|]. exists R, L. by split; [|left]. }
  cbn [omap list_omap] in Hres. destruct (ap_restore_replaced a); [|by apply (IH al impl R L)].
  destruct (ap_replaced a) as [e|].
  - apply under_bind. eapply under_mono; [by eapply (under_restore_one al impl R _ L e)|].
    cbn beta. intros al1 [[impl1 ?] ?] (Hu1 & R1 & L1 & Hres1 & H1). cbn [fst snd] in *.
    eapply under_mono; [by apply (IH al1 impl1 R1 L1)|]. cbn beta. intros al2 impl2 (Hu2 & R2 & L2 & Hres2 & H2).
    destruct (uses_restored al al1 al2 L L1 L2) as [? ?]; try done. split; [done|]. by exists R2, L2.
  - apply under_bind, under_ret. by apply (IH al impl R L).
Qed.

(** The three passes of a rollback over one table, which starts with the
    allocator [al].  What is left in the end is the table before the update but
    for routes of the peer; nothing is lost when nothing was and the allocator
    does not refuse. *)
Definition emptied al0 impl h : Prop :=
  ∃ R L K, journaled impl R (jh_routes h) (jh_withdrawn h) L K [] ∧ (al0 = Arbitrary ∨ L = []).

Definition reinstated al0 al impl S : Prop :=
  ∃ R L, restoring impl R S L ∧ (al0 ≠ Arbitrary → al = Generous → L = []).

Lemma uses_generous al : uses Generous al → al = Generous.
Proof. by intros [->|[=]]. Qed.

Lemma rollback_remove al0 al al1 impl h t :
  uses al al1 → half_inv al0 impl h t →
  under al1 (remove_insertions impl peer (rev (jh_routes h))) (λ al' impl', uses al al' ∧ emptied al0 impl' h).
Proof.
  intros Hu (R & L & K & N & Hj & HL & _). eapply under_mono.
  { apply (under_remove_insertions al1 impl R (jh_routes h) (jh_withdrawn h) L K N (rev (jh_routes h))); [done| |].
    - intros a. by rewrite !list_elem_of_In, <-in_rev.
    - destruct Hj as [_ _ _ _ _ _ _ Hl _ _ _]. eapply Forall_impl; [exact Hl|]. cbn beta.
      intros e (a & Ha & ?). exists a. split; [|done]. by rewrite list_elem_of_In, <-in_rev, <-list_elem_of_In. }
  cbn beta. intros al2 impl2 (Hu2 & R2 & Hj2). split; [by eapply uses_next|]. by exists R2, L, K.
Qed.

Lemma reinstated_restored al0 al al1 impl R S L0 L :
  uses al al1 → (al0 ≠ Arbitrary → al = Generous → L0 = []) → restoring impl R S L →
  (L = L0 ∨ ∃ al', refused al1 = Some al') → reinstated al0 al impl S.
Proof.
  intros Hu HL0 Hres HL. exists R, L. split; [done|]. intros Hal ->. rewrite (uses_generous _ Hu) in HL.
  destruct HL as [->|[? [=]]]. auto.
Qed.

Lemma rollback_replacements al0 al al1 impl h :
  uses al al1 → emptied al0 impl h →
  under al1 (restore_replacements impl peer (jh_routes h)) (λ al' impl',
    uses al al' ∧ reinstated al0 al impl' (omap wd_saved (jh_withdrawn h))).
Proof.
  intros Hu (R & L & K & [Hrep Hnow Hbefore _ Hent _ Hpeer _ _ _ _] & HL). rewrite app_nil_r in Hnow. eapply under_mono.
  { apply (under_restore_replacements al1 impl R (jh_routes h) (omap wd_saved (jh_withdrawn h)) L). split_and!; [done| |done|].
    - by rewrite Hnow, Hbefore.
    - by rewrite app_nil_r in Hpeer. }
  cbn beta. intros al2 impl2 (Hu2 & R2 & L2 & Hres & H2). split; [by eapply uses_next|].
  eapply (reinstated_restored al0 al al1 _ _ _ L); try done. intros. by destruct HL.
Qed.

Lemma rollback_withdrawals al0 al al1 impl W :
  uses al al1 → reinstated al0 al impl (omap wd_saved W) →
  under al1 (restore_withdrawals impl peer W) (λ al' impl', uses al al' ∧ reinstated al0 al impl' []).
Proof.
  intros Hu (R & L & Hres & HL). eapply under_mono; [by apply (under_restore_withdrawals al1 impl R W L)|].
  cbn beta. intros al2 impl2 (Hu2 & R2 & L2 & Hres2 & H2). split; [by eapply uses_next|].
  by eapply (reinstated_restored al0 al al1 _ _ _ L).
Qed.
End Rollback.
