(* ===== verification/FsmSteps.v ===== *)
(** * The journal of an UPDATE: the steps

    Recording a withdrawal and an insertion in one half of the journal keeps
    the invariant of [FsmJournal], whatever the allocator answers. *)

From stdpp Require Import gmap.
From S2P Require Import Prelude Bytes Radix Pattr As4 Hashmap HashmapSpec Rib RibTable RibDecision RibIndex RibInv RibRoutes RibSpec RibLookup RibRefine RibBest RibSteady RibMoves Fsm FsmUpdate FsmJournal FsmRollback.

Section Steps.
Context `{family : Family} {host : Host}.
Context (prefix_ok : Prefix -> Prop) (addr_ok : Addr -> Prop) `{!FamilyLaws prefix_ok addr_ok}.
Context (sizeof_applied sizeof_withdrawn : Z) (kind_route kind_withdrawn : fsm_update_event_kind_t).
Context (Hsize_a : 0 < sizeof_applied <= 256) (Hsize_w : 0 < sizeof_withdrawn <= 256).
Context `{Hnamed : !Named} (peer : Z) (cmp : bool) (pool : libbgp_rib_route_t -> Prop) (R0 : list entry_ptr).
Context (Hpool : cmp = true → ∀ r r', pool r → pool r' →
  rib_lpm_normalize_prefix (rr_prefix r) = rib_lpm_normalize_prefix (rr_prefix r') → comparable r r').
Context (Hstored : ∀ r pref id, pool r → pool (with_defaults r pref id)).
Context (Hlen0 : zlen R0 < 2 ^ 39) (Hwf0 : entries_wf R0) (Hpool0 : Forall (λ e, pool (route_of e)) R0).
Implicit Types (e : entry_ptr) (R K N L S : list entry_ptr) (impl : rib_impl_t) (k : Prefix) (h : fsm_journal_half).
Implicit Types (A : list fsm_applied_route_t) (W : list fsm_withdrawn_route_t) (route : libbgp_rib_route_t).

Abbreviation rib_rep := (rib_rep prefix_ok cmp).
Abbreviation journaled := (journaled prefix_ok peer cmp pool R0).
Abbreviation mine := (mine peer).
Abbreviation half_inv := (half_inv prefix_ok peer cmp pool R0).

(** ** Recording a withdrawal *)

Lemma steady_reserve_withdrawal h : steady (fsm_update_journal_reserve_withdrawal sizeof_withdrawn h).
Proof. unfold fsm_update_journal_reserve_withdrawal, fsm_update_journal_reserve_withdrawn_to. steady. Qed.

Lemma runs_reserve_withdrawal T h n :
  half_ok h (n + 1) → 0 <= n →
  runs T (try_call (fsm_update_journal_reserve_withdrawal sizeof_withdrawn h)) (λ o,
    (∃ cap, jcap_ok cap ∧ o = inl (JournalHalf (jh_routes h) (jh_routes_cap h) (jh_withdrawn h) cap)) ∨
    o = inr LIBBGP_ERR_NOMEM ∧ T = false).
Proof.
  intros (Hc1 & Hc2 & Hl1 & Hl2) Hn. assert (Hmax : SIZE_MAX = 2 ^ 64 - 1) by done.
  unfold fsm_update_journal_reserve_withdrawal, fsm_update_journal_reserve_withdrawn_to.
  replace (zlen (jh_withdrawn h) =? SIZE_MAX) with false by lia. apply runs_try_bind, runs_try_ret, runs_try_bind.
  eapply runs_mono; [apply runs_reserve_to; [done|lia|done]|].
  intros [cap|e] H; [apply runs_try_ret; left; by eauto|]. destruct H as [-> ?]. by right.
Qed.

(** What every step leaves: room for [n] more, and the invariant. *)
Record step_done al0 al' n ev h impl (t : list libbgp_rib_route_t) : Prop := StepDone {
  sd_uses : uses al0 al';
  sd_events : ev_ok ev n;
  sd_half : half_ok h n;
  sd_inv : half_inv al0 impl h t
}.

(** [e] is what the step returns and [done] its effect. *)
Definition step_result al0 al' (e : libbgp_err_t) (effect : Prop) : Prop :=
  e = LIBBGP_OK ∧ effect ∨ e = LIBBGP_ERR_NOMEM ∧ refused al0 = Some al'.

(** The route of the peer for [k] is gone, if there was one. *)
Definition withdraw_effect (t : list libbgp_rib_route_t) k (t' : list libbgp_rib_route_t) : Prop :=
  (∃ old, slot old = (k, peer) ∧ t ≡ₚ old :: t') ∨ (∀ r, r ∈ t → slot r ≠ (k, peer)) ∧ t' ≡ₚ t.

Lemma taken_effect impl R R' t e k :
  rib_rep impl R → route_of <$> R ≡ₚ t → R ≡ₚ e :: R' → slot_of e = (k, peer) → withdraw_effect t k (route_of <$> R').
Proof.
  intros Hrep Ht HR He. left. exists (route_of e). rewrite <-Ht, HR. split; [|done].
  rewrite (rep_slot _ _ _ _ _ Hrep); [done|]. rewrite HR. set_solver.
Qed.

Lemma absent_effect impl R t k :
  rib_rep impl R → route_of <$> R ≡ₚ t → (∀ e, e ∈ R → slot_of e ≠ (k, peer)) → withdraw_effect t k t.
Proof.
  intros Hrep Ht Hno. right. split; [|done]. intros r. rewrite <-Ht. intros (e & -> & He)%list_elem_of_fmap.
  rewrite (rep_slot _ _ _ _ _ Hrep He). by apply Hno.
Qed.

Lemma half_inv_cap al0 impl h t h' :
  jh_routes h' = jh_routes h → jh_withdrawn h' = jh_withdrawn h → half_inv al0 impl h t → half_inv al0 impl h' t.
Proof. unfold half_inv. by intros -> ->. Qed.

Lemma under_take al0 al impl R k :
  uses al0 al → rib_rep impl R → entries_wf R → prefix_ok k →
  under al (bgp_rib_withdraw_track_best_save impl peer k true) (λ al' o,
    uses al0 al' ∧ grows impl o.1.1.1 ∧
    match o.1.2 with
    | None => o.1.1.2 = LIBBGP_OK ∧ rib_rep o.1.1.1 R ∧ ∀ e, e ∈ R → slot_of e ≠ (k, peer)
    | Some e => slot_of e = (k, peer) ∧ (∃ R', R ≡ₚ e :: R' ∧ rib_rep o.1.1.1 R') ∧
        step_result al0 al' o.1.1.2 True
    end).
Proof.
  intros Hu Hrep Hwf Hk. eapply under_mono.
  { apply (under_steady al _ (λ T o, grows impl o.1.1.1 ∧ match o.1.2 with
      | None => o.1.1.2 = LIBBGP_OK ∧ rib_rep o.1.1.1 R ∧ ∀ e, e ∈ R → slot_of e ≠ (k, peer)
      | Some e => slot_of e = (k, peer) ∧ (∃ R', R ≡ₚ e :: R' ∧ rib_rep o.1.1.1 R') ∧
          (o.1.1.2 = LIBBGP_OK ∨ o.1.1.2 = LIBBGP_ERR_NOMEM ∧ T = false) end)); [apply steady_withdraw_track_save|].
    intros T. eapply runs_mono; [by apply (runs_take prefix_ok addr_ok T cmp impl R peer k true)|].
    cbn beta. intros o [Hg Ho]. split; [done|]. destruct (o.1.2) as [e|].
    - destruct Ho as (Hs & R' & HR & Hrep' & Hor). split_and!; [done|by eauto|]. destruct Hor as [[? _]|[? ?]]; auto.
    - destruct Ho as (? & ? & _ & ?). auto. }
  cbn beta. intros al' o Ho.
  assert (Hu' : uses al0 al') by (eapply uses_next; [exact Hu|]; destruct Ho as [[-> _]|[? _]]; auto).
  split; [done|]. destruct Ho as [[-> [Hg Ho]]|[Hr [Hg Ho]]]; (split; [done|]); destruct (o.1.2) as [e|]; try done.
  - destruct Ho as (? & ? & [?|[_ [=]]]). split_and!; [done..|]. by left.
  - destruct Ho as (? & ? & [?|[? _]]); split_and!; try done; [by left|]. right. split; [done|exact (uses_refused _ _ _ Hu Hr)].
Qed.

(** An error after the withdrawal. *)
Lemma under_undo_withdraw al0 al n ev h impl R L K N impl1 e R' (code : libbgp_err_t) (effect : list libbgp_rib_route_t -> Prop) :
  journaled impl R (jh_routes h) (jh_withdrawn h) L K N → (al0 = Arbitrary ∨ L = []) → refused al0 = Some al →
  ev_ok ev n → half_ok h n → 0 <= n → R ≡ₚ e :: R' → rib_rep impl1 R' → grows impl impl1 → mine e →
  code = LIBBGP_ERR_NOMEM →
  under al ('(rib, _, _) ← bgp_rib_restore_saved_if_absent impl1 peer (Some e); mret (ev, h, rib, code)) (λ al' o,
    ∃ t', step_done al0 al' n o.1.1.1 o.1.1.2 o.1.2 t' ∧ jh_routes o.1.1.2 = jh_routes h ∧
      step_result al0 al' o.2 (effect t')).
Proof.
  intros Hj HL Hr Hev Hh Hn HR Hrep Hg Hs Hcode. apply under_bind. eapply under_mono.
  - apply (under_undo prefix_ok addr_ok peer cmp pool R0 Hpool Hstored Hlen0 Hwf0 Hpool0 al0 al impl R h L K N impl1 e R'); try done. destruct Hh as (_ & _ & ? & _). lia.
  - cbn beta. intros al3 [[impl3 e3] kept] [Hr3 [t' Ht']]. cbn [fst snd] in Ht'. apply under_ret. cbn [fst snd].
    exists t'. split; [apply StepDone; [by right|done..]|]. split; [done|]. by right.
Qed.

Lemma under_append al0 al ev kind index n :
  uses al0 al → ev_ok ev (n + 1) → 0 <= n →
  under al (try_call (fsm_update_journal_append_event ev kind index)) (λ al' o,
    uses al0 al' ∧ match o with inl ev' => ev_ok ev' n | inr e => e = LIBBGP_ERR_NOMEM ∧ refused al0 = Some al' end).
Proof.
  intros Hu Hev Hn. eapply under_mono.
  { apply (under_call al0 al _ (λ o, match o with inl ev' => ev_ok ev' n | inr _ => False end)
             (λ o, o = inr LIBBGP_ERR_NOMEM)); [apply steady_try, steady_append|done|].
    intros T. eapply runs_mono; [by apply (runs_append T ev kind index n)|]. cbn beta.
    intros [ev'|e]; [intros [? _]; by left|intros [-> ?]; by right]. }
  cbn beta. intros al' o (Hu' & _ & [Ho|(-> & _ & Hr)]); (split; [done|]); [by destruct o|done].
Qed.

Lemma under_record_withdraw al0 al ev h impl t k n :
  half_inv al0 impl h t → uses al0 al → jh_routes h = [] → ev_ok ev (n + 1) → half_ok h (n + 1) → 0 <= n → prefix_ok k → named k →
  under al (fsm_update_journal_record_withdraw sizeof_withdrawn kind_withdrawn ev h impl peer k) (λ al' o,
    ∃ t', step_done al0 al' n o.1.1.1 o.1.1.2 o.1.2 t' ∧ jh_routes o.1.1.2 = jh_routes h ∧
      step_result al0 al' o.2 (withdraw_effect t k t')).
Proof.
  intros (R & L & K & N & Hj & HL & Ht) Hu HA Hev Hh Hn Hk Hname. unfold fsm_update_journal_record_withdraw.
  assert (Hev' : ev_ok ev n) by (eapply ev_ok_le; [exact Hev|lia]).
  assert (Hh' : half_ok h n) by (eapply half_ok_le; [exact Hh|lia]).
  apply under_bind. eapply under_mono.
  { apply (under_call al0 al); [apply steady_try, steady_reserve_withdrawal|done|].
    intros T. eapply runs_mono; [by apply (runs_reserve_withdrawal T h n)|]. cbn beta. intros o Ho. exact Ho. }
  cbn beta. intros al1 o (Hu1 & _ & [(cap & Hcap & ->)|(-> & _ & Hr1)]).
  2:{ apply under_ret. cbn [fst snd]. exists t. split; [|split; [done|by right]].
      apply StepDone; [done..|]. by exists R, L, K, N. }
  set (h1 := JournalHalf _ _ _ cap).
  assert (Hh1 : half_ok h1 n) by (destruct Hh' as (? & _ & ? & ?); unfold half_ok; cbn; split_and!; done).
  pose proof Hj as [Hrep Hnow _ Hwf _ _ _ _ _ _ Hcount].
  assert (HN : N = []) by (rewrite HA in Hcount; destruct N; [done|cbn [length] in Hcount; lia]). subst N. rewrite app_nil_r in Hnow.
  apply under_bind. eapply under_mono; [by apply (under_take al0 al1 impl R k)|].
  cbn beta. intros al2 [[[impl2 e] saved] change] (Hu2 & Hg & H); cbn [fst snd] in *. destruct saved as [entry|].
  2:{ destruct H as (-> & Hrep' & Hno). apply under_ret. cbn [fst snd].
      exists t. split; [|split; [done|left; split; [done|by eapply absent_effect]]].
      apply StepDone; [done..|]. exists R, L, K, []. split_and!; [by eapply journaled_same|done..]. }
  destruct H as (Hs & (R' & HR & Hrep') & He). assert (Hmine : mine entry) by by eapply mine_slot.
  destruct He as [[-> _]|[-> Hr2]].
  2:{ rewrite decide_False by done. by apply (under_undo_withdraw al0 al2 n ev h1 impl R L K [] impl2 entry R'). }
  rewrite decide_True by done. destruct (withdrawal_event change) as [[wd rp] replacement].
  set (ev1 := if rp || wd then next_seq ev else ev).
  assert (Hev1 : ev_ok ev1 (n + 1)) by (unfold ev1; by destruct (rp || wd)).
  apply under_bind. apply (under_mono _ _ (λ al' o, uses al0 al' ∧
    match o with inl ev' => ev_ok ev' n | inr e => e = LIBBGP_ERR_NOMEM ∧ refused al0 = Some al' end)).
  { destruct (rp || wd); [by apply (under_append al0)|]. apply (under_pure _ _ (inl ev1)); [done|]. split; [done|].
    eapply ev_ok_le; [exact Hev1|lia]. }
  intros al3 [ev3|e3] [Hu3 H3].
  2:{ destruct H3 as [-> Hr3]. apply (under_undo_withdraw al0 al3 n ev1 h1 impl R L K [] impl2 entry R'); try done.
      eapply ev_ok_le; [exact Hev1|lia]. }
  apply under_ret. cbn [fst snd]. exists (route_of <$> R'). split; [|split; [done|left; split; [done|by apply (taken_effect impl R R' t entry)]]].
  apply StepDone; [done|done| |].
  - destruct Hh1 as (? & ? & ? & ?), Hh as (_ & _ & _ & ?). unfold half_ok. cbn in *. rewrite length_app. cbn [length].
    split_and!; done || lia.
  - set (w := WithdrawnRoute _ _ _ _ _ _).
    edestruct (journaled_take prefix_ok addr_ok peer) with (impl' := impl2) (e := entry) (L' := L) (W' := jh_withdrawn h ++ [w])
      as [K' Hj']; [done|done|exact Hj|rewrite <-Hnow, HR; set_solver|exact HR|done|done|done|left; by exists w|].
    exists R', L, K', []. by split_and!.
Qed.

(** ** Recording an insertion *)

Lemma under_place al0 al impl R route :
  uses al0 al → rib_rep impl R → entries_wf R → Forall (λ e, pool (route_of e)) R → zlen R < 2 ^ 40 →
  prefix_ok (rr_prefix route) → zlen (rr_attrs route) < 2 ^ 60 → pool route →
  under al (bgp_rib_insert_track_best_save_replaced impl route false true) (λ al' o,
    uses al0 al' ∧ grows impl o.1.1 ∧
    ((o.1.2 = InsertResult LIBBGP_ERR_NOMEM None 0 ∧ rib_rep o.1.1 R ∧ refused al0 = Some al') ∨
     (∃ new R', placed prefix_ok cmp impl R route o.1.1 (ir_replaced o.1.2) new R') ∧
       ir_update_id o.1.2 = stored_id impl route ∧ step_result al0 al' (ir_err o.1.2) True)).
Proof.
  intros Hu Hrep Hwf Hp Hlen Hk Hattrs Hpr. eapply under_mono.
  { apply (under_steady al _ (λ T o, grows impl o.1.1 ∧
     ((o.1.2 = InsertResult LIBBGP_ERR_NOMEM None 0 ∧ rib_rep o.1.1 R ∧ T = false) ∨
      (∃ new R', placed prefix_ok cmp impl R route o.1.1 (ir_replaced o.1.2) new R') ∧
        ir_update_id o.1.2 = stored_id impl route ∧
        (ir_err o.1.2 = LIBBGP_OK ∨ ir_err o.1.2 = LIBBGP_ERR_NOMEM ∧ T = false)))); [apply steady_insert_track|].
    intros T. eapply runs_mono; [apply (runs_place prefix_ok addr_ok T cmp impl R route true); try done|].
    - rewrite Forall_forall in Hp. intros Hc e He Hg. by apply Hpool; [| |apply Hp|].
    - cbn beta. intros o [Hg Ho]. split; [done|]. destruct Ho as [?|(new & R' & ? & ? & Hor)]; [by left|].
      right. split_and!; [by eauto|done|]. destruct Hor as [[? _]|[? ?]]; auto. }
  cbn beta. intros al' o Ho.
  assert (Hu' : uses al0 al') by (eapply uses_next; [exact Hu|]; destruct Ho as [[-> _]|[? _]]; auto).
  split; [done|]. unfold step_result. destruct Ho as [[-> [Hg Ho]]|[Hr [Hg Ho]]]; (split; [done|]).
  - destruct Ho as [(_ & _ & [=])|(? & ? & [?|[_ [=]]])]. right. auto.
  - pose proof (uses_refused _ _ _ Hu Hr) as Hr0. destruct Ho as [(? & ? & _)|(? & ? & [?|[? _]])]; auto 8.
Qed.

(** An error after the insertion. *)
Lemma under_undo_insert al0 al n ev h impl R L K N route impl1 replaced new R' (code : libbgp_err_t)
    (effect : list libbgp_rib_route_t -> Prop) :
  journaled impl R (jh_routes h) (jh_withdrawn h) L K N → (al0 = Arbitrary ∨ L = []) → refused al0 = Some al →
  ev_ok ev n → half_ok h n → 0 <= n → placed prefix_ok cmp impl R route impl1 replaced new R' →
  rr_source_router_id route = peer → named (rr_prefix route) → prefix_ok (rr_prefix route) →
  zlen (rr_attrs route) < 2 ^ 60 → code = LIBBGP_ERR_NOMEM →
  under al ('(rib, _) ← bgp_rib_withdraw_exact_if_update_id impl1 peer (rr_prefix route) (stored_id impl route);
            '(rib, _, _) ← bgp_rib_restore_saved_if_absent rib peer replaced;
            mret (ev, h, rib, code)) (λ al' o,
    ∃ t', step_done al0 al' n o.1.1.1 o.1.1.2 o.1.2 t' ∧ step_result al0 al' o.2 (effect t')).
Proof.
  intros Hj HL Hr Hev Hh Hn Hp Hsrc Hname Hk Hattrs Hcode. pose proof Hj as [Hrep _ _ Hwf _ _ _ _ _ _ _].
  destruct (placed_slot prefix_ok addr_ok _ _ _ _ _ _ _ _ Hp) as (Hslot & Huid & Hid & Hg). rewrite Hsrc in Hslot.
  destruct (placed_wf prefix_ok addr_ok _ _ _ _ _ _ _ _ Hp Hwf Hattrs) as [Hwf' Hsub]. pose proof Hp as (_ & _ & Hrep' & Hrest).
  apply under_bind. eapply under_mono.
  { apply (under_call al0 al _ (λ o, grows impl1 o.1 ∧ ∃ R'', R'' ≡ₚ R' ∧ rib_rep o.1 R'') (λ _, False));
      [apply steady_withdraw_exact|by right|].
    intros T. eapply runs_mono; [by apply (runs_take_exact prefix_ok addr_ok T cmp impl1 (new :: R') peer (rr_prefix route))|].
    cbn beta. intros o [Hgo Ho]. left. split; [done|]. destruct Ho as [(e & R'' & Hs & Hu & HR & Hrep'')|[_ Hno]].
    - exists R''. split; [|done]. assert (e = new) as ->.
      { eapply slot_of_inj; [apply Hwf'|rewrite HR; set_solver|set_solver|congruence]. }
      by apply Permutation_cons_inv in HR.
    - destruct (Hno new); [set_solver|done..]. }
  cbn beta. intros al1 [impl2 e2] (Hu1 & Hor & [(Hg2 & R'' & HR'' & Hrep2)|([] & _)]). cbn [fst snd] in *.
  assert (Hr1 : refused al0 = Some al1).
  { destruct Hor as [->|Hr']; [done|]. exact (uses_refused _ _ _ (or_intror Hr) Hr'). }
  assert (Hgg : grows impl impl2) by by transitivity impl1.
  destruct replaced as [old|].
  - destruct Hrest as [Hs HR]. rewrite <-HR'' in HR. eapply under_mono.
    { apply (under_undo_withdraw al0 al1 n ev h impl R L K N impl2 old R'' code effect); try done. rewrite Hsrc in Hs. by eapply mine_slot. }
    cbn beta. intros al' o (t' & ? & _ & ?). by exists t'.
  - destruct Hrest as [-> _]. apply under_bind, under_ret, under_ret. cbn [fst snd]. exists (route_of <$> R).
    split; [|by right]. apply StepDone; [by right|done..|]. exists R'', L, K, N.
    split_and!; [by eapply journaled_same|done|by rewrite HR''].
Qed.

Lemma under_record al0 al ev h prefix id restore replaced change n :
  uses al0 al → id ≠ 0 → ev_ok ev (n + 1) → half_ok h (n + 1) → 0 <= n →
  under al (fsm_update_journal_record sizeof_applied kind_route ev h prefix id restore replaced change) (λ al' o,
    uses al0 al' ∧ ev_ok o.1.1 n ∧ half_ok o.1.2 n ∧ jh_withdrawn o.1.2 = jh_withdrawn h ∧
    ((o.2 = LIBBGP_OK ∧ ∃ a, ap_prefix a = prefix ∧ ap_update_id a = id ∧ ap_restore_replaced a = restore ∧
        ap_replaced a = replaced ∧ jh_routes o.1.2 = jh_routes h ++ [a]) ∨
     o.2 = LIBBGP_ERR_NOMEM ∧ refused al0 = Some al' ∧ jh_routes o.1.2 = jh_routes h)).
Proof.
  intros Hu Hid Hev Hh Hn. eapply under_mono.
  { apply under_steady; [apply steady_record|]. intros T. by apply (runs_record sizeof_applied kind_route Hsize_a T ev h _ _ _ _ _ n). }
  cbn beta. intros al' o Ho.
  assert (Hu' : uses al0 al') by (eapply uses_next; [exact Hu|]; destruct Ho as [[-> _]|[? _]]; auto).
  split; [done|]. destruct Ho as [[-> (? & ? & ? & Ho)]|[Hr (? & ? & ? & Ho)]]; (split_and!; [done..|]).
  - destruct Ho as [?|(_ & [=] & _)]. by left.
  - pose proof (uses_refused _ _ _ Hu Hr). destruct Ho as [?|(? & _ & ?)]; [by left|by right].
Qed.

Lemma placed_effect impl R t route impl' replaced new R' :
  rib_rep impl R → route_of <$> R ≡ₚ t → placed prefix_ok cmp impl R route impl' replaced new R' →
  insert_effect t route (route_of <$> new :: R').
Proof.
  intros Hrep Ht (Hnew & _ & _ & Hr). exists (route_of new). split; [rewrite Hnew; apply stored_as_route|].
  destruct replaced as [old|]; [right|left].
  - destruct Hr as [Hs HR]. exists (route_of old), (route_of <$> R'). rewrite <-Ht, HR. split_and!; try done.
    rewrite (rep_slot _ _ _ _ _ Hrep); [done|]. rewrite HR. set_solver.
  - destruct Hr as [-> Hno]. split; [|by rewrite <-Ht]. intros r. rewrite <-Ht. intros (e & -> & He)%list_elem_of_fmap.
    rewrite (rep_slot _ _ _ _ _ Hrep He). by apply Hno.
Qed.

Lemma under_insert_and_record al0 al ev h impl t route n :
  half_inv al0 impl h t → uses al0 al → ev_ok ev (n + 1) → half_ok h (n + 1) → 0 <= n →
  rr_source_router_id route = peer → named (rr_prefix route) → prefix_ok (rr_prefix route) →
  zlen (rr_attrs route) < 2 ^ 60 → pool route →
  under al (insert_and_record sizeof_applied kind_route ev h impl peer route) (λ al' o,
    ∃ t', step_done al0 al' n o.1.1.1 o.1.1.2 o.1.2 t' ∧ step_result al0 al' o.2 (insert_effect t route t')).
Proof.
  intros (R & L & K & N & Hj & HL & Ht) Hu Hev Hh Hn Hsrc Hname Hk Hattrs Hpr. unfold insert_and_record.
  assert (Hev' : ev_ok ev n) by (eapply ev_ok_le; [exact Hev|lia]).
  assert (Hh' : half_ok h n) by (eapply half_ok_le; [exact Hh|lia]).
  assert (HA : zlen (jh_routes h) <= 2 ^ 39) by (destruct Hh' as (_ & _ & ? & _); lia).
  pose proof Hj as [Hrep _ _ Hwf _ Hp _ _ _ _ _]. pose proof (journaled_len prefix_ok peer cmp pool R0 Hpool Hlen0 _ _ _ _ _ _ _ Hj HA) as Hlen.
  apply under_bind. eapply under_mono; [by apply (under_place al0 al impl R route)|]. cbn beta.
  intros al1 [[impl1 res] change]. cbn [fst snd]. intros (Hu1 & Hg & [(-> & Hrep1 & Hr)|((new & R' & Hpl) & Hid & He)]).
  { cbn [ir_err ir_replaced ir_update_id]. rewrite decide_False by done. apply under_bind, under_ret, under_bind.
    rewrite decide_False by done. apply under_ret. rewrite decide_False by done.
    apply under_bind, under_ret, under_bind, under_ret, under_ret. cbn [fst snd]. exists t. split; [|by right].
    apply StepDone; [done..|]. exists R, L, K, N. split_and!; [by eapply journaled_same|done..]. }
  rewrite Hid. destruct He as [[-> _]|[-> Hr]].
  2:{ rewrite decide_False by done. apply under_bind, under_ret, under_bind.
      rewrite decide_False by done. apply under_ret. rewrite decide_False by done.
      by eapply (under_undo_insert al0 al1 n ev h impl R L K N route). }
  rewrite decide_True by done. apply under_bind.
  apply (under_pure _ _ (LIBBGP_OK, restores h route (ir_replaced res))).
  { intros s. by destruct (ir_replaced res). }
  apply under_bind. rewrite decide_True by done.
  destruct (placed_slot prefix_ok addr_ok _ _ _ _ _ _ _ _ Hpl) as (_ & _ & Hid0 & _).
  eapply under_mono; [by apply (under_record al0 al1 ev h (rr_prefix route) (stored_id impl route)
    (restores h route (ir_replaced res)) (ir_replaced res) change n)|].
  cbn beta. intros al2 [[ev2 h2] e2]. cbn [fst snd]. intros (Hu2 & Hev2 & Hh2 & Hw & Ho).
  destruct Ho as [(-> & a & Ha1 & Ha2 & Ha3 & Ha4 & HA2)|(-> & Hr2 & HA2)].
  - rewrite decide_True by done. apply under_ret. cbn [fst snd]. exists (route_of <$> new :: R').
    split; [|left; split; [done|by apply (placed_effect impl R t route impl1 (ir_replaced res))]].
    destruct (journaled_new prefix_ok addr_ok peer cmp pool R0 Hpool Hstored impl R h (jh_withdrawn h) L K N route impl1
      (ir_replaced res) new R' a) as (K' & N' & Hj'); try done.
    apply StepDone; [done..|]. exists (new :: R'), L, K', N'. rewrite HA2, Hw. by split_and!.
  - rewrite decide_False by done. rewrite <-HA2, <-Hw in Hj. by eapply (under_undo_insert al0 al2 n ev2 h2 impl R L K N route).
Qed.

End Steps.
