(* ===== verification/FsmChecks.v ===== *)
(** * What a session computes from a received UPDATE before it touches a table

    Copies through the wire format, the check for loops, the check of the next
    hops and the routes made from the attributes, for an UPDATE as the parser
    delivers it ([upd_wf]): none of them faults, and only copies and the
    attribute list of an IPv6 route ask for memory. *)

From stdpp Require Import gmap.
From S2P Require Import Prelude Bytes Prefix4 Prefix6 Pattr PattrSpec Update UpdateSpec As4 As4Spec Filter FilterSpec Packet Hashmap Rib RibTable Rib46 RibSteady Fsm FsmUpdate FsmJournal.

(** ** What [wp] says of the three allocators *)

Lemma refuse_at_split n used s' : refuse_at n = used ++ s' →
  s' = [] ∨ Forall (λ b, b = true) used ∧ ∃ k, s' = refuse_at k.
Proof.
  revert used. induction n as [|n IH]; intros [|b used] H; cbn in H.
  - right. split; [constructor|]. by exists 0%nat.
  - simplify_list_eq. destruct used, s'; simplify_list_eq. by left.
  - right. split; [constructor|]. by exists (S n).
  - simplify_list_eq. destruct (IH used) as [?|[? ?]]; [done|by left|right]. split; [by constructor|done].
Qed.

Lemma allows_suffix al s used s' : allows al s → s = used ++ s' →
  ∃ al', uses al al' ∧ allows al' s' ∧ (false ∈ used → refused al = Some al').
Proof.
  destruct al; cbn [allows]; intros Hal Hs.
  - subst s. symmetry in Hs. apply app_nil in Hs as [-> ->]. exists Generous. split_and!; [by left|done|].
    intros Hf. by apply elem_of_nil in Hf.
  - destruct Hal as [->|[n ->]].
    + symmetry in Hs. apply app_nil in Hs as [-> ->]. exists RefusesOnce. split_and!; [by left|by left|].
      intros Hf. by apply elem_of_nil in Hf.
    + destruct (refuse_at_split _ _ _ Hs) as [->|[Hu [k ->]]].
      * exists Generous. split_and!; [by right|done|done].
      * exists RefusesOnce. split_and!; [by left|right; by exists k|]. intros Hf.
        rewrite Forall_forall in Hu. by apply Hu in Hf.
  - exists Arbitrary. split_and!; [by left|done|done].
Qed.

Lemma under_wp {A} al (m : M A) (Q : A -> Prop) (E : libbgp_err_t -> Prop) :
  wp m Q E →
  under al (try_call m) (λ al' o, uses al al' ∧
    match o with
    | inl a => Q a
    | inr e => E e ∨ e = LIBBGP_ERR_NOMEM ∧ refused al = Some al'
    end).
Proof.
  intros Hm s Hs. destruct (Hm s) as (used & s' & Hused & H).
  destruct (allows_suffix _ _ _ _ Hs Hused) as (al' & Hu & Hal' & Hr). unfold try_call.
  destruct (m s) as [[a|e|f] t]; [| |done]; destruct H as [-> H].
  - by exists (inl a), s', al'.
  - exists (inr e), s', al'. split_and!; [done..|]. destruct H as [?|[-> Hf]]; [by left|right; auto].
Qed.

(** A computation that only reads. *)
Definition pure_run {A} (m : M A) (Q : A -> Prop) : Prop := ∃ a, (∀ s, m s = (Ret a, s)) ∧ Q a.

Lemma pure_ret {A} (a : A) (Q : A -> Prop) : Q a → pure_run (mret a) Q.
Proof. intros. by exists a. Qed.

Lemma pure_bind {A B} (m : M A) (k : A -> M B) (Q : B -> Prop) :
  pure_run m (λ a, pure_run (k a) Q) → pure_run (m ≫= k) Q.
Proof.
  intros (a & Hm & b & Hk & HQ). exists b. split; [|done]. intros s. unfold mbind, M_bind. by rewrite Hm, Hk.
Qed.

Lemma pure_mono {A} (m : M A) (Q Q' : A -> Prop) : pure_run m Q → (∀ a, Q a → Q' a) → pure_run m Q'.
Proof. intros (a & ? & ?) HQ. exists a. auto. Qed.

Lemma pure_if {A} (c : bool) (m1 m2 : M A) (Q : A -> Prop) :
  pure_run m1 Q → pure_run m2 Q → pure_run (if c then m1 else m2) Q.
Proof. by destruct c. Qed.

Lemma under_pure_run {A} al (m : M A) (Q : A -> Prop) (P : allocator -> A -> Prop) :
  pure_run m Q → (∀ a, Q a → P al a) → under al m P.
Proof. intros (a & Hm & HQ) HP. apply (under_pure _ _ a); auto. Qed.

Lemma pure_rd buf i : 0 <= i < zlen buf → pure_run (rd buf i) (λ _, True).
Proof.
  intros Hi. unfold rd. replace ((0 <=? i) && (i <? zlen buf)) with true by lia.
  destruct (lookup_lt_is_Some_2 buf (Z.to_nat i)) as [b Hb]; [lia|]. exists b. by rewrite Hb.
Qed.

Lemma pure_slice buf pos n :
  0 <= pos → 0 <= n → pos + n <= zlen buf → pure_run (slice buf pos n) (λ o, zlen o = n).
Proof.
  intros H1 H2 H3. eexists. split; [|by apply (length_slice buf pos n)]. intros s. unfold slice.
  by replace ((0 <=? pos) && (0 <=? n) && (pos + n <=? zlen buf)) with true by lia.
Qed.

Section Checks.
Context {host : Host}.
Implicit Types (update : libbgp_update_msg_t) (b : bool).

(** ** Copies *)

Lemma context_wf b attr : pattr_wf b attr → pattr_wf (fsm_pattr_parse_as4_context attr) attr.
Proof.
  intros (Hok & Hf & Hd). split_and!; [done..|]. unfold fsm_pattr_parse_as4_context.
  destruct (pa_data attr); cbn [data_parsed] in *; tauto.
Qed.

Definition fits attr : bool := zlen (pattr_enc attr) <=? LIBBGP_BGP_MAX_PACKET_LEN.

Lemma wp_clone_pattr b attr :
  pattr_wf b attr →
  wp (fsm_clone_pattr attr) (λ r, r = pattr_norm attr ∧ fits attr = true)
     (λ e, e = LIBBGP_ERR_BUFFER ∧ fits attr = false).
Proof.
  intros Hwf. unfold fsm_clone_pattr, fits. pose proof Hwf as (Hok & _).
  set (buf := replicate (Z.to_nat LIBBGP_BGP_MAX_PACKET_LEN) 0).
  assert (Hbuf : zlen buf = LIBBGP_BGP_MAX_PACKET_LEN) by (unfold buf; by rewrite length_replicate).
  apply wp_bind. eapply wp_mono; [by apply pattr_write_spec| |]; cbn beta.
  2:{ intros e [-> ?]. split; [done|lia]. }
  intros r [-> Hlen]. apply wp_bind, wp_bind, wp_alloc_or_nomem, wp_ret, wp_bind.
  apply wp_slice; [lia|lia|unfold written; rewrite length_app, length_drop; lia|].
  replace (take _ (drop _ _)) with (pattr_enc attr ++ []).
  2:{ unfold written. rewrite app_nil_r, drop_0, Nat2Z.id. symmetry. apply take_app_length. }
  apply wp_bind. eapply wp_mono; [by eapply pattr_parse_enc, context_wf| |done].
  intros r ->. apply wp_bind, wp_fail_if; intros; [lia|]. apply wp_ret. split; [done|lia].
Qed.

Lemma wp_clone_withdrawn ps dst :
  Forall p4_wf ps → zlen (upd_withdrawn dst) + zlen ps <= 2 ^ 40 →
  wp (clone_withdrawn ps dst) (λ r, r = UpdateMsg (upd_withdrawn dst ++ ps) (upd_attrs dst) (upd_nlri dst)) no_err.
Proof.
  revert dst. induction ps as [|p ps IH]; intros dst Hps Hlen; cbn [clone_withdrawn].
  { apply wp_ret. rewrite app_nil_r. by destruct dst. }
  apply Forall_cons in Hps as [[_ Hp] Hps]. cbn [length] in Hlen. apply wp_bind. unfold libbgp_update_add_withdrawn, update_add_prefix.
  apply wp_bind, wp_bind, wp_fail_if; intros; [lia|].
  apply wp_bind, wp_array_grow; [lia|unfold cap_inv; lia|unfold SIZEOF_PREFIX4; lia|]. apply wp_ret, wp_ret.
  eapply wp_mono; [apply IH; [done|cbn [upd_withdrawn]; rewrite length_app; cbn [length]; lia]| |done].
  cbn [upd_withdrawn upd_attrs upd_nlri]. intros r ->. by rewrite <-(assoc_L (++)).
Qed.

Lemma wp_clone_nlri ps dst :
  Forall p4_wf ps → zlen (upd_nlri dst) + zlen ps <= 2 ^ 40 →
  wp (clone_nlri ps dst) (λ r, r = UpdateMsg (upd_withdrawn dst) (upd_attrs dst) (upd_nlri dst ++ ps)) no_err.
Proof.
  revert dst. induction ps as [|p ps IH]; intros dst Hps Hlen; cbn [clone_nlri].
  { apply wp_ret. rewrite app_nil_r. by destruct dst. }
  apply Forall_cons in Hps as [[_ Hp] Hps]. cbn [length] in Hlen. apply wp_bind. unfold libbgp_update_add_nlri, update_add_prefix.
  apply wp_bind, wp_bind, wp_fail_if; intros; [lia|].
  apply wp_bind, wp_array_grow; [lia|unfold cap_inv; lia|unfold SIZEOF_PREFIX4; lia|]. apply wp_ret, wp_ret.
  eapply wp_mono; [apply IH; [done|cbn [upd_nlri]; rewrite length_app; cbn [length]; lia]| |done].
  cbn [upd_withdrawn upd_attrs upd_nlri]. intros r ->. by rewrite <-(assoc_L (++)).
Qed.

Lemma wp_clone_attrs b attrs dst :
  Forall (pattr_wf b) attrs → NoDup (pa_type_code <$> (upd_attrs dst ++ attrs)) →
  zlen (upd_attrs dst) + zlen attrs <= 2 ^ 40 →
  wp (clone_attrs attrs dst)
     (λ r, r = with_attrs dst (upd_attrs dst ++ (pattr_norm <$> attrs)) ∧ forallb fits attrs = true)
     (λ e, e = LIBBGP_ERR_BUFFER ∧ forallb fits attrs = false).
Proof.
  revert dst. induction attrs as [|a attrs IH]; intros dst Hwf Hnd Hlen; cbn [clone_attrs].
  { apply wp_ret. cbn. rewrite app_nil_r. by destruct dst. }
  apply Forall_cons in Hwf as [Ha Hwf]. cbn [length] in Hlen. apply wp_bind.
  eapply wp_mono; [by eapply wp_clone_pattr| |]; cbn beta.
  2:{ intros e [-> Hf]. cbn [forallb]. by rewrite Hf. }
  intros r [-> Hf]. apply wp_bind. unfold libbgp_update_add_attr, update_add_attr_with_cap.
  apply wp_bind, wp_bind, wp_fail_if; intros Hex.
  { exfalso. apply existsb_exists in Hex as (c & Hc & Heq%Z.eqb_eq). rewrite fmap_app, NoDup_app in Hnd.
    destruct Hnd as (_ & Hnd & _). apply (Hnd (pa_type_code c)); [by apply list_elem_of_fmap_2, list_elem_of_In|].
    rewrite Heq. cbn. set_solver. }
  apply wp_bind, wp_array_grow; [lia|unfold cap_inv; lia|unfold Update.SIZEOF_POINTER; lia|]. apply wp_ret, wp_ret.
  eapply wp_mono; [apply IH; [done| |]| |]; cbn [upd_attrs with_attrs].
  - rewrite <-(assoc_L (++)). by rewrite !fmap_app in Hnd |- *.
  - rewrite length_app. cbn [length]. lia.
  - intros r [-> Hfs]. cbn [forallb]. rewrite Hf, Hfs. split; [|done]. rewrite <-(assoc_L (++)). done.
  - intros e [-> Hfs]. cbn [forallb]. by rewrite Hf, Hfs.
Qed.

Lemma upd_wf_counts b update : upd_wf b update →
  zlen (upd_withdrawn update) <= 65535 ∧ zlen (upd_attrs update) <= 65535 ∧ zlen (upd_nlri update) <= 2 ^ 32.
Proof.
  intros ((_ & _ & _ & _ & H1 & H2 & H3) & _). pose proof (prefixes4_count (upd_withdrawn update)).
  pose proof (prefixes4_count (upd_nlri update)). pose proof (attrs_count (upd_attrs update)). lia.
Qed.

Lemma wp_clone_update b update :
  upd_wf b update →
  wp (fsm_clone_update update) (λ r, r = upd_norm update ∧ forallb fits (upd_attrs update) = true)
     (λ e, e = LIBBGP_ERR_BUFFER ∧ forallb fits (upd_attrs update) = false).
Proof.
  intros Hwf. destruct (upd_wf_counts _ _ Hwf) as (H1 & H2 & H3).
  destruct Hwf as ((Hw & Hn & _ & (Hnd & _) & _) & _ & _ & Ha). unfold fsm_clone_update.
  apply wp_bind. eapply wp_mono; [apply wp_clone_withdrawn; [done|cbn; lia]| |done]. intros r ->.
  apply wp_bind. eapply wp_mono; [apply (wp_clone_attrs b); [done|done|cbn; lia]| |done]. intros r [-> Hf].
  eapply wp_mono; [apply wp_clone_nlri; [done|cbn; lia]| |done]. intros r ->. done.
Qed.

(** ** The check for loops *)

Lemma norm_find update T :
  libbgp_update_find_attr (upd_norm update) T = pattr_norm <$> libbgp_update_find_attr update T.
Proof.
  rewrite !find_attr_head. unfold upd_norm, attrs_of. cbn [upd_attrs with_attrs].
  induction (upd_attrs update) as [|a attrs IH]; [done|]. cbn [fmap list_fmap]. rewrite !filter_cons.
  change (pa_type (pattr_norm a)) with (pa_type a). by case_decide.
Qed.

Lemma wf_path_ok b update a T :
  upd_wf b update → T = LIBBGP_PATTR_AS_PATH ∨ T = LIBBGP_PATTR_AS4_PATH →
  libbgp_update_find_attr update T = Some a → path_ok (pattr_norm a).
Proof.
  intros Hwf HT Hf. pose proof (find_attr_type _ _ _ Hf) as Ht.
  assert (Ha : a ∈ upd_attrs update).
  { rewrite find_attr_head in Hf. apply head_Some_elem_of, list_elem_of_filter in Hf. apply Hf. }
  destruct Hwf as (_ & _ & _ & Hall). rewrite Forall_forall in Hall. destruct (Hall a Ha) as ((_ & _ & _ & _ & Hd & Hl) & _).
  unfold path_ok, pattr_norm, pa_type, as_path_is_4b, as_path_segments in *. cbn [pa_data] in *.
  pose proof (segs_count true) as Hc. pose proof (segs_count false) as Hc'.
  assert (Hsh : ∀ is_4b segs, Forall (seg_ok is_4b) segs → Forall seg_shape segs).
  { intros is_4b segs H. eapply Forall_impl; [exact H|]. intros seg (? & ? & _). by split. }
  destruct (pa_data a) as [|segs is_4b| | | | | | |segs is_4b| | | |]; cbn [data_ok value_enc] in *;
    try (subst T; by destruct HT).
  - split_and!; [done|done|by eapply Hsh|]. specialize (Hc segs). specialize (Hc' segs). destruct is_4b; lia.
  - destruct Hd as [-> Hd]. split_and!; [done|done|by eapply Hsh|]. specialize (Hc segs). lia.
Qed.

(** The AS_PATH the session goes by: with the four-octet numbers of AS4_PATH
    when the peer may send one. *)
Definition real_path update (restore : bool) : option (list libbgp_as_path_segment_t) :=
  match libbgp_update_find_attr update LIBBGP_PATTR_AS_PATH, libbgp_update_find_attr update LIBBGP_PATTR_AS4_PATH with
  | None, _ => Some []
  | Some p, Some q => if restore then restore_segs (as_path_segments p) (as_path_segments q) else Some (as_path_segments p)
  | Some p, None => Some (as_path_segments p)
  end.

(** A segment repeats the local AS number more often than allowed. *)
Definition loops (local_asn allow : Z) (segs : list libbgp_as_path_segment_t) : bool :=
  existsb (λ seg, allow <? zlen (filter (λ asn, asn = local_asn) (seg_asns seg))) segs.

Lemma exceeds_find update local_asn allow :
  fsm_as_path_exceeds_local_as (libbgp_update_find_attr update LIBBGP_PATTR_AS_PATH) local_asn allow =
  loops local_asn allow (from_option as_path_segments [] (libbgp_update_find_attr update LIBBGP_PATTR_AS_PATH)).
Proof.
  destruct (libbgp_update_find_attr update LIBBGP_PATTR_AS_PATH) as [p|] eqn:Hp; [|done]. apply find_attr_type in Hp.
  unfold pa_type in Hp. unfold fsm_as_path_exceeds_local_as, as_path_segments. cbn. by destruct (pa_data p).
Qed.

Definition loop_found update (local_asn allow : Z) (restore : bool) : bool :=
  fsm_update_has_advertisements update && loops local_asn allow (default [] (real_path update restore)).

Lemma wp_exceeds b update local_asn allow restore :
  upd_wf b update →
  wp (fsm_update_exceeds_local_as update local_asn allow restore)
     (λ r, r = loop_found update local_asn allow restore)
     (λ e, (e = LIBBGP_ERR_BUFFER ∧ forallb fits (upd_attrs update) = false ∨
            e = LIBBGP_ERR_INVALID ∧ real_path update restore = None) ∧ restore = true).
Proof.
  intros Hwf. unfold fsm_update_exceeds_local_as, loop_found, real_path.
  apply wp_if; intros Hadv; [apply wp_ret; by destruct (fsm_update_has_advertisements update)|].
  replace (fsm_update_has_advertisements update) with true by (by destruct (fsm_update_has_advertisements update)). cbn [andb].
  apply wp_if; intros Hplain.
  { apply wp_ret. rewrite exceeds_find. destruct (libbgp_update_find_attr update LIBBGP_PATTR_AS_PATH) as [p|]; [|done].
    destruct (libbgp_update_find_attr update LIBBGP_PATTR_AS4_PATH) as [q|]; [|done]. by destruct restore. }
  apply orb_false_iff in Hplain as [Hr Hq]. apply negb_false_iff in Hr. apply bool_decide_eq_false in Hq. subst restore.
  destruct (libbgp_update_find_attr update LIBBGP_PATTR_AS4_PATH) as [q|] eqn:Hfq; [|done]. clear Hq.
  apply wp_bind. eapply wp_mono; [by eapply wp_clone_update| |intros e [-> ?]; auto]. intros r [-> _]. apply wp_bind.
  destruct (libbgp_update_find_attr update LIBBGP_PATTR_AS_PATH) as [p|] eqn:Hfp.
  2:{ unfold libbgp_update_restore_as_path. rewrite norm_find, Hfp. apply wp_ret, wp_ret. by rewrite exceeds_find, norm_find, Hfp. }
  assert (Hfp' : libbgp_update_find_attr (upd_norm update) LIBBGP_PATTR_AS_PATH = Some (pattr_norm p)) by by rewrite norm_find, Hfp.
  eapply wp_mono; [eapply wp_restore; [exact Hfp'|apply (wf_path_ok b update p LIBBGP_PATTR_AS_PATH); by auto|
    by rewrite norm_find, Hfq|apply (wf_path_ok b update q LIBBGP_PATTR_AS4_PATH); by auto]| |intros e [-> ?]; auto].
  change (as_path_segments (pattr_norm p)) with (as_path_segments p).
  change (as_path_segments (pattr_norm q)) with (as_path_segments q).
  intros r (segs & -> & ->). apply wp_ret. rewrite exceeds_find, find_attr_head, attrs_of_remove, decide_False by done.
  rewrite attrs_of_put, set_as_path_type, (find_attr_type _ _ _ Hfp'), decide_True by done. cbn [head from_option].
  f_equal. apply find_attr_type in Hfp. unfold pa_type in Hfp. unfold as_path_segments, set_as_path, pattr_norm. cbn.
  by destruct (pa_data p).
Qed.

(** ** Next hops *)

Lemma pure_valid_addr4 own addr : pure_run (fsm_valid_addr4 own addr) (λ _, True).
Proof.
  unfold fsm_valid_addr4. apply pure_if; [by apply pure_ret|]. apply pure_bind.
  eapply pure_mono; [apply pure_rd; by rewrite mem_of_u32_length|]. intros. by apply pure_ret.
Qed.

Lemma pure_linklocal addr : zlen addr = 16 → pure_run (fsm_linklocal_addr6 addr) (λ _, True).
Proof.
  intros Hl. apply pure_bind. eapply pure_mono; [apply pure_rd; lia|]. intros a0 _.
  apply pure_bind. eapply pure_mono; [apply pure_rd; lia|]. intros a1 _. by apply pure_ret.
Qed.

Lemma pure_valid_addr6 addr : zlen addr = 16 → pure_run (fsm_valid_addr6 addr) (λ _, True).
Proof.
  intros Hl. apply pure_if; [by apply pure_ret|]. apply pure_bind. eapply pure_mono; [apply pure_rd; lia|]. intros a0 _.
  apply pure_bind. eapply pure_mono; [by apply pure_linklocal|]. intros a1 _. by apply pure_ret.
Qed.

Lemma pure_next_hop6 policy nexthop len is_ibgp :
  zlen nexthop = 32 → pure_run (fsm_ipv6_next_hop_acceptable policy nexthop len is_ibgp) (λ _, True).
Proof.
  intros Hl. apply pure_if; [by apply pure_ret|].
  apply pure_bind. eapply pure_mono; [apply pure_slice; lia|]. intros global Hg.
  apply pure_bind. eapply pure_mono; [apply pure_slice; lia|]. intros local Hlocal.
  apply pure_bind. eapply pure_mono; [by apply pure_valid_addr6|]. intros valid _.
  apply pure_bind. eapply pure_mono; [by apply pure_linklocal|]. intros ll _. by apply pure_ret.
Qed.

Lemma pure_mp_next_hops b policy is_ibgp attrs :
  Forall (pattr_wf b) attrs → pure_run (mp_next_hops_acceptable policy is_ibgp attrs) (λ _, True).
Proof.
  induction 1 as [|a attrs Ha Hattrs IH]; cbn [mp_next_hops_acceptable]; [by apply pure_ret|].
  destruct Ha as ((_ & _ & _ & _ & Hd & _) & _). destruct (pa_data a); try exact IH. cbn [data_ok] in Hd.
  apply pure_if; [exact IH|]. apply pure_bind. eapply pure_mono; [apply pure_next_hop6; lia|].
  intros ok _. apply pure_if; [exact IH|by apply pure_ret].
Qed.

Lemma pure_ignore b impl update is_ibgp exceeds :
  upd_wf b update → pure_run (ignore_advertisements impl update is_ibgp exceeds) (λ _, True).
Proof.
  intros (_ & _ & _ & Ha). unfold ignore_advertisements. apply pure_bind.
  apply (pure_mono _ (λ _, True)).
  - apply pure_if; [|by apply pure_ret].
    destruct (libbgp_update_find_attr update LIBBGP_PATTR_NEXT_HOP) as [a|] eqn:Hf; [|by apply pure_ret].
    apply find_attr_type in Hf. unfold pa_type in Hf. unfold member.
    destruct (pa_data a); try done. cbn [data_next_hop]. apply pure_bind, pure_ret, pure_bind.
    apply (pure_mono _ (λ _, True)); [|intros ok _; by apply pure_ret]. unfold fsm_ipv4_next_hop_acceptable.
    apply pure_bind. eapply pure_mono; [apply pure_valid_addr4|]. intros. by apply pure_ret.
  - intros ignored _. apply pure_if; [|by apply pure_ret]. apply pure_bind.
    eapply pure_mono; [by eapply pure_mp_next_hops|]. intros. by apply pure_ret.
Qed.

(** ** Routes *)

Lemma view_build_first attrs code : bgp_attr_view_get (bgp_attr_view_build attrs) code = first_with code attrs.
Proof.
  assert (∀ l view pre, (∀ c, bgp_attr_view_get view c = first_with c pre) →
    (view_duplicate_found view = false ↔ NoDup (pa_type_code <$> pre)) →
    ∀ c, bgp_attr_view_get (foldl (λ view attr, (bgp_attr_view_add view attr).2) view l) c = first_with c (pre ++ l)) as Hl.
  { induction l as [|a l IH]; intros view pre Hv Hd c; cbn [foldl]; [by rewrite app_nil_r|].
    destruct (view_add_spec pre view a Hv Hd) as [Hv' Hd']. rewrite (IH _ (pre ++ [a])); [by rewrite <-(assoc_L (++))|done..]. }
  apply (Hl attrs bgp_attr_view_init []); [done|]. split; [intros _; constructor|done].
Qed.

(** The type code of a parsed attribute tells its type; a value of another
    address family is kept as it is. *)
Lemma wf_type b a T :
  pattr_wf b a → pa_type_code a = pattr_default_type_code T → T ∈ [LIBBGP_PATTR_ORIGIN; LIBBGP_PATTR_NEXT_HOP;
    LIBBGP_PATTR_MED; LIBBGP_PATTR_LOCAL_PREF] → pa_type a = T.
Proof.
  intros ((_ & _ & _ & Hcode & _) & _ & Hd) Hc HT. rewrite !elem_of_cons in HT.
  destruct (decide (pa_type a = LIBBGP_PATTR_UNKNOWN)) as [Hu|Hu].
  - exfalso. unfold pa_type in Hu. destruct (pa_data a); try done. cbn in Hd. rewrite Hc in Hd.
    by destruct HT as [-> |[-> |[-> |[-> |HT%not_elem_of_nil]]]].
  - specialize (Hcode Hu). rewrite Hc in Hcode.
    destruct HT as [-> |[-> |[-> |[-> |HT%not_elem_of_nil]]]]; [..|done]; by destruct (pa_type a).
Qed.

Lemma pure_view_member {A} b (f : libbgp_pattr_data -> option A) attrs T (d : A) :
  Forall (pattr_wf b) attrs → T ∈ [LIBBGP_PATTR_ORIGIN; LIBBGP_PATTR_NEXT_HOP; LIBBGP_PATTR_MED; LIBBGP_PATTR_LOCAL_PREF] →
  (∀ a, pa_type a = T → is_Some (f (pa_data a))) →
  pure_run (view_member f (bgp_attr_view_build attrs) (pattr_default_type_code T) d)
    (λ v, first_with (pattr_default_type_code T) attrs = None → v = d).
Proof.
  intros Hwf HT Hf. unfold view_member. rewrite view_build_first.
  destruct (first_with _ attrs) as [a|] eqn:Ha; [|by apply pure_ret].
  apply head_Some_elem_of, list_elem_of_filter in Ha as [Hc Ha]. rewrite Forall_forall in Hwf.
  destruct (Hf a) as [v Hv]; [by eapply wf_type; [apply Hwf| |]|]. unfold member. rewrite Hv. by apply pure_ret.
Qed.

Lemma data_of_type a :
  (pa_type a = LIBBGP_PATTR_ORIGIN → is_Some (data_origin (pa_data a))) ∧
  (pa_type a = LIBBGP_PATTR_NEXT_HOP → is_Some (data_next_hop (pa_data a))) ∧
  (pa_type a = LIBBGP_PATTR_MED → is_Some (data_med (pa_data a))) ∧
  (pa_type a = LIBBGP_PATTR_LOCAL_PREF → is_Some (data_local_pref (pa_data a))).
Proof. unfold pa_type. destruct (pa_data a); split_and!; intros; try done; by eexists. Qed.

Lemma pure_scalars b attrs is_ibgp :
  Forall (pattr_wf b) attrs →
  pure_run (route_scalars (bgp_attr_view_build attrs) is_ibgp) (λ '(_, _, med, _, _), first_with 4 attrs = None → med = 0).
Proof.
  intros Hwf. unfold route_scalars. apply pure_bind. apply (pure_mono _ (λ _, True)).
  { apply pure_if; [|by apply pure_ret]. eapply pure_mono; [|done].
    apply (pure_view_member b _ _ LIBBGP_PATTR_LOCAL_PREF); [done|set_solver|]. intros a. apply data_of_type. }
  intros lp _. apply pure_bind. eapply pure_mono.
  { apply (pure_view_member b _ _ LIBBGP_PATTR_ORIGIN); [done|set_solver|]. intros a. apply data_of_type. }
  intros origin _. apply pure_bind. eapply pure_mono.
  { apply (pure_view_member b _ _ LIBBGP_PATTR_MED); [done|set_solver|]. intros a. apply data_of_type. }
  intros med Hmed. destruct (fsm_as_path_len_and_origin_as _). by apply pure_ret.
Qed.

Lemma pure_fill_route b p src ri update weight is_ibgp :
  upd_wf b update →
  pure_run (fsm_fill_route_attrs p src ri update weight is_ibgp) (λ route,
    rr_prefix (family := family4) route = p ∧ rr_source_router_id (family := family4) route = src ∧
    rr_attrs (family := family4) route = upd_attrs update ∧
    (first_with 4 (upd_attrs update) = None → rr_med (family := family4) route = 0)).
Proof.
  intros (_ & _ & _ & Hwf). unfold fsm_fill_route_attrs. apply pure_bind. eapply pure_mono.
  { apply (pure_view_member b _ _ LIBBGP_PATTR_NEXT_HOP); [done|set_solver|]. intros a. apply data_of_type. }
  intros nh _. apply pure_bind. eapply pure_mono; [by eapply pure_scalars|]. intros [[[[lp og] med] len] oas] Hmed.
  by apply pure_ret.
Qed.

Lemma pure_fill_route6 b update attr is_ibgp :
  Forall (pattr_wf b) (upd_attrs update) → attr ∈ upd_attrs update → pa_type attr = LIBBGP_PATTR_MP_REACH_IPV6 →
  pure_run (fsm_fill_route6_attrs update attr is_ibgp) (λ _, True).
Proof.
  intros Hall Hattr Ht. pose proof Hall as Hall'. rewrite Forall_forall in Hall'.
  destruct (Hall' attr Hattr) as ((_ & _ & _ & _ & Hd & _) & _). unfold pa_type in Ht. unfold fsm_fill_route6_attrs, member.
  destruct (pa_data attr) as [| | | | | | | | | |nexthop nhl nlri| |]; try done. cbn [data_ok data_mp_reach] in *.
  destruct Hd as (Hnhl & Hnh & _). apply pure_bind, pure_ret, pure_bind. eapply pure_mono; [apply pure_slice; lia|].
  intros global _. apply pure_bind. apply (pure_mono _ (λ _, True)).
  { apply pure_if; [eapply pure_mono; [apply pure_slice; lia|done]|by apply pure_ret]. }
  intros linklocal _. apply pure_bind. eapply pure_mono; [by eapply pure_scalars|]. intros. by apply pure_ret.
Qed.

(** The route of an IPv6 prefix, or no memory. *)
Lemma wp_make_route6 b src update attr p weight is_ibgp :
  upd_wf b update → attr ∈ upd_attrs update → p ∈ mp_reach_nlri attr →
  ∃ route, wp (fsm_make_route6 src update attr p weight is_ibgp) (λ r, r = route) no_err ∧
    rr_prefix (family := family6) route = p ∧ rr_source_router_id (family := family6) route = src ∧
    zlen (rr_attrs (family := family6) route) <= 65535.
Proof.
  intros Hwf Hattr Hp. destruct (upd_wf_counts _ _ Hwf) as (_ & Hlen & _). destruct Hwf as (_ & _ & _ & Hall).
  assert (Hty : pa_type attr = LIBBGP_PATTR_MP_REACH_IPV6).
  { unfold mp_reach_nlri in Hp. unfold pa_type. destruct (pa_data attr); try done; by apply elem_of_nil in Hp. }
  destruct (pure_fill_route6 b update attr is_ibgp Hall Hattr Hty) as ([hops [[[[lp og] med] len] oas]] & Hfill & _).
  set (filtered := filter (λ a, fsm_ipv6_route_attr a = true) (upd_attrs update)).
  assert (Hfl : zlen filtered <= 65535).
  { pose proof (length_filter (λ a, fsm_ipv6_route_attr a = true) (upd_attrs update)) as Hle. fold filtered in Hle. lia. }
  exists (RibRoute (family := family6) p src hops weight is_ibgp lp med og len oas 0 filtered). split; [|done].
  rewrite Forall_forall in Hall. destruct (Hall attr Hattr) as ((_ & _ & _ & _ & Hd & _) & _).
  unfold fsm_make_route6, member at 1. unfold pa_type in Hty.
  destruct (pa_data attr) as [| | | | | | | | | |nexthop nhl nlri| |]; try done. cbn [data_ok data_mp_reach] in *.
  apply wp_bind, wp_ret, wp_bind, wp_fail_if; intros; [lia|]. apply wp_bind.
  apply (wp_mono _ (λ r, r = (hops, (lp, og, med, len, oas))) _ no_err); [|intros ? ->|done].
  { intros s. exists [], s. rewrite Hfill. done. }
  apply wp_bind. apply (wp_mono _ (λ _, True) _ no_err); [|intros [] _; by apply wp_ret|done].
  apply wp_if; intros; [by apply wp_ret|]. apply wp_bind, wp_fail_if; intros Hm; [|by apply wp_alloc_or_nomem].
  exfalso. unfold SIZEOF_POINTER in Hm. assert (65535 < SIZE_MAX / 8) by done. fold filtered in Hm. lia.
Qed.
End Checks.
