(* ===== verification/FsmApply.v ===== *)
(** * Applying an UPDATE: the loops

    The four loops of [fsm_apply_update] against the abstract tables: a list of
    actions of the peer for each family.  [st_inv] says that the tables hold
    what the actions done so far leave, and that the journal can undo them. *)

From stdpp Require Import gmap.
From S2P Require Import Prelude Bytes Prefix4 Prefix6 Pattr PattrSpec Update UpdateSpec As4 Filter FilterSpec Packet Hashmap Rib RibTable RibDecision RibInv RibSpec RibRefine RibFamilies Rib46 RibSteady RibMoves Fsm FsmUpdate FsmJournal FsmRollback FsmSteps FsmChecks.

(** ** Actions of a peer *)

Section Actions.
Context `{family : Family} {host : Host}.
Implicit Types (t : list libbgp_rib_route_t).

Inductive peer_act : Type :=
  | PWithdraw (k : Prefix)
  | PInsert (route : libbgp_rib_route_t).

Definition act_effect (peer : Z) t (a : peer_act) t' : Prop :=
  match a with
  | PWithdraw k => withdraw_effect peer t k t'
  | PInsert route => insert_effect t route t'
  end.

(** The tables a list of actions leads to. *)
Inductive acts (peer : Z) t : list peer_act -> list libbgp_rib_route_t -> Prop :=
  | acts_nil t' : t' ≡ₚ t → acts peer t [] t'
  | acts_snoc l t1 a t2 : acts peer t l t1 → act_effect peer t1 a t2 → acts peer t (l ++ [a]) t2.

Lemma acts_start peer t t0 l t' : t ≡ₚ t0 → acts peer t l t' → acts peer t0 l t'.
Proof. intros Ht. induction 1 as [t' Ht'|]; [apply acts_nil; by rewrite Ht', Ht|by eapply acts_snoc]. Qed.

(** The log of a half; [None] when a step was undone. *)
Definition logged (peer : Z) t (log : option (list peer_act)) t' : Prop :=
  match log with
  | Some l => acts peer t l t'
  | None => True
  end.

(** [pool] holds of the routes that may be in the table; with [cmp] those for
    one prefix have comparable MEDs. *)
Definition pool_ok (cmp : bool) (pool : libbgp_rib_route_t -> Prop) : Prop :=
  (cmp = true → ∀ r r', pool r → pool r' →
     rib_lpm_normalize_prefix (rr_prefix r) = rib_lpm_normalize_prefix (rr_prefix r') → comparable r r') ∧
  (∀ r pref id, pool r → pool (with_defaults r pref id)).

(** The entries of a table before the update. *)
Definition table_entries : Type := list entry_ptr.

Definition start_ok (pool : libbgp_rib_route_t -> Prop) (o : option (list entry_ptr)) : Prop :=
  match o with
  | Some R0 => zlen R0 < 2 ^ 39 ∧ entries_wf R0 ∧ Forall (λ e, pool (route_of e)) R0
  | None => True
  end.
End Actions.

Lemma concat_singletons {A B} (f : A -> B) l : concat ((λ x, [f x]) <$> l) = f <$> l.
Proof. induction l as [|x l IH]; [done|]. cbn in IH |- *. by rewrite IH. Qed.

Lemma size_a4 : 0 < SIZEOF_APPLIED4 <= 256. Proof. done. Qed.
Lemma size_w4 : 0 < SIZEOF_WITHDRAWN4 <= 256. Proof. done. Qed.
Lemma size_a6 : 0 < SIZEOF_APPLIED6 <= 256. Proof. done. Qed.
Lemma size_w6 : 0 < SIZEOF_WITHDRAWN6 <= 256. Proof. done. Qed.

Section Loops.
Context {host : Host}.
Context {named4 : Named (family := family4)} {named6 : Named (family := family6)}.
Context (peer : Z) (cmp : bool).
Context (pool4 : libbgp_rib4_route_t -> Prop) (pool6 : libbgp_rib6_route_t -> Prop).
Context (Hpool4 : pool_ok (family := family4) cmp pool4) (Hpool6 : pool_ok (family := family6) cmp pool6).

(** The entries before the update, of the tables there are. *)
Context (o4 : option (table_entries (family := family4))) (o6 : option (table_entries (family := family6))).

Context (Hstart4 : start_ok (family := family4) pool4 o4) (Hstart6 : start_ok (family := family6) pool6 o6).

Abbreviation act4 := (peer_act (family := family4)).
Abbreviation act6 := (peer_act (family := family6)).

Definition table_inv `{family : Family} `{Hnamed : !Named} (prefix_ok : Prefix -> Prop) (pool : libbgp_rib_route_t -> Prop)
    (o : option (list entry_ptr)) (al0 : allocator) (rib : option rib_impl_t) (h : fsm_journal_half)
    (log : option (list peer_act)) : Prop :=
  match rib, o with
  | Some impl, Some R0 => ∃ t, half_inv prefix_ok peer cmp pool R0 al0 impl h t ∧ logged peer (route_of <$> R0) log t
  | None, None => True
  | _, _ => False
  end.

Definition table4_inv := table_inv (family := family4) p4_wf pool4 o4.
Definition table6_inv := table_inv (family := family6) p6_wf pool6 o6.

Abbreviation journal4 st := (uj_4 (as_journal st)).
Abbreviation journal6 st := (uj_6 (as_journal st)).

(** Room for [n] more changes; with [q4], [q6] no route was inserted yet. *)
Record st_inv (al0 al : allocator) (n : Z) (q4 q6 : bool) (log4 : option (list act4)) (log6 : option (list act6))
    (st : apply_state) : Prop := StInv {
  si_uses : uses al0 al;
  si_events : ev_ok (uj_events (as_journal st)) n;
  si_room4 : half_ok (family := family4) (journal4 st) n;
  si_room6 : half_ok (family := family6) (journal6 st) n;
  si_quiet4 : q4 = true → jh_routes (family := family4) (journal4 st) = [];
  si_quiet6 : q6 = true → jh_routes (family := family6) (journal6 st) = [];
  si_table4 : table4_inv al0 (as_rib4 st) (journal4 st) log4;
  si_table6 : table6_inv al0 (as_rib6 st) (journal6 st) log6
}.

Definition st_bad al0 al st : Prop := st_inv al0 al 0 false false None None st.

Lemma logged_none `{family : Family} `{Hnamed : !Named} prefix_ok pool o al0 rib h log :
  table_inv (family := family) prefix_ok pool o al0 rib h log → table_inv prefix_ok pool o al0 rib h None.
Proof. unfold table_inv. destruct rib, o; try done. intros (t & ? & _). by exists t. Qed.

Lemma st_inv_le al0 al n m q4 q6 log4 log6 st :
  st_inv al0 al n q4 q6 log4 log6 st → m <= n → st_inv al0 al m q4 q6 log4 log6 st.
Proof. intros [] Hm. split; try done; [by eapply ev_ok_le|by eapply half_ok_le..]. Qed.

Lemma st_inv_bad al0 al n q4 q6 log4 log6 st :
  st_inv al0 al n q4 q6 log4 log6 st → 0 <= n → st_bad al0 al st.
Proof.
  intros [] Hn. split; try done; [by eapply ev_ok_le|by eapply half_ok_le..|by eapply logged_none|by eapply logged_none].
Qed.

(** The result of a loop: it went on with [I], or it returned. *)
Definition loop_post (al0 : allocator) (current : bool) (I : allocator -> apply_state -> Prop) (al : allocator)
    (r : apply_state * flow) : Prop :=
  match r.2 with
  | None => I al r.1
  | Some e => st_bad al0 al r.1 ∧ (e = LIBBGP_OK ∧ current = false ∨ e = LIBBGP_ERR_NOMEM ∧ refused al0 = Some al)
  end.

Lemma loop_post_next al0 current (I J : allocator -> apply_state -> Prop) al r k :
  loop_post al0 current I al r → (∀ al' st, I al' st → under al' (k st) (loop_post al0 current J)) →
  under al (then_loop r k) (loop_post al0 current J).
Proof. intros Hr Hk. destruct r as [st [e|]]; unfold then_loop; cbn [fst snd]; [by apply under_ret|by apply Hk]. Qed.

Lemma loop_post_then al0 current (I J : allocator -> apply_state -> Prop) al m k :
  under al m (loop_post al0 current I) →
  (∀ al' st, I al' st → under al' (k st) (loop_post al0 current J)) →
  under al (r ← m; then_loop r k) (loop_post al0 current J).
Proof. intros Hm Hk. apply under_bind. eapply under_mono; [exact Hm|]. intros al' r Hr. by eapply loop_post_next. Qed.

(** One loop over prefixes; [I al n l st] after the actions [l], with room for
    [n] more; [f p] are the actions of a prefix. *)
Lemma under_prefix_loop {P A} al0 current body (I : allocator -> Z -> list A -> apply_state -> Prop) (f : P -> list A) ps :
  (∀ al n l st, I al n l st → 0 <= n → st_bad al0 al st) →
  (∀ al n l p st, p ∈ ps → I al (n + 1) l st → 0 <= n →
     under al (body st p) (loop_post al0 current (λ al' st', I al' n (l ++ f p) st'))) →
  ∀ al n l st, I al (n + zlen ps) l st → 0 <= n →
  under al (prefix_loop current body ps st) (loop_post al0 current (λ al' st', I al' n (l ++ concat (f <$> ps)) st')).
Proof.
  intros Hbad. induction ps as [|p ps IH]; intros Hbody al n l st HI Hn; cbn [prefix_loop].
  { apply under_ret. unfold loop_post. cbn. rewrite app_nil_r. by rewrite Z.add_0_r in HI. }
  apply under_if; intros Hc.
  { apply under_ret. split; [eapply Hbad; [exact HI|cbn [length]; lia]|]. left. by destruct current. }
  apply under_bind. eapply under_mono.
  { apply (Hbody al (n + zlen ps) l p st); [set_solver| |lia]. cbn [length] in HI.
    by replace (n + zlen ps + 1) with (n + Z.of_nat (S (length ps))) by lia. }
  intros al' [st' [e|]] Hpost; cbn [fst snd] in *; [by apply under_ret|].
  change (concat (f <$> p :: ps)) with (f p ++ concat (f <$> ps)). rewrite (assoc_L (++)).
  apply IH; [|done|lia]. intros al1 n1 l1 p1 st1 Hp1. apply Hbody. set_solver.
Qed.

(** The loops over the attributes; [c] prefixes for an attribute. *)
Lemma under_attr_loop {A} al0 current body (I : allocator -> Z -> list A -> apply_state -> Prop)
    (f : libbgp_pattr_t -> list A) (c : libbgp_pattr_t -> Z) attrs :
  (∀ attr, 0 <= c attr) →
  (∀ al n l attr st, attr ∈ attrs → I al (n + c attr) l st → 0 <= n →
     under al (body attr st) (loop_post al0 current (λ al' st', I al' n (l ++ f attr) st'))) →
  ∀ al n l st, I al (n + foldr (λ attr, Z.add (c attr)) 0 attrs) l st → 0 <= n →
  under al (attr_loop body attrs st) (loop_post al0 current (λ al' st', I al' n (l ++ concat (f <$> attrs)) st')).
Proof.
  intros Hc. assert (Hsum : ∀ l, 0 <= foldr (λ attr, Z.add (c attr)) 0 l).
  { induction l as [|a l IHl]; cbn [foldr]; [lia|]. specialize (Hc a). lia. }
  induction attrs as [|attr attrs IH]; intros Hbody al n l st HI Hn; cbn [attr_loop].
  { apply under_ret. unfold loop_post. cbn. rewrite app_nil_r. by rewrite Z.add_0_r in HI. }
  cbn [foldr] in HI. eapply loop_post_then.
  { apply (Hbody al (n + foldr (λ attr, Z.add (c attr)) 0 attrs) l attr st); [set_solver| |].
    - by replace (n + foldr (λ attr, Z.add (c attr)) 0 attrs + c attr) with
        (n + (c attr + foldr (λ attr, Z.add (c attr)) 0 attrs)) by lia.
    - specialize (Hsum attrs). lia. }
  intros al' st' HI'. change (concat (f <$> attr :: attrs)) with (f attr ++ concat (f <$> attrs)). rewrite (assoc_L (++)).
  apply IH; [|done|done]. intros al1 n1 l1 a1 st1 Ha1. apply Hbody. set_solver.
Qed.

Lemma attr_loop_idle body attrs st s :
  (∀ attr st s, body attr st s = (Ret (st, None), s)) → attr_loop body attrs st s = (Ret (st, None), s).
Proof.
  intros Hb. induction attrs as [|a attrs IH]; cbn [attr_loop]; [done|]. unfold mbind, M_bind. by rewrite Hb.
Qed.

(** ** Withdrawals *)

Lemma flow_ok : flow_of LIBBGP_OK = None.
Proof. done. Qed.
Lemma flow_nomem : flow_of LIBBGP_ERR_NOMEM = Some LIBBGP_ERR_NOMEM.
Proof. done. Qed.

(** A step on the IPv4 table. *)
Lemma stepped4 al0 current al al' n q q' q6 l log6 st R0 t t' (a : act4) ev h4 rib4 e :
  o4 = Some R0 → st_inv al0 al (n + 1) q q6 (Some l) log6 st → 0 <= n → acts peer (route_of <$> R0) l t →
  step_done (family := family4) p4_wf peer cmp pool4 R0 al0 al' n ev h4 rib4 t' → (q' = true → jh_routes h4 = []) →
  step_result al0 al' e (act_effect peer t a t') →
  loop_post al0 current (λ al' st', st_inv al0 al' n q' q6 (Some (l ++ [a])) log6 st') al' (with_half4 st ev h4 rib4, flow_of e).
Proof.
  intros Ho [_ _ _ H6 _ Hq6 _ Ht6] Hn Hacts [Hu' Hev' Hh' Hinv'] Hq' Hres. unfold loop_post. cbn [fst snd].
  assert (Hst : ∀ log, logged peer (route_of <$> R0) log t' → st_inv al0 al' n q' q6 log log6 (with_half4 st ev h4 rib4)).
  { intros log Hlg. split; cbn; try done; [by eapply half_ok_le; [exact H6|lia]|].
    unfold table4_inv, table_inv. rewrite Ho. by exists t'. }
  destruct Hres as [[-> Heff]|[-> Hr]].
  - rewrite flow_ok. apply Hst. by eapply acts_snoc.
  - rewrite flow_nomem. split; [|by right]. eapply st_inv_bad; [by apply (Hst None)|done].
Qed.

(** No IPv4 table. *)
Lemma skipped4 al0 al n q q6 log log' log6 st :
  as_rib4 st = None → st_inv al0 al (n + 1) q q6 log log6 st → st_inv al0 al n q q6 log' log6 st.
Proof.
  intros Hrib Hinv. eapply st_inv_le in Hinv; [destruct Hinv; split; try done|lia].
  by unfold table4_inv, table_inv in *; rewrite Hrib in *.
Qed.

Lemma under_withdraw4 al0 current al n q6 l log6 st p :
  st_inv al0 al (n + 1) true q6 (Some l) log6 st → 0 <= n → p4_wf p → named4 p →
  under al (withdraw_body4 peer st p) (loop_post al0 current (λ al' st',
    st_inv al0 al' n true q6 (Some (l ++ [PWithdraw (family := family4) p])) log6 st')).
Proof.
  intros Hinv Hn Hp Hname. unfold withdraw_body4. pose proof Hinv as [Hu Hev Hh _ Hq _ Ht _].
  destruct (as_rib4 st) as [impl|] eqn:Hrib; [|apply under_ret; by eapply skipped4].
  unfold table4_inv, table_inv in Ht. destruct o4 as [R0|] eqn:Ho; [|done]. destruct Ht as (t & Hi & Hlog).
  destruct Hstart4 as (Hl0 & Hw0 & Hp0), Hpool4 as [Hc Hs]. apply under_bind. eapply under_mono.
  { exact (under_record_withdraw (family := family4) p4_wf is_u32 SIZEOF_APPLIED4 SIZEOF_WITHDRAWN4
      FSM_UPDATE_EVENT_WITHDRAWN4 size_a4 size_w4 peer cmp pool4 R0 Hc Hs Hl0 Hw0 Hp0 al0 al
      (uj_events (as_journal st)) (journal4 st) impl t p n Hi Hu (Hq eq_refl) Hev Hh Hn Hp Hname). }
  cbn beta. intros al' [[[ev h4] rib4] e] (t' & Hdone & Hq' & Hres). cbn [fst snd] in *.
  apply under_ret. eapply (stepped4 al0 current al al' n true true); try done. intros _. by rewrite Hq', Hq.
Qed.

(** A step on the IPv6 table. *)
Lemma stepped6 al0 current al al' n q q' q4 l log4 st R0 t t' (a : act6) ev h6 rib6 e :
  o6 = Some R0 → st_inv al0 al (n + 1) q4 q log4 (Some l) st → 0 <= n → acts peer (route_of <$> R0) l t →
  step_done (family := family6) p6_wf peer cmp pool6 R0 al0 al' n ev h6 rib6 t' → (q' = true → jh_routes h6 = []) →
  step_result al0 al' e (act_effect peer t a t') →
  loop_post al0 current (λ al' st', st_inv al0 al' n q4 q' log4 (Some (l ++ [a])) st') al' (with_half6 st ev h6 rib6, flow_of e).
Proof.
  intros Ho [_ _ H4 _ Hq4 _ Ht4 _] Hn Hacts [Hu' Hev' Hh' Hinv'] Hq' Hres. unfold loop_post. cbn [fst snd].
  assert (Hst : ∀ log, logged peer (route_of <$> R0) log t' → st_inv al0 al' n q4 q' log4 log (with_half6 st ev h6 rib6)).
  { intros log Hlg. split; cbn; try done; [by eapply half_ok_le; [exact H4|lia]|].
    unfold table6_inv, table_inv. rewrite Ho. by exists t'. }
  destruct Hres as [[-> Heff]|[-> Hr]].
  - rewrite flow_ok. apply Hst. by eapply acts_snoc.
  - rewrite flow_nomem. split; [|by right]. eapply st_inv_bad; [by apply (Hst None)|done].
Qed.

(** No IPv6 table. *)
Lemma skipped6 al0 al n q q4 log log' log4 st :
  as_rib6 st = None → st_inv al0 al (n + 1) q4 q log4 log st → st_inv al0 al n q4 q log4 log' st.
Proof.
  intros Hrib Hinv. eapply st_inv_le in Hinv; [destruct Hinv; split; try done|lia].
  by unfold table6_inv, table_inv in *; rewrite Hrib in *.
Qed.

Lemma under_withdraw6 al0 current al n q4 l log4 st p :
  st_inv al0 al (n + 1) q4 true log4 (Some l) st → 0 <= n → p6_wf p → named6 p →
  under al (withdraw_body6 peer st p) (loop_post al0 current (λ al' st',
    st_inv al0 al' n q4 true log4 (Some (l ++ [PWithdraw (family := family6) p])) st')).
Proof.
  intros Hinv Hn Hp Hname. unfold withdraw_body6. pose proof Hinv as [Hu Hev _ Hh _ Hq _ Ht].
  destruct (as_rib6 st) as [impl|] eqn:Hrib; [|apply under_ret; by eapply skipped6].
  unfold table6_inv, table_inv in Ht. destruct o6 as [R0|] eqn:Ho; [|done]. destruct Ht as (t & Hi & Hlog).
  destruct Hstart6 as (Hl0 & Hw0 & Hp0), Hpool6 as [Hc Hs]. apply under_bind. eapply under_mono.
  { exact (under_record_withdraw (family := family6) p6_wf addr6_ok SIZEOF_APPLIED6 SIZEOF_WITHDRAWN6
      FSM_UPDATE_EVENT_WITHDRAWN6 size_a6 size_w6 peer cmp pool6 R0 Hc Hs Hl0 Hw0 Hp0 al0 al
      (uj_events (as_journal st)) (journal6 st) impl t p n Hi Hu (Hq eq_refl) Hev Hh Hn Hp Hname). }
  cbn beta. intros al' [[[ev h6] rib6] e] (t' & Hdone & Hq' & Hres). cbn [fst snd] in *.
  apply under_ret. eapply (stepped6 al0 current al al' n true true); try done. intros _. by rewrite Hq', Hq.
Qed.

(** ** Insertions *)

(** The route an IPv4 prefix of the update makes, when the filter lets it in. *)
Definition accepted4 (policy : fsm_policy) (update : libbgp_update_msg_t) (is_ibgp : bool) (p : libbgp_prefix4_t)
    : list act4 :=
  match (fsm_fill_route_attrs p peer is_ibgp update (po_route_weight policy) is_ibgp []).1 with
  | Ret route =>
      let decision :=
        match po_in_filter4 policy with
        | Some f => last_match (λ r, match4 (rule_match r) p (upd_attrs update)) (f_rules f) LIBBGP_FILTER_PERMIT
        | None => LIBBGP_FILTER_PERMIT
        end in
      if decide (decision = LIBBGP_FILTER_PERMIT) then [PInsert (family := family4) route] else []
  | _ => []
  end.

Lemma accepted4_no_med b policy update is_ibgp p route :
  upd_wf b update → first_with 4 (upd_attrs update) = None →
  PInsert (family := family4) route ∈ accepted4 policy update is_ibgp p → rr_med (family := family4) route = 0.
Proof.
  intros Hwf Hm. unfold accepted4.
  destruct (pure_fill_route b p peer is_ibgp update (po_route_weight policy) is_ibgp Hwf) as (r & Hrun & _ & _ & _ & Hmed).
  rewrite (Hrun []). cbn [fst]. destruct (decide _) as [_|_]; [|by intros ?%elem_of_nil].
  intros [= ->]%list_elem_of_singleton. auto.
Qed.

Lemma st_inv_ignore al0 al n q4 q6 log4 log6 st :
  st_inv al0 al n q4 q6 log4 log6 st → st_inv al0 al n q4 q6 log4 log6 (ignore st).
Proof. by intros []. Qed.

Lemma under_insert4 al0 current al n b policy update is_ibgp q6 l log6 st p :
  st_inv al0 al (n + 1) false q6 (Some l) log6 st → 0 <= n → p4_wf p → named4 p → upd_wf b update →
  (∀ route, PInsert (family := family4) route ∈ accepted4 policy update is_ibgp p → pool4 route) →
  under al (insert_body4 policy peer update is_ibgp st p) (loop_post al0 current (λ al' st',
    st_inv al0 al' n false q6 (Some (l ++ accepted4 policy update is_ibgp p)) log6 st')).
Proof.
  intros Hinv Hn Hp Hname Hwf Hacc. unfold insert_body4. pose proof Hinv as [Hu Hev Hh _ _ _ Ht _].
  assert (Hsame : st_inv al0 al n false q6 (Some l) log6 st) by (eapply st_inv_le; [exact Hinv|lia]).
  destruct (upd_wf_counts _ _ Hwf) as (_ & Hattrs & _).
  destruct (pure_fill_route b p peer is_ibgp update (po_route_weight policy) is_ibgp Hwf) as (route & Hrun & Hk & Hsrc & Ha & _).
  apply under_bind, (under_pure _ _ route); [exact Hrun|]. unfold accepted4 in *. rewrite (Hrun []) in *. cbn [fst] in *.
  rewrite Ha. apply under_bind.
  set (decision := match po_in_filter4 policy with Some f => last_match _ (f_rules f) _ | None => _ end) in *.
  apply (under_pure _ _ decision).
  { intros s. unfold decision. destruct (po_in_filter4 policy) as [f|]; [|done].
    apply apply_loop_run. intros r. apply rule_matches_scan. }
  destruct (decide (decision = LIBBGP_FILTER_PERMIT)) as [_|_]; [|apply under_ret; rewrite app_nil_r; by apply st_inv_ignore].
  destruct (as_rib4 st) as [impl|] eqn:Hrib; [|apply under_ret; by eapply skipped4].
  unfold table4_inv, table_inv in Ht. destruct o4 as [R0|] eqn:Ho; [|done]. destruct Ht as (t & Hi & Hlog).
  destruct Hstart4 as (Hl0 & Hw0 & Hp0), Hpool4 as [Hc Hs]. apply under_bind.
  assert (Hk' : p4_wf (rr_prefix (family := family4) route)) by by rewrite Hk.
  rewrite <-Hk in Hname.
  assert (Hal : zlen (rr_attrs (family := family4) route) < 2 ^ 60) by (rewrite Ha; lia).
  eapply under_mono.
  { exact (under_insert_and_record (family := family4) p4_wf is_u32 SIZEOF_APPLIED4 SIZEOF_WITHDRAWN4
      FSM_UPDATE_EVENT_ROUTE4 size_a4 size_w4 peer cmp pool4 R0 Hc Hs Hl0 Hw0 Hp0 al0 al
      (uj_events (as_journal st)) (journal4 st) impl t route n Hi Hu Hev Hh Hn Hsrc Hname Hk' Hal
      (Hacc route (list_elem_of_here _ _))). }
  cbn beta. intros al' [[[ev h4] rib4] e] (t' & Hdone & Hres). cbn [fst snd] in *.
  apply under_ret. by eapply (stepped4 al0 current al al' n false false).
Qed.

(** The same of an IPv6 prefix of the attribute [attr]. *)
Definition accepted6 (policy : fsm_policy) (update : libbgp_update_msg_t) (is_ibgp : bool) (attr : libbgp_pattr_t)
    (p : libbgp_prefix6_t) : list act6 :=
  match (fsm_make_route6 peer update attr p (po_route_weight policy) is_ibgp []).1 with
  | Ret route =>
      let decision :=
        match po_in_filter6 policy with
        | Some f => last_match (λ r, match6 (rule_match r) p (rr_attrs (family := family6) route)) (f_rules f) LIBBGP_FILTER_PERMIT
        | None => LIBBGP_FILTER_PERMIT
        end in
      if decide (decision = LIBBGP_FILTER_PERMIT) then [PInsert (family := family6) route] else []
  | _ => []
  end.

Lemma under_insert6 al0 current al n b policy update is_ibgp attr q4 l log4 st p :
  st_inv al0 al (n + 1) q4 false log4 (Some l) st → 0 <= n → p6_wf p → named6 p → upd_wf b update →
  attr ∈ upd_attrs update → p ∈ mp_reach_nlri attr →
  (∀ route, PInsert (family := family6) route ∈ accepted6 policy update is_ibgp attr p → pool6 route) →
  under al (insert_body6 policy peer update is_ibgp attr st p) (loop_post al0 current (λ al' st',
    st_inv al0 al' n q4 false log4 (Some (l ++ accepted6 policy update is_ibgp attr p)) st')).
Proof.
  intros Hinv Hn Hp Hname Hwf Hattr Hin Hacc. unfold insert_body6.
  apply under_if; intros Hskip.
  { apply under_ret. apply andb_true_iff in Hskip as [Hno%bool_decide_eq_true _]. by eapply skipped6. }
  destruct (wp_make_route6 b peer update attr p (po_route_weight policy) is_ibgp Hwf Hattr Hin) as (route & Hwp & Hk & Hsrc & Hal).
  unfold accepted6 in *. rewrite (wp_returns _ _ Hwp) in *. cbn [fst] in *.
  apply under_bind. eapply under_mono; [by apply (under_wp al _ _ _ Hwp)|]. cbn beta. intros al1 [r|e] [Hu1 Hr].
  2:{ destruct Hr as [[]|[-> Hr]]. apply under_ret. unfold loop_post. cbn [fst snd]. pose proof (si_uses _ _ _ _ _ _ _ _ Hinv) as Hu.
      split; [|right; split; [done|exact (uses_refused _ _ _ Hu Hr)]].
      eapply (st_inv_bad al0 al1 (n + 1)); [|lia]. destruct Hinv. split; try done. right. exact (uses_refused _ _ _ Hu Hr). }
  subst r. assert (Hinv1 : st_inv al0 al1 (n + 1) q4 false log4 (Some l) st).
  { destruct Hinv. split; try done. by eapply uses_next. }
  clear Hinv. rename Hinv1 into Hinv. pose proof Hinv as [Hu Hev _ Hh _ _ _ Ht]. apply under_bind.
  set (decision := match po_in_filter6 policy with Some f => last_match _ (f_rules f) _ | None => _ end) in *.
  apply (under_pure _ _ decision).
  { intros s. unfold decision. destruct (po_in_filter6 policy) as [f|]; [|done].
    apply apply_loop_run. intros r. apply rule_matches6_scan. }
  assert (Hsame : st_inv al0 al1 n q4 false log4 (Some l) st) by (eapply st_inv_le; [exact Hinv|lia]).
  destruct (decide (decision = LIBBGP_FILTER_PERMIT)) as [_|_]; [|apply under_ret; rewrite app_nil_r; by apply st_inv_ignore].
  destruct (as_rib6 st) as [impl|] eqn:Hrib; [|apply under_ret; by eapply skipped6].
  unfold table6_inv, table_inv in Ht. destruct o6 as [R0|] eqn:Ho; [|done]. destruct Ht as (t & Hi & Hlog).
  destruct Hstart6 as (Hl0 & Hw0 & Hp0), Hpool6 as [Hc Hs]. apply under_bind.
  assert (Hk' : p6_wf (rr_prefix (family := family6) route)) by by rewrite Hk.
  rewrite <-Hk in Hname.
  assert (Hal' : zlen (rr_attrs (family := family6) route) < 2 ^ 60) by lia.
  eapply under_mono.
  { exact (under_insert_and_record (family := family6) p6_wf addr6_ok SIZEOF_APPLIED6 SIZEOF_WITHDRAWN6
      FSM_UPDATE_EVENT_ROUTE6 size_a6 size_w6 peer cmp pool6 R0 Hc Hs Hl0 Hw0 Hp0 al0 al1
      (uj_events (as_journal st)) (journal6 st) impl t route n Hi Hu Hev Hh Hn Hsrc Hname Hk' Hal'
      (Hacc route (list_elem_of_here _ _))). }
  cbn beta. intros al' [[[ev h6] rib6] e] (t' & Hdone & Hres). cbn [fst snd] in *.
  apply under_ret. by eapply (stepped6 al0 current al1 al' n false false).
Qed.

(** ** The four loops *)

Section Update.
Context (b : bool) (update : libbgp_update_msg_t) (Hwf : upd_wf b update).
Context (Hnamed4 : ∀ p, p ∈ upd_withdrawn update ∨ p ∈ upd_nlri update → named4 p).
Context (Hnamed6 : ∀ attr p, attr ∈ upd_attrs update →
  p ∈ mp_unreach_withdrawn attr ∨ p ∈ mp_reach_nlri attr → named6 p).
Context (impl : fsm_impl_t) (session_generation : Z) (is_ibgp ignored : bool).
Context (Hacc4 : ∀ p route, p ∈ upd_nlri update →
  PInsert (family := family4) route ∈ accepted4 (fs_policy impl) update is_ibgp p → pool4 route).
Context (Hacc6 : ∀ attr p route, attr ∈ upd_attrs update → p ∈ mp_reach_nlri attr →
  PInsert (family := family6) route ∈ accepted6 (fs_policy impl) update is_ibgp attr p → pool6 route).

Abbreviation send4 := (pe_send_ipv4_routes (fs_peer impl)).
Abbreviation send6 := (pe_send_ipv6_routes (fs_peer impl)).

(** What the peer asks for: the withdrawals, then the routes that are accepted. *)
Definition update_acts4 : list act4 :=
  (if send4 then PWithdraw (family := family4) <$> upd_withdrawn update else []) ++
  (if send4 && negb ignored then concat (accepted4 (fs_policy impl) update is_ibgp <$> upd_nlri update) else []).

Definition update_acts6 : list act6 :=
  (if send6 then concat ((λ attr, PWithdraw (family := family6) <$> mp_unreach_withdrawn attr) <$> upd_attrs update) else []) ++
  (if send6 && negb ignored
   then concat ((λ attr, concat (accepted6 (fs_policy impl) update is_ibgp attr <$> mp_reach_nlri attr)) <$> upd_attrs update)
   else []).

Definition count6 (f : libbgp_pattr_t -> list libbgp_prefix6_t) : Z :=
  foldr (λ attr, Z.add (zlen (f attr))) 0 (upd_attrs update).

Lemma count6_bound f :
  (∀ attr, zlen (f attr) <= zlen (value_enc (pa_data attr))) → 0 <= count6 f <= 65535.
Proof.
  intros Hf. destruct Hwf as ((_ & _ & _ & _ & _ & Hl & _) & _). unfold count6.
  assert (∀ l, 0 <= foldr (λ attr, Z.add (zlen (f attr))) 0 l <= zlen (attrs_enc l)) as Hall; [|specialize (Hall (upd_attrs update)); lia].
  induction l as [|a l IH]; cbn [foldr]; [cbn; lia|]. change (attrs_enc (a :: l)) with (pattr_enc a ++ attrs_enc l).
  rewrite length_app, pattr_enc_split, length_app. specialize (Hf a). lia.
Qed.

Lemma mp_reach_count attr : zlen (mp_reach_nlri attr) <= zlen (value_enc (pa_data attr)).
Proof.
  unfold mp_reach_nlri. destruct (pa_data attr) as [| | | | | | | | | |nexthop nhl nlri| |]; cbn [value_enc length]; try lia.
  rewrite !length_app. pose proof (prefixes6_count nlri). lia.
Qed.

Lemma mp_unreach_count attr : zlen (mp_unreach_withdrawn attr) <= zlen (value_enc (pa_data attr)).
Proof.
  unfold mp_unreach_withdrawn. destruct (pa_data attr) as [| | | | | | | | | | |withdrawn|]; cbn [value_enc length]; try lia.
  rewrite !length_app. pose proof (prefixes6_count withdrawn). lia.
Qed.

Lemma mp_prefixes_wf attr : attr ∈ upd_attrs update →
  Forall p6_wf (mp_reach_nlri attr) ∧ Forall p6_wf (mp_unreach_withdrawn attr).
Proof.
  intros Ha. destruct Hwf as (_ & _ & _ & Hall). rewrite Forall_forall in Hall.
  destruct (Hall attr Ha) as ((_ & _ & _ & _ & Hd & _) & _).
  unfold mp_reach_nlri, mp_unreach_withdrawn. destruct (pa_data attr); cbn [data_ok] in Hd; split; try done; apply Hd.
Qed.

Lemma st_inv_quiet al0 al n q4 q6 log4 log6 st :
  st_inv al0 al n q4 q6 log4 log6 st → st_inv al0 al n false q6 log4 log6 st ∧ st_inv al0 al n q4 false log4 log6 st.
Proof. intros []. by split; split. Qed.

Lemma under_apply_routes al0 al n st :
  st_inv al0 al (n + (zlen (upd_withdrawn update) + zlen (upd_nlri update) + count6 mp_unreach_withdrawn + count6 mp_reach_nlri))
    true true (Some []) (Some []) st → 0 <= n →
  under al (apply_routes impl session_generation peer update is_ibgp ignored st)
    (loop_post al0 (fsm_update_session_current impl session_generation) (λ al' st',
       st_inv al0 al' n false false (Some update_acts4) (Some update_acts6) st')).
Proof.
  intros Hinv Hn. unfold apply_routes. set (current := fsm_update_session_current impl session_generation).
  pose proof (count6_bound _ mp_reach_count) as H1. pose proof (count6_bound _ mp_unreach_count) as H2.
  assert (H3 : 0 <= zlen (upd_nlri update)) by lia. assert (H4 : 0 <= zlen (upd_withdrawn update)) by lia.
  pose proof Hwf as ((Hw & Hnl & _) & _). rewrite Forall_forall in Hw, Hnl.
  set (nw := zlen (upd_withdrawn update)) in *. set (nn := zlen (upd_nlri update)) in *.
  set (nu := count6 mp_unreach_withdrawn) in *. set (nr := count6 mp_reach_nlri) in *.
  apply under_bind, (under_mono _ _ (loop_post al0 current (λ al' st', st_inv al0 al' (n + (nn + nu + nr)) true true
    (Some (if send4 then PWithdraw (family := family4) <$> upd_withdrawn update else [])) (Some []) st'))).
  { replace (PWithdraw (family := family4) <$> upd_withdrawn update) with
      ([] ++ concat ((λ p, [PWithdraw (family := family4) p]) <$> upd_withdrawn update)).
    2:{ apply concat_singletons. }
    apply under_if; intros ->; [|apply under_ret; eapply st_inv_le; [exact Hinv|lia]].
    apply (under_prefix_loop al0 current _ (λ al n l st, st_inv al0 al n true true (Some l) (Some []) st)).
    - intros al1 n1 l1 st1. apply st_inv_bad.
    - intros al1 n1 l1 p1 st1 Hp1 HI1 Hn1. apply under_withdraw4; auto.
    - by replace (n + (nn + nu + nr) + zlen (upd_withdrawn update)) with (n + (nw + nn + nu + nr)) by lia.
    - lia. }
  intros al1 r1 Hr1. apply under_bind, (under_mono _ _ (loop_post al0 current (λ al' st',
    st_inv al0 al' (n + (nu + nr)) false true (Some update_acts4) (Some []) st'))).
  { eapply loop_post_next; [exact Hr1|]. intros al2 st2 [HI2 _]%st_inv_quiet. unfold update_acts4.
    apply under_if; intros ->; [|apply under_ret; rewrite app_nil_r; eapply st_inv_le; [exact HI2|lia]].
    apply (under_prefix_loop al0 current _ (λ al n l st, st_inv al0 al n false true (Some l) (Some []) st)).
    - intros al3 n3 l3 st3. apply st_inv_bad.
    - intros al3 n3 l3 p3 st3 Hp3 HI3 Hn3. apply (under_insert4 al0 current al3 n3 b); [done|done|by apply Hnl|by apply Hnamed4; right|done|]. intros route. by apply Hacc4.
    - by replace (n + (nu + nr) + zlen (upd_nlri update)) with (n + (nn + nu + nr)) by lia.
    - lia. }
  intros al2 r2 Hr2. apply under_bind, (under_mono _ _ (loop_post al0 current (λ al' st',
    st_inv al0 al' (n + nr) false true (Some update_acts4) (Some (if send6 then
      concat ((λ attr, PWithdraw (family := family6) <$> mp_unreach_withdrawn attr) <$> upd_attrs update) else [])) st'))).
  { eapply loop_post_next; [exact Hr2|]. intros al3 st3 HI3.
    replace (concat _) with ([] ++ concat ((λ attr, concat ((λ p, [PWithdraw (family := family6) p]) <$> mp_unreach_withdrawn attr))
      <$> upd_attrs update)).
    2:{ cbn [app]. f_equal. apply list_fmap_ext. intros _ attr _. apply concat_singletons. }
    destruct send6 eqn:Hsend; rewrite ?Hsend.
    - apply (under_attr_loop al0 current _ (λ al n l st, st_inv al0 al n false true (Some update_acts4) (Some l) st) _
        (λ attr, zlen (mp_unreach_withdrawn attr))); [lia| | |lia].
      2:{ by replace (n + nr + _) with (n + (nu + nr)) by (unfold nu, count6; lia). }
      intros al5 n5 l5 attr st5 Hattr HI5 Hn5. destruct (mp_prefixes_wf attr Hattr) as [_ Hps]. rewrite Forall_forall in Hps.
      apply (under_prefix_loop al0 current _ (λ al n l st, st_inv al0 al n false true (Some update_acts4) (Some l) st)); auto.
      + intros al6 n6 l6 st6. apply st_inv_bad.
      + intros al6 n6 l6 p6 st6 Hp6 HI6 Hn6. apply under_withdraw6; eauto.
    - apply (under_pure _ _ (st3, None)); [intros s; by apply attr_loop_idle|]. eapply st_inv_le; [exact HI3|lia]. }
  intros al3 r3 Hr3. eapply loop_post_next; [exact Hr3|]. intros al4 st4 [_ HI4]%st_inv_quiet. unfold update_acts6.
  destruct (send6 && negb ignored) eqn:Hsend.
  2:{ apply (under_pure _ _ (st4, None)); [intros s; by apply attr_loop_idle|]. rewrite app_nil_r. eapply st_inv_le; [exact HI4|lia]. }
  apply (under_attr_loop al0 current _ (λ al n l st, st_inv al0 al n false false (Some update_acts4) (Some l) st) _
    (λ attr, zlen (mp_reach_nlri attr))); [lia| |done|done].
  intros al5 n5 l5 attr st5 Hattr HI5 Hn5. destruct (mp_prefixes_wf attr Hattr) as [Hps _]. rewrite Forall_forall in Hps.
  apply (under_prefix_loop al0 current _ (λ al n l st, st_inv al0 al n false false (Some update_acts4) (Some l) st)); auto.
  - intros al6 n6 l6 st6. apply st_inv_bad.
  - intros al6 n6 l6 p6 st6 Hp6 HI6 Hn6. apply (under_insert6 al0 current al6 n6 b); eauto.
Qed.
End Update.
End Loops.
