(* ===== verification/FsmUpdateSpec.v ===== *)
(** * Applying an UPDATE: all or nothing

    [fsm_apply_update] and [fsm_rollback_update_journal] together, against the
    abstract tables of [FsmApply]. *)

From stdpp Require Import gmap.
From S2P Require Import Prelude Bytes Prefix4 Prefix6 Pattr PattrSpec Update UpdateSpec As4 Filter FilterSpec Packet Hashmap Rib RibTable RibDecision RibInv RibSpec RibRefine RibFamilies Rib46 RibSteady RibMoves Fsm FsmUpdate FsmJournal FsmRollback FsmSteps FsmChecks FsmApply.

(** ** Reserving the journal *)

Section Reserve.
Context {host : Host}.
Implicit Types (update : libbgp_update_msg_t).

Lemma count_needed_run f attrs needed s :
  0 <= needed → needed + foldr (λ attr, Z.add (zlen (f attr))) 0 attrs <= 2 ^ 40 →
  count_needed f attrs needed s = (Ret (needed + foldr (λ attr, Z.add (zlen (f attr))) 0 attrs), s).
Proof.
  revert needed. induction attrs as [|a attrs IH]; intros needed H0 Hsum; cbn [count_needed foldr] in *.
  { by rewrite Z.add_0_r. }
  assert (Hnn : 0 <= foldr (λ attr, Z.add (zlen (f attr))) 0 attrs).
  { clear. induction attrs as [|a attrs IH]; cbn [foldr]; lia. }
  assert (Hmax : SIZE_MAX = 2 ^ 64 - 1) by done.
  replace (SIZE_MAX - needed <? zlen (f a)) with false by lia. unfold mbind, M_bind. cbn [fail_if mret M_ret].
  rewrite IH by lia. by rewrite Z.add_assoc.
Qed.

Lemma steady_count_needed f attrs needed : steady (count_needed f attrs needed).
Proof. revert needed. induction attrs; intros needed; cbn [count_needed]; steady. Qed.
#[local] Hint Resolve steady_count_needed : steady.

Lemma steady_reserve_update journal has4 has6 update :
  steady (fsm_update_journal_reserve_update journal has4 has6 update).
Proof.
  unfold fsm_update_journal_reserve_update, fsm_update_journal_reserve4_to, fsm_update_journal_reserve6_to,
    fsm_update_journal_reserve_withdrawn4_to, fsm_update_journal_reserve_withdrawn6_to,
    fsm_update_journal_reserve_routes_to, fsm_update_journal_reserve_withdrawn_to, fsm_update_journal_reserve_events_to.
  steady.
Qed.

(** A reserved journal is an empty one with room. *)
Definition reserved (journal : fsm_update_journal_t) : Prop :=
  je_events (uj_events journal) = [] ∧ jcap_ok (je_cap (uj_events journal)) ∧
  jh_routes (family := family4) (uj_4 journal) = [] ∧ jh_withdrawn (family := family4) (uj_4 journal) = [] ∧
  jcap_ok (jh_routes_cap (family := family4) (uj_4 journal)) ∧ jcap_ok (jh_withdrawn_cap (family := family4) (uj_4 journal)) ∧
  jh_routes (family := family6) (uj_6 journal) = [] ∧ jh_withdrawn (family := family6) (uj_6 journal) = [] ∧
  jcap_ok (jh_routes_cap (family := family6) (uj_6 journal)) ∧ jcap_ok (jh_withdrawn_cap (family := family6) (uj_6 journal)).

Lemma runs_reserve_cap {A} T cap needed size (k : Z -> M A) (Q : A + libbgp_err_t -> Prop) :
  jcap_ok cap → needed <= 2 ^ 42 → 0 < size <= 256 →
  (∀ cap', jcap_ok cap' → runs T (try_call (k cap')) Q) → (T = false → Q (inr LIBBGP_ERR_NOMEM)) →
  runs T (try_call (cap' ← journal_reserve_to cap needed size; k cap')) Q.
Proof.
  intros H1 H2 H3 Hk HQ. apply runs_try_bind. eapply runs_mono; [by apply (runs_reserve_to T cap needed size)|].
  intros [cap'|e]; [apply Hk|]. intros [-> HT]. auto.
Qed.

(** The sum of the prefixes of the attributes. *)
Abbreviation sum6 f attrs := (foldr (λ attr, Z.add (zlen (f attr))) 0 attrs).

Lemma runs_count {A} T f attrs needed (k : Z -> M A) Q :
  0 <= needed → needed + sum6 f attrs <= 2 ^ 40 →
  runs T (try_call (k (needed + sum6 f attrs))) Q → runs T (try_call (n ← count_needed f attrs needed; k n)) Q.
Proof.
  intros H0 Hs Hk. apply runs_try_bind. eapply (runs_pure _ _ (inl (needed + sum6 f attrs))); [|done].
  intros s. unfold try_call. by rewrite count_needed_run.
Qed.

Lemma runs_reserve_update T has4 has6 update :
  zlen (upd_nlri update) <= 2 ^ 38 → zlen (upd_withdrawn update) <= 2 ^ 38 →
  sum6 mp_reach_nlri (upd_attrs update) <= 2 ^ 38 → sum6 mp_unreach_withdrawn (upd_attrs update) <= 2 ^ 38 →
  runs T (try_call (fsm_update_journal_reserve_update fsm_update_journal_empty has4 has6 update)) (λ o,
    match o with inl journal => reserved journal | inr e => e = LIBBGP_ERR_NOMEM ∧ T = false end).
Proof.
  intros H1 H2 H3 H4. unfold fsm_update_journal_reserve_update. cbn [uj_4 uj_6 fsm_update_journal_empty jh_routes jh_withdrawn].
  assert (Hmax : SIZE_MAX = 2 ^ 64 - 1) by done.
  assert (Hs : ∀ f : libbgp_pattr_t -> list libbgp_prefix6_t, 0 <= sum6 f (upd_attrs update)).
  { intros f. clear. induction (upd_attrs update) as [|a l IH]; cbn [foldr]; lia. }
  pose proof (Hs mp_reach_nlri). pose proof (Hs mp_unreach_withdrawn). clear Hs.
  set (fine := λ m : Z * Z + libbgp_err_t, ∃ a b, m = inl (a, b) ∧ 0 <= a <= 2 ^ 38 ∧ 0 <= b <= 2 ^ 38).
  apply runs_try_bind, (runs_mono _ _ fine).
  { destruct has4; [|apply runs_try_ret; by exists 0, 0]. cbn [length].
    replace (SIZE_MAX - Z.of_nat 0 <? zlen (upd_nlri update)) with false by lia.
    replace (SIZE_MAX - Z.of_nat 0 <? zlen (upd_withdrawn update)) with false by lia.
    apply runs_try_bind, runs_try_ret, runs_try_bind, runs_try_ret, runs_try_ret. eexists _, _. split; [done|]. lia. }
  intros m (r4 & w4 & -> & Hr4 & Hw4). cbn beta iota.
  apply runs_try_bind, (runs_mono _ _ fine).
  { destruct has6; [|apply runs_try_ret; by exists 0, 0]. cbn [length].
    apply runs_count; [lia..|]. apply runs_count; [lia..|]. apply runs_try_ret. eexists _, _. split; [done|]. lia. }
  intros m (r6 & w6 & -> & Hr6 & Hw6). cbn beta iota.
  assert (Hcap : jcap_ok 0) by (unfold jcap_ok; lia).
  apply runs_try_bind, runs_reserve_cap; [done|lia|done| |done]. intros c1 Hc1. apply runs_try_ret.
  apply runs_try_bind, runs_reserve_cap; [done|lia|done| |done]. intros c2 Hc2. apply runs_try_ret.
  apply runs_try_bind, runs_reserve_cap; [done|lia|done| |done]. intros c3 Hc3. apply runs_try_ret.
  apply runs_try_bind, runs_reserve_cap; [done|lia|done| |done]. intros c4 Hc4. apply runs_try_ret.
  replace ((SIZE_MAX - r6 <? r4) || (SIZE_MAX - w4 <? r4 + r6) || (SIZE_MAX - w6 <? r4 + r6 + w4)) with false by lia.
  apply runs_try_bind, runs_try_ret.
  apply runs_try_bind, runs_reserve_cap; [done|lia|done| |done]. intros c5 Hc5. apply runs_try_ret, runs_try_ret.
  unfold reserved. by split_and!.
Qed.
End Reserve.

(** ** The passes of a rollback over a table that may be missing *)

Section HalfRollback.
Context `{family : Family} {host : Host} `{Hnamed : !Named}.
Context (prefix_ok : Prefix -> Prop) (addr_ok : Addr -> Prop) `{!FamilyLaws prefix_ok addr_ok}.

Definition lifted (P : table_entries -> rib_impl_t -> Prop) (o : option table_entries)
    (rib : option rib_impl_t) : Prop :=
  match rib, o with
  | Some impl, Some R0 => P R0 impl
  | None, None => True
  | _, _ => False
  end.

Lemma under_on_rib (P Q : table_entries -> rib_impl_t -> Prop) o rib f al al1 :
  uses al al1 → lifted P o rib →
  (∀ impl R0 al1, o = Some R0 → uses al al1 → P R0 impl → under al1 (f impl) (λ al' impl', uses al al' ∧ Q R0 impl')) →
  under al1 (on_rib rib f) (λ al' rib', uses al al' ∧ lifted Q o rib').
Proof.
  intros Hu HP Hf. unfold on_rib, lifted in *. destruct rib as [r|], o as [R0|]; try done; [|by apply under_ret].
  apply under_bind. eapply under_mono; [by eapply Hf|]. cbn beta. intros al' r' [? ?]. by apply under_ret.
Qed.

Context (peer : Z) (cmp : bool) (pool : libbgp_rib_route_t -> Prop) (Hpool : pool_ok cmp pool).
Context (o : option table_entries) (Hstart : start_ok pool o).

Lemma half_remove al0 al al1 rib h :
  uses al al1 → table_inv peer cmp prefix_ok pool o al0 rib h None →
  under al1 (on_rib rib (λ r, remove_insertions r peer (rev (jh_routes h))))
    (λ al' rib', uses al al' ∧ lifted (λ R0 r, emptied prefix_ok peer cmp pool R0 al0 r h) o rib').
Proof.
  intros Hu Ht. destruct Hpool as [Hc Hs].
  apply (under_on_rib (λ R0 r, ∃ t, half_inv prefix_ok peer cmp pool R0 al0 r h t ∧ True)); [done|exact Ht|].
  intros r R0 al2 Ho Hu2 (t & Hh & _). rewrite Ho in Hstart. destruct Hstart as (Hl0 & Hw0 & Hp0).
  by apply (rollback_remove prefix_ok addr_ok peer cmp pool R0) with (t := t).
Qed.

Lemma half_replacements al0 al al1 rib h :
  uses al al1 → lifted (λ R0 r, emptied prefix_ok peer cmp pool R0 al0 r h) o rib →
  under al1 (on_rib rib (λ r, restore_replacements r peer (jh_routes h)))
    (λ al' rib', uses al al' ∧
       lifted (λ R0 r, reinstated prefix_ok peer cmp R0 al0 al r (omap wd_saved (jh_withdrawn h))) o rib').
Proof.
  intros Hu Ht. destruct Hpool as [Hc Hs]. apply (under_on_rib _ _ _ _ _ _ _ Hu Ht).
  intros r R0 al2 Ho Hu2 He. rewrite Ho in Hstart. destruct Hstart as (Hl0 & Hw0 & Hp0).
  by apply (rollback_replacements prefix_ok addr_ok peer cmp pool R0).
Qed.

Lemma half_withdrawals al0 al al1 rib h :
  uses al al1 → lifted (λ R0 r, reinstated prefix_ok peer cmp R0 al0 al r (omap wd_saved (jh_withdrawn h))) o rib →
  under al1 (on_rib rib (λ r, restore_withdrawals r peer (jh_withdrawn h)))
    (λ al' rib', uses al al' ∧ lifted (λ R0 r, reinstated prefix_ok peer cmp R0 al0 al r []) o rib').
Proof.
  intros Hu Ht. destruct Hpool as [Hc Hs]. apply (under_on_rib _ _ _ _ _ _ _ Hu Ht).
  intros r R0 al2 Ho Hu2 He. rewrite Ho in Hstart. destruct Hstart as (Hl0 & Hw0 & Hp0).
  by apply (rollback_withdrawals prefix_ok addr_ok peer cmp pool R0).
Qed.
End HalfRollback.

(** ** The whole of [fsm_apply_update] *)

Section ApplyUpdate.
Context {host : Host}.

(** The prefixes an UPDATE names. *)
Definition update_named4 (update : libbgp_update_msg_t) : Named (family := family4) := λ p,
  p ∈ upd_withdrawn update ∨ p ∈ upd_nlri update.
Definition update_named6 (update : libbgp_update_msg_t) : Named (family := family6) := λ p,
  ∃ attr, attr ∈ upd_attrs update ∧ (p ∈ mp_unreach_withdrawn attr ∨ p ∈ mp_reach_nlri attr).

Context (peer : Z) (cmp : bool).
Context (pool4 : libbgp_rib4_route_t -> Prop) (pool6 : libbgp_rib6_route_t -> Prop).
Context (Hpool4 : pool_ok (family := family4) cmp pool4) (Hpool6 : pool_ok (family := family6) cmp pool6).
Context (o4 : option (table_entries (family := family4))) (o6 : option (table_entries (family := family6))).
Context (Hstart4 : start_ok (family := family4) pool4 o4) (Hstart6 : start_ok (family := family6) pool6 o6).

Definition session_ibgp (impl : fsm_impl_t) : bool := pe_asn (fs_peer impl) =? cfg_local_asn (fs_config impl).

(** Whether the advertisements of an UPDATE are left out: a loop, or a next hop
    that is not acceptable. *)
Definition advertisements_ignored (impl : fsm_impl_t) (update : libbgp_update_msg_t) : bool :=
  match (ignore_advertisements impl update (session_ibgp impl)
           (loop_found update (cfg_local_asn (fs_config impl)) (po_allow_local_as (fs_policy impl))
              (pe_can_send_as4_path (fs_peer impl))) []).1 with
  | Ret b => b
  | _ => true
  end.

Definition session_acts4 impl update : list (peer_act (family := family4)) :=
  update_acts4 peer update impl (session_ibgp impl) (advertisements_ignored impl update).
Definition session_acts6 impl update : list (peer_act (family := family6)) :=
  update_acts6 peer update impl (session_ibgp impl) (advertisements_ignored impl update).

(** The UPDATE; the journal names its prefixes only. *)
Context (b : bool) (update : libbgp_update_msg_t) (Hwf : upd_wf b update).
#[local] Instance names4 : Named (family := family4) := update_named4 update.
#[local] Instance names6 : Named (family := family6) := update_named6 update.

Abbreviation st_inv := (st_inv peer cmp pool4 pool6 o4 o6).
Abbreviation st_bad := (st_bad peer cmp pool4 pool6 o4 o6).

Definition holds `{family : Family} (prefix_ok : Prefix -> Prop) (rib : option rib_impl_t) (o : option table_entries) : Prop :=
  match rib, o with
  | Some impl, Some R0 => rib_rep prefix_ok cmp impl R0
  | None, None => True
  | _, _ => False
  end.

Definition empty_half `{family : Family} (h : fsm_journal_half) : Prop := jh_routes h = [] ∧ jh_withdrawn h = [].

Lemma table_start `{family : Family} `{Hnamed : !Named} prefix_ok pool o al0 rib h :
  holds prefix_ok rib o → start_ok pool o → empty_half h →
  table_inv peer cmp (family := family) prefix_ok pool o al0 rib h (Some []).
Proof.
  intros Hr Ho [Ha Hw]. unfold table_inv, holds, start_ok in *. destruct rib as [impl|], o as [R0|]; try done.
  destruct Ho as (Hl & Hwf0 & Hp). exists (route_of <$> R0). split; [|by apply acts_nil].
  exists R0, [], R0, []. rewrite Ha, Hw. split_and!; [by apply journaled_init|by right|done].
Qed.

Lemma st_inv_start al n rib4 rib6 journal ign :
  holds (family := family4) p4_wf rib4 o4 → holds (family := family6) p6_wf rib6 o6 → reserved journal → n <= 2 ^ 39 →
  st_inv al al n true true (Some []) (Some []) (ApplyState rib4 rib6 journal ign).
Proof.
  intros Hr4 Hr6 (Hev & Hc & Ha4 & Hw4 & Hca4 & Hcw4 & Ha6 & Hw6 & Hca6 & Hcw6) Hn.
  split; cbn [as_rib4 as_rib6 as_journal]; try done; [by left|..].
  - split; [done|]. rewrite Hev. cbn [length]. lia.
  - unfold half_ok. rewrite Ha4, Hw4. cbn [length]. split_and!; done || lia.
  - unfold half_ok. rewrite Ha6, Hw6. cbn [length]. split_and!; done || lia.
  - by apply table_start.
  - by apply table_start.
Qed.

Lemma empty_reserved : reserved fsm_update_journal_empty.
Proof. unfold reserved, jcap_ok. cbn. split_and!; done || lia. Qed.

Context (impl : fsm_impl_t) (session_generation : Z).

(** The routes the update makes belong to the pools. *)
Definition update_pool : Prop :=
  (∀ p route, p ∈ upd_nlri update →
     PInsert (family := family4) route ∈ accepted4 peer (fs_policy impl) update (session_ibgp impl) p → pool4 route) ∧
  (∀ attr p route, attr ∈ upd_attrs update → p ∈ mp_reach_nlri attr →
     PInsert (family := family6) route ∈ accepted6 peer (fs_policy impl) update (session_ibgp impl) attr p → pool6 route).
Context (Hacc : update_pool).

Lemma named4_update p : p ∈ upd_withdrawn update ∨ p ∈ upd_nlri update → names4 p.
Proof. done. Qed.
Lemma named6_update attr p :
  attr ∈ upd_attrs update → p ∈ mp_unreach_withdrawn attr ∨ p ∈ mp_reach_nlri attr → names6 p.
Proof. by exists attr. Qed.

(** What [fsm_apply_update] leaves. *)
Definition applied al0 (rib4 : option rib4_impl_t) (rib6 : option rib6_impl_t) al (o : apply_state * Z * libbgp_err_t) : Prop :=
  st_bad al0 al o.1.1 ∧
  (o.2 = LIBBGP_OK ∧ (fsm_update_session_current impl session_generation = true →
     st_inv al0 al 0 false false (Some (session_acts4 impl update)) (Some (session_acts6 impl update)) o.1.1) ∨
   o.2 = LIBBGP_ERR_NOMEM ∧ refused al0 = Some al ∨
   (o.2 = LIBBGP_ERR_INVALID ∨ o.2 = LIBBGP_ERR_BUFFER) ∧ as_rib4 o.1.1 = rib4 ∧ as_rib6 o.1.1 = rib6).

Lemma under_apply_update al rib4 rib6 subcode :
  holds (family := family4) p4_wf rib4 o4 → holds (family := family6) p6_wf rib6 o6 →
  under al (fsm_apply_update impl session_generation rib4 rib6 peer update fsm_update_journal_empty subcode)
    (applied al rib4 rib6).
Proof.
  intros Hr4 Hr6. unfold fsm_apply_update.
  assert (Hnone : ∀ al' journal ign, uses al al' → reserved journal → st_bad al al' (ApplyState rib4 rib6 journal ign)).
  { intros al' journal ign Hu Hres. destruct (st_inv_start al 0 rib4 rib6 journal ign Hr4 Hr6 Hres) as []; [lia|].
    eapply st_inv_bad; [by split|done]. }
  destruct (fsm_validate_update update) as [sub|].
  { apply under_ret. split; [apply Hnone; [by left|apply empty_reserved]|]. cbn [fst snd]. auto 6. }
  apply under_bind. eapply under_mono; [apply (under_wp al); by eapply wp_exceeds|].
  cbn beta. intros al1 [r|e] [Hu1 He].
  2:{ apply under_ret. split; [apply Hnone; [done|apply empty_reserved]|]. cbn [fst snd].
      destruct He as [[[[-> _]|[-> _]] _]|[-> Hr]]; auto 6. }
  subst r. apply under_bind.
  destruct (pure_ignore b impl update (session_ibgp impl) (loop_found update (cfg_local_asn (fs_config impl))
    (po_allow_local_as (fs_policy impl)) (pe_can_send_as4_path (fs_peer impl))) Hwf) as (ign & Hign & _).
  assert (Hi : advertisements_ignored impl update = ign) by (unfold advertisements_ignored; by rewrite Hign).
  apply (under_pure _ _ ign); [exact Hign|]. apply under_bind.
  destruct (upd_wf_counts _ _ Hwf) as (Hc1 & _ & Hc3).
  pose proof (count6_bound b update Hwf _ mp_reach_count) as Hc4. pose proof (count6_bound b update Hwf _ mp_unreach_count) as Hc5.
  unfold count6 in Hc4, Hc5. eapply under_mono.
  { apply (under_call al al1 _ (λ o, match o with inl journal => reserved journal | inr _ => False end)
      (λ o, o = inr LIBBGP_ERR_NOMEM)); [apply steady_try, steady_reserve_update|done|].
    intros T. eapply runs_mono; [apply runs_reserve_update; lia|]. intros [journal|e]; [by left|]. intros [-> ?]. by right. }
  cbn beta. intros al2 [journal|e] (Hu2 & _ & Hres).
  2:{ destruct Hres as [[]|([= ->] & _ & Hr)]. apply under_ret. split; [apply Hnone; [done|apply empty_reserved]|].
      cbn [fst snd]. auto 6. }
  destruct Hres as [Hres|([=] & _)]. apply under_bind. eapply under_mono.
  { apply (under_apply_routes peer cmp pool4 pool6 Hpool4 Hpool6 o4 o6 Hstart4 Hstart6 b update Hwf named4_update named6_update impl session_generation
      (session_ibgp impl) ign (proj1 Hacc) (proj2 Hacc) al al2 0); [|done].
    destruct (st_inv_start al (0 + (zlen (upd_withdrawn update) + zlen (upd_nlri update) + count6 update mp_unreach_withdrawn
      + count6 update mp_reach_nlri)) rib4 rib6 journal ign Hr4 Hr6 Hres) as []; [unfold count6; lia|by split]. }
  intros al3 [st [e|]] Hpost; apply under_ret; unfold loop_post in Hpost; cbn [fst snd default] in *.
  - destruct Hpost as [Hbad [[-> Hcur]|[-> Hr]]]; (split; [done|]); cbn [fst snd].
    + left. split; [done|]. by rewrite Hcur.
    + auto.
  - split; [by eapply st_inv_bad|]. cbn [fst snd]. left. split; [done|]. intros _.
    unfold session_acts4, session_acts6. by rewrite Hi.
Qed.

(** ** The rollback *)

Definition back4 al0 al := lifted (family := family4) (λ R0 rib, reinstated (family := family4) p4_wf peer cmp R0 al0 al rib []) o4.
Definition back6 al0 al := lifted (family := family6) (λ R0 rib, reinstated (family := family6) p6_wf peer cmp R0 al0 al rib []) o6.

Lemma under_rollback al0 al1 al st :
  st_bad al0 al1 st →
  under al (fsm_rollback_update_journal (as_journal st) (as_rib4 st) (as_rib6 st) peer)
    (λ al' o, uses al al' ∧ back4 al0 al o.1 ∧ back6 al0 al o.2).
Proof.
  intros [_ _ _ _ _ _ Ht4 Ht6]. unfold fsm_rollback_update_journal.
  apply under_bind, under_bind. eapply under_mono.
  { exact (half_remove (family := family4) p4_wf is_u32 peer cmp pool4 Hpool4 o4 Hstart4 al0 al al _ _ (or_introl eq_refl) Ht4). }
  cbn beta. intros al2 rib4a [Hu2 H4a]. apply under_bind. eapply under_mono.
  { exact (half_remove (family := family6) p6_wf addr6_ok peer cmp pool6 Hpool6 o6 Hstart6 al0 al al2 _ _ Hu2 Ht6). }
  cbn beta. intros al3 rib6a [Hu3 H6a]. apply under_ret. apply under_bind, under_bind. eapply under_mono.
  { exact (half_replacements (family := family4) p4_wf is_u32 peer cmp pool4 Hpool4 o4 Hstart4 al0 al al3 _ _ Hu3 H4a). }
  cbn beta. intros al4 rib4b [Hu4 H4b]. apply under_bind. eapply under_mono.
  { exact (half_replacements (family := family6) p6_wf addr6_ok peer cmp pool6 Hpool6 o6 Hstart6 al0 al al4 _ _ Hu4 H6a). }
  cbn beta. intros al5 rib6b [Hu5 H6b]. apply under_ret. apply under_bind. eapply under_mono.
  { exact (half_withdrawals (family := family4) p4_wf is_u32 peer cmp pool4 Hpool4 o4 Hstart4 al0 al al5 _ _ Hu5 H4b). }
  cbn beta. intros al6 rib4c [Hu6 H4c]. apply under_bind. eapply under_mono.
  { exact (half_withdrawals (family := family6) p6_wf addr6_ok peer cmp pool6 Hpool6 o6 Hstart6 al0 al al6 _ _ Hu6 H6b). }
  cbn beta. intros al7 rib6c [Hu7 H6c]. by apply under_ret.
Qed.
End ApplyUpdate.
