(* ===== verification/FsmTheorems.v ===== *)
(** * Received UPDATEs: properties

    A received UPDATE is applied as a whole or not at all. *)

From stdpp Require Import gmap.
From S2P Require Import Prelude Bytes Prefix4 Prefix6 Pattr PattrSpec Update UpdateSpec As4 Filter FilterSpec Packet Hashmap Rib RibTable RibDecision RibInv RibSpec RibRefine RibFamilies Rib46 RibSteady RibMoves RibTheorems Fsm FsmUpdate FsmJournal FsmRollback FsmSteps FsmChecks FsmApply FsmUpdateSpec.

(** ** From routes to entries *)

Section Entries.
Context `{family : Family} {host : Host}.
Context (prefix_ok : Prefix -> Prop) (addr_ok : Addr -> Prop) `{!FamilyLaws prefix_ok addr_ok}.
Implicit Types (t : list libbgp_rib_route_t).

(** A table, if there is one, and its routes. *)
Definition table_is (cmp : bool) (rib : option rib_impl_t) (o : option (list libbgp_rib_route_t)) : Prop :=
  match rib, o with
  | Some impl, Some t => rib_ok prefix_ok cmp impl t
  | None, None => True
  | _, _ => False
  end.

Lemma slots_of cmp impl R : rib_rep prefix_ok cmp impl R → slot <$> (route_of <$> R) = slot_of <$> R.
Proof.
  intros Hrep. rewrite <-list_fmap_compose. apply list_fmap_ext. intros i e He.
  apply (rep_slot _ _ _ _ _ Hrep). by eapply list_elem_of_lookup_2.
Qed.

Lemma wf_entries cmp impl R : rib_rep prefix_ok cmp impl R → table_wf (route_of <$> R) → entries_wf R.
Proof.
  intros Hrep [Hnd Hf]. split; [by rewrite <-(slots_of _ _ _ Hrep)|]. rewrite Forall_fmap in Hf.
  eapply Forall_impl; [exact Hf|]. by intros e [_ ?].
Qed.

Lemma entries_rib_ok cmp impl R :
  rib_rep prefix_ok cmp impl R → entries_wf R → Forall (λ e, is_u32 (src_of e)) R → rib_ok prefix_ok cmp impl (route_of <$> R).
Proof.
  intros Hrep [Hnd Hs] Hsrc. split; [|by exists R]. split; [by rewrite (slots_of _ _ _ Hrep)|].
  rewrite Forall_fmap. rewrite Forall_forall in Hs, Hsrc |- *. intros e He. split; [by apply Hsrc|by apply Hs].
Qed.

Lemma rib_ok_perm cmp impl t t' : rib_ok prefix_ok cmp impl t → t ≡ₚ t' → rib_ok prefix_ok cmp impl t'.
Proof. intros (Hwf & R & Hrep & HR) Ht. split; [by rewrite <-Ht|]. exists R. split; [done|by rewrite HR]. Qed.

(** The entries behind the routes. *)
Definition entries_for (cmp : bool) (rib : option rib_impl_t) (o : option (list libbgp_rib_route_t)) (R : option table_entries) : Prop :=
  match rib, o, R with
  | Some impl, Some t, Some R0 => rib_rep prefix_ok cmp impl R0 ∧ route_of <$> R0 ≡ₚ t ∧ table_wf t
  | None, None, None => True
  | _, _, _ => False
  end.

Lemma table_entries_of cmp pool rib o :
  table_is cmp rib o → (∀ t, o = Some t → zlen t < 2 ^ 39 ∧ ∀ r, r ∈ t → pool r) →
  ∃ R, entries_for cmp rib o R ∧ holds cmp prefix_ok rib R ∧ start_ok pool R.
Proof.
  intros Hrib Ho. unfold table_is in Hrib. destruct rib as [impl|], o as [t|]; try done; [|by exists None].
  destruct Hrib as (Hwf & R & Hrep & HR). destruct (Ho t eq_refl) as [Hlen Hp]. exists (Some R). split; [done|]. split; [done|].
  split; [rewrite <-HR, length_fmap in Hlen; lia|]. split; [eapply wf_entries; [exact Hrep|by rewrite HR]|].
  apply Forall_forall. intros e He. apply Hp. rewrite <-HR. by apply list_elem_of_fmap_2.
Qed.

(** What a rollback leaves: the routes before the update but for some of the
    peer, for prefixes that the update names. *)
Definition back_to (cmp : bool) (peer : Z) (named : Prefix -> Prop) (rib : option rib_impl_t)
    (o : option (list libbgp_rib_route_t)) (exact : Prop) : Prop :=
  match rib, o with
  | Some impl, Some t => ∃ t' lost, rib_ok prefix_ok cmp impl t' ∧ t ≡ₚ t' ++ lost ∧
      Forall (λ r, rr_source_router_id r = peer ∧ named (rr_prefix r)) lost ∧ (exact → lost = [])
  | None, None => True
  | _, _ => False
  end.

Lemma reinstated_back (Hnamed : Named) cmp peer al0 al rib0 rib o R :
  entries_for cmp rib0 o R → lifted (λ R0 r, reinstated prefix_ok peer cmp R0 al0 al r []) R rib →
  back_to cmp peer Hnamed rib o (al0 ≠ Arbitrary ∧ al = Generous).
Proof.
  intros He Hb. unfold entries_for, lifted, back_to in *. destruct rib0, o as [t|], R as [R0|], rib as [impl|]; try done.
  destruct He as (Hrep0 & HR0 & Hwf), Hb as (R' & L & (Hrep & HR & _ & Hsrc) & HL). cbn [app] in HR, Hsrc.
  pose proof Hwf as Hwf'. rewrite <-HR0, HR, fmap_app in Hwf'. exists (route_of <$> R'), (route_of <$> L). split_and!.
  - assert (Hsub : table_wf (route_of <$> R')).
    { eapply table_wf_sublist; [|exact Hwf']. apply sublist_inserts_r. done. }
    split; [done|]. by exists R'.
  - by rewrite <-HR0, HR, fmap_app.
  - rewrite Forall_fmap. rewrite Forall_forall in Hsrc |- *. intros e He. destruct (Hsrc e He) as [Hp Hn]. split; [done|].
    assert (He0 : e ∈ R0) by (rewrite HR; set_solver).
    pose proof (rep_slot _ _ _ _ _ Hrep0 He0) as Hslot. apply (f_equal fst) in Hslot. cbn in Hslot. by rewrite Hslot.
  - intros [H1 H2]. by rewrite (HL H1 H2).
Qed.

(** What the actions leave. *)
Definition acts_to (cmp : bool) (peer : Z) (rib : option rib_impl_t) (o : option (list libbgp_rib_route_t)) (l : list peer_act) : Prop :=
  match rib, o with
  | Some impl, Some t => ∃ t', rib_ok prefix_ok cmp impl t' ∧ acts peer t l t'
  | None, None => True
  | _, _ => False
  end.

Lemma table_inv_acts `{Hnamed : !Named} cmp peer pool al0 rib0 rib o R h l :
  entries_for cmp rib0 o R → is_u32 peer → table_inv peer cmp prefix_ok pool R al0 rib h (Some l) → acts_to cmp peer rib o l.
Proof.
  intros He Hp Hi. unfold entries_for, table_inv, acts_to in *. destruct rib0, o as [t|], R as [R0|], rib as [impl|]; try done.
  destruct He as (Hrep0 & HR0 & [_ Hwf]), Hi as (t' & (R' & L & K & N & Hj & _ & HR') & Hacts). exists t'. split.
  - destruct Hj as [Hrep Hnow Hbefore Hwf' _ _ Hpeer _ _ _ _]. eapply rib_ok_perm; [|exact HR'].
    apply entries_rib_ok; [done|done|]. rewrite <-HR0, Hbefore, !fmap_app, !Forall_app in Hwf. destruct Hwf as [HK _].
    rewrite !Forall_app in Hpeer. destruct Hpeer as (_ & _ & HN). rewrite Hnow, Forall_app. split.
    + rewrite Forall_fmap in HK. eapply Forall_impl; [exact HK|]. by intros e [? _].
    + eapply Forall_impl; [exact HN|]. cbn beta. by intros e [-> _].
  - by eapply acts_start.
Qed.
End Entries.

(** ** The properties *)

Section UpdateProperties.
Context {host : Host}.

(** A session has received [update], parsed with AS numbers of the width [b],
    from [peer]; the tables it is attached to hold [t4] and [t6].  [pool4] and
    [pool6] hold of the routes of the tables and of the update; with [cmp]
    those for one prefix have comparable MEDs. *)
Record update_ready (cmp : bool) (pool4 : libbgp_rib4_route_t -> Prop) (pool6 : libbgp_rib6_route_t -> Prop) (peer : Z)
    (b : bool) (update : libbgp_update_msg_t) (impl : fsm_impl_t)
    (rib4 : option rib4_impl_t) (t4 : option (list libbgp_rib4_route_t))
    (rib6 : option rib6_impl_t) (t6 : option (list libbgp_rib6_route_t)) : Prop := {
  ur_pool4 : pool_ok (family := family4) cmp pool4;
  ur_pool6 : pool_ok (family := family6) cmp pool6;
  ur_table4 : table_is (family := family4) p4_wf cmp rib4 t4;
  ur_table6 : table_is (family := family6) p6_wf cmp rib6 t6;
  ur_small4 : ∀ t, t4 = Some t → zlen t < 2 ^ 39 ∧ ∀ r, r ∈ t → pool4 r;
  ur_small6 : ∀ t, t6 = Some t → zlen t < 2 ^ 39 ∧ ∀ r, r ∈ t → pool6 r;
  ur_update : upd_wf b update;
  ur_routes : update_pool peer pool4 pool6 update impl;
  ur_peer : is_u32 peer
}.

(** What the run of an UPDATE gives, for each of the three allocators. *)
Lemma apply_update_run al cmp pool4 pool6 peer b update impl rib4 t4 rib6 t6 gen subcode s :
  update_ready cmp pool4 pool6 peer b update impl rib4 t4 rib6 t6 → allows al s →
  ∃ st sub e s1 al1,
    fsm_apply_update impl gen rib4 rib6 peer update fsm_update_journal_empty subcode s = (Ret (st, sub, e), s1) ∧
    allows al1 s1 ∧
    (e = LIBBGP_OK ∧ (fsm_update_session_current impl gen = true →
       acts_to (family := family4) p4_wf cmp peer (as_rib4 st) t4 (session_acts4 peer impl update) ∧
       acts_to (family := family6) p6_wf cmp peer (as_rib6 st) t6 (session_acts6 peer impl update)) ∨
     e = LIBBGP_ERR_NOMEM ∧ refused al = Some al1 ∨
     (e = LIBBGP_ERR_INVALID ∨ e = LIBBGP_ERR_BUFFER) ∧ as_rib4 st = rib4 ∧ as_rib6 st = rib6) ∧
    ∀ al2 s2, allows al2 s2 → ∃ r4 r6 s3,
      fsm_rollback_update_journal (as_journal st) (as_rib4 st) (as_rib6 st) peer s2 = (Ret (r4, r6), s3) ∧
      (al2 = Generous → s3 = []) ∧
      back_to (family := family4) p4_wf cmp peer (update_named4 update) r4 t4 (al ≠ Arbitrary ∧ al2 = Generous) ∧
      back_to (family := family6) p6_wf cmp peer (update_named6 update) r6 t6 (al ≠ Arbitrary ∧ al2 = Generous).
Proof.
  intros [Hp4 Hp6 Ht4 Ht6 Hs4 Hs6 Hwf Hacc Hpeer] Hs.
  destruct (table_entries_of (family := family4) p4_wf cmp pool4 rib4 t4 Ht4 Hs4) as (o4 & He4 & Hh4 & Hst4).
  destruct (table_entries_of (family := family6) p6_wf cmp pool6 rib6 t6 Ht6 Hs6) as (o6 & He6 & Hh6 & Hst6).
  destruct (under_apply_update peer cmp pool4 pool6 Hp4 Hp6 o4 o6 Hst4 Hst6 b update Hwf impl gen Hacc al rib4 rib6 subcode Hh4 Hh6 s Hs)
    as ([[st sub] e] & s1 & al1 & Hrun & Hal1 & Hbad & Hout). cbn [fst snd] in *.
  exists st, sub, e, s1, al1. split; [exact Hrun|]. split; [done|]. split.
  - destruct Hout as [[-> Hok]|Hout]; [|by right]. left. split; [done|]. intros Hcur. destruct (Hok Hcur) as [_ _ _ _ _ _ Hi4 Hi6].
    split; [by eapply (table_inv_acts (family := family4) p4_wf)|by eapply (table_inv_acts (family := family6) p6_wf)].
  - intros al2 s2 Hal2.
    destruct (under_rollback peer cmp pool4 pool6 Hp4 Hp6 o4 o6 Hst4 Hst6 update al al1 al2 st Hbad s2 Hal2)
      as ([r4 r6] & s3 & al3 & Hroll & Hal3 & Hu & Hb4 & Hb6). cbn [fst snd] in *.
    exists r4, r6, s3. split; [exact Hroll|]. split; [intros ->; by rewrite (uses_generous _ Hu) in Hal3|].
    split; [by eapply (reinstated_back (family := family4) p4_wf is_u32 (update_named4 update))|by eapply (reinstated_back (family := family6) p6_wf addr6_ok (update_named6 update))].
Qed.

Lemma back_exact `{family : Family} prefix_ok cmp peer named rib o (P : Prop) :
  P → back_to (family := family) prefix_ok cmp peer named rib o P → table_is prefix_ok cmp rib o.
Proof.
  intros HP Hb. unfold back_to, table_is in *. destruct rib, o; try done. destruct Hb as (t' & lost & Hok & Ht & _ & HL).
  rewrite (HL HP), app_nil_r in Ht. eapply rib_ok_perm; [exact Hok|done].
Qed.

(** C4: A received UPDATE is applied as a whole or not at all.  With an allocator
    that refuses at most one request, [fsm_apply_update] returns, and rolling
    its journal back, with memory there, gives both tables the routes they had
    before, at whatever point it stopped; when it stopped for want of memory
    the request was the refused one, so that the rollback finds memory.  The
    other errors are INVALID and BUFFER, and leave the tables alone. *)
Theorem fsm_update_all_or_nothing cmp pool4 pool6 peer b update impl rib4 t4 rib6 t6 gen subcode s :
  update_ready cmp pool4 pool6 peer b update impl rib4 t4 rib6 t6 → once s →
  ∃ st sub e s1 r4 r6,
    fsm_apply_update impl gen rib4 rib6 peer update fsm_update_journal_empty subcode s = (Ret (st, sub, e), s1) ∧
    fsm_rollback_update_journal (as_journal st) (as_rib4 st) (as_rib6 st) peer [] = (Ret (r4, r6), []) ∧
    table_is (family := family4) p4_wf cmp r4 t4 ∧ table_is (family := family6) p6_wf cmp r6 t6 ∧
    (e = LIBBGP_OK ∨ e = LIBBGP_ERR_NOMEM ∧ s ≠ [] ∧ s1 = [] ∨
     (e = LIBBGP_ERR_INVALID ∨ e = LIBBGP_ERR_BUFFER) ∧ as_rib4 st = rib4 ∧ as_rib6 st = rib6).
Proof.
  intros Hready Hs.
  assert (Hal : ∃ al, allows al s ∧ al ≠ Arbitrary ∧ (al = RefusesOnce → s ≠ [])).
  { destruct s as [|c s]; [by exists Generous|]. exists RefusesOnce. by split_and!. }
  destruct Hal as (al & Hal & Harb & Hne).
  destruct (apply_update_run al cmp pool4 pool6 peer b update impl rib4 t4 rib6 t6 gen subcode s Hready Hal)
    as (st & sub & e & s1 & al1 & Hrun & Hal1 & Hout & Hroll).
  destruct (Hroll Generous [] eq_refl) as (r4 & r6 & s3 & Hback & Hs3 & Hb4 & Hb6). rewrite (Hs3 eq_refl) in Hback.
  exists st, sub, e, s1, r4, r6. split_and!; [done|done|by eapply back_exact; [|exact Hb4]|by eapply back_exact; [|exact Hb6]|].
  destruct Hout as [[-> _]|[[-> Hr]|Hout]]; [by left| |by right; right]. right; left.
  destruct al; simplify_eq/=. split_and!; [done|by apply Hne|done].
Qed.

(** C5: What a received UPDATE does.  On a session that is still the one that
    received it, and with any allocator, [fsm_apply_update] that returns OK has
    taken the withdrawn prefixes of the peer out of the tables and then put in
    the route of every advertised prefix the inbound filter accepts, replacing
    the route of the peer for that prefix; advertisements are left out when the
    path loops or a next hop is not acceptable, and a family that was not
    negotiated is left alone.  A want of memory is reported only when the
    allocator refused. *)
Theorem fsm_update_applies cmp pool4 pool6 peer b update impl rib4 t4 rib6 t6 gen subcode s :
  update_ready cmp pool4 pool6 peer b update impl rib4 t4 rib6 t6 → fsm_update_session_current impl gen = true →
  ∃ st sub e s1,
    fsm_apply_update impl gen rib4 rib6 peer update fsm_update_journal_empty subcode s = (Ret (st, sub, e), s1) ∧
    (e = LIBBGP_OK ∧
       acts_to (family := family4) p4_wf cmp peer (as_rib4 st) t4 (session_acts4 peer impl update) ∧
       acts_to (family := family6) p6_wf cmp peer (as_rib6 st) t6 (session_acts6 peer impl update) ∨
     e = LIBBGP_ERR_NOMEM ∧ s ≠ [] ∨
     (e = LIBBGP_ERR_INVALID ∨ e = LIBBGP_ERR_BUFFER) ∧ as_rib4 st = rib4 ∧ as_rib6 st = rib6).
Proof.
  intros Hready Hcur.
  assert (Hal : ∃ al, allows al s ∧ (al = Generous ∨ s ≠ [])) by (destruct s; [exists Generous; split; [done|by left]|exists Arbitrary; split; [done|by right]]).
  destruct Hal as (al & Hal & Hne).
  destruct (apply_update_run al cmp pool4 pool6 peer b update impl rib4 t4 rib6 t6 gen subcode s Hready Hal)
    as (st & sub & e & s1 & al1 & Hrun & _ & Hout & _).
  exists st, sub, e, s1. split; [done|]. destruct Hout as [[-> Hok]|[[-> Hr]|Hout]]; [left; auto|right; left|by right; right].
  split; [done|]. by destruct Hne as [->|?].
Qed.

(** C12: Whatever the allocator answers, to the update and to the rollback, a
    rollback touches nothing but the routes of the peer for the prefixes the
    UPDATE names: both tables end with the routes they had before, less at most
    some of the peer's own for prefixes that are among the withdrawn or the
    advertised ones of the UPDATE (for IPv6, of its multiprotocol attributes). *)
Theorem fsm_rollback_confined cmp pool4 pool6 peer b update impl rib4 t4 rib6 t6 gen subcode s s2 :
  update_ready cmp pool4 pool6 peer b update impl rib4 t4 rib6 t6 →
  ∃ st sub e s1 r4 r6 s3,
    fsm_apply_update impl gen rib4 rib6 peer update fsm_update_journal_empty subcode s = (Ret (st, sub, e), s1) ∧
    fsm_rollback_update_journal (as_journal st) (as_rib4 st) (as_rib6 st) peer s2 = (Ret (r4, r6), s3) ∧
    back_to (family := family4) p4_wf cmp peer (update_named4 update) r4 t4 False ∧
    back_to (family := family6) p6_wf cmp peer (update_named6 update) r6 t6 False.
Proof.
  intros Hready.
  destruct (apply_update_run Arbitrary cmp pool4 pool6 peer b update impl rib4 t4 rib6 t6 gen subcode s Hready I)
    as (st & sub & e & s1 & al1 & Hrun & _ & _ & Hroll).
  destruct (Hroll Arbitrary s2 I) as (r4 & r6 & s3 & Hback & _ & Hb4 & Hb6).
  exists st, sub, e, s1, r4, r6, s3. split_and!; [done|done| |].
  - unfold back_to in *. destruct r4, t4; try done. destruct Hb4 as (t' & lost & ? & ? & ? & _). by exists t', lost.
  - unfold back_to in *. destruct r6, t6; try done. destruct Hb6 as (t' & lost & ? & ? & ? & _). by exists t', lost.
Qed.
End UpdateProperties.

(** ** Witnesses *)

#[local] Existing Instance little_endian_host.

(** An eBGP session with AS 64512, established, that takes IPv4 routes. *)
Definition demo_session : fsm_impl_t :=
  FsmImpl (FsmConfig 65010 167772170 90 30 true false)
    (FsmPolicy 0 0 0 false false None None None None (Prefix4 0 0) (Prefix6 (replicate 16 0) 0) 0 (replicate 16 0) (replicate 16 0)
       true false true false false)
    LIBBGP_FSM_ESTABLISHED (FsmPeer 64512 1 90 true false false true false) (FsmClock 1000 1000 1000 true)
    (FsmLinks (Some 1) None None None 0 0 0) 5 no_pending (FsmNotify None [] 0).

Definition no_med `{family : Family} (r : libbgp_rib_route_t) : Prop := rr_med r = 0.

Lemma no_med_pool `{family : Family} cmp : pool_ok cmp no_med.
Proof. split; [|done]. intros _ r r' Hr Hr' _. left. unfold no_med in *. congruence. Qed.

Lemma demo_ready rib :
  rib_ok (family := family4) p4_wf true rib [demo_c; demo_b; demo_a] →
  update_ready true (no_med (family := family4)) (no_med (family := family6)) 1 false update_example demo_session
    (Some rib) (Some [demo_c; demo_b; demo_a]) None None.
Proof.
  intros Hok. split; [apply no_med_pool|apply no_med_pool|exact Hok|done| |done|apply update_example_wf| |unfold is_u32; lia].
  - intros t [= <-]. split; [vm_compute; reflexivity|]. intros r Hr.
    repeat (apply elem_of_cons in Hr as [->|Hr]; [reflexivity|]). by apply elem_of_nil in Hr.
  - split.
    + intros p route _ Hr. exact (accepted4_no_med 1 false _ _ _ _ _ update_example_wf eq_refl Hr).
    + intros attr p route Ha Hp. exfalso. cbn [upd_attrs update_example] in Ha.
      repeat (apply elem_of_cons in Ha as [->|Ha]; [by apply elem_of_nil in Hp|]). by apply elem_of_nil in Ha.
Qed.

(** The allocator refuses the twentieth request. *)
Lemma fsm_update_all_or_nothing_witness :
  ∃ rib st sub e s1 r4 r6, demo4 [] = (Ret rib, []) ∧
    fsm_apply_update demo_session 5 (Some rib) None 1 update_example fsm_update_journal_empty 0 (refuse_at 19) = (Ret (st, sub, e), s1) ∧
    fsm_rollback_update_journal (as_journal st) (as_rib4 st) (as_rib6 st) 1 [] = (Ret (r4, r6), []) ∧
    table_is (family := family4) p4_wf true r4 (Some [demo_c; demo_b; demo_a]).
Proof.
  destruct demo4_ok as (rib & Hrun & Hok).
  destruct (fsm_update_all_or_nothing true _ _ 1 false update_example demo_session (Some rib) _ None _ 5 0 (refuse_at 19) (demo_ready rib Hok))
    as (st & sub & e & s1 & r4 & r6 & H1 & H2 & H3 & _); [right; by exists 19%nat|].
  exists rib, st, sub, e, s1, r4, r6. split_and!; assumption.
Defined.

Lemma demo_update_runs :
  ('(rib : rib4_impl_t) ← demo4;
   '(_, _, e) ← fsm_apply_update demo_session 5 (Some rib) None 1 update_example fsm_update_journal_empty 0;
   mret e) [] = (Ret LIBBGP_OK, []).
Proof. vm_compute. reflexivity. Qed.

Lemma bind_run {A B} (m : M A) (k : A -> M B) s a s' : m s = (Ret a, s') → (m ≫= k) s = k a s'.
Proof. unfold mbind, M_bind. by intros ->. Qed.

Lemma demo_update_ok rib st sub e s1 :
  demo4 [] = (Ret rib, []) →
  fsm_apply_update demo_session 5 (Some rib) None 1 update_example fsm_update_journal_empty 0 [] = (Ret (st, sub, e), s1) →
  e = LIBBGP_OK.
Proof.
  intros Hrun H1. pose proof demo_update_runs as Hdemo. rewrite (bind_run _ _ _ _ _ Hrun) in Hdemo.
  rewrite (bind_run _ _ _ _ _ H1) in Hdemo. by injection Hdemo.
Qed.

Lemma fsm_update_applies_witness :
  ∃ rib st sub s1, demo4 [] = (Ret rib, []) ∧
    fsm_apply_update demo_session 5 (Some rib) None 1 update_example fsm_update_journal_empty 0 [] = (Ret (st, sub, LIBBGP_OK), s1) ∧
    acts_to (family := family4) p4_wf true 1 (as_rib4 st) (Some [demo_c; demo_b; demo_a]) (session_acts4 1 demo_session update_example).
Proof.
  destruct demo4_ok as (rib & Hrun & Hok).
  destruct (fsm_update_applies true _ _ 1 false update_example demo_session (Some rib) _ None _ 5 0 [] (demo_ready rib Hok) eq_refl)
    as (st & sub & e & s1 & H1 & Hout).
  assert (He : e = LIBBGP_OK) by exact (demo_update_ok rib st sub e s1 Hrun H1). subst e.
  exists rib, st, sub, s1. split; [assumption|]. split; [assumption|].
  destruct Hout as [(_ & H4 & _)|[[He _]|[[He|He] _]]]; [assumption|discriminate He..].
Defined.

Lemma fsm_rollback_confined_witness :
  ∃ rib st sub e s1 r4 r6 s3, demo4 [] = (Ret rib, []) ∧
    fsm_apply_update demo_session 5 (Some rib) None 1 update_example fsm_update_journal_empty 0 (refuse_at 19) = (Ret (st, sub, e), s1) ∧
    fsm_rollback_update_journal (as_journal st) (as_rib4 st) (as_rib6 st) 1 [false; false] = (Ret (r4, r6), s3) ∧
    back_to (family := family4) p4_wf true 1 (update_named4 update_example) r4 (Some [demo_c; demo_b; demo_a]) False.
Proof.
  destruct demo4_ok as (rib & Hrun & Hok).
  destruct (fsm_rollback_confined true _ _ 1 false update_example demo_session (Some rib) _ None _ 5 0 (refuse_at 19) [false; false]
    (demo_ready rib Hok)) as (st & sub & e & s1 & r4 & r6 & s3 & H1 & H2 & H3 & _).
  exists rib, st, sub, e, s1, r4, r6, s3. split_and!; assumption.
Defined.
