(* ===== verification/Out.v ===== *)
(** * The output handler (src/out_handler.c)

    A handler sends through a file descriptor or through functions of the
    caller.  What those do is outside: a call is described by its target, its
    argument and what is made of its answer ([io_call]).  A handle is the
    [impl] pointer of [struct libbgp_out_handler]. *)

From S2P Require Import Prelude.

(** Functions and their context, by address. *)
Record libbgp_io_ops_t : Type := IoOps {
  io_send_fn : option Z;
  io_recv_fn : option Z;
  io_ctx : Z
}.

Record out_handler_impl_t : Type := OutHandler {
  oh_fd : Z;
  oh_has_ops : bool;
  oh_ops : libbgp_io_ops_t
}.

Definition libbgp_out_handler_t : Type := option out_handler_impl_t.

Definition no_ops : libbgp_io_ops_t := IoOps None None 0.

Definition libbgp_out_handler_init : M libbgp_out_handler_t :=
  alloc_or_nomem;; mret (Some (OutHandler (-1) false no_ops)).

Definition libbgp_out_handler_destroy (_ : libbgp_out_handler_t) : libbgp_out_handler_t := None.

Definition libbgp_out_handler_set_ops (handler : libbgp_out_handler_t) (ops : option libbgp_io_ops_t)
    : libbgp_out_handler_t :=
  match handler with
  | None => None
  | Some impl =>
      match ops with
      | None => Some (OutHandler (oh_fd impl) false no_ops)
      | Some ops => Some (OutHandler (oh_fd impl) true ops)
      end
  end.

Definition libbgp_out_handler_set_fd (handler : libbgp_out_handler_t) (fd : Z) : libbgp_out_handler_t :=
  match handler with
  | None => None
  | Some _ => Some (OutHandler fd false no_ops)
  end.

(** [fn(ctx, ...)] or the system call on [fd]. *)
Inductive io_target : Type :=
  | IoFn (fn ctx : Z)
  | IoFd (fd : Z).

#[export] Instance io_target_eq_dec : EqDecision io_target.
Proof. solve_decision. Defined.

Inductive io_call (Arg Ans R : Type) : Type :=
  | IoReturn (r : R)
  | IoCall (target : io_target) (arg : Arg) (k : Ans -> R).
Arguments IoReturn {Arg Ans R} r.
Arguments IoCall {Arg Ans R} target arg k.

(** The snapshot both functions take under the lock: which function or
    descriptor to use. *)
Definition out_handler_target (fn : libbgp_io_ops_t -> option Z) (handler : libbgp_out_handler_t)
    : option io_target :=
  match handler with
  | None => None
  | Some impl =>
      if oh_has_ops impl then
        match fn (oh_ops impl) with
        | None => None
        | Some f => Some (IoFn f (io_ctx (oh_ops impl)))
        end
      else if oh_fd impl <? 0 then None
      else Some (IoFd (oh_fd impl))
  end.

(** The number of bytes the target took; it is what the target says, which is
    not checked here. *)
Definition libbgp_out_handler_send (handler : libbgp_out_handler_t) (buf : list Z)
    : io_call (list Z) Z (Z + libbgp_err_t) :=
  if zlen buf =? 0 then IoReturn (inl 0)
  else
    match out_handler_target io_send_fn handler with
    | None => IoReturn (inr LIBBGP_ERR_INVALID)
    | Some target =>
        IoCall target buf (λ ret, if ret <? 0 then inr LIBBGP_ERR_WRITE else inl ret)
    end.

(** [len] is the room of the buffer; the target answers with the count and
    what it stored. *)
Definition libbgp_out_handler_recv (handler : libbgp_out_handler_t) (len : Z)
    : io_call Z (Z * list Z) (Z * list Z + libbgp_err_t) :=
  if len =? 0 then IoReturn (inl (0, []))
  else
    match out_handler_target io_recv_fn handler with
    | None => IoReturn (inr LIBBGP_ERR_INVALID)
    | Some target =>
        IoCall target len (λ '(ret, bytes), if ret <? 0 then inr LIBBGP_ERR_PARSE else inl (ret, bytes))
    end.
