(* ===== verification/Proc.v ===== *)
(** * Programs that share an object with others

    The entry points of a session take its lock, give it back while they send,
    publish or call back, and take it again.  While they do not hold it other
    threads, and the code they call, may enter the session.

    A program is the sequence of its critical sections and of its calls to the
    outside.  [Locked f] runs from a [lock] to the next [unlock]: [f] maps the
    shared state to the new state and to what the program does after the
    unlock.  [Ref] takes or gives back a reference to the object.  [Act] calls
    out; the program goes on with the answer.

    [run] executes a program alone, in an environment that answers its calls
    and may change the state before it answers.  [pool_step] interleaves any
    number of programs, one section or one call at a time. *)

From S2P Require Import Prelude.

Section Proc.
Context {State Io RefOp : Type} {answer : Io -> Type}.

#[local] Unset Elimination Schemes.
Inductive proc (A : Type) : Type :=
  | Done (a : A)
  | Crash (f : fault)
  | Locked (f : State -> State * proc A)
  | Ref (op : RefOp) (k : bool -> proc A)
  | Act (a : Io) (k : answer a -> proc A).
#[local] Set Elimination Schemes.
Arguments Done {A} a.
Arguments Crash {A} f.
Arguments Locked {A} f.
Arguments Ref {A} op k.
Arguments Act {A} a k.

Lemma proc_ind' {A} (P : proc A -> Prop) :
  (∀ a, P (Done a)) → (∀ f, P (Crash f)) →
  (∀ f, (∀ s, P (f s).2) → P (Locked f)) →
  (∀ op k, (∀ b, P (k b)) → P (Ref op k)) →
  (∀ a k, (∀ r, P (k r)) → P (Act a k)) → ∀ p, P p.
Proof.
  intros Hd Hc Hl Hr Ha. fix IH 1. intros [a|f|f|op k|a k].
  - apply Hd.
  - apply Hc.
  - apply Hl. intros s. destruct (f s) as [s' p]. apply IH.
  - apply Hr. intros b. apply IH.
  - apply Ha. intros r. apply IH.
Qed.

#[global] Instance proc_ret : MRet proc := λ A a, Done a.
Fixpoint bind {A B} (k : A -> proc B) (p : proc A) : proc B :=
  match p with
  | Done a => k a
  | Crash f => Crash f
  | Locked f => Locked (λ s, let '(s', p') := f s in (s', bind k p'))
  | Ref op j => Ref op (λ b, bind k (j b))
  | Act a j => Act a (λ r, bind k (j r))
  end.
#[global] Instance proc_bind : MBind proc := @bind.

(** The body of a critical section. *)
Definition locked_code (A : Type) : Type := State -> State * proc A.

(** A section that only reads, and one that only changes the state. *)
Definition reading {A} (f : State -> A) : proc A := Locked (λ s, (s, Done (f s))).
Definition changing (f : State -> State) : proc unit := Locked (λ s, (f s, Done tt)).

(** ** Running alone *)

(** What the environment does when the [n]-th call reaches it: the answer and
    the state it leaves. *)
Definition environment : Type := ∀ (n : nat) (a : Io), State -> answer a * State.

(** The effect of [Ref] on the state and whether it succeeds. *)
Context (ref_op : RefOp -> State -> bool * State).

(** The result, the final state and the calls that were made. *)
Fixpoint run {A} (env : environment) (n : nat) (p : proc A) (s : State)
    : (A + fault) * State * list Io :=
  match p with
  | Done a => (inl a, s, [])
  | Crash f => (inr f, s, [])
  | Locked f => let '(s', p') := f s in run env n p' s'
  | Ref op k => let '(b, s') := ref_op op s in run env n (k b) s'
  | Act a k =>
      let '(r, s') := env n a s in
      let '(res, s'', acts) := run env (S n) (k r) s' in
      (res, s'', a :: acts)
  end.

(** ** Running with others *)

(** [calls]: how a program may be started; [react]: how the environment may
    answer a call and what that does to the state; [outside]: what else others
    may do to it. *)
Context (calls : State -> proc unit -> State -> Prop) (react : State -> ∀ a, answer a -> State -> Prop)
  (outside : State -> State -> Prop).

Inductive pool_step : State * list (proc unit) -> State * list (proc unit) -> Prop :=
  | pool_call s ps p s' : calls s p s' -> pool_step (s, ps) (s', p :: ps)
  | pool_locked s ps1 ps2 f s' p :
      f s = (s', p) -> pool_step (s, ps1 ++ Locked f :: ps2) (s', ps1 ++ p :: ps2)
  | pool_ref s ps1 ps2 op k b s' :
      ref_op op s = (b, s') -> pool_step (s, ps1 ++ Ref op k :: ps2) (s', ps1 ++ k b :: ps2)
  | pool_act s ps1 ps2 a k r s' :
      react s a r s' -> pool_step (s, ps1 ++ Act a k :: ps2) (s', ps1 ++ k r :: ps2)
  | pool_done s ps1 ps2 u : pool_step (s, ps1 ++ Done u :: ps2) (s, ps1 ++ ps2)
  | pool_outside s s' ps : outside s s' -> pool_step (s, ps) (s', ps).
End Proc.

Arguments proc : clear implicits.
Arguments Done {State Io RefOp answer A} a.
Arguments Crash {State Io RefOp answer A} f.
Arguments Locked {State Io RefOp answer A} f.
Arguments Ref {State Io RefOp answer A} op k.
Arguments Act {State Io RefOp answer A} a k.
Arguments locked_code : clear implicits.
Arguments environment : clear implicits.
