(* ===== verification/ProcSpec.v ===== *)
(** * Reasoning about programs that share an object

    [keeps] says that every step of a program keeps an invariant of the shared
    state and stays within a relation, whatever the state was changed to since
    its previous step.  Programs that keep an invariant can be interleaved in
    any way ([pool_step_keeps]).  [run_bind] and [run_locked] execute programs that
    run alone. *)

From S2P Require Import Prelude Proc.

(** What a step may do to the state depends on what the program did just
    before it: [Some a] when it goes on after the answer to the call [a], and
    [None] otherwise.  Without a call behind it a step may do the least. *)
Class Relaxed {State Io : Type} (G : option Io -> State -> State -> Prop) : Prop :=
  relaxed last s s' : G None s s' → G last s s'.

Section Keeps.
Context {State Io RefOp : Type} {answer : Io -> Type} (ref_op : RefOp -> State -> bool * State).
#[local] Abbreviation prog := (proc State Io RefOp answer).
Context (I : State -> Prop) (G : option Io -> State -> State -> Prop) `{!Relaxed G}.

Fixpoint keeps_after {A} (last : option Io) (p : prog A) : Prop :=
  match p with
  | Done _ | Crash _ => True
  | Locked f => ∀ s, I s → let '(s', p') := f s in I s' ∧ G last s s' ∧ keeps_after None p'
  | Ref op k =>
      (∀ s, I s → let '(_, s') := ref_op op s in I s' ∧ G None s s') ∧ ∀ b, keeps_after None (k b)
  | Act a k => ∀ r, keeps_after (Some a) (k r)
  end.

Definition keeps {A} (p : prog A) : Prop := keeps_after None p.

(** The same for the body of a section. *)
Definition section_after {A} (last : option Io) (f : locked_code State Io RefOp answer A) : Prop :=
  ∀ s, I s → I (f s).1 ∧ G last s (f s).1 ∧ keeps (f s).2.

Definition section_keeps {A} (f : locked_code State Io RefOp answer A) : Prop := section_after None f.

Lemma keeps_relaxed {A} last (p : prog A) : keeps p → keeps_after last p.
Proof.
  destruct p as [a|f|f|op k|a k]; [done|done| |done|done].
  intros Hp s Hs. specialize (Hp s Hs). destruct (f s) as [s' p']. destruct Hp as (? & ? & ?).
  split_and!; [done|by apply relaxed|done].
Qed.

Lemma keeps_ret {A} (a : A) : keeps (mret a).
Proof. done. Qed.

Lemma keeps_after_bind {A B} last (p : prog A) (k : A -> prog B) :
  keeps_after last p → (∀ a, keeps (k a)) → keeps_after last (p ≫= k).
Proof.
  unfold mbind, proc_bind. intros Hp Hk. revert last Hp.
  induction p as [a|f|f IH|op j IH|a j IH] using proc_ind'; intros last Hp; simpl in *.
  - apply keeps_relaxed, Hk.
  - done.
  - intros s Hs. specialize (Hp s Hs). specialize (IH s).
    destruct (f s) as [s' p']. destruct Hp as (? & ? & Hp). auto.
  - destruct Hp as [Hop Hj]. split; [done|]. intros b. apply IH, Hj.
  - intros r. apply IH, Hp.
Qed.

Lemma prog_keeps_bind {A B} (p : prog A) (k : A -> prog B) :
  keeps p → (∀ a, keeps (k a)) → keeps (p ≫= k).
Proof. apply keeps_after_bind. Qed.

Lemma prog_keeps_act {A} a (k : answer a -> prog A) : (∀ r, keeps (k r)) → keeps (Act a k).
Proof. intros Hk r. by apply keeps_relaxed. Qed.

Lemma keeps_after_locked {A} last (f : locked_code State Io RefOp answer A) :
  section_after last f → keeps_after last (Locked f).
Proof. intros Hf s Hs. specialize (Hf s Hs). by destruct (f s). Qed.

Lemma keeps_locked {A} (f : locked_code State Io RefOp answer A) : section_keeps f → keeps (Locked f).
Proof. apply keeps_after_locked. Qed.

Lemma keeps_if {A} (c : bool) (p q : prog A) : keeps p → keeps q → keeps (if c then p else q).
Proof. by destruct c. Qed.

Lemma keeps_decide {A} (P : Prop) `{!Decision P} (p q : prog A) :
  keeps p → keeps q → keeps (if decide P then p else q).
Proof. by destruct (decide P). Qed.

Lemma keeps_reading {A} (f : State -> A) : (∀ s, G None s s) → keeps (reading f).
Proof. intros HG s Hs. simpl. auto. Qed.

Lemma keeps_changing (f : State -> State) : (∀ s, I s → I (f s) ∧ G None s (f s)) → keeps (changing f).
Proof. intros Hf s Hs. destruct (Hf s Hs). simpl. auto. Qed.

(** ** Interleaving *)

Context (calls : State -> prog unit -> State -> Prop) (react : State -> ∀ a, answer a -> State -> Prop)
  (outside : State -> State -> Prop).
#[local] Abbreviation step := (pool_step ref_op calls react outside).

(** [p] is what is left of a call whose last action was [last]. *)
Inductive left_over : option Io -> prog unit -> Prop :=
  | left_call s p s' : calls s p s' → left_over None p
  | left_locked last f s : left_over last (Locked f) → left_over None (f s).2
  | left_ref last op k b : left_over last (Ref op k) → left_over None (k b)
  | left_act last a k r : left_over last (Act a k) → left_over (Some a) (k r).

(** The step is a section of a program that goes on after the answer to [a]. *)
Definition resumes (a : Io) (c c' : State * list (prog unit)) : Prop :=
  ∃ ps1 ps2 f, c.2 = ps1 ++ Locked f :: ps2 ∧ c' = ((f c.1).1, ps1 ++ (f c.1).2 :: ps2) ∧
    left_over (Some a) (Locked f).

Definition step_within (c c' : State * list (prog unit)) : Prop :=
  G None c.1 c'.1 ∨ ∃ a, G (Some a) c.1 c'.1 ∧ resumes a c c'.

Hypothesis HGrefl : ∀ s, G None s s.
Hypothesis Hcalls : ∀ s p s', I s → calls s p s' → I s' ∧ G None s s' ∧ keeps p.
Hypothesis Hreact : ∀ s a r s', I s → react s a r s' → I s' ∧ G None s s'.
Hypothesis Houtside : ∀ s s', I s → outside s s' → I s' ∧ G None s s'.

Definition member_ok (p : prog unit) : Prop := ∃ last, left_over last p ∧ keeps_after last p.

Definition pool_ok (c : State * list (prog unit)) : Prop := I c.1 ∧ Forall member_ok c.2.

Lemma section_step_keeps s ps1 ps2 f last :
  I s → left_over last (Locked f) → keeps_after last (Locked f) →
  I (f s).1 ∧ member_ok (f s).2 ∧ step_within (s, ps1 ++ Locked f :: ps2) ((f s).1, ps1 ++ (f s).2 :: ps2).
Proof.
  intros HI Hleft Hk. specialize (Hk s HI). destruct (f s) as [s' p] eqn:Hf. destruct Hk as (HI' & HG & Hk).
  cbn [fst snd]. split; [done|]. split.
  { exists None. split; [|done]. replace p with (f s).2 by by rewrite Hf. by eapply left_locked. }
  destruct last as [a|]; [right|by left]. exists a. split; [done|]. exists ps1, ps2, f. cbn [fst snd]. by rewrite Hf.
Qed.

Lemma pool_step_keeps c c' : step c c' → pool_ok c → pool_ok c' ∧ step_within c c'.
Proof.
  unfold pool_ok. intros Hstep [HI Hps]. destruct Hstep as [s ps p s' Hc|s ps1 ps2 f s' p Hf|s ps1 ps2 op k b s' Hr|s ps1 ps2 a k r s' Hr|s ps1 ps2 u|s s' ps Ho];
    cbn [fst snd] in *; rewrite ?Forall_app, ?Forall_cons in *.
  - destruct (Hcalls _ _ _ HI Hc) as (? & ? & ?). split; [|by left]. split_and!; [done| |done].
    exists None. split; [by eapply left_call|done].
  - destruct Hps as (H1 & (last & Hl & Hk) & H2).
    destruct (section_step_keeps s ps1 ps2 f last HI Hl Hk) as (? & ? & ?). rewrite Hf in *. by split_and!.
  - destruct Hps as (H1 & (last & Hl & Hop & Hk) & H2). specialize (Hop _ HI). rewrite Hr in Hop.
    destruct Hop. split; [|by left]. split_and!; [done..| |done]. exists None. split; [by eapply left_ref|done].
  - destruct Hps as (H1 & (last & Hl & Hk) & H2). destruct (Hreact _ _ _ _ HI Hr). split; [|by left].
    split_and!; [done..| |done]. exists (Some a). split; [by eapply left_act|apply Hk].
  - destruct Hps as (? & _ & ?). split; [done|]. left. apply HGrefl.
  - destruct (Houtside _ _ HI Ho). split; [done|]. by left.
Qed.

Lemma pool_steps_keep c c' : rtc step c c' → pool_ok c → pool_ok c'.
Proof.
  intros Hsteps. induction Hsteps as [c|c c1 c' Hstep _ IH]; [done|].
  intros Hc. apply IH. by eapply pool_step_keeps.
Qed.
End Keeps.

(** ** Running alone *)

Section Run.
Context {State Io RefOp : Type} {answer : Io -> Type} (ref_op : RefOp -> State -> bool * State).
#[local] Abbreviation prog := (proc State Io RefOp answer).

(** A computation that goes on with what another one has done. *)
Lemma run_bind {A B} env n (p : prog A) (k : A -> prog B) s :
  run ref_op env n (p ≫= k) s =
  let '(r, s', acts) := run ref_op env n p s in
  match r with
  | inl a =>
      let '(r', s'', acts') := run ref_op env (n + length acts) (k a) s' in (r', s'', acts ++ acts')
  | inr f => (inr f, s', acts)
  end.
Proof.
  unfold mbind, proc_bind. revert n s. induction p as [a|f|f IH|op j IH|a j IH] using proc_ind'; intros n s; simpl.
  - rewrite Nat.add_0_r. by destruct (run _ _ _ _ _) as [[r s'] acts].
  - done.
  - specialize (IH s). destruct (f s) as [s' p']. apply IH.
  - destruct (ref_op op s) as [b s']. apply IH.
  - destruct (env n a s) as [r s']. rewrite IH. destruct (run _ _ _ (j r) s') as [[[a'|f] s''] acts]; [|done].
    simpl. rewrite Nat.add_succ_r. by destruct (run _ _ _ (k a') s'') as [[r' s3] acts'].
Qed.
End Run.
