(* ===== verification/FsmSession.v ===== *)
(** * The session: shared state, sending and publishing (src/fsm.c)

    The state a session shares with other threads and with the code it calls,
    and the parts of its entry points that send packets, publish events and
    dispatch state changes.  [FsmHandlers] composes them into the entry points.

    Waiting for a dispatch that runs in another thread
    ([fsm_state_change_wait]) is left out: the build without threads does not
    wait, and with threads it only takes interleavings away. *)

From stdpp Require Import gmap.
From S2P Require Import Prelude Bytes Prefix4 Prefix6 Notification Pattr Update Packet Filter Event Rib RibTable Rib46 Fsm FsmUpdate Out Proc.

(** ** Events and calls to the outside *)

(** The fields of [libbgp_event_t] besides the type.  [user_data] is only used
    for the flag [handled] of a collision: see [IoPublish]. *)
Record fsm_event_data : Type := EventData {
  evd_source_router_id : Z;
  evd_prefix4 : option libbgp_prefix4_t;
  evd_prefix6 : option libbgp_prefix6_t;
  evd_update : option libbgp_update_msg_t
}.

Definition fsm_event : Type := @libbgp_event_t fsm_event_data.

Inductive fsm_io : Type :=
  | IoSend (target : io_target) (bytes : list Z)
  | IoPublish (bus publisher_id : Z) (event : fsm_event)
  | IoSubscribe (bus : Z) (type : libbgp_event_type_t)
  | IoUnsubscribe (bus id : Z)
  | IoCallback (cb : Z) (change : fsm_state_change_t).

(** What comes back: the count of the send function, whether a subscriber set
    [*handled], the id or the error of a subscription, whether the id was
    found. *)
Definition io_answer (a : fsm_io) : Type :=
  match a with
  | IoSend _ _ => Z
  | IoPublish _ _ _ => bool
  | IoSubscribe _ _ => (Z + libbgp_err_t)%type
  | IoUnsubscribe _ _ => bool
  | IoCallback _ _ => unit
  end.

(** Through the handle ([fsm_handle_acquire]), through the context a bus holds
    ([fsm_event_ctx_retain]), giving back ([fsm_impl_release_free]), and the
    first step of [libbgp_fsm_destroy], which takes the handle's own. *)
Inductive fsm_ref : Type := HandleAcquire | CtxRetain | RefRelease | HandleTake.

(** ** The shared state *)

Section Session.
Context {host : Host}.

(** The structure behind the handle, the objects its pointers lead to (by
    address) and the answers the allocator has left.  [sn_bus_refs]: how many of
    the references are held by event buses; [sn_handle]: the handle still
    points to the structure; [sn_freed]: it was given back to the allocator. *)
Record session : Type := Session {
  sn_impl : fsm_impl_t;
  sn_refcount : Z;
  sn_destroy_started : bool;
  sn_bus_refs : Z;
  sn_handle : bool;
  sn_freed : bool;
  sn_rib4 : gmap Z rib4_impl_t;
  sn_rib6 : gmap Z rib6_impl_t;
  sn_out : gmap Z libbgp_out_handler_t;
  sn_heap : list bool
}.

Definition with_impl (s : session) (impl : fsm_impl_t) : session :=
  Session impl (sn_refcount s) (sn_destroy_started s) (sn_bus_refs s) (sn_handle s) (sn_freed s) (sn_rib4 s) (sn_rib6 s)
    (sn_out s) (sn_heap s).
Definition with_heap (s : session) (heap : list bool) : session :=
  Session (sn_impl s) (sn_refcount s) (sn_destroy_started s) (sn_bus_refs s) (sn_handle s) (sn_freed s) (sn_rib4 s)
    (sn_rib6 s) (sn_out s) heap.
Definition with_ribs (s : session) (rib4 : gmap Z rib4_impl_t) (rib6 : gmap Z rib6_impl_t) : session :=
  Session (sn_impl s) (sn_refcount s) (sn_destroy_started s) (sn_bus_refs s) (sn_handle s) (sn_freed s) rib4 rib6
    (sn_out s) (sn_heap s).
Definition with_refs (s : session) (refcount : Z) (handle freed : bool) : session :=
  Session (sn_impl s) refcount (sn_destroy_started s) (sn_bus_refs s) handle freed (sn_rib4 s) (sn_rib6 s) (sn_out s)
    (sn_heap s).

(** *** References *)

Definition fsm_impl_acquire (s : session) : bool * session :=
  if sn_destroy_started s then (false, s)
  else (true, with_refs s (sn_refcount s + 1) (sn_handle s) (sn_freed s)).

Definition fsm_handle_acquire (s : session) : bool * session :=
  if sn_handle s then fsm_impl_acquire s else (false, s).

(** [fsm_impl_free] when the last reference goes. *)
Definition fsm_impl_release (s : session) : bool * session :=
  let refcount := if 0 <? sn_refcount s then sn_refcount s - 1 else sn_refcount s in
  let should_free := sn_destroy_started s && (refcount =? 0) in
  (should_free, with_refs s refcount (sn_handle s) (sn_freed s || should_free)).

Definition fsm_ref_op (op : fsm_ref) (s : session) : bool * session :=
  match op with
  | HandleAcquire => fsm_handle_acquire s
  | CtxRetain => fsm_impl_acquire s
  | RefRelease => fsm_impl_release s
  | HandleTake => (sn_handle s, with_refs s (sn_refcount s) false (sn_freed s))
  end.

#[local] Abbreviation fsm_proc := (proc session fsm_io fsm_ref io_answer).
#[local] Abbreviation fsm_locked := (locked_code session fsm_io fsm_ref io_answer).

(** ** Parts of a section *)

(** A call that may allocate: its result or its error code. *)
Definition allocating {A B} (m : M A) (k : A + libbgp_err_t -> fsm_locked B) : fsm_locked B := λ s,
  match m (sn_heap s) with
  | (Ret a, heap) => k (inl a) (with_heap s heap)
  | (Err e, heap) => k (inr e) (with_heap s heap)
  | (Fault f, heap) => (with_heap s heap, Crash f)
  end.

Definition calling {A} (m : M A) : fsm_proc (A + libbgp_err_t) :=
  Locked (allocating m (λ r s, (s, Done r))).

(** The tables two pointers lead to; a null pointer leads to none. *)
Definition deref_table {R} (tables : gmap Z R) (p : option Z) : option (option R) :=
  match p with
  | None => Some None
  | Some a => match tables !! a with Some rib => Some (Some rib) | None => None end
  end.

Definition put_table {R} (tables : gmap Z R) (p : option Z) (rib : option R) : gmap Z R :=
  match p, rib with
  | Some a, Some rib => <[a := rib]> tables
  | _, _ => tables
  end.

(** A call on both tables. *)
Definition on_tables {A B} (rib4 rib6 : option Z)
    (m : option rib4_impl_t -> option rib6_impl_t -> M (option rib4_impl_t * option rib6_impl_t * A))
    (k : A + libbgp_err_t -> fsm_locked B) : fsm_locked B := λ s,
  match deref_table (sn_rib4 s) rib4, deref_table (sn_rib6 s) rib6 with
  | Some t4, Some t6 =>
      allocating (m t4 t6)
        (λ r s,
           match r with
           | inl (t4, t6, a) =>
               k (inl a) (with_ribs s (put_table (sn_rib4 s) rib4 t4) (put_table (sn_rib6 s) rib6 t6))
           | inr e => k (inr e) s
           end) s
  | _, _ => (s, Crash OutOfBounds)
  end.

Definition with_tables (rib4 rib6 : option Z)
    (m : option rib4_impl_t -> option rib6_impl_t -> M (option rib4_impl_t * option rib6_impl_t))
    : fsm_proc unit :=
  Locked (on_tables rib4 rib6 (λ t4 t6, r ← m t4 t6; mret (r, tt)) (λ _ s, (s, Done tt))).

(** ** Dispatching state changes *)

(** The changes go out until the callback is replaced. *)
Fixpoint dispatch_changes (cb : Z) (changes : list fsm_state_change_t) : fsm_proc unit :=
  match changes with
  | [] => mret tt
  | change :: changes' =>
      callback_current ← reading (λ s, bool_decide (nt_cb (fs_notify (sn_impl s)) = Some cb));
      if (callback_current : bool)
      then Act (IoCallback cb change) (λ _, dispatch_changes cb changes')
      else mret tt
  end.

Definition end_dispatch (impl : fsm_impl_t) : fsm_impl_t :=
  let nt := fs_notify impl in
  FsmImpl (fs_config impl) (fs_policy impl) (fs_state impl) (fs_peer impl) (fs_clock impl) (fs_links impl)
    (fs_session_generation impl) (fs_pending impl)
    (FsmNotify (nt_cb nt) (nt_changes nt)
       (if nt_dispatch_count nt =? 0 then 0 else nt_dispatch_count nt - 1)).

(** What was drained: the callback and the changes. *)
Definition drained : Type := option Z * list fsm_state_change_t.

Definition drain_state_changes : fsm_proc drained :=
  Locked (λ s,
    let '(impl, cb, changes) := fsm_drain_state_changes (sn_impl s) in
    (with_impl s impl, Done (cb, changes))).

Definition fsm_dispatch_drained_state_changes (d : drained) : fsm_proc unit :=
  let '(cb, changes) := d in
  (match cb with Some cb => dispatch_changes cb changes | None => mret tt end);;
  if zlen changes =? 0 then mret tt
  else changing (λ s, with_impl s (end_dispatch (sn_impl s))).

Definition fsm_dispatch_state_changes_impl : fsm_proc unit :=
  d ← drain_state_changes;
  fsm_dispatch_drained_state_changes d.

(** ** Sending *)

(** [libbgp_out_handler_send] on the handler at an address. *)
Definition out_send (out : Z) (buf : list Z) : fsm_proc (Z + libbgp_err_t) :=
  Locked (λ s,
    match sn_out s !! out with
    | None => (s, Crash OutOfBounds)
    | Some handler =>
        match libbgp_out_handler_send handler buf with
        | IoReturn r => (s, Done r)
        | IoCall target bytes k => (s, Act (IoSend target bytes) (λ ret, Done (k ret)))
        end
    end).

(** [while (total < len)]: [rest] is [buf + total].  Every turn sends at least
    one byte. *)
Fixpoint send_loop (fuel : nat) (out : Z) (rest : list Z) : fsm_proc libbgp_err_t :=
  if zlen rest =? 0 then mret LIBBGP_OK
  else
    match fuel with
    | O => Crash OutOfFuel
    | S fuel' =>
        r ← out_send out rest;
        match r with
        | inr e => mret e
        | inl sent =>
            if (sent =? 0) || (zlen rest <? sent) then mret LIBBGP_ERR_WRITE
            else send_loop fuel' out (drop (Z.to_nat sent) rest)
        end
    end.

Definition fsm_send_packet (out : option Z) (pkt : libbgp_packet_t) : fsm_proc libbgp_err_t :=
  match out with
  | None => mret LIBBGP_ERR_INVALID
  | Some out =>
      r ← calling ('(buf, len) ← libbgp_packet_write pkt
                                   (replicate (Z.to_nat LIBBGP_BGP_MAX_PACKET_LEN) 0);
                   slice buf 0 len);
      match r with
      | inr e => mret e
      | inl bytes => send_loop (length bytes) out bytes
      end
  end.

Definition fsm_send_keepalive (out : option Z) : fsm_proc libbgp_err_t :=
  fsm_send_packet out (Packet p_keepalive (pkt_raw_type libbgp_packet_init)).

Definition fsm_send_notification (out : option Z) (code subcode : Z) : fsm_proc libbgp_err_t :=
  fsm_send_packet out
    (Packet (p_notification (NotificationMsg code subcode [])) (pkt_raw_type libbgp_packet_init)).

Definition fsm_send_open (out : option Z) (config : libbgp_fsm_config) (enable_mpbgp_ipv4 : bool)
    : fsm_proc libbgp_err_t :=
  r ← calling (fsm_open_packet config enable_mpbgp_ipv4);
  match r with
  | inr e => mret e
  | inl pkt => fsm_send_packet out pkt
  end.

Definition fsm_send_borrowed_update (out : option Z) (update : libbgp_update_msg_t)
    : fsm_proc libbgp_err_t :=
  fsm_send_packet out (Packet (p_update update) 0).

(** ** Publishing *)

Definition publish (bus : option Z) (publisher_id : Z) (event : fsm_event) : fsm_proc unit :=
  match bus with
  | None => mret tt
  | Some bus => Act (IoPublish bus publisher_id event) (λ _, Done tt)
  end.

Definition fsm_publish_event (bus : option Z) (publisher_id : Z) (type : libbgp_event_type_t)
    (source_router_id : Z) (prefix : option libbgp_prefix4_t) (update : option libbgp_update_msg_t)
    : fsm_proc unit :=
  publish bus publisher_id (EventOf type (EventData source_router_id prefix None update)).

Definition fsm_publish_event6 (bus : option Z) (publisher_id : Z) (type : libbgp_event_type_t)
    (source_router_id : Z) (prefix : option libbgp_prefix6_t) (update : option libbgp_update_msg_t)
    : fsm_proc unit :=
  publish bus publisher_id (EventOf type (EventData source_router_id None prefix update)).

Definition fsm_publish_route4_added_snapshot (bus : option Z) (publisher_id : Z)
    (route : libbgp_rib4_route_t) : fsm_proc unit :=
  r ← calling (fsm_update_from_route4 route);
  match r with
  | inr _ => mret tt
  | inl update =>
      fsm_publish_event bus publisher_id LIBBGP_EVENT_ROUTE_ADDED
        (rr_source_router_id (family := family4) route) (Some (rr_prefix (family := family4) route))
        (Some update)
  end.

Definition fsm_publish_route6_added_snapshot (bus : option Z) (publisher_id : Z)
    (route : libbgp_rib6_route_t) : fsm_proc unit :=
  r ← calling (fsm_update_from_route6 route);
  match r with
  | inr _ => mret tt
  | inl update =>
      fsm_publish_event6 bus publisher_id LIBBGP_EVENT_ROUTE_ADDED
        (rr_source_router_id (family := family6) route) (Some (rr_prefix (family := family6) route))
        (Some update)
  end.

(** The session is still the one the snapshot was taken from, and the ids it
    publishes routes under: [(current, route_added, route_withdrawn)]. *)
Definition fsm_publish_snapshot_current (session_generation : Z) : fsm_proc (bool * Z * Z) :=
  reading (λ s, (fsm_update_session_current (sn_impl s) session_generation,
                 ln_route_added_sub_id (fs_links (sn_impl s)),
                 ln_route_withdrawn_sub_id (fs_links (sn_impl s)))).

Definition fsm_established_snapshot_current (session_generation : Z) : fsm_proc bool :=
  reading (λ s, fsm_update_session_current (sn_impl s) session_generation).

(** One entry of the journal's list of events: [false] leaves the loop. *)
Definition publish_entry (session_generation : Z) (has_event : bool)
    (k : Z -> Z -> fsm_proc unit) : fsm_proc bool :=
  if has_event then
    '(current, added_publisher, withdrawn_publisher) ← fsm_publish_snapshot_current session_generation;
    if (current : bool) then
      k added_publisher withdrawn_publisher;;
      '(current, _, _) ← fsm_publish_snapshot_current session_generation;
      mret current
    else mret false
  else mret true.

Definition publish_event_ref (session_generation : Z) (bus : option Z) (peer_bgp_id : Z)
    (journal : fsm_update_journal_t) (r : fsm_update_event_ref_t) : fsm_proc bool :=
  let index := Z.to_nat (er_index r) in
  match er_kind r with
  | FSM_UPDATE_EVENT_WITHDRAWN4 =>
      match jh_withdrawn (uj_4 journal) !! index with
      | None => mret true
      | Some route =>
          publish_entry session_generation
            (wd_publish_replacement (family := family4) route || wd_publish_withdrawn (family := family4) route)
            (λ added withdrawn,
               match wd_publish_replacement (family := family4) route,
                     wd_replacement_route (family := family4) route with
               | true, Some best => fsm_publish_route4_added_snapshot bus added best
               | true, None => mret tt
               | false, _ =>
                   fsm_publish_event bus withdrawn LIBBGP_EVENT_ROUTE_WITHDRAWN peer_bgp_id
                     (Some (wd_prefix (family := family4) route)) None
               end)
      end
  | FSM_UPDATE_EVENT_ROUTE4 =>
      match jh_routes (uj_4 journal) !! index with
      | None => mret true
      | Some route =>
          publish_entry session_generation (best_changed (ap_change_kind (family := family4) route))
            (λ added _,
               match ap_best_route (family := family4) route with
               | Some best => fsm_publish_route4_added_snapshot bus added best
               | None => mret tt
               end)
      end
  | FSM_UPDATE_EVENT_WITHDRAWN6 =>
      match jh_withdrawn (uj_6 journal) !! index with
      | None => mret true
      | Some route =>
          publish_entry session_generation
            (wd_publish_replacement (family := family6) route || wd_publish_withdrawn (family := family6) route)
            (λ added withdrawn,
               match wd_publish_replacement (family := family6) route,
                     wd_replacement_route (family := family6) route with
               | true, Some best => fsm_publish_route6_added_snapshot bus added best
               | true, None => mret tt
               | false, _ =>
                   fsm_publish_event6 bus withdrawn LIBBGP_EVENT_ROUTE_WITHDRAWN peer_bgp_id
                     (Some (wd_prefix (family := family6) route)) None
               end)
      end
  | FSM_UPDATE_EVENT_ROUTE6 =>
      match jh_routes (uj_6 journal) !! index with
      | None => mret true
      | Some route =>
          publish_entry session_generation (best_changed (ap_change_kind (family := family6) route))
            (λ added _,
               match ap_best_route (family := family6) route with
               | Some best => fsm_publish_route6_added_snapshot bus added best
               | None => mret tt
               end)
      end
  end.

Fixpoint publish_event_refs (session_generation : Z) (bus : option Z) (peer_bgp_id : Z)
    (journal : fsm_update_journal_t) (refs : list fsm_update_event_ref_t) : fsm_proc unit :=
  match refs with
  | [] => mret tt
  | r :: refs' =>
      go_on ← publish_event_ref session_generation bus peer_bgp_id journal r;
      if (go_on : bool) then publish_event_refs session_generation bus peer_bgp_id journal refs'
      else mret tt
  end.

Definition fsm_publish_update_events (session_generation : Z) (bus : option Z) (peer_bgp_id : Z)
    (journal : fsm_update_journal_t) : fsm_proc unit :=
  publish_event_refs session_generation bus peer_bgp_id journal (je_events (uj_events journal)).

(** ** Discarding the routes of a peer *)

Fixpoint each {A} (f : A -> fsm_proc unit) (xs : list A) : fsm_proc unit :=
  match xs with
  | [] => mret tt
  | x :: xs' => f x;; each f xs'
  end.

(** [bgp_rib4_discard_collect], and [libbgp_rib4_discard] when it fails. *)
Definition discard_collect {fam : Family} (rib : rib_impl_t) (peer_bgp_id : Z)
    : M (rib_impl_t * option bgp_rib_discard_result_t) :=
  '(rib, r) ← bgp_rib_discard_collect rib peer_bgp_id;
  match r with
  | inl result => mret (rib, Some result)
  | inr _ => rib ← libbgp_rib_discard rib peer_bgp_id; mret (rib, None)
  end.

Definition discard_table4 (t4 : option rib4_impl_t) (t6 : option rib6_impl_t) (peer_bgp_id : Z)
    : M (option rib4_impl_t * option rib6_impl_t * option (bgp_rib_discard_result_t (family := family4))) :=
  match t4 with
  | None => mret (t4, t6, None)
  | Some rib => '(rib, r) ← discard_collect rib peer_bgp_id; mret (Some rib, t6, r)
  end.

Definition discard_table6 (t4 : option rib4_impl_t) (t6 : option rib6_impl_t) (peer_bgp_id : Z)
    : M (option rib4_impl_t * option rib6_impl_t * option (bgp_rib_discard_result_t (family := family6))) :=
  match t6 with
  | None => mret (t4, t6, None)
  | Some rib => '(rib, r) ← discard_collect rib peer_bgp_id; mret (t4, Some rib, r)
  end.

Definition publish_discarded4 (bus : option Z) (peer_bgp_id : Z)
    (result : option (bgp_rib_discard_result_t (family := family4))) : fsm_proc unit :=
  match result with
  | None => mret tt
  | Some result =>
      each (λ p, fsm_publish_event bus 0 LIBBGP_EVENT_ROUTE_WITHDRAWN peer_bgp_id (Some p) None)
        (dr_withdrawn (family := family4) result);;
      each (fsm_publish_route4_added_snapshot bus 0) (dr_replacements (family := family4) result)
  end.

Definition publish_discarded6 (bus : option Z) (peer_bgp_id : Z)
    (result : option (bgp_rib_discard_result_t (family := family6))) : fsm_proc unit :=
  match result with
  | None => mret tt
  | Some result =>
      each (λ p, fsm_publish_event6 bus 0 LIBBGP_EVENT_ROUTE_WITHDRAWN peer_bgp_id (Some p) None)
        (dr_withdrawn (family := family6) result);;
      each (fsm_publish_route6_added_snapshot bus 0) (dr_replacements (family := family6) result)
  end.

Definition fsm_discard_peer_routes_publish (bus rib4 rib6 : option Z) (peer_bgp_id : Z) : fsm_proc unit :=
  Locked (on_tables rib4 rib6 (λ t4 t6, discard_table4 t4 t6 peer_bgp_id) (λ r s,
    (s, publish_discarded4 bus peer_bgp_id (match r with inl result => result | inr _ => None end))));;
  Locked (on_tables rib4 rib6 (λ t4 t6, discard_table6 t4 t6 peer_bgp_id) (λ r s,
    (s, publish_discarded6 bus peer_bgp_id (match r with inl result => result | inr _ => None end)))).

(** The variant of [libbgp_fsm_destroy], which tells nobody. *)
Definition fsm_discard_peer_routes (rib4 rib6 : option Z) (peer_bgp_id : Z) : fsm_proc unit :=
  with_tables rib4 rib6 (λ t4 t6,
    t4 ← on_rib t4 (λ rib, libbgp_rib_discard (family := family4) rib peer_bgp_id);
    t6 ← on_rib t6 (λ rib, libbgp_rib_discard (family := family6) rib peer_bgp_id);
    mret (t4, t6)).

(** ** Ending a session *)

Definition session_down (bus : option Z) : fsm_proc unit :=
  fsm_publish_event bus 0 LIBBGP_EVENT_SESSION_DOWN 0 None None.

(** What [fsm_snapshot_teardown] gives its caller. *)
Record teardown_snapshot : Type := Teardown {
  td_out : option Z;
  td_bus : option Z;
  td_rib4 : option Z;
  td_rib6 : option Z;
  td_peer_bgp_id : Z
}.

Definition teardown (s : session) : session * teardown_snapshot :=
  let ln := fs_links (sn_impl s) in
  (with_impl s (fsm_snapshot_teardown (sn_impl s)),
   Teardown (ln_out ln) (ln_bus ln) (ln_rib4 ln) (ln_rib6 ln) (pe_bgp_id (fs_peer (sn_impl s)))).

Definition discard_torn_down (td : teardown_snapshot) : fsm_proc unit :=
  fsm_discard_peer_routes_publish (td_bus td) (td_rib4 td) (td_rib6 td) (td_peer_bgp_id td).

Definition fsm_teardown_current_established (session_generation : Z) : fsm_proc unit :=
  Locked (λ s,
    if fsm_update_session_current (sn_impl s) session_generation then
      let '(s, td) := teardown s in
      (s, d ← drain_state_changes;
          discard_torn_down td;;
          session_down (td_bus td);;
          fsm_dispatch_drained_state_changes d)
    else (s, mret tt)).
End Session.

Abbreviation fsm_proc := (proc session fsm_io fsm_ref io_answer).
Abbreviation fsm_locked := (locked_code session fsm_io fsm_ref io_answer).
