(* ===== verification/FsmForward.v ===== *)
(** * The session: announcing routes and resolving collisions (src/fsm.c)

    What a session does with the events of the bus it subscribes to, what it
    announces when it is established, and the collision check. *)

From stdpp Require Import gmap.
From S2P Require Import Prelude Bytes Prefix4 Prefix6 Notification Pattr Update As4 Packet Filter Event Hashmap Rib RibTable Rib46 Fsm FsmUpdate Out Proc FsmSession.

Section Forward.
Context {host : Host}.

(** ** Sending routes *)

(** Who the update is for: [(local_asn, use_4b_asn, is_ibgp)]. *)
Definition recipient : Type := Z * bool * bool.

Definition fsm_send_prepared_update (out : option Z) (update : libbgp_update_msg_t) (to : recipient)
    (policy : fsm_policy) : fsm_proc libbgp_err_t :=
  let '(local_asn, use_4b_asn, is_ibgp) := to in
  r ← calling (fsm_prepared_update update local_asn use_4b_asn is_ibgp policy);
  match r with
  | inr e => mret e
  | inl copy => fsm_send_borrowed_update out copy
  end.

Definition fsm_send_withdraw4 (out : option Z) (prefix : libbgp_prefix4_t) : fsm_proc libbgp_err_t :=
  r ← calling (libbgp_update_add_withdrawn libbgp_update_init prefix);
  match r with
  | inr e => mret e
  | inl update => fsm_send_packet out (Packet (p_update update) (pkt_raw_type libbgp_packet_init))
  end.

(** The update [fsm_send_withdraw6] sends. *)
Definition withdraw6_update (prefix : libbgp_prefix6_t) : M libbgp_update_msg_t :=
  mp ← libbgp_pattr_new LIBBGP_PATTR_MP_UNREACH_IPV6;
  alloc_or_nomem;;
  libbgp_update_add_attr libbgp_update_init
    (Pattr (pa_flags mp) (pa_type_code mp) (d_mp_unreach_ipv6 [prefix])).

Definition fsm_send_withdraw6 (out : option Z) (prefix : libbgp_prefix6_t) : fsm_proc libbgp_err_t :=
  r ← calling (withdraw6_update prefix);
  match r with
  | inr e => mret e
  | inl update => fsm_send_packet out (Packet (p_update update) (pkt_raw_type libbgp_packet_init))
  end.

Definition fsm_find_mp_reach6_for_prefix (update : libbgp_update_msg_t) (prefix : libbgp_prefix6_t)
    : option libbgp_pattr_t :=
  List.find (λ attr, existsb (λ p, libbgp_prefix6_eq p prefix) (mp_reach_nlri attr)) (upd_attrs update).

Definition fsm_send_route_added4 (out : option Z) (event : fsm_event) (to : recipient) (policy : fsm_policy)
    : fsm_proc libbgp_err_t :=
  match evd_prefix4 (ev_payload event), evd_update (ev_payload event) with
  | Some prefix, Some update =>
      let is_ibgp := to.2 in
      r ← calling (route ← fsm_fill_route_attrs prefix (evd_source_router_id (ev_payload event)) is_ibgp
                             update (po_route_weight policy) is_ibgp;
                   fsm_update_from_route4 route);
      match r with
      | inr e => mret e
      | inl update => fsm_send_prepared_update out update to policy
      end
  | _, _ => mret LIBBGP_ERR_INVALID
  end.

Definition fsm_send_route_added6 (out : option Z) (event : fsm_event) (to : recipient) (policy : fsm_policy)
    : fsm_proc libbgp_err_t :=
  match evd_prefix6 (ev_payload event), evd_update (ev_payload event) with
  | Some prefix, Some update =>
      match fsm_find_mp_reach6_for_prefix update prefix with
      | None => mret LIBBGP_ERR_INVALID
      | Some mp_reach =>
          r ← calling (route ← fsm_make_route6 (evd_source_router_id (ev_payload event)) update mp_reach
                                 prefix (po_route_weight policy) to.2;
                       fsm_update_from_route6 route);
          match r with
          | inr e => mret e
          | inl update => fsm_send_prepared_update out update to policy
          end
      end
  | _, _ => mret LIBBGP_ERR_INVALID
  end.

Definition fsm_send_route_event_update (out : option Z) (event : fsm_event) (to : recipient)
    (policy : fsm_policy) : fsm_proc libbgp_err_t :=
  match ev_type event, evd_prefix4 (ev_payload event), evd_prefix6 (ev_payload event) with
  | LIBBGP_EVENT_ROUTE_ADDED, Some _, _ => fsm_send_route_added4 out event to policy
  | LIBBGP_EVENT_ROUTE_ADDED, None, Some _ => fsm_send_route_added6 out event to policy
  | LIBBGP_EVENT_ROUTE_WITHDRAWN, Some prefix, _ => fsm_send_withdraw4 out prefix
  | LIBBGP_EVENT_ROUTE_WITHDRAWN, None, Some prefix => fsm_send_withdraw6 out prefix
  | _, _, _ => mret LIBBGP_ERR_INVALID
  end.

(** ** Outgoing filters *)

(** The route is filled as for an iBGP session, so that its LOCAL_PREF is
    read; the filters only look at the prefix and the attributes. *)
Definition fsm_out_filter4_permits (f : option filter_impl_t) (event : fsm_event) (route_weight : Z) : M bool :=
  match f, ev_type event, evd_prefix4 (ev_payload event) with
  | Some f, LIBBGP_EVENT_ROUTE_ADDED, Some prefix =>
      attrs ←
        match evd_update (ev_payload event) with
        | Some update =>
            route ← fsm_fill_route_attrs prefix (evd_source_router_id (ev_payload event)) false update
                      route_weight true;
            mret (rr_attrs (family := family4) route)
        | None => mret []
        end;
      decision ← libbgp_filter_apply_route f prefix attrs LIBBGP_FILTER_PERMIT;
      mret (bool_decide (decision = LIBBGP_FILTER_PERMIT))
  | _, _, _ => mret true
  end.

Definition fsm_out_filter6_permits (f : option filter_impl_t) (event : fsm_event) (route_weight : Z)
    (is_ibgp : bool) : M bool :=
  match f, ev_type event, evd_prefix6 (ev_payload event) with
  | Some f, LIBBGP_EVENT_ROUTE_ADDED, Some prefix =>
      attrs ←
        match evd_update (ev_payload event) with
        | None => mret (Some [])
        | Some update =>
            match fsm_find_mp_reach6_for_prefix update prefix with
            | None => mret (Some (upd_attrs update))
            | Some mp_reach =>
                r ← try_call (fsm_make_route6 (evd_source_router_id (ev_payload event)) update mp_reach
                                prefix route_weight is_ibgp);
                match r with
                | inl route => mret (Some (rr_attrs (family := family6) route))
                | inr _ => mret None
                end
            end
        end;
      match attrs with
      | None => mret false
      | Some attrs =>
          decision ← libbgp_filter_apply_route6 f prefix attrs LIBBGP_FILTER_PERMIT;
          mret (bool_decide (decision = LIBBGP_FILTER_PERMIT))
      end
  | _, _, _ => mret true
  end.

(** ** Announcing what the tables hold *)

(** What [fsm_snapshot_established_locked] copies out of the structure; an
    inactive snapshot is [None]. *)
Definition fsm_established_snapshot_t : Type := fsm_impl_t.

Definition fsm_snapshot_established_locked (impl : fsm_impl_t) : option fsm_established_snapshot_t :=
  if decide (fs_state impl = LIBBGP_FSM_ESTABLISHED) then Some impl else None.

Definition snap_is_ibgp (snap : fsm_established_snapshot_t) : bool :=
  cfg_local_asn (fs_config snap) =? pe_asn (fs_peer snap).

Definition snap_recipient (snap : fsm_established_snapshot_t) : recipient :=
  (cfg_local_asn (fs_config snap), pe_4byte_asn (fs_peer snap), snap_is_ibgp snap).

(** One route of the table: go on, and the error code.  [permits] and
    [to_update] are the filter and the conversion of the address family. *)
Definition advertise_route (snap : fsm_established_snapshot_t) (source_router_id : Z) (is_ibgp : bool)
    (permits : M bool) (to_update : M libbgp_update_msg_t) : fsm_proc (bool * libbgp_err_t) :=
  current ← fsm_established_snapshot_current (fs_session_generation snap);
  if negb current then mret (false, LIBBGP_OK)
  else if source_router_id =? pe_bgp_id (fs_peer snap) then mret (true, LIBBGP_OK)
  else if snap_is_ibgp snap && is_ibgp then mret (true, LIBBGP_OK)
  else
    r ← calling (ok ← permits; if (ok : bool) then update ← to_update; mret (Some update) else mret None);
    match r with
    | inr e => mret (false, e)
    | inl None => mret (true, LIBBGP_OK)
    | inl (Some update) =>
        e ← fsm_send_prepared_update (ln_out (fs_links snap)) update (snap_recipient snap) (fs_policy snap);
        if decide (e = LIBBGP_OK) then
          current ← fsm_established_snapshot_current (fs_session_generation snap);
          mret (current, LIBBGP_OK)
        else mret (false, e)
    end.

Definition fsm_advertise_rib4_cb (snap : fsm_established_snapshot_t) (route : libbgp_rib4_route_t)
    : fsm_proc (bool * libbgp_err_t) :=
  advertise_route snap (rr_source_router_id (family := family4) route) (rr_is_ibgp (family := family4) route)
    match po_out_filter4 (fs_policy snap) with
    | None => mret true
    | Some f =>
        decision ← libbgp_filter_apply_route f (rr_prefix (family := family4) route)
                     (rr_attrs (family := family4) route) LIBBGP_FILTER_PERMIT;
        mret (bool_decide (decision = LIBBGP_FILTER_PERMIT))
    end
    (fsm_update_from_route4 route).

Definition fsm_advertise_rib6_cb (snap : fsm_established_snapshot_t) (route : libbgp_rib6_route_t)
    : fsm_proc (bool * libbgp_err_t) :=
  if negb (pe_send_ipv6_routes (fs_peer snap)) then
    current ← fsm_established_snapshot_current (fs_session_generation snap);
    mret (current, LIBBGP_OK)
  else
    advertise_route snap (rr_source_router_id (family := family6) route)
      (rr_is_ibgp (family := family6) route)
      match po_out_filter6 (fs_policy snap) with
      | None => mret true
      | Some f =>
          decision ← libbgp_filter_apply_route6 f (rr_prefix (family := family6) route)
                       (rr_attrs (family := family6) route) LIBBGP_FILTER_PERMIT;
          mret (bool_decide (decision = LIBBGP_FILTER_PERMIT))
      end
      (fsm_update_from_route6 route).

(** The visitor is called until it declines; the last error it kept. *)
Fixpoint advertise_all {R} (cb : R -> fsm_proc (bool * libbgp_err_t)) (routes : list R)
    : fsm_proc libbgp_err_t :=
  match routes with
  | [] => mret LIBBGP_OK
  | route :: routes' =>
      '(keep_going, e) ← cb route;
      if (keep_going : bool) then advertise_all cb routes' else mret e
  end.

(** [bgp_rib4_foreach_best_route] with the visitor above: the snapshots are
    taken in one section, and visited also when collecting them failed. *)
Definition fsm_advertise_existing_rib4 (snap : fsm_established_snapshot_t) : fsm_proc libbgp_err_t :=
  match ln_rib4 (fs_links snap), pe_send_ipv4_routes (fs_peer snap) with
  | Some rib4, true =>
      Locked (λ s,
        match sn_rib4 s !! rib4 with
        | None => (s, Crash OutOfBounds)
        | Some rib =>
            allocating (best_snapshots (family := family4) rib
                          (concat (buckets (ri_lpm_groups (family := family4) rib))) [] 0)
              (λ r s,
                 match r with
                 | inr e => (s, mret e)
                 | inl (snapshots, e) =>
                     (s, e' ← advertise_all (fsm_advertise_rib4_cb snap) snapshots;
                         mret (if decide (e = LIBBGP_OK) then e' else e))
                 end) s
        end)
  | _, _ => mret LIBBGP_OK
  end.

Definition fsm_advertise_existing_rib6 (snap : fsm_established_snapshot_t) : fsm_proc libbgp_err_t :=
  match ln_rib6 (fs_links snap), pe_send_ipv6_routes (fs_peer snap) with
  | Some rib6, true =>
      Locked (λ s,
        match sn_rib6 s !! rib6 with
        | None => (s, Crash OutOfBounds)
        | Some rib =>
            allocating (best_snapshots (family := family6) rib
                          (concat (buckets (ri_lpm_groups (family := family6) rib))) [] 0)
              (λ r s,
                 match r with
                 | inr e => (s, mret e)
                 | inl (snapshots, e) =>
                     (s, e' ← advertise_all (fsm_advertise_rib6_cb snap) snapshots;
                         mret (if decide (e = LIBBGP_OK) then e' else e))
                 end) s
        end)
  | _, _ => mret LIBBGP_OK
  end.

Definition fsm_run_established_actions (snap : fsm_established_snapshot_t) : fsm_proc libbgp_err_t :=
  let generation := fs_session_generation snap in
  e ← fsm_advertise_existing_rib4 snap;
  if decide (e = LIBBGP_OK) then
    current ← fsm_established_snapshot_current generation;
    if negb current then mret LIBBGP_OK
    else
      e ← fsm_advertise_existing_rib6 snap;
      if decide (e = LIBBGP_OK) then
        current ← fsm_established_snapshot_current generation;
        if negb current then mret LIBBGP_OK
        else
          d ← drain_state_changes;
          fsm_publish_event (ln_bus (fs_links snap)) 0 LIBBGP_EVENT_SESSION_UP 0 None None;;
          fsm_dispatch_drained_state_changes d;;
          mret LIBBGP_OK
      else fsm_teardown_current_established generation;; mret e
  else fsm_teardown_current_established generation;; mret e.

(** ** Collisions *)

(** The callback of the other sessions: the result is whether it set
    [*handled]. *)
Definition fsm_collision_event_cb (event : fsm_event) : fsm_proc bool :=
  let source_router_id := evd_source_router_id (ev_payload event) in
  Locked (λ s,
    let impl := sn_impl s in
    if po_no_collision_detection (fs_policy impl) then (s, mret false)
    else if bool_decide (fs_state impl = LIBBGP_FSM_OPEN_CONFIRM) &&
            (pe_bgp_id (fs_peer impl) =? source_router_id) then
      if fsm_router_id_cmp (cfg_local_bgp_id (fs_config impl)) source_router_id <=? 0 then
        let '(s, td) := teardown s in
        (s, d ← drain_state_changes;
            fsm_send_notification (td_out td) FSM_NOTIFY_CEASE FSM_CEASE_ERR_COLLISION;;
            fsm_dispatch_drained_state_changes d;;
            mret true)
      else (s, mret true)
    else (s, mret false)).

(** [k] goes on under the lock; the lock is given back while the event is
    published.  [Some out]: the new session has to go. *)
Definition fsm_collision_reject_new_locked {A} (peer_bgp_id : Z) (k : option (option Z) -> fsm_locked A)
    : fsm_locked A := λ s,
  let impl := sn_impl s in
  match ln_bus (fs_links impl), po_no_collision_detection (fs_policy impl) with
  | Some bus, false =>
      let publisher_id := ln_collision_sub_id (fs_links impl) in
      let local_bgp_id := cfg_local_bgp_id (fs_config impl) in
      (s, Act (IoPublish bus publisher_id
                 (EventOf LIBBGP_EVENT_COLLISION (EventData peer_bgp_id None None None)))
            (λ handled, Locked (λ s,
               if (handled : bool) && (0 <? fsm_router_id_cmp local_bgp_id peer_bgp_id) then
                 let '(s, td) := teardown s in k (Some (td_out td)) s
               else k None s)))
  | _, _ => k None s
  end.

(** ** Events of the bus *)

(** A route for this peer?  [Some] of what the session was when it was looked
    at. *)
Definition should_send (impl : fsm_impl_t) (event : fsm_event) : bool :=
  let source := evd_source_router_id (ev_payload event) in
  bool_decide (fs_state impl = LIBBGP_FSM_ESTABLISHED) &&
  ((source =? 0) || negb (source =? pe_bgp_id (fs_peer impl))).

Definition forward_route_event (event : fsm_event) : fsm_proc unit :=
  snap ← reading (λ s, if should_send (sn_impl s) event then Some (sn_impl s) else None);
  match snap with
  | None => mret tt
  | Some snap =>
      let policy := fs_policy snap in
      let is_ibgp := pe_asn (fs_peer snap) =? cfg_local_asn (fs_config snap) in
      let wrong_family :=
        (bool_decide (is_Some (evd_prefix4 (ev_payload event))) && negb (pe_send_ipv4_routes (fs_peer snap))) ||
        (bool_decide (is_Some (evd_prefix6 (ev_payload event))) && negb (pe_send_ipv6_routes (fs_peer snap))) in
      if wrong_family then mret tt
      else
        r ← calling (ok4 ← fsm_out_filter4_permits (po_out_filter4 policy) event (po_route_weight policy);
                     if (ok4 : bool)
                     then fsm_out_filter6_permits (po_out_filter6 policy) event (po_route_weight policy) is_ibgp
                     else mret false);
        match r with
        | inl true =>
            e ← fsm_send_route_event_update (ln_out (fs_links snap)) event
                  (cfg_local_asn (fs_config snap), pe_4byte_asn (fs_peer snap), is_ibgp) policy;
            if decide (e = LIBBGP_OK) then mret tt
            else fsm_teardown_current_established (fs_session_generation snap)
        | _ => mret tt
        end
  end.

Definition fsm_route_event_cb (event : fsm_event) : fsm_proc bool :=
  match ev_type event with
  | LIBBGP_EVENT_COLLISION => fsm_collision_event_cb event
  | LIBBGP_EVENT_ROUTE_ADDED | LIBBGP_EVENT_ROUTE_WITHDRAWN => forward_route_event event;; mret false
  | _ => mret false
  end.
End Forward.
