(* ===== verification/FsmHandlers.v ===== *)
(** * The session: entry points (src/fsm.c)

    Starting, stopping and resetting a session, received packets, the clock.
    Every entry point takes a reference first and gives it back at the end. *)

From stdpp Require Import gmap.
From S2P Require Import Prelude Bytes Prefix4 Prefix6 Open Notification Pattr Update As4 Packet Filter Event Hashmap Rib RibTable Rib46 Fsm FsmUpdate Out Proc FsmSession FsmForward.

(** ** Changes of the structure *)

Definition set_pending (impl : fsm_impl_t) (pd : fsm_pending) : fsm_impl_t :=
  FsmImpl (fs_config impl) (fs_policy impl) (fs_state impl) (fs_peer impl) (fs_clock impl) (fs_links impl)
    (fs_session_generation impl) pd (fs_notify impl).
Definition set_clock (impl : fsm_impl_t) (ck : fsm_clock) : fsm_impl_t :=
  FsmImpl (fs_config impl) (fs_policy impl) (fs_state impl) (fs_peer impl) ck (fs_links impl)
    (fs_session_generation impl) (fs_pending impl) (fs_notify impl).

(** A change of state that starts a new generation; the marks are cleared. *)
Definition next_generation (impl : fsm_impl_t) (state : libbgp_fsm_state_t) : fsm_impl_t :=
  let impl := fsm_set_state impl state in
  FsmImpl (fs_config impl) (fs_policy impl) (fs_state impl) (fs_peer impl) (fs_clock impl) (fs_links impl)
    (u64 (fs_session_generation impl + 1)) no_pending (fs_notify impl).

Definition is_current (impl : fsm_impl_t) (state : libbgp_fsm_state_t) (session_generation : Z) : bool :=
  bool_decide (fs_state impl = state) && (fs_session_generation impl =? session_generation).

(** ** The OPEN message of the peer *)

(** The first defect, in the order of the checks: the NOTIFICATION to send, if
    one is sent, and the error code. *)
Definition open_defect (impl : fsm_impl_t) (open : libbgp_open_msg_t) : option (option (Z * Z) * libbgp_err_t) :=
  let notify subcode := Some (FSM_NOTIFY_OPEN_MESSAGE_ERROR, subcode) in
  if negb (open_version open =? 4) then
    Some (notify FSM_OPEN_ERR_UNSUPPORTED_VERSION, LIBBGP_ERR_BAD_LEN)
  else if negb (open_hold_time open =? 0) && (open_hold_time open <? 3) then
    Some (notify FSM_OPEN_ERR_UNACCEPTABLE_HOLD_TIME, LIBBGP_ERR_INVALID)
  else if negb (fsm_valid_peer_bgp_id (open_bgp_id open) (cfg_local_bgp_id (fs_config impl))) then
    Some (notify FSM_OPEN_ERR_BAD_BGP_ID, LIBBGP_ERR_INVALID)
  else if negb (fsm_local_open_config_valid (fs_config impl)) then Some (None, LIBBGP_ERR_INVALID)
  else if negb (po_expected_peer_asn (fs_policy impl) =? 0) &&
          negb (libbgp_open_get_4b_asn open =? po_expected_peer_asn (fs_policy impl)) then
    Some (notify FSM_OPEN_ERR_BAD_PEER_AS, LIBBGP_ERR_INVALID)
  else None.

Definition negotiated_hold_time (local_hold peer_hold : Z) : Z :=
  if (local_hold =? 0) || (peer_hold =? 0) then 0
  else if local_hold <? peer_hold then local_hold else peer_hold.

(** What an acceptable OPEN settles; [families] was computed before the
    collision check. *)
Definition open_peer (config : libbgp_fsm_config) (open : libbgp_open_msg_t) (families : bool * bool)
    : fsm_peer :=
  let peer_4byte_asn := cfg_enable_4byte_asn config && libbgp_open_has_4b_asn open in
  FsmPeer (libbgp_open_get_4b_asn open) (open_bgp_id open)
    (negotiated_hold_time (cfg_hold_time config) (open_hold_time open))
    families.1 families.2 families.2 peer_4byte_asn (cfg_enable_4byte_asn config && negb peer_4byte_asn).

Definition accept_open (impl : fsm_impl_t) (open : libbgp_open_msg_t) (families : bool * bool)
    (pending : fsm_pending) : fsm_impl_t :=
  let impl := fsm_set_state impl LIBBGP_FSM_OPEN_CONFIRM in
  FsmImpl (fs_config impl) (fs_policy impl) (fs_state impl) (open_peer (fs_config impl) open families)
    (FsmClock (ck_current_ms (fs_clock impl)) 0 0 false) (fs_links impl)
    (u64 (fs_session_generation impl + 1)) pending (fs_notify impl).

(** The marks set while the KEEPALIVE, or the OPEN of the passive side, is
    being sent. *)
Definition sending_keepalive : fsm_pending := FsmPending true false false false.
Definition sending_open : fsm_pending := FsmPending false false true false.

(** Another attempt that began meanwhile is left alone. *)
Definition fsm_rollback_failed_local_keepalive (impl : fsm_impl_t) (session_generation : Z) : fsm_impl_t :=
  if is_current impl LIBBGP_FSM_OPEN_CONFIRM session_generation ||
     is_current impl LIBBGP_FSM_ESTABLISHED (u64 (session_generation + 1))
  then forget_peer (fsm_set_state impl LIBBGP_FSM_IDLE)
  else impl.

(** [None]: not established. *)
Definition fsm_establish_pending_keepalive (impl : fsm_impl_t) (session_generation : Z) : option fsm_impl_t :=
  if is_current impl LIBBGP_FSM_OPEN_CONFIRM session_generation && pd_local_keepalive (fs_pending impl)
  then Some (next_generation impl LIBBGP_FSM_ESTABLISHED)
  else None.

Definition mark_local_send (impl : fsm_impl_t) (b : bool) : fsm_impl_t :=
  let pd := fs_pending impl in
  set_pending impl (FsmPending b (pd_local_keepalive pd) (pd_passive_open_send pd) (pd_passive_keepalive pd)).
Definition mark_local_keepalive (impl : fsm_impl_t) : fsm_impl_t :=
  let pd := fs_pending impl in
  set_pending impl (FsmPending (pd_local_keepalive_send pd) true (pd_passive_open_send pd)
                      (pd_passive_keepalive pd)).
Definition clear_passive_open (impl : fsm_impl_t) : fsm_impl_t :=
  let pd := fs_pending impl in
  set_pending impl (FsmPending (pd_local_keepalive_send pd) (pd_local_keepalive pd) false
                      (pd_passive_keepalive pd)).
Definition mark_passive_keepalive (impl : fsm_impl_t) : fsm_impl_t :=
  let pd := fs_pending impl in
  set_pending impl (FsmPending (pd_local_keepalive_send pd) (pd_local_keepalive pd)
                      (pd_passive_open_send pd) true).

Section Handlers.
Context {host : Host}.

(** Tear the session down, unlock, send the NOTIFICATION. *)
Definition reject {A} (notify : option (Z * Z)) (result : A) : fsm_locked A := λ s,
  let '(s, td) := teardown s in
  (s, match notify with
      | Some (code, subcode) => fsm_send_notification (td_out td) code subcode;; mret result
      | None => mret result
      end).

(** The checks both OPEN handlers make, up to the collision; [k] accepts. *)
Definition check_open (open : libbgp_open_msg_t) (k : bool * bool -> fsm_locked libbgp_err_t)
    : fsm_locked libbgp_err_t := λ s,
  match open_defect (sn_impl s) open with
  | Some (notify, e) => reject notify e s
  | None =>
      let families := fsm_negotiate_route_families (sn_impl s) open in
      fsm_collision_reject_new_locked (open_bgp_id open) (λ rejected s,
        match rejected with
        | Some out =>
            (s, fsm_send_notification out FSM_NOTIFY_CEASE FSM_CEASE_ERR_COLLISION;; mret LIBBGP_OK)
        | None => k families s
        end) s
  end.

(** Relock after the KEEPALIVE of the active side was sent. *)
Definition after_keepalive (session_generation : Z) (e : libbgp_err_t) : fsm_locked libbgp_err_t := λ s,
  let impl := sn_impl s in
  if decide (e = LIBBGP_OK) then
    if is_current impl LIBBGP_FSM_OPEN_CONFIRM session_generation then
      let impl := mark_local_send impl false in
      match fsm_establish_pending_keepalive impl session_generation with
      | Some impl =>
          (with_impl s impl,
           match fsm_snapshot_established_locked impl with
           | Some snap => fsm_run_established_actions snap
           | None => mret e
           end)
      | None => (with_impl s impl, mret e)
      end
    else (s, mret e)
  else (with_impl s (fsm_rollback_failed_local_keepalive impl session_generation), mret e).

Definition fsm_on_open_sent (pkt : libbgp_packet_t) : fsm_locked libbgp_err_t := λ s,
  match pkt_data pkt with
  | p_open open =>
      check_open open (λ families s,
        let impl := accept_open (sn_impl s) open families sending_keepalive in
        let session_generation := fs_session_generation impl in
        (with_impl s impl,
         e ← fsm_send_keepalive (ln_out (fs_links impl));
         Locked (after_keepalive session_generation e))) s
  | _ => reject (Some (FSM_NOTIFY_FSM_ERROR, FSM_ERR_OPEN_SENT)) LIBBGP_ERR_BAD_TYPE s
  end.

(** [relock_after_send] *)
Definition relock_after_send (session_generation : Z) (e : libbgp_err_t) : fsm_proc libbgp_err_t :=
  Locked (λ s,
    (if decide (e = LIBBGP_OK) then s
     else with_impl s (fsm_rollback_failed_local_keepalive (sn_impl s) session_generation),
     mret e)).

(** Relock after the KEEPALIVE of the passive side was sent. *)
Definition after_passive_keepalive (session_generation : Z) : fsm_locked libbgp_err_t := λ s,
  let impl := sn_impl s in
  if is_current impl LIBBGP_FSM_OPEN_CONFIRM session_generation then
    if pd_passive_keepalive (fs_pending impl) || pd_local_keepalive (fs_pending impl) then
      let impl := mark_local_keepalive impl in
      let impl :=
        match fsm_establish_pending_keepalive impl session_generation with
        | Some impl => impl
        | None => mark_local_send impl false
        end in
      (with_impl s impl,
       match fsm_snapshot_established_locked impl with
       | Some snap => fsm_run_established_actions snap
       | None => relock_after_send session_generation LIBBGP_OK
       end)
    else (with_impl s (mark_local_send impl false), relock_after_send session_generation LIBBGP_OK)
  else (s, relock_after_send session_generation LIBBGP_OK).

(** The second and the third section: the OPEN is out, the KEEPALIVE comes
    next. *)
Definition after_passive_open (session_generation : Z) (out : option Z) : fsm_proc libbgp_err_t :=
  Locked (λ s,
    if is_current (sn_impl s) LIBBGP_FSM_OPEN_CONFIRM session_generation then
      (with_impl s (clear_passive_open (sn_impl s)),
       Locked (λ s,
         if is_current (sn_impl s) LIBBGP_FSM_OPEN_CONFIRM session_generation then
           (with_impl s (mark_local_send (sn_impl s) true),
            e ← fsm_send_keepalive out;
            if decide (e = LIBBGP_OK) then Locked (after_passive_keepalive session_generation)
            else relock_after_send session_generation e)
         else (s, relock_after_send session_generation LIBBGP_OK)))
    else (s, relock_after_send session_generation LIBBGP_OK)).

Definition fsm_on_pre_open_open (open : libbgp_open_msg_t) : fsm_locked libbgp_err_t :=
  check_open open (λ families s,
    let impl := accept_open (sn_impl s) open families sending_open in
    let session_generation := fs_session_generation impl in
    let out := ln_out (fs_links impl) in
    (with_impl s impl,
     e ← fsm_send_open out (fs_config impl) (po_enable_mpbgp_ipv4 (fs_policy impl));
     if decide (e = LIBBGP_OK) then after_passive_open session_generation out
     else relock_after_send session_generation e)).

(** ** OPEN_CONFIRM *)

(** Establish the session and unlock. *)
Definition establish : fsm_locked libbgp_err_t := λ s,
  let impl := next_generation (sn_impl s) LIBBGP_FSM_ESTABLISHED in
  (with_impl s impl, fsm_run_established_actions impl).

(** The checks on a second OPEN while the own OPEN is being sent. *)
Definition repeated_open_defect (impl : fsm_impl_t) (open : libbgp_open_msg_t) : option (Z * libbgp_err_t) :=
  if negb (open_version open =? 4) then Some (FSM_OPEN_ERR_UNSUPPORTED_VERSION, LIBBGP_ERR_BAD_LEN)
  else if negb (open_hold_time open =? 0) && (open_hold_time open <? 3) then
    Some (FSM_OPEN_ERR_UNACCEPTABLE_HOLD_TIME, LIBBGP_ERR_INVALID)
  else if negb (fsm_valid_peer_bgp_id (open_bgp_id open) (cfg_local_bgp_id (fs_config impl))) then
    Some (FSM_OPEN_ERR_BAD_BGP_ID, LIBBGP_ERR_INVALID)
  else None.

Definition fsm_on_open_confirm (pkt : libbgp_packet_t) : fsm_locked libbgp_err_t := λ s,
  let wrong := reject (Some (FSM_NOTIFY_FSM_ERROR, FSM_ERR_OPEN_CONFIRM)) LIBBGP_ERR_BAD_TYPE s in
  match pkt_data pkt with
  | p_open open =>
      if pd_passive_open_send (fs_pending (sn_impl s)) then
        match repeated_open_defect (sn_impl s) open with
        | Some (subcode, e) => reject (Some (FSM_NOTIFY_OPEN_MESSAGE_ERROR, subcode)) e s
        | None => (s, mret LIBBGP_OK)
        end
      else wrong
  | p_keepalive =>
      let impl := fsm_mark_rx_current (sn_impl s) in
      if pd_passive_open_send (fs_pending impl) then
        (with_impl s (mark_passive_keepalive impl), mret LIBBGP_OK)
      else if pd_local_keepalive_send (fs_pending impl) then
        (with_impl s (mark_local_keepalive impl), mret LIBBGP_OK)
      else establish (with_impl s impl)
  | p_notification _ => reject None LIBBGP_OK s
  | _ => wrong
  end.

(** ** ESTABLISHED *)

(** What happens after the session was torn down under the lock: drain, send,
    discard and announce, dispatch. *)
Definition down_and_dispatch (td : teardown_snapshot) (send : fsm_proc libbgp_err_t)
    (result : libbgp_err_t -> libbgp_err_t) : fsm_proc libbgp_err_t :=
  d ← drain_state_changes;
  send_err ← send;
  discard_torn_down td;;
  session_down (td_bus td);;
  fsm_dispatch_drained_state_changes d;;
  mret (result send_err).

(** [send_err == LIBBGP_OK ? e : send_err] *)
Definition or_send_err (e send_err : libbgp_err_t) : libbgp_err_t :=
  if decide (send_err = LIBBGP_OK) then e else send_err.

Definition has_mp_attr (update : libbgp_update_msg_t) : bool :=
  existsb (λ attr, bool_decide (pa_type attr = LIBBGP_PATTR_MP_REACH_IPV6) ||
                   bool_decide (pa_type attr = LIBBGP_PATTR_MP_UNREACH_IPV6)) (upd_attrs update).

Definition mark_rx (impl : fsm_impl_t) (rx_ms : Z) : fsm_impl_t :=
  let ck := fs_clock impl in
  if ck_initialized ck
  then set_clock impl (FsmClock (ck_current_ms ck) rx_ms (ck_last_keepalive_ms ck) true)
  else impl.

(** The end of the UPDATE case, with what [fsm_apply_update] left.  The lock
    is held all along, so the session is still the one that received the
    packet; the code asks nevertheless. *)
Definition update_applied (session_generation peer_bgp_id : Z) (bus rib4 rib6 : option Z) (rx_ms : Z)
    (journal : fsm_update_journal_t) (subcode : Z) (e : libbgp_err_t) : fsm_locked libbgp_err_t := λ s,
  let impl := sn_impl s in
  let rollback := with_tables rib4 rib6 (λ t4 t6, fsm_rollback_update_journal journal t4 t6 peer_bgp_id) in
  if negb (is_current impl LIBBGP_FSM_ESTABLISHED session_generation) then
    (s, with_tables rib4 rib6 (λ t4 t6, fsm_cleanup_stale_update_journal journal t4 t6 peer_bgp_id);;
        mret e)
  else if decide (e = LIBBGP_OK) then
    (with_impl s (mark_rx impl rx_ms),
     fsm_publish_update_events session_generation bus peer_bgp_id journal;; mret e)
  else if decide (e = LIBBGP_ERR_INVALID) then
    let '(s, td) := teardown s in
    (s, d ← drain_state_changes;
        rollback;;
        send_err ← fsm_send_notification (td_out td) FSM_NOTIFY_UPDATE_MESSAGE_ERROR subcode;
        discard_torn_down td;;
        session_down (td_bus td);;
        fsm_dispatch_drained_state_changes d;;
        mret (or_send_err e send_err))
  else (s, rollback;; mret e).

Definition on_update (update : libbgp_update_msg_t) : fsm_locked libbgp_err_t := λ s,
  let impl := sn_impl s in
  let ln := fs_links impl in
  let peer_bgp_id := pe_bgp_id (fs_peer impl) in
  let session_generation := fs_session_generation impl in
  if negb (pe_mpbgp_ipv6 (fs_peer impl)) && has_mp_attr update then
    let '(s, td) := teardown s in
    (s, down_and_dispatch td
          (fsm_send_notification (td_out td) FSM_NOTIFY_UPDATE_MESSAGE_ERROR FSM_UPDATE_ERR_MALFORMED_ATTR_LIST)
          (or_send_err LIBBGP_ERR_INVALID))
  else
    on_tables (ln_rib4 ln) (ln_rib6 ln)
      (λ t4 t6,
         '(st, subcode, e) ← fsm_apply_update impl session_generation t4 t6 peer_bgp_id update
                               fsm_update_journal_empty FSM_UPDATE_ERR_MALFORMED_ATTR_LIST;
         mret (as_rib4 st, as_rib6 st, (as_journal st, subcode, e)))
      (λ r s,
         match r with
         | inl (journal, subcode, e) =>
             update_applied session_generation peer_bgp_id (ln_bus ln) (ln_rib4 ln) (ln_rib6 ln)
               (ck_current_ms (fs_clock impl)) journal subcode e s
         | inr e => (s, mret e)
         end) s.

Definition fsm_on_established (pkt : libbgp_packet_t) : fsm_locked libbgp_err_t := λ s,
  match pkt_data pkt with
  | p_keepalive => (with_impl s (fsm_mark_rx_current (sn_impl s)), mret LIBBGP_OK)
  | p_notification _ =>
      let '(s, td) := teardown s in
      (s, down_and_dispatch td (mret LIBBGP_OK) (λ _, LIBBGP_OK))
  | p_update update => on_update update s
  | _ =>
      let '(s, td) := teardown s in
      (s, down_and_dispatch td (fsm_send_notification (td_out td) FSM_NOTIFY_FSM_ERROR FSM_ERR_ESTABLISHED)
            (λ _, LIBBGP_ERR_BAD_TYPE))
  end.

(** ** Packets *)

(** [fsm_handle_acquire] at the start and the release at the end. *)
Definition with_handle {A} (without : A) (body : fsm_proc A) : fsm_proc A :=
  Ref HandleAcquire (λ acquired,
    if acquired then a ← body; Ref RefRelease (λ _, Done a) else Done without).

Definition on_notification : fsm_locked libbgp_err_t := λ s,
  let state := fs_state (sn_impl s) in
  let '(s, td) := teardown s in
  (s, if decide (state = LIBBGP_FSM_ESTABLISHED)
      then down_and_dispatch td (mret LIBBGP_OK) (λ _, LIBBGP_OK)
      else fsm_dispatch_state_changes_impl;; mret LIBBGP_OK).

Definition dispatch_packet (pkt : libbgp_packet_t) : fsm_locked libbgp_err_t := λ s,
  match pkt_data pkt, fs_state (sn_impl s) with
  | p_notification _, _ => on_notification s
  | p_open open, (LIBBGP_FSM_IDLE | LIBBGP_FSM_CONNECT | LIBBGP_FSM_ACTIVE) => fsm_on_pre_open_open open s
  | _, (LIBBGP_FSM_IDLE | LIBBGP_FSM_CONNECT | LIBBGP_FSM_ACTIVE) => (s, mret LIBBGP_OK)
  | _, LIBBGP_FSM_OPEN_SENT => fsm_on_open_sent pkt s
  | _, LIBBGP_FSM_OPEN_CONFIRM => fsm_on_open_confirm pkt s
  | _, LIBBGP_FSM_ESTABLISHED => fsm_on_established pkt s
  end.

Definition libbgp_fsm_on_packet (pkt : libbgp_packet_t) : fsm_proc libbgp_err_t :=
  with_handle LIBBGP_ERR_INVALID (Locked (dispatch_packet pkt)).

(** A message that does not parse: tear down, tell the peer which defect. *)
Definition on_parse_error (detail : bgp_parse_error_detail_t) : fsm_locked libbgp_err_t := λ s,
  let state := fs_state (sn_impl s) in
  let '(s, td) := teardown s in
  (s, d ← drain_state_changes;
      (if decide (state = LIBBGP_FSM_ESTABLISHED)
       then discard_torn_down td;; session_down (td_bus td)
       else mret tt);;
      send_err ← fsm_send_notification (td_out td) (det_notify_code detail) (det_notify_subcode detail);
      fsm_dispatch_drained_state_changes d;;
      mret (or_send_err (det_err detail) send_err)).

Definition raw_packet_as4 (impl : fsm_impl_t) : bool :=
  if decide (fs_state impl = LIBBGP_FSM_ESTABLISHED) then pe_4byte_asn (fs_peer impl)
  else cfg_enable_4byte_asn (fs_config impl).

(** Exactly one message: trailing bytes are a length error. *)
Definition libbgp_fsm_on_raw_packet (buf : list Z) : fsm_proc libbgp_err_t :=
  with_handle LIBBGP_ERR_INVALID (
    use_4b_asn ← reading (λ s, raw_packet_as4 (sn_impl s));
    r ← calling (bgp_packet_parse_as4_detail buf use_4b_asn true);
    let fails e detail :=
      if det_notify_code detail =? 0 then mret e else Locked (on_parse_error detail) in
    match r with
    | inl (inl (pkt, consumed)) =>
        if consumed =? zlen buf then libbgp_fsm_on_packet pkt
        else fails LIBBGP_ERR_BAD_LEN (ParseErrorDetail LIBBGP_ERR_BAD_LEN 1 2)
    | inl (inr (e, detail)) => fails e detail
    | inr e => mret e
    end).

(** ** The clock *)

Definition clock_start (impl : fsm_impl_t) (now_ms : Z) : fsm_impl_t :=
  set_clock impl (FsmClock now_ms now_ms now_ms true).
Definition clock_advance (impl : fsm_impl_t) (now_ms : Z) : fsm_impl_t :=
  let ck := fs_clock impl in
  set_clock impl (FsmClock now_ms (ck_last_rx_ms ck) (ck_last_keepalive_ms ck) (ck_initialized ck)).
Definition clock_keepalive_sent (impl : fsm_impl_t) (now_ms : Z) : fsm_impl_t :=
  let ck := fs_clock impl in
  set_clock impl (FsmClock (ck_current_ms ck) (ck_last_rx_ms ck) now_ms (ck_initialized ck)).

(** Unsigned 64-bit differences: a clock that goes back counts as far ahead. *)
Definition hold_timer_expired (impl : fsm_impl_t) (now_ms : Z) : bool :=
  (0 <? pe_hold_time (fs_peer impl)) && fsm_state_hold_timer_active (fs_state impl) &&
  (pe_hold_time (fs_peer impl) * 1000 <=? u64 (now_ms - ck_last_rx_ms (fs_clock impl))).

Definition keepalive_due (impl : fsm_impl_t) (now_ms : Z) : bool :=
  let keepalive_time := fsm_effective_keepalive_time impl in
  fsm_state_hold_timer_active (fs_state impl) && (0 <? keepalive_time) &&
  (keepalive_time * 1000 <=? u64 (now_ms - ck_last_keepalive_ms (fs_clock impl))).

(** The routes of an established session are discarded; nothing is sent. *)
Definition down_if_established (was_established : bool) (td : teardown_snapshot) (d : drained)
    : fsm_proc unit :=
  (if was_established then discard_torn_down td;; session_down (td_bus td) else mret tt);;
  fsm_dispatch_drained_state_changes d.

(** Relock after the KEEPALIVE of the timer was sent, or not. *)
Definition after_timed_keepalive (state : libbgp_fsm_state_t) (session_generation now_ms : Z)
    (e : libbgp_err_t) : fsm_locked libbgp_err_t := λ s,
  let current := is_current (sn_impl s) state session_generation in
  if decide (e = LIBBGP_OK) then
    (if current then with_impl s (clock_keepalive_sent (sn_impl s) now_ms) else s, mret e)
  else if current then
    let '(s, td) := teardown s in
    (s, d ← drain_state_changes;
        down_if_established (bool_decide (state = LIBBGP_FSM_ESTABLISHED)) td d;;
        mret e)
  else
    (s, d ← drain_state_changes; fsm_dispatch_drained_state_changes d;; mret e).

Definition tick (now_ms : Z) : fsm_locked libbgp_err_t := λ s,
  if negb (ck_initialized (fs_clock (sn_impl s))) then
    (with_impl s (clock_start (sn_impl s) now_ms), mret LIBBGP_OK)
  else
    let s := with_impl s (clock_advance (sn_impl s) now_ms) in
    let impl := sn_impl s in
    if hold_timer_expired impl now_ms then
      let was_established := bool_decide (fs_state impl = LIBBGP_FSM_ESTABLISHED) in
      let '(s, td) := teardown s in
      (s, d ← drain_state_changes;
          fsm_send_notification (td_out td) FSM_NOTIFY_HOLD_TIMER_EXPIRED 0;;
          down_if_established was_established td d;;
          mret LIBBGP_OK)
    else if keepalive_due impl now_ms then
      (s, e ← fsm_send_keepalive (ln_out (fs_links impl));
          Locked (after_timed_keepalive (fs_state impl) (fs_session_generation impl) now_ms e))
    else (s, mret LIBBGP_OK).

Definition libbgp_fsm_tick (now_ms : Z) : fsm_proc libbgp_err_t :=
  with_handle LIBBGP_ERR_INVALID (Locked (tick now_ms)).

(** ** Starting and stopping *)

Definition enter_pre_open (state : libbgp_fsm_state_t) : fsm_locked libbgp_err_t := λ s,
  if fsm_state_pre_open (fs_state (sn_impl s)) then
    (with_impl s (forget_peer (fsm_set_state (sn_impl s) state)),
     fsm_dispatch_state_changes_impl;; mret LIBBGP_OK)
  else (s, mret LIBBGP_ERR_INVALID).

Definition fsm_enter_pre_open_state (state : libbgp_fsm_state_t) : fsm_proc libbgp_err_t :=
  with_handle LIBBGP_ERR_INVALID (Locked (enter_pre_open state)).

Definition libbgp_fsm_enter_connect : fsm_proc libbgp_err_t := fsm_enter_pre_open_state LIBBGP_FSM_CONNECT.
Definition libbgp_fsm_enter_active : fsm_proc libbgp_err_t := fsm_enter_pre_open_state LIBBGP_FSM_ACTIVE.

(** Relock after the OPEN was sent, or not. *)
Definition after_start (start_state : libbgp_fsm_state_t) (session_generation : Z) (e : libbgp_err_t)
    : fsm_locked libbgp_err_t := λ s,
  ((if decide (e = LIBBGP_OK) then s
    else if is_current (sn_impl s) LIBBGP_FSM_OPEN_SENT session_generation
    then with_impl s (next_generation (sn_impl s) start_state)
    else s),
   fsm_dispatch_state_changes_impl;; mret e).

Definition start : fsm_locked libbgp_err_t := λ s,
  let impl := sn_impl s in
  if negb (fsm_local_open_config_valid (fs_config impl)) then (s, mret LIBBGP_ERR_INVALID)
  else if negb (fsm_state_pre_open (fs_state impl)) then (s, mret LIBBGP_OK)
  else
    let start_state := fs_state impl in
    let impl := forget_peer (fsm_set_state impl LIBBGP_FSM_OPEN_SENT) in
    (with_impl s impl,
     e ← fsm_send_open (ln_out (fs_links impl)) (fs_config impl) (po_enable_mpbgp_ipv4 (fs_policy impl));
     Locked (after_start start_state (fs_session_generation impl) e)).

Definition libbgp_fsm_start : fsm_proc libbgp_err_t := with_handle LIBBGP_ERR_INVALID (Locked start).

Definition reset (send_notify : bool) (cease_subcode : Z) : fsm_locked libbgp_err_t := λ s,
  let state := fs_state (sn_impl s) in
  let notify := send_notify && negb (bool_decide (state = LIBBGP_FSM_IDLE)) in
  let was_established := bool_decide (state = LIBBGP_FSM_ESTABLISHED) in
  let routes_before_notify := was_established && notify && (cease_subcode =? FSM_CEASE_ERR_ADMIN_SHUTDOWN) in
  let '(s, td) := teardown s in
  (s, d ← drain_state_changes;
      (if routes_before_notify then discard_torn_down td else mret tt);;
      e ← (if notify then fsm_send_notification (td_out td) FSM_NOTIFY_CEASE cease_subcode
           else mret LIBBGP_OK);
      (if was_established then
         (if routes_before_notify then mret tt else discard_torn_down td);;
         session_down (td_bus td)
       else mret tt);;
      fsm_dispatch_drained_state_changes d;;
      mret e).

Definition fsm_reset_common (send_notify : bool) (cease_subcode : Z) : fsm_proc libbgp_err_t :=
  with_handle LIBBGP_ERR_INVALID (Locked (reset send_notify cease_subcode)).

Definition libbgp_fsm_stop : fsm_proc libbgp_err_t := fsm_reset_common true FSM_CEASE_ERR_ADMIN_SHUTDOWN.
Definition libbgp_fsm_reset_soft : fsm_proc libbgp_err_t := fsm_reset_common true FSM_CEASE_ERR_ADMIN_RESET.
Definition libbgp_fsm_reset_hard : fsm_proc libbgp_err_t := fsm_reset_common false 0.
End Handlers.
