(* ===== verification/FsmObject.v ===== *)
(** * The session: the object (src/fsm.c)

    Creating and destroying a session, attaching tables, bus and output
    handler, the settings and the getters. *)

From stdpp Require Import gmap.
From S2P Require Import Prelude Bytes Prefix4 Prefix6 Pattr Update Packet Filter Event Hashmap Rib RibTable Rib46 Fsm FsmUpdate Out Proc FsmSession FsmForward FsmHandlers.

Section Object.
Context {host : Host}.

(** The address of the tables that are part of the structure. *)
Definition INTERNAL_RIB : Z := 0.

(** A zeroed structure, apart from what [libbgp_fsm_init] sets. *)
Definition zero_policy : fsm_policy :=
  FsmPolicy 0 0 0 false false None None None None (Prefix4 0 0) (Prefix6 (replicate 16 0) 0) 0
    (replicate 16 0) (replicate 16 0) false false false false false.

Definition new_impl (config : libbgp_fsm_config) : fsm_impl_t :=
  FsmImpl config zero_policy LIBBGP_FSM_IDLE no_peer (FsmClock 0 0 0 false)
    (FsmLinks (Some INTERNAL_RIB) (Some INTERNAL_RIB) None None 0 0 0) 0 no_pending (FsmNotify None [] 0).

(** The structure and the two internal tables; [others] are the objects of
    the program that may be attached later. *)
Definition libbgp_fsm_init (config : option libbgp_fsm_config) : M (fsm_impl_t * rib4_impl_t * rib6_impl_t) :=
  alloc_or_nomem;;
  rib4 ← libbgp_rib4_init;
  rib6 ← libbgp_rib6_init;
  mret (new_impl (default fsm_default_config config), rib4, rib6).

(** The shared state after a successful [libbgp_fsm_init]: one reference, that
    of the handle. *)
Definition fsm_created (impl : fsm_impl_t) (rib4 : rib4_impl_t) (rib6 : rib6_impl_t)
    (others4 : gmap Z rib4_impl_t) (others6 : gmap Z rib6_impl_t) (outs : gmap Z libbgp_out_handler_t)
    (heap : list bool) : session :=
  Session impl 1 false 0 true false (<[INTERNAL_RIB := rib4]> others4) (<[INTERNAL_RIB := rib6]> others6)
    outs heap.

(** ** Settings *)

Definition set_policy (f : fsm_policy -> fsm_policy) : fsm_proc unit :=
  with_handle tt (changing (λ s,
    let impl := sn_impl s in
    with_impl s (FsmImpl (fs_config impl) (f (fs_policy impl)) (fs_state impl) (fs_peer impl) (fs_clock impl)
                   (fs_links impl) (fs_session_generation impl) (fs_pending impl) (fs_notify impl)))).

Definition set_links (f : fsm_links -> fsm_links) (s : session) : session :=
  let impl := sn_impl s in
  with_impl s (FsmImpl (fs_config impl) (fs_policy impl) (fs_state impl) (fs_peer impl) (fs_clock impl)
                 (f (fs_links impl)) (fs_session_generation impl) (fs_pending impl) (fs_notify impl)).

Definition libbgp_fsm_set_expected_peer_asn (peer_asn : Z) : fsm_proc unit :=
  set_policy (λ po,
    FsmPolicy peer_asn (po_allow_local_as po) (po_route_weight po) (po_enable_mpbgp_ipv4 po)
      (po_no_collision_detection po) (po_in_filter4 po) (po_out_filter4 po) (po_in_filter6 po)
      (po_out_filter6 po) (po_peering_lan4 po) (po_peering_lan6 po) (po_default_nexthop4 po)
      (po_default_nexthop6 po) (po_default_nexthop6_linklocal po) (po_no_nexthop_check4 po)
      (po_force_default_nexthop4 po) (po_no_nexthop_check6 po) (po_force_default_nexthop6 po)
      (po_ibgp_alter_nexthop po)).

Definition libbgp_fsm_set_mpbgp_ipv4 (enabled : bool) : fsm_proc unit :=
  set_policy (λ po,
    FsmPolicy (po_expected_peer_asn po) (po_allow_local_as po) (po_route_weight po) enabled
      (po_no_collision_detection po) (po_in_filter4 po) (po_out_filter4 po) (po_in_filter6 po)
      (po_out_filter6 po) (po_peering_lan4 po) (po_peering_lan6 po) (po_default_nexthop4 po)
      (po_default_nexthop6 po) (po_default_nexthop6_linklocal po) (po_no_nexthop_check4 po)
      (po_force_default_nexthop4 po) (po_no_nexthop_check6 po) (po_force_default_nexthop6 po)
      (po_ibgp_alter_nexthop po)).

Definition libbgp_fsm_set_no_collision_detection (disabled : bool) : fsm_proc unit :=
  set_policy (λ po,
    FsmPolicy (po_expected_peer_asn po) (po_allow_local_as po) (po_route_weight po)
      (po_enable_mpbgp_ipv4 po) disabled (po_in_filter4 po) (po_out_filter4 po) (po_in_filter6 po)
      (po_out_filter6 po) (po_peering_lan4 po) (po_peering_lan6 po) (po_default_nexthop4 po)
      (po_default_nexthop6 po) (po_default_nexthop6_linklocal po) (po_no_nexthop_check4 po)
      (po_force_default_nexthop4 po) (po_no_nexthop_check6 po) (po_force_default_nexthop6 po)
      (po_ibgp_alter_nexthop po)).

Definition libbgp_fsm_set_allow_local_as (allow_count : Z) : fsm_proc unit :=
  set_policy (λ po,
    FsmPolicy (po_expected_peer_asn po) allow_count (po_route_weight po) (po_enable_mpbgp_ipv4 po)
      (po_no_collision_detection po) (po_in_filter4 po) (po_out_filter4 po) (po_in_filter6 po)
      (po_out_filter6 po) (po_peering_lan4 po) (po_peering_lan6 po) (po_default_nexthop4 po)
      (po_default_nexthop6 po) (po_default_nexthop6_linklocal po) (po_no_nexthop_check4 po)
      (po_force_default_nexthop4 po) (po_no_nexthop_check6 po) (po_force_default_nexthop6 po)
      (po_ibgp_alter_nexthop po)).

Definition libbgp_fsm_set_route_weight (weight : Z) : fsm_proc unit :=
  set_policy (λ po,
    FsmPolicy (po_expected_peer_asn po) (po_allow_local_as po) weight (po_enable_mpbgp_ipv4 po)
      (po_no_collision_detection po) (po_in_filter4 po) (po_out_filter4 po) (po_in_filter6 po)
      (po_out_filter6 po) (po_peering_lan4 po) (po_peering_lan6 po) (po_default_nexthop4 po)
      (po_default_nexthop6 po) (po_default_nexthop6_linklocal po) (po_no_nexthop_check4 po)
      (po_force_default_nexthop4 po) (po_no_nexthop_check6 po) (po_force_default_nexthop6 po)
      (po_ibgp_alter_nexthop po)).

Definition libbgp_fsm_set_in_filter4 (f : option filter_impl_t) : fsm_proc unit :=
  set_policy (λ po,
    FsmPolicy (po_expected_peer_asn po) (po_allow_local_as po) (po_route_weight po)
      (po_enable_mpbgp_ipv4 po) (po_no_collision_detection po) f (po_out_filter4 po) (po_in_filter6 po)
      (po_out_filter6 po) (po_peering_lan4 po) (po_peering_lan6 po) (po_default_nexthop4 po)
      (po_default_nexthop6 po) (po_default_nexthop6_linklocal po) (po_no_nexthop_check4 po)
      (po_force_default_nexthop4 po) (po_no_nexthop_check6 po) (po_force_default_nexthop6 po)
      (po_ibgp_alter_nexthop po)).

Definition libbgp_fsm_set_out_filter4 (f : option filter_impl_t) : fsm_proc unit :=
  set_policy (λ po,
    FsmPolicy (po_expected_peer_asn po) (po_allow_local_as po) (po_route_weight po)
      (po_enable_mpbgp_ipv4 po) (po_no_collision_detection po) (po_in_filter4 po) f (po_in_filter6 po)
      (po_out_filter6 po) (po_peering_lan4 po) (po_peering_lan6 po) (po_default_nexthop4 po)
      (po_default_nexthop6 po) (po_default_nexthop6_linklocal po) (po_no_nexthop_check4 po)
      (po_force_default_nexthop4 po) (po_no_nexthop_check6 po) (po_force_default_nexthop6 po)
      (po_ibgp_alter_nexthop po)).

Definition libbgp_fsm_set_in_filter6 (f : option filter_impl_t) : fsm_proc unit :=
  set_policy (λ po,
    FsmPolicy (po_expected_peer_asn po) (po_allow_local_as po) (po_route_weight po)
      (po_enable_mpbgp_ipv4 po) (po_no_collision_detection po) (po_in_filter4 po) (po_out_filter4 po) f
      (po_out_filter6 po) (po_peering_lan4 po) (po_peering_lan6 po) (po_default_nexthop4 po)
      (po_default_nexthop6 po) (po_default_nexthop6_linklocal po) (po_no_nexthop_check4 po)
      (po_force_default_nexthop4 po) (po_no_nexthop_check6 po) (po_force_default_nexthop6 po)
      (po_ibgp_alter_nexthop po)).

Definition libbgp_fsm_set_out_filter6 (f : option filter_impl_t) : fsm_proc unit :=
  set_policy (λ po,
    FsmPolicy (po_expected_peer_asn po) (po_allow_local_as po) (po_route_weight po)
      (po_enable_mpbgp_ipv4 po) (po_no_collision_detection po) (po_in_filter4 po) (po_out_filter4 po)
      (po_in_filter6 po) f (po_peering_lan4 po) (po_peering_lan6 po) (po_default_nexthop4 po)
      (po_default_nexthop6 po) (po_default_nexthop6_linklocal po) (po_no_nexthop_check4 po)
      (po_force_default_nexthop4 po) (po_no_nexthop_check6 po) (po_force_default_nexthop6 po)
      (po_ibgp_alter_nexthop po)).

Definition libbgp_fsm_set_peering_lan4 (prefix : option libbgp_prefix4_t) : fsm_proc unit :=
  set_policy (λ po,
    FsmPolicy (po_expected_peer_asn po) (po_allow_local_as po) (po_route_weight po)
      (po_enable_mpbgp_ipv4 po) (po_no_collision_detection po) (po_in_filter4 po) (po_out_filter4 po)
      (po_in_filter6 po) (po_out_filter6 po) (default (Prefix4 0 0) prefix) (po_peering_lan6 po)
      (po_default_nexthop4 po) (po_default_nexthop6 po) (po_default_nexthop6_linklocal po)
      (po_no_nexthop_check4 po) (po_force_default_nexthop4 po) (po_no_nexthop_check6 po)
      (po_force_default_nexthop6 po) (po_ibgp_alter_nexthop po)).

Definition libbgp_fsm_set_no_nexthop_check4 (disabled : bool) : fsm_proc unit :=
  set_policy (λ po,
    FsmPolicy (po_expected_peer_asn po) (po_allow_local_as po) (po_route_weight po)
      (po_enable_mpbgp_ipv4 po) (po_no_collision_detection po) (po_in_filter4 po) (po_out_filter4 po)
      (po_in_filter6 po) (po_out_filter6 po) (po_peering_lan4 po) (po_peering_lan6 po)
      (po_default_nexthop4 po) (po_default_nexthop6 po) (po_default_nexthop6_linklocal po) disabled
      (po_force_default_nexthop4 po) (po_no_nexthop_check6 po) (po_force_default_nexthop6 po)
      (po_ibgp_alter_nexthop po)).

Definition libbgp_fsm_set_default_nexthop4 (next_hop : Z) : fsm_proc unit :=
  set_policy (λ po,
    FsmPolicy (po_expected_peer_asn po) (po_allow_local_as po) (po_route_weight po)
      (po_enable_mpbgp_ipv4 po) (po_no_collision_detection po) (po_in_filter4 po) (po_out_filter4 po)
      (po_in_filter6 po) (po_out_filter6 po) (po_peering_lan4 po) (po_peering_lan6 po) next_hop
      (po_default_nexthop6 po) (po_default_nexthop6_linklocal po) (po_no_nexthop_check4 po)
      (po_force_default_nexthop4 po) (po_no_nexthop_check6 po) (po_force_default_nexthop6 po)
      (po_ibgp_alter_nexthop po)).

Definition libbgp_fsm_set_force_default_nexthop4 (forced : bool) : fsm_proc unit :=
  set_policy (λ po,
    FsmPolicy (po_expected_peer_asn po) (po_allow_local_as po) (po_route_weight po)
      (po_enable_mpbgp_ipv4 po) (po_no_collision_detection po) (po_in_filter4 po) (po_out_filter4 po)
      (po_in_filter6 po) (po_out_filter6 po) (po_peering_lan4 po) (po_peering_lan6 po)
      (po_default_nexthop4 po) (po_default_nexthop6 po) (po_default_nexthop6_linklocal po)
      (po_no_nexthop_check4 po) forced (po_no_nexthop_check6 po) (po_force_default_nexthop6 po)
      (po_ibgp_alter_nexthop po)).

Definition libbgp_fsm_set_peering_lan6 (prefix : option libbgp_prefix6_t) : fsm_proc unit :=
  set_policy (λ po,
    FsmPolicy (po_expected_peer_asn po) (po_allow_local_as po) (po_route_weight po)
      (po_enable_mpbgp_ipv4 po) (po_no_collision_detection po) (po_in_filter4 po) (po_out_filter4 po)
      (po_in_filter6 po) (po_out_filter6 po) (po_peering_lan4 po)
      (default (Prefix6 (replicate 16 0) 0) prefix) (po_default_nexthop4 po) (po_default_nexthop6 po)
      (po_default_nexthop6_linklocal po) (po_no_nexthop_check4 po) (po_force_default_nexthop4 po)
      (po_no_nexthop_check6 po) (po_force_default_nexthop6 po) (po_ibgp_alter_nexthop po)).

Definition libbgp_fsm_set_no_nexthop_check6 (disabled : bool) : fsm_proc unit :=
  set_policy (λ po,
    FsmPolicy (po_expected_peer_asn po) (po_allow_local_as po) (po_route_weight po)
      (po_enable_mpbgp_ipv4 po) (po_no_collision_detection po) (po_in_filter4 po) (po_out_filter4 po)
      (po_in_filter6 po) (po_out_filter6 po) (po_peering_lan4 po) (po_peering_lan6 po)
      (po_default_nexthop4 po) (po_default_nexthop6 po) (po_default_nexthop6_linklocal po)
      (po_no_nexthop_check4 po) (po_force_default_nexthop4 po) disabled (po_force_default_nexthop6 po)
      (po_ibgp_alter_nexthop po)).

Definition libbgp_fsm_set_default_nexthop6 (next_hop : option (list Z)) : fsm_proc unit :=
  set_policy (λ po,
    FsmPolicy (po_expected_peer_asn po) (po_allow_local_as po) (po_route_weight po)
      (po_enable_mpbgp_ipv4 po) (po_no_collision_detection po) (po_in_filter4 po) (po_out_filter4 po)
      (po_in_filter6 po) (po_out_filter6 po) (po_peering_lan4 po) (po_peering_lan6 po)
      (po_default_nexthop4 po) (default (replicate 16 0) next_hop) (po_default_nexthop6_linklocal po)
      (po_no_nexthop_check4 po) (po_force_default_nexthop4 po) (po_no_nexthop_check6 po)
      (po_force_default_nexthop6 po) (po_ibgp_alter_nexthop po)).

Definition libbgp_fsm_set_default_nexthop6_linklocal (next_hop : option (list Z)) : fsm_proc unit :=
  set_policy (λ po,
    FsmPolicy (po_expected_peer_asn po) (po_allow_local_as po) (po_route_weight po)
      (po_enable_mpbgp_ipv4 po) (po_no_collision_detection po) (po_in_filter4 po) (po_out_filter4 po)
      (po_in_filter6 po) (po_out_filter6 po) (po_peering_lan4 po) (po_peering_lan6 po)
      (po_default_nexthop4 po) (po_default_nexthop6 po) (default (replicate 16 0) next_hop)
      (po_no_nexthop_check4 po) (po_force_default_nexthop4 po) (po_no_nexthop_check6 po)
      (po_force_default_nexthop6 po) (po_ibgp_alter_nexthop po)).

Definition libbgp_fsm_set_force_default_nexthop6 (forced : bool) : fsm_proc unit :=
  set_policy (λ po,
    FsmPolicy (po_expected_peer_asn po) (po_allow_local_as po) (po_route_weight po)
      (po_enable_mpbgp_ipv4 po) (po_no_collision_detection po) (po_in_filter4 po) (po_out_filter4 po)
      (po_in_filter6 po) (po_out_filter6 po) (po_peering_lan4 po) (po_peering_lan6 po)
      (po_default_nexthop4 po) (po_default_nexthop6 po) (po_default_nexthop6_linklocal po)
      (po_no_nexthop_check4 po) (po_force_default_nexthop4 po) (po_no_nexthop_check6 po) forced
      (po_ibgp_alter_nexthop po)).

Definition libbgp_fsm_set_ibgp_alter_nexthop (enabled : bool) : fsm_proc unit :=
  set_policy (λ po,
    FsmPolicy (po_expected_peer_asn po) (po_allow_local_as po) (po_route_weight po)
      (po_enable_mpbgp_ipv4 po) (po_no_collision_detection po) (po_in_filter4 po) (po_out_filter4 po)
      (po_in_filter6 po) (po_out_filter6 po) (po_peering_lan4 po) (po_peering_lan6 po)
      (po_default_nexthop4 po) (po_default_nexthop6 po) (po_default_nexthop6_linklocal po)
      (po_no_nexthop_check4 po) (po_force_default_nexthop4 po) (po_no_nexthop_check6 po)
      (po_force_default_nexthop6 po) enabled).

(** A null pointer stands for the internal table. *)
Definition libbgp_fsm_set_rib4 (rib4 : option Z) : fsm_proc unit :=
  with_handle tt (changing (set_links (λ ln,
    FsmLinks (Some (default INTERNAL_RIB rib4)) (ln_rib6 ln) (ln_bus ln) (ln_out ln)
      (ln_route_added_sub_id ln) (ln_route_withdrawn_sub_id ln) (ln_collision_sub_id ln)))).

Definition libbgp_fsm_set_rib6 (rib6 : option Z) : fsm_proc unit :=
  with_handle tt (changing (set_links (λ ln,
    FsmLinks (ln_rib4 ln) (Some (default INTERNAL_RIB rib6)) (ln_bus ln) (ln_out ln)
      (ln_route_added_sub_id ln) (ln_route_withdrawn_sub_id ln) (ln_collision_sub_id ln)))).

Definition libbgp_fsm_set_out_handler (out : option Z) : fsm_proc unit :=
  with_handle tt (changing (set_links (λ ln,
    FsmLinks (ln_rib4 ln) (ln_rib6 ln) (ln_bus ln) out
      (ln_route_added_sub_id ln) (ln_route_withdrawn_sub_id ln) (ln_collision_sub_id ln)))).

Definition libbgp_fsm_set_state_change_cb (cb : option Z) : fsm_proc unit :=
  with_handle tt (changing (λ s,
    let impl := sn_impl s in
    let nt := fs_notify impl in
    with_impl s (FsmImpl (fs_config impl) (fs_policy impl) (fs_state impl) (fs_peer impl) (fs_clock impl)
                   (fs_links impl) (fs_session_generation impl) (fs_pending impl)
                   (FsmNotify cb (nt_changes nt) (nt_dispatch_count nt))))).

(** ** Getters *)

Definition libbgp_fsm_state : fsm_proc libbgp_fsm_state_t :=
  with_handle LIBBGP_FSM_IDLE (reading (λ s, fs_state (sn_impl s))).
Definition libbgp_fsm_get_rib4 : fsm_proc (option Z) :=
  with_handle None (reading (λ s, ln_rib4 (fs_links (sn_impl s)))).
Definition libbgp_fsm_get_rib6 : fsm_proc (option Z) :=
  with_handle None (reading (λ s, ln_rib6 (fs_links (sn_impl s)))).
Definition libbgp_fsm_peer_asn : fsm_proc Z := with_handle 0 (reading (λ s, pe_asn (fs_peer (sn_impl s)))).
Definition libbgp_fsm_peer_bgp_id : fsm_proc Z :=
  with_handle 0 (reading (λ s, pe_bgp_id (fs_peer (sn_impl s)))).
Definition libbgp_fsm_negotiated_hold_time : fsm_proc Z :=
  with_handle 0 (reading (λ s, pe_hold_time (fs_peer (sn_impl s)))).

(** ** The event bus *)

(** [bgp_event_bus_subscribe_retained] with the session as context: the bus
    retains it and keeps the reference when it has an id. *)
Definition subscribe (bus : Z) (type : libbgp_event_type_t) : fsm_proc (Z + libbgp_err_t) :=
  Ref CtxRetain (λ retained,
    if retained then
      Act (IoSubscribe bus type) (λ r,
        match r with
        | inl id => Done (inl id)
        | inr e => Ref RefRelease (λ _, Done (inr e))
        end)
    else Done (inr LIBBGP_ERR_BAD_LEN)).

(** [libbgp_event_bus_unsubscribe]: the bus gives its reference back. *)
Definition unsubscribe (bus id : Z) : fsm_proc unit :=
  if id =? 0 then mret tt
  else Act (IoUnsubscribe bus id) (λ found, if (found : bool) then Ref RefRelease (λ _, Done tt) else Done tt).

Definition fsm_unsubscribe_route_events (bus : option Z) (ids : Z * Z * Z) : fsm_proc unit :=
  match bus with
  | None => mret tt
  | Some bus =>
      let '(route_added, route_withdrawn, collision) := ids in
      unsubscribe bus route_added;; unsubscribe bus route_withdrawn;; unsubscribe bus collision
  end.

Definition sub_ids (ln : fsm_links) : Z * Z * Z :=
  (ln_route_added_sub_id ln, ln_route_withdrawn_sub_id ln, ln_collision_sub_id ln).

Definition set_bus (bus : option Z) (ids : Z * Z * Z) (ln : fsm_links) : fsm_links :=
  FsmLinks (ln_rib4 ln) (ln_rib6 ln) bus (ln_out ln) ids.1.1 ids.1.2 ids.2.

(** The lock is not held while the old bus is left and the new one joined.
    When the first subscription fails the second is not tried but the third
    is, as the error of the second is still clear. *)
Definition join_bus (bus : Z) : fsm_proc (Z * Z * Z) :=
  add ← subscribe bus LIBBGP_EVENT_ROUTE_ADDED;
  withdraw ← (match add with
              | inl _ => subscribe bus LIBBGP_EVENT_ROUTE_WITHDRAWN
              | inr _ => mret (inl 0)
              end);
  collision ← (match withdraw with
               | inl _ => subscribe bus LIBBGP_EVENT_COLLISION
               | inr _ => mret (inl 0)
               end);
  match add, withdraw, collision with
  | inl a, inl w, inl c => mret (a, w, c)
  | _, _, _ =>
      let id r := match r with inl id => id | inr _ => 0 end in
      fsm_unsubscribe_route_events (Some bus) (id add, id withdraw, id collision);;
      mret (0, 0, 0)
  end.

Definition libbgp_fsm_set_event_bus (bus : option Z) : fsm_proc unit :=
  with_handle tt (
    '(old_bus, old_ids) ← Locked (λ s,
      let ln := fs_links (sn_impl s) in
      (set_links (set_bus None (0, 0, 0)) s, Done (ln_bus ln, sub_ids ln)));
    fsm_unsubscribe_route_events old_bus old_ids;;
    ids ← (match bus with Some bus => join_bus bus | None => mret (0, 0, 0) end);
    Locked (λ s,
      if sn_destroy_started s then (s, fsm_unsubscribe_route_events bus ids)
      else (set_links (set_bus bus ids) s, mret tt))).

(** ** Destroying *)

(** The callback and the queue are dropped, the bus is left, routes that an
    established session put into the tables are removed. *)
Definition begin_destroy (s : session) : session :=
  let impl := sn_impl s in
  let impl :=
    FsmImpl (fs_config impl) (fs_policy impl) (fs_state impl) (fs_peer impl) (fs_clock impl)
      (set_bus None (0, 0, 0) (fs_links impl)) (fs_session_generation impl) (fs_pending impl)
      (FsmNotify None [] (nt_dispatch_count (fs_notify impl))) in
  Session impl (sn_refcount s) true (sn_bus_refs s) (sn_handle s) (sn_freed s) (sn_rib4 s) (sn_rib6 s)
    (sn_out s) (sn_heap s).

Definition libbgp_fsm_destroy : fsm_proc unit :=
  Ref HandleTake (λ had,
    if had then
      Locked (λ s,
        let impl := sn_impl s in
        let ln := fs_links impl in
        let peer_bgp_id := pe_bgp_id (fs_peer impl) in
        let discard_routes :=
          bool_decide (fs_state impl = LIBBGP_FSM_ESTABLISHED) && negb (peer_bgp_id =? 0) in
        (begin_destroy s,
         fsm_unsubscribe_route_events (ln_bus ln) (sub_ids ln);;
         (if discard_routes then fsm_discard_peer_routes (ln_rib4 ln) (ln_rib6 ln) peer_bgp_id
          else mret tt);;
         Ref RefRelease (λ _, Done tt)))
    else Done tt).
End Object.
