(* ===== verification/FsmSample.v ===== *)
(** * A session for the examples

    A session as [libbgp_fsm_init] leaves it when the allocator grants
    everything, with an output handler attached and empty tables. *)

From stdpp Require Import gmap.
From S2P Require Import Prelude Bytes Prefix4 Prefix6 Radix Hashmap Rib RibTable Rib46 Fsm Out Proc FsmSession FsmForward FsmHandlers FsmObject.

Section FreshTable.
Context {family : Family}.

Definition fresh_map {K V : Type} : bgp_hashmap_t K V := HashMap (replicate 16 []) 16 0.
Definition fresh_table : rib_impl_t := RibImpl fresh_map fresh_map fresh_map radix_init 0 ∅ ∅ 1.

Lemma fresh_table_init : libbgp_rib_init [] = (Ret fresh_table, []).
Proof. reflexivity. Qed.
End FreshTable.

Definition sample_config (asn bgp_id : Z) : libbgp_fsm_config := FsmConfig asn bgp_id 90 30 true true.
Definition sample_out : Z := 7.
Definition sample_target : io_target := IoFd 1.

Section Sample.
Context {host : Host}.

Definition attach_out (impl : fsm_impl_t) (out : Z) : fsm_impl_t :=
  let ln := fs_links impl in
  FsmImpl (fs_config impl) (fs_policy impl) (fs_state impl) (fs_peer impl) (fs_clock impl)
    (FsmLinks (ln_rib4 ln) (ln_rib6 ln) (ln_bus ln) (Some out) 0 0 0) (fs_session_generation impl)
    (fs_pending impl) (fs_notify impl).

Definition fresh_session (config : libbgp_fsm_config) : session :=
  fsm_created (new_impl config) (fresh_table (family := family4)) (fresh_table (family := family6)) ∅ ∅
    {[ sample_out := Some (OutHandler 1 false no_ops) ]} [].

Definition sample (asn bgp_id : Z) : session :=
  let s := fresh_session (sample_config asn bgp_id) in
  with_impl s (attach_out (sn_impl s) sample_out).

(** It is what the calls of the interface make. *)
Lemma fresh_init config :
  libbgp_fsm_init (Some config) [] =
  (Ret (new_impl config, fresh_table (family := family4), fresh_table (family := family6)), []).
Proof. reflexivity. Qed.

Lemma sample_attached env n asn bgp_id :
  run fsm_ref_op env n (libbgp_fsm_set_out_handler (Some sample_out)) (fresh_session (sample_config asn bgp_id)) =
  (inl tt, sample asn bgp_id, []).
Proof. reflexivity. Qed.
End Sample.
