(* ===== verification/FsmInv.v ===== *)
(** * The session: invariant and allowed steps

    What holds of a session at every moment nobody holds its lock, and how one
    critical section may change it, for every entry point of [FsmHandlers],
    [FsmForward] and [FsmObject] and under any interleaving of them. *)

From stdpp Require Import gmap.
From S2P Require Import Prelude Bytes Prefix4 Prefix6 Open Notification Pattr Update As4 Packet Filter Event Hashmap Rib RibTable Rib46 Fsm FsmUpdate Out Proc ProcSpec FsmSession FsmForward FsmHandlers FsmObject.

(** ** The invariant *)

(** What an accepted OPEN leaves behind. *)
Record peer_ok (config : libbgp_fsm_config) (peer : fsm_peer) : Prop := PeerOk {
  pk_id : fsm_valid_peer_bgp_id (pe_bgp_id peer) (cfg_local_bgp_id config) = true;
  pk_hold : pe_hold_time peer = 0 ∨ 3 <= pe_hold_time peer <= cfg_hold_time config;
  pk_mpbgp : pe_mpbgp_ipv6 peer = pe_send_ipv6_routes peer;
  pk_send6 : pe_send_ipv6_routes peer = true → cfg_enable_mpbgp_ipv6 config = true;
  pk_as4 : pe_4byte_asn peer = true → cfg_enable_4byte_asn config = true;
  pk_as4_path : pe_can_send_as4_path peer = cfg_enable_4byte_asn config && negb (pe_4byte_asn peer);
  pk_config : fsm_local_open_config_valid config = true
}.

(** A KEEPALIVE that overtakes the own one is noted only while the own one is
    on its way. *)
Definition pending_ok (pd : fsm_pending) : Prop :=
  pd_local_keepalive pd = true → pd_local_keepalive_send pd = true.

(** There is a peer. *)
Definition has_peer (state : libbgp_fsm_state_t) : bool := fsm_state_hold_timer_active state.

Record impl_ok (config : libbgp_fsm_config) (impl : fsm_impl_t) : Prop := ImplOk {
  io_config : fs_config impl = config;
  io_no_peer : has_peer (fs_state impl) = false → fs_peer impl = no_peer;
  io_peer : has_peer (fs_state impl) = true → peer_ok config (fs_peer impl);
  io_no_pending : fs_state impl ≠ LIBBGP_FSM_OPEN_CONFIRM → fs_pending impl = no_pending;
  io_pending : pending_ok (fs_pending impl);
  io_queue : zlen (nt_changes (fs_notify impl)) <= FSM_STATE_CHANGE_QUEUE_CAP;
  io_generation : is_u64 (fs_session_generation impl)
}.

(** ** The allowed steps *)

(** The state diagram.  Every state has the way to IDLE: a stop, a reset, a
    NOTIFICATION, an error.  An OPEN is accepted before or after the own OPEN
    was sent, in no other state; [late] is the one exception, a section that
    goes on after the session was left alone with a collision event and does
    not look at the state again. *)
Inductive fsm_edge (late : Prop) : libbgp_fsm_state_t -> libbgp_fsm_state_t -> Prop :=
  | edge_down st : fsm_edge late st LIBBGP_FSM_IDLE
  | edge_connect st : fsm_state_pre_open st = true → fsm_edge late st LIBBGP_FSM_CONNECT
  | edge_active st : fsm_state_pre_open st = true → fsm_edge late st LIBBGP_FSM_ACTIVE
  | edge_start st : fsm_state_pre_open st = true → fsm_edge late st LIBBGP_FSM_OPEN_SENT
  | edge_start_failed st : fsm_state_pre_open st = true → fsm_edge late LIBBGP_FSM_OPEN_SENT st
  | edge_passive_open st : fsm_state_pre_open st = true → fsm_edge late st LIBBGP_FSM_OPEN_CONFIRM
  | edge_open : fsm_edge late LIBBGP_FSM_OPEN_SENT LIBBGP_FSM_OPEN_CONFIRM
  | edge_established : fsm_edge late LIBBGP_FSM_OPEN_CONFIRM LIBBGP_FSM_ESTABLISHED
  | edge_late st : late → fsm_edge late st LIBBGP_FSM_OPEN_CONFIRM.

(** A section leaves state and peer alone, or it starts a new generation. *)
Definition same_session (impl impl' : fsm_impl_t) : Prop :=
  fs_session_generation impl' = fs_session_generation impl ∧ fs_state impl' = fs_state impl ∧
  fs_peer impl' = fs_peer impl.

Definition next_session (late : Prop) (impl impl' : fsm_impl_t) : Prop :=
  fs_session_generation impl' = u64 (fs_session_generation impl + 1) ∧
  fsm_edge late (fs_state impl) (fs_state impl').

Definition impl_step (late : Prop) (impl impl' : fsm_impl_t) : Prop :=
  same_session impl impl' ∨ next_session late impl impl'.

(** The pair that has to be shown of a section: the invariant and the step. *)
Definition impl_keeps (late : Prop) (config : libbgp_fsm_config) (impl impl' : fsm_impl_t) : Prop :=
  impl_ok config impl' ∧ impl_step late impl impl'.
#[global] Arguments impl_keeps {late} config impl impl'.

Section Steps.
Context {late : Prop}.
#[local] Abbreviation fsm_edge := (fsm_edge late).
#[local] Abbreviation impl_step := (impl_step late).
#[local] Abbreviation impl_keeps := (impl_keeps (late := late)).

Lemma impl_keeps_refl config impl : impl_ok config impl → impl_keeps config impl impl.
Proof. intros H. split; [done|]. by left. Qed.

Lemma u64_range x : is_u64 (u64 x).
Proof. unfold is_u64, u64. pose proof (Z.mod_pos_bound x (2 ^ 64)). lia. Qed.

(** *** The queue *)

Lemma length_merge_last changes state : length (merge_last changes state) = length changes.
Proof.
  induction changes as [|c changes IH]; [done|]. destruct changes as [|c' changes']; [done|].
  change (merge_last (c :: c' :: changes') state) with (c :: merge_last (c' :: changes') state).
  simpl in *. by rewrite IH.
Qed.

Lemma queue_change_bound nt old state :
  zlen (nt_changes nt) <= FSM_STATE_CHANGE_QUEUE_CAP →
  zlen (nt_changes (queue_change nt old state)) <= FSM_STATE_CHANGE_QUEUE_CAP.
Proof.
  intros H. unfold queue_change. destruct (nt_cb nt); [|done].
  destruct (Z.leb_spec FSM_STATE_CHANGE_QUEUE_CAP (zlen (nt_changes nt))); simpl.
  - by rewrite length_merge_last.
  - rewrite length_app. simpl. lia.
Qed.

Lemma set_state_queue impl state :
  zlen (nt_changes (fs_notify impl)) <= FSM_STATE_CHANGE_QUEUE_CAP →
  zlen (nt_changes (fs_notify (fsm_set_state impl state))) <= FSM_STATE_CHANGE_QUEUE_CAP.
Proof. intros H. unfold fsm_set_state. case_decide; [done|]. by apply queue_change_bound. Qed.

(** What [fsm_set_state] leaves alone. *)
Lemma set_state_fields impl state :
  fs_state (fsm_set_state impl state) = state ∧ fs_config (fsm_set_state impl state) = fs_config impl ∧
  fs_peer (fsm_set_state impl state) = fs_peer impl ∧
  fs_pending (fsm_set_state impl state) = fs_pending impl ∧
  fs_links (fsm_set_state impl state) = fs_links impl ∧
  fs_policy (fsm_set_state impl state) = fs_policy impl ∧
  fs_clock (fsm_set_state impl state) = fs_clock impl ∧
  fs_session_generation (fsm_set_state impl state) = fs_session_generation impl.
Proof. unfold fsm_set_state. case_decide; by subst. Qed.

(** *** The changes of the structure *)

(** Back to a session without a peer. *)
Lemma forget_keeps config impl state :
  impl_ok config impl → has_peer state = false → fsm_edge (fs_state impl) state →
  impl_keeps config impl (forget_peer (fsm_set_state impl state)).
Proof.
  intros Hok Hst Hedge. destruct (set_state_fields impl state) as (H1 & H2 & H3 & H4 & _ & _ & _ & H5).
  split; [|right; split; simpl; rewrite ?H1, ?H5; [done|done]].
  split; simpl; try done.
  - rewrite H2. apply Hok.
  - rewrite H1. congruence.
  - apply set_state_queue, Hok.
  - apply u64_range.
Qed.

Lemma teardown_keeps config impl : impl_ok config impl → impl_keeps config impl (fsm_snapshot_teardown impl).
Proof. intros Hok. apply forget_keeps; [done|done|apply edge_down]. Qed.

(** The peer is kept. *)
Lemma next_generation_keeps config impl state :
  impl_ok config impl → has_peer state = has_peer (fs_state impl) → fsm_edge (fs_state impl) state →
  impl_keeps config impl (next_generation impl state).
Proof.
  intros Hok Hst Hedge. destruct (set_state_fields impl state) as (H1 & H2 & H3 & H4 & _ & _ & _ & H5).
  split; [|right; split; simpl; rewrite ?H1, ?H5; [done|done]].
  split; simpl; rewrite ?H1, ?H2, ?H3, ?Hst; try apply Hok; try done.
  - apply set_state_queue, Hok.
  - apply u64_range.
Qed.

(** Fields the invariant says nothing about, and the marks. *)
Lemma pending_keeps config impl pd :
  impl_ok config impl → fs_state impl = LIBBGP_FSM_OPEN_CONFIRM → pending_ok pd →
  impl_keeps config impl (set_pending impl pd).
Proof. intros Hok Hst Hpd. split; [|by left]. split; simpl; try apply Hok; try done. Qed.

Lemma clock_keeps config impl ck : impl_ok config impl → impl_keeps config impl (set_clock impl ck).
Proof. intros Hok. split; [|by left]. split; apply Hok. Qed.

Lemma impl_step_trans_same impl1 impl2 impl3 :
  same_session impl1 impl2 → impl_step impl2 impl3 → impl_step impl1 impl3.
Proof.
  intros (Hg & Hs & Hp) [(Hg' & Hs' & Hp')|[Hg' Hs']]; [left|right]; unfold same_session, next_session.
  - by rewrite Hg', Hs', Hp'.
  - by rewrite Hg', <-Hg, <-Hs.
Qed.
End Steps.

(** Who has no reason to be late follows the diagram proper. *)
Lemma impl_step_late late impl impl' :
  impl_step late impl impl' →
  impl_step False impl impl' ∨
  late ∧ fs_session_generation impl' = u64 (fs_session_generation impl + 1) ∧ fs_state impl' = LIBBGP_FSM_OPEN_CONFIRM.
Proof.
  intros [H|[Hg He]]; [by left; left|]. unfold impl_step, next_session.
  destruct He; try (left; right; split; [done|]; by constructor). by right.
Qed.

(** ** Programs *)

Section Inv.
Context {host : Host} (config : libbgp_fsm_config).

Definition session_ok (s : session) : Prop := impl_ok config (sn_impl s).

(** The section goes on after the answer to a collision event. *)
Definition after_collision (last : option fsm_io) : Prop :=
  ∃ bus publisher event, last = Some (IoPublish bus publisher event) ∧ ev_type event = LIBBGP_EVENT_COLLISION.

Definition session_step (last : option fsm_io) (s s' : session) : Prop :=
  impl_step (after_collision last) (sn_impl s) (sn_impl s').

#[export] Instance session_step_relaxed : Relaxed session_step.
Proof.
  intros last s s' H. unfold session_step in *. apply impl_step_late in H as [[H|[Hg He]]|[(? & ? & ? & ? & _) _]]; [by left| |done].
  right. split; [done|]. by destruct He; try done; constructor.
Qed.

#[local] Abbreviation fsm_keeps := (@keeps session fsm_io fsm_ref io_answer fsm_ref_op session_ok session_step).
#[local] Abbreviation fsm_section := (@section_keeps session fsm_io fsm_ref io_answer fsm_ref_op session_ok session_step).

Lemma keeps_bind {A B} (p : fsm_proc A) (k : A -> fsm_proc B) :
  fsm_keeps p → (∀ a, fsm_keeps (k a)) → fsm_keeps (p ≫= k).
Proof. apply prog_keeps_bind, _. Qed.

Lemma keeps_act {A} a (k : io_answer a -> fsm_proc A) : (∀ r, fsm_keeps (k r)) → fsm_keeps (Act a k).
Proof. apply prog_keeps_act, _. Qed.

Lemma step_refl s : session_step None s s.
Proof. by left. Qed.

(** A section whose effect on the structure is a known one. *)
Lemma section_of {A} (f : fsm_locked A) :
  (∀ s, session_ok s →
     impl_keeps (late := after_collision None) config (sn_impl s) (sn_impl (f s).1) ∧ fsm_keeps (f s).2) →
  fsm_section f.
Proof. intros Hf s Hs. destruct (Hf s Hs) as [[? ?] ?]. auto. Qed.

Lemma section_quiet {A} (f : fsm_locked A) :
  (∀ s, sn_impl (f s).1 = sn_impl s ∧ fsm_keeps (f s).2) → fsm_section f.
Proof.
  intros Hf. apply section_of. intros s Hs. destruct (Hf s) as [-> Hk].
  split; [by apply impl_keeps_refl|done].
Qed.

(** Allocating and table work is invisible to the invariant. *)
Lemma section_allocating {A B} (m : M A) (k : A + libbgp_err_t -> fsm_locked B) :
  (∀ r, fsm_section (k r)) → fsm_section (allocating m k).
Proof.
  intros Hk s Hs. unfold allocating. destruct (m (sn_heap s)) as [[a|e|f] heap].
  - apply (Hk (inl a) (with_heap s heap) Hs).
  - apply (Hk (inr e) (with_heap s heap) Hs).
  - split; [exact Hs|]. split; [by left|done].
Qed.

Lemma section_on_tables {A B} rib4 rib6 m (k : A + libbgp_err_t -> fsm_locked B) :
  (∀ r, fsm_section (k r)) → fsm_section (on_tables rib4 rib6 m k).
Proof.
  intros Hk s Hs. unfold on_tables.
  destruct (deref_table (sn_rib4 s) rib4) as [t4|], (deref_table (sn_rib6 s) rib6) as [t6|];
    try (split; [exact Hs|]; split; [by left|done]).
  apply section_allocating; [|done]. intros [[[t4' t6'] a]|e] s' Hs'; [|by apply Hk].
  apply (Hk (inl a) (with_ribs s' _ _) Hs').
Qed.

Lemma keeps_calling {A} (m : M A) : fsm_keeps (calling m).
Proof. apply keeps_locked, section_allocating. intros r. by apply section_quiet. Qed.

Lemma keeps_with_tables rib4 rib6 m : fsm_keeps (with_tables rib4 rib6 m).
Proof. apply keeps_locked, section_on_tables. intros r. by apply section_quiet. Qed.

Lemma keeps_read {A} (f : session -> A) : fsm_keeps (reading f).
Proof. apply keeps_reading, step_refl. Qed.
End Inv.

Create HintDb fsm_keeps.
#[export] Hint Resolve keeps_ret keeps_calling keeps_with_tables keeps_read : fsm_keeps.

(** Walks through a program: binds, branches, calls to the outside; leaves the
    sections. *)
Ltac keeps_walk :=
  repeat first
    [ done
    | solve [auto 1 with fsm_keeps nocore]
    | progress intros
    | match goal with
      | |- keeps _ _ _ (_ ≫= _) => apply keeps_bind
      | |- keeps _ _ _ (mret _) => apply keeps_ret
      | |- keeps _ _ _ (Act _ _) => apply keeps_act
      | |- keeps _ _ _ (match ?x with _ => _ end) => destruct x
      end ].

Section Programs.
Context {host : Host} (config : libbgp_fsm_config).
#[local] Abbreviation fsm_keeps := (@keeps session fsm_io fsm_ref io_answer fsm_ref_op (session_ok config) session_step).
#[local] Abbreviation fsm_section := (@section_keeps session fsm_io fsm_ref io_answer fsm_ref_op (session_ok config) session_step).

Lemma keeps_drain : fsm_keeps drain_state_changes.
Proof.
  apply keeps_locked, section_of. intros s Hs. split; [|done]. split; [|by left].
  destruct Hs. by split.
Qed.

Lemma keeps_dispatch_changes cb changes : fsm_keeps (dispatch_changes cb changes).
Proof. induction changes as [|c changes IH]; cbn [dispatch_changes]; keeps_walk. Qed.

Lemma keeps_dispatch_drained d : fsm_keeps (fsm_dispatch_drained_state_changes d).
Proof.
  destruct d as [[cb|] changes]; unfold fsm_dispatch_drained_state_changes; keeps_walk;
    try apply keeps_dispatch_changes;
    (apply keeps_changing; intros s Hs; split; [by destruct Hs|by left]).
Qed.

Lemma keeps_dispatch : fsm_keeps fsm_dispatch_state_changes_impl.
Proof. apply keeps_bind; [apply keeps_drain|]. apply keeps_dispatch_drained. Qed.

Lemma keeps_out_send out buf : fsm_keeps (out_send out buf).
Proof.
  apply keeps_locked, section_quiet. intros s. destruct (sn_out s !! out) as [handler|]; [|done].
  by destruct (libbgp_out_handler_send handler buf).
Qed.

Lemma keeps_send_loop fuel out rest : fsm_keeps (send_loop fuel out rest).
Proof.
  revert rest. induction fuel as [|fuel IH]; intros rest; cbn [send_loop]; keeps_walk. apply keeps_out_send.
Qed.

Lemma keeps_send_packet out pkt : fsm_keeps (fsm_send_packet out pkt).
Proof. unfold fsm_send_packet. keeps_walk. apply keeps_send_loop. Qed.

Lemma keeps_send_keepalive out : fsm_keeps (fsm_send_keepalive out).
Proof. apply keeps_send_packet. Qed.

Lemma keeps_send_notification out code subcode : fsm_keeps (fsm_send_notification out code subcode).
Proof. apply keeps_send_packet. Qed.

Lemma keeps_send_open out cfg mp4 : fsm_keeps (fsm_send_open out cfg mp4).
Proof. unfold fsm_send_open. keeps_walk. apply keeps_send_packet. Qed.

Lemma keeps_publish bus publisher event : fsm_keeps (publish bus publisher event).
Proof. unfold publish. keeps_walk. Qed.
End Programs.

#[export] Hint Resolve keeps_drain keeps_dispatch_drained keeps_dispatch keeps_send_packet
  keeps_send_keepalive keeps_send_notification keeps_send_open keeps_publish : fsm_keeps.
