(* ===== verification/FsmKeeps.v ===== *)
(** * The session: every entry point keeps the invariant *)

From stdpp Require Import gmap.
From S2P Require Import Prelude Bytes Prefix4 Prefix6 Open Notification Pattr Update As4 Packet Filter Event Hashmap Rib RibTable Rib46 Fsm FsmUpdate Out Proc ProcSpec FsmSession FsmForward FsmHandlers FsmObject FsmInv.

Section Keeps.
Context {host : Host} (config : libbgp_fsm_config).
#[local] Abbreviation fsm_keeps :=
  (@keeps session fsm_io fsm_ref io_answer fsm_ref_op (session_ok config) session_step).
#[local] Abbreviation fsm_section :=
  (@section_keeps session fsm_io fsm_ref io_answer fsm_ref_op (session_ok config) session_step).

(** ** Publishing and ending a session *)

Lemma keeps_publish_route4 bus publisher route :
  fsm_keeps (fsm_publish_route4_added_snapshot bus publisher route).
Proof. unfold fsm_publish_route4_added_snapshot, fsm_publish_event. keeps_walk. Qed.

Lemma keeps_publish_route6 bus publisher route :
  fsm_keeps (fsm_publish_route6_added_snapshot bus publisher route).
Proof. unfold fsm_publish_route6_added_snapshot, fsm_publish_event6. keeps_walk. Qed.

Lemma keeps_publish_entry generation has_event k :
  (∀ a w, fsm_keeps (k a w)) → fsm_keeps (publish_entry generation has_event k).
Proof. intros Hk. unfold publish_entry, fsm_publish_snapshot_current. keeps_walk. Qed.

Lemma keeps_publish_event_ref generation bus peer journal r :
  fsm_keeps (publish_event_ref generation bus peer journal r).
Proof.
  unfold publish_event_ref, fsm_publish_event, fsm_publish_event6.
  destruct (er_kind r); case_match; try done; apply keeps_publish_entry; intros a w;
    keeps_walk; auto using keeps_publish_route4, keeps_publish_route6.
Qed.

Lemma keeps_publish_event_refs generation bus peer journal refs :
  fsm_keeps (publish_event_refs generation bus peer journal refs).
Proof.
  induction refs as [|r refs IH]; cbn [publish_event_refs]; [done|].
  apply keeps_bind; [apply keeps_publish_event_ref|]. keeps_walk.
Qed.

Lemma keeps_each {A} (f : A -> fsm_proc unit) xs : (∀ x, fsm_keeps (f x)) → fsm_keeps (each f xs).
Proof. intros Hf. induction xs as [|x xs IH]; cbn [each]; keeps_walk. Qed.

Lemma keeps_discard_publish bus rib4 rib6 peer :
  fsm_keeps (fsm_discard_peer_routes_publish bus rib4 rib6 peer).
Proof.
  unfold fsm_discard_peer_routes_publish, publish_discarded4, publish_discarded6.
  apply keeps_bind; [|intros _]; apply keeps_locked, section_on_tables; intros r; apply section_quiet;
    intros s; (split; [done|]); cbn [snd]; case_match; keeps_walk; apply keeps_each; intros;
    try apply keeps_publish_route4; try apply keeps_publish_route6; apply keeps_publish.
Qed.

Lemma keeps_discard rib4 rib6 peer : fsm_keeps (fsm_discard_peer_routes rib4 rib6 peer).
Proof. apply keeps_with_tables. Qed.

Lemma keeps_discard_torn_down td : fsm_keeps (discard_torn_down td).
Proof. apply keeps_discard_publish. Qed.

Lemma keeps_session_down bus : fsm_keeps (session_down bus).
Proof. apply keeps_publish. Qed.
End Keeps.

#[export] Hint Resolve keeps_publish_route4 keeps_publish_route6 keeps_publish_event_refs
  keeps_discard_torn_down keeps_session_down keeps_discard : fsm_keeps.

(** Shows of a section that tears the session down, and of what follows. *)
Ltac teardown_section :=
  cbn [teardown fst snd with_impl sn_impl]; split; [by apply teardown_keeps|keeps_walk].

Section Forwarding.
Context {host : Host} (config : libbgp_fsm_config).
#[local] Abbreviation fsm_keeps :=
  (@keeps session fsm_io fsm_ref io_answer fsm_ref_op (session_ok config) session_step).
#[local] Abbreviation fsm_section :=
  (@section_keeps session fsm_io fsm_ref io_answer fsm_ref_op (session_ok config) session_step).

Lemma keeps_teardown_current generation : fsm_keeps (fsm_teardown_current_established generation).
Proof.
  apply keeps_locked, section_of. intros s Hs. case_match; [teardown_section|].
  split; [by apply impl_keeps_refl|done].
Qed.

Lemma keeps_send_prepared out update to policy :
  fsm_keeps (fsm_send_prepared_update out update to policy).
Proof. unfold fsm_send_prepared_update, fsm_send_borrowed_update. destruct to as [[??]?]. keeps_walk. Qed.

Lemma keeps_send_route_event out event to policy :
  fsm_keeps (fsm_send_route_event_update out event to policy).
Proof.
  unfold fsm_send_route_event_update, fsm_send_route_added4, fsm_send_route_added6, fsm_send_withdraw4,
    fsm_send_withdraw6.
  repeat case_match; keeps_walk; apply keeps_send_prepared.
Qed.

Lemma keeps_advertise_route snap source ibgp permits to_update :
  fsm_keeps (advertise_route snap source ibgp permits to_update).
Proof.
  unfold advertise_route, fsm_established_snapshot_current. keeps_walk. apply keeps_send_prepared.
Qed.

Lemma keeps_advertise_all {R} (cb : R -> fsm_proc (bool * libbgp_err_t)) routes :
  (∀ r, fsm_keeps (cb r)) → fsm_keeps (advertise_all cb routes).
Proof. intros Hcb. induction routes as [|r routes IH]; cbn [advertise_all]; keeps_walk. Qed.

Lemma keeps_advertise4 snap : fsm_keeps (fsm_advertise_existing_rib4 snap).
Proof.
  unfold fsm_advertise_existing_rib4. repeat case_match; try done.
  apply keeps_locked. intros s Hs. case_match; [|by split; [|split; [left|]]].
  apply section_allocating; [|done]. intros [[snapshots e]|e]; apply section_quiet; intros s'; [|done].
  split; [done|]. cbn [snd]. keeps_walk. apply keeps_advertise_all. intros route. apply keeps_advertise_route.
Qed.

Lemma keeps_advertise6 snap : fsm_keeps (fsm_advertise_existing_rib6 snap).
Proof.
  unfold fsm_advertise_existing_rib6. repeat case_match; try done.
  apply keeps_locked. intros s Hs. case_match; [|by split; [|split; [left|]]].
  apply section_allocating; [|done]. intros [[snapshots e]|e]; apply section_quiet; intros s'; [|done].
  split; [done|]. cbn [snd]. keeps_walk. apply keeps_advertise_all. intros route.
  unfold fsm_advertise_rib6_cb, fsm_established_snapshot_current. keeps_walk. apply keeps_advertise_route.
Qed.

Lemma keeps_run_established snap : fsm_keeps (fsm_run_established_actions snap).
Proof.
  unfold fsm_run_established_actions, fsm_established_snapshot_current, fsm_publish_event. cbv zeta.
  keeps_walk; auto using keeps_advertise4, keeps_advertise6, keeps_teardown_current.
Qed.

Lemma keeps_collision_cb event : fsm_keeps (fsm_collision_event_cb event).
Proof.
  apply keeps_locked, section_of. intros s Hs. unfold teardown.
  repeat case_match; try (split; [by apply impl_keeps_refl|done]); teardown_section.
Qed.

Lemma keeps_route_event_cb event : fsm_keeps (fsm_route_event_cb event).
Proof.
  unfold fsm_route_event_cb, forward_route_event.
  case_match; try done; keeps_walk;
    auto using keeps_collision_cb, keeps_send_route_event, keeps_teardown_current.
Qed.

(** What a section that goes on after [last] has to show of the state it
    finds; [section_after] is that for every state. *)
Definition section_at {A} (last : option fsm_io) (f : fsm_locked A) (s : session) : Prop :=
  session_ok config (f s).1 ∧ session_step last s (f s).1 ∧ fsm_keeps (f s).2.

(** The collision check continues in the same section or, after the event, in
    a new one. *)
Lemma section_collision {A} peer_bgp_id (k : option (option Z) -> fsm_locked A) s :
  session_ok config s → section_at None (k None) s →
  (∀ last s', session_ok config s' → after_collision last → section_at last (k None) s') →
  (∀ s' out, session_ok config s' →
     let s'' := with_impl s' (fsm_snapshot_teardown (sn_impl s')) in
     sn_impl (k (Some out) s'').1 = sn_impl s'' ∧ fsm_keeps (k (Some out) s'').2) →
  section_at None (fsm_collision_reject_new_locked peer_bgp_id k) s.
Proof.
  intros Hs Hhere Hlate Hsome. unfold section_at, fsm_collision_reject_new_locked.
  destruct (ln_bus _) as [bus|]; [|done]. destruct (po_no_collision_detection _); [done|].
  split; [done|]. split; [by left|]. cbn [snd]. intros handled. apply keeps_after_locked. intros s1 Hs1. cbv beta.
  case_match; [|by apply Hlate; [|eexists _, _, _]].
  destruct (Hsome s1 (ln_out (fs_links (sn_impl s1))) Hs1) as [Heq Hk]. cbn [teardown td_out].
  destruct (teardown_keeps (late := after_collision None) config (sn_impl s1) Hs1) as [Hok Hstep].
  unfold session_ok. rewrite Heq. split; [exact Hok|]. split; [|exact Hk].
  apply session_step_relaxed. unfold session_step. rewrite Heq. exact Hstep.
Qed.
End Forwarding.

#[export] Hint Resolve keeps_run_established keeps_route_event_cb : fsm_keeps.

(** ** The handlers *)

Lemma negotiate_mp6 impl open :
  (fsm_negotiate_route_families impl open).2 = true → cfg_enable_mpbgp_ipv6 (fs_config impl) = true.
Proof.
  unfold fsm_negotiate_route_families. case_match; simpl; [|done]. by intros [? _]%andb_prop.
Qed.

Lemma negotiated_hold_bounds local_hold peer_hold :
  (local_hold = 0 ∨ 3 <= local_hold) → (peer_hold = 0 ∨ 3 <= peer_hold) →
  negotiated_hold_time local_hold peer_hold = 0 ∨
  3 <= negotiated_hold_time local_hold peer_hold <= local_hold.
Proof. unfold negotiated_hold_time. repeat case_match; lia. Qed.

(** An OPEN without a defect makes a good peer. *)
Lemma open_peer_ok impl open :
  open_defect impl open = None →
  peer_ok (fs_config impl) (open_peer (fs_config impl) open (fsm_negotiate_route_families impl open)).
Proof.
  unfold open_defect. cbv zeta. repeat case_match; try done. intros _.
  rewrite !negb_false_iff in *.
  assert (Hcfg : cfg_hold_time (fs_config impl) = 0 ∨ 3 <= cfg_hold_time (fs_config impl)).
  { match goal with H : fsm_local_open_config_valid _ = true |- _ => revert H end.
    unfold fsm_local_open_config_valid. repeat case_match; lia. }
  split; simpl; try done.
  - apply negotiated_hold_bounds; [done|]. lia.
  - apply negotiate_mp6.
  - by intros [? _]%andb_prop.
Qed.

(** The states in which an OPEN is accepted. *)
Definition waits_open (state : libbgp_fsm_state_t) : Prop :=
  fsm_state_pre_open state = true ∨ state = LIBBGP_FSM_OPEN_SENT.

Lemma accept_open_keeps (late : Prop) config impl open families pending :
  late ∨ waits_open (fs_state impl) →
  impl_ok config impl → peer_ok config (open_peer config open families) → pending_ok pending →
  impl_keeps (late := late) config impl (accept_open impl open families pending).
Proof.
  intros Hlate Hok Hpeer Hpd. pose proof (io_config _ _ Hok) as Hc. unfold accept_open.
  destruct (set_state_fields impl LIBBGP_FSM_OPEN_CONFIRM) as (H1 & H2 & H3 & H4 & _ & _ & _ & H5).
  split; [|right; split; simpl; rewrite ?H1, ?H5; [done|]].
  2: { destruct Hlate as [?|[?| ->]]; by constructor. }
  split; simpl; rewrite ?H1, ?H2, ?Hc; try done.
  - apply set_state_queue, Hok.
  - apply u64_range.
Qed.

Section Changes.
Context {late : Prop}.
#[local] Abbreviation impl_keeps := (impl_keeps (late := late)).

Lemma rollback_keeps config impl generation :
  impl_ok config impl → impl_keeps config impl (fsm_rollback_failed_local_keepalive impl generation).
Proof.
  intros Hok. unfold fsm_rollback_failed_local_keepalive. case_match; [|by apply impl_keeps_refl].
  apply forget_keeps; [done|done|apply edge_down].
Qed.

Lemma is_current_state impl state generation : is_current impl state generation = true → fs_state impl = state.
Proof. unfold is_current. intros [H _]%andb_prop. by apply bool_decide_eq_true in H. Qed.

Lemma mark_rx_current_keeps config impl :
  impl_ok config impl → impl_keeps config impl (fsm_mark_rx_current impl) ∧
  same_session impl (fsm_mark_rx_current impl) ∧
  fs_pending (fsm_mark_rx_current impl) = fs_pending impl.
Proof.
  intros Hok. unfold fsm_mark_rx_current. cbv zeta. case_match; [|by split; [apply impl_keeps_refl|]].
  split; [|done]. by apply clock_keeps.
Qed.

Lemma mark_rx_keeps config impl rx : impl_ok config impl → impl_keeps config impl (mark_rx impl rx).
Proof.
  intros Hok. unfold mark_rx. case_match; [by apply clock_keeps|by apply impl_keeps_refl].
Qed.

(** A change of the marks or of the clock, then one more change. *)
Lemma impl_keeps_trans config impl1 impl2 impl3 :
  same_session impl1 impl2 → impl_keeps config impl2 impl3 → impl_keeps config impl1 impl3.
Proof. intros Hsame [Hok Hstep]. split; [done|]. by eapply impl_step_trans_same. Qed.

Lemma establish_keeps config impl :
  impl_ok config impl → fs_state impl = LIBBGP_FSM_OPEN_CONFIRM →
  impl_keeps config impl (next_generation impl LIBBGP_FSM_ESTABLISHED).
Proof. intros Hok Hst. apply next_generation_keeps; [done|by rewrite Hst|rewrite Hst; apply edge_established]. Qed.

(** [fsm_establish_pending_keepalive] after the marks were changed: the new
    structure only needs the rest of the invariant. *)
Lemma establish_marked_keeps config impl pd :
  impl_ok config impl → fs_state impl = LIBBGP_FSM_OPEN_CONFIRM →
  impl_keeps config impl (next_generation (set_pending impl pd) LIBBGP_FSM_ESTABLISHED).
Proof.
  intros Hok Hst. destruct (establish_keeps config impl Hok Hst) as [Hok' Hstep'].
  assert (next_generation (set_pending impl pd) LIBBGP_FSM_ESTABLISHED =
          next_generation impl LIBBGP_FSM_ESTABLISHED) as ->; [|done].
  unfold next_generation, fsm_set_state, set_pending. simpl. by case_decide.
Qed.

End Changes.

Section Handlers.
Context {host : Host} (config : libbgp_fsm_config).
#[local] Abbreviation impl_keeps := (impl_keeps (late := after_collision None)).
#[local] Abbreviation fsm_keeps :=
  (@keeps session fsm_io fsm_ref io_answer fsm_ref_op (session_ok config) session_step).
#[local] Abbreviation fsm_section :=
  (@section_keeps session fsm_io fsm_ref io_answer fsm_ref_op (session_ok config) session_step).

Lemma section_reject {A} notify (result : A) : fsm_section (reject notify result).
Proof.
  apply section_of. intros s Hs. unfold reject. cbn [teardown fst snd with_impl sn_impl].
  split; [by apply teardown_keeps|]. keeps_walk.
Qed.

Lemma section_teardown {A} (k : teardown_snapshot -> fsm_proc A) s :
  (∀ td, fsm_keeps (k td)) → session_ok config s →
  let r := let '(s', td) := teardown s in (s', k td) in
  session_ok config r.1 ∧ session_step None s r.1 ∧ fsm_keeps r.2.
Proof. intros Hk Hs. destruct (teardown_keeps (late := after_collision None) config _ Hs) as [Hok Hstep]. split; [exact Hok|]. split; [exact Hstep|apply Hk]. Qed.

Lemma section_check_open open k s :
  session_ok config s → waits_open (fs_state (sn_impl s)) →
  (∀ families last s', peer_ok config (open_peer config open families) → session_ok config s' →
     after_collision last ∨ waits_open (fs_state (sn_impl s')) → section_at config last (k families) s') →
  section_at config None (check_open open k) s.
Proof.
  intros Hs Hw Hk. unfold section_at, check_open. destruct (open_defect (sn_impl s) open) as [[notify e]|] eqn:Hd.
  - by apply section_reject.
  - apply open_peer_ok in Hd. pose proof (io_config _ _ Hs) as Hc. rewrite Hc in Hd.
    apply section_collision; [done|by apply Hk; [..|right]|by intros; apply Hk; [..|left]|].
    intros s' out Hs'. cbn [fst snd]. split; [done|keeps_walk].
Qed.

(** The OPEN is accepted. *)
Lemma section_accept open families pending (p : fsm_impl_t -> fsm_proc libbgp_err_t) last s :
  (∀ impl, fsm_keeps (p impl)) → peer_ok config (open_peer config open families) → pending_ok pending →
  session_ok config s → after_collision last ∨ waits_open (fs_state (sn_impl s)) →
  section_at config last (λ s,
    let impl := accept_open (sn_impl s) open families pending in (with_impl s impl, p impl)) s.
Proof.
  intros Hp Hpeer Hpd Hs Hlate. unfold section_at. cbn [fst snd].
  destruct (accept_open_keeps (after_collision last) config (sn_impl s) open families pending) as [? ?]; [done..|].
  split_and!; [done|done|apply Hp].
Qed.

Lemma establish_pending_current impl generation :
  is_current impl LIBBGP_FSM_OPEN_CONFIRM generation = true →
  fsm_establish_pending_keepalive impl generation =
  if pd_local_keepalive (fs_pending impl) then Some (next_generation impl LIBBGP_FSM_ESTABLISHED) else None.
Proof. intros H. unfold fsm_establish_pending_keepalive. by rewrite H. Qed.

Lemma keeps_snapshot_established impl p :
  fsm_keeps p →
  fsm_keeps match fsm_snapshot_established_locked impl with
            | Some snap => fsm_run_established_actions snap
            | None => p
            end.
Proof. intros Hp. case_match; [apply keeps_run_established|done]. Qed.

Lemma section_after_keepalive generation e : fsm_section (after_keepalive generation e).
Proof.
  apply section_of. intros s Hs. unfold after_keepalive. cbv zeta. case_decide.
  - case_match eqn:Hcur; [|split; [by apply impl_keeps_refl|done]].
    rewrite (establish_pending_current (mark_local_send _ _) _ Hcur). apply is_current_state in Hcur.
    destruct (pd_local_keepalive _) eqn:Hl; cbn [fst snd with_impl sn_impl].
    + split; [by apply establish_marked_keeps|]. by apply keeps_snapshot_established.
    + split; [|done]. apply pending_keeps; [done|done|]. unfold pending_ok. cbn in *. congruence.
  - cbn [fst snd with_impl sn_impl]. split; [by apply rollback_keeps|done].
Qed.

Lemma section_on_open_sent pkt s :
  session_ok config s → fs_state (sn_impl s) = LIBBGP_FSM_OPEN_SENT →
  section_at config None (fsm_on_open_sent pkt) s.
Proof.
  intros Hs Hst. unfold section_at, fsm_on_open_sent. destruct (pkt_data pkt); try by apply section_reject.
  apply section_check_open; [done|by right|]. intros families last s' Hpeer Hs' Hlate.
  apply (section_accept _ families sending_keepalive (λ impl,
    e ← fsm_send_keepalive (ln_out (fs_links impl)); Locked (after_keepalive (fs_session_generation impl) e))); try done.
  intros impl. apply keeps_bind; [apply keeps_send_keepalive|]. intros e. apply keeps_locked, section_after_keepalive.
Qed.

Lemma keeps_relock generation e : fsm_keeps (relock_after_send generation e).
Proof.
  apply keeps_locked, section_of. intros s Hs. unfold relock_after_send. case_decide; (split; [|done]).
  - by apply impl_keeps_refl.
  - by apply rollback_keeps.
Qed.

Lemma section_after_passive_keepalive generation : fsm_section (after_passive_keepalive generation).
Proof.
  apply section_of. intros s Hs. unfold after_passive_keepalive. cbv zeta.
  case_match eqn:Hcur; [|split; [by apply impl_keeps_refl|apply keeps_relock]].
  pose proof (is_current_state _ _ _ Hcur) as Hst.
  case_match eqn:Hk; cbn [fst snd with_impl sn_impl].
  - rewrite (establish_pending_current (mark_local_keepalive _) _ Hcur). cbn [mark_local_keepalive set_pending fs_pending pd_local_keepalive].
    split; [by apply establish_marked_keeps|]. apply keeps_snapshot_established, keeps_relock.
  - split; [|apply keeps_relock]. apply pending_keeps; [done|done|]. apply orb_false_elim in Hk as [_ Hk].
    unfold pending_ok. cbn. congruence.
Qed.

Lemma keeps_after_passive_open generation out : fsm_keeps (after_passive_open generation out).
Proof.
  apply keeps_locked, section_of. intros s Hs.
  case_match eqn:Hcur; [|split; [by apply impl_keeps_refl|apply keeps_relock]]. apply is_current_state in Hcur.
  cbn [fst snd with_impl sn_impl]. split.
  { apply pending_keeps; [done|done|]. apply (io_pending _ _ Hs). }
  apply keeps_locked, section_of. clear s Hs Hcur. intros s Hs.
  case_match eqn:Hcur; [|split; [by apply impl_keeps_refl|apply keeps_relock]]. apply is_current_state in Hcur.
  cbn [fst snd with_impl sn_impl]. split; [by apply pending_keeps|].
  keeps_walk; [|apply keeps_relock]. apply keeps_locked, section_after_passive_keepalive.
Qed.

Lemma section_on_pre_open_open open s :
  session_ok config s → fsm_state_pre_open (fs_state (sn_impl s)) = true →
  section_at config None (fsm_on_pre_open_open open) s.
Proof.
  intros Hs Hst. apply section_check_open; [done|by left|]. intros families last s' Hpeer Hs' Hlate.
  apply (section_accept _ families sending_open (λ impl,
    let out := ln_out (fs_links impl) in
    e ← fsm_send_open out (fs_config impl) (po_enable_mpbgp_ipv4 (fs_policy impl));
    if decide (e = LIBBGP_OK) then after_passive_open (fs_session_generation impl) out
    else relock_after_send (fs_session_generation impl) e)); try done.
  intros impl. cbv zeta. keeps_walk; [apply keeps_after_passive_open|apply keeps_relock].
Qed.

Lemma section_establish s :
  session_ok config s → fs_state (sn_impl s) = LIBBGP_FSM_OPEN_CONFIRM →
  impl_keeps config (sn_impl s) (sn_impl (establish s).1) ∧ fsm_keeps (establish s).2.
Proof.
  intros Hs Hst. cbn [establish fst snd with_impl sn_impl].
  split; [by apply establish_keeps|apply keeps_run_established].
Qed.

Lemma section_on_open_confirm s pkt :
  session_ok config s → fs_state (sn_impl s) = LIBBGP_FSM_OPEN_CONFIRM →
  impl_keeps config (sn_impl s) (sn_impl (fsm_on_open_confirm pkt s).1) ∧
  fsm_keeps (fsm_on_open_confirm pkt s).2.
Proof.
  intros Hs Hst.
  assert (Hreject : ∀ A notify (r : A), impl_keeps config (sn_impl s) (sn_impl (reject notify r s).1) ∧
                      fsm_keeps (reject notify r s).2).
  { intros A notify r. destruct (section_reject notify r s Hs) as (? & ? & ?). by split. }
  unfold fsm_on_open_confirm. cbv zeta. destruct (pkt_data pkt) as [open| | | |]; try apply Hreject.
  - case_match; [|apply Hreject]. case_match; [case_match; apply Hreject|].
    split; [by apply impl_keeps_refl|done].
  - destruct (mark_rx_current_keeps (late := after_collision None) config (sn_impl s) Hs) as ([Hok Hstep] & Hsame & Hpd).
    assert (Hst' : fs_state (fsm_mark_rx_current (sn_impl s)) = LIBBGP_FSM_OPEN_CONFIRM).
    { destruct Hsame as (_ & -> & _). done. }
    repeat case_match; cbn [fst snd with_impl sn_impl].
    + split; [|done]. eapply impl_keeps_trans; [done|]. apply pending_keeps; [done|done|].
      apply (io_pending _ _ Hok).
    + split; [|done]. eapply impl_keeps_trans; [done|]. apply pending_keeps; [done|done|]. by intros _.
    + destruct (section_establish (with_impl s (fsm_mark_rx_current (sn_impl s)))) as [He Hk]; [exact Hok|done|].
      split; [|done]. eapply impl_keeps_trans; done.
Qed.

Lemma keeps_down_and_dispatch td send result :
  fsm_keeps send → fsm_keeps (down_and_dispatch td send result).
Proof. intros Hsend. unfold down_and_dispatch. keeps_walk. Qed.

Lemma section_update_applied generation peer bus rib4 rib6 rx journal subcode e :
  fsm_section (update_applied generation peer bus rib4 rib6 rx journal subcode e).
Proof.
  apply section_of. intros s Hs. unfold update_applied, fsm_publish_update_events, teardown. cbv zeta.
  repeat case_match; cbn [fst snd with_impl sn_impl];
    (split; [first [by apply impl_keeps_refl|by apply mark_rx_keeps|by apply teardown_keeps]|keeps_walk]).
Qed.

Lemma section_on_update update : fsm_section (on_update update).
Proof.
  intros s Hs. unfold on_update. cbv zeta. case_match.
  - apply (section_teardown (λ td, down_and_dispatch td _ _)); [|done].
    intros td. apply keeps_down_and_dispatch, keeps_send_notification.
  - apply section_on_tables; [|done]. intros [[[journal subcode] e]|e]; [apply section_update_applied|].
    by apply section_quiet.
Qed.

Lemma section_on_established pkt : fsm_section (fsm_on_established pkt).
Proof.
  intros s Hs. unfold fsm_on_established. destruct (pkt_data pkt) as [|update| | |]; try done.
  - apply (section_teardown (λ td, down_and_dispatch td _ _)); [|done].
    intros td. apply keeps_down_and_dispatch, keeps_send_notification.
  - by apply section_on_update.
  - by apply (section_teardown (λ td, down_and_dispatch td _ _)); [intros td; apply keeps_down_and_dispatch|].
  - destruct (mark_rx_current_keeps (late := after_collision None) config (sn_impl s) Hs) as ([Hok Hstep] & _). by split; [|split].
  - apply (section_teardown (λ td, down_and_dispatch td _ _)); [|done].
    intros td. apply keeps_down_and_dispatch, keeps_send_notification.
Qed.

Lemma keeps_with_handle {A} (without : A) body : fsm_keeps body → fsm_keeps (with_handle without body).
Proof.
  intros Hb. unfold with_handle. cbn [keeps]. split.
  - intros s Hs. cbn. unfold fsm_handle_acquire, fsm_impl_acquire. repeat case_match; simplify_eq; by split; [|left].
  - intros [|]; [|done]. apply keeps_bind; [done|]. intros a. cbn. split; [|done].
    intros s Hs. by split; [|left].
Qed.

Lemma section_dispatch_packet pkt : fsm_section (dispatch_packet pkt).
Proof.
  intros s Hs. unfold dispatch_packet.
  assert (Hconfirm : fs_state (sn_impl s) = LIBBGP_FSM_OPEN_CONFIRM →
            session_ok config (fsm_on_open_confirm pkt s).1 ∧ session_step None s (fsm_on_open_confirm pkt s).1 ∧
            fsm_keeps (fsm_on_open_confirm pkt s).2).
  { intros Hst. destruct (section_on_open_confirm s pkt Hs Hst) as [[? ?] ?]. by split; [|split]. }
  assert (Hnothing : session_ok config s ∧ session_step None s s ∧ fsm_keeps (mret LIBBGP_OK)).
  { split; [exact Hs|]. by split; [left|]. }
  destruct (pkt_data pkt) as [open|update|msg| |raw];
    try (destruct (fs_state (sn_impl s)) eqn:Hst; lazymatch goal with
         | |- context [fsm_on_pre_open_open] => apply section_on_pre_open_open; [exact Hs|by rewrite Hst]
         | |- context [fsm_on_open_sent] => apply section_on_open_sent; [exact Hs|exact Hst]
         | |- context [fsm_on_established] => apply section_on_established, Hs
         | |- context [on_notification] => fail
         | |- session_ok _ (fsm_on_open_confirm _ _).1 ∧ _ => first [exact (Hconfirm eq_refl)|exact (Hconfirm Hst)]
         | |- _ => exact Hnothing
         end).
  unfold on_notification. cbv zeta.
  apply (section_teardown (λ td, if decide _ then down_and_dispatch td _ _ else _)); [|done].
  intros td. case_decide; [by apply keeps_down_and_dispatch|]. keeps_walk.
Qed.

Lemma keeps_on_packet pkt : fsm_keeps (libbgp_fsm_on_packet pkt).
Proof. apply keeps_with_handle, keeps_locked, section_dispatch_packet. Qed.

Lemma section_on_parse_error detail : fsm_section (on_parse_error detail).
Proof.
  intros s Hs. unfold on_parse_error. cbv zeta. apply section_teardown; [|done].
  intros td. keeps_walk.
Qed.

Lemma keeps_on_raw_packet buf : fsm_keeps (libbgp_fsm_on_raw_packet buf).
Proof.
  apply keeps_with_handle. apply keeps_bind; [apply keeps_read|]. intros use_4b_asn.
  apply keeps_bind; [apply keeps_calling|]. intros r.
  assert (Hfails : ∀ e detail, fsm_keeps (if det_notify_code detail =? 0 then mret e
                                           else Locked (on_parse_error detail))).
  { intros e detail. case_match; [done|]. apply keeps_locked, section_on_parse_error. }
  cbv zeta. destruct r as [[[pkt consumed]|[e detail]]|e]; [|apply Hfails|done].
  case_match; [apply keeps_on_packet|apply Hfails].
Qed.

Lemma keeps_down_if was td d : fsm_keeps (down_if_established was td d).
Proof. unfold down_if_established. keeps_walk. Qed.

Lemma section_after_timed_keepalive state generation now e :
  fsm_section (after_timed_keepalive state generation now e).
Proof.
  intros s Hs. unfold after_timed_keepalive. cbv zeta. case_decide; [|case_match].
  - case_match; [destruct (clock_keeps (late := after_collision None) config (sn_impl s) (FsmClock (ck_current_ms (fs_clock (sn_impl s)))
      (ck_last_rx_ms (fs_clock (sn_impl s))) now (ck_initialized (fs_clock (sn_impl s)))) Hs)|];
      (split; [done|]); by split; [left|].
  - apply section_teardown; [|done]. intros td. keeps_walk. apply keeps_down_if.
  - split; [done|]. split; [by left|]. cbn [snd]. keeps_walk.
Qed.

Lemma section_tick now : fsm_section (tick now).
Proof.
  intros s Hs. unfold tick. cbv zeta. case_match.
  { destruct (clock_keeps (late := after_collision None) config (sn_impl s) (FsmClock now now now true) Hs). by split; [|split]. }
  set (s1 := with_impl s (clock_advance (sn_impl s) now)).
  assert (Hs1 : session_ok config s1) by apply (clock_keeps (late := False) config _ _ Hs).
  assert (Hsame : same_session (sn_impl s) (sn_impl s1)) by done.
  assert (Hlift : ∀ r : session * fsm_proc libbgp_err_t,
            session_ok config r.1 ∧ session_step None s1 r.1 ∧ fsm_keeps r.2 →
            session_ok config r.1 ∧ session_step None s r.1 ∧ fsm_keeps r.2).
  { intros r (? & ? & ?). split; [done|]. split; [by eapply impl_step_trans_same|done]. }
  apply Hlift. clearbody s1. clear Hlift Hsame. case_match; [|case_match].
  - apply section_teardown; [|done]. intros td. keeps_walk. apply keeps_down_if.
  - split; [done|]. split; [by left|]. cbn [snd]. keeps_walk.
    apply keeps_locked, section_after_timed_keepalive.
  - split; [done|]. by split; [left|].
Qed.

Lemma section_enter_pre_open state :
  fsm_state_pre_open state = true → fsm_section (enter_pre_open state).
Proof.
  intros Hst. apply section_of. intros s Hs. unfold enter_pre_open. case_match eqn:Hpre.
  - cbn [fst snd with_impl sn_impl]. split; [|keeps_walk]. apply forget_keeps; [done|by destruct state|].
    destruct state; try done; by constructor.
  - split; [by apply impl_keeps_refl|done].
Qed.

Lemma section_after_start start_state generation e :
  fsm_state_pre_open start_state = true → fsm_section (after_start start_state generation e).
Proof.
  intros Hst. apply section_of. intros s Hs. unfold after_start. cbn [fst snd]. split; [|keeps_walk].
  repeat case_match; try by apply impl_keeps_refl. cbn [with_impl sn_impl].
  match goal with H : is_current _ _ _ = true |- _ => apply is_current_state in H as Hcur end.
  apply next_generation_keeps; [done|rewrite Hcur; by destruct start_state|].
  rewrite Hcur. by apply edge_start_failed.
Qed.

Lemma section_start : fsm_section start.
Proof.
  apply section_of. intros s Hs. unfold start. cbv zeta.
  repeat case_match; try (split; [by apply impl_keeps_refl|done]). cbn [fst snd with_impl sn_impl].
  match goal with H : negb (fsm_state_pre_open _) = false |- _ => apply negb_false_iff in H as Hpre end.
  split; [apply forget_keeps; [done|done|by apply edge_start]|].
  keeps_walk. apply keeps_locked, section_after_start. done.
Qed.

Lemma section_reset send_notify cease_subcode : fsm_section (reset send_notify cease_subcode).
Proof.
  intros s Hs. unfold reset. cbv zeta. apply section_teardown; [|done].
  intros td. keeps_walk.
Qed.

(** ** The object *)

(** Links, policy and callback are outside the invariant. *)
Lemma impl_ok_other config' impl policy links notify :
  impl_ok config' impl → zlen (nt_changes notify) <= FSM_STATE_CHANGE_QUEUE_CAP →
  impl_keeps config' impl (FsmImpl (fs_config impl) policy (fs_state impl) (fs_peer impl) (fs_clock impl)
                             links (fs_session_generation impl) (fs_pending impl) notify).
Proof. intros Hok Hq. split; [|by left]. destruct Hok. by split. Qed.

Lemma keeps_set_policy f : fsm_keeps (set_policy f).
Proof.
  apply keeps_with_handle, keeps_changing. intros s Hs. apply impl_ok_other; [done|apply Hs].
Qed.

Lemma keeps_set_links f : fsm_keeps (changing (set_links f)).
Proof. apply keeps_changing. intros s Hs. apply impl_ok_other; [done|apply Hs]. Qed.

Lemma keeps_set_state_change_cb cb : fsm_keeps (libbgp_fsm_set_state_change_cb cb).
Proof.
  apply keeps_with_handle, keeps_changing. intros s Hs. apply impl_ok_other; [done|apply Hs].
Qed.

Lemma keeps_ref {A} op (k : bool -> fsm_proc A) : (∀ b, fsm_keeps (k b)) → fsm_keeps (Ref op k).
Proof.
  intros Hk. split; [|done]. intros s Hs. destruct op; cbn; unfold fsm_handle_acquire, fsm_impl_acquire;
    repeat case_match; simplify_eq; by split; [|left].
Qed.

Lemma keeps_unsubscribe_route_events bus ids : fsm_keeps (fsm_unsubscribe_route_events bus ids).
Proof.
  assert (∀ bus id, fsm_keeps (unsubscribe bus id)).
  { intros b id. unfold unsubscribe. keeps_walk. by apply keeps_ref. }
  unfold fsm_unsubscribe_route_events. keeps_walk; auto.
Qed.

Lemma keeps_subscribe bus type : fsm_keeps (subscribe bus type).
Proof. apply keeps_ref. intros [|]; [|done]. intros [id|e]; [done|]. by apply keeps_ref. Qed.

Lemma keeps_join_bus bus : fsm_keeps (join_bus bus).
Proof. unfold join_bus. keeps_walk; auto using keeps_subscribe, keeps_unsubscribe_route_events. Qed.

Lemma keeps_set_event_bus bus : fsm_keeps (libbgp_fsm_set_event_bus bus).
Proof.
  apply keeps_with_handle. apply keeps_bind.
  { apply keeps_locked, section_of. intros s Hs. split; [|done]. apply impl_ok_other; [done|apply Hs]. }
  intros [old_bus old_ids]. keeps_walk; auto using keeps_join_bus, keeps_unsubscribe_route_events.
  apply keeps_locked, section_of. intros s Hs. case_match.
  - split; [by apply impl_keeps_refl|apply keeps_unsubscribe_route_events].
  - split; [|done]. apply impl_ok_other; [done|apply Hs].
Qed.

Lemma keeps_destroy : fsm_keeps libbgp_fsm_destroy.
Proof.
  apply keeps_ref. intros [|]; [|done]. apply keeps_locked, section_of. intros s Hs. cbv zeta.
  cbn [fst snd]. split.
  - apply impl_ok_other; [done|]. cbn. unfold FSM_STATE_CHANGE_QUEUE_CAP. lia.
  - keeps_walk; auto using keeps_unsubscribe_route_events. by apply keeps_ref.
Qed.
End Handlers.
