(* ===== verification/FsmReach.v ===== *)
(** * The session under any interleaving

    Any number of threads enter the session, and the code it calls re-enters
    it, at any moment it does not hold its lock.  What is reachable from a
    fresh session keeps the invariant of [FsmInv], and the generation number
    tells sessions apart. *)

From stdpp Require Import gmap.
From S2P Require Import Prelude Bytes Prefix4 Prefix6 Open Notification Pattr Update As4 Packet Filter Event Hashmap Rib RibTable Rib46 Fsm FsmUpdate Out Proc ProcSpec FsmSession FsmForward FsmHandlers FsmObject FsmSample FsmInv FsmKeeps.

Section Reach.
Context {host : Host}.

(** The entry points; their results are of no interest here. *)
Inductive fsm_call : fsm_proc unit -> Prop :=
  | call_on_packet pkt : fsm_call (libbgp_fsm_on_packet pkt;; mret tt)
  | call_on_raw_packet buf : fsm_call (libbgp_fsm_on_raw_packet buf;; mret tt)
  | call_tick now_ms : fsm_call (libbgp_fsm_tick now_ms;; mret tt)
  | call_enter_connect : fsm_call (libbgp_fsm_enter_connect;; mret tt)
  | call_enter_active : fsm_call (libbgp_fsm_enter_active;; mret tt)
  | call_start : fsm_call (libbgp_fsm_start;; mret tt)
  | call_stop : fsm_call (libbgp_fsm_stop;; mret tt)
  | call_reset_soft : fsm_call (libbgp_fsm_reset_soft;; mret tt)
  | call_reset_hard : fsm_call (libbgp_fsm_reset_hard;; mret tt)
  | call_set_policy f : fsm_call (set_policy f)
  | call_set_rib4 rib4 : fsm_call (libbgp_fsm_set_rib4 rib4)
  | call_set_rib6 rib6 : fsm_call (libbgp_fsm_set_rib6 rib6)
  | call_set_out_handler out : fsm_call (libbgp_fsm_set_out_handler out)
  | call_set_state_change_cb cb : fsm_call (libbgp_fsm_set_state_change_cb cb)
  | call_set_event_bus bus : fsm_call (libbgp_fsm_set_event_bus bus)
  | call_get {A} without (f : session -> A) : fsm_call (with_handle without (reading f);; mret tt)
  | call_destroy : fsm_call libbgp_fsm_destroy.

(** A bus that holds a reference retains the session, calls back and releases
    it ([libbgp_event_bus_publish_from]). *)
Definition delivered (event : fsm_event) : fsm_proc unit :=
  fsm_route_event_cb event;; Ref RefRelease (λ _, Done tt).

Definition fsm_calls (s : session) (p : fsm_proc unit) (s' : session) : Prop :=
  (fsm_call p ∧ s' = s) ∨
  (∃ event, p = delivered event ∧ 0 < sn_bus_refs s ∧ fsm_impl_acquire s = (true, s')).

Definition with_bus_refs (s : session) (n : Z) : session :=
  Session (sn_impl s) (sn_refcount s) (sn_destroy_started s) n (sn_handle s) (sn_freed s) (sn_rib4 s)
    (sn_rib6 s) (sn_out s) (sn_heap s).

(** A bus keeps the reference of a subscription and gives back one it has. *)
Definition bus_refs_of (a : fsm_io) : io_answer a -> Z :=
  match a with
  | IoSubscribe _ _ => λ r, match r with inl _ => 1 | inr _ => 0 end
  | IoUnsubscribe _ _ => λ found, if found then -1 else 0
  | _ => λ _, 0
  end.

Definition fsm_react (s : session) (a : fsm_io) (r : io_answer a) (s' : session) : Prop :=
  0 <= sn_bus_refs s + bus_refs_of a r ∧ s' = with_bus_refs s (sn_bus_refs s + bus_refs_of a r).

(** Others change the tables and the handlers, and use the allocator. *)
Definition fsm_outside (s s' : session) : Prop :=
  ∃ rib4 rib6 out heap,
    s' = Session (sn_impl s) (sn_refcount s) (sn_destroy_started s) (sn_bus_refs s) (sn_handle s)
           (sn_freed s) rib4 rib6 out heap.

Definition fsm_pool_step := pool_step (answer := io_answer) fsm_ref_op fsm_calls fsm_react fsm_outside.

(** What [libbgp_fsm_init] leaves. *)
Definition fsm_initial (config : libbgp_fsm_config) (s : session) : Prop :=
  sn_impl s = new_impl config ∧ sn_refcount s = 1 ∧ sn_destroy_started s = false ∧ sn_bus_refs s = 0 ∧
  sn_handle s = true ∧ sn_freed s = false.

Definition fsm_reachable (config : libbgp_fsm_config) (c : session * list (fsm_proc unit)) : Prop :=
  ∃ s0, fsm_initial config s0 ∧ rtc fsm_pool_step (s0, []) c.

Lemma fsm_initial_created config heap impl rib4 rib6 heap' others4 others6 outs :
  libbgp_fsm_init (Some config) heap = (Ret (impl, rib4, rib6), heap') →
  fsm_initial config (fsm_created impl rib4 rib6 others4 others6 outs heap').
Proof.
  unfold libbgp_fsm_init. intros H.
  assert (impl = new_impl config) as ->; [|done].
  unfold mbind, M_bind in H. destruct (alloc_or_nomem heap) as [[?|?|?] h1]; try done.
  destruct (libbgp_rib4_init h1) as [[r4|?|?] h2]; try done.
  destruct (libbgp_rib6_init h2) as [[r6|?|?] h3]; try done.
  unfold mret, M_ret in H. by simplify_eq.
Qed.

(** ** The invariant *)

(** One step of one thread: the session stays the one it is or moves along an
    edge of the state diagram; a thread that comes back from the publication
    of a collision event may enter OPEN_CONFIRM from any state. *)
Definition diagram_step (c c' : session * list (fsm_proc unit)) : Prop :=
  impl_step False (sn_impl c.1) (sn_impl c'.1) ∨
  fs_session_generation (sn_impl c'.1) = u64 (fs_session_generation (sn_impl c.1) + 1) ∧
  fs_state (sn_impl c'.1) = LIBBGP_FSM_OPEN_CONFIRM ∧
  ∃ bus publisher event, ev_type event = LIBBGP_EVENT_COLLISION ∧
    resumes fsm_calls (IoPublish bus publisher event) c c'.

Section Config.
Context (config : libbgp_fsm_config).
#[local] Abbreviation fsm_keeps :=
  (@keeps session fsm_io fsm_ref io_answer fsm_ref_op (session_ok config) session_step).

Lemma keeps_call p : fsm_call p → fsm_keeps p.
Proof.
  intros Hp. destruct Hp; try (apply keeps_bind; [|done]);
    try apply keeps_on_packet; try apply keeps_on_raw_packet; try apply keeps_set_policy;
    try apply keeps_set_state_change_cb; try apply keeps_set_event_bus; try apply keeps_destroy;
    apply keeps_with_handle; try apply keeps_set_links; try apply keeps_read; apply keeps_locked;
    first [apply section_tick|apply section_start|apply section_reset|by apply section_enter_pre_open].
Qed.

Lemma calls_keep s p s' :
  session_ok config s → fsm_calls s p s' → session_ok config s' ∧ session_step None s s' ∧ fsm_keeps p.
Proof.
  intros Hs [[Hp ->]|(event & -> & _ & Hacq)].
  - split; [done|]. split; [by left|]. by apply keeps_call.
  - unfold fsm_impl_acquire in Hacq. case_match; simplify_eq. split; [done|]. split; [by left|].
    apply keeps_bind; [apply keeps_route_event_cb|]. intros handled. by apply keeps_ref.
Qed.

Lemma react_keeps s a r s' :
  session_ok config s → fsm_react s a r s' → session_ok config s' ∧ session_step None s s'.
Proof. intros Hs [_ ->]. by split; [|left]. Qed.

Lemma outside_keeps s s' :
  session_ok config s → fsm_outside s s' → session_ok config s' ∧ session_step None s s'.
Proof. intros Hs (rib4 & rib6 & out & heap & ->). by split; [|left]. Qed.

Lemma initial_ok s : fsm_initial config s → session_ok config s.
Proof.
  intros (Hi & _). unfold session_ok. rewrite Hi. split; try done.
Qed.

Definition config_pool_ok : session * list (fsm_proc unit) -> Prop :=
  pool_ok fsm_ref_op (session_ok config) session_step fsm_calls.

Lemma config_step c c' : fsm_pool_step c c' → config_pool_ok c → config_pool_ok c' ∧ diagram_step c c'.
Proof.
  intros Hstep Hc. destruct (pool_step_keeps fsm_ref_op (session_ok config) session_step fsm_calls fsm_react fsm_outside) with (c := c) (c' := c')
    as [Hc' Hw]; [by left|apply calls_keep|apply react_keeps|apply outside_keeps|done|done|].
  split; [done|]. destruct Hw as [Hw|(a & Hw & Hr)]; apply impl_step_late in Hw as [Hw|(Hl & Hg & Hst)]; try by left.
  - by destruct Hl as (? & ? & ? & ? & _).
  - right. destruct Hl as (bus & publisher & event & [= ->] & Ht). split_and!; try done. by exists bus, publisher, event.
Qed.

Lemma reachable_pool_ok c : fsm_reachable config c → config_pool_ok c.
Proof.
  intros (s0 & Hs0 & Hsteps). eapply pool_steps_keep; [..|exact Hsteps|].
  - by left.
  - apply calls_keep.
  - apply react_keeps.
  - apply outside_keeps.
  - split; [by apply initial_ok|constructor].
Qed.

(** ** Generations *)

(** [k] of the steps started a new generation. *)
Lemma generations n c c' :
  nsteps fsm_pool_step n c c' → config_pool_ok c →
  config_pool_ok c' ∧
  ∃ k, 0 <= k <= Z.of_nat n ∧
    fs_session_generation (sn_impl c'.1) = u64 (fs_session_generation (sn_impl c.1) + k) ∧
    (k = 0 → same_session (sn_impl c.1) (sn_impl c'.1)).
Proof.
  intros Hsteps. induction Hsteps as [c|n c c1 c' Hstep _ IH]; intros Hc.
  - split; [done|]. exists 0. split; [lia|]. split; [|done]. destruct (proj1 Hc) as [_ _ _ _ _ _ Hg].
    rewrite Z.add_0_r. unfold u64. rewrite Z.mod_small; [done|]. apply Hg.
  - destruct (config_step c c1 Hstep Hc) as [Hc1 Hs1]. destruct (IH Hc1) as (Hc' & k & Hk & Hgen & Hsame).
    split; [done|]. destruct Hs1 as [[(Hg & Hst & Hp)|[Hg _]]|[Hg _]].
    { exists k. split; [lia|]. split; [by rewrite Hgen, Hg|].
      intros ->. destruct (Hsame eq_refl) as (Hg' & Hst' & Hp'). unfold same_session. by rewrite Hg', Hst', Hp'. }
    all: exists (k + 1); split; [lia|]; split; [|lia]; rewrite Hgen, Hg; unfold u64;
      rewrite Zplus_mod_idemp_l; f_equal; lia.
Qed.
End Config.

(** ** Theorems *)

(** C1: Whatever threads and callbacks enter a session, in whatever order their
    critical sections run, and whatever the environment answers: a session
    without a peer knows nothing of one, a session that confirmed an OPEN has
    a valid peer identifier, a hold time that is 0 or at least 3 seconds and
    at most its own, and the capabilities both sides have; the marks of a
    handshake exist only in OPEN_CONFIRM; the queue of state changes does not
    overflow.  A step that changes state or peer starts a new generation and
    moves along an edge of the state diagram [fsm_edge]: every state has the
    way to IDLE (stop and reset are calls of any state); CONNECT, ACTIVE and
    OPEN_SENT are entered from IDLE, CONNECT and ACTIVE only, but for a start
    that could not send its OPEN, which goes back from OPEN_SENT to where it
    was; OPEN_CONFIRM is entered from these states and OPEN_SENT only, and
    ESTABLISHED from OPEN_CONFIRM only.  There is one exception, in which the code does not
    look at the state: a thread that comes back from the publication of a
    collision event may enter OPEN_CONFIRM whatever the state is by then. *)
Theorem fsm_reachable_ok config c :
  fsm_reachable config c →
  impl_ok config (sn_impl c.1) ∧ ∀ c', fsm_pool_step c c' → diagram_step c c'.
Proof.
  intros Hc. apply reachable_pool_ok in Hc. split; [apply Hc|].
  intros c' Hstep. by apply (config_step config).
Qed.

(** C13: The generation number identifies the session.  A thread that kept the
    number while it did not hold the lock and finds the same number again,
    fewer than 2^64 steps later, finds the session it left: the same state
    and the same peer. *)
Theorem fsm_generation_identifies config n c c' :
  fsm_reachable config c → nsteps fsm_pool_step n c c' → Z.of_nat n < 2 ^ 64 →
  fs_session_generation (sn_impl c'.1) = fs_session_generation (sn_impl c.1) →
  fs_state (sn_impl c'.1) = fs_state (sn_impl c.1) ∧ fs_peer (sn_impl c'.1) = fs_peer (sn_impl c.1).
Proof.
  intros Hc Hsteps Hn Hgen. apply reachable_pool_ok in Hc.
  pose proof (io_generation _ _ (proj1 Hc)) as Hu. unfold is_u64 in Hu.
  destruct (generations config n c c' Hsteps Hc) as (_ & k & Hk & Hg & Hsame).
  rewrite Hgen in Hg. unfold u64 in Hg.
  destruct (decide (k = 0)) as [->|Hk0]; [by destruct (Hsame eq_refl) as (_ & ? & ?)|].
  exfalso. pose proof (Z.div_mod (fs_session_generation (sn_impl c.1) + k) (2 ^ 64)). lia.
Qed.
End Reach.

(** ** A reachable state *)

Section Example.
Context {host : Host}.

#[local] Abbreviation example := (sample_config 65001 0x0a000001).

(** A thread has called [libbgp_fsm_start] and is about to send the OPEN. *)
Definition example_start : session * list (fsm_proc unit) :=
  let s := (fsm_impl_acquire (fresh_session example)).2 in
  let '(s', p) := start s in
  (s', [(a ← p; Ref RefRelease (λ _, Done a));; mret tt]).

Lemma example_reachable : fsm_reachable example example_start.
Proof.
  exists (fresh_session example). split; [by split_and!|].
  eapply rtc_l; [apply pool_call; left; split; [apply call_start|done]|].
  eapply rtc_l; [apply (pool_ref _ _ _ _ _ [] []); reflexivity|].
  eapply rtc_l; [apply (pool_locked _ _ _ _ _ [] []); reflexivity|]. apply rtc_refl.
Qed.
End Example.

#[local] Existing Instance little_endian_host.

(** In the diagram proper OPEN_CONFIRM has no edge from ESTABLISHED. *)
Lemma edge_to_open_confirm st : fsm_edge False st LIBBGP_FSM_OPEN_CONFIRM → waits_open st.
Proof. inversion 1; try done; by (left + right). Qed.

Lemma fsm_reachable_ok_witness :
  fs_state (sn_impl example_start.1) = LIBBGP_FSM_OPEN_SENT ∧
  impl_ok (sample_config 65001 0x0a000001) (sn_impl example_start.1) ∧
  ∀ c', fsm_pool_step example_start c' → diagram_step example_start c'.
Proof.
  split; [reflexivity|].
  exact (fsm_reachable_ok _ _ example_reachable).
Defined.

(** Another thread works on a table meanwhile. *)
Lemma fsm_generation_identifies_witness :
  fs_state (sn_impl (with_heap example_start.1 [true])) = fs_state (sn_impl example_start.1) ∧
  fs_peer (sn_impl (with_heap example_start.1 [true])) = fs_peer (sn_impl example_start.1).
Proof.
  apply (fsm_generation_identifies (sample_config 65001 0x0a000001) 1 example_start (with_heap example_start.1 [true], example_start.2));
    [exact example_reachable| |lia|reflexivity].
  eapply nsteps_l; [|apply nsteps_O]. apply pool_outside.
  exists (sn_rib4 example_start.1), (sn_rib6 example_start.1), (sn_out example_start.1), [true]. reflexivity.
Defined.
