(* ===== verification/FsmRefs.v ===== *)
(** * The session: references

    Who holds a reference to the structure of a session: the handle, every
    entry point that is under way, every subscription of an event bus.  The
    count is the number of these, and the structure is given back to the
    allocator when the last one goes, after [libbgp_fsm_destroy] and not
    before. *)

From stdpp Require Import gmap.
From S2P Require Import Prelude Bytes Prefix4 Prefix6 Open Notification Pattr Update As4 Packet Filter Event Hashmap Rib RibTable Rib46 Fsm FsmUpdate Out Proc ProcSpec FsmSession FsmForward FsmHandlers FsmObject FsmSample FsmReach.

(** ** Programs that count *)

Section Counting.
Context {host : Host}.

Definition same_refs (s s' : session) : Prop :=
  sn_refcount s' = sn_refcount s ∧ sn_bus_refs s' = sn_bus_refs s ∧ sn_handle s' = sn_handle s ∧
  sn_freed s' = sn_freed s.

(** A section leaves the references alone; one that runs after the handle was
    taken ([tk]) may begin the destruction. *)
Definition section_refs (tk : bool) (s s' : session) : Prop :=
  same_refs s s' ∧
  (sn_destroy_started s' = sn_destroy_started s ∨ tk = true ∧ sn_destroy_started s' = true).

(** A program that holds [n] references touches the structure only while [n]
    is positive, and ends with a number that [Q] allows. *)
Fixpoint balanced {A} (Q : Z -> A -> Prop) (tk : bool) (n : Z) (p : fsm_proc A) : Prop :=
  match p with
  | Done a => Q n a
  | Crash _ => True
  | Locked f => 0 < n ∧ ∀ s, let '(s', p') := f s in section_refs tk s s' ∧ balanced Q tk n p'
  | Ref op k =>
      match op with
      | HandleAcquire => balanced Q tk (n + 1) (k true) ∧ balanced Q tk n (k false)
      | CtxRetain => 0 < n ∧ balanced Q tk (n + 1) (k true) ∧ balanced Q tk n (k false)
      | RefRelease => 0 < n ∧ ∀ b, balanced Q tk (n - 1) (k b)
      | HandleTake => balanced Q true (n + 1) (k true) ∧ balanced Q tk n (k false)
      end
  | Act a k => ∀ r, 0 <= n - bus_refs_of a r ∧ balanced Q tk (n - bus_refs_of a r) (k r)
  end.

Lemma balanced_taken {A} (Q : Z -> A -> Prop) tk n p : balanced Q tk n p → balanced Q true n p.
Proof.
  revert tk n. induction p as [a|f|f IH|op k IH|a k IH] using proc_ind'; intros tk n; simpl; [done|done|..].
  - intros [Hn Hf]. split; [done|]. intros s. specialize (Hf s). specialize (IH s).
    destruct (f s) as [s' p']. destruct Hf as [[Hr Hd] Hp]. split; [|by eapply IH].
    split; [done|]. naive_solver.
  - destruct op; naive_solver.
  - intros Hk r. naive_solver.
Qed.

Lemma balanced_bind {A B} (P : Z -> A -> Prop) (Q : Z -> B -> Prop) tk n p (k : A -> fsm_proc B) :
  balanced P tk n p → (∀ m a, P m a → balanced Q tk m (k a)) → balanced Q tk n (p ≫= k).
Proof.
  unfold mbind, proc_bind. intros Hp Hk. revert tk n Hp Hk.
  induction p as [a|f|f IH|op j IH|a j IH] using proc_ind'; intros tk n Hp Hk; simpl in *; [auto|done|..].
  - destruct Hp as [Hn Hf]. split; [done|]. intros s. specialize (Hf s). specialize (IH s).
    destruct (f s) as [s' p']. destruct Hf as [Hr Hp]. split; [done|]. by eapply IH.
  - destruct op.
    + destruct Hp. split; by eapply IH.
    + destruct Hp as (? & ? & ?). split; [done|]. split; by eapply IH.
    + destruct Hp. split; [done|]. intros b. by eapply IH.
    + destruct Hp. split; [eapply IH|by eapply IH]; [done|]. intros m a Ha. by eapply balanced_taken, Hk.
  - intros r. destruct (Hp r). split; [done|]. by eapply IH.
Qed.

(** ** Programs that take and give none *)

Definition bus_act (a : fsm_io) : bool :=
  match a with IoSubscribe _ _ | IoUnsubscribe _ _ => true | _ => false end.

Definition untouched (s s' : session) : Prop :=
  same_refs s s' ∧ sn_destroy_started s' = sn_destroy_started s.

Fixpoint plain {A} (p : fsm_proc A) : Prop :=
  match p with
  | Done _ | Crash _ => True
  | Locked f => ∀ s, let '(s', p') := f s in untouched s s' ∧ plain p'
  | Ref _ _ => False
  | Act a k => bus_act a = false ∧ ∀ r, plain (k r)
  end.

Definition plain_section {A} (f : fsm_locked A) : Prop := ∀ s, untouched s (f s).1 ∧ plain (f s).2.

Lemma plain_locked {A} (f : fsm_locked A) : plain_section f → plain (Locked f).
Proof. intros Hf s. specialize (Hf s). by destruct (f s). Qed.

Lemma plain_bind {A B} (p : fsm_proc A) (k : A -> fsm_proc B) : plain p → (∀ a, plain (k a)) → plain (p ≫= k).
Proof.
  unfold mbind, proc_bind. intros Hp Hk. induction p as [a|f|f IH|op j IH|a j IH] using proc_ind'; simpl in *;
    [apply Hk|done| |done|].
  - intros s. specialize (Hp s). specialize (IH s). destruct (f s). naive_solver.
  - destruct Hp. split; [done|]. naive_solver.
Qed.

Lemma plain_balanced {A} (Q : Z -> A -> Prop) tk n p :
  plain p → 0 < n → (∀ a, Q n a) → balanced Q tk n p.
Proof.
  intros Hp Hn HQ. induction p as [a|f|f IH|op j IH|a j IH] using proc_ind'; simpl in *; [apply HQ|done| |done|].
  - split; [done|]. intros s. specialize (Hp s). specialize (IH s). destruct (f s) as [s' p'].
    destruct Hp as [[Hr Hd] Hp]. split; [|by apply IH]. split; [done|]. by left.
  - destruct Hp as [Ha Hj]. intros r. assert (bus_refs_of a r = 0) as -> by by destruct a.
    rewrite Z.sub_0_r. split; [lia|]. by apply IH.
Qed.

Lemma plain_reading {A} (f : session -> A) : plain (reading f).
Proof. by intros s. Qed.

Lemma plain_allocating {A B} (m : M A) (k : A + libbgp_err_t -> fsm_locked B) :
  (∀ r, plain_section (k r)) → plain_section (allocating m k).
Proof. intros Hk s. unfold allocating. destruct (m (sn_heap s)) as [[a|e|f] heap]; [..|done]; apply (Hk _ (with_heap s heap)). Qed.

Lemma plain_on_tables {A B} rib4 rib6 m (k : A + libbgp_err_t -> fsm_locked B) :
  (∀ r, plain_section (k r)) → plain_section (on_tables rib4 rib6 m k).
Proof.
  intros Hk s. unfold on_tables.
  destruct (deref_table (sn_rib4 s) rib4) as [t4|], (deref_table (sn_rib6 s) rib6) as [t6|]; try done.
  apply plain_allocating. intros [[[t4' t6'] a]|e] s'; [|apply Hk]. apply (Hk (inl a) (with_ribs s' _ _)).
Qed.

Lemma plain_calling {A} (m : M A) : plain (calling m).
Proof. apply plain_locked, plain_allocating. by intros r s. Qed.

Lemma plain_with_tables rib4 rib6 m : plain (with_tables rib4 rib6 m).
Proof. apply plain_locked, plain_on_tables. by intros r s. Qed.
End Counting.

Create HintDb fsm_plain.
#[export] Hint Resolve plain_calling plain_with_tables plain_reading : fsm_plain.

(** Walks through a program and through the sections that only change the
    structure. *)
Ltac plain_walk :=
  repeat first
    [ done
    | solve [auto 1 with fsm_plain nocore]
    | progress intros
    | match goal with
      | |- plain (_ ≫= _) => apply plain_bind
      | |- plain (mret _) => exact I
      | |- plain (Act _ _) => split; [reflexivity|]
      | |- plain (Locked _) => apply plain_locked
      | |- plain_section (allocating _ _) => apply plain_allocating
      | |- plain_section (on_tables _ _ _ _) => apply plain_on_tables
      | |- plain (match ?x with _ => _ end) => destruct x
      end ].
Ltac plain_section := intros ?s; cbv zeta; repeat case_match; (split; [done|cbn [snd]; plain_walk]).

(** ** The parts of the entry points *)

Section Parts.
Context {host : Host}.

Lemma plain_drain : plain drain_state_changes.
Proof. apply plain_locked. by intros s. Qed.

Lemma plain_dispatch_changes cb changes : plain (dispatch_changes cb changes).
Proof. induction changes as [|c changes IH]; cbn [dispatch_changes]; plain_walk. Qed.

Lemma plain_dispatch_drained d : plain (fsm_dispatch_drained_state_changes d).
Proof.
  destruct d as [[cb|] changes]; unfold fsm_dispatch_drained_state_changes, changing; plain_walk;
    apply plain_dispatch_changes.
Qed.

Lemma plain_dispatch : plain fsm_dispatch_state_changes_impl.
Proof. apply plain_bind; [apply plain_drain|apply plain_dispatch_drained]. Qed.

Lemma plain_out_send out buf : plain (out_send out buf).
Proof. apply plain_locked. intros s. by repeat case_match. Qed.

Lemma plain_send_loop fuel out rest : plain (send_loop fuel out rest).
Proof. revert rest. induction fuel as [|fuel IH]; intros rest; cbn [send_loop]; plain_walk. apply plain_out_send. Qed.

Lemma plain_send_packet out pkt : plain (fsm_send_packet out pkt).
Proof. unfold fsm_send_packet. plain_walk. apply plain_send_loop. Qed.

Lemma plain_send_keepalive out : plain (fsm_send_keepalive out).
Proof. apply plain_send_packet. Qed.

Lemma plain_send_notification out code subcode : plain (fsm_send_notification out code subcode).
Proof. apply plain_send_packet. Qed.

Lemma plain_send_open out cfg mp4 : plain (fsm_send_open out cfg mp4).
Proof. unfold fsm_send_open. plain_walk. apply plain_send_packet. Qed.

Lemma plain_publish bus publisher event : plain (publish bus publisher event).
Proof. unfold publish. plain_walk. Qed.

Lemma plain_publish_route4 bus publisher route : plain (fsm_publish_route4_added_snapshot bus publisher route).
Proof. unfold fsm_publish_route4_added_snapshot. plain_walk. apply plain_publish. Qed.

Lemma plain_publish_route6 bus publisher route : plain (fsm_publish_route6_added_snapshot bus publisher route).
Proof. unfold fsm_publish_route6_added_snapshot. plain_walk. apply plain_publish. Qed.

Lemma plain_publish_entry generation has_event k :
  (∀ a w, plain (k a w)) → plain (publish_entry generation has_event k).
Proof. intros Hk. unfold publish_entry, fsm_publish_snapshot_current. plain_walk. Qed.

Lemma plain_publish_event_refs generation bus peer journal refs :
  plain (publish_event_refs generation bus peer journal refs).
Proof.
  induction refs as [|r refs IH]; cbn [publish_event_refs]; [done|]. apply plain_bind; [|plain_walk].
  unfold publish_event_ref. destruct (er_kind r); case_match; try done; apply plain_publish_entry; intros a w;
    plain_walk; first [apply plain_publish_route4|apply plain_publish_route6|apply plain_publish].
Qed.

Lemma plain_each {A} (f : A -> fsm_proc unit) xs : (∀ x, plain (f x)) → plain (each f xs).
Proof. intros Hf. induction xs as [|x xs IH]; cbn [each]; plain_walk. Qed.

Lemma plain_discard_torn_down td : plain (discard_torn_down td).
Proof.
  unfold discard_torn_down, fsm_discard_peer_routes_publish, publish_discarded4, publish_discarded6.
  plain_walk; (split; [done|]; cbn [snd]); plain_walk; apply plain_each; intros;
    first [apply plain_publish_route4|apply plain_publish_route6|apply plain_publish].
Qed.

Lemma plain_session_down bus : plain (session_down bus).
Proof. apply plain_publish. Qed.
End Parts.

#[export] Hint Resolve plain_drain plain_dispatch_drained plain_dispatch plain_send_packet
  plain_send_keepalive plain_send_notification plain_send_open plain_publish plain_publish_event_refs
  plain_discard_torn_down plain_session_down : fsm_plain.

Section Handlers.
Context {host : Host}.

Lemma plain_teardown_current generation : plain (fsm_teardown_current_established generation).
Proof. apply plain_locked. unfold teardown. plain_section. Qed.

Lemma plain_send_prepared out update to policy : plain (fsm_send_prepared_update out update to policy).
Proof. unfold fsm_send_prepared_update, fsm_send_borrowed_update. destruct to as [[??]?]. plain_walk. Qed.

Lemma plain_send_route_event out event to policy : plain (fsm_send_route_event_update out event to policy).
Proof.
  unfold fsm_send_route_event_update, fsm_send_route_added4, fsm_send_route_added6, fsm_send_withdraw4,
    fsm_send_withdraw6. repeat case_match; plain_walk; apply plain_send_prepared.
Qed.

Lemma plain_advertise_route snap source ibgp permits to_update :
  plain (advertise_route snap source ibgp permits to_update).
Proof. unfold advertise_route, fsm_established_snapshot_current. plain_walk. apply plain_send_prepared. Qed.

Lemma plain_advertise_all {R} (cb : R -> fsm_proc (bool * libbgp_err_t)) routes :
  (∀ r, plain (cb r)) → plain (advertise_all cb routes).
Proof. intros Hcb. induction routes as [|r routes IH]; cbn [advertise_all]; plain_walk. Qed.

Lemma plain_advertise4 snap : plain (fsm_advertise_existing_rib4 snap).
Proof.
  unfold fsm_advertise_existing_rib4. repeat case_match; try done. apply plain_locked. intros s. case_match; [|done].
  apply plain_allocating. intros [[snapshots e]|e] s'; (split; [done|]; cbn [snd]); plain_walk.
  apply plain_advertise_all. intros route. apply plain_advertise_route.
Qed.

Lemma plain_advertise6 snap : plain (fsm_advertise_existing_rib6 snap).
Proof.
  unfold fsm_advertise_existing_rib6. repeat case_match; try done. apply plain_locked. intros s. case_match; [|done].
  apply plain_allocating. intros [[snapshots e]|e] s'; (split; [done|]; cbn [snd]); plain_walk.
  apply plain_advertise_all. intros route. unfold fsm_advertise_rib6_cb, fsm_established_snapshot_current.
  plain_walk. apply plain_advertise_route.
Qed.

Lemma plain_run_established snap : plain (fsm_run_established_actions snap).
Proof.
  unfold fsm_run_established_actions, fsm_established_snapshot_current, fsm_publish_event. cbv zeta.
  plain_walk; auto using plain_advertise4, plain_advertise6, plain_teardown_current.
Qed.

Lemma plain_route_event_cb event : plain (fsm_route_event_cb event).
Proof.
  unfold fsm_route_event_cb, forward_route_event, fsm_collision_event_cb, teardown.
  case_match; plain_walk; auto using plain_send_route_event, plain_teardown_current. plain_section.
Qed.
End Handlers.

#[export] Hint Resolve plain_run_established plain_route_event_cb : fsm_plain.

Section EntryPoints.
Context {host : Host}.

Lemma plain_reject {A} notify (result : A) : plain_section (reject notify result).
Proof. unfold reject, teardown. plain_section. Qed.

Lemma plain_check_open open k : (∀ families, plain_section (k families)) → plain_section (check_open open k).
Proof.
  intros Hk s. unfold check_open. case_match; [case_match; apply plain_reject|].
  unfold fsm_collision_reject_new_locked. cbv zeta.
  destruct (ln_bus _) as [bus|]; [|apply Hk]. destruct (po_no_collision_detection _); [apply Hk|].
  split; [done|]. split; [done|]. intros handled. apply plain_locked. intros s'. unfold teardown.
  case_match; [split; [done|cbn [snd]; plain_walk]|apply Hk].
Qed.

Lemma plain_after_keepalive generation e : plain_section (after_keepalive generation e).
Proof. unfold after_keepalive. plain_section. Qed.

Lemma plain_on_open_sent pkt : plain_section (fsm_on_open_sent pkt).
Proof.
  intros s. unfold fsm_on_open_sent. case_match; try apply plain_reject. apply plain_check_open.
  intros families s'. split; [done|]. cbn [snd]. plain_walk. apply plain_after_keepalive.
Qed.

Lemma plain_relock generation e : plain (relock_after_send generation e).
Proof. apply plain_locked. plain_section. Qed.

Lemma plain_after_passive_keepalive generation : plain_section (after_passive_keepalive generation).
Proof. unfold after_passive_keepalive. plain_section; apply plain_relock. Qed.

Lemma plain_after_passive_open generation out : plain (after_passive_open generation out).
Proof.
  apply plain_locked. intros s. case_match; (split; [done|]); cbn [snd]; [|apply plain_relock].
  apply plain_locked. intros s'. case_match; (split; [done|]); cbn [snd]; [|apply plain_relock].
  plain_walk; [apply plain_after_passive_keepalive|apply plain_relock].
Qed.

Lemma plain_on_pre_open_open open : plain_section (fsm_on_pre_open_open open).
Proof.
  apply plain_check_open. intros families s. split; [done|]. cbn [snd]. plain_walk;
    [apply plain_after_passive_open|apply plain_relock].
Qed.

Lemma plain_on_open_confirm pkt : plain_section (fsm_on_open_confirm pkt).
Proof.
  intros s. unfold fsm_on_open_confirm, establish. cbv zeta.
  repeat case_match; try apply plain_reject; (split; [done|]); cbn [snd]; plain_walk.
Qed.

Lemma plain_down_and_dispatch td send result : plain send → plain (down_and_dispatch td send result).
Proof. intros Hsend. unfold down_and_dispatch. plain_walk. Qed.

Lemma plain_update_applied generation peer bus rib4 rib6 rx journal subcode e :
  plain_section (update_applied generation peer bus rib4 rib6 rx journal subcode e).
Proof. unfold update_applied, fsm_publish_update_events, teardown. plain_section. Qed.

Lemma plain_on_established pkt : plain_section (fsm_on_established pkt).
Proof.
  intros s. unfold fsm_on_established, on_update, teardown. cbv zeta.
  repeat case_match; try (split; [done|cbn [snd]; plain_walk; apply plain_down_and_dispatch; plain_walk]).
  apply plain_on_tables. intros [[[journal subcode] e]|e]; [apply plain_update_applied|]. by intros s'.
Qed.

Lemma plain_dispatch_packet pkt : plain_section (dispatch_packet pkt).
Proof.
  intros s. unfold dispatch_packet.
  assert (Hnothing : untouched s s ∧ plain (mret LIBBGP_OK)) by done.
  destruct (pkt_data pkt) as [open|update|msg| |raw];
    try (destruct (fs_state (sn_impl s)); lazymatch goal with
         | |- context [fsm_on_pre_open_open] => apply plain_on_pre_open_open
         | |- context [fsm_on_open_sent] => apply plain_on_open_sent
         | |- context [fsm_on_established] => apply plain_on_established
         | |- context [on_notification] => fail
         | |- context [fsm_on_open_confirm] => apply plain_on_open_confirm
         | |- _ => exact Hnothing
         end).
  unfold on_notification, teardown. split; [done|]. cbn [snd]. plain_walk. by apply plain_down_and_dispatch.
Qed.

Lemma plain_on_parse_error detail : plain_section (on_parse_error detail).
Proof. unfold on_parse_error, teardown. plain_section. Qed.

Lemma plain_down_if was td d : plain (down_if_established was td d).
Proof. unfold down_if_established. plain_walk. Qed.

Lemma plain_after_timed_keepalive state generation now e :
  plain_section (after_timed_keepalive state generation now e).
Proof.
  intros s. unfold after_timed_keepalive, teardown. cbv zeta. case_decide; [by case_match|].
  case_match; (split; [done|]); cbn [snd]; plain_walk. apply plain_down_if.
Qed.

Lemma plain_tick now : plain_section (tick now).
Proof.
  intros s. unfold tick, teardown. cbv zeta. repeat case_match; (split; [done|]); cbn [snd]; plain_walk;
    first [apply plain_down_if|apply plain_after_timed_keepalive].
Qed.

Lemma plain_enter_pre_open state : plain_section (enter_pre_open state).
Proof. unfold enter_pre_open. plain_section. Qed.

Lemma plain_start : plain_section start.
Proof. unfold start. plain_section. unfold after_start. split; [by repeat case_match|cbn [snd]; plain_walk]. Qed.

Lemma plain_reset send_notify cease_subcode : plain_section (reset send_notify cease_subcode).
Proof. unfold reset, teardown. plain_section. Qed.

(** ** The entry points *)

(** What an entry point that ended holds. *)
Definition held_none {A} (n : Z) (_ : A) : Prop := n = 0.

Lemma balanced_with_handle {A} (without : A) body tk n :
  0 <= n → balanced (λ m _, m = n + 1) tk (n + 1) body → balanced (λ m _, m = n) tk n (with_handle without body).
Proof.
  intros Hn Hb. split; [|done]. eapply balanced_bind; [exact Hb|]. cbn. intros m a ->. split; [lia|].
  intros _. lia.
Qed.

Lemma balanced_handle_plain {A} (without : A) body tk n :
  0 <= n → plain body → balanced (λ m _, m = n) tk n (with_handle without body).
Proof. intros Hn Hb. apply balanced_with_handle; [done|]. apply plain_balanced; [done|lia|done]. Qed.

Lemma balanced_on_packet pkt tk n : 0 <= n → balanced (λ m _, m = n) tk n (libbgp_fsm_on_packet pkt).
Proof. intros Hn. apply balanced_handle_plain; [done|]. apply plain_locked, plain_dispatch_packet. Qed.

Lemma balanced_on_raw_packet buf : balanced held_none false 0 (libbgp_fsm_on_raw_packet buf).
Proof.
  apply balanced_with_handle; [done|].
  eapply balanced_bind; [apply (plain_balanced (λ m _, m = 1)); [apply plain_reading|lia|done]|].
  intros m use_4b_asn ->.
  eapply balanced_bind; [apply (plain_balanced (λ m _, m = 1)); [apply plain_calling|lia|done]|]. intros m r ->.
  assert (Hfails : ∀ e detail, balanced (λ m (_ : libbgp_err_t), m = 0 + 1) false 1
            (if det_notify_code detail =? 0 then mret e else Locked (on_parse_error detail))).
  { intros e detail. apply plain_balanced; [|lia|done]. case_match; [done|]. apply plain_locked, plain_on_parse_error. }
  cbv zeta. destruct r as [[[pkt consumed]|[e detail]]|e]; [|apply Hfails|done].
  case_match; [by apply balanced_on_packet|apply Hfails].
Qed.
End EntryPoints.

Section Objects.
Context {host : Host}.

Lemma balanced_unsubscribe bus id tk n : 0 < n → balanced (λ m _, m = n) tk n (unsubscribe bus id).
Proof.
  intros Hn. unfold unsubscribe. case_match; [done|]. intros [|]; cbn; (split; [lia|]); [|lia].
  split; [lia|]. intros _. lia.
Qed.

Lemma balanced_unsubscribe_all bus ids tk n :
  0 < n → balanced (λ m _, m = n) tk n (fsm_unsubscribe_route_events bus ids).
Proof.
  intros Hn. unfold fsm_unsubscribe_route_events. destruct bus as [bus|]; [|done]. destruct ids as [[a w] c].
  eapply balanced_bind; [by apply balanced_unsubscribe|]. intros m _ ->.
  eapply balanced_bind; [by apply balanced_unsubscribe|]. intros m _ ->. by apply balanced_unsubscribe.
Qed.

Lemma balanced_subscribe bus type tk n : 0 < n → balanced (λ m _, m = n) tk n (subscribe bus type).
Proof.
  intros Hn. unfold subscribe. cbn. split; [done|]. split; [|done].
  intros [id|e]; cbn; (split; [lia|]); [lia|]. split; [lia|]. intros _. lia.
Qed.

Lemma balanced_join_bus bus tk n : 0 < n → balanced (λ m _, m = n) tk n (join_bus bus).
Proof.
  intros Hn. unfold join_bus. eapply balanced_bind; [by apply balanced_subscribe|]. intros m add ->.
  eapply (balanced_bind (λ m _, m = n)); [destruct add; [by apply balanced_subscribe|done]|]. intros m withdraw ->.
  eapply (balanced_bind (λ m _, m = n)); [destruct withdraw; [by apply balanced_subscribe|done]|].
  intros m collision ->. cbv zeta.
  repeat case_match; try done;
    (eapply balanced_bind; [by apply balanced_unsubscribe_all|]); by intros m ? ->.
Qed.

Lemma balanced_set_event_bus bus : balanced held_none false 0 (libbgp_fsm_set_event_bus bus).
Proof.
  apply balanced_with_handle; [done|]. change (0 + 1) with 1.
  eapply (balanced_bind (λ m _, m = 1)); [by apply plain_balanced; [apply plain_locked; intros s|..]|].
  intros m [old_bus old_ids] ->.
  eapply balanced_bind; [by apply balanced_unsubscribe_all|]. intros m _ ->.
  eapply (balanced_bind (λ m _, m = 1)); [destruct bus; [by apply balanced_join_bus|done]|]. intros m ids ->.
  split; [done|]. intros s. case_match; case_match; simplify_eq; (split; [by split; [|left]|]); [|done].
  by apply balanced_unsubscribe_all.
Qed.

Lemma balanced_destroy : balanced held_none false 0 libbgp_fsm_destroy.
Proof.
  split; [|done]. cbn [Z.add]. split; [done|]. intros s. cbv zeta. split; [by split; [|right]|].
  eapply balanced_bind; [by apply balanced_unsubscribe_all|]. intros m _ ->.
  eapply (balanced_bind (λ m _, m = 1)).
  { apply plain_balanced; [|lia|done]. case_match; [apply plain_with_tables|done]. }
  intros m _ ->. cbn. by split.
Qed.

Lemma balanced_call p : fsm_call p → balanced held_none false 0 p.
Proof.
  assert (Hthen : ∀ A (q : fsm_proc A), balanced held_none false 0 q → balanced held_none false 0 (q;; mret tt)).
  { intros A q Hq. eapply balanced_bind; [exact Hq|]. by intros m a ->. }
  intros Hp. destruct Hp;
    try (apply Hthen; first [by apply balanced_on_packet|apply balanced_on_raw_packet|
      (apply balanced_handle_plain; [done|]); first [apply plain_reading|apply plain_locked,plain_tick|
         apply plain_locked,plain_enter_pre_open|apply plain_locked,plain_start|apply plain_locked,plain_reset]]);
    try (apply balanced_handle_plain; [done|]; by apply plain_locked; intros s).
  - apply balanced_set_event_bus.
  - apply balanced_destroy.
Qed.

Lemma balanced_delivered event : balanced held_none false 1 (delivered event).
Proof.
  eapply (balanced_bind (λ m _, m = 1)); [by apply plain_balanced; [apply plain_route_event_cb|..]|].
  intros m handled ->. cbn. by split.
Qed.

(** ** Any interleaving *)

(** What a program that is under way holds. *)
Definition holds (s : session) (t : bool * Z) (p : fsm_proc unit) : Prop :=
  0 <= t.2 ∧ (t.1 = true → sn_handle s = false) ∧ balanced held_none t.1 t.2 p.

Definition total (ts : list (bool * Z)) : Z := foldr (λ t n, t.2 + n) 0 ts.

Lemma total_app ts ts' : total (ts ++ ts') = total ts + total ts'.
Proof. unfold total. induction ts as [|t ts IH]; simpl; lia. Qed.

Lemma total_pos s ts ps : Forall2 (holds s) ts ps → 0 <= total ts.
Proof. unfold total. induction 1 as [|t p ts ps [Ht _] _ IH]; simpl; lia. Qed.

(** The count is right, and the structure is freed with the last reference. *)
Definition counted (s : session) (ts : list (bool * Z)) : Prop :=
  sn_refcount s = Z.b2z (sn_handle s) + total ts + sn_bus_refs s ∧ 0 <= sn_bus_refs s ∧
  (sn_destroy_started s = true → sn_handle s = false) ∧
  (sn_freed s = true ↔ sn_destroy_started s = true ∧ sn_refcount s = 0).

Definition refs_ok (c : session * list (fsm_proc unit)) : Prop :=
  ∃ ts, Forall2 (holds c.1) ts c.2 ∧ counted c.1 ts.

Lemma holds_mono s s' t p : (sn_handle s = false → sn_handle s' = false) → holds s t p → holds s' t p.
Proof. unfold holds. naive_solver. Qed.

(** One of the programs, and the references of the others. *)
Lemma refs_ok_split s ps1 p ps2 :
  refs_ok (s, ps1 ++ p :: ps2) →
  ∃ t others, holds s t p ∧ 0 <= others ∧
    sn_refcount s = Z.b2z (sn_handle s) + (t.2 + others) + sn_bus_refs s ∧ 0 <= sn_bus_refs s ∧
    (sn_destroy_started s = true → sn_handle s = false) ∧
    (sn_freed s = true ↔ sn_destroy_started s = true ∧ sn_refcount s = 0) ∧
    ∀ s' t' p',
      (sn_handle s = false → sn_handle s' = false) → holds s' t' p' →
      sn_refcount s' = Z.b2z (sn_handle s') + (t'.2 + others) + sn_bus_refs s' → 0 <= sn_bus_refs s' →
      (sn_destroy_started s' = true → sn_handle s' = false) →
      (sn_freed s' = true ↔ sn_destroy_started s' = true ∧ sn_refcount s' = 0) →
      refs_ok (s', ps1 ++ p' :: ps2).
Proof.
  intros (ts & Hts & Hc). cbn in *.
  apply Forall2_app_inv_r in Hts as (ts1 & ts2' & Hts1 & Hts2 & ->).
  apply Forall2_cons_inv_r in Hts2 as (t & ts2 & Ht & Hts2 & ->).
  destruct Hc as (Hsum & Hbus & Hdest & Hfree). rewrite total_app in Hsum. cbn in Hsum. fold (total ts2) in Hsum.
  exists t, (total ts1 + total ts2). split; [done|].
  split; [pose proof (total_pos _ _ _ Hts1); pose proof (total_pos _ _ _ Hts2); lia|].
  split; [lia|]. split; [done|]. split; [done|]. split; [done|].
  intros s' t' p' Hh Ht' Hsum' Hbus' Hdest' Hfree'. exists (ts1 ++ t' :: ts2). cbn [fst snd]. split.
  - apply Forall2_app; [|constructor; [done|]]; (eapply Forall2_impl; [eassumption|]); intros; by eapply holds_mono.
  - split; [|done]. rewrite total_app. cbn. fold (total ts2). lia.
Qed.

Lemma refs_step_locked s ps1 ps2 f s' p :
  refs_ok (s, ps1 ++ Locked f :: ps2) → f s = (s', p) → refs_ok (s', ps1 ++ p :: ps2).
Proof.
  intros Hok Hf. destruct (refs_ok_split _ _ _ _ Hok) as ([tk n] & others & Ht & Ho & Hsum & Hbus & Hdest & Hfree & Hnew).
  destruct Ht as (Hn0 & Htk & [Hn Hsec]). cbn in *. specialize (Hsec s). rewrite Hf in Hsec.
  destruct Hsec as [[(H1 & H2 & H3 & H4) H5] Hp]. apply (Hnew s' (tk, n)); cbn; rewrite ?H1, ?H2, ?H3, ?H4.
  - done.
  - split; [done|]. by rewrite H3.
  - done.
  - done.
  - destruct H5 as [->|[-> _]]; auto.
  - rewrite Hfree. split; intros [Hd Hr]; destruct (sn_handle s); cbn in Hsum; lia.
Qed.

Lemma refs_step_ref s ps1 ps2 op k b s' :
  refs_ok (s, ps1 ++ Ref op k :: ps2) → fsm_ref_op op s = (b, s') → refs_ok (s', ps1 ++ k b :: ps2).
Proof.
  intros Hok Hop. destruct (refs_ok_split _ _ _ _ Hok) as ([tk n] & others & Ht & Ho & Hsum & Hbus & Hdest & Hfree & Hnew).
  destruct Ht as (Hn0 & Htk & Hb). cbn [fst snd] in *. destruct op; cbn in Hop, Hb.
  - destruct Hb as [Hb1 Hb2]. unfold fsm_handle_acquire, fsm_impl_acquire in Hop.
    destruct (sn_handle s) eqn:Hh; [destruct (sn_destroy_started s) eqn:Hd; [by specialize (Hdest eq_refl)|]|]; simplify_eq.
    + apply (Hnew _ (tk, n + 1)); cbn; rewrite ?Hh, ?Hd; try done; [by split; [cbn; lia|]|cbn in Hsum; lia|].
      rewrite Hfree. naive_solver.
    + by apply (Hnew _ (tk, n)); cbn; rewrite ?Hh.
  - destruct Hb as (Hn & Hb1 & Hb2). unfold fsm_impl_acquire in Hop. case_match eqn:Hd; simplify_eq.
    + apply (Hnew _ (tk, n)); cbn; rewrite ?Hd; try done.
    + apply (Hnew _ (tk, n + 1)); cbn; rewrite ?Hd; try done; [by split; [cbn; lia|]|lia|].
      rewrite Hfree. naive_solver.
  - destruct Hb as [Hn Hb]. unfold fsm_impl_release in Hop.
    assert (0 < sn_refcount s) by (destruct (sn_handle s); cbn in Hsum; lia).
    replace (0 <? sn_refcount s) with true in Hop by lia. simplify_eq.
    apply (Hnew _ (tk, n - 1)); cbn; try done; [by split; [cbn; lia|]|lia|].
    assert (sn_freed s = false) as ->. { apply not_true_iff_false. rewrite Hfree. lia. }
    cbn. rewrite andb_true_iff, Z.eqb_eq. done.
  - destruct Hb as [Hb1 Hb2]. simplify_eq. destruct (sn_handle s) eqn:Hh.
    + apply (Hnew _ (true, n + 1)); cbn; try done; [by split; [cbn; lia|]|cbn in Hsum; lia].
    + by apply (Hnew _ (tk, n)); cbn; rewrite ?Hh.
Qed.

Lemma refs_step c c' : fsm_pool_step c c' → refs_ok c → refs_ok c'.
Proof.
  intros Hstep. destruct Hstep as [s ps p s' Hcall|s ps1 ps2 f s' p Hf|s ps1 ps2 op k b s' Hop|s ps1 ps2 a k r s' Hr|s ps1 ps2 u|s s' ps Hout];
    intros Hok.
  - destruct Hok as (ts & Hts & Hsum & Hc). cbn in *. destruct Hcall as [[Hp ->]|(event & -> & Hb & Hacq)].
    + exists ((false, 0) :: ts). split; [|exact (conj Hsum Hc)].
      constructor; [|done]. split; [done|]. split; [done|]. by apply balanced_call.
    + unfold fsm_impl_acquire in Hacq. destruct (sn_destroy_started s) eqn:Hd; simplify_eq.
      exists ((false, 1) :: ts). split.
      * constructor; [|done]. split; [done|]. split; [done|]. apply balanced_delivered.
      * unfold counted. cbn. fold (total ts). rewrite Hd in *. split; [lia|]. naive_solver.
  - by eapply refs_step_locked.
  - by eapply refs_step_ref.
  - destruct (refs_ok_split _ _ _ _ Hok) as ([tk n] & others & (Hn & Htk & Hb) & Ho & Hsum & Hbus & Hdest & Hfree & Hnew).
    destruct Hr as [Hpos ->]. destruct (Hb r) as [Hn' Hb']. cbn in *.
    apply (Hnew _ (tk, n - bus_refs_of a r)); cbn; try done. lia.
  - destruct (refs_ok_split _ _ _ _ Hok) as ([tk n] & others & (Hn & Htk & Hb) & Ho & Hsum & Hc).
    unfold held_none in Hb. cbn in *. subst n. destruct Hok as (ts & Hts & Hcount). cbn in *.
    apply Forall2_app_inv_r in Hts as (ts1 & ts2' & Hts1 & Hts2 & ->).
    apply Forall2_cons_inv_r in Hts2 as (t & ts2 & (_ & _ & Ht) & Hts2 & ->). unfold held_none in Ht. cbn in Ht.
    exists (ts1 ++ ts2). split; [by apply Forall2_app|]. unfold counted in *. rewrite total_app in *. cbn in *.
    rewrite Ht, Z.add_0_l in Hcount. done.
  - destruct Hout as (rib4 & rib6 & out & heap & ->). destruct Hok as (ts & Hts & Hc). by exists ts.
Qed.

Lemma reachable_refs config c : fsm_reachable config c → refs_ok c.
Proof.
  intros (s0 & (_ & Hr & Hd & Hb & Hh & Hf) & Hsteps).
  assert (Hinit : refs_ok (s0, [])).
  { exists []. split; [constructor|]. unfold counted. cbn. rewrite Hr, Hd, Hb, Hh, Hf. naive_solver lia. }
  clear Hr Hd Hb Hh Hf. induction Hsteps as [c|c c1 c' Hstep _ IH]; [done|]. by apply IH, (refs_step c).
Qed.

Lemma freed_step c c' : fsm_pool_step c c' → refs_ok c → sn_freed c.1 = true → sn_freed c'.1 = true.
Proof.
  intros Hstep Hok Hf. destruct Hstep as [s ps p s' Hcall|s ps1 ps2 f s' p Hrun|s ps1 ps2 op k b s' Hop|s ps1 ps2 a k r s' Hr|s ps1 ps2 u|s s' ps Hout];
    cbn in *; [| | |by destruct Hr as [_ ->]|done|by destruct Hout as (? & ? & ? & ? & ->)].
  - destruct Hcall as [[_ ->]|(event & _ & _ & Hacq)]; [done|]. unfold fsm_impl_acquire in Hacq. by case_match; simplify_eq.
  - destruct (refs_ok_split _ _ _ _ Hok) as (t & others & (_ & _ & _ & Hsec) & _). specialize (Hsec s).
    rewrite Hrun in Hsec. by destruct Hsec as [[(_ & _ & _ & ->) _] _].
  - destruct op; cbn in Hop; unfold fsm_handle_acquire, fsm_impl_acquire, fsm_impl_release in Hop;
      repeat case_match; simplify_eq; cbn; by rewrite ?Hf.
Qed.

Lemma freed_forever c c' : rtc fsm_pool_step c c' → refs_ok c → sn_freed c.1 = true → sn_freed c'.1 = true.
Proof.
  intros Hsteps. induction Hsteps as [c|c c1 c' Hstep _ IH]; [done|]. intros Hok Hf.
  apply IH; [by eapply refs_step|by eapply freed_step].
Qed.

(** ** Theorem *)

(** The program is about to use the structure. *)
Definition uses (p : fsm_proc unit) : bool :=
  match p with
  | Locked _ | Ref CtxRetain _ | Ref RefRelease _ => true
  | _ => false
  end.

Lemma uses_holds s t p : holds s t p → uses p = true → 0 < t.2.
Proof. intros (_ & _ & Hb) Hu. destruct p as [| | |[] k|]; try done; by destruct Hb. Qed.

(** C2: The structure of a session is not used after it was freed, is freed
    exactly once, and is not leaked.  Whatever entry points and deliveries of
    events are under way, in whatever order their sections run: the structure
    is freed exactly when [libbgp_fsm_destroy] has run and the count is zero.
    Then the handle is cleared, no event bus keeps a reference and no entry
    point that is still under way is going to lock it, retain it or release
    it; and this stays so.  Before that the count is at least one for every entry point that is going to. *)
Theorem fsm_no_use_after_free config s ps :
  fsm_reachable config (s, ps) →
  (sn_freed s = true ↔ sn_destroy_started s = true ∧ sn_refcount s = 0) ∧
  (sn_freed s = true → sn_handle s = false ∧ sn_bus_refs s = 0 ∧ Forall (λ p, uses p = false) ps) ∧
  (∀ c', rtc fsm_pool_step (s, ps) c' → sn_freed s = true → sn_freed c'.1 = true) ∧
  Z.of_nat (length (filter (λ p, uses p = true) ps)) + Z.b2z (sn_handle s) + sn_bus_refs s <= sn_refcount s.
Proof.
  intros Hok%reachable_refs. pose proof Hok as (ts & Hts & Hsum & Hbus & Hdest & Hfree). cbn in *. split; [done|].
  assert (Huses : Z.of_nat (length (filter (λ p, uses p = true) ps)) <= total ts).
  { clear -Hts. induction Hts as [|t p ts ps Ht _ IH]; [done|]. change (total (t :: ts)) with (t.2 + total ts).
    rewrite filter_cons. case_decide as Hu; cbn [length].
    - pose proof (uses_holds _ _ _ Ht Hu). lia.
    - destruct Ht. lia. }
  split; [|split; [|lia]]; [|intros c' Hsteps; by apply (freed_forever (s, ps))]. intros Hf. apply Hfree in Hf as [Hd Hr]. rewrite (Hdest Hd) in *. cbn in Hsum.
  pose proof (total_pos _ _ _ Hts). split; [done|]. split; [lia|].
  apply Forall_forall. intros p Hp. destruct (uses p) eqn:Hu; [|done].
  assert (Hin : p ∈ filter (λ p, uses p = true) ps) by by apply list_elem_of_filter.
  assert (length (filter (λ p, uses p = true) ps) = 0%nat) as Hl%nil_length_inv by lia.
  rewrite Hl in Hin. by apply elem_of_nil in Hin.
Qed.
End Objects.

(** ** A session that is destroyed *)

Section Example.
Context {host : Host}.

Definition destroyed : session :=
  let s := begin_destroy (fresh_session (sample_config 65001 0x0a000001)) in
  (fsm_impl_release (with_refs s 1 false false)).2.

Lemma destroyed_reachable : fsm_reachable (sample_config 65001 0x0a000001) (destroyed, [Done tt]).
Proof.
  exists (fresh_session (sample_config 65001 0x0a000001)). split; [by split_and!|].
  eapply rtc_l; [apply pool_call; left; split; [apply call_destroy|done]|].
  eapply rtc_l; [apply (pool_ref _ _ _ _ _ [] []); reflexivity|].
  eapply rtc_l; [apply (pool_locked _ _ _ _ _ [] []); reflexivity|].
  eapply rtc_l; [apply (pool_ref _ _ _ _ _ [] []); reflexivity|]. apply rtc_refl.
Qed.
End Example.

#[local] Existing Instance little_endian_host.

Lemma fsm_no_use_after_free_witness :
  sn_freed destroyed = true ∧ sn_destroy_started destroyed = true ∧ sn_refcount destroyed = 0.
Proof.
  destruct (fsm_no_use_after_free _ _ _ destroyed_reachable) as [Hfree _].
  assert (Hf : sn_freed destroyed = true) by reflexivity.
  exact (conj Hf (proj1 Hfree Hf)).
Defined.
