(* ===== verification/FsmRun.v ===== *)
(** * The session alone: sending

    Runs of the session's programs with nobody else around: the environment
    answers the calls but leaves the state alone.  A packet is handed to the
    output handler in as many pieces as it takes. *)

From stdpp Require Import gmap.
From S2P Require Import Prelude Bytes Prefix4 Prefix6 Open Notification Pattr PattrSpec Update UpdateSpec As4 Packet PacketSpec Filter Event Hashmap Rib RibTable Rib46 Fsm FsmUpdate Out Proc ProcSpec FsmSession FsmForward FsmHandlers FsmObject FsmSample.

Section Run.
Context {host : Host}.

(** The answers of the outside, by the number of the call. *)
Definition answers : Type := ∀ (n : nat) (a : fsm_io), io_answer a.

Definition quiet (ans : answers) : environment session fsm_io io_answer := λ n a s, (ans n a, s).

#[local] Abbreviation alone ans n p s := (run fsm_ref_op (quiet ans) n p s).

(** What a send function takes of the bytes it is given; an answer outside
    [1 .. len] takes nothing. *)
Definition taken (bytes : list Z) (ret : Z) : list Z :=
  if (0 <? ret) && (ret <=? zlen bytes) then take (Z.to_nat ret) bytes else [].

Definition taken_by (a : fsm_io) : io_answer a -> list Z :=
  match a with
  | IoSend _ bytes => λ ret, taken bytes ret
  | _ => λ _, []
  end.

(** The bytes that went out, in order. *)
Fixpoint transmitted (ans : answers) (n : nat) (acts : list fsm_io) : list Z :=
  match acts with
  | [] => []
  | a :: acts' => taken_by a (ans n a) ++ transmitted ans (S n) acts'
  end.

(** ** Steps *)

Lemma with_heap_heap s heap heap' : with_heap (with_heap s heap) heap' = with_heap s heap'.
Proof. done. Qed.

Lemma with_heap_id s : with_heap s (sn_heap s) = s.
Proof. by destruct s. Qed.

Lemma alone_calling {A} ans n (m : M A) s :
  alone ans n (calling m) s =
  match m (sn_heap s) with
  | (Ret a, heap) => (inl (inl a), with_heap s heap, [])
  | (Err e, heap) => (inl (inr e), with_heap s heap, [])
  | (Fault f, heap) => (inr f, with_heap s heap, [])
  end.
Proof.
  unfold calling. cbn [run]. unfold allocating. by destruct (m (sn_heap s)) as [[a|e|f] heap].
Qed.

Lemma alone_bind {A B} ans n (p : fsm_proc A) (k : A -> fsm_proc B) s :
  alone ans n (p ≫= k) s =
  let '(r, s', acts) := alone ans n p s in
  match r with
  | inl a => let '(r', s'', acts') := alone ans (n + length acts) (k a) s' in (r', s'', acts ++ acts')
  | inr f => (inr f, s', acts)
  end.
Proof. apply run_bind. Qed.

(** [p] calls nobody and returns [a]: what follows runs from there. *)
Lemma alone_bind_silent {A B} ans n (p : fsm_proc A) (k : A -> fsm_proc B) s a s' :
  alone ans n p s = (inl a, s', []) → alone ans n (p ≫= k) s = alone ans n (k a) s'.
Proof.
  intros Hp. rewrite alone_bind, Hp. cbn [length]. rewrite Nat.add_0_r.
  by destruct (alone ans n (k a) s') as [[r s''] acts].
Qed.

(** ** The sending loop *)

Definition handler_target (s : session) (out : Z) : option io_target :=
  sn_out s !! out ≫= out_handler_target io_send_fn.

Lemma alone_out_send ans n out s target bytes :
  handler_target s out = Some target → bytes ≠ [] →
  alone ans n (out_send out bytes) s =
  (inl (let ret := ans n (IoSend target bytes) in
        if ret <? 0 then inr LIBBGP_ERR_WRITE else inl ret), s, [IoSend target bytes]).
Proof.
  unfold handler_target. intros Ht Hb. unfold out_send. cbn [run].
  destruct (sn_out s !! out) as [handler|]; [|done]. cbn [mbind option_bind] in Ht.
  unfold libbgp_out_handler_send. rewrite Ht.
  destruct (zlen bytes =? 0) eqn:Hz; [by destruct bytes|]. done.
Qed.

Lemma send_loop_spec ans fuel n out s target bytes :
  handler_target s out = Some target → (length bytes <= fuel)%nat →
  ∃ e acts, alone ans n (send_loop fuel out bytes) s = (inl e, s, acts) ∧
    (length acts <= length bytes)%nat ∧
    transmitted ans n acts `prefix_of` bytes ∧
    (e = LIBBGP_OK ∧ transmitted ans n acts = bytes ∨
     e = LIBBGP_ERR_WRITE ∧ transmitted ans n acts ≠ bytes).
Proof.
  intros Ht. revert n bytes. induction fuel as [|fuel IH]; intros n bytes Hf.
  { destruct bytes; [|simpl in Hf; lia]. exists LIBBGP_OK, []. split_and!; try done. by left. }
  cbn [send_loop]. destruct (zlen bytes =? 0) eqn:Hz.
  { destruct bytes; [|done]. exists LIBBGP_OK, []. split_and!; try done. by left. }
  assert (Hb : bytes ≠ []) by (intros ->; done).
  rewrite alone_bind, (alone_out_send _ _ _ _ _ _ Ht Hb).
  set (ret := ans n (IoSend target bytes)). cbv zeta.
  assert (Hfail : taken bytes ret = [] → ∃ e acts,
    (inl LIBBGP_ERR_WRITE : libbgp_err_t + fault, s, [IoSend target bytes]) = (inl e, s, acts) ∧
    (length acts <= length bytes)%nat ∧ transmitted ans n acts `prefix_of` bytes ∧
    (e = LIBBGP_OK ∧ transmitted ans n acts = bytes ∨
     e = LIBBGP_ERR_WRITE ∧ transmitted ans n acts ≠ bytes)).
  { intros Hno. exists LIBBGP_ERR_WRITE, [IoSend target bytes]. split; [done|].
    split; [destruct bytes; [done|simpl; lia]|]. cbn [transmitted taken_by]. fold ret. rewrite Hno.
    split; [apply prefix_nil|]. right. split; [done|]. by destruct bytes. }
  destruct (ret <? 0) eqn:Hneg; [apply Hfail; unfold taken; by replace (0 <? ret) with false by lia|].
  destruct ((ret =? 0) || (zlen bytes <? ret)) eqn:Hout.
  { apply Hfail. unfold taken. by replace ((0 <? ret) && (ret <=? zlen bytes)) with false by lia. }
  cbn [length]. rewrite Nat.add_1_r. edestruct (IH (S n) (drop (Z.to_nat ret) bytes)) as (e & acts & Hrun & Hlen & Hpre & He).
  { rewrite length_drop. lia. }
  rewrite Hrun. exists e, (IoSend target bytes :: acts). split; [done|].
  rewrite length_drop in Hlen. split; [simpl; lia|].
  cbn [transmitted taken_by]. fold ret. unfold taken.
  replace ((0 <? ret) && (ret <=? zlen bytes)) with true by lia.
  split; [|destruct He as [[-> Hall]|[-> Hall]]; [left|right]; (split; [done|])].
  - rewrite <-(take_drop (Z.to_nat ret) bytes) at 2. by apply prefix_app.
  - by rewrite Hall, take_drop.
  - rewrite <-(take_drop (Z.to_nat ret) bytes) at 2. intros Heq%app_inv_head. done.
Qed.

(** ** Packets *)

Definition packet_bytes (pkt : libbgp_packet_t) : M (list Z) :=
  '(buf, len) ← libbgp_packet_write pkt (replicate (Z.to_nat LIBBGP_BGP_MAX_PACKET_LEN) 0);
  slice buf 0 len.

Lemma packet_bytes_spec pkt : pkt_ok pkt → wp (packet_bytes pkt) (λ bytes, bytes = pkt_enc pkt) no_err.
Proof.
  intros Hok. apply wp_bind. eapply wp_mono; [by apply packet_write_spec| |].
  - intros [buf len] [[= -> ->] Hl]. by apply (wp_slice_app [] (pkt_enc pkt)).

  - intros e [_ Hl]. rewrite pkt_enc_length, length_replicate in Hl. destruct Hok as [_ Hmax].
    unfold LIBBGP_BGP_MAX_PACKET_LEN in Hl. lia.
Qed.

Lemma send_packet_spec ans n out s target pkt :
  handler_target s out = Some target → pkt_ok pkt →
  ∃ e heap acts,
    alone ans n (fsm_send_packet (Some out) pkt) s = (inl e, with_heap s heap, acts) ∧
    (length acts <= length (pkt_enc pkt))%nat ∧
    transmitted ans n acts `prefix_of` pkt_enc pkt ∧
    (e = LIBBGP_OK ∧ transmitted ans n acts = pkt_enc pkt ∨
     e ∈ [LIBBGP_ERR_WRITE; LIBBGP_ERR_NOMEM] ∧ transmitted ans n acts ≠ pkt_enc pkt).
Proof.
  intros Ht Hok. unfold fsm_send_packet. fold (packet_bytes pkt).
  destruct (packet_bytes_spec pkt Hok (sn_heap s)) as (used & heap & _ & Hw).
  rewrite alone_bind, alone_calling.
  destruct (packet_bytes pkt (sn_heap s)) as [[bytes|e|f] t]; [| |done].
  - destruct Hw as [-> ->]. cbn [length app]. rewrite Nat.add_0_r.
    destruct (send_loop_spec ans (length (pkt_enc pkt)) n out (with_heap s heap) target (pkt_enc pkt))
      as (e & acts & Hrun & Hlen & Hpre & He); [done|done|].
    exists e, heap, acts. rewrite Hrun. split; [done|]. split; [done|]. split; [done|].
    destruct He as [?|[-> ?]]; [by left|right]. split; [set_solver|done].
  - destruct Hw as [-> [[]|[-> _]]]. exists LIBBGP_ERR_NOMEM, heap, [].
    split; [done|]. split; [simpl; lia|]. split; [apply prefix_nil|]. right. split; [set_solver|].
    cbn [transmitted]. intros Heq. pose proof (pkt_enc_length pkt) as Hl. rewrite <-Heq in Hl.
    cbn in Hl. lia.
Qed.

(** ** The two outcomes that are used most *)

Definition sends_fully (ans : answers) : Prop := ∀ n target bytes, ans n (IoSend target bytes) = zlen bytes.

Lemma send_full ans n out s target pkt :
  sends_fully ans → sn_heap s = [] → handler_target s out = Some target → pkt_ok pkt →
  alone ans n (fsm_send_packet (Some out) pkt) s = (inl LIBBGP_OK, s, [IoSend target (pkt_enc pkt)]).
Proof.
  intros Hans Hheap Ht Hok. unfold fsm_send_packet. fold (packet_bytes pkt).
  pose proof (pkt_enc_length pkt) as Hlen. rewrite (alone_bind_silent _ _ _ _ _ (inl (pkt_enc pkt)) s).
  2: { rewrite alone_calling, Hheap, (wp_returns _ _ (packet_bytes_spec pkt Hok)). by rewrite <-Hheap, with_heap_id. }
  assert (Hb : pkt_enc pkt ≠ []) by (intros Heq; rewrite Heq in Hlen; cbn in Hlen; lia).
  destruct (length (pkt_enc pkt)) as [|fuel] eqn:Hfuel; [lia|]. cbn [send_loop].
  rewrite Hfuel. replace (Z.of_nat (S fuel) =? 0) with false by lia.
  rewrite alone_bind, (alone_out_send _ _ _ _ _ _ Ht Hb), Hans, Hfuel. cbv zeta.
  replace (Z.of_nat (S fuel) <? 0) with false by lia.
  replace ((Z.of_nat (S fuel) =? 0) || (Z.of_nat (S fuel) <? Z.of_nat (S fuel))) with false by lia.
  rewrite Nat2Z.id, <-Hfuel, drop_all. by destruct fuel.
Qed.

(** ** A live session *)

(** The handle points to it and nobody destroys it. *)
Definition live (s : session) : Prop :=
  sn_handle s = true ∧ sn_destroy_started s = false ∧ 0 <= sn_refcount s.

(** With the reference of one more entry point. *)
Definition held (s : session) : session := with_refs s (sn_refcount s + 1) (sn_handle s) (sn_freed s).

Lemma live_held s : live s → live (held s).
Proof. intros (? & ? & ?). split_and!; try done. cbn. lia. Qed.

(** The structure changes, the references are given back, whatever else the
    body does to tables and allocator. *)
Lemma alone_with_handle {A} ans n (without : A) body s a s' acts :
  live s → alone ans n body (held s) = (inl a, held s', acts) →
  0 <= sn_refcount s' → sn_destroy_started s' = false →
  alone ans n (with_handle without body) s = (inl a, s', acts).
Proof.
  intros (Hh & Hd & Hr) Hrun Hr' Hd'. unfold with_handle. cbn [run fsm_ref_op].
  unfold fsm_handle_acquire, fsm_impl_acquire. rewrite Hd. fold (held s).
  rewrite Hh, alone_bind, Hrun. cbn [run fsm_ref_op]. unfold fsm_impl_release. cbn [held with_refs sn_refcount sn_destroy_started sn_freed].
  rewrite Hd', app_nil_r, orb_false_r. replace (0 <? sn_refcount s' + 1) with true by lia.
  destruct s'. unfold with_refs. cbn. do 2 f_equal. f_equal. lia.
Qed.

(** ** Theorems *)

(** C15: Sending a packet terminates, whatever the output handler answers: it
    makes at most one call per byte.  What the handler took, piece by piece,
    is always a beginning of the packet's encoding; the result is OK exactly
    when it took all of it, each byte once and in order, and otherwise WRITE,
    or NOMEM when the allocator refused.  The session is left as it was. *)
Theorem fsm_send_packet_delivers ans n out s target pkt :
  handler_target s out = Some target → pkt_ok pkt →
  ∃ e heap acts,
    alone ans n (fsm_send_packet (Some out) pkt) s = (inl e, with_heap s heap, acts) ∧
    (length acts <= length (pkt_enc pkt))%nat ∧
    transmitted ans n acts `prefix_of` pkt_enc pkt ∧
    (e = LIBBGP_OK ∧ transmitted ans n acts = pkt_enc pkt ∨
     e ∈ [LIBBGP_ERR_WRITE; LIBBGP_ERR_NOMEM] ∧ transmitted ans n acts ≠ pkt_enc pkt).
Proof. apply send_packet_spec. Qed.
End Run.

Abbreviation alone ans n p s := (run fsm_ref_op (quiet ans) n p s).

(** ** A run *)

#[local] Existing Instance little_endian_host.

(** A handler that takes one byte at a time. *)
Definition one_byte : answers := λ n a,
  match a with
  | IoSend _ bytes => 1
  | IoPublish _ _ _ => false
  | IoSubscribe _ _ => inl 1
  | IoUnsubscribe _ _ => true
  | IoCallback _ _ => tt
  end.

Lemma fsm_send_packet_delivers_witness :
  ∃ heap acts,
    alone one_byte 0 (fsm_send_packet (Some sample_out) (Packet p_keepalive 4)) (sample 65001 0x0a000001) =
      (inl LIBBGP_OK, with_heap (sample 65001 0x0a000001) heap, acts) ∧
    transmitted one_byte 0 acts = pkt_enc (Packet p_keepalive 4).
Proof.
  destruct (fsm_send_packet_delivers one_byte 0 sample_out (sample 65001 0x0a000001) sample_target
              (Packet p_keepalive 4)) as (e & heap & acts & Hrun & _ & _ & Hout); [reflexivity|split; done|].
  exists heap, acts. destruct Hout as [[-> Hall]|[He _]]; [exact (conj Hrun Hall)|].
  exfalso. apply (f_equal (λ r, r.1.1)) in Hrun. vm_compute in Hrun. injection Hrun as <-.
  by repeat (apply elem_of_cons in He as [He|He]; [discriminate He|]); apply elem_of_nil in He.
Defined.
