(* ===== verification/FsmOpen.v ===== *)
(** * The OPEN exchange

    The OPEN a session sends, what the other side reads in it, and the packets
    of the handshake as bytes. *)

From stdpp Require Import gmap.
From S2P Require Import Prelude Bytes Capability Open Notification Pattr PattrSpec Update UpdateSpec As4 Packet PacketSpec Filter Fsm FsmHandlers.

(** ** The message *)

(** The fields of a configuration are in range. *)
Definition config_ok (config : libbgp_fsm_config) : Prop :=
  is_u32 (cfg_local_asn config) ∧ is_u32 (cfg_local_bgp_id config) ∧ is_u16 (cfg_hold_time config) ∧
  fsm_local_open_config_valid config = true.

Definition open_caps (config : libbgp_fsm_config) (mp4 : bool) : list libbgp_capability_t :=
  (if cfg_enable_4byte_asn config then [Capability 65 (asn_4b (cfg_local_asn config))] else []) ++
  (if mp4 then [Capability 1 (mp_bgp LIBBGP_AFI_IPV4 LIBBGP_SAFI_UNICAST)] else []) ++
  (if cfg_enable_mpbgp_ipv6 config then [Capability 1 (mp_bgp LIBBGP_AFI_IPV6 LIBBGP_SAFI_UNICAST)] else []).

Definition open_message (config : libbgp_fsm_config) (mp4 : bool) : libbgp_open_msg_t :=
  OpenMsg 4
    (if cfg_enable_4byte_asn config && (65535 <? cfg_local_asn config) then LIBBGP_AS_TRANS
     else u16 (cfg_local_asn config))
    (cfg_hold_time config) (cfg_local_bgp_id config) (open_caps config mp4).

Lemma open_packet_run config mp4 :
  fsm_local_open_config_valid config = true →
  fsm_open_packet config mp4 [] =
  (Ret (Packet (p_open (open_message config mp4)) (pkt_raw_type libbgp_packet_init)), []).
Proof.
  intros Hv. unfold fsm_open_packet, open_message, open_caps. rewrite Hv.
  destruct config as [asn id hold ka as4 mp6]. cbn [cfg_enable_4byte_asn cfg_enable_mpbgp_ipv6].
  by destruct as4, mp4, mp6.
Qed.

Lemma open_message_wf config mp4 : config_ok config → open_wf (open_message config mp4).
Proof.
  intros (Ha & Hi & Hh & _). unfold is_u32, is_u16 in *. unfold open_wf, open_message.
  cbn [open_version open_my_asn open_hold_time open_bgp_id open_capabilities]. split_and!; try done.
  - case_match; unfold is_u16, LIBBGP_AS_TRANS, u16; [lia|].
    pose proof (Z.mod_pos_bound (cfg_local_asn config) (2 ^ 16)). lia.
  - unfold open_caps. destruct (cfg_enable_4byte_asn config), mp4, (cfg_enable_mpbgp_ipv6 config); cbn [app];
      rewrite ?Forall_cons, ?Forall_nil; unfold cap_wf, is_u8, is_u16, is_u32;
      cbn; repeat split; try done; lia.
  - unfold open_caps. by destruct (cfg_enable_4byte_asn config), mp4, (cfg_enable_mpbgp_ipv6 config).
Qed.

(** The AS number the other side reads is the configured one, whatever its
    width. *)
Lemma open_message_asn config mp4 :
  config_ok config → libbgp_open_get_4b_asn (open_message config mp4) = cfg_local_asn config.
Proof.
  intros (Ha & _ & _ & Hv). unfold libbgp_open_get_4b_asn, open_message, open_caps, is_u32 in *.
  cbn [open_capabilities open_my_asn]. destruct (cfg_enable_4byte_asn config) eqn:H4; [done|].
  unfold fsm_local_open_config_valid in Hv. rewrite H4 in Hv. cbn [negb andb app] in *.
  assert (cfg_local_asn config <= 65535) by (repeat case_match; try done; lia).
  assert (u16 (cfg_local_asn config) = cfg_local_asn config).
  { unfold u16. apply Z.mod_small. lia. }
  destruct mp4, (cfg_enable_mpbgp_ipv6 config); cbn; lia.
Qed.

Lemma open_message_has_4b config mp4 :
  libbgp_open_has_4b_asn (open_message config mp4) = cfg_enable_4byte_asn config.
Proof.
  unfold libbgp_open_has_4b_asn, open_message, open_caps. cbn [open_capabilities].
  by destruct (cfg_enable_4byte_asn config), mp4, (cfg_enable_mpbgp_ipv6 config).
Qed.

(** IPv6 routes are exchanged when both sides want them; IPv4 routes unless
    this side is set to IPv6 only. *)
Lemma negotiate_with impl config' mp4' :
  fsm_negotiate_route_families impl (open_message config' mp4') =
  (po_enable_mpbgp_ipv4 (fs_policy impl) || negb (cfg_enable_mpbgp_ipv6 (fs_config impl)),
   cfg_enable_mpbgp_ipv6 (fs_config impl) && cfg_enable_mpbgp_ipv6 config').
Proof.
  unfold fsm_negotiate_route_families, fsm_open_has_any_mpbgp, libbgp_open_has_mpbgp, open_message, open_caps.
  cbn [open_capabilities].
  by destruct (cfg_enable_4byte_asn config'), mp4', (cfg_enable_mpbgp_ipv6 config'),
    (po_enable_mpbgp_ipv4 (fs_policy impl)), (cfg_enable_mpbgp_ipv6 (fs_config impl)).
Qed.

(** ** Packets on the wire *)

Section Wire.
Context {host : Host}.

Lemma parse_detail_enc b pkt :
  pkt_wf b pkt → pkt_type pkt ≠ LIBBGP_PACKET_UNKNOWN →
  bgp_packet_parse_as4_detail (pkt_enc pkt) b true [] = (Ret (inl (pkt_norm pkt, zlen (pkt_enc pkt))), []).
Proof.
  intros Hwf Ht. rewrite parse_detail_run. destruct (enc_header b pkt [] Hwf) as (Hw & Hr & Hb & He).
  rewrite app_nil_r in *. rewrite He, Hr, Hb, Hw. pose proof Hwf as (_ & _ & Htype & _).
  cbv zeta. rewrite Htype, bool_decide_false by done. cbn [andb].
  rewrite (wp_returns _ _ (packet_parse_body_enc b pkt Hwf)). rewrite pkt_enc_length.
  replace (_ =? _) with true by lia. do 3 f_equal. unfold pkt_norm. by destruct pkt as [[]].
Qed.

Lemma keepalive_wf b : pkt_wf b (Packet p_keepalive 4).
Proof. by split_and!. Qed.

Lemma keepalive_ok raw : pkt_ok (Packet p_keepalive raw).
Proof. by split. Qed.

Lemma notification_ok code subcode raw :
  is_u8 code → is_u8 subcode → pkt_ok (Packet (p_notification (NotificationMsg code subcode [])) raw).
Proof. intros Hc Hs. split; [|done]. by split_and!. Qed.

Lemma open_ok msg raw : open_wf msg → open_version msg = 4 → pkt_ok (Packet (p_open msg) raw).
Proof.
  intros Hwf Hv. split; [done|]. pose proof (open_enc_length msg Hwf). cbn [pkt_data pkt_body_enc]. lia.
Qed.

Lemma open_packet_wf b msg : open_wf msg → pkt_wf b (Packet (p_open msg) 1).
Proof.
  intros Hwf. pose proof (open_enc_length msg Hwf). split_and!; try done. cbn [pkt_data pkt_body_enc]. lia.
Qed.
End Wire.
