(* ===== verification/FsmHandshake.v ===== *)
(** * Two sessions establish

    The runs of the OPEN handlers when every send goes through and nobody
    interferes, and the whole exchange between an active and a passive
    session, as bytes. *)

From stdpp Require Import gmap.
From S2P Require Import Prelude Bytes Prefix4 Prefix6 Capability Open Notification Pattr PattrSpec Update UpdateSpec As4 Packet PacketSpec Filter Event Hashmap Rib RibTable Rib46 Fsm FsmUpdate Out Proc ProcSpec FsmSession FsmForward FsmHandlers FsmObject FsmSample FsmInv FsmKeeps FsmRun FsmOpen.

Section Handshake.
Context {host : Host}.

(** ** A session ready to talk *)

(** No best route in the tables it would announce. *)
Definition no_routes (s : session) : Prop :=
  (∀ p, ln_rib4 (fs_links (sn_impl s)) = Some p →
     ∃ rib, sn_rib4 s !! p = Some rib ∧ concat (buckets (ri_lpm_groups (family := family4) rib)) = []) ∧
  (∀ p, ln_rib6 (fs_links (sn_impl s)) = Some p →
     ∃ rib, sn_rib6 s !! p = Some rib ∧ concat (buckets (ri_lpm_groups (family := family6) rib)) = []).

(** The allocator grants everything, there is an output handler, no bus and no
    callback. *)
Record ready (target : io_target) (s : session) : Prop := Ready {
  rd_heap : sn_heap s = [];
  rd_cb : nt_cb (fs_notify (sn_impl s)) = None;
  rd_changes : nt_changes (fs_notify (sn_impl s)) = [];
  rd_bus : ln_bus (fs_links (sn_impl s)) = None;
  rd_out : ∃ out, ln_out (fs_links (sn_impl s)) = Some out ∧ handler_target s out = Some target;
  rd_routes : no_routes s
}.

Lemma ready_with_impl target s impl :
  ready target s → fs_links impl = fs_links (sn_impl s) → fs_notify impl = fs_notify (sn_impl s) →
  ready target (with_impl s impl).
Proof.
  intros [? ? ? ? ? Hr] Hl Hn. split; cbn [with_impl sn_impl sn_heap]; rewrite ?Hl, ?Hn; try done.
  unfold no_routes. cbn [with_impl sn_impl sn_rib4 sn_rib6]. by rewrite Hl.
Qed.

Lemma ready_held target s : ready target s → ready target (held s).
Proof. intros []. by split. Qed.

(** Without a callback the queue stays as it is. *)
Lemma set_state_notify impl state :
  nt_cb (fs_notify impl) = None → fs_notify (fsm_set_state impl state) = fs_notify impl.
Proof. intros H. unfold fsm_set_state. case_decide; [done|]. cbn. unfold queue_change. by rewrite H. Qed.

Lemma alone_drain ans n target s :
  ready target s → alone ans n drain_state_changes s = (inl (None, []), s, []).
Proof.
  intros [_ Hcb Hch _ _ _]. unfold drain_state_changes. cbn [run]. unfold fsm_drain_state_changes.
  rewrite Hcb, Hch. cbn. do 2 f_equal. destruct s as [impl]. unfold with_impl. cbn in *. f_equal.
  destruct impl as [? ? ? ? ? ? ? ? nt]. destruct nt. cbn in *. by subst.
Qed.

Lemma alone_dispatch ans n target s :
  ready target s → alone ans n fsm_dispatch_state_changes_impl s = (inl tt, s, []).
Proof.
  intros Hr. unfold fsm_dispatch_state_changes_impl.
  by rewrite (alone_bind_silent _ _ _ _ _ _ _ (alone_drain ans n target s Hr)).
Qed.

(** Nothing to announce. *)
Lemma alone_established ans n target s :
  ready target s → fs_state (sn_impl s) = LIBBGP_FSM_ESTABLISHED →
  alone ans n (fsm_run_established_actions (sn_impl s)) s = (inl LIBBGP_OK, s, []).
Proof.
  intros Hr Hst. pose proof Hr as [Hheap _ _ Hbus _ [Hr4 Hr6]]. unfold fsm_run_established_actions. cbv zeta.
  assert (Hcur : fsm_update_session_current (sn_impl s) (fs_session_generation (sn_impl s)) = true).
  { unfold fsm_update_session_current. rewrite Hst. cbn. by rewrite Z.eqb_refl. }
  rewrite (alone_bind_silent _ _ _ _ _ LIBBGP_OK s); cycle 1.
  { unfold fsm_advertise_existing_rib4. destruct (ln_rib4 _) as [p|]; [|done]. case_match; [|done].
    destruct (Hr4 p eq_refl) as (rib & Hp & Hnil). cbn [run]. rewrite Hp, Hnil. unfold allocating.
    cbn. by rewrite with_heap_id. }
  cbn [decide]. rewrite decide_True by done.
  rewrite (alone_bind_silent _ _ _ _ _ true s); [|cbn; by rewrite Hcur]. cbn [negb].
  rewrite (alone_bind_silent _ _ _ _ _ LIBBGP_OK s); cycle 1.
  { unfold fsm_advertise_existing_rib6. destruct (ln_rib6 _) as [p|]; [|done]. case_match; [|done].
    destruct (Hr6 p eq_refl) as (rib & Hp & Hnil). cbn [run]. rewrite Hp, Hnil. unfold allocating.
    cbn. by rewrite with_heap_id. }
  rewrite decide_True by done.
  rewrite (alone_bind_silent _ _ _ _ _ true s); [|cbn; by rewrite Hcur]. cbn [negb].
  rewrite (alone_bind_silent _ _ _ _ _ _ _ (alone_drain ans _ target s Hr)). by rewrite Hbus.
Qed.

(** ** The handlers *)

Context (ans : answers) (Hans : sends_fully ans).

Lemma send_ready n target s pkt :
  ready target s → pkt_ok pkt →
  alone ans n (fsm_send_packet (ln_out (fs_links (sn_impl s))) pkt) s =
  (inl LIBBGP_OK, s, [IoSend target (pkt_enc pkt)]).
Proof.
  intros Hr Hok. destruct (rd_out _ _ Hr) as (out & -> & Ht). apply send_full; [done|apply Hr|done|done].
Qed.

Definition open_bytes (impl : fsm_impl_t) : list Z :=
  pkt_enc (Packet (p_open (open_message (fs_config impl) (po_enable_mpbgp_ipv4 (fs_policy impl)))) 1).
Definition keepalive : list Z := pkt_enc (Packet p_keepalive 4).

Lemma send_open_ready n target s :
  ready target s → config_ok (fs_config (sn_impl s)) →
  alone ans n (fsm_send_open (ln_out (fs_links (sn_impl s))) (fs_config (sn_impl s))
                 (po_enable_mpbgp_ipv4 (fs_policy (sn_impl s)))) s =
  (inl LIBBGP_OK, s, [IoSend target (open_bytes (sn_impl s))]).
Proof.
  intros Hr Hc. unfold fsm_send_open. erewrite alone_bind_silent; cycle 1.
  { rewrite alone_calling, (rd_heap _ _ Hr), open_packet_run by apply Hc.
    by rewrite <-(rd_heap _ _ Hr), with_heap_id. }
  cbv match. rewrite (send_ready n target); [done|done|]. apply open_ok; [by apply open_message_wf|done].
Qed.

Definition started (impl : fsm_impl_t) : fsm_impl_t := forget_peer (fsm_set_state impl LIBBGP_FSM_OPEN_SENT).

Lemma run_start n target s :
  ready target s → config_ok (fs_config (sn_impl s)) → fsm_state_pre_open (fs_state (sn_impl s)) = true →
  alone ans n (Locked start) s =
  (inl LIBBGP_OK, with_impl s (started (sn_impl s)), [IoSend target (open_bytes (sn_impl s))]).
Proof.
  intros Hr Hc Hst. cbn [run]. unfold start. cbv zeta.
  rewrite (proj2 (proj2 (proj2 Hc))), Hst. cbn [negb]. fold (started (sn_impl s)).
  destruct (set_state_fields (sn_impl s) LIBBGP_FSM_OPEN_SENT) as (_ & H2 & _ & _ & H5 & H6 & _).
  assert (Hr' : ready target (with_impl s (started (sn_impl s)))).
  { apply ready_with_impl; [done|done|]. cbn. apply set_state_notify, Hr. }
  rewrite alone_bind. pose proof (send_open_ready n target _ Hr') as Hsend.
  cbn [with_impl sn_impl started forget_peer fs_config fs_policy] in Hsend.
  cbn [started forget_peer fs_config fs_policy]. rewrite Hsend by by rewrite H2. clear Hsend.
  cbn [run length]. unfold after_start. rewrite decide_True by done.
  rewrite (alone_bind_silent _ _ _ _ _ _ _ (alone_dispatch ans _ target _ Hr')). cbn [run mret proc_ret app].
  unfold open_bytes, started. cbn [forget_peer fs_config fs_policy]. by rewrite H2, H6.
Qed.

(** What an accepted OPEN makes of the session, once the marks are gone. *)
Definition opened (impl : fsm_impl_t) (open : libbgp_open_msg_t) : fsm_impl_t :=
  accept_open impl open (fsm_negotiate_route_families impl open) no_pending.

Lemma ready_accepted target s open families pending :
  ready target s → ready target (with_impl s (accept_open (sn_impl s) open families pending)).
Proof.
  intros Hr. destruct (set_state_fields (sn_impl s) LIBBGP_FSM_OPEN_CONFIRM) as (_ & _ & _ & _ & H5 & _).
  apply ready_with_impl; [done|done|]. cbn. apply set_state_notify, Hr.
Qed.

Lemma accepted_current impl open families pending :
  is_current (accept_open impl open families pending) LIBBGP_FSM_OPEN_CONFIRM
    (fs_session_generation (accept_open impl open families pending)) = true.
Proof.
  destruct (set_state_fields impl LIBBGP_FSM_OPEN_CONFIRM) as (H1 & _).
  unfold is_current. cbn. by rewrite H1, Z.eqb_refl.
Qed.

(** Without a bus there is no collision check. *)
Lemma check_open_alone target s open k :
  ready target s → open_defect (sn_impl s) open = None →
  check_open open k s = k (fsm_negotiate_route_families (sn_impl s) open) s.
Proof.
  intros Hr Hd. unfold check_open. rewrite Hd. unfold fsm_collision_reject_new_locked.
  by rewrite (rd_bus _ _ Hr).
Qed.

Lemma run_open_sent n target s open raw :
  ready target s → open_defect (sn_impl s) open = None →
  alone ans n (Locked (fsm_on_open_sent (Packet (p_open open) raw))) s =
  (inl LIBBGP_OK, with_impl s (opened (sn_impl s) open), [IoSend target keepalive]).
Proof.
  intros Hr Hd. cbn [run]. unfold fsm_on_open_sent. cbn [pkt_data].
  rewrite (check_open_alone target) by done. set (families := fsm_negotiate_route_families _ _). cbv zeta.
  set (impl1 := accept_open (sn_impl s) open families sending_keepalive).
  assert (Hr1 : ready target (with_impl s impl1)) by by apply ready_accepted.
  rewrite alone_bind. unfold fsm_send_keepalive.
  rewrite (send_ready n target (with_impl s impl1)) by (done || apply keepalive_ok).
  cbn [run]. unfold after_keepalive. rewrite decide_True by done. cbn [with_impl sn_impl].
  unfold impl1 at 1 2. rewrite accepted_current. fold impl1.
  rewrite (establish_pending_current (mark_local_send impl1 false)) by apply accepted_current.
  cbn. by destruct (set_state_fields (sn_impl s) LIBBGP_FSM_OPEN_CONFIRM) as (_ & H2 & _).
Qed.

Lemma run_pre_open n target s open :
  ready target s → config_ok (fs_config (sn_impl s)) → open_defect (sn_impl s) open = None →
  alone ans n (Locked (fsm_on_pre_open_open open)) s =
  (inl LIBBGP_OK, with_impl s (opened (sn_impl s) open),
   [IoSend target (open_bytes (sn_impl s)); IoSend target keepalive]).
Proof.
  intros Hr Hc Hd. cbn [run]. unfold fsm_on_pre_open_open.
  rewrite (check_open_alone target) by done. set (families := fsm_negotiate_route_families _ _). cbv zeta.
  set (impl1 := accept_open (sn_impl s) open families sending_open).
  assert (Hr1 : ready target (with_impl s impl1)) by by apply ready_accepted.
  destruct (set_state_fields (sn_impl s) LIBBGP_FSM_OPEN_CONFIRM) as (_ & H2 & _ & _ & _ & H6 & _).
  rewrite alone_bind. pose proof (send_open_ready n target _ Hr1) as Hsend. cbn [with_impl sn_impl] in Hsend.
  rewrite Hsend by (unfold impl1; cbn [accept_open fs_config]; by rewrite H2). clear Hsend.
  rewrite decide_True by done. unfold after_passive_open. cbn [run with_impl sn_impl].
  pose proof (accepted_current (sn_impl s) open families sending_open) as Hcur. fold impl1 in Hcur.
  rewrite Hcur. cbn [run with_impl sn_impl].
  change (is_current (clear_passive_open impl1) ?st ?g) with (is_current impl1 st g). rewrite Hcur.
  set (impl2 := mark_local_send (clear_passive_open impl1) true).
  assert (Hr2 : ready target (with_impl s impl2)) by by apply (ready_with_impl _ (with_impl s impl1)).
  cbn [with_impl]. fold (with_impl s impl2).
  rewrite alone_bind. unfold fsm_send_keepalive.
  rewrite (send_ready _ target (with_impl s impl2)) by (done || apply keepalive_ok).
  rewrite decide_True by done. cbn [run]. unfold after_passive_keepalive. cbn [with_impl sn_impl].
  change (is_current impl2 ?st ?g) with (is_current impl1 st g). rewrite Hcur.
  change (pd_passive_keepalive (fs_pending impl2) || _) with false. cbv match.
  unfold relock_after_send. cbn [run]. rewrite decide_True by done. cbn [run mret proc_ret app].
  replace (open_bytes impl1) with (open_bytes (sn_impl s)); [done|].
  unfold open_bytes, impl1. cbn [accept_open fs_config fs_policy]. by rewrite H2, H6.
Qed.

(** The KEEPALIVE that confirms the own OPEN. *)
Definition established (impl : fsm_impl_t) : fsm_impl_t :=
  next_generation (fsm_mark_rx_current impl) LIBBGP_FSM_ESTABLISHED.

Lemma run_open_confirm n target s raw :
  ready target s → fs_pending (sn_impl s) = no_pending →
  alone ans n (Locked (fsm_on_open_confirm (Packet p_keepalive raw))) s =
  (inl LIBBGP_OK, with_impl s (established (sn_impl s)), []).
Proof.
  intros Hr Hp. cbn [run]. unfold fsm_on_open_confirm. cbn [pkt_data]. cbv zeta.
  assert (Hm : fs_pending (fsm_mark_rx_current (sn_impl s)) = no_pending).
  { unfold fsm_mark_rx_current. by case_match. }
  rewrite Hm. cbn [no_pending pd_passive_open_send pd_local_keepalive_send].
  unfold establish. cbv zeta. cbn [with_impl sn_impl]. fold (established (sn_impl s)).
  destruct (set_state_fields (fsm_mark_rx_current (sn_impl s)) LIBBGP_FSM_ESTABLISHED) as (H1 & _ & _ & _ & H5 & _).
  assert (Hm' : fs_links (fsm_mark_rx_current (sn_impl s)) = fs_links (sn_impl s) ∧
                fs_notify (fsm_mark_rx_current (sn_impl s)) = fs_notify (sn_impl s)).
  { unfold fsm_mark_rx_current. by case_match. }
  destruct Hm' as [Hl Hn]. change (with_impl (with_impl s ?i) ?j) with (with_impl s j).
  assert (Hr' : ready target (with_impl s (established (sn_impl s)))).
  2: { pose proof (alone_established ans n target _ Hr' H1) as Hrun. exact Hrun. }
  apply ready_with_impl; [exact Hr| |]; cbn [established next_generation fs_links fs_notify].
  - by rewrite H5.
  - rewrite set_state_notify; [done|]. rewrite Hn. apply Hr.
Qed.

(** ** Through the entry points, as bytes *)

Lemma run_raw n s pkt a s' acts :
  live s → sn_heap s = [] → pkt_wf (raw_packet_as4 (sn_impl s)) pkt → pkt_type pkt ≠ LIBBGP_PACKET_UNKNOWN →
  alone ans n (Locked (dispatch_packet (pkt_norm pkt))) (held (held s)) = (inl a, held (held s'), acts) →
  0 <= sn_refcount s' → sn_destroy_started s' = false →
  alone ans n (libbgp_fsm_on_raw_packet (pkt_enc pkt)) s = (inl a, s', acts).
Proof.
  intros Hl Hheap Hwf Hty Hrun Hr' Hd'. unfold libbgp_fsm_on_raw_packet.
  apply alone_with_handle; [exact Hl| |exact Hr'|exact Hd'].
  rewrite (alone_bind_silent _ _ _ _ _ (raw_packet_as4 (sn_impl s)) (held s)) by done.
  rewrite (alone_bind_silent _ _ _ _ _ (inl (inl (pkt_norm pkt, zlen (pkt_enc pkt)))) (held s)).
  2: { rewrite alone_calling. change (sn_heap (held s)) with (sn_heap s).
       rewrite Hheap, parse_detail_enc by done. rewrite <-Hheap. by destruct s. }
  cbv zeta match. rewrite Z.eqb_refl.
  unfold libbgp_fsm_on_packet. apply alone_with_handle; [by apply live_held|exact Hrun| |exact Hd']. cbn. lia.
Qed.

Lemma run_started n target s :
  live s → ready target s → config_ok (fs_config (sn_impl s)) → fsm_state_pre_open (fs_state (sn_impl s)) = true →
  alone ans n libbgp_fsm_start s =
  (inl LIBBGP_OK, with_impl s (started (sn_impl s)), [IoSend target (open_bytes (sn_impl s))]).
Proof.
  intros Hl Hr Hc Hst. unfold libbgp_fsm_start. apply alone_with_handle; [exact Hl| |apply Hl|apply Hl].
  by apply (run_start n target (held s)); [apply ready_held|..].
Qed.

(** [config] is one that a session with [impl] talks to: it has a valid
    identifier of its own and the AS number this side expects, if it expects
    one. *)
Definition welcome (impl : fsm_impl_t) (config : libbgp_fsm_config) : Prop :=
  fsm_valid_peer_bgp_id (cfg_local_bgp_id config) (cfg_local_bgp_id (fs_config impl)) = true ∧
  (po_expected_peer_asn (fs_policy impl) = 0 ∨ po_expected_peer_asn (fs_policy impl) = cfg_local_asn config).

Lemma welcome_open impl config mp4 :
  config_ok (fs_config impl) → config_ok config → welcome impl config →
  open_defect impl (open_message config mp4) = None.
Proof.
  intros Hc Hc' [Hid Hasn]. unfold open_defect. cbv zeta. rewrite open_message_asn by done.
  cbn [open_message open_version open_hold_time open_bgp_id]. rewrite Hid, (proj2 (proj2 (proj2 Hc))).
  destruct Hc' as (_ & _ & _ & Hv). unfold fsm_local_open_config_valid in Hv.
  replace (negb (cfg_hold_time config =? 0) && (cfg_hold_time config <? 3)) with false by (repeat case_match; done).
  cbn [Z.eqb Pos.eqb negb].
  replace (_ && _) with false; [done|]. destruct Hasn as [-> | ->]; [done|]. by rewrite Z.eqb_refl, andb_false_r.
Qed.

(** A session that could be started. *)
Record endpoint (target : io_target) (s : session) : Prop := Endpoint {
  ep_live : live s;
  ep_ready : ready target s;
  ep_config : config_ok (fs_config (sn_impl s));
  ep_state : fsm_state_pre_open (fs_state (sn_impl s)) = true
}.

Definition own_open (s : session) : libbgp_open_msg_t :=
  open_message (fs_config (sn_impl s)) (po_enable_mpbgp_ipv4 (fs_policy (sn_impl s))).

Lemma raw_open_passive n target s open :
  endpoint target s → open_wf open → open_defect (sn_impl s) open = None →
  alone ans n (libbgp_fsm_on_raw_packet (pkt_enc (Packet (p_open open) 1))) s =
  (inl LIBBGP_OK, with_impl s (opened (sn_impl s) open),
   [IoSend target (open_bytes (sn_impl s)); IoSend target keepalive]).
Proof.
  intros [Hl Hr Hc Hst] Hwf Hd.
  apply run_raw; [exact Hl|apply Hr|by apply open_packet_wf|done| |apply Hl|apply Hl].
  etrans; [|exact (run_pre_open n target _ open (ready_held _ _ (ready_held _ _ Hr)) Hc Hd)].
  cbn [run]. unfold dispatch_packet. cbn [pkt_norm pkt_data held with_refs sn_impl].
  by destruct (fs_state (sn_impl s)).
Qed.

Lemma raw_open_sent n target s open :
  live s → ready target s → fs_state (sn_impl s) = LIBBGP_FSM_OPEN_SENT → open_wf open →
  open_defect (sn_impl s) open = None →
  alone ans n (libbgp_fsm_on_raw_packet (pkt_enc (Packet (p_open open) 1))) s =
  (inl LIBBGP_OK, with_impl s (opened (sn_impl s) open), [IoSend target keepalive]).
Proof.
  intros Hl Hr Hst Hwf Hd.
  apply run_raw; [exact Hl|apply Hr|by apply open_packet_wf|done| |apply Hl|apply Hl].
  etrans; [|exact (run_open_sent n target _ open 1 (ready_held _ _ (ready_held _ _ Hr)) Hd)].
  cbn [run]. unfold dispatch_packet. cbn [pkt_norm pkt_data held with_refs sn_impl]. by rewrite Hst.
Qed.

Lemma raw_keepalive n target s :
  live s → ready target s → fs_state (sn_impl s) = LIBBGP_FSM_OPEN_CONFIRM →
  fs_pending (sn_impl s) = no_pending →
  alone ans n (libbgp_fsm_on_raw_packet keepalive) s =
  (inl LIBBGP_OK, with_impl s (established (sn_impl s)), []).
Proof.
  intros Hl Hr Hst Hp.
  apply run_raw; [exact Hl|apply Hr|apply keepalive_wf|done| |apply Hl|apply Hl].
  etrans; [|exact (run_open_confirm n target _ 4 (ready_held _ _ (ready_held _ _ Hr)) Hp)].
  cbn [run]. unfold dispatch_packet. cbn [pkt_norm pkt_data held with_refs sn_impl]. by rewrite Hst.
Qed.

(** ** Both sides *)

(** What one side knows of the other, which has [config]. *)
Definition knows (s : session) (config : libbgp_fsm_config) : Prop :=
  fs_state (sn_impl s) = LIBBGP_FSM_ESTABLISHED ∧
  pe_asn (fs_peer (sn_impl s)) = cfg_local_asn config ∧
  pe_bgp_id (fs_peer (sn_impl s)) = cfg_local_bgp_id config.

(** Both are established and use the same hold time, families and width of AS
    numbers. *)
Definition agreed (a b : session) : Prop :=
  let pa := fs_peer (sn_impl a) in
  let pb := fs_peer (sn_impl b) in
  knows a (fs_config (sn_impl b)) ∧ knows b (fs_config (sn_impl a)) ∧
  pe_hold_time pa = pe_hold_time pb ∧ pe_mpbgp_ipv6 pa = pe_mpbgp_ipv6 pb ∧
  pe_4byte_asn pa = pe_4byte_asn pb.

Definition joined (s : session) (open : libbgp_open_msg_t) : session :=
  with_impl s (established (opened (sn_impl s) open)).

Lemma joined_peer s open :
  fs_state (sn_impl (joined s open)) = LIBBGP_FSM_ESTABLISHED ∧
  fs_config (sn_impl (joined s open)) = fs_config (sn_impl s) ∧
  fs_peer (sn_impl (joined s open)) =
    open_peer (fs_config (sn_impl s)) open (fsm_negotiate_route_families (sn_impl s) open).
Proof.
  unfold joined, established, opened, next_generation, fsm_mark_rx_current.
  destruct (set_state_fields (sn_impl s) LIBBGP_FSM_OPEN_CONFIRM) as (_ & H2 & _).
  case_match; cbn [with_impl sn_impl fs_state fs_config fs_peer];
    match goal with |- context [fsm_set_state ?i LIBBGP_FSM_ESTABLISHED] =>
      destruct (set_state_fields i LIBBGP_FSM_ESTABLISHED) as (J1 & J2 & J3 & _) end;
    rewrite J1, J2, J3; cbn [accept_open fs_config fs_peer]; by rewrite H2.
Qed.

Lemma negotiated_hold_time_comm x y : negotiated_hold_time x y = negotiated_hold_time y x.
Proof. unfold negotiated_hold_time. repeat case_match; lia. Qed.

Lemma joined_agreed a b open_a open_b mp_a mp_b :
  config_ok (fs_config (sn_impl a)) → config_ok (fs_config (sn_impl b)) →
  open_a = open_message (fs_config (sn_impl a)) mp_a → open_b = open_message (fs_config (sn_impl b)) mp_b →
  agreed (joined a open_b) (joined b open_a).
Proof.
  intros Ha Hb -> ->. unfold agreed, knows. cbv zeta.
  destruct (joined_peer a (open_message (fs_config (sn_impl b)) mp_b)) as (-> & -> & ->).
  destruct (joined_peer b (open_message (fs_config (sn_impl a)) mp_a)) as (-> & -> & ->).
  unfold open_peer. cbv zeta. rewrite !negotiate_with, !open_message_asn, !open_message_has_4b by done.
  cbn [pe_asn pe_bgp_id pe_hold_time pe_mpbgp_ipv6 pe_4byte_asn open_message open_bgp_id open_hold_time snd].
  split_and!; try done; [apply negotiated_hold_time_comm|apply andb_comm|apply andb_comm].
Qed.

Lemma own_open_wf s : config_ok (fs_config (sn_impl s)) → open_wf (own_open s).
Proof. apply open_message_wf. Qed.

(** A side that was started, or not. *)
Lemma started_fields s :
  fs_state (sn_impl (with_impl s (started (sn_impl s)))) = LIBBGP_FSM_OPEN_SENT ∧
  fs_config (started (sn_impl s)) = fs_config (sn_impl s) ∧
  fs_policy (started (sn_impl s)) = fs_policy (sn_impl s).
Proof.
  unfold started. cbn [with_impl sn_impl forget_peer fs_state fs_config fs_policy].
  by destruct (set_state_fields (sn_impl s) LIBBGP_FSM_OPEN_SENT) as (? & ? & _ & _ & _ & ? & _).
Qed.

Lemma ready_started target s : ready target s → ready target (with_impl s (started (sn_impl s))).
Proof.
  intros Hr. destruct (set_state_fields (sn_impl s) LIBBGP_FSM_OPEN_SENT) as (_ & _ & _ & _ & H5 & _).
  apply ready_with_impl; [done|done|]. cbn. apply set_state_notify, Hr.
Qed.

(** The OPEN answered by the active side, and the KEEPALIVE that ends it. *)
Lemma active_side n n' target s open :
  endpoint target s → open_wf open → open_defect (started (sn_impl s)) open = None →
  let s1 := with_impl s (started (sn_impl s)) in
  ∃ s2,
    alone ans n (libbgp_fsm_on_raw_packet (pkt_enc (Packet (p_open open) 1))) s1 =
      (inl LIBBGP_OK, s2, [IoSend target keepalive]) ∧
    alone ans n' (libbgp_fsm_on_raw_packet keepalive) s2 = (inl LIBBGP_OK, joined s1 open, []).
Proof.
  intros [Hl Hr Hc Hst] Hwf Hd s1. destruct (started_fields s) as (H1 & _ & _).
  assert (Hr1 : ready target s1) by by apply ready_started.
  exists (with_impl s1 (opened (sn_impl s1) open)). split.
  - by apply raw_open_sent.
  - destruct (set_state_fields (sn_impl s1) LIBBGP_FSM_OPEN_CONFIRM) as (H2 & _).
    by apply (raw_keepalive n' target); [|apply ready_accepted|..].
Qed.

Lemma passive_side n n' target s open :
  endpoint target s → open_wf open → open_defect (sn_impl s) open = None →
  ∃ s1,
    alone ans n (libbgp_fsm_on_raw_packet (pkt_enc (Packet (p_open open) 1))) s =
      (inl LIBBGP_OK, s1, [IoSend target (open_bytes (sn_impl s)); IoSend target keepalive]) ∧
    alone ans n' (libbgp_fsm_on_raw_packet keepalive) s1 = (inl LIBBGP_OK, joined s open, []).
Proof.
  intros Hep Hwf Hd. pose proof Hep as [Hl Hr Hc Hst].
  exists (with_impl s (opened (sn_impl s) open)). split.
  - by apply raw_open_passive.
  - destruct (set_state_fields (sn_impl s) LIBBGP_FSM_OPEN_CONFIRM) as (H2 & _).
    by apply (raw_keepalive n' target); [|apply ready_accepted|..].
Qed.
End Handshake.

(** ** Theorems *)

Section Theorems.
Context {host : Host}.

(** C3: Two sessions that accept each other's configuration establish.  One is
    started and sends its OPEN; the other, which was not, answers with an OPEN
    and a KEEPALIVE; each of the two answers is fed to the first, byte for byte,
    and its KEEPALIVE to the second.  At the end both are ESTABLISHED, know the
    other's AS number and identifier, and agree on the hold time, on IPv6 and
    on the width of AS numbers. *)
Theorem fsm_handshake_establishes ans ta tb a b :
  sends_fully ans → endpoint ta a → endpoint tb b →
  welcome (sn_impl a) (fs_config (sn_impl b)) → welcome (sn_impl b) (fs_config (sn_impl a)) →
  ∃ open_a open_b a1 a2 a3 b1 b2,
    alone ans 0 libbgp_fsm_start a = (inl LIBBGP_OK, a1, [IoSend ta open_a]) ∧
    alone ans 1 (libbgp_fsm_on_raw_packet open_a) b =
      (inl LIBBGP_OK, b1, [IoSend tb open_b; IoSend tb keepalive]) ∧
    alone ans 3 (libbgp_fsm_on_raw_packet open_b) a1 = (inl LIBBGP_OK, a2, [IoSend ta keepalive]) ∧
    alone ans 4 (libbgp_fsm_on_raw_packet keepalive) a2 = (inl LIBBGP_OK, a3, []) ∧
    alone ans 4 (libbgp_fsm_on_raw_packet keepalive) b1 = (inl LIBBGP_OK, b2, []) ∧
    agreed a3 b2.
Proof.
  intros Hans Ha Hb Hwa Hwb. destruct (started_fields a) as (_ & Hca & Hpa).
  pose proof (ep_config _ _ Ha) as Hac. pose proof (ep_config _ _ Hb) as Hbc.
  destruct (passive_side ans Hans 1 4 tb b (own_open a)) as (b1 & Hb1 & Hb2);
    [done|by apply own_open_wf|by apply welcome_open|].
  destruct (active_side ans Hans 3 4 ta a (own_open b)) as (a2 & Ha1 & Ha2);
    [done|by apply own_open_wf|apply welcome_open; unfold welcome; rewrite ?Hca, ?Hpa; done|].
  do 5 eexists. exists b1. eexists. split; [apply (run_started ans Hans 0 ta); apply Ha|].
  split; [exact Hb1|]. split; [exact Ha1|]. split; [exact Ha2|]. split; [exact Hb2|].
  eapply joined_agreed; cbn [with_impl sn_impl]; rewrite ?Hca; done.
Qed.

(** The same when both are started: each answers the other's OPEN with a
    KEEPALIVE. *)
Theorem fsm_simultaneous_start ans ta tb a b :
  sends_fully ans → endpoint ta a → endpoint tb b →
  welcome (sn_impl a) (fs_config (sn_impl b)) → welcome (sn_impl b) (fs_config (sn_impl a)) →
  ∃ open_a open_b a1 a2 a3 b1 b2 b3,
    alone ans 0 libbgp_fsm_start a = (inl LIBBGP_OK, a1, [IoSend ta open_a]) ∧
    alone ans 0 libbgp_fsm_start b = (inl LIBBGP_OK, b1, [IoSend tb open_b]) ∧
    alone ans 1 (libbgp_fsm_on_raw_packet open_b) a1 = (inl LIBBGP_OK, a2, [IoSend ta keepalive]) ∧
    alone ans 1 (libbgp_fsm_on_raw_packet open_a) b1 = (inl LIBBGP_OK, b2, [IoSend tb keepalive]) ∧
    alone ans 2 (libbgp_fsm_on_raw_packet keepalive) a2 = (inl LIBBGP_OK, a3, []) ∧
    alone ans 2 (libbgp_fsm_on_raw_packet keepalive) b2 = (inl LIBBGP_OK, b3, []) ∧
    agreed a3 b3.
Proof.
  intros Hans Ha Hb Hwa Hwb.
  destruct (started_fields a) as (_ & Hca & Hpa). destruct (started_fields b) as (_ & Hcb & Hpb).
  pose proof (ep_config _ _ Ha) as Hac. pose proof (ep_config _ _ Hb) as Hbc.
  destruct (active_side ans Hans 1 2 ta a (own_open b)) as (a2 & Ha1 & Ha2);
    [done|by apply own_open_wf|apply welcome_open; unfold welcome; rewrite ?Hca, ?Hpa; done|].
  destruct (active_side ans Hans 1 2 tb b (own_open a)) as (b2 & Hb1 & Hb2);
    [done|by apply own_open_wf|apply welcome_open; unfold welcome; rewrite ?Hcb, ?Hpb; done|].
  do 8 eexists. split; [apply (run_started ans Hans 0 ta); apply Ha|].
  split; [apply (run_started ans Hans 0 tb); apply Hb|].
  split; [exact Ha1|]. split; [exact Hb1|]. split; [exact Ha2|]. split; [exact Hb2|].
  eapply joined_agreed; cbn [with_impl sn_impl]; rewrite ?Hca, ?Hcb; done.
Qed.
End Theorems.

(** ** A run *)

Definition grant : answers := λ n a,
  match a with
  | IoSend _ bytes => zlen bytes
  | IoPublish _ _ _ => false
  | IoSubscribe _ _ => inl 1
  | IoUnsubscribe _ _ => true
  | IoCallback _ _ => tt
  end.

Lemma sample_endpoint `{host : Host} asn bgp_id :
  is_u32 asn → is_u32 bgp_id → bgp_id ≠ 0 → endpoint sample_target (sample asn bgp_id).
Proof.
  intros Ha Hi Hi0. split; [by split_and!| | |done].
  - split; try done; [by eexists|]. split; intros p [= <-]; eexists; by split.
  - split_and!; try done. unfold fsm_local_open_config_valid. cbn. by replace (bgp_id =? 0) with false by lia.
Qed.

#[local] Existing Instance little_endian_host.

Definition sample_a : session := sample 65001 0x0a000001.
Definition sample_b : session := sample 4200000000 0x0a000002.

Lemma fsm_handshake_establishes_witness :
  ∃ open_a open_b a1 a2 a3 b1 b2,
    alone grant 0 libbgp_fsm_start sample_a = (inl LIBBGP_OK, a1, [IoSend sample_target open_a]) ∧
    alone grant 1 (libbgp_fsm_on_raw_packet open_a) sample_b =
      (inl LIBBGP_OK, b1, [IoSend sample_target open_b; IoSend sample_target keepalive]) ∧
    alone grant 3 (libbgp_fsm_on_raw_packet open_b) a1 = (inl LIBBGP_OK, a2, [IoSend sample_target keepalive]) ∧
    alone grant 4 (libbgp_fsm_on_raw_packet keepalive) a2 = (inl LIBBGP_OK, a3, []) ∧
    alone grant 4 (libbgp_fsm_on_raw_packet keepalive) b1 = (inl LIBBGP_OK, b2, []) ∧
    agreed a3 b2.
Proof.
  apply fsm_handshake_establishes; [done| | | |];
    [apply sample_endpoint; unfold is_u32; lia|apply sample_endpoint; unfold is_u32; lia| |];
    (split; [reflexivity|left; reflexivity]).
Defined.

Lemma fsm_simultaneous_start_witness :
  ∃ open_a open_b a1 a2 a3 b1 b2 b3,
    alone grant 0 libbgp_fsm_start sample_a = (inl LIBBGP_OK, a1, [IoSend sample_target open_a]) ∧
    alone grant 0 libbgp_fsm_start sample_b = (inl LIBBGP_OK, b1, [IoSend sample_target open_b]) ∧
    alone grant 1 (libbgp_fsm_on_raw_packet open_b) a1 = (inl LIBBGP_OK, a2, [IoSend sample_target keepalive]) ∧
    alone grant 1 (libbgp_fsm_on_raw_packet open_a) b1 = (inl LIBBGP_OK, b2, [IoSend sample_target keepalive]) ∧
    alone grant 2 (libbgp_fsm_on_raw_packet keepalive) a2 = (inl LIBBGP_OK, a3, []) ∧
    alone grant 2 (libbgp_fsm_on_raw_packet keepalive) b2 = (inl LIBBGP_OK, b3, []) ∧
    agreed a3 b3.
Proof.
  apply fsm_simultaneous_start; [done| | | |];
    [apply sample_endpoint; unfold is_u32; lia|apply sample_endpoint; unfold is_u32; lia| |];
    (split; [reflexivity|left; reflexivity]).
Defined.
