(* ===== verification/FsmReject.v ===== *)
(** * The session: OPEN messages it refuses

    Which OPEN messages are refused, with which NOTIFICATION, and what is left
    of the session. *)

From stdpp Require Import gmap.
From S2P Require Import Prelude Bytes Prefix4 Prefix6 Capability Open Notification Pattr PattrSpec Update UpdateSpec As4 Packet PacketSpec Filter Event Hashmap Rib RibTable Rib46 Fsm FsmUpdate Out Proc ProcSpec FsmSession FsmForward FsmHandlers FsmObject FsmSample FsmInv FsmKeeps FsmRun FsmOpen FsmHandshake.

Section Reject.
Context {host : Host}.

(** What the peer has to offer, said field by field: the version is 4, the hold
    time 0 or at least 3, the identifier another one than the own and, read as
    an address, neither of the networks 0 and 127 nor multicast nor reserved,
    and the AS number, that of the first four-octet capability if there is
    one, the expected one if one is expected.  The own configuration has to be
    fit for an OPEN too. *)
Definition good_hold_time (hold : Z) : Prop := hold = 0 ∨ 3 <= hold.

Definition good_bgp_id (peer_id local_id : Z) : Prop :=
  let first := (peer_id / 2 ^ 24) mod 256 in
  peer_id ≠ local_id ∧ first ≠ 0 ∧ first ≠ 127 ∧ first < 224.

Definition good_config (config : libbgp_fsm_config) : Prop :=
  cfg_local_bgp_id config ≠ 0 ∧ good_hold_time (cfg_hold_time config) ∧
  (cfg_enable_4byte_asn config = true ∨ cfg_local_asn config <= 65535).

Definition announced_asn (open : libbgp_open_msg_t) : Z :=
  from_option id (open_my_asn open)
    (head (omap (λ cap, match cap_data cap with asn_4b asn => Some asn | _ => None end) (open_capabilities open))).

Definition good_peer_as (impl : fsm_impl_t) (open : libbgp_open_msg_t) : Prop :=
  po_expected_peer_asn (fs_policy impl) = 0 ∨ announced_asn open = po_expected_peer_asn (fs_policy impl).

Definition acceptable (impl : fsm_impl_t) (open : libbgp_open_msg_t) : Prop :=
  open_version open = 4 ∧ good_hold_time (open_hold_time open) ∧
  good_bgp_id (open_bgp_id open) (cfg_local_bgp_id (fs_config impl)) ∧
  good_config (fs_config impl) ∧ good_peer_as impl open.

Lemma announced_asn_code open : libbgp_open_get_4b_asn open = announced_asn open.
Proof.
  unfold libbgp_open_get_4b_asn, announced_asn.
  by induction (open_capabilities open) as [|[code []] caps IH]; cbn.
Qed.

Lemma good_bgp_id_code peer_id local_id :
  fsm_valid_peer_bgp_id peer_id local_id = true ↔ good_bgp_id peer_id local_id.
Proof.
  unfold fsm_valid_peer_bgp_id, good_bgp_id, u8. rewrite Z.shiftr_div_pow2 by lia. change (2 ^ 8) with 256. cbv zeta.
  assert (peer_id = 0 → (peer_id / 2 ^ 24) mod 256 = 0) by by intros ->. repeat case_match; split; naive_solver lia.
Qed.

Lemma good_config_code config : fsm_local_open_config_valid config = true ↔ good_config config.
Proof. unfold fsm_local_open_config_valid, good_config, good_hold_time. destruct (cfg_enable_4byte_asn config); repeat case_match; split; naive_solver lia. Qed.

Definition notification_bytes (code subcode : Z) : list Z :=
  pkt_enc (Packet (p_notification (NotificationMsg code subcode [])) 3).

(** The first defect, in the order version, hold time, identifier, own
    configuration, AS number: the field has it and those before it are good. *)
Inductive defect (impl : fsm_impl_t) (open : libbgp_open_msg_t) : option (Z * Z) -> libbgp_err_t -> Prop :=
  | defect_version : open_version open ≠ 4 → defect impl open (Some (2, 1)) LIBBGP_ERR_BAD_LEN
  | defect_hold_time :
      open_version open = 4 → ¬ good_hold_time (open_hold_time open) →
      defect impl open (Some (2, 6)) LIBBGP_ERR_INVALID
  | defect_bgp_id :
      open_version open = 4 → good_hold_time (open_hold_time open) →
      ¬ good_bgp_id (open_bgp_id open) (cfg_local_bgp_id (fs_config impl)) →
      defect impl open (Some (2, 3)) LIBBGP_ERR_INVALID
  | defect_config :
      open_version open = 4 → good_hold_time (open_hold_time open) →
      good_bgp_id (open_bgp_id open) (cfg_local_bgp_id (fs_config impl)) →
      ¬ good_config (fs_config impl) → defect impl open None LIBBGP_ERR_INVALID
  | defect_peer_as :
      open_version open = 4 → good_hold_time (open_hold_time open) →
      good_bgp_id (open_bgp_id open) (cfg_local_bgp_id (fs_config impl)) → good_config (fs_config impl) →
      ¬ good_peer_as impl open → defect impl open (Some (2, 2)) LIBBGP_ERR_INVALID.

(** The checks of the code find it. *)
Lemma open_defect_spec impl open :
  match open_defect impl open with
  | Some (notify, e) => defect impl open notify e
  | None => acceptable impl open
  end.
Proof.
  unfold open_defect, acceptable. cbv zeta. pose proof (good_bgp_id_code (open_bgp_id open) (cfg_local_bgp_id (fs_config impl))) as Hid.
  pose proof (good_config_code (fs_config impl)) as Hc. rewrite announced_asn_code.
  destruct (open_version open =? 4) eqn:H1; cbn [negb]; [|apply defect_version; lia].
  apply Z.eqb_eq in H1. destruct (negb (open_hold_time open =? 0) && (open_hold_time open <? 3)) eqn:H2.
  { apply defect_hold_time; [done|]. unfold good_hold_time. lia. }
  assert (good_hold_time (open_hold_time open)) by (unfold good_hold_time; lia).
  destruct (fsm_valid_peer_bgp_id _ _); cbn [negb].
  2: { apply defect_bgp_id; [done..|]. by intros ?%Hid. }
  destruct (fsm_local_open_config_valid _); cbn [negb].
  2: { apply defect_config; [done..|by apply Hid|]. by intros ?%Hc. }
  clear H2. destruct (_ && _) eqn:H5.
  { apply defect_peer_as; [done..|by apply Hid|by apply Hc|]. unfold good_peer_as. lia. }
  split_and!; [done..|by apply Hid|by apply Hc|]. unfold good_peer_as. lia.
Qed.

Lemma open_defect_none impl open : open_defect impl open = None ↔ acceptable impl open.
Proof.
  pose proof (open_defect_spec impl open) as Hs. destruct (open_defect impl open) as [[notify e]|]; [|done].
  split; [done|]. intros (? & ? & ? & ? & ?). by destruct Hs.
Qed.

Lemma defect_u8 impl open code subcode e :
  defect impl open (Some (code, subcode)) e → is_u8 code ∧ is_u8 subcode.
Proof. intros H. inversion H; subst; split; unfold is_u8; lia. Qed.

(** The NOTIFICATION, or as much of it as the handler takes. *)
Definition notified (ans : answers) (n : nat) (s : session) (target : io_target) (notify : option (Z * Z))
    (acts : list fsm_io) : Prop :=
  match notify with
  | Some (code, subcode) =>
      transmitted ans n acts `prefix_of` notification_bytes code subcode ∧
      (sends_fully ans → sn_heap s = [] → acts = [IoSend target (notification_bytes code subcode)])
  | None => acts = []
  end.

Lemma reject_run ans n s out target {A} notify (result : A) :
  ln_out (fs_links (sn_impl s)) = Some out → handler_target s out = Some target →
  (∀ code subcode, notify = Some (code, subcode) → is_u8 code ∧ is_u8 subcode) →
  ∃ heap acts,
    alone ans n (Locked (reject notify result)) s =
      (inl result, with_heap (with_impl s (fsm_snapshot_teardown (sn_impl s))) heap, acts) ∧
    notified ans n s target notify acts.
Proof.
  intros Ho Ht Hu8. cbn [run]. unfold reject, teardown. cbn [td_out]. rewrite Ho.
  set (s1 := with_impl s (fsm_snapshot_teardown (sn_impl s))).
  destruct notify as [[code subcode]|].
  2: { exists (sn_heap s), []. split; [|done]. cbn. by rewrite <-(with_heap_id s1). }
  destruct (Hu8 _ _ eq_refl) as [Hc Hs].
  pose proof (notification_ok code subcode (pkt_raw_type libbgp_packet_init) Hc Hs) as Hok.
  unfold fsm_send_notification. rewrite alone_bind.
  destruct (send_packet_spec ans n out s1 target _ Ht Hok) as (e & heap & acts & Hrun & _ & Hpre & _).
  exists heap, acts. rewrite Hrun. cbn [run mret proc_ret]. rewrite app_nil_r. split; [done|]. split; [exact Hpre|].
  intros Hans Hheap. pose proof (send_full ans n out s1 target _ Hans Hheap Ht Hok) as Hfull.
  rewrite Hrun in Hfull. by injection Hfull.
Qed.

(** C14: An OPEN that is not acceptable, before or after the own OPEN was sent.
    The session answers with the NOTIFICATION for the first defect in the
    order version, hold time, identifier, own configuration (for which there is
    no NOTIFICATION), AS number, as far as the output handler takes it, returns the error code of the
    defect, is IDLE again, without a peer, and changes nothing else. *)
Theorem fsm_open_rejected ans n s out target msg raw :
  live s → ln_out (fs_links (sn_impl s)) = Some out → handler_target s out = Some target →
  fsm_state_pre_open (fs_state (sn_impl s)) = true ∨ fs_state (sn_impl s) = LIBBGP_FSM_OPEN_SENT →
  ¬ acceptable (sn_impl s) msg →
  ∃ notify e heap acts,
    defect (sn_impl s) msg notify e ∧
    alone ans n (libbgp_fsm_on_packet (Packet (p_open msg) raw)) s =
      (inl e, with_heap (with_impl s (fsm_snapshot_teardown (sn_impl s))) heap, acts) ∧
    fs_state (fsm_snapshot_teardown (sn_impl s)) = LIBBGP_FSM_IDLE ∧
    notified ans n s target notify acts.
Proof.
  intros Hl Ho Ht Hst Hno. pose proof (open_defect_spec (sn_impl s) msg) as Hdef.
  destruct (open_defect (sn_impl s) msg) as [[notify e]|] eqn:Hd; [|done]. exists notify, e.
  destruct (reject_run ans n (held s) out target notify e) as (heap & acts & Hrun & Hn); [done|done| |].
  { intros code subcode ->. by apply (defect_u8 _ _ _ _ _ Hdef). }
  exists heap, acts. split; [done|]. split; [|split; [|done]].
  - unfold libbgp_fsm_on_packet. apply alone_with_handle; [done| |apply Hl|apply Hl].
    etrans; [|exact Hrun]. cbn [run].
    assert (Heq : dispatch_packet (Packet (p_open msg) raw) (held s) = reject notify e (held s)); [|by rewrite Heq].
    unfold dispatch_packet, fsm_on_open_sent, fsm_on_pre_open_open, check_open. cbn [pkt_data held with_refs sn_impl].
    rewrite Hd. destruct Hst as [Hst| ->]; [|done]. by destruct (fs_state (sn_impl s)).
  - by destruct (set_state_fields (sn_impl s) LIBBGP_FSM_IDLE) as (? & _).
Qed.
End Reject.

(** ** An example *)

#[local] Existing Instance little_endian_host.

(** The peer has the identifier of the session itself. *)
Lemma fsm_open_rejected_witness :
  ∃ notify e heap acts,
    defect (sn_impl sample_a) (OpenMsg 4 65002 90 0x0a000001 []) notify e ∧
    alone grant 0 (libbgp_fsm_on_packet (Packet (p_open (OpenMsg 4 65002 90 0x0a000001 [])) 1)) sample_a =
      (inl e, with_heap (with_impl sample_a (fsm_snapshot_teardown (sn_impl sample_a))) heap, acts) ∧
    fs_state (fsm_snapshot_teardown (sn_impl sample_a)) = LIBBGP_FSM_IDLE ∧
    notified grant 0 sample_a sample_target notify acts.
Proof.
  apply (fsm_open_rejected grant 0 sample_a sample_out sample_target (OpenMsg 4 65002 90 0x0a000001 []) 1);
    [apply (sample_endpoint 65001 0x0a000001); unfold is_u32; lia|reflexivity|reflexivity|left; reflexivity|].
  intros (_ & _ & (Hid & _) & _). by apply Hid.
Defined.
