(* ===== verification/FsmEnd.v ===== *)
(** * The session: how it ends

    What happens to the tables and what the other sessions are told when an
    established session ends, for the ends listed in [ending]: packets and
    bytes of the peer, calls of the interface, the timers, a failed send.  The
    session runs alone, with any answers of the output handler and of the
    allocator. *)

From stdpp Require Import gmap.
From S2P Require Import Prelude Bytes Prefix4 Prefix6 Open Notification Pattr PattrSpec Update UpdateSpec As4 Packet PacketSpec Filter Event Hashmap HashmapSpec Rib RibTable RibDecision RibIndex RibInv RibRoutes RibSpec RibLookup RibFamilies Rib46 RibRefine RibBest RibJournal RibTheorems Fsm FsmUpdate Out Proc ProcSpec FsmSession FsmForward FsmHandlers FsmObject FsmSample FsmInv FsmKeeps FsmRun FsmOpen FsmHandshake.

(** The events among the calls, with the bus each went to. *)
Definition event_of (a : fsm_io) : option (Z * fsm_event) :=
  match a with IoPublish bus _ event => Some (bus, event) | _ => None end.

Definition published (acts : list fsm_io) : list (Z * fsm_event) := omap event_of acts.

Section Goes.
Context {host : Host} (ans : answers).

(** [p] ends, wherever it starts to count its calls, with a result, a state and
    published events that satisfy [Q]. *)
Definition goes {A} (p : fsm_proc A) (s : session) (Q : A -> session -> list (Z * fsm_event) -> Prop) : Prop :=
  ∀ n, ∃ a s' acts, alone ans n p s = (inl a, s', acts) ∧ Q a s' (published acts).

Lemma goes_mono {A} (p : fsm_proc A) s (Q Q' : A -> session -> list (Z * fsm_event) -> Prop) :
  goes p s Q → (∀ a s' evs, Q a s' evs → Q' a s' evs) → goes p s Q'.
Proof. intros Hp HQ n. destruct (Hp n) as (a & s' & acts & ? & ?). eauto 7. Qed.

Lemma goes_ret {A} (a : A) s (Q : A -> session -> list (Z * fsm_event) -> Prop) : Q a s [] → goes (mret a) s Q.
Proof. intros HQ n. by exists a, s, []. Qed.

Lemma goes_bind {A B} (p : fsm_proc A) (k : A -> fsm_proc B) s Q :
  goes p s (λ a s' evs, goes (k a) s' (λ b s'' evs', Q b s'' (evs ++ evs'))) → goes (p ≫= k) s Q.
Proof.
  intros Hp n. rewrite alone_bind. destruct (Hp n) as (a & s' & acts & -> & Hk).
  destruct (Hk (n + length acts)%nat) as (b & s'' & acts' & -> & HQ). exists b, s'', (acts ++ acts').
  unfold published in *. by rewrite omap_app.
Qed.

Lemma goes_assoc {A B C} (p : fsm_proc A) (k : A -> fsm_proc B) (j : B -> fsm_proc C) s Q :
  goes (p ≫= λ a, k a ≫= j) s Q → goes ((p ≫= k) ≫= j) s Q.
Proof.
  intros Hp n. destruct (Hp n) as (c & s' & acts & Hrun & HQ). exists c, s', acts. split; [|done].
  rewrite <-Hrun, !alone_bind. destruct (alone ans n p s) as [[[a|f] s1] acts1]; [|done].
  rewrite !alone_bind. destruct (alone ans _ (k a) s1) as [[[b|f] s2] acts2]; [|done].
  rewrite length_app, Nat.add_assoc. destruct (alone ans _ (j b) s2) as [[r s3] acts3]. by rewrite app_assoc.
Qed.

Lemma goes_locked {A} (f : fsm_locked A) s Q : goes (f s).2 (f s).1 Q → goes (Locked f) s Q.
Proof. intros Hf n. destruct (Hf n) as (a & s' & acts & Hrun & HQ). exists a, s', acts. cbn. by destruct (f s). Qed.

Lemma goes_calling_err {A} (m : M A) s E (Q : A + libbgp_err_t -> session -> list (Z * fsm_event) -> Prop) :
  wp m (λ a, ∀ heap, (sn_heap s = [] → heap = []) → Q (inl a) (with_heap s heap) []) E →
  (∀ e heap, E e ∨ e = LIBBGP_ERR_NOMEM → (sn_heap s = [] → heap = []) → Q (inr e) (with_heap s heap) []) →
  goes (calling m) s Q.
Proof.
  intros Hm He n. rewrite alone_calling. destruct (Hm (sn_heap s)) as (used & heap & Hs & H).
  assert (Hnil : sn_heap s = [] → heap = []) by (rewrite Hs; by intros [_ ?]%app_nil).
  destruct (m (sn_heap s)) as [[a|e|f] heap']; [| |done]; eexists _, _, _; (split; [done|]); destruct H as [-> H]; [auto|].
  apply He; [|done]. destruct H as [?|[? _]]; auto.
Qed.

Lemma goes_calling_run {A} (m : M A) s a heap (Q : A + libbgp_err_t -> session -> list (Z * fsm_event) -> Prop) :
  m (sn_heap s) = (Ret a, heap) → Q (inl a) (with_heap s heap) [] → goes (calling m) s Q.
Proof. intros Hm HQ n. rewrite alone_calling, Hm. by eexists _, _, _. Qed.

Lemma goes_calling {A} (m : M A) s E (Q : A + libbgp_err_t -> session -> list (Z * fsm_event) -> Prop) :
  wp m (λ a, ∀ heap, (sn_heap s = [] → heap = []) → Q (inl a) (with_heap s heap) []) E →
  (∀ e heap, (sn_heap s = [] → heap = []) → Q (inr e) (with_heap s heap) []) →
  goes (calling m) s Q.
Proof. intros Hm He. eapply goes_calling_err; [exact Hm|]. intros e heap _. apply He. Qed.

(** ** What is left alone *)

(** Everything but the tables, the allocator, which does not begin to refuse,
    and the notifications. *)
Definition kept (s s' : session) : Prop :=
  sn_refcount s' = sn_refcount s ∧ sn_destroy_started s' = sn_destroy_started s ∧
  sn_bus_refs s' = sn_bus_refs s ∧ sn_handle s' = sn_handle s ∧ sn_freed s' = sn_freed s ∧
  sn_out s' = sn_out s ∧ (sn_heap s = [] → sn_heap s' = []) ∧
  (fs_state (sn_impl s'), fs_peer (sn_impl s'), fs_session_generation (sn_impl s'), fs_links (sn_impl s'),
   fs_config (sn_impl s')) =
  (fs_state (sn_impl s), fs_peer (sn_impl s), fs_session_generation (sn_impl s), fs_links (sn_impl s),
   fs_config (sn_impl s)).

#[export] Instance kept_preorder : PreOrder kept.
Proof.
  split; [by intros s|]. intros s1 s2 s3 (? & ? & ? & ? & ? & ? & ? & ?) (? & ? & ? & ? & ? & ? & ? & ?).
  split_and!; [congruence..|auto|congruence].
Qed.

(** The tables as well: what the parts of an entry point that only send, drain
    or call back leave. *)
Definition aside (s s' : session) : Prop := kept s s' ∧ sn_rib4 s' = sn_rib4 s ∧ sn_rib6 s' = sn_rib6 s.

#[export] Instance aside_preorder : PreOrder aside.
Proof.
  split; [by intros s|]. intros s1 s2 s3 (? & ? & ?) (? & ? & ?). split; [by etrans|]. split; congruence.
Qed.

(** The handler a session sends with exists. *)
Definition handler_valid (s : session) (out : option Z) : Prop :=
  ∀ o, out = Some o → is_Some (sn_out s !! o).

(** [p] says nothing on the bus and changes nothing that matters here. *)
Definition tame {A} (p : fsm_proc A) (s : session) : Prop := goes p s (λ _ s' evs, aside s s' ∧ evs = []).

Lemma goes_tame {A B} (p : fsm_proc A) (k : A -> fsm_proc B) s Q :
  tame p s → (∀ a s', aside s s' → goes (k a) s' Q) → goes (p ≫= k) s Q.
Proof.
  intros Hp Hk. apply goes_bind. eapply goes_mono; [exact Hp|]. cbn. intros a s' evs [Hs ->]. by apply Hk.
Qed.

Lemma tame_ret {A} (a : A) s : tame (mret a) s.
Proof. by apply goes_ret. Qed.

Lemma tame_bind {A B} (p : fsm_proc A) (k : A -> fsm_proc B) s :
  tame p s → (∀ a s', aside s s' → tame (k a) s') → tame (p ≫= k) s.
Proof.
  intros Hp Hk. eapply goes_tame; [done|]. intros a s' Hs. eapply goes_mono; [by apply Hk|].
  cbn. intros b s'' evs [Hs' ->]. split; [by etrans|done].
Qed.

Lemma tame_reading {A} (f : session -> A) s : tame (reading f) s.
Proof. by apply goes_locked, goes_ret. Qed.

Lemma tame_drain s : tame drain_state_changes s.
Proof. apply goes_locked. by apply goes_ret. Qed.

Lemma tame_dispatch_changes cb changes s : tame (dispatch_changes cb changes) s.
Proof.
  revert s. induction changes as [|c changes IH]; intros s; cbn [dispatch_changes]; [apply tame_ret|].
  apply tame_bind; [apply tame_reading|]. intros [|] s' _; [|apply tame_ret].
  intros n. destruct (IH s' (S n)) as (a & s'' & acts & Hrun & HQ). cbn. rewrite Hrun. by exists a, s'', (IoCallback cb c :: acts).
Qed.

Lemma tame_dispatch_drained d s : tame (fsm_dispatch_drained_state_changes d) s.
Proof.
  destruct d as [cb changes]. unfold fsm_dispatch_drained_state_changes. apply tame_bind.
  - destruct cb; [apply tame_dispatch_changes|apply tame_ret].
  - intros _ s' _. case_match; [apply tame_ret|]. by apply goes_locked, goes_ret.
Qed.

(** The output handler takes nothing. *)
Definition refuses : Prop := ∀ n target bytes, ans n (IoSend target bytes) <= 0.

Lemma goes_out_send out buf s :
  is_Some (sn_out s !! out) →
  goes (out_send out buf) s (λ r s' evs,
    match r with inl sent => 0 <= sent ∧ (refuses → sent = 0) | inr e => e ≠ LIBBGP_OK end ∧ s' = s ∧ evs = []).
Proof.
  intros [handler Hh]. apply goes_locked. rewrite Hh. unfold libbgp_out_handler_send.
  destruct (zlen buf =? 0); [by apply goes_ret|].
  destruct (out_handler_target io_send_fn handler) as [target|]; [|by apply goes_ret].
  intros n. eexists _, s, _. split; [done|]. split; [|done]. cbn beta.
  destruct (Z.ltb_spec (ans n (IoSend target buf)) 0); [done|]. split; [done|].
  intros Href. pose proof (Href n target buf). lia.
Qed.

Lemma goes_send_loop fuel out rest s :
  is_Some (sn_out s !! out) → (length rest <= fuel)%nat →
  goes (send_loop fuel out rest) s (λ _ s' evs, s' = s ∧ evs = []).
Proof.
  intros Hh. revert rest. induction fuel as [|fuel IH]; intros rest Hf; cbn [send_loop].
  { destruct rest; [by apply goes_ret|simpl in Hf; lia]. }
  case_match; [by apply goes_ret|]. apply goes_bind. eapply goes_mono; [by apply goes_out_send|].
  cbn. intros [sent|e] s' evs (Hsent & -> & ->); [|by apply goes_ret]. destruct Hsent as [Hsent _].
  case_match eqn:Hs; [by apply goes_ret|]. apply IH. rewrite length_drop. lia.
Qed.

Lemma goes_send_packet out pkt s :
  handler_valid s out → pkt_ok pkt →
  goes (fsm_send_packet out pkt) s (λ _ s' evs,
    (∃ heap, s' = with_heap s heap ∧ (sn_heap s = [] → heap = [])) ∧ evs = []).
Proof.
  intros Hh Hok. unfold fsm_send_packet. destruct out as [out|].
  2: { apply goes_ret. split; [|done]. exists (sn_heap s). by rewrite with_heap_id. }
  fold (packet_bytes pkt). apply goes_bind. apply goes_calling with (E := no_err).
  - eapply wp_mono; [by apply packet_bytes_spec| |done]. intros bytes _ heap Hheap.
    eapply goes_mono; [apply goes_send_loop; [by apply Hh|done]|]. cbn. intros _ s'' evs [-> ->]. split; [by exists heap|done].
  - intros e heap Hheap. apply goes_ret. split; [by exists heap|done].
Qed.

Lemma goes_send_refused out pkt s :
  refuses → handler_valid s out → pkt_ok pkt →
  goes (fsm_send_packet out pkt) s (λ e s' evs,
    e ≠ LIBBGP_OK ∧ (∃ heap, s' = with_heap s heap ∧ (sn_heap s = [] → heap = [])) ∧ evs = []).
Proof.
  intros Href Hh Hok. unfold fsm_send_packet. destruct out as [out|].
  2: { apply goes_ret. split; [done|]. split; [|done]. exists (sn_heap s). by rewrite with_heap_id. }
  fold (packet_bytes pkt). apply goes_bind. apply goes_calling_err with (E := no_err).
  2: { intros e heap [[]| ->] Hheap. apply goes_ret. split; [done|]. split; [by exists heap|done]. }
  eapply wp_mono; [by apply packet_bytes_spec| |done]. intros bytes -> heap Hheap.
  assert (Hlen : zlen (pkt_enc pkt) ≠ 0) by (rewrite pkt_enc_length; lia).
  destruct (length (pkt_enc pkt)) as [|fuel] eqn:Hf; [lia|]. cbn [send_loop]. replace (_ =? 0) with false by lia.
  apply goes_bind. eapply goes_mono; [by apply goes_out_send, Hh|]. cbn. intros [sent|e] s' evs (Hsent & -> & ->).
  - destruct Hsent as [_ Hsent]. rewrite (Hsent Href). apply goes_ret. split; [done|]. split; [by exists heap|done].
  - apply goes_ret. split; [done|]. split; [by exists heap|done].
Qed.

Lemma tame_send_packet out pkt s : handler_valid s out → pkt_ok pkt → tame (fsm_send_packet out pkt) s.
Proof.
  intros Hh Hok. eapply goes_mono; [by apply goes_send_packet|]. cbn beta. intros _ s' evs [(heap & -> & Hheap) ->].
  by split.
Qed.

Lemma tame_send_notification out code subcode s :
  handler_valid s out → is_u8 code → is_u8 subcode → tame (fsm_send_notification out code subcode) s.
Proof. intros Hh Hc Hs. apply tame_send_packet; [done|]. by apply notification_ok. Qed.

(** ** Discarding the routes *)

Definition told (bus : option Z) (type : libbgp_event_type_t) (data : fsm_event_data) : list (Z * fsm_event) :=
  match bus with Some bus => [(bus, EventOf type data)] | None => [] end.

Lemma goes_publish bus publisher type data s :
  goes (publish bus publisher (EventOf type data)) s (λ _ s' evs, s' = s ∧ evs = told bus type data).
Proof. destruct bus; [|by apply goes_ret]. intros n. by eexists _, _, _. Qed.

End Goes.

Section Tables.
Context `{family : Family} {host : Host}.
Context (prefix_ok : Prefix -> Prop) (addr_ok : Addr -> Prop) `{!FamilyLaws prefix_ok addr_ok}.

Abbreviation others src t := (filter (λ r, ¬ from src r) t).

Lemma runs_rib_discard T cmp impl t src :
  rib_ok prefix_ok cmp impl t → runs T (libbgp_rib_discard impl src) (λ impl', rib_ok prefix_ok cmp impl' (others src t)).
Proof.
  intros (Hnd & R & Hrep & HR). unfold libbgp_rib_discard. apply runs_bind.
  eapply runs_mono; [by apply (runs_remove_source prefix_ok addr_ok T cmp impl R src)|].
  intros [impl' n]. cbn [fst snd]. intros (_ & Hrep' & _). apply runs_ret. destruct (filter_from src R) as [_ Hf].
  split; [eapply table_wf_sublist; [apply sublist_filter|done]|].
  exists (without_key src_of src R). split; [done|]. by rewrite <-Hf, HR.
Qed.

(** The routes go, reported or not. *)
Definition discarded T t src (o : rib_impl_t * option bgp_rib_discard_result_t) : Prop :=
  rib_ok prefix_ok true o.1 (others src t) ∧
  match o.2 with Some d => collected t (others src t) src d | None => T = false end.

Lemma runs_discard_collect T impl t src :
  rib_ok prefix_ok true impl t → zlen t < 2 ^ 40 → runs T (discard_collect impl src) (discarded T t src).
Proof.
  intros Hok Hlen. unfold discard_collect. apply runs_bind.
  eapply runs_mono; [by apply (discard_collect_spec prefix_ok addr_ok T impl t src)|].
  intros [impl' [d|e]]; cbn [fst snd]; [by intros [? ?]; apply runs_ret|].
  intros (-> & HT & [->|Hok']); apply runs_bind.
  - eapply runs_mono; [by apply (runs_rib_discard T true impl t src)|]. cbn. intros impl1 Hok1. by apply runs_ret.
  - eapply runs_mono; [by apply (runs_rib_discard T true impl' (others src t) src)|]. cbn. intros impl1 Hok1. apply runs_ret.
    cbn. rewrite list_filter_filter in Hok1. split; [|done].
    erewrite (list_filter_iff _ (λ r, ¬ from src r ∧ ¬ from src r)); [exact Hok1|]. intros r. tauto.
Qed.
End Tables.

(** ** Announcing what was lost *)

(** The computation returns a value or an error code, without a fault. *)
Definition sound {A} (m : M A) : Prop := wp m (λ _, True) (λ _, True).

Lemma sound_ret {A} (a : A) : sound (mret a).
Proof. by apply wp_ret. Qed.

Lemma sound_bind {A B} (m : M A) (k : A -> M B) : sound m → (∀ a, sound (k a)) → sound (m ≫= k).
Proof. intros Hm Hk. apply wp_bind. eapply wp_mono; [exact Hm| |done]. intros a _. apply Hk. Qed.

Lemma sound_fail_if c e : sound (fail_if c e).
Proof. by apply wp_fail_if. Qed.

Lemma sound_alloc : sound alloc_or_nomem.
Proof. by apply wp_alloc_or_nomem. Qed.

Lemma sound_grow n cap size : sound (array_grow n cap size).
Proof. by apply wp_array_grow_any. Qed.

Create HintDb sound.
#[local] Hint Resolve sound_ret sound_fail_if sound_alloc sound_grow : sound.

#[local] Ltac sound_walk :=
  repeat first
    [ solve [auto 1 with sound nocore]
    | match goal with
      | |- sound (_ ≫= _) => apply sound_bind; [|intros]
      | |- sound (match ?x with _ => _ end) => destruct x
      end ].

Lemma sound_add_attr msg attr : sound (libbgp_update_add_attr msg attr).
Proof. unfold libbgp_update_add_attr, update_add_attr_with_cap. sound_walk. Qed.

Lemma sound_add_nlri msg p : sound (libbgp_update_add_nlri msg p).
Proof. unfold libbgp_update_add_nlri, update_add_prefix. sound_walk. Qed.

#[local] Hint Resolve sound_add_attr sound_add_nlri : sound.

Lemma sound_add_route_attrs keep attrs update : sound (add_route_attrs keep attrs update).
Proof.
  revert update. induction attrs as [|attr attrs IH]; intros update; cbn [add_route_attrs]; [apply sound_ret|].
  destruct (keep attr); [|apply IH]. apply wp_try_call with (E0 := λ _, True).
  - eapply wp_mono; [apply sound_add_attr| |done]. intros msg _. apply IH.
  - intros e _. case_decide; [apply IH|by apply wp_err].
  - rewrite decide_False by done. apply wp_err. by left.
Qed.

#[local] Hint Resolve sound_add_route_attrs : sound.

Lemma sound_update_from_route4 `{host : Host} route : sound (fsm_update_from_route4 route).
Proof.
  unfold fsm_update_from_route4, fsm_update_ensure_origin, fsm_update_ensure_empty_as_path,
    fsm_update_set_next_hop4, libbgp_pattr_new. sound_walk.
Qed.

Lemma sound_update_from_route6 `{host : Host} route : sound (fsm_update_from_route6 route).
Proof.
  unfold fsm_update_from_route6, fsm_update_ensure_origin, fsm_update_ensure_empty_as_path,
    fsm_update_add_mp_reach6, libbgp_pattr_new. sound_walk.
Qed.

Section Discard.
Context {host : Host} (ans : answers).

(** What is published about the withdrawn prefixes and about the routes that
    take over; the latter is left out when the UPDATE cannot be built. *)
Definition lost4 (bus : option Z) (peer : Z) (p : libbgp_prefix4_t) : list (Z * fsm_event) :=
  told bus LIBBGP_EVENT_ROUTE_WITHDRAWN (EventData peer (Some p) None None).
Definition lost6 (bus : option Z) (peer : Z) (p : libbgp_prefix6_t) : list (Z * fsm_event) :=
  told bus LIBBGP_EVENT_ROUTE_WITHDRAWN (EventData peer None (Some p) None).
Definition gained4 (bus : option Z) (r : libbgp_rib4_route_t) (evs : list (Z * fsm_event)) : Prop :=
  evs = [] ∨ ∃ update, evs = told bus LIBBGP_EVENT_ROUTE_ADDED
    (EventData (rr_source_router_id (family := family4) r) (Some (rr_prefix (family := family4) r)) None (Some update)).
Definition gained6 (bus : option Z) (r : libbgp_rib6_route_t) (evs : list (Z * fsm_event)) : Prop :=
  evs = [] ∨ ∃ update, evs = told bus LIBBGP_EVENT_ROUTE_ADDED
    (EventData (rr_source_router_id (family := family6) r) None (Some (rr_prefix (family := family6) r)) (Some update)).

Definition reported {P R} (lost : P -> list (Z * fsm_event)) (gained : R -> list (Z * fsm_event) -> Prop)
    (result : option (list P * list R)) (evs : list (Z * fsm_event)) : Prop :=
  match result with
  | None => evs = []
  | Some (withdrawn, replacements) =>
      ∃ parts, evs = (withdrawn ≫= lost) ++ concat parts ∧ Forall2 gained replacements parts
  end.

Lemma goes_each_exact {X} (f : X -> fsm_proc unit) xs s (ev : X -> list (Z * fsm_event)) :
  (∀ x s', goes ans (f x) s' (λ _ s'' evs, s'' = s' ∧ evs = ev x)) →
  goes ans (each f xs) s (λ _ s' evs, s' = s ∧ evs = xs ≫= ev).
Proof.
  intros Hf. induction xs as [|x xs IH]; cbn [each]; [by apply goes_ret|].
  apply goes_bind. eapply goes_mono; [apply Hf|]. cbn. intros _ s' evs [-> ->].
  eapply goes_mono; [exact IH|]. cbn. by intros _ s' evs [-> ->].
Qed.

Lemma goes_each {X} (f : X -> fsm_proc unit) xs s (ev : X -> list (Z * fsm_event) -> Prop) :
  (∀ x s', goes ans (f x) s' (λ _ s'' evs, aside s' s'' ∧ ev x evs)) →
  goes ans (each f xs) s (λ _ s' evs, aside s s' ∧ ∃ parts, evs = concat parts ∧ Forall2 ev xs parts).
Proof.
  intros Hf. revert s. induction xs as [|x xs IH]; intros s; cbn [each].
  { apply goes_ret. split; [done|]. by exists []. }
  apply goes_bind. eapply goes_mono; [apply Hf|]. cbn. intros _ s' evs [Hs Hevs].
  eapply goes_mono; [apply IH|]. cbn. intros _ s'' evs' [Hs' (parts & -> & Hparts)].
  split; [by etrans|]. exists (evs :: parts). split; [done|by constructor].
Qed.

Lemma goes_added4 bus publisher r s :
  goes ans (fsm_publish_route4_added_snapshot bus publisher r) s (λ _ s' evs, aside s s' ∧ gained4 bus r evs).
Proof.
  unfold fsm_publish_route4_added_snapshot. apply goes_bind. eapply goes_calling with (E := λ _, True).
  - eapply wp_mono; [apply sound_update_from_route4| |done]. intros update _ heap Hh.
    eapply goes_mono; [apply goes_publish|]. cbn. intros _ s' evs [-> ->]. split; [by split|]. right. by exists update.
  - intros e heap Hh. apply goes_ret. split; [by split|]. by left.
Qed.

Lemma goes_added6 bus publisher r s :
  goes ans (fsm_publish_route6_added_snapshot bus publisher r) s (λ _ s' evs, aside s s' ∧ gained6 bus r evs).
Proof.
  unfold fsm_publish_route6_added_snapshot. apply goes_bind. eapply goes_calling with (E := λ _, True).
  - eapply wp_mono; [apply sound_update_from_route6| |done]. intros update _ heap Hh.
    eapply goes_mono; [apply goes_publish|]. cbn. intros _ s' evs [-> ->]. split; [by split|]. right. by exists update.
  - intros e heap Hh. apply goes_ret. split; [by split|]. by left.
Qed.

Lemma goes_reported {P R} (f : P -> fsm_proc unit) (g : R -> fsm_proc unit) lost gained withdrawn replacements s :
  (∀ p s', goes ans (f p) s' (λ _ s'' evs, s'' = s' ∧ evs = lost p)) →
  (∀ r s', goes ans (g r) s' (λ _ s'' evs, aside s' s'' ∧ gained r evs)) →
  goes ans (each f withdrawn;; each g replacements) s
    (λ _ s' evs, aside s s' ∧ reported lost gained (Some (withdrawn, replacements)) evs).
Proof.
  intros Hf Hg. apply goes_bind. eapply goes_mono; [by apply goes_each_exact|]. cbn. intros _ s' evs [-> ->].
  eapply goes_mono; [by apply goes_each|]. cbn. intros _ s' evs [Hs (parts & -> & Hparts)]. split; [done|]. eauto.
Qed.

Lemma goes_on_tables {A B} s p4 p6 rib4 rib6 m (k : A + libbgp_err_t -> fsm_locked B) P Q :
  sn_rib4 s !! p4 = Some rib4 → sn_rib6 s !! p6 = Some rib6 →
  runs (bool_decide (sn_heap s = [])) (m (Some rib4) (Some rib6)) P →
  (∀ t4 t6 a heap, P (t4, t6, a) → (sn_heap s = [] → heap = []) →
     let s' := with_ribs (with_heap s heap) (put_table (sn_rib4 s) (Some p4) t4) (put_table (sn_rib6 s) (Some p6) t6) in
     goes ans (k (inl a) s').2 (k (inl a) s').1 Q) →
  goes ans (Locked (on_tables (Some p4) (Some p6) m k)) s Q.
Proof.
  intros H4 H6 Hm Hk. apply goes_locked. unfold on_tables. cbn [deref_table]. rewrite H4, H6.
  destruct (Hm (sn_heap s)) as ([[t4 t6] a] & heap & Hrun & HP & Hnil); [by intros ?%bool_decide_eq_true|].
  unfold allocating. rewrite Hrun. apply (Hk t4 t6 a heap HP). intros Hs. by apply Hnil, bool_decide_eq_true.
Qed.

(** What a table and the bus are left with; [granted]: the allocator never
    refuses. *)
Definition outcome4 (granted : Prop) (bus : option Z) (peer : Z) (t : list libbgp_rib4_route_t) (rib : rib4_impl_t)
    (evs : list (Z * fsm_event)) : Prop :=
  rib_ok (family := family4) p4_wf true rib (filter (λ r, ¬ from (family := family4) peer r) t) ∧
  ∃ result : option (bgp_rib_discard_result_t (family := family4)),
    reported (lost4 bus peer) (gained4 bus)
      ((λ d, (dr_withdrawn (family := family4) d, dr_replacements (family := family4) d)) <$> result) evs ∧
    (∀ d, result = Some d → collected (family := family4) t (filter (λ r, ¬ from (family := family4) peer r) t) peer d) ∧
    (granted → is_Some result).

Definition outcome6 (granted : Prop) (bus : option Z) (peer : Z) (t : list libbgp_rib6_route_t) (rib : rib6_impl_t)
    (evs : list (Z * fsm_event)) : Prop :=
  rib_ok (family := family6) p6_wf true rib (filter (λ r, ¬ from (family := family6) peer r) t) ∧
  ∃ result : option (bgp_rib_discard_result_t (family := family6)),
    reported (lost6 bus peer) (gained6 bus)
      ((λ d, (dr_withdrawn (family := family6) d, dr_replacements (family := family6) d)) <$> result) evs ∧
    (∀ d, result = Some d → collected (family := family6) t (filter (λ r, ¬ from (family := family6) peer r) t) peer d) ∧
    (granted → is_Some result).

Lemma goes_publish_discarded4 bus peer result s :
  goes ans (publish_discarded4 bus peer result) s (λ _ s' evs, aside s s' ∧
    reported (lost4 bus peer) (gained4 bus)
      ((λ d, (dr_withdrawn (family := family4) d, dr_replacements (family := family4) d)) <$> result) evs).
Proof.
  destruct result as [d|]; [|by apply goes_ret]. apply goes_reported.
  - intros p s'. apply goes_publish.
  - intros r s'. apply goes_added4.
Qed.

Lemma goes_publish_discarded6 bus peer result s :
  goes ans (publish_discarded6 bus peer result) s (λ _ s' evs, aside s s' ∧
    reported (lost6 bus peer) (gained6 bus)
      ((λ d, (dr_withdrawn (family := family6) d, dr_replacements (family := family6) d)) <$> result) evs).
Proof.
  destruct result as [d|]; [|by apply goes_ret]. apply goes_reported.
  - intros p s'. apply goes_publish.
  - intros r s'. apply goes_added6.
Qed.

Lemma goes_discard4 bus p4 p6 peer s rib4 rib6 t4 :
  sn_rib4 s !! p4 = Some rib4 → sn_rib6 s !! p6 = Some rib6 →
  rib_ok (family := family4) p4_wf true rib4 t4 → zlen t4 < 2 ^ 40 →
  goes ans (Locked (on_tables (Some p4) (Some p6) (λ t4 t6, discard_table4 t4 t6 peer) (λ r s,
    (s, publish_discarded4 bus peer (match r with inl result => result | inr _ => None end))))) s (λ _ s' evs,
    kept s s' ∧ sn_rib6 s' = sn_rib6 s ∧
    ∃ rib, sn_rib4 s' = <[p4 := rib]> (sn_rib4 s) ∧ outcome4 (sn_heap s = []) bus peer t4 rib evs).
Proof.
  intros H4 H6 Hok Hlen. eapply goes_on_tables with (P := λ o, ∃ rib, o.1 = (Some rib, Some rib6) ∧
    discarded (family := family4) p4_wf (bool_decide (sn_heap s = [])) t4 peer (rib, o.2)); [done|done| |].
  - unfold discard_table4. apply runs_bind.
    eapply runs_mono; [by apply (runs_discard_collect (family := family4) p4_wf is_u32 _ rib4 t4 peer)|].
    intros [rib result] H. apply runs_ret. by exists rib.
  - intros t4' t6' result heap (rib & [= -> ->] & Hrib & Hres) Hheap. cbn [fst snd] in *.
    eapply goes_mono; [apply goes_publish_discarded4|]. cbn beta. intros _ s' evs [[Hk [Hr4 Hr6]] Hevs].
    split; [etrans; [|exact Hk]; by split_and!|]. cbn [with_ribs sn_rib4 sn_rib6 put_table] in Hr4, Hr6.
    split; [by rewrite Hr6, insert_id|]. exists rib. split; [done|]. split; [done|].
    exists result. split; [done|]. split.
    + by intros d ->.
    + intros Hg. destruct result; [done|]. by rewrite Hg in Hres.
Qed.

Lemma goes_discard6 bus p4 p6 peer s rib4 rib6 t6 :
  sn_rib4 s !! p4 = Some rib4 → sn_rib6 s !! p6 = Some rib6 →
  rib_ok (family := family6) p6_wf true rib6 t6 → zlen t6 < 2 ^ 40 →
  goes ans (Locked (on_tables (Some p4) (Some p6) (λ t4 t6, discard_table6 t4 t6 peer) (λ r s,
    (s, publish_discarded6 bus peer (match r with inl result => result | inr _ => None end))))) s (λ _ s' evs,
    kept s s' ∧ sn_rib4 s' = sn_rib4 s ∧
    ∃ rib, sn_rib6 s' = <[p6 := rib]> (sn_rib6 s) ∧ outcome6 (sn_heap s = []) bus peer t6 rib evs).
Proof.
  intros H4 H6 Hok Hlen. eapply goes_on_tables with (P := λ o, ∃ rib, o.1 = (Some rib4, Some rib) ∧
    discarded (family := family6) p6_wf (bool_decide (sn_heap s = [])) t6 peer (rib, o.2)); [done|done| |].
  - unfold discard_table6. apply runs_bind.
    eapply runs_mono; [by apply (runs_discard_collect (family := family6) p6_wf addr6_ok _ rib6 t6 peer)|].
    intros [rib result] H. apply runs_ret. by exists rib.
  - intros t4' t6' result heap (rib & [= -> ->] & Hrib & Hres) Hheap. cbn [fst snd] in *.
    eapply goes_mono; [apply goes_publish_discarded6|]. cbn beta. intros _ s' evs [[Hk [Hr4 Hr6]] Hevs].
    split; [etrans; [|exact Hk]; by split_and!|]. cbn [with_ribs sn_rib4 sn_rib6 put_table] in Hr4, Hr6.
    split; [by rewrite Hr4, insert_id|]. exists rib. split; [done|]. split; [done|].
    exists result. split; [done|]. split.
    + by intros d ->.
    + intros Hg. destruct result; [done|]. by rewrite Hg in Hres.
Qed.

Lemma goes_discard bus p4 p6 peer s rib4 rib6 t4 t6 :
  sn_rib4 s !! p4 = Some rib4 → sn_rib6 s !! p6 = Some rib6 →
  rib_ok (family := family4) p4_wf true rib4 t4 → zlen t4 < 2 ^ 40 →
  rib_ok (family := family6) p6_wf true rib6 t6 → zlen t6 < 2 ^ 40 →
  goes ans (fsm_discard_peer_routes_publish bus (Some p4) (Some p6) peer) s (λ _ s' evs,
    kept s s' ∧ ∃ rib4' rib6' evs4 evs6,
      sn_rib4 s' = <[p4 := rib4']> (sn_rib4 s) ∧ sn_rib6 s' = <[p6 := rib6']> (sn_rib6 s) ∧
      evs = evs4 ++ evs6 ∧ outcome4 (sn_heap s = []) bus peer t4 rib4' evs4 ∧
      outcome6 (sn_heap s = []) bus peer t6 rib6' evs6).
Proof.
  intros H4 H6 Hok4 Hlen4 Hok6 Hlen6. unfold fsm_discard_peer_routes_publish. apply goes_bind.
  eapply goes_mono; [by eapply goes_discard4|]. cbn beta. intros _ s1 evs4 (Hk1 & Hr6 & rib4' & Hr4 & Hout4).
  eapply goes_mono; [apply goes_discard6 with (rib4 := rib4') (rib6 := rib6); [|by rewrite Hr6|done|done]|].
  { by rewrite Hr4, lookup_insert_eq. }
  cbn beta. intros _ s2 evs6 (Hk2 & Hr4' & rib6' & Hr6' & Hout6). split; [by etrans|].
  exists rib4', rib6', evs4, evs6. split; [by rewrite Hr4'|]. split; [by rewrite Hr6', Hr6|].
  split; [done|]. split; [done|]. destruct Hout6 as (Hrib & result & Hrep & Hcol & Hg).
  split; [done|]. exists result. split; [done|]. split; [done|]. intros Hs. apply Hg, Hk1, Hs.
Qed.
End Discard.

(** ** The ends of an established session *)

Section Ends.
Context {host : Host} (ans : answers).

(** Gives back the reference of an entry point. *)
Definition released (s : session) : session := with_refs s (sn_refcount s - 1) (sn_handle s) (sn_freed s).

Lemma held_released s : held (released s) = s.
Proof. destruct s. unfold held, released, with_refs. cbn. f_equal. lia. Qed.

Lemma goes_with_handle {A} (without : A) body s (Q : A -> session -> list (Z * fsm_event) -> Prop) :
  live s →
  goes ans body (held s) (λ a s' evs,
    sn_refcount s' = sn_refcount s + 1 ∧ sn_destroy_started s' = false ∧ Q a (released s') evs) →
  goes ans (with_handle without body) s Q.
Proof.
  intros Hl Hb n. destruct (Hb n) as (a & s' & acts & Hrun & Hr & Hd & HQ). exists a, (released s'), acts.
  split; [|done]. apply alone_with_handle; [done|by rewrite held_released| |done].
  destruct Hl as (_ & _ & ?). cbn. lia.
Qed.

(** An established session with its tables. *)
Record serving (s : session) (t4 : list libbgp_rib4_route_t) (t6 : list libbgp_rib6_route_t) : Prop := Serving {
  sv_live : live s;
  sv_state : fs_state (sn_impl s) = LIBBGP_FSM_ESTABLISHED;
  sv_out : handler_valid s (ln_out (fs_links (sn_impl s)));
  sv_rib4 : ∃ p rib, ln_rib4 (fs_links (sn_impl s)) = Some p ∧ sn_rib4 s !! p = Some rib ∧
    rib_ok (family := family4) p4_wf true rib t4;
  sv_len4 : zlen t4 < 2 ^ 40;
  sv_rib6 : ∃ p rib, ln_rib6 (fs_links (sn_impl s)) = Some p ∧ sn_rib6 s !! p = Some rib ∧
    rib_ok (family := family6) p6_wf true rib t6;
  sv_len6 : zlen t6 < 2 ^ 40
}.

(** The session is back in IDLE, the tables are without the routes of the peer,
    the bus was told which prefixes were lost and, at last, that the session is
    down. *)
Definition taken_down (s : session) (t4 : list libbgp_rib4_route_t) (t6 : list libbgp_rib6_route_t)
    (s' : session) (evs : list (Z * fsm_event)) : Prop :=
  kept (with_impl s (fsm_snapshot_teardown (sn_impl s))) s' ∧
  ∃ p4 p6 rib4 rib6 evs4 evs6,
    ln_rib4 (fs_links (sn_impl s)) = Some p4 ∧ ln_rib6 (fs_links (sn_impl s)) = Some p6 ∧
    sn_rib4 s' = <[p4 := rib4]> (sn_rib4 s) ∧ sn_rib6 s' = <[p6 := rib6]> (sn_rib6 s) ∧
    evs = evs4 ++ evs6 ++
      told (ln_bus (fs_links (sn_impl s))) LIBBGP_EVENT_SESSION_DOWN (EventData 0 None None None) ∧
    outcome4 (sn_heap s = []) (ln_bus (fs_links (sn_impl s))) (pe_bgp_id (fs_peer (sn_impl s))) t4 rib4 evs4 ∧
    outcome6 (sn_heap s = []) (ln_bus (fs_links (sn_impl s))) (pe_bgp_id (fs_peer (sn_impl s))) t6 rib6 evs6.

(** Only the discarding, from a state in which nothing else has happened. *)
Lemma goes_discard_serving s t4 t6 s1 :
  serving s t4 t6 → aside (teardown s).1 s1 →
  goes ans (discard_torn_down (teardown s).2) s1 (λ _ s' evs, kept s1 s' ∧
    ∀ s'', aside s' s'' → taken_down s t4 t6 s''
      (evs ++ told (ln_bus (fs_links (sn_impl s))) LIBBGP_EVENT_SESSION_DOWN (EventData 0 None None None))).
Proof.
  intros [_ _ _ (p4 & rib4 & Hp4 & Hl4 & Hok4) Hlen4 (p6 & rib6 & Hp6 & Hl6 & Hok6) Hlen6] (Hk1 & Hr4 & Hr6).
  unfold discard_torn_down, teardown in *. cbn [fst snd td_bus td_rib4 td_rib6 td_peer_bgp_id with_impl sn_rib4 sn_rib6] in *.
  rewrite Hp4, Hp6. eapply goes_mono; [eapply goes_discard; [by rewrite Hr4|by rewrite Hr6|eassumption|done|eassumption|done]|].
  cbn beta. intros _ s2 evs (Hk2 & rib4' & rib6' & evs4 & evs6 & Hr4' & Hr6' & -> & Hout4 & Hout6). split; [done|].
  intros s3 (Hk3 & Hr4'' & Hr6'').
  split; [by do 2 (etrans; [eassumption|])|].
  exists p4, p6, rib4', rib6', evs4, evs6. split; [done|]. split; [done|].
  split; [by rewrite Hr4'', Hr4', Hr4|]. split; [by rewrite Hr6'', Hr6', Hr6|]. rewrite app_assoc. split; [done|].
  assert (Hg : sn_heap s = [] → sn_heap s1 = []) by apply Hk1.
  destruct Hout4 as (? & result4 & ? & ? & ?), Hout6 as (? & result6 & ? & ? & ?).
  split; (split; [done|]); [exists result4|exists result6]; auto.
Qed.

(** What is left to do once the routes are gone. *)
Definition says_down {A} (bus : option Z) (p : fsm_proc A) (s : session) : Prop :=
  goes ans p s (λ _ s' evs, aside s s' ∧ evs = told bus LIBBGP_EVENT_SESSION_DOWN (EventData 0 None None None)).

Lemma says_down_now {A} bus (k : unit -> fsm_proc A) s :
  (∀ s', aside s s' → tame ans (k tt) s') → says_down bus (session_down bus ≫= k) s.
Proof.
  intros Hk. apply goes_bind. eapply goes_mono; [apply goes_publish|]. cbn beta. intros [] s' evs [-> ->].
  eapply goes_mono; [by apply Hk|]. cbn beta. intros a s' evs [Hs ->]. by rewrite app_nil_r.
Qed.

Lemma says_down_later {A B} bus (p : fsm_proc A) (k : A -> fsm_proc B) s :
  tame ans p s → (∀ a s', aside s s' → says_down bus (k a) s') → says_down bus (p ≫= k) s.
Proof.
  intros Hp Hk. eapply goes_tame; [done|]. intros a s' Hs. eapply goes_mono; [by apply Hk|]. cbn beta.
  intros b s'' evs [Hs' ->]. split; [by etrans|done].
Qed.

Lemma goes_end {A} s t4 t6 s1 (k : unit -> fsm_proc A) :
  serving s t4 t6 → aside (teardown s).1 s1 →
  (∀ s', kept s1 s' → says_down (ln_bus (fs_links (sn_impl s))) (k tt) s') →
  goes ans (discard_torn_down (teardown s).2 ≫= k) s1 (λ _ s' evs, taken_down s t4 t6 s' evs).
Proof.
  intros Hs H1 Hk. apply goes_bind. eapply goes_mono; [by apply goes_discard_serving|]. cbn beta.
  intros [] s2 evs [Hk2 Hdown].
  eapply goes_mono; [by apply Hk|]. cbn beta. intros a s3 evs' [H3 ->]. by apply Hdown.
Qed.

Lemma kept_handler s s' out : kept s s' → handler_valid s out → handler_valid s' out.
Proof. intros (_ & _ & _ & _ & _ & Ho & _). unfold handler_valid. by rewrite Ho. Qed.

Lemma aside_handler s s' out : aside s s' → handler_valid s out → handler_valid s' out.
Proof. intros [? _]. by apply kept_handler. Qed.

Lemma end_down_and_dispatch s t4 t6 send result :
  serving s t4 t6 → (∀ s', aside (teardown s).1 s' → tame ans send s') →
  goes ans (down_and_dispatch (teardown s).2 send result) (teardown s).1 (λ _ s' evs, taken_down s t4 t6 s' evs).
Proof.
  intros Hs Hsend. unfold down_and_dispatch. eapply goes_tame; [apply tame_drain|]. intros d s1 H1.
  eapply goes_tame; [by apply Hsend|]. intros send_err s2 H2. apply goes_end; [done|by etrans|].
  intros s3 _. apply says_down_now. intros s4 _. apply tame_bind; [apply tame_dispatch_drained|]. intros _ s5 _. apply tame_ret.
Qed.

(** A KEEPALIVE could not be sent. *)
Lemma goes_end_failed s t4 t6 {A} (r : A) :
  serving s t4 t6 →
  goes ans (d ← drain_state_changes; down_if_established true (teardown s).2 d;; mret r) (teardown s).1
    (λ _ s' evs, taken_down s t4 t6 s' evs).
Proof.
  intros Hs. eapply goes_tame; [apply tame_drain|]. intros d s1 H1.
  unfold down_if_established. do 2 apply goes_assoc. apply goes_end; [done|done|].
  intros s3 _. apply says_down_now. intros s4 _. apply tame_bind; [apply tame_dispatch_drained|]. intros _ s5 _. apply tame_ret.
Qed.

Lemma end_tick s t4 t6 :
  serving s t4 t6 →
  goes ans (d ← drain_state_changes;
            fsm_send_notification (td_out (teardown s).2) FSM_NOTIFY_HOLD_TIMER_EXPIRED 0;;
            down_if_established true (teardown s).2 d;; mret LIBBGP_OK) (teardown s).1
    (λ _ s' evs, taken_down s t4 t6 s' evs).
Proof.
  intros Hs. pose proof (sv_out _ _ _ Hs) as Ho. eapply goes_tame; [apply tame_drain|]. intros d s1 H1.
  eapply goes_tame.
  { apply tame_send_notification; [|unfold is_u8; vm_compute; done..]. by eapply aside_handler. }
  intros e s2 H2. unfold down_if_established. do 2 apply goes_assoc. apply goes_end; [done|by etrans|].
  intros s3 _. apply says_down_now. intros s4 _. apply tame_bind; [apply tame_dispatch_drained|]. intros _ s5 _. apply tame_ret.
Qed.

Lemma end_reset s t4 t6 send_notify subcode :
  serving s t4 t6 → is_u8 subcode →
  let '(s', p) := reset send_notify subcode s in goes ans p s' (λ _ s' evs, taken_down s t4 t6 s' evs).
Proof.
  intros Hs Hc. pose proof (sv_out _ _ _ Hs) as Ho. unfold reset. cbv zeta. rewrite (sv_state _ _ _ Hs).
  rewrite (bool_decide_false (LIBBGP_FSM_ESTABLISHED = LIBBGP_FSM_IDLE)), (bool_decide_true (_ = LIBBGP_FSM_ESTABLISHED)) by done.
  cbn [negb]. rewrite andb_true_r, andb_true_l.
  destruct (teardown s) as [s0 td] eqn:Htd. assert (Hs0 : s0 = (teardown s).1) by by rewrite Htd.
  assert (Htd' : td = (teardown s).2) by by rewrite Htd. subst s0 td. clear Htd.
  assert (Hsend : ∀ s', kept (teardown s).1 s' →
    tame ans (if send_notify then fsm_send_notification (td_out (teardown s).2) FSM_NOTIFY_CEASE subcode else mret LIBBGP_OK) s').
  { intros s' Hs'. destruct send_notify; [|apply tame_ret]. apply tame_send_notification; [|unfold is_u8; vm_compute; done|done].
    by eapply kept_handler. }
  eapply goes_tame; [apply tame_drain|]. intros d s1 H1. destruct (_ && _).
  - apply goes_end; [done|done|]. intros s2 H2. apply says_down_later; [apply Hsend; etrans; [apply H1|done]|].
    intros e s3 _. eapply goes_assoc, says_down_later; [apply tame_ret|]. intros _ s4 _. apply says_down_now.
    intros s5 _. apply tame_bind; [apply tame_dispatch_drained|]. intros _ s6 _. apply tame_ret.
  - eapply goes_tame; [apply tame_ret|]. intros _ s2 H2. eapply goes_tame; [apply Hsend; etrans; [apply H1|apply H2]|].
    intros e s3 H3. apply goes_assoc, goes_end; [done|by etrans; [|etrans]|]. intros s4 _. apply says_down_now.
    intros s5 _. apply tame_bind; [apply tame_dispatch_drained|]. intros _ s6 _. apply tame_ret.
Qed.

(** *** An UPDATE that is refused *)

Lemma validate_mp_subcode attr c : fsm_validate_update_mp_attr attr = Some c → is_u8 c.
Proof. unfold fsm_validate_update_mp_attr. repeat case_match; intros; simplify_eq; unfold is_u8; vm_compute; done. Qed.

Lemma validate_attrs_subcode attrs v c : fsm_validate_attrs v attrs = inr c → is_u8 c.
Proof.
  revert v. induction attrs as [|attr attrs IH]; intros v; cbn [fsm_validate_attrs]; [done|].
  destruct (fsm_validate_attr v attr) as [v'|c'] eqn:Ha; [apply IH|]. intros [= <-]. revert Ha. unfold fsm_validate_attr.
  destruct (fsm_validate_update_mp_attr attr) eqn:Hmp; repeat case_match; intros; simplify_eq;
    first [by eapply validate_mp_subcode|unfold is_u8; vm_compute; done].
Qed.

Lemma validate_subcode update c : fsm_validate_update update = Some c → is_u8 c.
Proof.
  unfold fsm_validate_update. destruct (fsm_validate_attrs _ _) eqn:Ha; repeat case_match; intros; simplify_eq;
    first [by eapply validate_attrs_subcode|unfold is_u8; vm_compute; done].
Qed.

Lemma with_ribs_id s : with_ribs s (sn_rib4 s) (sn_rib6 s) = s.
Proof. by destruct s. Qed.

(** The tables a session is attached to, and what running on them comes to
    when they are not changed. *)
Lemma serving_on_tables s t4 t6 :
  serving s t4 t6 → ∃ p4 p6 (rib4 : rib4_impl_t) (rib6 : rib6_impl_t),
    ln_rib4 (fs_links (sn_impl s)) = Some p4 ∧ ln_rib6 (fs_links (sn_impl s)) = Some p6 ∧
    ∀ s1 A B m (a : A) (k : A + libbgp_err_t -> fsm_locked B), sn_rib4 s1 = sn_rib4 s → sn_rib6 s1 = sn_rib6 s →
      m (Some rib4) (Some rib6) (sn_heap s1) = (Ret (Some rib4, Some rib6, a), sn_heap s1) →
      on_tables (Some p4) (Some p6) m k s1 = k (inl a) s1.
Proof.
  intros [_ _ _ (p4 & rib4 & Hp4 & Hl4 & _) _ (p6 & rib6 & Hp6 & Hl6 & _) _]. exists p4, p6, rib4, rib6.
  split; [done|]. split; [done|]. intros s1 A B m a k Hr4 Hr6 Hm.
  assert (Hl4' : @lookup Z rib4_impl_t _ _ p4 (sn_rib4 s1) = Some rib4) by by rewrite Hr4.
  assert (Hl6' : @lookup Z rib6_impl_t _ _ p6 (sn_rib6 s1) = Some rib6) by by rewrite Hr6.
  unfold on_tables. cbn [deref_table]. rewrite Hl4', Hl6'. unfold allocating. rewrite Hm. cbn [put_table].
  change (sn_rib4 (with_heap s1 (sn_heap s1))) with (sn_rib4 s1). change (sn_rib6 (with_heap s1 (sn_heap s1))) with (sn_rib6 s1).
  by rewrite !insert_id, with_heap_id, with_ribs_id by done.
Qed.

(** Nothing was written to the journal, nothing is rolled back. *)
Lemma tame_rollback_empty s t4 t6 s1 peer :
  serving s t4 t6 → sn_rib4 s1 = sn_rib4 s → sn_rib6 s1 = sn_rib6 s →
  tame ans (with_tables (ln_rib4 (fs_links (sn_impl s))) (ln_rib6 (fs_links (sn_impl s)))
              (λ r4 r6, fsm_rollback_update_journal fsm_update_journal_empty r4 r6 peer)) s1.
Proof.
  intros Hs Hr4 Hr6. destruct (serving_on_tables _ _ _ Hs) as (p4 & p6 & rib4 & rib6 & -> & -> & Hrun).
  unfold with_tables. apply goes_locked. rewrite (Hrun s1 _ _ _ tt) by done. by apply goes_ret.
Qed.

(** What [fsm_apply_update] makes of an UPDATE with a defect. *)
Lemma apply_refused impl gen rib4 rib6 peer update journal c subcode heap :
  fsm_validate_update update = Some subcode →
  fsm_apply_update impl gen rib4 rib6 peer update journal c heap =
  (Ret (ApplyState rib4 rib6 journal false, subcode, LIBBGP_ERR_INVALID), heap).
Proof. unfold fsm_apply_update. by intros ->. Qed.

Lemma end_refused_update s t4 t6 update subcode :
  serving s t4 t6 → fsm_validate_update update = Some subcode →
  pe_mpbgp_ipv6 (fs_peer (sn_impl s)) = true ∨ has_mp_attr update = false →
  let '(s', p) := on_update update s in goes ans p s' (λ _ s' evs, taken_down s t4 t6 s' evs).
Proof.
  intros Hs Hv Hmp. pose proof (sv_out _ _ _ Hs) as Ho. pose proof (validate_subcode _ _ Hv) as Hu8.
  unfold on_update. cbv zeta. replace (negb _ && _) with false by by destruct Hmp as [-> | ->]; rewrite ?andb_false_r.
  destruct (serving_on_tables _ _ _ Hs) as (p4 & p6 & rib4 & rib6 & Hp4 & Hp6 & Hrun). pose proof (sv_state _ _ _ Hs) as Hst.
  rewrite Hp4, Hp6. rewrite (Hrun s _ _ _ (fsm_update_journal_empty, subcode, LIBBGP_ERR_INVALID)); [|done|done|].
  2: { unfold mbind, M_bind. by rewrite (apply_refused _ _ _ _ _ _ _ _ _ _ Hv). }
  unfold update_applied. cbv zeta. unfold is_current. rewrite Hst, bool_decide_true, Z.eqb_refl by done. cbn [negb andb].
  rewrite decide_False, decide_True by done. rewrite (surjective_pairing (teardown s)). cbv beta iota.
  eapply goes_tame; [apply tame_drain|]. intros d s1 H1. rewrite <-Hp4, <-Hp6.
  eapply goes_tame; [apply (tame_rollback_empty s t4 t6); [done|apply H1..]|].
  intros _ s2 H2.
  eapply goes_tame.
  { apply tame_send_notification; [|done|exact Hu8]. by eapply aside_handler, aside_handler. }
  intros e s3 H3. apply goes_end; [done|by do 2 (etrans; [eassumption|])|].
  intros s4 _. apply says_down_now. intros s5 _. apply tame_bind; [apply tame_dispatch_drained|]. intros _ s6 _. apply tame_ret.
Qed.

(** *** Bytes that are no packet *)

Lemma map_body_error_u8 type e :
  is_u8 (det_notify_code (packet_parse_map_body_error type e)) ∧
  is_u8 (det_notify_subcode (packet_parse_map_body_error type e)).
Proof. unfold packet_parse_map_body_error. repeat case_match; by vm_compute. Qed.

(** The parser returns, and what it names fits a NOTIFICATION. *)
Lemma parse_detail_returns buf b heap :
  bytes_ok buf → ∃ r heap', bgp_packet_parse_as4_detail buf b true heap = (Ret r, heap') ∧ (heap = [] → heap' = []) ∧
    match r with
    | inr (e, d) => is_u8 (det_notify_code d) ∧ is_u8 (det_notify_subcode d)
    | inl _ => True
    end.
Proof.
  intros Hok. rewrite parse_detail_run. destruct (header_error buf) as [subcode|] eqn:He.
  { eexists _, heap. split; [done|]. split; [done|]. cbn. split; [by vm_compute|]. revert He. unfold header_error.
    repeat case_match; intros; simplify_eq; by vm_compute. }
  destruct (header_ok_bounds buf He) as (Hw & Hl & Hbl). cbv zeta. cbn [andb].
  case_bool_decide; [by eexists _, heap; split; [done|]; split; [done|]; vm_compute|].
  destruct (packet_parse_body_spec b (packet_type_from_raw (raw_type_of buf)) (frame_body buf)) with (s := heap)
    as (used & heap' & Hheap & H'); [by apply bytes_ok_slice|lia|].
  assert (Hnil : heap = [] → heap' = []) by (rewrite Hheap; by intros [_ ?]%app_nil).
  destruct (packet_parse_body _ _ _ heap) as [[[data len]|e|f] t]; [| |done]; destruct H' as [-> _].
  - case_match; (eexists _, heap'; split; [done|]; split; [done|]); [done|apply map_body_error_u8].
  - eexists _, heap'. split; [done|]. split; [done|]. apply map_body_error_u8.
Qed.

Lemma end_parse_error s t4 t6 d :
  serving s t4 t6 → is_u8 (det_notify_code d) → is_u8 (det_notify_subcode d) →
  goes ans (Locked (on_parse_error d)) s (λ _ s' evs, taken_down s t4 t6 s' evs).
Proof.
  intros Hs Hc Hsub. pose proof (sv_out _ _ _ Hs) as Ho. apply goes_locked. unfold on_parse_error. cbv zeta.
  rewrite (surjective_pairing (teardown s)), (sv_state _ _ _ Hs), decide_True by done. cbn [fst snd].
  eapply goes_tame; [apply tame_drain|]. intros d' s1 H1. apply goes_assoc, goes_end; [done|done|].
  intros s2 H2. apply says_down_now. intros s3 H3. apply tame_bind.
  { apply tame_send_notification; [|done|done]. eapply aside_handler; [exact H3|]. eapply kept_handler; [exact H2|].
    by eapply aside_handler. }
  intros e s4 _. apply tame_bind; [apply tame_dispatch_drained|]. intros _ s5 _. apply tame_ret.
Qed.

(** What the parser has taken from the allocator does not matter. *)
Lemma serving_heap s t4 t6 heap : serving s t4 t6 → serving (with_heap s heap) t4 t6.
Proof. by intros []. Qed.

Lemma taken_down_heap s t4 t6 heap s' evs :
  (sn_heap s = [] → heap = []) → taken_down (with_heap s heap) t4 t6 s' evs → taken_down s t4 t6 s' evs.
Proof.
  intros Hheap [(H1 & H2 & H3 & H4 & H5 & H6 & H7 & H8) (p4 & p6 & rib4 & rib6 & evs4 & evs6 & Hp4 & Hp6 & Hr4 & Hr6 & He & Ho4 & Ho6)].
  cbn in H7. split; [split_and!; auto|]. exists p4, p6, rib4, rib6, evs4, evs6. split_and!; try done.
  - destruct Ho4 as (? & result & ? & ? & Hg). split; [done|]. exists result. cbn in Hg. split_and!; auto.
  - destruct Ho6 as (? & result & ? & ? & Hg). split; [done|]. exists result. cbn in Hg. split_and!; auto.
Qed.

(** ** Theorem *)

(** A packet that ends an established session: a NOTIFICATION, an OPEN or a
    packet of unknown type; an UPDATE that speaks of IPv6 although the family
    was not negotiated, or that the validation refuses. *)
Definition names_ipv6 (update : libbgp_update_msg_t) : Prop :=
  ∃ attr, attr ∈ upd_attrs update ∧
    (pa_type attr = LIBBGP_PATTR_MP_REACH_IPV6 ∨ pa_type attr = LIBBGP_PATTR_MP_UNREACH_IPV6).

Definition ends_session (impl : fsm_impl_t) (pkt : libbgp_packet_t) : Prop :=
  match pkt_data pkt with
  | p_open _ | p_notification _ | p_unknown _ => True
  | p_keepalive => False
  | p_update update =>
      names_ipv6 update ∧ pe_mpbgp_ipv6 (fs_peer impl) = false ∨ is_Some (fsm_validate_update update)
  end.

(** Bytes that are not one packet: the parser finds a defect (and not only a
    want of memory), or something follows the packet. *)
Definition malformed (s : session) (buf : list Z) : Prop :=
  match (bgp_packet_parse_as4_detail buf (pe_4byte_asn (fs_peer (sn_impl s))) true (sn_heap s)).1 with
  | Ret (inl (_, consumed)) => consumed ≠ zlen buf
  | Ret (inr (_, d)) => det_notify_code d ≠ 0
  | _ => False
  end.

(** What ends an established session: such a packet, parsed or as bytes; bytes
    that are none; the calls of the interface; a tick at which the hold time
    has passed, or at which a KEEPALIVE is due and cannot be sent.
    [fsm_teardown_current_established] is what the sending of a route does
    when it fails. *)
Inductive ending (s : session) : ∀ {A}, fsm_proc A -> Prop :=
  | end_packet pkt : ends_session (sn_impl s) pkt → ending s (libbgp_fsm_on_packet pkt)
  | end_bytes buf pkt heap :
      bytes_ok buf → ends_session (sn_impl s) pkt →
      bgp_packet_parse_as4_detail buf (pe_4byte_asn (fs_peer (sn_impl s))) true (sn_heap s) = (Ret (inl (pkt, zlen buf)), heap) →
      ending s (libbgp_fsm_on_raw_packet buf)
  | end_malformed buf : bytes_ok buf → malformed s buf → ending s (libbgp_fsm_on_raw_packet buf)
  | end_stop : ending s libbgp_fsm_stop
  | end_reset_soft : ending s libbgp_fsm_reset_soft
  | end_reset_hard : ending s libbgp_fsm_reset_hard
  | end_hold_timer now_ms :
      ck_initialized (fs_clock (sn_impl s)) = true → 0 < pe_hold_time (fs_peer (sn_impl s)) →
      pe_hold_time (fs_peer (sn_impl s)) * 1000 <= u64 (now_ms - ck_last_rx_ms (fs_clock (sn_impl s))) →
      ending s (libbgp_fsm_tick now_ms)
  | end_keepalive_failed now_ms :
      ck_initialized (fs_clock (sn_impl s)) = true → refuses ans →
      ¬ (0 < pe_hold_time (fs_peer (sn_impl s)) ∧
         pe_hold_time (fs_peer (sn_impl s)) * 1000 <= u64 (now_ms - ck_last_rx_ms (fs_clock (sn_impl s)))) →
      0 < fsm_effective_keepalive_time (sn_impl s) →
      fsm_effective_keepalive_time (sn_impl s) * 1000 <= u64 (now_ms - ck_last_keepalive_ms (fs_clock (sn_impl s))) →
      ending s (libbgp_fsm_tick now_ms)
  | end_send_failed : ending s (fsm_teardown_current_established (fs_session_generation (sn_impl s))).

Lemma serving_held s t4 t6 : serving s t4 t6 → serving (held s) t4 t6.
Proof. intros []. split; try done. by apply live_held. Qed.

Lemma serving_clock s t4 t6 now :
  serving s t4 t6 → serving (with_impl s (clock_advance (sn_impl s) now)) t4 t6.
Proof. by intros []. Qed.

Lemma taken_down_clock s t4 t6 now s' evs :
  taken_down (with_impl s (clock_advance (sn_impl s) now)) t4 t6 s' evs → taken_down s t4 t6 s' evs.
Proof.
  intros [Hk Hrest]. split; [|done]. etrans; [|exact Hk]. repeat (split; [done|]).
  cbn [with_impl sn_impl fsm_snapshot_teardown forget_peer fs_state fs_peer fs_session_generation fs_links fs_config].
  destruct (set_state_fields (sn_impl s) LIBBGP_FSM_IDLE) as (-> & -> & _ & _ & -> & _ & _ & ->).
  destruct (set_state_fields (clock_advance (sn_impl s) now) LIBBGP_FSM_IDLE) as (-> & -> & _ & _ & -> & _ & _ & ->). done.
Qed.

(** Through the handle. *)
Lemma taken_down_released s t4 t6 s' evs :
  live s → taken_down (held s) t4 t6 s' evs →
  sn_refcount s' = sn_refcount s + 1 ∧ sn_destroy_started s' = false ∧ taken_down s t4 t6 (released s') evs.
Proof.
  intros (_ & Hd & _) [(H1 & H2 & H3 & H4 & H5 & H6 & H7 & H8) Hrest]. cbn in H1, H2, H3, H4, H5, H6, H7.
  split; [done|]. split; [congruence|]. split; [|done]. split_and!; try done. cbn. lia.
Qed.

Lemma end_locked {A} s t4 t6 (without : A) f :
  serving s t4 t6 →
  (let '(s', p) := f (held s) in goes ans p s' (λ _ s'' evs, taken_down (held s) t4 t6 s'' evs)) →
  goes ans (with_handle without (Locked f)) s (λ _ s' evs, taken_down s t4 t6 s' evs).
Proof.
  intros Hs Hf. pose proof (sv_live _ _ _ Hs) as Hl. apply goes_with_handle; [done|]. apply goes_locked.
  destruct (f (held s)) as [s' p]. eapply goes_mono; [exact Hf|]. cbn beta. intros a s'' evs. by apply taken_down_released.
Qed.

Lemma has_mp_attr_spec update : has_mp_attr update = true ↔ names_ipv6 update.
Proof.
  unfold has_mp_attr, names_ipv6. rewrite existsb_exists. setoid_rewrite list_elem_of_In.
  setoid_rewrite orb_true_iff. by setoid_rewrite bool_decide_eq_true.
Qed.

(** A packet, once the session is held. *)
Lemma end_dispatch s t4 t6 pkt :
  serving s t4 t6 → ends_session (sn_impl s) pkt →
  let '(s', p) := dispatch_packet pkt s in goes ans p s' (λ _ s' evs, taken_down s t4 t6 s' evs).
Proof.
  intros Hs Hends. pose proof (sv_out _ _ _ Hs) as Ho. pose proof (sv_state _ _ _ Hs) as Hst. unfold dispatch_packet, ends_session in *.
  assert (Hnotify : ∀ code subcode, is_u8 code → is_u8 subcode → ∀ s', aside (teardown s).1 s' →
    tame ans (fsm_send_notification (td_out (teardown s).2) code subcode) s').
  { intros code subcode ? ? s' Hs'. apply tame_send_notification; [by eapply aside_handler|done..]. }
  destruct (pkt_data pkt) as [open|update|msg| |raw] eqn:Hd; [| | |done|];
    unfold fsm_on_established, on_notification; cbv zeta; rewrite ?Hst, ?Hd.
  - rewrite (surjective_pairing (teardown s)). apply end_down_and_dispatch; [done|]. by apply Hnotify; vm_compute.
  - destruct (negb (pe_mpbgp_ipv6 (fs_peer (sn_impl s))) && has_mp_attr update) eqn:Hmp.
    + unfold on_update. cbv zeta. rewrite Hmp, (surjective_pairing (teardown s)).
      apply end_down_and_dispatch; [done|]. by apply Hnotify; vm_compute.
    + destruct Hends as [[Hn Hp]|[subcode Hv]]; [by rewrite Hp, (proj2 (has_mp_attr_spec _) Hn) in Hmp|].
      apply (end_refused_update s t4 t6 update subcode); [done|done|].
      destruct (pe_mpbgp_ipv6 _); [by left|by right].
  - rewrite (surjective_pairing (teardown s)), decide_True by done. apply end_down_and_dispatch; [done|]. intros s' _. apply tame_ret.
  - rewrite (surjective_pairing (teardown s)). apply end_down_and_dispatch; [done|]. by apply Hnotify; vm_compute.
Qed.

Lemma end_on_packet s t4 t6 pkt :
  serving s t4 t6 → ends_session (sn_impl s) pkt →
  goes ans (libbgp_fsm_on_packet pkt) s (λ _ s' evs, taken_down s t4 t6 s' evs).
Proof.
  intros Hs Hends. apply end_locked; [done|]. apply end_dispatch; [by apply serving_held|done].
Qed.

(** Bytes: the parser answers, then the packet or the defect ends the session. *)
Lemma end_on_bytes s t4 t6 buf :
  serving s t4 t6 → bytes_ok buf →
  malformed s buf ∨ (∃ pkt heap, ends_session (sn_impl s) pkt ∧
    bgp_packet_parse_as4_detail buf (pe_4byte_asn (fs_peer (sn_impl s))) true (sn_heap s) = (Ret (inl (pkt, zlen buf)), heap)) →
  goes ans (libbgp_fsm_on_raw_packet buf) s (λ _ s' evs, taken_down s t4 t6 s' evs).
Proof.
  intros Hs Hok Hbuf. pose proof (sv_live _ _ _ Hs) as Hl. apply goes_with_handle; [done|].
  apply goes_bind, goes_locked. cbn [fst snd]. apply goes_ret.
  assert (raw_packet_as4 (sn_impl (held s)) = pe_4byte_asn (fs_peer (sn_impl s))) as ->.
  { unfold raw_packet_as4. by rewrite decide_True by apply (sv_state _ _ _ Hs). }
  destruct (parse_detail_returns buf (pe_4byte_asn (fs_peer (sn_impl s))) (sn_heap s) Hok) as (r & heap & Hrun & Hheap & Hdet).
  apply goes_bind. eapply goes_calling_run; [exact Hrun|]. cbv zeta.
  set (s1 := with_heap (held s) heap). assert (Hs1 : serving s1 t4 t6) by by apply serving_heap, serving_held.
  assert (Hdone : ∀ s' evs, taken_down s1 t4 t6 s' evs → sn_refcount s' = sn_refcount s + 1 ∧ sn_destroy_started s' = false ∧
    taken_down s t4 t6 (released s') evs).
  { intros s' evs Hdown. apply taken_down_released; [done|]. by eapply taken_down_heap. }
  assert (Hfail : ∀ e d, is_u8 (det_notify_code d) → is_u8 (det_notify_subcode d) → det_notify_code d ≠ 0 →
    goes ans (if det_notify_code d =? 0 then mret e else Locked (on_parse_error d)) s1 (λ _ s' evs,
      sn_refcount s' = sn_refcount s + 1 ∧ sn_destroy_started s' = false ∧ taken_down s t4 t6 (released s') evs)).
  { intros e d ? ? Hd. replace (_ =? 0) with false by lia. eapply goes_mono; [by apply (end_parse_error s1 t4 t6)|].
    cbn beta. intros _ s' evs. apply Hdone. }
  unfold malformed in Hbuf. rewrite Hrun in Hbuf. cbn [fst] in Hbuf.
  destruct r as [[pkt consumed]|[e d]]; cbn [app].
  - destruct (consumed =? zlen buf) eqn:Hc.
    + destruct Hbuf as [?|(pkt' & heap' & Hends & [= -> _ ->])]; [lia|].
      eapply goes_mono; [by apply (end_on_packet s1 t4 t6)|]. cbn beta. intros _ s' evs. apply Hdone.
    + by apply Hfail.
  - destruct Hbuf as [Hbuf|(? & ? & _ & ?)]; [|done]. destruct Hdet. by apply Hfail.
Qed.

(** A KEEPALIVE is due, and the handler takes nothing. *)
Lemma end_tick_failed s t4 t6 now :
  serving s t4 t6 → ck_initialized (fs_clock (sn_impl s)) = true → refuses ans →
  ¬ (0 < pe_hold_time (fs_peer (sn_impl s)) ∧
     pe_hold_time (fs_peer (sn_impl s)) * 1000 <= u64 (now - ck_last_rx_ms (fs_clock (sn_impl s)))) →
  0 < fsm_effective_keepalive_time (sn_impl s) →
  fsm_effective_keepalive_time (sn_impl s) * 1000 <= u64 (now - ck_last_keepalive_ms (fs_clock (sn_impl s))) →
  let '(s', p) := tick now s in goes ans p s' (λ _ s' evs, taken_down s t4 t6 s' evs).
Proof.
  intros Hs Hck Href Hin Hk0 Hdue. unfold tick. rewrite Hck. cbn [negb]. cbv zeta. cbn [with_impl sn_impl].
  set (s1 := with_impl s (clock_advance (sn_impl s) now)).
  assert (Hs1 : serving s1 t4 t6) by by apply serving_clock.
  replace (hold_timer_expired (clock_advance (sn_impl s) now) now) with false.
  2: { unfold hold_timer_expired. cbn [clock_advance set_clock fs_peer fs_state fs_clock ck_last_rx_ms].
       rewrite (sv_state _ _ _ Hs). change (fsm_state_hold_timer_active LIBBGP_FSM_ESTABLISHED) with true. lia. }
  replace (keepalive_due (clock_advance (sn_impl s) now) now) with true.
  2: { unfold keepalive_due. change (fsm_effective_keepalive_time (clock_advance _ _)) with (fsm_effective_keepalive_time (sn_impl s)).
       cbn [clock_advance set_clock fs_state fs_clock ck_last_keepalive_ms].
       rewrite (sv_state _ _ _ Hs). change (fsm_state_hold_timer_active LIBBGP_FSM_ESTABLISHED) with true. lia. }
  apply goes_bind. eapply goes_mono; [apply (goes_send_refused ans _ (Packet p_keepalive (pkt_raw_type libbgp_packet_init)) s1 Href);
    [apply Hs1|apply keepalive_ok]|]. cbn beta.
  intros e s2 evs (He & (heap & -> & Hheap) & ->). apply goes_locked. unfold after_timed_keepalive. cbv zeta.
  change (sn_impl (with_heap s1 heap)) with (sn_impl s1).
  replace (is_current _ _ _) with true by (unfold is_current; by rewrite bool_decide_true, Z.eqb_refl).
  rewrite decide_False by done. assert (Hs2 : serving (with_heap s1 heap) t4 t6) by by apply serving_heap.
  rewrite (surjective_pairing (teardown (with_heap s1 heap))). cbv beta iota. cbn [fst snd].
  rewrite bool_decide_true by apply (sv_state _ _ _ Hs).
  eapply goes_mono; [apply (goes_end_failed _ _ _ e Hs2)|]. cbn beta. intros r s3 evs Hdown.
  apply (taken_down_clock s t4 t6 now). by eapply taken_down_heap.
Qed.

(** A route could not be sent. *)
Lemma end_teardown_current s t4 t6 :
  serving s t4 t6 →
  goes ans (fsm_teardown_current_established (fs_session_generation (sn_impl s))) s (λ _ s' evs, taken_down s t4 t6 s' evs).
Proof.
  intros Hs. unfold fsm_teardown_current_established. apply goes_locked.
  replace (fsm_update_session_current _ _) with true.
  2: { unfold fsm_update_session_current. by rewrite (sv_state _ _ _ Hs), bool_decide_true, Z.eqb_refl. }
  rewrite (surjective_pairing (teardown s)). cbn [fst snd]. eapply goes_tame; [apply tame_drain|]. intros d s1 H1.
  apply goes_end; [done|done|]. intros s2 _. apply says_down_now. intros s3 _. apply tame_dispatch_drained.
Qed.

Lemma ending_goes {A} s t4 t6 (p : fsm_proc A) :
  serving s t4 t6 → ending s p → goes ans p s (λ _ s' evs, taken_down s t4 t6 s' evs).
Proof.
  intros Hs Hp. pose proof (serving_held _ _ _ Hs) as Hh.
  destruct Hp as [pkt Hends|buf pkt heap Hok Hends Hparse|buf Hok Hbad| | | |now Hck Hhold Hexp|now Hck Href Hin Hk0 Hdue|].
  - by apply end_on_packet.
  - apply end_on_bytes; [done|done|]. right. by exists pkt, heap.
  - apply end_on_bytes; [done|done|]. by left.
  - apply end_locked; [done|]. apply end_reset; [done|unfold is_u8; vm_compute; done].
  - apply end_locked; [done|]. apply end_reset; [done|unfold is_u8; vm_compute; done].
  - apply end_locked; [done|]. apply end_reset; [done|unfold is_u8; vm_compute; done].
  - apply end_locked; [done|]. unfold tick. change (sn_impl (held s)) with (sn_impl s). rewrite Hck. cbn [negb]. cbv zeta.
    cbn [with_impl sn_impl]. unfold hold_timer_expired. cbn [clock_advance set_clock fs_peer fs_state fs_clock ck_last_rx_ms].
    rewrite (sv_state _ _ _ Hs). cbn [fsm_state_hold_timer_active]. rewrite bool_decide_true by done.
    replace (0 <? pe_hold_time (fs_peer (sn_impl s))) with true by lia.
    replace (_ <=? _) with true by lia. cbn [andb orb].
    change (fsm_state_hold_timer_active LIBBGP_FSM_ESTABLISHED && true) with true. cbv iota.
    set (s1 := with_impl (held s) (clock_advance (sn_impl s) now)).
    rewrite (surjective_pairing (teardown s1)). cbv beta iota.
    eapply goes_mono; [apply end_tick; exact (serving_clock _ _ _ now Hh)|]. cbn beta. intros _ s' evs.
    apply (taken_down_clock (held s)).
  - apply end_locked; [done|]. by apply end_tick_failed.
  - by apply end_teardown_current.
Qed.

Lemma taken_down_idle s t4 t6 s' evs :
  taken_down s t4 t6 s' evs →
  fs_state (sn_impl s') = LIBBGP_FSM_IDLE ∧ fs_peer (sn_impl s') = no_peer ∧
  fs_session_generation (sn_impl s') = u64 (fs_session_generation (sn_impl s) + 1).
Proof.
  intros [(_ & _ & _ & _ & _ & _ & _ & [= H1 H2 H3 _ _]) _]. cbn in H1, H2, H3.
  destruct (set_state_fields (sn_impl s) LIBBGP_FSM_IDLE) as (Hst & _ & _ & _ & _ & _ & _ & Hg).
  rewrite H1, H2, H3, Hst, Hg. done.
Qed.

(** C6: The ends of an established session, those of [ending]: a NOTIFICATION,
    an OPEN or a packet of unknown type from the peer, an UPDATE that speaks of
    IPv6 without the family negotiated or that the validation refuses, each
    parsed or as bytes; bytes that are no packet; stop, soft and hard reset;
    the hold timer; a KEEPALIVE that is due and that the handler does not take;
    the teardown after a failed send of a route.  Whatever else the output
    handler, the state-change callback and the allocator answer, the call
    ends, the session is IDLE, has forgotten its peer and started a new
    generation, and the two routing tables hold exactly the routes they held
    from other peers.  On the bus every prefix whose best route the peer had
    is told once, as withdrawn when no route is left (as long as the allocator
    grants the list) and with the route that takes over otherwise, and after
    that, last, that the session is down; nothing else is published.
    [libbgp_fsm_destroy] is not among them: it discards the routes and tells
    nobody. *)
Theorem fsm_end_withdraws_routes {A} s t4 t6 (p : fsm_proc A) n :
  serving s t4 t6 → ending s p →
  ∃ r s' acts, alone ans n p s = (inl r, s', acts) ∧
    fs_state (sn_impl s') = LIBBGP_FSM_IDLE ∧ fs_peer (sn_impl s') = no_peer ∧
    fs_session_generation (sn_impl s') = u64 (fs_session_generation (sn_impl s) + 1) ∧
    taken_down s t4 t6 s' (published acts).
Proof.
  intros Hs Hp. destruct (ending_goes s t4 t6 p Hs Hp n) as (r & s' & acts & Hrun & Hdown).
  destruct (taken_down_idle _ _ _ _ _ Hdown) as (? & ? & ?). by exists r, s', acts.
Qed.
End Ends.

(** ** An example *)

#[local] Existing Instance little_endian_host.

(** Established with peer 1, from which the table has a route. *)
Definition served (rib : rib4_impl_t) : session :=
  Session
    (FsmImpl (sample_config 65001 0x0a000001) zero_policy LIBBGP_FSM_ESTABLISHED
       (FsmPeer 65002 1 90 true true true true false) (FsmClock 0 0 0 true)
       (FsmLinks (Some INTERNAL_RIB) (Some INTERNAL_RIB) (Some 5) (Some sample_out) 1 2 3) 2 no_pending
       (FsmNotify None [] 0))
    1 false 3 true false {[ INTERNAL_RIB := rib ]} {[ INTERNAL_RIB := fresh_table (family := family6) ]}
    {[ sample_out := Some (OutHandler 1 false no_ops) ]} [].

Lemma fresh_table6_ok : rib_ok (family := family6) p6_wf true (fresh_table (family := family6)) [].
Proof.
  destruct (empty_table (family := family6) p6_wf addr6_ok true) as (impl & Hrun & Hok).
  rewrite (fresh_table_init (family := family6)) in Hrun. injection Hrun as Heq. rewrite Heq. exact Hok.
Qed.

Lemma served_serving rib t :
  rib_ok (family := family4) p4_wf true rib t → zlen t < 2 ^ 40 → serving (served rib) t [].
Proof.
  intros Hok Hlen. split; [by split_and!|done| | |done| |done].
  - intros o [= <-]. by eexists.
  - exists INTERNAL_RIB, rib. split; [done|]. split; [apply lookup_singleton_eq|done].
  - exists INTERNAL_RIB, (fresh_table (family := family6)). split; [done|]. split; [apply lookup_singleton_eq|apply fresh_table6_ok].
Qed.

Lemma fsm_end_withdraws_routes_witness :
  ∃ rib r s' acts, demo4 [] = (Ret rib, []) ∧
    alone grant 0 libbgp_fsm_stop (served rib) = (inl r, s', acts) ∧
    fs_state (sn_impl s') = LIBBGP_FSM_IDLE ∧
    taken_down (served rib) [demo_c; demo_b; demo_a] [] s' (published acts).
Proof.
  destruct demo4_ok as (rib & Hrun & Hok).
  destruct (fsm_end_withdraws_routes grant (served rib) [demo_c; demo_b; demo_a] [] libbgp_fsm_stop 0)
    as (r & s' & acts & Halone & Hst & _ & _ & Hdown); [apply served_serving; [exact Hok|vm_compute; reflexivity]|apply end_stop|].
  exists rib, r, s', acts. split; [exact Hrun|]. split; [exact Halone|]. split; [exact Hst|exact Hdown].
Defined.
