(* ===== verification/FsmTimers.v ===== *)
(** * The session: timers

    The clock is advanced by [libbgp_fsm_tick].  A peer that stays silent for
    the hold time is dropped by the first tick that sees it; a session whose
    KEEPALIVE messages go out is not dropped before. *)

From stdpp Require Import gmap.
From S2P Require Import Prelude Bytes Prefix4 Prefix6 Open Notification Pattr PattrSpec Update UpdateSpec As4 Packet PacketSpec Filter Event Hashmap HashmapSpec Rib RibTable RibDecision RibIndex RibInv RibRoutes RibSpec RibLookup RibFamilies Rib46 RibRefine RibBest RibJournal RibTheorems Fsm FsmUpdate Out Proc ProcSpec FsmSession FsmForward FsmHandlers FsmObject FsmSample FsmInv FsmKeeps FsmRun FsmOpen FsmHandshake FsmEnd.

Section Timers.
Context {host : Host} (ans : answers).

(** The program calls [libbgp_fsm_tick] at these times, whatever it returns. *)
Definition ticks (times : list Z) : fsm_proc unit := each (λ now_ms, libbgp_fsm_tick now_ms;; mret tt) times.

(** At [now_ms] the hold time has passed since the last message. *)
Definition silent_too_long (impl : fsm_impl_t) (now_ms : Z) : Prop :=
  pe_hold_time (fs_peer impl) * 1000 <= u64 (now_ms - ck_last_rx_ms (fs_clock impl)).

(** The session waits for the peer it had in [s0]. *)
Definition waits (s0 : session) (t4 : list libbgp_rib4_route_t) (t6 : list libbgp_rib6_route_t) (s : session) : Prop :=
  serving s t4 t6 ∧ fs_peer (sn_impl s) = fs_peer (sn_impl s0) ∧
  ck_last_rx_ms (fs_clock (sn_impl s)) = ck_last_rx_ms (fs_clock (sn_impl s0)) ∧
  ck_initialized (fs_clock (sn_impl s)) = true ∧
  fs_session_generation (sn_impl s) = fs_session_generation (sn_impl s0) ∧
  sn_out s = sn_out s0 ∧ ln_out (fs_links (sn_impl s)) = ln_out (fs_links (sn_impl s0)) ∧
  (sn_heap s0 = [] → sn_heap s = []).

Definition idle (s : session) : Prop := live s ∧ fs_state (sn_impl s) = LIBBGP_FSM_IDLE.

Lemma idle_tick s now : idle s → goes ans (libbgp_fsm_tick now) s (λ _ s' _, idle s').
Proof.
  intros [Hl Hst]. pose proof Hl as (Hh & Hd & Hr). apply goes_with_handle; [done|]. apply goes_locked.
  unfold tick. change (sn_impl (held s)) with (sn_impl s). case_match.
  { apply goes_ret. cbn. split; [done|]. split; [done|]. split; [|done]. split; [done|]. split; [done|]. cbn. lia. }
  cbv zeta. cbn [with_impl sn_impl]. unfold hold_timer_expired, keepalive_due.
  cbn [clock_advance set_clock fs_state]. rewrite Hst.
  change (fsm_state_hold_timer_active LIBBGP_FSM_IDLE) with false. rewrite andb_false_r. cbn [andb].
  apply goes_ret. cbn. split; [done|]. split; [done|]. split; [|done]. split; [done|]. split; [done|]. cbn. lia.
Qed.

Lemma idle_ticks s times : idle s → goes ans (ticks times) s (λ _ s' _, idle s').
Proof.
  unfold ticks. revert s. induction times as [|now times IH]; intros s Hs; cbn [each]; [by apply goes_ret|].
  apply goes_bind. apply goes_bind. eapply goes_mono; [by apply idle_tick|]. cbn beta. intros _ s' evs Hs'.
  apply goes_ret. by apply IH.
Qed.

Lemma taken_down_is_idle s t4 t6 s' evs : live s → taken_down s t4 t6 s' evs → idle s'.
Proof.
  intros (Hh & Hd & Hr) Hdown. destruct (taken_down_idle _ _ _ _ _ Hdown) as (Hst & _). split; [|done].
  destruct Hdown as [(H1 & H2 & _ & H4 & _) _]. cbn in H1, H2, H4. unfold live. rewrite H1, H2, H4. done.
Qed.

Lemma expired_tick s t4 t6 now :
  serving s t4 t6 → ck_initialized (fs_clock (sn_impl s)) = true → 0 < pe_hold_time (fs_peer (sn_impl s)) →
  silent_too_long (sn_impl s) now → goes ans (libbgp_fsm_tick now) s (λ _ s' _, idle s').
Proof.
  intros Hs Hck Hhold Hexp. eapply goes_mono; [apply (ending_goes ans s t4 t6); [done|by apply end_hold_timer]|].
  cbn beta. intros _ s' evs. by apply taken_down_is_idle, Hs.
Qed.

(** KEEPALIVE messages go out. *)
Definition sending (s : session) : Prop :=
  sends_fully ans ∧ sn_heap s = [] ∧
  ∃ out target, ln_out (fs_links (sn_impl s)) = Some out ∧ handler_target s out = Some target.

Lemma goes_keepalive s :
  handler_valid s (ln_out (fs_links (sn_impl s))) →
  goes ans (fsm_send_keepalive (ln_out (fs_links (sn_impl s)))) s (λ e s' evs,
    (∃ heap, s' = with_heap s heap ∧ (sn_heap s = [] → heap = [])) ∧ evs = [] ∧ (sending s → e = LIBBGP_OK)).
Proof.
  intros Hh n. destruct (goes_send_packet ans _ (Packet p_keepalive (pkt_raw_type libbgp_packet_init)) s Hh (keepalive_ok _) n)
    as (e & s' & acts & Hrun & Hs' & Hevs).
  exists e, s', acts. split; [done|]. split; [done|]. split; [done|].
  intros (Hans & Hheap & out & target & Ho & Ht). rewrite Ho in Hrun.
  rewrite (send_full ans n out s target _ Hans Hheap Ht (keepalive_ok _)) in Hrun. by injection Hrun.
Qed.

(** Only the clock and the allocator changed. *)
Lemma waits_clock s t4 t6 ck heap :
  serving s t4 t6 → ck_last_rx_ms ck = ck_last_rx_ms (fs_clock (sn_impl s)) → ck_initialized ck = true →
  (sn_heap s = [] → heap = []) →
  waits s t4 t6 (released (with_heap (with_impl (held s) (set_clock (sn_impl s) ck)) heap)).
Proof.
  intros [(Hh & Hd & Hr) ? ? ? ? ? ?] Hrx Hck Hheap. split; [|by split_and!].
  split; try done. split; [done|]. split; [done|]. cbn. lia.
Qed.

(** A tick while the peer is in time: the session goes on, or a KEEPALIVE could
    not be sent and it is over. *)
Lemma waiting_tick s t4 t6 now :
  serving s t4 t6 → ck_initialized (fs_clock (sn_impl s)) = true → ¬ silent_too_long (sn_impl s) now →
  goes ans (libbgp_fsm_tick now) s (λ _ s' _, waits s t4 t6 s' ∨ idle s' ∧ ¬ sending s).
Proof.
  intros Hs Hck Hin. pose proof (sv_live _ _ _ Hs) as Hl. pose proof Hl as (Hh & Hd & Hr).
  apply goes_with_handle; [done|]. apply goes_locked.
  unfold tick. change (sn_impl (held s)) with (sn_impl s). rewrite Hck. cbn [negb]. cbv zeta. cbn [with_impl sn_impl].
  set (s1 := with_impl (held s) (clock_advance (sn_impl s) now)).
  assert (Hs1 : serving s1 t4 t6) by (apply (serving_clock (held s)), serving_held, Hs).
  replace (hold_timer_expired (clock_advance (sn_impl s) now) now) with false.
  2: { unfold hold_timer_expired. cbn [clock_advance set_clock fs_peer fs_state fs_clock ck_last_rx_ms].
       unfold silent_too_long in Hin. by replace (_ <=? _) with false by lia; rewrite andb_false_r. }
  destruct (keepalive_due _ _); cbn [fst snd]; fold s1.
  2: { apply goes_ret. split; [done|]. split; [done|]. left. rewrite <-(with_heap_id s1). by apply waits_clock. }
  apply goes_bind. eapply goes_mono; [apply (goes_keepalive s1), Hs1|]. cbn beta.
  intros e s2 evs ((heap & -> & Hheap) & -> & Hok). apply goes_locked. unfold after_timed_keepalive. cbv zeta.
  change (sn_impl (with_heap s1 heap)) with (sn_impl s1).
  replace (is_current _ _ _) with true by (unfold is_current; by rewrite bool_decide_true, Z.eqb_refl).
  case_decide as He; cbn [fst snd].
  - apply goes_ret. split; [done|]. split; [done|]. left.
    by apply (waits_clock s t4 t6 (FsmClock now (ck_last_rx_ms (fs_clock (sn_impl s))) now (ck_initialized (fs_clock (sn_impl s))))).
  - assert (Hs2 : serving (with_heap s1 heap) t4 t6) by (destruct Hs1; by split).
    rewrite (surjective_pairing (teardown (with_heap s1 heap))). cbv beta iota. cbn [fst snd].
    rewrite bool_decide_true by apply (sv_state _ _ _ Hs).
    eapply goes_mono; [apply (goes_end_failed _ _ _ _ e Hs2)|]. cbn beta. intros r s3 evs Hdown.
    destruct (taken_down_is_idle _ _ _ _ _ (sv_live _ _ _ Hs2) Hdown) as [(H1 & H2 & H3) Hst].
    destruct Hdown as [(Hr3 & _) _]. cbn in Hr3. split; [done|]. split; [done|]. right. split.
    + split; [|done]. split; [done|]. split; [done|]. cbn. lia.
    + intros Hsend. apply He, Hok. exact Hsend.
Qed.

Lemma waits_trans s1 s2 s3 t4 t6 : waits s1 t4 t6 s2 → waits s2 t4 t6 s3 → waits s1 t4 t6 s3.
Proof.
  intros (_ & ? & ? & _ & ? & ? & ? & ?) (? & ? & ? & ? & ? & ? & ? & ?). split; [done|].
  split_and!; try congruence. auto.
Qed.

Lemma waits_sending s t4 t6 s' : waits s t4 t6 s' → sending s → sending s'.
Proof.
  intros (_ & _ & _ & _ & _ & Hout & Hln & Hheap) (? & ? & out & target & ? & ?). split; [done|]. split; [auto|].
  exists out, target. unfold handler_target. by rewrite Hln, Hout.
Qed.

Lemma waits_too_long s t4 t6 s' now : waits s t4 t6 s' → silent_too_long (sn_impl s') now ↔ silent_too_long (sn_impl s) now.
Proof. intros (_ & Hp & Hrx & _). unfold silent_too_long. by rewrite Hp, Hrx. Qed.

Lemma waiting_ticks s t4 t6 times :
  serving s t4 t6 → ck_initialized (fs_clock (sn_impl s)) = true → 0 < pe_hold_time (fs_peer (sn_impl s)) →
  goes ans (ticks times) s (λ _ s' _,
    (waits s t4 t6 s' ∧ Forall (λ now, ¬ silent_too_long (sn_impl s) now) times) ∨
    (idle s' ∧ (sending s → Exists (silent_too_long (sn_impl s)) times))).
Proof.
  unfold ticks. revert s. induction times as [|now times IH]; intros s Hs Hck Hhold; cbn [each].
  { apply goes_ret. left. split; [by split_and!|constructor]. }
  apply goes_bind, goes_bind. destruct (decide (pe_hold_time (fs_peer (sn_impl s)) * 1000 <= u64 (now - ck_last_rx_ms (fs_clock (sn_impl s))))) as [Hexp|Hin].
  - eapply goes_mono; [by eapply expired_tick|]. cbn beta. intros _ s1 evs Hidle. apply goes_ret.
    eapply goes_mono; [by apply idle_ticks|]. cbn beta. intros _ s2 evs' Hidle'. right. split; [done|]. intros _. by left.
  - eapply goes_mono; [by apply (waiting_tick s t4 t6)|]. cbn beta. intros _ s1 evs [Hw|[Hidle Hno]]; apply goes_ret.
    + pose proof Hw as (Hs1 & Hp & _ & Hck1 & _). eapply goes_mono; [apply IH; [done|done|by rewrite Hp]|].
      cbn beta. intros _ s2 evs' [[Hw2 Hall]|[Hidle Hsome]]; [left|right].
      * split; [by eapply waits_trans|]. constructor; [done|].
        eapply Forall_impl; [exact Hall|]. intros t. cbn. by rewrite (waits_too_long _ _ _ _ _ Hw).
      * split; [done|]. intros Hsend. right. eapply Exists_impl; [apply Hsome; by eapply waits_sending|].
        intros t. cbn. by rewrite (waits_too_long _ _ _ _ _ Hw).
    + eapply goes_mono; [by apply idle_ticks|]. cbn beta. intros _ s2 evs' Hidle'. right. split; [done|]. by intros ?.
Qed.

(** C10: The hold timer.  Let an established session with a hold time hear
    nothing more from its peer while [libbgp_fsm_tick] is called at any times.
    All these calls end.  As soon as one of the times is the hold time or more
    past the last message, modulo 2^64 milliseconds, the session is IDLE at the
    end, whatever the handler and the allocator answered.  And it is not given
    up early: while no time is that late and KEEPALIVE messages go out, it is
    still established, with the same peer and generation, and both tables hold
    what they held. *)
Theorem fsm_silent_peer_dropped n s t4 t6 times :
  serving s t4 t6 → ck_initialized (fs_clock (sn_impl s)) = true → 0 < pe_hold_time (fs_peer (sn_impl s)) →
  ∃ s' acts, alone ans n (ticks times) s = (inl tt, s', acts) ∧
    (Exists (silent_too_long (sn_impl s)) times → fs_state (sn_impl s') = LIBBGP_FSM_IDLE) ∧
    (sending s → Forall (λ now, ¬ silent_too_long (sn_impl s) now) times →
       serving s' t4 t6 ∧ fs_peer (sn_impl s') = fs_peer (sn_impl s) ∧
       fs_session_generation (sn_impl s') = fs_session_generation (sn_impl s)).
Proof.
  intros Hs Hck Hhold. destruct (waiting_ticks s t4 t6 times Hs Hck Hhold n) as ([] & s' & acts & Hrun & Hend).
  exists s', acts. split; [done|]. rewrite Exists_exists, Forall_forall.
  destruct Hend as [[Hw Hall]|[[_ Hst] Hsome]].
  - rewrite Forall_forall in Hall. split; [intros (t & Ht & Hlate); by destruct (Hall t)|].
    intros _ _. destruct Hw as (? & ? & _ & _ & ? & _). done.
  - split; [done|]. intros Hsend Hall. apply Hsome in Hsend. rewrite Exists_exists in Hsend.
    destruct Hsend as (t & Ht & Hlate). by destruct (Hall t).
Qed.
End Timers.

(** ** An example *)

#[local] Existing Instance little_endian_host.

(** The hold time is 90 seconds; the last message came at time 0. *)
Lemma fsm_silent_peer_dropped_witness :
  ∃ rib s' acts, demo4 [] = (Ret rib, []) ∧
    alone grant 0 (ticks [30000; 60000; 90000]) (served rib) = (inl tt, s', acts) ∧
    fs_state (sn_impl s') = LIBBGP_FSM_IDLE.
Proof.
  destruct demo4_ok as (rib & Hrun & Hok).
  destruct (fsm_silent_peer_dropped grant 0 (served rib) [demo_c; demo_b; demo_a] [] [30000; 60000; 90000])
    as (s' & acts & Halone & Hdrop & _);
    [apply served_serving; [exact Hok|vm_compute; reflexivity]|reflexivity|cbn; lia|].
  exists rib, s', acts. split; [exact Hrun|]. split; [exact Halone|]. apply Hdrop.
  do 2 right. left. unfold silent_too_long. vm_compute. discriminate.
Defined.
