(* ===== verification/FsmCollision.v ===== *)
(** * The session: collisions

    Two connections between the same two speakers: the new one asks the others
    on the bus, and one of the two is given up.  Router identifiers are
    compared as numbers here; the routing table compares the same values in a
    different way. *)

From stdpp Require Import gmap.
From S2P Require Import Prelude Bytes Prefix4 Prefix6 Capability Open Notification Pattr PattrSpec Update UpdateSpec As4 Packet PacketSpec Filter Event Hashmap Rib RibTable Rib46 RibTheorems Fsm FsmUpdate Out Proc ProcSpec FsmSession FsmForward FsmHandlers FsmObject FsmSample FsmInv FsmKeeps FsmRun FsmOpen FsmHandshake FsmReject.

(** ** Comparing identifiers *)

Lemma router_id_cmp_sign a b :
  is_u32 a → is_u32 b → (0 < fsm_router_id_cmp a b ↔ b < a) ∧ (fsm_router_id_cmp a b = 0 ↔ a = b).
Proof.
  intros Ha Hb. rewrite <-(get_put_be32 a Ha) at 2 4. rewrite <-(get_put_be32 b Hb) at 2 4.
  unfold fsm_router_id_cmp, bgp_put_be32.
  pose proof (is_u8_u8 (Z.shiftr a 24)). pose proof (is_u8_u8 (Z.shiftr a 16)). pose proof (is_u8_u8 (Z.shiftr a 8)).
  pose proof (is_u8_u8 a). pose proof (is_u8_u8 (Z.shiftr b 24)). pose proof (is_u8_u8 (Z.shiftr b 16)).
  pose proof (is_u8_u8 (Z.shiftr b 8)). pose proof (is_u8_u8 b).
  rewrite !get_be32_eq by done. unfold is_u8 in *. cbn [memcmp]. repeat case_match; lia.
Qed.

Section Collision.
Context {host : Host} (ans : answers) (Hans : sends_fully ans).

(** A session that can talk and compares identifiers. *)
Record talking (target : io_target) (s : session) : Prop := Talking {
  tk_live : live s;
  tk_heap : sn_heap s = [];
  tk_cb : nt_cb (fs_notify (sn_impl s)) = None;
  tk_changes : nt_changes (fs_notify (sn_impl s)) = [];
  tk_detects : po_no_collision_detection (fs_policy (sn_impl s)) = false;
  tk_out : ∃ out, ln_out (fs_links (sn_impl s)) = Some out ∧ handler_target s out = Some target
}.

Definition collision_event (peer_bgp_id : Z) : fsm_event :=
  EventOf LIBBGP_EVENT_COLLISION (EventData peer_bgp_id None None None).

Definition cease : list Z := notification_bytes 6 7.

Lemma send_cease n target s out :
  sn_heap s = [] → out = ln_out (fs_links (sn_impl s)) →
  (∃ out, ln_out (fs_links (sn_impl s)) = Some out ∧ handler_target s out = Some target) →
  alone ans n (fsm_send_notification out FSM_NOTIFY_CEASE FSM_CEASE_ERR_COLLISION) s =
  (inl LIBBGP_OK, s, [IoSend target cease]).
Proof.
  intros Hheap -> (o & -> & Ht). unfold fsm_send_notification.
  rewrite (send_full ans n o s target) by (done || by apply notification_ok). done.
Qed.

(** The old session keeps its connection, or gives it up, and says that it had
    one. *)
Lemma old_run n target s peer :
  talking target s → fs_state (sn_impl s) = LIBBGP_FSM_OPEN_CONFIRM → pe_bgp_id (fs_peer (sn_impl s)) = peer →
  is_u32 (cfg_local_bgp_id (fs_config (sn_impl s))) → is_u32 peer →
  alone ans n (fsm_route_event_cb (collision_event peer)) s =
  if decide (peer < cfg_local_bgp_id (fs_config (sn_impl s))) then (inl true, s, [])
  else (inl true, with_impl s (fsm_snapshot_teardown (sn_impl s)), [IoSend target cease]).
Proof.
  intros [Hl Hheap Hcb Hch Hdet Hout] Hst Hpeer Hu Hu'.
  destruct (router_id_cmp_sign _ _ Hu Hu') as [Hgt Heq].
  cbn [fsm_route_event_cb collision_event ev_type]. unfold fsm_collision_event_cb. cbn [run collision_event ev_payload evd_source_router_id].
  rewrite Hdet, Hst, Hpeer, bool_decide_true, Z.eqb_refl by done. cbn [andb].
  case_decide as Hlt; [by replace (_ <=? 0) with false by lia|]. replace (_ <=? 0) with true by lia.
  unfold teardown. cbn [td_out]. set (s1 := with_impl s (fsm_snapshot_teardown (sn_impl s))).
  assert (Hn : fs_notify (sn_impl s1) = fs_notify (sn_impl s)) by apply set_state_notify, Hcb.
  rewrite (alone_bind_silent _ _ drain_state_changes _ _ ((None, []) : drained) s1).
  2: { unfold drain_state_changes. cbn [run]. unfold fsm_drain_state_changes. rewrite Hn, Hcb, Hch. cbn.
       do 2 f_equal. unfold s1, with_impl. cbn. f_equal. unfold fsm_snapshot_teardown, forget_peer. cbn.
       rewrite (set_state_notify _ _ Hcb). destruct (fs_notify (sn_impl s)). cbn in *. by subst. }
  rewrite alone_bind. rewrite (send_cease n target s1); [done|done| |].
  - destruct (set_state_fields (sn_impl s) LIBBGP_FSM_IDLE) as (_ & _ & _ & _ & H5 & _). cbn. by rewrite H5.
  - destruct (set_state_fields (sn_impl s) LIBBGP_FSM_IDLE) as (_ & _ & _ & _ & H5 & _). cbn. by rewrite H5.
Qed.

Definition hears (bus : Z) (handled : bool) : Prop :=
  ∀ n publisher event, ans n (IoPublish bus publisher event) = handled.

(** What is done once the OPEN is accepted, from whatever state. *)
Definition accepting (msg : libbgp_open_msg_t) (families : bool * bool) : fsm_locked libbgp_err_t := λ s,
  let impl := accept_open (sn_impl s) msg families sending_keepalive in
  let session_generation := fs_session_generation impl in
  (with_impl s impl,
   e ← fsm_send_keepalive (ln_out (fs_links impl));
   Locked (after_keepalive session_generation e)).

Lemma accepting_run n target s msg families :
  sn_heap s = [] → (∃ out, ln_out (fs_links (sn_impl s)) = Some out ∧ handler_target s out = Some target) →
  alone ans n (Locked (accepting msg families)) s =
  (inl LIBBGP_OK, with_impl s (accept_open (sn_impl s) msg families no_pending), [IoSend target keepalive]).
Proof.
  intros Hheap (out & Ho & Ht). cbn [run]. unfold accepting. cbv zeta.
  set (impl1 := accept_open (sn_impl s) msg families sending_keepalive).
  destruct (set_state_fields (sn_impl s) LIBBGP_FSM_OPEN_CONFIRM) as (_ & _ & _ & _ & H5 & _).
  rewrite alone_bind. unfold fsm_send_keepalive.
  assert (Hln : ln_out (fs_links impl1) = Some out) by (cbn; by rewrite H5). rewrite Hln.
  rewrite (send_full ans n out (with_impl s impl1) target) by (done || apply keepalive_ok).
  cbn [run]. unfold after_keepalive. rewrite decide_True by done. cbn [with_impl sn_impl].
  pose proof (accepted_current (sn_impl s) msg families sending_keepalive) as Hcur. fold impl1 in Hcur. rewrite Hcur.
  rewrite (establish_pending_current (mark_local_send impl1 false)) by exact Hcur.
  cbn [mark_local_send set_pending fs_pending pd_local_keepalive impl1 accept_open sending_keepalive]. done.
Qed.

(** The new session, told that there is an old one. *)
Lemma new_run n target s bus msg raw :
  talking target s → fs_state (sn_impl s) = LIBBGP_FSM_OPEN_SENT → ln_bus (fs_links (sn_impl s)) = Some bus →
  hears bus true → acceptable (sn_impl s) msg →
  is_u32 (cfg_local_bgp_id (fs_config (sn_impl s))) → is_u32 (open_bgp_id msg) →
  let drop := bool_decide (open_bgp_id msg < cfg_local_bgp_id (fs_config (sn_impl s))) in
  alone ans n (libbgp_fsm_on_packet (Packet (p_open msg) raw)) s =
  (inl LIBBGP_OK,
   with_impl s (if drop then fsm_snapshot_teardown (sn_impl s) else opened (sn_impl s) msg),
   [IoPublish bus (ln_collision_sub_id (fs_links (sn_impl s))) (collision_event (open_bgp_id msg));
    IoSend target (if drop then cease else keepalive)]).
Proof.
  intros [Hl Hheap Hcb Hch Hdet Hout] Hst Hbus Hhears Hacc Hu Hu' drop. apply open_defect_none in Hacc.
  destruct (router_id_cmp_sign _ _ Hu Hu') as [Hgt _].
  unfold libbgp_fsm_on_packet. apply alone_with_handle; [done| |apply Hl|apply Hl]. cbn [run].
  unfold dispatch_packet. cbn [pkt_data]. change (sn_impl (held s)) with (sn_impl s). rewrite Hst.
  unfold fsm_on_open_sent. cbn [pkt_data]. unfold check_open. change (sn_impl (held s)) with (sn_impl s). rewrite Hacc.
  unfold fsm_collision_reject_new_locked. change (sn_impl (held s)) with (sn_impl s). rewrite Hbus, Hdet.
  cbn [run]. fold (collision_event (open_bgp_id msg)). change (quiet ans n ?a ?s) with (ans n a, s). rewrite Hhears. cbn [andb].
  unfold drop. case_bool_decide as Hlt.
  - replace (0 <? fsm_router_id_cmp _ _) with true by lia. unfold teardown. cbn [td_out].
    rewrite alone_bind, (send_cease (S n) target (with_impl (held s) (fsm_snapshot_teardown (sn_impl s)))); [done|done| |].
    + destruct (set_state_fields (sn_impl s) LIBBGP_FSM_IDLE) as (_ & _ & _ & _ & H5 & _). cbn. by rewrite H5.
    + destruct (set_state_fields (sn_impl s) LIBBGP_FSM_IDLE) as (_ & _ & _ & _ & H5 & _). cbn. by rewrite H5.
  - replace (0 <? fsm_router_id_cmp _ _) with false by lia.
    pose proof (accepting_run (S n) target (held s) msg (fsm_negotiate_route_families (sn_impl s) msg) Hheap Hout) as Hrun.
    unfold accepting in Hrun. cbn [run] in Hrun. cbv zeta in Hrun.
    change (sn_impl (held s)) with (sn_impl s) in *. rewrite Hrun. done.
Qed.
End Collision.

(** ** Theorems *)

Section Theorems.
Context {host : Host}.

(** C11: Of two colliding connections exactly one survives.  A session that
    waits for the peer's KEEPALIVE and a second one of the same speaker that
    receives an OPEN with the same identifier: the event of the second reaches
    the first, and its answer the second.  When the speaker has the higher
    identifier the old connection goes on untouched and the new one is closed;
    otherwise the old one is closed and the new one accepted.  The connection
    that is closed gets a NOTIFICATION (Cease, collision) and its session is
    IDLE. *)
Theorem fsm_collision_one_survives ans ans' n m told tnew old new bus msg raw :
  sends_fully ans → sends_fully ans' → talking told old → talking tnew new →
  fs_state (sn_impl old) = LIBBGP_FSM_OPEN_CONFIRM → pe_bgp_id (fs_peer (sn_impl old)) = open_bgp_id msg →
  fs_state (sn_impl new) = LIBBGP_FSM_OPEN_SENT → ln_bus (fs_links (sn_impl new)) = Some bus →
  cfg_local_bgp_id (fs_config (sn_impl new)) = cfg_local_bgp_id (fs_config (sn_impl old)) →
  is_u32 (cfg_local_bgp_id (fs_config (sn_impl old))) → is_u32 (open_bgp_id msg) →
  acceptable (sn_impl new) msg →
  ∃ handled old' acts new' event answer,
    alone ans n (fsm_route_event_cb (collision_event (open_bgp_id msg))) old = (inl handled, old', acts) ∧
    (hears ans' bus handled →
     alone ans' m (libbgp_fsm_on_packet (Packet (p_open msg) raw)) new =
       (inl LIBBGP_OK, new', [IoPublish bus event (collision_event (open_bgp_id msg)); IoSend tnew answer])) ∧
    (open_bgp_id msg < cfg_local_bgp_id (fs_config (sn_impl old)) ∧
       old' = old ∧ acts = [] ∧ fs_state (sn_impl new') = LIBBGP_FSM_IDLE ∧ answer = cease ∨
     cfg_local_bgp_id (fs_config (sn_impl old)) <= open_bgp_id msg ∧
       fs_state (sn_impl old') = LIBBGP_FSM_IDLE ∧ acts = [IoSend told cease] ∧
       fs_state (sn_impl new') = LIBBGP_FSM_OPEN_CONFIRM ∧ answer = keepalive).
Proof.
  intros Hans Hans' Hold Hnew Hst Hpeer Hst' Hbus Hid Hu Hu' Hacc.
  pose proof (old_run ans Hans n told old _ Hold Hst Hpeer Hu Hu') as Hrun.
  assert (Hrun' : hears ans' bus true → _) by
    (intros Hh; rewrite <-Hid in Hu; exact (new_run ans' Hans' m tnew new bus msg raw Hnew Hst' Hbus Hh Hacc Hu Hu')).
  cbv zeta in Hrun'. rewrite Hid in Hrun'. case_decide as Hlt.
  - rewrite (bool_decide_true _ Hlt) in Hrun'. do 6 eexists. split; [exact Hrun|]. split; [exact Hrun'|]. left.
    split_and!; try done. by destruct (set_state_fields (sn_impl new) LIBBGP_FSM_IDLE) as (? & _).
  - rewrite (bool_decide_false _ Hlt) in Hrun'. do 6 eexists. split; [exact Hrun|]. split; [exact Hrun'|]. right.
    split; [lia|]. split; [|split; [done|]; split; [|done]].
    + by destruct (set_state_fields (sn_impl old) LIBBGP_FSM_IDLE) as (? & _).
    + by destruct (set_state_fields (sn_impl new) LIBBGP_FSM_OPEN_CONFIRM) as (? & _).
Qed.
End Theorems.

(** Two orders of router identifiers.  A session compares them as numbers.
    The routing tables compare the octets of the same numbers as they lie in
    memory, so that on a little-endian machine the table prefers, all else
    equal, the route from 10.0.1.1 to the one from 10.0.0.2. *)
Theorem fsm_router_id_order :
  (∀ a b, is_u32 a → is_u32 b → 0 < fsm_router_id_cmp a b ↔ b < a) ∧
  fsm_router_id_cmp 0x0a000002 0x0a000101 < 0 ∧
  (rib_better_cached (host := little_endian_host) (family := family4)
     (route4 p4_10_8 0x0a000101 false 0 1 65001) empty_cache
     (route4 p4_10_8 0x0a000002 false 0 1 65001) empty_cache).1.1 = true.
Proof.
  split; [|split; vm_compute; reflexivity]. intros a b Ha Hb. by apply router_id_cmp_sign.
Qed.

(** ** An example *)

#[local] Existing Instance little_endian_host.

Definition on_bus (s : session) (state : libbgp_fsm_state_t) (peer : fsm_peer) : session :=
  let impl := sn_impl s in
  let ln := fs_links impl in
  with_impl s (FsmImpl (fs_config impl) (fs_policy impl) state peer (fs_clock impl)
                 (FsmLinks (ln_rib4 ln) (ln_rib6 ln) (Some 5) (ln_out ln) 1 2 3) (fs_session_generation impl)
                 (fs_pending impl) (fs_notify impl)).

Definition old_sample : session := on_bus sample_a LIBBGP_FSM_OPEN_CONFIRM (FsmPeer 65002 0x0a000002 90 true true true true false).
Definition new_sample : session := on_bus sample_a LIBBGP_FSM_OPEN_SENT no_peer.

Lemma sample_talking state peer : talking sample_target (on_bus sample_a state peer).
Proof. split; try done. by eexists. Qed.

(** The speaker, 10.0.0.1, has the lower identifier. *)
Lemma fsm_collision_one_survives_witness :
  ∃ handled old' acts,
    alone grant 0 (fsm_route_event_cb (collision_event 0x0a000002)) old_sample = (inl handled, old', acts) ∧
    fs_state (sn_impl old') = LIBBGP_FSM_IDLE.
Proof.
  destruct (fsm_collision_one_survives grant grant 0 0 sample_target sample_target old_sample new_sample 5
              (OpenMsg 4 65002 90 0x0a000002 []) 1)
    as (handled & old' & acts & new' & event & answer & Hrun & _ & Hend);
    [done|done|apply sample_talking|apply sample_talking|reflexivity|reflexivity|reflexivity|reflexivity|reflexivity|
     unfold is_u32; vm_compute; split; congruence|unfold is_u32; vm_compute; split; congruence|
     apply open_defect_none; vm_compute; reflexivity|].
  exists handled, old', acts. split; [exact Hrun|].
  destruct Hend as [[Hlt _]|(_ & Hst & _)]; [vm_compute in Hlt; discriminate Hlt|exact Hst].
Defined.

(** ** A call during the event *)

Section During.
Context {host : Host}.

(** The code that hears of an event does [f] to the session and says that
    there is no other one; the rest is answered as before. *)
Definition meanwhile (f : session -> session) (ans : answers) : environment session fsm_io io_answer := λ n a s,
  match a return io_answer a * session with
  | IoPublish _ _ _ => (false, f s)
  | a => (ans n a, s)
  end.

(** Two environments that treat the calls made alike give the same run. *)
Lemma run_agree {A} env env' n (p : fsm_proc A) s :
  Forall (λ a, ∀ m s, env m a s = env' m a s) (run fsm_ref_op env n p s).2 →
  run fsm_ref_op env' n p s = run fsm_ref_op env n p s.
Proof.
  revert n s. induction p as [a|f|f IH|op k IH|a k IH] using proc_ind'; intros n s; cbn [run]; [done|done| | |].
  - specialize (IH s). destruct (f s) as [s' p']. apply IH.
  - destruct (fsm_ref_op op s) as [b s']. apply IH.
  - destruct (env n a s) as [r s1] eqn:He. pose proof (IH r (S n) s1) as IH'.
    destruct (run fsm_ref_op env (S n) (k r) s1) as [[res s2] acts]. cbn [snd] in *.
    intros [Ha Hacts]%Forall_cons. rewrite <-Ha, He. by rewrite IH'.
Qed.

Lemma run_with_handle {A} env n (without : A) body s a s' acts :
  sn_handle s = true → sn_destroy_started s = false → run fsm_ref_op env n body (held s) = (inl a, s', acts) →
  run fsm_ref_op env n (with_handle without body) s = (inl a, (fsm_impl_release s').2, acts).
Proof.
  intros Hh Hd Hrun. unfold with_handle. cbn [run fsm_ref_op]. unfold fsm_handle_acquire, fsm_impl_acquire.
  rewrite Hd. fold (held s). rewrite Hh, run_bind, Hrun. cbn [run fsm_ref_op].
  destruct (fsm_impl_release s'). by rewrite app_nil_r.
Qed.

(** C40: What happens to a session while its collision event is published is
    lost.  The lock is not held then, so that the code that hears of the event,
    or another thread, can do anything to the session: stop it, reset it, let
    it establish.  Whatever state it leaves, without a word about another
    connection, the handler of the OPEN goes on as if nothing had happened: it
    ends with OK, the session is in OPEN_CONFIRM in a new generation, with the
    peer of the OPEN, and a KEEPALIVE was sent.  (No allocation fails, and the
    output handler takes the KEEPALIVE.) *)
Theorem fsm_stop_during_collision_lost ans f n s msg raw bus target :
  sends_fully ans → live s → fs_state (sn_impl s) = LIBBGP_FSM_OPEN_SENT → acceptable (sn_impl s) msg →
  ln_bus (fs_links (sn_impl s)) = Some bus → po_no_collision_detection (fs_policy (sn_impl s)) = false →
  let s1 := f (held s) in
  sn_heap s1 = [] →
  (∃ out, ln_out (fs_links (sn_impl s1)) = Some out ∧ handler_target s1 out = Some target) →
  ∃ s2, run fsm_ref_op (meanwhile f ans) n (libbgp_fsm_on_packet (Packet (p_open msg) raw)) s =
      (inl LIBBGP_OK, s2,
       [IoPublish bus (ln_collision_sub_id (fs_links (sn_impl s))) (collision_event (open_bgp_id msg));
        IoSend target keepalive]) ∧
    fs_state (sn_impl s2) = LIBBGP_FSM_OPEN_CONFIRM ∧ pe_bgp_id (fs_peer (sn_impl s2)) = open_bgp_id msg ∧
    fs_session_generation (sn_impl s2) = u64 (fs_session_generation (sn_impl s1) + 1).
Proof.
  intros Hans (Hh & Hd & Hr) Hst Hacc%open_defect_none Hbus Hdet s1 Hheap Hout.
  pose proof (accepting_run ans Hans (S n) target s1 msg (fsm_negotiate_route_families (sn_impl s) msg) Hheap Hout) as Hrun.
  set (s2 := with_impl s1 _) in Hrun. exists (fsm_impl_release s2).2.
  assert (Hbody : run fsm_ref_op (meanwhile f ans) n (Locked (dispatch_packet (Packet (p_open msg) raw))) (held s) =
    (inl LIBBGP_OK, s2, [IoPublish bus (ln_collision_sub_id (fs_links (sn_impl s))) (collision_event (open_bgp_id msg));
        IoSend target keepalive])).
  { cbn [run]. unfold dispatch_packet. cbn [pkt_data]. change (sn_impl (held s)) with (sn_impl s). rewrite Hst.
    unfold fsm_on_open_sent. cbn [pkt_data]. unfold check_open. change (sn_impl (held s)) with (sn_impl s). rewrite Hacc.
    unfold fsm_collision_reject_new_locked. change (sn_impl (held s)) with (sn_impl s). rewrite Hbus, Hdet.
    cbn [run meanwhile]. fold s1. cbn [andb].
    pose proof (run_agree (quiet ans) (meanwhile f ans) (S n) (Locked (accepting msg (fsm_negotiate_route_families (sn_impl s) msg))) s1) as Hagree.
    rewrite Hrun in Hagree. specialize (Hagree ltac:(by repeat constructor)). unfold accepting in Hagree.
    cbn [run] in Hagree. cbv zeta in Hagree. by rewrite Hagree. }
  split.
  - by apply run_with_handle.
  - destruct (set_state_fields (sn_impl s1) LIBBGP_FSM_OPEN_CONFIRM) as (H1 & _ & _ & _ & _ & _ & _ & H8).
    cbn. by rewrite H1, H8.
Qed.
End During.

(** A subscriber of the bus that stops the session when it hears of the
    collision: the session is IDLE, and then it is not. *)
Definition stopped (s : session) : session := (alone grant 1 libbgp_fsm_stop s).1.2.

Lemma fsm_stop_during_collision_lost_witness :
  fs_state (sn_impl (stopped (held new_sample))) = LIBBGP_FSM_IDLE ∧
  ∃ s2, run fsm_ref_op (meanwhile stopped grant) 0
      (libbgp_fsm_on_packet (Packet (p_open (OpenMsg 4 65002 90 0x0a000002 [])) 1)) new_sample =
      (inl LIBBGP_OK, s2, [IoPublish 5 3 (collision_event 0x0a000002); IoSend sample_target keepalive]) ∧
    fs_state (sn_impl s2) = LIBBGP_FSM_OPEN_CONFIRM.
Proof.
  split; [vm_compute; reflexivity|].
  destruct (fsm_stop_during_collision_lost grant stopped 0 new_sample (OpenMsg 4 65002 90 0x0a000002 []) 1 5 sample_target)
    as (s2 & Hrun & Hst & _);
    [done|by split_and!|reflexivity|apply open_defect_none; vm_compute; reflexivity|reflexivity|reflexivity|
     vm_compute; reflexivity|eexists; split; vm_compute; reflexivity|].
  exists s2. split; [exact Hrun|exact Hst].
Defined.
