(* ===== verification/FsmPrepare.v ===== *)
(** * UPDATEs for a peer: the attributes and their editing

    The message a session sends on is a copy that is edited attribute by
    attribute: some are dropped, the next hops are set, the AS numbers are
    turned into the width of the peer, the own AS number is put in front.
    [edited] says that the attributes are such that the peer's parser accepts
    them; every edit keeps it, and [FsmPrepareSpec] says what the edits do
    together. *)

From stdpp Require Import gmap.
From S2P Require Import Prelude Bytes Prefix4 Prefix6 Pattr PattrSpec Update UpdateSpec As4 As4Spec Fsm FsmChecks.

Section Prepare.
Context {host : Host}.
Implicit Types (msg : libbgp_update_msg_t) (a : libbgp_pattr_t) (segs : list libbgp_as_path_segment_t).

(** ** Attributes a parser accepts, their length apart

    On a session whose AS_PATH has four-octet AS numbers iff [w] and whose
    AGGREGATOR has them iff [wa]. *)

Definition width_of (w wa : bool) a : bool :=
  if decide (pa_type a = LIBBGP_PATTR_AGGREGATOR) then wa else w.

Record attr_form (w wa : bool) a : Prop := {
  af_flags : is_u8 (pa_flags a);
  af_code : is_u8 (pa_type_code a);
  af_type_flags : pattr_known_flags_valid (pa_type a) (pa_flags a) = true;
  af_code_flags : pattr_known_flags_valid (pattr_type_from_code (pa_type_code a)) (pa_flags a) = true;
  af_type_code : pa_type a ≠ LIBBGP_PATTR_UNKNOWN → pa_type_code a = pattr_default_type_code (pa_type a);
  af_data : data_ok (pa_data a);
  af_parsed : data_parsed (width_of w wa a) (pa_type_code a) (pa_data a)
}.

Record edited (w wa : bool) msg : Prop := {
  ed_codes : NoDup (pa_type_code <$> upd_attrs msg);
  ed_form : Forall (attr_form w wa) (upd_attrs msg)
}.

Lemma attr_form_wf b a : attr_form b b a ∧ zlen (value_enc (pa_data a)) <= 65535 ↔ pattr_wf b a.
Proof.
  assert (Hw : width_of b b a = b) by (unfold width_of; by case_decide). split.
  - intros [[] Hl]. rewrite Hw in *. by split_and!.
  - intros ((? & ? & ? & ? & ? & ?) & ? & ?). split; [|done]. constructor; try done. by rewrite Hw.
Qed.

(** Attributes other than the two do not depend on the width. *)
Lemma attr_form_width w wa w' wa' a :
  attr_form w wa a → (w' = w ∨ pa_type a ≠ LIBBGP_PATTR_AS_PATH) →
  (wa' = wa ∨ pa_type a ≠ LIBBGP_PATTR_AGGREGATOR) → attr_form w' wa' a.
Proof.
  intros [] Hw Hwa. constructor; try done. unfold width_of, pa_type in *.
  destruct (pa_data a); cbn in *; try done; destruct Hw, Hwa; subst; done.
Qed.

(** The types whose code no unknown attribute can have. *)
Definition known_type (T : libbgp_pattr_type_t) : Prop :=
  T ≠ LIBBGP_PATTR_UNKNOWN ∧ T ≠ LIBBGP_PATTR_MP_REACH_IPV6 ∧ T ≠ LIBBGP_PATTR_MP_UNREACH_IPV6.

Lemma as4_known T : T ∈ as4_types → known_type T.
Proof.
  unfold as4_types. rewrite !elem_of_cons. by intros [->|[->|[->|[->|H%elem_of_nil]]]].
Qed.

Lemma form_type w wa a T :
  attr_form w wa a → known_type T → pa_type a = T ↔ pa_type_code a = pattr_default_type_code T.
Proof.
  intros Ha (HT1 & HT2 & HT3). split; [intros <-; by apply (af_type_code _ _ _ Ha)|]. intros Hc.
  destruct (decide (pa_type a = LIBBGP_PATTR_UNKNOWN)) as [Hu|Hu].
  - exfalso. pose proof (af_parsed _ _ _ Ha) as Hd. unfold pa_type in Hu. destruct (pa_data a); try done.
    cbn in Hd. rewrite Hc in Hd. by destruct T.
  - pose proof (af_type_code _ _ _ Ha Hu) as Hc'. rewrite Hc in Hc'. by destruct T, (pa_type a).
Qed.

Lemma edited_count w wa msg : edited w wa msg → zlen (upd_attrs msg) <= 256.
Proof.
  intros [Hn Hf]. rewrite <-(length_fmap pa_type_code).
  assert (Hs : pa_type_code <$> upd_attrs msg ⊆ seqZ 0 256).
  { intros c Hc. apply list_elem_of_fmap in Hc as (a & -> & Ha). rewrite Forall_forall in Hf.
    apply elem_of_seqZ. pose proof (af_code _ _ _ (Hf a Ha)). unfold is_u8 in *. lia. }
  pose proof (submseteq_length _ _ (NoDup_submseteq _ _ Hn Hs)) as Hl. rewrite length_seqZ in Hl. lia.
Qed.

Lemma edited_coherent w wa msg : edited w wa msg → attrs_coherent msg.
Proof.
  intros He. pose proof (edited_count _ _ _ He) as Hl. destruct He as [Hn Hf]. split; [done|]. split; [|lia].
  eapply Forall_impl; [exact Hf|]. intros a Ha T HT. by eapply form_type, as4_known.
Qed.

(** ** Putting an attribute in its place *)

Lemma known_none w wa msg T :
  edited w wa msg → known_type T → attrs_of T (upd_attrs msg) = [] →
  pattr_default_type_code T ∉ pa_type_code <$> upd_attrs msg.
Proof.
  intros [_ Hf] HT Hnone Hin. apply list_elem_of_fmap in Hin as (b & Hc & Hb). rewrite Forall_forall in Hf.
  assert (pa_type b = T) by (eapply form_type; [by apply Hf|done|done]).
  by apply (filter_nil_not_elem_of (λ a', pa_type a' = T) _ b Hnone).
Qed.

(** The other attributes stay, and none of them has the type. *)
Lemma put_split w wa msg a :
  edited w wa msg → known_type (pa_type a) → pa_type_code a = pattr_default_type_code (pa_type a) →
  ∃ pre post, upd_attrs (put_attr msg a) = pre ++ a :: post ∧
    Forall (λ b, attr_form w wa b ∧ pa_type b ≠ pa_type a) (pre ++ post) ∧
    NoDup (pa_type_code <$> pre ++ a :: post).
Proof.
  intros He HT Hcode. unfold put_attr. destruct (update_find_attr_index msg (pa_type a)) as [i|] eqn:Hi; cbn [upd_attrs with_attrs].
  - apply find_index_split in Hi as (pre & b & post & Heq & <- & Hb & Hpre). exists pre, post.
    rewrite Heq, insert_app_r_alt, Nat.sub_diag by done. split; [done|]. destruct He as [Hn Hf]. rewrite Heq in Hn, Hf.
    assert (Hbc : pa_type_code b = pa_type_code a).
    { rewrite Hcode, <-Hb. rewrite Forall_forall in Hf. apply (af_type_code w wa); [apply Hf; set_solver|]. rewrite Hb. apply HT. }
    rewrite !fmap_app, !fmap_cons, Hbc in *. split; [|done].
    apply Forall_app in Hf as [Hf1 [_ Hf2]%Forall_cons]. apply NoDup_app in Hn as (_ & Hn1 & [Hn2 _]%NoDup_cons).
    assert (Hne : ∀ c, attr_form w wa c → pa_type c = pa_type a → pa_type_code c = pa_type_code a).
    { intros c Hc Ht. rewrite Hcode. by eapply form_type. }
    apply Forall_app. split; apply Forall_forall; intros c Hc;
      (split; [rewrite Forall_forall in Hf1, Hf2; auto|]); intros Ht.
    + apply (Hn1 (pa_type_code c)); [by apply list_elem_of_fmap_2|]. rewrite Hne; [apply elem_of_cons; by left|rewrite Forall_forall in Hf1; auto|done].
    + apply Hn2. rewrite <-(Hne c); [by apply list_elem_of_fmap_2|rewrite Forall_forall in Hf2; auto|done].
  - exists (upd_attrs msg), []. apply find_index_None in Hi. pose proof (known_none _ _ _ _ He HT Hi) as Hno.
    destruct He as [Hn Hf]. split; [done|]. rewrite app_nil_r. split.
    + apply Forall_forall. intros c Hc. rewrite Forall_forall in Hf. split; [auto|]. intros Ht.
      by apply (filter_nil_not_elem_of (λ a', pa_type a' = pa_type a) _ c Hi).
    + rewrite fmap_app. apply NoDup_app. split_and!; [done| |apply NoDup_singleton]. intros c Hc Hc'.
      apply list_elem_of_singleton in Hc'. subst c. by rewrite Hcode in Hc.
Qed.

Lemma put_edited w wa w' wa' msg a :
  edited w wa msg → known_type (pa_type a) → attr_form w' wa' a →
  (w' = w ∨ pa_type a = LIBBGP_PATTR_AS_PATH) → (wa' = wa ∨ pa_type a = LIBBGP_PATTR_AGGREGATOR) →
  edited w' wa' (put_attr msg a).
Proof.
  intros He HT Ha Hw Hwa. destruct (put_split w wa msg a He HT) as (pre & post & Heq & Hf & Hn).
  { apply (af_type_code _ _ _ Ha). apply HT. }
  constructor; rewrite Heq; [done|]. apply Forall_app in Hf as [Hf1 Hf2]. apply Forall_app.
  assert (Hmono : ∀ l, Forall (λ b, attr_form w wa b ∧ pa_type b ≠ pa_type a) l → Forall (attr_form w' wa') l).
  { intros l Hl. eapply Forall_impl; [exact Hl|]. intros b [Hb Hne]. eapply attr_form_width; [done| |];
      [destruct Hw as [->|Hw]; [by left|right; congruence]|destruct Hwa as [->|Hwa]; [by left|right; congruence]]. }
  split; [by apply Hmono|]. constructor; [done|by apply Hmono].
Qed.

Lemma remove_edited w wa msg T : edited w wa msg → edited w wa (update_remove_attr_type msg T).2.
Proof.
  intros [Hn Hf]. unfold update_remove_attr_type. destruct (update_find_attr_index msg T) as [i|]; [|by constructor].
  unfold update_remove_attr_at. cbn [snd]. case_match; [by constructor|]. constructor; cbn [upd_attrs with_attrs].
  - rewrite list_fmap_delete. eapply sublist_NoDup; [exact Hn|]. apply sublist_delete.
  - by apply Forall_delete.
Qed.

Lemma edited_agg w wa wa' msg :
  edited w wa msg → attrs_of LIBBGP_PATTR_AGGREGATOR (upd_attrs msg) = [] → edited w wa' msg.
Proof.
  intros [Hn Hf] Hno. constructor; [done|]. rewrite Forall_forall in *. intros a Ha.
  eapply attr_form_width; [by apply Hf|by left|right]. intros Ht.
  by apply (filter_nil_not_elem_of (λ a', pa_type a' = LIBBGP_PATTR_AGGREGATOR) _ a Hno).
Qed.

(** ** The first edits: what is kept *)

(** A statement about the flags of an attribute, by trying all of them. *)
Lemma flags_forall (P : libbgp_pattr_type_t -> Z -> bool) :
  forallb (λ k, forallb (λ t, P t (Z.of_nat k)) all_types) (seq 0 256) = true →
  ∀ t flags, is_u8 flags → P t flags = true.
Proof.
  intros Hall t flags Hf. unfold is_u8 in Hf. rewrite forallb_forall in Hall. specialize (Hall (Z.to_nat flags)).
  rewrite in_seq, Z2Nat.id in Hall by lia. specialize (Hall ltac:(lia)). rewrite forallb_forall in Hall.
  apply Hall. unfold all_types. destruct t; simpl; tauto.
Qed.

Lemma flags_extended_u8 flags : is_u8 flags → is_u8 (Z.lor flags LIBBGP_PATTR_FLAG_EXTENDED_LENGTH).
Proof.
  intros Hf. unfold is_u8. set (f' := Z.lor _ _). enough ((0 <=? f') && (f' <? 256) = true) by lia.
  by apply (flags_forall (λ _ f, (0 <=? Z.lor f LIBBGP_PATTR_FLAG_EXTENDED_LENGTH) &&
    (Z.lor f LIBBGP_PATTR_FLAG_EXTENDED_LENGTH <? 256)) ltac:(by vm_compute) LIBBGP_PATTR_UNKNOWN).
Qed.

Lemma norm_form b a : pattr_wf b a → attr_form b b (pattr_norm a).
Proof.
  intros Hwf. destruct (proj2 (attr_form_wf b a) Hwf) as [[] _]. pose proof (λ T, pattr_norm_flags_valid a T af_flags0) as Hv.
  constructor; try done; [|by rewrite Hv..]. unfold pattr_norm. cbn [pa_flags]. case_match; [|done].
  by apply flags_extended_u8.
Qed.

Lemma norm_edited b update : upd_wf b update → edited b b (upd_norm update).
Proof.
  intros ((_ & _ & _ & (Hn & _) & _) & _ & _ & Ha). constructor; unfold upd_norm; cbn [upd_attrs with_attrs].
  - rewrite <-list_fmap_compose. exact Hn.
  - apply Forall_fmap. eapply Forall_impl; [exact Ha|]. intros a Hwf. by apply norm_form.
Qed.

(** The attribute that is sent on for an attribute of the copy. *)
Definition marked (is_ibgp : bool) a : libbgp_pattr_t :=
  if is_ibgp then a else libbgp_pattr_prepare_for_ebgp_forward a.

Definition kept_attr (is_ibgp : bool) a : option libbgp_pattr_t :=
  if forward_keeps is_ibgp a then Some (marked is_ibgp a) else None.

Lemma marked_type is_ibgp a :
  pa_type (marked is_ibgp a) = pa_type a ∧ pa_type_code (marked is_ibgp a) = pa_type_code a ∧
  pa_data (marked is_ibgp a) = pa_data a.
Proof. unfold marked, libbgp_pattr_prepare_for_ebgp_forward. repeat case_match; done. Qed.

(** What marking an attribute as partial does to its flags. *)
Lemma flags_partial type flags :
  is_u8 flags → Z.land flags LIBBGP_PATTR_FLAG_TRANSITIVE ≠ 0 → Z.land flags LIBBGP_PATTR_FLAG_OPTIONAL ≠ 0 →
  is_u8 (Z.lor flags LIBBGP_PATTR_FLAG_PARTIAL) ∧
  Z.land (Z.lor flags LIBBGP_PATTR_FLAG_PARTIAL) LIBBGP_PATTR_FLAG_TRANSITIVE ≠ 0 ∧
  (pattr_known_flags_valid type flags = true →
   pattr_known_flags_valid type (Z.lor flags LIBBGP_PATTR_FLAG_PARTIAL) = true).
Proof.
  intros Hf Ht Ho. pose proof (flags_forall (λ t f, let f' := Z.lor f LIBBGP_PATTR_FLAG_PARTIAL in
      (Z.land f LIBBGP_PATTR_FLAG_TRANSITIVE =? 0) || (Z.land f LIBBGP_PATTR_FLAG_OPTIONAL =? 0) ||
      (0 <=? f') && (f' <? 256) && negb (Z.land f' LIBBGP_PATTR_FLAG_TRANSITIVE =? 0) &&
      (negb (pattr_known_flags_valid t f) || pattr_known_flags_valid t f')) ltac:(by vm_compute) type flags Hf) as Hall.
  cbv beta zeta in Hall.
  apply Z.eqb_neq in Ht, Ho. rewrite Ht, Ho in Hall. cbn [orb] in Hall.
  apply andb_true_iff in Hall as [[[? ?]%andb_true_iff Hn]%andb_true_iff Hv].
  apply negb_true_iff in Hn. unfold is_u8. split; [lia|]. split; [lia|]. intros Hk. by rewrite Hk in Hv.
Qed.

Lemma marked_form w wa is_ibgp a : attr_form w wa a → attr_form w wa (marked is_ibgp a).
Proof.
  intros []. unfold marked. destruct is_ibgp; [done|]. unfold libbgp_pattr_prepare_for_ebgp_forward.
  destruct (bool_decide (pa_type a = LIBBGP_PATTR_UNKNOWN) && _ && _) eqn:Hc; [|done].
  apply andb_true_iff in Hc as [[_ Ho]%andb_true_iff Ht]. apply negb_true_iff in Ho, Ht.
  pose proof (λ T, flags_partial T (pa_flags a) af_flags0 ltac:(lia) ltac:(lia)) as Hp.
  constructor; cbn [pa_flags pa_type_code pa_data]; try done; [by apply (Hp (pa_type a))|..]; apply Hp; done.
Qed.

Lemma marked_keeps w wa is_ibgp a :
  attr_form w wa a → forward_keeps is_ibgp (marked is_ibgp a) = forward_keeps is_ibgp a.
Proof.
  intros []. unfold marked. destruct is_ibgp; [done|]. unfold libbgp_pattr_prepare_for_ebgp_forward.
  destruct (bool_decide (pa_type a = LIBBGP_PATTR_UNKNOWN) && _ && _) eqn:Hc; [|done].
  apply andb_true_iff in Hc as [[_ Ho]%andb_true_iff Ht]. apply negb_true_iff in Ho, Ht.
  destruct (flags_partial (pa_type a) (pa_flags a) af_flags0 ltac:(lia) ltac:(lia)) as (_ & Hp & _).
  unfold forward_keeps. cbn [pa_flags]. apply Z.eqb_neq in Hp. rewrite Hp, Ht. done.
Qed.

Lemma prepare_attrs w wa msg is_ibgp :
  edited w wa msg → upd_attrs (fsm_update_prepare_forward_attrs msg is_ibgp) = omap (kept_attr is_ibgp) (upd_attrs msg).
Proof.
  intros [_ Hf]. unfold fsm_update_prepare_forward_attrs. cbn [upd_attrs with_attrs].
  induction Hf as [|a attrs Ha _ IH]; [done|]. cbn [omap list_omap fmap list_fmap]. unfold kept_attr at 1.
  assert (Hm : (if forward_keeps is_ibgp a && negb is_ibgp then libbgp_pattr_prepare_for_ebgp_forward a else a) =
    if forward_keeps is_ibgp a then marked is_ibgp a else a).
  { unfold marked. by destruct (forward_keeps is_ibgp a), is_ibgp. }
  rewrite Hm, filter_cons. destruct (forward_keeps is_ibgp a) eqn:Hk.
  - rewrite decide_True by by rewrite (marked_keeps w wa). by rewrite IH.
  - rewrite decide_False by congruence. exact IH.
Qed.

Lemma omap_codes is_ibgp attrs :
  pa_type_code <$> omap (kept_attr is_ibgp) attrs `sublist_of` pa_type_code <$> attrs.
Proof.
  induction attrs as [|a attrs IH]; [done|]. cbn [omap list_omap]. unfold kept_attr at 1.
  destruct (forward_keeps is_ibgp a); cbn [fmap list_fmap]; [|by constructor].
  rewrite (proj1 (proj2 (marked_type is_ibgp a))). by constructor.
Qed.

Lemma prepare_edited w wa msg is_ibgp :
  edited w wa msg → edited w wa (fsm_update_prepare_forward_attrs msg is_ibgp).
Proof.
  intros He. constructor; rewrite (prepare_attrs w wa) by done; destruct He as [Hn Hf].
  - eapply sublist_NoDup; [exact Hn|]. apply omap_codes.
  - apply Forall_forall. intros b (a & Ha & Hb)%list_elem_of_omap. unfold kept_attr in Hb. case_match; [|done].
    injection Hb as <-. apply marked_form. rewrite Forall_forall in Hf. auto.
Qed.

Lemma attrs_of_omap T is_ibgp attrs :
  attrs_of T (omap (kept_attr is_ibgp) attrs) = omap (kept_attr is_ibgp) (attrs_of T attrs).
Proof.
  induction attrs as [|a attrs IH]; [done|]. rewrite attrs_of_cons. cbn [omap list_omap]. unfold kept_attr at 1.
  destruct (forward_keeps is_ibgp a) eqn:Hk.
  - rewrite attrs_of_cons, (proj1 (marked_type is_ibgp a)). case_decide; [|done]. cbn [omap list_omap].
    unfold kept_attr at 2. by rewrite Hk, IH.
  - case_decide; [|done]. cbn [omap list_omap]. unfold kept_attr at 2. by rewrite Hk.
Qed.

(** Well-known and transitive attributes are kept. *)
Lemma keeps_transitive w wa is_ibgp a :
  attr_form w wa a → pa_type a ≠ LIBBGP_PATTR_LOCAL_PREF →
  Z.land (pattr_default_flags (pa_type a)) LIBBGP_PATTR_FLAG_TRANSITIVE ≠ 0 → forward_keeps is_ibgp a = true.
Proof.
  intros [Hf _ Hv _ _ _ _] Hl Ht. pose proof (flags_forall (λ t f,
      (Z.land (pattr_default_flags t) LIBBGP_PATTR_FLAG_TRANSITIVE =? 0) || negb (pattr_known_flags_valid t f) ||
      negb (Z.land f LIBBGP_PATTR_FLAG_TRANSITIVE =? 0)) ltac:(by vm_compute) (pa_type a) _ Hf) as Hall.
  cbv beta zeta in Hall. apply Z.eqb_neq in Ht. rewrite Ht, Hv in Hall. cbn [negb orb] in Hall.
  unfold forward_keeps. rewrite (bool_decide_eq_false_2 _ Hl), andb_false_r, Hall. done.
Qed.

(** ** Next hops *)

Lemma pure_wp {A} (m : M A) (Q : A -> Prop) (x : A) :
  pure_run m Q → m [] = (Ret x, []) → wp m (λ r, r = x) no_err.
Proof.
  intros (x' & Hm & _) He s. rewrite Hm in He. injection He as ->. exists [], s. split; [done|]. by rewrite Hm.
Qed.

(** The default next hops are addresses a peer can use. *)
Definition usable4 (policy : fsm_policy) : Prop :=
  is_u32 (po_default_nexthop4 policy) ∧
  fsm_valid_addr4 None (po_default_nexthop4 policy) [] = (Ret true, []).

Record usable6 (policy : fsm_policy) : Prop := {
  us_global : bytes_ok (po_default_nexthop6 policy) ∧ zlen (po_default_nexthop6 policy) = 16;
  us_local : bytes_ok (po_default_nexthop6_linklocal policy) ∧ zlen (po_default_nexthop6_linklocal policy) = 16;
  us_global_valid : fsm_valid_addr6 (po_default_nexthop6 policy) [] = (Ret true, []);
  us_local_valid : fsm_zero_addr6 (po_default_nexthop6_linklocal policy) = false →
    fsm_linklocal_addr6 (po_default_nexthop6_linklocal policy) [] = (Ret true, [])
}.

(** The next hop the peer is told for a route whose next hop is [v]. *)
Definition next_hop_sent (policy : fsm_policy) (is_ibgp : bool) (v : Z) : Z :=
  if is_ibgp && negb (po_ibgp_alter_nexthop policy) then v
  else if negb (po_force_default_nexthop4 policy) && fsm_prefix4_contains_addr (po_peering_lan4 policy) v then v
  else po_default_nexthop4 policy.

Definition with_data a (d : libbgp_pattr_data) : libbgp_pattr_t := Pattr (pa_flags a) (pa_type_code a) d.

Lemma put_same msg a : libbgp_update_find_attr msg (pa_type a) = Some a → put_attr msg a = msg.
Proof.
  unfold libbgp_update_find_attr, put_attr. destruct (update_find_attr_index msg (pa_type a)) as [i|]; [|done].
  intros Hi. rewrite list_insert_id by done. by destruct msg.
Qed.

Lemma wp_alter4 policy is_ibgp msg a v :
  usable4 policy → upd_nlri msg ≠ [] →
  libbgp_update_find_attr msg LIBBGP_PATTR_NEXT_HOP = Some a → pa_data a = d_next_hop v →
  wp (fsm_alter_nexthop4 msg (po_peering_lan4 policy) (po_default_nexthop4 policy)
        (po_force_default_nexthop4 policy) is_ibgp (po_ibgp_alter_nexthop policy))
     (λ r, r = put_attr msg (with_data a (d_next_hop (next_hop_sent policy is_ibgp v)))) no_err.
Proof.
  intros [_ Hdef] Hn Hf Hd. unfold fsm_alter_nexthop4, next_hop_sent.
  assert (Hz : (zlen (upd_nlri msg) =? 0) = false) by (destruct (upd_nlri msg); [done|simpl; lia]). rewrite Hz.
  assert (Hkeep : msg = put_attr msg (with_data a (d_next_hop v))).
  { symmetry. replace (with_data a (d_next_hop v)) with a by (unfold with_data; rewrite <-Hd; by destruct a).
    apply put_same. by rewrite (find_attr_type _ _ _ Hf). }
  destruct (is_ibgp && negb (po_ibgp_alter_nexthop policy)); [by apply wp_ret|]. rewrite Hf.
  assert (Hset : wp (valid ← fsm_valid_addr4 None (po_default_nexthop4 policy);
      fail_if (negb valid) LIBBGP_ERR_INVALID;; fsm_update_set_next_hop4 msg (po_default_nexthop4 policy))
      (λ r, r = put_attr msg (with_data a (d_next_hop (po_default_nexthop4 policy)))) no_err).
  { apply wp_bind. eapply wp_mono; [eapply pure_wp; [apply pure_valid_addr4|exact Hdef]| |done]. intros r ->.
    apply wp_bind, wp_fail_never; [done|]. unfold fsm_update_set_next_hop4. rewrite Hf. apply wp_ret.
    apply replace_put. by exists a. }
  destruct (po_force_default_nexthop4 policy); [exact Hset|]. unfold member. rewrite Hd.
  apply wp_bind, wp_ret. cbn [negb andb]. destruct (fsm_prefix4_contains_addr _ v); [by apply wp_ret|exact Hset].
Qed.

(** The same for MP_REACH_NLRI: a next hop of the peering LAN is kept. *)
Definition mp_sent (policy : fsm_policy) (is_ibgp : bool) a : libbgp_pattr_t :=
  match pa_data a with
  | d_mp_reach_ipv6 nexthop nexthop_len nlri =>
      if is_ibgp && negb (po_ibgp_alter_nexthop policy) then a
      else if (zlen nlri =? 0) || negb (po_force_default_nexthop6 policy) &&
              fsm_prefix6_contains_addr (po_peering_lan6 policy) (take 16 nexthop) then a
      else with_data a
        (if fsm_zero_addr6 (po_default_nexthop6_linklocal policy)
         then d_mp_reach_ipv6 (po_default_nexthop6 policy ++ replicate 16 0) 16 nlri
         else d_mp_reach_ipv6 (po_default_nexthop6 policy ++ po_default_nexthop6_linklocal policy) 32 nlri)
  | _ => a
  end.

Lemma wp_alter_mp w wa policy a :
  attr_form w wa a → (update_mp_reach_has_nlri a = true → usable6 policy) →
  wp (alter_mp_reach (po_peering_lan6 policy) (po_default_nexthop6 policy)
        (po_default_nexthop6_linklocal policy) (po_force_default_nexthop6 policy) a)
     (λ r, r = mp_sent policy false a) no_err.
Proof.
  intros Hform Hus. pose proof (af_data _ _ _ Hform) as Hd. unfold alter_mp_reach, mp_sent, update_mp_reach_has_nlri in *.
  destruct (pa_data a) as [| | | | | | | | | |nexthop len nlri| |]; try by apply wp_ret.
  cbn [andb] in *. destruct Hd as (_ & Hlen & _ & _). apply wp_bind, wp_slice; [lia|lia|lia|]. change (Z.to_nat 0) with 0%nat.
  change (Z.to_nat 16) with 16%nat. rewrite drop_0. destruct (zlen nlri =? 0) eqn:Hz; [by apply wp_ret|]. cbn [orb].
  specialize (Hus eq_refl). destruct Hus as [[_ Hg] [_ Hl] Hgv Hlv].
  destruct (po_force_default_nexthop6 policy) eqn:Hforce, (fsm_prefix6_contains_addr _ _) eqn:Hlan; cbn [orb negb andb];
    try by apply wp_ret.
  all: apply wp_bind; (eapply wp_mono; [eapply pure_wp; [by apply pure_valid_addr6|exact Hgv]| |done]); intros r ->;
    apply wp_bind, wp_fail_never; [done|]; apply wp_bind;
    destruct (pure_linklocal _ Hl) as (ll & Hll & _);
    (eapply (wp_mono _ (λ r, r = ll) _ no_err); [by eapply pure_wp; [by apply pure_linklocal|apply Hll]| |done]);
    intros r ->; destruct (fsm_zero_addr6 (po_default_nexthop6_linklocal policy)) eqn:Hzero;
    (apply wp_bind, wp_fail_never; [|by apply wp_ret]); try done;
    specialize (Hlv eq_refl); rewrite Hll in Hlv; by injection Hlv as ->.
Qed.

Lemma wp_alter6 w wa policy is_ibgp msg :
  edited w wa msg → (existsb update_mp_reach_has_nlri (upd_attrs msg) = true → usable6 policy) →
  wp (fsm_alter_nexthop6 msg (po_peering_lan6 policy) (po_default_nexthop6 policy)
        (po_default_nexthop6_linklocal policy) (po_force_default_nexthop6 policy) is_ibgp
        (po_ibgp_alter_nexthop policy))
     (λ r, r = with_attrs msg (mp_sent policy is_ibgp <$> upd_attrs msg)) no_err.
Proof.
  intros [_ Hf] Hus. unfold fsm_alter_nexthop6. destruct (is_ibgp && negb (po_ibgp_alter_nexthop policy)) eqn:Hi.
  { apply wp_ret. replace (mp_sent policy is_ibgp <$> upd_attrs msg) with (upd_attrs msg); [by destruct msg|].
    symmetry. rewrite <-(list_fmap_id (upd_attrs msg)) at 2. apply list_fmap_ext. intros ? a _. unfold mp_sent. rewrite Hi.
    by destruct (pa_data a). }
  assert (Hmp : ∀ a, mp_sent policy is_ibgp a = mp_sent policy false a) by (intros a; unfold mp_sent; by rewrite Hi).
  apply wp_bind. eapply (wp_mono _ (λ r, r = mp_sent policy is_ibgp <$> upd_attrs msg) _ no_err); [| |done].
  2:{ intros r ->. by apply wp_ret. }
  revert Hus. induction Hf as [|a attrs Ha _ IH]; intros Hus; [by apply wp_ret|]. cbn [map_attrs existsb fmap list_fmap] in *.
  apply wp_bind. eapply wp_mono; [apply (wp_alter_mp w wa); [done|]| |done].
  { intros Hn. apply Hus. by rewrite Hn. }
  intros r ->. apply wp_bind. eapply wp_mono; [apply IH; intros Hn; apply Hus; by rewrite Hn, orb_true_r| |done].
  intros r ->. rewrite Hmp. by apply wp_ret.
Qed.

Lemma next_hop_form w wa a v : attr_form w wa a → pa_type a = LIBBGP_PATTR_NEXT_HOP → is_u32 v →
  attr_form w wa (with_data a (d_next_hop v)).
Proof.
  intros [] Ht Hv. by destruct a as [flags code []].
Qed.

Lemma mp_sent_type policy is_ibgp a :
  pa_type (mp_sent policy is_ibgp a) = pa_type a ∧ pa_type_code (mp_sent policy is_ibgp a) = pa_type_code a.
Proof.
  destruct a as [flags code []]; try done. unfold mp_sent. cbn [pa_data]. by repeat case_match.
Qed.

Lemma mp_sent_form w wa policy is_ibgp a :
  attr_form w wa a → (update_mp_reach_has_nlri a = true → usable6 policy) → attr_form w wa (mp_sent policy is_ibgp a).
Proof.
  intros Hform Hus. destruct a as [flags code data]. unfold mp_sent, update_mp_reach_has_nlri in *. cbn [pa_data] in *.
  destruct data as [| | | | | | | | | |nexthop len nlri| |]; try done.
  destruct (is_ibgp && negb (po_ibgp_alter_nexthop policy)); [done|]. destruct (zlen nlri =? 0); [done|]. cbn [orb negb] in *.
  destruct (negb (po_force_default_nexthop6 policy) && _); [done|].
  destruct (Hus eq_refl) as [[Hb Hl] [Hb' Hl'] _ _]. destruct Hform. cbn [pa_data] in *.
  destruct af_data0 as (_ & _ & _ & Hp). destruct af_parsed0 as [_ Hp'].
  destruct (fsm_zero_addr6 (po_default_nexthop6_linklocal policy)).
  - constructor; try done; cbn [pa_data pa_type_code with_data data_ok data_parsed].
    + split_and!; [by left|rewrite length_app, length_replicate; lia| |done].
      apply Forall_app. split; [done|]. apply Forall_replicate. unfold is_u8. lia.
    + split; [|done]. by rewrite drop_app_length' by (change (Z.to_nat 16) with 16%nat; lia).
  - constructor; try done; cbn [pa_data pa_type_code with_data data_ok data_parsed].
    + split_and!; [by right|rewrite length_app; lia|by apply Forall_app|done].
    + split; [|done]. rewrite drop_ge; [done|]. rewrite length_app. change (Z.to_nat 32) with 32%nat. lia.
Qed.

Lemma mp_sent_edited w wa policy is_ibgp msg :
  edited w wa msg → (existsb update_mp_reach_has_nlri (upd_attrs msg) = true → usable6 policy) →
  edited w wa (with_attrs msg (mp_sent policy is_ibgp <$> upd_attrs msg)).
Proof.
  intros [Hn Hf] Hus. constructor; cbn [upd_attrs with_attrs].
  - rewrite <-list_fmap_compose. erewrite list_fmap_ext; [exact Hn|]. intros ? a _. cbn. apply mp_sent_type.
  - apply Forall_fmap. rewrite Forall_forall in *. intros a Ha. apply mp_sent_form; [by apply Hf|]. intros Hh.
    apply Hus, existsb_exists. exists a. split; [by apply list_elem_of_In|done].
Qed.

Lemma attrs_of_mp_sent T policy is_ibgp attrs :
  attrs_of T (mp_sent policy is_ibgp <$> attrs) = mp_sent policy is_ibgp <$> attrs_of T attrs.
Proof.
  induction attrs as [|a attrs IH]; [done|]. rewrite attrs_of_cons. cbn [fmap list_fmap].
  rewrite attrs_of_cons, (proj1 (mp_sent_type policy is_ibgp a)), IH. by case_decide.
Qed.
End Prepare.
