(* ===== verification/FsmPath.v ===== *)
(** * UPDATEs for a peer: AS numbers

    The AS_PATH and the AGGREGATOR of an UPDATE that is sent on, in the width
    of the peer's session: [tells] says which AS numbers AS_PATH and AS4_PATH
    tell together, [agg_told] which aggregator.  The conversions keep both,
    and prepending puts the own AS number in front. *)

From stdpp Require Import gmap.
From S2P Require Import Prelude Bytes Prefix4 Prefix6 Pattr PattrSpec Update UpdateSpec As4 As4Spec Fsm FsmChecks FsmPrepare.

Section Path.
Context {host : Host}.
Implicit Types (msg : libbgp_update_msg_t) (a p q : libbgp_pattr_t) (segs : list libbgp_as_path_segment_t).

(** ** Edits that leave other attributes alone *)

Record same_but (Ts : list libbgp_pattr_type_t) msg (r : libbgp_update_msg_t) : Prop := {
  sb_withdrawn : upd_withdrawn r = upd_withdrawn msg;
  sb_nlri : upd_nlri r = upd_nlri msg;
  sb_attrs : ∀ T, T ∉ Ts → attrs_of T (upd_attrs r) = attrs_of T (upd_attrs msg)
}.

#[export] Instance same_but_preorder Ts : PreOrder (same_but Ts).
Proof.
  split.
  - intros msg. by constructor.
  - intros m1 m2 m3 [] []. constructor; [congruence..|]. intros T HT. rewrite sb_attrs1, sb_attrs0 by done. done.
Qed.

Lemma put_prefixes msg a :
  upd_withdrawn (put_attr msg a) = upd_withdrawn msg ∧ upd_nlri (put_attr msg a) = upd_nlri msg.
Proof. unfold put_attr. by case_match. Qed.

Lemma same_but_put Ts msg a : pa_type a ∈ Ts → same_but Ts msg (put_attr msg a).
Proof.
  intros Ha. constructor; [apply put_prefixes..|]. intros T HT. rewrite attrs_of_put, decide_False; [done|]. congruence.
Qed.

Lemma same_but_remove Ts msg T : T ∈ Ts → same_but Ts msg (update_remove_attr_type msg T).2.
Proof.
  intros HT0. constructor.
  1,2: unfold update_remove_attr_type, update_remove_attr_at; by repeat case_match.
  intros T' HT. rewrite attrs_of_remove, decide_False; [done|]. congruence.
Qed.

Lemma same_but_find Ts msg r T : same_but Ts msg r → T ∉ Ts → libbgp_update_find_attr r T = libbgp_update_find_attr msg T.
Proof. intros H HT. by rewrite !find_attr_head, (sb_attrs _ _ _ H). Qed.

Definition path_types : list libbgp_pattr_type_t := [LIBBGP_PATTR_AS_PATH; LIBBGP_PATTR_AS4_PATH].
Definition agg_types : list libbgp_pattr_type_t := [LIBBGP_PATTR_AGGREGATOR; LIBBGP_PATTR_AS4_AGGREGATOR].

(** ** Segments *)

Definition seg_good (w : bool) (seg : libbgp_as_path_segment_t) : Prop := seg_ok w seg ∧ seg_asns seg ≠ [].

Lemma good_shape w segs : Forall (seg_good w) segs → Forall seg_shape segs.
Proof. intros H. eapply Forall_impl; [exact H|]. intros seg [(? & ? & _) _]. by split. Qed.

Lemma asn_ok_wide w asn : asn_ok w asn → asn_ok true asn.
Proof. unfold asn_ok, is_u16, is_u32. destruct w; lia. Qed.

Lemma seg_good_wide w segs : Forall (seg_good w) segs → Forall (seg_good true) segs.
Proof.
  intros H. eapply Forall_impl; [exact H|]. intros seg [(Ht & Hl & Ha) Hn]. split; [|done]. split; [done|]. split; [done|].
  eapply Forall_impl; [exact Ha|]. apply asn_ok_wide.
Qed.

Lemma cut_before_good w k segs : Forall (seg_good w) segs → Forall (seg_good w) (cut_before k segs).
Proof.
  intros H. revert k. induction H as [|seg segs [(Ht & Hl & Ha) _] _ IH]; intros k; [constructor|].
  cbn [cut_before]. case_match; [constructor|]. apply Forall_app. split; [|apply IH].
  unfold opt_seg. destruct (take k (seg_asns seg)) eqn:He; [constructor|]. constructor; [|constructor].
  rewrite <-He. split; [|cbn [seg_asns]; by rewrite He]. split; [done|]. split; [|by apply Forall_take].
  cbn [seg_asns]. rewrite length_take. lia.
Qed.

Lemma cut_after_good w k segs : Forall (seg_good w) segs → Forall (seg_good w) (cut_after k segs).
Proof.
  intros H. revert k. induction H as [|seg segs [(Ht & Hl & Ha) Hn] H IH]; intros k; [constructor|].
  cbn [cut_after]. destruct (Nat.leb_spec (length (seg_asns seg)) k); [apply IH|]. constructor; [|done].
  split.
  - split; [done|]. split; [|by apply Forall_drop]. cbn [seg_asns]. rewrite length_drop. lia.
  - cbn [seg_asns]. intros He%(f_equal length). rewrite length_drop in He. cbn in He. lia.
Qed.

Lemma narrow_good segs : Forall (seg_good true) segs → Forall (seg_good false) (narrow_segment <$> segs).
Proof.
  intros H. apply Forall_fmap. eapply Forall_impl; [exact H|]. intros seg [(Ht & Hl & Ha) Hn]. split.
  - split; [done|]. split; [cbn; by rewrite length_fmap|]. cbn. apply Forall_fmap. eapply Forall_impl; [exact Ha|].
    intros asn Hasn. unfold asn_ok, is_u32, is_u16, narrow_asn, LIBBGP_AS_TRANS in *. cbn. case_match; lia.
  - cbn. by destruct (seg_asns seg).
Qed.

Lemma prepend_good w segs asn : Forall (seg_good w) segs → asn_ok w asn → Forall (seg_good w) (prepend_segs segs asn).
Proof.
  intros H Hasn. assert (Hone : seg_good w (Segment 2 [asn])).
  { split; [|done]. split; [cbn; lia|]. split; [cbn; lia|]. by repeat constructor. }
  destruct H as [|seg segs Hs Hss]; cbn [prepend_segs]; [by repeat constructor|].
  case_match; constructor; try done; [|by constructor]. destruct Hs as [(Ht & Hl & Ha) _].
  split; [|done]. split; [done|]. split; [cbn; lia|]. by constructor.
Qed.

(** ** Path attributes of an edited message *)

Lemma elem_find msg T a : libbgp_update_find_attr msg T = Some a → a ∈ upd_attrs msg ∧ pa_type a = T.
Proof.
  rewrite find_attr_head. intros Ha%head_Some_elem_of. by apply list_elem_of_filter in Ha as [? ?].
Qed.

Lemma edited_find w wa msg T a : edited w wa msg → libbgp_update_find_attr msg T = Some a → attr_form w wa a ∧ pa_type a = T.
Proof.
  intros [_ Hf] [Ha Ht]%elem_find. rewrite Forall_forall in Hf. auto.
Qed.

Lemma edited_path w wa msg p :
  edited w wa msg → libbgp_update_find_attr msg LIBBGP_PATTR_AS_PATH = Some p →
  as_path_is_4b p = w ∧ Forall (seg_good w) (as_path_segments p).
Proof.
  intros He Hf. destruct (edited_find _ _ _ _ _ He Hf) as [[] Ht]. destruct p as [flags code []]; try done.
  cbn [pa_data data_parsed data_ok] in *. destruct af_parsed as [Hw Hne]. change (is_4b = w) in Hw. subst is_4b.
  split; [done|]. by apply Forall_and.
Qed.

Lemma edited_as4 w wa msg q :
  edited w wa msg → libbgp_update_find_attr msg LIBBGP_PATTR_AS4_PATH = Some q →
  as_path_is_4b q = true ∧ Forall (seg_good true) (as_path_segments q).
Proof.
  intros He Hf. destruct (edited_find _ _ _ _ _ He Hf) as [[] Ht]. destruct q as [flags code []]; try done.
  cbn [pa_data data_parsed data_ok] in *. destruct af_data as [-> Hs]. split; [done|]. by apply Forall_and.
Qed.

Lemma set_path_form w wa w' p segs :
  attr_form w wa p → pa_type p = LIBBGP_PATTR_AS_PATH → Forall (seg_good w') segs →
  attr_form w' wa (set_as_path p segs w').
Proof.
  intros [] Ht Hs. destruct p as [flags code []]; try done. apply Forall_and in Hs as [Hs1 Hs2]. by constructor.
Qed.

Lemma as_path_form w wa segs : Forall (seg_good w) segs → attr_form w wa (as_path_attr segs w).
Proof.
  intros [Hs1 Hs2]%Forall_and. constructor; try done; cbn; unfold is_u8, LIBBGP_PATTR_FLAG_TRANSITIVE; lia.
Qed.

Lemma as4_path_form w wa segs : Forall (seg_good true) segs → attr_form w wa (as4_path_attr segs).
Proof.
  intros [Hs1 Hs2]%Forall_and. constructor; try done; cbn; unfold is_u8; lia.
Qed.

Lemma edited_path_ok w wa msg T p :
  edited w wa msg → T ∈ path_types → libbgp_update_find_attr msg T = Some p →
  zlen (as_path_segments p) <= 2 ^ 32 → path_ok p.
Proof.
  unfold path_types. rewrite !elem_of_cons. intros He [->|[->|H%elem_of_nil]] Hf Hl; [..|done];
    destruct (edited_find _ _ _ _ _ He Hf) as [_ Ht]; unfold path_ok; rewrite Ht.
  - destruct (edited_path _ _ _ _ He Hf) as [_ Hs]. split_and!; [done|done|by eapply good_shape|done].
  - destruct (edited_as4 _ _ _ _ He Hf) as [H4 Hs]. split_and!; [done|done|by eapply good_shape|done].
Qed.

(** ** The path a message tells

    [asns] are the AS numbers AS_PATH and AS4_PATH tell together on a session
    of width [w]; [bound] limits the segments of either. *)
Record told_path (bound : Z) (w : bool) msg (asns : list Z) p : Prop := {
  tp_find : libbgp_update_find_attr msg LIBBGP_PATTR_AS_PATH = Some p;
  tp_bound : zlen (as_path_segments p) <= bound;
  tp_as4_bound : ∀ q, libbgp_update_find_attr msg LIBBGP_PATTR_AS4_PATH = Some q → zlen (as_path_segments q) <= bound;
  tp_agrees : as4_agrees (as_path_segments p) (as4_asns msg);
  tp_asns : real_asns (path_asns (as_path_segments p)) (as4_asns msg) = asns;
  tp_as4 : w = true → libbgp_update_find_attr msg LIBBGP_PATTR_AS4_PATH = None
}.

Definition tells (bound : Z) (w : bool) msg (asns : list Z) : Prop := ∃ p, told_path bound w msg asns p.

Lemma as4_asns_find msg o :
  libbgp_update_find_attr msg LIBBGP_PATTR_AS4_PATH = o → as4_asns msg = (λ q, path_asns (as_path_segments q)) <$> o.
Proof. intros <-. done. Qed.

Lemma told_same bound w msg asns r : same_but agg_types msg r → tells bound w msg asns → tells bound w r asns.
Proof.
  intros Hs (p & []). assert (Hf : ∀ T, T ∈ path_types → libbgp_update_find_attr r T = libbgp_update_find_attr msg T).
  { intros T HT. eapply same_but_find; [exact Hs|]. unfold path_types, agg_types in *. set_solver. }
  assert (H4 : libbgp_update_find_attr r LIBBGP_PATTR_AS4_PATH = libbgp_update_find_attr msg LIBBGP_PATTR_AS4_PATH)
    by (apply Hf; unfold path_types; set_solver).
  exists p. constructor; try (rewrite ?H4; done); try (unfold as4_asns in *; by rewrite H4).
  rewrite Hf; [done|unfold path_types; set_solver].
Qed.

Lemma path_type_in : LIBBGP_PATTR_AS_PATH ∈ path_types ∧ LIBBGP_PATTR_AS4_PATH ∈ path_types.
Proof. unfold path_types. set_solver. Qed.

(** A path alone. *)
Lemma told_alone bound msg w p :
  libbgp_update_find_attr msg LIBBGP_PATTR_AS_PATH = Some p → zlen (as_path_segments p) <= bound →
  libbgp_update_find_attr msg LIBBGP_PATTR_AS4_PATH = None →
  tells bound w msg (path_asns (as_path_segments p)).
Proof.
  intros Hf Hl H4. exists p. constructor; try done; unfold as4_asns; rewrite H4; try done.
Qed.

(** ** To four octets *)

Lemma remove_find_same w wa msg T :
  edited w wa msg → T ∈ as4_types → libbgp_update_find_attr (update_remove_attr_type msg T).2 T = None.
Proof.
  intros He HT. rewrite find_attr_head, attrs_of_remove, decide_True by done.
  by rewrite (attrs_of_single _ _ (edited_coherent _ _ _ He) HT).
Qed.

Lemma put_find_other msg a T : pa_type a ≠ T → libbgp_update_find_attr (put_attr msg a) T = libbgp_update_find_attr msg T.
Proof. intros. by rewrite !find_attr_head, attrs_of_put, decide_False. Qed.

Lemma put_find_same msg a T : pa_type a = T → libbgp_update_find_attr (put_attr msg a) T = Some a.
Proof. intros <-. by rewrite find_attr_head, attrs_of_put, decide_True. Qed.

Lemma remove_find_other msg T T' : T ≠ T' →
  libbgp_update_find_attr (update_remove_attr_type msg T).2 T' = libbgp_update_find_attr msg T'.
Proof. intros. by rewrite !find_attr_head, attrs_of_remove, decide_False. Qed.

(** What a conversion promises: the message in the new width that tells the
    same path. *)
Definition converts (w wa : bool) msg asns (r : libbgp_update_msg_t) : Prop :=
  edited w wa r ∧ tells (2 ^ 21) w r asns ∧ same_but path_types msg r.

Lemma wp_restore_told b wa msg asns :
  edited b wa msg → tells (2 ^ 20) b msg asns →
  wp (libbgp_update_restore_as_path msg) (converts true wa msg asns) no_err.
Proof.
  intros He (p & [Hf Hl Hl4 Ha Hasns H4]). destruct (edited_find _ _ _ _ _ He Hf) as [Hform Ht].
  destruct (edited_path _ _ _ _ He Hf) as [_ Hgood]. destruct path_type_in as [Hin Hin4].
  assert (Hok : path_ok p) by (eapply edited_path_ok; [done|exact Hin|done|lia]).
  assert (Hkt : ∀ segs, known_type (pa_type (set_as_path p segs true))) by (intros; by rewrite set_as_path_type, Ht).
  assert (Hseg : ∀ segs, as_path_segments (set_as_path p segs true) = segs)
    by (intros; apply as_path_segments_set; by rewrite Ht).
  assert (Hput : ∀ segs, Forall (seg_good true) segs → edited true wa (put_attr msg (set_as_path p segs true))).
  { intros segs Hs. eapply put_edited; [exact He|apply Hkt|by eapply set_path_form|right; by rewrite set_as_path_type|by left]. }
  destruct (libbgp_update_find_attr msg LIBBGP_PATTR_AS4_PATH) as [q|] eqn:Hq.
  - rewrite (as4_asns_find _ _ Hq) in Ha, Hasns. cbn [fmap option_fmap option_map] in Ha, Hasns.
    destruct (edited_as4 _ _ _ _ He Hq) as [_ Hqgood]. specialize (Hl4 q eq_refl).
    assert (Hqok : path_ok q) by (eapply edited_path_ok; [done|exact Hin4|done|lia]).
    eapply wp_mono; [by apply (wp_restore msg p q)| |]; cbn beta; rewrite (restore_agreeing _ _ Ha); [|by intros e [_ ?]].
    intros r (segs & [= <-] & ->). set (segs := cut_before _ _ ++ _).
    assert (Hs : Forall (seg_good true) segs).
    { apply Forall_app. split; [|done]. by eapply cut_before_good, seg_good_wide. }
    pose proof (cut_before_length (length (path_asns (as_path_segments p)) - length (path_asns (as_path_segments q))) (as_path_segments p)) as Hcl.
    set (msg1 := put_attr msg _). assert (He1 : edited true wa msg1) by by apply Hput.
    split; [by apply remove_edited|]. split.
    + rewrite <-Hasns. replace (real_asns _ _) with (path_asns (as_path_segments (set_as_path p segs true)));
        [|unfold segs; by rewrite Hseg, path_asns_app, cut_before_asns].
      apply told_alone; [|rewrite Hseg; unfold segs; rewrite length_app; lia|].
      * rewrite remove_find_other by done. apply put_find_same. by rewrite set_as_path_type.
      * by eapply remove_find_same, as4_type_in.
    + etrans; [apply same_but_put|apply same_but_remove]; [by rewrite set_as_path_type, Ht|done].
  - rewrite (as4_asns_find _ _ Hq) in Ha, Hasns. cbn in Hasns.
    eapply wp_mono; [by apply (wp_restore_plain msg p)| |done]. intros r ->.
    split; [by eapply Hput, seg_good_wide|]. split; [|apply same_but_put; by rewrite set_as_path_type, Ht].
    rewrite <-Hasns. rewrite <-(Hseg (as_path_segments p)) at 2. apply told_alone.
    + apply put_find_same. by rewrite set_as_path_type.
    + rewrite Hseg. lia.
    + rewrite put_find_other; [done|]. by rewrite set_as_path_type, Ht.
Qed.

(** ** To two octets *)

(** The path cannot be told in two octets: its first wide AS number is inside
    a set, after another member. *)
Definition unshadowable segs : bool := has_wide segs && cuts_set (wide_index (path_asns segs)) segs.

Lemma downgraded_agrees segs :
  has_wide segs = true → cuts_set (wide_index (path_asns segs)) segs = false →
  let as4 := Some (path_asns (cut_after (wide_index (path_asns segs)) segs)) in
  as4_agrees (narrow_segment <$> segs) as4 ∧ real_asns (path_asns (narrow_segment <$> segs)) as4 = path_asns segs.
Proof.
  intros Hw%wide_index_lt Hc. cbn [as4_agrees real_asns]. rewrite path_asns_narrow, cut_after_asns, length_fmap, length_drop.
  set (asns := path_asns segs) in *. set (k := wide_index asns) in *.
  replace (length asns - (length asns - k))%nat with k by lia. split.
  - split_and!; [lia|by rewrite cuts_set_narrow|]. rewrite <-fmap_drop. apply asns_match_narrow.
  - rewrite <-fmap_take. unfold k at 1 2. rewrite wide_index_narrow. apply take_drop.
Qed.

Lemma wp_downgrade_told b wa msg asns p :
  edited b wa msg → told_path (2 ^ 20) b msg asns p →
  wp (libbgp_update_downgrade_as_path msg) (converts false wa msg asns)
     (λ e, e = LIBBGP_ERR_INVALID ∧ b = true ∧ unshadowable (as_path_segments p) = true).
Proof.
  intros He Htold. pose proof Htold as [Hf Hl Hl4 Ha Hasns H4]. destruct (edited_find _ _ _ _ _ He Hf) as [_ Ht].
  destruct (edited_path _ _ _ _ He Hf) as [Hb Hgood]. destruct path_type_in as [Hin Hin4]. destruct b.
  2:{ unfold libbgp_update_downgrade_as_path. rewrite Hf, Hb. apply wp_ret. split; [done|]. split; [|reflexivity].
      exists p. constructor; try done; [lia|]. intros q Hq. specialize (Hl4 q Hq). lia. }
  specialize (H4 eq_refl). rewrite (as4_asns_find _ _ H4) in Ha, Hasns. cbn in Hasns.
  assert (Hok : path_ok p) by (eapply edited_path_ok; [done|exact Hin|done|lia]). set (segs := as_path_segments p) in *.
  assert (He1 : edited false wa (put_attr msg (narrowed_path segs))).
  { eapply put_edited; [exact He|done|by apply as_path_form, narrow_good|by right|by left]. }
  assert (Hs1 : same_but path_types msg (put_attr msg (narrowed_path segs))) by by apply same_but_put.
  assert (Hln : zlen (narrow_segment <$> segs) <= 2 ^ 21) by (rewrite length_fmap; lia).
  eapply wp_mono; [by apply (wp_downgrade msg p (edited_coherent _ _ _ He))| |]; cbn beta; fold segs.
  2:{ intros e (-> & Hw & Hc). unfold unshadowable. by rewrite Hw, Hc. }
  intros r Hr. destruct (has_wide segs) eqn:Hw.
  - destruct Hr as [-> Hc]. destruct (downgraded_agrees segs Hw Hc) as [Hag Hre].
    split; [|split; [|etrans; [exact Hs1|by apply same_but_put]]].
    + eapply put_edited; [exact He1|done|by apply as4_path_form, cut_after_good|by left..].
    + assert (Hfs : libbgp_update_find_attr (put_attr (put_attr msg (narrowed_path segs)) (shadow_path segs))
        LIBBGP_PATTR_AS4_PATH = Some (shadow_path segs)) by by apply put_find_same.
      exists (narrowed_path segs). constructor; try done.
      * rewrite put_find_other by done. by apply put_find_same.
      * intros q Hq. rewrite Hfs in Hq. injection Hq as <-.
        pose proof (cut_after_length (wide_index (path_asns segs)) segs) as Hcl.
        change (as_path_segments (shadow_path segs)) with (cut_after (wide_index (path_asns segs)) segs). lia.
      * by rewrite (as4_asns_find _ _ Hfs).
      * rewrite (as4_asns_find _ _ Hfs), <-Hasns. exact Hre.
  - subst r. split; [by apply remove_edited|]. split; [|etrans; [exact Hs1|by apply same_but_remove]].
    replace asns with (path_asns (as_path_segments (narrowed_path segs))).
    + apply told_alone; [|done|].
      * rewrite remove_find_other by done. by apply put_find_same.
      * by eapply remove_find_same, as4_type_in.
    + rewrite <-Hasns. change (as_path_segments (narrowed_path segs)) with (narrow_segment <$> segs).
      by rewrite narrow_segs_fixed by by apply no_wide_narrow.
Qed.

(** ** Putting an AS number in front *)

Lemma told_session bound w wa msg asns p :
  edited w wa msg → told_path bound w msg asns p → bound <= 2 ^ 30 →
  session_path msg w (as_path_segments p) ∧ session_as4 msg.
Proof.
  intros He [Hf Hl Hl4 _ _ _] Hb. destruct path_type_in as [Hin Hin4]. unfold session_path, session_as4. rewrite Hf. split.
  - split; [|lia]. split_and!; [|apply (edited_path _ _ _ _ He Hf)|done]. eapply edited_path_ok; [done|exact Hin|done|lia].
  - destruct (libbgp_update_find_attr msg LIBBGP_PATTR_AS4_PATH) as [q|] eqn:Hq; [|done]. specialize (Hl4 q eq_refl).
    split; [|lia]. eapply edited_path_ok; [done|exact Hin4|done|lia].
Qed.

Lemma next_shadow_segs w wa msg segs asn q :
  edited w wa msg → Forall (seg_good false) segs → is_u32 asn → next_shadow msg segs asn = Some q →
  ∃ segs', q = as4_path_attr segs' ∧ Forall (seg_good true) segs' ∧
    zlen segs' <= zlen segs + 1 + zlen (from_option as_path_segments [] (libbgp_update_find_attr msg LIBBGP_PATTR_AS4_PATH)).
Proof.
  intros He Hs Hasn. pose proof (prepend_length segs LIBBGP_AS_TRANS) as Hpl.
  assert (Hpre : Forall (seg_good true) (prepend_segs segs LIBBGP_AS_TRANS)).
  { eapply seg_good_wide, prepend_good; [exact Hs|]. unfold asn_ok, is_u16, LIBBGP_AS_TRANS. lia. }
  assert (Hset : ∀ l, Forall (seg_good true) l → ∃ l', set_first_asn (as4_path_attr l) asn = as4_path_attr l' ∧
    Forall (seg_good true) l' ∧ length l' = length l).
  { intros [|[ty [|x asns]] l] Hl; [by eexists [] | |].
    - apply Forall_cons in Hl as [[_ Hne] _]. done.
    - exists (Segment ty (asn :: asns) :: l). split; [done|]. split; [|done]. apply Forall_cons in Hl as [[(? & ? & Ha) _] Hl].
      constructor; [|done]. split; [|done]. split; [done|]. split; [done|]. cbn [seg_asns] in *.
      apply Forall_cons in Ha as [_ Ha]. by constructor. }
  unfold next_shadow. destruct (libbgp_update_find_attr msg LIBBGP_PATTR_AS4_PATH) as [q0|] eqn:Hq; cbn [from_option].
  - case_match; [done|]. intros [= <-]. destruct (edited_as4 _ _ _ _ He Hq) as [_ Hq0].
    set (k := S _). pose proof (cut_before_length k (prepend_segs segs LIBBGP_AS_TRANS)) as Hcl.
    destruct (Hset (cut_before k (prepend_segs segs LIBBGP_AS_TRANS) ++ as_path_segments q0)) as (l' & -> & Hl' & Hlen).
    { apply Forall_app. split; [by apply cut_before_good|done]. }
    exists l'. split; [done|]. split; [done|]. rewrite Hlen, length_app. lia.
  - intros [= <-]. destruct (Hset _ Hpre) as (l' & -> & Hl' & Hlen). exists l'. split; [done|]. split; [done|].
    rewrite Hlen. cbn [length]. lia.
Qed.

Lemma wp_prepend_told w wa msg asns asn :
  edited w wa msg → tells (2 ^ 21) w msg asns → is_u32 asn →
  wp (libbgp_update_prepend_asn msg asn w)
     (λ r, edited w wa r ∧ tells (2 ^ 23) w r (asn :: asns) ∧ same_but path_types msg r) no_err.
Proof.
  intros He (p & Htold) Hasn. pose proof Htold as [Hf Hl Hl4 Ha Hasns H4].
  destruct (told_session _ _ _ _ _ _ He Htold ltac:(lia)) as [Hsp Hs4].
  destruct (edited_path _ _ _ _ He Hf) as [_ Hgood]. set (segs := as_path_segments p) in *.
  pose proof (wp_prepend msg asn w segs (edited_coherent _ _ _ He) Hsp Hs4 H4) as Hwp. cbv zeta in Hwp.
  assert (Hpl : ∀ n, zlen (prepend_segs segs n) <= 2 ^ 23) by (intros n; pose proof (prepend_length segs n); lia).
  assert (Hput : ∀ n, asn_ok w n → edited w wa (put_attr msg (as_path_attr (prepend_segs segs n) w))).
  { intros n Hok. eapply put_edited; [exact He|done|by apply as_path_form, prepend_good|by left..]. }
  assert (Hlen4 : zlen (from_option as_path_segments [] (libbgp_update_find_attr msg LIBBGP_PATTR_AS4_PATH)) <= 2 ^ 21).
  { destruct (libbgp_update_find_attr msg LIBBGP_PATTR_AS4_PATH) as [q|]; [by apply Hl4|cbn; lia]. }
  destruct (negb w && (65535 <? asn)) eqn:Hw.
  - apply andb_true_iff in Hw as [Hw Hwide]. destruct w; [done|].
    eapply wp_mono; [exact Hwp| |]; cbn beta; [|intros e (_ & _ & Hn); by apply next_shadow_agreeing in Hn].
    intros r (q & Hq & Hqt & ->). destruct (next_shadow_segs _ _ _ _ _ _ He Hgood Hasn Hq) as (segs' & -> & Hs' & Hl').
    pose proof (next_shadow_agrees _ _ _ _ Ha Hq) as Htells. rewrite Hasns in Htells.
    assert (Hfs : libbgp_update_find_attr (put_attr (put_attr msg (as_path_attr (prepend_segs segs LIBBGP_AS_TRANS) false))
      (as4_path_attr segs')) LIBBGP_PATTR_AS4_PATH = Some (as4_path_attr segs')) by by apply put_find_same.
    split; [|split].
    + eapply put_edited; [apply Hput; unfold asn_ok, is_u16, LIBBGP_AS_TRANS; lia|done|by apply as4_path_form|by left..].
    + exists (as_path_attr (prepend_segs segs LIBBGP_AS_TRANS) false). constructor; try done.
      * rewrite put_find_other by done. by apply put_find_same.
      * apply Hpl.
      * intros q Hq'. rewrite Hfs in Hq'. injection Hq' as <-. change (as_path_segments (as4_path_attr segs')) with segs'. lia.
      * rewrite (as4_asns_find _ _ Hfs). cbn [fmap option_fmap option_map]. rewrite Htells.
        change (as_path_segments (as_path_attr ?s _)) with s. rewrite <-Hasns. by apply agrees_prepend_wide.
      * rewrite (as4_asns_find _ _ Hfs). cbn [fmap option_fmap option_map]. rewrite Htells.
        change (as_path_segments (as_path_attr ?s _)) with s. rewrite prepend_asns. cbn [real_asns length].
        rewrite <-Hasns, length_real_asns, Nat.sub_diag by done. done.
    + etrans; apply same_but_put; unfold path_types; set_solver.
  - eapply wp_mono; [exact Hwp| |]; cbn beta; [|by intros e (_ & ? & _)]. intros r ->.
    assert (Hok : asn_ok w asn) by (unfold asn_ok, is_u16, is_u32 in *; destruct w; cbn in Hw; lia).
    split; [by apply Hput|]. split; [|apply same_but_put; unfold path_types; set_solver].
    assert (Hf4 : ∀ o, libbgp_update_find_attr msg LIBBGP_PATTR_AS4_PATH = o →
      libbgp_update_find_attr (put_attr msg (as_path_attr (prepend_segs segs asn) w)) LIBBGP_PATTR_AS4_PATH = o).
    { intros o Ho. by rewrite put_find_other. }
    assert (H41 : as4_asns (put_attr msg (as_path_attr (prepend_segs segs asn) w)) = as4_asns msg).
    { unfold as4_asns. by rewrite (Hf4 _ eq_refl). }
    exists (as_path_attr (prepend_segs segs asn) w). constructor; rewrite ?H41; try done.
    + by apply put_find_same.
    + apply Hpl.
    + intros q Hq'. rewrite (Hf4 _ eq_refl) in Hq'. specialize (Hl4 q Hq'). lia.
    + by apply agrees_prepend_narrow.
    + change (as_path_segments (as_path_attr ?s _)) with s. rewrite prepend_asns, real_prepend_narrow; [by rewrite Hasns|].
      intros q Hq'. rewrite Hq' in Ha. apply Ha.
    + intros ->. by apply Hf4, H4.
Qed.

(** What the peer makes of a message that tells a path. *)
Lemma told_restores bound w wa msg asns :
  edited w wa msg → tells bound w msg asns → bound <= 2 ^ 30 →
  ∃ r p, libbgp_update_restore_as_path msg [] = (Ret r, []) ∧
    libbgp_update_find_attr r LIBBGP_PATTR_AS_PATH = Some p ∧ path_asns (as_path_segments p) = asns.
Proof.
  intros He (p & Htold) Hb. pose proof Htold as [Hf Hl Hl4 Ha Hasns H4]. destruct path_type_in as [Hin Hin4].
  destruct (restore_real msg p Hf) as (r & p' & Hr & Hf' & Hp'); [..|done|by rewrite Hasns in Hp'; exists r, p'].
  - eapply edited_path_ok; [done|exact Hin|done|lia].
  - intros q Hq. specialize (Hl4 q Hq). eapply edited_path_ok; [done|exact Hin4|done|lia].
Qed.

(** ** The aggregator *)

(** AS number and router id, as AS4_AGGREGATOR tells them or, without it,
    AGGREGATOR. *)
Definition agg_told msg : option (Z * Z) :=
  match libbgp_update_find_attr msg LIBBGP_PATTR_AS4_AGGREGATOR, libbgp_update_find_attr msg LIBBGP_PATTR_AGGREGATOR with
  | Some q, _ => Some (aggregator_of q).1
  | None, Some a => Some (aggregator_of a).1
  | None, None => None
  end.

Lemma edited_agg_data w wa msg a :
  edited w wa msg → libbgp_update_find_attr msg LIBBGP_PATTR_AGGREGATOR = Some a →
  ∃ asn router_id, pa_data a = d_aggregator asn router_id wa ∧ asn_ok wa asn ∧ is_u32 router_id.
Proof.
  intros He Hf. destruct (edited_find _ _ _ _ _ He Hf) as [[] Ht]. destruct a as [flags code []]; try done.
  cbn [pa_data data_ok data_parsed] in *. change (is_4b = wa) in af_parsed. subst is_4b. eexists _, _. split; [done|]. exact af_data.
Qed.

Lemma edited_as4_agg_data w wa msg a :
  edited w wa msg → libbgp_update_find_attr msg LIBBGP_PATTR_AS4_AGGREGATOR = Some a →
  ∃ asn router_id, pa_data a = d_as4_aggregator asn router_id true ∧ is_u32 asn ∧ is_u32 router_id.
Proof.
  intros He Hf. destruct (edited_find _ _ _ _ _ He Hf) as [[] Ht]. destruct a as [flags code []]; try done.
  cbn [pa_data data_ok data_parsed] in *. subst is_4b. eexists _, _. split; [done|]. exact af_data.
Qed.

Lemma set_agg_form w wa wa' a asn router_id :
  attr_form w wa a → pa_type a = LIBBGP_PATTR_AGGREGATOR → asn_ok wa' asn → is_u32 router_id →
  attr_form w wa' (set_aggregator a asn router_id wa').
Proof. intros [] Ht Ha Hr. by destruct a as [flags code []]. Qed.

Lemma new_agg_form w wa T asn router_id :
  T ∈ agg_types → is_u32 asn → is_u32 router_id → (T = LIBBGP_PATTR_AGGREGATOR → wa = true) →
  attr_form w wa (set_aggregator (pattr_set_defaults T) asn router_id true).
Proof.
  unfold agg_types. rewrite !elem_of_cons. intros [->|[->|H%elem_of_nil]] Ha Hr Hw; [..|done].
  - rewrite (Hw eq_refl). constructor; try done; cbn; unfold is_u8; lia.
  - constructor; try done; cbn; unfold is_u8; lia.
Qed.

Lemma agg_type_in : LIBBGP_PATTR_AGGREGATOR ∈ agg_types ∧ LIBBGP_PATTR_AS4_AGGREGATOR ∈ agg_types.
Proof. unfold agg_types. set_solver. Qed.

Definition agg_converts (w wa : bool) msg (r : libbgp_update_msg_t) : Prop :=
  edited w wa r ∧ agg_told r = agg_told msg ∧ same_but agg_types msg r.

Lemma wp_restore_agg w wa msg :
  edited w wa msg → wp (libbgp_update_restore_aggregator msg) (agg_converts w true msg) no_err.
Proof.
  intros He. unfold libbgp_update_restore_aggregator, agg_converts, agg_told. destruct agg_type_in as [Hin Hin4].
  assert (Hrep : ∀ a x y z, libbgp_update_find_attr msg LIBBGP_PATTR_AGGREGATOR = Some a →
    replace_attr msg (set_aggregator a x y z) = put_attr msg (set_aggregator a x y z) ∧
    pa_type (set_aggregator a x y z) = LIBBGP_PATTR_AGGREGATOR).
  { intros a x y z Hf. pose proof (find_attr_type _ _ _ Hf) as Ht. rewrite set_aggregator_type, Ht. split; [|done].
    apply replace_put. rewrite set_aggregator_type, Ht, Hf. eauto. }
  assert (Hdone : ∀ a asn router_id, pa_type a = LIBBGP_PATTR_AGGREGATOR → attr_form w true a →
    aggregator_of a = (asn, router_id, true) →
    let r := (update_remove_attr_type (put_attr msg a) LIBBGP_PATTR_AS4_AGGREGATOR).2 in
    edited w true r ∧ libbgp_update_find_attr r LIBBGP_PATTR_AS4_AGGREGATOR = None ∧
    libbgp_update_find_attr r LIBBGP_PATTR_AGGREGATOR = Some a ∧ same_but agg_types msg r).
  { intros a asn router_id Ht Hform Ha r.
    assert (He' : edited w true (put_attr msg a)).
    { eapply put_edited; [exact He|by rewrite Ht|exact Hform|by left|by right]. }
    split; [by apply remove_edited|]. split; [by eapply remove_find_same, as4_type_in|]. split.
    - unfold r. rewrite remove_find_other by done. by apply put_find_same.
    - etrans; [apply same_but_put; by rewrite Ht|by apply same_but_remove]. }
  destruct (libbgp_update_find_attr msg LIBBGP_PATTR_AGGREGATOR) as [a|] eqn:Hf,
    (libbgp_update_find_attr msg LIBBGP_PATTR_AS4_AGGREGATOR) as [q|] eqn:Hq.
  - destruct (edited_as4_agg_data _ _ _ _ He Hq) as (asn & rid & Hd & H1 & H2). unfold aggregator_of. rewrite Hd.
    destruct (Hrep a asn rid true eq_refl) as [-> Ht]. destruct (edited_find _ _ _ _ _ He Hf) as [Hform Hta].
    destruct (edited_agg_data _ _ _ _ He Hf) as (? & ? & Hda & _).
    apply wp_ret. destruct (Hdone (set_aggregator a asn rid true) asn rid) as (He' & -> & -> & Hs); [done|by eapply set_agg_form| |].
    { unfold aggregator_of, set_aggregator. cbn. by rewrite Hda. }
    split; [done|]. split; [|done]. unfold set_aggregator. cbn. by rewrite Hda.
  - destruct (edited_agg_data _ _ _ _ He Hf) as (asn & rid & Hd & H1 & H2). unfold aggregator_of at 1. rewrite Hd.
    destruct (Hrep a asn rid true eq_refl) as [-> Ht]. destruct (edited_find _ _ _ _ _ He Hf) as [Hform Hta].
    apply wp_ret. split; [|split].
    + eapply put_edited; [exact He|by rewrite Ht|eapply set_agg_form; [done|done|by eapply asn_ok_wide|done]|by left|by right].
    + rewrite put_find_other, Hq, put_find_same by (done || by rewrite Ht).
      unfold aggregator_of, set_aggregator. cbn. by rewrite Hd.
    + apply same_but_put. by rewrite Ht.
  - destruct (edited_as4_agg_data _ _ _ _ He Hq) as (asn & rid & Hd & H1 & H2). unfold aggregator_of. rewrite Hd.
    apply wp_bind, wp_bind, wp_alloc_or_nomem, wp_ret, wp_bind.
    eapply wp_mono; [apply wp_set_attr; [by eapply edited_coherent|unfold as4_types; set_solver|done]| |done]. intros r ->.
    apply wp_ret. destruct (Hdone (set_aggregator (pattr_set_defaults LIBBGP_PATTR_AGGREGATOR) asn rid true) asn rid)
      as (He' & -> & -> & Hs); [done|by apply new_agg_form|done|]. done.
  - apply wp_ret. split; [|by rewrite Hf, Hq]. eapply edited_agg; [exact He|]. rewrite find_attr_head in Hf.
    by destruct (attrs_of LIBBGP_PATTR_AGGREGATOR (upd_attrs msg)).
Qed.

Lemma wp_downgrade_agg w wa msg :
  edited w wa msg → (wa = true → libbgp_update_find_attr msg LIBBGP_PATTR_AS4_AGGREGATOR = None) →
  wp (libbgp_update_downgrade_aggregator msg) (agg_converts w false msg) no_err.
Proof.
  intros He H4. unfold libbgp_update_downgrade_aggregator, agg_converts, agg_told. destruct agg_type_in as [Hin Hin4].
  destruct (libbgp_update_find_attr msg LIBBGP_PATTR_AGGREGATOR) as [a|] eqn:Hf.
  2:{ apply wp_ret. split; [|by rewrite Hf]. eapply edited_agg; [exact He|]. rewrite find_attr_head in Hf.
      by destruct (attrs_of LIBBGP_PATTR_AGGREGATOR (upd_attrs msg)). }
  destruct (edited_agg_data _ _ _ _ He Hf) as (asn & rid & Hd & H1 & H2). destruct (edited_find _ _ _ _ _ He Hf) as [Hform Ht].
  unfold aggregator_of at 1. rewrite Hd. set (a' := set_aggregator a _ _ _).
  assert (Hta : pa_type a' = LIBBGP_PATTR_AGGREGATOR) by (unfold a'; by rewrite set_aggregator_type).
  assert (Hfa : attr_form w false a').
  { eapply set_agg_form; [done|done| |done]. unfold asn_ok, is_u16, is_u32, narrow_asn, LIBBGP_AS_TRANS in *.
    destruct wa; cbn in *; case_match; lia. }
  assert (Hda : aggregator_of a' = (narrow_asn asn, rid, false)) by (unfold aggregator_of, a', set_aggregator; cbn; by rewrite Hd).
  assert (Hrep : ∀ m, is_Some (libbgp_update_find_attr m LIBBGP_PATTR_AGGREGATOR) → replace_attr m a' = put_attr m a').
  { intros m Hm. apply replace_put. by rewrite Hta. }
  destruct wa; cbn [orb].
  - apply wp_bind, wp_bind, wp_bind, wp_alloc_or_nomem, wp_ret.
    eapply wp_mono; [apply wp_set_attr; [by eapply edited_coherent|unfold as4_types; set_solver|done]| |done]. intros r ->.
    set (q := set_aggregator _ asn rid true). apply wp_ret. rewrite Hrep by (rewrite put_find_other, Hf by done; eauto).
    split; [|split].
    + eapply put_edited; [eapply put_edited; [exact He|done|by apply new_agg_form|by left..]|by rewrite Hta|done|by left|by right].
    + rewrite put_find_other, put_find_same, H4 by (done || by rewrite Hta). unfold aggregator_of at 2. by rewrite Hd.
    + etrans; apply same_but_put; [done|by rewrite Hta].
  - assert (Hn : (65535 <? asn) = false) by (unfold asn_ok, is_u16 in H1; lia). rewrite Hn.
    apply wp_bind, wp_ret, wp_ret. rewrite Hrep by (rewrite Hf; eauto). split; [|split].
    + eapply put_edited; [exact He|by rewrite Hta|done|by left..].
    + rewrite put_find_other, (put_find_same _ a') by (done || by rewrite Hta). destruct (libbgp_update_find_attr msg LIBBGP_PATTR_AS4_AGGREGATOR); [done|].
      rewrite Hda. unfold aggregator_of, narrow_asn. by rewrite Hd, Hn.
    + apply same_but_put. by rewrite Hta.
Qed.
End Path.
