(* ===== verification/FsmPrepareSpec.v ===== *)
(** * UPDATEs for a peer: what is sent

    [fsm_prepared_update] as a whole: which message a peer is sent for an
    UPDATE with announcements. *)

From stdpp Require Import gmap.
From S2P Require Import Prelude Bytes Prefix4 Prefix6 Pattr PattrSpec Update UpdateSpec As4 As4Spec Fsm FsmChecks FsmPrepare FsmPath.

Section PrepareSpec.
Context {host : Host}.
Implicit Types (msg update copy : libbgp_update_msg_t) (a p q : libbgp_pattr_t) (policy : fsm_policy).

(** ** The message that is given *)

Definition path_segments update : list libbgp_as_path_segment_t :=
  from_option as_path_segments [] (libbgp_update_find_attr update LIBBGP_PATTR_AS_PATH).

(** The AS numbers the UPDATE tells. *)
Definition told_asns update : list Z := real_asns (path_asns (path_segments update)) (as4_asns update).

(** An UPDATE of a peer whose AS numbers have four octets iff [b], with
    announcements, and a policy that has a next hop for them. *)
Record forwardable (b : bool) policy update : Prop := {
  fw_wf : upd_wf b update;
  fw_announces : fsm_update_has_advertisements update = true;
  fw_next_hop4 : upd_nlri update ≠ [] → usable4 policy;
  fw_next_hop6 : existsb update_mp_reach_has_nlri (upd_attrs update) = true → usable6 policy;
  fw_agrees : as4_agrees (path_segments update) (as4_asns update);
  fw_four : b = true → libbgp_update_find_attr update LIBBGP_PATTR_AS4_PATH = None ∧
                       libbgp_update_find_attr update LIBBGP_PATTR_AS4_AGGREGATOR = None
}.

Definition announce_types : list libbgp_pattr_type_t := [LIBBGP_PATTR_NEXT_HOP; LIBBGP_PATTR_MP_REACH_IPV6].

(** What is sent for it. *)
Record forwarded policy (local_asn : Z) (use_4b_asn is_ibgp : bool) update copy : Prop := {
  fo_withdrawn : upd_withdrawn copy = upd_withdrawn update;
  fo_nlri : upd_nlri copy = upd_nlri update;
  fo_width : ∃ p, libbgp_update_find_attr copy LIBBGP_PATTR_AS_PATH = Some p ∧ as_path_is_4b p = use_4b_asn;
  fo_path : ∃ msg p, libbgp_update_restore_as_path copy [] = (Ret msg, []) ∧
    libbgp_update_find_attr msg LIBBGP_PATTR_AS_PATH = Some p ∧
    path_asns (as_path_segments p) = if is_ibgp then told_asns update else local_asn :: told_asns update;
  fo_aggregator : agg_told copy = agg_told update;
  fo_next_hop : upd_nlri update ≠ [] → ∃ old v new,
    libbgp_update_find_attr update LIBBGP_PATTR_NEXT_HOP = Some old ∧ pa_data old = d_next_hop v ∧
    libbgp_update_find_attr copy LIBBGP_PATTR_NEXT_HOP = Some new ∧
    pa_data new = d_next_hop (next_hop_sent policy is_ibgp v);
  fo_mp_reach : attrs_of LIBBGP_PATTR_MP_REACH_IPV6 (upd_attrs copy) =
    mp_sent policy is_ibgp <$> (pattr_norm <$> attrs_of LIBBGP_PATTR_MP_REACH_IPV6 (upd_attrs update));
  fo_med : libbgp_update_find_attr copy LIBBGP_PATTR_MED = None;
  fo_local_pref : is_ibgp = false → libbgp_update_find_attr copy LIBBGP_PATTR_LOCAL_PREF = None;
  fo_others : ∀ T, T ∉ path_types → T ∉ agg_types → T ∉ announce_types →
    attrs_of T (upd_attrs copy) = omap (kept_attr is_ibgp) (pattr_norm <$> attrs_of T (upd_attrs update));
  fo_parsed : zlen (attrs_enc (upd_attrs copy)) <= 65535 → upd_wf use_4b_asn copy
}.

(** ** The copy and what is kept of it *)

Lemma attrs_of_norm T attrs : attrs_of T (pattr_norm <$> attrs) = pattr_norm <$> attrs_of T attrs.
Proof.
  induction attrs as [|a attrs IH]; [done|]. rewrite attrs_of_cons. cbn [fmap list_fmap]. rewrite attrs_of_cons, IH.
  change (pa_type (pattr_norm a)) with (pa_type a). by case_decide.
Qed.

Lemma norm_announces update : fsm_update_has_advertisements (upd_norm update) = fsm_update_has_advertisements update.
Proof.
  unfold fsm_update_has_advertisements, upd_norm. cbn [upd_nlri upd_attrs with_attrs]. case_match; [done|].
  by rewrite existsb_fmap_ext.
Qed.

(** The attributes after the first edit. *)
Definition first_copy (is_ibgp : bool) update : libbgp_update_msg_t :=
  fsm_update_prepare_forward_attrs (upd_norm update) is_ibgp.

Lemma first_attrs b is_ibgp update T :
  upd_wf b update →
  attrs_of T (upd_attrs (first_copy is_ibgp update)) =
  omap (kept_attr is_ibgp) (pattr_norm <$> attrs_of T (upd_attrs update)).
Proof.
  intros Hwf. unfold first_copy. rewrite (prepare_attrs b b) by by apply norm_edited.
  rewrite attrs_of_omap. unfold upd_norm. cbn [upd_attrs with_attrs]. by rewrite attrs_of_norm.
Qed.

(** Attributes of a transitive type are all kept, with their data. *)
Lemma first_transitive b is_ibgp update T :
  upd_wf b update → T ≠ LIBBGP_PATTR_LOCAL_PREF →
  Z.land (pattr_default_flags T) LIBBGP_PATTR_FLAG_TRANSITIVE ≠ 0 →
  attrs_of T (upd_attrs (first_copy is_ibgp update)) = (λ a, marked is_ibgp (pattr_norm a)) <$> attrs_of T (upd_attrs update).
Proof.
  intros Hwf HT Htr. rewrite (first_attrs b) by done.
  assert (Hall : Forall (λ a, pattr_wf b a ∧ pa_type a = T) (attrs_of T (upd_attrs update))).
  { apply Forall_forall. intros a [Ht Ha]%list_elem_of_filter. split; [|done].
    destruct Hwf as (_ & _ & _ & Hf). rewrite Forall_forall in Hf. auto. }
  induction Hall as [|a attrs [Ha Ht] _ IH]; [done|]. cbn [fmap list_fmap omap list_omap]. unfold kept_attr at 1.
  rewrite (keeps_transitive b b).
  - by rewrite IH.
  - by apply norm_form.
  - change (pa_type (pattr_norm a)) with (pa_type a). by rewrite Ht.
  - change (pa_type (pattr_norm a)) with (pa_type a). by rewrite Ht.
Qed.

Lemma first_find b is_ibgp update T :
  upd_wf b update → T ≠ LIBBGP_PATTR_LOCAL_PREF →
  Z.land (pattr_default_flags T) LIBBGP_PATTR_FLAG_TRANSITIVE ≠ 0 →
  libbgp_update_find_attr (first_copy is_ibgp update) T =
  (λ a, marked is_ibgp (pattr_norm a)) <$> libbgp_update_find_attr update T.
Proof.
  intros Hwf HT Htr. rewrite !find_attr_head, (first_transitive b) by done. by destruct (attrs_of T (upd_attrs update)).
Qed.

Lemma first_data is_ibgp a : pa_data (marked is_ibgp (pattr_norm a)) = pa_data a.
Proof. by rewrite (proj2 (proj2 (marked_type is_ibgp (pattr_norm a)))). Qed.

(** The mandatory attributes of a message with announcements. *)
Lemma has_type_find T attrs w n : has_type T attrs = true ↔ is_Some (libbgp_update_find_attr (UpdateMsg w attrs n) T).
Proof.
  rewrite find_attr_head. cbn [upd_attrs]. unfold has_type. rewrite existsb_exists. split.
  - intros (a & Ha%list_elem_of_In & Ht%bool_decide_eq_true). destruct (attrs_of T attrs) as [|c l] eqn:He; [|by exists c].
    by apply (filter_nil_not_elem_of (λ a', pa_type a' = T) _ a He) in Ht.
  - intros [a Ha%head_Some_elem_of]. apply list_elem_of_filter in Ha as [Ht Ha]. exists a.
    split; [by apply list_elem_of_In|by apply bool_decide_eq_true].
Qed.

Lemma announces_mandatory b update :
  upd_wf b update → fsm_update_has_advertisements update = true →
  is_Some (libbgp_update_find_attr update LIBBGP_PATTR_ORIGIN) ∧
  is_Some (libbgp_update_find_attr update LIBBGP_PATTR_AS_PATH) ∧
  (upd_nlri update ≠ [] → is_Some (libbgp_update_find_attr update LIBBGP_PATTR_NEXT_HOP)).
Proof.
  intros ((_ & _ & _ & (_ & _ & Hm) & _) & _) Hadv. destruct update as [w attrs n]. unfold mandatory_ok in Hm.
  unfold fsm_update_has_advertisements in Hadv. cbn [upd_nlri upd_attrs] in *. rewrite <-!has_type_find.
  apply andb_true_iff in Hm as [Hm1 Hm2]. destruct n as [|x n]; cbn [length] in *.
  - change (existsb update_mp_reach_has_nlri attrs = true) in Hadv. rewrite Hadv in Hm2. cbn [negb orb] in Hm2. apply andb_true_iff in Hm2 as [? ?]. by split_and!.
  - replace (Z.of_nat (S (length n)) =? 0) with false in Hm1 by lia. cbn [orb] in Hm1.
    apply andb_true_iff in Hm1 as [[? ?]%andb_true_iff ?]. by split_and!.
Qed.

(** ** The next hops *)

Lemma mp_sent_other policy is_ibgp a : pa_type a ≠ LIBBGP_PATTR_MP_REACH_IPV6 → mp_sent policy is_ibgp a = a.
Proof. unfold mp_sent, pa_type. by destruct (pa_data a). Qed.

Lemma same_but_mp_sent policy is_ibgp msg :
  same_but announce_types msg (with_attrs msg (mp_sent policy is_ibgp <$> upd_attrs msg)).
Proof.
  constructor; [done..|]. intros T HT. cbn [upd_attrs with_attrs]. rewrite attrs_of_mp_sent.
  rewrite <-(list_fmap_id (attrs_of T (upd_attrs msg))) at 2. apply list_fmap_ext. intros i a Ha. apply mp_sent_other.
  apply list_elem_of_lookup_2, list_elem_of_filter in Ha as [Ht _]. unfold id. rewrite Ht. unfold announce_types in HT. set_solver.
Qed.

(** The message after both next hops have been set. *)
Record announced policy (is_ibgp : bool) update msg : Prop := {
  an_same : same_but announce_types (first_copy is_ibgp update) msg;
  an_next_hop : upd_nlri update ≠ [] → ∃ old v new,
    libbgp_update_find_attr update LIBBGP_PATTR_NEXT_HOP = Some old ∧ pa_data old = d_next_hop v ∧
    libbgp_update_find_attr msg LIBBGP_PATTR_NEXT_HOP = Some new ∧
    pa_data new = d_next_hop (next_hop_sent policy is_ibgp v);
  an_mp_reach : attrs_of LIBBGP_PATTR_MP_REACH_IPV6 (upd_attrs msg) =
    mp_sent policy is_ibgp <$> (pattr_norm <$> attrs_of LIBBGP_PATTR_MP_REACH_IPV6 (upd_attrs update))
}.

Lemma first_mp_reach b is_ibgp update :
  upd_wf b update →
  attrs_of LIBBGP_PATTR_MP_REACH_IPV6 (upd_attrs (first_copy is_ibgp update)) =
  pattr_norm <$> attrs_of LIBBGP_PATTR_MP_REACH_IPV6 (upd_attrs update).
Proof.
  intros Hwf. rewrite (first_attrs b) by done.
  assert (Hall : Forall (λ a, pa_type a = LIBBGP_PATTR_MP_REACH_IPV6) (pattr_norm <$> attrs_of LIBBGP_PATTR_MP_REACH_IPV6 (upd_attrs update))).
  { apply Forall_fmap, Forall_forall. by intros a [Ht _]%list_elem_of_filter. }
  induction Hall as [|a attrs Ht _ IH]; [done|]. cbn [omap list_omap]. unfold kept_attr at 1.
  replace (forward_keeps is_ibgp a) with true by (unfold forward_keeps; rewrite Ht; cbn; by rewrite orb_true_r, andb_false_r).
  rewrite IH. f_equal. unfold marked, libbgp_pattr_prepare_for_ebgp_forward. rewrite Ht. by destruct is_ibgp.
Qed.

(** The same announcements are there whatever was dropped. *)
Lemma mp_nlri_attrs attrs :
  existsb update_mp_reach_has_nlri attrs = existsb update_mp_reach_has_nlri (attrs_of LIBBGP_PATTR_MP_REACH_IPV6 attrs).
Proof.
  induction attrs as [|a attrs IH]; [done|]. rewrite attrs_of_cons. cbn [existsb]. rewrite IH. case_decide as Ht; [done|].
  unfold pa_type in Ht. unfold update_mp_reach_has_nlri at 1. by destruct (pa_data a).
Qed.

Lemma norm_mp_nlri attrs : existsb update_mp_reach_has_nlri (pattr_norm <$> attrs) = existsb update_mp_reach_has_nlri attrs.
Proof. by rewrite existsb_fmap_ext. Qed.

Lemma wp_announce b policy update is_ibgp :
  forwardable b policy update →
  wp (copy ← fsm_alter_nexthop4 (first_copy is_ibgp update) (po_peering_lan4 policy) (po_default_nexthop4 policy)
        (po_force_default_nexthop4 policy) is_ibgp (po_ibgp_alter_nexthop policy);
      fsm_alter_nexthop6 copy (po_peering_lan6 policy) (po_default_nexthop6 policy)
        (po_default_nexthop6_linklocal policy) (po_force_default_nexthop6 policy) is_ibgp (po_ibgp_alter_nexthop policy))
     (λ r, edited b b r ∧ announced policy is_ibgp update r) no_err.
Proof.
  intros [Hwf Hadv H4 H6 _ _]. set (m1 := first_copy is_ibgp update).
  assert (He1 : edited b b m1) by (by apply prepare_edited, norm_edited).
  assert (Hn : upd_nlri m1 = upd_nlri update) by done.
  assert (Hsix : ∀ m2, same_but [LIBBGP_PATTR_NEXT_HOP] m1 m2 → edited b b m2 →
    wp (fsm_alter_nexthop6 m2 (po_peering_lan6 policy) (po_default_nexthop6 policy)
        (po_default_nexthop6_linklocal policy) (po_force_default_nexthop6 policy) is_ibgp (po_ibgp_alter_nexthop policy))
     (λ r, edited b b r ∧ r = with_attrs m2 (mp_sent policy is_ibgp <$> upd_attrs m2) ∧
       same_but announce_types m1 r ∧ attrs_of LIBBGP_PATTR_MP_REACH_IPV6 (upd_attrs r) =
       mp_sent policy is_ibgp <$> (pattr_norm <$> attrs_of LIBBGP_PATTR_MP_REACH_IPV6 (upd_attrs update))) no_err).
  { intros m2 Hs2 He2.
    assert (Hmp2 : attrs_of LIBBGP_PATTR_MP_REACH_IPV6 (upd_attrs m2) =
      pattr_norm <$> attrs_of LIBBGP_PATTR_MP_REACH_IPV6 (upd_attrs update)).
    { rewrite (sb_attrs _ _ _ Hs2) by set_solver. by apply (first_mp_reach b). }
    assert (Hus : existsb update_mp_reach_has_nlri (upd_attrs m2) = true → usable6 policy).
    { rewrite mp_nlri_attrs, Hmp2, norm_mp_nlri, <-mp_nlri_attrs. exact H6. }
    eapply wp_mono; [by apply (wp_alter6 b b)| |done]. intros r ->. split; [by apply mp_sent_edited|]. split; [done|]. split.
    - etrans; [|apply same_but_mp_sent]. destruct Hs2 as [Hsw Hsn Hsa]. constructor; [done..|]. intros T HT. apply Hsa.
      unfold announce_types in HT. set_solver.
    - cbn [upd_attrs with_attrs]. by rewrite attrs_of_mp_sent, Hmp2. }
  destruct (decide (upd_nlri update = [])) as [Hnil|Hne].
  - apply wp_bind. unfold fsm_alter_nexthop4. rewrite Hn, Hnil. apply wp_ret.
    eapply wp_mono; [apply (Hsix m1); [reflexivity|done]| |done]. intros r (He & _ & Hs & Hmp). split; [done|]. by constructor.
  - destruct (announces_mandatory b update Hwf Hadv) as (_ & _ & Hnh). destruct (Hnh Hne) as [old Hold]. clear Hnh.
    pose proof (first_find b is_ibgp update LIBBGP_PATTR_NEXT_HOP Hwf ltac:(done) ltac:(done)) as Hf1. rewrite Hold in Hf1.
    cbn [fmap option_fmap option_map] in Hf1. fold m1 in Hf1. set (a1 := marked is_ibgp (pattr_norm old)) in *.
    assert (∃ v, pa_data old = d_next_hop v) as [v Hv].
    { apply find_attr_type in Hold. unfold pa_type in Hold. destruct (pa_data old); try done. by eexists. }
    assert (Hv1 : pa_data a1 = d_next_hop v) by (unfold a1; by rewrite first_data).
    destruct (edited_find _ _ _ _ _ He1 Hf1) as [Hform1 Ht1]. specialize (H4 Hne).
    apply wp_bind. eapply wp_mono; [by apply (wp_alter4 policy is_ibgp m1 a1 v)| |done]. intros m2 ->.
    set (new := with_data a1 _). assert (Htn : pa_type new = LIBBGP_PATTR_NEXT_HOP) by done.
    eapply wp_mono; [apply Hsix| |done].
    + apply same_but_put. rewrite Htn. set_solver.
    + eapply put_edited; [exact He1|by rewrite Htn| |by left..]. apply next_hop_form; [done|done|].
      unfold next_hop_sent. destruct Hform1 as [_ _ _ _ _ Hd _]. rewrite Hv1 in Hd. destruct H4 as [? _]. by repeat case_match.
    + intros r (He & Hr & Hs & Hmp). split; [done|]. constructor; [done| |done]. intros _. exists old, v, new.
      split_and!; [done|done| |done]. rewrite Hr, find_attr_head. cbn [upd_attrs with_attrs]. rewrite attrs_of_mp_sent, attrs_of_put, Htn.
      rewrite decide_True by done. cbn [fmap list_fmap head]. by rewrite mp_sent_other.
Qed.

(** ** A message the peer's parser accepts *)

Lemma wp_validate_good w segs total :
  Forall (seg_ok w) segs → 0 <= total → total + 255 * zlen segs <= 2 ^ 60 →
  wp (validate_segments (negb w) segs total) (λ _, True) no_err.
Proof.
  intros H. revert total. induction H as [|seg segs (Ht & Hl & Ha) _ IH]; intros total H0 Hb; [by apply wp_ret|].
  cbn [validate_segments length] in *. apply wp_bind, wp_fail_never; [lia|].
  apply wp_bind, wp_fail_never; [unfold SIZE_MAX; lia|]. apply wp_bind, wp_fail_never; [|by apply IH; lia].
  destruct w; [done|]. apply not_true_is_false. cbn [negb andb]. intros (n & Hn & Hw)%existsb_exists.
  rewrite Forall_forall in Ha. apply list_elem_of_In, Ha in Hn. unfold asn_ok, is_u16 in Hn. lia.
Qed.

Lemma attr_enc_bound attrs a : a ∈ attrs → zlen (value_enc (pa_data a)) <= zlen (attrs_enc attrs).
Proof.
  induction 1 as [a attrs|a c attrs _ IH]; unfold attrs_enc in *; cbn [fmap list_fmap concat]; rewrite length_app; [|lia].
  unfold pattr_enc. rewrite !length_app. lia.
Qed.

Lemma form_good_path w wa a :
  attr_form w wa a → zlen (value_enc (pa_data a)) <= 65535 → bad_path a = false.
Proof.
  intros Hform Hl. pose proof (af_data _ _ _ Hform) as Hd. unfold bad_path, pa_type, path_data_bad, update_validate_as_path_data in *.
  destruct (pa_data a) as [|segs is_4b| | | | | | |segs is_4b| | | |]; try done; cbn [is_path_type andb value_enc data_ok] in *;
    pose proof (segs_count is_4b segs) as Hc.
  - destruct (wp_run_ret _ _ (wp_validate_good is_4b segs 0 Hd ltac:(lia) ltac:(lia))) as (r & -> & _). done.
  - destruct Hd as [-> Hd]. destruct (wp_run_ret _ _ (wp_validate_good true segs 0 Hd ltac:(lia) ltac:(lia))) as (r & Hr & _).
    cbn [negb fail_if] in *. unfold mbind, M_bind. cbn. by rewrite Hr.
Qed.

(** The prefixes of a message as a parser accepts them. *)
Definition prefixes_wf msg : Prop :=
  (Forall p4_wf (upd_withdrawn msg) ∧ Forall p4_wf (upd_nlri msg)) ∧
  (Forall (λ x, p4_normalize x = x) (upd_withdrawn msg) ∧ Forall (λ x, p4_normalize x = x) (upd_nlri msg)) ∧
  zlen (prefixes4_enc (upd_withdrawn msg)) <= 65535 ∧ zlen (prefixes4_enc (upd_nlri msg)) <= 2 ^ 32.

Lemma upd_wf_prefixes b update : upd_wf b update → prefixes_wf update.
Proof. intros ((Hw & Hn & _ & _ & Hlw & _ & Hln) & Hnw & Hnn & _). by split. Qed.

Lemma edited_wf w copy :
  edited w w copy → prefixes_wf copy →
  is_Some (libbgp_update_find_attr copy LIBBGP_PATTR_ORIGIN) →
  is_Some (libbgp_update_find_attr copy LIBBGP_PATTR_AS_PATH) →
  (upd_nlri copy ≠ [] → is_Some (libbgp_update_find_attr copy LIBBGP_PATTR_NEXT_HOP)) →
  zlen (attrs_enc (upd_attrs copy)) <= 65535 → upd_wf w copy.
Proof.
  intros [Hnd Hf] ((Hw & Hn) & (Hnw & Hnn) & Hlw & Hln) Ho Hp Hh Hl.
  assert (Hwf : Forall (pattr_wf w) (upd_attrs copy)).
  { rewrite Forall_forall in *. intros a Ha. apply attr_form_wf. split; [by apply Hf|].
    pose proof (attr_enc_bound _ _ Ha). lia. }
  split; [|done]. split_and!; try done.
  - eapply Forall_impl; [exact Hwf|]. by intros a [? _].
  - split; [done|]. split.
    + rewrite Forall_forall in *. intros a Ha. eapply form_good_path; [by apply Hf|]. pose proof (attr_enc_bound _ _ Ha). lia.
    + destruct copy as [cw attrs cn]. unfold mandatory_ok. cbn [upd_attrs upd_nlri] in *.
      apply has_type_find in Ho, Hp. rewrite Ho, Hp. cbn [andb]. rewrite orb_true_r, andb_true_r.
      destruct cn; [done|]. apply orb_true_iff. right. apply (has_type_find _ _ cw (l :: cn)). by apply Hh.
Qed.

(** ** The AS numbers *)

Lemma wf_segs_bound b update T p :
  upd_wf b update → libbgp_update_find_attr update T = Some p → zlen (as_path_segments p) <= 65535.
Proof.
  intros (_ & _ & _ & Hf) [Ha _]%elem_find. rewrite Forall_forall in Hf. destruct (Hf p Ha) as ((_ & _ & _ & _ & _ & Hl) & _).
  unfold as_path_segments. destruct (pa_data p) as [|segs is_4b| | | | | | |segs is_4b| | | |]; cbn [value_enc length] in *; try lia;
    pose proof (segs_count is_4b segs); lia.
Qed.

Lemma announced_find b policy is_ibgp update msg T :
  upd_wf b update → announced policy is_ibgp update msg → T ∉ announce_types → T ≠ LIBBGP_PATTR_LOCAL_PREF →
  Z.land (pattr_default_flags T) LIBBGP_PATTR_FLAG_TRANSITIVE ≠ 0 →
  libbgp_update_find_attr msg T = (λ a, marked is_ibgp (pattr_norm a)) <$> libbgp_update_find_attr update T.
Proof. intros Hwf Han HT HT' Htr. rewrite (same_but_find _ _ _ _ (an_same _ _ _ _ Han) HT). by apply (first_find b). Qed.

Lemma announced_told b policy is_ibgp update msg :
  forwardable b policy update → announced policy is_ibgp update msg →
  (∃ p, told_path (2 ^ 20) b msg (told_asns update) p ∧ as_path_segments p = path_segments update) ∧
  agg_told msg = agg_told update.
Proof.
  intros Hfw Han. pose proof Hfw as [Hwf Hadv _ _ Hag H4].
  assert (Hfind : ∀ T, T ∈ as4_types → libbgp_update_find_attr msg T = (λ a, marked is_ibgp (pattr_norm a)) <$> libbgp_update_find_attr update T).
  { intros T HT. unfold as4_types in HT. rewrite !elem_of_cons in HT.
    destruct HT as [->|[->|[->|[->|HT%elem_of_nil]]]]; [..|done]; apply (announced_find b policy); try done;
      unfold announce_types; set_solver. }
  destruct as4_type_in as (Hi1 & Hi2 & Hi3 & Hi4). split.
  - destruct (announces_mandatory b update Hwf Hadv) as (_ & [p Hp] & _). pose proof (Hfind _ Hi1) as Hf. rewrite Hp in Hf.
    cbn [fmap option_fmap option_map] in Hf. set (p' := marked is_ibgp (pattr_norm p)) in *.
    assert (Hs : as_path_segments p' = as_path_segments p) by (unfold as_path_segments, p'; by rewrite first_data).
    assert (H4' : as4_asns msg = as4_asns update).
    { unfold as4_asns. rewrite (Hfind _ Hi2). destruct (libbgp_update_find_attr update LIBBGP_PATTR_AS4_PATH) as [q|]; [|done].
      cbn. unfold as_path_segments. by rewrite first_data. }
    unfold path_segments, told_asns, path_segments in *. rewrite Hp in *. cbn [from_option] in *. exists p'. split; [|done].
    pose proof (wf_segs_bound _ _ _ _ Hwf Hp). constructor; rewrite ?Hs, ?H4'; try done; [lia| |].
    + intros q Hq. rewrite (Hfind _ Hi2) in Hq. destruct (libbgp_update_find_attr update LIBBGP_PATTR_AS4_PATH) as [q0|] eqn:Hq0; [|done].
      injection Hq as <-. unfold as_path_segments. rewrite first_data. pose proof (wf_segs_bound _ _ _ _ Hwf Hq0) as Hb.
      unfold as_path_segments in Hb. lia.
    + intros Hb. rewrite (Hfind _ Hi2). by rewrite (proj1 (H4 Hb)).
  - unfold agg_told. rewrite (Hfind _ Hi3), (Hfind _ Hi4).
    destruct (libbgp_update_find_attr update LIBBGP_PATTR_AS4_AGGREGATOR), (libbgp_update_find_attr update LIBBGP_PATTR_AGGREGATOR);
      cbn [fmap option_fmap option_map]; unfold aggregator_of; by rewrite ?first_data.
Qed.

Lemma wp_convert b policy update is_ibgp (use_4b_asn : bool) msg :
  forwardable b policy update → edited b b msg → announced policy is_ibgp update msg →
  wp (copy ← (if use_4b_asn then libbgp_update_restore_as_path msg else libbgp_update_downgrade_as_path msg);
      if use_4b_asn then libbgp_update_restore_aggregator copy else libbgp_update_downgrade_aggregator copy)
     (λ r, edited use_4b_asn use_4b_asn r ∧ tells (2 ^ 21) use_4b_asn r (told_asns update) ∧
           agg_told r = agg_told update ∧ same_but (path_types ++ agg_types) msg r)
     (λ e, e = LIBBGP_ERR_INVALID ∧ b = true ∧ use_4b_asn = false ∧ unshadowable (path_segments update) = true).
Proof.
  intros Hfw He Han. destruct (announced_told _ _ _ _ _ Hfw Han) as [(p & Htold & Hsegs) Hagg].
  apply wp_bind. eapply (wp_mono _ (converts use_4b_asn b msg (told_asns update)) _
    (λ e, e = LIBBGP_ERR_INVALID ∧ b = true ∧ use_4b_asn = false ∧ unshadowable (path_segments update) = true)); [| |done].
  { destruct use_4b_asn.
    - eapply wp_mono; [eapply wp_restore_told; [exact He|by exists p]|done|done].
    - eapply wp_mono; [by eapply wp_downgrade_told|done|]. intros e (-> & -> & Hu). rewrite Hsegs in Hu. done. }
  intros m4 (He4 & Ht4 & Hs4).
  assert (Hagg4 : agg_told m4 = agg_told msg).
  { unfold agg_told. rewrite !(same_but_find _ _ _ _ Hs4) by (unfold path_types; set_solver). done. }
  eapply (wp_mono _ (agg_converts use_4b_asn use_4b_asn m4) _ no_err); [| |done].
  - destruct use_4b_asn; [by eapply wp_restore_agg|]. eapply wp_downgrade_agg; [exact He4|]. intros Hb.
    rewrite (same_but_find _ _ _ _ Hs4) by (unfold path_types; set_solver).
    rewrite (announced_find b policy is_ibgp update msg); try done; [|apply Hfw|unfold announce_types; set_solver].
    by rewrite (proj2 (fw_four _ _ _ Hfw Hb)).
  - intros m5 (He5 & Hagg5 & Hs5). split; [done|]. split; [by eapply told_same|]. split; [congruence|].
    destruct Hs4 as [W4 N4 A4], Hs5 as [W5 N5 A5]. constructor; [congruence..|]. intros T HT.
    rewrite A5, A4 by set_solver. done.
Qed.

Lemma first_dropped b is_ibgp update T :
  upd_wf b update →
  (∀ a, attr_form b b a → pa_type a = T → forward_keeps is_ibgp a = false) →
  attrs_of T (upd_attrs (first_copy is_ibgp update)) = [].
Proof.
  intros Hwf Hno. rewrite (first_attrs b) by done.
  assert (Hall : Forall (λ a, attr_form b b a ∧ pa_type a = T) (pattr_norm <$> attrs_of T (upd_attrs update))).
  { apply Forall_fmap, Forall_forall. intros a [Ht Ha]%list_elem_of_filter. split; [|done].
    destruct Hwf as (_ & _ & _ & Hf). rewrite Forall_forall in Hf. by apply norm_form, Hf. }
  induction Hall as [|a attrs [Ha Ht] _ IH]; [done|]. cbn [omap list_omap]. unfold kept_attr at 1. by rewrite (Hno a Ha Ht).
Qed.

Lemma drops_med w wa is_ibgp a : attr_form w wa a → pa_type a = LIBBGP_PATTR_MED → forward_keeps is_ibgp a = false.
Proof.
  intros [Hf _ Hv _ _ _ _] Ht. pose proof (flags_forall (λ _ f, negb (pattr_known_flags_valid LIBBGP_PATTR_MED f) ||
    (Z.land f LIBBGP_PATTR_FLAG_TRANSITIVE =? 0)) ltac:(by vm_compute) LIBBGP_PATTR_MED _ Hf) as Hall.
  cbv beta in Hall. rewrite Ht in Hv. rewrite Hv in Hall. cbn [negb orb] in Hall. unfold forward_keeps. rewrite Ht, Hall. by destruct is_ibgp.
Qed.

Lemma wp_prepared b policy update local_asn use_4b_asn is_ibgp :
  forwardable b policy update → is_u32 local_asn →
  wp (fsm_prepared_update update local_asn use_4b_asn is_ibgp policy)
     (forwarded policy local_asn use_4b_asn is_ibgp update)
     (λ e, e = LIBBGP_ERR_BUFFER ∧ forallb fits (upd_attrs update) = false ∨
           e = LIBBGP_ERR_INVALID ∧ b = true ∧ use_4b_asn = false ∧ unshadowable (path_segments update) = true).
Proof.
  intros Hfw Hasn. pose proof Hfw as [Hwf Hadv _ _ _ _]. unfold fsm_prepared_update.
  apply wp_bind. eapply wp_mono; [by eapply wp_clone_update| |intros e [-> ?]; by left]. intros copy [-> _].
  rewrite norm_announces, Hadv. change (fsm_update_prepare_forward_attrs (upd_norm update) is_ibgp) with (first_copy is_ibgp update).
  apply wp_bind_assoc. eapply wp_mono; [by eapply wp_announce| |done]. intros m3 [He3 Han].
  apply wp_bind_assoc. eapply wp_mono; [by eapply wp_convert| |intros e ?; by right]. intros m5 (He5 & Ht5 & Hagg5 & Hs5).
  eapply (wp_mono _ (λ r, edited use_4b_asn use_4b_asn r ∧
    tells (2 ^ 23) use_4b_asn r (if is_ibgp then told_asns update else local_asn :: told_asns update) ∧
    same_but path_types m5 r) _ no_err); [| |done].
  { destruct is_ibgp; [|by apply wp_prepend_told]. apply wp_ret. split; [done|]. split; [|reflexivity].
    destruct Ht5 as (p & []). exists p. constructor; try done; [lia|]. intros q Hq. specialize (tp_as4_bound q Hq). lia. }
  intros copy (He & Ht & Hs). clear He3 Ht5 He5.
  assert (Hall : ∀ T, T ∉ path_types → T ∉ agg_types → attrs_of T (upd_attrs copy) = attrs_of T (upd_attrs m3)).
  { intros T H1 H2. rewrite (sb_attrs _ _ _ Hs), (sb_attrs _ _ _ Hs5) by set_solver. done. }
  assert (Hfirst : ∀ T, T ∉ path_types → T ∉ agg_types → T ∉ announce_types →
    attrs_of T (upd_attrs copy) = attrs_of T (upd_attrs (first_copy is_ibgp update))).
  { intros T H1 H2 H3. rewrite Hall by done. by apply (an_same _ _ _ _ Han). }
  assert (Hw : upd_withdrawn copy = upd_withdrawn update).
  { rewrite (sb_withdrawn _ _ _ Hs), (sb_withdrawn _ _ _ Hs5), (sb_withdrawn _ _ _ (an_same _ _ _ _ Han)). done. }
  assert (Hn : upd_nlri copy = upd_nlri update).
  { rewrite (sb_nlri _ _ _ Hs), (sb_nlri _ _ _ Hs5), (sb_nlri _ _ _ (an_same _ _ _ _ Han)). done. }
  assert (Hfh : libbgp_update_find_attr copy LIBBGP_PATTR_NEXT_HOP = libbgp_update_find_attr m3 LIBBGP_PATTR_NEXT_HOP).
  { rewrite !find_attr_head, Hall; [done|unfold path_types; set_solver|unfold agg_types; set_solver]. }
  pose proof Ht as (p & Htp). pose proof (tp_find _ _ _ _ _ Htp) as Hp.
  destruct (announces_mandatory b update Hwf Hadv) as (Ho & _ & _).
  constructor; try done.
  - exists p. split; [done|]. apply (edited_path _ _ _ _ He Hp).
  - eapply told_restores; [exact He|exact Ht|lia].
  - rewrite <-Hagg5. unfold agg_told. by rewrite !(same_but_find _ _ _ _ Hs) by (unfold path_types; set_solver).
  - intros Hne. destruct (an_next_hop _ _ _ _ Han Hne) as (old & v & new & ? & ? & ? & ?). exists old, v, new. by rewrite Hfh.
  - rewrite Hall by (unfold path_types, agg_types; set_solver). apply (an_mp_reach _ _ _ _ Han).
  - rewrite find_attr_head, Hfirst by (unfold path_types, agg_types, announce_types; set_solver).
    rewrite (first_dropped b); [done|done|]. intros a. apply drops_med.
  - intros ->. rewrite find_attr_head, Hfirst by (unfold path_types, agg_types, announce_types; set_solver).
    rewrite (first_dropped b); [done|done|]. intros a _ Hl. unfold forward_keeps. by rewrite Hl.
  - intros T H1 H2 H3. rewrite Hfirst by done. by apply (first_attrs b).
  - intros Hl. eapply edited_wf; try done.
    + unfold prefixes_wf. rewrite Hw, Hn. by apply (upd_wf_prefixes b).
    + rewrite find_attr_head, Hfirst, <-find_attr_head by (unfold path_types, agg_types, announce_types; set_solver).
      rewrite (first_find b) by done. by apply fmap_is_Some.
    + rewrite Hn. intros Hne. destruct (an_next_hop _ _ _ _ Han Hne) as (old & v & new & _ & _ & Hnew & _). rewrite Hfh. by exists new.
Qed.
End PrepareSpec.
