(* ===== verification/FsmAnnounce.v ===== *)
(** * The session: routes it announces

    From the event that says that a route was added to the bytes the peer is
    sent, for IPv4: the UPDATE of the event is cut down to the one prefix,
    edited for the peer and sent. *)

From stdpp Require Import gmap.
From S2P Require Import Prelude Bytes Prefix4 Prefix6 Open Notification Pattr PattrSpec Update UpdateSpec As4 As4Spec Packet PacketSpec Filter FilterSpec Event Hashmap Rib RibTable Rib46 Fsm FsmUpdate FsmChecks Out Proc ProcSpec FsmSession FsmForward FsmHandlers FsmObject FsmSample FsmRun FsmOpen FsmHandshake FsmPrepare FsmPath FsmPrepareSpec.

Section Announce.
Context {host : Host}.
Implicit Types (update copy : libbgp_update_msg_t) (a : libbgp_pattr_t) (policy : fsm_policy).

(** ** The UPDATE of one prefix *)

Definition only_route update (prefix : libbgp_prefix4_t) : libbgp_update_msg_t :=
  UpdateMsg [] (filter (λ a, fsm_ipv4_route_attr a = true) (upd_attrs update)) [prefix].

Lemma wp_add_route_attrs (keep : libbgp_pattr_t -> bool) attrs update :
  NoDup (pa_type_code <$> upd_attrs update ++ attrs) → zlen (upd_attrs update) + zlen attrs <= 2 ^ 40 →
  wp (add_route_attrs keep attrs update)
     (λ r, r = with_attrs update (upd_attrs update ++ filter (λ a, keep a = true) attrs)) no_err.
Proof.
  revert update. induction attrs as [|a attrs IH]; intros update Hnd Hlen; cbn [add_route_attrs].
  { apply wp_ret. rewrite app_nil_r. by destruct update. }
  cbn [length] in Hlen. rewrite filter_cons. destruct (keep a) eqn:Hk.
  2:{ rewrite decide_False by congruence. apply IH; [|lia]. eapply sublist_NoDup; [exact Hnd|].
      rewrite !fmap_app. apply sublist_app; [done|]. by constructor. }
  rewrite decide_True by done. apply (wp_try_call _ _ no_err).
  - unfold libbgp_update_add_attr, update_add_attr_with_cap. apply wp_bind, wp_bind, wp_fail_if; intros Hex.
    { exfalso. apply existsb_exists in Hex as (c & Hc & Heq%Z.eqb_eq). rewrite fmap_app, NoDup_app in Hnd.
      destruct Hnd as (_ & Hnd & _). apply (Hnd (pa_type_code c)); [by apply list_elem_of_fmap_2, list_elem_of_In|].
      rewrite Heq. cbn. set_solver. }
    apply wp_bind, wp_array_grow; [lia|unfold cap_inv; lia|unfold Update.SIZEOF_POINTER; lia|]. apply wp_ret, wp_ret.
    eapply wp_mono; [apply IH| |done]; cbn [upd_attrs with_attrs].
    + by rewrite <-(assoc_L (++)).
    + rewrite length_app. cbn [length]. lia.
    + intros r ->. by rewrite <-(assoc_L (++)).
  - done.
  - rewrite decide_False by done. intros s. exists [], s. split; [done|]. split; [done|]. left. by right.
Qed.

Lemma first_with_find b update T :
  upd_wf b update → known_type T →
  first_with (pattr_default_type_code T) (upd_attrs update) = libbgp_update_find_attr update T.
Proof.
  intros (_ & _ & _ & Hf) HT. rewrite find_attr_head. unfold first_with, attrs_of. f_equal.
  induction Hf as [|a attrs Ha _ IH]; [done|]. rewrite !filter_cons, IH.
  destruct (proj2 (attr_form_wf b a) Ha) as [Hform _].
  destruct (decide (pa_type a = T)) as [Ht|Ht]; [rewrite decide_True|rewrite decide_False]; try done;
    by rewrite <-(form_type b b a T Hform HT).
Qed.

(** The next hop of the route is that of the UPDATE. *)
Lemma pure_fill_hop b prefix source route_is_ibgp update weight is_ibgp a v :
  upd_wf b update → libbgp_update_find_attr update LIBBGP_PATTR_NEXT_HOP = Some a → pa_data a = d_next_hop v →
  pure_run (fsm_fill_route_attrs prefix source route_is_ibgp update weight is_ibgp) (λ route,
    rr_prefix (family := family4) route = prefix ∧ rr_next_hop (family := family4) route = v ∧
    rr_attrs (family := family4) route = upd_attrs update).
Proof.
  intros Hwf Hf Hv. unfold fsm_fill_route_attrs. apply pure_bind.
  unfold view_member at 1. change 3 with (pattr_default_type_code LIBBGP_PATTR_NEXT_HOP).
  rewrite view_build_first, (first_with_find b), Hf by done. unfold member. rewrite Hv. apply pure_ret.
  apply pure_bind. eapply pure_mono; [eapply pure_scalars, Hwf|]. intros [[[[lp og] med] len] oas] _. by apply pure_ret.
Qed.

Lemma filter_find update T (keep : libbgp_pattr_t -> bool) :
  (∀ a, pa_type a = T → keep a = true) →
  ∀ w n, libbgp_update_find_attr (UpdateMsg w (filter (λ a, keep a = true) (upd_attrs update)) n) T =
  libbgp_update_find_attr update T.
Proof.
  intros Hk w n. rewrite !find_attr_head. cbn [upd_attrs]. f_equal. unfold attrs_of.
  induction (upd_attrs update) as [|a attrs IH]; [done|]. rewrite !filter_cons.
  destruct (decide (pa_type a = T)) as [Ht|Ht].
  - rewrite (decide_True (P := keep a = true)) by auto. rewrite filter_cons, decide_True by done. by rewrite IH.
  - destruct (decide (keep a = true)); [|done]. by rewrite filter_cons, decide_False.
Qed.

Lemma only_route_find update prefix T :
  T ≠ LIBBGP_PATTR_MP_REACH_IPV6 → T ≠ LIBBGP_PATTR_MP_UNREACH_IPV6 →
  libbgp_update_find_attr (only_route update prefix) T = libbgp_update_find_attr update T.
Proof.
  intros H1 H2. apply filter_find. intros a Ht. unfold fsm_ipv4_route_attr. rewrite Ht.
  by rewrite !bool_decide_eq_false_2.
Qed.

Lemma wp_route_update b prefix source route_is_ibgp update weight is_ibgp :
  upd_wf b update → upd_nlri update ≠ [] → p4_wf prefix →
  wp (route ← fsm_fill_route_attrs prefix source route_is_ibgp update weight is_ibgp; fsm_update_from_route4 route)
     (λ r, r = only_route update prefix) no_err.
Proof.
  intros Hwf Hn [_ Hp]. pose proof (upd_wf_counts _ _ Hwf) as (_ & Hcount & _).
  assert (Hadv : fsm_update_has_advertisements update = true).
  { unfold fsm_update_has_advertisements. destruct (upd_nlri update); [done|]. done. }
  destruct (announces_mandatory b update Hwf Hadv) as ([o Ho] & [p Hpath] & Hh). destruct (Hh Hn) as [a Ha]. clear Hh.
  assert (∃ v, pa_data a = d_next_hop v) as [v Hv].
  { apply find_attr_type in Ha. unfold pa_type in Ha. destruct (pa_data a); try done. by eexists. }
  destruct (pure_fill_hop b prefix source route_is_ibgp update weight is_ibgp a v Hwf Ha Hv) as (route & Hr & Hpre & Hhop & Hattrs).
  apply wp_bind. eapply (wp_mono _ (λ r, r = route) _ no_err); [| |done].
  { intros s. exists [], s. split; [done|]. by rewrite Hr. }
  intros r ->. unfold fsm_update_from_route4. rewrite Hpre, Hhop, Hattrs.
  apply wp_bind, wp_fail_never; [lia|]. apply wp_bind.
  eapply wp_mono; [apply wp_add_route_attrs; [|cbn; lia]| |done].
  { destruct Hwf as ((_ & _ & _ & (Hnd & _) & _) & _). exact Hnd. }
  intros r ->. cbn [upd_attrs libbgp_update_init app]. set (u := with_attrs _ _).
  assert (Hf : ∀ T, T ≠ LIBBGP_PATTR_MP_REACH_IPV6 → T ≠ LIBBGP_PATTR_MP_UNREACH_IPV6 →
    libbgp_update_find_attr u T = libbgp_update_find_attr update T).
  { intros T H1 H2. etrans; [|by apply (only_route_find update prefix)]. by rewrite !find_attr_head. }
  apply wp_bind. unfold fsm_update_ensure_origin. rewrite Hf, Ho by done. apply wp_ret.
  apply wp_bind. unfold fsm_update_ensure_empty_as_path. rewrite Hf, Hpath by done. apply wp_ret.
  apply wp_bind. unfold fsm_update_set_next_hop4. rewrite Hf, Ha by done. apply wp_ret.
  replace (replace_attr u _) with u.
  - unfold libbgp_update_add_nlri, update_add_prefix. apply wp_bind, wp_bind, wp_fail_never; [lia|].
    apply wp_bind, wp_array_grow; [cbn; lia|unfold cap_inv; cbn; lia|unfold SIZEOF_PREFIX4; lia|]. by apply wp_ret, wp_ret.
  - rewrite <-Hv. replace (Pattr (pa_flags a) (pa_type_code a) (pa_data a)) with a by by destruct a.
    pose proof (find_attr_type _ _ _ Ha) as Ht. rewrite replace_put, put_same; rewrite ?Ht, ?Hf, ?Ha; eauto; done.
Qed.

(** It is an UPDATE like the one it was cut from. *)
Lemma attrs_enc_filter (keep : libbgp_pattr_t -> bool) attrs :
  zlen (attrs_enc (filter (λ a, keep a = true) attrs)) <= zlen (attrs_enc attrs).
Proof.
  unfold attrs_enc. induction attrs as [|a attrs IH]; [done|]. rewrite filter_cons. cbn [fmap list_fmap concat].
  case_decide; cbn [fmap list_fmap concat]; rewrite !length_app in *; lia.
Qed.

Lemma only_route_wf b update prefix :
  upd_wf b update → prefix ∈ upd_nlri update → upd_wf b (only_route update prefix).
Proof.
  intros Hwf Hp. pose proof Hwf as ((_ & Hn & _ & (Hnd & _) & _ & Hl & _) & _ & Hnn & Hf).
  assert (Hne : upd_nlri update ≠ []) by (intros He; rewrite He in Hp; by apply elem_of_nil in Hp).
  assert (Hadv : fsm_update_has_advertisements update = true).
  { unfold fsm_update_has_advertisements. by destruct (upd_nlri update). }
  destruct (announces_mandatory b update Hwf Hadv) as (Ho & Hpath & Hh). specialize (Hh Hne).
  rewrite Forall_forall in Hn, Hnn. pose proof (Hn _ Hp) as Hpw. pose proof (Hnn _ Hp) as Hpn.
  apply edited_wf; rewrite ?only_route_find by done; try done.
  - constructor; cbn [upd_attrs only_route].
    + eapply sublist_NoDup; [exact Hnd|]. apply fmap_sublist, sublist_filter.
    + apply Forall_forall. intros a [_ Ha]%list_elem_of_filter. rewrite Forall_forall in Hf.
      by apply Hf, attr_form_wf in Ha as [? _].
  - pose proof (p4_enc_length prefix (proj2 Hpw)) as Hb. pose proof (prefix4_octets_range _ (proj2 Hpw)).
    unfold prefixes_wf. cbn [upd_withdrawn upd_nlri only_route].
    rewrite !Forall_singleton. split_and!; [apply Forall_nil_2|done|apply Forall_nil_2|done|done|].
    unfold prefixes4_enc. cbn [fmap list_fmap concat]. rewrite app_nil_r. lia.
  - pose proof (attrs_enc_filter fsm_ipv4_route_attr (upd_attrs update)). cbn [upd_attrs only_route]. lia.
Qed.

Lemma only_route_tells update prefix :
  path_segments (only_route update prefix) = path_segments update ∧ as4_asns (only_route update prefix) = as4_asns update.
Proof. unfold path_segments, as4_asns. by rewrite !only_route_find. Qed.

Lemma only_route_forwardable b policy update prefix :
  forwardable b policy update → prefix ∈ upd_nlri update → forwardable b policy (only_route update prefix).
Proof.
  intros [Hwf Hadv H4 H6 Hag Hfour] Hp. destruct (only_route_tells update prefix) as [Hs Has].
  assert (Hne : upd_nlri update ≠ []) by (intros He; rewrite He in Hp; by apply elem_of_nil in Hp).
  constructor; rewrite ?Hs, ?Has, ?only_route_find by done; try done; [by apply only_route_wf|auto|].
  intros (a & Ha & Hm)%existsb_exists. exfalso. apply list_elem_of_In in Ha. cbn [upd_attrs only_route] in Ha.
  apply list_elem_of_filter in Ha as [Hk _]. unfold fsm_ipv4_route_attr, pa_type, update_mp_reach_has_nlri in *.
  by destruct (pa_data a).
Qed.

(** ** The event *)

Definition route_added (source : Z) (prefix : libbgp_prefix4_t) update : fsm_event :=
  EventOf LIBBGP_EVENT_ROUTE_ADDED (EventData source (Some prefix) None (Some update)).

(** The peer of the session takes four-octet AS numbers, or the path can be
    told in two; every attribute can be copied. *)
Definition tellable (use_4b_asn : bool) update : Prop :=
  forallb fits (upd_attrs update) = true ∧ (use_4b_asn = true ∨ unshadowable (path_segments update) = false).

Lemma prepared_run b policy cut local_asn use_4b_asn is_ibgp :
  forwardable b policy cut → is_u32 local_asn → tellable use_4b_asn cut →
  ∃ copy, fsm_prepared_update cut local_asn use_4b_asn is_ibgp policy [] = (Ret copy, []) ∧
    forwarded policy local_asn use_4b_asn is_ibgp cut copy.
Proof.
  intros Hfw Hasn [Hfits Htell].
  destruct (wp_run _ _ _ (wp_prepared b policy cut local_asn use_4b_asn is_ibgp Hfw Hasn))
    as [(copy & Hr & Hfo)|(e & _ & He)]; [by exists copy|]. exfalso.
  destruct He as [[_ Hf]|(_ & _ & Hw & Hu)]; [congruence|]. destruct Htell; congruence.
Qed.

Lemma only_route_tellable w update prefix : tellable w update → tellable w (only_route update prefix).
Proof.
  unfold tellable. rewrite (proj1 (only_route_tells update prefix)). intros [Hfits Htell]. split; [|done].
  apply forallb_forall. intros a Ha. rewrite forallb_forall in Hfits. apply Hfits.
  apply list_elem_of_In in Ha. cbn [upd_attrs only_route] in Ha. apply list_elem_of_filter in Ha as [_ Ha]. by apply list_elem_of_In.
Qed.

Lemma alone_reading {A} ans n (f : session -> A) s : alone ans n (reading f) s = (inl (f s), s, []).
Proof. done. Qed.

Lemma alone_calling_ret {A} ans n (m : M A) s (x : A) :
  sn_heap s = [] → m [] = (Ret x, []) → alone ans n (calling m) s = (inl (inl x), s, []).
Proof. intros Hh Hm. rewrite alone_calling, Hh, Hm. by rewrite <-Hh, with_heap_id. Qed.

(** What the peer of a session is told of a route. *)
Definition update_packet copy : libbgp_packet_t := Packet (p_update copy) 2.

Lemma update_packet_ok w copy raw :
  upd_wf w copy → zlen (upd_enc copy) <= 4077 → pkt_ok (Packet (p_update copy) raw) ∧ pkt_wf w (update_packet copy).
Proof. intros Hwf Hl. split; [split; [apply Hwf|done]|]. by split_and!. Qed.

Lemma upd_enc_attrs copy : zlen (attrs_enc (upd_attrs copy)) <= zlen (upd_enc copy).
Proof. unfold upd_enc. rewrite !length_app. lia. Qed.

(** The UPDATE a route is announced with is built from that of the event, then
    edited for the peer and sent. *)
Definition send_built (out : Z) (to : recipient) policy (build : M libbgp_update_msg_t) : fsm_proc libbgp_err_t :=
  r ← calling build;
  match r with
  | inr e => mret e
  | inl cut => fsm_send_prepared_update (Some out) cut to policy
  end.

Lemma send_built_run ans n out s target (to : recipient) policy (build : M libbgp_update_msg_t) cut copy :
  sends_fully ans → sn_heap s = [] → handler_target s out = Some target →
  build [] = (Ret cut, []) → fsm_prepared_update cut to.1.1 to.1.2 to.2 policy [] = (Ret copy, []) →
  upd_wf to.1.2 copy → zlen (upd_enc copy) <= 4077 →
  alone ans n (send_built out to policy build) s = (inl LIBBGP_OK, s, [IoSend target (pkt_enc (update_packet copy))]).
Proof.
  destruct to as [[local_asn w] is_ibgp]. cbn [fst snd]. intros Hans Hh Ht Hbuild Hprep Hwf Hl. unfold send_built.
  destruct (update_packet_ok w copy 0 Hwf Hl) as [Hok _].
  rewrite (alone_bind_silent _ _ _ _ _ (inl cut) s) by by apply alone_calling_ret.
  unfold fsm_send_prepared_update. rewrite (alone_bind_silent _ _ _ _ _ (inl copy) s) by by apply alone_calling_ret.
  change (pkt_enc (update_packet copy)) with (pkt_enc (Packet (p_update copy) 0)). by apply (send_full ans n out s target).
Qed.

(** ** Which events are sent on *)

Definition wrong_family (impl : fsm_impl_t) (event : fsm_event) : bool :=
  (bool_decide (is_Some (evd_prefix4 (ev_payload event))) && negb (pe_send_ipv4_routes (fs_peer impl))) ||
  (bool_decide (is_Some (evd_prefix6 (ev_payload event))) && negb (pe_send_ipv6_routes (fs_peer impl))).

Definition peer_is_ibgp (impl : fsm_impl_t) : bool := pe_asn (fs_peer impl) =? cfg_local_asn (fs_config impl).

(** The outgoing filters of both families. *)
Definition out_filters (impl : fsm_impl_t) (event : fsm_event) : M bool :=
  ok4 ← fsm_out_filter4_permits (po_out_filter4 (fs_policy impl)) event (po_route_weight (fs_policy impl));
  if (ok4 : bool)
  then fsm_out_filter6_permits (po_out_filter6 (fs_policy impl)) event (po_route_weight (fs_policy impl)) (peer_is_ibgp impl)
  else mret false.

Definition peer_recipient (impl : fsm_impl_t) : recipient :=
  (cfg_local_asn (fs_config impl), pe_4byte_asn (fs_peer impl), peer_is_ibgp impl).

(** A route goes to the peer when the session is established, the peer is not
    its source (0 stands for no router), and routes of its family were
    negotiated. *)
Abbreviation any_prefix := (libbgp_prefix4_t + libbgp_prefix6_t)%type.

Definition takes (impl : fsm_impl_t) (source : Z) (prefix : any_prefix) : Prop :=
  fs_state impl = LIBBGP_FSM_ESTABLISHED ∧ (source = 0 ∨ source ≠ pe_bgp_id (fs_peer impl)) ∧
  match prefix with
  | inl _ => pe_send_ipv4_routes (fs_peer impl) = true
  | inr _ => pe_send_ipv6_routes (fs_peer impl) = true
  end.

#[global] Instance takes_dec impl source prefix : Decision (takes impl source prefix).
Proof. unfold takes. destruct prefix; apply _. Defined.

(** The outgoing filter of the family lets a route out when the last of its
    rules that matches does, or no rule matches; without a filter every route is
    let out. *)
Definition filter_lets (f : option filter_impl_t) (matches : libbgp_filter_match -> bool) : Prop :=
  match f with
  | Some f => last_match (λ r, matches (rule_match r)) (f_rules f) LIBBGP_FILTER_PERMIT = LIBBGP_FILTER_PERMIT
  | None => True
  end.

#[global] Instance filter_lets_dec f matches : Decision (filter_lets f matches).
Proof. destruct f; cbn [filter_lets]; apply _. Defined.

Definition lets_out (impl : fsm_impl_t) (prefix : any_prefix) (attrs : list libbgp_pattr_t) : Prop :=
  match prefix with
  | inl p => filter_lets (po_out_filter4 (fs_policy impl)) (λ m, match4 m p attrs)
  | inr p => filter_lets (po_out_filter6 (fs_policy impl)) (λ m, match6 m p attrs)
  end.

#[global] Instance lets_out_dec impl prefix attrs : Decision (lets_out impl prefix attrs).
Proof. destruct prefix; cbn [lets_out]; apply _. Defined.

(** The gate of the code. *)
Definition for_peer (impl : fsm_impl_t) (event : fsm_event) (permit : bool) : bool :=
  should_send impl event && negb (wrong_family impl event) && permit.

Definition route_event (type : libbgp_event_type_t) (source : Z) (prefix : any_prefix) (carried : option libbgp_update_msg_t)
    : fsm_event :=
  EventOf type
    match prefix with
    | inl p => EventData source (Some p) None carried
    | inr p => EventData source None (Some p) carried
    end.

Lemma for_peer_takes impl type source prefix carried (permit : bool) (P : Prop) :
  (permit = true ↔ P) → for_peer impl (route_event type source prefix carried) permit = true ↔ takes impl source prefix ∧ P.
Proof.
  intros <-. unfold for_peer, should_send, wrong_family, takes.
  rewrite !andb_true_iff, orb_true_iff, !negb_true_iff, orb_false_iff, !andb_false_iff, !negb_false_iff, Z.eqb_eq, Z.eqb_neq, bool_decide_eq_true.
  destruct prefix as [p|p]; cbn [ev_payload route_event evd_prefix4 evd_prefix6 evd_source_router_id];
    rewrite !bool_decide_eq_false; unfold is_Some; naive_solver.
Qed.

Lemma if_takes {A : Type} (b : bool) (P : Prop) `{!Decision P} (x y : A) :
  (b = true ↔ P) → (if b then x else y) = if decide P then x else y.
Proof. intros HP. destruct b; [rewrite decide_True|rewrite decide_False]; naive_solver. Qed.

(** What the filters of the code say of an added route. *)
Lemma out_filters4_run b impl source p update :
  upd_wf b update →
  ∃ permit, out_filters impl (route_event LIBBGP_EVENT_ROUTE_ADDED source (inl p) (Some update)) [] = (Ret permit, []) ∧
    (permit = true ↔ lets_out impl (inl p) (upd_attrs update)).
Proof.
  intros Hwf. unfold out_filters, fsm_out_filter4_permits, fsm_out_filter6_permits.
  cbn [ev_type ev_payload route_event evd_prefix4 evd_prefix6 evd_update evd_source_router_id lets_out].
  destruct (po_out_filter4 (fs_policy impl)) as [f|]; cbn [filter_lets].
  2:{ exists true. by destruct (po_out_filter6 (fs_policy impl)). }
  destruct (pure_fill_route b p source false update (po_route_weight (fs_policy impl)) true Hwf) as (route & Hr & _ & _ & Ha & _).
  unfold mbind, M_bind. rewrite Hr. cbn [mret M_ret]. rewrite Ha. unfold libbgp_filter_apply_route.
  rewrite (apply_loop_run _ (λ r, match4 (rule_match r) p (upd_attrs update))) by (intros; apply rule_matches_scan).
  case_bool_decide as Hd; [|by exists false]. exists true. by destruct (po_out_filter6 (fs_policy impl)).
Qed.

Lemma event_gate ans n s event permit :
  ev_type event = LIBBGP_EVENT_ROUTE_ADDED ∨ ev_type event = LIBBGP_EVENT_ROUTE_WITHDRAWN →
  sn_heap s = [] → out_filters (sn_impl s) event [] = (Ret permit, []) →
  alone ans n (fsm_route_event_cb event) s =
  alone ans n ((if for_peer (sn_impl s) event permit then
      e ← fsm_send_route_event_update (ln_out (fs_links (sn_impl s))) event (peer_recipient (sn_impl s)) (fs_policy (sn_impl s));
      if decide (e = LIBBGP_OK) then mret tt else fsm_teardown_current_established (fs_session_generation (sn_impl s))
      else mret tt);; mret false) s.
Proof.
  intros Htype Hh Hperm. set (impl := sn_impl s) in *.
  assert (Hcb : ∀ p, alone ans n (forward_route_event event) s = alone ans n p s →
    alone ans n (fsm_route_event_cb event) s = alone ans n (p;; mret false) s).
  { intros p Hin. assert (Hev : fsm_route_event_cb event = (forward_route_event event;; mret false))
      by (unfold fsm_route_event_cb; by destruct Htype as [-> | ->]).
    by rewrite Hev, !alone_bind, Hin. }
  apply Hcb. unfold forward_route_event, for_peer.
  assert (Hread : alone ans n (reading (λ s, if should_send (sn_impl s) event then Some (sn_impl s) else None)) s =
    (inl (if should_send impl event then Some impl else None), s, [])) by done.
  destruct (should_send impl event); [|by rewrite (alone_bind_silent _ _ _ _ _ None s)].
  rewrite (alone_bind_silent _ _ _ _ _ (Some impl) s) by exact Hread. fold (wrong_family impl event).
  destruct (wrong_family impl event); [done|]. cbn [negb andb].
  rewrite (alone_bind_silent _ _ _ _ _ (inl permit) s) by by apply alone_calling_ret.
  by destruct permit.
Qed.

(** The event of an added route, given what its UPDATE is cut down to. *)
Lemma announced ans n out target b s event (build : M libbgp_update_msg_t) cut permit :
  let impl := sn_impl s in
  let policy := fs_policy impl in
  let w := pe_4byte_asn (fs_peer impl) in
  sends_fully ans → sn_heap s = [] →
  ln_out (fs_links impl) = Some out → handler_target s out = Some target →
  is_u32 (cfg_local_asn (fs_config impl)) →
  ev_type event = LIBBGP_EVENT_ROUTE_ADDED →
  fsm_send_route_event_update (Some out) event (peer_recipient impl) policy = send_built out (peer_recipient impl) policy build →
  build [] = (Ret cut, []) → forwardable b policy cut → tellable w cut →
  out_filters impl event [] = (Ret permit, []) →
  if for_peer impl event permit
  then ∃ copy, fsm_prepared_update cut (cfg_local_asn (fs_config impl)) w (peer_is_ibgp impl) policy [] = (Ret copy, []) ∧
    forwarded policy (cfg_local_asn (fs_config impl)) w (peer_is_ibgp impl) cut copy ∧
    (zlen (upd_enc copy) <= 4077 →
     alone ans n (fsm_route_event_cb event) s = (inl false, s, [IoSend target (pkt_enc (update_packet copy))]) ∧
     bgp_packet_parse_as4_detail (pkt_enc (update_packet copy)) w true [] =
       (Ret (inl (Packet (p_update (upd_norm copy)) 2, zlen (pkt_enc (update_packet copy)))), []))
  else alone ans n (fsm_route_event_cb event) s = (inl false, s, []).
Proof.
  intros impl policy w Hans Hh Hout Ht Hasn Hty Hsame Hbuild Hfw Htell Hperm.
  pose proof (event_gate ans n s event permit (or_introl Hty) Hh Hperm) as Hrun. fold impl in Hrun.
  destruct (for_peer impl event permit); [|by rewrite Hrun]. rewrite Hout in Hrun. fold policy in Hrun. rewrite Hsame in Hrun.
  destruct (prepared_run b policy cut (cfg_local_asn (fs_config impl)) w (peer_is_ibgp impl) Hfw Hasn Htell) as (copy & Hprep & Hfo).
  exists copy. split; [done|]. split; [done|]. intros Hl. pose proof (upd_enc_attrs copy).
  assert (Hwf : upd_wf w copy) by (apply (fo_parsed _ _ _ _ _ _ Hfo); lia). split.
  - rewrite Hrun, !alone_bind, (send_built_run ans n out s target (peer_recipient impl) policy build cut copy) by done.
    rewrite decide_True by done. done.
  - destruct (update_packet_ok w copy 0 Hwf Hl) as [_ Hpkt]. by rewrite (parse_detail_enc w).
Qed.

(** ** Theorems *)

(** C7: An IPv4 route that is added to the table is announced to the peer in
    one packet when the session is established, the peer is not the source of
    the route, IPv4 routes were negotiated and the last rule of the outgoing
    filter that matches, if there is one, permits it; otherwise nothing is sent,
    and either way the session stays as it is.  The UPDATE that is sent carries
    that prefix alone; for an external peer the own AS number is in front of the
    path, also when the peer restores it from two-octet attributes, and
    LOCAL_PREF is gone; for an internal peer the path is the one received; the
    next hop follows the policy; the peer's parser reads the packet.

    The side conditions: the UPDATE is well-formed and its AS4_PATH agrees with
    its AS_PATH, and with a source that has four-octet AS numbers there is no
    AS4_PATH or AS4_AGGREGATOR; the policy has a usable next hop of its own
    ([forwardable]); the peer takes four-octet AS numbers, or the path can be
    told in two-octet ones, and every attribute can be copied ([tellable]); no
    allocation fails; the handler sends all it is given; and the edited UPDATE
    has at most 4077 octets, so that it fits a message. *)
Theorem fsm_route_announced ans n out target b s source update prefix :
  let impl := sn_impl s in
  let policy := fs_policy impl in
  let local_asn := cfg_local_asn (fs_config impl) in
  let w := pe_4byte_asn (fs_peer impl) in
  let event := route_added source prefix update in
  sends_fully ans → sn_heap s = [] →
  ln_out (fs_links impl) = Some out → handler_target s out = Some target →
  is_u32 local_asn → forwardable b policy update → prefix ∈ upd_nlri update → tellable w update →
  if decide (takes impl source (inl prefix) ∧ lets_out impl (inl prefix) (upd_attrs update))
  then ∃ copy, fsm_prepared_update (only_route update prefix) local_asn w (peer_is_ibgp impl) policy [] = (Ret copy, []) ∧
    forwarded policy local_asn w (peer_is_ibgp impl) (only_route update prefix) copy ∧
    (zlen (upd_enc copy) <= 4077 →
     alone ans n (fsm_route_event_cb event) s = (inl false, s, [IoSend target (pkt_enc (update_packet copy))]) ∧
     bgp_packet_parse_as4_detail (pkt_enc (update_packet copy)) w true [] =
       (Ret (inl (Packet (p_update (upd_norm copy)) 2, zlen (pkt_enc (update_packet copy)))), []))
  else alone ans n (fsm_route_event_cb event) s = (inl false, s, []).
Proof.
  intros impl policy local_asn w event Hans Hh Hout Ht Hasn Hfw Hp Htell. pose proof (fw_wf _ _ _ Hfw) as Hwf.
  assert (Hne : upd_nlri update ≠ []) by (intros He; rewrite He in Hp; by apply elem_of_nil in Hp).
  assert (Hpw : p4_wf prefix) by (destruct Hwf as ((_ & Hn & _) & _); rewrite Forall_forall in Hn; auto).
  destruct (out_filters4_run b impl source prefix update Hwf) as (permit & Hperm & Hlets).
  rewrite <-(if_takes _ _ _ _ (for_peer_takes impl LIBBGP_EVENT_ROUTE_ADDED source (inl prefix) (Some update) permit _ Hlets)).
  apply (announced ans n out target b s event
    (route ← fsm_fill_route_attrs prefix source (peer_is_ibgp impl) update (po_route_weight policy) (peer_is_ibgp impl);
     fsm_update_from_route4 route)); try done.
  - apply wp_returns. by eapply wp_route_update.
  - by apply only_route_forwardable.
  - by apply only_route_tellable.
Qed.

(** ** Withdrawals *)

Definition route_withdrawn (source : Z) (prefix : any_prefix) : fsm_event :=
  route_event LIBBGP_EVENT_ROUTE_WITHDRAWN source prefix None.

(** The UPDATE that withdraws the prefix. *)
Definition withdrawal (prefix : any_prefix) : libbgp_update_msg_t :=
  match prefix with
  | inl p => UpdateMsg [p] [] []
  | inr p => UpdateMsg [] [Pattr LIBBGP_PATTR_FLAG_OPTIONAL 15 (d_mp_unreach_ipv6 [p])] []
  end.

(** A prefix as the tables hold it: its host bits are zero. *)
Definition table_prefix (prefix : any_prefix) : Prop :=
  match prefix with
  | inl p => p4_wf p ∧ p4_normalize p = p
  | inr p => p6_wf p ∧ p6_normalize p = p
  end.

Lemma withdrawal_wf w prefix : table_prefix prefix → upd_wf w (withdrawal prefix) ∧ zlen (upd_enc (withdrawal prefix)) <= 4077.
Proof.
  destruct prefix as [p|p]; intros [Hp Hn]; cbn [withdrawal].
  - pose proof (p4_enc_length p (proj2 Hp)) as Hl. pose proof (prefix4_octets_range _ (proj2 Hp)).
    assert (He : zlen (prefixes4_enc [p]) <= 5) by (unfold prefixes4_enc; cbn [fmap list_fmap concat]; rewrite app_nil_r; lia).
    split.
    + unfold upd_wf, upd_ok. cbn [upd_withdrawn upd_nlri upd_attrs]. rewrite !Forall_singleton.
      assert (Hv : upd_valid (UpdateMsg [p] [] [])) by (split_and!; [constructor|constructor|done]).
      split_and!; try apply Forall_nil_2; try done; change (zlen (attrs_enc [])) with 0; change (zlen (prefixes4_enc [])) with 0; lia.
    + unfold upd_enc. cbn [upd_withdrawn upd_nlri upd_attrs]. rewrite !length_app. cbn [bgp_put_be16 length attrs_enc fmap list_fmap concat prefixes4_enc] in *. lia.
  - pose proof (p6_enc_length p Hp) as Hl. pose proof (prefix6_octets_range _ (proj2 (proj2 Hp))).
    set (a := Pattr LIBBGP_PATTR_FLAG_OPTIONAL 15 (d_mp_unreach_ipv6 [p])).
    assert (Hv : zlen (value_enc (pa_data a)) <= 20).
    { cbn [a pa_data value_enc]. unfold prefixes6_enc. cbn [fmap list_fmap concat]. rewrite !length_app.
      cbn [bgp_put_be16 length]. lia. }
    assert (He : zlen (attrs_enc [a]) <= 24).
    { unfold attrs_enc, pattr_enc. cbn [fmap list_fmap concat]. rewrite app_nil_r, !length_app.
      destruct (pa_extended a); cbn [bgp_put_be16 length]; lia. }
    assert (Hform : attr_form w w a).
    { constructor; try done; cbn [a pa_flags pa_type_code pa_data data_ok data_parsed]; try (unfold is_u8; cbn; lia);
        by rewrite Forall_singleton. }
    assert (Hwf : pattr_wf w a) by (apply attr_form_wf; split; [done|lia]).
    split.
    + unfold upd_wf, upd_ok. cbn [upd_withdrawn upd_nlri upd_attrs]. rewrite !Forall_singleton.
      assert (Hval : upd_valid (UpdateMsg [] [a] [])).
      { split_and!; [apply NoDup_singleton|by apply Forall_singleton|done]. }
      split_and!; try apply Forall_nil_2; try done; [apply Hwf|..]; change (zlen (prefixes4_enc [])) with 0; lia.
    + unfold upd_enc. cbn [upd_withdrawn upd_nlri upd_attrs]. rewrite !length_app.
      change (zlen (prefixes4_enc [])) with 0. cbn [bgp_put_be16 length prefixes4_enc fmap list_fmap concat]. lia.
Qed.

(** C16: A withdrawn route is withdrawn from the peer in one packet when the
    session is established, the peer is not the source of the route and routes
    of the family were negotiated, and otherwise nothing is sent; the outgoing
    filters are not asked.  The peer's parser reads an
    UPDATE that withdraws the prefix and says nothing else. *)
Theorem fsm_withdrawal_sent ans n out target s source prefix :
  let impl := sn_impl s in
  let w := pe_4byte_asn (fs_peer impl) in
  let event := route_withdrawn source prefix in
  sends_fully ans → sn_heap s = [] →
  ln_out (fs_links impl) = Some out → handler_target s out = Some target → table_prefix prefix →
  let bytes := pkt_enc (update_packet (withdrawal prefix)) in
  alone ans n (fsm_route_event_cb event) s =
    (inl false, s, if decide (takes impl source prefix) then [IoSend target bytes] else []) ∧
  bgp_packet_parse_as4_detail bytes w true [] =
    (Ret (inl (Packet (p_update (upd_norm (withdrawal prefix))) 2, zlen bytes)), []).
Proof.
  intros impl w event Hans Hh Hout Ht Hp bytes. destruct (withdrawal_wf w prefix Hp) as [Hwf Hl].
  destruct (update_packet_ok w (withdrawal prefix) (pkt_raw_type libbgp_packet_init) Hwf Hl) as [Hok Hpkt]. split.
  2:{ unfold bytes. by rewrite (parse_detail_enc w). }
  assert (Hfilters : out_filters impl event [] = (Ret true, [])).
  { unfold out_filters, fsm_out_filter4_permits, fsm_out_filter6_permits, event, route_withdrawn, route_event.
    by destruct (po_out_filter4 (fs_policy impl)), (po_out_filter6 (fs_policy impl)). }
  rewrite (event_gate ans n s event true (or_intror eq_refl) Hh Hfilters). fold impl.
  rewrite <-(if_takes (for_peer impl event true)).
  2:{ unfold event, route_withdrawn. rewrite (for_peer_takes impl _ source prefix None true True); tauto. }
  destruct (for_peer impl event true); [|done]. rewrite Hout.
  assert (Hsend : alone ans n (fsm_send_route_event_update (Some out) event (peer_recipient impl) (fs_policy impl)) s =
    (inl LIBBGP_OK, s, [IoSend target bytes])).
  { unfold bytes. change (pkt_enc (update_packet (withdrawal prefix))) with
      (pkt_enc (Packet (p_update (withdrawal prefix)) (pkt_raw_type libbgp_packet_init))).
    unfold fsm_send_route_event_update, event, route_withdrawn, route_event. destruct prefix as [p|p]; cbn [ev_type ev_payload evd_prefix4 evd_prefix6].
    - destruct Hp as [[_ Hlen] _]. unfold fsm_send_withdraw4. rewrite (alone_bind_silent _ _ _ _ _ (inl (withdrawal (inl p))) s).
      + by apply (send_full ans n out s target).
      + apply alone_calling_ret; [done|]. unfold libbgp_update_add_withdrawn, update_add_prefix.
        replace (32 <? p4_len p) with false by lia. reflexivity.
    - unfold fsm_send_withdraw6. rewrite (alone_bind_silent _ _ _ _ _ (inl (withdrawal (inr p))) s).
      + by apply (send_full ans n out s target).
      + by apply alone_calling_ret. }
  rewrite !alone_bind, Hsend. by rewrite decide_True.
Qed.
End Announce.

(** ** An example *)

#[local] Existing Instance little_endian_host.

(** A session with a peer that has two-octet AS numbers; the own AS number
    needs four. *)
Definition announce_policy : fsm_policy :=
  FsmPolicy 0 0 0 false false None None None None (Prefix4 0 32) (Prefix6 (replicate 16 0) 128)
    0x0100000a (replicate 16 0) (replicate 16 0) false false false false false.

Definition announcer : session :=
  let s := sample 4200000000 0x0a000001 in
  with_impl s
    (FsmImpl (fs_config (sn_impl s)) announce_policy LIBBGP_FSM_ESTABLISHED
       (FsmPeer 65002 1 90 true false false false false) (fs_clock (sn_impl s)) (fs_links (sn_impl s)) 2
       (fs_pending (sn_impl s)) (fs_notify (sn_impl s))).

Lemma announce_forwardable : forwardable false announce_policy update_example.
Proof.
  constructor; try done. exact update_example_wf.
Qed.

(** The same with a filter that denies routes with 64512 in their path. *)
Definition deny_policy : fsm_policy :=
  FsmPolicy 0 0 0 false false
    None (Some (FilterImpl [FilterRule (LIBBGP_FILTER_MATCH_AS_PATH_CONTAINS 64512) LIBBGP_FILTER_DENY] 1)) None None
    (Prefix4 0 32) (Prefix6 (replicate 16 0) 128)
    0x0100000a (replicate 16 0) (replicate 16 0) false false false false false.

Definition denier : session :=
  with_impl announcer
    (FsmImpl (fs_config (sn_impl announcer)) deny_policy LIBBGP_FSM_ESTABLISHED
       (fs_peer (sn_impl announcer)) (fs_clock (sn_impl announcer)) (fs_links (sn_impl announcer)) 2
       (fs_pending (sn_impl announcer)) (fs_notify (sn_impl announcer))).

Lemma deny_forwardable : forwardable false deny_policy update_example.
Proof. constructor; try done. exact update_example_wf. Qed.

(** A route of another router is announced; one of the peer, whose identifier
    is 1, or one that the filter denies, is not. *)
Lemma fsm_route_announced_witness :
  (∃ copy msg p,
    alone grant 0 (fsm_route_event_cb (route_added 2 (Prefix4 266 16) update_example)) announcer =
      (inl false, announcer, [IoSend sample_target (pkt_enc (update_packet copy))]) ∧
    libbgp_update_restore_as_path copy [] = (Ret msg, []) ∧
    libbgp_update_find_attr msg LIBBGP_PATTR_AS_PATH = Some p ∧
    path_asns (as_path_segments p) = [4200000000; 64512; 65001]) ∧
  alone grant 0 (fsm_route_event_cb (route_added 1 (Prefix4 266 16) update_example)) announcer = (inl false, announcer, []) ∧
  alone grant 0 (fsm_route_event_cb (route_added 2 (Prefix4 266 16) update_example)) denier = (inl false, denier, []).
Proof.
  assert (Hsend : sends_fully grant) by (intros ? ? ?; reflexivity).
  assert (Hin : Prefix4 266 16 ∈ upd_nlri update_example) by by apply list_elem_of_singleton.
  assert (Htell : tellable false update_example) by (split; [vm_compute; reflexivity|right; vm_compute; reflexivity]).
  assert (Hasn : is_u32 4200000000) by (split; [discriminate|reflexivity]).
  pose proof (λ source, fsm_route_announced grant 0 sample_out sample_target false announcer source update_example (Prefix4 266 16)
    Hsend eq_refl eq_refl eq_refl Hasn announce_forwardable Hin Htell) as H. cbv zeta in H.
  split; [|split].
  - specialize (H 2). rewrite decide_True in H by (split; [split_and!; [reflexivity|right; discriminate|reflexivity]|exact I]).
    destruct H as (copy & Hprep & Hfo & Hrun).
    destruct (fo_path _ _ _ _ _ _ Hfo) as (msg & p & Hr & Hf & Hp). exists copy, msg, p.
    destruct Hrun as [Hrun _].
    + vm_compute in Hprep. injection Hprep as <-. vm_compute. discriminate.
    + split; [exact Hrun|]. split; [exact Hr|]. split; [exact Hf|exact Hp].
  - specialize (H 1). rewrite decide_False in H; [exact H|]. intros [(_ & [Hs|Hs] & _) _]; [discriminate|by apply Hs].
  - pose proof (fsm_route_announced grant 0 sample_out sample_target false denier 2 update_example (Prefix4 266 16)
      Hsend eq_refl eq_refl eq_refl Hasn deny_forwardable Hin Htell) as Hd. cbv zeta in Hd.
    rewrite decide_False in Hd; [exact Hd|]. intros [_ Hl]. vm_compute in Hl. discriminate.
Defined.

(** ** AS4_PATH of a peer that has four-octet AS numbers

    Such a peer has no reason to send AS4_PATH, and a session remembers that
    ([pe_can_send_as4_path]): the check for loops leaves AS4_PATH alone.  The
    UPDATE that is sent on does not. *)

Definition as4_from_four : libbgp_update_msg_t :=
  UpdateMsg []
    [Pattr 0x40 1 (d_origin 0);
     Pattr 0x40 2 (d_as_path [Segment 2 [65002; 65003; 65004]] true);
     Pattr 0x40 3 (d_next_hop 167772161);
     Pattr 0xc0 17 (d_as4_path [Segment 2 [4200000000; 65009]] true)]
    [Prefix4 266 16].

Lemma as4_from_four_wf : upd_wf true as4_from_four.
Proof.
  assert (Ha : Forall (pattr_wf true) (upd_attrs as4_from_four)).
  { repeat constructor; simpl; try lia; try done; unfold is_u32; try lia. }
  apply edited_wf; [| |by eexists|by eexists|by eexists|by vm_compute].
  - constructor; [apply (bool_decide_unpack _); by vm_compute|]. eapply Forall_impl; [exact Ha|].
    intros a Hwf. by apply attr_form_wf in Hwf as [? _].
  - unfold prefixes_wf. cbn [upd_withdrawn upd_nlri as4_from_four]. rewrite !Forall_singleton.
    split_and!; [apply Forall_nil_2|split; [split; [discriminate|reflexivity]|split; [discriminate|discriminate]]|apply Forall_nil_2|..].
    all: by vm_compute.
Qed.

(** An UPDATE of a peer with four-octet AS numbers is accepted by the parser
    with an AS4_PATH, and the check for loops does not see the AS numbers in
    it; the UPDATE sent on to another such peer carries them in its AS_PATH,
    in place of the ones the path had, the own AS number among them. *)
Theorem fsm_as4_path_overrides :
  upd_wf true as4_from_four ∧
  fsm_update_exceeds_local_as as4_from_four 4200000000 0 false [] = (Ret false, []) ∧
  ∃ copy p, fsm_prepared_update as4_from_four 4200000000 true false announce_policy [] = (Ret copy, []) ∧
    libbgp_update_find_attr copy LIBBGP_PATTR_AS_PATH = Some p ∧
    path_asns (as_path_segments p) = [4200000000; 65002; 4200000000; 65009].
Proof.
  split; [exact as4_from_four_wf|]. split; [by vm_compute|]. eexists _, _.
  split; [vm_compute; reflexivity|]. split; vm_compute; reflexivity.
Qed.

Lemma fsm_withdrawal_sent_witness :
  alone grant 0 (fsm_route_event_cb (route_withdrawn 2 (inl (Prefix4 266 16)))) announcer =
    (inl false, announcer, [IoSend sample_target (pkt_enc (update_packet (withdrawal (inl (Prefix4 266 16)))))]) ∧
  alone grant 0 (fsm_route_event_cb (route_withdrawn 1 (inl (Prefix4 266 16)))) announcer = (inl false, announcer, []).
Proof.
  assert (Hp : table_prefix (inl (Prefix4 266 16))).
  { split; [|by vm_compute]. split; [split; [discriminate|reflexivity]|split; discriminate]. }
  split.
  - exact (proj1 (fsm_withdrawal_sent grant 0 sample_out sample_target announcer 2 (inl (Prefix4 266 16))
      ltac:(intros ? ? ?; reflexivity) ltac:(reflexivity) ltac:(reflexivity) ltac:(reflexivity) Hp)).
  - exact (proj1 (fsm_withdrawal_sent grant 0 sample_out sample_target announcer 1 (inl (Prefix4 266 16))
      ltac:(intros ? ? ?; reflexivity) ltac:(reflexivity) ltac:(reflexivity) ltac:(reflexivity) Hp)).
Defined.
