(* ===== verification/FsmAnnounce6.v ===== *)
(** * The session: IPv6 routes it announces

    The IPv6 side of [FsmAnnounce]: the UPDATE of the event is cut down to one
    MP_REACH_NLRI with one prefix. *)

From stdpp Require Import gmap.
From S2P Require Import Prelude Bytes Prefix4 Prefix6 Open Notification Pattr PattrSpec Update UpdateSpec As4 As4Spec Packet PacketSpec Filter FilterSpec Event Hashmap Rib RibTable Rib46 Fsm FsmUpdate FsmChecks Out Proc ProcSpec FsmSession FsmForward FsmHandlers FsmObject FsmSample FsmRun FsmOpen FsmHandshake FsmPrepare FsmPath FsmPrepareSpec FsmAnnounce.

Section Announce6.
Context {host : Host}.
Implicit Types (update copy : libbgp_update_msg_t) (a mp : libbgp_pattr_t) (policy : fsm_policy) (prefix : libbgp_prefix6_t).

(** ** The UPDATE of one prefix *)

(** MP_REACH_NLRI with the one prefix; a zero link-local half is left out. *)
Definition one_reach (nexthop : list Z) prefix : libbgp_pattr_t :=
  Pattr LIBBGP_PATTR_FLAG_OPTIONAL 14
    (if fsm_zero_addr6 (drop 16 nexthop)
     then d_mp_reach_ipv6 (take 16 nexthop ++ replicate 16 0) 16 [prefix]
     else d_mp_reach_ipv6 (take 16 nexthop ++ drop 16 nexthop) 32 [prefix]).

Definition only_route6 update (nexthop : list Z) prefix : libbgp_update_msg_t :=
  UpdateMsg [] (filter (λ a, fsm_ipv6_route_attr a = true) (upd_attrs update) ++ [one_reach nexthop prefix]) [].

(** The attribute the prefix is announced in. *)
Record announces6 update prefix mp (nexthop : list Z) : Prop := {
  a6_find : fsm_find_mp_reach6_for_prefix update prefix = Some mp;
  a6_hop : ∃ len nlri, pa_data mp = d_mp_reach_ipv6 nexthop len nlri ∧ prefix ∈ nlri
}.

Lemma announces6_split update prefix mp nexthop :
  announces6 update prefix mp nexthop → ∃ pre post, upd_attrs update = pre ++ mp :: post.
Proof.
  intros [Hf _]. apply find_some in Hf as [Hin _]. apply list_elem_of_In, list_elem_of_split in Hin. done.
Qed.

Lemma pure_fill_hops b update prefix mp nexthop is_ibgp :
  upd_wf b update → announces6 update prefix mp nexthop →
  pure_run (fsm_fill_route6_attrs update mp is_ibgp) (λ r, r.1 = (take 16 nexthop, drop 16 nexthop)).
Proof.
  intros (_ & _ & _ & Hall) Hann. destruct (announces6_split _ _ _ _ Hann) as (pre & post & Hat).
  destruct Hann as [_ (len & nlri & Hd & _)].
  assert (Hmp : pattr_wf b mp) by (rewrite Forall_forall in Hall; apply Hall; rewrite Hat; set_solver).
  destruct Hmp as ((_ & _ & _ & _ & Hok & _) & _ & Hpar). unfold fsm_fill_route6_attrs, member. rewrite Hd in *.
  cbn [data_ok data_parsed data_mp_reach] in *. destruct Hok as (Hlen & Hnh & _). destruct Hpar as [Hz _].
  apply pure_bind, pure_ret, pure_bind. unfold slice at 1. replace ((0 <=? 0) && (0 <=? 16) && (0 + 16 <=? zlen nexthop)) with true by lia.
  apply pure_ret, pure_bind. apply (pure_mono _ (λ r, r = drop 16 nexthop)).
  - destruct Hlen as [-> | ->].
    + apply pure_ret. symmetry. exact Hz.
    + change (32 =? 32) with true. cbv iota. unfold slice. replace ((0 <=? 16) && (0 <=? 16) && (16 + 16 <=? zlen nexthop)) with true by lia.
      apply pure_ret. change (Z.to_nat 16) with 16%nat. apply take_ge. rewrite length_drop. lia.
  - intros ll ->. apply pure_bind. eapply pure_mono; [by eapply pure_scalars|]. intros sc _. by apply pure_ret.
Qed.

Lemma wp_make_route6_exact b source update prefix mp nexthop weight is_ibgp :
  upd_wf b update → announces6 update prefix mp nexthop →
  wp (fsm_make_route6 source update mp prefix weight is_ibgp) (λ route,
    rr_prefix (family := family6) route = prefix ∧
    rr_next_hop (family := family6) route = (take 16 nexthop, drop 16 nexthop) ∧
    rr_attrs (family := family6) route = filter (λ a, fsm_ipv6_route_attr a = true) (upd_attrs update)) no_err.
Proof.
  intros Hwf Hann. destruct (upd_wf_counts _ _ Hwf) as (_ & Hlen & _).
  destruct (pure_fill_hops _ _ _ _ _ is_ibgp Hwf Hann) as ([hops [[[[lp og] med] len] oas]] & Hfill & Hhops). cbn [fst] in Hhops.
  destruct (announces6_split _ _ _ _ Hann) as (pre & post & Hat). destruct Hann as [_ (nhl & nlri & Hd & _)].
  destruct Hwf as (_ & _ & _ & Hall). assert (Hmp : pattr_wf b mp) by (rewrite Forall_forall in Hall; apply Hall; rewrite Hat; set_solver).
  destruct Hmp as ((_ & _ & _ & _ & Hok & _) & _). rewrite Hd in Hok. cbn [data_ok] in Hok.
  set (filtered := filter (λ a, fsm_ipv6_route_attr a = true) (upd_attrs update)).
  assert (Hfl : zlen filtered <= 65535).
  { pose proof (length_filter (λ a, fsm_ipv6_route_attr a = true) (upd_attrs update)) as Hle. fold filtered in Hle. lia. }
  unfold fsm_make_route6, member at 1. rewrite Hd. cbn [data_mp_reach].
  apply wp_bind, wp_ret, wp_bind, wp_fail_never; [lia|]. apply wp_bind.
  apply (wp_mono _ (λ r, r = (hops, (lp, og, med, len, oas))) _ no_err); [|intros ? ->|done].
  { intros s. exists [], s. rewrite Hfill. done. }
  apply wp_bind. apply (wp_mono _ (λ _, True) _ no_err); [|intros [] _; apply wp_ret; by rewrite Hhops|done].
  apply wp_if; intros; [by apply wp_ret|]. apply wp_bind, wp_fail_never; [|by apply wp_alloc_or_nomem].
  unfold SIZEOF_POINTER. assert (65535 < SIZE_MAX / 8) by done. fold filtered. lia.
Qed.

(** The kept attributes are those of the UPDATE, MP_REACH_NLRI apart. *)
Lemma kept6_find update T w n extra :
  fsm_ipv6_route_attr (pattr_set_defaults T) = true → Forall (λ a, pa_type a ≠ T) extra →
  libbgp_update_find_attr (UpdateMsg w (filter (λ a, fsm_ipv6_route_attr a = true) (upd_attrs update) ++ extra) n) T =
  libbgp_update_find_attr update T.
Proof.
  intros Hk Hx. rewrite <-(filter_find update T fsm_ipv6_route_attr) with (w := w) (n := n).
  - rewrite !find_attr_head. cbn [upd_attrs]. rewrite attrs_of_app, (attrs_of_none T extra) by done. by rewrite app_nil_r.
  - intros a Ht. unfold fsm_ipv6_route_attr in *. rewrite Ht. by destruct T.
Qed.

(** No kept attribute has the code of MP_REACH_NLRI. *)
Lemma kept6_code b update prefix mp nexthop :
  upd_wf b update → announces6 update prefix mp nexthop →
  14 ∉ pa_type_code <$> filter (λ a, fsm_ipv6_route_attr a = true) (upd_attrs update).
Proof.
  intros Hwf Hann Hin. destruct (announces6_split _ _ _ _ Hann) as (pre & post & Hat). destruct Hann as [_ (len & nlri & Hd & _)].
  destruct Hwf as ((_ & _ & _ & (Hnd & _) & _) & _ & _ & Hall). rewrite Hat in *.
  assert (Hmp : pa_type_code mp = 14).
  { rewrite Forall_forall in Hall. destruct (Hall mp ltac:(set_solver)) as ((_ & _ & _ & Hc & _) & _).
    unfold pa_type in Hc. rewrite Hd in Hc. by apply Hc. }
  rewrite filter_app, filter_cons_False in Hin by (unfold fsm_ipv6_route_attr, pa_type; by rewrite Hd).
  rewrite fmap_app, elem_of_app in Hin. rewrite fmap_app, fmap_cons, Hmp, NoDup_app, NoDup_cons in Hnd.
  destruct Hnd as (_ & Hpre & Hpost & _). destruct Hin as [(a & Ha & Hm)%list_elem_of_fmap|(a & Ha & Hm)%list_elem_of_fmap];
    apply list_elem_of_filter in Hm as [_ Hm].
  - apply (Hpre 14); [|set_solver]. rewrite Ha. by apply list_elem_of_fmap_2.
  - apply Hpost. rewrite Ha. by apply list_elem_of_fmap_2.
Qed.

Lemma announces6_mandatory b update prefix mp nexthop :
  upd_wf b update → announces6 update prefix mp nexthop →
  is_Some (libbgp_update_find_attr update LIBBGP_PATTR_ORIGIN) ∧
  is_Some (libbgp_update_find_attr update LIBBGP_PATTR_AS_PATH) ∧
  existsb update_mp_reach_has_nlri (upd_attrs update) = true.
Proof.
  intros Hwf Hann.
  assert (Hex : existsb update_mp_reach_has_nlri (upd_attrs update) = true).
  { apply existsb_exists. destruct (announces6_split _ _ _ _ Hann) as (pre & post & Hat). destruct Hann as [_ (len & nlri & Hd & Hin)].
    exists mp. split; [apply list_elem_of_In; rewrite Hat; set_solver|]. unfold update_mp_reach_has_nlri. rewrite Hd.
    by destruct nlri; [apply elem_of_nil in Hin|]. }
  assert (Hadv : fsm_update_has_advertisements update = true).
  { unfold fsm_update_has_advertisements. by case_match. }
  destruct (announces_mandatory b update Hwf Hadv) as (? & ? & _). done.
Qed.

Lemma wp_route6_update b source update prefix mp nexthop weight is_ibgp :
  upd_wf b update → announces6 update prefix mp nexthop → p6_wf prefix →
  wp (route ← fsm_make_route6 source update mp prefix weight is_ibgp; fsm_update_from_route6 route)
     (λ r, r = only_route6 update nexthop prefix) no_err.
Proof.
  intros Hwf Hann (_ & _ & Hp). pose proof (upd_wf_counts _ _ Hwf) as (_ & Hcount & _).
  destruct (announces6_mandatory _ _ _ _ _ Hwf Hann) as ([o Ho] & [p Hpath] & _).
  pose proof (kept6_code _ _ _ _ _ Hwf Hann) as H14.
  apply wp_bind. eapply wp_mono; [by eapply wp_make_route6_exact| |done]. intros route (Hpre & Hhop & Hattrs).
  unfold fsm_update_from_route6. rewrite Hpre, Hhop, Hattrs. set (kept := filter _ _) in *.
  pose proof (length_filter (λ a, fsm_ipv6_route_attr a = true) (upd_attrs update)) as Hle. fold kept in Hle.
  apply wp_bind, wp_fail_never; [lia|]. apply wp_bind. eapply wp_mono; [apply wp_add_route_attrs; [|cbn; lia]| |done].
  { destruct Hwf as ((_ & _ & _ & (Hnd & _) & _) & _). eapply sublist_NoDup; [exact Hnd|]. apply fmap_sublist, sublist_filter. }
  intros r ->. cbn [upd_attrs libbgp_update_init app].
  replace (filter (λ a, fsm_ipv6_route_attr a = true) kept) with kept.
  2:{ symmetry. unfold kept. rewrite list_filter_filter. apply list_filter_iff. tauto. }
  set (u := with_attrs _ _).
  assert (Hf : ∀ T, fsm_ipv6_route_attr (pattr_set_defaults T) = true → libbgp_update_find_attr u T = libbgp_update_find_attr update T).
  { intros T HT. rewrite <-(kept6_find update T [] [] [] HT ltac:(constructor)). rewrite app_nil_r. done. }
  apply wp_bind. unfold fsm_update_ensure_origin. rewrite Hf, Ho by done. apply wp_ret.
  apply wp_bind. unfold fsm_update_ensure_empty_as_path. rewrite Hf, Hpath by done. apply wp_ret.
  cbn [fst snd]. unfold fsm_update_add_mp_reach6. apply wp_bind, wp_bind, wp_alloc_or_nomem, wp_ret.
  assert (Hadd : ∀ a, pa_type_code a = 14 → wp (libbgp_update_add_attr u a) (λ r, r = UpdateMsg [] (kept ++ [a]) []) no_err).
  { intros a Ha. unfold libbgp_update_add_attr, update_add_attr_with_cap. apply wp_bind, wp_bind, wp_fail_if; intros Hex.
    - exfalso. apply H14. apply existsb_exists in Hex as (c & Hc%list_elem_of_In & Heq%Z.eqb_eq). rewrite <-Ha, <-Heq. by apply list_elem_of_fmap_2.
    - apply wp_bind, wp_array_grow; [cbn; lia|unfold cap_inv; cbn; lia|unfold Update.SIZEOF_POINTER; lia|]. by apply wp_ret, wp_ret. }
  unfold only_route6, one_reach. fold kept. destruct (fsm_zero_addr6 (drop 16 nexthop)).
  all: apply wp_bind, wp_alloc_or_nomem; by apply Hadd.
Qed.

(** It is an UPDATE like the one it was cut from. *)
Lemma one_reach_form b w wa mp nexthop len nlri prefix :
  pattr_wf b mp → pa_data mp = d_mp_reach_ipv6 nexthop len nlri → prefix ∈ nlri →
  attr_form w wa (one_reach nexthop prefix) ∧ zlen (pattr_enc (one_reach nexthop prefix)) <= zlen (pattr_enc mp).
Proof.
  intros ((_ & _ & _ & _ & Hok & _) & _ & Hpar) Hd Hin. rewrite Hd in *. cbn [data_ok data_parsed] in *.
  destruct Hok as (Hlen & Hnh & Hb & Hps). destruct Hpar as [Hz Hns].
  rewrite Forall_forall in Hps, Hns. specialize (Hps _ Hin). specialize (Hns _ Hin).
  assert (Hhalf : length (take 16 nexthop) = 16%nat ∧ length (drop 16 nexthop) = 16%nat) by (rewrite length_take, length_drop; lia).
  split.
  - constructor; unfold one_reach; cbn [pa_flags pa_type_code pa_data]; try (unfold is_u8, LIBBGP_PATTR_FLAG_OPTIONAL; lia);
      unfold pa_type; cbn [pa_data]; destruct (fsm_zero_addr6 (drop 16 nexthop)); try done; cbn [data_ok data_parsed];
      rewrite Forall_singleton.
    + split_and!; [by left|rewrite length_app, length_replicate; lia| |done..]. apply Forall_app. split; [by apply Forall_take|].
      apply Forall_replicate. unfold is_u8. lia.
    + split_and!; [by right|rewrite length_app; lia| |done..]. by rewrite take_drop.
    + split; [|done]. by rewrite drop_app_length' by (change (Z.to_nat 16) with 16%nat; lia).
    + split; [|done]. rewrite drop_ge; [done|]. rewrite length_app. change (Z.to_nat 32) with 32%nat. lia.
  - assert (Hone : zlen (p6_enc prefix) <= zlen (prefixes6_enc nlri)).
    { unfold prefixes6_enc. clear -Hin. induction Hin as [p ps|p q ps _ IH]; cbn [fmap list_fmap concat]; rewrite length_app; lia. }
    pose proof (p6_enc_length prefix Hps) as Hpl. pose proof (prefix6_octets_range _ (proj2 (proj2 Hps))).
    assert (Hlarge : fsm_zero_addr6 (drop 16 nexthop) = false → len = 32).
    { intros Hnz. destruct Hlen as [-> | ->]; [|done]. exfalso. change (Z.to_nat 16) with 16%nat in Hz. rewrite Hz in Hnz. by vm_compute in Hnz. }
    set (a := one_reach nexthop prefix).
    assert (Hval : zlen (value_enc (pa_data a)) <= zlen (value_enc (pa_data mp)) ∧ zlen (value_enc (pa_data a)) <= 255).
    { rewrite Hd. unfold a, one_reach. cbn [pa_data]. assert (zlen (prefixes6_enc [prefix]) = zlen (p6_enc prefix)) as Hp1
        by (unfold prefixes6_enc; cbn [fmap list_fmap concat]; by rewrite app_nil_r).
      destruct (fsm_zero_addr6 (drop 16 nexthop)); [|specialize (Hlarge eq_refl); subst len];
        cbn [value_enc]; rewrite !length_app, !length_take, ?length_app, ?length_replicate; cbn [bgp_put_be16 length];
        destruct Hlen as [-> | Hl]; try subst len; change (Z.to_nat 16) with 16%nat; change (Z.to_nat 32) with 32%nat; lia. }
    assert (Hext : pa_extended a = false).
    { unfold pa_extended. replace (255 <? zlen (value_enc (pa_data a))) with false by lia. done. }
    unfold pattr_enc at 1. rewrite Hext. unfold pattr_enc. rewrite !length_app. destruct (pa_extended mp); cbn [bgp_put_be16 length]; lia.
Qed.

Lemma attrs_enc_app l1 l2 : zlen (attrs_enc (l1 ++ l2)) = zlen (attrs_enc l1) + zlen (attrs_enc l2).
Proof. unfold attrs_enc. rewrite fmap_app, concat_app, length_app. lia. Qed.

Lemma only_route6_wf b update prefix mp nexthop :
  upd_wf b update → announces6 update prefix mp nexthop → upd_wf b (only_route6 update nexthop prefix).
Proof.
  intros Hwf Hann. pose proof Hwf as ((_ & _ & _ & (Hnd & _) & _ & Hl & _) & _ & _ & Hf).
  destruct (announces6_mandatory _ _ _ _ _ Hwf Hann) as (Ho & Hpath & _). pose proof (kept6_code _ _ _ _ _ Hwf Hann) as H14.
  destruct (announces6_split _ _ _ _ Hann) as (pre & post & Hat). destruct Hann as [_ (len & nlri & Hd & Hin)].
  assert (Hmp : pattr_wf b mp) by (rewrite Forall_forall in Hf; apply Hf; rewrite Hat; set_solver).
  destruct (one_reach_form b b b mp nexthop len nlri prefix Hmp Hd Hin) as [Hform Henc].
  assert (Hone : ∀ T, T ≠ LIBBGP_PATTR_MP_REACH_IPV6 → Forall (λ a, pa_type a ≠ T) [one_reach nexthop prefix]).
  { intros T HT. apply Forall_singleton. unfold one_reach, pa_type. cbn [pa_data]. destruct (fsm_zero_addr6 (drop 16 nexthop)); congruence. }
  apply edited_wf.
  - constructor; cbn [upd_attrs only_route6].
    + rewrite fmap_app. apply NoDup_app. split_and!; [|intros c Hc Hc'|apply NoDup_singleton].
      * eapply sublist_NoDup; [exact Hnd|]. apply fmap_sublist, sublist_filter.
      * apply list_elem_of_singleton in Hc'. subst c. by apply H14.
    + apply Forall_app. split; [|by apply Forall_singleton]. apply Forall_forall. intros a [_ Ha]%list_elem_of_filter.
      rewrite Forall_forall in Hf. by apply Hf, attr_form_wf in Ha as [? _].
  - unfold prefixes_wf. cbn [upd_withdrawn upd_nlri only_route6]. split_and!; try apply Forall_nil_2; done.
  - unfold only_route6. rewrite kept6_find by (done || by apply Hone). done.
  - unfold only_route6. rewrite kept6_find by (done || by apply Hone). done.
  - done.
  - cbn [upd_attrs only_route6]. rewrite Hat in *. rewrite filter_app, filter_cons_False by (unfold fsm_ipv6_route_attr, pa_type; by rewrite Hd).
    pose proof (attrs_enc_filter fsm_ipv6_route_attr pre). pose proof (attrs_enc_filter fsm_ipv6_route_attr post).
    change (mp :: post) with ([mp] ++ post) in Hl. rewrite !attrs_enc_app in *.
    unfold attrs_enc at 3. unfold attrs_enc at 2 in Hl. cbn [fmap list_fmap concat] in *. rewrite app_nil_r in *. lia.
Qed.

Lemma only_route6_find update nexthop prefix T :
  T ≠ LIBBGP_PATTR_NEXT_HOP → T ≠ LIBBGP_PATTR_MP_REACH_IPV6 → T ≠ LIBBGP_PATTR_MP_UNREACH_IPV6 →
  libbgp_update_find_attr (only_route6 update nexthop prefix) T = libbgp_update_find_attr update T.
Proof.
  intros H1 H2 H3. unfold only_route6. apply kept6_find; [by destruct T|]. apply Forall_singleton.
  unfold one_reach, pa_type. cbn [pa_data]. destruct (fsm_zero_addr6 (drop 16 nexthop)); congruence.
Qed.

Lemma only_route6_tells update nexthop prefix :
  path_segments (only_route6 update nexthop prefix) = path_segments update ∧
  as4_asns (only_route6 update nexthop prefix) = as4_asns update.
Proof. unfold path_segments, as4_asns. by rewrite !only_route6_find. Qed.

Lemma only_route6_forwardable b policy update prefix mp nexthop :
  forwardable b policy update → announces6 update prefix mp nexthop →
  forwardable b policy (only_route6 update nexthop prefix).
Proof.
  intros [Hwf Hadv H4 H6 Hag Hfour] Hann. destruct (only_route6_tells update nexthop prefix) as [Hs Has].
  destruct (announces6_mandatory _ _ _ _ _ Hwf Hann) as (_ & _ & Hex).
  constructor; rewrite ?Hs, ?Has, ?only_route6_find by done; try done; [by eapply only_route6_wf| |auto].
  unfold fsm_update_has_advertisements. cbn [upd_nlri upd_attrs only_route6]. rewrite existsb_app. apply orb_true_iff. right.
  unfold one_reach. cbn [existsb]. by destruct (fsm_zero_addr6 (drop 16 nexthop)).
Qed.

Lemma only_route6_tellable b w update prefix mp nexthop :
  upd_wf b update → announces6 update prefix mp nexthop → tellable w update →
  tellable w (only_route6 update nexthop prefix).
Proof.
  unfold tellable. rewrite (proj1 (only_route6_tells update nexthop prefix)). intros Hwf Hann [Hfits Htell]. split; [|done].
  rewrite forallb_forall in Hfits. destruct (announces6_split _ _ _ _ Hann) as (pre & post & Hat).
  destruct Hann as [_ (len & nlri & Hd & Hin)]. destruct Hwf as (_ & _ & _ & Hall). rewrite Forall_forall in Hall.
  assert (Hmp : mp ∈ upd_attrs update) by (rewrite Hat; set_solver).
  destruct (one_reach_form b b b mp nexthop len nlri prefix (Hall _ Hmp) Hd Hin) as [_ Henc].
  specialize (Hfits mp (proj1 (list_elem_of_In _ _) Hmp)) as Hfit.
  apply forallb_forall. intros a Ha. apply list_elem_of_In in Ha. cbn [upd_attrs only_route6] in Ha.
  apply elem_of_app in Ha as [[_ Ha]%list_elem_of_filter| ->%list_elem_of_singleton].
  - by apply Hfits, list_elem_of_In.
  - unfold fits in *. lia.
Qed.

(** ** The event *)

Definition route6_added (source : Z) prefix update : fsm_event :=
  EventOf LIBBGP_EVENT_ROUTE_ADDED (EventData source None (Some prefix) (Some update)).

(** What the filters of the code say of it. *)
Lemma out_filters6_run b impl source update prefix mp nexthop :
  upd_wf b update → announces6 update prefix mp nexthop →
  ∃ permit, out_filters impl (route_event LIBBGP_EVENT_ROUTE_ADDED source (inr prefix) (Some update)) [] = (Ret permit, []) ∧
    (permit = true ↔ lets_out impl (inr prefix) (filter (λ a, fsm_ipv6_route_attr a = true) (upd_attrs update))).
Proof.
  intros Hwf Hann. unfold out_filters, fsm_out_filter4_permits, fsm_out_filter6_permits.
  cbn [ev_type ev_payload route_event evd_prefix4 evd_prefix6 evd_update evd_source_router_id lets_out].
  assert (Hcall : fsm_find_mp_reach6_for_prefix update prefix = Some mp) by by destruct Hann.
  destruct (po_out_filter6 (fs_policy impl)) as [f|]; cbn [filter_lets].
  2:{ exists true. by destruct (po_out_filter4 (fs_policy impl)). }
  pose proof (wp_make_route6_exact b source update prefix mp nexthop (po_route_weight (fs_policy impl)) (peer_is_ibgp impl) Hwf Hann) as Hwp.
  destruct (wp_run _ _ _ Hwp) as [(route & Hr & _ & _ & Ha)|(e & _ & [])].
  exists (bool_decide (last_match (λ r, match6 (rule_match r) prefix (rr_attrs (family := family6) route)) (f_rules f)
    LIBBGP_FILTER_PERMIT = LIBBGP_FILTER_PERMIT)). rewrite bool_decide_eq_true, Ha. split; [|done].
  rewrite Hcall. unfold try_call, mbind, M_bind. rewrite <-Ha.
  destruct (po_out_filter4 (fs_policy impl)); cbn [mret M_ret]; rewrite Hr; cbn [mret M_ret]; unfold libbgp_filter_apply_route6;
    rewrite (apply_loop_run _ (λ r, match6 (rule_match r) prefix (rr_attrs (family := family6) route)))
      by (intros; apply rule_matches6_scan); done.
Qed.

(** C8: An IPv6 route that is added to the table is announced to the peer in
    one packet when the session is established, the peer is not the source of
    the route, IPv6 routes were negotiated and the last rule of the outgoing
    IPv6 filter that matches, if there is one, permits it; otherwise nothing is
    sent, and either way the session stays as it is.  The UPDATE that is sent
    has one MP_REACH_NLRI with that prefix alone, built from the next hop of the
    one it came in, no IPv4 prefix and no withdrawal; path, AGGREGATOR,
    LOCAL_PREF and the next hop follow the same rules as for IPv4; the peer's
    parser reads the packet.  The side conditions are those of the IPv4
    theorem: [forwardable] (well-formed, AS4_PATH in agreement, a usable next
    hop of the policy), [tellable], no failing allocation, a handler that sends
    all it is given, and an edited UPDATE of at most 4077 octets. *)
Theorem fsm_route6_announced ans n out target b s source update prefix mp nexthop :
  let impl := sn_impl s in
  let policy := fs_policy impl in
  let local_asn := cfg_local_asn (fs_config impl) in
  let w := pe_4byte_asn (fs_peer impl) in
  let event := route6_added source prefix update in
  let cut := only_route6 update nexthop prefix in
  sends_fully ans → sn_heap s = [] →
  ln_out (fs_links impl) = Some out → handler_target s out = Some target →
  is_u32 local_asn → forwardable b policy update → announces6 update prefix mp nexthop → tellable w update →
  if decide (takes impl source (inr prefix) ∧
      lets_out impl (inr prefix) (filter (λ a, fsm_ipv6_route_attr a = true) (upd_attrs update)))
  then ∃ copy, fsm_prepared_update cut local_asn w (peer_is_ibgp impl) policy [] = (Ret copy, []) ∧
    forwarded policy local_asn w (peer_is_ibgp impl) cut copy ∧
    (zlen (upd_enc copy) <= 4077 →
     alone ans n (fsm_route_event_cb event) s = (inl false, s, [IoSend target (pkt_enc (update_packet copy))]) ∧
     bgp_packet_parse_as4_detail (pkt_enc (update_packet copy)) w true [] =
       (Ret (inl (Packet (p_update (upd_norm copy)) 2, zlen (pkt_enc (update_packet copy)))), []))
  else alone ans n (fsm_route_event_cb event) s = (inl false, s, []).
Proof.
  intros impl policy local_asn w event cut Hans Hh Hout Ht Hasn Hfw Hann Htell. pose proof (fw_wf _ _ _ Hfw) as Hwf.
  pose proof (a6_find _ _ _ _ Hann) as Hfind.
  assert (Hpw : p6_wf prefix).
  { destruct (announces6_split _ _ _ _ Hann) as (pre & post & Hat). destruct Hann as [_ (len & nlri & Hd & Hin)].
    destruct Hwf as (_ & _ & _ & Hall). rewrite Forall_forall in Hall. destruct (Hall mp ltac:(rewrite Hat; set_solver)) as ((_ & _ & _ & _ & Hok & _) & _).
    rewrite Hd in Hok. destruct Hok as (_ & _ & _ & Hps). rewrite Forall_forall in Hps. auto. }
  destruct (out_filters6_run b impl source update prefix mp nexthop Hwf Hann) as (permit & Hperm & Hlets).
  rewrite <-(if_takes _ _ _ _ (for_peer_takes impl LIBBGP_EVENT_ROUTE_ADDED source (inr prefix) (Some update) permit _ Hlets)).
  apply (announced ans n out target b s event
    (route ← fsm_make_route6 source update mp prefix (po_route_weight policy) (peer_is_ibgp impl);
     fsm_update_from_route6 route)); try done.
  - unfold fsm_send_route_event_update, event, route6_added. cbn [ev_type ev_payload evd_prefix4 evd_prefix6].
    unfold fsm_send_route_added6. cbn [ev_payload evd_prefix6 evd_update evd_source_router_id]. by rewrite Hfind.
  - apply wp_returns. by eapply wp_route6_update.
  - by eapply only_route6_forwardable.
  - by eapply only_route6_tellable.
Qed.
End Announce6.

(** ** An example *)

#[local] Existing Instance little_endian_host.

(** 2001:db8::/32 and 2001:db9::/32 through 2001:db8::1. *)
Definition hop6 : list Z := [0x20; 0x01; 0x0d; 0xb8] ++ replicate 11 0 ++ [1] ++ replicate 16 0.
Definition prefix6_b8 : libbgp_prefix6_t := Prefix6 ([0x20; 0x01; 0x0d; 0xb8] ++ replicate 12 0) 32.
Definition prefix6_b9 : libbgp_prefix6_t := Prefix6 ([0x20; 0x01; 0x0d; 0xb9] ++ replicate 12 0) 32.

Definition update6_example : libbgp_update_msg_t :=
  UpdateMsg []
    [Pattr 0x40 1 (d_origin 0);
     Pattr 0x40 2 (d_as_path [Segment 2 [64512; 65001]] false);
     Pattr 0x80 14 (d_mp_reach_ipv6 hop6 16 [prefix6_b9; prefix6_b8])] [].

Lemma bytes_check (l : list Z) : forallb (λ x, (0 <=? x) && (x <? 256)) l = true → bytes_ok l.
Proof. intros Hl. apply Forall_forall. intros x Hx%list_elem_of_In. rewrite forallb_forall in Hl. specialize (Hl x Hx). unfold is_u8. lia. Qed.

Lemma update6_example_wf : upd_wf false update6_example.
Proof.
  assert (Hp : Forall (λ p, p6_wf p ∧ p6_normalize p = p) [prefix6_b9; prefix6_b8]).
  { repeat apply Forall_cons_2; [..|by apply Forall_nil_2]; (split; [|by vm_compute]);
      (split; [done|]); (split; [by apply bytes_check; vm_compute|split; discriminate]). }
  assert (Hform : Forall (attr_form false false) (upd_attrs update6_example)).
  { repeat apply Forall_cons_2; [| | |by apply Forall_nil_2]; constructor; try done; try (cbn; unfold is_u8; lia).
    - apply Forall_singleton. split_and!; cbn; [lia..|]. repeat (apply Forall_cons_2 || apply Forall_nil_2); unfold asn_ok, is_u16; lia.
    - split; [done|]. by apply Forall_singleton.
    - cbn [pa_data data_ok]. split_and!; [by left|done|by apply bytes_check; vm_compute|]. eapply Forall_impl; [exact Hp|]. by intros ? [? _].
    - cbn [pa_data data_parsed]. split; [by vm_compute|]. eapply Forall_impl; [exact Hp|]. by intros ? [_ ?]. }
  apply edited_wf; [constructor; [apply (bool_decide_unpack _); by vm_compute|done]| |by eexists|by eexists|done|by vm_compute].
  unfold prefixes_wf. cbn [upd_withdrawn upd_nlri update6_example]. split_and!; try apply Forall_nil_2; done.
Qed.

(** The own address is 2001:db8::2. *)
Definition announce6_policy : fsm_policy :=
  FsmPolicy 0 0 0 false false None None None None (Prefix4 0 32) (Prefix6 (replicate 16 0) 128)
    0x0100000a ([0x20; 0x01; 0x0d; 0xb8] ++ replicate 11 0 ++ [2]) (replicate 16 0) false false false false false.

Lemma announce6_forwardable : forwardable false announce6_policy update6_example.
Proof.
  constructor; try done; [exact update6_example_wf|]. intros _. constructor; try done.
  all: split; [by apply bytes_check; vm_compute|done].
Qed.

Definition announcer6 : session :=
  with_impl announcer
    (FsmImpl (fs_config (sn_impl announcer)) announce6_policy LIBBGP_FSM_ESTABLISHED
       (FsmPeer 65002 1 90 true true false false false) (fs_clock (sn_impl announcer)) (fs_links (sn_impl announcer)) 2
       (fs_pending (sn_impl announcer)) (fs_notify (sn_impl announcer))).

Lemma announces6_example : announces6 update6_example prefix6_b8 (Pattr 0x80 14 (d_mp_reach_ipv6 hop6 16 [prefix6_b9; prefix6_b8])) hop6.
Proof. constructor; [by vm_compute|]. eexists _, _. split; [done|]. set_solver. Qed.

(** A route of another router is announced, one of the peer is not. *)
Lemma fsm_route6_announced_witness :
  (∃ copy msg p,
    alone grant 0 (fsm_route_event_cb (route6_added 2 prefix6_b8 update6_example)) announcer6 =
      (inl false, announcer6, [IoSend sample_target (pkt_enc (update_packet copy))]) ∧
    libbgp_update_restore_as_path copy [] = (Ret msg, []) ∧
    libbgp_update_find_attr msg LIBBGP_PATTR_AS_PATH = Some p ∧
    path_asns (as_path_segments p) = [4200000000; 64512; 65001]) ∧
  alone grant 0 (fsm_route_event_cb (route6_added 1 prefix6_b8 update6_example)) announcer6 = (inl false, announcer6, []).
Proof.
  assert (Hsend : sends_fully grant) by (intros ? ? ?; reflexivity).
  assert (Htell : tellable false update6_example) by (split; [vm_compute; reflexivity|right; vm_compute; reflexivity]).
  assert (Hasn : is_u32 4200000000) by (split; [discriminate|reflexivity]).
  pose proof (λ source, fsm_route6_announced grant 0 sample_out sample_target false announcer6 source update6_example prefix6_b8
    (Pattr 0x80 14 (d_mp_reach_ipv6 hop6 16 [prefix6_b9; prefix6_b8])) hop6
    Hsend eq_refl eq_refl eq_refl Hasn announce6_forwardable announces6_example Htell) as H. cbv zeta in H. split.
  - specialize (H 2). rewrite decide_True in H by (split; [split_and!; [reflexivity|right; discriminate|reflexivity]|exact I]).
    destruct H as (copy & Hprep & Hfo & Hrun).
    destruct (fo_path _ _ _ _ _ _ Hfo) as (msg & p & Hr & Hf & Hp). exists copy, msg, p.
    destruct Hrun as [Hrun _].
    + vm_compute in Hprep. injection Hprep as <-. vm_compute. discriminate.
    + split; [exact Hrun|]. split; [exact Hr|]. split; [exact Hf|exact Hp].
  - specialize (H 1). rewrite decide_False in H; [exact H|]. intros [(_ & [Hs|Hs] & _) _]; [discriminate|by apply Hs].
Defined.
